(* ===== verification/_CoqProject ===== *)
-Q . S2P
Prelude.v
Threads.v
Floats.v
PostingCodec.v
PostingStore.v
IndexWriter.v
Hashing.v
FileAccess.v
FileFormat.v
BlockCache.v
CacheSteps.v
BlockWorker.v
SpinLock.v
Mphf.v
TermDictionary.v
PathSidecar.v
IndexReader.v
DocData.v
Composites.v
Unions.v
ReaderTree.v
AdvancedReader.v
EvalExpression.v
Executor.v
Query.v
QueryMeaning.v
IndexBuilder.v
IndexFile.v
MergeView.v
Merge.v
MergeStore.v
Runtime.v
ContextReaders.v
SearchQueue.v
Documents.v
Stemmer.v
SmartTokenizer.v
Context.v
VectorIndex.v
CosineScore.v
VectorSearch.v
VectorInsert.v
VectorRuntime.v
HttpText.v
Shennong.v
WasmDecode.v
WasmApi.v
BatchIndex.v
FileBlocks.v
