(* ===== verification/Prelude.v ===== *)
(** MoonShot (RustBlade) verification library.

    MoonShot is a search engine; RustBlade, under src/RustBlade/src, is its Rust
    implementation. This library models its core and proves it correct. File
    names below are relative to src/RustBlade/src.

    * How the program is put together

    Documents are tokenized and handed to a writer, which turns each token list
    into postings (a document id and a frequency per term and stream) in an
    in-memory posting store. Saving writes the store as an index file: a header,
    the head and leaf pages of the term dictionary, one fixed-size record per
    document, pages of encoded postings, and a minimal perfect hash over the
    terms. Searching compiles a query string to an evaluation tree, builds a
    tree of document readers over the postings, and collects the best documents
    in a bounded heap. An index may have a second, delta index beside it, whose
    documents are merged in at search time; the merge writes both as one
    file, and loading reads a file either whole or page by page through a cache.
    A context answers searches in its own thread or through sixteen workers that
    share a queue. Around it are an interactive program and batch indexing
    (bin/moon.rs), an HTTP service (bin/shennong.rs) and the bindings of a
    browser (Tools/moon_wasm/WasmApi.rs).

    * What models what

    - Prelude: machine integers as [Z] with their wrap-around written out, bytes
      and strings, slices and in-place updates of byte buffers, the result type
      of Rust/Error.rs, a stable sort, the tactics and hint database of the
      library.
    - Threads: lists of threads: one element replaced, and sums of weights, which
      bound runs.
    - Floats: [f32] and [f64] as the IEEE 754 values of the Standard Library's
      SpecFloat; the C library's [ln] and [log2] are the class [Libm].
    - PostingCodec: PostingList::encode (PostingStore.rs), UnifiedDecoder.rs, and
      the functions that split encoded postings over pages (IndexSerializer.rs
      for the builder, IndexContext.rs for the merge).
    - PostingStore: PostingStore.rs, its hash maps as finite maps; the store's
      abstract meaning is a map from stream key to a map from document to
      frequency.
    - IndexWriter: AdvancedIndexWriter.rs. The order in which its hash map of
      term counts is drained is the class [HashOrder].
    - Hashing: HashFunctions.rs, ElementFilter.rs, and the term hash of
      BlockTable.rs.
    - FileFormat: the on-disk records of BlockTable.rs and their validation.
    - Mphf: TryBuildTermMphf and BuildTermMphf (IndexSerializer.rs), and
      SetTermMphf, FindTermDataMphf and their companions (BlockTable.rs).
    - TermDictionary: the lookup of a term over head entries and leaf pages, and
      the perfect hash in front of it (BlockTable.rs, IndexSerializer.rs). The
      pages come from the class [BlockSource].
    - PathSidecar, DocData: the table of path prefixes and its sidecar, the
      256-byte document records, their lookups, their decoding, and their
      renumbering of prefixes in a merge (IndexContext.rs, IndexSerializer.rs).
      The order of the document hash map is the class [DocOrder].
    - IndexBuilder: BuildBlocks with its page and leaf writers
      (IndexSerializer.rs), and what a reader opened on its pages reads.
    - FileAccess, BlockCache: positional and sequential reads (Utils/FileAccess.rs)
      and the page cache (BlockTable.rs): slots, the table from blocks to slots,
      pins, the eviction clock, the three modes of GetBlock. The open file is an
      [OsFile]; [file_holds] and [reads_fully] say what a read may deliver.
    - CacheSteps, SpinLock: the same cache, and the reader-writer spin lock, as
      steps of any number of threads. A lookup that meets another thread's
      load waits on the condition variable of the cache; a publication notifies
      in a step of its own, and a wake-up may be spurious.
    - BlockWorker: the thread of the cache that serves asynchronous reads, its
      ring of requests, and the calls that submit, wait and stop it
      (BlockTable.rs).
    - FileBlocks: the writes of FileAccess.rs and FileBlockManager.rs, which
      keeps blocks in a file.
    - IndexFile: the block table over its two pools, Save, decode and the loaders
      (IndexSerializer.rs), BuildIndexData, LoadFromBytes and LoadIndex
      (IndexContext.rs). [answers ix store] is what an index owes its store.
    - MergeView, Merge, MergeStore: IndexContext::Merge. MergeView has the cursor
      over leaf pages and the pages of a batch, Merge the loop and the file,
      MergeStore the store that the file is an index of.
    - IndexReader: the trait of IndexReader.rs as the class [IndexReader], and
      its contract, the class [ReaderSpec]: [reads r ds] says that the reader [r]
      has exactly the documents [ds] left, in increasing order.
    - Composites, Unions, ReaderTree: the six readers of IndexReaderImpl.rs, with
      the proof that each keeps the contract over any children that keep it.
      Composites holds the code of all six and the intersection, Unions the
      union and the weak conjunction, ReaderTree the boost, difference and
      vector readers and the tower of readers that a query tree needs.
    - AdvancedReader: AdvancedIndexReader.rs, which reads one term's postings
      from pages. The block table it reads from is the class [TermSource].
    - EvalExpression: EvalExpression.rs and IndexSearchCompiler.rs. The tokenizer
      and the embedding model are classes.
    - Executor: IndexSearchExecutor.rs. The standard library's binary heap is the
      class [MinHeap] with the class [MinHeapSpec] of its documented behaviour.
    - Query: the parts of IndexContext.rs that build readers from a query tree
      (with weak-conjunction flattening and pruning) and run one search task.
    - QueryMeaning: what compiled queries match, in terms of which documents hold
      which terms.
    - Runtime: the immutable SearchRuntime a query runs on and the statistics it
      reads (IndexContext.rs); [searches rt store] is what it owes a store.
    - ContextReaders: the second copy of the reader builder, of IndexContext
      itself; GetReader gives the context it leaves, whose vector indexes it may
      have built.
    - SearchQueue: the search workers of a context, their queue with its
      condition variable, and the owner's calls, as steps (IndexContext.rs).
      [executes_task] is what a worker does with a task: a search by Runtime,
      with the vector index of the delta in either of its two states, since the
      owner may build it while workers run.
    - Stemmer, SmartTokenizer: SmartTokenizer.rs. Segmentation, the normal form
      and the tables of characters are the class [Unicode].
    - Documents: AddDocument's field streams and their writes (IndexContext.rs),
      over any tokenizer ([TokenizerSpec]).
    - Context: the life of an IndexContext and its delta: construction, loading,
      id allocation, adding, building, saving, reloading, merging. Files are a
      map from paths to contents with the calls the code makes on them
      ([OsFiles]). A session is a sequence of the [Command]s of the interactive
      program; [spec_command] is the same command on an abstract machine of
      stores ([Corpora]). The program and the library each have a function for
      the name of the delta file; [plain_name_delta] says when they agree.
    - BatchIndex: index_path (bin/moon.rs): ids, batches, and their publication
      as the index or as a delta that is merged at once.
    - VectorIndex: Embeddings.rs, the hashed embedding, the scores and the
      layered neighbour graph. The binary heaps are the classes [NodeHeap] and
      [NodeHeapSpec].
    - CosineScore: the cosine of two nonzero stored vectors is a number.
    - VectorSearch, VectorInsert: the invariant [graph_ok] of the graph, its
      greedy and beam searches, and insertion.
    - VectorRuntime: BuildVectorRuntime and the vector searches of a context.
    - HttpText, Shennong: percent-decoding and JSON strings, and the service over
      them (bin/shennong.rs). [wait] gives no results when a task is never
      answered.
    - WasmDecode, WasmApi: the decoders that the browser's inspector has of its
      own, and the searches with the context they keep (WasmApi.rs).

    A record of the program is a [Record] with its field names; a method is a
    definition named after it, with a short prefix where several types have the
    method ([and_GoNext], [adv_GoNext], [decoder_GoNext]). Methods that change
    [self] return the new value. Rust panics and [None]/[Err] returns are values
    of an option or result type.

    * What the theorems show

    The store and the writer implement their finite-map meaning, keep posting
    lists sorted, and keep the counters right. Encoding and decoding postings
    round-trip, splitting never cuts a pair in the builder (and can in the
    merge), and the decoder is safe on arbitrary bytes. File records round-trip,
    and validation accepts exactly the contiguous layouts. The perfect hash finds
    every term with its own data. Every reader keeps the contract, terminates,
    and reads the documents its name promises; a reader built from any query
    tree reads what the reference evaluation [eval] gives; a search returns the
    best documents, in order, none better left out, when no score is NaN. The
    meaning of compiled queries is stated for the default mode.

    From a store to its answers there is one chain: BuildBlocks_search (pages),
    EncodeDocData_lookup (records), index_answers (the built index, the file
    loaded from memory, the file opened through the cache) and Merge_answers (a
    base and its delta become an index of both stores). GetBlock_page and
    GetBlock_finds are what the cache owes one thread; shared_cache_safe extends
    the first to interleavings of threads in which no sequential call asks for a
    block that is being loaded (sequential_hands_out_unread_page shows why), and
    waits_end says that a thread asleep is woken and looks again.
    worker_serves_requests and search_tasks_answered do the same for the
    requests of the cache and for search tasks; ExitBlockThread_can_hang and
    panics_end_service are runs in which they fail.

    session_refines relates every command of a session to the stores behind it,
    session_search_top_k and Wait_top_k search them, in the caller's thread and
    through the queue: these ask for positive stream averages, and say of a
    vector query without text that it misses the delta while the delta's vector
    index is not built. index_path_indexes relates batch indexing to the stores,
    search_request_answers an HTTP request to the task it enqueues, and
    cache_keeps_answers the searches of the browser to searches without a cache.

    Some theorems show what goes wrong: save_drops_earlier_delta,
    gap_blocks_index, base_offset_write_lost, PostingSplitLength_breaks_pair,
    mixed_fields_drop_a_term, minus_query_meaning (several unwanted terms),
    request_can_panic and first_page_shown_as_continuation.

    * Fuel and termination

    Loops whose end depends on other readers take a fuel argument and return
    [None] without it. Their theorems use [converges f x]: for some amount of
    fuel and every larger one, [f] gives [x]. Termination is therefore part of
    each property. AdvancedReader's loops are bounded by the number of
    continuation blocks, and AdvancedIndexReader_loops_terminate shows that more
    rounds change nothing. The decoder's seek loop takes the bytes left in its
    range as its bound, and decoder_GoUntil_terminates shows that this suffices.
    [merge_fuel] allows two turns of the merge loop for each entry the leaf pages
    can hold, one to add it and one to write out a full batch before it;
    Merge_answers shows that the loop ends within it.

    * What is not modelled

    Not modelled: printing (SetDebug), option parsing and the benchmark tools of
    bin/moon.rs, page-aligned allocation (MemOperation.rs), the Unicode
    segmenter, serde_json and the text of floats, sockets and clocks. Files are
    whole values under a path: temporary files of the merge and partial writes
    are not part of the model. A delta context is opened without a delta of its
    own, and the cache of stream averages, keyed by the address of a store,
    counts as current. The readers take the vector searches as parameters, of
    which [finds_documents] asks that they give documents of their store, each
    once; VectorRuntime models them on their own, and shows that an index that
    was not built gives nothing. That the averages of the streams are positive is
    a hypothesis of the searches, evaluated in their witnesses. A lock whose
    owner panicked is not modelled.
    GetBlock is seen by lookups and by the merge as a page source: each call
    starts from the table's state, because every state without pins serves the
    same pages. Merge_answers asks that frequency bytes stay below 128, since
    the merge splits postings as if they were variable-length numbers
    (PostingSplitLength_breaks_pair). A sort of vector scores with a NaN among
    them counts as a panic. *)

From Stdlib Require Import ZArith Lia Bool List.
From Stdlib Require Ascii String.
From stdpp Require Import base list list_numbers gmap sorting.

Declare Scope moon_scope.
Delimit Scope moon_scope with moon.

(** * Machine integers

    A [w]-bit unsigned integer is a [Z] in [0 .. 2^w - 1]; every operation that
    can leave the range writes its wrap-around out. *)

Definition in_u (w x : Z) : Prop := (0 <= x < 2 ^ w)%Z.

Definition u64_max : Z := (2 ^ 64 - 1)%Z.
Definition u32_max : Z := (2 ^ 32 - 1)%Z.
Definition u16_max : Z := (2 ^ 16 - 1)%Z.

Definition wrap (w x : Z) : Z := (x mod 2 ^ w)%Z.
Definition wrapping_add (w x y : Z) : Z := wrap w (x + y).
Definition wrapping_mul (w x y : Z) : Z := wrap w (x * y).
Definition rotate_left (w x r : Z) : Z :=
  Z.lor (wrap w (Z.shiftl x r)) (Z.shiftr x (w - r)).
Definition checked_add (w x y : Z) : option Z :=
  if (x + y <? 2 ^ w)%Z then Some (x + y)%Z else None.
Definition checked_mul (w x y : Z) : option Z :=
  if (x * y <? 2 ^ w)%Z then Some (x * y)%Z else None.
Definition saturating_sub (x y : Z) : Z := Z.max 0 (x - y).

(** Signed reading of a [w]-bit pattern ([as i8], [as i32]). *)
Definition to_signed (w x : Z) : Z :=
  let m := wrap w x in if (m <? 2 ^ (w - 1))%Z then m else (m - 2 ^ w)%Z.

(** * Byte strings

    Rust's [[u8]] and [str] (its UTF-8 bytes) are lists of byte values; [str]'s
    [Ord] is the lexicographic order of those bytes. *)

Abbreviation bytes := (list Z).
Abbreviation str := (list Z).

Definition is_bytes (l : bytes) : Prop := Forall (in_u 8) l.

Definition Z_of_ascii (c : Ascii.ascii) : Z := Z.of_nat (Ascii.nat_of_ascii c).

Fixpoint of_string (s : String.string) : str :=
  match s with
  | String.EmptyString => []
  | String.String c s' => Z_of_ascii c :: of_string s'
  end.
Arguments of_string _%_string_scope.

Fixpoint le_bytes (n : nat) (v : Z) : bytes :=
  match n with
  | O => []
  | S n' => (v mod 256)%Z :: le_bytes n' (v / 256)%Z
  end.

Fixpoint of_le (l : bytes) : Z :=
  match l with
  | [] => 0%Z
  | b :: l' => (b + 256 * of_le l')%Z
  end.

Fixpoint str_compare (a b : str) : comparison :=
  match a, b with
  | [], [] => Eq
  | [], _ :: _ => Lt
  | _ :: _, [] => Gt
  | x :: a', y :: b' =>
      match (x ?= y)%Z with
      | Eq => str_compare a' b'
      | c => c
      end
  end.

Definition str_ltb (a b : str) : bool :=
  match str_compare a b with Lt => true | _ => false end.
Definition str_leb (a b : str) : bool :=
  match str_compare a b with Gt => false | _ => true end.
Definition str_lt (a b : str) : Prop := str_ltb a b = true.
Definition str_le (a b : str) : Prop := str_leb a b = true.

(** [&data[off .. off + len]] where the code has checked the range, and
    [data[off .. off + src.len()].copy_from_slice(src)]. *)
Definition slice {A} (off len : nat) (l : list A) : list A := take len (drop off l).
Definition splice {A} (off : nat) (src l : list A) : list A :=
  take off l ++ src ++ drop (off + length src) l.

(** [data.get(a..b)]: [None] when the range is not inside the slice. *)
Definition get_range {A} (l : list A) (a b : nat) : option (list A) :=
  if bool_decide (a <= b /\ b <= length l) then Some (slice a (b - a) l) else None.

Definition starts_with (s p : str) : bool := bool_decide (take (length p) s = p).
Definition ends_with (s p : str) : bool :=
  bool_decide (length p <= length s /\ drop (length s - length p) s = p).

(** * Errors *)

(** The variants of RustBladeError that the modelled code returns. *)
Inductive RustBladeError :=
  | Io
  | InvalidFormat
  | IndexNotBuilt.

Inductive result (A : Type) :=
  | Ok (a : A)
  | Err (e : RustBladeError).
Arguments Ok {A} a.
Arguments Err {A} e.

Definition result_bind {A B} (m : result A) (f : A -> result B) : result B :=
  match m with Ok a => f a | Err e => Err e end.
Definition ok_or {A} (o : option A) (e : RustBladeError) : result A :=
  match o with Some a => Ok a | None => Err e end.

Notation "'let?' x ':=' m 'in' k" := (result_bind m (fun x => k))
  (at level 10, x pattern, m at level 100, k at level 200) : moon_scope.
Notation "'opt' x ':=' m 'in' k" := (match m with Some x => k | None => None end)
  (at level 10, x pattern, m at level 100, k at level 200) : moon_scope.

(** * Automation *)

Create HintDb moon discriminated.
Create Rewrite HintDb moon_len.

#[export] Hint Rewrite @length_app @length_take @length_drop @length_map
  @length_replicate @length_cons @length_seq @length_insert : moon_len.

Ltac len_simpl := autorewrite with moon_len in *; cbn [length] in *.
(** Goals about list lengths. *)
Ltac len_lia := len_simpl; lia.

(** Case analysis on the boolean tests of a definition. *)
Ltac bool_to_prop :=
  repeat match goal with
  | H : _ && _ = true |- _ => apply andb_true_iff in H as [? ?]
  | H : _ || _ = false |- _ => apply orb_false_iff in H as [? ?]
  | H : negb _ = true |- _ => apply negb_true_iff in H
  | H : negb _ = false |- _ => apply negb_false_iff in H
  | H : (_ <? _)%Z = true |- _ => apply Z.ltb_lt in H
  | H : (_ <? _)%Z = false |- _ => apply Z.ltb_ge in H
  | H : (_ <=? _)%Z = true |- _ => apply Z.leb_le in H
  | H : (_ <=? _)%Z = false |- _ => apply Z.leb_gt in H
  | H : (_ =? _)%Z = true |- _ => apply Z.eqb_eq in H
  | H : (_ =? _)%Z = false |- _ => apply Z.eqb_neq in H
  | H : (_ <? _)%nat = true |- _ => apply Nat.ltb_lt in H
  | H : (_ <? _)%nat = false |- _ => apply Nat.ltb_ge in H
  | H : (_ <=? _)%nat = true |- _ => apply Nat.leb_le in H
  | H : (_ <=? _)%nat = false |- _ => apply Nat.leb_gt in H
  | H : (_ =? _)%nat = true |- _ => apply Nat.eqb_eq in H
  | H : (_ =? _)%nat = false |- _ => apply Nat.eqb_neq in H
  | H : bool_decide _ = true |- _ => apply bool_decide_eq_true in H
  | H : bool_decide _ = false |- _ => apply bool_decide_eq_false in H
  end.

(** [lia] with the defining equations of [/] and [mod]. *)
Ltac dlia := Z.to_euclidean_division_equations; nia.

Ltac case_test :=
  match goal with
  | |- context [if ?b then _ else _] => destruct b eqn:?
  | H : context [if ?b then _ else _] |- _ => destruct b eqn:?
  end; bool_to_prop; try (exfalso; lia).

(** * Integer lemmas *)

Section integers.
Local Open Scope Z_scope.

Lemma wrap_range w x : 0 <= w -> in_u w (wrap w x).
Proof. intros Hw. apply Z.mod_pos_bound. lia. Qed.

Lemma wrap_small w x : in_u w x -> wrap w x = x.
Proof. intros Hx. apply Z.mod_small, Hx. Qed.

Lemma wrap_wrap w x : 0 <= w -> wrap w (wrap w x) = wrap w x.
Proof. intros Hw. apply wrap_small, wrap_range, Hw. Qed.

(** Bounds of the bit operations on [w]-bit values. *)
Lemma in_u_testbit w x :
  0 <= w -> in_u w x <-> 0 <= x /\ (forall i, w <= i -> Z.testbit x i = false).
Proof.
  intros Hw. split.
  - intros [H0 Hlt]. split; [done|]. intros i Hi.
    rewrite <- (Z.mod_small x (2 ^ w)) by done. apply Z.mod_pow2_bits_high; lia.
  - intros [H0 Hb]. split; [done|].
    assert (x = x mod 2 ^ w) as ->; [|apply Z.mod_pos_bound; lia].
    apply Z.bits_inj'. intros i Hi. destruct (Z.lt_ge_cases i w).
    + by rewrite Z.mod_pow2_bits_low.
    + rewrite Z.mod_pow2_bits_high by lia. by apply Hb.
Qed.

Lemma in_u_lxor w x y : 0 <= w -> in_u w x -> in_u w y -> in_u w (Z.lxor x y).
Proof.
  intros Hw Hx Hy. apply in_u_testbit in Hx as [Hx0 Hx], Hy as [Hy0 Hy]; try done.
  apply in_u_testbit; [done|]. split; [by apply Z.lxor_nonneg|].
  intros i Hi. by rewrite Z.lxor_spec, Hx, Hy.
Qed.

Lemma in_u_lor w x y : 0 <= w -> in_u w x -> in_u w y -> in_u w (Z.lor x y).
Proof.
  intros Hw Hx Hy. apply in_u_testbit in Hx as [Hx0 Hx], Hy as [Hy0 Hy]; try done.
  apply in_u_testbit; [done|]. split; [by apply Z.lor_nonneg|].
  intros i Hi. by rewrite Z.lor_spec, Hx, Hy.
Qed.

Lemma in_u_shiftr w x r : 0 <= r -> in_u w x -> in_u w (Z.shiftr x r).
Proof.
  intros Hr [H0 Hlt]. split; [by apply Z.shiftr_nonneg|].
  rewrite Z.shiftr_div_pow2 by done.
  apply Z.le_lt_trans with x; [|done]. apply Z.div_le_upper_bound; nia.
Qed.

Lemma in_u_mono w w' x : w <= w' -> in_u w x -> in_u w' x.
Proof.
  intros Hw [H0 Hlt]. split; [done|]. apply Z.lt_le_trans with (2 ^ w); [done|].
  apply Z.pow_le_mono_r; lia.
Qed.

Lemma in_u_rotate_left w x r :
  0 <= r <= w -> in_u w x -> in_u w (rotate_left w x r).
Proof.
  intros Hr Hx. apply in_u_lor; [lia|apply wrap_range; lia|apply in_u_shiftr; [lia|done]].
Qed.
End integers.

#[export] Hint Resolve wrap_range in_u_lxor in_u_lor in_u_shiftr in_u_rotate_left : moon.
#[export] Hint Extern 1 (in_u _ (wrapping_mul _ _ _)) => apply wrap_range; lia : moon.
#[export] Hint Extern 1 (in_u _ (wrapping_add _ _ _)) => apply wrap_range; lia : moon.
#[export] Hint Extern 2 (_ <= _)%Z => lia : moon.
#[export] Hint Extern 2 (_ < _)%Z => lia : moon.
#[export] Hint Extern 2 (_ <= _ <= _)%Z => lia : moon.

(** * Byte and slice lemmas *)

Section byte_lemmas.
Local Open Scope Z_scope.

Lemma length_le_bytes n v : length (le_bytes n v) = n.
Proof. revert v; induction n as [|n IH]; intros v; simpl; [done|]. by rewrite IH. Qed.

Lemma is_bytes_le_bytes n v : is_bytes (le_bytes n v).
Proof.
  revert v; induction n as [|n IH]; intros v; constructor; [|apply IH].
  change 256 with (2 ^ 8). by apply (wrap_range 8).
Qed.

Lemma of_le_le_bytes n v :
  0 <= v -> of_le (le_bytes n v) = v mod 2 ^ (8 * Z.of_nat n).
Proof.
  revert v; induction n as [|n IH]; intros v Hv; cbn [le_bytes of_le].
  - by rewrite Z.mod_1_r.
  - rewrite IH by (apply Z.div_pos; lia).
    replace (8 * Z.of_nat (S n)) with (8 + 8 * Z.of_nat n) by lia.
    rewrite Z.pow_add_r by lia. change (2 ^ 8) with 256.
    rewrite Z.rem_mul_r by lia. lia.
Qed.

(** Reading back what was written. *)
Lemma of_le_le_bytes_id n v :
  in_u (8 * Z.of_nat n) v -> of_le (le_bytes n v) = v.
Proof. intros [H0 Hlt]. rewrite of_le_le_bytes by done. by apply Z.mod_small. Qed.

Lemma of_le_range l : is_bytes l -> in_u (8 * Z.of_nat (length l)) (of_le l).
Proof.
  induction 1 as [|b l Hb _ IH]; cbn [of_le length]; [done|].
  replace (8 * Z.of_nat (S (length l))) with (8 + 8 * Z.of_nat (length l)) by lia.
  unfold in_u in *. rewrite Z.pow_add_r by lia. change (2 ^ 8) with 256 in *. nia.
Qed.

Lemma le_bytes_of_le l : is_bytes l -> le_bytes (length l) (of_le l) = l.
Proof.
  induction 1 as [|b l Hb _ IH]; cbn [of_le length le_bytes]; [done|].
  unfold in_u in Hb. change (2 ^ 8) with 256 in Hb.
  replace (b + 256 * of_le l) with (of_le l * 256 + b) by lia.
  rewrite Z.div_add_l by lia. rewrite (Z.div_small b 256) by lia.
  rewrite Z.add_0_r, IH. f_equal.
  rewrite Z.add_comm, Z.mod_add by lia. apply Z.mod_small; lia.
Qed.
End byte_lemmas.

#[export] Hint Rewrite length_le_bytes : moon_len.
#[export] Hint Resolve is_bytes_le_bytes : moon.

Section slices.
Context {A : Type}.
Implicit Types l src : list A.

Lemma length_slice off len l :
  off + len <= length l -> length (slice off len l) = len.
Proof. intros. unfold slice. len_lia. Qed.

Lemma length_splice off src l :
  off + length src <= length l -> length (splice off src l) = length l.
Proof. intros. unfold splice. len_lia. Qed.

Lemma lookup_slice off len l i :
  i < len -> slice off len l !! i = l !! (off + i).
Proof. intros. unfold slice. by rewrite lookup_take_lt, lookup_drop. Qed.

Lemma slice_app_skip off len l1 l2 :
  off = length l1 -> slice off len (l1 ++ l2) = take len l2.
Proof. intros ->. unfold slice. by rewrite drop_app_length. Qed.

Lemma lookup_splice_lt off src l i :
  off <= length l -> i < off -> splice off src l !! i = l !! i.
Proof.
  intros. unfold splice. rewrite lookup_app_l by len_lia. by apply lookup_take_lt.
Qed.

Lemma lookup_splice_in off src l i :
  off <= length l -> off <= i < off + length src ->
  splice off src l !! i = src !! (i - off).
Proof.
  intros. unfold splice. rewrite lookup_app_r by len_lia.
  rewrite lookup_app_l by len_lia. f_equal. len_lia.
Qed.

Lemma lookup_splice_ge off src l i :
  off + length src <= length l -> off + length src <= i ->
  splice off src l !! i = l !! i.
Proof.
  intros. unfold splice. rewrite lookup_app_r by len_lia.
  rewrite lookup_app_r by len_lia. rewrite lookup_drop. f_equal. len_lia.
Qed.

(** The bytes just written are read back. *)
Lemma slice_splice_same off src l :
  off <= length l -> slice off (length src) (splice off src l) = src.
Proof.
  intros. unfold slice, splice. rewrite drop_app_ge by len_lia.
  replace (off - length (take off l)) with 0 by len_lia.
  rewrite drop_0. by apply take_app_length.
Qed.

(** A write does not disturb a range before or after it. *)
Lemma slice_splice_before off src l o len :
  off <= length l -> o + len <= off -> slice o len (splice off src l) = slice o len l.
Proof.
  intros. apply list_eq. intros i. destruct (decide (i < len)).
  - rewrite !lookup_slice by lia. apply lookup_splice_lt; lia.
  - unfold slice. rewrite !lookup_take_ge by lia. done.
Qed.

Lemma slice_splice_after off src l o len :
  off + length src <= length l -> off + length src <= o ->
  slice o len (splice off src l) = slice o len l.
Proof.
  intros. apply list_eq. intros i. destruct (decide (i < len)).
  - rewrite !lookup_slice by lia. apply lookup_splice_ge; lia.
  - unfold slice. rewrite !lookup_take_ge by lia. done.
Qed.

Lemma slice_slice o1 n1 o2 n2 l :
  o2 + n2 <= n1 -> slice o2 n2 (slice o1 n1 l) = slice (o1 + o2) n2 l.
Proof.
  intros. apply list_eq. intros i. destruct (decide (i < n2)).
  - rewrite !lookup_slice by lia. f_equal. lia.
  - unfold slice. rewrite !(lookup_take_ge _ n2) by lia. done.
Qed.

Lemma slice_full l : slice 0 (length l) l = l.
Proof. unfold slice. rewrite drop_0. apply firstn_all. Qed.

Lemma get_range_Some l a b r :
  get_range l a b = Some r <-> a <= b /\ b <= length l /\ r = slice a (b - a) l.
Proof.
  unfold get_range. case_bool_decide as E; split.
  - intros [= <-]. by destruct E.
  - intros (? & ? & ->). done.
  - done.
  - intros (? & ? & _). by destruct E.
Qed.
End slices.

Section str_order.
Lemma str_compare_eq a b : str_compare a b = Eq <-> a = b.
Proof.
  revert b. induction a as [|x a IH]; intros [|y b]; simpl; try done.
  destruct (Z.compare_spec x y) as [->|Hlt|Hlt].
  - rewrite IH. split; congruence.
  - split; [done|]. intros [= -> _]. lia.
  - split; [done|]. intros [= -> _]. lia.
Qed.

Lemma str_compare_antisym a b : str_compare b a = CompOpp (str_compare a b).
Proof.
  revert b. induction a as [|x a IH]; intros [|y b]; simpl; try done.
  rewrite (Z.compare_antisym x y). destruct (x ?= y)%Z; simpl; auto.
Qed.

Lemma str_lt_trans a b c : str_lt a b -> str_lt b c -> str_lt a c.
Proof.
  unfold str_lt, str_ltb. revert b c.
  induction a as [|x a IH]; intros [|y b] [|z c]; simpl; try done.
  intros Hab Hbc. revert Hab Hbc.
  destruct (Z.compare_spec x y), (Z.compare_spec y z), (Z.compare_spec x z);
    intros Hab Hbc; try done; try lia. by eapply IH.
Qed.

Lemma str_lt_irrefl a : ~ str_lt a a.
Proof. unfold str_lt, str_ltb. by rewrite (proj2 (str_compare_eq a a) eq_refl). Qed.

Lemma str_leb_negb_ltb a b : str_leb a b = negb (str_ltb b a).
Proof.
  unfold str_leb, str_ltb. rewrite (str_compare_antisym a b). by destruct (str_compare a b).
Qed.

Lemma str_lt_or_eq_or_gt a b : str_lt a b \/ a = b \/ str_lt b a.
Proof.
  unfold str_lt, str_ltb. rewrite (str_compare_antisym a b).
  destruct (str_compare a b) eqn:E; simpl; auto. right; left. by apply str_compare_eq.
Qed.

Lemma str_le_iff a b : str_le a b <-> str_lt a b \/ a = b.
Proof.
  unfold str_le. rewrite str_leb_negb_ltb. split.
  - intros H. apply negb_true_iff in H.
    destruct (str_lt_or_eq_or_gt a b) as [?|[?|Hgt]]; auto. unfold str_lt in Hgt. congruence.
  - intros [H|<-]; apply negb_true_iff.
    + destruct (str_ltb b a) eqn:E; [|done]. exfalso.
      exact (str_lt_irrefl a (str_lt_trans _ _ _ H E)).
    + destruct (str_ltb a a) eqn:E; [|done]. exfalso. exact (str_lt_irrefl a E).
Qed.

Lemma str_ltb_false a b : str_ltb a b = false <-> str_le b a.
Proof. unfold str_le. rewrite str_leb_negb_ltb, negb_true_iff. done. Qed.

Lemma str_le_lt_trans a b c : str_le a b -> str_lt b c -> str_lt a c.
Proof. rewrite str_le_iff. intros [H| ->]; [|done]. by apply str_lt_trans. Qed.

Lemma str_lt_le_trans a b c : str_lt a b -> str_le b c -> str_lt a c.
Proof. rewrite str_le_iff. intros H [H'|<-]; [|done]. by eapply str_lt_trans. Qed.

#[global] Instance str_le_dec a b : Decision (str_le a b).
Proof. unfold str_le. apply _. Defined.
#[global] Instance str_lt_dec a b : Decision (str_lt a b).
Proof. unfold str_lt. apply _. Defined.
#[global] Instance str_le_total : Total str_le.
Proof.
  intros a b. rewrite !str_le_iff. destruct (str_lt_or_eq_or_gt a b) as [?|[?|?]]; auto.
Qed.
#[global] Instance str_le_preorder : PreOrder str_le.
Proof.
  split; [intros a; rewrite str_le_iff; auto|].
  intros a b c H1 H2. apply str_le_iff in H1 as [H1| ->]; [|done].
  apply str_le_iff. left. by eapply str_lt_le_trans.
Qed.
End str_order.

(** * Fixed-width fields

    [data[off .. off + n].copy_from_slice(&v.to_le_bytes())] and
    [uN::from_le_bytes(data[off .. off + n])]. *)

Definition put (n off : nat) (v : Z) (out : bytes) : bytes := splice off (le_bytes n v) out.
Definition get (n off : nat) (data : bytes) : Z := of_le (slice off n data).
Definition zeros (n : nat) : bytes := replicate n 0%Z.

(** * UTF-8

    [std::str::from_utf8]: well-formed sequences only (no surrogates, no
    overlong forms, nothing above U+10FFFF). *)

Definition in_range (lo hi b : Z) : bool := (lo <=? b)%Z && (b <=? hi)%Z.
Definition is_continuation (b : Z) : bool := in_range 128 191 b.

Fixpoint is_utf8 (l : bytes) : bool :=
  match l with
  | [] => true
  | b0 :: r =>
      if in_range 0 127 b0 then is_utf8 r
      else match r with
      | [] => false
      | b1 :: r1 =>
          if in_range 194 223 b0 then is_continuation b1 && is_utf8 r1
          else match r1 with
          | [] => false
          | b2 :: r2 =>
              if in_range 224 239 b0 then
                in_range (if (b0 =? 224)%Z then 160 else 128) (if (b0 =? 237)%Z then 159 else 191) b1
                && is_continuation b2 && is_utf8 r2
              else match r2 with
              | [] => false
              | b3 :: r3 =>
                  in_range 240 244 b0
                  && in_range (if (b0 =? 240)%Z then 144 else 128) (if (b0 =? 244)%Z then 143 else 191) b1
                  && is_continuation b2 && is_continuation b3 && is_utf8 r3
              end
          end
      end
  end.

Definition from_utf8 (l : bytes) : option str := if is_utf8 l then Some l else None.

Section fields.
Lemma slice_app_l {A} off n (l1 l2 : list A) :
  off + n <= length l1 -> slice off n (l1 ++ l2) = slice off n l1.
Proof.
  intros H. apply list_eq. intros i. destruct (decide (i < n)).
  - rewrite !lookup_slice by done. apply lookup_app_l. lia.
  - unfold slice. by rewrite !lookup_take_ge by lia.
Qed.

Lemma slice_app_r {A} off n (l1 l2 : list A) :
  length l1 <= off -> slice off n (l1 ++ l2) = slice (off - length l1) n l2.
Proof. intros H. unfold slice. by rewrite drop_app_ge. Qed.

Lemma slice_app_mid {A} off n (pre src post : list A) :
  off = length pre -> n = length src -> slice off n (pre ++ src ++ post) = src.
Proof. intros -> ->. unfold slice. rewrite drop_app_length. by apply take_app_length. Qed.

Lemma get_app_l n off l1 l2 : off + n <= length l1 -> get n off (l1 ++ l2) = get n off l1.
Proof. intros H. unfold get. by rewrite slice_app_l. Qed.

Lemma length_put n off v out : off + n <= length out -> length (put n off v out) = length out.
Proof. intros H. apply length_splice. by rewrite length_le_bytes. Qed.

Lemma get_put_same n off v out :
  off + n <= length out -> in_u (8 * Z.of_nat n) v -> get n off (put n off v out) = v.
Proof.
  intros H Hv. unfold get, put. rewrite <- (length_le_bytes n v) at 1.
  rewrite slice_splice_same by lia. by apply of_le_le_bytes_id.
Qed.

(** The [i]-th block of a concatenation of blocks of one size. *)
Lemma slice_concat {A B} (f : A -> list B) n (l : list A) i a :
  (forall a, a ∈ l -> length (f a) = n) -> l !! i = Some a ->
  slice (i * n) n (concat (map f l)) = f a.
Proof.
  revert i. induction l as [|x l IH]; intros i Hlen Hi; [done|]. cbn [map concat].
  assert (Hx : length (f x) = n) by (apply Hlen, elem_of_cons; by left).
  destruct i as [|i]; cbn in Hi.
  - injection Hi as ->. cbn. unfold slice. rewrite drop_0, <- Hx. by apply take_app_length.
  - rewrite slice_app_r by (rewrite Hx; lia). rewrite Hx. replace (S i * n - n) with (i * n) by lia.
    apply IH; [|done]. intros b Hb. apply Hlen, elem_of_cons. by right.
Qed.

Lemma length_concat_same {A B} (f : A -> list B) n (l : list A) :
  (forall a, a ∈ l -> length (f a) = n) -> length (concat (map f l)) = length l * n.
Proof.
  induction l as [|x l IH]; intros Hlen; [done|]. cbn [map concat length].
  rewrite length_app, (Hlen x) by (apply elem_of_cons; by left).
  rewrite IH by (intros a Ha; apply Hlen, elem_of_cons; by right). lia.
Qed.
End fields.


(** * Stable sorting

    [sort_by]: an ordering of the elements in which equal ones keep their order. *)

Section stable_sort.
Context {A : Type} (leb : A -> A -> bool).

Fixpoint insert_sorted (x : A) (l : list A) : list A :=
  match l with
  | [] => [x]
  | y :: l' => if leb x y then x :: l else y :: insert_sorted x l'
  end.
Definition stable_sort (l : list A) : list A := fold_right insert_sorted [] l.

Lemma insert_sorted_perm x l : insert_sorted x l ≡ₚ x :: l.
Proof.
  induction l as [|y l IH]; cbn; [done|]. destruct (leb x y); [done|].
  rewrite IH. apply Permutation_swap.
Qed.

Lemma stable_sort_perm l : stable_sort l ≡ₚ l.
Proof. induction l as [|x l IH]; cbn; [done|]. by rewrite insert_sorted_perm, IH. Qed.

Context (R : relation A) (HR : forall x y, leb x y = true <-> R x y)
  (Htotal : forall x y, R x y \/ R y x) (Htrans : Transitive R).

Lemma stable_sort_sorted l : StronglySorted R (stable_sort l).
Proof.
  induction l as [|x l IH]; cbn; [constructor|].
  assert (Hins : forall l, StronglySorted R l -> StronglySorted R (insert_sorted x l)); [|by apply Hins].
  clear l IH. induction l as [|y l IH]; intros Hs; cbn; [repeat constructor|].
  inversion Hs as [|? ? Hs' Hy]; subst. destruct (leb x y) eqn:E.
  - apply HR in E. constructor; [done|]. constructor; [done|].
    eapply Forall_impl; [exact Hy|]. intros z Hz. by transitivity y.
  - constructor; [by apply IH|]. rewrite insert_sorted_perm. constructor; [|done].
    destruct (Htotal x y) as [Hxy|Hyx]; [|done]. apply HR in Hxy. congruence.
Qed.
End stable_sort.

(** * Folds *)

Section folds.
Lemma fold_left_ext {A B} (f g : B -> A -> B) l b :
  (forall b a, f b a = g b a) -> fold_left f l b = fold_left g l b.
Proof. intros Hfg. revert b. induction l as [|a l IH]; intros b; cbn; [done|]. by rewrite Hfg. Qed.

(** [for x in l { state = f(state, x)?; }]. *)
Fixpoint fold_option {A B} (f : B -> A -> option B) (l : list A) (b : B) : option B :=
  match l with
  | [] => Some b
  | a :: l' => match f b a with Some b' => fold_option f l' b' | None => None end
  end.

Lemma alter_nth {A} (f : A -> A) (l : list A) i j d :
  nth j (alter f i l) d = if bool_decide (i = j /\ j < length l) then f (nth j l d) else nth j l d.
Proof.
  rewrite !nth_lookup. case_bool_decide as H.
  - destruct H as [-> H]. rewrite list_lookup_alter_eq.
    destruct (lookup_lt_is_Some_2 l j H) as [x ->]. done.
  - destruct (decide (i = j)) as [->|Hne].
    + rewrite list_lookup_alter_eq, lookup_ge_None_2; [done|]. destruct (decide (j < length l)); [tauto|lia].
    + by rewrite list_lookup_alter_ne.
Qed.

Lemma nth_replicate_same {A} (n i : nat) (d : A) : nth i (replicate n d) d = d.
Proof.
  rewrite nth_lookup. destruct (decide (i < n)).
  - by rewrite lookup_replicate_2.
  - rewrite lookup_ge_None_2; [done|]. rewrite length_replicate. lia.
Qed.

(** An index and an element of an enumerated list. *)
Lemma elem_of_enumerate {A} (l : list A) i x : (i, x) ∈ zip (seq 0 (length l)) l <-> l !! i = Some x.
Proof.
  rewrite list_elem_of_lookup. split.
  - intros [j Hj]. apply lookup_zip_Some in Hj as [Hs Hx]. apply lookup_seq in Hs as [-> _]. done.
  - intros Hx. exists i. apply lookup_zip_Some. split; [|done].
    apply lookup_seq. split; [done|]. by apply lookup_lt_Some in Hx.
Qed.

Lemma enumerate_fst {A} (l : list A) : (zip (seq 0 (length l)) l).*1 = seq 0 (length l).
Proof. apply fst_zip. by rewrite length_seq. Qed.
End folds.
