(* ===== verification/Threads.v ===== *)
(** Lists of threads, shared by the systems of threads (BlockWorker, SearchQueue):
    one element replaced, and the sum of a weight over the list. *)

From Stdlib Require Import Lia List.
From stdpp Require Import base list.
From S2P Require Import Prelude.

Local Open Scope moon_scope.

Section list.
Context {A : Type}.
Implicit Types (l : list A) (f : A -> nat).

(** An element of a list in which the element at [i] was replaced. *)
Lemma lookup_replaced l i x y j z : l !! i = Some x -> <[i := y]> l !! j = Some z ->
  j = i /\ z = y \/ j <> i /\ l !! j = Some z.
Proof.
  intros Hi Hj. destruct (decide (j = i)) as [->|Hne].
  - left. rewrite list_lookup_insert_eq in Hj by (by eapply lookup_lt_Some). by simplify_eq.
  - right. rewrite list_lookup_insert_ne in Hj; done.
Qed.

Fixpoint sum_by f l : nat := match l with [] => 0 | x :: l' => f x + sum_by f l' end.

Lemma sum_by_app f l1 l2 : sum_by f (l1 ++ l2) = sum_by f l1 + sum_by f l2.
Proof. induction l1; cbn; lia. Qed.

Lemma sum_by_insert f l i x y : l !! i = Some x -> sum_by f (<[i := y]> l) + f x = sum_by f l + f y.
Proof.
  intros Hi. rewrite (insert_take_drop _ _ _ (lookup_lt_Some _ _ _ Hi)). rewrite <- (take_drop_middle _ _ _ Hi) at 3.
  rewrite !sum_by_app. cbn. lia.
Qed.

Lemma sum_by_map f (g : A -> A) l : (forall x, f (g x) <= f x + 1) -> sum_by f (map g l) <= sum_by f l + length l.
Proof. intros H. induction l as [|x l IH]; cbn; [lia|]. pose proof (H x). lia. Qed.

Lemma sum_by_pos f l i x : l !! i = Some x -> f x <= sum_by f l.
Proof. intros Hi. pose proof (sum_by_insert f l i x x Hi). rewrite <- (take_drop_middle _ _ _ Hi), sum_by_app. cbn. lia. Qed.
End list.
