(* ===== verification/Floats.v ===== *)
(** IEEE-754 arithmetic of the source's [f32] and [f64], on the Standard
    Library's executable [spec_float] (round to nearest, ties to even), and the
    16-bit score codec of DocData records (BlockTable.rs).

    [log2] and [ln] are the platform's libm: their precision is not specified,
    so they are the parameters of the class [Libm]. *)

From Stdlib Require Import ZArith Lia Bool List.
From Stdlib Require Import Floats.SpecFloat.
From stdpp Require Import base list list_numbers.
From S2P Require Import Prelude.

Local Open Scope Z_scope.

(** * Formats *)

Class Format := { prec : Z; emax : Z }.
Definition F32 : Format := {| prec := 24; emax := 128 |}.
Definition F64 : Format := {| prec := 53; emax := 1024 |}.

Abbreviation f32 := spec_float.
Abbreviation f64 := spec_float.

(** libm functions of the source: [f64::log2], [f32::log2], [f32::ln]. *)
Class Libm := {
  log2_f64 : f64 -> f64;
  log2_f32 : f32 -> f32;
  ln_f32 : f32 -> f32;
}.

(** * Operations, for a format [F] *)

Section ops.
Context (F : Format).

Definition f_of_Z (z : Z) : spec_float := binary_normalize prec emax z 0 false.
Definition f_add : spec_float -> spec_float -> spec_float := SFadd prec emax.
Definition f_sub : spec_float -> spec_float -> spec_float := SFsub prec emax.
Definition f_mul : spec_float -> spec_float -> spec_float := SFmul prec emax.
Definition f_div : spec_float -> spec_float -> spec_float := SFdiv prec emax.
Definition f_sqrt : spec_float -> spec_float := SFsqrt prec emax.
(** The literal [num/den]: both are exact in the format, and the division is
    correctly rounded, so it is the float nearest to the decimal literal. *)
Definition f_lit (num den : Z) : spec_float := f_div (f_of_Z num) (f_of_Z den).

(** [round]: to the nearest integer, halves away from zero. *)
Definition f_round (x : spec_float) : spec_float :=
  match x with
  | S754_finite s m e =>
      if 0 <=? e then x
      else
        let q := Z.shiftr (Z.pos m + Z.shiftl 1 (- e - 1)) (- e) in
        binary_normalize prec emax (if s then - q else q) 0 s
  | _ => x
  end.

(** [as f32] / [as f64]: rounds into the format. *)
Definition f_cast (x : spec_float) : spec_float :=
  match x with
  | S754_finite s m e =>
      binary_normalize prec emax (if s then Z.neg m else Z.pos m) e s
  | _ => x
  end.
End ops.

Definition f_is_nan (x : spec_float) : bool :=
  match x with S754_nan => true | _ => false end.
Definition f_lt : spec_float -> spec_float -> bool := SFltb.
Definition f_le : spec_float -> spec_float -> bool := SFleb.
Definition f_gt (x y : spec_float) : bool := SFltb y x.
Definition f_ge (x y : spec_float) : bool := SFleb y x.
Definition f_abs (x : spec_float) : spec_float := SFabs x.

(** [max] and [min] return the other operand when one is NaN. *)
Definition f_max (x y : spec_float) : spec_float :=
  if f_is_nan x then y else if f_is_nan y then x else if f_lt x y then y else x.
Definition f_min (x y : spec_float) : spec_float :=
  if f_is_nan x then y else if f_is_nan y then x else if f_lt y x then y else x.

(** [clamp] leaves NaN unchanged. *)
Definition f_clamp (x lo hi : spec_float) : spec_float :=
  if f_lt x lo then lo else if f_lt hi x then hi else x.

(** Truncation towards zero. *)
Definition f_trunc (x : spec_float) : Z :=
  match x with
  | S754_finite s m e =>
      let q := if 0 <=? e then Z.shiftl (Z.pos m) e else Z.shiftr (Z.pos m) (- e) in
      if s then - q else q
  | _ => 0
  end.

(** [as uN] / [as iN]: truncates, saturates at the bounds, NaN gives 0. *)
Definition f_as_int (lo hi : Z) (x : spec_float) : Z :=
  match x with
  | S754_nan => 0
  | S754_infinity s => if s then lo else hi
  | _ => Z.max lo (Z.min hi (f_trunc x))
  end.
Definition f_as_u (w : Z) : spec_float -> Z := f_as_int 0 (2 ^ w - 1).
Definition f_as_i (w : Z) : spec_float -> Z := f_as_int (- 2 ^ (w - 1)) (2 ^ (w - 1) - 1).

(** [f32::to_bits]. *)
Definition f32_to_bits (x : f32) : Z :=
  match x with
  | S754_zero s => if s then 2 ^ 31 else 0
  | S754_infinity s => (if s then 2 ^ 31 else 0) + 255 * 2 ^ 23
  | S754_nan => 255 * 2 ^ 23 + 2 ^ 22
  | S754_finite s m e =>
      (if s then 2 ^ 31 else 0)
      + (if Z.pos m <? 2 ^ 23 then Z.pos m else (e + 150) * 2 ^ 23 + (Z.pos m - 2 ^ 23))
  end.

(** * DocData score codec *)

Definition DocDataEncodeScore (value : f32) : Z :=
  if f_is_nan value || f_le value (f_of_Z F32 0) then 0
  else if f_ge value (f_of_Z F32 1) then u16_max
  else f_as_u 16 (f_add F32 (f_mul F32 value (f_of_Z F32 65535)) (f_lit F32 1 2)).

Definition DocDataDecodeScore (value : Z) : f32 :=
  f_div F32 (f_of_Z F32 value) (f_of_Z F32 65535).

(** * Lemmas *)

Lemma f_as_u_range w x : 0 <= w -> in_u w (f_as_u w x).
Proof.
  intros Hw. assert (0 < 2 ^ w) by lia. unfold f_as_u, f_as_int, in_u.
  destruct x as [| [] | | ]; lia.
Qed.

Lemma DocDataEncodeScore_range value : in_u 16 (DocDataEncodeScore value).
Proof.
  unfold DocDataEncodeScore. repeat case_match; try done. by apply f_as_u_range.
Qed.
#[export] Hint Resolve DocDataEncodeScore_range f_as_u_range : moon.

(** A libm for running the model on concrete inputs: the identity in place of the logarithms. *)
Definition sample_libm : Libm := {| log2_f64 x := x; log2_f32 x := x; ln_f32 x := x |}.
