(* ===== verification/PostingCodec.v ===== *)
(** The posting wire format: VarByte document ids followed by one raw term
    frequency byte (PostingStore.rs, UnifiedDecoder.rs, and the splitting
    helpers of IndexSerializer.rs and IndexContext.rs). *)

From Stdlib Require Import ZArith Lia Bool List.
From Stdlib Require Import Floats.SpecFloat.
From stdpp Require Import base list list_numbers sorting.
From S2P Require Import Prelude Floats.

(** * Encoder: PostingStore.rs *)

Record IndexEntry := { ie_doc_id : Z; ie_term_frequency : Z }.

Record PostingList := { entries : list IndexEntry }.

Definition doc_freq (pl : PostingList) : Z := wrap 32 (Z.of_nat (length (entries pl))).

Definition tf8_encode `{Libm} (tf : Z) : Z :=
  let encoded :=
    f_round F64 (f_mul F64 (f_of_Z F64 16) (log2_f64 (f_add F64 (f_of_Z F64 1) (f_of_Z F64 tf)))) in
  f_as_u 8 (f_clamp encoded (f_of_Z F64 0) (f_of_Z F64 255)).

(** The loop shifts [v] right by 7; a 64-bit value takes at most ten rounds. *)
Fixpoint vb_write_loop (fuel : nat) (v : Z) : bytes :=
  match fuel with
  | O => []
  | S fuel' =>
      if (v <? 128)%Z then [v]
      else Z.lor (Z.land v 127) 128 :: vb_write_loop fuel' (Z.shiftr v 7)
  end.
Definition vb_write (v : Z) : bytes := vb_write_loop 10 v.

Definition encode `{Libm} (pl : PostingList) : bytes :=
  concat (map (fun e => vb_write (ie_doc_id e) ++ [tf8_encode (ie_term_frequency e)]) (entries pl)).
Definition get_bytes `{Libm} (pl : PostingList) : bytes := encode pl.

(** * UnifiedDecoder

    [m_Block] is the pinned page's [IB_Data]; the pin itself is the block
    cache's business. *)

Record UnifiedDecoder := {
  m_Block : option bytes;
  m_CurrentPtr : nat;
  m_BlockEnd : nat;
  m_CurrentDoc : Z;
  m_CurrentTf8 : Z;
  m_HasCurrent : bool;
}.

Definition decoder_new : UnifiedDecoder :=
  {| m_Block := None; m_CurrentPtr := 0; m_BlockEnd := 0;
     m_CurrentDoc := 0; m_CurrentTf8 := 0; m_HasCurrent := false |}.

(** [usize::checked_add], then the filter on the page size. *)
Definition posting_end (block : bytes) (offset len : nat) : nat :=
  match checked_add 64 (Z.of_nat offset) (Z.of_nat len) with
  | Some _ => if offset + len <=? length block then offset + len else 0
  | None => 0
  end.

Definition OpenRaw (block : bytes) (offset len : nat) : UnifiedDecoder :=
  let end_ := posting_end block offset len in
  {| m_Block := Some block; m_CurrentPtr := Nat.min offset end_; m_BlockEnd := end_;
     m_CurrentDoc := 0; m_CurrentTf8 := 0; m_HasCurrent := false |}.

Definition HasMoreBytes (d : UnifiedDecoder) : bool := m_CurrentPtr d <? m_BlockEnd d.

(** The decoder after a step: cursor [ptr], ids [doc] and [tf], validity [has]. *)
Definition with_current (d : UnifiedDecoder) (ptr : nat) (doc tf : Z) (has : bool) : UnifiedDecoder :=
  {| m_Block := m_Block d; m_CurrentPtr := ptr; m_BlockEnd := m_BlockEnd d;
     m_CurrentDoc := doc; m_CurrentTf8 := tf; m_HasCurrent := has |}.

(** The [while byte & 0x80 != 0] loop of DecodeNext: [None] is the malformed
    exit (truncated, or more than 64 bits), and the cursor it leaves. Every
    round consumes a byte of the block, so [m_BlockEnd] rounds are enough. *)
Fixpoint decode_tail (fuel : nat) (data : bytes) (ptr end_ : nat) (byte docID shift : Z)
  : nat * option Z :=
  match fuel with
  | O => (ptr, None)
  | S fuel' =>
      if (Z.land byte 128 =? 0)%Z then (ptr, Some docID)
      else if (end_ <=? ptr) || (64 <=? shift)%Z then (ptr, None)
      else
        let byte' := nth ptr data 0%Z in
        if (shift =? 63)%Z && negb (Z.land byte' 126 =? 0)%Z then (S ptr, None)
        else decode_tail fuel' data (S ptr) end_ byte'
               (Z.lor docID (wrap 64 (Z.shiftl (Z.land byte' 127) shift))) (shift + 7)
  end.

Definition DecodeNext (d : UnifiedDecoder) : UnifiedDecoder :=
  if negb (HasMoreBytes d) then
    with_current d (m_CurrentPtr d) (m_CurrentDoc d) (m_CurrentTf8 d) false
  else
    match m_Block d with
    | None => with_current d (m_CurrentPtr d) (m_CurrentDoc d) (m_CurrentTf8 d) false
    | Some data =>
        let byte := nth (m_CurrentPtr d) data 0%Z in
        match decode_tail (S (m_BlockEnd d)) data (S (m_CurrentPtr d)) (m_BlockEnd d)
                byte (Z.land byte 127) 7 with
        | (ptr, None) => with_current d ptr (m_CurrentDoc d) (m_CurrentTf8 d) false
        | (ptr, Some docID) =>
            if m_BlockEnd d <=? ptr then with_current d ptr docID (m_CurrentTf8 d) false
            else with_current d (S ptr) docID (nth ptr data 0%Z) true
        end
    end.

Definition decoder_GoNext (d : UnifiedDecoder) : UnifiedDecoder := DecodeNext d.

(** The loop of GoUntil; every round that continues consumes bytes. *)
Fixpoint decoder_GoUntil_loop (fuel : nat) (target : Z) (d : UnifiedDecoder) : UnifiedDecoder :=
  match fuel with
  | O => d
  | S fuel' =>
      let d' := DecodeNext d in
      if negb (m_HasCurrent d') || (target <=? m_CurrentDoc d')%Z then d'
      else decoder_GoUntil_loop fuel' target d'
  end.

Definition decoder_GoUntil (target : Z) (d : UnifiedDecoder) : UnifiedDecoder :=
  if m_HasCurrent d && (target <=? m_CurrentDoc d)%Z then d
  else decoder_GoUntil_loop (S (m_BlockEnd d - m_CurrentPtr d)) target d.

Definition decoder_IsEnd (d : UnifiedDecoder) : bool := negb (m_HasCurrent d).

Definition TakeBlock (d : UnifiedDecoder) : UnifiedDecoder :=
  {| m_Block := None; m_CurrentPtr := m_CurrentPtr d; m_BlockEnd := m_BlockEnd d;
     m_CurrentDoc := m_CurrentDoc d; m_CurrentTf8 := m_CurrentTf8 d;
     m_HasCurrent := m_HasCurrent d |}.

Definition decoder_Close (d : UnifiedDecoder) : UnifiedDecoder :=
  {| m_Block := None; m_CurrentPtr := 0; m_BlockEnd := 0;
     m_CurrentDoc := m_CurrentDoc d; m_CurrentTf8 := m_CurrentTf8 d; m_HasCurrent := false |}.

(** * Splitting helpers: IndexSerializer.rs

    A cursor is an offset into [data]; the functions return the cursor they
    leave. *)

Fixpoint readOne (fuel : nat) (data : bytes) (offset : nat) : bool * nat :=
  match fuel with
  | O => (false, offset)
  | S fuel' =>
      if offset <? length data then
        if (Z.land (nth offset data 0%Z) 128 =? 0)%Z then (true, S offset)
        else readOne fuel' data (S offset)
      else (false, offset)
  end.

Definition ReadVbcPairEnd (data : bytes) (offset : nat) : bool * nat :=
  match readOne (S (length data)) data offset with
  | (false, o) => (false, o)
  | (true, o) => if length data <=? o then (false, o) else (true, S o)
  end.

Fixpoint PostingPrefixBytes_loop (fuel : nat) (data : bytes) (limit cursor last_pair_end : nat) : nat :=
  match fuel with
  | O => last_pair_end
  | S fuel' =>
      if cursor <? limit then
        match ReadVbcPairEnd data cursor with
        | (false, _) => last_pair_end
        | (true, c) =>
            if limit <? c then last_pair_end
            else PostingPrefixBytes_loop fuel' data limit c c
        end
      else last_pair_end
  end.

Definition PostingPrefixBytes (data : bytes) (capacity : nat) : nat :=
  PostingPrefixBytes_loop (S (length data)) data (Nat.min (length data) capacity) 0 0.

(** VbRead: the value is assembled in a [u64]; the shift of a [u64] takes the low six
    bits of its [u8] amount, as release builds do (debug builds panic from 64 on). *)
Fixpoint VbRead_loop (fuel : nat) (data : bytes) (pos : nat) (value shift : Z) : Z * nat :=
  match fuel with
  | O => (value, pos)
  | S fuel' =>
      if length data <=? pos then (value, pos)
      else
        let byte := nth pos data 0%Z in
        let value' := Z.lor value (wrap 64 (Z.shiftl (Z.land byte 127) (shift mod 64))) in
        if (Z.land byte 128 =? 0)%Z then (value', S pos)
        else VbRead_loop fuel' data (S pos) value' (wrap 8 (shift + 7))
  end.

Definition VbRead (data : bytes) (start : nat) : Z * nat :=
  let '(value, pos) := VbRead_loop (S (length data)) data start 0 0 in (value, pos - start).

Fixpoint MaxDocIDInPairs_loop (fuel : nat) (data : bytes) (cursor : nat) (max_doc_id : Z) : Z :=
  match fuel with
  | O => max_doc_id
  | S fuel' =>
      if cursor <? length data then
        let '(doc_id, doc_bytes) := VbRead data cursor in
        let cursor' := cursor + doc_bytes in
        if length data <=? cursor' then max_doc_id
        else MaxDocIDInPairs_loop fuel' data (S cursor') doc_id
      else max_doc_id
  end.

Definition MaxDocIDInPairs (data : bytes) : Z := MaxDocIDInPairs_loop (S (length data)) data 0 0.

(** * The merge path's own copies: IndexContext.rs

    These read the frequency byte as a second VarByte number. *)

Definition ReadVbPairEnd (data : bytes) (offset : nat) : bool * nat :=
  match readOne (S (length data)) data offset with
  | (false, o) => (false, o)
  | (true, o) => readOne (S (length data)) data o
  end.

Fixpoint PostingSplitLength_loop (fuel : nat) (data : bytes) (limit cursor lastPairEnd : nat) : nat :=
  match fuel with
  | O => lastPairEnd
  | S fuel' =>
      if cursor <? limit then
        match ReadVbPairEnd data cursor with
        | (false, _) => lastPairEnd
        | (true, c) =>
            if limit <? c then lastPairEnd
            else PostingSplitLength_loop fuel' data limit c c
        end
      else lastPairEnd
  end.

Definition PostingSplitLength (data : bytes) (capacity : nat) : nat :=
  if length data <=? capacity then length data
  else PostingSplitLength_loop (S (length data)) data (Nat.min (length data) capacity) 0 0.

Definition VbReadLocal (data : bytes) (start : nat) : Z * nat := VbRead data start.

Fixpoint MaxDocIDInPairs_merge_loop (fuel : nat) (data : bytes) (cursor : nat) (maxDocID : Z) : Z :=
  match fuel with
  | O => maxDocID
  | S fuel' =>
      if cursor <? length data then
        let '(docID, docBytes) := VbReadLocal data cursor in
        let cursor' := cursor + docBytes in
        if length data <=? cursor' then maxDocID
        else
          let '(_, tfBytes) := VbReadLocal data cursor' in
          MaxDocIDInPairs_merge_loop fuel' data (cursor' + tfBytes) docID
      else maxDocID
  end.

Definition MaxDocIDInPairs_merge (data : bytes) : Z :=
  MaxDocIDInPairs_merge_loop (S (length data)) data 0 0.

(** * The pairs a posting byte string denotes *)

Definition enc_pair (p : Z * Z) : bytes := vb_write p.1 ++ [p.2].
Definition enc_pairs (ps : list (Z * Z)) : bytes := concat (map enc_pair ps).
Definition wf_pair (p : Z * Z) : Prop := in_u 64 p.1 /\ in_u 8 p.2.
Definition pairs_of `{Libm} (pl : PostingList) : list (Z * Z) :=
  map (fun e => (ie_doc_id e, tf8_encode (ie_term_frequency e))) (entries pl).

(** The decoder has exactly the pairs [ps] left to decode. *)
Definition decodes (d : UnifiedDecoder) (ps : list (Z * Z)) : Prop :=
  exists pre post,
    m_Block d = Some (pre ++ enc_pairs ps ++ post) /\
    m_CurrentPtr d = length pre /\
    m_BlockEnd d = length pre + length (enc_pairs ps).

(** All pairs a decoder yields before it ends. *)
Fixpoint drain (fuel : nat) (d : UnifiedDecoder) : list (Z * Z) :=
  match fuel with
  | O => []
  | S fuel' =>
      let d' := decoder_GoNext d in
      if decoder_IsEnd d' then [] else (m_CurrentDoc d', m_CurrentTf8 d') :: drain fuel' d'
  end.

(** * Bit-level lemmas *)

Section bits.
Local Open Scope Z_scope.

Lemma land_127 v : Z.land v 127 = v mod 128.
Proof. change 127 with (Z.ones 7). by rewrite Z.land_ones. Qed.

Lemma lor_shiftl_add a b s :
  0 <= s -> 0 <= a < 2 ^ s -> Z.lor a (Z.shiftl b s) = a + b * 2 ^ s.
Proof.
  intros Hs Ha. rewrite <- Z.shiftl_mul_pow2 by done.
  assert (Hd : Z.land a (Z.shiftl b s) = 0).
  { apply Z.bits_inj'. intros i Hi. rewrite Z.land_spec, Z.bits_0.
    destruct (Z.lt_ge_cases i s).
    - rewrite Z.shiftl_spec_low by done. apply andb_false_r.
    - rewrite <- (Z.mod_small a (2 ^ s)), Z.mod_pow2_bits_high by lia. done. }
  rewrite <- Z.lxor_lor by done. symmetry. by apply Z.add_nocarry_lxor.
Qed.

Lemma high_bit b : 0 <= b < 256 -> (Z.land b 128 =? 0) = (b <? 128).
Proof.
  intros Hb.
  assert (forallb (fun b => Bool.eqb (Z.land b 128 =? 0) (b <? 128)) (seqZ 0 256) = true)
    as Hall by (vm_compute; done).
  rewrite forallb_forall in Hall. apply eqb_prop, Hall.
  rewrite <- list_elem_of_In. apply elem_of_seqZ. lia.
Qed.

(** The continuation byte carries seven bits and the high bit. *)
Lemma vb_cont_byte v :
  0 <= v -> Z.lor (Z.land v 127) 128 = v mod 128 + 128 /\ 0 <= v mod 128 + 128 < 256.
Proof.
  intros Hv. pose proof (Z.mod_pos_bound v 128). rewrite land_127.
  change 128 with (Z.shiftl 1 7) at 2. rewrite lor_shiftl_add by lia. lia.
Qed.
End bits.

Section vb.
Local Open Scope Z_scope.

Lemma vb_write_loop_bytes n v : 0 <= v -> is_bytes (vb_write_loop n v).
Proof.
  revert v. induction n as [|n IH]; intros v Hv; cbn [vb_write_loop]; [constructor|].
  destruct (v <? 128) eqn:E; bool_to_prop; repeat constructor; try lia.
  - destruct (vb_cont_byte v Hv) as [-> ?]. lia.
  - destruct (vb_cont_byte v Hv) as [-> ?]. change (2 ^ 8) with 256. lia.
  - apply IH. by apply Z.shiftr_nonneg.
Qed.

Lemma vb_step v : 128 <= v -> Z.shiftr v 7 = v / 128 /\ v = 128 * (v / 128) + v mod 128.
Proof. intros. rewrite Z.shiftr_div_pow2 by lia. change (2 ^ 7) with 128. split; [done|dlia]. Qed.

(** Reading back one VarByte number, from its first byte [b] on. *)
Lemma decode_tail_vb n v b bs :
  forall fuel pre post end_ acc s,
  vb_write_loop n v = b :: bs -> 0 <= v < 2 ^ (7 * Z.of_nat n) ->
  0 <= s -> (7 | s) -> 0 <= acc < 2 ^ s -> v * 2 ^ s < 2 ^ 64 ->
  (length bs < fuel)%nat -> (length pre + length bs <= end_)%nat ->
  decode_tail fuel (pre ++ bs ++ post) (length pre) end_ b
    (Z.lor acc (wrap 64 (Z.shiftl (Z.land b 127) s))) (s + 7)
  = ((length pre + length bs)%nat, Some (acc + v * 2 ^ s)).
Proof.
  revert v b bs. induction n as [|n IH]; intros v b bs fuel pre post end_ acc s Hvb Hv Hs H7 Hacc Hov Hf He;
    [done|].
  destruct fuel as [|fuel]; [lia|]. cbn [vb_write_loop] in Hvb. cbn [decode_tail].
  assert (0 < 2 ^ s) by lia.
  assert (Hpart : forall x, 0 <= x <= v -> Z.lor acc (wrap 64 (Z.shiftl x s)) = acc + x * 2 ^ s).
  { intros x Hx. rewrite wrap_small; [by apply lor_shiftl_add|].
    unfold in_u. rewrite Z.shiftl_mul_pow2 by done. nia. }
  destruct (v <? 128) eqn:E; bool_to_prop.
  - injection Hvb as <- <-. rewrite high_bit by lia. destruct (Z.ltb_spec v 128); [|lia].
    rewrite land_127, Z.mod_small, Hpart by lia. f_equal. cbn [length]. lia.
  - destruct (vb_cont_byte v) as [Hb1 Hb2]; [lia|]. rewrite Hb1 in Hvb.
    destruct (vb_step v) as [Hsh Hdm]; [done|]. rewrite Hsh in Hvb.
    injection Hvb as <- <-. rewrite high_bit by done.
    pose proof (Z.mod_pos_bound v 128 ltac:(lia)) as Hmod.
    destruct (Z.ltb_spec (v mod 128 + 128) 128); [lia|].
    assert (Hpow : 2 ^ (7 * Z.of_nat (S n)) = 128 * 2 ^ (7 * Z.of_nat n))
      by (replace (7 * Z.of_nat (S n)) with (7 + 7 * Z.of_nat n) by lia;
          rewrite Z.pow_add_r by lia; done).
    assert (Hq : 0 <= v / 128 < 2 ^ (7 * Z.of_nat n)) by (split; [apply Z.div_pos; lia|apply Z.div_lt_upper_bound; lia]).
    assert (Hs7 : 2 ^ (s + 7) = 128 * 2 ^ s) by (rewrite Z.pow_add_r by lia; lia).
    assert (Hs64 : s + 7 < 64).
    { destruct (Z.lt_ge_cases (s + 7) 64) as [?|Hge]; [done|exfalso].
      assert (2 ^ 64 <= 2 ^ (s + 7)) by (apply Z.pow_le_mono_r; lia). nia. }
    destruct (vb_write_loop n (v / 128)) as [|b' bs'] eqn:Hrest.
    { destruct n; [cbn in Hq; lia|]. cbn [vb_write_loop] in Hrest. by case_match. }
    cbn [length] in Hf, He |- *.
    replace ((end_ <=? length pre)%nat || (64 <=? s + 7)) with false
      by (symmetry; apply orb_false_iff; split; [apply Nat.leb_gt|apply Z.leb_gt]; lia).
    rewrite app_nth2, Nat.sub_diag by lia. cbn [app nth].
    assert (Hb' : Z.land b' 127 = (v / 128) mod 128 /\ 0 <= b' < 256
                  /\ (v / 128 < 128 -> b' = v / 128)).
    { destruct n; [done|]. cbn [vb_write_loop] in Hrest.
      destruct (v / 128 <? 128) eqn:E2; bool_to_prop; injection Hrest as <- <-.
      - rewrite land_127. lia.
      - destruct (vb_cont_byte (v / 128)) as [-> ?]; [lia|]. split; [|lia].
        rewrite land_127, Z.add_mod, Z.mod_mod, Z.mod_same, Z.add_0_r, Z.mod_mod by lia. done. }
    destruct Hb' as (Hb'1 & Hb'2 & Hb'3).
    replace ((s + 7 =? 63) && negb (Z.land b' 126 =? 0)) with false.
    2:{ symmetry. destruct (Z.eqb_spec (s + 7) 63) as [E63|]; [|done]. cbn [andb].
        assert (v / 128 <= 1).
        { assert (v * 2 ^ s < 2 ^ 64) by done. replace s with 56 in * by lia.
          change (2 ^ 64) with (256 * 2 ^ 56) in *. nia. }
        rewrite (Hb'3 ltac:(lia)). apply negb_false_iff, Z.eqb_eq.
        assert (v / 128 = 0 \/ v / 128 = 1) as [-> | ->] by lia; done. }
    replace (pre ++ b' :: bs' ++ post) with ((pre ++ [b']) ++ bs' ++ post)
      by (by rewrite <- app_assoc).
    replace (S (length pre)) with (length (pre ++ [b'])) by len_lia.
    assert (Hland : Z.land (v mod 128 + 128) 127 = v mod 128).
    { rewrite land_127, Z.add_mod, Z.mod_mod, Z.mod_same, Z.add_0_r, Z.mod_mod by lia. done. }
    rewrite Hland, Hpart by lia.
    rewrite (IH (v / 128) b' bs'); try done; try lia.
    + f_equal; [len_lia|]. f_equal. rewrite Hs7. nia.
    + by apply Z.divide_add_r; [done|exists 1].
    + rewrite Hs7. nia.
    + len_lia.
Qed.
End vb.

Section vb_shape.
Local Open Scope Z_scope.

(** Every byte but the last has the continuation bit. *)
Definition vb_shaped (l : bytes) : Prop :=
  exists init last, l = init ++ [last] /\ Forall (fun b => 128 <= b < 256) init /\ 0 <= last < 128.

Lemma vb_write_loop_shaped n v :
  (0 < n)%nat -> 0 <= v < 2 ^ (7 * Z.of_nat n) -> vb_shaped (vb_write_loop n v).
Proof.
  revert v. induction n as [|n IH]; intros v Hn Hv; [lia|]. cbn [vb_write_loop].
  destruct (v <? 128) eqn:E; bool_to_prop.
  { exists [], v. split_and!; [done|constructor|lia..]. }
  destruct (vb_cont_byte v) as [-> Hb]; [lia|]. destruct (vb_step v) as [-> _]; [done|].
  assert (2 ^ (7 * Z.of_nat (S n)) = 128 * 2 ^ (7 * Z.of_nat n)) as Hp
    by (replace (7 * Z.of_nat (S n)) with (7 + 7 * Z.of_nat n) by lia;
        rewrite Z.pow_add_r by lia; done).
  destruct n as [|n]; [exfalso; cbn in Hp, Hv; lia|].
  destruct (IH (v / 128)) as (init & last & -> & Hi & Hl); [lia|split; [dlia|]|].
  { apply Z.div_lt_upper_bound; lia. }
  exists ((v mod 128 + 128) :: init), last. split_and!; try done; try lia.
  constructor; [dlia|done].
Qed.

Lemma vb_write_shaped v : in_u 64 v -> vb_shaped (vb_write v).
Proof.
  intros [H0 Hlt]. apply vb_write_loop_shaped; [lia|]. change (7 * Z.of_nat 10) with 70.
  split; [done|]. apply Z.lt_trans with (2 ^ 64); done.
Qed.

Lemma vb_write_cons v : in_u 64 v -> exists b bs, vb_write v = b :: bs /\ is_bytes (b :: bs).
Proof.
  intros Hv. pose proof (vb_write_loop_bytes 10 v (proj1 Hv)) as Hb.
  destruct (vb_write_shaped v Hv) as ([|b init] & last & E & _); fold (vb_write v) in Hb;
    rewrite E in Hb |- *; eexists _, _; done.
Qed.

Lemma readOne_shaped fuel pre l post :
  vb_shaped l -> (length l <= fuel)%nat ->
  readOne fuel (pre ++ l ++ post) (length pre) = (true, (length pre + length l)%nat).
Proof.
  intros (init & last & -> & Hi & Hl). revert fuel pre.
  induction Hi as [|b init Hb _ IH]; intros [|fuel] pre Hf; cbn [app length] in Hf |- *;
    try lia; cbn [readOne];
    replace (length pre <? _)%nat with true by (symmetry; apply Nat.ltb_lt; len_lia);
    rewrite app_nth2, Nat.sub_diag by lia; cbn [nth]; rewrite high_bit by lia.
  - destruct (Z.ltb_spec last 128); [|lia]. f_equal. lia.
  - destruct (Z.ltb_spec b 128); [lia|].
    replace (pre ++ b :: (init ++ [last]) ++ post)
      with ((pre ++ [b]) ++ (init ++ [last]) ++ post) by (by rewrite <- app_assoc).
    replace (S (length pre)) with (length (pre ++ [b])) by len_lia.
    rewrite IH by lia. f_equal. len_lia.
Qed.

Lemma VbRead_loop_vb n v :
  forall fuel pre post acc s,
  (0 < n)%nat -> 0 <= v < 2 ^ (7 * Z.of_nat n) -> 0 <= s -> s + 7 * Z.of_nat n <= 70 -> 0 <= acc < 2 ^ s ->
  v * 2 ^ s < 2 ^ 64 -> (length (vb_write_loop n v) <= fuel)%nat ->
  VbRead_loop fuel (pre ++ vb_write_loop n v ++ post) (length pre) acc s
  = (acc + v * 2 ^ s, (length pre + length (vb_write_loop n v))%nat).
Proof.
  revert v. induction n as [|n IH]; intros v fuel pre post acc s Hn Hv Hs Hmax Hacc Hov Hf; [lia|].
  assert (0 < 2 ^ s) by lia. assert (Hmask : s mod 64 = s) by (apply Z.mod_small; lia).
  assert (Hpart : forall x, 0 <= x <= v -> Z.lor acc (wrap 64 (Z.shiftl x s)) = acc + x * 2 ^ s).
  { intros x Hx. rewrite wrap_small; [by apply lor_shiftl_add|].
    unfold in_u. rewrite Z.shiftl_mul_pow2 by done. nia. }
  cbn [vb_write_loop] in *. destruct (v <? 128) eqn:E; bool_to_prop.
  - destruct fuel as [|fuel]; [cbn [length] in Hf; lia|]. cbn [VbRead_loop app].
    replace (length _ <=? length pre)%nat with false by (symmetry; apply Nat.leb_gt; len_lia).
    rewrite app_nth2, Nat.sub_diag by lia. cbn [nth]. rewrite high_bit by lia.
    destruct (Z.ltb_spec v 128); [|lia]. rewrite Hmask, land_127, Z.mod_small, Hpart by lia.
    f_equal. len_lia.
  - destruct (vb_cont_byte v) as [Hb1 Hb2]; [lia|]. rewrite Hb1 in *.
    destruct (vb_step v) as [Hsh Hdm]; [done|]. rewrite Hsh in *.
    destruct fuel as [|fuel]; [cbn [length] in Hf; lia|]. cbn [VbRead_loop app].
    pose proof (Z.mod_pos_bound v 128 ltac:(lia)) as Hmod.
    replace (length _ <=? length pre)%nat with false by (symmetry; apply Nat.leb_gt; len_lia).
    rewrite app_nth2, Nat.sub_diag by lia. cbn [nth]. rewrite high_bit by done.
    destruct (Z.ltb_spec (v mod 128 + 128) 128); [lia|].
    assert (Hland : Z.land (v mod 128 + 128) 127 = v mod 128).
    { rewrite land_127, Z.add_mod, Z.mod_mod, Z.mod_same, Z.add_0_r, Z.mod_mod by lia. done. }
    rewrite Hmask, Hland, Hpart by lia. rewrite (wrap_small 8 (s + 7)) by (unfold in_u; change (2 ^ 8) with 256; lia).
    assert (Hp : 2 ^ (7 * Z.of_nat (S n)) = 128 * 2 ^ (7 * Z.of_nat n))
      by (replace (7 * Z.of_nat (S n)) with (7 + 7 * Z.of_nat n) by lia;
          rewrite Z.pow_add_r by lia; done).
    assert (Hs7 : 2 ^ (s + 7) = 128 * 2 ^ s) by (rewrite Z.pow_add_r by lia; lia).
    replace (pre ++ (v mod 128 + 128) :: vb_write_loop n (v / 128) ++ post)
      with ((pre ++ [v mod 128 + 128]) ++ vb_write_loop n (v / 128) ++ post)
      by (by rewrite <- app_assoc).
    replace (S (length pre)) with (length (pre ++ [v mod 128 + 128])) by len_lia.
    rewrite IH; [f_equal; [rewrite Hs7; nia|len_lia]|..];
      try (cbn [length] in Hf; rewrite ?Hs7; nia).
    destruct n; [|lia]. exfalso. change (2 ^ (7 * Z.of_nat 1)) with 128 in Hv. lia.
Qed.
End vb_shape.

(** * The decoder reads back what the encoder wrote *)

Section decoder.
Implicit Types (ps : list (Z * Z)) (d : UnifiedDecoder).

Lemma enc_pairs_cons p ps : enc_pairs (p :: ps) = vb_write p.1 ++ p.2 :: enc_pairs ps.
Proof. unfold enc_pairs, enc_pair. cbn [map concat]. by rewrite <- app_assoc. Qed.

Lemma enc_pairs_app ps qs : enc_pairs (ps ++ qs) = enc_pairs ps ++ enc_pairs qs.
Proof. unfold enc_pairs. by rewrite map_app, concat_app. Qed.

Lemma VbRead_vb pre v post :
  in_u 64 v -> VbRead (pre ++ vb_write v ++ post) (length pre) = (v, length (vb_write v)).
Proof.
  intros Hv. unfold VbRead, vb_write. rewrite VbRead_loop_vb; try lia.
  - f_equal; lia.
  - unfold in_u in Hv. change (7 * Z.of_nat 10)%Z with 70%Z.
    assert (2 ^ 64 < 2 ^ 70)%Z by done. lia.
  - unfold in_u in Hv. lia.
  - len_lia.
Qed.

Lemma DecodeNext_nil d : decodes d [] ->
  DecodeNext d = with_current d (m_CurrentPtr d) (m_CurrentDoc d) (m_CurrentTf8 d) false.
Proof.
  intros (pre & post & _ & Hp & He). unfold DecodeNext, HasMoreBytes.
  rewrite Hp, He. cbn [enc_pairs map concat length]. rewrite Nat.add_0_r, Nat.ltb_irrefl. done.
Qed.

Lemma decode_tail_write v b bs fuel pre post end_ :
  in_u 64 v -> vb_write v = b :: bs -> length bs < fuel ->
  S (length pre) + length bs <= end_ ->
  decode_tail fuel (pre ++ b :: bs ++ post) (S (length pre)) end_ b (Z.land b 127) 7
  = (length pre + S (length bs), Some v).
Proof.
  intros Hv Hvb Hf He.
  assert (in_u 8 b) as Hb.
  { pose proof (vb_write_loop_bytes 10 v (proj1 Hv)) as Hby. fold (vb_write v) in Hby.
    rewrite Hvb in Hby. by inversion Hby. }
  assert (in_u 64 (Z.land b 127)) as Hland.
  { rewrite land_127. unfold in_u in *. pose proof (Z.mod_pos_bound b 128). lia. }
  pose proof (decode_tail_vb 10 v b bs fuel (pre ++ [b]) post end_ 0 0 Hvb) as Hdt.
  rewrite Z.shiftl_0_r, (wrap_small 64 (Z.land b 127) Hland), Z.lor_0_l, <- app_assoc in Hdt.
  replace (length (pre ++ [b])) with (S (length pre)) in Hdt by len_lia.
  unfold in_u in Hv. change (7 * Z.of_nat 10)%Z with 70%Z in Hdt.
  assert (2 ^ 64 < 2 ^ 70)%Z by done.
  change (0 + 7)%Z with 7%Z in Hdt. cbn [app] in Hdt. rewrite Hdt; try lia.
  - f_equal; [lia|]. f_equal. lia.
  - apply Z.divide_0_r.
Qed.

Lemma DecodeNext_cons d p ps : decodes d (p :: ps) -> wf_pair p ->
  let d' := DecodeNext d in
  decodes d' ps /\ m_CurrentDoc d' = p.1 /\ m_CurrentTf8 d' = p.2 /\ m_HasCurrent d' = true
  /\ m_BlockEnd d' = m_BlockEnd d /\ m_CurrentPtr d < m_CurrentPtr d'.
Proof.
  intros (pre & post & Hb & Hp & He) [Hdoc Htf]. rewrite enc_pairs_cons in Hb, He.
  destruct (vb_write_cons p.1 Hdoc) as (b & bs & Hvb & _).
  rewrite Hvb in Hb, He. cbn [app] in Hb. rewrite <- app_assoc in Hb.
  assert (Hnext : DecodeNext d
    = with_current d (length pre + S (S (length bs))) p.1 p.2 true).
  { unfold DecodeNext, HasMoreBytes. rewrite Hb, Hp.
    replace (length pre <? _) with true by (symmetry; apply Nat.ltb_lt; len_lia). cbn [negb].
    rewrite app_nth2, Nat.sub_diag by lia. cbn [nth].
    rewrite (decode_tail_write p.1) by (done || len_lia).
    replace (m_BlockEnd d <=? _) with false by (symmetry; apply Nat.leb_gt; len_lia).
    f_equal; [lia|]. rewrite app_comm_cons, app_assoc, app_nth2 by len_lia.
    cbn [app]. replace (_ - _) with 0 by len_lia. done. }
  rewrite Hnext. cbn. split_and!; try done; [|len_lia].
  exists (pre ++ b :: bs ++ [p.2]), post. cbn. split_and!.
  - rewrite Hb. f_equal. repeat (rewrite <- ?app_assoc; cbn [app]). done.
  - len_lia.
  - len_lia.
Qed.

Lemma OpenRaw_decodes pre ps post :
  (Z.of_nat (length pre + length (enc_pairs ps)) < 2 ^ 64)%Z ->
  decodes (OpenRaw (pre ++ enc_pairs ps ++ post) (length pre) (length (enc_pairs ps))) ps.
Proof.
  intros Hlt. exists pre, post. unfold OpenRaw, posting_end, checked_add. cbn.
  destruct (Z.ltb_spec (Z.of_nat (length pre) + Z.of_nat (length (enc_pairs ps))) (2 ^ 64)); [|lia].
  replace (_ <=? _) with true by (symmetry; apply Nat.leb_le; len_lia).
  split_and!; [done|lia|done].
Qed.

Lemma drain_decodes fuel d ps :
  decodes d ps -> Forall wf_pair ps -> length ps < fuel -> drain fuel d = ps.
Proof.
  intros Hd Hwf. revert d fuel Hd. induction Hwf as [|p ps Hp _ IH]; intros d fuel Hd Hf.
  - destruct fuel; [lia|]. cbn [drain]. unfold decoder_GoNext. by rewrite DecodeNext_nil.
  - destruct fuel; [cbn in Hf; lia|]. cbn [drain]. unfold decoder_GoNext, decoder_IsEnd.
    destruct (DecodeNext_cons d p ps Hd Hp) as (Hd' & -> & -> & -> & _). cbn [negb].
    destruct p as [doc tf]. f_equal. apply IH; [done|]. cbn in Hf. lia.
Qed.

(** The pairs from the first one whose id reaches [target]. *)
Fixpoint skip_to (target : Z) ps : list (Z * Z) :=
  match ps with
  | [] => []
  | p :: ps' => if (target <=? p.1)%Z then ps else skip_to target ps'
  end.

(** The decoder stands on the head of [ps], or has ended when [ps] is empty. *)
Definition positioned d ps : Prop :=
  match ps with
  | [] => m_HasCurrent d = false /\ decodes d []
  | p :: rest =>
      m_HasCurrent d = true /\ m_CurrentDoc d = p.1 /\ m_CurrentTf8 d = p.2 /\ decodes d rest
  end.

Lemma DecodeNext_positioned d ps :
  decodes d ps -> Forall wf_pair ps -> positioned (DecodeNext d) ps.
Proof.
  intros Hd Hwf. destruct ps as [|p ps].
  - rewrite DecodeNext_nil by done. split; [done|].
    destruct Hd as (pre & post & ? & ? & ?). by exists pre, post.
  - inversion Hwf; subst. destruct (DecodeNext_cons d p ps Hd) as (? & ? & ? & ? & _); done.
Qed.

Lemma decoder_GoUntil_loop_spec target ps :
  forall fuel d, decodes d ps -> Forall wf_pair ps -> length ps < fuel ->
  positioned (decoder_GoUntil_loop fuel target d) (skip_to target ps).
Proof.
  induction ps as [|p ps IH]; intros [|fuel] d Hd Hwf Hf; cbn [length] in Hf; try lia;
    pose proof (DecodeNext_positioned _ _ Hd Hwf) as Hn; cbn [decoder_GoUntil_loop skip_to].
  - pose proof (proj1 Hn) as ->. done.
  - pose proof Hn as (Hhas & Hdoc & _ & Hd').
    rewrite Hhas, Hdoc. cbn [negb orb]. destruct (target <=? p.1)%Z; [done|].
    apply IH; [done| by inversion Hwf|lia].
Qed.

Lemma length_enc_pairs ps : Forall wf_pair ps -> 2 * length ps <= length (enc_pairs ps).
Proof.
  induction 1 as [|p ps [Hp _] _ IH]; [cbn; lia|]. rewrite enc_pairs_cons.
  destruct (vb_write_cons p.1 Hp) as (b & bs & -> & _). len_lia.
Qed.

Lemma decodes_room d ps : decodes d ps -> Forall wf_pair ps ->
  length ps < S (m_BlockEnd d - m_CurrentPtr d).
Proof.
  intros (pre & post & _ & Hp & He) Hwf. pose proof (length_enc_pairs ps Hwf). lia.
Qed.
End decoder.

(** * Splitting a posting byte string at pair boundaries *)

Section splitting.
Implicit Types ps qs : list (Z * Z).

(** How many leading pairs fit in [cap] bytes. *)
Fixpoint fit (cap : nat) ps : nat :=
  match ps with
  | [] => 0
  | p :: ps' =>
      if length (enc_pair p) <=? cap then S (fit (cap - length (enc_pair p)) ps') else 0
  end.

Definition last_doc ps : Z := match last ps with Some p => p.1 | None => 0%Z end.

Lemma length_enc_pair p : wf_pair p -> 2 <= length (enc_pair p).
Proof.
  intros [Hp _]. unfold enc_pair. destruct (vb_write_cons p.1 Hp) as (b & bs & -> & _). len_lia.
Qed.

Lemma length_enc_pairs_cons p ps :
  length (enc_pairs (p :: ps)) = length (enc_pair p) + length (enc_pairs ps).
Proof. unfold enc_pairs. cbn [map concat]. len_lia. Qed.

Lemma fit_all cap ps : length (enc_pairs ps) <= cap -> fit cap ps = length ps.
Proof.
  revert cap. induction ps as [|p ps IH]; intros cap Hc; [done|].
  rewrite length_enc_pairs_cons in Hc. cbn [fit length].
  replace (_ <=? cap) with true by (symmetry; apply Nat.leb_le; lia).
  f_equal. apply IH. lia.
Qed.

Lemma fit_min cap ps : fit (Nat.min (length (enc_pairs ps)) cap) ps = fit cap ps.
Proof.
  destruct (Nat.le_gt_cases (length (enc_pairs ps)) cap).
  - rewrite Nat.min_l by done. by rewrite !fit_all by lia.
  - by rewrite Nat.min_r by lia.
Qed.

Lemma readOne_vb fuel pre v post :
  in_u 64 v -> length (vb_write v) <= fuel ->
  readOne fuel (pre ++ vb_write v ++ post) (length pre) = (true, length pre + length (vb_write v)).
Proof. intros Hv. apply readOne_shaped. by apply vb_write_shaped. Qed.

Lemma ReadVbcPairEnd_pair pre p post :
  wf_pair p ->
  ReadVbcPairEnd (pre ++ enc_pair p ++ post) (length pre) = (true, length pre + length (enc_pair p)).
Proof.
  intros [Hp _]. unfold ReadVbcPairEnd, enc_pair. rewrite <- app_assoc, readOne_vb by (done || len_lia).
  replace (_ <=? _) with false by (symmetry; apply Nat.leb_gt; len_lia). f_equal. len_lia.
Qed.

Lemma PostingPrefixBytes_loop_spec ps :
  forall fuel qs limit,
  Forall wf_pair ps -> length (enc_pairs qs) <= limit <= length (enc_pairs (qs ++ ps)) ->
  length ps < fuel ->
  PostingPrefixBytes_loop fuel (enc_pairs (qs ++ ps)) limit
    (length (enc_pairs qs)) (length (enc_pairs qs))
  = length (enc_pairs (qs ++ take (fit (limit - length (enc_pairs qs)) ps) ps)).
Proof.
  induction ps as [|p ps IH]; intros [|fuel] qs limit Hwf Hl Hf; cbn [length] in Hf; try lia;
    cbn [PostingPrefixBytes_loop fit].
  - rewrite app_nil_r in *. replace (_ <? limit) with false by (symmetry; apply Nat.ltb_ge; lia).
    by rewrite take_nil, app_nil_r.
  - inversion Hwf as [|? ? Hp Hps]; subst. pose proof (length_enc_pair p Hp).
    destruct (length (enc_pairs qs) <? limit) eqn:E; bool_to_prop.
    2:{ replace (_ <=? _) with false by (symmetry; apply Nat.leb_gt; lia).
        by rewrite take_0, app_nil_r. }
    rewrite (enc_pairs_app qs (p :: ps)) at 1. change (enc_pairs (p :: ps)) with (enc_pair p ++ enc_pairs ps).
    rewrite ReadVbcPairEnd_pair by done.
    destruct (limit <? _) eqn:E2; bool_to_prop.
    + replace (_ <=? _) with false by (symmetry; apply Nat.leb_gt; lia).
      by rewrite take_0, app_nil_r.
    + replace (_ <=? _) with true by (symmetry; apply Nat.leb_le; lia).
      assert (Hq : length (enc_pairs qs) + length (enc_pair p) = length (enc_pairs (qs ++ [p]))).
      { rewrite enc_pairs_app, length_app, length_enc_pairs_cons. cbn. lia. }
      rewrite Hq. replace (qs ++ p :: ps) with ((qs ++ [p]) ++ ps) in * by (by rewrite <- app_assoc).
      rewrite IH by (done || lia). cbn [take]. rewrite <- app_assoc. cbn [app].
      by rewrite <- Hq, Nat.sub_add_distr.
Qed.

Lemma MaxDocIDInPairs_loop_spec ps :
  forall fuel qs m, Forall wf_pair ps -> length ps < fuel ->
  MaxDocIDInPairs_loop fuel (enc_pairs (qs ++ ps)) (length (enc_pairs qs)) m
  = match last ps with Some p => p.1 | None => m end.
Proof.
  induction ps as [|p ps IH]; intros [|fuel] qs m Hwf Hf; cbn [length] in Hf; try lia;
    cbn [MaxDocIDInPairs_loop].
  - rewrite app_nil_r, Nat.ltb_irrefl. done.
  - inversion Hwf as [|? ? Hp Hps]; subst. pose proof (length_enc_pair p Hp). destruct Hp as [Hd Ht].
    assert (Hlen : length (enc_pairs (qs ++ p :: ps))
      = length (enc_pairs qs) + (length (vb_write p.1) + S (length (enc_pairs ps)))).
    { rewrite enc_pairs_app, enc_pairs_cons. len_lia. }
    assert (Hread : VbRead (enc_pairs (qs ++ p :: ps)) (length (enc_pairs qs))
      = (p.1, length (vb_write p.1))).
    { rewrite enc_pairs_app, enc_pairs_cons. by apply VbRead_vb. }
    rewrite Hlen, Hread.
    replace (_ <? _) with true by (symmetry; apply Nat.ltb_lt; lia).
    replace (_ <=? _) with false by (symmetry; apply Nat.leb_gt; lia).
    replace (S _) with (length (enc_pairs (qs ++ [p]))).
    2:{ rewrite enc_pairs_app, length_app, length_enc_pairs_cons. unfold enc_pair. cbn. len_lia. }
    replace (qs ++ p :: ps) with ((qs ++ [p]) ++ ps) by (by rewrite <- app_assoc).
    rewrite IH by (done || lia). rewrite last_cons. by destruct (last ps).
Qed.

(** The merge copies, when no frequency byte has its high bit set. *)
Lemma readOne_low fuel pre t post :
  (0 <= t < 128)%Z -> 0 < fuel -> readOne fuel (pre ++ t :: post) (length pre) = (true, S (length pre)).
Proof.
  intros Ht Hf. destruct fuel; [lia|]. cbn [readOne].
  replace (_ <? _) with true by (symmetry; apply Nat.ltb_lt; len_lia).
  rewrite app_nth2, Nat.sub_diag by lia. cbn [nth]. rewrite high_bit by lia.
  by destruct (Z.ltb_spec t 128); [|lia].
Qed.

Lemma ReadVbPairEnd_pair pre p post :
  wf_pair p -> (p.2 < 128)%Z ->
  ReadVbPairEnd (pre ++ enc_pair p ++ post) (length pre) = (true, length pre + length (enc_pair p)).
Proof.
  intros [Hp Ht] Hlow. unfold ReadVbPairEnd, enc_pair.
  rewrite <- app_assoc, readOne_vb by (done || len_lia).
  rewrite app_assoc. cbn [app].
  replace (length pre + _) with (length (pre ++ vb_write p.1)) by len_lia.
  unfold in_u in Ht. rewrite readOne_low by lia. f_equal. len_lia.
Qed.

Lemma PostingSplitLength_loop_low ps :
  forall fuel qs limit,
  Forall wf_pair ps -> Forall (fun p => p.2 < 128)%Z ps ->
  PostingSplitLength_loop fuel (enc_pairs (qs ++ ps)) limit
    (length (enc_pairs qs)) (length (enc_pairs qs))
  = PostingPrefixBytes_loop fuel (enc_pairs (qs ++ ps)) limit
    (length (enc_pairs qs)) (length (enc_pairs qs)).
Proof.
  induction ps as [|p ps IH]; intros [|fuel] qs limit Hwf Hlow; try done;
    cbn [PostingSplitLength_loop PostingPrefixBytes_loop].
  - rewrite app_nil_r. case_test; [|done].
    unfold ReadVbPairEnd, ReadVbcPairEnd. cbn [readOne]. by rewrite Nat.ltb_irrefl.
  - inversion Hwf as [|? ? Hp Hps]; inversion Hlow as [|? ? Hl Hls]; subst.
    case_test; [|done].
    assert (Hsplit : enc_pairs (qs ++ p :: ps) = enc_pairs qs ++ enc_pair p ++ enc_pairs ps)
      by apply enc_pairs_app.
    assert (H1 : ReadVbPairEnd (enc_pairs (qs ++ p :: ps)) (length (enc_pairs qs))
      = (true, length (enc_pairs qs) + length (enc_pair p)))
      by (rewrite Hsplit; by apply ReadVbPairEnd_pair).
    assert (H2 : ReadVbcPairEnd (enc_pairs (qs ++ p :: ps)) (length (enc_pairs qs))
      = (true, length (enc_pairs qs) + length (enc_pair p)))
      by (rewrite Hsplit; by apply ReadVbcPairEnd_pair).
    rewrite H1, H2. clear Hsplit H1 H2. case_test; [done|].
    replace (length (enc_pairs qs) + length (enc_pair p)) with (length (enc_pairs (qs ++ [p]))).
    2:{ rewrite enc_pairs_app, length_app, length_enc_pairs_cons. cbn. lia. }
    replace (qs ++ p :: ps) with ((qs ++ [p]) ++ ps) by (by rewrite <- app_assoc).
    by apply IH.
Qed.
Lemma VbReadLocal_low pre t post : (0 <= t < 128)%Z -> VbReadLocal (pre ++ t :: post) (length pre) = (t, 1).
Proof.
  intros Ht. unfold VbReadLocal. assert (Hw : vb_write t = [t]).
  { unfold vb_write. cbn [vb_write_loop]. by destruct (Z.ltb_spec t 128); [|lia]. }
  change (t :: post) with ([t] ++ post). rewrite <- Hw, VbRead_vb by (unfold in_u; lia). by rewrite Hw.
Qed.

Lemma MaxDocIDInPairs_merge_loop_spec ps :
  forall fuel qs m, Forall wf_pair ps -> Forall (fun p => p.2 < 128)%Z ps -> length ps < fuel ->
  MaxDocIDInPairs_merge_loop fuel (enc_pairs (qs ++ ps)) (length (enc_pairs qs)) m
  = match last ps with Some p => p.1 | None => m end.
Proof.
  induction ps as [|p ps IH]; intros [|fuel] qs m Hwf Hlow Hf; cbn [length] in Hf; try lia;
    cbn [MaxDocIDInPairs_merge_loop].
  - rewrite app_nil_r, Nat.ltb_irrefl. done.
  - inversion Hwf as [|? ? Hp Hps]; inversion Hlow as [|? ? Hl Hls]; subst. pose proof (length_enc_pair p Hp). destruct Hp as [Hd Ht].
    assert (Hlen : length (enc_pairs (qs ++ p :: ps))
      = length (enc_pairs qs) + (length (vb_write p.1) + S (length (enc_pairs ps)))).
    { rewrite enc_pairs_app, enc_pairs_cons. len_lia. }
    assert (Hread : VbReadLocal (enc_pairs (qs ++ p :: ps)) (length (enc_pairs qs)) = (p.1, length (vb_write p.1))).
    { rewrite enc_pairs_app, enc_pairs_cons. by apply VbRead_vb. }
    assert (Htf : VbReadLocal (enc_pairs (qs ++ p :: ps)) (length (enc_pairs qs) + length (vb_write p.1)) = (p.2, 1)).
    { rewrite enc_pairs_app, enc_pairs_cons, app_assoc, <- length_app. apply VbReadLocal_low. unfold in_u in Ht. lia. }
    rewrite Hlen, Hread, Htf.
    replace (_ <? _) with true by (symmetry; apply Nat.ltb_lt; lia).
    replace (_ <=? _) with false by (symmetry; apply Nat.leb_gt; lia).
    replace (length (enc_pairs qs) + length (vb_write p.1) + 1) with (length (enc_pairs (qs ++ [p]))).
    2:{ rewrite enc_pairs_app, length_app, length_enc_pairs_cons. unfold enc_pair. cbn. len_lia. }
    replace (qs ++ p :: ps) with ((qs ++ [p]) ++ ps) by (by rewrite <- app_assoc).
    rewrite IH by (done || lia). rewrite last_cons. by destruct (last ps).
Qed.
End splitting.

(** * Properties *)

Section properties.
Context `{Libm}.

Lemma tf8_encode_range tf : in_u 8 (tf8_encode tf).
Proof. unfold tf8_encode. apply f_as_u_range. lia. Qed.

Lemma get_bytes_pairs pl : get_bytes pl = enc_pairs (pairs_of pl).
Proof.
  unfold get_bytes, encode, enc_pairs, pairs_of. rewrite map_map. done.
Qed.

Lemma pairs_of_wf pl :
  Forall (fun e => in_u 64 (ie_doc_id e)) (entries pl) -> Forall wf_pair (pairs_of pl).
Proof.
  intros Hd. unfold pairs_of. apply Forall_map. eapply Forall_impl; [exact Hd|].
  intros e He. split; [done|]. apply tf8_encode_range.
Qed.

(** C30: encode/decode round trip: a UnifiedDecoder opened on the byte range where a posting
    list was written yields exactly that list's (doc id, tf8) pairs, in order, then ends,
    whatever surrounds the range in the block. *)
Theorem decoder_roundtrip pl pre post :
  Forall (fun e => in_u 64 (ie_doc_id e)) (entries pl) ->
  (Z.of_nat (length pre + length (get_bytes pl)) < 2 ^ 64)%Z ->
  drain (S (length (entries pl)))
    (OpenRaw (pre ++ get_bytes pl ++ post) (length pre) (length (get_bytes pl)))
  = pairs_of pl.
Proof.
  intros Hdocs Hlen. rewrite get_bytes_pairs in *. apply drain_decodes.
  - by apply OpenRaw_decodes.
  - by apply pairs_of_wf.
  - unfold pairs_of. len_lia.
Qed.
End properties.

(** UnifiedDecoder::GoUntil moves to the first remaining pair whose doc id reaches the
    target (the current one included) and ends when there is none; it never moves back. *)
Theorem decoder_GoUntil_spec d ps target :
  positioned d ps -> Forall wf_pair ps ->
  positioned (decoder_GoUntil target d) (skip_to target ps).
Proof.
  intros Hpos Hwf. unfold decoder_GoUntil. destruct ps as [|p rest].
  - destruct Hpos as [-> Hd]. cbn [andb]. apply decoder_GoUntil_loop_spec; [done..|cbn; lia].
  - pose proof Hpos as (-> & -> & _ & Hd). cbn [andb skip_to].
    destruct (target <=? p.1)%Z; [done|]. inversion Hwf; subst.
    apply decoder_GoUntil_loop_spec; [done..|]. by apply decodes_room.
Qed.

Lemma fit_longest ps cap :
  fit cap ps <= length ps /\ length (enc_pairs (take (fit cap ps) ps)) <= cap /\
  (fit cap ps < length ps -> cap < length (enc_pairs (take (S (fit cap ps)) ps))).
Proof.
  revert cap. induction ps as [|p ps IH]; intros cap; cbn [fit length]; [cbn; lia|].
  destruct (length (enc_pair p) <=? cap) eqn:E; bool_to_prop.
  - specialize (IH (cap - length (enc_pair p))). destruct IH as (IH1 & IH2 & IH3).
    cbn [take]. rewrite length_enc_pairs_cons. split_and!; [lia|lia|].
    intros Hlt. specialize (IH3 ltac:(lia)). cbn [take] in IH3 |- *.
    rewrite length_enc_pairs_cons. lia.
  - split_and!; [lia|cbn; lia|]. intros _. cbn [take]. rewrite length_enc_pairs_cons. lia.
Qed.

Lemma PostingPrefixBytes_fit ps cap :
  Forall wf_pair ps -> PostingPrefixBytes (enc_pairs ps) cap = length (enc_pairs (take (fit cap ps) ps)).
Proof.
  intros Hwf. unfold PostingPrefixBytes.
  pose proof (PostingPrefixBytes_loop_spec ps (S (length (enc_pairs ps))) []
    (Nat.min (length (enc_pairs ps)) cap) Hwf) as Hloop.
  cbn [app enc_pairs map concat length] in Hloop. fold (enc_pairs ps) in Hloop.
  rewrite Nat.sub_0_r, fit_min in Hloop. apply Hloop; [lia|].
  pose proof (length_enc_pairs ps Hwf). lia.
Qed.

(** PostingPrefixBytes cuts a posting byte string after the longest run of whole
    (doc id, tf) pairs that fits in the capacity: never inside a pair, never earlier than
    necessary. *)
Theorem PostingPrefixBytes_longest ps cap :
  Forall wf_pair ps ->
  exists k, k <= length ps /\
    PostingPrefixBytes (enc_pairs ps) cap = length (enc_pairs (take k ps)) /\
    length (enc_pairs (take k ps)) <= cap /\
    (k < length ps -> cap < length (enc_pairs (take (S k) ps))).
Proof.
  intros Hwf. exists (fit cap ps). pose proof (fit_longest ps cap).
  rewrite PostingPrefixBytes_fit by done. tauto.
Qed.

(** the merge path's PostingSplitLength and MaxDocIDInPairs read the raw frequency byte as
    a VarByte number. They agree with the builder's splitting only while every frequency byte
    is below 128 (tf below 255). *)
Theorem PostingSplitLength_low_bytes ps cap :
  Forall wf_pair ps -> Forall (fun p => p.2 < 128)%Z ps ->
  PostingSplitLength (enc_pairs ps) cap = PostingPrefixBytes (enc_pairs ps) cap.
Proof.
  intros Hwf Hlow. unfold PostingSplitLength.
  destruct (length (enc_pairs ps) <=? cap) eqn:E; bool_to_prop.
  - rewrite PostingPrefixBytes_fit by done. destruct (fit_longest ps cap) as (_ & _ & Hmax).
    destruct (decide (fit cap ps < length ps)) as [Hlt|]; [|by rewrite take_ge by lia].
    exfalso. specialize (Hmax Hlt).
    rewrite <- (take_drop (S (fit cap ps)) ps), enc_pairs_app, length_app in E. lia.
  - apply (PostingSplitLength_loop_low ps _ []); done.
Qed.

Lemma PostingSplitLength_fit ps cap :
  Forall wf_pair ps -> Forall (fun p => p.2 < 128)%Z ps ->
  PostingSplitLength (enc_pairs ps) cap = length (enc_pairs (take (fit cap ps) ps)).
Proof. intros Hwf Hlow. by rewrite PostingSplitLength_low_bytes, PostingPrefixBytes_fit. Qed.

Lemma MaxDocIDInPairs_merge_pairs ps :
  Forall wf_pair ps -> Forall (fun p => p.2 < 128)%Z ps -> MaxDocIDInPairs_merge (enc_pairs ps) = last_doc ps.
Proof.
  intros Hwf Hlow. apply (MaxDocIDInPairs_merge_loop_spec ps _ [] 0%Z Hwf Hlow).
  pose proof (length_enc_pairs ps Hwf). lia.
Qed.

(** C32: finding: with a frequency byte of 128 or more, the merge path cuts a well-formed
    posting byte string inside a pair, where the builder cuts between pairs, and reports a
    maximum doc id that the range does not have. *)
Theorem PostingSplitLength_breaks_pair :
  let ps := [(5, 200); (6, 200); (7, 10); (8, 11)]%Z in
  Forall wf_pair ps /\
  PostingPrefixBytes (enc_pairs ps) 4 = length (enc_pairs (take 2 ps)) /\
  (forall k, PostingSplitLength (enc_pairs ps) 4 <> length (enc_pairs (take k ps))) /\
  MaxDocIDInPairs (enc_pairs (take 3 ps)) = 7%Z /\
  MaxDocIDInPairs_merge (enc_pairs (take 3 ps)) <> 7%Z.
Proof.
  cbv zeta. split; [|split; [|split; [|split]]].
  - repeat constructor; done.
  - vm_compute. done.
  - assert (H : PostingSplitLength (enc_pairs [(5, 200); (6, 200); (7, 10); (8, 11)]%Z) 4 = 3)
      by (vm_compute; done).
    intros k. rewrite H. destruct k as [|[|[|[|k]]]]; vm_compute; done.
  - vm_compute. done.
  - vm_compute. done.
Qed.

Lemma length_vb_write_loop fuel v : length (vb_write_loop fuel v) <= fuel.
Proof. revert v. induction fuel as [|fuel IH]; intros v; cbn; [lia|]. case_test; cbn; [lia|]. specialize (IH (Z.shiftr v 7)). lia. Qed.

Lemma length_enc_pair_max p : length (enc_pair p) <= 11.
Proof. unfold enc_pair, vb_write. pose proof (length_vb_write_loop 10 p.1). len_lia. Qed.

(** A page has room for at least one pair. *)
Lemma fit_pos p ps cap : 11 <= cap -> 1 <= fit cap (p :: ps).
Proof. intros Hc. cbn [fit]. pose proof (length_enc_pair_max p). case_test; lia. Qed.

Lemma MaxDocIDInPairs_pairs ps :
  Forall wf_pair ps -> MaxDocIDInPairs (enc_pairs ps) = last_doc ps.
Proof.
  intros Hwf. unfold MaxDocIDInPairs.
  apply (MaxDocIDInPairs_loop_spec ps _ [] 0%Z Hwf).
  pose proof (length_enc_pairs ps Hwf). lia.
Qed.

(** MaxDocIDInPairs of a run of pairs is the doc id of the last one (0 when there is none). *)
Theorem MaxDocIDInPairs_last ps :
  Forall wf_pair ps -> MaxDocIDInPairs (enc_pairs ps) = last_doc ps.
Proof. apply MaxDocIDInPairs_pairs. Qed.

(** * Safety on arbitrary bytes *)

Section safety.
(** What holds of a decoder at any time, whatever the bytes of the page: the cursor stays in
    the byte range, the range in the page, and the values in their machine types. *)
Definition decoder_ok (d : UnifiedDecoder) : Prop :=
  m_CurrentPtr d <= m_BlockEnd d /\ in_u 64 (m_CurrentDoc d) /\ in_u 8 (m_CurrentTf8 d) /\
  (forall b, m_Block d = Some b -> is_bytes b /\ m_BlockEnd d <= length b).

Lemma is_bytes_nth b i : is_bytes b -> in_u 8 (nth i b 0%Z).
Proof.
  intros Hb. destruct (nth_in_or_default i b 0%Z) as [Hin| ->]; [|done].
  eapply Forall_forall in Hb; [exact Hb|]. by apply list_elem_of_In.
Qed.

Lemma land_127_in_u b : in_u 8 b -> in_u 7 (Z.land b 127).
Proof. intros Hb. rewrite land_127. by apply Z.mod_pos_bound. Qed.

Lemma decode_tail_ok data end_ :
  forall fuel ptr byte doc shift ptr' r,
  is_bytes data -> ptr <= end_ -> in_u 64 doc ->
  decode_tail fuel data ptr end_ byte doc shift = (ptr', r) ->
  ptr <= ptr' <= end_ /\ (forall v, r = Some v -> in_u 64 v).
Proof.
  induction fuel as [|fuel IH]; intros ptr byte doc shift ptr' r Hb Hp Hd; cbn [decode_tail];
    [intros [= <- <-]; split; [lia|done]|].
  destruct (Z.land byte 128 =? 0)%Z; [intros [= <- <-]; split; [lia|by intros v [= <-]]|].
  destruct ((end_ <=? ptr) || _) eqn:E; [intros [= <- <-]; split; [lia|done]|].
  bool_to_prop. case_test; [intros [= <- <-]; split; [lia|done]|].
  intros Hrec. apply IH in Hrec; try done; try lia; [split; [lia|apply Hrec]|].
  apply in_u_lor; [lia|done|]. apply wrap_range. lia.
Qed.

(** More fuel never changes the result: the loop ends by itself. *)
Lemma decode_tail_fuel data end_ :
  forall fuel fuel' ptr byte doc shift,
  ptr <= end_ -> end_ - ptr < fuel -> fuel <= fuel' ->
  decode_tail fuel' data ptr end_ byte doc shift = decode_tail fuel data ptr end_ byte doc shift.
Proof.
  induction fuel as [|fuel IH]; intros [|fuel'] ptr byte doc shift Hp Hf Hf'; try lia.
  cbn [decode_tail]. destruct (Z.land byte 128 =? 0)%Z; [done|].
  destruct ((end_ <=? ptr) || _) eqn:E; [done|]. bool_to_prop.
  case_test; [done|]. apply IH; lia.
Qed.

Lemma DecodeNext_safe d :
  decoder_ok d ->
  decoder_ok (DecodeNext d) /\
  (m_HasCurrent (DecodeNext d) = true -> m_CurrentPtr d + 2 <= m_CurrentPtr (DecodeNext d)).
Proof.
  intros (Hp & Hd & Ht & Hb). unfold DecodeNext, HasMoreBytes, decoder_ok.
  destruct (m_CurrentPtr d <? m_BlockEnd d) eqn:Hmore; cbn [negb]; bool_to_prop; [|done].
  destruct (m_Block d) as [data|] eqn:Hblk; [|by cbn; rewrite Hblk].
  destruct (Hb _ eq_refl) as [Hby Hle].
  destruct (decode_tail _ _ _ _ _ _ _) as [ptr r] eqn:Htail.
  apply decode_tail_ok in Htail as [Hptr Hr]; [|done|lia|].
  2:{ apply (in_u_mono 7); [lia|]. by apply land_127_in_u, is_bytes_nth. }
  destruct r as [doc|]; [specialize (Hr _ eq_refl)|cbn; rewrite Hblk; split_and!; try done; lia].
  destruct (m_BlockEnd d <=? ptr) eqn:E; bool_to_prop; cbn; rewrite Hblk;
    split_and!; try done; try lia. by apply is_bytes_nth.
Qed.

Lemma decoder_GoUntil_loop_safe target fuel d :
  decoder_ok d -> decoder_ok (decoder_GoUntil_loop fuel target d).
Proof.
  revert d. induction fuel as [|fuel IH]; intros d Hd; cbn [decoder_GoUntil_loop]; [done|].
  pose proof (proj1 (DecodeNext_safe d Hd)). case_test; auto.
Qed.

(** The GoUntil loop reaches one of its two exits within its fuel. *)
Lemma decoder_GoUntil_loop_exits target fuel d :
  decoder_ok d -> m_BlockEnd d - m_CurrentPtr d < fuel ->
  let d' := decoder_GoUntil_loop fuel target d in
  decoder_IsEnd d' = true \/ (target <= m_CurrentDoc d')%Z.
Proof.
  revert d. induction fuel as [|fuel IH]; intros d Hd Hf; [lia|]. cbn [decoder_GoUntil_loop].
  destruct (DecodeNext_safe d Hd) as [Hok Hadv].
  destruct (negb (m_HasCurrent (DecodeNext d)) || _) eqn:E.
  - unfold decoder_IsEnd. apply orb_true_iff in E as [->|E]; [by left|right]. by bool_to_prop.
  - bool_to_prop. apply IH; [done|]. specialize (Hadv ltac:(done)).
    destruct Hok as (Hp' & _).
    assert (m_BlockEnd (DecodeNext d) = m_BlockEnd d)
      by (unfold DecodeNext; repeat case_match; done).
    lia.
Qed.
End safety.

(** C31: on arbitrary page bytes, malformed ones included, opening, stepping, seeking, taking
    the block and closing a UnifiedDecoder keep the cursor inside the byte range and the range
    inside the page, and every decoded value inside its machine type. *)
Theorem decoder_safe block offset len target d :
  is_bytes block -> decoder_ok d ->
  decoder_ok (OpenRaw block offset len) /\ decoder_ok (decoder_GoNext d) /\
  decoder_ok (decoder_GoUntil target d) /\ decoder_ok (TakeBlock d) /\ decoder_ok (decoder_Close d).
Proof.
  intros Hb Hd. split_and!.
  - unfold OpenRaw, decoder_ok. cbn. split_and!; try done; [lia|]. intros b [= <-].
    split; [done|]. unfold posting_end. repeat case_match; bool_to_prop; lia.
  - by apply DecodeNext_safe.
  - unfold decoder_GoUntil. case_test; [done|]. by apply decoder_GoUntil_loop_safe.
  - destruct Hd as (? & ? & ? & _). done.
  - destruct Hd as (? & ? & ? & _). unfold decoder_ok. cbn. split_and!; done.
Qed.

(** GoUntil terminates on arbitrary bytes: it ends exhausted or at a document id not below
    the target, and the step it repeats consumes at least two bytes whenever it yields a
    document. *)
Theorem decoder_GoUntil_terminates target d :
  decoder_ok d ->
  (decoder_IsEnd (decoder_GoUntil target d) = true \/
   (target <= m_CurrentDoc (decoder_GoUntil target d))%Z) /\
  (m_HasCurrent (decoder_GoNext d) = true ->
   m_CurrentPtr d + 2 <= m_CurrentPtr (decoder_GoNext d)).
Proof.
  intros Hd. split; [|by apply DecodeNext_safe]. unfold decoder_GoUntil. case_test.
  - right. lia.
  - apply decoder_GoUntil_loop_exits; [done|lia].
Qed.

(** * Witnesses: the properties at concrete inputs *)

Definition sample_list : PostingList :=
  {| entries := [{| ie_doc_id := 3; ie_term_frequency := 1 |}; {| ie_doc_id := 300; ie_term_frequency := 2 |}] |}.

Definition sample_pairs : list (Z * Z) := [(3, 16); (300, 32); (70000, 0)]%Z.

Lemma sample_pairs_wf : Forall wf_pair sample_pairs.
Proof. repeat constructor; unfold in_u; cbn; lia. Defined.

Lemma decoder_roundtrip_witness :
  drain 3 (OpenRaw ([7]%Z ++ @get_bytes sample_libm sample_list ++ [9]%Z) 1
             (length (@get_bytes sample_libm sample_list))) = @pairs_of sample_libm sample_list.
Proof.
  apply (@decoder_roundtrip sample_libm sample_list [7]%Z [9]%Z).
  - repeat constructor; cbn; lia.
  - vm_compute. reflexivity.
Defined.

Definition sample_decoder : UnifiedDecoder := DecodeNext (OpenRaw (enc_pairs sample_pairs) 0 (length (enc_pairs sample_pairs))).

Lemma decoder_GoUntil_spec_witness :
  positioned (decoder_GoUntil 200 sample_decoder) [(300, 32); (70000, 0)]%Z.
Proof.
  apply (decoder_GoUntil_spec sample_decoder sample_pairs 200).
  - split_and!; [reflexivity|reflexivity|reflexivity|].
    exists [3; 16]%Z, []. split_and!; reflexivity.
  - exact sample_pairs_wf.
Defined.

Lemma PostingPrefixBytes_longest_witness :
  exists k, k <= 3 /\ PostingPrefixBytes (enc_pairs sample_pairs) 6 = length (enc_pairs (take k sample_pairs)) /\
    length (enc_pairs (take k sample_pairs)) <= 6 /\
    (k < 3 -> 6 < length (enc_pairs (take (S k) sample_pairs))).
Proof. exact (PostingPrefixBytes_longest sample_pairs 6 sample_pairs_wf). Defined.

Lemma PostingSplitLength_low_bytes_witness :
  PostingSplitLength (enc_pairs sample_pairs) 6 = PostingPrefixBytes (enc_pairs sample_pairs) 6.
Proof. apply (PostingSplitLength_low_bytes sample_pairs 6 sample_pairs_wf). repeat constructor. Defined.

Lemma MaxDocIDInPairs_last_witness : MaxDocIDInPairs (enc_pairs sample_pairs) = 70000%Z.
Proof. exact (MaxDocIDInPairs_last sample_pairs sample_pairs_wf). Defined.

Lemma decoder_safe_witness :
  let d := OpenRaw [129; 128]%Z 0 2 in
  decoder_ok (OpenRaw [129; 128]%Z 1 9) /\ decoder_ok (decoder_GoNext d) /\
  decoder_ok (decoder_GoUntil 4 d) /\ decoder_ok (TakeBlock d) /\ decoder_ok (decoder_Close d).
Proof.
  apply (decoder_safe [129; 128]%Z 1 9 4 (OpenRaw [129; 128]%Z 0 2)).
  - repeat constructor; unfold in_u; lia.
  - split; [vm_compute; lia|]. split; [done|]. split; [done|]. intros b [= <-].
    split; [repeat constructor; unfold in_u; lia|vm_compute; lia].
Defined.
