(* ===== verification/PostingStore.v ===== *)
(** The in-memory inverted index built before serialization (PostingStore.rs):
    posting lists sorted by document id, document statistics and quantized
    vectors, its invariant, and its refinement of a finite map from
    (stream key, document) to term frequency. *)

From Stdlib Require Import Ascii String.
From Stdlib Require Import ZArith Lia Bool List.
From Stdlib Require Import Floats.SpecFloat.
From stdpp Require Import base list list_numbers gmap sorting.
From S2P Require Import Prelude Floats PostingCodec.

Local Open Scope moon_scope.

(** * State *)

Record DocStats := {
  doc_len : Z;
  unique_terms : Z;
  title_len : Z;
  body_len : Z;
  url_len : Z;
  anchor_len : Z;
  meta_len : Z;
  importance : f32;
  path : str;
}.

Definition docstats_default : DocStats :=
  {| doc_len := 0; unique_terms := 0; title_len := 0; body_len := 0; url_len := 0;
     anchor_len := 0; meta_len := 0; importance := f_of_Z F32 0; path := [] |}.

Definition DOC_VECTOR_DIM : nat := 128.

Record PostingStore := {
  m_Postings : gmap str PostingList;
  m_DocStats : gmap Z DocStats;
  m_DocVectors : gmap Z (list Z);
  m_TotalTerms : Z;
  m_PostingEntries : Z;
}.

Definition store_new : PostingStore :=
  {| m_Postings := ∅; m_DocStats := ∅; m_DocVectors := ∅; m_TotalTerms := 0; m_PostingEntries := 0 |}.

Definition with_postings (s : PostingStore) m n : PostingStore :=
  {| m_Postings := m; m_DocStats := m_DocStats s; m_DocVectors := m_DocVectors s;
     m_TotalTerms := m_TotalTerms s; m_PostingEntries := n |}.
Definition with_stats (s : PostingStore) m n : PostingStore :=
  {| m_Postings := m_Postings s; m_DocStats := m; m_DocVectors := m_DocVectors s;
     m_TotalTerms := n; m_PostingEntries := m_PostingEntries s |}.
Definition with_vectors (s : PostingStore) m : PostingStore :=
  {| m_Postings := m_Postings s; m_DocStats := m_DocStats s; m_DocVectors := m;
     m_TotalTerms := m_TotalTerms s; m_PostingEntries := m_PostingEntries s |}.

(** * AddPosting *)

(** [slice::binary_search_by_key] of the standard library: the window
    [base .. base + size] halves until one element is left. [inl] is [Ok],
    [inr] is [Err]. *)
Fixpoint bs_loop (fuel : nat) (key : nat -> Z) (b : Z) (base size : nat) : nat :=
  match fuel with
  | O => base
  | S fuel' =>
      if size <=? 1 then base
      else
        let half := size / 2 in
        let mid := base + half in
        bs_loop fuel' key b (if (b <? key mid)%Z then base else mid) (size - half)
  end.

Definition key_at (l : list IndexEntry) (i : nat) : Z :=
  match l !! i with Some e => ie_doc_id e | None => 0%Z end.

Definition binary_search_by_key (l : list IndexEntry) (b : Z) : nat + nat :=
  let key := key_at l in
  if length l =? 0 then inr 0
  else
    let base := bs_loop (length l) key b 0 (length l) in
    if (key base =? b)%Z then inl base
    else inr (if (key base <? b)%Z then S base else base).

Definition set_tf (tf : Z) (e : IndexEntry) : IndexEntry :=
  {| ie_doc_id := ie_doc_id e; ie_term_frequency := tf |}.

(** The new entry list and whether an entry was added. *)
Definition AddEntry (es : list IndexEntry) (doc_id tf : Z) : list IndexEntry * bool :=
  let e := {| ie_doc_id := doc_id; ie_term_frequency := tf |} in
  if match last es with Some l => (ie_doc_id l <? doc_id)%Z | None => true end
  then (es ++ [e], true)
  else if match last es with Some l => (ie_doc_id l =? doc_id)%Z | None => false end
  then (alter (set_tf tf) (length es - 1) es, false)
  else
    match binary_search_by_key es doc_id with
    | inl i => (alter (set_tf tf) i es, false)
    | inr i => (take i es ++ e :: drop i es, true)
    end.

Definition AddPosting (s : PostingStore) (stream_key : str) (doc_id tf : Z) : PostingStore :=
  let pl := default {| entries := [] |} (m_Postings s !! stream_key) in
  let '(es, added) := AddEntry (entries pl) doc_id tf in
  with_postings s (<[stream_key := {| entries := es |}]> (m_Postings s))
    (if added then wrapping_add 64 (m_PostingEntries s) 1 else m_PostingEntries s).

(** * Document statistics

    [entry(doc_id).or_default()] followed by a change. Sums of [u32] wrap, as
    they do in a release build. *)

Definition stats_of (s : PostingStore) (doc_id : Z) : DocStats :=
  default docstats_default (m_DocStats s !! doc_id).

Definition chr (c : Ascii.ascii) : Z := Z_of_ascii c.
Arguments chr c%_char_scope.

Definition AddDocTokens (s : PostingStore) (doc_id count : Z) : PostingStore :=
  let st := stats_of s doc_id in
  let st := {| doc_len := wrapping_add 32 (doc_len st) count; unique_terms := unique_terms st;
               title_len := title_len st; body_len := body_len st; url_len := url_len st;
               anchor_len := anchor_len st; meta_len := meta_len st;
               importance := importance st; path := path st |} in
  with_stats s (<[doc_id := st]> (m_DocStats s)) (wrapping_add 64 (m_TotalTerms s) count).

Definition AddStreamStats (s : PostingStore) (doc_id stream token_count unique_count : Z)
  : PostingStore :=
  let st := stats_of s doc_id in
  let add c len := if (stream =? c)%Z then wrapping_add 32 len token_count else len in
  let st := {| doc_len := doc_len st;
               unique_terms := wrapping_add 32 (unique_terms st) unique_count;
               title_len := add (chr "T") (title_len st); body_len := add (chr "B") (body_len st);
               url_len := add (chr "U") (url_len st); anchor_len := add (chr "A") (anchor_len st);
               meta_len := add (chr "M") (meta_len st);
               importance := importance st; path := path st |} in
  with_stats s (<[doc_id := st]> (m_DocStats s)) (m_TotalTerms s).

Definition AddDocTokensForStream (s : PostingStore) (doc_id stream count : Z) : PostingStore :=
  AddStreamStats (AddDocTokens s doc_id count) doc_id stream count count.

Definition SetDocLengths (s : PostingStore) (doc_id title body url anchor meta : Z) : PostingStore :=
  let st := stats_of s doc_id in
  let total := saturating_sub (m_TotalTerms s) (doc_len st) in
  let len := wrapping_add 32 (wrapping_add 32 (wrapping_add 32 (wrapping_add 32 title body) url) anchor) meta in
  let st := {| doc_len := len; unique_terms := len; title_len := title; body_len := body;
               url_len := url; anchor_len := anchor; meta_len := meta;
               importance := importance st; path := path st |} in
  with_stats s (<[doc_id := st]> (m_DocStats s)) (wrapping_add 64 total len).

Definition SetDocImportance (s : PostingStore) (doc_id : Z) (score : f32) : PostingStore :=
  let st := stats_of s doc_id in
  let st := {| doc_len := doc_len st; unique_terms := unique_terms st; title_len := title_len st;
               body_len := body_len st; url_len := url_len st; anchor_len := anchor_len st;
               meta_len := meta_len st; importance := score; path := path st |} in
  with_stats s (<[doc_id := st]> (m_DocStats s)) (m_TotalTerms s).

Definition SetDocPath (s : PostingStore) (doc_id : Z) (p : str) : PostingStore :=
  let st := stats_of s doc_id in
  let st := {| doc_len := doc_len st; unique_terms := unique_terms st; title_len := title_len st;
               body_len := body_len st; url_len := url_len st; anchor_len := anchor_len st;
               meta_len := meta_len st; importance := importance st; path := p |} in
  with_stats s (<[doc_id := st]> (m_DocStats s)) (m_TotalTerms s).

(** * Vectors *)

(** [i8] values; indexing past the end of a short vector is excluded by the
    caller's length test. *)
Definition QuantizeVector (vector : list f32) : list Z :=
  map (fun i =>
    let clipped := f_clamp (f_mul F32 (nth i vector (f_of_Z F32 0)) (f_of_Z F32 128))
                     (f_of_Z F32 (-128)) (f_of_Z F32 127) in
    f_as_i 8 (f_round F32 clipped)) (seq 0 DOC_VECTOR_DIM).

Definition SetDocVector (s : PostingStore) (doc_id : Z) (vector : list f32) : PostingStore * bool :=
  if negb (length vector =? DOC_VECTOR_DIM) then (s, false)
  else
    let s := with_stats s (<[doc_id := stats_of s doc_id]> (m_DocStats s)) (m_TotalTerms s) in
    (with_vectors s (<[doc_id := QuantizeVector vector]> (m_DocVectors s)), true).

Definition SetDocVectorBytes (s : PostingStore) (doc_id : Z) (vector : bytes) : PostingStore * bool :=
  if length vector <? DOC_VECTOR_DIM then (s, false)
  else
    let s := with_stats s (<[doc_id := stats_of s doc_id]> (m_DocStats s)) (m_TotalTerms s) in
    let b := map (fun i => to_signed 8 (nth i vector 0%Z)) (seq 0 DOC_VECTOR_DIM) in
    (with_vectors s (<[doc_id := b]> (m_DocVectors s)), true).

(** [None]: the [expect] panics. *)
Definition GetDocVector (s : PostingStore) (doc_id : Z) : option (list Z) := m_DocVectors s !! doc_id.
Definition HasDocVector (s : PostingStore) (doc_id : Z) : bool :=
  bool_decide (is_Some (m_DocVectors s !! doc_id)).

(** * Getters *)

Definition GetDocPath (s : PostingStore) (doc_id : Z) : str :=
  match m_DocStats s !! doc_id with Some st => path st | None => [] end.
Definition GetPostingList (s : PostingStore) (key : str) : option PostingList := m_Postings s !! key.
Definition GetDocLen (s : PostingStore) (doc_id : Z) : Z :=
  match m_DocStats s !! doc_id with Some st => doc_len st | None => 1%Z end.

Definition stream_len (st : DocStats) (stream : Z) : Z :=
  if (stream =? chr "T")%Z then title_len st
  else if (stream =? chr "B")%Z then body_len st
  else if (stream =? chr "U")%Z then url_len st
  else if (stream =? chr "A")%Z then anchor_len st
  else if (stream =? chr "M")%Z then meta_len st
  else 0%Z.

Definition GetStreamLen (s : PostingStore) (doc_id stream : Z) : Z :=
  match m_DocStats s !! doc_id with
  | None => 1%Z
  | Some st =>
      let doc_len := Z.max (body_len st) 1 in
      if (0 <? stream_len st stream)%Z then stream_len st stream else doc_len
  end.

Definition GetRawStreamLen (s : PostingStore) (doc_id stream : Z) : Z :=
  match m_DocStats s !! doc_id with None => 0%Z | Some st => stream_len st stream end.

Definition GetDocImportance (s : PostingStore) (doc_id : Z) : f32 :=
  match m_DocStats s !! doc_id with Some st => importance st | None => f_of_Z F32 0 end.

Definition HasDoc (s : PostingStore) (doc_id : Z) : bool :=
  bool_decide (is_Some (m_DocStats s !! doc_id)).
Definition TotalDocs (s : PostingStore) : Z := Z.of_nat (size (m_DocStats s)).
Definition TotalTerms (s : PostingStore) : Z := m_TotalTerms s.
Definition TotalPostingEntries (s : PostingStore) : Z := m_PostingEntries s.
Definition UniqueTermCount (s : PostingStore) : nat := size (m_Postings s).

Definition AvgDocLen (s : PostingStore) : f32 :=
  if size (m_DocStats s) =? 0 then f_of_Z F32 1
  else f_div F32 (f_of_Z F32 (m_TotalTerms s)) (f_of_Z F32 (Z.of_nat (size (m_DocStats s)))).

(** The integer sums do not depend on the map's iteration order. *)
Definition AvgStreamLen (s : PostingStore) (stream : Z) : f32 :=
  let '(total, count) := map_fold (fun _ st '(total, count) =>
      let value := stream_len st stream in
      if (0 <? value)%Z then (wrapping_add 64 total value, wrapping_add 64 count 1) else (total, count))
    (0%Z, 0%Z) (m_DocStats s) in
  if (0 <? count)%Z then f_div F32 (f_of_Z F32 total) (f_of_Z F32 count)
  else if (stream =? chr "T")%Z then f_of_Z F32 1
  else f_max (AvgDocLen s) (f_of_Z F32 1).

Definition DocFreq (s : PostingStore) (key : str) : Z :=
  match m_Postings s !! key with Some pl => doc_freq pl | None => 0%Z end.

(** * Binary search and insertion into a sorted list *)

Definition entry_lt (x y : IndexEntry) : Prop := (ie_doc_id x < ie_doc_id y)%Z.
Definition sorted_entries (es : list IndexEntry) : Prop := StronglySorted entry_lt es.

Section search.
(** The window keeps the answer: left end at or below the key, everything right of it above. *)
Lemma bs_loop_spec (key : nat -> Z) b n :
  (forall i j, i < j -> j < n -> (key i < key j)%Z) ->
  forall fuel base size,
  size <= fuel -> 1 <= size -> base + size <= n ->
  (base = 0 \/ (key base <= b)%Z) -> (forall i, base + size <= i -> i < n -> (b < key i)%Z) ->
  let r := bs_loop fuel key b base size in
  r < n /\ (r = 0 \/ (key r <= b)%Z) /\ (forall i, r < i -> i < n -> (b < key i)%Z).
Proof.
  intros Hmono. induction fuel as [|fuel IH]; intros base size Hf H1 Hn Hl Hr; [lia|].
  cbn [bs_loop]. destruct (size <=? 1) eqn:E; bool_to_prop.
  - replace size with 1 in * by lia. split_and!; [lia|done|]. intros i Hi. apply Hr. lia.
  - pose proof (Nat.div_mod size 2 ltac:(lia)). pose proof (Nat.mod_upper_bound size 2 ltac:(lia)).
    destruct (b <? key (base + size / 2)%nat)%Z eqn:Ek; bool_to_prop.
    + apply IH; try done; try lia. intros i Hi Hin.
      destruct (decide (i = base + size / 2)) as [->|Hne]; [done|].
      apply Z.lt_trans with (key (base + size / 2)); [done|]. apply Hmono; lia.
    + apply IH; try done; try lia. intros i Hi Hin. apply Hr; lia.
Qed.

Lemma sorted_entries_lookup es i j x y :
  sorted_entries es -> i < j -> es !! i = Some x -> es !! j = Some y -> entry_lt x y.
Proof.
  intros Hs Hij Hx Hy. rewrite <- (take_drop (S i) es) in Hs.
  eapply (StronglySorted_app_1_elem_of _ _ _ _ _ Hs).
  - apply (list_elem_of_lookup_2 _ i). by rewrite lookup_take_lt by lia.
  - apply (list_elem_of_lookup_2 _ (j - S i)). rewrite lookup_drop. rewrite <- Hy. f_equal. lia.
Qed.

(** The library's contract on a sorted slice: the position of the key, or where to insert it. *)
Lemma binary_search_by_key_spec es b :
  sorted_entries es ->
  match binary_search_by_key es b with
  | inl i => exists l1 e l2, es = l1 ++ e :: l2 /\ length l1 = i /\ ie_doc_id e = b
  | inr i => i <= length es /\ Forall (fun e => ie_doc_id e < b)%Z (take i es) /\
             Forall (fun e => b < ie_doc_id e)%Z (drop i es)
  end.
Proof.
  intros Hs. unfold binary_search_by_key.
  destruct (length es =? 0) eqn:E0; bool_to_prop.
  { apply nil_length_inv in E0 as ->. cbn. split_and!; [lia|constructor..]. }
  cbv zeta. set (key := key_at es).
  assert (Hkey : forall i, i < length es -> exists e, es !! i = Some e /\ key i = ie_doc_id e).
  { intros i Hi. destruct (lookup_lt_is_Some_2 es i Hi) as [e He]. exists e. unfold key, key_at. by rewrite He. }
  assert (Hmono : forall i j, i < j -> j < length es -> (key i < key j)%Z).
  { intros i j Hij Hj. destruct (Hkey i ltac:(lia)) as (x & Hx & ->).
    destruct (Hkey j Hj) as (y & Hy & ->). exact (sorted_entries_lookup es i j x y Hs Hij Hx Hy). }
  assert (Hbs := bs_loop_spec key b (length es) Hmono (length es) 0 (length es)
    ltac:(lia) ltac:(lia) ltac:(lia) ltac:(lia) ltac:(lia)). cbv zeta in Hbs.
  set (r := bs_loop _ _ _ _ _) in *. destruct Hbs as (Hr & Hle & Hgt).
  destruct (Hkey r Hr) as (e & He & Hek).
  destruct (key r =? b)%Z eqn:Eb; bool_to_prop.
  - exists (take r es), e, (drop (S r) es). rewrite length_take_le by lia.
    rewrite take_drop_middle by done. split_and!; [done..|]. lia.
  - set (i := if (key r <? b)%Z then S r else r).
    assert (Hi : forall k x, es !! k = Some x -> (k < i -> (ie_doc_id x < b)%Z) /\
              (i <= k -> (b < ie_doc_id x)%Z)).
    { intros k x Hx. pose proof (lookup_lt_Some _ _ _ Hx) as Hk.
      assert (ie_doc_id x = key k) as -> by (unfold key, key_at; by rewrite Hx).
      unfold i. destruct (key r <? b)%Z eqn:El; bool_to_prop; split; intros Hki.
      - destruct (decide (k = r)) as [->|]; [done|]. apply Z.lt_trans with (key r); [|done].
        apply Hmono; lia.
      - apply Hgt; lia.
      - destruct Hle as [Hr0|]; lia.
      - destruct Hle as [Hr0|]; [|lia].
        destruct (decide (k = r)) as [->|]; [lia|]. apply Hgt; lia. }
    split_and!.
    + unfold i. case_match; lia.
    + apply Forall_lookup_2. intros k x Hx. apply lookup_take_Some in Hx as [Hx Hk]. by apply (Hi k x).
    + apply Forall_lookup_2. intros k x Hx. rewrite lookup_drop in Hx.
      apply (Hi (i + k) x); [done|lia].
Qed.

(** AddEntry either overwrites the entry of the document or inserts one at its place. *)
Lemma AddEntry_cases es d tf :
  sorted_entries es ->
  (exists l1 e l2, es = l1 ++ e :: l2 /\ ie_doc_id e = d /\
     AddEntry es d tf = (l1 ++ set_tf tf e :: l2, false)) \/
  (exists l1 l2, es = l1 ++ l2 /\ Forall (fun e => ie_doc_id e < d)%Z l1 /\
     Forall (fun e => d < ie_doc_id e)%Z l2 /\
     AddEntry es d tf = (l1 ++ {| ie_doc_id := d; ie_term_frequency := tf |} :: l2, true)).
Proof.
  intros Hs. unfold AddEntry. destruct (last es) as [l|] eqn:Hl.
  2:{ apply last_None in Hl as ->. right. exists [], []. split_and!; done. }
  apply last_Some in Hl as [es' ->].
  destruct (ie_doc_id l <? d)%Z eqn:E1; bool_to_prop.
  { right. exists (es' ++ [l]), []. rewrite app_nil_r. split_and!; [done| |done|done].
    apply Forall_app. split; [|by constructor]. apply Forall_forall. intros x Hx.
    assert (entry_lt x l); [|unfold entry_lt in *; lia].
    eapply StronglySorted_app_1_elem_of; [exact Hs|done|]. by apply list_elem_of_singleton. }
  destruct (ie_doc_id l =? d)%Z eqn:E2; bool_to_prop.
  { left. exists es', l, []. split_and!; [done..|].
    rewrite length_app. cbn [length].
    replace (length es' + 1 - 1) with (length es' + 0) by lia. by rewrite alter_app_r. }
  pose proof (binary_search_by_key_spec _ d Hs) as Hbs.
  destruct (binary_search_by_key _ d) as [i|i].
  - destruct Hbs as (l1 & e & l2 & -> & <- & He). left. exists l1, e, l2. split_and!; [done..|].
    replace (length l1) with (length l1 + 0) by lia. by rewrite alter_app_r.
  - destruct Hbs as (Hi & H1 & H2). right.
    exists (take i (es' ++ [l])), (drop i (es' ++ [l])). rewrite take_drop. done.
Qed.
End search.

(** * The abstract index

    A posting list denotes a finite map from document to frequency; the store a
    map from stream key to those. *)

Definition entries_map (es : list IndexEntry) : gmap Z Z :=
  list_to_map (map (fun e => (ie_doc_id e, ie_term_frequency e)) es).

Definition abs_postings (s : PostingStore) : gmap str (gmap Z Z) :=
  (fun pl => entries_map (entries pl)) <$> m_Postings s.

Definition index_insert (ix : gmap str (gmap Z Z)) (key : str) (doc tf : Z) : gmap str (gmap Z Z) :=
  <[key := <[doc := tf]> (default ∅ (ix !! key))]> ix.

Definition sum_map {K A} `{Countable K} (f : A -> Z) (m : gmap K A) : Z :=
  map_fold (fun _ a acc => (f a + acc)%Z) 0%Z m.

(** Well-formed stores: sorted posting lists, and a posting count that is their total length. *)
Definition store_ok (s : PostingStore) : Prop :=
  map_Forall (fun _ pl => sorted_entries (entries pl)) (m_Postings s) /\
  m_PostingEntries s = wrap 64 (sum_map (fun pl => Z.of_nat (length (entries pl))) (m_Postings s)).

(** The term total is the sum of the document lengths. *)
Definition totals_ok (s : PostingStore) : Prop :=
  m_TotalTerms s = sum_map doc_len (m_DocStats s) /\
  map_Forall (fun _ st => in_u 32 (doc_len st)) (m_DocStats s).

Section sums.
Context {K A : Type} `{Countable K} (f : A -> Z).

Lemma sum_map_empty : sum_map f (∅ : gmap K A) = 0%Z.
Proof. apply map_fold_empty. Qed.

Lemma sum_map_insert (m : gmap K A) k a :
  sum_map f (<[k := a]> m) = (sum_map f m - match m !! k with Some o => f o | None => 0 end + f a)%Z.
Proof.
  assert (Hins : forall m : gmap K A, m !! k = None -> sum_map f (<[k := a]> m) = (f a + sum_map f m)%Z).
  { intros m' Hm. unfold sum_map. rewrite map_fold_insert_L; [done| |done]. intros; lia. }
  destruct (m !! k) as [o|] eqn:Hk; [|rewrite Hins by done; lia].
  rewrite <- insert_delete_eq, Hins by apply lookup_delete_eq.
  unfold sum_map at 2. rewrite (map_fold_delete_L _ _ k o m); [|intros; lia|done].
  fold (sum_map f (delete k m)). lia.
Qed.

Lemma sum_map_nonneg (m : gmap K A) : map_Forall (fun _ a => 0 <= f a)%Z m -> (0 <= sum_map f m)%Z.
Proof.
  intros Hm. unfold sum_map. induction m as [|k a m Hk IH] using map_ind; [by rewrite map_fold_empty|].
  apply map_Forall_insert in Hm as [Ha Hm]; [|done].
  rewrite map_fold_insert_L; [|intros; lia|done]. specialize (IH Hm). lia.
Qed.
End sums.

Section insertion.
Lemma entries_map_app l1 l2 : entries_map (l1 ++ l2) = entries_map l1 ∪ entries_map l2.
Proof. unfold entries_map. by rewrite map_app, list_to_map_app. Qed.

Lemma entries_map_cons e l :
  entries_map (e :: l) = <[ie_doc_id e := ie_term_frequency e]> (entries_map l).
Proof. done. Qed.

Lemma entries_map_none es d :
  Forall (fun e => ie_doc_id e <> d) es -> entries_map es !! d = None.
Proof.
  induction 1 as [|e es He _ IH]; [done|]. rewrite entries_map_cons.
  by rewrite lookup_insert_ne.
Qed.

Lemma sorted_entries_mid l1 e l2 :
  sorted_entries (l1 ++ e :: l2) ->
  Forall (fun x => ie_doc_id x < ie_doc_id e)%Z l1 /\
  Forall (fun x => ie_doc_id e < ie_doc_id x)%Z l2 /\ sorted_entries l1 /\ sorted_entries l2.
Proof.
  intros Hs. apply StronglySorted_app in Hs as (H1 & Hl1 & Hl2).
  inversion Hl2; subst. split_and!; try done.
  apply Forall_forall. intros x Hx. apply (H1 x e Hx). apply elem_of_cons; auto.
Qed.

Lemma sorted_entries_mid_2 l1 e l2 :
  Forall (fun x => ie_doc_id x < ie_doc_id e)%Z l1 ->
  Forall (fun x => ie_doc_id e < ie_doc_id x)%Z l2 ->
  sorted_entries l1 -> sorted_entries l2 -> sorted_entries (l1 ++ e :: l2).
Proof.
  intros H1 H2 S1 S2. apply StronglySorted_app_2; [|done|by constructor].
  intros x y Hx Hy. rewrite Forall_forall in H1, H2. specialize (H1 x Hx).
  apply elem_of_cons in Hy as [->|Hy]; [done|]. specialize (H2 y Hy). unfold entry_lt. lia.
Qed.

Lemma ids_ne l d :
  Forall (fun x => ie_doc_id x < d)%Z l \/ Forall (fun x => d < ie_doc_id x)%Z l ->
  Forall (fun x => ie_doc_id x <> d) l.
Proof. intros [H|H]; (eapply Forall_impl; [exact H|]); cbn; intros; lia. Qed.

Lemma AddEntry_spec es d tf :
  sorted_entries es ->
  let '(es', added) := AddEntry es d tf in
  sorted_entries es' /\ entries_map es' = <[d := tf]> (entries_map es) /\
  length es' = length es + (if added then 1 else 0) /\
  added = bool_decide (entries_map es !! d = None).
Proof.
  intros Hs. destruct (AddEntry_cases es d tf Hs) as
    [(l1 & e & l2 & -> & <- & ->)|(l1 & l2 & -> & H1 & H2 & ->)].
  - destruct (sorted_entries_mid _ _ _ Hs) as (H1 & H2 & S1 & S2).
    assert (Hn : entries_map l1 !! ie_doc_id e = None) by (apply entries_map_none, ids_ne; auto).
    split_and!.
    + by apply sorted_entries_mid_2.
    + rewrite !entries_map_app, !entries_map_cons. cbn.
      rewrite (insert_union_r _ _ _ _ Hn), insert_insert_eq. done.
    + len_lia.
    + rewrite entries_map_app, entries_map_cons, lookup_union_r, lookup_insert_eq by done.
      by rewrite bool_decide_eq_false_2.
  - assert (Hn : entries_map l1 !! d = None) by (apply entries_map_none, ids_ne; auto).
    apply StronglySorted_app in Hs as (_ & S1 & S2). split_and!.
    + by apply sorted_entries_mid_2.
    + rewrite !entries_map_app, !entries_map_cons. cbn. by rewrite (insert_union_r _ _ _ _ Hn).
    + len_lia.
    + rewrite entries_map_app, lookup_union_r by done.
      rewrite entries_map_none by (apply ids_ne; auto). by rewrite bool_decide_eq_true_2.
Qed.

(** A sorted list is determined by the map it denotes. *)
Lemma entries_map_elem es e :
  sorted_entries es -> e ∈ es <-> entries_map es !! ie_doc_id e = Some (ie_term_frequency e).
Proof.
  induction es as [|x es IH]; intros Hs; [by rewrite elem_of_nil|].
  inversion Hs as [|? ? Hs' Hlt]; subst. rewrite elem_of_cons, entries_map_cons, IH by done.
  destruct (decide (ie_doc_id x = ie_doc_id e)) as [Heq|Hne].
  - rewrite Heq, lookup_insert_eq, entries_map_none.
    2:{ apply ids_ne. right. by rewrite <- Heq. }
    split; [intros [-> |?]; done|]. intros [= Ht]. left. destruct x, e; cbn in *; congruence.
  - rewrite lookup_insert_ne by done. split; [|auto]. by intros [-> |?].
Qed.

Lemma sorted_entries_ext es1 es2 :
  sorted_entries es1 -> sorted_entries es2 -> entries_map es1 = entries_map es2 -> es1 = es2.
Proof.
  intros H1 H2 Heq.
  assert (Hlt : forall es, sorted_entries es -> NoDup es).
  { intros es Hs. induction Hs as [|x es Hs IH Hx]; constructor; [|done].
    intros Hin. rewrite Forall_forall in Hx. specialize (Hx x Hin). unfold entry_lt in Hx. lia. }
  apply (StronglySorted_unique_strong entry_lt); [|done..|].
  - unfold entry_lt. intros; lia.
  - apply NoDup_Permutation; auto. intros e. by rewrite (entries_map_elem es1), (entries_map_elem es2), Heq by done.
Qed.
End insertion.

Section store.
Lemma AddPosting_map s key d tf :
  store_ok s ->
  abs_postings (AddPosting s key d tf) = index_insert (abs_postings s) key d tf.
Proof.
  intros [Hs _]. unfold AddPosting, abs_postings, index_insert.
  set (pl := default _ _).
  assert (Hpl : sorted_entries (entries pl)).
  { unfold pl. destruct (m_Postings s !! key) eqn:E; cbn; [by apply (Hs key)|constructor]. }
  pose proof (AddEntry_spec (entries pl) d tf Hpl) as Ha.
  destruct (AddEntry (entries pl) d tf) as [es added]. destruct Ha as (_ & Hm & _).
  cbn [with_postings m_Postings]. rewrite fmap_insert. cbn [entries]. rewrite Hm, lookup_fmap.
  unfold pl. by destruct (m_Postings s !! key).
Qed.

Lemma AddPosting_ok s key d tf : store_ok s -> store_ok (AddPosting s key d tf).
Proof.
  intros [Hs Hn]. unfold AddPosting, store_ok. set (pl := default _ _).
  assert (Hpl : sorted_entries (entries pl)).
  { unfold pl. destruct (m_Postings s !! key) eqn:E; cbn; [by apply (Hs key)|constructor]. }
  pose proof (AddEntry_spec (entries pl) d tf Hpl) as Ha.
  destruct (AddEntry (entries pl) d tf) as [es added]. destruct Ha as (Hes & _ & Hl & _).
  cbn. split.
  - apply map_Forall_insert_2; done.
  - rewrite sum_map_insert. cbn. rewrite Hl.
    assert (Hlen : match m_Postings s !! key with
             | Some o => Z.of_nat (length (entries o)) | None => 0%Z end
           = Z.of_nat (length (entries pl))).
    { unfold pl. by destruct (m_Postings s !! key). }
    rewrite Hlen, Hn. unfold wrapping_add, wrap.
    destruct added; [rewrite Zplus_mod_idemp_l|]; f_equal; lia.
Qed.

(** The state of the postings as a function of the abstract index. *)
Lemma store_postings_ext s1 s2 :
  store_ok s1 -> store_ok s2 -> abs_postings s1 = abs_postings s2 ->
  m_Postings s1 = m_Postings s2 /\ m_PostingEntries s1 = m_PostingEntries s2.
Proof.
  intros [H1 N1] [H2 N2] Heq.
  assert (m_Postings s1 = m_Postings s2) as Hp.
  { apply map_eq. intros k. apply (f_equal (lookup k)) in Heq. unfold abs_postings in Heq.
    rewrite !lookup_fmap in Heq.
    destruct (m_Postings s1 !! k) as [[p1]|] eqn:E1, (m_Postings s2 !! k) as [[p2]|] eqn:E2;
      cbn in Heq; try done.
    injection Heq as Heq. do 2 f_equal.
    apply sorted_entries_ext; [apply (H1 k _ E1)|apply (H2 k _ E2)|done]. }
  split; [done|]. by rewrite N1, N2, Hp.
Qed.
End store.

(** * Properties *)

(** AddPosting implements insertion into a finite map from stream key to documents to
    frequencies, overwriting a repeated document, and keeps every posting list strictly sorted
    by document id and the posting count equal to the total length of the lists. *)
Theorem AddPosting_refines s key d tf :
  store_ok s ->
  abs_postings (AddPosting s key d tf) = index_insert (abs_postings s) key d tf /\
  store_ok (AddPosting s key d tf).
Proof. split; [by apply AddPosting_map|by apply AddPosting_ok]. Qed.

Lemma AddPosting_frame s key d tf :
  m_DocStats (AddPosting s key d tf) = m_DocStats s /\
  m_DocVectors (AddPosting s key d tf) = m_DocVectors s /\
  m_TotalTerms (AddPosting s key d tf) = m_TotalTerms s.
Proof. unfold AddPosting. by destruct (AddEntry _ d tf). Qed.

Lemma index_insert_comm ix k1 d1 t1 k2 d2 t2 :
  (k1, d1) <> (k2, d2) ->
  index_insert (index_insert ix k1 d1 t1) k2 d2 t2 = index_insert (index_insert ix k2 d2 t2) k1 d1 t1.
Proof.
  intros Hne. unfold index_insert. destruct (decide (k1 = k2)) as [<-|Hk].
  - rewrite !lookup_insert_eq, !insert_insert_eq. cbn. f_equal. apply insert_insert_ne. congruence.
  - rewrite !lookup_insert_ne by done. by apply insert_insert_ne.
Qed.

Lemma store_ext s1 s2 :
  store_ok s1 -> store_ok s2 -> abs_postings s1 = abs_postings s2 ->
  m_DocStats s1 = m_DocStats s2 -> m_DocVectors s1 = m_DocVectors s2 ->
  m_TotalTerms s1 = m_TotalTerms s2 -> s1 = s2.
Proof.
  intros H1 H2 Ha Hd Hv Ht. destruct (store_postings_ext s1 s2 H1 H2 Ha) as [Hp Hn].
  destruct s1, s2. cbn in *. congruence.
Qed.

Lemma AddPosting_comm s k1 d1 t1 k2 d2 t2 :
  store_ok s -> (k1, d1) <> (k2, d2) ->
  AddPosting (AddPosting s k1 d1 t1) k2 d2 t2 = AddPosting (AddPosting s k2 d2 t2) k1 d1 t1.
Proof.
  intros Hs Hne. apply store_ext; auto using AddPosting_ok.
  - rewrite !AddPosting_map by auto using AddPosting_ok. by apply index_insert_comm.
  - by rewrite !(proj1 (AddPosting_frame _ _ _ _)).
  - by rewrite !(proj1 (proj2 (AddPosting_frame _ _ _ _))).
  - by rewrite !(proj2 (proj2 (AddPosting_frame _ _ _ _))).
Qed.

Lemma size_entries_map es : sorted_entries es -> size (entries_map es) = length es.
Proof.
  induction 1 as [|e es Hs IH Hlt]; [done|]. rewrite entries_map_cons, map_size_insert_None.
  - by rewrite IH.
  - apply entries_map_none, ids_ne. by right.
Qed.

(** DocFreq is the number of documents of the key's posting map (as a u32), and the posting
    list returned for a key holds exactly that map, in increasing document order. *)
Theorem DocFreq_size s key :
  store_ok s ->
  DocFreq s key = wrap 32 (Z.of_nat (size (default ∅ (abs_postings s !! key)))) /\
  match GetPostingList s key with
  | Some pl => abs_postings s !! key = Some (entries_map (entries pl)) /\ sorted_entries (entries pl)
  | None => abs_postings s !! key = None
  end.
Proof.
  intros [Hs _]. unfold DocFreq, GetPostingList, abs_postings. rewrite lookup_fmap.
  destruct (m_Postings s !! key) as [pl|] eqn:E; [|done]. pose proof (Hs key _ E) as Hes.
  split; [|done]. unfold doc_freq. by rewrite <- size_entries_map.
Qed.

Section totals.
Context (s : PostingStore) (Hok : totals_ok s) (d : Z).

Lemma doc_len_range : in_u 32 (doc_len (stats_of s d)).
Proof.
  unfold stats_of. destruct (m_DocStats s !! d) eqn:E; cbn; [|done]. by apply (proj2 Hok d).
Qed.

Lemma doc_len_le_total : (doc_len (stats_of s d) <= m_TotalTerms s)%Z.
Proof.
  rewrite (proj1 Hok). unfold stats_of. destruct (m_DocStats s !! d) as [st|] eqn:E; cbn.
  - rewrite <- (insert_delete_id (m_DocStats s) d st) by done.
    rewrite sum_map_insert, lookup_delete_eq.
    assert (0 <= sum_map doc_len (delete d (m_DocStats s)))%Z; [|lia].
    apply sum_map_nonneg. intros k x Hk. apply lookup_delete_Some in Hk as [_ Hk].
    by apply (proj2 Hok k).
  - apply sum_map_nonneg. intros k x Hk. by apply (proj2 Hok k).
Qed.

Lemma totals_ok_insert st n :
  in_u 32 (doc_len st) -> n = (m_TotalTerms s - doc_len (stats_of s d) + doc_len st)%Z ->
  totals_ok (with_stats s (<[d := st]> (m_DocStats s)) n).
Proof.
  intros Hst ->. destruct Hok as [Ht Hl]. split; cbn [with_stats m_TotalTerms m_DocStats].
  - rewrite sum_map_insert, Ht. unfold stats_of. by destruct (m_DocStats s !! d).
  - by apply map_Forall_insert_2.
Qed.

Lemma AddDocTokens_totals n :
  (in_u 32 n -> doc_len (stats_of s d) + n < 2 ^ 32 -> m_TotalTerms s + n < 2 ^ 64 ->
   totals_ok (AddDocTokens s d n))%Z.
Proof.
  pose proof doc_len_range as Hd. pose proof doc_len_le_total as Hle.
  intros Hn Hlen Htot. unfold in_u in *.
  apply totals_ok_insert; [cbn; by apply wrap_range|].
  cbn [doc_len]. unfold wrapping_add. rewrite !wrap_small by (unfold in_u; lia). lia.
Qed.

Lemma AddStreamStats_totals t n u : totals_ok (AddStreamStats s d t n u).
Proof. apply totals_ok_insert; [exact doc_len_range|]. cbn [doc_len]. lia. Qed.
End totals.

(** the term total stays the sum of the document lengths, for every operation that changes
    a length, as long as the lengths and their total fit their types. *)
Theorem TotalTerms_sum s d n t b u a m :
  totals_ok s ->
  (in_u 32 n -> doc_len (stats_of s d) + n < 2 ^ 32 -> m_TotalTerms s + n < 2 ^ 64 ->
   totals_ok (AddDocTokens s d n))%Z /\
  totals_ok (AddStreamStats s d t n b) /\
  (t + b + u + a + m < 2 ^ 32 -> 0 <= t -> 0 <= b -> 0 <= u -> 0 <= a -> 0 <= m ->
   m_TotalTerms s + (t + b + u + a + m) < 2 ^ 64 ->
   totals_ok (SetDocLengths s d t b u a m))%Z.
Proof.
  intros Hok. pose proof (doc_len_range s Hok d) as Hd. pose proof (doc_len_le_total s Hok d) as Hle.
  split_and!.
  - by apply AddDocTokens_totals.
  - by apply AddStreamStats_totals.
  - intros Hlen ? ? ? ? ? Htot. unfold in_u in *.
    assert (Hw : wrapping_add 32 (wrapping_add 32 (wrapping_add 32 (wrapping_add 32 t b) u) a) m
      = (t + b + u + a + m)%Z).
    { unfold wrapping_add. rewrite (wrap_small 32 (t + b)) by (unfold in_u; lia).
      rewrite (wrap_small 32 (t + b + u)) by (unfold in_u; lia).
      rewrite (wrap_small 32 (t + b + u + a)) by (unfold in_u; lia).
      apply wrap_small. unfold in_u; lia. }
    unfold SetDocLengths. rewrite Hw. apply totals_ok_insert; [done|cbn; unfold in_u; lia|].
    cbn [doc_len]. unfold saturating_sub, wrapping_add. rewrite wrap_small by (unfold in_u; lia). lia.
Qed.

(** What the executor reads a stored component as (Executor.v): [encoded as f32 / 128.0]. *)
Definition dequantize (q : Z) : f32 := f_div F32 (f_of_Z F32 q) (f_of_Z F32 128).

(** Every i8 survives: the 256 cases are evaluated. *)
Lemma quantize_dequantize_all :
  forallb (fun q => f_as_i 8 (f_round F32 (f_clamp (f_mul F32 (dequantize q) (f_of_Z F32 128))
                       (f_of_Z F32 (-128)) (f_of_Z F32 127))) =? q)%Z
    (map (fun i => Z.of_nat i - 128)%Z (seq 0 256)) = true.
Proof. by vm_compute. Qed.

Lemma QuantizeVector_dequantize q :
  length q = DOC_VECTOR_DIM -> Forall (fun x => -128 <= x <= 127)%Z q ->
  QuantizeVector (map dequantize q) = q.
Proof.
  intros Hl Hq. unfold QuantizeVector. apply list_eq_same_length with DOC_VECTOR_DIM; [done|by rewrite length_map, length_seq|].
  intros i x y Hi Hx Hy. rewrite list_lookup_fmap in Hx.
  rewrite lookup_seq_lt in Hx by done. cbn [fmap option_fmap option_map] in Hx. injection Hx as <-.
  rewrite (nth_lookup_Some _ _ _ (dequantize y)) by (by rewrite list_lookup_fmap, Hy).
  rewrite Forall_lookup in Hq. specialize (Hq _ _ Hy).
  pose proof quantize_dequantize_all as Hall. rewrite forallb_forall in Hall.
  apply Z.eqb_eq, (Hall y), in_map_iff. exists (Z.to_nat (y + 128)).
  split; [lia|apply in_seq; lia].
Qed.

Lemma QuantizeVector_range v :
  length (QuantizeVector v) = DOC_VECTOR_DIM /\ Forall (fun x => -128 <= x <= 127)%Z (QuantizeVector v).
Proof.
  unfold QuantizeVector. split; [by rewrite length_map, length_seq|].
  apply Forall_map, Forall_true. intros i. unfold f_as_i, f_as_int. destruct (f_round _ _) as [|[]| |]; cbn; lia.
Qed.

(** a vector of 128 numbers is stored for its document as 128 bytes, every vector the index
    itself can represent (an i8 over 128 in each component) is read back as stored, other
    documents keep theirs, and a vector of another dimension is refused and changes nothing. *)
Theorem SetDocVector_get s d v q :
  (length v <> DOC_VECTOR_DIM -> SetDocVector s d v = (s, false)) /\
  (length v = DOC_VECTOR_DIM -> exists s' w, SetDocVector s d v = (s', true) /\
     GetDocVector s' d = Some w /\ length w = DOC_VECTOR_DIM /\ Forall (fun x => -128 <= x <= 127)%Z w /\
     (Forall (fun x => -128 <= x <= 127)%Z q -> v = map dequantize q -> w = q) /\
     HasDoc s' d = true /\ forall d', d' <> d -> GetDocVector s' d' = GetDocVector s d').
Proof.
  unfold SetDocVector. split.
  { intros E%Nat.eqb_neq. by rewrite E. }
  intros El. rewrite El, Nat.eqb_refl. cbn [negb]. do 2 eexists. split; [reflexivity|].
  unfold GetDocVector, HasDoc. cbn [with_vectors with_stats m_DocVectors m_DocStats].
  split; [by rewrite lookup_insert_eq|]. destruct (QuantizeVector_range v) as [Hw1 Hw2].
  split; [done|]. split; [done|]. split.
  { intros Hq ->. apply QuantizeVector_dequantize; [by rewrite length_map in El|done]. }
  split; [rewrite lookup_insert_eq; by rewrite bool_decide_eq_true_2|].
  intros d' Hd. by rewrite lookup_insert_ne.
Qed.

(** * Witnesses: the properties at concrete inputs *)

Definition sample_store : PostingStore := AddPosting (AddPosting store_new [97]%Z 4 2) [97]%Z 2 1.

Lemma store_new_ok : store_ok store_new.
Proof. split; [intros key pl Hk; cbn in Hk; by rewrite lookup_empty in Hk|reflexivity]. Defined.

Lemma sample_store_ok : store_ok sample_store.
Proof. by repeat apply AddPosting_ok; apply store_new_ok. Qed.

Lemma AddPosting_refines_witness :
  abs_postings (AddPosting sample_store [97]%Z 3 5) = index_insert (abs_postings sample_store) [97]%Z 3 5 /\
  store_ok (AddPosting sample_store [97]%Z 3 5).
Proof. exact (AddPosting_refines sample_store [97]%Z 3 5 sample_store_ok). Defined.

Lemma store_new_totals : totals_ok store_new.
Proof. split; [reflexivity|]. intros d st Hd. cbn in Hd. by rewrite lookup_empty in Hd. Qed.

Lemma TotalTerms_sum_witness :
  totals_ok (AddDocTokens store_new 1 7) /\ totals_ok (AddStreamStats store_new 1 84 7 2) /\
  totals_ok (SetDocLengths store_new 1 1 2 3 4 5).
Proof.
  destruct (TotalTerms_sum store_new 1 7 84 2 3 4 5 store_new_totals) as (H1 & _ & _).
  destruct (TotalTerms_sum store_new 1 7 84 2 3 4 5 store_new_totals) as (_ & H2 & _).
  destruct (TotalTerms_sum store_new 1 1 1 2 3 4 5 store_new_totals) as (_ & _ & H3).
  split; [apply H1; vm_compute; try split; try discriminate; reflexivity|]. split; [exact H2|].
  apply H3; vm_compute; try discriminate; reflexivity.
Defined.

Lemma SetDocVector_get_witness :
  exists s' w, SetDocVector store_new 1 (map dequantize (replicate DOC_VECTOR_DIM (-5)%Z)) = (s', true) /\
    GetDocVector s' 1 = Some w /\ w = replicate DOC_VECTOR_DIM (-5)%Z.
Proof.
  destruct (proj2 (SetDocVector_get store_new 1 (map dequantize (replicate DOC_VECTOR_DIM (-5)%Z))
    (replicate DOC_VECTOR_DIM (-5)%Z)) ltac:(reflexivity)) as (s' & w & Hs & Hg & _ & _ & Hw & _).
  exists s', w. split; [exact Hs|]. split; [exact Hg|]. apply Hw; [|reflexivity].
  apply (bool_decide_unpack _). by vm_compute.
Defined.
