(* ===== verification/IndexWriter.v ===== *)
(** The token writer (IndexWriter.rs, AdvancedIndexWriter.rs): one stream of one
    document, counted into unigram and bigram frequencies and added to the
    posting store under the term followed by the stream's letter. *)

From Stdlib Require Import Ascii String.
From Stdlib Require Import ZArith Lia Bool List.
From stdpp Require Import base list list_numbers gmap sorting.
From S2P Require Import Prelude Floats PostingCodec PostingStore.

Local Open Scope moon_scope.

(** * Iteration order of a HashMap

    The source iterates a [HashMap] with a deterministic but unspecified order:
    some permutation of the map's bindings. *)

Class HashOrder := {
  hash_order : forall {A}, gmap str A -> list (str * A);
  hash_order_perm : forall A (m : gmap str A), hash_order m ≡ₚ map_to_list m;
}.

Definition canonical_order : HashOrder :=
  {| hash_order := fun A m => map_to_list m; hash_order_perm := fun A m => reflexivity _ |}.

(** * AdvancedIndexWriter *)

Definition BIGRAM_SEP : Z := 0x1F.

Definition to_ascii_lowercase (s : str) : str :=
  map (fun c => if (65 <=? c)%Z && (c <=? 90)%Z then (c + 32)%Z else c) s.

(** [b'X' | b'x']. *)
Definition is_letter (b : Z) (upper lower : Ascii.ascii) : bool :=
  (b =? chr upper)%Z || (b =? chr lower)%Z.
Arguments is_letter b (upper lower)%_char_scope.

Definition StreamAbbrev (stream : str) : Z :=
  match stream with
  | [] => chr "B"
  | b :: _ =>
      if is_letter b "A" "a" then chr "A"
      else if is_letter b "U" "u" then chr "U"
      else if is_letter b "T" "t" then chr "T"
      else if is_letter b "B" "b" then chr "B"
      else if is_letter b "M" "m" then chr "M"
      else
        let lower := to_ascii_lowercase stream in
        if bool_decide (lower = of_string "title") then chr "T"
        else if bool_decide (lower = of_string "body") then chr "B"
        else if bool_decide (lower = of_string "anchor") then chr "A"
        else if bool_decide (lower = of_string "url") then chr "U"
        else if bool_decide (lower = of_string "meta") then chr "M"
        else chr "B"
  end.

(** [*termTf.entry(term).or_insert(0) += 1]. *)
Definition bump (termTf : gmap str Z) (term : str) : gmap str Z :=
  <[term := wrapping_add 32 (default 0%Z (termTf !! term)) 1]> termTf.

Definition nonempty (w : str) : bool := negb (bool_decide (w = [])).

Definition count_unigrams (words : list str) : gmap str Z :=
  fold_left (fun m word => if nonempty word then bump m word else m) words ∅.

(** [words.windows(2)]. *)
Definition windows2 (words : list str) : list (str * str) := zip words (tail words).

Definition bigram (pair : str * str) : str := pair.1 ++ [BIGRAM_SEP] ++ pair.2.

Definition count_bigrams (words : list str) (termTf : gmap str Z) : gmap str Z :=
  fold_left (fun m pair => if nonempty pair.1 && nonempty pair.2 then bump m (bigram pair) else m)
    (windows2 words) termTf.

Definition add_terms (abbrev documentId : Z) (terms : list (str * Z)) (store : PostingStore)
  : PostingStore :=
  fold_left (fun s '(term, tf) => AddPosting s (term ++ [abbrev]) documentId tf) terms store.

Definition Write `{HashOrder} (store : PostingStore) (words : list str) (documentId : Z)
    (postingType : str) : PostingStore :=
  if bool_decide (words = []) then store
  else
    let abbrev := StreamAbbrev postingType in
    let unigrams := count_unigrams words in
    let uniqueUnigramCount := wrap 32 (Z.of_nat (size unigrams)) in
    let termTf := count_bigrams words unigrams in
    let store := add_terms abbrev documentId (hash_order termTf) store in
    let n := wrap 32 (Z.of_nat (length words)) in
    let store := AddDocTokens store documentId n in
    AddStreamStats store documentId abbrev n uniqueUnigramCount.

(** The writer's remaining methods lock the store and call it. *)
Definition writer_SetDocPath : PostingStore -> Z -> str -> PostingStore := SetDocPath.
Definition writer_SetDocImportance : PostingStore -> Z -> f32 -> PostingStore := SetDocImportance.
Definition writer_SetDocVector (s : PostingStore) (d : Z) (v : list f32) : PostingStore :=
  (SetDocVector s d v).1.

(** * Term counts *)

(** How often a term is written: as a unigram and as a bigram. *)
Definition occurrences (words : list str) (t : str) : nat :=
  length (filter (fun w => w = t /\ w <> []) words) +
  length (filter (fun p => bigram p = t /\ p.1 <> [] /\ p.2 <> []) (windows2 words)).

Section counting.
Definition bump_if {A} (f : A -> option str) (m : gmap str Z) (a : A) : gmap str Z :=
  match f a with Some t => bump m t | None => m end.

Lemma fold_bump {A} (f : A -> option str) (l : list A) m t :
  fold_left (bump_if f) l m !! t =
  let n := length (filter (fun a => f a = Some t) l) in
  if n =? 0 then m !! t else Some (wrap 32 (default 0%Z (m !! t) + Z.of_nat n)).
Proof.
  revert m. induction l as [|a l IH]; intros m; [done|]. cbn [fold_left]. rewrite IH. cbv zeta.
  rewrite filter_cons. unfold bump_if. case_decide as Ha.
  - rewrite Ha. unfold bump. rewrite lookup_insert_eq. cbn [length from_option id].
    set (n := length _). destruct (n =? 0) eqn:En; bool_to_prop.
    + by rewrite En.
    + cbn [Nat.eqb]. unfold wrapping_add, wrap. rewrite Zplus_mod_idemp_l. do 2 f_equal. lia.
  - destruct (f a) as [t'|] eqn:E; [|done].
    unfold bump. by rewrite lookup_insert_ne by congruence.
Qed.

Lemma nonempty_true w : nonempty w = true <-> w <> [].
Proof. unfold nonempty. rewrite negb_true_iff. apply bool_decide_eq_false. Qed.

Lemma count_unigrams_lookup words t :
  count_unigrams words !! t =
  let n := length (filter (fun w => w = t /\ w <> []) words) in
  if n =? 0 then None else Some (wrap 32 (Z.of_nat n)).
Proof.
  unfold count_unigrams.
  rewrite (fold_left_ext _ (bump_if (fun w => if nonempty w then Some w else None))).
  2:{ intros m w. unfold bump_if. by destruct (nonempty w). }
  rewrite fold_bump, lookup_empty. cbv zeta.
  rewrite (list_filter_iff _ (fun w => w = t /\ w <> [])); [done|].
  intros w. destruct (nonempty w) eqn:E.
  - apply nonempty_true in E. naive_solver.
  - assert (w = []) as -> by (unfold nonempty in E; by bool_to_prop). naive_solver.
Qed.

Lemma termTf_lookup words t :
  count_bigrams words (count_unigrams words) !! t =
  if occurrences words t =? 0 then None else Some (wrap 32 (Z.of_nat (occurrences words t))).
Proof.
  unfold count_bigrams.
  rewrite (fold_left_ext _ (bump_if (fun p => if nonempty p.1 && nonempty p.2 then Some (bigram p) else None))).
  2:{ intros m w. unfold bump_if. by destruct (_ && _). }
  rewrite fold_bump, count_unigrams_lookup. cbv zeta.
  rewrite (list_filter_iff _ (fun p => bigram p = t /\ p.1 <> [] /\ p.2 <> [])).
  2:{ intros p. rewrite <- !nonempty_true. destruct (nonempty p.1), (nonempty p.2); cbn; naive_solver. }
  unfold occurrences. set (n := length (filter _ words)). set (k := length (filter _ (windows2 words))).
  destruct (k =? 0) eqn:Ek; bool_to_prop.
  - rewrite Ek, Nat.add_0_r. done.
  - replace (n + k =? 0) with false by (symmetry; apply Nat.eqb_neq; lia).
    f_equal. destruct (n =? 0) eqn:En; bool_to_prop; cbn [from_option id].
    + f_equal. lia.
    + unfold wrap. rewrite Zplus_mod_idemp_l. f_equal. lia.
Qed.
End counting.

(** * Adding the terms *)

Section adding.
Context (abbrev doc : Z).

Abbreviation add_one := (fun s '(term, tf) => AddPosting s (term ++ [abbrev]) doc tf).

Lemma key_inj (t1 t2 : str) : t1 ++ [abbrev] = t2 ++ [abbrev] -> t1 = t2.
Proof. apply app_inv_tail. Qed.

Lemma add_terms_ok l s : store_ok s -> store_ok (add_terms abbrev doc l s).
Proof.
  unfold add_terms. revert s. induction l as [|[t n] l IH]; intros s Hs; cbn; [done|].
  apply IH. by apply AddPosting_ok.
Qed.

Lemma add_terms_frame l s :
  m_DocStats (add_terms abbrev doc l s) = m_DocStats s /\
  m_DocVectors (add_terms abbrev doc l s) = m_DocVectors s /\
  m_TotalTerms (add_terms abbrev doc l s) = m_TotalTerms s.
Proof.
  unfold add_terms. revert s. induction l as [|[t n] l IH]; intros s; cbn; [done|].
  destruct (IH (AddPosting s (t ++ [abbrev]) doc n)) as (-> & -> & ->). apply AddPosting_frame.
Qed.

(** The abstract index after adding terms with distinct keys. *)
Lemma add_terms_lookup l s key :
  store_ok s -> NoDup l.*1 ->
  (forall t n, (t, n) ∈ l -> key = t ++ [abbrev] ->
     abs_postings (add_terms abbrev doc l s) !! key
     = Some (<[doc := n]> (default ∅ (abs_postings s !! key)))) /\
  ((forall t, t ∈ l.*1 -> key <> t ++ [abbrev]) ->
     abs_postings (add_terms abbrev doc l s) !! key = abs_postings s !! key).
Proof.
  revert s. induction l as [|[t0 n0] l IH]; intros s Hs Hnd; cbn [fmap list_fmap] in Hnd.
  { split; [intros ? ? Hin; by apply elem_of_nil in Hin|done]. }
  apply NoDup_cons in Hnd as [Hnin Hnd].
  change (add_terms abbrev doc ((t0, n0) :: l) s)
    with (add_terms abbrev doc l (AddPosting s (t0 ++ [abbrev]) doc n0)).
  destruct (IH (AddPosting s (t0 ++ [abbrev]) doc n0) (AddPosting_ok _ _ _ _ Hs) Hnd) as [IH1 IH2].
  rewrite (AddPosting_map s _ _ _ Hs) in IH1, IH2. unfold index_insert in IH1, IH2. split.
  - intros t n Hin ->. apply elem_of_cons in Hin as [[= -> ->]|Hin].
    + rewrite IH2; [by rewrite lookup_insert_eq|].
      intros t' Ht' Heq. apply key_inj in Heq as <-. done.
    + rewrite (IH1 t n Hin eq_refl). rewrite lookup_insert_ne; [done|].
      intros Heq. apply key_inj in Heq as ->. apply Hnin.
      by apply (list_elem_of_fmap_2 fst l (t, n)).
  - intros Hno. rewrite IH2.
    + rewrite lookup_insert_ne; [done|]. intros Heq. apply (Hno t0); [|done].
      apply elem_of_cons. by left.
    + intros t Ht. apply Hno. apply elem_of_cons. by right.
Qed.

(** Distinct terms can be added in any order. *)
Lemma add_terms_perm l1 l2 s :
  l1 ≡ₚ l2 -> NoDup l1.*1 -> store_ok s -> add_terms abbrev doc l1 s = add_terms abbrev doc l2 s.
Proof.
  intros Hp. revert s. induction Hp as [|[t n] l1 l2 Hp IH|[t1 n1] [t2 n2] l|l1 l2 l3 H1 IH1 H2 IH2];
    intros s Hnd Hs.
  - done.
  - cbn in Hnd. apply NoDup_cons in Hnd as [_ Hnd]. unfold add_terms in *. cbn.
    apply IH; [done|]. by apply AddPosting_ok.
  - unfold add_terms. cbn. rewrite AddPosting_comm; [done|done|].
    intros [= Heq]. apply key_inj in Heq. subst. cbn in Hnd.
    apply NoDup_cons in Hnd as [Hn _]. apply Hn. apply elem_of_cons. by left.
  - rewrite IH1 by done. apply IH2; [|done]. by rewrite <- H1.
Qed.

Lemma abs_postings_stats s m n : abs_postings (with_stats s m n) = abs_postings s.
Proof. done. Qed.
End adding.

Lemma Write_adds `{HashOrder} s words doc stream key :
  store_ok s -> words <> [] ->
  store_ok (Write s words doc stream) /\
  (forall t, key = t ++ [StreamAbbrev stream] -> occurrences words t <> 0 ->
     abs_postings (Write s words doc stream) !! key
     = Some (<[doc := wrap 32 (Z.of_nat (occurrences words t))]> (default ∅ (abs_postings s !! key)))) /\
  ((forall t, key = t ++ [StreamAbbrev stream] -> occurrences words t = 0) ->
     abs_postings (Write s words doc stream) !! key = abs_postings s !! key).
Proof.
  intros Hs Hne. unfold Write. rewrite bool_decide_eq_false_2 by done. cbv zeta.
  set (termTf := count_bigrams words (count_unigrams words)).
  pose proof (hash_order_perm _ termTf) as Hperm.
  assert (Hnd : NoDup (hash_order termTf).*1) by (rewrite Hperm; apply NoDup_fst_map_to_list).
  unfold AddStreamStats, AddDocTokens. rewrite !abs_postings_stats.
  destruct (add_terms_lookup (StreamAbbrev stream) doc (hash_order termTf) s key Hs Hnd) as [Hin Hout].
  split_and!.
  - exact (add_terms_ok (StreamAbbrev stream) doc (hash_order termTf) s Hs).
  - intros t Hk Hocc. apply (Hin t); [|done]. rewrite Hperm. apply elem_of_map_to_list.
    unfold termTf. rewrite termTf_lookup. by apply Nat.eqb_neq in Hocc as ->.
  - intros Hno. apply Hout. intros t Ht Hk. rewrite Hperm in Ht.
    apply list_elem_of_fmap in Ht as ([t' n] & -> & Ht). apply elem_of_map_to_list in Ht.
    unfold termTf in Ht. cbn in Hk. by rewrite termTf_lookup, (Hno t' Hk) in Ht.
Qed.

(** * Properties *)

(** Write adds, for each term of the token list, its unigram plus bigram count under the
    term followed by the stream's letter and changes no other key or document; sorted posting
    lists and the posting count are kept. *)
Theorem Write_postings `{HashOrder} s words doc stream key :
  store_ok s -> words <> [] ->
  store_ok (Write s words doc stream) /\
  (forall t, key = t ++ [StreamAbbrev stream] -> occurrences words t <> 0 ->
     abs_postings (Write s words doc stream) !! key
     = Some (<[doc := wrap 32 (Z.of_nat (occurrences words t))]> (default ∅ (abs_postings s !! key)))) /\
  ((forall t, key = t ++ [StreamAbbrev stream] -> occurrences words t = 0) ->
     abs_postings (Write s words doc stream) !! key = abs_postings s !! key).
Proof. apply Write_adds. Qed.

(** the store Write builds does not depend on the iteration order of the hash map of term
    counts. *)
Theorem Write_order_independent (o1 o2 : HashOrder) s words doc stream :
  store_ok s -> @Write o1 s words doc stream = @Write o2 s words doc stream.
Proof.
  intros Hs. unfold Write. case_bool_decide; [done|]. cbv zeta.
  rewrite (add_terms_perm _ _ (@hash_order o1 _ _) (@hash_order o2 _ (count_bigrams words (count_unigrams words)))).
  - done.
  - rewrite (@hash_order_perm o1), (@hash_order_perm o2). done.
  - rewrite (@hash_order_perm o1). apply NoDup_fst_map_to_list.
  - done.
Qed.

Lemma stream_len_cases stream :
  In (StreamAbbrev stream) [chr "T"; chr "B"; chr "U"; chr "A"; chr "M"].
Proof.
  unfold StreamAbbrev. destruct stream; [cbn; auto 6|]. repeat case_match; cbn; auto 6.
Qed.

(** Write accounts for its tokens: the document's length and the stream's length grow by
    the number of tokens, the other streams and the other documents keep theirs, and the term
    total stays the sum of the document lengths. *)
Theorem Write_lengths `{HashOrder} s words doc stream :
  totals_ok s -> words <> [] ->
  let n := Z.of_nat (length words) in
  (doc_len (stats_of s doc) + n < 2 ^ 32)%Z -> (m_TotalTerms s + n < 2 ^ 64)%Z ->
  let s' := Write s words doc stream in
  totals_ok s' /\
  doc_len (stats_of s' doc) = (doc_len (stats_of s doc) + n)%Z /\
  (forall c, In c [chr "T"; chr "B"; chr "U"; chr "A"; chr "M"] ->
     stream_len (stats_of s' doc) c =
       if (c =? StreamAbbrev stream)%Z then wrap 32 (stream_len (stats_of s doc) c + n)
       else stream_len (stats_of s doc) c) /\
  (forall d, d <> doc -> stats_of s' d = stats_of s d).
Proof.
  intros Hs Hne n Hlen Htot. unfold Write. rewrite bool_decide_eq_false_2 by done. cbv zeta.
  set (s1 := add_terms _ _ _ _).
  destruct (add_terms_frame (StreamAbbrev stream) doc
    (hash_order (count_bigrams words (count_unigrams words))) s) as (Hst & _ & Htt).
  fold s1 in Hst, Htt.
  assert (Hstats : forall d, stats_of s1 d = stats_of s d) by (intros d; unfold stats_of; by rewrite Hst).
  pose proof (doc_len_range s Hs doc) as Hd. unfold in_u in Hd.
  assert (Hn0 : (0 <= n)%Z) by (unfold n; lia).
  assert (Hn : wrap 32 n = n) by (apply wrap_small; unfold in_u; lia). fold n. rewrite Hn.
  assert (Hs1 : totals_ok s1) by (unfold totals_ok; by rewrite Hst, Htt).
  split_and!.
  - apply AddStreamStats_totals, AddDocTokens_totals; [done|unfold in_u; lia| |].
    + by rewrite Hstats.
    + by rewrite Htt.
  - unfold stats_of at 1. cbn [AddStreamStats with_stats m_DocStats].
    rewrite lookup_insert_eq. cbn [from_option doc_len id].
    unfold stats_of at 1. cbn [AddDocTokens with_stats m_DocStats].
    rewrite lookup_insert_eq. cbn [from_option doc_len id]. rewrite Hstats. unfold wrapping_add.
    by rewrite wrap_small by (unfold in_u; lia).
  - intros c Hc. unfold stats_of at 1. cbn [AddStreamStats with_stats m_DocStats].
    rewrite lookup_insert_eq.
    assert (stats_of (AddDocTokens s1 doc n) doc
      = {| doc_len := wrapping_add 32 (doc_len (stats_of s doc)) n;
           unique_terms := unique_terms (stats_of s doc); title_len := title_len (stats_of s doc);
           body_len := body_len (stats_of s doc); url_len := url_len (stats_of s doc);
           anchor_len := anchor_len (stats_of s doc); meta_len := meta_len (stats_of s doc);
           importance := importance (stats_of s doc); path := path (stats_of s doc) |}) as ->.
    { unfold stats_of at 1. cbn [AddDocTokens with_stats m_DocStats]. by rewrite lookup_insert_eq, Hstats. }
    pose proof (stream_len_cases stream) as Ha. cbn [In] in Hc, Ha.
    destruct Hc as [<-|[<-|[<-|[<-|[<-|[]]]]]], Ha as [<-|[<-|[<-|[<-|[<-|[]]]]]]; reflexivity.
  - intros d Hdd. unfold stats_of at 1. cbn [AddStreamStats AddDocTokens with_stats m_DocStats].
    rewrite !lookup_insert_ne by done. apply Hstats.
Qed.

(** * Witnesses: the properties at concrete inputs *)

Definition sample_words : list str := [[99; 97; 114]; [114; 97; 99; 101]; [99; 97; 114]]%Z.

Lemma Write_postings_witness :
  abs_postings (@Write canonical_order sample_store sample_words 9 (of_string "body")) !! [99; 97; 114; chr "B"]%Z
    = Some (<[9%Z := 2%Z]> ∅).
Proof.
  destruct (@Write_postings canonical_order sample_store sample_words 9 (of_string "body") [99; 97; 114; chr "B"]%Z
    sample_store_ok ltac:(discriminate)) as (_ & Hin & _).
  assert (Hocc : occurrences sample_words [99; 97; 114]%Z = 2) by (vm_compute; reflexivity).
  rewrite (Hin [99; 97; 114]%Z); [|reflexivity|rewrite Hocc; discriminate].
  rewrite Hocc. vm_compute. reflexivity.
Defined.

(** A second order to iterate in: the canonical one reversed. *)
Definition reversed_order : HashOrder :=
  {| hash_order := fun A m => reverse (map_to_list m);
     hash_order_perm := fun A m => reverse_Permutation (map_to_list m) |}.

Lemma Write_order_independent_witness :
  @Write canonical_order sample_store sample_words 9 (of_string "body")
    = @Write reversed_order sample_store sample_words 9 (of_string "body").
Proof.
  exact (Write_order_independent canonical_order reversed_order sample_store sample_words 9 (of_string "body")
    sample_store_ok).
Defined.
