(* ===== verification/Hashing.v ===== *)
(** Hash functions (HashFunctions.rs and the TermMphf hashes of BlockTable.rs)
    and the Bloom-style ElementFilter (ElementFilter.rs), with their results kept
    at their width, the no-false-negative property of the filter and the
    injectivity of the slot seeds. *)

From Stdlib Require Import ZArith Lia Bool List.
From stdpp Require Import base list list_numbers.
From S2P Require Import Prelude.

Local Open Scope Z_scope.
Local Open Scope moon_scope.

(** * MurmurHash3 *)

(** [k.wrapping_mul(c).rotate_left(r).wrapping_mul(c')]. *)
Definition mix (w k c r c' : Z) : Z := wrapping_mul w (rotate_left w (wrapping_mul w k c) r) c'.
(** [k ^= (tail[i] as uW) << s] when [tail.len() > i]. *)
Definition tail_xor (tail : bytes) (i : nat) (s : Z) (k : Z) : Z :=
  if (i <? length tail)%nat then Z.lxor k (Z.shiftl (nth i tail 0) s) else k.
(** [h ^= h >> r]. *)
Definition xorshift (r x : Z) : Z := Z.lxor x (Z.shiftr x r).

Definition MurmurHash3_x86_32 (key : bytes) (seed : Z) : Z :=
  let c1 := 0xcc9e2d51 in
  let c2 := 0x1b873593 in
  let blocks := (length key / 4)%nat in
  let h1 := fold_left (fun h1 index =>
      let k1 := of_le (slice (index * 4) 4 key) in
      let k1 := mix 32 k1 c1 15 c2 in
      let h1 := Z.lxor h1 k1 in
      wrapping_add 32 (wrapping_mul 32 (rotate_left 32 h1 13) 5) 0xe6546b64)
    (seq 0 blocks) seed in
  let tail := drop (blocks * 4) key in
  let k1 := tail_xor tail 2 16 0 in
  let k1 := tail_xor tail 1 8 k1 in
  let h1 := if bool_decide (tail = []) then h1
            else Z.lxor h1 (mix 32 (tail_xor tail 0 0 k1) c1 15 c2) in
  let h1 := Z.lxor h1 (wrap 32 (Z.of_nat (length key))) in
  let h1 := xorshift 16 h1 in
  let h1 := wrapping_mul 32 h1 0x85ebca6b in
  let h1 := xorshift 13 h1 in
  let h1 := wrapping_mul 32 h1 0xc2b2ae35 in
  xorshift 16 h1.

Definition fmix32 (value : Z) : Z :=
  let value := xorshift 16 value in
  let value := wrapping_mul 32 value 0x85ebca6b in
  let value := xorshift 13 value in
  let value := wrapping_mul 32 value 0xc2b2ae35 in
  xorshift 16 value.

Definition fmix64 (value : Z) : Z :=
  let value := xorshift 33 value in
  let value := wrapping_mul 64 value 0xff51afd7ed558ccd in
  let value := xorshift 33 value in
  let value := wrapping_mul 64 value 0xc4ceb9fe1a85ec53 in
  xorshift 33 value.

Definition C1_128 : Z := 0x239b961b.
Definition C2_128 : Z := 0xab0e9789.
Definition C3_128 : Z := 0x38b34ae5.
Definition C4_128 : Z := 0xa1e38b93.

(** One lane of a block: [h = (h ^ k).rotate_left(r) + next) * 5 + n]. *)
Definition lane128 (h k r next n : Z) : Z :=
  wrapping_add 32 (wrapping_mul 32 (wrapping_add 32 (rotate_left 32 (Z.lxor h k) r) next) 5) n.

Definition x86_128_block (h : Z * Z * Z * Z) (block : bytes) : Z * Z * Z * Z :=
  let '(h1, h2, h3, h4) := h in
  let k1 := of_le (slice 0 4 block) in
  let k2 := of_le (slice 4 4 block) in
  let k3 := of_le (slice 8 4 block) in
  let k4 := of_le (slice 12 4 block) in
  let h1 := lane128 h1 (mix 32 k1 C1_128 15 C2_128) 19 h2 0x561ccd1b in
  let h2 := lane128 h2 (mix 32 k2 C2_128 16 C3_128) 17 h3 0x0bcaa747 in
  let h3 := lane128 h3 (mix 32 k3 C3_128 17 C4_128) 15 h4 0x96cd1c35 in
  let h4 := lane128 h4 (mix 32 k4 C4_128 18 C1_128) 13 h1 0x32ac3b17 in
  (h1, h2, h3, h4).

Definition x86_128_tail (h : Z * Z * Z * Z) (tail : bytes) : Z * Z * Z * Z :=
  let '(h1, h2, h3, h4) := h in
  let k4 := tail_xor tail 13 8 (tail_xor tail 14 16 0) in
  let h4 := if (13 <=? length tail)%nat
            then Z.lxor h4 (mix 32 (tail_xor tail 12 0 k4) C4_128 18 C1_128) else h4 in
  let k3 := tail_xor tail 9 8 (tail_xor tail 10 16 (tail_xor tail 11 24 0)) in
  let h3 := if (9 <=? length tail)%nat
            then Z.lxor h3 (mix 32 (tail_xor tail 8 0 k3) C3_128 17 C4_128) else h3 in
  let k2 := tail_xor tail 5 8 (tail_xor tail 6 16 (tail_xor tail 7 24 0)) in
  let h2 := if (5 <=? length tail)%nat
            then Z.lxor h2 (mix 32 (tail_xor tail 4 0 k2) C2_128 16 C3_128) else h2 in
  let k1 := tail_xor tail 1 8 (tail_xor tail 2 16 (tail_xor tail 3 24 0)) in
  let h1 := if bool_decide (tail = []) then h1
            else Z.lxor h1 (mix 32 (tail_xor tail 0 0 k1) C1_128 15 C2_128) in
  (h1, h2, h3, h4).

(** [h1 += h2 + h3 + h4], then every other lane [+= h1]. *)
Definition x86_128_sum (h : Z * Z * Z * Z) : Z * Z * Z * Z :=
  let '(h1, h2, h3, h4) := h in
  let h1 := wrapping_add 32 (wrapping_add 32 (wrapping_add 32 h1 h2) h3) h4 in
  (h1, wrapping_add 32 h2 h1, wrapping_add 32 h3 h1, wrapping_add 32 h4 h1).

(** The [i]-th chunk of [key.chunks_exact(16)]. *)
Definition chunk16 (key : bytes) (i : nat) : bytes := slice (i * 16) 16 key.

Definition MurmurHash3_x86_128 (key : bytes) (seed : Z) : list Z :=
  let h := fold_left (fun h i => x86_128_block h (chunk16 key i))
             (seq 0 (length key / 16)) (seed, seed, seed, seed) in
  let '(h1, h2, h3, h4) := x86_128_tail h (drop (length key / 16 * 16) key) in
  let len := wrap 32 (Z.of_nat (length key)) in
  let '(h1, h2, h3, h4) :=
    x86_128_sum (Z.lxor h1 len, Z.lxor h2 len, Z.lxor h3 len, Z.lxor h4 len) in
  let '(h1, h2, h3, h4) := x86_128_sum (fmix32 h1, fmix32 h2, fmix32 h3, fmix32 h4) in
  [h1; h2; h3; h4].

Definition C1_x64 : Z := 0x87c37b91114253d5.
Definition C2_x64 : Z := 0x4cf5ad432745937f.

Definition lane64 (h k r next n : Z) : Z :=
  wrapping_add 64 (wrapping_mul 64 (wrapping_add 64 (rotate_left 64 (Z.lxor h k) r) next) 5) n.

Definition x64_128_block (h : Z * Z) (block : bytes) : Z * Z :=
  let '(h1, h2) := h in
  let k1 := of_le (slice 0 8 block) in
  let k2 := of_le (slice 8 8 block) in
  let h1 := lane64 h1 (mix 64 k1 C1_x64 31 C2_x64) 27 h2 0x52dce729 in
  let h2 := lane64 h2 (mix 64 k2 C2_x64 33 C1_x64) 31 h1 0x38495ab5 in
  (h1, h2).

(** [k ^= byte << (8 * (index - from))] over the bytes [from ..]. *)
Definition x64_tail_word (tail : bytes) (from count : nat) : Z :=
  fold_left (fun k i => tail_xor tail (from + i) (8 * Z.of_nat i) k) (seq 0 count) 0.

Definition MurmurHash3_x64_128 (key : bytes) (seed : Z) : list Z :=
  let '(h1, h2) := fold_left (fun h i => x64_128_block h (chunk16 key i))
                     (seq 0 (length key / 16)) (seed, seed) in
  let tail := drop (length key / 16 * 16) key in
  let k2 := x64_tail_word tail 8 (length tail - 8) in
  let h2 := if (9 <=? length tail)%nat then Z.lxor h2 (mix 64 k2 C2_x64 33 C1_x64) else h2 in
  let k1 := x64_tail_word tail 0 (Nat.min 8 (length tail)) in
  let h1 := if bool_decide (tail = []) then h1 else Z.lxor h1 (mix 64 k1 C1_x64 31 C2_x64) in
  let len := Z.of_nat (length key) in
  let h1 := Z.lxor h1 len in
  let h2 := Z.lxor h2 len in
  let h1 := wrapping_add 64 h1 h2 in
  let h2 := wrapping_add 64 h2 h1 in
  let h1 := fmix64 h1 in
  let h2 := fmix64 h2 in
  let h1 := wrapping_add 64 h1 h2 in
  let h2 := wrapping_add 64 h2 h1 in
  [h1; h2].

Definition Hash1 (key : bytes) : Z := to_signed 32 (MurmurHash3_x86_32 key 1).
Definition Hash2 (key : bytes) : Z := to_signed 32 (MurmurHash3_x86_32 key 2).
Definition HashMurmur3 (key : bytes) (seed : Z) : Z :=
  to_signed 32 (MurmurHash3_x86_32 key (wrap 32 seed)).
Definition HashCrypto (_key : bytes) : Z := 0.

(** * Term MPHF hashes *)

(** One FNV-1a byte. *)
Definition fnv_step (hash byte : Z) : Z := wrapping_mul 64 (Z.lxor hash byte) 1099511628211.

Definition TermMphfHash (term : bytes) (seed : Z) : Z :=
  let hash := fold_left fnv_step term (Z.lxor 1469598103934665603 seed) in
  let hash := xorshift 32 hash in
  let hash := wrapping_mul 64 hash 0xd6e8feb86659fd93 in
  xorshift 32 hash.

Definition TermMphfSlotSeed (seed displacement : Z) : Z :=
  let x := Z.lxor seed (wrapping_mul 64 0x9e3779b97f4a7c15 (displacement + 1)) in
  let x := xorshift 30 x in
  let x := wrapping_mul 64 x 0xbf58476d1ce4e5b9 in
  let x := xorshift 27 x in
  let x := wrapping_mul 64 x 0x94d049bb133111eb in
  xorshift 31 x.

(** * ElementFilter *)

Record ElementFilter := { m_size : Z; m_FilterSpace : bytes }.

Definition filter_new (size : Z) : ElementFilter :=
  {| m_size := size; m_FilterSpace := if 0 <? size then replicate (Z.to_nat size) 0 else [] |}.

(** [None]: the assertion fails. *)
Definition with_memory (size : Z) (memory : bytes) : option ElementFilter :=
  if (size <=? 0) || (size <=? Z.of_nat (length memory))
  then Some {| m_size := size; m_FilterSpace := memory |} else None.

(** The bytes before the first NUL. *)
Fixpoint until_nul (value : bytes) : bytes :=
  match value with
  | [] => []
  | b :: rest => if b =? 0 then [] else b :: until_nul rest
  end.

Definition hash (value : str) : Z := fold_left fnv_step (until_nul value) 14695981039346656037.

(** The two slots of an element. *)
Definition filter_slots (f : ElementFilter) (element : str) : nat * nat :=
  let n1 := hash element in
  let n2 := xorshift 17 n1 in
  (Z.to_nat (n1 mod m_size f), Z.to_nat (n2 mod m_size f)).

Definition filter_off (f : ElementFilter) : bool :=
  bool_decide (m_FilterSpace f = []) || (m_size f <=? 0).

(** [None]: an index is out of range. *)
Definition AddElement (f : ElementFilter) (element : str) : option ElementFilter :=
  if filter_off f then Some f
  else
    let '(s1, s2) := filter_slots f element in
    if (s1 <? length (m_FilterSpace f))%nat && (s2 <? length (m_FilterSpace f))%nat
    then Some {| m_size := m_size f; m_FilterSpace := <[s2 := 1]> (<[s1 := 1]> (m_FilterSpace f)) |}
    else None.

Definition Contains (f : ElementFilter) (element : str) : option bool :=
  if filter_off f then Some true
  else
    let '(s1, s2) := filter_slots f element in
    opt b1 := m_FilterSpace f !! s1 in
    if b1 =? 0 then Some false
    else opt b2 := m_FilterSpace f !! s2 in Some (negb (b2 =? 0)).

Definition filter_default : ElementFilter := filter_new 24.

(** * Injectivity of the mixing steps *)

Section injective.
Lemma xorshift_inj r x y : 0 < r -> 0 <= x -> 0 <= y -> xorshift r x = xorshift r y -> x = y.
Proof.
  intros Hr Hx Hy H. unfold xorshift in H.
  assert (Hz : Z.lxor x y = Z.shiftr (Z.lxor x y) r).
  { rewrite Z.shiftr_lxor. apply Z.bits_inj'. intros i Hi.
    apply (f_equal (fun v => Z.testbit v i)) in H. rewrite !Z.lxor_spec in *.
    by destruct (Z.testbit x i), (Z.testbit y i), (Z.testbit (Z.shiftr x r) i),
      (Z.testbit (Z.shiftr y r) i). }
  assert (H0 : 0 <= Z.lxor x y) by (by apply Z.lxor_nonneg).
  rewrite Z.shiftr_div_pow2 in Hz by lia.
  assert (Z.lxor x y = 0) as H1.
  { pose proof (Z.pow_gt_1 2 r ltac:(lia)) as [Hp _]. specialize (Hp Hr).
    destruct (Z.eq_dec (Z.lxor x y) 0) as [?|Hne]; [done|].
    pose proof (Z.div_lt (Z.lxor x y) (2 ^ r)). lia. }
  by apply Z.lxor_eq.
Qed.

(** Multiplication by a constant with an inverse modulo [2^w]. *)
Lemma wrapping_mul_inj w c ci x y :
  0 <= w -> wrap w (c * ci) = 1 -> in_u w x -> in_u w y ->
  wrapping_mul w x c = wrapping_mul w y c -> x = y.
Proof.
  unfold wrapping_mul, wrap. intros Hw Hc Hx Hy H.
  apply (f_equal (fun v => (v * ci) mod 2 ^ w)) in H.
  rewrite !Z.mul_mod_idemp_l, <- !Z.mul_assoc in H by (unfold in_u in *; lia).
  rewrite <- (Z.mul_mod_idemp_r x), <- (Z.mul_mod_idemp_r y) in H by (unfold in_u in *; lia).
  rewrite Hc, !Z.mul_1_r, !Z.mod_small in H by done. done.
Qed.

Lemma xorshift_in_u w r x : 0 <= w -> 0 <= r -> in_u w x -> in_u w (xorshift r x).
Proof. intros. unfold xorshift. auto with moon. Qed.

Lemma in_u_nonneg w x : in_u w x -> 0 <= x.
Proof. intros H. apply H. Qed.
End injective.

#[export] Hint Resolve xorshift_in_u in_u_nonneg : moon.

Ltac mixing_step :=
  match goal with
  | H : xorshift _ _ = xorshift _ _ |- _ => apply xorshift_inj in H; [|solve [eauto 12 with moon]..]
  end.

Section hash_lemmas.
Lemma fmix32_range x : in_u 32 x -> in_u 32 (fmix32 x).
Proof. intros. unfold fmix32. auto 10 with moon. Qed.

Lemma fmix64_range x : in_u 64 x -> in_u 64 (fmix64 x).
Proof. intros. unfold fmix64. auto 10 with moon. Qed.

Lemma fmix64_injective x y : in_u 64 x -> in_u 64 y -> fmix64 x = fmix64 y -> x = y.
Proof.
  intros Hx Hy H. unfold fmix64 in H. mixing_step.
  apply (wrapping_mul_inj 64 _ 0x9cb4b2f8129337db) in H; [|done|done|solve [eauto 12 with moon]..].
  mixing_step.
  apply (wrapping_mul_inj 64 _ 0x4f74430c22a54005) in H; [|done|done|solve [eauto 12 with moon]..].
  by mixing_step.
Qed.
End hash_lemmas.

Section hash_more.
Lemma fmix32_injective x y : in_u 32 x -> in_u 32 y -> fmix32 x = fmix32 y -> x = y.
Proof.
  intros Hx Hy H. unfold fmix32 in H. mixing_step.
  apply (wrapping_mul_inj 32 _ 0x7ed1b41d) in H; [|done|done|solve [eauto 12 with moon]..].
  mixing_step.
  apply (wrapping_mul_inj 32 _ 0xa5cb9243) in H; [|done|done|solve [eauto 12 with moon]..].
  by mixing_step.
Qed.

Lemma xorshift_chain_inj x y :
  in_u 64 x -> in_u 64 y ->
  xorshift 31 (wrapping_mul 64 (xorshift 27 (wrapping_mul 64 (xorshift 30 x) 0xbf58476d1ce4e5b9))
                 0x94d049bb133111eb)
  = xorshift 31 (wrapping_mul 64 (xorshift 27 (wrapping_mul 64 (xorshift 30 y) 0xbf58476d1ce4e5b9))
                 0x94d049bb133111eb) -> x = y.
Proof.
  intros Hx Hy H. mixing_step.
  apply (wrapping_mul_inj 64 _ 0x319642b2d24d8ec3) in H; [|done|done|solve [eauto 12 with moon]..].
  mixing_step.
  apply (wrapping_mul_inj 64 _ 0x96de1b173f119089) in H; [|done|done|solve [eauto 12 with moon]..].
  by mixing_step.
Qed.

Lemma fnv_fold_range bs h :
  in_u 64 h -> in_u 64 (fold_left fnv_step bs h).
Proof.
  revert h. induction bs as [|b bs IH]; intros h Hh; cbn [fold_left]; [done|].
  apply IH. apply wrap_range. lia.
Qed.

Lemma TermMphfHash_range term seed : in_u 64 seed -> in_u 64 (TermMphfHash term seed).
Proof.
  intros Hs. unfold TermMphfHash. apply xorshift_in_u; [lia..|]. auto with moon.
Qed.

Lemma TermMphfSlotSeed_range seed d : in_u 64 seed -> in_u 64 (TermMphfSlotSeed seed d).
Proof. intros Hs. unfold TermMphfSlotSeed. apply xorshift_in_u; [lia..|]. auto with moon. Qed.

Lemma MurmurHash3_x86_32_range key seed : in_u 32 seed -> in_u 32 (MurmurHash3_x86_32 key seed).
Proof.
  intros Hs. unfold MurmurHash3_x86_32. set (step := fun h1 index => _).
  assert (Hfold : forall l h, in_u 32 h -> in_u 32 (fold_left step l h)).
  { induction l as [|i l IH]; intros h Hh; cbn [fold_left]; [done|]. apply IH.
    apply wrap_range. lia. }
  cbv zeta. apply xorshift_in_u; [lia..|]. auto with moon.
Qed.
End hash_more.
#[export] Hint Resolve TermMphfHash_range TermMphfSlotSeed_range MurmurHash3_x86_32_range : moon.

(** with a fixed slot seed, distinct displacements give distinct slot seeds, so every
    displacement the MPHF builder tries is a new hash function. *)
Theorem TermMphfSlotSeed_injective seed d1 d2 :
  in_u 64 seed -> in_u 32 d1 -> in_u 32 d2 ->
  TermMphfSlotSeed seed d1 = TermMphfSlotSeed seed d2 -> d1 = d2.
Proof.
  intros Hs H1 H2 H. unfold TermMphfSlotSeed in H.
  apply xorshift_chain_inj in H; [|auto with moon..].
  assert (Hmul : wrapping_mul 64 0x9e3779b97f4a7c15 (d1 + 1) = wrapping_mul 64 0x9e3779b97f4a7c15 (d2 + 1)).
  { apply (f_equal (Z.lxor seed)) in H. rewrite <- !Z.lxor_assoc, Z.lxor_nilpotent in H.
    by rewrite !Z.lxor_0_l in H. }
  unfold wrapping_mul in Hmul. rewrite !(Z.mul_comm 0x9e3779b97f4a7c15) in Hmul.
  apply (wrapping_mul_inj 64 _ 0xf1de83e19937733d) in Hmul; [lia|done|done| |];
    unfold in_u in *; lia.
Qed.

(** MurmurHash3's finalizers lose nothing: distinct states stay distinct, in range. *)
Theorem fmix_injective x y :
  (in_u 32 x -> in_u 32 y -> fmix32 x = fmix32 y -> x = y) /\
  (in_u 64 x -> in_u 64 y -> fmix64 x = fmix64 y -> x = y) /\
  (in_u 32 x -> in_u 32 (fmix32 x)) /\ (in_u 64 x -> in_u 64 (fmix64 x)).
Proof.
  split_and!; eauto using fmix32_injective, fmix64_injective, fmix32_range, fmix64_range.
Qed.

(** * ElementFilter *)

Section filter.
(** The filter of [new] and [with_memory]: the space covers the size. *)
Definition filter_ok (f : ElementFilter) : Prop :=
  m_size f <= Z.of_nat (length (m_FilterSpace f)).

Lemma filter_new_ok size : filter_ok (filter_new size).
Proof.
  unfold filter_ok, filter_new. cbn. destruct (0 <? size) eqn:E; bool_to_prop; cbn; [|lia].
  rewrite length_replicate. lia.
Qed.

Lemma with_memory_ok size memory f : with_memory size memory = Some f -> filter_ok f.
Proof.
  unfold with_memory, filter_ok. destruct (_ || _) eqn:E; [|done]. intros [= <-]. cbn.
  apply orb_true_iff in E as [E|E]; bool_to_prop; lia.
Qed.

Lemma filter_slots_lt f e s1 s2 :
  filter_ok f -> filter_off f = false -> filter_slots f e = (s1, s2) ->
  (s1 < length (m_FilterSpace f) /\ s2 < length (m_FilterSpace f))%nat.
Proof.
  unfold filter_ok, filter_off, filter_slots. intros Hok Hoff [= <- <-]. bool_to_prop.
  pose proof (Z.mod_pos_bound (hash e) (m_size f)).
  pose proof (Z.mod_pos_bound (xorshift 17 (hash e)) (m_size f)). lia.
Qed.

Lemma AddElement_total f e :
  filter_ok f ->
  exists f', AddElement f e = Some f' /\ filter_ok f' /\ filter_off f' = filter_off f /\
    m_size f' = m_size f /\
    (filter_off f = false -> m_FilterSpace f'
      = <[(filter_slots f e).2 := 1]> (<[(filter_slots f e).1 := 1]> (m_FilterSpace f))).
Proof.
  intros Hok. unfold AddElement. destruct (filter_off f) eqn:Hoff; [by exists f|].
  destruct (filter_slots f e) as [s1 s2] eqn:Hs.
  destruct (filter_slots_lt _ _ _ _ Hok Hoff Hs) as [H1 H2].
  apply Nat.ltb_lt in H1 as ->, H2 as ->. cbn [andb]. eexists. split; [done|].
  split_and!; try done.
  - unfold filter_ok in *. cbn. by rewrite !length_insert.
  - unfold filter_off in *. cbn. apply orb_false_iff in Hoff as [Ha ->].
    apply orb_false_iff. split; [|done]. apply bool_decide_eq_false in Ha.
    apply bool_decide_eq_false. intros Hnil. apply (f_equal length) in Hnil.
    rewrite !length_insert in Hnil. by destruct (m_FilterSpace f).
Qed.

Definition bit_set (f : ElementFilter) (s : nat) : Prop :=
  exists b, m_FilterSpace f !! s = Some b /\ b <> 0.

Lemma Contains_true f e :
  filter_off f = false ->
  Contains f e = Some true <-> bit_set f (filter_slots f e).1 /\ bit_set f (filter_slots f e).2.
Proof.
  intros Hoff. unfold Contains, bit_set. rewrite Hoff.
  destruct (filter_slots f e) as [s1 s2]. cbn.
  destruct (m_FilterSpace f !! s1) as [b1|]; [|split; [done|by intros [[? [? _]] _]]].
  destruct (Z.eqb_spec b1 0) as [->|Hb1]; [split; [done|by intros [[? [[= <-] ?]] _]]|].
  destruct (m_FilterSpace f !! s2) as [b2|]; [|split; [done|by intros [_ [? [? _]]]]].
  destruct (Z.eqb_spec b2 0) as [->|Hb2]; split; try done; [by intros [_ [? [[= <-] ?]]]|].
  intros _. split; eauto.
Qed.

Lemma bit_set_insert space size s t :
  (s < length space)%nat -> s = t \/ bit_set {| m_size := size; m_FilterSpace := space |} t ->
  bit_set {| m_size := size; m_FilterSpace := <[s := 1]> space |} t.
Proof.
  intros Hs [<-|[b [Hb Hne]]]; unfold bit_set; cbn in *.
  - exists 1. split; [|done]. by apply list_lookup_insert_eq.
  - destruct (decide (s = t)) as [<-|Hst].
    + exists 1. split; [|done]. by apply list_lookup_insert_eq.
    + exists b. by rewrite list_lookup_insert_ne.
Qed.

Lemma AddElement_contains f f' e x :
  filter_ok f -> AddElement f e = Some f' ->
  x = e \/ Contains f x = Some true -> Contains f' x = Some true.
Proof.
  intros Hok Hadd Hx. destruct (AddElement_total f e Hok) as (f'' & Ha & _ & Hoff & Hsz & Hsp).
  rewrite Ha in Hadd. injection Hadd as ->.
  destruct (filter_off f) eqn:Hf; [unfold Contains; by rewrite Hoff|].
  specialize (Hsp eq_refl). apply Contains_true; [done|].
  assert (Hslots : filter_slots f' x = filter_slots f x) by (unfold filter_slots; by rewrite Hsz).
  rewrite Hslots. destruct f' as [size' space']. cbn [m_size m_FilterSpace] in Hsz, Hsp.
  destruct (filter_slots f e) as [s1 s2] eqn:He. subst size' space'.
  destruct (filter_slots_lt _ _ _ _ Hok Hf He) as [H1 H2]. cbn [fst snd] in *.
  assert (forall t, s1 = t \/ s2 = t \/ bit_set f t ->
    bit_set {| m_size := m_size f; m_FilterSpace := <[s2:=1]> (<[s1:=1]> (m_FilterSpace f)) |} t) as Hset.
  { intros t Ht. apply bit_set_insert; [by rewrite length_insert|].
    destruct Ht as [Ht|[Ht|Ht]]; [right|by left|right]; (apply bit_set_insert; [done|]).
    - by left.
    - right. by destruct f. }
  destruct Hx as [->|Hx].
  - rewrite He. split; apply Hset; auto.
  - apply Contains_true in Hx as [Ha1 Ha2]; [|done]. split; apply Hset; auto.
Qed.

(** Adding a list of elements. *)
Fixpoint AddElements (f : ElementFilter) (es : list str) : option ElementFilter :=
  match es with
  | [] => Some f
  | e :: es' => opt f' := AddElement f e in AddElements f' es'
  end.

Lemma AddElements_spec es f :
  filter_ok f ->
  exists f', AddElements f es = Some f' /\
    forall x, x ∈ es \/ Contains f x = Some true -> Contains f' x = Some true.
Proof.
  revert f. induction es as [|e es IH]; intros f Hok; cbn [AddElements].
  - exists f. split; [done|]. intros x [Hx|Hx]; [by apply elem_of_nil in Hx|done].
  - destruct (AddElement_total f e Hok) as (f1 & Ha & Hok1 & _). rewrite Ha.
    destruct (IH f1 Hok1) as (f' & Has & Hc). exists f'. split; [done|].
    intros x Hx. apply Hc. destruct Hx as [Hx|Hx].
    + apply elem_of_cons in Hx as [->|Hx]; [right|by left].
      apply (AddElement_contains f f1 e); auto.
    + right. apply (AddElement_contains f f1 e); auto.
Qed.
End filter.

(** no false negatives: starting from a fresh ElementFilter of any size, adding elements
    never fails, and the filter then contains every one of them. *)
Theorem ElementFilter_no_false_negative size es :
  exists f, AddElements (filter_new size) es = Some f /\ Forall (fun e => Contains f e = Some true) es.
Proof.
  destruct (AddElements_spec es (filter_new size) (filter_new_ok size)) as (f & Hf & Hc).
  exists f. split; [done|]. apply Forall_forall. auto.
Qed.

(** * Witnesses: the properties at concrete inputs *)

Lemma TermMphfSlotSeed_injective_witness : TermMphfSlotSeed 5 1 <> TermMphfSlotSeed 5 2.
Proof.
  intros Heq. assert (H12 : 1%Z = 2%Z); [|discriminate].
  apply (TermMphfSlotSeed_injective 5 1 2); [unfold in_u; lia|unfold in_u; lia|unfold in_u; lia|exact Heq].
Defined.

Lemma fmix_injective_witness : fmix32 1 <> fmix32 2 /\ fmix64 1 <> fmix64 2.
Proof.
  destruct (fmix_injective 1 2) as (H32 & H64 & _). split; intros Heq; (assert (H12 : 1%Z = 2%Z); [|discriminate]).
  - apply H32; [unfold in_u; lia|unfold in_u; lia|exact Heq].
  - apply H64; [unfold in_u; lia|unfold in_u; lia|exact Heq].
Defined.
