(* ===== verification/FileAccess.v ===== *)
(** Positional and sequential reads of an open file (FileAccess.rs), over what the
    operating system delivers. *)

From Stdlib Require Import ZArith Lia ZifyBool Bool List.
From stdpp Require Import base list list_numbers.
From S2P Require Import Prelude.

Local Open Scope moon_scope.

(** An open file: [File::read_at], the bytes it delivers from a position on, at
    most as many as asked for; [None] is an I/O error. *)
Definition OsFile := Z -> nat -> option bytes.

Record FileAccess := { m_FileHandle : option OsFile; m_Position : Z }.

Definition fa_new : FileAccess := {| m_FileHandle := None; m_Position := 0 |}.

(** [opened]: what [File::open] gave. *)
Definition fa_Init (fa : FileAccess) (opened : option OsFile) : FileAccess * bool :=
  match opened with
  | Some file => ({| m_FileHandle := Some file; m_Position := m_Position fa |}, true)
  | None => (fa, false)
  end.

(** The byte count or -1, and the buffer after the read. *)
Definition ReadAt (fa : FileAccess) (position : Z) (buffer : bytes) : Z * bytes :=
  match m_FileHandle fa with
  | None => ((-1)%Z, buffer)
  | Some file =>
      match file position (length buffer) with
      | None => ((-1)%Z, buffer)
      | Some data => (to_signed 32 (Z.of_nat (length data)), splice 0 data buffer)
      end
  end.

Definition ReadBlock (fa : FileAccess) (block_seq : Z) (buffer : bytes) (block_size : nat)
    (base_byte_offset : Z) : bool * bytes :=
  if length buffer <? block_size then (false, buffer)
  else
    let position := (base_byte_offset + block_seq * Z.of_nat block_size)%Z in
    let '(count, data) := ReadAt fa position (take block_size buffer) in
    ((count =? to_signed 32 (Z.of_nat block_size))%Z, data ++ drop block_size buffer).

Definition SetPosition (fa : FileAccess) (position : Z) : FileAccess * bool :=
  ({| m_FileHandle := m_FileHandle fa; m_Position := position |}, bool_decide (is_Some (m_FileHandle fa))).

Definition GetData (fa : FileAccess) (buffer : bytes) (numBytes : Z) : FileAccess * Z * bytes :=
  if (numBytes <? 0)%Z then (fa, (-1)%Z, buffer)
  else
    let requested := Nat.min (Z.to_nat numBytes) (length buffer) in
    let '(count, data) := ReadAt fa (m_Position fa) (take requested buffer) in
    let fa := if (0 <? count)%Z
              then {| m_FileHandle := m_FileHandle fa; m_Position := wrapping_add 64 (m_Position fa) count |}
              else fa in
    (fa, count, data ++ drop requested buffer).

(** * Files with a fixed content *)

(** A read delivers a prefix of the range asked for. *)
Definition file_holds (file : OsFile) (content : bytes) : Prop :=
  forall position len data, (0 <= position)%Z -> file position len = Some data ->
    data `prefix_of` slice (Z.to_nat position) len content.

(** Reads inside the file also succeed, in full. *)
Definition reads_fully (file : OsFile) (content : bytes) : Prop :=
  forall position len, (0 <= position)%Z -> Z.to_nat position + len <= length content ->
    file position len = Some (slice (Z.to_nat position) len content).

Section reads.
Context (fa : FileAccess) (file : OsFile) (content : bytes).
Hypothesis Hopen : m_FileHandle fa = Some file.

Lemma to_signed_count w n : (0 < w)%Z -> (0 <= n < 2 ^ (w - 1))%Z -> to_signed w n = n.
Proof.
  intros Hw Hn. assert (Hp : (2 ^ (w - 1) < 2 ^ w)%Z) by (apply Z.pow_lt_mono_r; lia).
  unfold to_signed. rewrite wrap_small by (unfold in_u; lia). case_test; lia.
Qed.

Lemma ReadAt_length position buffer :
  file_holds file content -> (0 <= position)%Z -> length (ReadAt fa position buffer).2 = length buffer.
Proof.
  intros Hh Hp. unfold ReadAt. rewrite Hopen. destruct (file _ _) as [data|] eqn:E; [|done]. cbn.
  apply length_splice. apply Hh, prefix_length in E; [|done].
  unfold slice in E. rewrite length_take in E. lia.
Qed.

(** A read that reports the full count has delivered the content. *)
Lemma ReadAt_full position buffer :
  file_holds file content -> (0 <= position)%Z -> (Z.of_nat (length buffer) < 2 ^ 31)%Z ->
  (ReadAt fa position buffer).1 = Z.of_nat (length buffer) ->
  (ReadAt fa position buffer).2 = slice (Z.to_nat position) (length buffer) content.
Proof.
  intros Hh Hp Hlt. unfold ReadAt. rewrite Hopen. destruct (file _ _) as [data|] eqn:E; [|cbn; lia].
  cbn [fst snd]. apply Hh in E; [|done]. pose proof (prefix_length _ _ E) as Hl. destruct E as [rest E].
  unfold slice in Hl. rewrite length_take in Hl. rewrite to_signed_count by lia. intros Hc.
  assert (Hrest : rest = []).
  { apply (f_equal length) in E. unfold slice in E. rewrite length_app, length_take in E.
    destruct rest; [done|cbn in E; lia]. }
  rewrite Hrest, app_nil_r in E. rewrite E at 1. unfold splice. rewrite drop_ge by lia. by rewrite app_nil_r.
Qed.

Lemma ReadBlock_ok block_seq buffer block_size base :
  file_holds file content -> (0 <= base + block_seq * Z.of_nat block_size)%Z ->
  (Z.of_nat block_size < 2 ^ 31)%Z -> length buffer = block_size ->
  let r := ReadBlock fa block_seq buffer block_size base in
  length r.2 = block_size /\
  (r.1 = true -> r.2 = slice (Z.to_nat (base + block_seq * Z.of_nat block_size)) block_size content).
Proof.
  intros Hh Hp Hlt <-. cbv zeta. unfold ReadBlock. rewrite Nat.ltb_irrefl, firstn_all, drop_all.
  set (pos := (base + _)%Z) in *.
  pose proof (ReadAt_length pos buffer Hh Hp) as Hl. pose proof (ReadAt_full pos buffer Hh Hp Hlt) as Hf.
  destruct (ReadAt fa pos buffer) as [count data]. cbn [fst snd] in *. rewrite app_nil_r.
  split; [done|]. rewrite to_signed_count by lia. intros Hc. apply Hf. bool_to_prop. done.
Qed.

Lemma ReadBlock_total block_seq buffer block_size base :
  reads_fully file content -> (0 <= base + block_seq * Z.of_nat block_size)%Z ->
  Z.to_nat (base + block_seq * Z.of_nat block_size) + block_size <= length content ->
  (Z.of_nat block_size < 2 ^ 31)%Z -> length buffer = block_size ->
  (ReadBlock fa block_seq buffer block_size base).1 = true.
Proof.
  intros Hr Hp Hfit Hlt Hb. unfold ReadBlock. rewrite Hb, Nat.ltb_irrefl, (firstn_all2 buffer) by lia.
  unfold ReadAt. rewrite Hopen, Hr by lia. cbn [fst]. rewrite length_slice by lia. rewrite Hb. lia.
Qed.

(** A sequential read of [n] bytes that reports [n] gives them and moves behind them. *)
Lemma GetData_full buffer n :
  file_holds file content -> (0 <= m_Position fa)%Z -> (0 < n < 2 ^ 31)%Z -> Z.to_nat n = length buffer ->
  (m_Position fa + n < 2 ^ 64)%Z ->
  let '(fa', count, data) := GetData fa buffer n in
  length data = length buffer /\ m_FileHandle fa' = Some file /\
  (count = n -> data = slice (Z.to_nat (m_Position fa)) (length buffer) content /\
     m_Position fa' = (m_Position fa + n)%Z).
Proof.
  intros Hh Hp Hn Hb Hpos. unfold GetData. replace (n <? 0)%Z with false by lia.
  rewrite Hb, Nat.min_id, firstn_all, drop_all.
  pose proof (ReadAt_length _ buffer Hh Hp) as Hl. pose proof (ReadAt_full _ buffer Hh Hp ltac:(lia)) as Hf.
  destruct (ReadAt fa _ buffer) as [count data]. cbn [fst snd] in *. rewrite app_nil_r.
  split; [done|]. split; [by destruct (0 <? count)%Z|]. intros ->. split; [apply Hf; lia|].
  replace (0 <? n)%Z with true by lia. cbn. unfold wrapping_add. apply wrap_small. unfold in_u. lia.
Qed.

(** Inside the file it reports them all. *)
Lemma GetData_total buffer n :
  reads_fully file content -> (0 <= m_Position fa)%Z -> (0 < n < 2 ^ 31)%Z -> Z.to_nat n = length buffer ->
  (m_Position fa + n <= Z.of_nat (length content))%Z -> (GetData fa buffer n).1.2 = n.
Proof.
  intros Hr Hp Hn Hb Hfit. unfold GetData. replace (n <? 0)%Z with false by lia. rewrite Hb, Nat.min_id, firstn_all.
  unfold ReadAt. rewrite Hopen, Hr by lia. cbn [fst snd]. rewrite length_slice by lia. rewrite to_signed_count by lia.
  replace (0 <? Z.of_nat (length buffer))%Z with true by lia. cbn. lia.
Qed.
End reads.
