(* ===== verification/FileFormat.v ===== *)
(** The fixed records of the v20 index file (BlockTable.rs): the file header and
    its layout validation, the term MPHF header, head term entries, leaf term
    blocks and the continuation header of index pages, with their byte codecs
    and the round trips. *)

From Stdlib Require Import Ascii String.
From Stdlib Require Import ZArith Lia Bool List.
From stdpp Require Import base list list_numbers gmap.
From S2P Require Import Prelude.

Local Open Scope moon_scope.

(** * Constants *)

Definition PAGE_SIZE : nat := Z.to_nat 4096.
Definition DOC_REC_SIZE : nat := 256.
Definition HEAD_TERM_KEY_MAX : nat := 26.
Definition LEAF_TERM_DIRECTORY_COUNT : nat := 161.
Definition LEAF_TERM_DATA_OFFSET : nat := 322.
Definition LEAF_TERM_DATA_SIZE : nat := PAGE_SIZE - LEAF_TERM_DATA_OFFSET.
Definition PATH_PREFIX_SIDECAR_PAGE_COUNT : nat := 20.
Definition PATH_PREFIX_SIDECAR_BYTES : nat := PATH_PREFIX_SIDECAR_PAGE_COUNT * PAGE_SIZE.
Definition INDEX_FILE_MAGIC : bytes := of_string "MOONSHOT".
Definition INDEX_FILE_HEADER_SIZE : nat := 136.
Definition INDEX_FORMAT_VERSION : Z := 20.
Definition INDEX_BLOCK_CONTINUATION_HEADER_SIZE : nat := 12.
Definition TERM_MPHF_MAGIC : Z := 0x4850464d4d524554.
Definition TERM_MPHF_HEADER_SIZE : nat := 48.
Definition LEAF_TERM_ENTRY_SIZE : nat := 16.
Definition TERM_MPHF_ENTRY_SIZE : nat := 32.
#[global] Arguments PAGE_SIZE : simpl never.
#[global] Arguments LEAF_TERM_DATA_SIZE : simpl never.
#[global] Arguments PATH_PREFIX_SIDECAR_BYTES : simpl never.
#[global] Arguments LEAF_TERM_DATA_OFFSET : simpl never.
#[global] Arguments LEAF_TERM_DIRECTORY_COUNT : simpl never.

Lemma PAGE_SIZE_Z : Z.of_nat PAGE_SIZE = 4096%Z.
Proof. vm_compute. done. Qed.
Lemma LEAF_TERM_DATA_SIZE_Z : Z.of_nat LEAF_TERM_DATA_SIZE = 3774%Z.
Proof. vm_compute. done. Qed.
Lemma head_offset_Z :
  Z.of_nat (INDEX_FILE_HEADER_SIZE + PATH_PREFIX_SIDECAR_BYTES) = (136 + 20 * 4096)%Z.
Proof. vm_compute. done. Qed.

(** * IndexFileHeader

    [IFH_AvgDocLength] is the [f32]'s bit pattern; the header only transports it. *)

Record IndexFileHeader := {
  IFH_Magic : bytes;
  IFH_Version : Z;
  IFH_AvgDocLength : Z;
  IFH_NumDocuments : Z;
  IFH_NumTerms : Z;
  IFH_HeadTermEntryOffset : Z;
  IFH_HeadTermEntryCount : Z;
  IFH_LeafTermBlockOffset : Z;
  IFH_LeafTermBlockCount : Z;
  IFH_DocDataOffset : Z;
  IFH_IndexBlockOffset : Z;
  IFH_IndexBlockCount : Z;
  IFH_TermMphfHeaderOffset : Z;
  IFH_TermMphfHeaderCount : Z;
  IFH_TermMphfDisplacementOffset : Z;
  IFH_TermMphfDisplacementCount : Z;
  IFH_TermMphfEntryOffset : Z;
  IFH_TermMphfEntryPageCount : Z;
}.

Definition header_of (magic : bytes) (version avg : Z) (f : nat -> Z) : IndexFileHeader :=
  {| IFH_Magic := magic; IFH_Version := version; IFH_AvgDocLength := avg;
     IFH_NumDocuments := f 0; IFH_NumTerms := f 1;
     IFH_HeadTermEntryOffset := f 2; IFH_HeadTermEntryCount := f 3;
     IFH_LeafTermBlockOffset := f 4; IFH_LeafTermBlockCount := f 5;
     IFH_DocDataOffset := f 6;
     IFH_IndexBlockOffset := f 7; IFH_IndexBlockCount := f 8;
     IFH_TermMphfHeaderOffset := f 9; IFH_TermMphfHeaderCount := f 10;
     IFH_TermMphfDisplacementOffset := f 11; IFH_TermMphfDisplacementCount := f 12;
     IFH_TermMphfEntryOffset := f 13; IFH_TermMphfEntryPageCount := f 14 |}.

Definition header_default : IndexFileHeader :=
  header_of INDEX_FILE_MAGIC INDEX_FORMAT_VERSION 0 (fun _ => 0%Z).
Definition header_zeroed : IndexFileHeader := header_of (zeros 8) 0 0 (fun _ => 0%Z).

(** The [u64] fields, in file order. *)
Definition header_fields (h : IndexFileHeader) : list Z :=
  [ IFH_NumDocuments h; IFH_NumTerms h; IFH_HeadTermEntryOffset h; IFH_HeadTermEntryCount h;
    IFH_LeafTermBlockOffset h; IFH_LeafTermBlockCount h; IFH_DocDataOffset h;
    IFH_IndexBlockOffset h; IFH_IndexBlockCount h; IFH_TermMphfHeaderOffset h;
    IFH_TermMphfHeaderCount h; IFH_TermMphfDisplacementOffset h; IFH_TermMphfDisplacementCount h;
    IFH_TermMphfEntryOffset h; IFH_TermMphfEntryPageCount h ].

Definition header_to_bytes (h : IndexFileHeader) : bytes :=
  let out := zeros INDEX_FILE_HEADER_SIZE in
  let out := splice 0 (IFH_Magic h) out in
  let out := put 4 8 (IFH_Version h) out in
  let out := put 4 12 (IFH_AvgDocLength h) out in
  fold_left (fun out '(index, value) => put 8 (16 + index * 8) value out)
    (zip (seq 0 15) (header_fields h)) out.

Definition is_zeroed (h : IndexFileHeader) : bool := forallb (Z.eqb 0) (header_to_bytes h).

Definition header_parse (data : bytes) : result IndexFileHeader :=
  if (length data <? INDEX_FILE_HEADER_SIZE) || negb (bool_decide (slice 0 8 data = INDEX_FILE_MAGIC))
  then Err InvalidFormat
  else if negb (get 4 8 data =? INDEX_FORMAT_VERSION)%Z then Err InvalidFormat
  else Ok (header_of (slice 0 8 data) (get 4 8 data) (get 4 12 data)
             (fun i => get 8 (16 + i * 8) data)).

Definition checked_end (offset count width : Z) : option Z :=
  opt bytes := checked_mul 64 count width in checked_add 64 offset bytes.

(** [if field != expected { return Err(InvalidFormat) }]. *)
Definition expect (field expected : Z) : result unit :=
  if (field =? expected)%Z then Ok tt else Err InvalidFormat.

Definition layout_counts_bad (h : IndexFileHeader) : bool :=
  ((1 <? IFH_TermMphfHeaderCount h)
   || (u32_max <? IFH_HeadTermEntryCount h)
   || (u32_max <? IFH_LeafTermBlockCount h)
   || (u32_max <? IFH_IndexBlockCount h)
   || (u32_max <? IFH_TermMphfDisplacementCount h)
   || (u32_max <? IFH_TermMphfEntryPageCount h)
   || ((IFH_TermMphfHeaderCount h =? 0)
       && (negb (IFH_TermMphfDisplacementCount h =? 0) || negb (IFH_TermMphfEntryPageCount h =? 0)))
   || ((IFH_TermMphfHeaderCount h =? 1)
       && ((IFH_TermMphfDisplacementCount h =? 0) || (IFH_TermMphfEntryPageCount h =? 0))))%Z.

Definition validate_layout (h : IndexFileHeader) (file_bytes : option Z) : result Z :=
  if layout_counts_bad h then Err InvalidFormat
  else
    let page := Z.of_nat PAGE_SIZE in
    let head := Z.of_nat (INDEX_FILE_HEADER_SIZE + PATH_PREFIX_SIDECAR_BYTES) in
    let? _ := expect (IFH_HeadTermEntryOffset h) head in
    let? leaf := ok_or (checked_end head (IFH_HeadTermEntryCount h) 32) InvalidFormat in
    let? _ := expect (IFH_LeafTermBlockOffset h) leaf in
    let? docdata := ok_or (checked_end leaf (IFH_LeafTermBlockCount h) page) InvalidFormat in
    let? _ := expect (IFH_DocDataOffset h) docdata in
    let? index := ok_or (checked_end docdata (IFH_NumDocuments h) (Z.of_nat DOC_REC_SIZE)) InvalidFormat in
    let? _ := expect (IFH_IndexBlockOffset h) index in
    let? mphf_header := ok_or (checked_end index (IFH_IndexBlockCount h) page) InvalidFormat in
    let? _ := expect (IFH_TermMphfHeaderOffset h) mphf_header in
    let? displacement := ok_or (checked_end mphf_header (IFH_TermMphfHeaderCount h)
                                  (Z.of_nat TERM_MPHF_HEADER_SIZE)) InvalidFormat in
    let? _ := expect (IFH_TermMphfDisplacementOffset h) displacement in
    let? entries := ok_or (checked_end displacement (IFH_TermMphfDisplacementCount h) 4) InvalidFormat in
    let? _ := expect (IFH_TermMphfEntryOffset h) entries in
    let? end_ := ok_or (checked_end entries (IFH_TermMphfEntryPageCount h) page) InvalidFormat in
    if match file_bytes with Some bytes => (bytes <? end_)%Z | None => false end
    then Err InvalidFormat
    else Ok end_.

(** * TermMphfHeader *)

Record TermMphfHeader := {
  TMH_Magic : Z;
  TMH_TermCount : Z;
  TMH_BucketCount : Z;
  TMH_SlotCount : Z;
  TMH_BucketSeed : Z;
  TMH_SlotSeed : Z;
  TMH_FingerprintSeed : Z;
}.

Definition mphf_header_default : TermMphfHeader :=
  {| TMH_Magic := TERM_MPHF_MAGIC; TMH_TermCount := 0; TMH_BucketCount := 0; TMH_SlotCount := 0;
     TMH_BucketSeed := 0; TMH_SlotSeed := 0; TMH_FingerprintSeed := 0 |}.
Definition mphf_header_zeroed : TermMphfHeader :=
  {| TMH_Magic := 0; TMH_TermCount := 0; TMH_BucketCount := 0; TMH_SlotCount := 0;
     TMH_BucketSeed := 0; TMH_SlotSeed := 0; TMH_FingerprintSeed := 0 |}.

Definition mphf_header_to_bytes (h : TermMphfHeader) : bytes :=
  let out := zeros TERM_MPHF_HEADER_SIZE in
  let out := put 8 0 (TMH_Magic h) out in
  let out := put 8 8 (TMH_TermCount h) out in
  let out := put 4 16 (TMH_BucketCount h) out in
  let out := put 4 20 (TMH_SlotCount h) out in
  let out := put 8 24 (TMH_BucketSeed h) out in
  let out := put 8 32 (TMH_SlotSeed h) out in
  put 8 40 (TMH_FingerprintSeed h) out.

Definition mphf_header_from_bytes (data : bytes) : option TermMphfHeader :=
  if length data <? TERM_MPHF_HEADER_SIZE then None
  else Some {| TMH_Magic := get 8 0 data; TMH_TermCount := get 8 8 data;
               TMH_BucketCount := get 4 16 data; TMH_SlotCount := get 4 20 data;
               TMH_BucketSeed := get 8 24 data; TMH_SlotSeed := get 8 32 data;
               TMH_FingerprintSeed := get 8 40 data |}.

(** * IndexBlockContinuationHeader *)

Record IndexBlockContinuationHeader := { IBCH_MaxDocID : Z; IBCH_DataLength : Z }.

Definition continuation_from_bytes (data : bytes) : option IndexBlockContinuationHeader :=
  if length data <? INDEX_BLOCK_CONTINUATION_HEADER_SIZE then None
  else Some {| IBCH_MaxDocID := get 8 0 data; IBCH_DataLength := get 4 8 data |}.

Definition continuation_write_to (h : IndexBlockContinuationHeader) (data : bytes) : bytes :=
  put 4 8 (IBCH_DataLength h) (put 8 0 (IBCH_MaxDocID h) data).

(** * HeadTermEntry *)

Record HeadTermEntry := {
  HTE_LeafTermBlockID : Z;
  HTE_FirstTermLength : Z;
  HTE_FirstTerm : bytes;
}.

(** [None]: the copy panics on a term longer than the key. *)
Definition head_new (term : str) (block_id : Z) : option HeadTermEntry :=
  if length term <=? HEAD_TERM_KEY_MAX then
    Some {| HTE_LeafTermBlockID := block_id;
            HTE_FirstTermLength := wrap 16 (Z.of_nat (length term));
            HTE_FirstTerm := splice 0 term (zeros HEAD_TERM_KEY_MAX) |}
  else None.

Definition first_term (e : HeadTermEntry) : str :=
  default [] (from_utf8 (slice 0 (Z.to_nat (HTE_FirstTermLength e)) (HTE_FirstTerm e))).

Definition head_to_bytes (e : HeadTermEntry) : bytes :=
  let out := zeros 32 in
  let out := put 4 0 (HTE_LeafTermBlockID e) out in
  let out := put 2 4 (HTE_FirstTermLength e) out in
  splice 6 (HTE_FirstTerm e) out.

Definition head_from_bytes (data : bytes) : option HeadTermEntry :=
  if length data <? 32 then None
  else
    let term_length := get 2 4 data in
    if (Z.of_nat HEAD_TERM_KEY_MAX <? term_length)%Z then None
    else Some {| HTE_LeafTermBlockID := get 4 0 data; HTE_FirstTermLength := term_length;
                 HTE_FirstTerm := slice 6 26 data |}.

(** * LeafTermBlock *)

Record LeafTermEntry := {
  LTE_Term : str;
  LTE_DocFreq : Z;
  LTE_IndexBlockID : Z;
  LTE_IndexOffset : Z;
  LTE_IndexLength : Z;
  LTE_ContinuationBlockCount : Z;
  LTE_Flags : Z;
  LTE_TermLength : Z;
}.

Definition byte_len (e : LeafTermEntry) : nat := LEAF_TERM_ENTRY_SIZE + length (LTE_Term e).

Record LeafTermBlock := { LTB_Directory : list Z; LTB_Data : bytes }.

Definition leaf_default : LeafTermBlock :=
  {| LTB_Directory := replicate LEAF_TERM_DIRECTORY_COUNT 0%Z; LTB_Data := zeros LEAF_TERM_DATA_SIZE |}.

Definition directory (b : LeafTermBlock) (i : nat) : Z := nth i (LTB_Directory b) 0%Z.

Definition entry_count (b : LeafTermBlock) : nat :=
  Nat.min (Z.to_nat (directory b (LEAF_TERM_DIRECTORY_COUNT - 1))) (LEAF_TERM_DIRECTORY_COUNT - 1).

Definition entry (b : LeafTermBlock) (index : nat) : option LeafTermEntry :=
  if entry_count b <=? index then None
  else
    let block_offset := Z.to_nat (directory b index) in
    if block_offset <? LEAF_TERM_DATA_OFFSET then None
    else
      let offset := block_offset - LEAF_TERM_DATA_OFFSET in
      if length (LTB_Data b) <? offset + LEAF_TERM_ENTRY_SIZE then None
      else
        let data := drop offset (LTB_Data b) in
        let term_len := Z.to_nat (nth 15 data 0%Z) in
        if length (LTB_Data b) <? offset + LEAF_TERM_ENTRY_SIZE + term_len then None
        else
          opt term := from_utf8 (slice 16 term_len data) in
          Some {| LTE_DocFreq := get 4 0 data; LTE_IndexBlockID := get 4 4 data;
                  LTE_IndexOffset := get 2 8 data; LTE_IndexLength := get 2 10 data;
                  LTE_ContinuationBlockCount := get 2 12 data;
                  LTE_Flags := nth 14 data 0%Z; LTE_TermLength := nth 15 data 0%Z;
                  LTE_Term := term |}.

Definition leaf_entries (b : LeafTermBlock) : list LeafTermEntry :=
  omap (entry b) (seq 0 (entry_count b)).

(** The directory words, then the data: [LEAF_TERM_DATA_OFFSET] is twice the
    directory's length. *)
Definition leaf_to_bytes (b : LeafTermBlock) : bytes :=
  concat (map (le_bytes 2) (LTB_Directory b)) ++ LTB_Data b.

(** The page read as a LeafTermBlock. *)
Definition leaf_view (data : bytes) : LeafTermBlock :=
  {| LTB_Directory := map (fun i => get 2 (i * 2) data) (seq 0 LEAF_TERM_DIRECTORY_COUNT);
     LTB_Data := slice LEAF_TERM_DATA_OFFSET LEAF_TERM_DATA_SIZE data |}.

Definition leaf_from_bytes (data : bytes) : option LeafTermBlock :=
  if length data <? PAGE_SIZE then None
  else
    let block := leaf_view data in
    if (Z.of_nat (LEAF_TERM_DIRECTORY_COUNT - 1) <? directory block (LEAF_TERM_DIRECTORY_COUNT - 1))%Z
    then None
    else if forallb (fun index => bool_decide (is_Some (entry block index))) (seq 0 (entry_count block))
    then Some block
    else None.

(** WriteLeafEntry (IndexSerializer.rs); the caller has checked the room. *)
Definition WriteLeafEntry (b : LeafTermBlock) (entryIndex offset : nat) (e : LeafTermEntry) : LeafTermBlock :=
  let dir := <[entryIndex := wrap 16 (Z.of_nat (LEAF_TERM_DATA_OFFSET + offset))]> (LTB_Directory b) in
  let data := LTB_Data b in
  let data := put 4 (offset + 0) (LTE_DocFreq e) data in
  let data := put 4 (offset + 4) (LTE_IndexBlockID e) data in
  let data := put 2 (offset + 8) (LTE_IndexOffset e) data in
  let data := put 2 (offset + 10) (LTE_IndexLength e) data in
  let data := put 2 (offset + 12) (LTE_ContinuationBlockCount e) data in
  let data := <[offset + 14 := LTE_Flags e]> data in
  let data := <[offset + 15 := LTE_TermLength e]> data in
  let data := splice (offset + 16) (LTE_Term e) data in
  {| LTB_Directory := dir; LTB_Data := data |}.

(** * Header lemmas *)

Definition header_wf (h : IndexFileHeader) : Prop :=
  IFH_Magic h = INDEX_FILE_MAGIC /\ IFH_Version h = INDEX_FORMAT_VERSION /\
  in_u 32 (IFH_AvgDocLength h) /\ Forall (in_u 64) (header_fields h).

Section header.
(** The buffer after all copies: the fields in file order. *)
Lemma header_to_bytes_fields h :
  length (IFH_Magic h) = 8 ->
  header_to_bytes h = IFH_Magic h ++ le_bytes 4 (IFH_Version h) ++ le_bytes 4 (IFH_AvgDocLength h)
    ++ concat (map (le_bytes 8) (header_fields h)).
Proof.
  intros Hl. unfold header_to_bytes.
  destruct (IFH_Magic h) as [|m0 [|m1 [|m2 [|m3 [|m4 [|m5 [|m6 [|m7 [|]]]]]]]]]; try done.
Qed.

Lemma length_header_to_bytes h :
  length (IFH_Magic h) = 8 -> length (header_to_bytes h) = INDEX_FILE_HEADER_SIZE.
Proof. intros Hl. rewrite header_to_bytes_fields by done. rewrite !length_app, Hl. done. Qed.

(** Reading the [i]-th [u64] field back. *)
Lemma header_field_get h i v rest :
  length (IFH_Magic h) = 8 -> header_fields h !! i = Some v -> in_u 64 v ->
  get 8 (16 + i * 8) (header_to_bytes h ++ rest) = v.
Proof.
  intros Hl Hi Hv. assert (Hlt : i < 15) by (apply lookup_lt_Some in Hi; exact Hi).
  rewrite get_app_l by (rewrite length_header_to_bytes by done; unfold INDEX_FILE_HEADER_SIZE; lia).
  rewrite header_to_bytes_fields by done. unfold get.
  rewrite (app_assoc (IFH_Magic h)), app_assoc.
  rewrite slice_app_r by (rewrite !length_app, Hl; cbn; lia).
  rewrite !length_app, Hl, !length_le_bytes. replace (16 + i * 8 - (8 + 4 + 4)) with (i * 8) by lia.
  rewrite (slice_concat (le_bytes 8) 8 _ _ v) by (done || (intros; apply length_le_bytes)).
  by apply of_le_le_bytes_id.
Qed.

Lemma header_parse_to_bytes h rest :
  header_wf h -> header_parse (header_to_bytes h ++ rest) = Ok h.
Proof.
  intros (Hm & Hver & Havg & Hf). assert (Hl : length (IFH_Magic h) = 8) by by rewrite Hm.
  unfold header_parse. rewrite length_app, length_header_to_bytes by done.
  replace (_ <? INDEX_FILE_HEADER_SIZE) with false by (symmetry; apply Nat.ltb_ge; lia).
  assert (H8 : slice 0 8 (header_to_bytes h ++ rest) = IFH_Magic h).
  { rewrite header_to_bytes_fields, <- app_assoc by done.
    by apply (slice_app_mid 0 8 []). }
  assert (Hv : get 4 8 (header_to_bytes h ++ rest) = IFH_Version h).
  { unfold get. rewrite header_to_bytes_fields, <- !app_assoc by done.
    rewrite (slice_app_mid 8 4 (IFH_Magic h)) by done. by rewrite Hver. }
  assert (Ha : get 4 12 (header_to_bytes h ++ rest) = IFH_AvgDocLength h).
  { unfold get. rewrite header_to_bytes_fields, <- !app_assoc by done.
    rewrite app_assoc, slice_app_mid by (rewrite ?length_app, ?Hl; done).
    by apply of_le_le_bytes_id. }
  rewrite H8, Hv, Ha, Hm, Hver. cbn [orb negb]. rewrite bool_decide_eq_true_2 by done.
  cbn [negb]. rewrite Z.eqb_refl. cbn [negb].
  assert (Hget : forall i v, header_fields h !! i = Some v ->
    get 8 (16 + i * 8) (header_to_bytes h ++ rest) = v).
  { intros i v Hi. apply header_field_get; [done..|]. by eapply Forall_lookup_1 in Hf. }
  f_equal. unfold header_of. rewrite (Hget 0 _ eq_refl), (Hget 1 _ eq_refl), (Hget 2 _ eq_refl),
    (Hget 3 _ eq_refl), (Hget 4 _ eq_refl), (Hget 5 _ eq_refl), (Hget 6 _ eq_refl),
    (Hget 7 _ eq_refl), (Hget 8 _ eq_refl), (Hget 9 _ eq_refl), (Hget 10 _ eq_refl),
    (Hget 11 _ eq_refl), (Hget 12 _ eq_refl), (Hget 13 _ eq_refl), (Hget 14 _ eq_refl).
  rewrite <- Hm, <- Hver. by destruct h.
Qed.

(** Only the exact bytes of a header parse to it. *)
Lemma header_parse_inv data h :
  is_bytes data -> header_parse data = Ok h ->
  header_wf h /\ INDEX_FILE_HEADER_SIZE <= length data /\
  header_to_bytes h = take INDEX_FILE_HEADER_SIZE data.
Proof.
  unfold header_parse. intros Hb.
  destruct (length data <? INDEX_FILE_HEADER_SIZE) eqn:E1; cbn [orb]; [done|].
  destruct (bool_decide _) eqn:E2; cbn [negb]; [|done].
  destruct (get 4 8 data =? _)%Z eqn:E3; cbn [negb]; [|done]. bool_to_prop. intros [= <-].
  unfold INDEX_FILE_HEADER_SIZE in *.
  assert (Hsl : forall o n, is_bytes (slice o n data)) by
    (intros o n; unfold slice; apply Forall_take, Forall_drop; done).
  assert (Hget : forall n o, o + n <= 136 -> le_bytes n (get n o data) = slice o n data).
  { intros n o Ho. unfold get.
    transitivity (le_bytes (length (slice o n data)) (of_le (slice o n data))).
    - by rewrite length_slice by lia.
    - by apply le_bytes_of_le. }
  assert (Hrange : forall n o, o + n <= 136 -> in_u (8 * Z.of_nat n) (get n o data)).
  { intros n o Ho. unfold get. pose proof (of_le_range _ (Hsl o n)) as Hr.
    by rewrite length_slice in Hr by lia. }
  split_and!; [|done|].
  - unfold header_wf. cbn [header_of IFH_Magic IFH_Version IFH_AvgDocLength].
    split_and!; [done|done|apply (Hrange 4); lia|].
    unfold header_fields. cbn [header_of IFH_NumDocuments]. repeat constructor; apply (Hrange 8); lia.
  - rewrite header_to_bytes_fields by (cbn; by rewrite length_slice by lia).
    unfold header_fields. cbn [map header_of concat IFH_Magic IFH_Version IFH_AvgDocLength].
    unfold header_of. cbn -[le_bytes slice get take Nat.mul Nat.add].
    rewrite !Hget by lia. rewrite app_nil_r.
    assert (Hcat : forall o n p m, p = o + n -> slice o n data ++ slice p m data = slice o (n + m) data).
    { intros o n p m ->. unfold slice.
      rewrite <- drop_drop, <- (take_drop n (take (n + m) (drop o data))).
      rewrite take_take, skipn_firstn_comm. f_equal; f_equal; lia. }
    rewrite !Hcat by reflexivity.
    unfold slice. by rewrite drop_0.
Qed.
End header.

(** * Layout *)

(** The sections after the path sidecar: recorded offset and size in bytes. *)
Definition sections (h : IndexFileHeader) : list (Z * Z) :=
  [ (IFH_HeadTermEntryOffset h, IFH_HeadTermEntryCount h * 32);
    (IFH_LeafTermBlockOffset h, IFH_LeafTermBlockCount h * 4096);
    (IFH_DocDataOffset h, IFH_NumDocuments h * 256);
    (IFH_IndexBlockOffset h, IFH_IndexBlockCount h * 4096);
    (IFH_TermMphfHeaderOffset h, IFH_TermMphfHeaderCount h * 48);
    (IFH_TermMphfDisplacementOffset h, IFH_TermMphfDisplacementCount h * 4);
    (IFH_TermMphfEntryOffset h, IFH_TermMphfEntryPageCount h * 4096) ]%Z.

(** Sections that follow each other without gap or overlap, from [start] to [end_]. *)
Fixpoint contiguous (start : Z) (l : list (Z * Z)) (end_ : Z) : Prop :=
  match l with
  | [] => end_ = start
  | (o, n) :: l' => o = start /\ contiguous (start + n) l' end_
  end.

Section layout.
Local Open Scope Z_scope.

Lemma checked_end_Some o c w e :
  0 <= o -> 0 <= c -> 0 <= w -> checked_end o c w = Some e <-> e = o + c * w /\ e < 2 ^ 64.
Proof.
  intros Ho Hc Hw. unfold checked_end, checked_mul, checked_add. split.
  - repeat case_test; intros; simplify_eq. lia.
  - intros [-> Hlt]. repeat case_test; nia || done.
Qed.

Lemma expect_bind {A} (x y : Z) (k : result A) r :
  result_bind (expect x y) (fun _ => k) = Ok r <-> x = y /\ k = Ok r.
Proof. unfold expect. destruct (Z.eqb_spec x y); cbn; split; [auto|by intros [_ ?]|done|by intros [? _]]. Qed.

Lemma ok_or_bind {A B} (o : option A) e (k : A -> result B) r :
  result_bind (ok_or o e) k = Ok r <-> exists a, o = Some a /\ k a = Ok r.
Proof. destruct o; cbn; split; [eauto|by intros (? & [= <-] & ?)|done|by intros (? & ? & _)]. Qed.

Lemma contiguous_end start l end_ :
  contiguous start l end_ -> Forall (fun s => 0 <= s.2) l -> start <= end_.
Proof.
  revert start. induction l as [|[o n] l IH]; intros start; cbn; [lia|].
  intros [-> H] Hf. inversion Hf; subst. cbn in *. specialize (IH _ H ltac:(done)). lia.
Qed.

(** Every section lies between the start and the end. *)
Lemma contiguous_bounds start l end_ o n :
  contiguous start l end_ -> Forall (fun s => 0 <= s.2) l -> (o, n) ∈ l ->
  start <= o /\ o + n <= end_.
Proof.
  revert start. induction l as [|[o' n'] l IH]; intros start; cbn; [by rewrite elem_of_nil|].
  intros [-> H] Hf Hin. inversion Hf as [|? ? Hn Hf']; subst. cbn in Hn.
  apply elem_of_cons in Hin as [[= -> ->]|Hin].
  - split; [lia|]. by eapply contiguous_end.
  - specialize (IH _ H Hf' Hin). lia.
Qed.

(** Later sections start where an earlier one has ended. *)
Lemma contiguous_disjoint start l end_ i j oi ni oj nj :
  contiguous start l end_ -> Forall (fun s => 0 <= s.2) l -> (i < j)%nat ->
  l !! i = Some (oi, ni) -> l !! j = Some (oj, nj) -> oi + ni <= oj.
Proof.
  revert start i j. induction l as [|[o n] l IH]; intros start i j Hc Hf Hij Hi Hj; [done|].
  cbn in Hc. destruct Hc as [-> Hc]. inversion Hf as [|? ? Hn Hf']; subst.
  destruct j as [|j]; [lia|]. destruct i as [|i]; cbn in Hi, Hj.
  - injection Hi as -> ->. eapply contiguous_bounds in Hc as [? _]; [done|done|].
    by apply list_elem_of_lookup_2 in Hj.
  - eapply (IH _ i j); eauto. lia.
Qed.

Lemma validate_layout_iff h fb end_ :
  Forall (in_u 64) (header_fields h) ->
  validate_layout h fb = Ok end_ <->
  layout_counts_bad h = false /\ contiguous (136 + 20 * 4096) (sections h) end_ /\
  end_ < 2 ^ 64 /\ (forall b, fb = Some b -> end_ <= b).
Proof.
  intros Hf. unfold header_fields in Hf. rewrite !Forall_cons in Hf. unfold in_u in Hf.
  destruct Hf as (H0 & H1 & H2 & H3 & H4 & H5 & H6 & H7 & H8 & H9 & H10 & H11 & H12 & H13 & H14 & _).
  unfold validate_layout, sections.
  rewrite head_offset_Z, PAGE_SIZE_Z. change (Z.of_nat DOC_REC_SIZE) with 256.
  change (Z.of_nat TERM_MPHF_HEADER_SIZE) with 48.
  destruct (layout_counts_bad h); [by split; [|intros (? & _)]|]. cbn [contiguous].
  rewrite expect_bind, ok_or_bind. split.
  - intros (E & leaf & Hl & Hk).
    repeat match goal with
    | H : result_bind (expect _ _) _ = Ok _ |- _ => apply expect_bind in H as [? H]
    | H : result_bind (ok_or _ _) _ = Ok _ |- _ => apply ok_or_bind in H as (? & ? & H)
    end.
    repeat match goal with
    | H : checked_end _ _ _ = Some _ |- _ => apply checked_end_Some in H as [? ?]; [|lia..]
    end.
    destruct fb as [b|].
    + case_test; [done|]. injection Hk as <-. split_and!; try done; try lia. intros b' [= <-]. lia.
    + injection Hk as <-. split_and!; try done; lia.
  - intros (_ & (-> & -> & -> & -> & -> & -> & -> & ->) & Hend & Hb). split; [done|].
    repeat (eexists; split; [apply checked_end_Some; [lia..|split; [reflexivity|lia]]|];
      try (apply expect_bind; split; [reflexivity|]; apply ok_or_bind)).
    destruct fb as [b|]; [|done]. specialize (Hb b eq_refl). by case_test.
Qed.
End layout.

(** * Leaf block lemmas *)

Section splicing.
Context {A : Type}.
Implicit Types l a b : list A.

Lemma drop_splice off a l :
  off <= length l -> drop off (splice off a l) = a ++ drop (off + length a) l.
Proof.
  intros H. unfold splice. rewrite drop_app_ge by len_lia.
  replace (off - _) with 0 by len_lia. done.
Qed.

(** Consecutive copies are one copy. *)
Lemma splice_splice off off' a b l :
  off' = off + length a -> off' + length b <= length l ->
  splice off' b (splice off a l) = splice off (a ++ b) l.
Proof.
  intros -> Hle. unfold splice.
  rewrite take_app_ge by len_lia. rewrite length_take_le by lia.
  replace (off + length a - off) with (length a) by lia.
  rewrite take_app_length, <- !app_assoc. do 3 f_equal.
  rewrite drop_app_ge by len_lia. rewrite length_take_le by lia.
  rewrite drop_app_ge by lia. rewrite drop_drop. f_equal. len_lia.
Qed.

Lemma insert_splice i x l : i < length l -> <[i := x]> l = splice i [x] l.
Proof.
  intros H. unfold splice. rewrite insert_take_drop by done. cbn.
  by replace (i + 1) with (S i) by lia.
Qed.
End splicing.

(** The bytes of an entry. *)
Definition leaf_entry_bytes (e : LeafTermEntry) : bytes :=
  le_bytes 4 (LTE_DocFreq e) ++ le_bytes 4 (LTE_IndexBlockID e) ++ le_bytes 2 (LTE_IndexOffset e)
  ++ le_bytes 2 (LTE_IndexLength e) ++ le_bytes 2 (LTE_ContinuationBlockCount e)
  ++ [LTE_Flags e; LTE_TermLength e] ++ LTE_Term e.

Definition leaf_entry_wf (e : LeafTermEntry) : Prop :=
  in_u 32 (LTE_DocFreq e) /\ in_u 32 (LTE_IndexBlockID e) /\ in_u 16 (LTE_IndexOffset e) /\
  in_u 16 (LTE_IndexLength e) /\ in_u 16 (LTE_ContinuationBlockCount e) /\
  LTE_TermLength e = Z.of_nat (length (LTE_Term e)) /\ is_utf8 (LTE_Term e) = true.

Definition leaf_wf (b : LeafTermBlock) : Prop :=
  length (LTB_Directory b) = LEAF_TERM_DIRECTORY_COUNT /\ Forall (in_u 16) (LTB_Directory b) /\
  length (LTB_Data b) = LEAF_TERM_DATA_SIZE.

(** [b] holds the entry [e] at directory slot [i], data offset [off]. *)
Definition leaf_holds (b : LeafTermBlock) (i off : nat) (e : LeafTermEntry) : Prop :=
  directory b i = Z.of_nat (LEAF_TERM_DATA_OFFSET + off) /\
  off + byte_len e <= length (LTB_Data b) /\
  slice off (byte_len e) (LTB_Data b) = leaf_entry_bytes e.

Section leaf.
Lemma length_leaf_entry_bytes e : length (leaf_entry_bytes e) = byte_len e.
Proof. done. Qed.

Lemma leaf_entry_fields e rest :
  let bs := leaf_entry_bytes e ++ rest in
  slice 0 4 bs = le_bytes 4 (LTE_DocFreq e) /\ slice 4 4 bs = le_bytes 4 (LTE_IndexBlockID e) /\
  slice 8 2 bs = le_bytes 2 (LTE_IndexOffset e) /\ slice 10 2 bs = le_bytes 2 (LTE_IndexLength e) /\
  slice 12 2 bs = le_bytes 2 (LTE_ContinuationBlockCount e) /\
  nth 14 bs 0%Z = LTE_Flags e /\ nth 15 bs 0%Z = LTE_TermLength e /\
  slice 16 (length (LTE_Term e)) bs = LTE_Term e.
Proof. split_and!; try reflexivity. unfold slice. cbn -[take length]. by apply take_app_length. Qed.

(** What the entry decoder returns where an entry's bytes lie. *)
Lemma entry_holds b i off e :
  leaf_entry_wf e -> leaf_holds b i off e -> i < entry_count b -> entry b i = Some e.
Proof.
  intros (Hdf & Hib & Hio & Hil & Hcb & Htl & Hutf) (Hdir & Hfit & Hsl) Hi.
  unfold entry. rewrite Hdir, Nat2Z.id.
  replace (entry_count b <=? i) with false by (symmetry; apply Nat.leb_gt; lia).
  replace (_ <? LEAF_TERM_DATA_OFFSET) with false by (symmetry; apply Nat.ltb_ge; lia).
  replace (LEAF_TERM_DATA_OFFSET + off - LEAF_TERM_DATA_OFFSET) with off by lia.
  assert (Hdrop : drop off (LTB_Data b)
    = leaf_entry_bytes e ++ drop (byte_len e) (drop off (LTB_Data b))).
  { rewrite <- Hsl. unfold slice. by rewrite take_drop. }
  unfold byte_len in *.
  replace (_ <? off + LEAF_TERM_ENTRY_SIZE) with false by (symmetry; apply Nat.ltb_ge; lia).
  rewrite Hdrop. set (rest := drop _ (drop off _)). clearbody rest.
  destruct (leaf_entry_fields e rest) as (F1 & F2 & F3 & F4 & F5 & F6 & F7 & F8).
  unfold get. rewrite F1, F2, F3, F4, F5, F6, F7, Htl, Nat2Z.id, F8.
  replace (_ <? off + LEAF_TERM_ENTRY_SIZE + _) with false by (symmetry; apply Nat.ltb_ge; lia).
  unfold from_utf8. rewrite Hutf, !of_le_le_bytes_id by done. f_equal. rewrite <- Htl. by destruct e.
Qed.

Lemma write_data off e data :
  off + byte_len e <= length data ->
  LTB_Data (WriteLeafEntry {| LTB_Directory := []; LTB_Data := data |} 0 off e)
  = splice off (leaf_entry_bytes e) data.
Proof.
  intros Hfit. unfold byte_len, LEAF_TERM_ENTRY_SIZE in Hfit. cbn [WriteLeafEntry LTB_Data]. unfold put.
  rewrite Nat.add_0_r.
  rewrite (splice_splice off (off + 4)) by len_lia.
  rewrite (splice_splice off (off + 8)) by len_lia.
  rewrite (splice_splice off (off + 10)) by len_lia.
  rewrite (splice_splice off (off + 12)) by len_lia.
  rewrite (insert_splice (off + 14)) by (rewrite length_splice; len_lia).
  rewrite (splice_splice off (off + 14)) by len_lia.
  rewrite (insert_splice (off + 15)) by (rewrite length_splice; len_lia).
  rewrite (splice_splice off (off + 15)) by len_lia.
  rewrite (splice_splice off (off + 16)) by len_lia.
  unfold leaf_entry_bytes. by rewrite <- !app_assoc.
Qed.

Lemma directory_insert_ne b i j v data :
  i <> j -> directory {| LTB_Directory := <[i := v]> (LTB_Directory b); LTB_Data := data |} j = directory b j.
Proof. intros H. unfold directory. cbn. by rewrite !nth_lookup, list_lookup_insert_ne. Qed.

Lemma WriteLeafEntry_holds b i off e :
  leaf_wf b -> i < LEAF_TERM_DIRECTORY_COUNT -> off + byte_len e <= LEAF_TERM_DATA_SIZE ->
  leaf_holds (WriteLeafEntry b i off e) i off e.
Proof.
  intros (Hd & _ & Hl) Hi Hfit. unfold leaf_holds.
  assert (Hdata : LTB_Data (WriteLeafEntry b i off e) = splice off (leaf_entry_bytes e) (LTB_Data b))
    by (apply write_data; lia).
  rewrite Hdata. pose proof LEAF_TERM_DATA_SIZE_Z. unfold LEAF_TERM_DATA_OFFSET in *. split_and!.
  - unfold directory. cbn [WriteLeafEntry LTB_Directory]. rewrite nth_lookup, list_lookup_insert_eq by lia.
    cbn [from_option id]. apply wrap_small. unfold in_u, LEAF_TERM_DATA_OFFSET. unfold byte_len in Hfit. lia.
  - rewrite length_splice; rewrite ?length_leaf_entry_bytes; lia.
  - rewrite <- length_leaf_entry_bytes. apply slice_splice_same. lia.
Qed.

(** Writing one entry leaves the entries elsewhere in place. *)
Lemma WriteLeafEntry_frame b i off e j off' e' :
  leaf_wf b -> off + byte_len e <= LEAF_TERM_DATA_SIZE ->
  leaf_holds b j off' e' -> i <> j -> off' + byte_len e' <= off \/ off + byte_len e <= off' ->
  leaf_holds (WriteLeafEntry b i off e) j off' e'.
Proof.
  intros (Hd & _ & Hl) Hfit (Hdir & Hfit' & Hsl) Hij Hdisj. unfold leaf_holds.
  assert (Hdata : LTB_Data (WriteLeafEntry b i off e) = splice off (leaf_entry_bytes e) (LTB_Data b))
    by (apply write_data; lia).
  rewrite Hdata. pose proof (length_leaf_entry_bytes e). split_and!.
  - rewrite <- Hdir. by apply directory_insert_ne.
  - rewrite length_splice; lia.
  - rewrite <- Hsl. destruct Hdisj.
    + apply slice_splice_before; lia.
    + apply slice_splice_after; lia.
Qed.

Lemma WriteLeafEntry_wf b i off e :
  leaf_wf b -> off + byte_len e <= LEAF_TERM_DATA_SIZE -> leaf_wf (WriteLeafEntry b i off e).
Proof.
  intros (Hd & Hf & Hl) Hfit. unfold leaf_wf.
  assert (Hdata : LTB_Data (WriteLeafEntry b i off e) = splice off (leaf_entry_bytes e) (LTB_Data b))
    by (apply write_data; lia).
  rewrite Hdata. cbn [WriteLeafEntry LTB_Directory]. split_and!.
  - by rewrite length_insert.
  - apply Forall_insert; [done|]. by apply wrap_range.
  - rewrite length_splice; rewrite ?length_leaf_entry_bytes; lia.
Qed.

Lemma length_leaf_to_bytes b : leaf_wf b -> length (leaf_to_bytes b) = PAGE_SIZE.
Proof.
  intros (Hd & _ & Hl). unfold leaf_to_bytes.
  rewrite length_app, (length_concat_same _ 2) by (intros; apply length_le_bytes). by rewrite Hd, Hl.
Qed.

Lemma leaf_view_to b : leaf_wf b -> leaf_view (leaf_to_bytes b) = b.
Proof.
  intros (Hd & Hf & Hl). unfold leaf_view, leaf_to_bytes.
  assert (Hdl : length (concat (map (le_bytes 2) (LTB_Directory b))) = LEAF_TERM_DATA_OFFSET).
  { rewrite (length_concat_same _ 2) by (intros; apply length_le_bytes). by rewrite Hd. }
  unfold LEAF_TERM_DATA_OFFSET in *.
  assert (Hdir : map (fun i => get 2 (i * 2)
      (concat (map (le_bytes 2) (LTB_Directory b)) ++ LTB_Data b)) (seq 0 LEAF_TERM_DIRECTORY_COUNT)
    = LTB_Directory b).
  { apply list_eq. intros i. rewrite list_lookup_fmap.
    destruct (decide (i < LEAF_TERM_DIRECTORY_COUNT)) as [Hi|Hi].
    - rewrite lookup_seq_lt by done. cbn [fmap option_fmap option_map Nat.add].
      destruct (lookup_lt_is_Some_2 (LTB_Directory b) i ltac:(lia)) as [v Hv]. rewrite Hv. f_equal.
      unfold LEAF_TERM_DIRECTORY_COUNT in Hi.
      rewrite get_app_l by lia. unfold get.
      rewrite (slice_concat (le_bytes 2) 2 _ _ v) by (done || (intros; apply length_le_bytes)).
      apply of_le_le_bytes_id. by eapply Forall_lookup_1 in Hf.
    - rewrite lookup_seq_ge by lia. cbn. symmetry. apply lookup_ge_None_2. lia. }
  assert (Hdata : slice 322 LEAF_TERM_DATA_SIZE
      (concat (map (le_bytes 2) (LTB_Directory b)) ++ LTB_Data b) = LTB_Data b).
  { rewrite <- Hl, slice_app_r, Hdl by lia. cbn [Nat.sub]. apply slice_full. }
  rewrite Hdir, Hdata. by destruct b.
Qed.

Lemma leaf_from_to b :
  leaf_wf b -> (directory b (LEAF_TERM_DIRECTORY_COUNT - 1) <= Z.of_nat (LEAF_TERM_DIRECTORY_COUNT - 1))%Z ->
  (forall i, i < entry_count b -> is_Some (entry b i)) ->
  leaf_from_bytes (leaf_to_bytes b) = Some b.
Proof.
  intros Hb Hc He. unfold leaf_from_bytes. rewrite length_leaf_to_bytes, leaf_view_to, Nat.ltb_irrefl by done.
  case_test. replace (forallb _ _) with true; [done|]. symmetry. apply forallb_forall.
  intros i Hi. apply list_elem_of_In, elem_of_seq in Hi. apply bool_decide_eq_true_2, He. lia.
Qed.
End leaf.

(** * Properties *)

(** file header round trip: parsing the bytes of a v20 header, whatever follows them in the
    file, gives the header back; and a header is parsed only from its own 136 bytes. *)
Theorem header_roundtrip h rest data h' :
  (header_wf h -> header_parse (header_to_bytes h ++ rest) = Ok h) /\
  (is_bytes data -> header_parse data = Ok h' ->
   header_wf h' /\ INDEX_FILE_HEADER_SIZE <= length data /\
   header_to_bytes h' = take INDEX_FILE_HEADER_SIZE data).
Proof. split; [apply header_parse_to_bytes|apply header_parse_inv]. Qed.

(** validate_layout accepts exactly the headers whose seven sections follow the sidecar
    one after the other, without gap, overlap or u64 overflow, inside the file, with consistent
    section counts; it returns where the last one ends. *)
Theorem validate_layout_spec h fb end_ :
  Forall (in_u 64) (header_fields h) ->
  validate_layout h fb = Ok end_ <->
  layout_counts_bad h = false /\ contiguous (136 + 20 * 4096) (sections h) end_ /\
  (end_ < 2 ^ 64)%Z /\ (forall b, fb = Some b -> (end_ <= b)%Z).
Proof. apply validate_layout_iff. Qed.

(** in a file whose layout is accepted, every section lies inside the file and no two
    sections overlap. *)
Theorem validate_layout_safe h size end_ i j oi ni oj nj :
  Forall (in_u 64) (header_fields h) -> validate_layout h (Some size) = Ok end_ ->
  sections h !! i = Some (oi, ni) -> sections h !! j = Some (oj, nj) -> i < j ->
  (136 + 20 * 4096 <= oi /\ oi + ni <= oj /\ oj + nj <= size)%Z.
Proof.
  intros Hf Hv Hi Hj Hij. apply validate_layout_iff in Hv as (_ & Hc & _ & Hb); [|done].
  specialize (Hb size eq_refl).
  assert (Hn : Forall (fun s => 0 <= s.2)%Z (sections h)).
  { unfold header_fields in Hf. rewrite !Forall_cons in Hf. unfold in_u in Hf.
    unfold sections. repeat constructor; cbn; lia. }
  pose proof (contiguous_bounds _ _ _ oi ni Hc Hn (list_elem_of_lookup_2 _ _ _ Hi)).
  pose proof (contiguous_bounds _ _ _ oj nj Hc Hn (list_elem_of_lookup_2 _ _ _ Hj)).
  pose proof (contiguous_disjoint _ _ _ i j _ _ _ _ Hc Hn Hij Hi Hj). lia.
Qed.

(** a leaf page written by to_bytes is read back by from_bytes, which checks the entry
    count and every entry. *)
Theorem leaf_roundtrip b :
  leaf_wf b ->
  (directory b (LEAF_TERM_DIRECTORY_COUNT - 1) <= Z.of_nat (LEAF_TERM_DIRECTORY_COUNT - 1))%Z ->
  (forall i, i < entry_count b -> is_Some (entry b i)) ->
  leaf_from_bytes (leaf_to_bytes b) = Some b.
Proof. apply leaf_from_to. Qed.

(** an entry written into a leaf block is decoded as written, and entries at other slots
    and other byte ranges still are. *)
Theorem WriteLeafEntry_spec b i off e :
  leaf_wf b -> leaf_entry_wf e -> i < LEAF_TERM_DIRECTORY_COUNT ->
  off + byte_len e <= LEAF_TERM_DATA_SIZE ->
  let b' := WriteLeafEntry b i off e in
  leaf_wf b' /\
  (i < entry_count b' -> entry b' i = Some e) /\
  (forall j off' e', leaf_entry_wf e' -> leaf_holds b j off' e' -> i <> j ->
     off' + byte_len e' <= off \/ off + byte_len e <= off' ->
     j < entry_count b' -> entry b' j = Some e').
Proof.
  intros Hb He Hi Hfit b'. split_and!.
  - by apply WriteLeafEntry_wf.
  - intros Hc. apply (entry_holds b' i off e); [done| |done]. by apply WriteLeafEntry_holds.
  - intros j off' e' He' Hh Hne Hd Hc. apply (entry_holds b' j off' e'); [done| |done].
    by apply WriteLeafEntry_frame.
Qed.

Definition mphf_header_wf (h : TermMphfHeader) : Prop :=
  in_u 64 (TMH_Magic h) /\ in_u 64 (TMH_TermCount h) /\ in_u 32 (TMH_BucketCount h) /\
  in_u 32 (TMH_SlotCount h) /\ in_u 64 (TMH_BucketSeed h) /\ in_u 64 (TMH_SlotSeed h) /\
  in_u 64 (TMH_FingerprintSeed h).

Definition head_wf (e : HeadTermEntry) : Prop :=
  in_u 32 (HTE_LeafTermBlockID e) /\ (0 <= HTE_FirstTermLength e <= 26)%Z /\
  length (HTE_FirstTerm e) = 26.

Section small_codecs.
Lemma mphf_header_from_to h :
  mphf_header_wf h -> mphf_header_from_bytes (mphf_header_to_bytes h) = Some h.
Proof.
  intros (A1 & A2 & A3 & A4 & A5 & A6 & A7).
  assert (Hb : mphf_header_to_bytes h = le_bytes 8 (TMH_Magic h) ++ le_bytes 8 (TMH_TermCount h)
    ++ le_bytes 4 (TMH_BucketCount h) ++ le_bytes 4 (TMH_SlotCount h) ++ le_bytes 8 (TMH_BucketSeed h)
    ++ le_bytes 8 (TMH_SlotSeed h) ++ le_bytes 8 (TMH_FingerprintSeed h)) by done.
  unfold mphf_header_from_bytes. rewrite Hb.
  match goal with |- context [?l <? ?n] => change (l <? n) with false end.
  unfold get. f_equal. destruct h; f_equal;
    [exact (of_le_le_bytes_id 8 _ A1)|exact (of_le_le_bytes_id 8 _ A2)|exact (of_le_le_bytes_id 4 _ A3)
    |exact (of_le_le_bytes_id 4 _ A4)|exact (of_le_le_bytes_id 8 _ A5)|exact (of_le_le_bytes_id 8 _ A6)
    |exact (of_le_le_bytes_id 8 _ A7)].
Qed.

Lemma head_from_to e : head_wf e -> head_from_bytes (head_to_bytes e) = Some e.
Proof.
  intros (Hid & Hlen & Hft).
  assert (Hb : head_to_bytes e = le_bytes 4 (HTE_LeafTermBlockID e) ++ le_bytes 2 (HTE_FirstTermLength e)
    ++ HTE_FirstTerm e).
  { unfold head_to_bytes, splice. rewrite Hft. cbn -[le_bytes app]. by rewrite app_nil_r. }
  assert (Hl : length (head_to_bytes e) = 32) by (rewrite Hb, !length_app, Hft; done).
  unfold head_from_bytes. rewrite Hl. cbn [Nat.ltb Nat.leb]. unfold get.
  assert (H1 : slice 4 2 (head_to_bytes e) = le_bytes 2 (HTE_FirstTermLength e)) by by rewrite Hb.
  assert (H2 : slice 0 4 (head_to_bytes e) = le_bytes 4 (HTE_LeafTermBlockID e)) by by rewrite Hb.
  assert (H3 : slice 6 26 (head_to_bytes e) = HTE_FirstTerm e).
  { rewrite Hb, app_assoc, slice_app_r by (rewrite length_app, !length_le_bytes; done).
    rewrite length_app, !length_le_bytes. cbn [Nat.add Nat.sub]. rewrite <- Hft at 1. apply slice_full. }
  rewrite H1, H2, H3, !of_le_le_bytes_id by (done || unfold in_u; lia).
  unfold HEAD_TERM_KEY_MAX. case_test. by destruct e.
Qed.

Lemma continuation_from_write h data :
  in_u 64 (IBCH_MaxDocID h) -> in_u 32 (IBCH_DataLength h) -> 12 <= length data ->
  continuation_from_bytes (continuation_write_to h data) = Some h.
Proof.
  intros H1 H2 Hd. unfold continuation_from_bytes, continuation_write_to.
  assert (L1 : length (put 8 0 (IBCH_MaxDocID h) data) = length data) by (apply length_put; lia).
  rewrite length_put, L1 by lia. unfold INDEX_BLOCK_CONTINUATION_HEADER_SIZE. case_test.
  rewrite get_put_same by (done || lia). f_equal. destruct h; cbn in *. f_equal.
  unfold get, put at 1. rewrite slice_splice_before by (rewrite ?length_le_bytes; lia).
  apply (get_put_same 8 0); [lia|done].
Qed.
End small_codecs.

(** the term MPHF header, the head term entry and the continuation header of an index page
    are read back as written. *)
Theorem small_records_roundtrip mh he ch data :
  (mphf_header_wf mh -> mphf_header_from_bytes (mphf_header_to_bytes mh) = Some mh) /\
  (head_wf he -> head_from_bytes (head_to_bytes he) = Some he) /\
  (in_u 64 (IBCH_MaxDocID ch) -> in_u 32 (IBCH_DataLength ch) -> 12 <= length data ->
   continuation_from_bytes (continuation_write_to ch data) = Some ch).
Proof.
  split_and!; [apply mphf_header_from_to|apply head_from_to|apply continuation_from_write].
Qed.

(** * Witnesses: the properties at concrete inputs *)

Lemma header_roundtrip_witness : header_parse (header_to_bytes header_default ++ [1; 2]%Z) = Ok header_default.
Proof.
  apply (header_roundtrip header_default [1; 2]%Z [] header_default).
  split; [reflexivity|split; [reflexivity|split; [by vm_compute|]]].
  repeat constructor; cbn; lia.
Defined.

(** The header of an index with one page of everything: the sections follow each other. *)
Definition sample_header : IndexFileHeader :=
  header_of INDEX_FILE_MAGIC INDEX_FORMAT_VERSION 0 (fun i => nth i
    [1; 1; 82056; 1; 82088; 1; 86184; 86440; 1; 90536; 0; 90536; 0; 90536; 0]%Z 0%Z).

Lemma sample_header_fields : Forall (in_u 64) (header_fields sample_header).
Proof. repeat constructor; cbn; lia. Defined.

Lemma validate_layout_spec_witness : contiguous (136 + 20 * 4096) (sections sample_header) 90536.
Proof.
  destruct (validate_layout_spec sample_header (Some 90536%Z) 90536 sample_header_fields) as [Hspec _].
  destruct Hspec as (_ & Hc & _); [vm_compute; reflexivity|exact Hc].
Defined.

Lemma validate_layout_safe_witness : (136 + 20 * 4096 <= 82088 /\ 82088 + 4096 <= 86440 /\ 86440 + 4096 <= 90536)%Z.
Proof.
  apply (validate_layout_safe sample_header 90536 90536 1 3 82088 4096 86440 4096 sample_header_fields);
    [vm_compute; reflexivity|reflexivity|reflexivity|lia].
Defined.

Definition sample_entry : LeafTermEntry :=
  {| LTE_DocFreq := 2; LTE_IndexBlockID := 0; LTE_IndexOffset := 7; LTE_IndexLength := 5;
     LTE_ContinuationBlockCount := 0; LTE_Flags := 0; LTE_TermLength := 2; LTE_Term := [97; 84]%Z |}.

Lemma leaf_default_wf : leaf_wf leaf_default.
Proof.
  split_and!; [apply length_replicate| |apply length_replicate].
  apply Forall_replicate. unfold in_u. lia.
Qed.

Lemma leaf_roundtrip_witness : leaf_from_bytes (leaf_to_bytes leaf_default) = Some leaf_default.
Proof.
  apply (leaf_roundtrip leaf_default leaf_default_wf); [vm_compute; discriminate|].
  intros i Hi. vm_compute in Hi. lia.
Defined.

Lemma WriteLeafEntry_spec_witness : leaf_wf (WriteLeafEntry leaf_default 0 3 sample_entry).
Proof.
  apply (WriteLeafEntry_spec leaf_default 0 3 sample_entry leaf_default_wf).
  - split_and!; by vm_compute.
  - vm_compute. lia.
  - vm_compute. lia.
Defined.
