(* ===== verification/BlockCache.v ===== *)
(** The page cache of the block table (BlockTable.rs: BlockCachePool and its
    users): slots of pinned memory, the table from blocks to slots, the eviction
    clock, and reads in direct, worker and sequential mode. This file has the code
    and what it does when one thread uses the cache; CacheSteps interleaves
    threads. *)

From Stdlib Require Import ZArith Lia ZifyBool Bool List.
From stdpp Require Import base list list_numbers.
From S2P Require Import Prelude FileAccess FileFormat.

Local Open Scope moon_scope.

Record IndexSlotEntry := { BlockID : Z; Ref : Z; Loading : bool }.

Definition slot_default : IndexSlotEntry := {| BlockID := u32_max; Ref := 0; Loading := false |}.

(** [BCP_Pages] is one allocation; slot [i] is its [i]-th page. *)
Record BlockCacheState := {
  BCP_Pages : option bytes;
  BCP_BaseOffset : Z;
  BCP_TotalBlockCount : Z;
  BCP_SlotCount : Z;
  BCP_EvictSlot : Z;
  BCP_LogicTable : option (list Z);
  BCP_SlotTable : option (list IndexSlotEntry);
  BCP_File : option FileAccess;
}.

Definition cache_new : BlockCacheState :=
  {| BCP_Pages := None; BCP_BaseOffset := 0; BCP_TotalBlockCount := 0; BCP_SlotCount := 0; BCP_EvictSlot := 0;
     BCP_LogicTable := None; BCP_SlotTable := None; BCP_File := None |}.

Record BlockAccessStats := {
  DirectGets : Z; DirectReleases : Z; WorkerGets : Z; WorkerReleases : Z;
  CacheHits : Z; CacheMisses : Z; DiskReads : Z;
}.

Definition count_hit (c : BlockAccessStats) : BlockAccessStats :=
  {| DirectGets := DirectGets c; DirectReleases := DirectReleases c; WorkerGets := WorkerGets c;
     WorkerReleases := WorkerReleases c; CacheHits := wrapping_add 64 (CacheHits c) 1;
     CacheMisses := CacheMisses c; DiskReads := DiskReads c |}.
Definition count_miss (c : BlockAccessStats) : BlockAccessStats :=
  {| DirectGets := DirectGets c; DirectReleases := DirectReleases c; WorkerGets := WorkerGets c;
     WorkerReleases := WorkerReleases c; CacheHits := CacheHits c;
     CacheMisses := wrapping_add 64 (CacheMisses c) 1; DiskReads := DiskReads c |}.
Definition count_disk_read (c : BlockAccessStats) : BlockAccessStats :=
  {| DirectGets := DirectGets c; DirectReleases := DirectReleases c; WorkerGets := WorkerGets c;
     WorkerReleases := WorkerReleases c; CacheHits := CacheHits c; CacheMisses := CacheMisses c;
     DiskReads := wrapping_add 64 (DiskReads c) 1 |}.
Definition count_direct_get (c : BlockAccessStats) : BlockAccessStats :=
  {| DirectGets := wrapping_add 64 (DirectGets c) 1; DirectReleases := DirectReleases c; WorkerGets := WorkerGets c;
     WorkerReleases := WorkerReleases c; CacheHits := CacheHits c; CacheMisses := CacheMisses c;
     DiskReads := DiskReads c |}.

Definition count_worker_get (c : BlockAccessStats) : BlockAccessStats :=
  {| DirectGets := DirectGets c; DirectReleases := DirectReleases c; WorkerGets := wrapping_add 64 (WorkerGets c) 1;
     WorkerReleases := WorkerReleases c; CacheHits := CacheHits c; CacheMisses := CacheMisses c;
     DiskReads := DiskReads c |}.

Inductive BlockReleaseMode := Sequential | Direct | Worker.

Definition count_release (mode : BlockReleaseMode) (c : BlockAccessStats) : BlockAccessStats :=
  {| DirectGets := DirectGets c;
     DirectReleases := match mode with Direct => wrapping_add 64 (DirectReleases c) 1 | _ => DirectReleases c end;
     WorkerGets := WorkerGets c;
     WorkerReleases := match mode with Worker => wrapping_add 64 (WorkerReleases c) 1 | _ => WorkerReleases c end;
     CacheHits := CacheHits c; CacheMisses := CacheMisses c; DiskReads := DiskReads c |}.

(** * Slots and tables

    An index outside a table is a panic, [None]. *)

Definition set_at {A} (i : Z) (x : A) (l : list A) : option (list A) :=
  if Z.to_nat i <? length l then Some (<[Z.to_nat i := x]> l) else None.

Definition slot_page (pages : bytes) (slot : Z) : bytes := slice (Z.to_nat slot * PAGE_SIZE) PAGE_SIZE pages.

Definition set_tables (s : BlockCacheState) (logic : list Z) (slots : list IndexSlotEntry) (evict : Z)
  : BlockCacheState :=
  {| BCP_Pages := BCP_Pages s; BCP_BaseOffset := BCP_BaseOffset s; BCP_TotalBlockCount := BCP_TotalBlockCount s;
     BCP_SlotCount := BCP_SlotCount s; BCP_EvictSlot := evict; BCP_LogicTable := Some logic;
     BCP_SlotTable := Some slots; BCP_File := BCP_File s |}.

Definition set_pages (s : BlockCacheState) (pages : bytes) (file : option FileAccess) : BlockCacheState :=
  {| BCP_Pages := Some pages; BCP_BaseOffset := BCP_BaseOffset s; BCP_TotalBlockCount := BCP_TotalBlockCount s;
     BCP_SlotCount := BCP_SlotCount s; BCP_EvictSlot := BCP_EvictSlot s; BCP_LogicTable := BCP_LogicTable s;
     BCP_SlotTable := BCP_SlotTable s; BCP_File := file |}.

Definition pinned (e : IndexSlotEntry) : IndexSlotEntry :=
  {| BlockID := BlockID e; Ref := wrapping_add 32 (Ref e) 1; Loading := Loading e |}.

Definition unpinned (e : IndexSlotEntry) : IndexSlotEntry :=
  {| BlockID := BlockID e; Ref := Ref e - 1; Loading := Loading e |}.

Definition taken (blockSeq : Z) : IndexSlotEntry := {| BlockID := blockSeq; Ref := 1; Loading := true |}.

Definition loaded (e : IndexSlotEntry) : IndexSlotEntry := {| BlockID := BlockID e; Ref := Ref e; Loading := false |}.

(** What the tables say of a block. *)
Inductive Lookup := Missing | Ready (slot : Z) | Busy.

Definition look_up (s : BlockCacheState) (logic : list Z) (slots : list IndexSlotEntry) (blockSeq : Z)
  : option Lookup :=
  opt slot := logic !! Z.to_nat blockSeq in
  if (slot =? u32_max)%Z || (BCP_SlotCount s <=? slot)%Z then Some Missing
  else
    opt e := slots !! Z.to_nat slot in
    Some (if Loading e then Busy else if (BlockID e =? blockSeq)%Z then Ready slot else Missing).

Definition pin (s : BlockCacheState) (logic : list Z) (slots : list IndexSlotEntry) (slot : Z)
  : option BlockCacheState :=
  opt e := slots !! Z.to_nat slot in
  opt slots := set_at slot (pinned e) slots in
  Some (set_tables s logic slots (BCP_EvictSlot s)).

(** The eviction clock, over [fuel] candidates. *)
Fixpoint find_slot (fuel : nat) (slots : list IndexSlotEntry) (count evict : Z) : option (Z * option Z) :=
  match fuel with
  | O => Some (evict, None)
  | S fuel' =>
      let candidate := (evict mod count)%Z in
      let evict := wrapping_add 32 evict 1 in
      opt e := slots !! Z.to_nat candidate in
      if (Ref e =? 0)%Z && negb (Loading e) then Some (evict, Some candidate)
      else find_slot fuel' slots count evict
  end.

(** * ProcessGetBlockLocked

    Its first critical section finds the block ([Pinned]), must wait for another
    thread's load ([MustWait]), gives up ([Refused]), or takes over a slot
    ([Claimed]). *)
Inductive Claim := Refused | Pinned (slot : Z) | MustWait | Claimed (found : Z).

Definition take_slot (s : BlockCacheState) (logic : list Z) (slots : list IndexSlotEntry) (evict blockSeq found : Z)
  : option BlockCacheState :=
  opt old := slots !! Z.to_nat found in
  opt logic := if (BlockID old =? u32_max)%Z then Some logic else set_at (BlockID old) u32_max logic in
  opt slots := set_at found (taken blockSeq) slots in
  opt logic := set_at blockSeq found logic in
  Some (set_tables s logic slots evict).

Definition claim_block (s : BlockCacheState) (c : BlockAccessStats) (blockSeq : Z)
  : option (BlockCacheState * BlockAccessStats * Claim) :=
  match BCP_Pages s, BCP_LogicTable s, BCP_SlotTable s with
  | Some _, Some logic, Some slots =>
      if (BCP_TotalBlockCount s <=? blockSeq)%Z || (BCP_SlotCount s =? 0)%Z then Some (s, c, Refused)
      else
        opt l := look_up s logic slots blockSeq in
        match l with
        | Busy => Some (s, c, MustWait)
        | Ready slot => opt s := pin s logic slots slot in Some (s, count_hit c, Pinned slot)
        | Missing =>
            let c := count_miss c in
            opt ef := find_slot (Z.to_nat (BCP_SlotCount s)) slots (BCP_SlotCount s) (BCP_EvictSlot s) in
            match ef with
            | (evict, None) => Some (set_tables s logic slots evict, c, Refused)
            | (evict, Some found) =>
                opt s := take_slot s logic slots evict blockSeq found in Some (s, c, Claimed found)
            end
        end
  | _, _, _ => Some (s, c, Refused)
  end.

(** The read into the claimed slot, outside the lock. *)
Definition read_slot (s : BlockCacheState) (blockSeq found : Z) : bool * BlockCacheState :=
  match BCP_File s, BCP_Pages s with
  | Some file, Some pages =>
      let '(ok, page) := ReadBlock file blockSeq (slot_page pages found) PAGE_SIZE (BCP_BaseOffset s) in
      (ok, set_pages s (splice (Z.to_nat found * PAGE_SIZE) page pages) (Some file))
  | _, _ => (false, s)
  end.

(** The second critical section. *)
Definition publish (s : BlockCacheState) (blockSeq found : Z) (ok : bool) : option BlockCacheState :=
  match BCP_LogicTable s, BCP_SlotTable s with
  | Some logic, Some slots =>
      if ok then
        if (found <? BCP_SlotCount s)%Z then
          opt e := slots !! Z.to_nat found in
          opt slots := set_at found (loaded e) slots in
          Some (set_tables s logic slots (BCP_EvictSlot s))
        else Some s
      else
        opt logic :=
          if (blockSeq <? BCP_TotalBlockCount s)%Z then
            opt slot := logic !! Z.to_nat blockSeq in
            if (slot =? found)%Z then set_at blockSeq u32_max logic else Some logic
          else Some logic in
        opt slots := if (found <? BCP_SlotCount s)%Z then set_at found slot_default slots else Some slots in
        Some (set_tables s logic slots (BCP_EvictSlot s))
  | _, _ => None
  end.

(** The whole call, where no other thread loads. *)
Definition ProcessGetBlock (s : BlockCacheState) (c : BlockAccessStats) (blockSeq : Z)
  : option (BlockCacheState * BlockAccessStats * Claim) :=
  opt r := claim_block s c blockSeq in
  match r with
  | (s, c, Claimed found) =>
      let '(ok, s) := read_slot s blockSeq found in
      let c := if ok then count_disk_read c else c in
      opt s := publish s blockSeq found ok in
      Some (s, c, if ok then Pinned found else Refused)
  | r => Some r
  end.

(** TryPinReadyOrWait; [Refused] is its [None]. *)
Definition try_pin (s : BlockCacheState) (c : BlockAccessStats) (blockSeq : Z)
  : option (BlockCacheState * BlockAccessStats * Claim) :=
  if (BCP_TotalBlockCount s <=? blockSeq)%Z then Some (s, c, Refused)
  else
    match BCP_LogicTable s, BCP_SlotTable s with
    | Some logic, Some slots =>
        opt l := look_up s logic slots blockSeq in
        match l with
        | Missing => Some (s, c, Refused)
        | Busy => Some (s, c, MustWait)
        | Ready slot => opt s := pin s logic slots slot in Some (s, count_hit c, Pinned slot)
        end
    | _, _ => Some (s, c, Refused)
    end.

(** * Sequential mode *)

(** The tables of an emptied cache. *)
Definition forget_blocks (logic : list Z) (slots : list IndexSlotEntry) : option (list Z) :=
  fold_option (fun logic e => if (BlockID e =? u32_max)%Z then Some logic else set_at (BlockID e) u32_max logic)
    slots logic.

(** The [for offset in 0..blockCount] loop, from [offset] on. *)
Fixpoint fill_window (n : nat) (offset startBlock : Z) (logic : list Z) (slots : list IndexSlotEntry)
  : option (list Z * list IndexSlotEntry) :=
  match n with
  | O => Some (logic, slots)
  | S n' =>
      let block := (startBlock + offset)%Z in
      opt slots := set_at offset {| BlockID := block; Ref := 0; Loading := false |} slots in
      opt logic := set_at block offset logic in
      fill_window n' (offset + 1) startBlock logic slots
  end.

Definition LoadSequentialWindow (s : BlockCacheState) (startBlock : Z) : option (BlockCacheState * bool) :=
  match BCP_File s, BCP_Pages s, BCP_LogicTable s, BCP_SlotTable s with
  | Some file, Some pages, Some logic, Some slots =>
      if (BCP_TotalBlockCount s <=? startBlock)%Z || (BCP_SlotCount s =? 0)%Z then Some (s, false)
      else if existsb (fun e => 0 <? Ref e)%Z slots then Some (s, false)
      else
        opt logic := forget_blocks logic slots in
        let slots := map (fun _ => slot_default) slots in
        let s := set_tables s logic slots (BCP_EvictSlot s) in
        let blockCount := Z.min (BCP_SlotCount s) (BCP_TotalBlockCount s - startBlock) in
        let bytes := (blockCount * Z.of_nat PAGE_SIZE)%Z in
        if (2 ^ 31 - 1 <? bytes)%Z then Some (s, false)
        else
          let '(file, ok) := SetPosition file (BCP_BaseOffset s + startBlock * Z.of_nat PAGE_SIZE) in
          if negb ok then Some (set_pages s pages (Some file), false)
          else
            let '(file, count, data) := GetData file (take (Z.to_nat bytes) pages) bytes in
            let s := set_pages s (data ++ drop (Z.to_nat bytes) pages) (Some file) in
            if negb (count =? bytes)%Z then Some (s, false)
            else
              opt tables := fill_window (Z.to_nat blockCount) 0 startBlock logic slots in
              let s := set_tables s tables.1 tables.2 blockCount in
              opt slot := tables.1 !! Z.to_nat startBlock in
              Some (s, negb (slot =? u32_max)%Z)
  | _, _, _, _ => Some (s, false)
  end.

(** The slot table says [slot] is the block's, ready or not. *)
Definition resident_slot (s : BlockCacheState) (blockSeq : Z) : option (option Z) :=
  match BCP_Pages s, BCP_LogicTable s, BCP_SlotTable s with
  | Some _, Some logic, Some _ =>
      if (blockSeq <? BCP_TotalBlockCount s)%Z then
        opt slot := logic !! Z.to_nat blockSeq in
        Some (if negb (slot =? u32_max)%Z && (slot <? BCP_SlotCount s)%Z then Some slot else None)
      else Some None
  | _, _, _ => Some None
  end.

Definition pin_slot (s : BlockCacheState) (slot : Z) : option BlockCacheState :=
  match BCP_LogicTable s, BCP_SlotTable s with
  | Some logic, Some slots => pin s logic slots slot
  | _, _ => None
  end.

Definition get_sequential (s : BlockCacheState) (blockSeq : Z) : option (BlockCacheState * Claim) :=
  opt hit := resident_slot s blockSeq in
  match hit with
  | Some slot => opt s := pin_slot s slot in Some (s, Pinned slot)
  | None =>
      opt w := LoadSequentialWindow s blockSeq in
      if negb w.2 then Some (w.1, Refused)
      else
        opt logic := BCP_LogicTable w.1 in
        opt slot := logic !! Z.to_nat blockSeq in
        opt s := pin_slot w.1 slot in
        Some (s, Pinned slot)
  end.

(** * GetBlock on the pool of a kind; [direct] is [m_DirectBlockAccess] *)
Definition cache_GetBlock (s : BlockCacheState) (c : BlockAccessStats) (direct : bool) (blockSeq : Z)
    (sequential : bool) : option (BlockCacheState * BlockAccessStats * Claim) :=
  if sequential then opt r := get_sequential s blockSeq in Some (r.1, c, r.2)
  else if direct then ProcessGetBlock s (count_direct_get c) blockSeq
  else
    opt r := try_pin s c blockSeq in
    match r with
    | (s, c, Refused) => ProcessGetBlock s (count_worker_get c) blockSeq
    | r => Some r
    end.

(** BlockHandle::drop, the part under the lock. *)
Definition release (s : BlockCacheState) (slot : Z) : option BlockCacheState :=
  match BCP_LogicTable s, BCP_SlotTable s with
  | Some logic, Some slots =>
      if (slot <? BCP_SlotCount s)%Z then
        opt e := slots !! Z.to_nat slot in
        if (0 <? Ref e)%Z then
          opt slots := set_at slot (unpinned e) slots in
          Some (set_tables s logic slots (BCP_EvictSlot s))
        else Some s
      else Some s
  | _, _ => Some s
  end.

(** * Setting a pool up *)

(** IndexBlockTable::Init on the pool of a kind. [opened] is what opening the path
    gave, [None] without a path; on an error the pool keeps what was set. *)
Definition cache_Init (opened : option (option OsFile)) (baseOffset blockCount slotCount : Z)
  : BlockCacheState * result unit :=
  let count := Z.min slotCount blockCount in
  let s := {| BCP_Pages := None; BCP_BaseOffset := baseOffset; BCP_TotalBlockCount := blockCount;
              BCP_SlotCount := count; BCP_EvictSlot := count; BCP_LogicTable := None; BCP_SlotTable := None;
              BCP_File := None |} in
  match opened with
  | Some None => (s, Err Io)
  | _ =>
      let file := match opened with Some file => Some (fa_Init fa_new file).1 | None => None end in
      let byte_count := Z.to_nat count * PAGE_SIZE in
      let pages := zeros byte_count in
      let slots := replicate (Z.to_nat count) slot_default in
      let logic := replicate (Z.to_nat blockCount) u32_max in
      let s := set_tables (set_pages s pages file) logic slots count in
      if (0 <? count)%Z then
        match file with
        | None => (s, Err Io)
        | Some file =>
            let '(ok, pages) := ReadBlock file 0 pages byte_count baseOffset in
            let s := set_pages s pages (Some file) in
            if ok then
              (set_tables s (imap (fun i _ => if i <? Z.to_nat count then Z.of_nat i else u32_max) logic)
                 (imap (fun i _ => {| BlockID := Z.of_nat i; Ref := 0; Loading := false |}) slots) count, Ok tt)
            else (s, Err Io)
        end
      else (s, Ok tt)
  end.

Definition SetPoolMemory (blocks : option (list bytes)) : BlockCacheState :=
  match blocks with
  | None => cache_new
  | Some blocks =>
      let n := wrap 32 (Z.of_nat (length blocks)) in
      {| BCP_Pages := Some (concat blocks); BCP_BaseOffset := 0; BCP_TotalBlockCount := n; BCP_SlotCount := n;
         BCP_EvictSlot := n; BCP_LogicTable := Some (map Z.of_nat (seq 0 (Z.to_nat n)));
         BCP_SlotTable := Some (map (fun i => {| BlockID := Z.of_nat i; Ref := 0; Loading := false |}) (seq 0 (Z.to_nat n)));
         BCP_File := None |}
  end.

Definition CopyPoolBlocks (s : BlockCacheState) : list bytes :=
  match BCP_Pages s with
  | None => []
  | Some pages =>
      map (fun i => slot_page pages (Z.of_nat i)) (seq 0 (Z.to_nat (Z.min (BCP_TotalBlockCount s) (BCP_SlotCount s))))
  end.

(** * The cache's invariant

    A handle or a load is a pair of a block and the slot it is in; [uses i l] counts
    those in slot [i]. *)

Definition uses (i : nat) (l : list (Z * Z)) : nat := length (List.filter (fun h => (h.2 =? Z.of_nat i)%Z) l).

Record tables_ok (total count : Z) (logic : list Z) (slots : list IndexSlotEntry) : Prop := {
  tok_count : (0 <= count <= total)%Z;
  tok_total : (total <= u32_max)%Z;
  tok_logic : Z.of_nat (length logic) = total;
  tok_slots : Z.of_nat (length slots) = count;
  tok_block : forall b i, logic !! b = Some i -> i <> u32_max ->
    exists e, (0 <= i)%Z /\ slots !! Z.to_nat i = Some e /\ BlockID e = Z.of_nat b;
  tok_slot : forall i e, slots !! i = Some e -> BlockID e <> u32_max ->
    (0 <= BlockID e)%Z /\ logic !! Z.to_nat (BlockID e) = Some (Z.of_nat i);
}.

(** The pin count of a slot is the number of its handles and loads; a slot being
    loaded has one load and no handle. *)
Record pins_ok (slots : list IndexSlotEntry) (handles loads : list (Z * Z)) : Prop := {
  pok_few : (Z.of_nat (length handles + length loads) < 2 ^ 32)%Z;
  pok_ref : forall i e, slots !! i = Some e -> Ref e = Z.of_nat (uses i handles + uses i loads);
  pok_loading : forall i e, slots !! i = Some e ->
    if Loading e then uses i handles = 0 /\ uses i loads = 1 else uses i loads = 0;
  pok_block : forall h, h ∈ handles \/ h ∈ loads ->
    exists e, (0 <= h.2)%Z /\ slots !! Z.to_nat h.2 = Some e /\ BlockID e = h.1 /\ h.1 <> u32_max;
}.

(** Every slot that holds a block and is not being loaded has the block's page. *)
Record pages_ok (disk : Z -> bytes) (pages : bytes) (slots : list IndexSlotEntry) : Prop := {
  gok_length : length pages = length slots * PAGE_SIZE;
  gok_page : forall i e, slots !! i = Some e -> BlockID e <> u32_max -> Loading e = false ->
    slot_page pages (Z.of_nat i) = disk (BlockID e);
}.

Definition cache_ok (disk : Z -> bytes) (s : BlockCacheState) (handles loads : list (Z * Z)) : Prop :=
  exists pages logic slots, BCP_Pages s = Some pages /\ BCP_LogicTable s = Some logic /\ BCP_SlotTable s = Some slots /\
    tables_ok (BCP_TotalBlockCount s) (BCP_SlotCount s) logic slots /\ pins_ok slots handles loads /\
    pages_ok disk pages slots.

(** The blocks of the file behind a pool. *)
Definition file_block (content : bytes) (base b : Z) : bytes :=
  slice (Z.to_nat (base + b * Z.of_nat PAGE_SIZE)) PAGE_SIZE content.

Definition backed (disk : Z -> bytes) (s : BlockCacheState) : Prop :=
  forall fa, BCP_File s = Some fa ->
    exists file content, m_FileHandle fa = Some file /\ file_holds file content /\ (0 <= BCP_BaseOffset s)%Z /\
      (BCP_BaseOffset s + BCP_TotalBlockCount s * Z.of_nat PAGE_SIZE < 2 ^ 63)%Z /\
      forall b, (0 <= b)%Z -> disk b = file_block content (BCP_BaseOffset s) b.

(** Two states of one pool with the same pages. *)
Definition same_store (s s' : BlockCacheState) : Prop :=
  BCP_Pages s' = BCP_Pages s /\ BCP_File s' = BCP_File s /\ BCP_BaseOffset s' = BCP_BaseOffset s /\
  BCP_TotalBlockCount s' = BCP_TotalBlockCount s /\ BCP_SlotCount s' = BCP_SlotCount s.

Section invariant.
Context (disk : Z -> bytes).
Implicit Types (s : BlockCacheState) (c : BlockAccessStats) (e : IndexSlotEntry).

Lemma uses_cons i h l : uses i (h :: l) = (if (h.2 =? Z.of_nat i)%Z then 1 else 0) + uses i l.
Proof. unfold uses. cbn. by destruct (_ =? _)%Z. Qed.

Lemma uses_le i l : uses i l <= length l.
Proof. induction l as [|h l IH]; [done|]. rewrite uses_cons. cbn. destruct (_ =? _)%Z; lia. Qed.

Lemma uses_perm i l l' : l ≡ₚ l' -> uses i l = uses i l'.
Proof. induction 1; rewrite ?uses_cons; lia. Qed.

Lemma uses_elem i h l : h ∈ l -> h.2 = Z.of_nat i -> 0 < uses i l.
Proof.
  intros Hin Hi. apply elem_of_Permutation in Hin as [l' Hp]. rewrite (uses_perm _ _ _ Hp), uses_cons, Hi, Z.eqb_refl. lia.
Qed.

Lemma set_at_Some {A} i (x : A) l l' :
  set_at i x l = Some l' <-> Z.to_nat i < length l /\ l' = <[Z.to_nat i := x]> l.
Proof. unfold set_at. destruct (_ <? _) eqn:E; bool_to_prop; split; intros; destruct_and?; simplify_eq; done || lia. Qed.

(** Every test of the lookup, under the invariant. *)
Lemma look_up_ok s logic slots b :
  tables_ok (BCP_TotalBlockCount s) (BCP_SlotCount s) logic slots -> (0 <= b < BCP_TotalBlockCount s)%Z ->
  exists l, look_up s logic slots b = Some l /\
    match l with
    | Missing => logic !! Z.to_nat b = Some u32_max
    | Ready i => exists e, (0 <= i)%Z /\ slots !! Z.to_nat i = Some e /\ BlockID e = b /\ Loading e = false
    | Busy => exists i e, (0 <= i)%Z /\ slots !! Z.to_nat i = Some e /\ BlockID e = b /\ Loading e = true
    end.
Proof.
  intros Ht Hb. unfold look_up. destruct Ht as [Hc Htot Hl Hs Hblock _].
  destruct (lookup_lt_is_Some_2 logic (Z.to_nat b) ltac:(lia)) as [i Hi]. rewrite Hi.
  destruct (Z.eqb_spec i u32_max) as [->|Hne]; cbn [orb]; [by exists Missing|].
  destruct (Hblock _ _ Hi Hne) as (e & Hi0 & He & Hid). rewrite Z2Nat.id in Hid by lia.
  pose proof (lookup_lt_Some _ _ _ He) as Hlt. replace (BCP_SlotCount s <=? i)%Z with false by lia. rewrite He.
  destruct (Loading e) eqn:El; [exists Busy; eauto 8|].
  rewrite Hid, Z.eqb_refl. exists (Ready i). eauto 8.
Qed.

(** Replacing one slot entry by one with the same block keeps the tables. *)
Lemma tables_keep total count logic slots i e e' :
  tables_ok total count logic slots -> slots !! i = Some e -> BlockID e' = BlockID e ->
  tables_ok total count logic (<[i := e']> slots).
Proof.
  intros [Hc Htot Hl Hs Hblock Hslot] He Hid. constructor; try done.
  - by rewrite length_insert.
  - intros b j Hj Hne. destruct (Hblock _ _ Hj Hne) as (x & Hj0 & Hx & Hxid).
    destruct (decide (i = Z.to_nat j)) as [->|Hij].
    + exists e'. rewrite list_lookup_insert_eq by (by eapply lookup_lt_Some). simplify_eq. split; [done|]. split; [done|]. congruence.
    + exists x. by rewrite list_lookup_insert_ne.
  - intros j x Hj Hne. destruct (decide (i = j)) as [->|Hij].
    + rewrite list_lookup_insert_eq in Hj by (by eapply lookup_lt_Some). simplify_eq.
      destruct (Hslot j e He) as [? ?]; [congruence|]. by rewrite Hid.
    + rewrite list_lookup_insert_ne in Hj by done. by apply Hslot.
Qed.

Lemma pages_keep pages slots i e e' :
  pages_ok disk pages slots -> slots !! i = Some e -> BlockID e' = BlockID e ->
  (Loading e' = false -> Loading e = false) -> pages_ok disk pages (<[i := e']> slots).
Proof.
  intros [Hl Hp] He Hid Hld. constructor; [by rewrite length_insert|]. intros j x Hj Hne Hx.
  destruct (decide (i = j)) as [->|Hij].
  - rewrite list_lookup_insert_eq in Hj by (by eapply lookup_lt_Some). simplify_eq. rewrite Hid. apply Hp; [done|congruence|auto].
  - rewrite list_lookup_insert_ne in Hj by done. by apply Hp.
Qed.

Lemma uses_other i h l : h.2 <> Z.of_nat i -> uses i (h :: l) = uses i l.
Proof. intros H. rewrite uses_cons. by replace (h.2 =? Z.of_nat i)%Z with false by lia. Qed.

Lemma uses_same i h l : h.2 = Z.of_nat i -> uses i (h :: l) = S (uses i l).
Proof. intros H. rewrite uses_cons. by replace (h.2 =? Z.of_nat i)%Z with true by lia. Qed.

(** Pinning a ready slot adds a handle. *)
Lemma pin_ok s handles loads pages logic slots b i e :
  BCP_Pages s = Some pages ->
  tables_ok (BCP_TotalBlockCount s) (BCP_SlotCount s) logic slots -> pins_ok slots handles loads -> pages_ok disk pages slots ->
  (0 <= i)%Z -> slots !! Z.to_nat i = Some e -> BlockID e = b -> b <> u32_max -> Loading e = false ->
  (Z.of_nat (S (length handles + length loads)) < 2 ^ 32)%Z ->
  exists s', pin s logic slots i = Some s' /\ cache_ok disk s' ((b, i) :: handles) loads /\
    same_store s s'.
Proof.
  intros Hpg Ht [Hfew Href Hld Hblk] Hg Hi He Hid Hne Hl Hsmall. unfold pin. rewrite He.
  pose proof (lookup_lt_Some _ _ _ He) as Hlt. unfold set_at. replace (_ <? _) with true by lia.
  eexists. split; [done|]. split; [|done].
  pose proof (Href _ _ He) as Hr. pose proof (uses_le (Z.to_nat i) handles). pose proof (uses_le (Z.to_nat i) loads).
  exists pages, logic, (<[Z.to_nat i := pinned e]> slots). split; [done|]. split; [done|]. split; [done|].
  split; [by eapply tables_keep|]. split; [|by eapply pages_keep].
  constructor.
  - cbn [length]. lia.
  - intros j x Hj. destruct (decide (Z.to_nat i = j)) as [<-|Hij].
    + rewrite list_lookup_insert_eq in Hj by done. simplify_eq. cbn [Ref pinned].
      rewrite uses_same by (cbn; lia). unfold wrapping_add. rewrite wrap_small by (unfold in_u; lia). lia.
    + rewrite list_lookup_insert_ne in Hj by done. rewrite uses_other by (cbn; lia). by apply Href.
  - intros j x Hj. destruct (decide (Z.to_nat i = j)) as [<-|Hij].
    + rewrite list_lookup_insert_eq in Hj by done. simplify_eq. cbn [Loading pinned]. rewrite Hl.
      specialize (Hld _ _ He). by rewrite Hl in Hld.
    + rewrite list_lookup_insert_ne in Hj by done. rewrite uses_other by (cbn; lia). by apply Hld.
  - intros h Hh. destruct (decide (Z.to_nat i = Z.to_nat h.2)) as [Heq|Hij].
    + exists (pinned e). rewrite <- Heq, list_lookup_insert_eq by done. cbn.
      assert (Hh' : h = (b, i) \/ (h ∈ handles \/ h ∈ loads)).
      { destruct Hh as [[->|?]%elem_of_cons|?]; auto. }
      destruct Hh' as [->|Hh']; [done|]. destruct (Hblk _ Hh') as (x & Hx0 & Hx & Hxid & ?).
      rewrite <- Heq, He in Hx. simplify_eq. done.
    + rewrite list_lookup_insert_ne by done. apply Hblk.
      destruct Hh as [[->|?]%elem_of_cons|?]; [cbn in Hij; lia|auto..].
Qed.

(** Dropping a handle removes it. *)
Lemma release_ok s h handles loads :
  cache_ok disk s (h :: handles) loads ->
  exists s', release s h.2 = Some s' /\ cache_ok disk s' handles loads /\ same_store s s'.
Proof.
  intros (pages & logic & slots & Hpg & Hlg & Hst & Ht & [Hfew Href Hld Hblk] & Hg). unfold release. rewrite Hlg, Hst.
  destruct (Hblk h) as (e & Hi & He & Hid & Hne); [left; apply list_elem_of_here|].
  pose proof (lookup_lt_Some _ _ _ He) as Hlt. pose proof (tok_slots _ _ _ _ Ht).
  replace (h.2 <? BCP_SlotCount s)%Z with true by lia. rewrite He.
  pose proof (Href _ _ He) as Hr. rewrite uses_same in Hr by lia.
  replace (0 <? Ref e)%Z with true by lia. unfold set_at. replace (_ <? length slots) with true by lia.
  eexists. split; [done|]. split; [|done].
  exists pages, logic, (<[Z.to_nat h.2 := unpinned e]> slots). split; [done|]. split; [done|]. split; [done|].
  split; [by eapply tables_keep|]. split; [|by eapply pages_keep].
  assert (Hl : Loading e = false).
  { specialize (Hld _ _ He). destruct (Loading e); [|done]. rewrite uses_same in Hld by lia. lia. }
  constructor.
  - cbn [length] in Hfew. lia.
  - intros j x Hj. destruct (decide (Z.to_nat h.2 = j)) as [<-|Hij].
    + rewrite list_lookup_insert_eq in Hj by done. simplify_eq. cbn [Ref unpinned]. lia.
    + rewrite list_lookup_insert_ne in Hj by done. specialize (Href _ _ Hj). rewrite uses_other in Href by lia. lia.
  - intros j x Hj. destruct (decide (Z.to_nat h.2 = j)) as [<-|Hij].
    + rewrite list_lookup_insert_eq in Hj by done. simplify_eq. cbn [Loading unpinned]. rewrite Hl.
      specialize (Hld _ _ He). by rewrite Hl in Hld.
    + rewrite list_lookup_insert_ne in Hj by done. specialize (Hld _ _ Hj). rewrite uses_other in Hld by lia. done.
  - intros k Hk. destruct (Hblk k) as (x & Hx0 & Hx & Hxid & Hxne).
    { destruct Hk; [left; by apply list_elem_of_further|by right]. }
    destruct (decide (Z.to_nat h.2 = Z.to_nat k.2)) as [Heq|Hij].
    + exists (unpinned e). rewrite <- Heq, list_lookup_insert_eq by done. rewrite <- Heq, He in Hx. simplify_eq. done.
    + exists x. by rewrite list_lookup_insert_ne.
Qed.

(** * The eviction clock *)

(** A candidate the clock stops at is free. *)
Lemma find_slot_sound fuel slots count evict evict' found :
  (0 < count)%Z -> (0 <= evict)%Z -> find_slot fuel slots count evict = Some (evict', Some found) ->
  (0 <= found < count)%Z /\ exists e, slots !! Z.to_nat found = Some e /\ Ref e = 0%Z /\ Loading e = false.
Proof.
  intros Hc. revert evict. induction fuel as [|fuel IH]; intros evict He Hf; [done|]. cbn [find_slot] in Hf.
  destruct (slots !! Z.to_nat (evict mod count)) as [e|] eqn:E; [|done]. destruct ((Ref e =? 0)%Z && negb (Loading e)) eqn:Eb.
  - injection Hf as <- <-. bool_to_prop. split; [apply Z.mod_pos_bound; lia|]. by exists e.
  - eapply IH; [|done]. apply Z.mod_pos_bound. lia.
Qed.

Lemma find_slot_total fuel slots count evict :
  (0 < count)%Z -> (0 <= evict)%Z -> Z.of_nat (length slots) = count ->
  exists evict' found, find_slot fuel slots count evict = Some (evict', found).
Proof.
  intros Hc He Hl. revert evict He. induction fuel as [|fuel IH]; intros evict He; cbn [find_slot]; [by eexists _, _|].
  pose proof (Z.mod_pos_bound evict count Hc) as Hm.
  destruct (lookup_lt_is_Some_2 slots (Z.to_nat (evict mod count)) ltac:(lia)) as [e ->].
  destruct (_ && _); [by eexists _, _|]. apply IH, Z.mod_pos_bound. lia.
Qed.

(** While the clock does not wrap around during the scan, it misses no slot. *)
Lemma find_slot_complete fuel slots count evict evict' :
  (0 < count)%Z -> (0 <= evict)%Z -> (evict + Z.of_nat fuel <= 2 ^ 32)%Z ->
  find_slot fuel slots count evict = Some (evict', None) ->
  forall k, (evict <= k < evict + Z.of_nat fuel)%Z ->
    exists e, slots !! Z.to_nat (k mod count) = Some e /\ (Ref e <> 0%Z \/ Loading e = true).
Proof.
  intros Hc. revert evict. induction fuel as [|fuel IH]; intros evict He Hw Hf k Hk; [lia|]. cbn [find_slot] in Hf.
  destruct (slots !! Z.to_nat (evict mod count)) as [e|] eqn:E; [|done]. destruct ((Ref e =? 0)%Z && negb (Loading e)) eqn:Eb; [done|].
  destruct (decide (k = evict)) as [->|Hne].
  - exists e. split; [done|]. destruct (Ref e =? 0)%Z eqn:Er; bool_to_prop; [right; by destruct (Loading e)|by left].
  - destruct fuel as [|fuel]; [lia|]. unfold wrapping_add in Hf. rewrite wrap_small in Hf by (unfold in_u; lia).
    eapply (IH (evict + 1)%Z); [lia|lia|exact Hf|lia].
Qed.

(** [count] consecutive numbers meet every residue. *)
Lemma residues count evict i :
  (0 < count)%Z -> (0 <= i < count)%Z -> exists k, (evict <= k < evict + count)%Z /\ (k mod count = i)%Z.
Proof.
  intros Hc Hi. exists (evict + (i - evict) mod count)%Z. pose proof (Z.mod_pos_bound (i - evict) count Hc). split; [lia|].
  rewrite Zplus_mod_idemp_r. replace (evict + (i - evict))%Z with i by lia. by apply Z.mod_small.
Qed.

Lemma find_slot_finds slots count evict i e :
  Z.of_nat (length slots) = count -> (0 <= evict)%Z -> (evict + count <= 2 ^ 32)%Z ->
  slots !! i = Some e -> Ref e = 0%Z -> Loading e = false ->
  exists evict' found, find_slot (Z.to_nat count) slots count evict = Some (evict', Some found).
Proof.
  intros Hl He Hw Hi Hr Hld. pose proof (lookup_lt_Some _ _ _ Hi) as Hlt.
  destruct (find_slot_total (Z.to_nat count) slots count evict ltac:(lia) He Hl) as (evict' & [found|] & Hf);
    [by eexists _, _|]. exfalso.
  destruct (residues count evict (Z.of_nat i) ltac:(lia) ltac:(lia)) as (k & Hk & Hm).
  destruct (find_slot_complete (Z.to_nat count) slots count evict evict' ltac:(lia) He ltac:(lia) Hf k ltac:(lia))
    as (x & Hx & Hbusy).
  rewrite Hm, Nat2Z.id, Hi in Hx. simplify_eq. destruct Hbusy; [lia|congruence].
Qed.

(** * Taking a slot, loading it, publishing it *)

(** A slot no one uses has no handle and no load. *)
Lemma free_slot slots handles loads i e :
  pins_ok slots handles loads -> slots !! i = Some e -> Ref e = 0%Z -> uses i handles = 0 /\ uses i loads = 0.
Proof. intros Hp He Hr. rewrite (pok_ref _ _ _ Hp _ _ He) in Hr. lia. Qed.

Lemma use_elsewhere slots handles loads i e h :
  pins_ok slots handles loads -> slots !! i = Some e -> Ref e = 0%Z -> h ∈ handles \/ h ∈ loads -> Z.to_nat h.2 <> i.
Proof.
  intros Hp He Hr Hh Heq. destruct (free_slot _ _ _ _ _ Hp He Hr) as [H1 H2].
  destruct (pok_block _ _ _ Hp _ Hh) as (x & Hx0 & _).
  destruct Hh as [Hh|Hh]; apply (uses_elem i) in Hh; lia.
Qed.

(** The block table once the slot of [e] has been given up. *)
Definition evicted (logic : list Z) e : list Z :=
  if (BlockID e =? u32_max)%Z then logic else <[Z.to_nat (BlockID e) := u32_max]> logic.

Lemma length_evicted logic e : length (evicted logic e) = length logic.
Proof. unfold evicted. destruct (_ =? _)%Z; [done|by rewrite length_insert]. Qed.

Section take.
Context (total count : Z) (logic : list Z) (slots : list IndexSlotEntry) (b found : Z) (e : IndexSlotEntry).
Hypothesis Ht : tables_ok total count logic slots.
Hypothesis Hb : (0 <= b < total)%Z.
Hypothesis Hmiss : logic !! Z.to_nat b = Some u32_max.
Hypothesis Hfound : (0 <= found)%Z.
Hypothesis He : slots !! Z.to_nat found = Some e.

(** Blocks of other slots keep their entry. *)
Lemma evicted_other j x :
  j <> Z.to_nat found -> slots !! j = Some x -> BlockID x <> u32_max ->
  Z.to_nat b <> Z.to_nat (BlockID x) /\ evicted logic e !! Z.to_nat (BlockID x) = Some (Z.of_nat j).
Proof.
  intros Hj Hx Hne. destruct Ht as [Hc Htot Hll Hsl Hblock Hslot]. destruct (Hslot _ _ Hx Hne) as [Hx0 Hlx].
  assert (Hbx : Z.to_nat b <> Z.to_nat (BlockID x)).
  { intros Heq. rewrite Heq, Hlx in Hmiss. injection Hmiss as Hm. pose proof (lookup_lt_Some _ _ _ Hx). lia. }
  split; [done|]. unfold evicted. destruct (Z.eqb_spec (BlockID e) u32_max) as [|Hne']; [done|].
  destruct (Hslot _ _ He Hne') as [He0 Hle]. rewrite list_lookup_insert_ne; [done|].
  intros Heq. rewrite Heq, Hlx in Hle. injection Hle as Hle. lia.
Qed.

(** What is left points to other slots. *)
Lemma evicted_inv j i : evicted logic e !! j = Some i -> i <> u32_max -> logic !! j = Some i /\ i <> found.
Proof.
  destruct Ht as [Hc Htot Hll Hsl Hblock Hslot].
  assert (Hno : forall j, logic !! j = Some found -> found <> u32_max -> BlockID e = Z.of_nat j).
  { intros k Hk Hne. destruct (Hblock _ _ Hk Hne) as (x & _ & Hx & Hxid). rewrite He in Hx. by simplify_eq. }
  unfold evicted. intros Hj Hne. destruct (Z.eqb_spec (BlockID e) u32_max) as [Heq|Hne'].
  - split; [done|]. intros ->. specialize (Hno _ Hj Hne). pose proof (lookup_lt_Some _ _ _ Hj). lia.
  - destruct (Hslot _ _ He Hne') as [He0 Hle]. destruct (decide (Z.to_nat (BlockID e) = j)) as [<-|Hne2].
    + rewrite list_lookup_insert_eq in Hj by (by eapply lookup_lt_Some). congruence.
    + rewrite list_lookup_insert_ne in Hj by done. split; [done|]. intros ->. specialize (Hno _ Hj Hne). lia.
Qed.

Lemma take_tables : tables_ok total count (<[Z.to_nat b := found]> (evicted logic e)) (<[Z.to_nat found := taken b]> slots).
Proof.
  pose proof Ht as [Hc Htot Hll Hsl Hblock Hslot]. pose proof (lookup_lt_Some _ _ _ He) as Hlt.
  pose proof (length_evicted logic e). constructor; rewrite ?length_insert; try lia.
  - intros j i Hj Hne. destruct (decide (j = Z.to_nat b)) as [->|Hjb].
    + rewrite list_lookup_insert_eq in Hj by lia. simplify_eq. exists (taken b).
      rewrite list_lookup_insert_eq by done. cbn. split; [done|]. split; [done|]. lia.
    + rewrite list_lookup_insert_ne in Hj by done. destruct (evicted_inv _ _ Hj Hne) as [Hj' Hif].
      destruct (Hblock _ _ Hj' Hne) as (x & Hi0 & Hx & Hxid). exists x. split; [done|].
      rewrite list_lookup_insert_ne by lia. done.
  - intros j x Hj Hne. destruct (decide (Z.to_nat found = j)) as [<-|Hij].
    + rewrite list_lookup_insert_eq in Hj by done. simplify_eq. cbn [BlockID taken].
      rewrite list_lookup_insert_eq by lia. split; [lia|]. f_equal. lia.
    + rewrite list_lookup_insert_ne in Hj by done. destruct (evicted_other j x) as [Hbx Hlx]; [done..|].
      rewrite list_lookup_insert_ne by done. split; [|done]. by destruct (Hslot _ _ Hj Hne).
Qed.

Lemma take_pins handles loads :
  pins_ok slots handles loads -> Ref e = 0%Z -> Loading e = false -> b <> u32_max ->
  (Z.of_nat (S (length handles + length loads)) < 2 ^ 32)%Z ->
  pins_ok (<[Z.to_nat found := taken b]> slots) handles ((b, found) :: loads).
Proof.
  intros Hp Hr Hl Hbne Hsmall. destruct (free_slot _ _ _ _ _ Hp He Hr) as [Hu1 Hu2].
  pose proof (lookup_lt_Some _ _ _ He) as Hlt. pose proof Hp as [Hfew Href Hld Hblk]. constructor.
  - cbn [length]. lia.
  - intros j x Hj. destruct (decide (Z.to_nat found = j)) as [<-|Hij].
    + rewrite list_lookup_insert_eq in Hj by done. simplify_eq. cbn [Ref taken]. rewrite uses_same by (cbn; lia). lia.
    + rewrite list_lookup_insert_ne in Hj by done. rewrite (uses_other j (_, _)) by (cbn; lia). by apply Href.
  - intros j x Hj. destruct (decide (Z.to_nat found = j)) as [<-|Hij].
    + rewrite list_lookup_insert_eq in Hj by done. simplify_eq. cbn [Loading taken]. rewrite uses_same by (cbn; lia). lia.
    + rewrite list_lookup_insert_ne in Hj by done. rewrite (uses_other j (_, _)) by (cbn; lia). by apply Hld.
  - intros h Hh. assert (Hh' : h = (b, found) \/ (h ∈ handles \/ h ∈ loads)).
    { destruct Hh as [?|[->|?]%elem_of_cons]; auto. }
    destruct Hh' as [->|Hh'].
    + exists (taken b). cbn. by rewrite list_lookup_insert_eq by done.
    + destruct (Hblk _ Hh') as (x & ? & ? & ?). exists x. rewrite list_lookup_insert_ne; [done|].
      apply not_eq_sym. by eapply use_elsewhere.
Qed.
End take.

Lemma take_slot_ok s handles loads pages logic slots b found e evict :
  BCP_Pages s = Some pages ->
  tables_ok (BCP_TotalBlockCount s) (BCP_SlotCount s) logic slots -> pins_ok slots handles loads -> pages_ok disk pages slots ->
  (0 <= b < BCP_TotalBlockCount s)%Z -> logic !! Z.to_nat b = Some u32_max ->
  (0 <= found)%Z -> slots !! Z.to_nat found = Some e -> Ref e = 0%Z -> Loading e = false ->
  (Z.of_nat (S (length handles + length loads)) < 2 ^ 32)%Z ->
  exists s', take_slot s logic slots evict b found = Some s' /\ cache_ok disk s' handles ((b, found) :: loads) /\
    same_store s s'.
Proof.
  intros Hpg Ht Hp [Hgl Hgp] Hb Hmiss Hf He Hr Hl Hsmall. pose proof (lookup_lt_Some _ _ _ He) as Hlt.
  pose proof (tok_total _ _ _ _ Ht). pose proof (tok_logic _ _ _ _ Ht). pose proof (length_evicted logic e).
  assert (Htake : take_slot s logic slots evict b found
      = Some (set_tables s (<[Z.to_nat b := found]> (evicted logic e)) (<[Z.to_nat found := taken b]> slots) evict)).
  { unfold take_slot. rewrite He.
    assert (Hs1 : (if (BlockID e =? u32_max)%Z then Some logic else set_at (BlockID e) u32_max logic) = Some (evicted logic e)).
    { unfold evicted. destruct (Z.eqb_spec (BlockID e) u32_max) as [|Hne']; [done|].
      destruct (tok_slot _ _ _ _ Ht _ _ He Hne') as [He0 Hle]. apply set_at_Some. split; [|done]. by eapply lookup_lt_Some. }
    rewrite Hs1. unfold set_at. replace (_ <? length slots) with true by lia. by replace (_ <? _) with true by lia. }
  rewrite Htake. eexists. split; [done|]. split; [|done].
  eexists pages, _, _. split; [done|]. split; [done|]. split; [done|].
  split; [by apply take_tables|]. split; [by apply (take_pins slots b found e); [..|lia|]|].
  constructor; [by rewrite length_insert|]. intros j x Hj Hne Hx. destruct (decide (Z.to_nat found = j)) as [<-|Hij].
  - rewrite list_lookup_insert_eq in Hj by done. by simplify_eq.
  - rewrite list_lookup_insert_ne in Hj by done. by apply Hgp.
Qed.

Lemma backed_same s s' : same_store s s' -> backed disk s -> backed disk s'.
Proof. intros (_ & Hf & Hb & Ht & _). unfold backed. by rewrite Hf, Hb, Ht. Qed.

Lemma pins_perm slots h h' l l' : h ≡ₚ h' -> l ≡ₚ l' -> pins_ok slots h l -> pins_ok slots h' l'.
Proof.
  intros Hh Hl [Hfew Href Hld Hblk]. constructor.
  - by rewrite <- Hh, <- Hl.
  - intros i e He. rewrite <- (uses_perm i _ _ Hh), <- (uses_perm i _ _ Hl). by apply Href.
  - intros i e He. rewrite <- (uses_perm i _ _ Hh), <- (uses_perm i _ _ Hl). by apply Hld.
  - intros k Hk. apply Hblk. by rewrite Hh, Hl.
Qed.

Lemma cache_perm s h h' l l' : h ≡ₚ h' -> l ≡ₚ l' -> cache_ok disk s h l -> cache_ok disk s h' l'.
Proof.
  intros Hh Hl (pages & logic & slots & ? & ? & ? & ? & ? & ?). exists pages, logic, slots.
  repeat (split; [done|]). split; [by eapply pins_perm|done].
Qed.

(** A slot being loaded has its load. *)
Lemma busy_load slots handles loads i e :
  pins_ok slots handles loads -> (0 <= i)%Z -> slots !! Z.to_nat i = Some e -> Loading e = true -> (BlockID e, i) ∈ loads.
Proof.
  intros Hp Hi He Hl. pose proof (pok_loading _ _ _ Hp _ _ He) as Hu. rewrite Hl in Hu. destruct Hu as [_ Hu].
  assert (Hex : exists h, h ∈ loads /\ h.2 = i).
  { clear -Hu Hi. induction loads as [|h l IH]; [done|]. destruct (decide (h.2 = i)) as [Heq|Hne].
    - exists h. split; [apply list_elem_of_here|done].
    - rewrite uses_other in Hu by lia. destruct (IH Hu) as (k & Hk & ?). exists k. split; [by apply list_elem_of_further|done]. }
  destruct Hex as ([b j] & Hin & Hj). cbn in Hj. subst j.
  destruct (pok_block _ _ _ Hp (b, i)) as (x & _ & Hx & Hxid & _); [by right|]. cbn in Hx, Hxid. rewrite He in Hx. by simplify_eq.
Qed.

(** The first critical section. *)
Definition claim_result (b : Z) handles loads s s' (r : Claim) : Prop :=
  match r with
  | Refused => cache_ok disk s' handles loads
  | Pinned i => cache_ok disk s' ((b, i) :: handles) loads
  | MustWait => s' = s /\ exists i, (b, i) ∈ loads
  | Claimed i => cache_ok disk s' handles ((b, i) :: loads)
  end.

Lemma set_evict_ok s handles loads logic slots evict :
  BCP_LogicTable s = Some logic -> BCP_SlotTable s = Some slots ->
  cache_ok disk s handles loads -> cache_ok disk (set_tables s logic slots evict) handles loads.
Proof.
  intros Hl Hs (pages & logic' & slots' & Hpg & Hlg & Hst & Hrest). exists pages, logic', slots'.
  rewrite Hl in Hlg. rewrite Hs in Hst. by simplify_eq.
Qed.

Lemma claim_block_ok s c handles loads b :
  cache_ok disk s handles loads -> (0 <= b)%Z -> (0 <= BCP_EvictSlot s)%Z ->
  (Z.of_nat (S (length handles + length loads)) < 2 ^ 32)%Z ->
  exists s' c' r, claim_block s c b = Some (s', c', r) /\ claim_result b handles loads s s' r /\ same_store s s' /\
    (b < BCP_TotalBlockCount s \/ r = Refused)%Z.
Proof.
  intros Hok Hb0 Hev Hsmall. pose proof Hok as (pages & logic & slots & Hpg & Hlg & Hst & Ht & Hp & Hg). unfold claim_block.
  rewrite Hpg, Hlg, Hst. pose proof Ht as [Hc Htot Hll Hsl _ _].
  destruct (BCP_TotalBlockCount s <=? b)%Z eqn:E1; cbn [orb]; [by exists s, c, Refused; split_and!; [..|right]|]. bool_to_prop.
  destruct (BCP_SlotCount s =? 0)%Z eqn:E2; [by exists s, c, Refused; split_and!; [..|right]|]. bool_to_prop.
  destruct (look_up_ok s logic slots b Ht ltac:(lia)) as (l & -> & Hl). destruct l as [|i|].
  - destruct (find_slot_total (Z.to_nat (BCP_SlotCount s)) slots (BCP_SlotCount s) (BCP_EvictSlot s)) as (evict & [found|] & Hf); [lia..| |].
    + rewrite Hf. apply find_slot_sound in Hf as (Hfr & e & He & Hr & Hld); [|lia..].
      destruct (take_slot_ok s handles loads pages logic slots b found e evict) as (s' & -> & Hs' & Hsame); try done; [lia..|].
      exists s', (count_miss c), (Claimed found). split_and!; try done; try apply Hsame. left. lia.
    + rewrite Hf. eexists _, _, Refused. split; [done|]. split; [by apply set_evict_ok|]. split; [done|by right].
  - destruct Hl as (e & Hi & He & Hid & Hld).
    destruct (pin_ok s handles loads pages logic slots b i e) as (s' & -> & Hs' & Hsame); try done; [lia|].
    exists s', (count_hit c), (Pinned i). split; [done|]. split; [done|]. split; [done|left; lia].
  - destruct Hl as (i & e & Hi & He & Hid & Hld). exists s, c, MustWait. split; [done|]. split; [|split; [done|left; lia]].
    split; [done|]. exists i. rewrite <- Hid. by eapply busy_load.
Qed.

(** Writing one slot's page. *)
Lemma slot_page_splice pages page i j n :
  length pages = n * PAGE_SIZE -> length page = PAGE_SIZE -> i < n ->
  slot_page (splice (i * PAGE_SIZE) page pages) (Z.of_nat j) = if i =? j then page else slot_page pages (Z.of_nat j).
Proof.
  intros Hl Hp Hi. unfold slot_page. rewrite Nat2Z.id.
  assert (Hfit : (i + 1) * PAGE_SIZE <= n * PAGE_SIZE) by (apply Nat.mul_le_mono_r; lia).
  destruct (Nat.eqb_spec i j) as [<-|Hne].
  - rewrite <- Hp at 2. apply slice_splice_same. lia.
  - destruct (decide (i < j)) as [Hij|Hij].
    + apply slice_splice_after; [lia|]. assert ((i + 1) * PAGE_SIZE <= j * PAGE_SIZE) by (apply Nat.mul_le_mono_r; lia). lia.
    + apply slice_splice_before; [lia|]. assert ((j + 1) * PAGE_SIZE <= i * PAGE_SIZE) by (apply Nat.mul_le_mono_r; lia). lia.
Qed.

Lemma load_slot s handles loads b i :
  cache_ok disk s handles loads -> (b, i) ∈ loads ->
  exists pages logic slots e, BCP_Pages s = Some pages /\ BCP_LogicTable s = Some logic /\ BCP_SlotTable s = Some slots /\
    (0 <= i)%Z /\ slots !! Z.to_nat i = Some e /\ BlockID e = b /\ Loading e = true /\
    logic !! Z.to_nat b = Some i /\ (0 <= b < BCP_TotalBlockCount s)%Z /\ (i < BCP_SlotCount s)%Z.
Proof.
  intros (pages & logic & slots & Hpg & Hlg & Hst & Ht & Hp & Hg) Hin.
  destruct (pok_block _ _ _ Hp (b, i)) as (e & Hi & He & Hid & Hne); [by right|]. cbn in *.
  pose proof (pok_loading _ _ _ Hp _ _ He) as Hl. apply (uses_elem (Z.to_nat i)) in Hin; [|cbn; lia].
  destruct (tok_slot _ _ _ _ Ht _ _ He ltac:(congruence)) as [Hb Hlb]. rewrite Hid, Z2Nat.id in Hlb by lia.
  exists pages, logic, slots, e. split; [done|]. split; [done|]. split; [done|]. split; [done|]. split; [done|]. split; [done|].
  split; [destruct (Loading e); lia|]. split; [done|]. pose proof (lookup_lt_Some _ _ _ Hlb). pose proof (lookup_lt_Some _ _ _ He).
  destruct Ht as [_ _ Htl Hts _ _]. lia.
Qed.

(** The read changes the loading slot's page only, and a successful read leaves the block's page there. *)
Lemma read_slot_ok s handles loads b i :
  cache_ok disk s handles loads -> backed disk s -> (b, i) ∈ loads ->
  let r := read_slot s b i in
  cache_ok disk r.2 handles loads /\ backed disk r.2 /\
  (exists pages, BCP_Pages r.2 = Some pages /\ (r.1 = true -> slot_page pages i = disk b) /\
     forall j, (0 <= j)%Z -> j <> i -> forall old, BCP_Pages s = Some old -> slot_page pages j = slot_page old j) /\
  BCP_EvictSlot r.2 = BCP_EvictSlot s /\ BCP_TotalBlockCount r.2 = BCP_TotalBlockCount s /\
  BCP_SlotCount r.2 = BCP_SlotCount s.
Proof.
  intros Hok Hback Hin. destruct (load_slot _ _ _ _ _ Hok Hin) as (pages & logic & slots & e & Hpg & Hlg & Hst & Hi & He & Hid & Hld & Hlb & Hb & Hic).
  unfold read_slot. rewrite Hpg. destruct (BCP_File s) as [fa|] eqn:Ef.
  2:{ cbn [fst snd]. split; [done|]. split; [done|]. split; [|done]. exists pages. split; [done|]. split; [done|]. intros. by simplify_eq. }
  destruct (Hback fa Ef) as (file & content & Hopen & Hholds & Hbase & Hsize & Hdisk).
  destruct Hok as (pages' & logic' & slots' & Hpg' & Hlg' & Hst' & Ht & Hp & [Hgl Hgp]).
  rewrite Hpg in Hpg'. rewrite Hlg in Hlg'. rewrite Hst in Hst'. injection Hpg' as <-. injection Hlg' as <-. injection Hst' as <-. subst b.
  pose proof (lookup_lt_Some _ _ _ He) as Hlt. pose proof PAGE_SIZE_Z as HP.
  assert (Hpl : length (slot_page pages i) = PAGE_SIZE).
  { unfold slot_page. apply length_slice. rewrite Hgl.
    assert ((Z.to_nat i + 1) * PAGE_SIZE <= length slots * PAGE_SIZE) by (apply Nat.mul_le_mono_r; lia). lia. }
  pose proof (ReadBlock_ok fa file content Hopen (BlockID e) (slot_page pages i) PAGE_SIZE (BCP_BaseOffset s) Hholds
    ltac:(lia) ltac:(lia) Hpl) as Hr. destruct (ReadBlock _ _ _ _ _) as [ok page]. cbn [fst snd] in Hr. destruct Hr as [Hlen Hpage].
  cbn [fst snd]. set (pages2 := splice _ page pages).
  assert (Hsp : forall j, slot_page pages2 (Z.of_nat j) = if Z.to_nat i =? j then page else slot_page pages (Z.of_nat j)).
  { intros j. by apply (slot_page_splice _ _ _ _ (length slots)). }
  split; [|split; [|split; [|done]]].
  - exists pages2, logic, slots. split; [done|]. split; [done|]. split; [done|]. split; [done|]. split; [done|].
    constructor.
    + unfold pages2. rewrite length_splice; [done|]. rewrite Hlen, Hgl.
      assert ((Z.to_nat i + 1) * PAGE_SIZE <= length slots * PAGE_SIZE) by (apply Nat.mul_le_mono_r; lia). lia.
    + intros j x Hj Hne Hx. rewrite Hsp. destruct (Nat.eqb_spec (Z.to_nat i) j) as [<-|]; [congruence|by apply Hgp].
  - intros fa' Hfa. cbn in Hfa. simplify_eq. by exists file, content.
  - exists pages2. split; [done|]. split.
    + intros Hok'. rewrite <- (Z2Nat.id i) by done. rewrite Hsp, Nat.eqb_refl, (Hpage Hok'), Hdisk by lia. done.
    + intros j Hj Hne old Hold. simplify_eq. rewrite <- (Z2Nat.id j) by done. rewrite Hsp.
      by replace (Z.to_nat i =? Z.to_nat j) with false by lia.
Qed.

(** Publishing turns a load into a handle. *)
Lemma publish_done s handles loads b i pages :
  cache_ok disk s handles ((b, i) :: loads) -> BCP_Pages s = Some pages -> slot_page pages i = disk b ->
  exists s', publish s b i true = Some s' /\ cache_ok disk s' ((b, i) :: handles) loads /\ same_store s s'.
Proof.
  intros Hok Hpg Hpage. destruct (load_slot _ _ _ b i Hok) as (pages' & logic & slots & e & Hpg' & Hlg & Hst & Hi & He & Hid & Hld & Hlb & Hb & Hic);
    [apply list_elem_of_here|]. rewrite Hpg in Hpg'. injection Hpg' as <-.
  destruct Hok as (pages' & logic' & slots' & Hpg' & Hlg' & Hst' & Ht & [Hfew Href Hlds Hblk] & [Hgl Hgp]).
  rewrite Hpg in Hpg'. rewrite Hlg in Hlg'. rewrite Hst in Hst'. injection Hpg' as <-. injection Hlg' as <-. injection Hst' as <-.
  pose proof (lookup_lt_Some _ _ _ He) as Hlt. unfold publish. rewrite Hlg, Hst, He.
  replace (i <? BCP_SlotCount s)%Z with true by lia. unfold set_at. replace (_ <? length slots) with true by lia.
  eexists. split; [done|]. split; [|done].
  pose proof (Href _ _ He) as Hr. pose proof (Hlds _ _ He) as Hu. rewrite Hld, uses_same in Hu by (cbn; lia).
  rewrite uses_same in Hr by (cbn; lia).
  exists pages, logic, (<[Z.to_nat i := loaded e]> slots). split; [done|]. split; [done|]. split; [done|].
  split; [by eapply tables_keep|]. split; constructor.
  - cbn [length] in *. lia.
  - intros j x Hj. destruct (decide (Z.to_nat i = j)) as [<-|Hij].
    + rewrite list_lookup_insert_eq in Hj by done. simplify_eq. cbn [Ref loaded]. rewrite uses_same by (cbn; lia). lia.
    + rewrite list_lookup_insert_ne in Hj by done. specialize (Href _ _ Hj). rewrite uses_other in Href |- * by (cbn; lia). done.
  - intros j x Hj. destruct (decide (Z.to_nat i = j)) as [<-|Hij].
    + rewrite list_lookup_insert_eq in Hj by done. simplify_eq. cbn [Loading loaded]. lia.
    + rewrite list_lookup_insert_ne in Hj by done. specialize (Hlds _ _ Hj). rewrite uses_other in Hlds |- * by (cbn; lia). done.
  - intros h Hh. assert (Hh' : h ∈ handles \/ h ∈ (b, i) :: loads).
    { destruct Hh as [[->|?]%elem_of_cons|?]; [right; apply list_elem_of_here|by left|right; by apply list_elem_of_further]. }
    destruct (Hblk _ Hh') as (x & Hx0 & Hx & Hxid & Hxne). destruct (decide (Z.to_nat i = Z.to_nat h.2)) as [Heq|Hij].
    + exists (loaded e). rewrite <- Heq, list_lookup_insert_eq by done. rewrite <- Heq, He in Hx. by simplify_eq.
    + exists x. by rewrite list_lookup_insert_ne.
  - by rewrite length_insert.
  - intros j x Hj Hne Hx. destruct (decide (Z.to_nat i = j)) as [<-|Hij].
    + rewrite list_lookup_insert_eq in Hj by done. simplify_eq. cbn. rewrite Z2Nat.id by done. congruence.
    + rewrite list_lookup_insert_ne in Hj by done. by apply Hgp.
Qed.

(** A failed load gives its slot back, empty. *)
Lemma publish_failed s handles loads b i :
  cache_ok disk s handles ((b, i) :: loads) ->
  exists s', publish s b i false = Some s' /\ cache_ok disk s' handles loads /\ same_store s s'.
Proof.
  intros Hok. destruct (load_slot _ _ _ b i Hok) as (pages & logic & slots & e & Hpg & Hlg & Hst & Hi & He & Hid & Hld & Hlb & Hb & Hic);
    [apply list_elem_of_here|].
  destruct Hok as (pages' & logic' & slots' & Hpg' & Hlg' & Hst' & Ht & [Hfew Href Hlds Hblk] & [Hgl Hgp]).
  rewrite Hpg in Hpg'. rewrite Hlg in Hlg'. rewrite Hst in Hst'. injection Hpg' as <-. injection Hlg' as <-. injection Hst' as <-.
  pose proof (lookup_lt_Some _ _ _ He) as Hlt. pose proof (lookup_lt_Some _ _ _ Hlb) as Hltb. unfold publish. rewrite Hlg, Hst, Hlb, Z.eqb_refl.
  replace (b <? BCP_TotalBlockCount s)%Z with true by lia. replace (i <? BCP_SlotCount s)%Z with true by lia.
  unfold set_at. replace (_ <? length logic) with true by lia. replace (_ <? length slots) with true by lia.
  eexists. split; [done|]. split; [|done].
  pose proof (Href _ _ He) as Hr. pose proof (Hlds _ _ He) as Hu. rewrite Hld, uses_same in Hu by (cbn; lia).
  eexists pages, _, _. split; [done|]. split; [done|]. split; [done|]. split; [|split; constructor].
  - pose proof Ht as [Hc Htot Hll Hsl Hblock Hslot]. constructor; rewrite ?length_insert; try done.
    + intros j k Hj Hne. destruct (decide (Z.to_nat b = j)) as [<-|Hbj].
      * rewrite list_lookup_insert_eq in Hj by done. congruence.
      * rewrite list_lookup_insert_ne in Hj by done. destruct (Hblock _ _ Hj Hne) as (x & Hk0 & Hx & Hxid).
        exists x. rewrite list_lookup_insert_ne; [done|]. intros Heq. rewrite <- Heq, He in Hx. simplify_eq. lia.
    + intros j x Hj Hne. destruct (decide (Z.to_nat i = j)) as [<-|Hij].
      * rewrite list_lookup_insert_eq in Hj by done. by simplify_eq.
      * rewrite list_lookup_insert_ne in Hj by done. destruct (Hslot _ _ Hj Hne) as [Hx0 Hlx]. split; [done|].
        rewrite list_lookup_insert_ne; [done|]. intros Heq. rewrite <- Heq, Hlb in Hlx. injection Hlx as ->. lia.
  - cbn [length] in Hfew. lia.
  - intros j x Hj. destruct (decide (Z.to_nat i = j)) as [<-|Hij].
    + rewrite list_lookup_insert_eq in Hj by done. simplify_eq. cbn [Ref slot_default]. lia.
    + rewrite list_lookup_insert_ne in Hj by done. specialize (Href _ _ Hj). rewrite uses_other in Href by (cbn; lia). done.
  - intros j x Hj. destruct (decide (Z.to_nat i = j)) as [<-|Hij].
    + rewrite list_lookup_insert_eq in Hj by done. simplify_eq. cbn [Loading slot_default]. lia.
    + rewrite list_lookup_insert_ne in Hj by done. specialize (Hlds _ _ Hj). rewrite uses_other in Hlds by (cbn; lia). done.
  - intros h Hh. destruct (Hblk h) as (x & Hx0 & Hx & Hxid & Hxne); [destruct Hh; [by left|right; by apply list_elem_of_further]|].
    exists x. rewrite list_lookup_insert_ne; [done|]. intros Heq.
    destruct Hh as [Hh|Hh]; apply (uses_elem (Z.to_nat i)) in Hh; lia.
  - by rewrite length_insert.
  - intros j x Hj Hne Hx. destruct (decide (Z.to_nat i = j)) as [<-|Hij].
    + rewrite list_lookup_insert_eq in Hj by done. by simplify_eq.
    + rewrite list_lookup_insert_ne in Hj by done. by apply Hgp.
Qed.

(** The invariant with the file behind it. *)
Definition cache_inv s handles loads : Prop :=
  cache_ok disk s handles loads /\ backed disk s /\ (0 <= BCP_EvictSlot s)%Z.

(** The page a handle points to. *)
Definition handle_page s (slot : Z) : bytes := match BCP_Pages s with Some pages => slot_page pages slot | None => [] end.

Lemma handle_page_ok s handles loads b i :
  cache_ok disk s handles loads -> (b, i) ∈ handles -> handle_page s i = disk b.
Proof.
  intros (pages & logic & slots & Hpg & Hlg & Hst & Ht & Hp & [Hgl Hgp]) Hin. unfold handle_page. rewrite Hpg.
  destruct (pok_block _ _ _ Hp (b, i)) as (e & Hi & He & Hid & Hne); [by left|]. cbn in *.
  pose proof (pok_loading _ _ _ Hp _ _ He) as Hl. apply (uses_elem (Z.to_nat i)) in Hin; [|cbn; lia].
  rewrite <- (Z2Nat.id i), (Hgp _ _ He) by (done || congruence || (destruct (Loading e); lia)). congruence.
Qed.

Lemma claim_evict s c b s' c' r :
  (0 <= BCP_EvictSlot s)%Z -> claim_block s c b = Some (s', c', r) -> (0 <= BCP_EvictSlot s')%Z.
Proof.
  intros He Hcl. unfold claim_block in Hcl.
  destruct (BCP_Pages s), (BCP_LogicTable s) as [logic|], (BCP_SlotTable s) as [slots|]; try by simplify_eq.
  case_test; [by simplify_eq|]. destruct (look_up _ _ _ _) as [[|i|]|]; [| |by simplify_eq|done].
  - destruct (find_slot _ _ _ _) as [[evict found]|] eqn:Ef; [|done].
    assert (Hev : (0 <= evict)%Z).
    { clear Hcl. revert Ef He. generalize (BCP_EvictSlot s). generalize (Z.to_nat (BCP_SlotCount s)).
      intros fuel. induction fuel as [|fuel IH]; intros ev Hf He; cbn [find_slot] in Hf; [by simplify_eq|].
      destruct (slots !! _) as [e|]; [|done]. destruct (_ && _).
      - simplify_eq. apply Z.mod_pos_bound. lia.
      - eapply IH; [exact Hf|]. apply Z.mod_pos_bound. lia. }
    destruct found as [found|]; [|by simplify_eq]. unfold take_slot in Hcl.
    destruct (slots !! _) as [old|]; [|done]. destruct (if (BlockID old =? u32_max)%Z then _ else _) as [logic1|]; [|done].
    destruct (set_at found _ slots); [|done]. destruct (set_at b _ logic1); [|done]. by simplify_eq.
  - unfold pin in Hcl. destruct (slots !! _) as [e|]; [|done]. destruct (set_at _ _ _); [|done]. by simplify_eq.
Qed.

Lemma publish_evict s b i ok s' : publish s b i ok = Some s' -> BCP_EvictSlot s' = BCP_EvictSlot s.
Proof.
  unfold publish. intros Hp. destruct (BCP_LogicTable s) as [logic|], (BCP_SlotTable s) as [slots|]; try done. destruct ok.
  - case_test; [|by simplify_eq]. destruct (slots !! _); [|done]. destruct (set_at _ _ _); [|done]. by simplify_eq.
  - destruct (if (b <? _)%Z then _ else _) as [l|]; [|done]. destruct (if (i <? _)%Z then _ else _) as [l'|]; [|done]. by simplify_eq.
Qed.

(** What a completed call gives: a handle, or nothing. *)
Definition get_result (b : Z) handles s s' (r : Claim) : Prop :=
  cache_inv s' (match r with Pinned i => [(b, i)] | _ => [] end ++ handles) [] /\
  BCP_TotalBlockCount s' = BCP_TotalBlockCount s /\ BCP_SlotCount s' = BCP_SlotCount s /\
  match r with Pinned i => (b < BCP_TotalBlockCount s)%Z | Refused => True | _ => False end.

Lemma ProcessGetBlock_ok s c handles b :
  cache_inv s handles [] -> (0 <= b)%Z -> (Z.of_nat (S (length handles)) < 2 ^ 32)%Z ->
  exists s' c' r, ProcessGetBlock s c b = Some (s', c', r) /\ get_result b handles s s' r.
Proof.
  intros (Hok & Hback & Hev) Hb Hsmall. unfold ProcessGetBlock.
  destruct (claim_block_ok s c handles [] b Hok Hb Hev) as (s1 & c1 & r & Hcl & Hres & Hsame & Hr); [cbn; lia|].
  pose proof (claim_evict _ _ _ _ _ _ Hev Hcl) as Hev1. pose proof (backed_same _ _ Hsame Hback) as Hback1.
  destruct Hsame as (_ & _ & _ & Htot & Hcnt). rewrite Hcl. destruct r as [|i| |i]; cbn [claim_result] in Hres.
  - by exists s1, c1, Refused.
  - exists s1, c1, (Pinned i). split; [done|]. split; [done|]. split; [done|]. split; [done|]. by destruct Hr.
  - destruct Hres as [_ [i Hi]]. by apply elem_of_nil in Hi.
  - destruct (read_slot_ok s1 handles [(b, i)] b i Hres Hback1) as (Hok2 & Hback2 & (pages & Hpg & Hpage & _) & Hev2 & Htot2 & Hcnt2);
      [apply list_elem_of_here|]. destruct (read_slot s1 b i) as [ok s2]. cbn [fst snd] in *. destruct ok.
    + destruct (publish_done s2 handles [] b i pages Hok2 Hpg (Hpage eq_refl)) as (s3 & Hpub & Hok3 & Hsame3). rewrite Hpub.
      exists s3, (count_disk_read c1), (Pinned i). split; [done|]. pose proof (publish_evict _ _ _ _ _ Hpub).
      pose proof (backed_same _ _ Hsame3 Hback2). destruct Hsame3 as (_ & _ & _ & Ht3 & Hc3).
      split; [split; [done|split; [done|lia]]|]. split; [congruence|]. split; [congruence|]. by destruct Hr.
    + destruct (publish_failed s2 handles [] b i Hok2) as (s3 & Hpub & Hok3 & Hsame3). rewrite Hpub.
      exists s3, c1, Refused. split; [done|]. pose proof (publish_evict _ _ _ _ _ Hpub).
      pose proof (backed_same _ _ Hsame3 Hback2). destruct Hsame3 as (_ & _ & _ & Ht3 & Hc3).
      split; [split; [done|split; [done|lia]]|]. split; [congruence|]. split; [congruence|done].
Qed.

Lemma try_pin_ok s c handles loads b :
  cache_ok disk s handles loads -> (0 <= b)%Z -> (Z.of_nat (S (length handles + length loads)) < 2 ^ 32)%Z ->
  exists s' c' r, try_pin s c b = Some (s', c', r) /\ claim_result b handles loads s s' r /\ same_store s s' /\
    BCP_EvictSlot s' = BCP_EvictSlot s /\ match r with Pinned _ => (b < BCP_TotalBlockCount s)%Z | Refused => s' = s | MustWait => True | Claimed _ => False end.
Proof.
  intros Hok Hb Hsmall. pose proof Hok as (pages & logic & slots & Hpg & Hlg & Hst & Ht & Hp & Hg). unfold try_pin.
  destruct (BCP_TotalBlockCount s <=? b)%Z eqn:E1; [by exists s, c, Refused|]. bool_to_prop. rewrite Hlg, Hst.
  pose proof (tok_total _ _ _ _ Ht).
  destruct (look_up_ok s logic slots b Ht ltac:(lia)) as (l & -> & Hl). destruct l as [|i|].
  - by exists s, c, Refused.
  - destruct Hl as (e & Hi & He & Hid & Hld).
    destruct (pin_ok s handles loads pages logic slots b i e) as (s' & Hpin & Hs' & Hsame); try done; [lia|].
    rewrite Hpin. exists s', (count_hit c), (Pinned i). split; [done|]. split; [done|]. split; [done|]. split; [|lia].
    unfold pin in Hpin. destruct (slots !! _); [|done]. destruct (set_at _ _ _); [|done]. by simplify_eq.
  - destruct Hl as (i & e & Hi & He & Hid & Hld). exists s, c, MustWait. split; [done|]. split; [|done].
    split; [done|]. exists i. rewrite <- Hid. by eapply busy_load.
Qed.

(** * Sequential mode *)

Lemma forget_blocks_ok total count logic slots :
  tables_ok total count logic slots -> forget_blocks logic slots = Some (replicate (Z.to_nat total) u32_max).
Proof.
  intros [Hc Htot Hll Hsl Hblock Hslot].
  assert (Hfold : forall todo l, length l = length logic ->
    (forall e, e ∈ todo -> BlockID e <> u32_max -> Z.to_nat (BlockID e) < length logic) ->
    (forall b v, l !! b = Some v -> v <> u32_max -> exists e, e ∈ todo /\ BlockID e = Z.of_nat b) ->
    exists l', forget_blocks l todo = Some l' /\ length l' = length logic /\ forall b v, l' !! b = Some v -> v = u32_max).
  { induction todo as [|e todo IH]; intros l Hl Hin Hleft; unfold forget_blocks; cbn [fold_option].
    - exists l. split; [done|]. split; [done|]. intros b v Hv. destruct (decide (v = u32_max)); [done|].
      destruct (Hleft b v Hv) as (e & He & _); [done|]. by apply elem_of_nil in He.
    - destruct (Z.eqb_spec (BlockID e) u32_max) as [Heq|Hne].
      + apply IH; [done|intros; apply Hin; [by apply list_elem_of_further|done]|]. intros b v Hv Hvne.
        destruct (Hleft b v Hv Hvne) as (x & [->|Hx]%elem_of_cons & Hid); [|by exists x].
        pose proof (lookup_lt_Some _ _ _ Hv). lia.
      + unfold set_at. specialize (Hin e (list_elem_of_here _ _)) as Hlt. replace (_ <? length l) with true by (specialize (Hlt Hne); lia).
        apply IH; [by rewrite length_insert|intros; apply Hin; [by apply list_elem_of_further|done]|]. intros b v Hv Hvne.
        destruct (decide (Z.to_nat (BlockID e) = b)) as [<-|Hb].
        * rewrite list_lookup_insert_eq in Hv by (specialize (Hlt Hne); lia). congruence.
        * rewrite list_lookup_insert_ne in Hv by done.
          destruct (Hleft b v Hv Hvne) as (x & [->|Hx]%elem_of_cons & Hid); [lia|by exists x]. }
  destruct (Hfold slots logic eq_refl) as (l' & Hf & Hl' & Hall).
  - intros e [i Hi]%list_elem_of_lookup_1 Hne. destruct (Hslot i e Hi Hne) as [He0 Hle]. by eapply lookup_lt_Some.
  - intros b v Hv Hne. destruct (Hblock b v Hv Hne) as (e & _ & He & Hid). exists e. split; [by eapply list_elem_of_lookup_2|done].
  - rewrite Hf. f_equal. apply list_eq. intros b. destruct (l' !! b) as [v|] eqn:Ev.
    + rewrite (Hall b v Ev). apply lookup_lt_Some in Ev. rewrite lookup_replicate_2 by lia. done.
    + apply lookup_ge_None_1 in Ev. symmetry. apply lookup_ge_None_2. rewrite length_replicate. lia.
Qed.

Lemma fill_window_ok n : forall (off start : Z) logic slots,
  (0 <= off)%Z -> (0 <= start)%Z -> Z.to_nat off + n <= length slots -> Z.to_nat (start + off) + n <= length logic ->
  exists logic' slots', fill_window n off start logic slots = Some (logic', slots') /\
    length logic' = length logic /\ length slots' = length slots /\
    (forall i, slots' !! i = if bool_decide (Z.to_nat off <= i < Z.to_nat off + n)
                             then Some {| BlockID := start + Z.of_nat i; Ref := 0; Loading := false |} else slots !! i) /\
    (forall b, logic' !! b = if bool_decide (Z.to_nat (start + off) <= b < Z.to_nat (start + off) + n)
                             then Some (Z.of_nat b - start)%Z else logic !! b).
Proof.
  induction n as [|n IH]; intros off start logic slots Ho Hs Hsl Hll; cbn [fill_window].
  - exists logic, slots. split; [done|]. split; [done|]. split; [done|]. split; intros i; rewrite bool_decide_eq_false_2 by lia; done.
  - unfold set_at. replace (_ <? length slots) with true by lia. replace (_ <? length logic) with true by lia.
    destruct (IH (off + 1)%Z start (<[Z.to_nat (start + off) := off]> logic)
      (<[Z.to_nat off := {| BlockID := start + off; Ref := 0; Loading := false |}]> slots)) as (l' & s' & Hf & Hl1 & Hs1 & Hs2 & Hl2);
      rewrite ?length_insert; [lia..|].
    exists l', s'. rewrite length_insert in Hl1. rewrite length_insert in Hs1. split; [done|]. split; [done|]. split; [done|]. split; intros i.
    + rewrite Hs2. destruct (decide (i = Z.to_nat off)) as [->|Hne].
      * rewrite bool_decide_eq_false_2, bool_decide_eq_true_2 by lia. rewrite list_lookup_insert_eq by lia.
        by rewrite Z2Nat.id by lia.
      * rewrite list_lookup_insert_ne by lia.
        rewrite (bool_decide_ext (Z.to_nat (off + 1) <= i < Z.to_nat (off + 1) + n) (Z.to_nat off <= i < Z.to_nat off + S n)) by lia. done.
    + rewrite Hl2. destruct (decide (i = Z.to_nat (start + off))) as [->|Hne].
      * rewrite bool_decide_eq_false_2, bool_decide_eq_true_2 by lia. rewrite list_lookup_insert_eq by lia. f_equal. lia.
      * rewrite list_lookup_insert_ne by lia.
        rewrite (bool_decide_ext (Z.to_nat (start + (off + 1)) <= i < Z.to_nat (start + (off + 1)) + n)
          (Z.to_nat (start + off) <= i < Z.to_nat (start + off) + S n)) by lia. done.
Qed.

(** An emptied cache. *)
Lemma empty_ok s pages :
  BCP_Pages s = Some pages -> (0 <= BCP_SlotCount s <= BCP_TotalBlockCount s)%Z -> (BCP_TotalBlockCount s <= u32_max)%Z ->
  length pages = Z.to_nat (BCP_SlotCount s) * PAGE_SIZE ->
  BCP_LogicTable s = Some (replicate (Z.to_nat (BCP_TotalBlockCount s)) u32_max) ->
  BCP_SlotTable s = Some (replicate (Z.to_nat (BCP_SlotCount s)) slot_default) -> cache_ok disk s [] [].
Proof.
  intros Hpg Hc Ht Hl Hlg Hst. eexists pages, _, _. split; [done|]. split; [done|]. split; [done|].
  assert (Hrep : forall i e, replicate (Z.to_nat (BCP_SlotCount s)) slot_default !! i = Some e -> e = slot_default)
    by (by intros i e [-> _]%lookup_replicate).
  split; [|split].
  - constructor; rewrite ?length_replicate; try lia.
    + intros b i [-> _]%lookup_replicate. done.
    + by intros i e ->%Hrep.
  - constructor; [cbn; lia|by intros i e ->%Hrep|by intros i e ->%Hrep|].
    intros h [Hh|Hh]; by apply elem_of_nil in Hh.
  - constructor; [by rewrite length_replicate|]. by intros i e ->%Hrep.
Qed.

(** A cache with the blocks from [start] on in its first [n] slots. *)
Lemma window_ok s pages logic slots start n :
  BCP_Pages s = Some pages -> BCP_LogicTable s = Some logic -> BCP_SlotTable s = Some slots ->
  (0 <= start)%Z -> Z.of_nat n = Z.min (BCP_SlotCount s) (BCP_TotalBlockCount s - start) ->
  (0 <= BCP_SlotCount s <= BCP_TotalBlockCount s)%Z -> (BCP_TotalBlockCount s <= u32_max)%Z ->
  length pages = Z.to_nat (BCP_SlotCount s) * PAGE_SIZE ->
  Z.of_nat (length logic) = BCP_TotalBlockCount s -> Z.of_nat (length slots) = BCP_SlotCount s ->
  (forall i, i < length slots -> slots !! i = Some (if bool_decide (i < n) then {| BlockID := start + Z.of_nat i; Ref := 0; Loading := false |}
                                                    else slot_default)) ->
  (forall b, b < length logic -> logic !! b = Some (if bool_decide (Z.to_nat start <= b < Z.to_nat start + n) then (Z.of_nat b - start)%Z
                                                    else u32_max)) ->
  (forall i, i < n -> slot_page pages (Z.of_nat i) = disk (start + Z.of_nat i)) ->
  cache_ok disk s [] [].
Proof.
  intros Hpg Hlg Hst Hs0 Hn Hc Ht Hpl Hll Hsl Hslot Hlogic Hpage. exists pages, logic, slots. split; [done|]. split; [done|]. split; [done|].
  assert (Hentry : forall i e, slots !! i = Some e -> Ref e = 0%Z /\ Loading e = false /\
    (BlockID e <> u32_max -> i < n /\ BlockID e = (start + Z.of_nat i)%Z)).
  { intros i e He. pose proof (lookup_lt_Some _ _ _ He) as Hlt. rewrite (Hslot i Hlt) in He. injection He as <-.
    case_bool_decide; cbn; [auto|]. split; [done|]. split; [done|]. by intros []. }
  split; [|split].
  - constructor; try done.
    + intros b i Hb Hne. pose proof (lookup_lt_Some _ _ _ Hb) as Hlt. rewrite (Hlogic b Hlt) in Hb. injection Hb as <-.
      case_bool_decide as Hr; [|done]. exists {| BlockID := Z.of_nat b; Ref := 0; Loading := false |}. split; [lia|]. split; [|done].
      rewrite (Hslot _) by lia. rewrite bool_decide_eq_true_2 by lia. do 2 f_equal. lia.
    + intros i e He Hne. destruct (Hentry i e He) as (_ & _ & Hid). destruct (Hid Hne) as [Hi ->]. split; [lia|].
      rewrite Hlogic by lia. rewrite bool_decide_eq_true_2 by lia. f_equal. lia.
  - constructor; [cbn; lia| | |].
    + intros i e He. by destruct (Hentry i e He) as (-> & _).
    + intros i e He. by destruct (Hentry i e He) as (_ & -> & _).
    + intros h [Hh|Hh]; by apply elem_of_nil in Hh.
  - constructor; [by rewrite Hpl; f_equal; lia|]. intros i e He Hne _. destruct (Hentry i e He) as (_ & _ & Hid).
    destruct (Hid Hne) as [Hi ->]. by apply Hpage.
Qed.

Lemma no_refs slots handles :
  pins_ok slots handles [] -> existsb (fun e => 0 <? Ref e)%Z slots = false -> handles = [].
Proof.
  intros Hp Hex. destruct handles as [|h handles]; [done|]. exfalso.
  destruct (pok_block _ _ _ Hp h) as (e & Hi & He & _); [left; apply list_elem_of_here|].
  pose proof (pok_ref _ _ _ Hp _ _ He) as Hr. rewrite uses_same in Hr by lia.
  assert (Htrue : existsb (fun e => 0 <? Ref e)%Z slots = true); [|congruence].
  apply existsb_exists. exists e. split; [by eapply list_elem_of_In, list_elem_of_lookup_2|lia].
Qed.

Lemma slot_page_app data rest i n :
  length data = n * PAGE_SIZE -> i < n -> slot_page (data ++ rest) (Z.of_nat i) = slice (i * PAGE_SIZE) PAGE_SIZE data.
Proof.
  intros Hl Hi. unfold slot_page. rewrite Nat2Z.id. apply slice_app_l.
  assert ((i + 1) * PAGE_SIZE <= n * PAGE_SIZE) by (apply Nat.mul_le_mono_r; lia). lia.
Qed.

Lemma LoadSequentialWindow_ok s handles b :
  cache_inv s handles [] -> (0 <= b)%Z ->
  exists s' ok, LoadSequentialWindow s b = Some (s', ok) /\ cache_inv s' handles [] /\
    BCP_TotalBlockCount s' = BCP_TotalBlockCount s /\ BCP_SlotCount s' = BCP_SlotCount s /\
    (ok = true -> handles = [] /\ (b < BCP_TotalBlockCount s)%Z /\
       exists logic slot, BCP_LogicTable s' = Some logic /\ logic !! Z.to_nat b = Some slot /\ slot <> u32_max).
Proof.
  intros (Hok & Hback & Hev) Hb. pose proof Hok as (pages & logic & slots & Hpg & Hlg & Hst & Ht & Hp & [Hgl Hgp]).
  unfold LoadSequentialWindow. rewrite Hpg, Hlg, Hst. destruct (BCP_File s) as [fa|] eqn:Ef; [|by exists s, false].
  pose proof Ht as [Hc Htot Hll Hsl _ _].
  destruct ((BCP_TotalBlockCount s <=? b)%Z || (BCP_SlotCount s =? 0)%Z) eqn:E1; [by exists s, false|]. bool_to_prop.
  destruct (existsb _ slots) eqn:Ex; [by exists s, false|]. apply (no_refs _ _ Hp) in Ex. subst handles.
  rewrite (forget_blocks_ok _ _ _ _ Ht). cbn [BCP_SlotCount BCP_TotalBlockCount BCP_BaseOffset BCP_EvictSlot set_tables].
  set (logic0 := replicate (Z.to_nat (BCP_TotalBlockCount s)) u32_max).
  assert (Hdef : map (fun _ => slot_default) slots = replicate (Z.to_nat (BCP_SlotCount s)) slot_default).
  { rewrite <- Hsl, Nat2Z.id. clear. induction slots; cbn; [done|by f_equal]. }
  rewrite Hdef. set (slots0 := replicate _ slot_default). set (s1 := set_tables s logic0 slots0 (BCP_EvictSlot s)).
  pose proof PAGE_SIZE_Z as HP.
  assert (Hempty : forall pages' file, length pages' = length pages -> cache_ok disk (set_pages s1 pages' file) [] []).
  { intros pages' file Hl. eapply empty_ok; try done. rewrite Hl, Hgl. cbn. by rewrite <- Hsl, Nat2Z.id. }
  set (n := Z.min (BCP_SlotCount s) (BCP_TotalBlockCount s - b)). assert (Hn : (0 < n <= BCP_SlotCount s)%Z) by (unfold n; lia).
  destruct (_ <? n * _)%Z eqn:E2.
  { exists s1, false. split; [done|]. split; [split; [|split; [exact Hback|done]]|done].
    eapply empty_ok; try done. cbn. by rewrite Hgl, <- Hsl, Nat2Z.id. }
  bool_to_prop. destruct (Hback fa Ef) as (file & content & Hopen & Hholds & Hbase & Hsize & Hdisk).
  assert (Hfitb : (n * 4096 <= BCP_SlotCount s * 4096)%Z) by nia.
  assert (Hfit : Z.to_nat (n * Z.of_nat PAGE_SIZE) <= length pages).
  { rewrite Hgl. lia. }
  unfold SetPosition. rewrite Hopen, bool_decide_eq_true_2 by done. cbn [negb].
  set (fa1 := {| m_FileHandle := Some file; m_Position := _ |}).
  pose proof (GetData_full fa1 file content eq_refl (take (Z.to_nat (n * Z.of_nat PAGE_SIZE)) pages) (n * Z.of_nat PAGE_SIZE) Hholds) as Hgd.
  cbn [m_Position fa1] in Hgd. rewrite length_take_le in Hgd by done.
  specialize (Hgd ltac:(nia) ltac:(nia) eq_refl ltac:(nia)).
  destruct (GetData _ _ _) as [[fa2 count] data]. destruct Hgd as (Hdl & Hopen2 & Hfull).
  set (pages2 := data ++ drop _ pages).
  assert (Hl2 : length pages2 = length pages) by (unfold pages2; rewrite length_app, length_drop, Hdl; lia).
  assert (Hback2 : forall logic' slots' ev, backed disk (set_tables (set_pages s1 pages2 (Some fa2)) logic' slots' ev)).
  { intros logic' slots' ev fa' Hfa. cbn in Hfa. injection Hfa as <-. by exists file, content. }
  destruct (Z.eqb_spec count (n * Z.of_nat PAGE_SIZE)) as [->|Hne]; cbn [negb].
  2:{ exists (set_pages s1 pages2 (Some fa2)), false. split; [done|]. split; [|done].
      split; [by apply Hempty|]. split; [apply (Hback2 logic0 slots0 0%Z)|done]. }
  destruct (Hfull eq_refl) as [Hdata _].
  destruct (fill_window_ok (Z.to_nat n) 0 b logic0 slots0) as (logic' & slots' & -> & Hll' & Hsl' & Hslots' & Hlogic');
    [lia|lia|unfold slots0; rewrite length_replicate; lia|unfold logic0; rewrite length_replicate; unfold n; lia|].
  cbn [fst snd]. unfold logic0, slots0 in Hll', Hsl'. rewrite length_replicate in Hll'. rewrite length_replicate in Hsl'.
  pose proof (Hlogic' (Z.to_nat b)) as Hlb. rewrite bool_decide_eq_true_2 in Hlb by lia. rewrite Hlb.
  replace (Z.of_nat (Z.to_nat b) - b =? u32_max)%Z with false by (unfold u32_max; lia). cbn [negb].
  eexists _, true. split; [done|]. split; [|split; [done|split; [done|]]].
  2:{ intros _. split; [done|]. split; [lia|]. eexists logic', _. split; [done|]. split; [exact Hlb|]. unfold u32_max. lia. }
  split; [|split; [apply Hback2|cbn; lia]].
  eapply (window_ok _ pages2 logic' slots' b (Z.to_nat n)); try done; cbn [BCP_SlotCount BCP_TotalBlockCount set_tables set_pages].
  - by rewrite Z2Nat.id by lia.
  - rewrite Hl2, Hgl. change (length slots * PAGE_SIZE = Z.to_nat (BCP_SlotCount s) * PAGE_SIZE). by rewrite <- Hsl, Nat2Z.id.
  - change (Z.of_nat (length logic') = BCP_TotalBlockCount s). lia.
  - change (Z.of_nat (length slots') = BCP_SlotCount s). lia.
  - intros i Hi. rewrite Hslots'. destruct (decide (i < Z.to_nat n)).
    + by rewrite !bool_decide_eq_true_2 by lia.
    + rewrite !bool_decide_eq_false_2 by lia. apply lookup_replicate_2. lia.
  - intros i Hi. rewrite Hlogic', Z.add_0_r. case_bool_decide; [done|]. apply lookup_replicate_2. lia.
  - intros i Hi. unfold pages2. rewrite (slot_page_app data _ i (Z.to_nat n)) by (rewrite ?Hdl; lia).
    rewrite Hdata. unfold fa1. cbn [m_Position]. assert ((i + 1) * PAGE_SIZE <= Z.to_nat n * PAGE_SIZE) by (apply Nat.mul_le_mono_r; lia).
    rewrite slice_slice by lia. rewrite Hdisk by lia. unfold file_block. f_equal. lia.
Qed.

(** Pinning a slot that the block table gives, when nothing is being loaded. *)
Lemma pin_resident s handles b i logic :
  cache_inv s handles [] -> (0 <= b)%Z -> BCP_LogicTable s = Some logic -> logic !! Z.to_nat b = Some i -> i <> u32_max ->
  (Z.of_nat (S (length handles)) < 2 ^ 32)%Z ->
  exists s', pin_slot s i = Some s' /\ cache_inv s' ((b, i) :: handles) [] /\ same_store s s'.
Proof.
  intros (Hok & Hback & Hev) Hb Hlg Hi Hne Hsmall. pose proof Hok as (pages & logic' & slots & Hpg & Hlg' & Hst & Ht & Hp & Hg).
  rewrite Hlg in Hlg'. injection Hlg' as <-. unfold pin_slot. rewrite Hlg, Hst.
  destruct (tok_block _ _ _ _ Ht _ _ Hi Hne) as (e & Hi0 & He & Hid). rewrite Z2Nat.id in Hid by done.
  assert (Hld : Loading e = false).
  { pose proof (pok_loading _ _ _ Hp _ _ He) as Hu. destruct (Loading e); [|done]. cbn in Hu. lia. }
  pose proof (lookup_lt_Some _ _ _ Hi). pose proof (tok_total _ _ _ _ Ht). pose proof (tok_logic _ _ _ _ Ht).
  destruct (pin_ok s handles [] pages logic slots b i e) as (s' & Hpin & Hs' & Hsame); try done; [lia|cbn; lia|].
  rewrite Hpin. exists s'. split; [done|]. split; [|done]. split; [done|]. split; [by eapply backed_same|].
  unfold pin in Hpin. destruct (slots !! _); [|done]. destruct (set_at _ _ _); [|done]. by simplify_eq.
Qed.

Lemma get_sequential_ok s handles b :
  cache_inv s handles [] -> (0 <= b)%Z -> (Z.of_nat (S (length handles)) < 2 ^ 32)%Z ->
  exists s' r, get_sequential s b = Some (s', r) /\ get_result b handles s s' r.
Proof.
  intros Hinv Hb Hsmall. pose proof Hinv as ((pages & logic & slots & Hpg & Hlg & Hst & Ht & Hp & Hg) & _ & _).
  assert (Hhit : exists hit, resident_slot s b = Some hit /\ forall i, hit = Some i ->
    logic !! Z.to_nat b = Some i /\ i <> u32_max /\ (b < BCP_TotalBlockCount s)%Z).
  { unfold resident_slot. rewrite Hpg, Hlg, Hst. destruct (b <? _)%Z eqn:E; [|by exists None]. bool_to_prop.
    pose proof (tok_logic _ _ _ _ Ht). destruct (lookup_lt_is_Some_2 logic (Z.to_nat b) ltac:(lia)) as [i Hi]. rewrite Hi.
    eexists. split; [done|]. intros j Hj. destruct (negb _ && _) eqn:E2; [|done]. injection Hj as <-. bool_to_prop. done. }
  destruct Hhit as (hit & Hres & Hhit). unfold get_sequential. rewrite Hres. destruct hit as [i|].
  - destruct (Hhit i eq_refl) as (Hi & Hne & Hlt).
    destruct (pin_resident s handles b i logic Hinv Hb Hlg Hi Hne Hsmall) as (s' & -> & Hinv' & _ & _ & _ & Htot & Hcnt).
    exists s', (Pinned i). split; [done|]. split; [done|]. done.
  - destruct (LoadSequentialWindow_ok s handles b Hinv Hb) as (s1 & ok & -> & Hinv1 & Htot1 & Hcnt1 & Hdone). cbn [fst snd].
    destruct ok; cbn [negb]; [|by exists s1, Refused].
    destruct (Hdone eq_refl) as (-> & Hlt & logic1 & i & Hlg1 & Hi & Hne). rewrite Hlg1, Hi.
    destruct (pin_resident s1 [] b i logic1 Hinv1 Hb Hlg1 Hi Hne Hsmall) as (s' & -> & Hinv' & _ & _ & _ & Htot & Hcnt).
    exists s', (Pinned i). split; [done|]. split; [done|]. split; [congruence|]. split; [congruence|done].
Qed.

Lemma cache_GetBlock_inv s c direct b sequential handles :
  cache_inv s handles [] -> (0 <= b)%Z -> (Z.of_nat (S (length handles)) < 2 ^ 32)%Z ->
  exists s' c' r, cache_GetBlock s c direct b sequential = Some (s', c', r) /\ get_result b handles s s' r.
Proof.
  intros Hinv Hb Hsmall. unfold cache_GetBlock. destruct sequential.
  { destruct (get_sequential_ok s handles b Hinv Hb Hsmall) as (s' & r & -> & Hr). by exists s', c, r. }
  destruct direct; [by apply ProcessGetBlock_ok|]. pose proof Hinv as (Hok & Hback & Hev).
  destruct (try_pin_ok s c handles [] b Hok Hb) as (s1 & c1 & r & -> & Hres & Hsame & Hev1 & Hr); [cbn; lia|]. destruct r as [|i| |i].
  - subst s1. by apply ProcessGetBlock_ok.
  - exists s1, c1, (Pinned i). split; [done|]. cbn in Hres. pose proof (backed_same _ _ Hsame Hback).
    destruct Hsame as (_ & _ & _ & Htot & Hcnt). split; [split; [done|split; [done|lia]]|]. done.
  - destruct Hres as [_ [i Hi]]. by apply elem_of_nil in Hi.
  - done.
Qed.

(** A free slot. *)
Definition has_free_slot s : Prop :=
  exists slots i e, BCP_SlotTable s = Some slots /\ slots !! i = Some e /\ Ref e = 0%Z /\ Loading e = false.

(** The file behind the pool is all there. *)
Definition disk_reads s : Prop :=
  exists fa file content, BCP_File s = Some fa /\ m_FileHandle fa = Some file /\ reads_fully file content /\
    (0 <= BCP_BaseOffset s)%Z /\
    (BCP_BaseOffset s + BCP_TotalBlockCount s * Z.of_nat PAGE_SIZE <= Z.of_nat (length content))%Z.

Lemma read_slot_succeeds s handles loads b i :
  cache_ok disk s handles loads -> disk_reads s -> (b, i) ∈ loads -> (read_slot s b i).1 = true.
Proof.
  intros Hok (fa & file & content & Hf & Hopen & Hreads & Hbase & Hsize) Hin.
  destruct (load_slot _ _ _ _ _ Hok Hin) as (pages & logic & slots & e & Hpg & Hlg & Hst & Hi & He & Hid & Hld & Hlb & Hb & Hic).
  destruct Hok as (pages' & logic' & slots' & Hpg' & Hlg' & Hst' & Ht & Hp & [Hgl Hgp]).
  rewrite Hpg in Hpg'. rewrite Hst in Hst'. injection Hpg' as <-. injection Hst' as <-. pose proof (lookup_lt_Some _ _ _ He).
  unfold read_slot. rewrite Hf, Hpg. pose proof PAGE_SIZE_Z as HP.
  assert (Hpl : length (slot_page pages i) = PAGE_SIZE).
  { unfold slot_page. apply length_slice. rewrite Hgl.
    assert ((Z.to_nat i + 1) * PAGE_SIZE <= length slots * PAGE_SIZE) by (apply Nat.mul_le_mono_r; lia). lia. }
  pose proof (ReadBlock_total fa file content Hopen b (slot_page pages i) PAGE_SIZE (BCP_BaseOffset s) Hreads) as Hr.
  destruct (ReadBlock _ _ _ _ _) as [ok page]. cbn [fst] in *. apply Hr; lia.
Qed.

(** In direct mode a block of the file is found whenever a slot is free and the clock does not wrap
    around during the scan. *)
Lemma ProcessGetBlock_finds s c handles b :
  cache_inv s handles [] -> (0 <= b < BCP_TotalBlockCount s)%Z -> (Z.of_nat (S (length handles)) < 2 ^ 32)%Z ->
  disk_reads s -> has_free_slot s -> (BCP_EvictSlot s + BCP_SlotCount s <= 2 ^ 32)%Z ->
  exists s' c' i, ProcessGetBlock s c b = Some (s', c', Pinned i).
Proof.
  intros (Hok & Hback & Hev) Hb Hsmall Hdisk (slots & k & e & Hst & Hk & Hr & Hl) Hw.
  destruct (claim_block_ok s c handles [] b Hok ltac:(lia) Hev) as (s1 & c1 & r & Hcl & Hres & Hsame & _); [cbn; lia|].
  unfold ProcessGetBlock. rewrite Hcl. destruct r as [|i| |i].
  - exfalso. pose proof Hok as (pages & logic & slots' & Hpg & Hlg & Hst' & Ht & Hp & Hg).
    rewrite Hst in Hst'. injection Hst' as <-. unfold claim_block in Hcl. rewrite Hpg, Hlg, Hst in Hcl.
    pose proof (lookup_lt_Some _ _ _ Hk). pose proof (tok_slots _ _ _ _ Ht).
    replace ((BCP_TotalBlockCount s <=? b)%Z || (BCP_SlotCount s =? 0)%Z) with false in Hcl by lia.
    destruct (look_up_ok s logic slots b Ht ltac:(lia)) as (l & Hlook & Hl'). rewrite Hlook in Hcl. destruct l as [|i|]; [|by destruct (pin _ _ _ _)|done].
    destruct (find_slot_finds slots (BCP_SlotCount s) (BCP_EvictSlot s) k e) as (ev & found & Hf); try done.
    rewrite Hf in Hcl. by destruct (take_slot _ _ _ _ _ _).
  - by exists s1, (c1), i.
  - destruct Hres as [_ [i Hi]]. by apply elem_of_nil in Hi.
  - assert (Hd1 : disk_reads s1).
    { destruct Hdisk as (fa & file & content & Hf & Hrest). destruct Hsame as (_ & Hf1 & Hb1 & Ht1 & _).
      exists fa, file, content. by rewrite Hf1, Hb1, Ht1. }
    cbn [claim_result] in Hres.
    pose proof (read_slot_succeeds s1 handles [(b, i)] b i Hres Hd1 (list_elem_of_here _ _)) as Htrue.
    destruct (read_slot_ok s1 handles [(b, i)] b i Hres (backed_same _ _ Hsame Hback) (list_elem_of_here _ _))
      as (Hok2 & _ & (pages & Hpg & Hpage & _) & _).
    destruct (read_slot s1 b i) as [ok s2]. cbn [fst snd] in *. subst ok.
    destruct (publish_done s2 handles [] b i pages Hok2 Hpg (Hpage eq_refl)) as (s3 & -> & _). by eexists _, _, i.
Qed.

(** Without handles a window of the file is loaded from any of its blocks on. *)
Lemma LoadSequentialWindow_finds s b :
  cache_inv s [] [] -> disk_reads s -> (0 <= b < BCP_TotalBlockCount s)%Z -> (0 < BCP_SlotCount s)%Z ->
  (BCP_SlotCount s * Z.of_nat PAGE_SIZE < 2 ^ 31)%Z -> exists s', LoadSequentialWindow s b = Some (s', true).
Proof.
  intros Hinv (fa & file & content & Ef & Hopen & Hreads & Hbase & Hsize) Hb Hcount Hsmall.
  destruct (LoadSequentialWindow_ok s [] b Hinv ltac:(lia)) as (s' & ok & Heq & _). rewrite Heq. exists s'. do 2 f_equal.
  destruct Hinv as ((pages & logic & slots & Hpg & Hlg & Hst & Ht & Hp & [Hgl _]) & _ & _). pose proof Ht as [Hc Htot Hll Hsl _ _].
  revert Heq. unfold LoadSequentialWindow. rewrite Ef, Hpg, Hlg, Hst.
  replace ((BCP_TotalBlockCount s <=? b)%Z || (BCP_SlotCount s =? 0)%Z) with false by lia.
  assert (Hex : existsb (fun e => 0 <? Ref e)%Z slots = false).
  { apply not_true_is_false. intros (e & Hin & Hpos)%existsb_exists. apply list_elem_of_In, list_elem_of_lookup in Hin as [i Hi].
    rewrite (pok_ref _ _ _ Hp _ _ Hi) in Hpos. cbn in Hpos. lia. }
  rewrite Hex, (forget_blocks_ok _ _ _ _ Ht). cbn [BCP_SlotCount BCP_TotalBlockCount BCP_BaseOffset BCP_EvictSlot set_tables].
  set (n := Z.min (BCP_SlotCount s) (BCP_TotalBlockCount s - b)). assert (Hn : (0 < n <= BCP_SlotCount s)%Z) by lia. pose proof PAGE_SIZE_Z as HP.
  replace (_ <? n * _)%Z with false by nia. unfold SetPosition. rewrite Hopen, bool_decide_eq_true_2 by done. cbn [negb].
  set (fa1 := {| m_FileHandle := Some file; m_Position := _ |}).
  assert (Hfit : Z.to_nat (n * Z.of_nat PAGE_SIZE) <= length pages) by nia.
  pose proof (GetData_total fa1 file content eq_refl (take (Z.to_nat (n * Z.of_nat PAGE_SIZE)) pages) (n * Z.of_nat PAGE_SIZE) Hreads) as Hgd.
  cbn [m_Position fa1] in Hgd. rewrite length_take_le in Hgd by done. specialize (Hgd ltac:(lia) ltac:(lia) eq_refl ltac:(nia)).
  destruct (GetData _ _ _) as [[fa2 count] data]. cbn [fst snd] in Hgd. subst count. rewrite Z.eqb_refl. cbn [negb].
  match goal with |- context[fill_window _ 0 b ?l ?t] => destruct (fill_window_ok (Z.to_nat n) 0 b l t)
    as (logic' & slots' & -> & _ & _ & _ & Hlogic') end; [lia|lia|rewrite length_map; lia|rewrite length_replicate; lia|].
  cbn [fst snd]. rewrite (Hlogic' (Z.to_nat b)), bool_decide_eq_true_2 by lia. intros [= _ <-]. unfold u32_max. lia.
Qed.

(** A block of the file is found in sequential mode when nothing is pinned. *)
Lemma get_sequential_finds s b :
  cache_inv s [] [] -> disk_reads s -> (0 <= b < BCP_TotalBlockCount s)%Z -> (0 < BCP_SlotCount s)%Z ->
  (BCP_SlotCount s * Z.of_nat PAGE_SIZE < 2 ^ 31)%Z -> exists s' i, get_sequential s b = Some (s', Pinned i).
Proof.
  intros Hinv Hd Hb Hcount Hsmall. destruct (get_sequential_ok s [] b Hinv ltac:(lia) ltac:(done)) as (s' & r & Heq & _). revert Heq.
  unfold get_sequential. destruct (resident_slot s b) as [[i|]|]; [| |done]; cbn [option_bind].
  - destruct (pin_slot s i); [|done]. intros [= <- <-]. by eauto.
  - destruct (LoadSequentialWindow_finds s b Hinv Hd Hb Hcount Hsmall) as [s1 ->]. cbn [fst snd negb option_bind].
    destruct (BCP_LogicTable s1); [|done]. cbn. destruct (_ !! _); [|done]. cbn. destruct (pin_slot s1 _); [|done]. intros [= <- <-]. by eauto.
Qed.
End invariant.

(** * Pools over memory and over a file *)

(** The blocks of a pool over memory. *)
Definition memory_block (blocks : list bytes) (b : Z) : bytes := nth (Z.to_nat b) blocks [].

(** A pool whose blocks are all in slots. *)
Definition resident (s : BlockCacheState) : Prop := exists logic, BCP_LogicTable s = Some logic /\ u32_max ∉ logic.

Section pools.
Implicit Types (s : BlockCacheState) (blocks : list bytes).

Lemma slice_page blocks i :
  Forall (fun p => length p = PAGE_SIZE) blocks -> i < length blocks ->
  slice (i * PAGE_SIZE) PAGE_SIZE (concat blocks) = nth i blocks [].
Proof.
  intros Hf Hi. destruct (lookup_lt_is_Some_2 blocks i Hi) as [p Hp]. rewrite (nth_lookup_Some _ _ _ _ Hp).
  clear Hi. revert i Hp. induction blocks as [|q blocks IH]; intros i Hp; [done|]. inversion Hf as [|? ? Hq Hf']; subst. cbn [concat].
  destruct i as [|i]; cbn in Hp.
  - injection Hp as ->. cbn [Nat.mul]. rewrite slice_app_l by lia. rewrite <- Hq. apply slice_full.
  - rewrite slice_app_r by lia. rewrite Hq. replace (S i * PAGE_SIZE - PAGE_SIZE) with (i * PAGE_SIZE) by lia. by apply IH.
Qed.

Lemma length_pages blocks :
  Forall (fun p => length p = PAGE_SIZE) blocks -> length (concat blocks) = length blocks * PAGE_SIZE.
Proof. induction 1 as [|p blocks Hp _ IH]; [done|]. cbn [concat length]. rewrite length_app, IH, Hp. lia. Qed.

Lemma SetPoolMemory_ok blocks :
  Forall (fun p => length p = PAGE_SIZE) blocks -> (Z.of_nat (length blocks) <= u32_max)%Z ->
  let s := SetPoolMemory (Some blocks) in
  cache_inv (memory_block blocks) s [] [] /\ resident s /\ BCP_TotalBlockCount s = Z.of_nat (length blocks) /\
  CopyPoolBlocks s = blocks.
Proof.
  intros Hf Hn. cbn [SetPoolMemory]. unfold SetPoolMemory. rewrite wrap_small by (unfold in_u, u32_max in *; lia). rewrite Nat2Z.id.
  cbv zeta. split; [|split; [|split; [done|]]].
  - split; [|split; [by intros fa|cbn; lia]].
    eapply (window_ok _ _ _ _ _ 0 (length blocks)); try done; cbn [BCP_SlotCount BCP_TotalBlockCount]; rewrite ?length_map, ?length_seq; try lia.
    + by rewrite length_pages, Nat2Z.id.
    + intros i Hi. change (map ?f ?l) with (f <$> l). rewrite list_lookup_fmap, lookup_seq_lt by done. cbn. by rewrite bool_decide_eq_true_2.
    + intros b Hb. change (map ?f ?l) with (f <$> l). rewrite list_lookup_fmap, lookup_seq_lt by done. cbn.
      rewrite bool_decide_eq_true_2 by lia. f_equal. lia.
    + intros i Hi. unfold slot_page, memory_block. rewrite Z.add_0_l, !Nat2Z.id. by apply slice_page.
  - eexists. split; [done|]. intros (i & Heq & Hi)%list_elem_of_fmap. apply elem_of_seq in Hi. unfold u32_max in *. lia.
  - unfold CopyPoolBlocks. cbn. rewrite Z.min_id, Nat2Z.id. apply list_eq. intros i. change (map ?f ?l) with (f <$> l).
    rewrite list_lookup_fmap. destruct (decide (i < length blocks)) as [Hi|Hi].
    + rewrite lookup_seq_lt by done. cbn. unfold slot_page. rewrite Nat2Z.id, slice_page by done.
      destruct (lookup_lt_is_Some_2 blocks i Hi) as [p Hp]. by rewrite (nth_lookup_Some _ _ _ _ Hp).
    + rewrite lookup_seq_ge by lia. symmetry. apply lookup_ge_None_2. lia.
Qed.

(** A resident block is pinned without reading. *)
Lemma resident_GetBlock disk s c direct b sequential handles :
  cache_inv disk s handles [] -> resident s -> (0 <= b < BCP_TotalBlockCount s)%Z -> (Z.of_nat (S (length handles)) < 2 ^ 32)%Z ->
  exists s' c' i, cache_GetBlock s c direct b sequential = Some (s', c', Pinned i) /\
    cache_inv disk s' ((b, i) :: handles) [] /\ resident s' /\ same_store s s'.
Proof.
  intros Hinv (logic & Hlg & Hres) Hb Hsmall. pose proof Hinv as ((pages & logic' & slots & Hpg & Hlg' & Hst & Ht & Hp & Hg) & Hback & Hev).
  rewrite Hlg in Hlg'. injection Hlg' as <-. pose proof Ht as [Hc Htot Hll Hsl Hblock _].
  destruct (lookup_lt_is_Some_2 logic (Z.to_nat b) ltac:(lia)) as [i Hi].
  assert (Hne : i <> u32_max) by (intros ->; by eapply Hres, list_elem_of_lookup_2).
  destruct (Hblock _ _ Hi Hne) as (e & Hi0 & He & Hid). rewrite Z2Nat.id in Hid by lia.
  pose proof (lookup_lt_Some _ _ _ He) as Hlt.
  assert (Hld : Loading e = false).
  { pose proof (pok_loading _ _ _ Hp _ _ He) as Hu. destruct (Loading e); [|done]. cbn in Hu. lia. }
  assert (Hlook : look_up s logic slots b = Some (Ready i)).
  { unfold look_up. rewrite Hi. replace ((i =? u32_max)%Z || (BCP_SlotCount s <=? i)%Z) with false by lia.
    by rewrite He, Hld, Hid, Z.eqb_refl. }
  destruct (pin_resident disk s handles b i logic Hinv ltac:(lia) Hlg Hi Hne Hsmall) as (s' & Hpin & Hinv' & Hsame).
  assert (Hpin' : pin s logic slots i = Some s') by (unfold pin_slot in Hpin; by rewrite Hlg, Hst in Hpin).
  assert (Hres' : resident s').
  { exists logic. split; [|done]. unfold pin in Hpin'. destruct (slots !! Z.to_nat i); [|done]. destruct (set_at _ _ _); [|done]. by simplify_eq. }
  unfold cache_GetBlock. destruct sequential; [|destruct direct].
  - exists s', c, i. split; [|done]. unfold get_sequential, resident_slot. rewrite Hpg, Hlg, Hst.
    replace (b <? BCP_TotalBlockCount s)%Z with true by lia. rewrite Hi.
    replace (negb (i =? u32_max)%Z && (i <? BCP_SlotCount s)%Z) with true by lia. by rewrite Hpin.
  - exists s', (count_hit (count_direct_get c)), i. split; [|done]. unfold ProcessGetBlock, claim_block. rewrite Hpg, Hlg, Hst.
    replace ((BCP_TotalBlockCount s <=? b)%Z || (BCP_SlotCount s =? 0)%Z) with false by lia. by rewrite Hlook, Hpin'.
  - exists s', (count_hit c), i. split; [|done]. unfold try_pin. replace (BCP_TotalBlockCount s <=? b)%Z with false by lia.
    by rewrite Hlg, Hst, Hlook, Hpin'.
Qed.

(** Opening a pool over a file. *)
Lemma cache_Init_ok file content base blockCount slotCount :
  file_holds file content -> (0 <= base)%Z -> (0 <= slotCount)%Z -> (0 <= blockCount <= u32_max)%Z ->
  (base + blockCount * Z.of_nat PAGE_SIZE < 2 ^ 63)%Z -> (Z.min slotCount blockCount * Z.of_nat PAGE_SIZE < 2 ^ 31)%Z ->
  let s := (cache_Init (Some (Some file)) base blockCount slotCount).1 in
  let r := (cache_Init (Some (Some file)) base blockCount slotCount).2 in
  cache_inv (file_block content base) s [] [] /\ BCP_TotalBlockCount s = blockCount /\ BCP_SlotCount s = Z.min slotCount blockCount /\
  (reads_fully file content -> (base + blockCount * Z.of_nat PAGE_SIZE <= Z.of_nat (length content))%Z -> r = Ok tt).
Proof.
  intros Hholds Hbase Hsc Hbc Hsize Hsmall. unfold cache_Init. cbn [fst fa_Init]. set (count := Z.min slotCount blockCount) in *.
  set (fa := {| m_FileHandle := Some file; m_Position := _ |}). pose proof PAGE_SIZE_Z as HP.
  assert (Hback : forall p l t ev, backed (file_block content base)
     (set_tables (set_pages {| BCP_Pages := None; BCP_BaseOffset := base; BCP_TotalBlockCount := blockCount; BCP_SlotCount := count;
        BCP_EvictSlot := count; BCP_LogicTable := None; BCP_SlotTable := None; BCP_File := None |} p (Some fa)) l t ev)).
  { intros p l t ev fa' Hfa. cbn in Hfa. injection Hfa as <-. by exists file, content. }
  destruct (0 <? count)%Z eqn:E; bool_to_prop.
  - pose proof (ReadBlock_ok fa file content eq_refl 0 (zeros (Z.to_nat count * PAGE_SIZE)) (Z.to_nat count * PAGE_SIZE) base Hholds
      ltac:(lia) ltac:(nia) (length_replicate _ _)) as Hr.
    pose proof (ReadBlock_total fa file content eq_refl 0 (zeros (Z.to_nat count * PAGE_SIZE)) (Z.to_nat count * PAGE_SIZE) base) as Htotal.
    destruct (ReadBlock _ _ _ _ _) as [ok pages]. cbn [fst snd] in *. destruct Hr as [Hpl Hpage].
    destruct ok; cbn [fst snd].
    + split; [|done]. split; [|split; [apply Hback|cbn; lia]].
      eapply (window_ok _ _ pages _ _ 0 (Z.to_nat count)); try done; cbn [BCP_SlotCount BCP_TotalBlockCount set_tables set_pages];
        rewrite ?length_imap, ?length_replicate; try lia.
      * intros i Hi. rewrite list_lookup_imap, lookup_replicate_2 by done. cbn. by rewrite bool_decide_eq_true_2.
      * intros b Hb. rewrite list_lookup_imap, lookup_replicate_2 by done. cbn -[Nat.ltb]. f_equal.
        destruct (b <? Z.to_nat count) eqn:Eb; bool_to_prop; [rewrite bool_decide_eq_true_2 by lia; lia|by rewrite bool_decide_eq_false_2 by lia].
      * intros i Hi. rewrite (Hpage eq_refl). unfold slot_page, file_block. rewrite Nat2Z.id.
        assert ((i + 1) * PAGE_SIZE <= Z.to_nat count * PAGE_SIZE) by (apply Nat.mul_le_mono_r; lia).
        rewrite slice_slice by lia. f_equal. lia.
    + split; [|split; [done|split; [done|]]].
      * split; [|split; [apply Hback|cbn; lia]]. by eapply empty_ok; cbn; try done; lia.
      * intros Hreads Hfit. exfalso. apply diff_false_true. apply Htotal; [done|lia|nia|nia|by apply length_replicate].
  - cbn [fst snd]. split; [|done]. split; [|split; [apply Hback|cbn; lia]]. eapply empty_ok; cbn; try done; try lia. apply length_replicate.
Qed.

(** A pool without handles and loads has only free slots. *)
Lemma unpinned_free_slot disk s : cache_inv disk s [] [] -> (0 < BCP_SlotCount s)%Z -> has_free_slot s.
Proof.
  intros ((pages & logic & slots & Hpg & Hlg & Hst & Ht & Hp & Hg) & _) Hc. pose proof (tok_slots _ _ _ _ Ht).
  destruct (lookup_lt_is_Some_2 slots 0 ltac:(lia)) as [e He]. exists slots, 0, e. split; [done|]. split; [done|].
  split; [by rewrite (pok_ref _ _ _ Hp _ _ He)|]. pose proof (pok_loading _ _ _ Hp _ _ He) as Hl. destruct (Loading e); [by destruct Hl|done].
Qed.

Lemma cache_Init_reads file content base blockCount slotCount :
  reads_fully file content -> (0 <= base)%Z -> (base + blockCount * Z.of_nat PAGE_SIZE <= Z.of_nat (length content))%Z ->
  let s := (cache_Init (Some (Some file)) base blockCount slotCount).1 in
  disk_reads s /\ BCP_EvictSlot s = Z.min slotCount blockCount.
Proof.
  intros Hr Hb Hf. unfold cache_Init. cbn [fst fa_Init]. destruct (0 <? Z.min slotCount blockCount)%Z; [destruct (ReadBlock _ _ _ _ _) as [ok pages]; destruct ok|].
  all: split; [|done]; eexists _, file, content; repeat (split; [done|]); done.
Qed.
End pools.

(** The [u32] clock wraps around to slot 0 whatever the slot count is, so a scan that crosses the
    wrap-around can miss a free slot. *)
Lemma clock_misses_free_slot :
  let busy := {| BlockID := 0; Ref := 1; Loading := false |} in
  let slots := [busy; busy; slot_default] in
  find_slot 3 slots 3 u32_max = Some (2%Z, None) /\ slots !! 2 = Some slot_default /\ Ref slot_default = 0%Z.
Proof. by vm_compute. Qed.

(** * Properties *)

(** a block asked for in any mode is refused, or pinned in a slot whose page is the block's page on
    disk; the pin counts and the tables stay right, so the handles held before keep their pages too, and
    without other threads no call waits. *)
Theorem GetBlock_page disk s c direct b sequential handles :
  cache_inv disk s handles [] -> (0 <= b)%Z -> (Z.of_nat (S (length handles)) < 2 ^ 32)%Z ->
  exists s' c' r, cache_GetBlock s c direct b sequential = Some (s', c', r) /\
    match r with
    | Pinned i => (b < BCP_TotalBlockCount s)%Z /\ handle_page s' i = disk b /\ cache_inv disk s' ((b, i) :: handles) []
    | Refused => cache_inv disk s' handles []
    | _ => False
    end /\
    forall b' i, (b', i) ∈ handles -> handle_page s i = disk b' /\ handle_page s' i = disk b'.
Proof.
  intros Hinv Hb Hsmall. destruct (cache_GetBlock_inv disk s c direct b sequential handles Hinv Hb Hsmall) as (s' & c' & r & Hg & Hr).
  exists s', c', r. split; [done|]. destruct Hr as (Hinv' & Htot & Hcnt & Hr). split.
  - destruct r; try done. split; [done|]. split; [|done]. eapply handle_page_ok; [apply Hinv'|apply list_elem_of_here].
  - intros b' i Hin. split; (eapply handle_page_ok; [apply Hinv || apply Hinv'|]); [done|].
    apply elem_of_app. by right.
Qed.

(** a pool opened over a file that can be read answers, and then in direct mode every block of the
    file is found as long as some slot is free and the eviction clock does not wrap around during the
    scan. *)
Theorem GetBlock_finds file content base blockCount slotCount :
  file_holds file content -> reads_fully file content -> (0 <= base)%Z -> (0 <= slotCount)%Z -> (0 <= blockCount <= u32_max)%Z ->
  (base + blockCount * Z.of_nat PAGE_SIZE <= Z.of_nat (length content))%Z -> (Z.of_nat (length content) < 2 ^ 63)%Z ->
  (Z.min slotCount blockCount * Z.of_nat PAGE_SIZE < 2 ^ 31)%Z ->
  exists s0, cache_Init (Some (Some file)) base blockCount slotCount = (s0, Ok tt) /\
    cache_inv (file_block content base) s0 [] [] /\
    forall s c handles b, cache_inv (file_block content base) s handles [] -> disk_reads s ->
      (0 <= b < BCP_TotalBlockCount s)%Z -> (Z.of_nat (S (length handles)) < 2 ^ 32)%Z -> has_free_slot s ->
      (BCP_EvictSlot s + BCP_SlotCount s <= 2 ^ 32)%Z ->
      exists s' c' i, cache_GetBlock s c true b false = Some (s', c', Pinned i).
Proof.
  intros Hholds Hreads Hbase Hsc Hbc Hfit Hlen Hsmall.
  destruct (cache_Init_ok file content base blockCount slotCount Hholds Hbase Hsc Hbc ltac:(lia) Hsmall) as (Hinv & _ & _ & Hok).
  specialize (Hok Hreads Hfit). destruct (cache_Init _ _ _ _) as [s0 r]. cbn [fst snd] in *. subst r.
  exists s0. split; [done|]. split; [done|]. intros s c handles b Hs Hd Hb Hh Hfree Hw. unfold cache_GetBlock.
  by eapply ProcessGetBlock_finds.
Qed.

(** * Witnesses *)

Definition no_stats : BlockAccessStats :=
  {| DirectGets := 0; DirectReleases := 0; WorkerGets := 0; WorkerReleases := 0; CacheHits := 0; CacheMisses := 0; DiskReads := 0 |}.

Lemma one_page_inv : cache_inv (memory_block [zeros PAGE_SIZE]) (SetPoolMemory (Some [zeros PAGE_SIZE])) [] [].
Proof.
  apply SetPoolMemory_ok.
  - apply Forall_singleton. apply length_replicate.
  - unfold u32_max. cbn [length]. lia.
Qed.

Lemma GetBlock_page_witness :
  exists s' c' r, cache_GetBlock (SetPoolMemory (Some [zeros PAGE_SIZE])) no_stats true 0 false = Some (s', c', r) /\
    match r with Pinned i => handle_page s' i = memory_block [zeros PAGE_SIZE] 0 | Refused => True | _ => False end.
Proof.
  destruct (GetBlock_page (memory_block [zeros PAGE_SIZE]) (SetPoolMemory (Some [zeros PAGE_SIZE])) no_stats true 0 false [])
    as (s' & c' & r & Hg & Hr & _); [apply one_page_inv|lia|cbn [length]; lia|].
  exists s', c', r. split; [exact Hg|]. destruct r; tauto.
Defined.

(** A file with every byte zero. *)
Definition zero_file (n : nat) : OsFile := fun position len => Some (slice (Z.to_nat position) len (zeros n)).

Lemma zero_file_ok n : file_holds (zero_file n) (zeros n) /\ reads_fully (zero_file n) (zeros n).
Proof. split; [by intros p l d _ [= <-]|by intros p l _ _]. Qed.

Lemma GetBlock_finds_witness :
  exists s0, cache_Init (Some (Some (zero_file (2 * PAGE_SIZE)))) 0 2 1 = (s0, Ok tt) /\
    cache_inv (file_block (zeros (2 * PAGE_SIZE)) 0) s0 [] [].
Proof.
  destruct (zero_file_ok (2 * PAGE_SIZE)) as [H1 H2]. pose proof PAGE_SIZE_Z as HP.
  assert (Hl : Z.of_nat (length (zeros (2 * PAGE_SIZE))) = 8192%Z) by (unfold zeros; rewrite length_replicate; lia).
  destruct (GetBlock_finds (zero_file (2 * PAGE_SIZE)) (zeros (2 * PAGE_SIZE)) 0 2 1 H1 H2) as (s0 & Hs & Hinv & _).
  - lia.
  - lia.
  - unfold u32_max. lia.
  - lia.
  - lia.
  - lia.
  - exists s0. split; [exact Hs|exact Hinv].
Defined.
