(* ===== verification/CacheSteps.v ===== *)
(** Threads that share one block cache (BlockTable.rs: ProcessGetBlockLocked,
    TryPinReadyOrWait, the sequential mode of GetBlock and BlockHandle::drop): a step
    relation in which the critical sections of all threads, the reads outside the
    lock, the waits on [BCP_StateCv] and its notifications interleave; the safety of
    pinned pages, the end of every wait, and the page the sequential mode hands out
    too early. *)

From Stdlib Require Import ZArith Lia ZifyBool Bool List.
From stdpp Require Import base list list_numbers relations.
From S2P Require Import Prelude FileAccess FileFormat BlockCache.

Local Open Scope moon_scope.

(** A load in flight: its thread holds slot [ld_slot] for block [ld_block];
    [ld_read] is the outcome of the read once it has been made. *)
Record Load := { ld_block : Z; ld_slot : Z; ld_read : option bool }.

(** A thread waiting on [BCP_StateCv] in a lookup of [wt_block], in
    TryPinReadyOrWait ([wt_try]) or ProcessGetBlockLocked; [wt_awake]: it was woken
    and has to take the lock again. *)
Record Waiter := { wt_thread : nat; wt_block : Z; wt_try : bool; wt_awake : bool }.

(** [sys_notifiers]: the threads past the second critical section of their load
    that have not called [notify_all] yet. *)
Record System := {
  sys_pool : BlockCacheState;
  sys_stats : BlockAccessStats;
  sys_handles : list (Z * Z);
  sys_loads : list Load;
  sys_waiters : list Waiter;
  sys_notifiers : nat;
}.

Definition load_key (l : Load) : Z * Z := (ld_block l, ld_slot l).

Definition asleep (t : nat) (b : Z) (try : bool) : Waiter := {| wt_thread := t; wt_block := b; wt_try := try; wt_awake := false |}.
Definition awake (w : Waiter) : Waiter := {| wt_thread := wt_thread w; wt_block := wt_block w; wt_try := wt_try w; wt_awake := true |}.

(** A thread entering a lookup ([try] for TryPinReadyOrWait, else
    ProcessGetBlockLocked in the caller's or the worker's thread) or looking again
    after a wait, the two halves of a load and its notification, a wake-up without
    one, dropping a handle, a sequential call, and a change in what the operating
    system answers. *)
Inductive Action :=
  | Enter (t : nat) (b : Z) (try : bool)
  | Retry (t : nat)
  | ReadPage (b i : Z)
  | Publish (b i : Z)
  | NotifyAll
  | Wake (t : nat)
  | Release (b i : Z) (mode : BlockReleaseMode)
  | Window (b : Z)
  | Io.

(** A turn of the loop of a lookup: the checks before the loop are of values that
    do not change while the tables are shared. *)
Definition lookup_block (try : bool) (pool : BlockCacheState) (stats : BlockAccessStats) (b : Z) : option (BlockCacheState * BlockAccessStats * Claim) :=
  if try then try_pin pool stats b else claim_block pool stats b.

(** After a lookup by [t]; [waiters]: the others. *)
Definition after_lookup (sys : System) (waiters : list Waiter) (pool : BlockCacheState) (stats : BlockAccessStats) (t : nat) (b : Z) (try : bool) (r : Claim) : System :=
  {| sys_pool := pool; sys_stats := stats;
     sys_handles := match r with Pinned i => (b, i) :: sys_handles sys | _ => sys_handles sys end;
     sys_loads := match r with
                  | Claimed i => {| ld_block := b; ld_slot := i; ld_read := None |} :: sys_loads sys
                  | _ => sys_loads sys
                  end;
     sys_waiters := match r with MustWait => asleep t b try :: waiters | _ => waiters end;
     sys_notifiers := sys_notifiers sys |}.

Definition with_state (sys : System) (pool : BlockCacheState) (stats : BlockAccessStats) (handles : list (Z * Z)) (loads : list Load) : System :=
  {| sys_pool := pool; sys_stats := stats; sys_handles := handles; sys_loads := loads; sys_waiters := sys_waiters sys; sys_notifiers := sys_notifiers sys |}.

Definition with_waiters (sys : System) (waiters : list Waiter) (notifiers : nat) : System :=
  {| sys_pool := sys_pool sys; sys_stats := sys_stats sys; sys_handles := sys_handles sys; sys_loads := sys_loads sys; sys_waiters := waiters; sys_notifiers := notifiers |}.

Inductive step (disk : Z -> bytes) : Action -> System -> System -> Prop :=
  | step_enter sys t b try pool stats r :
      (0 <= b)%Z -> t ∉ map wt_thread (sys_waiters sys) -> lookup_block try (sys_pool sys) (sys_stats sys) b = Some (pool, stats, r) ->
      step disk (Enter t b try) sys (after_lookup sys (sys_waiters sys) pool stats t b try r)
  | step_retry sys waiters1 waiters2 w pool stats r :
      sys_waiters sys = waiters1 ++ w :: waiters2 -> wt_awake w = true ->
      lookup_block (wt_try w) (sys_pool sys) (sys_stats sys) (wt_block w) = Some (pool, stats, r) ->
      step disk (Retry (wt_thread w)) sys (after_lookup sys (waiters1 ++ waiters2) pool stats (wt_thread w) (wt_block w) (wt_try w) r)
  | step_read sys loads1 loads2 b i ok pool :
      sys_loads sys = loads1 ++ {| ld_block := b; ld_slot := i; ld_read := None |} :: loads2 -> read_slot (sys_pool sys) b i = (ok, pool) ->
      step disk (ReadPage b i) sys
        (with_state sys pool (if ok then count_disk_read (sys_stats sys) else sys_stats sys) (sys_handles sys)
           (loads1 ++ {| ld_block := b; ld_slot := i; ld_read := Some ok |} :: loads2))
  | step_publish sys loads1 loads2 b i ok pool :
      sys_loads sys = loads1 ++ {| ld_block := b; ld_slot := i; ld_read := Some ok |} :: loads2 -> publish (sys_pool sys) b i ok = Some pool ->
      step disk (Publish b i) sys
        (with_waiters (with_state sys pool (sys_stats sys) (if ok then (b, i) :: sys_handles sys else sys_handles sys) (loads1 ++ loads2))
           (sys_waiters sys) (S (sys_notifiers sys)))
  | step_notify sys n :
      sys_notifiers sys = S n -> step disk NotifyAll sys (with_waiters sys (map awake (sys_waiters sys)) n)
  | step_wake sys waiters1 waiters2 w :
      sys_waiters sys = waiters1 ++ w :: waiters2 ->
      step disk (Wake (wt_thread w)) sys (with_waiters sys (waiters1 ++ awake w :: waiters2) (sys_notifiers sys))
  | step_release sys handles1 handles2 b i mode pool :
      sys_handles sys = handles1 ++ (b, i) :: handles2 -> release (sys_pool sys) i = Some pool ->
      step disk (Release b i mode) sys (with_state sys pool (count_release mode (sys_stats sys)) (handles1 ++ handles2) (sys_loads sys))
  | step_window sys b pool r :
      (0 <= b)%Z -> get_sequential (sys_pool sys) b = Some (pool, r) ->
      step disk (Window b) sys
        (with_state sys pool (sys_stats sys) (match r with Pinned i => (b, i) :: sys_handles sys | _ => sys_handles sys end) (sys_loads sys))
  | step_io sys pages fa :
      BCP_Pages (sys_pool sys) = Some pages -> backed disk (set_pages (sys_pool sys) pages (Some fa)) ->
      step disk Io sys (with_state sys (set_pages (sys_pool sys) pages (Some fa)) (sys_stats sys) (sys_handles sys) (sys_loads sys)).

(** Fewer than 2^32 - 1 handles and loads are alive at a time: each is a value in
    memory of 48 bytes or more. *)
Definition few_pins (sys : System) : Prop := (Z.of_nat (S (length (sys_handles sys) + length (sys_loads sys))) < 2 ^ 32)%Z.

(** A sequential lookup does not ask for a block that is being loaded: its hit path
    does not look at [Loading], see [sequential_hands_out_unread_page]. *)
Definition apart (sys : System) (act : Action) : Prop :=
  match act with Window b => forall l, l ∈ sys_loads sys -> ld_block l <> b | _ => True end.

Definition sys_step (disk : Z -> bytes) (s s' : System) : Prop := few_pins s /\ exists act, apart s act /\ step disk act s s'.

Definition sys_start (pool : BlockCacheState) (stats : BlockAccessStats) : System :=
  {| sys_pool := pool; sys_stats := stats; sys_handles := []; sys_loads := []; sys_waiters := []; sys_notifiers := 0 |}.

(** * The invariant of the system *)

(** A sleeper's block is being loaded, or a notification is still to come. *)
Definition no_lost_wakeup (sys : System) : Prop :=
  forall w, w ∈ sys_waiters sys -> wt_awake w = false -> 0 < sys_notifiers sys \/ exists l, l ∈ sys_loads sys /\ ld_block l = wt_block w.

Record sys_inv (disk : Z -> bytes) (sys : System) : Prop := {
  si_cache : cache_inv disk (sys_pool sys) (sys_handles sys) (map load_key (sys_loads sys));
  si_read : forall l, l ∈ sys_loads sys -> ld_read l = Some true -> handle_page (sys_pool sys) (ld_slot l) = disk (ld_block l);
  si_blocks : forall w, w ∈ sys_waiters sys -> (0 <= wt_block w)%Z;
  si_threads : NoDup (map wt_thread (sys_waiters sys));
  si_waits : no_lost_wakeup sys;
}.

Section system.
Context (disk : Z -> bytes).
Implicit Types (sys : System) (l : Load) (w : Waiter).

(** The part about the pool alone. *)
Definition pool_part sys : Prop :=
  cache_inv disk (sys_pool sys) (sys_handles sys) (map load_key (sys_loads sys)) /\
  forall l, l ∈ sys_loads sys -> ld_read l = Some true -> handle_page (sys_pool sys) (ld_slot l) = disk (ld_block l).

Lemma inv_pool_part sys : sys_inv disk sys -> pool_part sys.
Proof. by intros [H1 H2 _ _ _]. Qed.

Lemma same_store_page s s' i : same_store s s' -> handle_page s' i = handle_page s i.
Proof. intros (Hpg & _). unfold handle_page. by rewrite Hpg. Qed.

Lemma few_loads sys :
  few_pins sys -> (Z.of_nat (S (length (sys_handles sys) + length (map load_key (sys_loads sys)))) < 2 ^ 32)%Z.
Proof. intros Hf. unfold few_pins in Hf. by rewrite length_map. Qed.

Lemma lookup_block_ok sys try b : pool_part sys -> few_pins sys -> (0 <= b)%Z ->
  exists pool stats r, lookup_block try (sys_pool sys) (sys_stats sys) b = Some (pool, stats, r) /\
    claim_result disk b (sys_handles sys) (map load_key (sys_loads sys)) (sys_pool sys) pool r /\ same_store (sys_pool sys) pool /\ (0 <= BCP_EvictSlot pool)%Z.
Proof.
  intros [(Hok & Hback & Hev) _] Hfew Hb. destruct try; cbn [lookup_block].
  - destruct (try_pin_ok disk _ (sys_stats sys) _ _ b Hok Hb (few_loads _ Hfew)) as (p & c & r & Hcl & Hres & Hsame & Hev' & _).
    exists p, c, r. repeat (split; [done|]). lia.
  - destruct (claim_block_ok disk _ (sys_stats sys) _ _ b Hok Hb Hev (few_loads _ Hfew)) as (p & c & r & Hcl & Hres & Hsame & _).
    exists p, c, r. repeat (split; [done|]). by eapply claim_evict.
Qed.

(** A thread waits only for a load of its block. *)
Lemma wait_load sys try b pool stats : pool_part sys -> few_pins sys -> (0 <= b)%Z ->
  lookup_block try (sys_pool sys) (sys_stats sys) b = Some (pool, stats, MustWait) -> exists l, l ∈ sys_loads sys /\ ld_block l = b.
Proof.
  intros Hinv Hfew Hb Hcl. destruct (lookup_block_ok sys try b Hinv Hfew Hb) as (p & c & r & Hcl' & Hres & _).
  rewrite Hcl in Hcl'. injection Hcl' as <- <- <-. destruct Hres as [_ [i Hi]].
  apply list_elem_of_fmap in Hi as (l & Heq & Hl). exists l. split; [done|]. unfold load_key in Heq. by simplify_eq.
Qed.

Lemma lookup_pool sys waiters pool stats t b try r : pool_part sys -> few_pins sys -> (0 <= b)%Z ->
  lookup_block try (sys_pool sys) (sys_stats sys) b = Some (pool, stats, r) -> pool_part (after_lookup sys waiters pool stats t b try r).
Proof.
  intros Hinv Hfew Hb Hcl. destruct (lookup_block_ok sys try b Hinv Hfew Hb) as (p & c & r' & Hcl' & Hres & Hsame & Hev').
  rewrite Hcl in Hcl'. injection Hcl' as <- <- <-. destruct Hinv as [(Hok & Hback & Hev) Hread]. split.
  - split; [|split; [by eapply backed_same|done]]. destruct r; cbn in *; [done|done| |done]. by destruct Hres as [-> _].
  - intros l Hl Hr. cbn [sys_pool after_lookup]. rewrite (same_store_page _ _ _ Hsame). apply Hread; [|done].
    destruct r; cbn in Hl; try done. apply elem_of_cons in Hl as [->|]; done.
Qed.

(** Two loads do not share a slot. *)
Lemma loads_apart s handles loads1 b i loads2 h :
  cache_ok disk s handles (loads1 ++ (b, i) :: loads2) -> h ∈ loads1 ++ loads2 -> h.2 <> i.
Proof.
  intros Hok Hh Heq. assert (Hp : loads1 ++ (b, i) :: loads2 ≡ₚ (b, i) :: (loads1 ++ loads2)) by (by rewrite Permutation_middle).
  apply (cache_perm disk s handles handles _ _ (reflexivity _) Hp) in Hok.
  destruct Hok as (pages & logic & slots & _ & _ & _ & _ & Hpins & _).
  destruct (pok_block _ _ _ Hpins (b, i)) as (e & Hi & He & _); [right; apply list_elem_of_here|]. cbn in Hi, He.
  pose proof (pok_loading _ _ _ Hpins _ _ He) as Hu. rewrite uses_same in Hu by (cbn; lia).
  apply (uses_elem (Z.to_nat i)) in Hh; [|lia]. destruct (Loading e); lia.
Qed.

Lemma read_pool sys stats loads1 loads2 b i ok pool : pool_part sys ->
  sys_loads sys = loads1 ++ {| ld_block := b; ld_slot := i; ld_read := None |} :: loads2 -> read_slot (sys_pool sys) b i = (ok, pool) ->
  pool_part (with_state sys pool stats (sys_handles sys) (loads1 ++ {| ld_block := b; ld_slot := i; ld_read := Some ok |} :: loads2)).
Proof.
  intros [(Hok & Hback & Hev) Hread] Hloads Hr. rewrite Hloads in *. rewrite map_app in Hok. cbn [map load_key ld_block ld_slot] in Hok.
  destruct (read_slot_ok disk (sys_pool sys) (sys_handles sys) (map load_key loads1 ++ (b, i) :: map load_key loads2) b i)
    as (Hok' & Hback' & (pages & Hpg & Hpage & Hother) & Hev' & _); [done|done|apply elem_of_app; right; apply list_elem_of_here|].
  rewrite Hr in *. cbn [fst snd] in *. split; cbn [with_state sys_pool sys_handles sys_loads].
  - rewrite map_app. cbn [map load_key ld_block ld_slot]. split; [done|split; [done|lia]].
  - intros l Hl Htrue. apply elem_of_app in Hl. rewrite elem_of_cons in Hl.
    assert (Hl' : l = {| ld_block := b; ld_slot := i; ld_read := Some ok |} \/ l ∈ loads1 ++ loads2) by (rewrite elem_of_app; tauto).
    destruct Hl' as [->|Hl'].
    + cbn in Htrue. injection Htrue as ->. unfold handle_page. rewrite Hpg. by apply Hpage.
    + assert (Hin : l ∈ loads1 ++ {| ld_block := b; ld_slot := i; ld_read := None |} :: loads2).
      { rewrite elem_of_app, elem_of_cons. apply elem_of_app in Hl'. tauto. }
      assert (Hkey : load_key l ∈ map load_key loads1 ++ map load_key loads2) by (rewrite <- map_app; by apply (list_elem_of_fmap_2 load_key)).
      pose proof (loads_apart _ _ _ _ _ _ _ Hok Hkey) as Hne. cbn in Hne.
      rewrite <- (Hread l Hin Htrue). unfold handle_page. rewrite Hpg.
      destruct Hok as (old & logic & slots & Hold & _ & _ & _ & Hpins & _). rewrite Hold. apply Hother; [|done|done].
      destruct (pok_block _ _ _ Hpins (load_key l)) as (e & H0 & _); [|done]. right. rewrite elem_of_app, elem_of_cons.
      apply elem_of_app in Hkey. tauto.
Qed.

Lemma publish_pool sys loads1 loads2 b i ok pool : pool_part sys ->
  sys_loads sys = loads1 ++ {| ld_block := b; ld_slot := i; ld_read := Some ok |} :: loads2 -> publish (sys_pool sys) b i ok = Some pool ->
  pool_part (with_state sys pool (sys_stats sys) (if ok then (b, i) :: sys_handles sys else sys_handles sys) (loads1 ++ loads2)).
Proof.
  intros [(Hok & Hback & Hev) Hread] Hloads Hpub. rewrite Hloads in *. rewrite map_app in Hok. cbn [map load_key ld_block ld_slot] in Hok.
  assert (Hp : map load_key loads1 ++ (b, i) :: map load_key loads2 ≡ₚ (b, i) :: map load_key (loads1 ++ loads2))
    by (by rewrite map_app, Permutation_middle).
  apply (cache_perm disk (sys_pool sys) _ _ _ _ (reflexivity _) Hp) in Hok. pose proof (publish_evict _ _ _ _ _ Hpub) as Hev'.
  assert (Hres : exists s', publish (sys_pool sys) b i ok = Some s' /\
    cache_ok disk s' (if ok then (b, i) :: sys_handles sys else sys_handles sys) (map load_key (loads1 ++ loads2)) /\ same_store (sys_pool sys) s').
  { destruct ok; [|by apply publish_failed]. pose proof Hok as (pages & logic & slots & Hpg & _).
    apply (publish_done disk (sys_pool sys) (sys_handles sys) _ b i pages); [done|done|].
    specialize (Hread {| ld_block := b; ld_slot := i; ld_read := Some true |}). unfold handle_page in Hread. rewrite Hpg in Hread.
    apply Hread; [|done]. apply elem_of_app. right. apply list_elem_of_here. }
  destruct Hres as (s' & Hs' & Hok' & Hsame). rewrite Hpub in Hs'. injection Hs' as <-.
  split; cbn [with_state sys_pool sys_handles sys_loads].
  - split; [done|]. split; [by eapply backed_same|lia].
  - intros l Hl Htrue. rewrite (same_store_page _ _ _ Hsame). apply Hread; [|done].
    rewrite elem_of_app, elem_of_cons. apply elem_of_app in Hl. tauto.
Qed.

Lemma release_pool sys stats handles1 handles2 b i pool : pool_part sys ->
  sys_handles sys = handles1 ++ (b, i) :: handles2 -> release (sys_pool sys) i = Some pool ->
  pool_part (with_state sys pool stats (handles1 ++ handles2) (sys_loads sys)).
Proof.
  intros [(Hok & Hback & Hev) Hread] Hh Hrel. rewrite Hh in Hok.
  assert (Hp : handles1 ++ (b, i) :: handles2 ≡ₚ (b, i) :: (handles1 ++ handles2)) by (by rewrite Permutation_middle).
  apply (cache_perm disk (sys_pool sys) _ _ _ _ Hp (reflexivity _)) in Hok.
  destruct (release_ok disk (sys_pool sys) (b, i) _ _ Hok) as (s' & Hs' & Hok' & Hsame). cbn in Hs'. rewrite Hrel in Hs'. injection Hs' as <-.
  assert (Hev' : BCP_EvictSlot pool = BCP_EvictSlot (sys_pool sys)).
  { unfold release in Hrel. destruct (BCP_LogicTable (sys_pool sys)), (BCP_SlotTable (sys_pool sys)); try by simplify_eq.
    destruct (i <? _)%Z; [|by simplify_eq]. destruct (_ !! _) as [e|]; [|done]. destruct (0 <? Ref e)%Z; [|by simplify_eq].
    destruct (set_at _ _ _); [|done]. by simplify_eq. }
  split; cbn [with_state sys_pool sys_handles sys_loads].
  - split; [done|]. split; [by eapply backed_same|lia].
  - intros l Hl Htrue. rewrite (same_store_page _ _ _ Hsame). by apply Hread.
Qed.

(** A sequential lookup of a block that is not being loaded: with a load in flight
    it pins a slot that is ready, or finds slots in use and gives up. *)
Lemma resident_pinned sys b i : pool_part sys -> few_pins sys -> (0 <= b)%Z -> (forall l, l ∈ sys_loads sys -> ld_block l <> b) ->
  resident_slot (sys_pool sys) b = Some (Some i) ->
  exists pool, pin_slot (sys_pool sys) i = Some pool /\ same_store (sys_pool sys) pool /\ BCP_EvictSlot pool = BCP_EvictSlot (sys_pool sys) /\
    cache_ok disk pool ((b, i) :: sys_handles sys) (map load_key (sys_loads sys)).
Proof.
  intros [(Hok & Hback & Hev) _] Hfew Hb Hnot Hres. destruct Hok as (pages & logic & slots & Hpg & Hlg & Hst & Ht & Hp & Hg).
  unfold resident_slot in Hres. rewrite Hpg, Hlg, Hst in Hres. destruct (b <? _)%Z eqn:Elt; [|done]. bool_to_prop.
  pose proof (tok_logic _ _ _ _ Ht). pose proof (tok_total _ _ _ _ Ht). destruct (lookup_lt_is_Some_2 logic (Z.to_nat b) ltac:(lia)) as [j Hj].
  rewrite Hj in Hres. destruct (negb _ && _) eqn:E2; [|done]. injection Hres as ->. bool_to_prop.
  destruct (tok_block _ _ _ _ Ht _ _ Hj ltac:(lia)) as (e & Hi0 & He & Hid). rewrite Z2Nat.id in Hid by done.
  assert (Hld : Loading e = false).
  { destruct (Loading e) eqn:El; [|done]. pose proof (busy_load _ _ _ _ _ Hp Hi0 He El) as Hin. exfalso.
    apply list_elem_of_fmap in Hin as (l & Heq & Hl). apply (Hnot l Hl). unfold load_key in Heq. by simplify_eq. }
  unfold pin_slot. rewrite Hlg, Hst.
  destruct (pin_ok disk (sys_pool sys) (sys_handles sys) (map load_key (sys_loads sys)) pages logic slots b i e) as (s' & Hpin & Hs' & Hsame);
    try done; [unfold u32_max in *; lia|by apply few_loads|].
  rewrite Hpin. exists s'. split; [done|]. split; [done|]. split; [|done].
  unfold pin in Hpin. destruct (slots !! _); [|done]. destruct (set_at _ _ _); [|done]. by simplify_eq.
Qed.

Lemma window_refused sys b l : pool_part sys -> l ∈ sys_loads sys -> LoadSequentialWindow (sys_pool sys) b = Some (sys_pool sys, false).
Proof.
  intros [((pages & logic & slots & Hpg & Hlg & Hst & Ht & Hp & Hg) & _) _] Hl. unfold LoadSequentialWindow. rewrite Hpg, Hlg, Hst.
  destruct (BCP_File _); [|done]. destruct (_ || _); [done|].
  destruct (pok_block _ _ _ Hp (load_key l)) as (e & Hi & He & _); [right; by apply (list_elem_of_fmap_2 load_key)|].
  pose proof (pok_ref _ _ _ Hp _ _ He) as Href. pose proof (list_elem_of_fmap_2 load_key _ _ Hl) as Hin.
  apply (uses_elem (Z.to_nat (load_key l).2)) in Hin; [|lia]. change (fmap load_key) with (map load_key) in Hin.
  replace (existsb _ slots) with true; [done|]. symmetry. apply existsb_exists. exists e. split; [by eapply list_elem_of_In, list_elem_of_lookup_2|lia].
Qed.

Lemma window_pool sys b pool r : pool_part sys -> few_pins sys -> (0 <= b)%Z -> (forall l, l ∈ sys_loads sys -> ld_block l <> b) ->
  get_sequential (sys_pool sys) b = Some (pool, r) ->
  pool_part (with_state sys pool (sys_stats sys) (match r with Pinned i => (b, i) :: sys_handles sys | _ => sys_handles sys end) (sys_loads sys)).
Proof.
  intros Hinv Hfew Hb Hnot Hg. pose proof Hinv as [(Hok & Hback & Hev) Hread].
  destruct (decide (sys_loads sys = [])) as [Hnil|Hne].
  - rewrite Hnil in Hok. pose proof Hfew as Hf. unfold few_pins in Hf. rewrite Hnil in Hf. cbn in Hf.
    destruct (get_sequential_ok disk _ _ b (conj Hok (conj Hback Hev)) Hb) as (s' & r' & Hg' & Hinv' & _); [lia|].
    rewrite Hg in Hg'. injection Hg' as <- <-. split; cbn [with_state sys_pool sys_handles sys_loads]; rewrite Hnil.
    + cbn [map]. by destruct r.
    + intros l Hl. by apply elem_of_nil in Hl.
  - destruct (sys_loads sys) as [|l0 ls] eqn:Els; [done|]. unfold get_sequential in Hg.
    destruct (resident_slot (sys_pool sys) b) as [[i|]|] eqn:Eres; [| |done].
    + destruct (resident_pinned sys b i Hinv Hfew Hb) as (s' & Hpin & Hsame & Hev' & Hok'); [by rewrite Els|done|].
      rewrite Hpin in Hg. injection Hg as <- <-. split; cbn [with_state sys_pool sys_handles sys_loads].
      * rewrite Els in Hok'. split; [done|]. split; [by eapply backed_same|lia].
      * intros l Hl Htrue. rewrite (same_store_page _ _ _ Hsame). by apply Hread.
    + rewrite (window_refused sys b l0 Hinv) in Hg; [|rewrite Els; apply list_elem_of_here]. cbn in Hg. injection Hg as <- <-.
      split; cbn [with_state sys_pool sys_handles sys_loads]; [|done]. by split.
Qed.

Lemma io_pool sys pages fa stats : pool_part sys -> BCP_Pages (sys_pool sys) = Some pages -> backed disk (set_pages (sys_pool sys) pages (Some fa)) ->
  pool_part (with_state sys (set_pages (sys_pool sys) pages (Some fa)) stats (sys_handles sys) (sys_loads sys)).
Proof.
  intros [(Hok & Hback & Hev) Hread] Hpg Hback'. split; cbn [with_state sys_pool sys_handles sys_loads].
  - split; [|done]. destruct Hok as (pages' & logic & slots & Hpg' & Hrest). rewrite Hpg in Hpg'. injection Hpg' as <-.
    by exists pages, logic, slots.
  - intros l Hl Htrue. rewrite <- (Hread l Hl Htrue). unfold handle_page. by rewrite Hpg.
Qed.

Lemma step_pool act sys sys' : pool_part sys -> (forall w, w ∈ sys_waiters sys -> (0 <= wt_block w)%Z) -> few_pins sys -> apart sys act ->
  step disk act sys sys' -> pool_part sys'.
Proof.
  intros Hinv Hblocks Hfew Hapart Hstep. destruct Hstep as
    [sys t b try pool stats r Hb Ht Hl|sys w1 w2 w pool stats r Hw Ha Hl|sys l1 l2 b i ok pool Hl Hr|sys l1 l2 b i ok pool Hl Hp| | |sys h1 h2 b i mode pool Hh Hr|sys b pool r Hb Hg|].
  - by apply lookup_pool.
  - apply lookup_pool; try done. apply Hblocks. rewrite Hw, elem_of_app, elem_of_cons. tauto.
  - by apply read_pool.
  - by apply (publish_pool sys).
  - done.
  - done.
  - by eapply release_pool.
  - by apply window_pool.
  - by apply io_pool.
Qed.

(** ** Waiting threads *)

Lemma waiters_other (waiters1 waiters2 : list Waiter) w v : v ∈ waiters1 ++ waiters2 -> v ∈ waiters1 ++ w :: waiters2.
Proof. rewrite !elem_of_app, elem_of_cons. tauto. Qed.

Lemma threads_without waiters1 w waiters2 :
  NoDup (map wt_thread (waiters1 ++ w :: waiters2)) -> NoDup (map wt_thread (waiters1 ++ waiters2)) /\ wt_thread w ∉ map wt_thread (waiters1 ++ waiters2).
Proof.
  rewrite !map_app. cbn [map]. intros Hnd. assert (Hp : map wt_thread waiters1 ++ wt_thread w :: map wt_thread waiters2 ≡ₚ wt_thread w :: (map wt_thread waiters1 ++ map wt_thread waiters2))
    by (by rewrite Permutation_middle). rewrite Hp in Hnd. by apply NoDup_cons in Hnd as [Hn Hnd].
Qed.

Lemma lookup_waits sys waiters pool stats t b try r :
  (forall w, w ∈ waiters -> w ∈ sys_waiters sys) -> no_lost_wakeup sys -> (r = MustWait -> exists l, l ∈ sys_loads sys /\ ld_block l = b) ->
  no_lost_wakeup (after_lookup sys waiters pool stats t b try r).
Proof.
  intros Hsub Hw Hwait w Hin Ha. cbn [after_lookup sys_waiters sys_notifiers sys_loads] in *.
  assert (Hold : w ∈ waiters \/ r = MustWait /\ w = asleep t b try) by (destruct r; [by left..| |by left]; apply elem_of_cons in Hin as [->|]; auto).
  destruct Hold as [Hold|[-> ->]]; [|right; by apply Hwait]. destruct (Hw w (Hsub w Hold) Ha) as [Hn|(l & Hl & Hb)]; [by left|right].
  exists l. split; [|done]. destruct r; [done..|]. by right.
Qed.

Lemma lookup_inv sys waiters pool stats t b try r : sys_inv disk sys -> few_pins sys -> (0 <= b)%Z ->
  (forall w, w ∈ waiters -> w ∈ sys_waiters sys) -> NoDup (map wt_thread waiters) -> t ∉ map wt_thread waiters ->
  lookup_block try (sys_pool sys) (sys_stats sys) b = Some (pool, stats, r) -> sys_inv disk (after_lookup sys waiters pool stats t b try r).
Proof.
  intros Hinv Hfew Hb Hsub Hnd Ht Hl. pose proof (inv_pool_part _ Hinv) as Hpool.
  destruct (lookup_pool sys waiters pool stats t b try r Hpool Hfew Hb Hl) as [H1 H2]. destruct Hinv as [_ _ Hblocks _ Hwaits].
  split; [done|done| | |].
  - intros w Hw. cbn [after_lookup sys_waiters] in Hw. destruct r; try (by apply Hblocks, Hsub). apply elem_of_cons in Hw as [->|Hw]; [done|by apply Hblocks, Hsub].
  - cbn [after_lookup sys_waiters]. destruct r; try done. cbn [map]. by constructor.
  - apply lookup_waits; [done|done|]. intros ->. by eapply wait_load.
Qed.

(** Waking does not change who waits for what. *)
Lemma map_awake_threads waiters : map wt_thread (map awake waiters) = map wt_thread waiters.
Proof. rewrite map_map. by apply map_ext. Qed.

Lemma same_waiters sys pool stats handles loads : sys_inv disk sys -> pool_part (with_state sys pool stats handles loads) ->
  (forall l, l ∈ sys_loads sys -> exists l', l' ∈ loads /\ ld_block l' = ld_block l) -> sys_inv disk (with_state sys pool stats handles loads).
Proof.
  intros [_ _ Hblocks Hnd Hwaits] [H1 H2] Hkeep. split; [done..|]. intros w Hw Ha. destruct (Hwaits w Hw Ha) as [Hn|(l & Hl & Hb)]; [by left|right].
  destruct (Hkeep l Hl) as (l' & Hl' & Hb'). exists l'. split; [done|congruence].
Qed.

Lemma step_inv act sys sys' : sys_inv disk sys -> few_pins sys -> apart sys act -> step disk act sys sys' -> sys_inv disk sys'.
Proof.
  intros Hinv Hfew Hapart Hstep. pose proof (step_pool _ _ _ (inv_pool_part _ Hinv) (si_blocks _ _ Hinv) Hfew Hapart Hstep) as Hpool.
  pose proof Hinv as [_ _ Hblocks Hnd Hwaits]. destruct Hstep as
    [sys t b try pool stats r Hb Ht Hl|sys w1 w2 w pool stats r Hw Ha Hl|sys l1 l2 b i ok pool Hl Hr|sys l1 l2 b i ok pool Hl Hp|sys n Hn|sys w1 w2 w Hw|sys h1 h2 b i mode pool Hh Hr|sys b pool r Hb Hg|].
  - by apply lookup_inv.
  - rewrite Hw in Hnd. destruct (threads_without _ _ _ Hnd) as [Hnd' Ht]. apply lookup_inv; try done.
    + apply Hblocks. rewrite Hw, elem_of_app, elem_of_cons. tauto.
    + intros v Hv. rewrite Hw. by apply waiters_other.
  - apply same_waiters; [done|done|]. intros l Hin. rewrite Hl, elem_of_app, elem_of_cons in Hin.
    destruct Hin as [Hin|[->|Hin]]; [exists l|exists {| ld_block := b; ld_slot := i; ld_read := Some ok |}|exists l]; rewrite elem_of_app, elem_of_cons; tauto.
  - destruct Hpool as [H1 H2]. split; [done..|]. intros w Hin Ha. left. cbn. lia.
  - destruct Hpool as [H1 H2]. split; [done|done| | |].
    + intros w Hin. apply list_elem_of_fmap in Hin as (v & -> & Hv). by apply (Hblocks v).
    + cbn [with_waiters sys_waiters]. by rewrite map_awake_threads.
    + intros w Hin Ha. by apply list_elem_of_fmap in Hin as (v & -> & Hv).
  - destruct Hpool as [H1 H2]. rewrite Hw in Hnd. split; [done|done| | |].
    + intros v Hin. cbn [with_waiters sys_waiters] in Hin. rewrite elem_of_app, elem_of_cons in Hin.
      assert (Hmid : (0 <= wt_block w)%Z) by (apply Hblocks; rewrite Hw, elem_of_app, elem_of_cons; tauto).
      destruct Hin as [Hin|[->|Hin]]; [|exact Hmid|]; apply Hblocks; rewrite Hw, elem_of_app, elem_of_cons; tauto.
    + cbn [with_waiters sys_waiters]. rewrite map_app in *. exact Hnd.
    + intros v Hin Ha. cbn [with_waiters sys_waiters] in Hin. rewrite elem_of_app, elem_of_cons in Hin.
      destruct Hin as [Hin|[->|Hin]]; [|done|]; apply Hwaits; try done; rewrite Hw, elem_of_app, elem_of_cons; tauto.
  - apply same_waiters; [done|done|]. intros l Hin. by exists l.
  - apply same_waiters; [done|done|]. intros l Hin. by exists l.
  - apply same_waiters; [done|done|]. intros l Hin. by exists l.
Qed.

Lemma reach_inv sys sys' : sys_inv disk sys -> rtc (sys_step disk) sys sys' -> sys_inv disk sys'.
Proof. intros Hinv Hr. induction Hr as [|x y z [Hfew (act & Hap & Hstep)] _ IH]; [done|]. by eapply IH, step_inv. Qed.

Lemma start_inv pool stats : cache_inv disk pool [] [] -> sys_inv disk (sys_start pool stats).
Proof.
  intros H. split; cbn; [done| | |constructor|].
  - intros l Hl. by apply elem_of_nil in Hl.
  - intros w Hw. by apply elem_of_nil in Hw.
  - intros w Hw. by apply elem_of_nil in Hw.
Qed.

(** ** A call can always take its next step: no table index is out of range *)

Lemma enter_enabled sys t b try : sys_inv disk sys -> few_pins sys -> (0 <= b)%Z -> t ∉ map wt_thread (sys_waiters sys) ->
  exists sys', step disk (Enter t b try) sys sys'.
Proof.
  intros Hinv Hfew Hb Ht. destruct (lookup_block_ok sys try b (inv_pool_part _ Hinv) Hfew Hb) as (p & c & r & Hcl & _).
  eexists. by apply step_enter.
Qed.

Lemma retry_enabled sys w : sys_inv disk sys -> few_pins sys -> w ∈ sys_waiters sys -> wt_awake w = true -> exists sys', step disk (Retry (wt_thread w)) sys sys'.
Proof.
  intros Hinv Hfew Hw Ha. destruct (lookup_block_ok sys (wt_try w) (wt_block w) (inv_pool_part _ Hinv) Hfew (si_blocks _ _ Hinv _ Hw)) as (p & c & r & Hcl & _).
  apply list_elem_of_split in Hw as (w1 & w2 & Heq). eexists. by eapply step_retry.
Qed.

Lemma publish_enabled pool handles loads1 loads2 b i ok :
  cache_ok disk pool handles (map load_key (loads1 ++ {| ld_block := b; ld_slot := i; ld_read := Some ok |} :: loads2)) ->
  exists pool', publish pool b i ok = Some pool'.
Proof.
  intros Hok. destruct (load_slot disk _ _ _ b i Hok) as (pages & logic & slots & e & Hpg & Hlg & Hst & Hi & He & Hid & Hld & Hlb & Hb & Hic).
  { rewrite map_app. apply elem_of_app. right. apply list_elem_of_here. }
  unfold publish. rewrite Hlg, Hst. pose proof (lookup_lt_Some _ _ _ He). pose proof (lookup_lt_Some _ _ _ Hlb).
  replace (i <? _)%Z with true by lia. replace (b <? _)%Z with true by lia. rewrite He, Hlb, Z.eqb_refl.
  unfold set_at. replace (_ <? length slots) with true by lia. replace (_ <? length logic) with true by lia.
  destruct ok; by eexists.
Qed.

Lemma load_enabled sys l : sys_inv disk sys -> l ∈ sys_loads sys ->
  exists sys', step disk (match ld_read l with None => ReadPage (ld_block l) (ld_slot l) | Some _ => Publish (ld_block l) (ld_slot l) end) sys sys'.
Proof.
  intros Hinv Hl. pose proof (si_cache _ _ Hinv) as (Hok & _). apply list_elem_of_split in Hl as (l1 & l2 & Heq).
  destruct l as [b i [ok|]]; cbn in *.
  - rewrite Heq in Hok. destruct (publish_enabled _ _ l1 l2 b i ok Hok) as [pool' Hp]. eexists. by eapply step_publish.
  - destruct (read_slot (sys_pool sys) b i) as [ok pool'] eqn:Er. eexists. by eapply step_read.
Qed.

(** ** Loads in flight *)

Lemma load_unique sys loads1 l0 loads2 l :
  sys_inv disk sys -> sys_loads sys = loads1 ++ l0 :: loads2 -> l ∈ sys_loads sys -> ld_slot l = ld_slot l0 -> l = l0.
Proof.
  intros Hinv Heq Hl Hs. pose proof (si_cache _ _ Hinv) as (Hok & _). rewrite Heq in Hok, Hl. rewrite elem_of_app, elem_of_cons in Hl.
  assert (Hl' : l = l0 \/ l ∈ loads1 ++ loads2) by (rewrite elem_of_app; tauto). destruct Hl' as [|Hl']; [done|]. exfalso.
  rewrite map_app in Hok. cbn [map] in Hok. apply (list_elem_of_fmap_2 load_key) in Hl'.
  change (fmap load_key) with (map load_key) in Hl'. rewrite map_app in Hl'.
  by apply (loads_apart _ _ _ (ld_block l0) (ld_slot l0) _ _ Hok) in Hl'.
Qed.

(** The steps of a load's own thread. *)
Definition own (b i : Z) (act : Action) : Prop := act = ReadPage b i \/ act = Publish b i.

#[export] Instance BlockReleaseMode_eq : EqDecision BlockReleaseMode.
Proof. solve_decision. Defined.

#[export] Instance Action_eq : EqDecision Action.
Proof. solve_decision. Defined.

#[export] Instance own_dec b i act : Decision (own b i act).
Proof. unfold own. apply _. Defined.

(** A load stays as it is until its own thread moves. *)
Lemma load_stays act sys sys' l :
  step disk act sys sys' -> l ∈ sys_loads sys -> ~ own (ld_block l) (ld_slot l) act -> l ∈ sys_loads sys'.
Proof.
  intros Hstep Hl Hown.
  destruct Hstep as [sys t b try pool stats r Hb Ht Hk|sys w1 w2 w pool stats r Hw Ha Hk|sys l1 l2 b i ok pool Hk Hr|sys l1 l2 b i ok pool Hk Hp| | | | |];
    cbn [after_lookup with_state with_waiters sys_loads] in *; try done; try (by destruct r; try done; apply list_elem_of_further).
  - rewrite Hk in Hl. rewrite elem_of_app, elem_of_cons in *. destruct Hl as [?|[->|?]]; [by left| |by right; right]. by exfalso; apply Hown; left.
  - rewrite Hk in Hl. rewrite elem_of_app, elem_of_cons in *. destruct Hl as [?|[->|?]]; [by left| |by right]. by exfalso; apply Hown; right.
Qed.

(** What its own steps do. *)
Lemma own_read sys sys' b i l :
  sys_inv disk sys -> step disk (ReadPage b i) sys sys' -> l ∈ sys_loads sys -> ld_slot l = i ->
  ld_read l = None /\ exists ok, {| ld_block := b; ld_slot := i; ld_read := Some ok |} ∈ sys_loads sys'.
Proof.
  intros Hinv Hstep Hl Hs. inversion Hstep as [| |? l1 l2 ? ? ok pool Hk Hr| | | | | |]; subst.
  pose proof (load_unique _ _ _ _ l Hinv Hk Hl eq_refl) as ->. split; [done|]. exists ok.
  apply elem_of_app. right. apply list_elem_of_here.
Qed.

Lemma own_publish sys sys' b i l :
  sys_inv disk sys -> step disk (Publish b i) sys sys' -> l ∈ sys_loads sys -> ld_slot l = i ->
  is_Some (ld_read l) /\ 0 < sys_notifiers sys' /\ forall l', l' ∈ sys_loads sys' -> l' ∈ sys_loads sys /\ ld_slot l' <> i.
Proof.
  intros Hinv Hstep Hl Hs. inversion Hstep as [| | |? l1 l2 ? ? ok pool Hk Hp| | | | |]; subst.
  pose proof (load_unique _ _ _ _ l Hinv Hk Hl eq_refl) as ->. split; [by eexists|]. split; [cbn; lia|]. intros l' Hl'. cbn [with_state with_waiters sys_loads] in Hl'.
  split; [rewrite Hk, elem_of_app, elem_of_cons; apply elem_of_app in Hl'; tauto|].
  pose proof (si_cache _ _ Hinv) as (Hok & _). rewrite Hk, map_app in Hok. cbn [map] in Hok.
  apply (list_elem_of_fmap_2 load_key) in Hl'. change (fmap load_key) with (map load_key) in Hl'. rewrite map_app in Hl'.
  by apply (loads_apart _ _ _ _ _ _ _ Hok) in Hl'.
Qed.

(** A block has one load at most. *)
Lemma block_load sys l l' : sys_inv disk sys -> l ∈ sys_loads sys -> l' ∈ sys_loads sys -> ld_block l = ld_block l' -> ld_slot l = ld_slot l'.
Proof.
  intros Hinv Hl Hl' Hb. pose proof (si_cache _ _ Hinv) as (Hok & _).
  destruct (load_slot disk _ _ _ (ld_block l) (ld_slot l) Hok) as (pages & logic & slots & e & _ & Hlg & _ & _ & _ & _ & _ & H1 & _);
    [by apply (list_elem_of_fmap_2 load_key)|].
  destruct (load_slot disk _ _ _ (ld_block l') (ld_slot l') Hok) as (pages' & logic' & slots' & e' & _ & Hlg' & _ & _ & _ & _ & _ & H2 & _);
    [by apply (list_elem_of_fmap_2 load_key)|].
  rewrite Hlg in Hlg'. injection Hlg' as <-. rewrite Hb, H2 in H1. by injection H1.
Qed.

(** ** Who waits *)

Definition waiting (t : nat) (b : Z) (sys : System) : Prop := exists w, w ∈ sys_waiters sys /\ wt_thread w = t /\ wt_block w = b.
Definition waits_awake (t : nat) (b : Z) (sys : System) : Prop := exists w, w ∈ sys_waiters sys /\ wt_thread w = t /\ wt_block w = b /\ wt_awake w = true.

(** A waiting thread stays one until it looks again, and stays awake. *)
Lemma waiter_stays act sys sys' w : step disk act sys sys' -> w ∈ sys_waiters sys -> act <> Retry (wt_thread w) ->
  exists w', w' ∈ sys_waiters sys' /\ wt_thread w' = wt_thread w /\ wt_block w' = wt_block w /\ (wt_awake w = true \/ act = NotifyAll -> wt_awake w' = true).
Proof.
  intros Hstep Hw Hact.
  assert (Hsame : forall ws : list Waiter, w ∈ ws -> (wt_awake w = true \/ act = NotifyAll -> wt_awake w = true) -> exists w', w' ∈ ws /\ wt_thread w' = wt_thread w /\ wt_block w' = wt_block w /\
    (wt_awake w = true \/ act = NotifyAll -> wt_awake w' = true)) by (intros ws Hin Ha; by exists w).
  destruct Hstep as [sys t b try pool stats r Hb Ht Hk|sys w1 w2 v pool stats r Hv Ha Hk|sys l1 l2 b i ok pool Hk Hr|sys l1 l2 b i ok pool Hk Hp|sys n Hn|sys w1 w2 v Hv| | |];
    cbn [after_lookup with_state with_waiters sys_waiters] in *; try (apply Hsame; [done|by intros [|]]).
  - apply Hsame; [|by intros [|]]. destruct r; try done. by right.
  - apply Hsame; [|by intros [|]]. assert (Hin : w ∈ w1 ++ w2); [|by destruct r; try done; right].
    rewrite Hv, elem_of_app, elem_of_cons in Hw. rewrite elem_of_app. destruct Hw as [?|[->|?]]; [tauto|done|tauto].
  - exists (awake w). split; [by apply (list_elem_of_fmap_2 awake)|done].
  - rewrite Hv, elem_of_app, elem_of_cons in Hw. destruct Hw as [?|[->|?]].
    + apply Hsame; [rewrite elem_of_app; tauto|by intros [|]].
    + exists (awake v). split; [rewrite elem_of_app, elem_of_cons; tauto|done].
    + apply Hsame; [rewrite elem_of_app, elem_of_cons; tauto|by intros [|]].
Qed.

(** What a thread that looks again does. *)
Lemma retried sys sys' t b : sys_inv disk sys -> step disk (Retry t) sys sys' -> waiting t b sys ->
  exists waiters try pool stats r, (t ∉ map wt_thread waiters) /\ sys' = after_lookup sys waiters pool stats t b try r /\
    lookup_block try (sys_pool sys) (sys_stats sys) b = Some (pool, stats, r) /\ (0 <= b)%Z.
Proof.
  intros Hinv Hstep (w & Hw & Ht & Hb). pose proof (si_threads _ _ Hinv) as Hnd. pose proof (si_blocks _ _ Hinv _ Hw) as Hb0.
  remember (Retry t) as act eqn:Eact. destruct Hstep as [|sys w1 w2 v pool stats r Hv Ha Hk| | | | | | |]; try done. injection Eact as Et.
  rewrite Hv in Hnd. destruct (threads_without _ _ _ Hnd) as [_ Hout].
  assert (Hvw : v = w).
  { rewrite Hv, elem_of_app, elem_of_cons in Hw. destruct Hw as [Hw|[->|Hw]]; [|done|]; exfalso; apply Hout; rewrite Et, <- Ht, map_app, elem_of_app;
      [left|right]; by apply (list_elem_of_fmap_2 wt_thread). }
  subst v. rewrite Et in *. rewrite Hb in *. by exists (w1 ++ w2), (wt_try w), pool, stats, r.
Qed.

(** Looking again ends the wait or goes on with it. *)
Lemma retry_result sys sys' t b : sys_inv disk sys -> step disk (Retry t) sys sys' -> waiting t b sys ->
  (t ∉ map wt_thread (sys_waiters sys')) \/ waiting t b sys'.
Proof.
  intros Hinv Hstep Hw. destruct (retried sys sys' t b Hinv Hstep Hw) as (waiters & try & pool & stats & r & Ht & -> & _).
  cbn [after_lookup sys_waiters]. destruct r; [by left..| |by left]. right. exists (asleep t b try). split; [by left|done].
Qed.

(** Looking again when the block is not being loaded ends the wait. *)
Lemma retry_leaves sys sys' t b : sys_inv disk sys -> few_pins sys -> step disk (Retry t) sys sys' -> waiting t b sys ->
  (forall l, l ∈ sys_loads sys -> ld_block l <> b) -> t ∉ map wt_thread (sys_waiters sys').
Proof.
  intros Hinv Hfew Hstep Hw Hnot. destruct (retried sys sys' t b Hinv Hstep Hw) as (waiters & try & pool & stats & r & Ht & -> & Hk & Hb).
  cbn [after_lookup sys_waiters]. destruct r; try done. exfalso. destruct (wait_load sys _ _ _ _ (inv_pool_part _ Hinv) Hfew Hb Hk) as (l & Hl & Hlb).
  by apply (Hnot l Hl).
Qed.
End system.

(** * Runs *)

Section run.
Context (disk : Z -> bytes) (trace : nat -> System) (act : nat -> Action).
Hypothesis run_start : sys_inv disk (trace 0).
Hypothesis run_step : forall n, step disk (act n) (trace n) (trace (S n)).
Hypothesis run_apart : forall n, apart (trace n) (act n).
Hypothesis run_few : forall n, few_pins (trace n).

(** Every thread that can move on its own moves in the end: one with a load in
    flight, one about to notify, one that was woken. *)
Record fair_turns : Prop := {
  fr_load : forall n l, l ∈ sys_loads (trace n) -> exists m, n <= m /\ own (ld_block l) (ld_slot l) (act m);
  fr_notify : forall n, 0 < sys_notifiers (trace n) -> exists m, n <= m /\ act m = NotifyAll;
  fr_awake : forall n w, w ∈ sys_waiters (trace n) -> wt_awake w = true -> exists m, n <= m /\ act m = Retry (wt_thread w);
}.

(** A load of the block begins in turn [n]. *)
Definition begins (b : Z) (n : nat) : Prop :=
  (forall l, l ∈ sys_loads (trace n) -> ld_block l <> b) /\ exists l, l ∈ sys_loads (trace (S n)) /\ ld_block l = b.

Hypothesis run_fair : fair_turns.

Lemma run_inv n : sys_inv disk (trace n).
Proof. induction n as [|n IH]; [done|]. by eapply step_inv. Qed.

Lemma first_own l d : forall n, l ∈ sys_loads (trace n) -> own (ld_block l) (ld_slot l) (act (n + d)) ->
  exists k, n <= k /\ own (ld_block l) (ld_slot l) (act k) /\ l ∈ sys_loads (trace k).
Proof.
  induction d as [|d IH]; intros n Hl Hown; [exists n; by rewrite Nat.add_0_r in Hown|].
  destruct (decide (own (ld_block l) (ld_slot l) (act n))) as [Ho|Ho]; [by exists n|].
  destruct (IH (S n)) as (k & Hk & ?); [by eapply load_stays|by replace (S n + d) with (n + S d) by lia|]. exists k. split; [lia|done].
Qed.

Lemma next_own n l : l ∈ sys_loads (trace n) ->
  exists k, n <= k /\ own (ld_block l) (ld_slot l) (act k) /\ l ∈ sys_loads (trace k).
Proof.
  intros Hl. destruct (fr_load run_fair n l Hl) as (m & Hm & Hown). apply (first_own l (m - n) n Hl). by replace (n + (m - n)) with m by lia.
Qed.

(** A load whose read is made is published. *)
Lemma load_published n l : l ∈ sys_loads (trace n) -> is_Some (ld_read l) ->
  exists k, n <= k /\ act k = Publish (ld_block l) (ld_slot l) /\ l ∈ sys_loads (trace k).
Proof.
  intros Hl Hr. destruct (next_own n l Hl) as (k & Hk & [Ha|Ha] & Hlk); [|by exists k]. exfalso. pose proof (run_step k) as Hs.
  rewrite Ha in Hs. destruct (own_read disk _ _ _ _ l (run_inv k) Hs Hlk eq_refl) as [Hn _]. rewrite Hn in Hr. by destruct Hr.
Qed.

Lemma load_ends n l : l ∈ sys_loads (trace n) ->
  exists k l', n <= k /\ act k = Publish (ld_block l) (ld_slot l) /\ l' ∈ sys_loads (trace k) /\ load_key l' = load_key l.
Proof.
  intros Hl. destruct (next_own n l Hl) as (k & Hk & [Ha|Ha] & Hlk); [|by exists k, l]. pose proof (run_step k) as Hs.
  rewrite Ha in Hs. destruct (own_read disk _ _ _ _ l (run_inv k) Hs Hlk eq_refl) as [_ [ok Hin]].
  destruct (load_published (S k) _ Hin) as (k' & Hk' & Ha' & Hlk'); [by eexists|].
  exists k', {| ld_block := ld_block l; ld_slot := ld_slot l; ld_read := Some ok |}. split; [lia|]. done.
Qed.

(** After it, a notification is to come and the block is not being loaded. *)
Lemma load_over n l : l ∈ sys_loads (trace n) ->
  exists k, n < k /\ 0 < sys_notifiers (trace k) /\ forall l', l' ∈ sys_loads (trace k) -> ld_block l' <> ld_block l.
Proof.
  intros Hl. destruct (load_ends n l Hl) as (k & l' & Hk & Ha & Hl' & Hkey). pose proof (run_step k) as Hs. rewrite Ha in Hs.
  injection Hkey as Hb Hslot. destruct (own_publish disk _ _ _ _ l' (run_inv k) Hs Hl' Hslot) as (_ & Hn & Hleft).
  exists (S k). split; [lia|]. split; [done|]. intros l2 Hl2 Hb2. destruct (Hleft l2 Hl2) as [Hin Hne]. apply Hne. rewrite <- Hslot.
  eapply block_load; [apply run_inv|done|done|congruence].
Qed.

(** ** Waiting threads look again *)

Lemma wait_turn t b n : waiting t b (trace n) -> act n <> Retry t -> waiting t b (trace (S n)) /\ (act n = NotifyAll -> waits_awake t b (trace (S n))).
Proof.
  intros (w & Hw & <- & <-) Ha. destruct (waiter_stays disk _ _ _ _ (run_step n) Hw Ha) as (w' & Hw' & Ht & Hb & Haw).
  split; [by exists w'|]. intros Hn. exists w'. repeat (split; [done|]). auto.
Qed.

Lemma waits_for t b d : forall n, waiting t b (trace n) -> (exists k, n <= k /\ act k = Retry t /\ waiting t b (trace k)) \/ waiting t b (trace (n + d)).
Proof.
  induction d as [|d IH]; intros n Hw; [right; by rewrite Nat.add_0_r|]. destruct (decide (act n = Retry t)) as [Ha|Ha]; [left; by exists n|].
  destruct (IH (S n)) as [(k & Hk & ?)|Hlater]; [by apply wait_turn|left; exists k; split; [lia|done]|right]. by replace (n + S d) with (S n + d) by lia.
Qed.

Lemma awake_retries t b n : waits_awake t b (trace n) -> exists m, n <= m /\ act m = Retry t /\ waiting t b (trace m).
Proof.
  intros (w & Hw & <- & <- & Ha). destruct (fr_awake run_fair n w Hw Ha) as (m & Hm & Hr).
  destruct (waits_for (wt_thread w) (wt_block w) (m - n) n) as [Hk|Hlater]; [by exists w|done|]. replace (n + (m - n)) with m in Hlater by lia. by exists m.
Qed.

Lemma notified_retries t b n : waiting t b (trace n) -> 0 < sys_notifiers (trace n) -> exists m, n <= m /\ act m = Retry t /\ waiting t b (trace m).
Proof.
  intros Hw Hn. destruct (fr_notify run_fair n Hn) as (m & Hm & Ha). destruct (waits_for t b (m - n) n Hw) as [Hk|Hlater]; [done|].
  replace (n + (m - n)) with m in Hlater by lia. destruct (wait_turn t b m Hlater) as [_ Haw]; [by rewrite Ha|].
  destruct (awake_retries t b (S m) (Haw Ha)) as (k & Hk & ?). exists k. split; [lia|done].
Qed.

Lemma waiting_retries t b n : waiting t b (trace n) -> exists m, n <= m /\ act m = Retry t /\ waiting t b (trace m).
Proof.
  intros Hw. pose proof Hw as (w & Hin & Ht & Hb). destruct (wt_awake w) eqn:Ea; [apply awake_retries; by exists w|].
  destruct (si_waits _ _ (run_inv n) w Hin Ea) as [Hn|(l & Hl & Hlb)]; [by apply notified_retries|].
  destruct (load_over n l Hl) as (k & Hk & Hn & _). destruct (waits_for t b (k - n) n Hw) as [Hr|Hlater]; [done|].
  replace (n + (k - n)) with k in Hlater by lia. destruct (notified_retries t b k Hlater Hn) as (m & Hm & ?). exists m. split; [lia|done].
Qed.

(** ** And go on *)

Definition gone (t : nat) (n : nat) : Prop := t ∉ map wt_thread (sys_waiters (trace n)).

Lemma wait_or_gone t b n : waiting t b (trace n) -> waiting t b (trace (S n)) \/ gone t (S n).
Proof.
  intros Hw. destruct (decide (act n = Retry t)) as [Ha|Ha]; [|left; by apply wait_turn]. pose proof Hw as (w & Hin & Ht & Hb).
  pose proof (run_step n) as Hs. rewrite Ha in Hs. destruct (retry_result disk _ _ t b (run_inv n) Hs Hw) as [Hg|Hw']; [by right|by left].
Qed.

Lemma until t b d : forall n, waiting t b (trace n) -> (exists k, n <= k /\ gone t k) \/ waiting t b (trace (n + d)).
Proof.
  induction d as [|d IH]; intros n Hw; [right; by rewrite Nat.add_0_r|]. destruct (wait_or_gone t b n Hw) as [Hw'|Hg]; [|left; exists (S n); split; [lia|done]].
  destruct (IH (S n) Hw') as [(k & Hk & ?)|Hlater]; [left; exists k; split; [lia|done]|right]. by replace (n + S d) with (S n + d) by lia.
Qed.

Lemma loads_of b n : (exists l, l ∈ sys_loads (trace n) /\ ld_block l = b) \/ forall l, l ∈ sys_loads (trace n) -> ld_block l <> b.
Proof.
  induction (sys_loads (trace n)) as [|l ls [(l' & Hl & Hb)|IH]]; [right; intros l Hl; by apply elem_of_nil in Hl|left; exists l'; split; [by right|done]|].
  destruct (decide (ld_block l = b)) as [Hb|Hb]; [left; exists l; split; [by left|done]|right]. intros l' [->|Hl]%elem_of_cons; [done|by apply IH].
Qed.

Lemma unloaded_stays b K : (forall m, K <= m -> ~ begins b m) -> forall n d, K <= n -> (forall l, l ∈ sys_loads (trace n) -> ld_block l <> b) ->
  forall l, l ∈ sys_loads (trace (n + d)) -> ld_block l <> b.
Proof.
  intros Hnb n d Hn H0. induction d as [|d IH]; [by rewrite Nat.add_0_r|]. replace (n + S d) with (S (n + d)) by lia.
  destruct (loads_of b (S (n + d))) as [Hl|Hno]; [|done]. destruct (Hnb (n + d)); [lia|]. by split.
Qed.

Lemma wait_over t b n K : waiting t b (trace n) -> (forall m, K <= m -> ~ begins b m) -> exists m, n <= m /\ gone t m.
Proof.
  intros Hw Hnb. set (N := Nat.max n K).
  assert (HM : exists M, N <= M /\ forall l, l ∈ sys_loads (trace M) -> ld_block l <> b).
  { destruct (loads_of b N) as [(l & Hl & <-)|Hno]; [|by exists N]. destruct (load_over N l Hl) as (k & Hk & _ & Hno). exists k. split; [lia|done]. }
  destruct HM as (M & HM & Hno). destruct (until t b (M - n) n Hw) as [Hg|HwM]; [done|]. replace (n + (M - n)) with M in HwM by lia.
  destruct (waiting_retries t b M HwM) as (m & Hm & Ha & Hwm). exists (S m). split; [lia|]. pose proof (run_step m) as Hs. rewrite Ha in Hs.
  eapply retry_leaves; [apply run_inv|apply run_few|exact Hs|exact Hwm|].
  pose proof (unloaded_stays b K Hnb M (m - M) ltac:(lia) Hno) as Hlater. by replace (M + (m - M)) with m in Hlater by lia.
Qed.
End run.

(** * Properties *)

(** What the tables say: every slot is pinned as often as it has handles and loads,
    and every handle's block is found in its slot. *)
Definition pins_right (sys : System) : Prop :=
  exists logic slots, BCP_LogicTable (sys_pool sys) = Some logic /\ BCP_SlotTable (sys_pool sys) = Some slots /\
    (forall i e, slots !! i = Some e -> Ref e = Z.of_nat (uses i (sys_handles sys) + uses i (map load_key (sys_loads sys)))) /\
    forall b i, (b, i) ∈ sys_handles sys -> logic !! Z.to_nat b = Some i.

Lemma inv_pins disk sys : sys_inv disk sys -> pins_right sys.
Proof.
  intros Hinv. pose proof (si_cache _ _ Hinv) as ((pages & logic & slots & _ & Hlg & Hst & Ht & Hp & _) & _). exists logic, slots.
  split; [done|]. split; [done|]. split; [apply Hp|]. intros b i Hin.
  destruct (pok_block _ _ _ Hp (b, i)) as (e & Hi & He & Hid & Hne); [by left|]. cbn in *.
  destruct (tok_slot _ _ _ _ Ht _ _ He) as [_ Hl]; [congruence|]. rewrite Hid, Z2Nat.id in Hl by done. done.
Qed.

Lemma inv_apart disk sys b i l : sys_inv disk sys -> (b, i) ∈ sys_handles sys -> l ∈ sys_loads sys -> ld_slot l <> i.
Proof.
  intros Hinv Hin Hl <-. pose proof (si_cache _ _ Hinv) as ((pages & logic & slots & _ & _ & _ & _ & Hpins & _) & _).
  destruct (pok_block _ _ _ Hpins (b, ld_slot l)) as (e & Hi & He & _); [by left|]. cbn in Hi, He.
  pose proof (pok_loading _ _ _ Hpins _ _ He) as Hu. apply (uses_elem (Z.to_nat (ld_slot l))) in Hin; [|cbn; lia].
  apply (list_elem_of_fmap_2 load_key), (uses_elem (Z.to_nat (ld_slot l))) in Hl; [|cbn; lia]. change (fmap load_key) with (map load_key) in Hl. destruct (Loading e); lia.
Qed.



(** the sequential mode of GetBlock hands out a page that is still being read: when another thread has claimed a slot
    for the block and has not read the page yet, a sequential call pins that slot and its handle shows what the slot held before. *)
Theorem sequential_hands_out_unread_page disk pool stats sys b i :
  cache_inv disk pool [] [] -> rtc (sys_step disk) (sys_start pool stats) sys ->
  {| ld_block := b; ld_slot := i; ld_read := None |} ∈ sys_loads sys -> handle_page (sys_pool sys) i <> disk b ->
  exists sys', step disk (Window b) sys sys' /\ (b, i) ∈ sys_handles sys' /\ handle_page (sys_pool sys') i <> disk b /\
    {| ld_block := b; ld_slot := i; ld_read := None |} ∈ sys_loads sys'.
Proof.
  intros Hpool Hreach Hl Hpage. assert (Hinv : sys_inv disk sys) by (eapply reach_inv; [|exact Hreach]; by apply start_inv).
  pose proof (si_cache _ _ Hinv) as (Hok & _).
  destruct (load_slot disk _ _ _ b i Hok) as (pages & logic & slots & e & Hpg & Hlg & Hst & Hi & He & Hid & Hld & Hlb & Hb & Hic);
    [by apply (list_elem_of_fmap_2 load_key) in Hl|].
  assert (Hcount : (BCP_SlotCount (sys_pool sys) <= u32_max)%Z).
  { destruct Hok as (pages' & logic' & slots' & _ & _ & _ & [Hc Htot _ _ _ _] & _). lia. }
  assert (Hseq : get_sequential (sys_pool sys) b = Some (set_tables (sys_pool sys) logic (<[Z.to_nat i := pinned e]> slots) (BCP_EvictSlot (sys_pool sys)), Pinned i)).
  { unfold get_sequential, resident_slot. rewrite Hpg, Hlg, Hst. replace (b <? _)%Z with true by lia. rewrite Hlb.
    replace (negb (i =? u32_max)%Z && (i <? BCP_SlotCount (sys_pool sys))%Z) with true by lia. unfold pin_slot, pin. rewrite Hlg, Hst, He.
    unfold set_at. apply lookup_lt_Some in He. by replace (_ <? length slots) with true by lia. }
  eexists. split; [by apply step_window; [lia|exact Hseq]|]. split; [by left|]. done.
Qed.

(** * Witnesses: one slot, and a file that cannot be read *)

Definition broken_file : FileAccess := {| m_FileHandle := Some (fun _ _ => None); m_Position := 0 |}.

Definition one_slot : BlockCacheState :=
  {| BCP_Pages := Some (zeros PAGE_SIZE); BCP_BaseOffset := 0; BCP_TotalBlockCount := 2; BCP_SlotCount := 1; BCP_EvictSlot := 0;
     BCP_LogicTable := Some [u32_max; u32_max]; BCP_SlotTable := Some [slot_default]; BCP_File := Some broken_file |}.

Lemma one_slot_inv content : cache_inv (file_block content 0) one_slot [] [].
Proof.
  split; [|split; [|done]].
  - by eapply (empty_ok _ _ (zeros PAGE_SIZE)).
  - intros fa [= <-]. exists (fun _ _ => None), content. split; [done|]. split; [done|]. split; [done|]. split; [|done].
    rewrite PAGE_SIZE_Z. cbn. lia.
Qed.

Definition run_enter (sys : System) (t : nat) (b : Z) : System :=
  match claim_block (sys_pool sys) (sys_stats sys) b with Some (p, c, r) => after_lookup sys (sys_waiters sys) p c t b false r | None => sys end.

Definition one_page_state : System := run_enter (sys_start (SetPoolMemory (Some [zeros PAGE_SIZE])) no_stats) 1 0.


(** Block 0 is claimed, asked for again, read in vain and given up; the waiter is
    woken, looks again, claims the block itself and fails too. *)
Definition pool_at (evict : Z) (logic : list Z) (slots : list IndexSlotEntry) : BlockCacheState := set_tables one_slot logic slots evict.
Definition free_pool (evict : Z) : BlockCacheState := pool_at evict [u32_max; u32_max] [slot_default].
Definition busy_pool (evict : Z) : BlockCacheState := pool_at evict [0%Z; u32_max] [taken 0].
Definition load_of (read : option bool) : Load := {| ld_block := 0; ld_slot := 0; ld_read := read |}.
Definition state_at (pool : BlockCacheState) (misses : nat) (loads : list Load) (waiters : list Waiter) (notifiers : nat) : System :=
  {| sys_pool := pool; sys_stats := Nat.iter misses count_miss no_stats; sys_handles := []; sys_loads := loads; sys_waiters := waiters; sys_notifiers := notifiers |}.
Definition sleeper : Waiter := asleep 2 0 false.

Definition sample_trace (n : nat) : System :=
  match n with
  | 0 => state_at (free_pool 0) 0 [] [] 0
  | 1 => state_at (busy_pool 1) 1 [load_of None] [] 0
  | 2 => state_at (busy_pool 1) 1 [load_of None] [sleeper] 0
  | 3 => state_at (busy_pool 1) 1 [load_of (Some false)] [sleeper] 0
  | 4 => state_at (free_pool 1) 1 [] [sleeper] 1
  | 5 => state_at (free_pool 1) 1 [] [awake sleeper] 0
  | 6 => state_at (busy_pool 2) 2 [load_of None] [] 0
  | 7 => state_at (busy_pool 2) 2 [load_of (Some false)] [] 0
  | 8 => state_at (free_pool 2) 2 [] [] 1
  | _ => state_at (free_pool 2) 2 [] [] 0
  end.
Definition sample_act (n : nat) : Action :=
  match n with
  | 0 => Enter 1 0 false | 1 => Enter 2 0 false | 2 | 6 => ReadPage 0 0 | 3 | 7 => Publish 0 0 | 4 | 8 => NotifyAll | 5 => Retry 2 | _ => Enter 3 9 false
  end.

Lemma step_to disk act sys sys' sys'' : step disk act sys sys' -> sys' = sys'' -> step disk act sys sys''.
Proof. by intros Hs <-. Qed.

Lemma sample_run n : step (file_block [] 0) (sample_act n) (sample_trace n) (sample_trace (S n)).
Proof.
  destruct n as [|[|[|[|[|[|[|[|[|n]]]]]]]]]; (eapply step_to; [|vm_compute; reflexivity]).
  - apply (step_enter _ (sample_trace 0) 1 0 false (busy_pool 1) (sys_stats (sample_trace 1)) (Claimed 0)); [lia|apply not_elem_of_nil|vm_compute; reflexivity].
  - apply (step_enter _ (sample_trace 1) 2 0 false (busy_pool 1) (sys_stats (sample_trace 1)) MustWait); [lia|apply not_elem_of_nil|vm_compute; reflexivity].
  - apply (step_read _ (sample_trace 2) [] [] 0 0 false (busy_pool 1)); vm_compute; reflexivity.
  - apply (step_publish _ (sample_trace 3) [] [] 0 0 false (free_pool 1)); vm_compute; reflexivity.
  - by apply (step_notify _ (sample_trace 4) 0).
  - apply (step_retry _ (sample_trace 5) [] [] (awake sleeper) (busy_pool 2) (sys_stats (sample_trace 6)) (Claimed 0)); vm_compute; reflexivity.
  - apply (step_read _ (sample_trace 6) [] [] 0 0 false (busy_pool 2)); vm_compute; reflexivity.
  - apply (step_publish _ (sample_trace 7) [] [] 0 0 false (free_pool 2)); vm_compute; reflexivity.
  - by apply (step_notify _ (sample_trace 8) 0).
  - apply (step_enter _ (sample_trace 9) 3 9 false (free_pool 2) (sys_stats (sample_trace 9)) Refused); [lia|apply not_elem_of_nil|vm_compute; reflexivity].
Qed.

(** What the states of the run hold besides the pool. *)
Lemma sample_states n : map load_key (sys_loads (sample_trace n)) = (if bool_decide (n ∈ [1; 2; 3; 6; 7]) then [(0, 0)%Z] else []) /\
  sys_notifiers (sample_trace n) = (if bool_decide (n ∈ [4; 8]) then 1 else 0) /\
  sys_waiters (sample_trace n) = match n with 2 | 3 | 4 => [sleeper] | 5 => [awake sleeper] | _ => [] end.
Proof. destruct n as [|[|[|[|[|[|[|[|[|n]]]]]]]]]; split; try split; reflexivity. Qed.

Lemma sample_loads n l : l ∈ sys_loads (sample_trace n) -> load_key l = (0, 0)%Z /\ n < 8.
Proof.
  intros Hl. apply (list_elem_of_fmap_2 load_key) in Hl. change (fmap load_key) with (map load_key) in Hl. rewrite (proj1 (sample_states n)) in Hl.
  case_bool_decide as Hn; [|by apply elem_of_nil in Hl]. apply list_elem_of_singleton in Hl as ->. split; [done|]. rewrite !elem_of_cons, elem_of_nil in Hn. lia.
Qed.

Lemma sample_fair : fair_turns sample_trace sample_act.
Proof.
  split.
  - intros n l Hl. destruct (sample_loads n l Hl) as [[= -> ->] Hn]. exists 7. split; [lia|]. by right.
  - intros n Hn. exists 8. split; [|done]. rewrite (proj1 (proj2 (sample_states n))) in Hn. case_bool_decide as Hin; [|lia]. rewrite !elem_of_cons, elem_of_nil in Hin. lia.
  - intros n w Hw Ha. rewrite (proj2 (proj2 (sample_states n))) in Hw. exists 5.
    destruct n as [|[|[|[|[|[|n]]]]]]; try (by apply elem_of_nil in Hw); apply list_elem_of_singleton in Hw as ->; done.
Qed.


(** The slot still shows zeros while block 0 of a file of ones is being loaded. *)
Definition ones : bytes := replicate PAGE_SIZE 1%Z.

Lemma sequential_hands_out_unread_page_witness :
  exists sys, step (file_block ones 0) (Window 0) (sample_trace 1) sys /\ (0, 0)%Z ∈ sys_handles sys /\ handle_page (sys_pool sys) 0 <> file_block ones 0 0.
Proof.
  destruct (sequential_hands_out_unread_page (file_block ones 0) one_slot no_stats (sample_trace 1) 0 0) as (sys & Hstep & Hin & Hne & _).
  - apply one_slot_inv.
  - apply rtc_once. split; [unfold few_pins; cbn; lia|]. exists (Enter 1 0 false). split; [done|].
    apply (step_enter _ (sample_trace 0) 1 0 false (busy_pool 1) (sys_stats (sample_trace 1)) (Claimed 0)); [lia|apply not_elem_of_nil|vm_compute; reflexivity].
  - apply list_elem_of_here.
  - intros E. apply (f_equal (head (A := Z))) in E. vm_compute in E. discriminate E.
  - exists sys. split; [exact Hstep|]. split; [exact Hin|exact Hne].
Defined.
