(* ===== verification/BlockWorker.v ===== *)
(** The worker thread of a page cache (BlockTable.rs: BlockRequest, StartBlockThread,
    ExitBlockThread, BlockThreadMain, SubmitBlockRequest): a bounded ring of requests
    under one mutex and one condition variable. What the worker does with a request
    is CacheSteps; here are who waits for whom, and that every wait ends. *)

From Stdlib Require Import ZArith Lia ZifyBool Bool List.
From stdpp Require Import base list list_numbers relations.
From S2P Require Import Prelude Threads.

Local Open Scope moon_scope.

Definition BLOCK_REQUEST_RING_SIZE : Z := 2 ^ 16.

(** Where the thread of a GetBlock call is: about to lock the ring; asleep on
    [BCP_RequestCv] because the ring is full; about to look at [Completion]; asleep
    on its condition variable; past [Wait]. *)
Inductive Caller := Submitting | RingFull | Waiting | Parked | Served.

(** A request and its caller. Requests are named by their index in [bw_requests]. *)
Record BlockRequest := { BlockSeq : Z; Completion : bool; rq_caller : Caller }.

Definition request_new (blockSeq : Z) : BlockRequest := {| BlockSeq := blockSeq; Completion := false; rq_caller := Submitting |}.

(** Where the worker is: not spawned; about to lock the ring; holding the lock, having
    found the ring empty and the exit flag unset; asleep on [BCP_RequestCv]; in
    ProcessGetBlockLocked; having set [Completion]; returned. *)
Inductive Worker := Absent | Looking | Deciding | Asleep | Processing (r : nat) | Completing (r : nat) | Gone.

(** Where a call of ExitBlockThread is: none; the flag is set; the notification is
    sent and the call joins the worker. *)
Inductive Exit := NotExiting | Flagged | Notified.

#[export] Instance Caller_eq : EqDecision Caller.
Proof. solve_decision. Defined.
#[export] Instance Worker_eq : EqDecision Worker.
Proof. solve_decision. Defined.
#[export] Instance Exit_eq : EqDecision Exit.
Proof. solve_decision. Defined.

Record BlockCachePool := {
  BCP_Requests : list nat;
  BCP_ExitThread : bool;
  bw_worker : Worker;
  bw_requests : list BlockRequest;
  bw_exit : Exit;
}.

Definition pool_new : BlockCachePool :=
  {| BCP_Requests := []; BCP_ExitThread := false; bw_worker := Absent; bw_requests := []; bw_exit := NotExiting |}.

Definition with_worker (s : BlockCachePool) (w : Worker) : BlockCachePool :=
  {| BCP_Requests := BCP_Requests s; BCP_ExitThread := BCP_ExitThread s; bw_worker := w; bw_requests := bw_requests s; bw_exit := bw_exit s |}.

Definition with_requests (s : BlockCachePool) (l : list BlockRequest) : BlockCachePool :=
  {| BCP_Requests := BCP_Requests s; BCP_ExitThread := BCP_ExitThread s; bw_worker := bw_worker s; bw_requests := l; bw_exit := bw_exit s |}.

Definition with_ring (s : BlockCachePool) (q : list nat) : BlockCachePool :=
  {| BCP_Requests := q; BCP_ExitThread := BCP_ExitThread s; bw_worker := bw_worker s; bw_requests := bw_requests s; bw_exit := bw_exit s |}.

Definition with_exit (s : BlockCachePool) (e : Exit) : BlockCachePool :=
  {| BCP_Requests := BCP_Requests s; BCP_ExitThread := BCP_ExitThread s; bw_worker := bw_worker s; bw_requests := bw_requests s; bw_exit := e |}.

Definition at_caller (rq : BlockRequest) (c : Caller) : BlockRequest :=
  {| BlockSeq := BlockSeq rq; Completion := Completion rq; rq_caller := c |}.

Definition completed (rq : BlockRequest) : BlockRequest :=
  {| BlockSeq := BlockSeq rq; Completion := true; rq_caller := rq_caller rq |}.

(** * The condition variable of the ring *)

(** Whom a notification wakes. *)
Inductive Wake := NoOne | TheWorker | TheCaller (r : nat).

Definition sleeps_full (rq : BlockRequest) : bool := bool_decide (rq_caller rq = RingFull).

(** [notify_one]: some sleeper, none only when nobody sleeps. [None] is a choice that does not exist. *)
Definition notify_one (who : Wake) (s : BlockCachePool) : option BlockCachePool :=
  match who with
  | NoOne => if bool_decide (bw_worker s = Asleep) || existsb sleeps_full (bw_requests s) then None else Some s
  | TheWorker => if bool_decide (bw_worker s = Asleep) then Some (with_worker s Looking) else None
  | TheCaller r =>
      opt rq := bw_requests s !! r in
      if sleeps_full rq then Some (with_requests s (<[r := at_caller rq Submitting]> (bw_requests s))) else None
  end.

Definition wake_full (rq : BlockRequest) : BlockRequest := if sleeps_full rq then at_caller rq Submitting else rq.

(** * The turns of the threads; [None]: the thread cannot move *)

(** BlockThreadMain. [pop_front] is followed by [notify_all], both under the lock. *)
Definition BlockThreadMain (s : BlockCachePool) : option BlockCachePool :=
  match bw_worker s with
  | Looking =>
      match BCP_Requests s with
      | [] => Some (with_worker s (if BCP_ExitThread s then Gone else Deciding))
      | r :: q => Some (with_requests (with_ring (with_worker s (Processing r)) q) (map wake_full (bw_requests s)))
      end
  | Deciding => Some (with_worker s Asleep)
  | Processing r =>
      opt rq := bw_requests s !! r in
      Some (with_requests (with_worker s (Completing r)) (<[r := completed rq]> (bw_requests s)))
  | Completing r =>
      opt rq := bw_requests s !! r in
      Some (with_requests (with_worker s Looking)
        (if decide (rq_caller rq = Parked) then <[r := at_caller rq Waiting]> (bw_requests s) else bw_requests s))
  | Absent | Asleep | Gone => None
  end.

(** SubmitBlockRequest, from its lock to its end or its sleep. *)
Definition SubmitBlockRequest (r : nat) (rq : BlockRequest) (who : Wake) (s : BlockCachePool) : option BlockCachePool :=
  if decide (bw_worker s = Deciding) then None
  else if (Z.of_nat (length (BCP_Requests s)) =? BLOCK_REQUEST_RING_SIZE)%Z
  then Some (with_requests s (<[r := at_caller rq RingFull]> (bw_requests s)))
  else notify_one who (with_requests (with_ring s (BCP_Requests s ++ [r])) (<[r := at_caller rq Waiting]> (bw_requests s))).

(** A call of GetBlock: submit, then BlockRequest::Wait. *)
Definition caller_turn (r : nat) (who : Wake) (s : BlockCachePool) : option BlockCachePool :=
  opt rq := bw_requests s !! r in
  match rq_caller rq with
  | Submitting => SubmitBlockRequest r rq who s
  | Waiting => Some (with_requests s (<[r := at_caller rq (if Completion rq then Served else Parked)]> (bw_requests s)))
  | RingFull | Parked | Served => None
  end.

(** ExitBlockThread after the flag is set: the notification, then the join. It takes no lock. *)
Definition exit_turn (who : Wake) (s : BlockCachePool) : option BlockCachePool :=
  match bw_exit s with
  | NotExiting => None
  | Flagged => notify_one who (with_exit s Notified)
  | Notified => if decide (bw_worker s = Gone) then Some (with_exit (with_worker s Absent) NotExiting) else None
  end.

Inductive turn (s s' : BlockCachePool) : Prop :=
  | worker_moves : BlockThreadMain s = Some s' -> turn s s'
  | caller_moves r who : caller_turn r who s = Some s' -> turn s s'
  | exit_moves who : exit_turn who s = Some s' -> turn s s'.

(** * Calls from outside *)

Definition new_call (blockSeq : Z) (s : BlockCachePool) : BlockCachePool := with_requests s (bw_requests s ++ [request_new blockSeq]).

(** [ready]: the pool has pages and slots. *)
Definition StartBlockThread (direct ready : bool) (s : BlockCachePool) : BlockCachePool :=
  if direct then s
  else if negb ready || negb (bool_decide (bw_worker s = Absent)) then s
  else {| BCP_Requests := BCP_Requests s; BCP_ExitThread := false; bw_worker := Looking; bw_requests := bw_requests s; bw_exit := bw_exit s |}.

(** ExitBlockThread up to the store of the flag. *)
Definition ExitBlockThread (s : BlockCachePool) : BlockCachePool :=
  if decide (bw_worker s = Absent) then s
  else {| BCP_Requests := BCP_Requests s; BCP_ExitThread := true; bw_worker := bw_worker s; bw_requests := bw_requests s; bw_exit := Flagged |}.

(** A condition variable may wake a sleeper without a notification. *)
Definition spurious (who : Wake) (s : BlockCachePool) : option BlockCachePool :=
  match who with NoOne => None | who => notify_one who s end.

(** One thread starts and stops the worker. *)
Inductive action (s : BlockCachePool) : BlockCachePool -> Prop :=
  | act_turn s' : turn s s' -> action s s'
  | act_call blockSeq : action s (new_call blockSeq s)
  | act_start direct ready : bw_exit s = NotExiting -> action s (StartBlockThread direct ready s)
  | act_exit : bw_exit s = NotExiting -> action s (ExitBlockThread s)
  | act_spurious who s' : spurious who s = Some s' -> action s s'.

Definition reachable : BlockCachePool -> Prop := rtc action pool_new.

(** * The invariant *)

Record pool_ok (s : BlockCachePool) : Prop := {
  po_ring : (Z.of_nat (length (BCP_Requests s)) <= BLOCK_REQUEST_RING_SIZE)%Z;
  po_full : forall r rq, bw_requests s !! r = Some rq -> rq_caller rq = RingFull ->
    Z.of_nat (length (BCP_Requests s)) = BLOCK_REQUEST_RING_SIZE;
  po_idle : bw_worker s = Asleep \/ bw_worker s = Deciding -> BCP_Requests s = [];
  po_nodup : NoDup (BCP_Requests s);
  po_queued : forall r, r ∈ BCP_Requests s \/ bw_worker s = Processing r ->
    exists rq, bw_requests s !! r = Some rq /\ Completion rq = false /\ (rq_caller rq = Waiting \/ rq_caller rq = Parked);
  po_once : forall r, bw_worker s = Processing r -> r ∉ BCP_Requests s;
  po_completing : forall r, bw_worker s = Completing r ->
    exists rq, bw_requests s !! r = Some rq /\ Completion rq = true /\ rq_caller rq <> Submitting /\ rq_caller rq <> RingFull;
  po_waits : forall r rq, bw_requests s !! r = Some rq ->
    match rq_caller rq with
    | Submitting | RingFull => Completion rq = false
    | Waiting => Completion rq = false -> r ∈ BCP_Requests s \/ bw_worker s = Processing r
    | Parked => r ∈ BCP_Requests s \/ bw_worker s = Processing r \/ bw_worker s = Completing r
    | Served => Completion rq = true
    end;
  po_exit : bw_exit s = NotExiting -> bw_worker s = Absent \/ BCP_ExitThread s = false /\ bw_worker s <> Gone;
  po_flag : bw_exit s <> NotExiting -> bw_worker s <> Absent /\ BCP_ExitThread s = true;
}.

Lemma ring_size_pos : (0 < BLOCK_REQUEST_RING_SIZE)%Z.
Proof. reflexivity. Qed.

Lemma pool_new_ok : pool_ok pool_new.
Proof.
  constructor; cbn; try done; try (by left); try constructor.
  - intros r [Hr|Hr]; [by apply elem_of_nil in Hr|done].
Qed.

Lemma lookup_woken (l : list BlockRequest) i x : map wake_full l !! i = Some x -> exists y, l !! i = Some y /\ x = wake_full y.
Proof. intros H. change (map wake_full l) with (wake_full <$> l) in H. rewrite list_lookup_fmap in H. destruct (l !! i) as [y|]; [|done]. injection H as <-. by exists y. Qed.

Lemma wake_full_cases rq : rq_caller rq = RingFull /\ wake_full rq = at_caller rq Submitting \/ rq_caller rq <> RingFull /\ wake_full rq = rq.
Proof. unfold wake_full, sleeps_full. case_bool_decide; [by left|by right]. Qed.

(** What a submission does: the ring is full, or the request is in the ring and the worker is awake. *)
Lemma submit_cases s r rq who s' : pool_ok s -> SubmitBlockRequest r rq who s = Some s' ->
  bw_worker s <> Deciding /\
  (Z.of_nat (length (BCP_Requests s)) = BLOCK_REQUEST_RING_SIZE /\ s' = with_requests s (<[r := at_caller rq RingFull]> (bw_requests s)) \/
   (Z.of_nat (length (BCP_Requests s)) < BLOCK_REQUEST_RING_SIZE)%Z /\
   s' = with_worker (with_requests (with_ring s (BCP_Requests s ++ [r])) (<[r := at_caller rq Waiting]> (bw_requests s)))
     (if decide (bw_worker s = Asleep) then Looking else bw_worker s)).
Proof.
  intros Hok. unfold SubmitBlockRequest. destruct (decide (bw_worker s = Deciding)); [done|]. pose proof (po_ring _ Hok) as Hring.
  destruct (_ =? _)%Z eqn:E; [intros [= <-]; split; [done|left; split; [lia|done]]|]. intros Hn. split; [done|]. right. split; [lia|].
  assert (Hnone : existsb sleeps_full (<[r := at_caller rq Waiting]> (bw_requests s)) = false).
  { apply not_true_is_false. intros (x & Hx & Hs)%existsb_exists. apply list_elem_of_In, list_elem_of_lookup in Hx as [i Hi].
    unfold sleeps_full in Hs. apply bool_decide_eq_true in Hs. destruct (decide (i = r)) as [->|Hne].
    - destruct (decide (r < length (bw_requests s))); [rewrite list_lookup_insert_eq in Hi by done; by simplify_eq|].
      rewrite list_insert_ge in Hi by lia. apply lookup_lt_Some in Hi. lia.
    - rewrite list_lookup_insert_ne in Hi by done. pose proof (po_full _ Hok i x Hi Hs). lia. }
  destruct who as [| |i]; cbn in Hn.
  - rewrite Hnone, orb_false_r in Hn. case_bool_decide as Hw; [done|]. injection Hn as <-. by rewrite decide_False by done.
  - case_bool_decide as Hw; [|done]. injection Hn as <-. by rewrite decide_True by done.
  - destruct (_ !! i) as [x|] eqn:Hi; [|done]. destruct (sleeps_full x) eqn:Hx; [|done]. exfalso.
    assert (existsb sleeps_full (<[r := at_caller rq Waiting]> (bw_requests s)) = true); [|congruence].
    apply existsb_exists. exists x. split; [|done]. apply list_elem_of_In. by apply list_elem_of_lookup; exists i.
Qed.

Section preservation.
Context (s : BlockCachePool) (Hok : pool_ok s).

Lemma looking_flag : bw_worker s = Looking -> bw_exit s = NotExiting -> BCP_ExitThread s = false.
Proof. intros Hw He. destruct (po_exit _ Hok He) as [Ha|[Hf _]]; [congruence|done]. Qed.

(** The worker finds the ring empty. *)
Lemma look_empty_ok : bw_worker s = Looking -> BCP_Requests s = [] -> pool_ok (with_worker s (if BCP_ExitThread s then Gone else Deciding)).
Proof.
  intros Hw Hq. pose proof (po_waits _ Hok) as Hwt. constructor; cbn; rewrite ?Hq.
  - rewrite <- Hq. apply Hok.
  - intros r rq Hr Hc. rewrite <- Hq. exact (po_full _ Hok r rq Hr Hc).
  - done.
  - constructor.
  - intros r [Hr|Hr]; [by apply elem_of_nil in Hr|]. by destruct (BCP_ExitThread s).
  - intros r Hr. by destruct (BCP_ExitThread s).
  - intros r Hr. by destruct (BCP_ExitThread s).
  - intros r rq Hr. specialize (Hwt r rq Hr). rewrite Hw, Hq in Hwt. destruct (rq_caller rq); try done.
    + intros Hc. destruct (Hwt Hc) as [Hin|?]; [by apply elem_of_nil in Hin|done].
    + destruct Hwt as [Hin|[?|?]]; [by apply elem_of_nil in Hin|done..].
  - intros He. right. rewrite (looking_flag Hw He). done.
  - intros He. destruct (po_flag _ Hok He) as [_ ->]. done.
Qed.

(** The worker takes a request and wakes whoever waits for room. *)
Lemma look_pop_ok r q : bw_worker s = Looking -> BCP_Requests s = r :: q ->
  pool_ok (with_requests (with_ring (with_worker s (Processing r)) q) (map wake_full (bw_requests s))).
Proof.
  intros Hw Hq. pose proof (po_ring _ Hok) as Hring. rewrite Hq in Hring. cbn in Hring.
  assert (Hnd : NoDup (r :: q)) by (rewrite <- Hq; apply Hok). apply NoDup_cons in Hnd as [Hnin Hnd].
  constructor; cbn [with_requests with_ring with_worker BCP_Requests BCP_ExitThread bw_worker bw_requests bw_exit].
  - lia.
  - intros i x (y & Hy & ->)%lookup_woken Hc. destruct (wake_full_cases y) as [[_ E]|[Hn E]]; rewrite E in Hc; done.
  - by intros [?|?].
  - done.
  - intros i Hi. destruct (po_queued _ Hok i) as (x & Hx & Hd & Hc).
    { left. rewrite Hq. destruct Hi as [Hi|[= ->]]; [by right|left]. }
    exists x. change (map wake_full ?l) with (wake_full <$> l). rewrite list_lookup_fmap, Hx. cbn.
    destruct (wake_full_cases x) as [[Hf _]|[_ ->]]; [|done]. rewrite Hf in Hc. by destruct Hc.
  - by intros i [= ->].
  - done.
  - intros i x (y & Hy & ->)%lookup_woken. pose proof (po_waits _ Hok i y Hy) as Hwt. rewrite Hw, Hq in Hwt.
    destruct (wake_full_cases y) as [[Hf ->]|[Hn ->]]; [cbn; by rewrite Hf in Hwt|]. destruct (rq_caller y); try done.
    + intros Hd. destruct (Hwt Hd) as [Hin|?]; [|done]. apply elem_of_cons in Hin as [->|?]; [by right|by left].
    + destruct Hwt as [Hin|[?|?]]; [|done..]. apply elem_of_cons in Hin as [->|?]; [by right; left|by left].
  - intros He. right. by rewrite (looking_flag Hw He).
  - intros He. destruct (po_flag _ Hok He) as [_ ->]. done.
Qed.

Lemma decide_sleep_ok : bw_worker s = Deciding -> pool_ok (with_worker s Asleep).
Proof.
  intros Hw. pose proof (po_idle _ Hok (or_intror Hw)) as Hq. constructor; cbn.
  - apply Hok.
  - exact (po_full _ Hok).
  - done.
  - apply Hok.
  - intros r [Hr|Hr]; [apply (po_queued _ Hok); by left|done].
  - done.
  - done.
  - intros r rq Hr. pose proof (po_waits _ Hok r rq Hr) as Hwt. rewrite Hw in Hwt. destruct (rq_caller rq); try done.
    + intros Hd. by destruct (Hwt Hd) as [?|?]; [left|].
    + by destruct Hwt as [?|[?|?]]; [left| |].
  - intros He. right. destruct (po_exit _ Hok He) as [?|[-> _]]; [congruence|done].
  - intros He. by destruct (po_flag _ Hok He) as [_ ->].
Qed.

Lemma process_ok r rq : bw_worker s = Processing r -> bw_requests s !! r = Some rq ->
  pool_ok (with_requests (with_worker s (Completing r)) (<[r := completed rq]> (bw_requests s))).
Proof.
  intros Hw Hr. destruct (po_queued _ Hok r (or_intror Hw)) as (rq' & Hr' & Hd & Hc). rewrite Hr in Hr'. injection Hr' as <-.
  pose proof (po_once _ Hok r Hw) as Hnin. assert (Hlt := lookup_lt_Some _ _ _ Hr). constructor; cbn.
  - apply Hok.
  - intros i x Hi Hf. destruct (lookup_replaced _ _ _ _ _ _ Hr Hi) as [[-> ->]|[_ Hx]]; [|exact (po_full _ Hok i x Hx Hf)]. cbn in Hf. by destruct Hc; congruence.
  - by intros [?|?].
  - apply Hok.
  - intros i [Hi|Hi]; [|done]. destruct (po_queued _ Hok i (or_introl Hi)) as (x & Hx & ?). exists x.
    rewrite list_lookup_insert_ne by congruence. done.
  - done.
  - intros i [= <-]. exists (completed rq). rewrite list_lookup_insert_eq by done. split; [done|]. cbn. destruct Hc as [-> | ->]; done.
  - intros i x Hi. destruct (lookup_replaced _ _ _ _ _ _ Hr Hi) as [[-> ->]|[Hne Hx]].
    + cbn. destruct Hc as [-> | ->]; [done|by right; right].
    + pose proof (po_waits _ Hok i x Hx) as Hwt. rewrite Hw in Hwt. destruct (rq_caller x); try done.
      * intros Hdx. destruct (Hwt Hdx) as [?|?]; [by left|congruence].
      * destruct Hwt as [?|[?|?]]; [by left|congruence|done].
  - intros He. right. destruct (po_exit _ Hok He) as [?|[-> _]]; [congruence|done].
  - intros He. by destruct (po_flag _ Hok He) as [_ ->].
Qed.

Lemma complete_ok r rq : bw_worker s = Completing r -> bw_requests s !! r = Some rq ->
  pool_ok (with_requests (with_worker s Looking) (if decide (rq_caller rq = Parked) then <[r := at_caller rq Waiting]> (bw_requests s) else bw_requests s)).
Proof.
  intros Hw Hr. destruct (po_completing _ Hok r Hw) as (rq' & Hr' & Hd & Hc1 & Hc2). rewrite Hr in Hr'. injection Hr' as <-.
  assert (Hlt := lookup_lt_Some _ _ _ Hr). set (l := if decide _ then _ else _).
  assert (Hl : forall i x, l !! i = Some x -> i = r /\ x = (if decide (rq_caller rq = Parked) then at_caller rq Waiting else rq) \/ i <> r /\ bw_requests s !! i = Some x).
  { intros i x. unfold l. destruct (decide (rq_caller rq = Parked)); [by apply (lookup_replaced _ _ rq)|]. intros Hx. destruct (decide (i = r)) as [->|]; [left; split; [done|congruence]|by right]. }
  constructor; cbn [with_requests with_ring with_worker BCP_Requests BCP_ExitThread bw_worker bw_requests bw_exit].
  - apply Hok.
  - intros i x Hi Hf. destruct (Hl i x Hi) as [[-> ->]|[_ Hx]]; [|exact (po_full _ Hok i x Hx Hf)]. by destruct (decide _).
  - by intros [?|?].
  - apply Hok.
  - intros i [Hi|Hi]; [|done]. destruct (po_queued _ Hok i (or_introl Hi)) as (x & Hx & Hdx & ?). exists x. split; [|done].
    unfold l. destruct (decide _); [|done]. rewrite list_lookup_insert_ne; [done|]. intros <-. congruence.
  - done.
  - done.
  - intros i x Hi. destruct (Hl i x Hi) as [[-> ->]|[Hne Hx]].
    + destruct (decide (rq_caller rq = Parked)); [cbn; congruence|]. destruct (rq_caller rq); try done; intros; congruence.
    + pose proof (po_waits _ Hok i x Hx) as Hwt. rewrite Hw in Hwt. destruct (rq_caller x); try done.
      * intros Hdx. by destruct (Hwt Hdx); [left|].
      * destruct Hwt as [?|[?|?]]; [by left|done|congruence].
  - intros He. right. destruct (po_exit _ Hok He) as [?|[-> _]]; [congruence|done].
  - intros He. by destruct (po_flag _ Hok He) as [_ ->].
Qed.

Lemma worker_ok s' : BlockThreadMain s = Some s' -> pool_ok s'.
Proof.
  unfold BlockThreadMain. destruct (bw_worker s) as [| | | |r|r|] eqn:Hw; try done.
  - destruct (BCP_Requests s) as [|r q] eqn:Hq; intros [= <-]; [by apply look_empty_ok|by apply look_pop_ok].
  - intros [= <-]. by apply decide_sleep_ok.
  - destruct (_ !! r) as [rq|] eqn:Hr; [|done]. intros [= <-]. by apply process_ok.
  - destruct (_ !! r) as [rq|] eqn:Hr; [|done]. intros [= <-]. by apply complete_ok.
Qed.

(** A caller finds the ring full. *)
Lemma ring_full_ok r rq : bw_requests s !! r = Some rq -> rq_caller rq = Submitting ->
  Z.of_nat (length (BCP_Requests s)) = BLOCK_REQUEST_RING_SIZE -> pool_ok (with_requests s (<[r := at_caller rq RingFull]> (bw_requests s))).
Proof.
  intros Hr Hc Hfull. pose proof (po_waits _ Hok r rq Hr) as Hd. rewrite Hc in Hd.
  assert (Hkeep : forall i x, bw_requests s !! i = Some x -> rq_caller x <> Submitting -> <[r := at_caller rq RingFull]> (bw_requests s) !! i = Some x).
  { intros i x Hx Hn. rewrite list_lookup_insert_ne; [done|congruence]. }
  constructor; cbn [with_requests BCP_Requests BCP_ExitThread bw_worker bw_requests bw_exit]; try apply Hok.
  - done.
  - intros i Hi. destruct (po_queued _ Hok i Hi) as (x & Hx & Hdx & Hcx). exists x. split; [apply Hkeep; [done|by destruct Hcx; congruence]|done].
  - intros i Hi. destruct (po_completing _ Hok i Hi) as (x & Hx & Hdx & Hcx & Hcx'). exists x. split; [by apply Hkeep|done].
  - intros i x Hi. destruct (lookup_replaced _ _ _ _ _ _ Hr Hi) as [[-> ->]|[_ Hx]]; [done|]. exact (po_waits _ Hok i x Hx).
Qed.

(** A caller puts its request into the ring. *)
Lemma pushed_ok r rq : bw_requests s !! r = Some rq -> rq_caller rq = Submitting -> bw_worker s <> Deciding ->
  (Z.of_nat (length (BCP_Requests s)) < BLOCK_REQUEST_RING_SIZE)%Z ->
  pool_ok (with_worker (with_requests (with_ring s (BCP_Requests s ++ [r])) (<[r := at_caller rq Waiting]> (bw_requests s)))
     (if decide (bw_worker s = Asleep) then Looking else bw_worker s)).
Proof.
  intros Hr Hc Hndec Hroom. pose proof (po_waits _ Hok r rq Hr) as Hd. rewrite Hc in Hd.
  set (w := if decide _ then _ else _).
  assert (Hw : w = Looking /\ bw_worker s = Asleep \/ w = bw_worker s /\ bw_worker s <> Asleep) by (unfold w; destruct (decide _); auto).
  assert (Hbusy : forall w', w = w' -> w' <> Looking -> bw_worker s = w') by (destruct Hw as [[-> ?]|[-> ?]]; congruence).
  assert (Hold : forall w', bw_worker s = w' -> w' <> Asleep -> w = w') by (destruct Hw as [[-> ?]|[-> ?]]; congruence).
  assert (Hnin : forall i, i ∈ BCP_Requests s \/ bw_worker s = Processing i -> i <> r).
  { intros i Hi ->. destruct (po_queued _ Hok r Hi) as (x & Hx & _ & Hcx). by destruct Hcx; congruence. }
  assert (Hlt := lookup_lt_Some _ _ _ Hr).
  constructor; cbn [with_requests with_ring with_worker BCP_Requests BCP_ExitThread bw_worker bw_requests bw_exit].
  - rewrite length_app. cbn. lia.
  - intros i x Hi Hf. destruct (lookup_replaced _ _ _ _ _ _ Hr Hi) as [[-> ->]|[_ Hx]]; [done|]. pose proof (po_full _ Hok i x Hx Hf). lia.
  - intros [H|H]; exfalso; [|by apply Hbusy in H]. apply Hbusy in H as H'; [|done]. destruct Hw as [[? ?]|[? ?]]; congruence.
  - apply NoDup_app. split; [apply Hok|]. split; [|apply NoDup_singleton]. intros i Hi ->%list_elem_of_singleton. apply (Hnin r); [by left|done].
  - intros i Hi. destruct (decide (i = r)) as [->|Hne].
    + exists (at_caller rq Waiting). rewrite list_lookup_insert_eq by done. split; [done|]. split; [done|by left].
    + rewrite list_lookup_insert_ne by done. apply (po_queued _ Hok). rewrite elem_of_app, list_elem_of_singleton in Hi.
      destruct Hi as [[?|?]|Hi]; [by left|done|right; by apply Hbusy].
  - intros i Hi. apply Hbusy in Hi; [|done]. rewrite elem_of_app, list_elem_of_singleton. intros [Hin| ->]; [by apply (po_once _ Hok i)|].
    apply (Hnin r); [by right|done].
  - intros i Hi. apply Hbusy in Hi; [|done]. destruct (po_completing _ Hok i Hi) as (x & Hx & ?). exists x.
    rewrite list_lookup_insert_ne by (intros <-; naive_solver). done.
  - intros i x Hi. destruct (lookup_replaced _ _ _ _ _ _ Hr Hi) as [[-> ->]|[_ Hx]].
    { cbn. intros _. left. apply elem_of_app. right. by left. }
    pose proof (po_waits _ Hok i x Hx) as Hwt. destruct (rq_caller x); try done.
    + intros Hdx. rewrite elem_of_app. destruct (Hwt Hdx) as [?|?]; [by left; left|right; by apply Hold].
    + rewrite elem_of_app. destruct Hwt as [?|[?|?]]; [by left; left|right; left; by apply Hold|right; right; by apply Hold].
  - intros He. destruct (po_exit _ Hok He) as [Ha|[Hf Hn]]; [left; by apply Hold|]. right. split; [done|]. intros Hg. by apply Hbusy in Hg.
  - intros He. destruct (po_flag _ Hok He) as [Ha Hf]. split; [|done]. intros Hg. by apply Hbusy in Hg.
Qed.

(** A caller looks at its completion flag. *)
Lemma wait_ok r rq : bw_requests s !! r = Some rq -> rq_caller rq = Waiting ->
  pool_ok (with_requests s (<[r := at_caller rq (if Completion rq then Served else Parked)]> (bw_requests s))).
Proof.
  intros Hr Hc. pose proof (po_waits _ Hok r rq Hr) as Hd. rewrite Hc in Hd. assert (Hlt := lookup_lt_Some _ _ _ Hr).
  constructor; cbn [with_requests BCP_Requests BCP_ExitThread bw_worker bw_requests bw_exit]; try apply Hok.
  - intros i x Hi Hf. destruct (lookup_replaced _ _ _ _ _ _ Hr Hi) as [[-> ->]|[_ Hx]]; [by destruct (Completion rq)|exact (po_full _ Hok i x Hx Hf)].
  - intros i Hi. destruct (po_queued _ Hok i Hi) as (x & Hx & Hdx & Hcx). destruct (decide (i = r)) as [->|Hne].
    + rewrite Hr in Hx. injection Hx as <-. rewrite Hdx. exists (at_caller rq Parked). rewrite list_lookup_insert_eq by done. cbn. auto.
    + exists x. by rewrite list_lookup_insert_ne.
  - intros i Hi. destruct (po_completing _ Hok i Hi) as (x & Hx & Hdx & Hcx & Hcx'). destruct (decide (i = r)) as [->|Hne].
    + rewrite Hr in Hx. injection Hx as <-. rewrite Hdx. exists (at_caller rq Served). rewrite list_lookup_insert_eq by done. cbn. auto.
    + exists x. by rewrite list_lookup_insert_ne.
  - intros i x Hi. destruct (lookup_replaced _ _ _ _ _ _ Hr Hi) as [[-> ->]|[_ Hx]]; [|exact (po_waits _ Hok i x Hx)].
    cbn. destruct (Completion rq) eqn:E; [done|]. destruct (Hd eq_refl); [by left|by right; left].
Qed.

Lemma caller_ok r who s' : caller_turn r who s = Some s' -> pool_ok s'.
Proof.
  unfold caller_turn. destruct (_ !! r) as [rq|] eqn:Hr; [|done]. destruct (rq_caller rq) eqn:Hc; try done.
  - intros Hs. destruct (submit_cases _ _ _ _ _ Hok Hs) as [Hn [[Hf ->]|[Hl ->]]]; [by apply ring_full_ok|by apply pushed_ok].
  - intros [= <-]. by apply wait_ok.
Qed.

Lemma wake_worker_ok : bw_worker s = Asleep -> pool_ok (with_worker s Looking).
Proof.
  intros Hw. constructor; cbn; try apply Hok; try done.
  - by intros [?|?].
  - intros i [Hi|Hi]; [|done]. apply (po_queued _ Hok). by left.
  - intros i x Hx. pose proof (po_waits _ Hok i x Hx) as Hwt. rewrite Hw in Hwt. destruct (rq_caller x); try done.
    + intros Hd. by destruct (Hwt Hd) as [?|?]; [left|].
    + by destruct Hwt as [?|[?|?]]; [left| |].
  - intros He. right. destruct (po_exit _ Hok He) as [?|[-> _]]; [congruence|done].
  - intros He. by destruct (po_flag _ Hok He) as [_ ->].
Qed.

Lemma wake_caller_ok r rq : bw_requests s !! r = Some rq -> rq_caller rq = RingFull ->
  pool_ok (with_requests s (<[r := at_caller rq Submitting]> (bw_requests s))).
Proof.
  intros Hr Hc. pose proof (po_waits _ Hok r rq Hr) as Hd. rewrite Hc in Hd.
  constructor; cbn [with_requests BCP_Requests BCP_ExitThread bw_worker bw_requests bw_exit]; try apply Hok.
  - intros i x Hi Hf. destruct (lookup_replaced _ _ _ _ _ _ Hr Hi) as [[-> ->]|[_ Hx]]; [done|exact (po_full _ Hok i x Hx Hf)].
  - intros i Hi. destruct (po_queued _ Hok i Hi) as (x & Hx & Hdx & Hcx). exists x.
    rewrite list_lookup_insert_ne by (intros <-; destruct Hcx; congruence). done.
  - intros i Hi. destruct (po_completing _ Hok i Hi) as (x & Hx & Hdx & Hcx & Hcx'). exists x.
    rewrite list_lookup_insert_ne by (intros <-; congruence). done.
  - intros i x Hi. destruct (lookup_replaced _ _ _ _ _ _ Hr Hi) as [[-> ->]|[_ Hx]]; [done|exact (po_waits _ Hok i x Hx)].
Qed.

Lemma notify_ok who s' : notify_one who s = Some s' -> pool_ok s'.
Proof.
  destruct who as [| |r]; cbn.
  - destruct (_ || _); [done|]. by intros [= <-].
  - case_bool_decide; [|done]. intros [= <-]. by apply wake_worker_ok.
  - destruct (_ !! r) as [rq|] eqn:Hr; [|done]. unfold sleeps_full. case_bool_decide; [|done]. intros [= <-]. by apply wake_caller_ok.
Qed.

Lemma new_call_ok b : pool_ok (new_call b s).
Proof.
  assert (Hkeep : forall i x, bw_requests s !! i = Some x -> (bw_requests s ++ [request_new b]) !! i = Some x) by (intros; by apply lookup_app_l_Some).
  assert (Hl : forall i x, (bw_requests s ++ [request_new b]) !! i = Some x -> bw_requests s !! i = Some x \/ x = request_new b).
  { intros i x [Hi|[_ Hi]]%lookup_app_Some; [by left|right]. by apply list_lookup_singleton_Some in Hi as [_ <-]. }
  constructor; cbn [new_call with_requests BCP_Requests BCP_ExitThread bw_worker bw_requests bw_exit]; try apply Hok.
  - intros i x [Hx| ->]%Hl Hf; [exact (po_full _ Hok i x Hx Hf)|done].
  - intros i Hi. destruct (po_queued _ Hok i Hi) as (x & Hx & ?). exists x. by split; [apply Hkeep|].
  - intros i Hi. destruct (po_completing _ Hok i Hi) as (x & Hx & ?). exists x. by split; [apply Hkeep|].
  - intros i x [Hx| ->]%Hl; [exact (po_waits _ Hok i x Hx)|done].
Qed.

Lemma start_ok direct ready : pool_ok (StartBlockThread direct ready s).
Proof.
  unfold StartBlockThread. destruct direct; [done|]. destruct (negb ready); [done|]. case_bool_decide as Hw; [|done]. cbn.
  constructor; cbn; try apply Hok; try done.
  - by intros [?|?].
  - intros i [Hi|?]; [|done]. apply (po_queued _ Hok). by left.
  - intros i x Hx. pose proof (po_waits _ Hok i x Hx) as Hwt. rewrite Hw in Hwt. destruct (rq_caller x); try done.
    + intros Hd. by destruct (Hwt Hd) as [?|?]; [left|].
    + by destruct Hwt as [?|[?|?]]; [left| |].
  - intros _. by right.
  - intros He. by destruct (po_flag _ Hok He) as [? _].
Qed.

Lemma exit_ok : pool_ok (ExitBlockThread s).
Proof. unfold ExitBlockThread. destruct (decide _); [done|]. constructor; cbn; try apply Hok; done. Qed.
End preservation.

Lemma exit_notified_ok s : pool_ok s -> bw_exit s = Flagged -> pool_ok (with_exit s Notified).
Proof. intros Hok He. constructor; cbn; try apply Hok; [done|]. intros _. apply (po_flag _ Hok). by rewrite He. Qed.

Lemma joined_ok s : pool_ok s -> bw_worker s = Gone -> pool_ok (with_exit (with_worker s Absent) NotExiting).
Proof.
  intros Hok Hw. constructor; cbn; try apply Hok; try done.
  - by intros [?|?].
  - intros i [Hi|?]; [|done]. apply (po_queued _ Hok). by left.
  - intros i x Hx. pose proof (po_waits _ Hok i x Hx) as Hwt. rewrite Hw in Hwt. destruct (rq_caller x); try done.
    + intros Hd. by destruct (Hwt Hd) as [?|?]; [left|].
    + by destruct Hwt as [?|[?|?]]; [left| |].
  - by left.
Qed.

Lemma exit_turn_ok who s s' : pool_ok s -> exit_turn who s = Some s' -> pool_ok s'.
Proof.
  intros Hok. unfold exit_turn. destruct (bw_exit s) eqn:He; [done| |].
  - intros Hn. eapply notify_ok; [|exact Hn]. by apply exit_notified_ok.
  - destruct (decide _); [|done]. intros [= <-]. by apply joined_ok.
Qed.

Lemma ring_turn_ok s s' : pool_ok s -> turn s s' -> pool_ok s'.
Proof. intros Hok [H|r who H|who H]; [by eapply worker_ok|by eapply caller_ok|by eapply exit_turn_ok]. Qed.

Lemma ring_action_ok s s' : pool_ok s -> action s s' -> pool_ok s'.
Proof.
  intros Hok [t H|b|d r H|H|who t H]; [by eapply ring_turn_ok|by apply new_call_ok|by apply start_ok|by apply exit_ok|].
  destruct who; [done|exact (notify_ok s Hok _ _ H)..].
Qed.

Lemma ring_reachable_ok s : reachable s -> pool_ok s.
Proof. unfold reachable. intros H. remember pool_new as s0 eqn:E. assert (Hok : pool_ok s0) by (subst; apply pool_new_ok). clear E. induction H; [done|]. by eapply IHrtc, ring_action_ok. Qed.

(** * Every run of turns ends *)

Definition caller_weight (n : nat) (rq : BlockRequest) : nat :=
  match rq_caller rq with Submitting => n + 9 | RingFull => n + 8 | Waiting => 1 | Parked | Served => 0 end.

Definition worker_weight (w : Worker) : nat :=
  match w with Absent | Asleep | Gone => 0 | Deciding => 1 | Looking => 2 | Completing _ => 4 | Processing _ => 5 end.

Definition exit_weight (e : Exit) : nat := match e with NotExiting => 0 | Notified => 1 | Flagged => 4 end.

Definition callers_weight (n : nat) (l : list BlockRequest) : nat := sum_by (caller_weight n) l.
#[local] Arguments callers_weight : simpl never.

(** The work left: each turn takes some away. *)
Definition work (s : BlockCachePool) : nat :=
  let n := length (bw_requests s) in
  callers_weight n (bw_requests s) + (n + 4) * length (BCP_Requests s) + worker_weight (bw_worker s) + exit_weight (bw_exit s).

Lemma callers_weight_insert n l r rq rq' : l !! r = Some rq ->
  callers_weight n (<[r := rq']> l) + caller_weight n rq = callers_weight n l + caller_weight n rq'.
Proof. apply sum_by_insert. Qed.

Lemma callers_weight_wake n l : callers_weight n (map wake_full l) <= callers_weight n l + length l.
Proof. apply sum_by_map. intros x. destruct (wake_full_cases x) as [[Hf ->]|[_ ->]]; [|lia]. unfold caller_weight. rewrite Hf. cbn. lia. Qed.

Lemma notify_work who s s' : notify_one who s = Some s' -> length (bw_requests s') = length (bw_requests s) /\ work s' <= work s + 2.
Proof.
  destruct who as [| |r]; cbn.
  - destruct (_ || _); [done|]. intros [= <-]. lia.
  - case_bool_decide as Hw; [|done]. intros [= <-]. unfold work. cbn. rewrite Hw. cbn. lia.
  - destruct (_ !! r) as [rq|] eqn:Hr; [|done]. unfold sleeps_full. case_bool_decide as Hc; [|done]. intros [= <-]. unfold work. cbn.
    rewrite length_insert. split; [done|]. pose proof (callers_weight_insert (length (bw_requests s)) _ _ _ (at_caller rq Submitting) Hr) as Hi.
    unfold caller_weight at 1 2 in Hi. rewrite Hc in Hi. cbn in Hi. lia.
Qed.

Lemma worker_work s s' : BlockThreadMain s = Some s' -> work s' < work s.
Proof.
  unfold BlockThreadMain, work. destruct (bw_worker s) as [| | | |r|r|] eqn:Hw; try done.
  - destruct (BCP_Requests s) as [|r q] eqn:Hq; intros [= <-]; cbn; rewrite ?Hq, ?length_map; cbn; [destruct (BCP_ExitThread s); cbn; lia|].
    pose proof (callers_weight_wake (length (bw_requests s)) (bw_requests s)). lia.
  - intros [= <-]. cbn. lia.
  - destruct (_ !! r) as [rq|] eqn:Hr; [|done]. intros [= <-]. cbn. rewrite length_insert.
    pose proof (callers_weight_insert (length (bw_requests s)) _ _ _ (completed rq) Hr) as Hi.
    change (caller_weight _ (completed rq)) with (caller_weight (length (bw_requests s)) rq) in Hi. lia.
  - destruct (_ !! r) as [rq|] eqn:Hr; [|done]. intros [= <-]. cbn. destruct (decide _) as [Hc|_]; [|cbn; lia]. rewrite length_insert.
    pose proof (callers_weight_insert (length (bw_requests s)) _ _ _ (at_caller rq Waiting) Hr) as Hi.
    unfold caller_weight at 1 2 in Hi. rewrite Hc in Hi. cbn in Hi. lia.
Qed.

Lemma caller_work r who s s' : caller_turn r who s = Some s' -> work s' < work s.
Proof.
  unfold caller_turn. destruct (_ !! r) as [rq|] eqn:Hr; [|done].
  pose proof (fun x => callers_weight_insert (length (bw_requests s)) _ _ _ x Hr) as Hi.
  destruct (rq_caller rq) eqn:Hc; try done; unfold caller_weight at 1 in Hi; rewrite Hc in Hi.
  - unfold SubmitBlockRequest. destruct (decide _); [done|]. destruct (_ =? _)%Z.
    + intros [= <-]. unfold work. cbn. rewrite length_insert. specialize (Hi (at_caller rq RingFull)). unfold caller_weight in Hi. cbn in Hi. lia.
    + intros Hn. apply notify_work in Hn as [_ Hn]. eapply Nat.le_lt_trans; [exact Hn|]. unfold work. cbn. rewrite length_insert, length_app. cbn [length].
      specialize (Hi (at_caller rq Waiting)). unfold caller_weight in Hi. cbn in Hi. lia.
  - intros [= <-]. unfold work. cbn. rewrite length_insert. specialize (Hi (at_caller rq (if Completion rq then Served else Parked))).
    unfold caller_weight in Hi. destruct (Completion rq); cbn in Hi; lia.
Qed.

Lemma exit_work who s s' : exit_turn who s = Some s' -> work s' < work s.
Proof.
  unfold exit_turn. destruct (bw_exit s) eqn:He; [done| |].
  - intros [_ Hn]%notify_work. eapply Nat.le_lt_trans; [exact Hn|]. unfold work. cbn. rewrite He. cbn. lia.
  - destruct (decide _) as [Hw|]; [|done]. intros [= <-]. unfold work. cbn. rewrite He, Hw. cbn. lia.
Qed.

Lemma ring_turn_work s s' : turn s s' -> work s' < work s.
Proof. intros [H|r who H|who H]; [by eapply worker_work|by eapply caller_work|by eapply exit_work]. Qed.

Lemma ring_turns_work n s s' : nsteps turn n s s' -> n + work s' <= work s.
Proof. induction 1 as [|n x y z Hxy _ IH]; [lia|]. apply ring_turn_work in Hxy. lia. Qed.

(** * Nobody waits for ever *)

Definition stuck (s : BlockCachePool) : Prop := forall s', ~ turn s s'.

Lemma ring_notify_enabled s : exists who s', notify_one who s = Some s'.
Proof.
  destruct (decide (bw_worker s = Asleep)) as [Hw|Hw]; [exists TheWorker; cbn; rewrite bool_decide_eq_true_2 by done; by eexists|].
  destruct (existsb sleeps_full (bw_requests s)) eqn:E.
  - apply existsb_exists in E as (x & Hx & Hs). apply list_elem_of_In, list_elem_of_lookup in Hx as [i Hi].
    exists (TheCaller i). cbn. rewrite Hi, Hs. by eexists.
  - exists NoOne. cbn. rewrite E, bool_decide_eq_false_2 by done. by eexists.
Qed.

Lemma worker_enabled s : pool_ok s -> match bw_worker s with Absent | Asleep | Gone => True | _ => exists s', BlockThreadMain s = Some s' end.
Proof.
  intros Hok. unfold BlockThreadMain. destruct (bw_worker s) as [| | | |r|r|] eqn:Hw; try done.
  - destruct (BCP_Requests s); by eexists.
  - by eexists.
  - destruct (po_queued _ Hok r (or_intror Hw)) as (x & -> & _). by eexists.
  - destruct (po_completing _ Hok r Hw) as (x & -> & _). by eexists.
Qed.

(** With a worker and no exit, only served calls are left when nothing moves. *)
Lemma stuck_served s : pool_ok s -> bw_exit s = NotExiting -> bw_worker s <> Absent -> stuck s ->
  Forall (fun rq => rq_caller rq = Served) (bw_requests s).
Proof.
  intros Hok He Ha Hstuck. assert (Hw : bw_worker s = Asleep).
  { pose proof (worker_enabled s Hok) as Hen. destruct (po_exit _ Hok He) as [?|[_ Hg]]; [done|].
    destruct (bw_worker s); try done; destruct Hen as [s' Hs']; by apply worker_moves, Hstuck in Hs'. }
  pose proof (po_idle _ Hok (or_introl Hw)) as Hq. pose proof ring_size_pos as Hpos.
  rewrite Forall_lookup. intros r rq Hr. pose proof (po_waits _ Hok r rq Hr) as Hwt. rewrite Hq, Hw in Hwt.
  destruct (rq_caller rq) eqn:Hc; try done; exfalso.
  - eapply (Hstuck _), (caller_moves _ _ r TheWorker). unfold caller_turn. rewrite Hr, Hc. unfold SubmitBlockRequest. rewrite Hw, Hq. cbn. by rewrite Hw.
  - pose proof (po_full _ Hok r rq Hr Hc) as Hf. rewrite Hq in Hf. cbn in Hf. lia.
  - eapply (Hstuck _), (caller_moves _ _ r NoOne). unfold caller_turn. by rewrite Hr, Hc.
  - destruct Hwt as [Hin|[?|?]]; [by apply elem_of_nil in Hin|done..].
Qed.

Definition serving (s : BlockCachePool) : Prop := pool_ok s /\ bw_exit s = NotExiting /\ bw_worker s <> Absent.

Lemma notify_keeps who s s' : notify_one who s = Some s' ->
  bw_exit s' = bw_exit s /\ BCP_ExitThread s' = BCP_ExitThread s /\ (bw_worker s' = bw_worker s \/ bw_worker s' = Looking).
Proof.
  destruct who as [| |r]; cbn.
  - destruct (_ || _); [done|]. intros [= <-]. auto.
  - case_bool_decide; [|done]. intros [= <-]. auto.
  - destruct (_ !! r); [|done]. destruct (sleeps_full _); [|done]. intros [= <-]. auto.
Qed.

Lemma caller_keeps r who s s' : caller_turn r who s = Some s' ->
  bw_exit s' = bw_exit s /\ BCP_ExitThread s' = BCP_ExitThread s /\ (bw_worker s' = bw_worker s \/ bw_worker s' = Looking).
Proof.
  unfold caller_turn. destruct (_ !! r) as [rq|]; [|done]. destruct (rq_caller rq); try done.
  - unfold SubmitBlockRequest. destruct (decide _); [done|]. destruct (_ =? _)%Z; [intros [= <-]; auto|]. by intros ?%notify_keeps.
  - intros [= <-]. auto.
Qed.

Lemma worker_keeps s s' : BlockThreadMain s = Some s' ->
  bw_exit s' = bw_exit s /\ BCP_ExitThread s' = BCP_ExitThread s /\ bw_worker s' <> Absent /\
  (BCP_ExitThread s = true -> bw_worker s <> Deciding -> bw_worker s' <> Deciding /\ bw_worker s' <> Asleep).
Proof.
  unfold BlockThreadMain. destruct (bw_worker s) as [| | | |r|r|]; try done.
  - destruct (BCP_Requests s); intros [= <-]; cbn; [|done]. by destruct (BCP_ExitThread s).
  - by intros [= <-].
  - destruct (_ !! r); [|done]. by intros [= <-].
  - destruct (_ !! r); [|done]. by intros [= <-].
Qed.

Lemma serving_turn s s' : serving s -> turn s s' -> serving s'.
Proof.
  intros (Hok & He & Ha) Ht. split; [by eapply ring_turn_ok|]. destruct Ht as [H|r who H|who H].
  - apply worker_keeps in H as (-> & _ & ? & _). done.
  - apply caller_keeps in H as (-> & _ & [-> | ->]); done.
  - unfold exit_turn in H. by rewrite He in H.
Qed.

(** * Exiting *)

(** An exit that the worker cannot miss. *)
Definition exit_seen (s : BlockCachePool) : Prop :=
  pool_ok s /\ (bw_exit s = NotExiting \/
    BCP_ExitThread s = true /\ bw_worker s <> Deciding /\ (bw_exit s = Notified -> bw_worker s <> Asleep)).

Lemma exit_wakes who s s' : pool_ok s -> bw_worker s = Asleep -> notify_one who s = Some s' -> bw_worker s' = Looking.
Proof.
  intros Hok Hw. pose proof (po_idle _ Hok (or_introl Hw)) as Hq. destruct who as [| |r]; cbn.
  - by rewrite Hw.
  - rewrite Hw. by intros [= <-].
  - destruct (_ !! r) as [rq|] eqn:Hr; [|done]. unfold sleeps_full. case_bool_decide as Hc; [|done].
    pose proof (po_full _ Hok r rq Hr Hc) as Hf. rewrite Hq in Hf. cbn in Hf. pose proof ring_size_pos. lia.
Qed.

Lemma exit_seen_turn s s' : exit_seen s -> turn s s' -> exit_seen s'.
Proof.
  intros [Hok Hex] Ht. split; [by eapply ring_turn_ok|]. destruct Hex as [He|(Hf & Hd & Hn)].
  - left. destruct Ht as [H|r who H|who H]; [apply worker_keeps in H as (-> & _); done|apply caller_keeps in H as (-> & _); done|].
    unfold exit_turn in H. by rewrite He in H.
  - destruct Ht as [H|r who H|who H].
    + apply worker_keeps in H as (-> & -> & _ & H). right. destruct (H Hf Hd). auto.
    + apply caller_keeps in H as (-> & -> & [-> | ->]); [by right|]. right. done.
    + unfold exit_turn in H. destruct (bw_exit s) eqn:He; [done| |].
      * right. pose proof (notify_keeps _ _ _ H) as (_ & Hf' & Hw'). cbn in Hf', Hw'. rewrite Hf'. split; [done|].
        destruct (decide (bw_worker s = Asleep)) as [Hw|Hw].
        { rewrite (exit_wakes _ _ _ (exit_notified_ok _ Hok He) Hw H). done. }
        destruct Hw' as [-> | ->]; done.
      * destruct (decide _); [|done]. injection H as <-. by left.
Qed.

Lemma stuck_joined s : exit_seen s -> stuck s -> bw_exit s = NotExiting.
Proof.
  intros [Hok [He|(Hf & Hd & Hn)]] Hstuck; [done|]. destruct (bw_exit s) eqn:He; [done| |]; exfalso.
  - destruct (ring_notify_enabled (with_exit s Notified)) as (who & s' & Hs'). apply (Hstuck s'), (exit_moves _ _ who). unfold exit_turn. by rewrite He.
  - pose proof (worker_enabled s Hok) as Hen. destruct (po_flag _ Hok) as [Ha _]; [by rewrite He|]. specialize (Hn eq_refl).
    destruct (decide (bw_worker s = Gone)) as [Hw|Hw].
    + eapply (Hstuck _), (exit_moves _ _ NoOne). unfold exit_turn. by rewrite He, decide_True.
    + destruct (bw_worker s); try done; destruct Hen as [s' Hs']; by apply worker_moves, Hstuck in Hs'.
Qed.

(** An exit whose flag is set while the worker is not between its check and its sleep ends in a join. *)
Lemma ExitBlockThread_joins s n s' : reachable s -> bw_exit s = NotExiting -> bw_worker s <> Absent -> bw_worker s <> Deciding ->
  nsteps turn n (ExitBlockThread s) s' -> n <= work (ExitBlockThread s) /\ (stuck s' -> bw_exit s' = NotExiting).
Proof.
  intros Hr He Ha Hd Hn. split; [pose proof (ring_turns_work _ _ _ Hn); lia|]. intros Hs. apply stuck_joined; [|done].
  assert (Hseen : exit_seen (ExitBlockThread s)).
  { split; [apply exit_ok; by apply ring_reachable_ok|]. right. unfold ExitBlockThread. by rewrite decide_False. }
  clear -Hn Hseen. induction Hn as [|n x y z Hxy _ IH]; [done|]. by eapply IH, exit_seen_turn.
Qed.

Lemma serving_turns n s s' : serving s -> nsteps turn n s s' -> serving s'.
Proof. intros Hs Hn. induction Hn as [|n x y z Hxy _ IH]; [done|]. by eapply IH, serving_turn. Qed.

(** * Properties *)

(** C20: The ring never exceeds its size and holds a request once; a request is in
    the ring or at the worker exactly while its caller waits and its completion
    flag is unset; a call that is past its wait has the flag set. *)
Theorem request_ring_safe s : reachable s ->
  (Z.of_nat (length (BCP_Requests s)) <= BLOCK_REQUEST_RING_SIZE)%Z /\ NoDup (BCP_Requests s) /\
  forall r rq, bw_requests s !! r = Some rq ->
    (r ∈ BCP_Requests s \/ bw_worker s = Processing r <->
     (rq_caller rq = Waiting \/ rq_caller rq = Parked) /\ Completion rq = false) /\
    (rq_caller rq = Served -> Completion rq = true).
Proof.
  intros Hok%ring_reachable_ok. split; [apply Hok|]. split; [apply Hok|]. intros r rq Hr. pose proof (po_waits _ Hok r rq Hr) as Hwt. split.
  - split.
    + intros Hi. destruct (po_queued _ Hok r Hi) as (x & Hx & ? & ?). by simplify_eq.
    + intros [[Hc|Hc] Hd]; rewrite Hc in Hwt; [by apply Hwt|]. destruct Hwt as [?|[?|Hw]]; [by left|by right|].
      destruct (po_completing _ Hok r Hw) as (x & Hx & ? & _). congruence.
  - intros Hc. by rewrite Hc in Hwt.
Qed.

(** C19: While a worker runs and nobody stops it, no call of GetBlock waits for
    ever: any run of the threads, with no new calls and no wake-ups without a
    notification, makes at most [work s] turns, and when no thread can move every
    call has been served. No notification is lost. *)
Theorem worker_serves_requests s n s' : reachable s -> bw_exit s = NotExiting -> bw_worker s <> Absent ->
  nsteps turn n s s' -> n <= work s /\ (stuck s' -> Forall (fun rq => rq_caller rq = Served) (bw_requests s')).
Proof.
  intros Hr%ring_reachable_ok He Ha Hn. split; [pose proof (ring_turns_work _ _ _ Hn); lia|].
  destruct (serving_turns n s s') as (Hok' & He' & Ha'); [done|done|]. by apply stuck_served.
Qed.

(** C21: ExitBlockThread sets its flag and notifies without the lock of the ring, so
    the notification can fall between the worker's check and its sleep: from there no
    thread moves, and the join, and with it the drop of the block table, never ends. *)
Theorem ExitBlockThread_can_hang : exists s,
  reachable s /\ bw_requests s = [] /\ bw_exit s = Notified /\ bw_worker s = Asleep /\ stuck s.
Proof.
  set (s0 := StartBlockThread false true pool_new). set (s1 := with_worker s0 Deciding).
  set (s2 := with_exit (ExitBlockThread s1) Notified). exists (with_worker s2 Asleep).
  split; [|split; [done|split; [done|split; [done|]]]].
  - unfold reachable. eapply rtc_l; [by apply (act_start _ false true)|]. eapply rtc_l; [apply act_turn, worker_moves; reflexivity|].
    eapply rtc_l; [by apply act_exit|]. eapply rtc_l; [by apply act_turn, (exit_moves _ _ NoOne)|].
    eapply rtc_l; [apply act_turn, worker_moves; reflexivity|]. apply rtc_refl.
  - intros s' [H|r who H|who H]; done.
Qed.

(** One call on an idle worker. *)
Definition sample_pool : BlockCachePool := new_call 3 (StartBlockThread false true pool_new).

Lemma sample_pool_reachable : reachable sample_pool.
Proof. eapply rtc_l; [by apply (act_start _ false true)|]. eapply rtc_l; [apply (act_call _ 3)|]. apply rtc_refl. Qed.

Lemma request_ring_safe_witness : reachable sample_pool /\ NoDup (BCP_Requests sample_pool).
Proof. split; [apply sample_pool_reachable|]. apply (request_ring_safe sample_pool sample_pool_reachable). Defined.

Lemma worker_serves_requests_witness :
  0 <= work sample_pool /\ (stuck sample_pool -> Forall (fun rq => rq_caller rq = Served) (bw_requests sample_pool)).
Proof. apply (worker_serves_requests sample_pool 0 sample_pool sample_pool_reachable); [reflexivity|discriminate|constructor]. Defined.
