(* ===== verification/SpinLock.v ===== *)
(** The reader-writer spin lock (BlockTable.rs: RWSpinLock and its guards), one
    atomic operation of one thread per step. *)

From Stdlib Require Import ZArith Lia ZifyBool Bool List.
From stdpp Require Import base list gmap relations.
From S2P Require Import Prelude.

Local Open Scope moon_scope.

(** Where a thread is: outside, spinning in ReadLock, or holding a guard
    (ReaderSpinLock, WriterSpinLock). *)
Inductive Phase := Outside | ReadSpin | ReadHeld | WriteHeld.

#[export] Instance Phase_eq : EqDecision Phase.
Proof. solve_decision. Defined.

Record RWSpinLock := { m_rwSpinlock : Z; lock_phases : gmap nat Phase }.

Definition lock_new : RWSpinLock := {| m_rwSpinlock := 0; lock_phases := ∅ |}.

(** The values of the atomic, as an [i32]. *)
Definition fetch_add (lock : RWSpinLock) (d : Z) : Z := to_signed 32 (m_rwSpinlock lock + d).

Definition phase_of (lock : RWSpinLock) (t : nat) : Phase := default Outside (lock_phases lock !! t).

Definition with_phase (lock : RWSpinLock) (value : Z) (t : nat) (p : Phase) : RWSpinLock :=
  {| m_rwSpinlock := value; lock_phases := <[t := p]> (lock_phases lock) |}.

(** [None]: the operation is not one the thread can be at. *)
Definition ReadLock_add (lock : RWSpinLock) (t : nat) : option RWSpinLock :=
  match phase_of lock t with Outside => Some (with_phase lock (fetch_add lock 2) t ReadSpin) | _ => None end.

(** The load in the spin loop: the thread goes on spinning while the writer's bit is set. *)
Definition ReadLock_spin (lock : RWSpinLock) (t : nat) : option RWSpinLock :=
  match phase_of lock t with
  | ReadSpin => if (Z.land (m_rwSpinlock lock) 1 =? 0)%Z then Some (with_phase lock (m_rwSpinlock lock) t ReadHeld) else Some lock
  | _ => None
  end.

Definition ReadUnlock (lock : RWSpinLock) (t : nat) : option RWSpinLock :=
  match phase_of lock t with ReadHeld => Some (with_phase lock (fetch_add lock (-2)) t Outside) | _ => None end.

(** One compare_exchange of WriteLock; a failed one is tried again. *)
Definition WriteLock_try (lock : RWSpinLock) (t : nat) : option RWSpinLock :=
  match phase_of lock t with
  | Outside => if (m_rwSpinlock lock =? 0)%Z then Some (with_phase lock 1 t WriteHeld) else Some lock
  | _ => None
  end.

Definition WriteUnlock (lock : RWSpinLock) (t : nat) : option RWSpinLock :=
  match phase_of lock t with WriteHeld => Some (with_phase lock (fetch_add lock (-1)) t Outside) | _ => None end.

Inductive lock_step (t : nat) (lock lock' : RWSpinLock) : Prop :=
  | lock_read_add : ReadLock_add lock t = Some lock' -> lock_step t lock lock'
  | lock_read_spin : ReadLock_spin lock t = Some lock' -> lock_step t lock lock'
  | lock_read_unlock : ReadUnlock lock t = Some lock' -> lock_step t lock lock'
  | lock_write_try : WriteLock_try lock t = Some lock' -> lock_step t lock lock'
  | lock_write_unlock : WriteUnlock lock t = Some lock' -> lock_step t lock lock'.

(** Fewer than 2^30 - 1 threads have the lock in hand. *)
Definition few_threads (lock : RWSpinLock) : Prop := (Z.of_nat (size (lock_phases lock)) < 2 ^ 30 - 1)%Z.

Definition any_step (lock lock' : RWSpinLock) : Prop := few_threads lock' /\ exists t, lock_step t lock lock'.

(** * The invariant: the lock word counts the readers and the writer *)

Definition weight (p : Phase) : Z := match p with Outside => 0 | ReadSpin | ReadHeld => 2 | WriteHeld => 1 end.

Definition total_weight (m : gmap nat Phase) : Z := map_fold (fun _ p acc => weight p + acc)%Z 0%Z m.

Definition lock_inv (lock : RWSpinLock) : Prop :=
  m_rwSpinlock lock = total_weight (lock_phases lock) /\
  forall t, phase_of lock t = WriteHeld -> forall t', t' <> t -> phase_of lock t' = Outside \/ phase_of lock t' = ReadSpin.

Section lock.
Implicit Types (m : gmap nat Phase) (lock : RWSpinLock).
Local Open Scope Z_scope.

Lemma total_weight_insert m t p : m !! t = None -> total_weight (<[t := p]> m) = weight p + total_weight m.
Proof. intros Hm. unfold total_weight.
  apply (map_fold_insert_L (fun (_ : nat) p acc => weight p + acc) 0 t p m); [intros; lia|done]. Qed.

Lemma total_weight_set m t p :
  total_weight (<[t := p]> m) = total_weight m - weight (default Outside (m !! t)) + weight p.
Proof.
  destruct (m !! t) as [q|] eqn:E; cbn [default].
  - rewrite <- insert_delete_eq. rewrite total_weight_insert by apply lookup_delete_eq.
    assert (Hm : total_weight m = weight q + total_weight (delete t m)).
    { rewrite <- (insert_id m t q E) at 1. rewrite <- insert_delete_eq. by rewrite total_weight_insert by apply lookup_delete_eq. }
    cbn [id]; lia.
  - rewrite total_weight_insert by done. cbn. lia.
Qed.

Lemma total_weight_bounds m : 0 <= total_weight m <= 2 * Z.of_nat (size m).
Proof.
  induction m as [|t p m Hm IH] using map_ind; [done|]. rewrite total_weight_insert, map_size_insert_None by done.
  destruct p; cbn [weight]; lia.
Qed.

Lemma weight_le m t p : m !! t = Some p -> weight p <= total_weight m.
Proof.
  intros H. rewrite <- (insert_id m t p H), <- insert_delete_eq, total_weight_insert by apply lookup_delete_eq.
  pose proof (total_weight_bounds (delete t m)). lia.
Qed.

Lemma phase_with lock v t p t' : phase_of (with_phase lock v t p) t' = if decide (t = t') then p else phase_of lock t'.
Proof.
  unfold phase_of, with_phase. cbn. destruct (decide (t = t')) as [<-|Hne]; [by rewrite lookup_insert_eq|by rewrite lookup_insert_ne].
Qed.

Lemma phase_weight lock t : phase_of lock t <> Outside -> weight (phase_of lock t) <= total_weight (lock_phases lock).
Proof. unfold phase_of. destruct (lock_phases lock !! t) as [p|] eqn:E; [|done]. intros _. by apply (weight_le _ t). Qed.

(** Two threads' shares of the lock word. *)
Lemma two_weights lock t t' : t <> t' ->
  weight (phase_of lock t) + weight (phase_of lock t') <= total_weight (lock_phases lock).
Proof.
  intros Hne. pose proof (total_weight_set (lock_phases lock) t Outside) as Hs. cbn [weight] in Hs. fold (phase_of lock t) in Hs.
  pose proof (total_weight_bounds (<[t := Outside]> (lock_phases lock))) as Hb.
  assert (H' : weight (phase_of lock t') <= total_weight (<[t := Outside]> (lock_phases lock))).
  { unfold phase_of. destruct (lock_phases lock !! t') as [p|] eqn:E; [|cbn; lia].
    apply (weight_le _ t'). by rewrite lookup_insert_ne. }
  lia.
Qed.

(** The word's parity is the writer's bit. *)
Lemma writer_bit m : (forall t, m !! t <> Some WriteHeld) -> Z.land (total_weight m) 1 = 0.
Proof.
  induction m as [|t p m Hm IH] using map_ind; [done|]. intros Hno. rewrite total_weight_insert by done.
  change 1 with (Z.ones 1). rewrite Z.land_ones by lia. change (2 ^ 1) with 2.
  assert (Hm0 : Z.land (total_weight m) 1 = 0).
  { apply IH. intros t' Ht'. apply (Hno t'). rewrite lookup_insert_ne; [done|]. intros ->. congruence. }
  change 1 with (Z.ones 1) in Hm0. rewrite Z.land_ones in Hm0 by lia. change (2 ^ 1) with 2 in Hm0.
  destruct p; cbn [weight]; [dlia|dlia|dlia|]. exfalso. apply (Hno t). by rewrite lookup_insert_eq.
Qed.

Lemma add_fits lock d p t :
  lock_inv lock -> m_rwSpinlock lock + d = total_weight (<[t := p]> (lock_phases lock)) ->
  few_threads (with_phase lock (fetch_add lock d) t p) -> fetch_add lock d = m_rwSpinlock lock + d.
Proof.
  intros _ Hd Hfew. unfold few_threads, with_phase in Hfew. cbn [lock_phases] in Hfew.
  pose proof (total_weight_bounds (<[t := p]> (lock_phases lock))). unfold fetch_add, to_signed.
  rewrite wrap_small by (unfold in_u; lia). replace (_ <? _) with true by lia. done.
Qed.

Lemma lock_step_inv t lock lock' : lock_inv lock -> few_threads lock' -> lock_step t lock lock' -> lock_inv lock'.
Proof.
  intros [Hw Hx] Hfew Hstep.
  assert (Hset : forall d p, fetch_add lock d = m_rwSpinlock lock + d -> d = weight p - weight (phase_of lock t) ->
    m_rwSpinlock (with_phase lock (fetch_add lock d) t p) = total_weight (lock_phases (with_phase lock (fetch_add lock d) t p))).
  { intros d p Hf Hd. unfold with_phase. cbn. rewrite total_weight_set, Hf, Hw. fold (phase_of lock t). lia. }
  assert (Hfit : forall d p, d = weight p - weight (phase_of lock t) ->
    few_threads (with_phase lock (fetch_add lock d) t p) -> fetch_add lock d = m_rwSpinlock lock + d).
  { intros d p Hd Hf. apply (add_fits _ _ p t); [done| |done]. rewrite total_weight_set, Hw. fold (phase_of lock t). lia. }
  destruct Hstep as [Ha|Ha|Ha|Ha|Ha];
    [unfold ReadLock_add in Ha|unfold ReadLock_spin in Ha|unfold ReadUnlock in Ha|unfold WriteLock_try in Ha|unfold WriteUnlock in Ha];
    destruct (phase_of lock t) eqn:Ep; try done.
  - injection Ha as <-. split; [apply Hset; [by apply (Hfit _ ReadSpin)|done]|].
    intros w Hpw t' Ht'. rewrite phase_with in Hpw |- *. destruct (decide (t = w)) as [<-|]; [done|].
    destruct (decide (t = t')); [by right|by apply (Hx w)].
  - destruct (_ =? 0) eqn:E; injection Ha as <-; [|done]. split.
    + unfold with_phase. cbn. rewrite total_weight_set, Hw. fold (phase_of lock t). rewrite Ep. cbn. lia.
    + intros w Hpw t' Ht'. exfalso. rewrite phase_with in Hpw. destruct (decide (t = w)) as [<-|Hne]; [done|].
      pose proof (two_weights lock w t ltac:(congruence)) as H2. rewrite Hpw, Ep in H2. cbn [weight] in H2.
      (* the writer's bit is set *)
      pose proof (total_weight_set (lock_phases lock) w Outside) as Hs. fold (phase_of lock w) in Hs. rewrite Hpw in Hs. cbn [weight] in Hs.
      assert (Heven : Z.land (total_weight (<[w := Outside]> (lock_phases lock))) 1 = 0).
      { apply writer_bit. intros t2 Ht2. destruct (decide (w = t2)) as [->|Hne2]; [by rewrite lookup_insert_eq in Ht2|].
        rewrite lookup_insert_ne in Ht2 by done. assert (Hp2 : phase_of lock t2 = WriteHeld) by (unfold phase_of; by rewrite Ht2).
        destruct (Hx w Hpw t2) as [?|?]; congruence. }
      bool_to_prop. rewrite Hw in E. change 1 with (Z.ones 1) in E, Heven. rewrite Z.land_ones in E, Heven by lia. change (2 ^ 1) with 2 in *. dlia.
  - injection Ha as <-. split; [apply Hset; [by apply (Hfit _ Outside)|done]|].
    intros w Hpw t' Ht'. rewrite phase_with in Hpw |- *. destruct (decide (t = w)) as [<-|]; [done|].
    destruct (decide (t = t')); [by left|by apply (Hx w)].
  - destruct (_ =? 0) eqn:E; injection Ha as <-; [|done]. bool_to_prop. split.
    + unfold with_phase. cbn. rewrite total_weight_set, <- Hw, E. fold (phase_of lock t). by rewrite Ep.
    + intros w Hpw t' Ht'. rewrite phase_with in Hpw |- *. destruct (decide (t = t')) as [->|Hne].
      * destruct (decide (t' = w)); [congruence|]. pose proof (phase_weight lock w) as Hb. rewrite Hpw in Hb. cbn in Hb.
        specialize (Hb ltac:(done)). lia.
      * destruct (phase_of lock t') eqn:Ep'; [by left|by right|..]; exfalso;
          (pose proof (phase_weight lock t') as Hb; rewrite Ep' in Hb; cbn in Hb; specialize (Hb ltac:(done)); lia).
  - injection Ha as <-. split; [apply Hset; [by apply (Hfit _ Outside)|done]|].
    intros w Hpw t' Ht'. rewrite phase_with in Hpw |- *. destruct (decide (t = w)) as [<-|Hne]; [done|].
    destruct (decide (t = t')); [by left|by apply (Hx w)].
Qed.

Lemma lock_reach_inv lock lock' : lock_inv lock -> rtc any_step lock lock' -> lock_inv lock'.
Proof. intros Hi Hr. induction Hr as [|x y z [Hf [t Ht]] _ IH]; [done|]. by eapply IH, lock_step_inv. Qed.

Lemma lock_new_inv : lock_inv lock_new.
Proof. split; [done|]. intros t Ht. done. Qed.
End lock.

Definition no_writer (lock : RWSpinLock) : Prop := forall w, phase_of lock w <> WriteHeld.

(** Steps during which the thread [t] goes on spinning. *)
Definition spinning_step (t : nat) (lock lock' : RWSpinLock) : Prop := any_step lock lock' /\ phase_of lock' t = ReadSpin.

Lemma no_writer_step t lock lock' :
  lock_inv lock -> no_writer lock -> phase_of lock t = ReadSpin -> spinning_step t lock lock' -> no_writer lock'.
Proof.
  intros [Hw _] Hno Hp [[_ [u Hstep]] _] w Hpw.
  assert (Hother : forall v p, p <> WriteHeld -> lock' = with_phase lock v u p -> False).
  { intros v p Hne ->. rewrite phase_with in Hpw. destruct (decide (u = w)); [done|by apply (Hno w)]. }
  destruct Hstep as [Ha|Ha|Ha|Ha|Ha];
    [unfold ReadLock_add in Ha|unfold ReadLock_spin in Ha|unfold ReadUnlock in Ha|unfold WriteLock_try in Ha|unfold WriteUnlock in Ha];
    destruct (phase_of lock u) eqn:Ep; try done.
  - injection Ha as <-. eapply Hother; [|reflexivity]; done.
  - destruct (_ =? 0)%Z; injection Ha as <-; [eapply Hother; [|reflexivity]; done|by apply (Hno w)].
  - injection Ha as <-. eapply Hother; [|reflexivity]; done.
  - destruct (_ =? 0)%Z eqn:E; injection Ha as <-; [|by apply (Hno w)]. bool_to_prop.
    pose proof (phase_weight lock t) as Hb. rewrite Hp in Hb. cbn in Hb. specialize (Hb ltac:(done)). lia.
  - by destruct (Hno u).
Qed.

Lemma spinning_no_writer t lock lock' :
  lock_inv lock -> no_writer lock -> phase_of lock t = ReadSpin -> rtc (spinning_step t) lock lock' -> lock_inv lock' /\ no_writer lock' /\ phase_of lock' t = ReadSpin.
Proof.
  intros Hi Hno Hp Hr. induction Hr as [|x y z Hs _ IH]; [done|]. pose proof Hs as [[Hf [u Hu]] Hy].
  apply IH; [by eapply lock_step_inv|by eapply no_writer_step|done].
Qed.

(** C24: in every reachable state of the lock a writer is alone: no other thread holds it to read or to
    write; and once a spinning reader sees the lock without a writer no writer gets in before it, so its
    next load ends the spin. *)
Theorem RWSpinLock_exclusive lock t :
  rtc any_step lock_new lock ->
  (phase_of lock t = WriteHeld -> forall t', t' <> t -> phase_of lock t' <> WriteHeld /\ phase_of lock t' <> ReadHeld) /\
  (phase_of lock t = ReadSpin -> no_writer lock -> forall lock', rtc (spinning_step t) lock lock' ->
     exists lock'', ReadLock_spin lock' t = Some lock'' /\ phase_of lock'' t = ReadHeld).
Proof.
  intros Hr. pose proof (lock_reach_inv _ _ lock_new_inv Hr) as Hi. split.
  - intros Hp t' Hne. destruct Hi as [_ Hx]. destruct (Hx t Hp t' Hne) as [->| ->]; done.
  - intros Hp Hno lock' Hs. destruct (spinning_no_writer t lock lock' Hi Hno Hp Hs) as ([Hw _] & Hno' & Hp').
    unfold ReadLock_spin. rewrite Hp', Hw, writer_bit.
    + eexists. split; [done|]. rewrite phase_with. by destruct (decide (t = t)).
    + intros w Hw'. apply (Hno' w). unfold phase_of. by rewrite Hw'.
Qed.

(** * Witness: thread 0 writes, thread 1 waits to read *)

Definition written_lock : RWSpinLock := with_phase lock_new 1 0 WriteHeld.

Lemma RWSpinLock_exclusive_witness : phase_of written_lock 1 <> ReadHeld.
Proof.
  refine (proj2 (proj1 (RWSpinLock_exclusive written_lock 0 _) _ 1 _)).
  - apply rtc_once. split; [apply Z.ltb_lt; reflexivity|]. exists 0. apply lock_write_try. reflexivity.
  - reflexivity.
  - discriminate.
Defined.
