(* ===== verification/Mphf.v ===== *)
(** The minimal perfect hash of the term dictionary: construction
    (IndexSerializer.rs) and lookup (BlockTable.rs), with the proof that every
    term of a built table is found with its own data. *)

From Stdlib Require Import ZArith Lia ZifyBool Bool List.
From stdpp Require Import base list list_numbers gmap sorting.
From S2P Require Import Prelude Hashing FileFormat.

Local Open Scope moon_scope.

(** * Construction *)

Record TermMphfBuildTerm := {
  Term : str;
  DocFreq_ : Z;
  IndexBlockID : Z;
  IndexOffset : Z;
  IndexLength : Z;
  ContinuationBlockCount : Z;
  Flags : Z;
}.

Definition next_power_of_two (value : Z) : Z :=
  if (value <=? 1)%Z then 1%Z
  else
    let value := (value - 1)%Z in
    let value := Z.lor value (Z.shiftr value 1) in
    let value := Z.lor value (Z.shiftr value 2) in
    let value := Z.lor value (Z.shiftr value 4) in
    let value := Z.lor value (Z.shiftr value 8) in
    let value := Z.lor value (Z.shiftr value 16) in
    wrapping_add 32 value 1.

Definition MphfSlotFor (term : str) (slot_count slot_seed displacement : Z) : Z :=
  (TermMphfHash term (TermMphfSlotSeed slot_seed displacement) mod slot_count)%Z.

(** State of the placement: [displacements], [used] and [slots]. *)
Record placement := {
  p_displacements : list Z;
  p_used : list bool;
  p_slots : list Z;
}.

Definition term_at (terms : list TermMphfBuildTerm) (i : nat) : str :=
  match terms !! i with Some t => Term t | None => [] end.

(** The candidate slots of a bucket for one displacement; [None] when a slot is
    taken or repeated. *)
Fixpoint candidate_slots (terms : list TermMphfBuildTerm) (slot_count slot_seed displacement : Z)
    (used : list bool) (bucket_terms : list nat) (acc : list Z) : option (list Z) :=
  match bucket_terms with
  | [] => Some acc
  | t :: rest =>
      let slot := MphfSlotFor (term_at terms t) slot_count slot_seed displacement in
      if nth (Z.to_nat slot) used false || bool_decide (slot ∈ acc) then None
      else candidate_slots terms slot_count slot_seed displacement used rest (acc ++ [slot])
  end.

(** [used[slot] = true; slots[term] = slot]. *)
Definition place (p : placement) (t : nat) (slot : Z) : placement :=
  {| p_displacements := p_displacements p;
     p_used := <[Z.to_nat slot := true]> (p_used p);
     p_slots := <[t := slot]> (p_slots p) |}.

Definition place_all (p : placement) (l : list (nat * Z)) : placement :=
  fold_left (fun p '(t, slot) => place p t slot) l p.

Definition set_displacement (p : placement) (bucket : nat) (d : Z) : placement :=
  {| p_displacements := <[bucket := d]> (p_displacements p); p_used := p_used p; p_slots := p_slots p |}.

(** [for displacement in d .. d + fuel]: the first that fits. *)
Fixpoint try_displacements (terms : list TermMphfBuildTerm) (slot_count slot_seed : Z)
    (bucket : nat) (bucket_terms : list nat) (fuel : nat) (displacement : Z) (p : placement)
  : option placement :=
  match fuel with
  | O => None
  | S fuel' =>
      match candidate_slots terms slot_count slot_seed displacement (p_used p) bucket_terms [] with
      | None => try_displacements terms slot_count slot_seed bucket bucket_terms fuel' (displacement + 1) p
      | Some cand => Some (place_all (set_displacement p bucket displacement) (zip bucket_terms cand))
      end
  end.

(** One round of the loop over [order]. *)
Definition place_bucket (terms : list TermMphfBuildTerm) (slot_count slot_seed : Z)
    (max_displacement : nat) (buckets : list (list nat)) (p : placement) (bucket : nat)
  : option placement :=
  match nth bucket buckets [] with
  | [] => Some (set_displacement p bucket 0)
  | [_] => Some p
  | bucket_terms =>
      try_displacements terms slot_count slot_seed bucket bucket_terms max_displacement 0 p
  end.

(** One round of the loop over the single-term buckets: the state carries the
    free slots still to hand out. *)
Definition place_single (st : placement * list Z) (e : nat * list nat)
  : option (placement * list Z) :=
  let '(p, free) := st in
  let '(bucket, bucket_terms) := e in
  match bucket_terms with
  | [t] =>
      match free with
      | [] => None
      | slot :: free' =>
          let direct_displacement := (- slot - 1)%Z in
          if (direct_displacement <? - 2 ^ 31)%Z then None
          else Some (place (set_displacement p bucket direct_displacement) t slot, free')
      end
  | _ => Some st
  end.

(** The 32-byte entry of a term. *)
Definition term_fingerprint (term : str) (seed : Z) : Z :=
  let fingerprint := TermMphfHash term seed in
  if (fingerprint =? 0)%Z then 1%Z else fingerprint.

Definition write_entry (fingerprint_seed : Z) (source : TermMphfBuildTerm) (offset : nat) (page : bytes) : bytes :=
  let data := page in
  let data := put 4 (offset + 0) (DocFreq_ source) data in
  let data := put 4 (offset + 4) (IndexBlockID source) data in
  let data := put 4 (offset + 8) (IndexOffset source) data in
  let data := put 4 (offset + 12) (IndexLength source) data in
  let data := put 4 (offset + 16) (ContinuationBlockCount source) data in
  let data := put 4 (offset + 20) (Flags source) data in
  put 8 (offset + 24) (term_fingerprint (Term source) fingerprint_seed) data.

Definition store_entry (fingerprint_seed : Z) (slots : list Z) (pages : list bytes)
    (e : nat * TermMphfBuildTerm) : option (list bytes) :=
  let '(index, source) := e in
  let slot := nth index slots u32_max in
  if (slot =? u32_max)%Z then None
  else
    let byte_offset := Z.to_nat slot * TERM_MPHF_ENTRY_SIZE in
    Some (alter (write_entry fingerprint_seed source (byte_offset mod PAGE_SIZE))
            (byte_offset / PAGE_SIZE) pages).

(** Adjacent duplicates in the sorted order of the terms. *)
Fixpoint has_adjacent_dup (l : list str) : bool :=
  match l with
  | a :: (b :: _) as l' => bool_decide (a = b) || has_adjacent_dup l'
  | _ => false
  end.

Definition fill_buckets (terms : list TermMphfBuildTerm) (bucket_seed bucket_count : Z) : list (list nat) :=
  fold_left (fun buckets '(index, t) =>
      alter (fun b => b ++ [index])
        (Z.to_nat (TermMphfHash (Term t) bucket_seed mod bucket_count)) buckets)
    (zip (seq 0 (length terms)) terms) (replicate (Z.to_nat bucket_count) []).

Definition bucket_order (buckets : list (list nat)) : list nat :=
  stable_sort (fun a b => length (nth b buckets []) <=? length (nth a buckets []))
    (seq 0 (length buckets)).

Definition free_slots (used : list bool) : list Z :=
  map Z.of_nat (filter (fun s => nth s used false = false) (seq 0 (length used))).

Definition max_displacement (slot_count : Z) : Z :=
  Z.min (2 ^ 20) (Z.max 65536 (Z.max 1 (slot_count / 8))).

Definition mphf_place (terms : list TermMphfBuildTerm) (bucket_seed slot_seed : Z) : option placement :=
  let term_count := wrap 32 (Z.of_nat (length terms)) in
  let bucket_count := next_power_of_two (Z.max 1 (term_count / 2)) in
  let buckets := fill_buckets terms bucket_seed bucket_count in
  let p := {| p_displacements := replicate (Z.to_nat bucket_count) (-1)%Z;
              p_used := replicate (Z.to_nat term_count) false;
              p_slots := replicate (Z.to_nat term_count) u32_max |} in
  opt p := fold_option
      (place_bucket terms term_count slot_seed (Z.to_nat (max_displacement term_count)) buckets)
      (bucket_order buckets) p in
  opt st := fold_option place_single (zip (seq 0 (length buckets)) buckets) (p, free_slots (p_used p)) in
  Some st.1.

Definition TryBuildTermMphf (terms : list TermMphfBuildTerm) (bucket_seed slot_seed fingerprint_seed : Z)
  : option (TermMphfHeader * list Z * list bytes) :=
  let term_count := wrap 32 (Z.of_nat (length terms)) in
  if (term_count =? 0)%Z then None
  else if has_adjacent_dup (stable_sort str_leb (map Term terms)) then None
  else
    opt p := mphf_place terms bucket_seed slot_seed in
    let page_count := (Z.to_nat term_count + 127) / 128 in
    opt entry_pages := fold_option (store_entry fingerprint_seed (p_slots p))
        (zip (seq 0 (length terms)) terms) (replicate page_count (zeros PAGE_SIZE)) in
    Some ({| TMH_Magic := TERM_MPHF_MAGIC; TMH_TermCount := term_count;
             TMH_BucketCount := next_power_of_two (Z.max 1 (term_count / 2));
             TMH_SlotCount := term_count; TMH_BucketSeed := bucket_seed; TMH_SlotSeed := slot_seed;
             TMH_FingerprintSeed := fingerprint_seed |}, p_displacements p, entry_pages).

Definition SEED_STEP : Z := 0x9e3779b97f4a7c15.

(** [for attempt in a .. 32]. *)
Fixpoint mphf_attempts (terms : list TermMphfBuildTerm) (fuel : nat) (attempt : Z)
  : TermMphfHeader * list Z * list bytes :=
  match fuel with
  | O => (mphf_header_default, [], [])
  | S fuel' =>
      let bucket_seed := wrapping_add 64 0x9ae16a3b2f90404f (wrapping_mul 64 SEED_STEP attempt) in
      let slot_seed := Z.lxor 0xc3a5c85c97cb3127 (wrapping_mul 64 SEED_STEP (attempt + 1)) in
      let fingerprint_seed := wrapping_add 64 0xb492b66fbe98f273 (wrapping_mul 64 SEED_STEP (attempt + 3)) in
      match TryBuildTermMphf terms bucket_seed slot_seed fingerprint_seed with
      | Some r => r
      | None => mphf_attempts terms fuel' (attempt + 1)
      end
  end.

Definition BuildTermMphf (terms : list TermMphfBuildTerm) : TermMphfHeader * list Z * list bytes :=
  match terms with
  | [] => (mphf_header_default, [], [])
  | _ => mphf_attempts terms 32 0
  end.

(** * Lookup *)

Record IndexLocation := {
  index_block_id : Z;
  index_offset : Z;
  index_length : Z;
  doc_freq_ : Z;
  continuation_block_count : Z;
}.

(** The MPHF fields of IndexBlockTable. *)
Record MphfTable := {
  m_TermMphfHeader : TermMphfHeader;
  m_TermMphfDisplacements : list Z;
  m_TermMphfDisplacementCount : Z;
  m_TermMphfEntryPages : list bytes;
  m_TermMphfEntryPageCount : Z;
  m_TermMphfEnabled : bool;
}.

Definition ClearTermMphf (t : MphfTable) : MphfTable :=
  {| m_TermMphfHeader := mphf_header_default; m_TermMphfDisplacements := [];
     m_TermMphfDisplacementCount := 0; m_TermMphfEntryPages := []; m_TermMphfEntryPageCount := 0;
     m_TermMphfEnabled := m_TermMphfEnabled t |}.

Definition SetTermMphf (t : MphfTable) (header : TermMphfHeader) (displacements : list Z)
    (entryPages : list bytes) : MphfTable :=
  let t := ClearTermMphf t in
  if (TMH_TermCount header =? 0)%Z || (TMH_BucketCount header =? 0)%Z || (TMH_SlotCount header =? 0)%Z
     || bool_decide (displacements = []) || bool_decide (entryPages = [])
  then t
  else
    let requiredBytes := (TMH_SlotCount header * Z.of_nat TERM_MPHF_ENTRY_SIZE)%Z in
    let availableBytes := (Z.of_nat (length entryPages) * Z.of_nat PAGE_SIZE)%Z in
    if negb (TMH_Magic header =? TERM_MPHF_MAGIC)%Z
       || negb (TMH_SlotCount header =? TMH_TermCount header)%Z
       || negb (Z.of_nat (length displacements) =? TMH_BucketCount header)%Z
       || (availableBytes <? requiredBytes)%Z
    then t
    else
      {| m_TermMphfHeader := header; m_TermMphfDisplacements := displacements;
         m_TermMphfDisplacementCount := wrap 32 (Z.of_nat (length displacements));
         m_TermMphfEntryPages := entryPages;
         m_TermMphfEntryPageCount := wrap 32 (Z.of_nat (length entryPages));
         m_TermMphfEnabled := m_TermMphfEnabled t |}.

Definition SetTermMphfEnabled (t : MphfTable) (enabled : bool) : MphfTable :=
  {| m_TermMphfHeader := m_TermMphfHeader t; m_TermMphfDisplacements := m_TermMphfDisplacements t;
     m_TermMphfDisplacementCount := m_TermMphfDisplacementCount t;
     m_TermMphfEntryPages := m_TermMphfEntryPages t;
     m_TermMphfEntryPageCount := m_TermMphfEntryPageCount t; m_TermMphfEnabled := enabled |}.

Definition HasTermMphf (t : MphfTable) : bool :=
  let h := m_TermMphfHeader t in
  m_TermMphfEnabled t
  && (TMH_Magic h =? TERM_MPHF_MAGIC)%Z
  && (0 <? TMH_TermCount h)%Z && (0 <? TMH_BucketCount h)%Z && (0 <? TMH_SlotCount h)%Z
  && (m_TermMphfDisplacementCount t =? TMH_BucketCount h)%Z
  && (Z.of_nat (length (m_TermMphfDisplacements t)) =? m_TermMphfDisplacementCount t)%Z
  && (Z.of_nat (length (m_TermMphfEntryPages t)) =? m_TermMphfEntryPageCount t)%Z
  && (TMH_SlotCount h * Z.of_nat TERM_MPHF_ENTRY_SIZE
        <=? m_TermMphfEntryPageCount t * Z.of_nat PAGE_SIZE)%Z.

(** The slot a term hashes to, from its bucket's displacement. *)
Definition mphf_slot (h : TermMphfHeader) (displacements : list Z) (term : bytes) : option Z :=
  let bucket := Z.to_nat (TermMphfHash term (TMH_BucketSeed h) mod TMH_BucketCount h) in
  opt displacement := displacements !! bucket in
  Some (if (displacement <? 0)%Z then (- displacement - 1)%Z
        else (TermMphfHash term (TermMphfSlotSeed (TMH_SlotSeed h) displacement) mod TMH_SlotCount h)%Z).

Definition FindTermDataMphf (t : MphfTable) (term : bytes) : option IndexLocation :=
  if negb (HasTermMphf t) then None
  else
    let h := m_TermMphfHeader t in
    opt slot := mphf_slot h (m_TermMphfDisplacements t) term in
    if (TMH_SlotCount h <=? slot)%Z then None
    else
      let byteOffset := Z.to_nat slot * TERM_MPHF_ENTRY_SIZE in
      let pageID := byteOffset / PAGE_SIZE in
      if (m_TermMphfEntryPageCount t <=? Z.of_nat pageID)%Z then None
      else
        opt page := m_TermMphfEntryPages t !! pageID in
        let data := slice (byteOffset mod PAGE_SIZE) TERM_MPHF_ENTRY_SIZE page in
        if negb (get 8 24 data =? term_fingerprint term (TMH_FingerprintSeed h))%Z then None
        else Some {| doc_freq_ := get 4 0 data; index_block_id := get 4 4 data;
                     index_offset := get 4 8 data; index_length := get 4 12 data;
                     continuation_block_count := get 4 16 data |}.

(** * Placement

    [n] is the slot count, [seed] the slot seed; [bucket_of] assigns every term
    index its bucket. *)

Section placement.
Context (terms : list TermMphfBuildTerm) (n seed : Z) (bucket_of : nat -> nat).
Hypothesis n_bound : (0 < n < 2 ^ 32)%Z.

Definition slot_of_disp (d : Z) (t : nat) : Z :=
  if (d <? 0)%Z then (- d - 1)%Z else MphfSlotFor (term_at terms t) n seed d.

Record placement_ok (p : placement) : Prop := {
  ok_used : length (p_used p) = Z.to_nat n;
  ok_slots : forall t s, p_slots p !! t = Some s -> s <> u32_max ->
    (0 <= s < n)%Z /\ p_used p !! Z.to_nat s = Some true /\
    exists d, p_displacements p !! bucket_of t = Some d /\ s = slot_of_disp d t;
  ok_inj : forall t t' s, p_slots p !! t = Some s -> p_slots p !! t' = Some s -> s <> u32_max -> t = t';
}.

(** No term of the bucket has a slot yet. *)
Definition pending (b : nat) (p : placement) : Prop :=
  forall t s, bucket_of t = b -> p_slots p !! t = Some s -> s = u32_max.

Lemma MphfSlotFor_range term d : (0 <= MphfSlotFor term n seed d < n)%Z.
Proof. unfold MphfSlotFor. apply Z.mod_pos_bound. lia. Qed.

Lemma place_ok p t s :
  placement_ok p -> p_slots p !! t = Some u32_max -> (0 <= s < n)%Z ->
  p_used p !! Z.to_nat s = Some false ->
  (exists d, p_displacements p !! bucket_of t = Some d /\ s = slot_of_disp d t) ->
  placement_ok (place p t s).
Proof.
  intros [Hu Hs Hi] Ht Hr Hf Hd. pose proof (lookup_lt_Some _ _ _ Ht) as Hlt. split; cbn.
  - by rewrite length_insert.
  - intros t' s' Ht' Hne. destruct (decide (t = t')) as [<-|Hneq].
    + rewrite list_lookup_insert_eq in Ht' by done. injection Ht' as <-. split; [done|].
      split; [|done]. apply list_lookup_insert_eq. by apply lookup_lt_Some in Hf.
    + rewrite list_lookup_insert_ne in Ht' by done. destruct (Hs t' s' Ht' Hne) as (? & Hused & ?).
      split; [done|]. split; [|done].
      rewrite list_lookup_insert_ne; [done|]. intros Heq. congruence.
  - intros t1 t2 s' H1 H2 Hne.
    destruct (decide (t = t1)) as [<-|N1], (decide (t = t2)) as [<-|N2]; [done| | |].
    + rewrite list_lookup_insert_eq in H1 by done. rewrite list_lookup_insert_ne in H2 by done.
      injection H1 as <-. destruct (Hs t2 s H2 Hne) as (_ & Hused & _). congruence.
    + rewrite list_lookup_insert_eq in H2 by done. rewrite list_lookup_insert_ne in H1 by done.
      injection H2 as <-. destruct (Hs t1 s H1 Hne) as (_ & Hused & _). congruence.
    + rewrite list_lookup_insert_ne in H1, H2 by done. by apply (Hi t1 t2 s').
Qed.

Lemma place_all_ok l p b d :
  placement_ok p -> p_displacements p !! b = Some d ->
  NoDup l.*1 -> NoDup l.*2 ->
  (forall t s, (t, s) ∈ l -> bucket_of t = b /\ p_slots p !! t = Some u32_max /\ (0 <= s < n)%Z /\
     p_used p !! Z.to_nat s = Some false /\ s = slot_of_disp d t) ->
  placement_ok (place_all p l) /\
  (forall t, t ∉ l.*1 -> p_slots (place_all p l) !! t = p_slots p !! t) /\
  p_displacements (place_all p l) = p_displacements p /\
  length (p_slots (place_all p l)) = length (p_slots p).
Proof.
  revert p. induction l as [|[t s] l IH]; intros p Hok Hd Hn1 Hn2 Hl; [by split_and!|].
  cbn in Hn1, Hn2. apply NoDup_cons in Hn1 as [Hnin1 Hn1], Hn2 as [Hnin2 Hn2].
  destruct (Hl t s ltac:(apply elem_of_cons; by left)) as (Hb & Hts & Hr & Hus & Hsl).
  change (place_all p ((t, s) :: l)) with (place_all (place p t s) l).
  destruct (IH (place p t s)) as (H1 & H2 & H3 & H4); [|done..| |].
  - apply place_ok; eauto. exists d. by rewrite Hb.
  - intros t' s' Hin. destruct (Hl t' s' ltac:(apply elem_of_cons; by right)) as (? & ? & Hr' & ? & ?).
    assert (t <> t') by (intros ->; apply Hnin1; by apply (list_elem_of_fmap_2 fst l (t', s'))).
    assert (s <> s') by (intros ->; apply Hnin2; by apply (list_elem_of_fmap_2 snd l (t', s'))).
    cbn. rewrite !list_lookup_insert_ne; [done| lia | done].
  - split_and!; [done| |done|].
    + intros t' Ht'. cbn in Ht'. apply not_elem_of_cons in Ht' as [Hne Ht'].
      rewrite H2 by done. cbn. by apply list_lookup_insert_ne.
    + rewrite H4. cbn. by rewrite length_insert.
Qed.

Lemma set_displacement_ok p b d :
  placement_ok p -> pending b p -> placement_ok (set_displacement p b d).
Proof.
  intros [Hu Hs Hi] Hp. split; cbn; [done| |done].
  intros t s Ht Hne. destruct (Hs t s Ht Hne) as (? & ? & d' & Hd' & ?). split; [done|split; [done|]].
  exists d'. split; [|done]. rewrite list_lookup_insert_ne; [done|].
  intros ->. apply Hne. by apply (Hp t s).
Qed.

Lemma candidate_slots_spec used d l :
  forall acc cand, candidate_slots terms n seed d used l acc = Some cand -> NoDup acc ->
  cand = acc ++ map (fun t => MphfSlotFor (term_at terms t) n seed d) l /\ NoDup cand /\
  Forall (fun t => nth (Z.to_nat (MphfSlotFor (term_at terms t) n seed d)) used false = false) l.
Proof.
  induction l as [|t l IH]; intros acc cand; cbn [candidate_slots map].
  - intros [= <-] Hn. rewrite app_nil_r. done.
  - destruct (nth _ used false) eqn:Eu; cbn [orb]; [done|]. case_bool_decide as Hin; [done|].
    intros H Hn. apply IH in H as (-> & Hnd & Hf).
    + rewrite <- app_assoc in *. split_and!; [done|done|by constructor].
    + apply NoDup_app. split_and!; [done| |apply NoDup_singleton].
      intros x Hx Hx'. apply list_elem_of_singleton in Hx' as ->. done.
Qed.

Context (buckets : list (list nat)).
Hypothesis buckets_of : forall b t, t ∈ nth b buckets [] -> bucket_of t = b.
Hypothesis buckets_nodup : forall b, NoDup (nth b buckets []).

(** What every step keeps, [N] being the number of terms and [B] of buckets. *)
Definition step_ok (N B : nat) (p : placement) : Prop :=
  placement_ok p /\ length (p_slots p) = N /\ length (p_displacements p) = B.

Lemma used_false p t d :
  placement_ok p ->
  nth (Z.to_nat (MphfSlotFor (term_at terms t) n seed d)) (p_used p) false = false ->
  p_used p !! Z.to_nat (MphfSlotFor (term_at terms t) n seed d) = Some false.
Proof.
  intros Hok Hf. pose proof (MphfSlotFor_range (term_at terms t) d).
  assert (Hlt : Z.to_nat (MphfSlotFor (term_at terms t) n seed d) < length (p_used p))
    by (rewrite (ok_used p Hok); lia).
  destruct (lookup_lt_is_Some_2 _ _ Hlt) as [x Hx]. rewrite (nth_lookup_Some _ _ _ _ Hx) in Hf. congruence.
Qed.

Lemma pending_lookup N B p b t :
  step_ok N B p -> t < N -> bucket_of t = b -> pending b p -> p_slots p !! t = Some u32_max.
Proof.
  intros (_ & Hl & _) Ht Hb Hp. destruct (lookup_lt_is_Some_2 (p_slots p) t ltac:(lia)) as [s Hs].
  rewrite Hs. f_equal. by apply (Hp t).
Qed.

Lemma try_displacements_ok N B b : forall fuel d p p',
  step_ok N B p -> pending b p -> b < B -> (0 <= d)%Z -> Forall (fun t => t < N) (nth b buckets []) ->
  try_displacements terms n seed b (nth b buckets []) fuel d p = Some p' ->
  step_ok N B p' /\ (forall b', b' <> b -> pending b' p -> pending b' p').
Proof.
  induction fuel as [|fuel IH]; intros d p p' Hok Hp Hb Hd HN; cbn [try_displacements]; [done|].
  destruct (candidate_slots _ _ _ _ _ _ _) as [cand|] eqn:Hc; [|apply IH; (done || lia)].
  intros [= <-]. apply candidate_slots_spec in Hc as (-> & Hnd & Hf); [|constructor].
  cbn [app] in *. set (l := nth b buckets []) in *.
  set (f := fun t => MphfSlotFor (term_at terms t) n seed d) in *.
  destruct Hok as (Hpl & HsN & HdB).
  assert (Hlen : length l = length (map f l)) by by rewrite length_map.
  assert (Hzip : forall t s, (t, s) ∈ zip l (map f l) -> t ∈ l /\ s = f t).
  { intros t s Hin. apply list_elem_of_lookup in Hin as [i Hi].
    apply lookup_zip_Some in Hi as [Ht Hs]. rewrite list_lookup_fmap, Ht in Hs. injection Hs as <-.
    split; [|done]. by apply list_elem_of_lookup_2 in Ht. }
  destruct (place_all_ok (zip l (map f l)) (set_displacement p b d) b d)
    as (H1 & H2 & H3 & H4).
  - by apply set_displacement_ok.
  - cbn. apply list_lookup_insert_eq. lia.
  - rewrite fst_zip by lia. apply buckets_nodup.
  - rewrite snd_zip by lia. done.
  - intros t s Hin. destruct (Hzip t s Hin) as [Ht ->].
    rewrite Forall_forall in Hf, HN. specialize (Hf t Ht). cbn beta in Hf.
    split_and!.
    + by apply buckets_of.
    + cbn. eapply (pending_lookup N B); [|by apply HN|by apply buckets_of|done]. done.
    + apply MphfSlotFor_range.
    + apply MphfSlotFor_range.
    + cbn. by apply used_false.
    + unfold slot_of_disp. destruct (Z.ltb_spec d 0); [lia|done].
  - split.
    + split_and!; [done| |].
      * by rewrite H4.
      * rewrite H3. cbn. by rewrite length_insert.
    + intros b' Hne Hpb t s Hbt Hts. rewrite H2 in Hts; [by apply (Hpb t)|].
      intros Hin. rewrite fst_zip in Hin by lia. apply Hne. rewrite <- Hbt. by apply buckets_of.
Qed.

Lemma place_bucket_ok N B k b p p' :
  step_ok N B p -> pending b p -> b < B -> Forall (fun t => t < N) (nth b buckets []) ->
  place_bucket terms n seed k buckets p b = Some p' ->
  step_ok N B p' /\ (forall b', b' <> b -> pending b' p -> pending b' p') /\
  (length (nth b buckets []) = 1 -> pending b p').
Proof.
  intros Hok Hp Hb HN. unfold place_bucket. destruct (nth b buckets []) as [|t [|t' l]] eqn:E.
  - intros [= <-]. split_and!; [|done|done]. destruct Hok as (? & ? & ?).
    split_and!; [by apply set_displacement_ok|done|cbn; by rewrite length_insert].
  - by intros [= <-].
  - rewrite <- E in *. intros H. apply (try_displacements_ok N B b) in H as [H1 H2]; try done.
    split_and!; [done|done|]. rewrite E. cbn. lia.
Qed.

(** The first loop: every bucket once. *)
Lemma place_buckets_ok N B k order p p' :
  NoDup order -> (forall b, b ∈ order -> b < B /\ pending b p) ->
  (forall b, Forall (fun t => t < N) (nth b buckets [])) ->
  (forall b, length (nth b buckets []) = 1 -> pending b p) -> step_ok N B p ->
  fold_option (place_bucket terms n seed k buckets) order p = Some p' ->
  step_ok N B p' /\ (forall b, length (nth b buckets []) = 1 -> pending b p').
Proof.
  revert p. induction order as [|b order IH]; intros p Hnd Ho HN H1 Hok; cbn [fold_option];
    [by intros [= <-]|].
  apply NoDup_cons in Hnd as [Hnin Hnd].
  destruct (place_bucket _ _ _ _ _ _ _) as [p1|] eqn:E; [|done].
  destruct (Ho b ltac:(apply elem_of_cons; by left)) as [Hb Hp].
  apply (place_bucket_ok N B) in E as (Hok1 & Hpb & Hp1); try done.
  intros H. apply IH in H; try done.
  - intros b' Hin. destruct (Ho b' ltac:(apply elem_of_cons; by right)) as [? ?]. split; [done|].
    apply Hpb; [|done]. intros ->. done.
  - intros b' Hb'. destruct (decide (b' = b)) as [->|]; [by apply Hp1|]. apply Hpb; auto.
Qed.

(** The second loop: single-term buckets take the free slots in turn. *)
Lemma place_singles_ok N B l p free p' free' :
  NoDup l.*1 -> (forall b bt, (b, bt) ∈ l -> nth b buckets [] = bt /\ b < B) ->
  (forall b, Forall (fun t => t < N) (nth b buckets [])) ->
  (forall b bt, (b, bt) ∈ l -> length bt = 1 -> pending b p) ->
  NoDup free -> Forall (fun s => 0 <= s < n /\ p_used p !! Z.to_nat s = Some false)%Z free ->
  step_ok N B p ->
  fold_option place_single l (p, free) = Some (p', free') -> step_ok N B p'.
Proof.
  revert p free. induction l as [|[b bt] l IH]; intros p free Hnd Hl HN Hp Hnf Hfree Hok; cbn [fold_option].
  { by intros [= <- _]. }
  cbn in Hnd. apply NoDup_cons in Hnd as [Hnin Hnd].
  destruct (Hl b bt ltac:(apply elem_of_cons; by left)) as [Hbt HbB].
  assert (Hl' : forall b' bt', (b', bt') ∈ l -> nth b' buckets [] = bt' /\ b' < B)
    by (intros; apply Hl; apply elem_of_cons; by right).
  assert (Hp' : forall b' bt', (b', bt') ∈ l -> length bt' = 1 -> pending b' p)
    by (intros b' bt' ? ?; apply (Hp b' bt'); [apply elem_of_cons; by right|done]).
  unfold place_single at 1. destruct bt as [|t [|t2 bt]]; [by apply IH| |by apply IH].
  destruct free as [|slot free]; [done|]. case_test; [done|].
  apply NoDup_cons in Hnf as [Hns Hnf]. inversion Hfree as [|? ? [Hs Hu] Hfree']; subst.
  assert (Hpend : pending b p) by (apply (Hp b [t]); [apply elem_of_cons; by left|done]).
  assert (Htb : t ∈ nth b buckets []) by (rewrite Hbt; by apply list_elem_of_singleton).
  assert (Hbo : bucket_of t = b) by by apply buckets_of.
  assert (HtN : t < N) by (specialize (HN b); rewrite Forall_forall in HN; by apply HN).
  assert (Hneb : forall b' bt', (b', bt') ∈ l -> b' <> b).
  { intros b' bt' Hin ->. apply Hnin. by apply (list_elem_of_fmap_2 fst l (b, bt')). }
  pose proof Hok as (Hpl & HsN & HdB).
  apply IH; try done.
  - intros b' bt' Hin Hlen t' s' Ht' Hs'. cbn in Hs'.
    rewrite list_lookup_insert_ne in Hs'; [by apply (Hp' b' bt' Hin Hlen t')|].
    intros <-. apply (Hneb b' bt' Hin). by rewrite <- Ht'.
  - apply Forall_forall. intros s' Hs'. rewrite Forall_forall in Hfree'.
    destruct (Hfree' s' Hs') as [? Hu']. split; [done|]. cbn.
    rewrite list_lookup_insert_ne; [done|]. intros Heq. apply Hns.
    replace slot with s' by lia. done.
  - split_and!.
    + apply place_ok; [by apply set_displacement_ok| |done|done|].
      * cbn. by eapply (pending_lookup N B).
      * exists (- slot - 1)%Z. cbn. rewrite Hbo, list_lookup_insert_eq by lia. split; [done|].
        unfold slot_of_disp. destruct (Z.ltb_spec (- slot - 1) 0); lia.
    + cbn. by rewrite length_insert.
    + cbn. by rewrite length_insert.
Qed.
End placement.

(** * The buckets *)

Section buckets.
Lemma fill_fold {A} (f : nat * A -> nat) (l : list (nat * A)) bs b :
  nth b (fold_left (fun bs p => alter (fun b => b ++ [p.1]) (f p) bs) l bs) [] =
  if b <? length bs then nth b bs [] ++ map fst (filter (fun p => f p = b) l) else [].
Proof.
  revert bs. induction l as [|p l IH]; intros bs; cbn [fold_left].
  - rewrite app_nil_r. case_test; [done|]. by apply nth_overflow.
  - rewrite IH, length_alter, alter_nth. case_test; [|done]. rewrite filter_cons.
    destruct (decide (f p = b)) as [Heq|Hne].
    + rewrite bool_decide_eq_true_2 by done. by rewrite <- app_assoc.
    + rewrite bool_decide_eq_false_2 by tauto. done.
Qed.

Lemma length_fill_buckets terms seed count :
  length (fill_buckets terms seed count) = Z.to_nat count.
Proof.
  unfold fill_buckets. rewrite <- (length_replicate (Z.to_nat count) (@nil nat)) at 2.
  generalize (replicate (Z.to_nat count) (@nil nat)). generalize (zip (seq 0 (length terms)) terms).
  induction l as [|[i t] l IH]; intros bs; cbn [fold_left]; [done|]. by rewrite IH, length_alter.
Qed.

Definition mphf_bucket (terms : list TermMphfBuildTerm) (seed count : Z) (i : nat) : nat :=
  Z.to_nat (TermMphfHash (term_at terms i) seed mod count)%Z.

Lemma fill_buckets_spec terms seed count b :
  let bt := nth b (fill_buckets terms seed count) [] in
  NoDup bt /\ (forall t, t ∈ bt -> mphf_bucket terms seed count t = b /\ t < length terms).
Proof.
  unfold fill_buckets.
  set (f := fun p : nat * TermMphfBuildTerm => Z.to_nat (TermMphfHash (Term p.2) seed mod count)).
  rewrite (fold_left_ext _ (fun bs p => alter (fun b => b ++ [p.1]) (f p) bs)) by (by intros ? []).
  cbv zeta. rewrite fill_fold. case_test; [|split; [constructor|by intros t Ht%elem_of_nil]].
  rewrite nth_replicate_same. cbn [app]. split.
  - apply (sublist_NoDup _ (map fst (zip (seq 0 (length terms)) terms))).
    + change (map fst) with (fmap (M:=list) (@fst nat TermMphfBuildTerm)).
      rewrite enumerate_fst. apply NoDup_seq.
    + apply (fmap_sublist fst), sublist_filter.
  - intros t Ht. apply (list_elem_of_fmap_1 fst) in Ht as ([t' src] & -> & Ht).
    apply list_elem_of_filter in Ht as [Hf Ht]. apply elem_of_enumerate in Ht. cbn.
    split; [|by apply lookup_lt_Some in Ht]. rewrite <- Hf. unfold f, mphf_bucket, term_at. by rewrite Ht.
Qed.
End buckets.

Section mphf_place_section.
Lemma next_power_of_two_range v : (0 <= v < 2 ^ 31)%Z -> (1 <= next_power_of_two v <= 2 ^ 31)%Z.
Proof.
  intros Hv. unfold next_power_of_two. destruct (Z.leb_spec v 1); [lia|]. cbv zeta.
  assert (Hin : forall x k, (0 <= k)%Z -> in_u 31 x -> in_u 31 (Z.lor x (Z.shiftr x k)))
    by (intros; apply in_u_lor; auto with moon).
  set (x := Z.lor _ _). assert (Hx : in_u 31 x).
  { unfold x. do 5 (apply Hin; [lia|]). unfold in_u. lia. }
  unfold in_u in Hx. unfold wrapping_add. rewrite wrap_small by (unfold in_u; lia). lia.
Qed.

Lemma place_init_ok terms n seed bucket_of B :
  (0 < n < 2 ^ 32)%Z -> length terms = Z.to_nat n ->
  step_ok terms n seed bucket_of (Z.to_nat n) B
    {| p_displacements := replicate B (-1)%Z; p_used := replicate (Z.to_nat n) false;
       p_slots := replicate (Z.to_nat n) u32_max |}.
Proof.
  intros Hn Hl. split_and!; cbn; [|by rewrite length_replicate..]. split; cbn.
  - by rewrite length_replicate.
  - intros t s Ht Hne. apply lookup_replicate in Ht as [-> _]. done.
  - intros t t' s Ht _ Hne. apply lookup_replicate in Ht as [-> _]. done.
Qed.

Lemma free_slots_spec used n :
  length used = Z.to_nat n ->
  NoDup (free_slots used) /\
  Forall (fun s => 0 <= s < n /\ used !! Z.to_nat s = Some false)%Z (free_slots used).
Proof.
  intros Hl. unfold free_slots. split.
  - apply (NoDup_fmap_2 Z.of_nat). apply NoDup_filter, NoDup_seq.
  - apply Forall_map, Forall_forall. intros s Hs. apply list_elem_of_filter in Hs as [Hf Hs].
    apply elem_of_seq in Hs. split; [lia|]. rewrite Nat2Z.id.
    destruct (lookup_lt_is_Some_2 used s ltac:(lia)) as [x Hx].
    rewrite (nth_lookup_Some _ _ _ _ Hx) in Hf. congruence.
Qed.

(** The placement of a successful build. *)
Lemma mphf_place_ok terms bucket_seed slot_seed n p :
  n = Z.of_nat (length terms) -> (0 < n < 2 ^ 32)%Z ->
  mphf_place terms bucket_seed slot_seed = Some p ->
  let count := next_power_of_two (Z.max 1 (n / 2)) in
  step_ok terms n slot_seed (mphf_bucket terms bucket_seed count) (Z.to_nat n) (Z.to_nat count) p.
Proof.
  intros Hn Hb. unfold mphf_place. rewrite <- Hn, wrap_small by (unfold in_u; lia).
  set (count := next_power_of_two _). set (buckets := fill_buckets terms bucket_seed count).
  cbv zeta. set (p0 := {| p_displacements := _ |}).
  destruct (fold_option _ (bucket_order buckets) p0) as [p1|] eqn:E1; [|done].
  destruct (fold_option place_single _ _) as [[p2 free]|] eqn:E2; [|done]. intros [= <-].
  assert (Hlen : length buckets = Z.to_nat count) by apply length_fill_buckets.
  assert (Hbs : forall b t, t ∈ nth b buckets [] -> mphf_bucket terms bucket_seed count t = b)
    by (intros b t; apply fill_buckets_spec).
  assert (Hnd : forall b, NoDup (nth b buckets [])) by (intros b; apply fill_buckets_spec).
  assert (HN : forall b, Forall (fun t => t < Z.to_nat n) (nth b buckets [])).
  { intros b. apply Forall_forall. intros t Ht. apply fill_buckets_spec in Ht. lia. }
  assert (Hp0 : forall b, pending (mphf_bucket terms bucket_seed count) b p0).
  { intros b t s _ Hs. cbn in Hs. by apply lookup_replicate in Hs as [-> _]. }
  assert (Hinit : step_ok terms n slot_seed (mphf_bucket terms bucket_seed count)
    (Z.to_nat n) (Z.to_nat count) p0) by (apply place_init_ok; lia).
  assert (Horder : bucket_order buckets ≡ₚ seq 0 (length buckets)) by apply stable_sort_perm.
  apply (place_buckets_ok terms n slot_seed _ Hb buckets Hbs Hnd (Z.to_nat n) (Z.to_nat count)) in E1
    as [Hok1 Hpend]; try done.
  2:{ rewrite Horder. apply NoDup_seq. }
  2:{ intros b Hin. rewrite Horder in Hin. apply elem_of_seq in Hin. split; [lia|done]. }
  pose proof (free_slots_spec (p_used p1) n (ok_used _ _ _ _ _ (proj1 Hok1))) as [Hfnd Hff].
  apply (place_singles_ok terms n slot_seed _ buckets Hbs (Z.to_nat n) (Z.to_nat count)) in E2; try done.
  - rewrite enumerate_fst. apply NoDup_seq.
  - intros b bt Hin. apply elem_of_enumerate in Hin. split; [by apply nth_lookup_Some|].
    apply lookup_lt_Some in Hin. lia.
  - intros b bt Hin Hl. apply elem_of_enumerate in Hin. apply Hpend.
    by rewrite (nth_lookup_Some _ _ _ _ Hin).
Qed.
End mphf_place_section.

(** * The entry pages *)

Definition entry_bytes (fingerprint_seed : Z) (e : TermMphfBuildTerm) : bytes :=
  le_bytes 4 (DocFreq_ e) ++ le_bytes 4 (IndexBlockID e) ++ le_bytes 4 (IndexOffset e)
  ++ le_bytes 4 (IndexLength e) ++ le_bytes 4 (ContinuationBlockCount e) ++ le_bytes 4 (Flags e)
  ++ le_bytes 8 (term_fingerprint (Term e) fingerprint_seed).

(** The 32 bytes at a slot. *)
Definition entry_at (pages : list bytes) (s : nat) : option bytes :=
  slice (s * TERM_MPHF_ENTRY_SIZE mod PAGE_SIZE) TERM_MPHF_ENTRY_SIZE
    <$> pages !! (s * TERM_MPHF_ENTRY_SIZE / PAGE_SIZE).

Section entries.
Lemma slot_page s :
  s * TERM_MPHF_ENTRY_SIZE / PAGE_SIZE = s / 128 /\
  s * TERM_MPHF_ENTRY_SIZE mod PAGE_SIZE = (s mod 128) * 32.
Proof.
  pose proof PAGE_SIZE_Z. assert (PAGE_SIZE = 128 * 32) as -> by lia. unfold TERM_MPHF_ENTRY_SIZE.
  split; [apply Nat.Div0.div_mul_cancel_r; lia|apply Nat.Div0.mul_mod_distr_r].
Qed.

Lemma write_entry_splice fseed e off page :
  off + 32 <= length page -> write_entry fseed e off page = splice off (entry_bytes fseed e) page.
Proof.
  intros Hfit. unfold write_entry, put. rewrite Nat.add_0_r.
  rewrite (splice_splice off (off + 4)) by len_lia.
  rewrite (splice_splice off (off + 8)) by len_lia.
  rewrite (splice_splice off (off + 12)) by len_lia.
  rewrite (splice_splice off (off + 16)) by len_lia.
  rewrite (splice_splice off (off + 20)) by len_lia.
  rewrite (splice_splice off (off + 24)) by len_lia.
  unfold entry_bytes. by rewrite <- !app_assoc.
Qed.

Lemma store_entry_spec fseed slots pages i e pages' :
  Forall (fun pg => length pg = PAGE_SIZE) pages ->
  store_entry fseed slots pages (i, e) = Some pages' ->
  nth i slots u32_max <> u32_max /\ Forall (fun pg => length pg = PAGE_SIZE) pages' /\
  length pages' = length pages /\
  (Z.to_nat (nth i slots u32_max) / 128 < length pages ->
   entry_at pages' (Z.to_nat (nth i slots u32_max)) = Some (entry_bytes fseed e)) /\
  (forall s, s <> Z.to_nat (nth i slots u32_max) -> entry_at pages' s = entry_at pages s).
Proof.
  intros Hp. unfold store_entry. generalize (nth i slots u32_max). intros slot. case_test; [done|]. intros Heq%(inj Some). subst pages'.
  destruct (slot_page (Z.to_nat slot)) as [Hd Hm]. rewrite Hd, Hm.
  pose proof (Nat.mod_upper_bound (Z.to_nat slot) 128 ltac:(lia)) as Hmod. pose proof PAGE_SIZE_Z.
  assert (Hw : forall pg, length pg = PAGE_SIZE ->
    write_entry fseed e (Z.to_nat slot mod 128 * 32) pg
    = splice (Z.to_nat slot mod 128 * 32) (entry_bytes fseed e) pg).
  { intros pg Hpg. apply write_entry_splice. lia. }
  split_and!; [done| |by rewrite length_alter| |].
  - apply Forall_alter; [done|]. intros pg Hin Hpg. rewrite Hw by done.
    rewrite length_splice; [done|]. change (length (entry_bytes fseed e)) with 32. lia.
  - intros Hlt. unfold entry_at. rewrite Hd, Hm, list_lookup_alter_eq.
    destruct (lookup_lt_is_Some_2 pages (Z.to_nat slot / 128) Hlt) as [pg Hpg]. rewrite Hpg.
    rewrite Forall_lookup in Hp. specialize (Hp _ _ Hpg). cbn [fmap option_fmap option_map].
    rewrite Hw by done. f_equal. apply (slice_splice_same _ (entry_bytes fseed e)). lia.
  - intros s Hs. unfold entry_at. destruct (slot_page s) as [-> ->].
    destruct (decide (Z.to_nat slot / 128 = s / 128)) as [Heq|Hne];
      [|by rewrite list_lookup_alter_ne].
    rewrite Heq, list_lookup_alter_eq.
    destruct (pages !! (s / 128)) as [pg|] eqn:Epg; [|done].
    rewrite Forall_lookup in Hp. specialize (Hp _ _ Epg). cbn [fmap option_fmap option_map]. f_equal.
    rewrite Hw by done. unfold TERM_MPHF_ENTRY_SIZE.
    assert (Z.to_nat slot mod 128 <> s mod 128).
    { intros Hmm. apply Hs. rewrite (Nat.div_mod_eq s 128), (Nat.div_mod_eq (Z.to_nat slot) 128). lia. }
    pose proof (Nat.mod_upper_bound s 128 ltac:(lia)).
    destruct (decide (s mod 128 < Z.to_nat slot mod 128)).
    + apply slice_splice_before; lia.
    + apply slice_splice_after; change (length (entry_bytes fseed e)) with 32; lia.
Qed.

(** Every entry is at its slot after the loop over the terms. *)
Lemma store_entries_spec fseed slots l pages pages' :
  Forall (fun pg => length pg = PAGE_SIZE) pages ->
  NoDup (map (fun p => Z.to_nat (nth p.1 slots u32_max)) l) ->
  fold_option (store_entry fseed slots) l pages = Some pages' ->
  (forall i e, (i, e) ∈ l -> nth i slots u32_max <> u32_max) /\ length pages' = length pages /\
  (forall i e, (i, e) ∈ l -> Z.to_nat (nth i slots u32_max) / 128 < length pages ->
     entry_at pages' (Z.to_nat (nth i slots u32_max)) = Some (entry_bytes fseed e)) /\
  (forall s, s ∉ map (fun p => Z.to_nat (nth p.1 slots u32_max)) l ->
     entry_at pages' s = entry_at pages s).
Proof.
  revert pages. induction l as [|[i e] l IH]; intros pages Hp Hnd; cbn [fold_option].
  { intros [= <-]. split_and!; try done; by intros ? ? ?%elem_of_nil. }
  cbn [map] in Hnd. apply NoDup_cons in Hnd as [Hnin Hnd].
  destruct (store_entry _ _ _ _) as [pages1|] eqn:E; [|done]. intros Hf.
  apply store_entry_spec in E as (Hne & Hp1 & Hl1 & Hin & Hout); [|done].
  destruct (IH pages1 Hp1 Hnd Hf) as (H1 & H2 & H3 & H4). split_and!.
  - intros i' e' [[= -> ->]|Hin']%elem_of_cons; [done|by eapply H1].
  - lia.
  - intros i' e' [[= -> ->]|Hin']%elem_of_cons Hlt.
    + rewrite H4 by done. by apply Hin.
    + apply H3; [done|]. by rewrite Hl1.
  - intros s Hs. apply not_elem_of_cons in Hs as [Hs1 Hs2]. rewrite H4 by done. by apply Hout.
Qed.
End entries.

(** * Properties *)

Definition build_term_wf (e : TermMphfBuildTerm) : Prop :=
  in_u 32 (DocFreq_ e) /\ in_u 32 (IndexBlockID e) /\ in_u 32 (IndexOffset e) /\
  in_u 32 (IndexLength e) /\ in_u 32 (ContinuationBlockCount e).

(** The location a dictionary entry records. *)
Definition location_of (e : TermMphfBuildTerm) : IndexLocation :=
  {| index_block_id := IndexBlockID e; index_offset := IndexOffset e; index_length := IndexLength e;
     doc_freq_ := DocFreq_ e; continuation_block_count := ContinuationBlockCount e |}.

Section build.
Lemma store_entries_max fseed slots l pages pages' :
  fold_option (store_entry fseed slots) l pages = Some pages' ->
  forall i e, (i, e) ∈ l -> nth i slots u32_max <> u32_max.
Proof.
  revert pages. induction l as [|[i e] l IH]; intros pages; cbn [fold_option].
  { intros _ i e Hin. by apply elem_of_nil in Hin. }
  destruct (store_entry _ _ _ _) as [pages1|] eqn:E; [|done]. intros Hf.
  intros i' e' [[= -> ->]|Hin]%elem_of_cons; [|by eapply IH].
  unfold store_entry in E. by case_test.
Qed.

(** What a successful build gives: consistent counts, and every term's entry at the slot the
    term hashes to. *)
Lemma TryBuild_spec terms bs ss fs h ds pages :
  (Z.of_nat (length terms) < 2 ^ 32)%Z ->
  TryBuildTermMphf terms bs ss fs = Some (h, ds, pages) ->
  let n := Z.of_nat (length terms) in
  (0 < n)%Z /\
  h = {| TMH_Magic := TERM_MPHF_MAGIC; TMH_TermCount := n;
         TMH_BucketCount := next_power_of_two (Z.max 1 (n / 2)); TMH_SlotCount := n;
         TMH_BucketSeed := bs; TMH_SlotSeed := ss; TMH_FingerprintSeed := fs |} /\
  length ds = Z.to_nat (TMH_BucketCount h) /\
  length pages = (length terms + 127) / 128 /\
  (exists slots : nat -> Z,
     (forall i j, i < length terms -> j < length terms -> slots i = slots j -> i = j) /\
     (forall i e, terms !! i = Some e ->
        (0 <= slots i < n)%Z /\ mphf_slot h ds (Term e) = Some (slots i) /\
        entry_at pages (Z.to_nat (slots i)) = Some (entry_bytes fs e))).
Proof.
  intros Hlen. unfold TryBuildTermMphf. rewrite wrap_small by (unfold in_u; lia).
  set (n := Z.of_nat (length terms)). case_test; [done|]. destruct (has_adjacent_dup _); [done|].
  destruct (mphf_place terms bs ss) as [p|] eqn:Ep; [|done].
  destruct (fold_option _ _ _) as [pgs|] eqn:Eg; [|done]. intros Heq.
  assert (Hn : (0 < n < 2 ^ 32)%Z) by lia.
  apply (mphf_place_ok terms bs ss n p eq_refl Hn) in Ep as (Hok & Hsl & Hdl).
  set (count := next_power_of_two (Z.max 1 (n / 2))) in *.
  assert (Hnat : Z.to_nat n = length terms) by lia. rewrite Hnat in *.
  injection Heq as <- <- <-.
  pose proof (store_entries_max _ _ _ _ _ Eg) as Hmax.
  assert (Hslots : forall i e, terms !! i = Some e ->
    p_slots p !! i = Some (nth i (p_slots p) u32_max) /\ nth i (p_slots p) u32_max <> u32_max).
  { intros i e Hi. split; [|by apply (Hmax i e), elem_of_enumerate].
    pose proof (lookup_lt_Some _ _ _ Hi).
    destruct (lookup_lt_is_Some_2 (p_slots p) i ltac:(lia)) as [s Hs].
    by rewrite (nth_lookup_Some _ _ _ _ Hs). }
  assert (Hinj : forall i j, i < length terms -> j < length terms ->
    nth i (p_slots p) u32_max = nth j (p_slots p) u32_max -> i = j).
  { intros i j Hi Hj Heq. destruct (lookup_lt_is_Some_2 terms i Hi) as [e He].
    destruct (lookup_lt_is_Some_2 terms j Hj) as [e' He'].
    destruct (Hslots i e He) as [H1 Hne], (Hslots j e' He') as [H2 _]. rewrite <- Heq in H2.
    exact (ok_inj _ _ _ _ _ Hok i j _ H1 H2 Hne). }
  assert (Hrange : forall i e, terms !! i = Some e -> (0 <= nth i (p_slots p) u32_max < n)%Z).
  { intros i e Hi. destruct (Hslots i e Hi) as [H1 Hne]. by apply (ok_slots _ _ _ _ _ Hok i _ H1). }
  apply store_entries_spec in Eg as (_ & Hpl & Hent & _).
  2:{ apply Forall_replicate. by apply length_replicate. }
  2:{ rewrite <- map_map with (f := fst) (g := fun i => Z.to_nat (nth i (p_slots p) u32_max)).
      change (map fst ?l) with (l.*1). rewrite enumerate_fst. apply NoDup_fmap_2_strong; [|apply NoDup_seq].
      intros i j Hi Hj Heq. apply elem_of_seq in Hi, Hj. apply Hinj; [lia..|].
      destruct (lookup_lt_is_Some_2 terms i ltac:(lia)) as [e He].
      destruct (lookup_lt_is_Some_2 terms j ltac:(lia)) as [e' He'].
      pose proof (Hrange i e He). pose proof (Hrange j e' He'). lia. }
  rewrite length_replicate in *. split_and!; try done; [lia|].
  exists (fun i => nth i (p_slots p) u32_max). split; [done|]. intros i e Hi.
  pose proof (Hrange i e Hi) as Hr. split; [done|]. split.
  - destruct (Hslots i e Hi) as [H1 Hne].
    destruct (ok_slots _ _ _ _ _ Hok i _ H1 Hne) as (_ & _ & d & Hd & Hs).
    unfold mphf_slot. cbn. fold count. unfold mphf_bucket, term_at in Hd. rewrite Hi in Hd. rewrite Hd.
    rewrite Hs. unfold slot_of_disp, MphfSlotFor, term_at. by rewrite Hi.
  - apply Hent; [by apply elem_of_enumerate|].
    pose proof (lookup_lt_Some _ _ _ Hi). apply Nat.Div0.div_lt_upper_bound.
    pose proof (Nat.div_mod_eq (length terms + 127) 128).
    pose proof (Nat.mod_upper_bound (length terms + 127) 128 ltac:(lia)). lia.
Qed.

(** The dictionary's own checks accept what was built. *)
Lemma SetTermMphf_built t terms bs ss fs h ds pages :
  (Z.of_nat (length terms) < 2 ^ 32)%Z -> m_TermMphfEnabled t = true ->
  TryBuildTermMphf terms bs ss fs = Some (h, ds, pages) ->
  let t' := SetTermMphf t h ds pages in
  HasTermMphf t' = true /\ m_TermMphfHeader t' = h /\ m_TermMphfDisplacements t' = ds /\
  m_TermMphfEntryPages t' = pages /\ m_TermMphfEntryPageCount t' = Z.of_nat (length pages).
Proof.
  intros Hlen Hen Hb. apply TryBuild_spec in Hb as (Hn & -> & Hd & Hp & _); [|done].
  set (n := Z.of_nat (length terms)) in *. cbn [TMH_BucketCount] in Hd.
  pose proof (next_power_of_two_range (Z.max 1 (n / 2)) ltac:(dlia)) as Hc.
  set (count := next_power_of_two _) in *.
  assert (Hpn : (n <= Z.of_nat (length pages) * 128 < 2 ^ 33)%Z).
  { rewrite Hp. pose proof (Nat.div_mod_eq (length terms + 127) 128).
    pose proof (Nat.mod_upper_bound (length terms + 127) 128 ltac:(lia)). lia. }
  assert (ds <> []) by (intros ->; cbn in Hd; lia).
  assert (pages <> []) by (intros ->; cbn in Hpn; lia).
  unfold SetTermMphf. cbn [TMH_TermCount TMH_BucketCount TMH_SlotCount TMH_Magic].
  rewrite !bool_decide_eq_false_2 by done. pose proof PAGE_SIZE_Z. unfold TERM_MPHF_ENTRY_SIZE.
  assert (E1 : ((n =? 0) || (count =? 0) || (n =? 0) || false || false = false)%Z) by lia.
  assert (E2 : (negb (TERM_MPHF_MAGIC =? TERM_MPHF_MAGIC) || negb (n =? n)
    || negb (Z.of_nat (length ds) =? count)
    || (Z.of_nat (length pages) * Z.of_nat PAGE_SIZE <? n * Z.of_nat 32) = false)%Z) by lia.
  rewrite E1, E2. unfold HasTermMphf. cbn -[wrap Z.mul Z.of_nat].
  rewrite !wrap_small by (unfold in_u; lia). split_and!; try done. rewrite Hen.
  unfold TERM_MPHF_ENTRY_SIZE. lia.
Qed.
End build.

Section lookup.
Lemma entry_bytes_fields fs e :
  build_term_wf e ->
  let b := entry_bytes fs e in
  get 4 0 b = DocFreq_ e /\ get 4 4 b = IndexBlockID e /\ get 4 8 b = IndexOffset e /\
  get 4 12 b = IndexLength e /\ get 4 16 b = ContinuationBlockCount e.
Proof.
  intros (H1 & H2 & H3 & H4 & H5). cbv zeta.
  split; [exact (of_le_le_bytes_id 4 _ H1)|]. split; [exact (of_le_le_bytes_id 4 _ H2)|].
  split; [exact (of_le_le_bytes_id 4 _ H3)|]. split; [exact (of_le_le_bytes_id 4 _ H4)|].
  exact (of_le_le_bytes_id 4 _ H5).
Qed.

Lemma term_fingerprint_range term fs : in_u 64 fs -> in_u 64 (term_fingerprint term fs).
Proof.
  intros H. unfold term_fingerprint. case_test; [done|]. by apply TermMphfHash_range.
Qed.

Lemma entry_bytes_fingerprint fs e :
  in_u 64 fs -> get 8 24 (entry_bytes fs e) = term_fingerprint (Term e) fs.
Proof. intros H. exact (of_le_le_bytes_id 8 _ (term_fingerprint_range _ _ H)). Qed.

(** Lookup of a term whose slot holds the entry of [e]. *)
Lemma FindTermDataMphf_at t term s e :
  HasTermMphf t = true -> build_term_wf e -> in_u 64 (TMH_FingerprintSeed (m_TermMphfHeader t)) ->
  mphf_slot (m_TermMphfHeader t) (m_TermMphfDisplacements t) term = Some s ->
  (0 <= s < TMH_SlotCount (m_TermMphfHeader t))%Z ->
  m_TermMphfEntryPageCount t = Z.of_nat (length (m_TermMphfEntryPages t)) ->
  entry_at (m_TermMphfEntryPages t) (Z.to_nat s)
    = Some (entry_bytes (TMH_FingerprintSeed (m_TermMphfHeader t)) e) ->
  FindTermDataMphf t term =
    if (term_fingerprint (Term e) (TMH_FingerprintSeed (m_TermMphfHeader t))
        =? term_fingerprint term (TMH_FingerprintSeed (m_TermMphfHeader t)))%Z
    then Some (location_of e) else None.
Proof.
  intros Hhas Hwf Hfs Hslot Hr Hpc He. unfold FindTermDataMphf. rewrite Hhas, Hslot. cbn [negb].
  replace (_ <=? s)%Z with false by (symmetry; apply Z.leb_gt; lia).
  unfold entry_at in He.
  destruct (m_TermMphfEntryPages t !! (Z.to_nat s * TERM_MPHF_ENTRY_SIZE / PAGE_SIZE)) as [pg|] eqn:Epg;
    [|done].
  pose proof (lookup_lt_Some _ _ _ Epg) as Hlt. rewrite Hpc.
  replace (_ <=? Z.of_nat _)%Z with false by (symmetry; apply Z.leb_gt; lia).
  apply (inj Some) in He. rewrite He.
  rewrite entry_bytes_fingerprint by done.
  destruct (entry_bytes_fields (TMH_FingerprintSeed (m_TermMphfHeader t)) e Hwf) as (F1 & F2 & F3 & F4 & F5).
  cbv zeta in *. rewrite F1, F2, F3, F4, F5. by destruct (_ =? _)%Z.
Qed.
End lookup.

Lemma mphf_lookup t terms bs ss fs h ds pages i e :
  (Z.of_nat (length terms) < 2 ^ 32)%Z -> in_u 64 fs -> Forall build_term_wf terms ->
  m_TermMphfEnabled t = true -> TryBuildTermMphf terms bs ss fs = Some (h, ds, pages) ->
  terms !! i = Some e ->
  FindTermDataMphf (SetTermMphf t h ds pages) (Term e) = Some (location_of e).
Proof.
  intros Hlen Hfs Hwf Hen Hb Hi.
  destruct (SetTermMphf_built t terms bs ss fs h ds pages Hlen Hen Hb) as (Hhas & Hh & Hds & Hpg & Hpc).
  apply TryBuild_spec in Hb as (Hn & Heq & _ & _ & slots & _ & Hslots); [|done].
  destruct (Hslots i e Hi) as (Hr & Hs & He).
  rewrite (FindTermDataMphf_at _ (Term e) (slots i) e); rewrite ?Hh, ?Hds, ?Hpg; try done.
  - rewrite Heq. cbn. by rewrite Z.eqb_refl.
  - by eapply Forall_lookup_1 in Hwf.
  - by rewrite Heq.
  - by rewrite Heq.
  - by rewrite Heq.
Qed.

Lemma seeds_in_u64 a : in_u 64 (wrapping_add 64 0xb492b66fbe98f273 (wrapping_mul 64 SEED_STEP a)).
Proof. apply wrap_range. lia. Qed.

(** A successful attempt of BuildTermMphf. *)
Lemma mphf_attempts_cases terms fuel a :
  mphf_attempts terms fuel a = (mphf_header_default, [], []) \/
  exists bs ss fs, in_u 64 fs /\ TryBuildTermMphf terms bs ss fs = Some (mphf_attempts terms fuel a).
Proof.
  revert a. induction fuel as [|fuel IH]; intros a; cbn [mphf_attempts]; [by left|].
  match goal with |- context [TryBuildTermMphf terms ?b ?s ?f] =>
    destruct (TryBuildTermMphf terms b s f) as [r|] eqn:E end; [|apply IH].
  right. eexists _, _, _. split; [|exact E]. apply seeds_in_u64.
Qed.

Lemma BuildTermMphf_cases terms :
  BuildTermMphf terms = (mphf_header_default, [], []) \/
  exists bs ss fs, in_u 64 fs /\ TryBuildTermMphf terms bs ss fs = Some (BuildTermMphf terms).
Proof. unfold BuildTermMphf. destruct terms; [by left|]. apply mphf_attempts_cases. Qed.

Lemma SetTermMphf_none t : HasTermMphf (SetTermMphf t mphf_header_default [] []) = false.
Proof. unfold HasTermMphf. cbn. by rewrite andb_false_r. Qed.

(** All slots of a minimal table are taken. *)
Lemma slots_surjective (n : nat) (slots : nat -> Z) s :
  (forall i j, i < n -> j < n -> slots i = slots j -> i = j) ->
  (forall i, i < n -> (0 <= slots i < Z.of_nat n)%Z) -> (0 <= s < Z.of_nat n)%Z ->
  exists i, i < n /\ slots i = s.
Proof.
  intros Hinj Hr Hs. set (l := map (fun i => Z.to_nat (slots i)) (seq 0 n)).
  assert (Hnd : NoDup l).
  { apply NoDup_fmap_2_strong; [|apply NoDup_seq]. intros i j Hi Hj Heq.
    apply elem_of_seq in Hi, Hj. apply Hinj; [lia..|].
    pose proof (Hr i ltac:(lia)). pose proof (Hr j ltac:(lia)). lia. }
  assert (Hsub : l ⊆+ seq 0 n).
  { apply NoDup_submseteq; [done|]. intros x Hx. apply list_elem_of_fmap in Hx as (i & -> & Hi).
    apply elem_of_seq in Hi. apply elem_of_seq. specialize (Hr i ltac:(lia)). lia. }
  apply submseteq_length_Permutation in Hsub; [|unfold l; rewrite length_map; lia].
  assert (Hin : Z.to_nat s ∈ l) by (rewrite Hsub; apply elem_of_seq; lia).
  apply list_elem_of_fmap in Hin as (i & Heq & Hi). apply elem_of_seq in Hi. exists i. split; [lia|].
  specialize (Hr i ltac:(lia)). lia.
Qed.

Lemma mphf_lookup_sound t terms bs ss fs h ds pages term loc :
  (Z.of_nat (length terms) < 2 ^ 32)%Z -> in_u 64 fs -> Forall build_term_wf terms ->
  m_TermMphfEnabled t = true -> TryBuildTermMphf terms bs ss fs = Some (h, ds, pages) ->
  FindTermDataMphf (SetTermMphf t h ds pages) term = Some loc ->
  exists e, e ∈ terms /\ loc = location_of e /\ term_fingerprint (Term e) fs = term_fingerprint term fs.
Proof.
  intros Hlen Hfs Hwf Hen Hb Hf.
  destruct (SetTermMphf_built t terms bs ss fs h ds pages Hlen Hen Hb) as (Hhas & Hh & Hds & Hpg & Hpc).
  apply TryBuild_spec in Hb as (Hn & Heq & _ & _ & slots & Hinj & Hslots); [|done].
  assert (Hsl : exists s, mphf_slot h ds term = Some s /\ (0 <= s < TMH_SlotCount h)%Z).
  { unfold FindTermDataMphf in Hf. rewrite Hhas, Hh, Hds in Hf. cbn [negb] in Hf.
    destruct (mphf_slot h ds term) as [s|] eqn:Es; [|done]. exists s. split; [done|].
    case_test; [done|]. split; [|done]. unfold mphf_slot in Es.
    destruct (ds !! _) as [d|]; [|done]. apply (inj Some) in Es as <-.
    rewrite Heq. cbn. case_test; [lia|]. apply Z.mod_pos_bound. lia. }
  destruct Hsl as (s & Hs & Hr).
  assert (Hsi : exists i, i < length terms /\ slots i = s).
  { apply slots_surjective; [done| |by rewrite Heq in Hr].
    intros i Hi. destruct (lookup_lt_is_Some_2 terms i Hi) as [e He]. by apply (Hslots i e). }
  destruct Hsi as (i & Hi & <-). destruct (lookup_lt_is_Some_2 terms i Hi) as [e He].
  destruct (Hslots i e He) as (_ & _ & Hent).
  rewrite (FindTermDataMphf_at _ term (slots i) e) in Hf; rewrite ?Hh, ?Hds, ?Hpg; try done.
  - rewrite Hh, Heq in Hf. cbn [TMH_FingerprintSeed] in Hf.
    destruct (Z.eqb_spec (term_fingerprint (Term e) fs) (term_fingerprint term fs)); [|done].
    injection Hf as <-. exists e. split; [by apply list_elem_of_lookup_2 in He|done].
  - by eapply Forall_lookup_1 in Hwf.
  - by rewrite Heq.
  - by rewrite Heq.
Qed.

(** every term of a built dictionary hash is found, with its own document frequency and
    posting location: the table passes the dictionary's checks and the builder's displacements
    lead each term to the slot where its entry is stored. *)
Theorem TermMphf_complete t terms bs ss fs h ds pages i e :
  (Z.of_nat (length terms) < 2 ^ 32)%Z -> in_u 64 fs -> Forall build_term_wf terms ->
  m_TermMphfEnabled t = true -> TryBuildTermMphf terms bs ss fs = Some (h, ds, pages) ->
  terms !! i = Some e ->
  FindTermDataMphf (SetTermMphf t h ds pages) (Term e) = Some (location_of e).
Proof. apply mphf_lookup. Qed.

(** BuildTermMphf either gives up and leaves the dictionary without a hash (lookups then use
    the head and leaf pages) or builds one in which every term is found with its own data. *)
Theorem BuildTermMphf_complete t terms i e :
  (Z.of_nat (length terms) < 2 ^ 32)%Z -> Forall build_term_wf terms -> m_TermMphfEnabled t = true ->
  terms !! i = Some e ->
  let '(h, ds, pages) := BuildTermMphf terms in
  let t' := SetTermMphf t h ds pages in
  HasTermMphf t' = false \/ FindTermDataMphf t' (Term e) = Some (location_of e).
Proof.
  intros Hlen Hwf Hen Hi. pose proof (BuildTermMphf_cases terms) as Hcase.
  destruct (BuildTermMphf terms) as [[h ds] pages]. destruct Hcase as [[= -> -> ->]|(bs & ss & fs & Hfs & Hb)].
  - left. apply SetTermMphf_none.
  - right. by eapply mphf_lookup.
Qed.

(** the hash has no other false positive than a fingerprint collision: whatever it returns
    is the data of a dictionary term whose 64-bit fingerprint equals the query's. *)
Theorem TermMphf_sound t terms bs ss fs h ds pages term loc :
  (Z.of_nat (length terms) < 2 ^ 32)%Z -> in_u 64 fs -> Forall build_term_wf terms ->
  m_TermMphfEnabled t = true -> TryBuildTermMphf terms bs ss fs = Some (h, ds, pages) ->
  FindTermDataMphf (SetTermMphf t h ds pages) term = Some loc ->
  exists e, e ∈ terms /\ loc = location_of e /\ term_fingerprint (Term e) fs = term_fingerprint term fs.
Proof. apply mphf_lookup_sound. Qed.

(** * Witnesses: the properties at concrete inputs *)

Definition sample_term : TermMphfBuildTerm :=
  {| Term := [97; 84]%Z; DocFreq_ := 2; IndexBlockID := 1; IndexOffset := 7; IndexLength := 5;
     ContinuationBlockCount := 0; Flags := 0 |}.

Definition sample_table : MphfTable :=
  {| m_TermMphfHeader := mphf_header_default; m_TermMphfDisplacements := [];
     m_TermMphfDisplacementCount := 0; m_TermMphfEntryPages := []; m_TermMphfEntryPageCount := 0;
     m_TermMphfEnabled := true |}.

Lemma sample_terms_wf : Forall build_term_wf [sample_term].
Proof. repeat constructor; cbn; lia. Defined.

Lemma TermMphf_complete_witness :
  match TryBuildTermMphf [sample_term] 1 2 3 with
  | Some (h, ds, pages) =>
      FindTermDataMphf (SetTermMphf sample_table h ds pages) [97; 84]%Z = Some (location_of sample_term)
  | None => False
  end.
Proof.
  destruct (TryBuildTermMphf [sample_term] 1 2 3) as [[[h ds] pages]|] eqn:E.
  - apply (TermMphf_complete sample_table [sample_term] 1 2 3 h ds pages 0 sample_term);
      [done|unfold in_u; lia|exact sample_terms_wf|reflexivity|exact E|reflexivity].
  - vm_compute in E. discriminate.
Defined.

Lemma BuildTermMphf_complete_witness :
  let '(h, ds, pages) := BuildTermMphf [sample_term] in
  let t' := SetTermMphf sample_table h ds pages in
  HasTermMphf t' = false \/ FindTermDataMphf t' [97; 84]%Z = Some (location_of sample_term).
Proof.
  apply (BuildTermMphf_complete sample_table [sample_term] 0 sample_term);
    [done|exact sample_terms_wf|reflexivity|reflexivity].
Defined.

Lemma TermMphf_sound_witness :
  match TryBuildTermMphf [sample_term] 1 2 3 with
  | Some (h, ds, pages) =>
      exists e, e ∈ [sample_term] /\ location_of sample_term = location_of e /\
        term_fingerprint (Term e) 3 = term_fingerprint [97; 84]%Z 3
  | None => False
  end.
Proof.
  destruct (TryBuildTermMphf [sample_term] 1 2 3) as [[[h ds] pages]|] eqn:E.
  - apply (TermMphf_sound sample_table [sample_term] 1 2 3 h ds pages [97; 84]%Z (location_of sample_term));
      [done|unfold in_u; lia|exact sample_terms_wf|reflexivity|exact E|].
    vm_compute in E. injection E as <- <- <-. vm_compute. reflexivity.
  - vm_compute in E. discriminate.
Defined.
