(* ===== verification/TermDictionary.v ===== *)
(** Term lookup (BlockTable.rs: FindTermData and its two paths): the perfect hash
    first, then the head entries and a binary search in one leaf page, with the
    proof that a well-formed dictionary is searched correctly. *)

From Stdlib Require Import ZArith Lia ZifyBool Bool List.
From stdpp Require Import base list list_numbers gmap sorting.
From S2P Require Import Prelude Hashing FileFormat Mphf.

Local Open Scope moon_scope.

Inductive BlockKind := Index | LeafTerm.

Instance BlockKind_eq : EqDecision BlockKind.
Proof. solve_decision. Defined.

(** What the lookups need of the block cache: IndexBlockTable::GetBlock, the page
    of a kind at a sequence number. *)
Class BlockSource := GetBlock : BlockKind -> Z -> option bytes.

(** The dictionary fields of IndexBlockTable. *)
Record TermTable := {
  tt_Mphf : MphfTable;
  m_HeadTermEntries : list HeadTermEntry;
  m_HeadTermEntryCount : Z;
}.

Definition mphf_table_new : MphfTable :=
  {| m_TermMphfHeader := mphf_header_default; m_TermMphfDisplacements := [];
     m_TermMphfDisplacementCount := 0; m_TermMphfEntryPages := []; m_TermMphfEntryPageCount := 0;
     m_TermMphfEnabled := true |}.

Definition table_new : TermTable :=
  {| tt_Mphf := mphf_table_new; m_HeadTermEntries := []; m_HeadTermEntryCount := 0 |}.

Definition SetHeadTermEntries (t : TermTable) (head : list HeadTermEntry) : TermTable :=
  {| tt_Mphf := tt_Mphf t; m_HeadTermEntries := head;
     m_HeadTermEntryCount := Z.min (Z.of_nat (length head)) u32_max |}.

Definition table_SetTermMphf (t : TermTable) (header : TermMphfHeader) (displacements : list Z)
    (entryPages : list bytes) : TermTable :=
  {| tt_Mphf := SetTermMphf (tt_Mphf t) header displacements entryPages;
     m_HeadTermEntries := m_HeadTermEntries t; m_HeadTermEntryCount := m_HeadTermEntryCount t |}.

(** [slice::partition_point] on a list whose elements that satisfy [f] come
    first; on another list its result is unspecified. *)
Fixpoint partition_point {A} (f : A -> bool) (l : list A) : nat :=
  match l with
  | [] => 0
  | x :: l' => if f x then S (partition_point f l') else 0
  end.

(** The [while left < right] loop; [None] where an entry does not decode. *)
Fixpoint leaf_search (fuel : nat) (block : LeafTermBlock) (term : str) (left right : nat) : option nat :=
  match fuel with
  | O => None
  | S fuel' =>
      if left <? right then
        let mid := left + (right - left) / 2 in
        opt e := entry block mid in
        if str_ltb (LTE_Term e) term then leaf_search fuel' block term (mid + 1) right
        else leaf_search fuel' block term left mid
      else Some left
  end.

Definition leaf_location (e : LeafTermEntry) : IndexLocation :=
  {| index_block_id := LTE_IndexBlockID e; index_offset := LTE_IndexOffset e;
     index_length := LTE_IndexLength e; doc_freq_ := LTE_DocFreq e;
     continuation_block_count := LTE_ContinuationBlockCount e |}.

Definition find_in_leaf (block : LeafTermBlock) (term : str) : option IndexLocation :=
  opt pos := leaf_search (S (entry_count block)) block term 0 (entry_count block) in
  if pos =? entry_count block then None
  else
    opt e := entry block pos in
    if negb (bool_decide (LTE_Term e = term)) then None else Some (leaf_location e).

(** IndexSerializer::BuildTermMphfFromLeafBlocks. *)
Definition build_term (e : LeafTermEntry) : TermMphfBuildTerm :=
  {| Term := LTE_Term e; DocFreq_ := LTE_DocFreq e; IndexBlockID := LTE_IndexBlockID e;
     IndexOffset := LTE_IndexOffset e; IndexLength := LTE_IndexLength e;
     ContinuationBlockCount := LTE_ContinuationBlockCount e; Flags := LTE_Flags e |}.

Definition BuildTermMphfFromLeafBlocks (leaf_blocks : list LeafTermBlock)
  : TermMphfHeader * list Z * list bytes :=
  BuildTermMphf (concat (map (fun block => map build_term (leaf_entries block)) leaf_blocks)).

Section table.
Context `{BlockSource}.

Definition FindTermDataHeadLeaf (t : TermTable) (term : str) : option IndexLocation :=
  if (m_HeadTermEntryCount t =? 0)%Z || (HEAD_TERM_KEY_MAX <? length term) then None
  else
    opt entries := get_range (m_HeadTermEntries t) 0 (Z.to_nat (m_HeadTermEntryCount t)) in
    match partition_point (fun e => str_leb (first_term e) term) entries with
    | O => None
    | S pos =>
        opt h := entries !! pos in
        opt page := GetBlock LeafTerm (HTE_LeafTermBlockID h) in
        find_in_leaf (leaf_view page) term
    end.

(** BloomFilter::CanTermExist is constantly true. *)
Definition FindTermData (t : TermTable) (term : str) : option IndexLocation :=
  let term := until_nul term in
  match (if HasTermMphf (tt_Mphf t) then FindTermDataMphf (tt_Mphf t) term else None) with
  | Some location => Some location
  | None => FindTermDataHeadLeaf t term
  end.
End table.

(** * Searching *)

Section search.
Lemma partition_point_app {A} (f : A -> bool) l1 l2 :
  Forall (fun x => f x = true) l1 -> Forall (fun x => f x = false) l2 -> partition_point f (l1 ++ l2) = length l1.
Proof.
  intros H1 H2. induction H1 as [|x l1 Hx _ IH]; cbn; [|by rewrite Hx, IH].
  destruct H2 as [|y l2 Hy _]; cbn; [done|]. by rewrite Hy.
Qed.

(** Where a sorted list of terms passes [term]. *)
Lemma leaf_search_ok block term es :
  StronglySorted (fun a b => str_lt (LTE_Term a) (LTE_Term b)) es ->
  (forall j, j < length es -> entry block j = es !! j) ->
  forall fuel left right, right - left < fuel -> left <= right <= length es ->
  Forall (fun e => str_lt (LTE_Term e) term) (take left es) ->
  Forall (fun e => ~ str_lt (LTE_Term e) term) (drop right es) ->
  exists k, leaf_search fuel block term left right = Some k /\ k <= length es /\
    Forall (fun e => str_lt (LTE_Term e) term) (take k es) /\
    Forall (fun e => ~ str_lt (LTE_Term e) term) (drop k es).
Proof.
  intros Hs He. induction fuel as [|fuel IH]; intros left right Hf Hle Hl Hr; [lia|]. cbn [leaf_search].
  destruct (left <? right) eqn:E; bool_to_prop.
  2:{ exists left. replace right with left in Hr by lia. repeat split; try done. lia. }
  set (mid := left + (right - left) / 2).
  assert (Hmid : left <= mid < right).
  { unfold mid. pose proof (Nat.Div0.div_lt_upper_bound (right - left) 2 (right - left)). lia. }
  clearbody mid. destruct (lookup_lt_is_Some_2 es mid ltac:(lia)) as [e Hmide].
  rewrite He, Hmide by lia.
  pose proof (take_drop_middle es mid e Hmide) as Hsplit.
  destruct (str_ltb (LTE_Term e) term) eqn:Et.
  - apply IH; [lia|lia| |done]. replace (mid + 1) with (S mid) by lia.
    rewrite (take_S_r _ _ e) by done. apply Forall_app. split; [|by repeat constructor].
    rewrite <- Hsplit in Hs. apply Forall_forall. intros x Hx.
    apply str_lt_trans with (LTE_Term e); [|done].
    exact (StronglySorted_app_1_elem_of _ _ _ x e Hs Hx (list_elem_of_here _ _)).
  - assert (Hnot : ~ str_lt (LTE_Term e) term) by (unfold str_lt; congruence).
    apply IH; [lia|lia|done|]. rewrite (drop_S _ e) by done. constructor; [done|].
    apply Forall_forall. intros x Hx Hlt. apply Hnot. apply str_lt_trans with (LTE_Term x); [|done].
    rewrite <- Hsplit in Hs. apply StronglySorted_app_1_r in Hs. inversion Hs as [|? ? _ Hall]; subst.
    rewrite Forall_forall in Hall. by apply Hall.
Qed.

Lemma find_in_leaf_ok block term es :
  StronglySorted (fun a b => str_lt (LTE_Term a) (LTE_Term b)) es ->
  entry_count block = length es -> (forall j, j < length es -> entry block j = es !! j) ->
  (forall e, e ∈ es -> LTE_Term e = term -> find_in_leaf block term = Some (leaf_location e)) /\
  ((forall e, e ∈ es -> LTE_Term e <> term) -> find_in_leaf block term = None).
Proof.
  intros Hs Hc He. unfold find_in_leaf. rewrite Hc.
  destruct (leaf_search_ok block term es Hs He (S (length es)) 0 (length es)) as (k & -> & Hk & Hl & Hr);
    [lia|lia|rewrite take_0; constructor|rewrite drop_all; constructor|].
  split.
  - intros e Hin Ht. rewrite <- (take_drop k es) in Hin. apply elem_of_app in Hin as [Hin|Hin].
    { rewrite Forall_forall in Hl. specialize (Hl _ Hin). rewrite Ht in Hl. by apply str_lt_irrefl in Hl. }
    destruct (drop k es) as [|e' rest] eqn:Ed; [by apply elem_of_nil in Hin|].
    assert (Hke : es !! k = Some e') by (rewrite <- (Nat.add_0_r k), <- lookup_drop, Ed; done).
    assert (Hlt : k < length es) by by eapply lookup_lt_Some.
    replace (k =? length es) with false by (symmetry; apply Nat.eqb_neq; lia). rewrite He, Hke by done.
    assert (e = e') as <-; [|by rewrite bool_decide_eq_true_2].
    apply elem_of_cons in Hin as [Hin|Hin]; [done|]. exfalso.
    rewrite <- (take_drop k es), Ed in Hs. apply StronglySorted_app_1_r in Hs.
    inversion Hs as [|? ? _ Hall]; subst. rewrite Forall_forall in Hall, Hr.
    apply (Hr e' (list_elem_of_here _ _)). by apply Hall.
  - intros Hne. destruct (k =? length es) eqn:E; bool_to_prop; [done|].
    destruct (lookup_lt_is_Some_2 es k ltac:(lia)) as [e Hke]. rewrite He, Hke by lia.
    rewrite bool_decide_eq_false_2; [done|]. apply Hne. by eapply list_elem_of_lookup_2.
Qed.
End search.

(** * A well-formed dictionary *)

Section dictionary.
Context `{BlockSource}.
Implicit Types t : TermTable.
Implicit Types groups : list (list LeafTermEntry).

(** The head entry of a leaf page that holds the entries [g]. *)
Definition leaf_group (h : HeadTermEntry) (g : list LeafTermEntry) : Prop :=
  exists e es page, g = e :: es /\ first_term h = LTE_Term e /\
    GetBlock LeafTerm (HTE_LeafTermBlockID h) = Some page /\
    entry_count (leaf_view page) = length g /\
    forall j, j < length g -> entry (leaf_view page) j = g !! j.

(** The leaf pages hold [groups], in the order of their terms. *)
Definition dictionary_ok t groups : Prop :=
  m_HeadTermEntryCount t = Z.of_nat (length (m_HeadTermEntries t)) /\
  Forall2 leaf_group (m_HeadTermEntries t) groups /\
  StronglySorted (fun a b => str_lt (LTE_Term a) (LTE_Term b)) (concat groups).

(** A term splits the heads where its group is. *)
Lemma heads_split hs groups term :
  Forall2 leaf_group hs groups ->
  StronglySorted (fun a b => str_lt (LTE_Term a) (LTE_Term b)) (concat groups) ->
  partition_point (fun h => str_leb (first_term h) term) hs = 0 /\
    Forall (fun e => str_lt term (LTE_Term e)) (concat groups) \/
  exists hs1 h hs2 gs1 g gs2, hs = hs1 ++ h :: hs2 /\ groups = gs1 ++ g :: gs2 /\ length hs1 = length gs1 /\
    partition_point (fun h => str_leb (first_term h) term) hs = S (length hs1) /\ leaf_group h g /\
    Forall (fun e => str_lt (LTE_Term e) term) (concat gs1) /\
    Forall (fun e => str_lt term (LTE_Term e)) (concat gs2).
Proof.
  intros Hf. induction Hf as [|h g hs gs Hg Hf IH]; intros Hs; [left; by split|].
  cbn [concat] in Hs. pose proof Hg as (e & es & page & -> & Hfirst & _).
  cbn [partition_point]. rewrite Hfirst. destruct (str_leb (LTE_Term e) term) eqn:Ele.
  - right. destruct (IH (StronglySorted_app_1_r _ _ _ Hs)) as [[Hp Hall]|IH'].
    + exists [], h, hs, [], (e :: es), gs. by rewrite Hp.
    + destruct IH' as (hs1 & h' & hs2 & gs1 & g' & gs2 & -> & -> & Hlen & Hp & Hg' & H1 & H2).
      exists (h :: hs1), h', hs2, ((e :: es) :: gs1), g', gs2. rewrite Hp. cbn [length]. repeat split; try done; [by f_equal|].
      cbn [concat]. apply Forall_app. split; [|done]. pose proof Hg' as (e' & es' & _ & -> & Hfirst' & _).
      assert (Hle : str_le (LTE_Term e') term).
      { rewrite <- Hfirst'. destruct (str_leb (first_term h') term) eqn:E'; [done|]. exfalso.
        clear -Hp E'. induction hs1 as [|x hs1 IH1]; cbn in Hp; [by rewrite E' in Hp|].
        destruct (str_leb (first_term x) term); [|done]. injection Hp as Hp. by apply IH1. }
      apply Forall_forall. intros x Hx. apply str_lt_le_trans with (LTE_Term e'); [|done].
      apply (StronglySorted_app_1_elem_of _ _ _ x e' Hs Hx). rewrite concat_app. cbn [concat].
      apply elem_of_app. right. apply list_elem_of_here.
  - left. split; [done|].
    assert (Hlt : str_lt term (LTE_Term e)) by (unfold str_lt; rewrite str_leb_negb_ltb in Ele; by apply negb_false_iff in Ele).
    constructor; [done|]. inversion Hs as [|? ? _ Hall]; subst.
    eapply Forall_impl; [exact Hall|]. intros x Hx. by eapply str_lt_trans.
Qed.

Lemma FindTermDataHeadLeaf_ok t groups term :
  dictionary_ok t groups -> length term <= HEAD_TERM_KEY_MAX ->
  (forall e, e ∈ concat groups -> LTE_Term e = term -> FindTermDataHeadLeaf t term = Some (leaf_location e)) /\
  ((forall e, e ∈ concat groups -> LTE_Term e <> term) -> FindTermDataHeadLeaf t term = None).
Proof.
  intros (Hcount & Hf & Hs) Hlen. unfold FindTermDataHeadLeaf.
  replace (HEAD_TERM_KEY_MAX <? length term) with false by (symmetry; apply Nat.ltb_ge; lia).
  rewrite Hcount, Nat2Z.id, orb_false_r.
  assert (Hrange : get_range (m_HeadTermEntries t) 0 (length (m_HeadTermEntries t)) = Some (m_HeadTermEntries t)).
  { apply get_range_Some. rewrite Nat.sub_0_r, slice_full. split_and!; [lia|lia|done]. }
  destruct (Z.of_nat (length (m_HeadTermEntries t)) =? 0)%Z eqn:E0; bool_to_prop.
  { destruct (m_HeadTermEntries t); [|done]. inversion Hf; subst. cbn.
    split; [|done]. intros e He. by apply elem_of_nil in He. }
  rewrite Hrange. destruct (heads_split _ _ term Hf Hs) as [[-> Hall]|Hsplit].
  { split; [|done]. intros e He Ht. rewrite Forall_forall in Hall. specialize (Hall _ He).
    rewrite Ht in Hall. by apply str_lt_irrefl in Hall. }
  destruct Hsplit as (hs1 & h & hs2 & gs1 & g & gs2 & -> & -> & _ & -> & Hg & H1 & H2).
  rewrite lookup_app_r, Nat.sub_diag by lia. cbn [lookup list_lookup].
  destruct Hg as (e0 & es & page & Eg & _ & Hget & Hec & Hent). rewrite Hget.
  rewrite concat_app in Hs |- *. cbn [concat] in Hs |- *.
  apply StronglySorted_app_1_r, StronglySorted_app_1_l in Hs.
  destruct (find_in_leaf_ok (leaf_view page) term g Hs Hec Hent) as [Hin Hout]. split.
  - intros e He Ht. rewrite !elem_of_app in He. rewrite Forall_forall in H1, H2.
    destruct He as [He|[He|He]]; [|by apply Hin|].
    + specialize (H1 _ He). rewrite Ht in H1. by apply str_lt_irrefl in H1.
    + specialize (H2 _ He). rewrite Ht in H2. by apply str_lt_irrefl in H2.
  - intros Hne. apply Hout. intros e He. apply Hne. rewrite !elem_of_app. auto.
Qed.

Lemma until_nul_id term : Forall (fun b => b <> 0%Z) term -> until_nul term = term.
Proof. induction 1 as [|b term Hb _ IH]; cbn; [done|]. apply Z.eqb_neq in Hb. by rewrite Hb, IH. Qed.

Lemma until_nul_no_nul term : Forall (fun b => b <> 0%Z) (until_nul term).
Proof. induction term as [|b term IH]; cbn; [constructor|]. destruct (Z.eqb_spec b 0); [constructor|by constructor]. Qed.

(** A term the lookup can reach: not longer than a head key, without NUL. *)
Definition searchable (term : str) : Prop := length term <= HEAD_TERM_KEY_MAX /\ Forall (fun b => b <> 0%Z) term.

Lemma FindTermData_head_leaf t groups term :
  dictionary_ok t groups -> HasTermMphf (tt_Mphf t) = false -> length (until_nul term) <= HEAD_TERM_KEY_MAX ->
  (forall e, e ∈ concat groups -> LTE_Term e = until_nul term -> FindTermData t term = Some (leaf_location e)) /\
  ((forall e, e ∈ concat groups -> LTE_Term e <> until_nul term) -> FindTermData t term = None).
Proof. intros Hd Hm Hl. unfold FindTermData. rewrite Hm. by apply FindTermDataHeadLeaf_ok. Qed.

(** Whatever the page lookup returns is a dictionary entry's location. *)
Lemma FindTermDataHeadLeaf_sound t groups term loc :
  dictionary_ok t groups -> FindTermDataHeadLeaf t term = Some loc ->
  exists e, e ∈ concat groups /\ loc = leaf_location e /\ LTE_Term e = term.
Proof.
  intros Hd Hloc.
  assert (Hl : length term <= HEAD_TERM_KEY_MAX).
  { unfold FindTermDataHeadLeaf in Hloc. case_test; [done|]. by bool_to_prop. }
  destruct (FindTermDataHeadLeaf_ok t groups term Hd Hl) as [Hin Hout].
  destruct (decide (Exists (fun e => LTE_Term e = term) (concat groups))) as [Hex|Hno].
  - apply Exists_exists in Hex as (e & He & Ht). exists e. split; [done|]. split; [|done].
    rewrite (Hin e He Ht) in Hloc. by injection Hloc as <-.
  - rewrite Hout in Hloc; [done|]. intros e He Ht. apply Hno, Exists_exists. by exists e.
Qed.

Lemma groups_terms leaf_blocks groups :
  Forall2 (fun b g => leaf_entries b = g) leaf_blocks groups ->
  concat (map (fun block => map build_term (leaf_entries block)) leaf_blocks) = map build_term (concat groups).
Proof. induction 1 as [|b g bs gs <- _ IH]; cbn; [done|]. by rewrite map_app, IH. Qed.

Lemma build_term_elem x es : x ∈ map build_term es -> exists e, e ∈ es /\ x = build_term e.
Proof. intros (e & -> & He)%list_elem_of_fmap. by exists e. Qed.

Lemma leaf_entry_build_wf es : Forall leaf_entry_wf es -> Forall build_term_wf (map build_term es).
Proof.
  intros Hwf. apply Forall_map. eapply Forall_impl; [exact Hwf|].
  intros e (H1 & H2 & H3 & H4 & H5 & _). cbn.
  split_and!; cbn; try done; by eapply (in_u_mono 16).
Qed.

Lemma FindTermData_dictionary t groups leaf_blocks :
  dictionary_ok t groups -> Forall2 (fun b g => leaf_entries b = g) leaf_blocks groups ->
  Forall leaf_entry_wf (concat groups) -> (Z.of_nat (length (concat groups)) < 2 ^ 32)%Z ->
  m_TermMphfEnabled (tt_Mphf t) = true ->
  let '(header, displacements, pages) := BuildTermMphfFromLeafBlocks leaf_blocks in
  let t' := table_SetTermMphf t header displacements pages in
  (forall e, e ∈ concat groups -> searchable (LTE_Term e) ->
     FindTermData t' (LTE_Term e) = Some (leaf_location e)) /\
  (forall term loc, FindTermData t' term = Some loc ->
     exists e, e ∈ concat groups /\ loc = leaf_location e /\
       (LTE_Term e = until_nul term \/
        HasTermMphf (tt_Mphf t') = true /\
        term_fingerprint (LTE_Term e) (TMH_FingerprintSeed header)
          = term_fingerprint (until_nul term) (TMH_FingerprintSeed header))).
Proof.
  intros Hd Hg Hwf Hlen Hen. unfold BuildTermMphfFromLeafBlocks. rewrite (groups_terms _ _ Hg).
  pose proof (BuildTermMphf_cases (map build_term (concat groups))) as Hcase.
  destruct (BuildTermMphf _) as [[h ds] pages]. cbv zeta.
  set (t' := table_SetTermMphf t h ds pages). assert (Hd' : dictionary_ok t' groups) by exact Hd.
  assert (Hlen' : (Z.of_nat (length (map build_term (concat groups))) < 2 ^ 32)%Z) by by rewrite length_map.
  pose proof (leaf_entry_build_wf _ Hwf) as Hwf'.
  destruct Hcase as [[= -> -> ->]|(bs & ss & fs & Hfs & Hb)].
  - assert (Hm : HasTermMphf (tt_Mphf t') = false) by apply SetTermMphf_none. split.
    + intros e He [Hl Hn]. apply (FindTermData_head_leaf t' groups (LTE_Term e) Hd' Hm); rewrite ?(until_nul_id (LTE_Term e)) by done; done.
    + intros term loc Hloc. unfold FindTermData in Hloc. rewrite Hm in Hloc.
      destruct (FindTermDataHeadLeaf_sound t' groups _ loc Hd' Hloc) as (e & He & -> & Ht). eauto.
  - destruct (SetTermMphf_built (tt_Mphf t) _ bs ss fs h ds pages Hlen' Hen Hb) as (Hhas & _).
    assert (Hseed : TMH_FingerprintSeed h = fs).
    { destruct (TryBuild_spec _ bs ss fs h ds pages Hlen' Hb) as (_ & -> & _). done. }
    split.
    + intros e He [Hl Hn]. unfold FindTermData. rewrite until_nul_id by done.
      destruct (list_elem_of_lookup_1 _ _ He) as [i Hi]. cbn [t' table_SetTermMphf tt_Mphf]. rewrite Hhas.
      replace (LTE_Term e) with (Term (build_term e)) by done.
      erewrite mphf_lookup; [done|exact Hlen'|exact Hfs|exact Hwf'|exact Hen|exact Hb|].
      rewrite list_lookup_fmap, Hi. done.
    + intros term loc Hloc. unfold FindTermData in Hloc. cbn [t' table_SetTermMphf tt_Mphf] in Hloc |- *.
      rewrite Hhas in Hloc |- *.
      destruct (FindTermDataMphf _ _) as [loc'|] eqn:Em.
      * injection Hloc as ->.
        destruct (mphf_lookup_sound (tt_Mphf t) _ bs ss fs h ds pages (until_nul term) loc Hlen' Hfs Hwf' Hen Hb Em)
          as (e' & He' & -> & Hfp).
        apply build_term_elem in He' as (e & He & ->). exists e. rewrite Hseed. auto.
      * destruct (FindTermDataHeadLeaf_sound t' groups _ loc Hd' Hloc) as (e & He & -> & Ht). eauto.
Qed.

(** in a dictionary with its perfect hash built from the leaf pages, every term that can be
    looked up is found with its own location, whether the builder found a hash or not, and a lookup
    that returns something returns the location of the term itself or, through the hash, of a term
    with the same fingerprint. *)
Theorem FindTermData_spec t groups leaf_blocks :
  dictionary_ok t groups -> Forall2 (fun b g => leaf_entries b = g) leaf_blocks groups ->
  Forall leaf_entry_wf (concat groups) -> (Z.of_nat (length (concat groups)) < 2 ^ 32)%Z ->
  m_TermMphfEnabled (tt_Mphf t) = true ->
  let '(header, displacements, pages) := BuildTermMphfFromLeafBlocks leaf_blocks in
  let t' := table_SetTermMphf t header displacements pages in
  (forall e, e ∈ concat groups -> searchable (LTE_Term e) ->
     FindTermData t' (LTE_Term e) = Some (leaf_location e)) /\
  (forall term loc, FindTermData t' term = Some loc ->
     exists e, e ∈ concat groups /\ loc = leaf_location e /\
       (LTE_Term e = until_nul term \/
        HasTermMphf (tt_Mphf t') = true /\
        term_fingerprint (LTE_Term e) (TMH_FingerprintSeed header)
          = term_fingerprint (until_nul term) (TMH_FingerprintSeed header))).
Proof. apply FindTermData_dictionary. Qed.
End dictionary.

(** * Witness *)

(** One leaf page with one term. *)
Definition sample_leaf : LeafTermBlock :=
  let b := WriteLeafEntry leaf_default 0 0 sample_entry in
  {| LTB_Directory := <[LEAF_TERM_DIRECTORY_COUNT - 1 := 1%Z]> (LTB_Directory b); LTB_Data := LTB_Data b |}.

Definition sample_blocks : BlockSource := fun kind seq =>
  if decide (kind = LeafTerm /\ seq = 0%Z) then Some (leaf_to_bytes sample_leaf) else None.

Definition sample_table : TermTable :=
  SetHeadTermEntries table_new
    [{| HTE_LeafTermBlockID := 0; HTE_FirstTermLength := Z.of_nat (length (LTE_Term sample_entry));
        HTE_FirstTerm := splice 0 (LTE_Term sample_entry) (zeros HEAD_TERM_KEY_MAX) |}].

Lemma sample_dictionary : @dictionary_ok sample_blocks sample_table [[sample_entry]].
Proof.
  split; [reflexivity|]. split; [|repeat constructor].
  constructor; [|constructor]. exists sample_entry, [], (leaf_to_bytes sample_leaf).
  split; [reflexivity|]. split; [vm_compute; reflexivity|]. split; [reflexivity|].
  split; [vm_compute; reflexivity|]. intros j Hj. destruct j as [|j]; [vm_compute; reflexivity|cbn in Hj; lia].
Qed.

Lemma FindTermData_spec_witness :
  let '(header, displacements, pages) := BuildTermMphfFromLeafBlocks [sample_leaf] in
  @FindTermData sample_blocks (table_SetTermMphf sample_table header displacements pages) (LTE_Term sample_entry)
    = Some (leaf_location sample_entry).
Proof.
  pose proof (@FindTermData_spec sample_blocks sample_table [[sample_entry]] [sample_leaf] sample_dictionary) as H.
  destruct (BuildTermMphfFromLeafBlocks [sample_leaf]) as [[header displacements] pages].
  apply H.
  - repeat constructor.
  - repeat constructor; unfold in_u; cbn; lia.
  - reflexivity.
  - reflexivity.
  - apply list_elem_of_here.
  - split; [apply Nat.leb_le; reflexivity|]. repeat constructor; discriminate.
Defined.
