(* ===== verification/PathSidecar.v ===== *)
(** Document paths (IndexContext.rs, IndexSerializer.rs): the table of path
    prefixes kept in the file's sidecar pages, its encoder and decoder, and the
    path field of a document record, with the proof that paths are read back. *)

From Stdlib Require Import Ascii String.
From Stdlib Require Import ZArith Lia ZifyBool Bool List.
From stdpp Require Import base list list_numbers gmap.
From S2P Require Import Prelude FileFormat.

Local Open Scope moon_scope.

Definition PATH_PREFIX_SIDECAR_MAGIC : bytes := of_string "MSPATHS" ++ [0%Z].
Definition PATH_PREFIX_SIDECAR_VERSION : Z := 1.
Definition DOC_PATH_MAX : nat := 64.
Definition DOC_PATH_PREFIX_ID_BYTES : nat := 2.
Definition DOC_PATH_FILENAME_MAX : nat := DOC_PATH_MAX - DOC_PATH_PREFIX_ID_BYTES.
Definition DOC_PATH_PREFIX_INVALID : Z := u16_max.
Definition DOC_PATH_OFFSET : nat := 192.

(** [buf[off .. off + src.len()].copy_from_slice(src)]: [None] where it panics. *)
Definition copy_at (off : nat) (src buf : bytes) : option bytes :=
  if off + length src <=? length buf then Some (splice off src buf) else None.

(** * EncodePathPrefixSidecar *)

Fixpoint encode_prefixes (entry_offset string_offset index : nat) (cursor : Z) (prefixes : list str) (sidecar : bytes)
  : option (Z * bytes) :=
  match prefixes with
  | [] => Some (cursor, sidecar)
  | prefix :: prefixes' =>
      let offset := entry_offset + index * 8 in
      opt sidecar := copy_at offset (le_bytes 4 cursor) sidecar in
      opt sidecar := copy_at (offset + 4) (le_bytes 2 (wrap 16 (Z.of_nat (length prefix)))) sidecar in
      opt sidecar := copy_at (string_offset + Z.to_nat cursor) prefix sidecar in
      encode_prefixes entry_offset string_offset (S index)
        (wrapping_add 32 cursor (wrap 32 (Z.of_nat (length prefix)))) prefixes' sidecar
  end.

(** [None]: a copy runs past the sidecar's end. *)
Definition EncodePathPrefixSidecar (prefixes : list str) : option bytes :=
  let sidecar := zeros PATH_PREFIX_SIDECAR_BYTES in
  let sidecar := splice 0 PATH_PREFIX_SIDECAR_MAGIC sidecar in
  let sidecar := put 2 8 PATH_PREFIX_SIDECAR_VERSION sidecar in
  let count := Z.min (Z.of_nat (length prefixes)) u16_max in
  let sidecar := put 2 10 count sidecar in
  let entry_offset := 32 in
  let string_offset := (32 + count * 8)%Z in
  let sidecar := put 4 12 (Z.of_nat entry_offset) sidecar in
  let sidecar := put 4 16 string_offset sidecar in
  opt r := encode_prefixes entry_offset (Z.to_nat string_offset) 0 0 (take (Z.to_nat count) prefixes) sidecar in
  Some (put 4 20 r.1 r.2).

(** * DecodePathPrefixSidecar *)

Record PathPrefixSidecarHeader := {
  PPSH_Magic : bytes;
  PPSH_Version : Z;
  PPSH_PrefixCount : Z;
  PPSH_EntryOffset : Z;
  PPSH_StringOffset : Z;
  PPSH_StringBytes : Z;
}.

Record PathPrefixSidecarEntry := { PPSE_Offset : Z; PPSE_Length : Z; PPSE_Flags : Z }.

Definition sidecar_header (sidecar : bytes) : PathPrefixSidecarHeader :=
  {| PPSH_Magic := slice 0 8 sidecar; PPSH_Version := get 2 8 sidecar; PPSH_PrefixCount := get 2 10 sidecar;
     PPSH_EntryOffset := get 4 12 sidecar; PPSH_StringOffset := get 4 16 sidecar; PPSH_StringBytes := get 4 20 sidecar |}.

Definition sidecar_header_bad (header : PathPrefixSidecarHeader) : bool :=
  let limit := Z.of_nat PATH_PREFIX_SIDECAR_BYTES in
  negb (bool_decide (PPSH_Magic header = PATH_PREFIX_SIDECAR_MAGIC))
  || negb (PPSH_Version header =? PATH_PREFIX_SIDECAR_VERSION)%Z
  || (PPSH_EntryOffset header <? 32)%Z
  || (limit <? PPSH_StringOffset header)%Z
  || (limit <? PPSH_StringOffset header + PPSH_StringBytes header)%Z
  || (limit <? PPSH_EntryOffset header + PPSH_PrefixCount header * 8)%Z.

Definition sidecar_entry (sidecar : bytes) (offset : nat) : PathPrefixSidecarEntry :=
  {| PPSE_Offset := get 4 offset sidecar; PPSE_Length := get 2 (offset + 4) sidecar;
     PPSE_Flags := get 2 (offset + 6) sidecar |}.

Definition decode_prefix (sidecar : bytes) (header : PathPrefixSidecarHeader) (index : nat) : result str :=
  let entry := sidecar_entry sidecar (Z.to_nat (PPSH_EntryOffset header) + index * 8) in
  let begin := (PPSH_StringOffset header + PPSE_Offset entry)%Z in
  let end_ := (begin + PPSE_Length entry)%Z in
  if (PPSH_StringOffset header + PPSH_StringBytes header <? end_)%Z then Err InvalidFormat
  else ok_or (from_utf8 (slice (Z.to_nat begin) (Z.to_nat (PPSE_Length entry)) sidecar)) InvalidFormat.

(** [for x in l { out.push(f(x)?); }]. *)
Fixpoint map_result {A B} (f : A -> result B) (l : list A) : result (list B) :=
  match l with
  | [] => Ok []
  | x :: l' => let? y := f x in let? ys := map_result f l' in Ok (y :: ys)
  end.

Definition DecodePathPrefixSidecar (sidecar : bytes) : result (list str) :=
  if negb (length sidecar =? PATH_PREFIX_SIDECAR_BYTES) then Err InvalidFormat
  else
    let header := sidecar_header sidecar in
    if sidecar_header_bad header then Err InvalidFormat
    else map_result (decode_prefix sidecar header) (seq 0 (Z.to_nat (PPSH_PrefixCount header))).

(** * Interning prefixes *)

Record PathPrefixes := {
  prefix_to_id : gmap str Z;
  prefixes : list str;
  string_bytes : nat;
}.

Definition no_prefixes : PathPrefixes := {| prefix_to_id := ∅; prefixes := []; string_bytes := 0 |}.

Definition is_separator (b : Z) : bool := (b =? Z_of_ascii "/"%char)%Z || (b =? Z_of_ascii "\"%char)%Z.

(** [full_path.rfind(['/', '\\'])]. *)
Fixpoint rfind_separator (p : str) : option nat :=
  match p with
  | [] => None
  | b :: p' =>
      match rfind_separator p' with
      | Some i => Some (S i)
      | None => if is_separator b then Some 0 else None
      end
  end.

Definition split_path_for_sidecar (full_path : str) : str * str :=
  match rfind_separator full_path with
  | Some index => (take index full_path, drop (index + 1) full_path)
  | None => ([], full_path)
  end.

Definition path_prefix_sidecar_can_hold (prefix_count string_bytes : nat) : bool :=
  32 + prefix_count * 8 + string_bytes <=? PATH_PREFIX_SIDECAR_BYTES.

Definition intern_path_prefix (prefix : str) (t : PathPrefixes) : Z * PathPrefixes :=
  match prefix_to_id t !! prefix with
  | Some id => (id, t)
  | None =>
      if Z.to_nat DOC_PATH_PREFIX_INVALID <=? length (prefixes t) then (DOC_PATH_PREFIX_INVALID, t)
      else
        let next_string_bytes := string_bytes t + length prefix in
        if negb (path_prefix_sidecar_can_hold (length (prefixes t) + 1) next_string_bytes)
        then (DOC_PATH_PREFIX_INVALID, t)
        else
          let id := wrap 16 (Z.of_nat (length (prefixes t))) in
          (id, {| prefix_to_id := <[prefix := id]> (prefix_to_id t); prefixes := prefixes t ++ [prefix];
                  string_bytes := next_string_bytes |})
  end.

(** * The path of a document record *)

Definition encode_doc_path (record : bytes) (full_path : str) (t : PathPrefixes) : bytes * PathPrefixes :=
  let record := put 2 18 0 record in
  let record := splice DOC_PATH_OFFSET (zeros DOC_PATH_MAX) record in
  if length full_path =? 0 then (record, t)
  else
    let '(prefix, filename) := split_path_for_sidecar full_path in
    let '(prefix_id, t) := intern_path_prefix prefix t in
    let filename_len := Nat.min (length filename) DOC_PATH_FILENAME_MAX in
    let path_len := wrap 16 (Z.of_nat (DOC_PATH_PREFIX_ID_BYTES + filename_len)) in
    let record := put 2 18 path_len record in
    let record := put 2 DOC_PATH_OFFSET prefix_id record in
    (splice (DOC_PATH_OFFSET + 2) (take filename_len filename) record, t).

Definition contains_byte (b : Z) (s : str) : bool := existsb (Z.eqb b) s.

Definition ends_with_separator (s : str) : bool :=
  match last s with Some b => is_separator b | None => false end.

Definition DecodeDocPath (payload : bytes) (prefixes : list str) : str :=
  if length payload =? 0 then []
  else if length payload <? DOC_PATH_PREFIX_ID_BYTES then default [] (from_utf8 payload)
  else
    let prefix_id := get 2 0 payload in
    let filename := default [] (from_utf8 (drop 2 payload)) in
    if (prefix_id =? DOC_PATH_PREFIX_INVALID)%Z || (Z.of_nat (length prefixes) <=? prefix_id)%Z then filename
    else
      let prefix := nth (Z.to_nat prefix_id) prefixes [] in
      if length prefix =? 0 then filename
      else
        let separator := if contains_byte (Z_of_ascii "\"%char) prefix then Z_of_ascii "\"%char else Z_of_ascii "/"%char in
        if ends_with_separator prefix then prefix ++ filename
        else prefix ++ separator :: filename.

(** * The sidecar is read back *)

Lemma SIDECAR_BYTES_Z : Z.of_nat PATH_PREFIX_SIDECAR_BYTES = 81920%Z.
Proof. reflexivity. Qed.

#[local] Opaque PATH_PREFIX_SIDECAR_BYTES.

Section sidecar.
Implicit Types ps : list str.
Implicit Types sc buf : bytes.

Lemma copy_at_Some off src buf : off + length src <= length buf -> copy_at off src buf = Some (splice off src buf).
Proof. intros Hfit. unfold copy_at. by rewrite (proj2 (Nat.leb_le _ _)). Qed.

Lemma slice_written off n src buf :
  length src = n -> off <= length buf -> slice off n (splice off src buf) = src.
Proof. intros <-. apply slice_splice_same. Qed.

(** The sidecar [sc] with its strings at [so] holds the prefix [p] as entry [i], at string offset [off]. *)
Definition holds_prefix sc (so i off : nat) (p : str) : Prop :=
  slice (32 + i * 8) 4 sc = le_bytes 4 (Z.of_nat off) /\
  slice (32 + i * 8 + 4) 2 sc = le_bytes 2 (Z.of_nat (length p)) /\
  slice (so + off) (length p) sc = p.

Definition short_prefix (p : str) : Prop := (Z.of_nat (length p) < 65536)%Z.

(** What the encoder writes: the new entries and strings, and nothing else. *)
Lemma encode_prefixes_ok ps : forall index c sc so,
  length sc = PATH_PREFIX_SIDECAR_BYTES -> 32 + (index + length ps) * 8 <= so ->
  so + c + length (concat ps) <= PATH_PREFIX_SIDECAR_BYTES -> Forall short_prefix ps ->
  exists sc', encode_prefixes 32 so index (Z.of_nat c) ps sc = Some (Z.of_nat (c + length (concat ps)), sc') /\
    length sc' = PATH_PREFIX_SIDECAR_BYTES /\
    (forall off n, off + n <= 32 + index * 8 \/ 32 + (index + length ps) * 8 <= off /\ off + n <= so + c ->
       slice off n sc' = slice off n sc) /\
    (forall i p, ps !! i = Some p -> holds_prefix sc' so (index + i) (c + length (concat (take i ps))) p).
Proof.
  pose proof SIDECAR_BYTES_Z as HB.
  induction ps as [|p ps IH]; intros index c sc so Hlen Hso Hfit Hshort.
  { exists sc. cbn. rewrite Nat.add_0_r. split_and!; done. }
  inversion Hshort as [|? ? Hp Hps]; subst. unfold short_prefix in Hp.
  cbn [concat length encode_prefixes] in *. rewrite length_app in Hfit. rewrite Nat2Z.id.
  rewrite (wrap_small 16), (wrap_small 32) by (unfold in_u; lia).
  rewrite copy_at_Some by (rewrite length_le_bytes; lia). set (s1 := splice _ (le_bytes 4 _) sc).
  assert (L1 : length s1 = PATH_PREFIX_SIDECAR_BYTES) by (unfold s1; rewrite length_splice; rewrite ?length_le_bytes; lia).
  rewrite copy_at_Some by (rewrite length_le_bytes; lia). set (s2 := splice _ (le_bytes 2 _) s1).
  assert (L2 : length s2 = PATH_PREFIX_SIDECAR_BYTES) by (unfold s2; rewrite length_splice; rewrite ?length_le_bytes; lia).
  rewrite copy_at_Some by lia. set (s3 := splice (so + c) p s2).
  assert (L3 : length s3 = PATH_PREFIX_SIDECAR_BYTES) by (unfold s3; rewrite length_splice; lia).
  assert (Hcur : wrapping_add 32 (Z.of_nat c) (Z.of_nat (length p)) = Z.of_nat (c + length p)).
  { unfold wrapping_add. rewrite wrap_small by (unfold in_u; lia). lia. }
  rewrite Hcur. destruct (IH (S index) (c + length p) s3 so L3 ltac:(lia) ltac:(lia) Hps) as (sc' & -> & L' & Hframe & Hholds).
  exists sc'. split; [do 2 f_equal; rewrite length_app; lia|]. split; [done|]. split.
  - intros off n Hcase. rewrite Hframe by lia. destruct Hcase as [Hl|[Hl Hr]].
    + unfold s3. rewrite slice_splice_before by lia. unfold s2. rewrite slice_splice_before by lia.
      unfold s1. by rewrite slice_splice_before by lia.
    + unfold s3. rewrite slice_splice_before by lia. unfold s2. rewrite slice_splice_after by (rewrite length_le_bytes; lia).
      unfold s1. by rewrite slice_splice_after by (rewrite length_le_bytes; lia).
  - intros [|i] q Hq; cbn in Hq.
    + injection Hq as <-. cbn [take concat length]. rewrite !Nat.add_0_r. unfold holds_prefix. split_and!; rewrite Hframe by lia; unfold s3.
      * rewrite slice_splice_before by lia. unfold s2. rewrite slice_splice_before by lia.
        unfold s1. apply slice_written; [apply length_le_bytes|lia].
      * rewrite slice_splice_before by lia. unfold s2. apply slice_written; [apply length_le_bytes|lia].
      * apply slice_written; [done|lia].
    + specialize (Hholds i q Hq). replace (index + S i) with (S index + i) by lia. cbn [take concat]. rewrite length_app.
      by rewrite Nat.add_assoc.
Qed.

Lemma map_result_seq {B} (f : nat -> result B) (l : list B) k :
  (forall i b, l !! i = Some b -> f (k + i) = Ok b) -> map_result f (seq k (length l)) = Ok l.
Proof.
  revert k. induction l as [|b l IH]; intros k Hf; [done|]. cbn [length seq map_result].
  rewrite <- (Nat.add_0_r k) at 1. rewrite (Hf 0 b eq_refl). cbn [result_bind]. rewrite IH; [done|].
  intros i b' Hi. rewrite <- (Hf (S i) b' Hi). f_equal. lia.
Qed.

Lemma get_slice n off sc v : slice off n sc = le_bytes n v -> in_u (8 * Z.of_nat n) v -> get n off sc = v.
Proof. intros Hs Hv. unfold get. by rewrite Hs, of_le_le_bytes_id. Qed.

(** A prefix table that the sidecar can hold. *)
Definition fits_sidecar ps : Prop :=
  path_prefix_sidecar_can_hold (length ps) (length (concat ps)) = true /\
  Forall (fun p => short_prefix p /\ is_utf8 p = true) ps.

Lemma sidecar_header_written n so :
  (Z.of_nat n < 65536)%Z -> so <= PATH_PREFIX_SIDECAR_BYTES ->
  let sc := put 4 16 (Z.of_nat so) (put 4 12 (Z.of_nat 32) (put 2 10 (Z.of_nat n) (put 2 8 PATH_PREFIX_SIDECAR_VERSION
    (splice 0 PATH_PREFIX_SIDECAR_MAGIC (zeros PATH_PREFIX_SIDECAR_BYTES))))) in
  length sc = PATH_PREFIX_SIDECAR_BYTES /\
  slice 0 8 sc = PATH_PREFIX_SIDECAR_MAGIC /\ get 2 8 sc = PATH_PREFIX_SIDECAR_VERSION /\
  get 2 10 sc = Z.of_nat n /\ get 4 12 sc = 32%Z /\ get 4 16 sc = Z.of_nat so.
Proof.
  intros Hn Hso. cbv zeta. pose proof SIDECAR_BYTES_Z as HB.
  set (s0 := splice 0 _ (zeros _)).
  assert (L0 : length s0 = PATH_PREFIX_SIDECAR_BYTES).
  { unfold s0, zeros. rewrite length_splice, length_replicate; [done|]. rewrite length_replicate. cbn. lia. }
  assert (M0 : slice 0 8 s0 = PATH_PREFIX_SIDECAR_MAGIC) by (apply slice_written; [done|lia]). clearbody s0.
  set (s1 := put 2 8 _ s0). assert (L1 : length s1 = PATH_PREFIX_SIDECAR_BYTES) by (unfold s1; rewrite length_put; lia).
  set (s2 := put 2 10 _ s1). assert (L2 : length s2 = PATH_PREFIX_SIDECAR_BYTES) by (unfold s2; rewrite length_put; lia).
  set (s3 := put 4 12 _ s2). assert (L3 : length s3 = PATH_PREFIX_SIDECAR_BYTES) by (unfold s3; rewrite length_put; lia).
  set (s4 := put 4 16 _ s3). assert (L4 : length s4 = PATH_PREFIX_SIDECAR_BYTES) by (unfold s4; rewrite length_put; lia).
  split; [done|]. split; [|split; [|split; [|split]]].
  - unfold s4, s3, s2, s1, put in *. by rewrite !slice_splice_before by lia.
  - unfold s4, s3, s2, get, put in *. rewrite !slice_splice_before by lia.
    unfold s1. apply (get_put_same 2 8); [lia|done].
  - unfold s4, s3, get, put in *. rewrite !slice_splice_before by lia.
    unfold s2. apply (get_put_same 2 10); [lia|unfold in_u; lia].
  - unfold s4, get, put in *. rewrite !slice_splice_before by lia. unfold s3. apply (get_put_same 4 12); [lia|done].
  - unfold s4. apply get_put_same; [lia|unfold in_u; lia].
Qed.

Lemma sidecar_roundtrip ps :
  fits_sidecar ps ->
  exists sc, EncodePathPrefixSidecar ps = Some sc /\ length sc = PATH_PREFIX_SIDECAR_BYTES /\
    DecodePathPrefixSidecar sc = Ok ps.
Proof.
  intros [Hfit Hps]. unfold path_prefix_sidecar_can_hold in Hfit. apply Nat.leb_le in Hfit.
  pose proof SIDECAR_BYTES_Z as HB.
  unfold EncodePathPrefixSidecar. rewrite Z.min_l by (unfold u16_max; lia). rewrite Nat2Z.id, firstn_all.
  set (so := Z.to_nat (32 + Z.of_nat (length ps) * 8)). assert (Hso : so = 32 + length ps * 8) by (unfold so; lia).
  replace (32 + Z.of_nat (length ps) * 8)%Z with (Z.of_nat so) by lia.
  destruct (sidecar_header_written (length ps) so) as (H4 & Hhdr); [lia|lia|]. set (s4 := put 4 16 _ _) in *.
  clearbody s4. clearbody so.
  destruct (encode_prefixes_ok ps 0 0 s4 so H4) as (s5 & Henc & L5 & Hframe & Hholds); [lia|lia| |].
  { eapply Forall_impl; [exact Hps|]. by intros p [? _]. }
  change (Z.of_nat 0) with 0%Z in Henc. rewrite Henc.
  eexists. split; [done|]. cbn [fst snd]. set (total := Z.of_nat (0 + _)). set (s6 := put 4 20 total s5).
  assert (L6 : length s6 = PATH_PREFIX_SIDECAR_BYTES) by (unfold s6; rewrite length_put; lia).
  split; [done|]. unfold DecodePathPrefixSidecar. rewrite L6, Nat.eqb_refl. cbn [negb].
  assert (Hlow : forall off n, off + n <= 20 -> slice off n s6 = slice off n s4).
  { intros off n Hle. unfold s6, put. rewrite slice_splice_before by lia. apply Hframe. lia. }
  assert (Hhigh : forall off n, 24 <= off -> slice off n s6 = slice off n s5).
  { intros off n Hle. unfold s6, put. apply slice_splice_after; rewrite length_le_bytes; lia. }
  assert (Htotal : total = Z.of_nat (length (concat ps))) by (unfold total; lia).
  destruct Hhdr as (H1 & H2 & H3 & H5 & H6).
  assert (Hh : sidecar_header s6 = {| PPSH_Magic := PATH_PREFIX_SIDECAR_MAGIC; PPSH_Version := PATH_PREFIX_SIDECAR_VERSION;
    PPSH_PrefixCount := Z.of_nat (length ps); PPSH_EntryOffset := 32; PPSH_StringOffset := Z.of_nat so; PPSH_StringBytes := total |}).
  { unfold sidecar_header. unfold get at 1 2 3 4. rewrite !Hlow by lia. unfold get in H2, H3, H5, H6.
    rewrite H1, H2, H3, H5, H6. f_equal. unfold s6. apply get_put_same; [lia|unfold in_u; lia]. }
  rewrite Hh. replace (sidecar_header_bad _) with false.
  2:{ symmetry. unfold sidecar_header_bad. cbn [PPSH_Magic PPSH_Version PPSH_EntryOffset PPSH_StringOffset PPSH_StringBytes PPSH_PrefixCount].
      rewrite bool_decide_eq_true_2 by done. rewrite Z.eqb_refl. cbn [negb orb]. repeat rewrite (proj2 (Z.ltb_ge _ _)) by lia. done. }
  cbn [PPSH_PrefixCount]. rewrite Nat2Z.id. apply map_result_seq. intros i p Hi.
  pose proof (lookup_lt_Some _ _ _ Hi) as Hlt. destruct (Hholds i p Hi) as (E1 & E2 & E3). cbn [Nat.add] in E1, E2, E3.
  rewrite Forall_lookup in Hps. destruct (Hps i p Hi) as [Hshort Hutf]. unfold short_prefix in Hshort.
  assert (Hbound : length (concat (take i ps)) + length p <= length (concat ps)).
  { rewrite <- (take_drop_middle ps i p Hi) at 2. rewrite concat_app. cbn [concat]. rewrite !length_app. lia. }
  unfold decode_prefix, sidecar_entry. cbn [Nat.add PPSH_EntryOffset PPSH_StringOffset PPSH_StringBytes].
  change (Z.to_nat 32) with 32.
  rewrite (get_slice 4 _ s6 (Z.of_nat (length (concat (take i ps))))) by ((rewrite Hhigh by lia; exact E1) || (unfold in_u; lia)).
  rewrite (get_slice 2 _ s6 (Z.of_nat (length p))) by ((rewrite Hhigh by lia; exact E2) || (unfold in_u; lia)).
  cbn [PPSE_Offset PPSE_Length]. rewrite (proj2 (Z.ltb_ge _ _)) by lia.
  rewrite <- Nat2Z.inj_add, !Nat2Z.id, Hhigh, E3 by lia. unfold from_utf8. by rewrite Hutf.
Qed.
End sidecar.

(** * UTF-8 strings cut at an ASCII byte *)

Section utf8.
Lemma is_utf8_ascii b l : (0 <= b < 128)%Z -> is_utf8 (b :: l) = is_utf8 l.
Proof. intros Hb. cbn. unfold in_range. by replace ((0 <=? b)%Z && (b <=? 127)%Z) with true by lia. Qed.

(** An ASCII byte is no continuation byte, nor inside any continuation range. *)
Lemma range_ascii lo hi b : (128 <= lo)%Z -> (0 <= b < 128)%Z -> in_range lo hi b = false.
Proof. unfold in_range. lia. Qed.

Lemma is_utf8_cut n : forall a b c, length a <= n -> (0 <= b < 128)%Z ->
  is_utf8 (a ++ b :: c) = true -> is_utf8 a = true /\ is_utf8 c = true.
Proof.
  induction n as [|n IH]; intros a b c Hn Hb Hu.
  { destruct a; [|cbn in Hn; lia]. cbn [app] in Hu. by rewrite is_utf8_ascii in Hu. }
  destruct a as [|a0 a]; [cbn [app] in Hu; by rewrite is_utf8_ascii in Hu|]. cbn [length] in Hn.
  assert (Hcont : is_continuation b = false) by (apply range_ascii; lia).
  cbn [app is_utf8] in Hu |- *. destruct (in_range 0 127 a0); [by apply (IH a b c); [lia| |]|].
  destruct a as [|a1 a]; cbn [app length] in Hu, Hn |- *.
  { exfalso. destruct (in_range 194 223 a0); [by rewrite Hcont in Hu|].
    destruct c as [|c0 c]; [done|]. destruct (in_range 224 239 a0).
    - rewrite range_ascii in Hu; [done|by case_match|done].
    - destruct c as [|c1 c]; [done|]. destruct (in_range 240 244 a0); [|done].
      cbn [andb] in Hu. rewrite range_ascii in Hu; [done|by case_match|done]. }
  destruct (in_range 194 223 a0).
  { apply andb_true_iff in Hu as [-> Hu]. by apply (IH a b c); [lia| |]. }
  destruct a as [|a2 a]; cbn [app length] in Hu, Hn |- *.
  { exfalso. destruct (in_range 224 239 a0); [by rewrite Hcont, andb_false_r in Hu|].
    destruct c as [|c1 c]; [done|]. by rewrite Hcont, !andb_false_r in Hu. }
  destruct (in_range 224 239 a0).
  { apply andb_true_iff in Hu as [-> Hu]. by apply (IH a b c); [lia| |]. }
  destruct a as [|a3 a]; cbn [app length] in Hu, Hn |- *.
  { exfalso. by rewrite Hcont, !andb_false_r in Hu. }
  apply andb_true_iff in Hu as [-> Hu]. by apply (IH a b c); [lia| |].
Qed.

Lemma is_utf8_app_le n : forall a c, length a <= n -> is_utf8 a = true -> is_utf8 (a ++ c) = is_utf8 c.
Proof.
  induction n as [|n IH]; intros a c Hn Hu; [by destruct a; [|cbn in Hn; lia]|].
  destruct a as [|a0 a]; [done|]. cbn [length] in Hn. cbn [app is_utf8] in Hu |- *.
  destruct (in_range 0 127 a0); [apply IH; [lia|done]|].
  destruct a as [|a1 a]; [done|]. cbn [app length] in Hu, Hn |- *.
  destruct (in_range 194 223 a0); [apply andb_true_iff in Hu as [-> Hu]; apply IH; [lia|done]|].
  destruct a as [|a2 a]; [done|]. cbn [app length] in Hu, Hn |- *.
  destruct (in_range 224 239 a0); [apply andb_true_iff in Hu as [-> Hu]; apply IH; [lia|done]|].
  destruct a as [|a3 a]; [done|]. cbn [app length] in Hu, Hn |- *.
  apply andb_true_iff in Hu as [-> Hu]. apply IH; [lia|done].
Qed.

Lemma is_utf8_app a c : is_utf8 a = true -> is_utf8 c = true -> is_utf8 (a ++ c) = true.
Proof. intros Ha Hc. by rewrite (is_utf8_app_le (length a)). Qed.

Lemma utf8_cut a b c : (0 <= b < 128)%Z -> is_utf8 (a ++ b :: c) = true -> is_utf8 a = true /\ is_utf8 c = true.
Proof. by apply (is_utf8_cut (length a)). Qed.
End utf8.

(** * The prefix table *)

(** The table's three fields agree, and its sidecar can be written. *)
Definition prefixes_ok (t : PathPrefixes) : Prop :=
  fits_sidecar (prefixes t) /\ string_bytes t = length (concat (prefixes t)) /\
  (Z.of_nat (length (prefixes t)) <= DOC_PATH_PREFIX_INVALID)%Z /\
  forall p id, prefix_to_id t !! p = Some id <-> exists i, id = Z.of_nat i /\ prefixes t !! i = Some p.

Section table.
Implicit Types t : PathPrefixes.
Implicit Types p : str.

Lemma no_prefixes_ok : prefixes_ok no_prefixes.
Proof.
  split_and!; [split; [reflexivity|constructor]|done|done|]. intros p id. cbn. rewrite lookup_empty.
  split; [done|]. intros (i & _ & Hi). by rewrite lookup_nil in Hi.
Qed.

(** A prefix the table has no room for. *)
Definition refuses t p : Prop :=
  p ∉ prefixes t /\
  ((DOC_PATH_PREFIX_INVALID <= Z.of_nat (length (prefixes t)))%Z \/
   path_prefix_sidecar_can_hold (length (prefixes t) + 1) (string_bytes t + length p) = false).

(** A later table: it extends the ids and never takes a prefix refused before. *)
Definition grows t t' : Prop :=
  prefixes t `prefix_of` prefixes t' /\ forall p, refuses t p -> refuses t' p.

#[export] Instance grows_preorder : PreOrder grows.
Proof.
  split; [by split|]. intros t1 t2 t3 [H1 H2] [H3 H4]. split; [by etrans|]. auto.
Qed.

(** The result of interning [p] into [t]. *)
Definition interned t p id t' : Prop :=
  id = DOC_PATH_PREFIX_INVALID /\ t' = t /\ refuses t p \/
  (0 <= id < DOC_PATH_PREFIX_INVALID)%Z /\ prefixes t' !! Z.to_nat id = Some p.

Lemma intern_path_prefix_ok t p :
  prefixes_ok t -> short_prefix p -> is_utf8 p = true ->
  let '(id, t') := intern_path_prefix p t in
  prefixes_ok t' /\ grows t t' /\ interned t p id t'.
Proof.
  intros Hok Hshort Hutf. pose proof Hok as ([Hfit Hps] & Hsb & Hlen & Hmap). unfold intern_path_prefix.
  destruct (prefix_to_id t !! p) as [id|] eqn:El.
  { split; [exact Hok|]. split; [done|]. right. apply Hmap in El as (i & -> & Hi).
    rewrite Nat2Z.id. split; [|done]. apply lookup_lt_Some in Hi. lia. }
  assert (Hnew : p ∉ prefixes t).
  { intros [i Hi]%list_elem_of_lookup_1. assert (Hx : prefix_to_id t !! p = Some (Z.of_nat i)) by (apply Hmap; eauto). congruence. }
  destruct (_ <=? _) eqn:E1.
  { split; [exact Hok|]. split; [done|]. left. split; [done|]. split; [done|]. split; [done|]. left.
    apply Nat.leb_le in E1. unfold DOC_PATH_PREFIX_INVALID, u16_max in *. lia. }
  destruct (negb _) eqn:E2.
  { split; [exact Hok|]. split; [done|]. left. split; [done|]. split; [done|]. split; [done|]. right. by apply negb_true_iff. }
  apply Nat.leb_gt in E1. apply negb_false_iff in E2. unfold DOC_PATH_PREFIX_INVALID, u16_max in *.
  rewrite wrap_small by (unfold in_u; lia).
  assert (Hgrows : grows t {| prefix_to_id := <[p := Z.of_nat (length (prefixes t))]> (prefix_to_id t);
    prefixes := prefixes t ++ [p]; string_bytes := string_bytes t + length p |}).
  { split; [by apply prefix_app_r|]. intros q [Hq Hfull]. unfold path_prefix_sidecar_can_hold in *.
    assert (q <> p).
    { intros ->. destruct Hfull as [Hfull|Hfull]; [unfold DOC_PATH_PREFIX_INVALID, u16_max in Hfull; lia|congruence]. }
    split; cbn [prefixes string_bytes]; [rewrite elem_of_app, list_elem_of_singleton; tauto|]. rewrite length_app. cbn [length].
    destruct Hfull as [Hfull|Hfull]; [left; lia|right]. apply Nat.leb_gt. apply Nat.leb_gt in Hfull. lia. }
  split; [|split; [exact Hgrows|right; rewrite Nat2Z.id; split; [unfold DOC_PATH_PREFIX_INVALID, u16_max; lia|by apply list_lookup_middle]]].
  assert (Hc : length (concat (prefixes t ++ [p])) = string_bytes t + length p)
    by (rewrite concat_app, length_app, Hsb; cbn; by rewrite app_nil_r).
  split; [split|split; [done|split]]; cbn [prefixes string_bytes prefix_to_id].
  - rewrite length_app, Hc. exact E2.
  - apply Forall_app. split; [done|]. by repeat constructor.
  - rewrite length_app. cbn [length]. unfold DOC_PATH_PREFIX_INVALID, u16_max. lia.
  - intros q id. destruct (decide (q = p)) as [->|Hne].
    + rewrite lookup_insert_eq. split.
      * intros [= <-]. exists (length (prefixes t)). split; [done|]. by apply list_lookup_middle.
      * intros (i & -> & Hi). destruct (decide (i < length (prefixes t))).
        -- rewrite lookup_app_l in Hi by done. assert (Hx : prefix_to_id t !! p = Some (Z.of_nat i)) by (apply Hmap; eauto). congruence.
        -- apply lookup_app_Some in Hi as [Hi|[Hge Hi]]; [apply lookup_lt_Some in Hi; lia|].
           apply list_lookup_singleton_Some in Hi as [Hi _]. do 2 f_equal. lia.
    + rewrite lookup_insert_ne by done. rewrite Hmap. split; intros (i & -> & Hi); exists i; (split; [done|]).
      * by apply lookup_app_l_Some.
      * apply lookup_app_Some in Hi as [Hi|[_ Hi]]; [done|]. by apply list_lookup_singleton_Some in Hi as [_ Heq].
Qed.
End table.

(** * A document's path is read back *)

(** The path bytes of a record. *)
Definition doc_payload (record : bytes) : bytes := slice DOC_PATH_OFFSET (Z.to_nat (get 2 18 record)) record.

(** The separator DecodeDocPath puts after a prefix. *)
Definition separator_of (prefix : str) : Z :=
  if contains_byte (Z_of_ascii "\"%char) prefix then Z_of_ascii "\"%char else Z_of_ascii "/"%char.

(** The paths the record format keeps: a file name of at most 62 bytes, after a non-empty prefix
    that the table holds, does not end in a separator, and is followed by the separator the decoder
    chooses. *)
Definition path_kept (full_path : str) (ps : list str) : Prop :=
  let '(prefix, filename) := split_path_for_sidecar full_path in
  length filename <= DOC_PATH_FILENAME_MAX /\
  match rfind_separator full_path with
  | None => True
  | Some i => prefix ∈ ps /\ prefix <> [] /\ ends_with_separator prefix = false /\
              full_path !! i = Some (separator_of prefix)
  end.

Section paths.
Implicit Types t : PathPrefixes.
Implicit Types p : str.

Lemma rfind_separator_Some p i :
  rfind_separator p = Some i -> exists b, p = take i p ++ b :: drop (i + 1) p /\ is_separator b = true.
Proof.
  revert i. induction p as [|b p IH]; intros i; cbn [rfind_separator]; [done|].
  destruct (rfind_separator p) as [j|].
  - intros [= <-]. destruct (IH j eq_refl) as (b' & Hp & Hb'). exists b'. split; [|done]. cbn. by f_equal.
  - destruct (is_separator b) eqn:Eb; [|done]. intros [= <-]. exists b. split; [|done]. cbn. by rewrite drop_0.
Qed.

Lemma separator_ascii b : is_separator b = true -> (0 <= b < 128)%Z.
Proof. intros [->%Z.eqb_eq| ->%Z.eqb_eq]%orb_true_iff; split; by vm_compute. Qed.

Lemma split_path_utf8 p :
  is_utf8 p = true -> is_utf8 (split_path_for_sidecar p).1 = true /\ is_utf8 (split_path_for_sidecar p).2 = true.
Proof.
  intros Hu. unfold split_path_for_sidecar. destruct (rfind_separator p) as [i|] eqn:Er; [|done].
  destruct (rfind_separator_Some p i Er) as (b & Hp & Hb). rewrite Hp in Hu.
  by apply utf8_cut in Hu; [|by apply separator_ascii].
Qed.

Lemma DecodeDocPath_bytes id f (prefixes : list str) :
  in_u 16 id ->
  DecodeDocPath (le_bytes 2 id ++ f) prefixes =
    let filename := default [] (from_utf8 f) in
    if (id =? DOC_PATH_PREFIX_INVALID)%Z || (Z.of_nat (length prefixes) <=? id)%Z then filename
    else
      let prefix := nth (Z.to_nat id) prefixes [] in
      if length prefix =? 0 then filename
      else if ends_with_separator prefix then prefix ++ filename else prefix ++ separator_of prefix :: filename.
Proof.
  intros Hid. unfold DecodeDocPath. rewrite length_app, length_le_bytes.
  change (2 + length f =? 0) with false. change (2 + length f <? DOC_PATH_PREFIX_ID_BYTES) with false.
  assert (Hget : get 2 0 (le_bytes 2 id ++ f) = id).
  { unfold get. rewrite slice_app_l by (rewrite length_le_bytes; lia). by apply (of_le_le_bytes_id 2). }
  rewrite Hget. done.
Qed.

Lemma slice_plus {A} off n1 n2 (l : list A) : slice off (n1 + n2) l = slice off n1 l ++ slice (off + n1) n2 l.
Proof.
  unfold slice. rewrite <- drop_drop. generalize (drop off l) as k. clear l.
  induction n1 as [|n1 IH]; intros [|x k]; cbn; [done..|by rewrite take_nil|]. by f_equal.
Qed.

(** What encode_doc_path leaves in the record. *)
Lemma encode_doc_path_bytes record p t :
  length record = DOC_REC_SIZE ->
  let '(record', t') := encode_doc_path record p t in
  length record' = DOC_REC_SIZE /\
  (forall off n, off + n <= 18 \/ 20 <= off /\ off + n <= DOC_PATH_OFFSET -> slice off n record' = slice off n record) /\
  if length p =? 0 then get 2 18 record' = 0%Z /\ doc_payload record' = [] /\ t' = t
  else let '(prefix, filename) := split_path_for_sidecar p in
       let '(id, t2) := intern_path_prefix prefix t in
       t' = t2 /\ get 2 18 record' = Z.of_nat (2 + length (take DOC_PATH_FILENAME_MAX filename)) /\
       (in_u 16 id -> doc_payload record' = le_bytes 2 id ++ take DOC_PATH_FILENAME_MAX filename).
Proof.
  intros Hlen. unfold DOC_REC_SIZE, encode_doc_path in *. unfold DOC_PATH_OFFSET, DOC_PATH_FILENAME_MAX, DOC_PATH_MAX, DOC_PATH_PREFIX_ID_BYTES.
  set (r1 := put 2 18 0 record). assert (L1 : length r1 = 256) by (unfold r1; rewrite length_put; lia).
  set (r2 := splice 192 (zeros 64) r1).
  assert (L2 : length r2 = 256) by (unfold r2; rewrite length_splice; unfold zeros; rewrite ?length_replicate; lia).
  assert (F2 : forall off n, off + n <= 18 \/ 20 <= off /\ off + n <= 192 -> slice off n r2 = slice off n record).
  { intros off n Hc. unfold r2. rewrite slice_splice_before by lia. unfold r1, put.
    destruct Hc; [rewrite slice_splice_before by lia|rewrite slice_splice_after by (rewrite length_le_bytes; lia)]; done. }
  destruct (length p =? 0).
  { split; [done|]. split; [exact F2|]. unfold doc_payload, DOC_PATH_OFFSET.
    assert (Hz : get 2 18 r2 = 0%Z); [|by rewrite Hz]. unfold r2, get. rewrite slice_splice_before by lia.
    apply (get_put_same 2 18); [lia|done]. }
  destruct (split_path_for_sidecar p) as [prefix filename]. destruct (intern_path_prefix prefix t) as [id t2].
  set (fl := Nat.min (length filename) (64 - 2)). assert (Hfl : fl <= 62) by lia.
  assert (Hft : take fl filename = take (64 - 2) filename).
  { unfold fl. destruct (decide (length filename <= 62)); [by rewrite !take_ge by lia|f_equal; lia]. }
  rewrite wrap_small by (unfold in_u; lia).
  set (r3 := put 2 18 _ r2). assert (L3 : length r3 = 256) by (unfold r3; rewrite length_put; lia).
  set (r4 := put 2 192 id r3). assert (L4 : length r4 = 256) by (unfold r4; rewrite length_put; lia).
  set (name := take fl filename). assert (Hname : length name = fl) by (unfold name; rewrite length_take; lia).
  change (192 + 2) with 194. set (r5 := splice 194 name r4).
  assert (L5 : length r5 = 256) by (unfold r5; rewrite length_splice; lia).
  split; [done|]. split.
  - intros off n Hc. rewrite <- F2 by done. unfold r5. rewrite slice_splice_before by lia.
    unfold r4, put. rewrite slice_splice_before by lia. unfold r3, put.
    destruct Hc; [rewrite slice_splice_before by lia|rewrite slice_splice_after by (rewrite length_le_bytes; lia)]; done.
  - split; [done|]. rewrite <- Hft. fold name. rewrite Hname.
    assert (Hget : get 2 18 r5 = Z.of_nat (2 + fl)).
    { unfold r5, get. rewrite slice_splice_before by lia. unfold r4, put. rewrite slice_splice_before by lia.
      apply (get_put_same 2 18); [lia|unfold in_u; lia]. }
    split; [exact Hget|]. intros Hid. unfold doc_payload, DOC_PATH_OFFSET. rewrite Hget, Nat2Z.id.
    rewrite slice_plus. f_equal.
    + unfold r5. rewrite slice_splice_before by lia. unfold r4, put. apply slice_written; [apply length_le_bytes|lia].
    + apply slice_written; [done|lia].
Qed.

(** The path of a record, with the table it was encoded with or a longer one. *)
Lemma encode_doc_path_ok record p t :
  length record = DOC_REC_SIZE -> prefixes_ok t -> is_utf8 p = true -> short_prefix (split_path_for_sidecar p).1 ->
  let '(record', t') := encode_doc_path record p t in
  prefixes_ok t' /\ grows t t' /\
  (forall t2, grows t' t2 -> path_kept p (prefixes t2) -> DecodeDocPath (doc_payload record') (prefixes t2) = p).
Proof.
  intros Hlen Hok Hu Hshort. pose proof (encode_doc_path_bytes record p t Hlen) as Hb.
  destruct (encode_doc_path record p t) as [record' t']. destruct Hb as (_ & _ & Hb).
  destruct (length p =? 0) eqn:E0.
  { destruct Hb as (_ & Hpay & ->). split; [done|]. split; [done|]. intros t2 _ _. rewrite Hpay.
    apply Nat.eqb_eq, nil_length_inv in E0. by rewrite E0. }
  pose proof (split_path_utf8 p Hu) as [Hu1 Hu2]. unfold path_kept. unfold split_path_for_sidecar in Hb, Hshort, Hu1, Hu2 |- *.
  destruct (rfind_separator p) as [i|] eqn:Er; cbn [fst snd] in *.
  - pose proof (intern_path_prefix_ok t (take i p) Hok Hshort Hu1) as Hint.
    destruct (intern_path_prefix (take i p) t) as [id t2]. destruct Hint as (Hok' & Hgr & Hint).
    destruct Hb as (-> & _ & Hpay). split; [done|]. split; [done|].
    intros t3 [Hps Href] (Hfl & Hin & Hne & Hends & Hsep).
    destruct Hint as [(_ & -> & Hnot)|[Hid Hlook]]; [by destruct (Href _ Hnot)|]. set (ps := prefixes t3) in *.
    unfold DOC_PATH_PREFIX_INVALID, u16_max in Hid. rewrite Hpay by (unfold in_u; lia).
    rewrite DecodeDocPath_bytes by (unfold in_u; lia). rewrite take_ge by done. cbv zeta.
    assert (Hlook' : ps !! Z.to_nat id = Some (take i p)) by (by eapply prefix_lookup_Some).
    pose proof (lookup_lt_Some _ _ _ Hlook'). unfold DOC_PATH_PREFIX_INVALID, u16_max.
    replace ((id =? 2 ^ 16 - 1) || (Z.of_nat (length ps) <=? id))%Z with false by lia.
    rewrite (nth_lookup_Some _ _ _ _ Hlook'). unfold from_utf8. rewrite Hu2, Hends. cbn [default].
    replace (length (take i p) =? 0) with false by (symmetry; apply Nat.eqb_neq; by destruct (take i p)).
    destruct (rfind_separator_Some p i Er) as (b & Hp & _).
    assert (Hi : p !! i = Some b).
    { assert (Hil : length (take i p) = i).
      { pose proof (f_equal length Hp) as Hl. rewrite length_app in Hl. cbn in Hl. rewrite length_take, length_drop in *. lia. }
      rewrite Hp. rewrite lookup_app_r by lia. by rewrite Hil, Nat.sub_diag. }
    rewrite Hsep in Hi. injection Hi as <-. symmetry. exact Hp.
  - pose proof (intern_path_prefix_ok t [] Hok Hshort eq_refl) as Hint.
    destruct (intern_path_prefix [] t) as [id t2]. destruct Hint as (Hok' & Hpre & Hint).
    destruct Hb as (-> & _ & Hpay). split; [done|]. split; [done|]. intros t3 [Hps _] [Hfl _]. set (ps := prefixes t3) in *.
    assert (Hid : in_u 16 id).
    { unfold interned, DOC_PATH_PREFIX_INVALID, u16_max in Hint. unfold in_u. destruct Hint as [(-> & _)|[Hid _]]; lia. }
    rewrite Hpay, DecodeDocPath_bytes, take_ge by done. cbv zeta. unfold from_utf8. rewrite Hu2. cbn [default].
    destruct (_ || _)%Z eqn:Eid; [done|]. destruct Hint as [(-> & _)|[_ Hlook]].
    { by rewrite Z.eqb_refl in Eid. }
    assert (Hlook' : ps !! Z.to_nat id = Some []) by (by eapply prefix_lookup_Some).
    by rewrite (nth_lookup_Some _ _ _ _ Hlook').
Qed.

(** * The path a record shows is a path again *)

Lemma rfind_separator_app a f : rfind_separator f = None -> rfind_separator (a ++ f) = rfind_separator a.
Proof. intros Hf. induction a as [|b a IH]; cbn [app rfind_separator]; [done|]. by rewrite IH. Qed.

Lemma rfind_separator_lt p i : rfind_separator p = Some i -> i < length p.
Proof.
  intros Hr. destruct (rfind_separator_Some p i Hr) as (b & Hp & _). pose proof (f_equal length Hp) as Hl.
  rewrite length_app in Hl. cbn in Hl. rewrite length_take, length_drop in Hl. lia.
Qed.

Lemma rfind_separator_take n f : rfind_separator f = None -> rfind_separator (take n f) = None.
Proof.
  revert n. induction f as [|b f IH]; intros [|n]; cbn [take rfind_separator]; try done.
  destruct (rfind_separator f); [done|]. intros Hb. rewrite IH by done. done.
Qed.

Lemma filename_no_separator p : rfind_separator (split_path_for_sidecar p).2 = None.
Proof.
  unfold split_path_for_sidecar. destruct (rfind_separator p) as [i|] eqn:Er; [|done]. cbn [snd].
  revert i Er. induction p as [|b p IH]; intros i; cbn [rfind_separator]; [done|].
  destruct (rfind_separator p) as [j|] eqn:Ej.
  - intros [= <-]. cbn. by apply IH.
  - destruct (is_separator b); [|done]. intros [= <-]. cbn. by rewrite drop_0.
Qed.

Lemma short_split a f : rfind_separator f = None -> (Z.of_nat (length a) <= 65536)%Z -> short_prefix (split_path_for_sidecar (a ++ f)).1.
Proof.
  intros Hf Ha. unfold split_path_for_sidecar, short_prefix. rewrite rfind_separator_app by done.
  destruct (rfind_separator a) as [i|] eqn:Er; [|done]. apply rfind_separator_lt in Er. cbn [fst]. rewrite length_take. lia.
Qed.

(** A path that the table can take: UTF-8, with a short directory. *)
Definition path_wf p : Prop := is_utf8 p = true /\ short_prefix (split_path_for_sidecar p).1.

(** Whatever path the decoder shows for a record that was encoded, it can be encoded again. *)
Lemma encode_doc_path_visible record p t :
  length record = DOC_REC_SIZE -> prefixes_ok t -> path_wf p ->
  let '(record', t') := encode_doc_path record p t in
  forall t2, grows t' t2 -> path_wf (DecodeDocPath (doc_payload record') (prefixes t2)).
Proof.
  intros Hlen Hok [Hu Hshort]. pose proof (encode_doc_path_bytes record p t Hlen) as Hb.
  destruct (encode_doc_path record p t) as [record' t']. destruct Hb as (_ & _ & Hb).
  destruct (length p =? 0).
  { destruct Hb as (_ & -> & _). intros. by split. }
  pose proof (split_path_utf8 p Hu) as [Hu1 Hu2]. pose proof (filename_no_separator p) as Hsep.
  destruct (split_path_for_sidecar p) as [prefix filename]. cbn [fst snd] in *.
  pose proof (intern_path_prefix_ok t prefix Hok Hshort Hu1) as Hint. destruct (intern_path_prefix prefix t) as [id t3].
  destruct Hint as (_ & _ & Hint), Hb as (-> & _ & Hpay). intros t2 [Hps _].
  assert (Hid : in_u 16 id).
  { unfold interned, DOC_PATH_PREFIX_INVALID, u16_max in Hint. unfold in_u. destruct Hint as [(-> & _)|[Hid _]]; lia. }
  rewrite Hpay, DecodeDocPath_bytes by done. cbv zeta. set (name := default [] (from_utf8 _)).
  assert (Hname : is_utf8 name = true /\ rfind_separator name = None).
  { unfold name, from_utf8. destruct (is_utf8 (take _ filename)) eqn:E; [|done]. split; [done|]. by apply rfind_separator_take. }
  destruct Hname as [Hn1 Hn2]. assert (Hw : path_wf name) by (split; [done|by apply (short_split [])]).
  destruct (_ || _)%Z eqn:Eid; [done|]. destruct Hint as [(-> & _)|[_ Hlook]]; [by rewrite Z.eqb_refl in Eid|].
  assert (Hlook' : prefixes t2 !! Z.to_nat id = Some prefix) by by eapply prefix_lookup_Some.
  rewrite (nth_lookup_Some _ _ _ _ Hlook'). destruct (length prefix =? 0); [done|]. unfold short_prefix in Hshort.
  assert (Hs : is_utf8 [separator_of prefix] = true) by (unfold separator_of; by destruct (contains_byte _ _)).
  destruct (ends_with_separator prefix).
  - split; [by apply is_utf8_app|]. apply short_split; [done|lia].
  - change (separator_of prefix :: name) with ([separator_of prefix] ++ name). rewrite app_assoc.
    split; [by repeat apply is_utf8_app|]. apply short_split; [done|]. rewrite length_app. cbn. lia.
Qed.
End paths.
