(* ===== verification/IndexReader.v ===== *)
(** The contract of index readers (IndexReader.rs): the trait as a type class of
    operations, the laws every implementation promises, and the packing of a
    document id with its source streams. Also DocDataEntry (BlockTable.rs), the
    record a reader scores against. *)

From Stdlib Require Import Ascii String.
From Stdlib Require Import ZArith Lia ZifyBool Bool List.
From Stdlib Require Import Floats.SpecFloat.
From stdpp Require Import base list list_numbers gmap sorting.
From S2P Require Import Prelude Floats PostingStore.

Local Open Scope moon_scope.

(** * Document ids *)

Definition NO_MORE_DOCS : Z := u64_max.
Definition READER_DOCID_SOURCE_SHIFT : Z := 59.
Definition READER_DOCID_VALUE_MASK : Z := (Z.shiftl 1 READER_DOCID_SOURCE_SHIFT - 1)%Z.
Definition READER_SOURCE_ANCHOR : Z := Z.shiftl 1 0.
Definition READER_SOURCE_URL : Z := Z.shiftl 1 1.
Definition READER_SOURCE_TITLE : Z := Z.shiftl 1 2.
Definition READER_SOURCE_BODY : Z := Z.shiftl 1 3.
Definition READER_SOURCE_VECTOR : Z := Z.shiftl 1 4.

Definition ReaderDocumentIDValue (docId : Z) : Z := Z.land docId READER_DOCID_VALUE_MASK.
Definition ReaderDocumentIDSourceMask (docId : Z) : Z := wrap 8 (Z.shiftr docId READER_DOCID_SOURCE_SHIFT).
Definition MakeReaderDocumentID (docId sourceMask : Z) : Z :=
  Z.lor (wrap 64 (Z.shiftl sourceMask READER_DOCID_SOURCE_SHIFT)) (Z.land docId READER_DOCID_VALUE_MASK).

Definition ReaderSourceMaskForStream (stream : Z) : Z :=
  if (stream =? chr "A")%Z then READER_SOURCE_ANCHOR
  else if (stream =? chr "U")%Z then READER_SOURCE_URL
  else if (stream =? chr "T")%Z then READER_SOURCE_TITLE
  else if (stream =? chr "B")%Z then READER_SOURCE_BODY
  else if (stream =? chr "V")%Z then READER_SOURCE_VECTOR
  else 0%Z.

(** * DocDataEntry *)

Record DocDataEntry := {
  DDE_DocID : Z;
  DDE_StaticRank : Z;
  DDE_QualityScore : Z;
  DDE_FreshnessScore : Z;
  DDE_ClickScore : Z;
  DDE_EngagementScore : Z;
  DDE_AuthorityScore : Z;
  DDE_SpamScore : Z;
  DDE_PathLength : Z;
  DDE_Language : Z;
  DDE_Locale : Z;
  DDE_ContentType : Z;
  DDE_TitleLength : Z;
  DDE_BodyLength : Z;
  DDE_UrlLength : Z;
  DDE_AnchorLength : Z;
  DDE_MetaLength : Z;
  DDE_DiversityScore : f32;
  DDE_LengthQualityScore : f32;
  DDE_VectorDim : Z;
  DDE_VectorFormat : Z;
  DDE_VectorData : list Z;
  DDE_Path : bytes;
}.

(** * The trait

    Operations that can loop take a fuel and return [None] when it runs out;
    [SetDebug] only prints and is left out. *)

Class IndexReader (R : Type) := {
  GoNext : nat -> R -> option R;
  GoUntil : nat -> R -> Z -> Z -> option R;
  IsEnd : R -> bool;
  GetDocumentID : R -> Z;
  GetTermFreq : R -> Z;
  GetScore : nat -> R -> DocDataEntry -> option (R * f32);
  GetSourceMask : nat -> R -> option (R * Z);
  Close : R -> R;
}.

(** * Termination

    [converges f a]: with enough fuel, and any more, the computation returns [a]. *)

Definition converges {A} (f : nat -> option A) (a : A) : Prop :=
  exists n0, forall n, n0 <= n -> f n = Some a.

Section converges.
Context {A B : Type}.

Lemma converges_now (a : A) : converges (fun _ => Some a) a.
Proof. by exists 0. Qed.

Lemma converges_ext (f g : nat -> option A) a :
  (forall n, f n = g n) -> converges g a -> converges f a.
Proof. intros Hfg [n0 H]. exists n0. intros n Hn. by rewrite Hfg, H. Qed.

Lemma converges_bind (f : nat -> option A) (k : nat -> A -> option B) a b :
  converges f a -> converges (fun n => k n a) b ->
  converges (fun n => match f n with Some x => k n x | None => None end) b.
Proof.
  intros [n1 H1] [n2 H2]. exists (Nat.max n1 n2). intros n Hn.
  rewrite H1 by lia. apply H2. lia.
Qed.

(** One unfolding of a loop. *)
Lemma converges_S (f g : nat -> option A) a :
  (forall n, f (S n) = g n) -> converges g a -> converges f a.
Proof.
  intros Hfg [n0 H]. exists (S n0). intros [|n] Hn; [lia|]. rewrite Hfg. apply H. lia.
Qed.

Lemma converges_unique (f : nat -> option A) a a' : converges f a -> converges f a' -> a = a'.
Proof.
  intros [n1 H1] [n2 H2]. specialize (H1 (Nat.max n1 n2) ltac:(lia)).
  specialize (H2 (Nat.max n1 n2) ltac:(lia)). congruence.
Qed.
End converges.

(** * Document lists *)

(** What a reader has left: strictly increasing document ids below the end mark. *)
Definition docs_ok (ds : list Z) : Prop :=
  StronglySorted Z.lt ds /\ Forall (fun d => 0 <= d < NO_MORE_DOCS)%Z ds.

(** The part of the list from the first document not below the target. *)
Fixpoint skip_docs (target : Z) (ds : list Z) : list Z :=
  match ds with
  | [] => []
  | d :: ds' => if (target <=? d)%Z then ds else skip_docs target ds'
  end.

Definition head_doc (ds : list Z) : Z := match ds with [] => NO_MORE_DOCS | d :: _ => d end.

(** [ds] lists exactly the documents that satisfy [P]. *)
Definition denotes (P : Z -> Prop) (ds : list Z) : Prop :=
  docs_ok ds /\ forall x, x ∈ ds <-> P x.

Section docs.
Implicit Types ds : list Z.
Implicit Types x t d : Z.

Lemma docs_ok_cons d ds :
  docs_ok (d :: ds) <-> (0 <= d < NO_MORE_DOCS)%Z /\ (forall x, x ∈ ds -> (d < x)%Z) /\ docs_ok ds.
Proof.
  unfold docs_ok. rewrite Forall_cons. split.
  - intros [Hs [Hd Hf]]. inversion Hs as [|? ? Hs' Hlt]; subst.
    rewrite Forall_forall in Hlt. done.
  - intros (Hd & Hlt & Hs & Hf). split; [|done]. constructor; [done|]. by apply Forall_forall.
Qed.

Lemma docs_ok_nil : docs_ok [].
Proof. split; constructor. Qed.

Lemma docs_ok_tail ds : docs_ok ds -> docs_ok (tail ds).
Proof. destruct ds; [done|]. rewrite docs_ok_cons. tauto. Qed.

Lemma docs_ok_app_r ds1 ds2 : docs_ok (ds1 ++ ds2) -> docs_ok ds2.
Proof. induction ds1 as [|d ds1 IH]; [done|]. intros H%docs_ok_cons. apply IH. tauto. Qed.

Lemma docs_ok_range ds x : docs_ok ds -> x ∈ ds -> (0 <= x < NO_MORE_DOCS)%Z.
Proof. intros [_ H] Hx. rewrite Forall_forall in H. by apply H. Qed.

Lemma elem_tail ds x : docs_ok ds -> x ∈ tail ds <-> x ∈ ds /\ (head_doc ds < x)%Z.
Proof.
  destruct ds as [|d ds]; cbn; [rewrite elem_of_nil; tauto|]. rewrite docs_ok_cons, elem_of_cons.
  intros (_ & Hlt & _). split; [|intros [[->|?] ?]; [lia|done]]. auto.
Qed.

Lemma head_doc_min ds x : docs_ok ds -> x ∈ ds -> (head_doc ds <= x)%Z.
Proof.
  destruct ds as [|d ds]; cbn; [rewrite elem_of_nil; tauto|]. rewrite docs_ok_cons, elem_of_cons.
  intros (_ & Hlt & _) [->|Hx]; [lia|]. specialize (Hlt x Hx). lia.
Qed.

Lemma head_doc_elem ds : (head_doc ds <> NO_MORE_DOCS)%Z -> head_doc ds ∈ ds.
Proof. destruct ds; cbn; [done|]. intros _. apply elem_of_cons. by left. Qed.

Lemma head_doc_end ds : docs_ok ds -> head_doc ds = NO_MORE_DOCS <-> ds = [].
Proof.
  destruct ds as [|d ds]; cbn; [done|]. rewrite docs_ok_cons. intros (Hd & _). split; [lia|done].
Qed.

Lemma skip_docs_ok t ds : docs_ok ds -> docs_ok (skip_docs t ds).
Proof.
  induction ds as [|d ds IH]; cbn; [done|]. intros H. case_test; [done|].
  apply docs_ok_cons in H. tauto.
Qed.

Lemma elem_skip t ds x : docs_ok ds -> x ∈ skip_docs t ds <-> x ∈ ds /\ (t <= x)%Z.
Proof.
  induction ds as [|d ds IH]; cbn; [rewrite elem_of_nil; tauto|].
  rewrite docs_ok_cons. intros (_ & Hlt & Hok). specialize (IH Hok). case_test.
  - rewrite elem_of_cons. split; [|tauto]. intros [->|Hx]; [auto|]. specialize (Hlt x Hx).
    split; [auto|lia].
  - rewrite IH, elem_of_cons. split; [tauto|]. intros [[->|?] ?]; [lia|done].
Qed.

Lemma skip_docs_id t ds : (t <= head_doc ds)%Z -> skip_docs t ds = ds.
Proof. destruct ds as [|d ds]; cbn; [done|]. intros H. by destruct (Z.leb_spec t d); [|lia]. Qed.

Lemma skip_docs_length t ds : length (skip_docs t ds) <= length ds.
Proof. induction ds as [|d ds IH]; cbn; [done|]. case_test; cbn; lia. Qed.

Lemma skip_docs_shorter t ds : (head_doc ds < t)%Z -> ds <> [] -> length (skip_docs t ds) < length ds.
Proof.
  destruct ds as [|d ds]; cbn; [done|]. intros H _. case_test.
  pose proof (skip_docs_length t ds). lia.
Qed.

Lemma head_skip_docs t ds : docs_ok ds -> skip_docs t ds <> [] -> (t <= head_doc (skip_docs t ds))%Z.
Proof.
  intros Hok Hne. destruct (skip_docs t ds) as [|d l] eqn:E; [done|].
  assert (d ∈ skip_docs t ds) as Hd by (rewrite E; apply elem_of_cons; by left).
  apply elem_skip in Hd as [_ ?]; done.
Qed.

(** A list of documents is determined by its elements. *)
Lemma docs_ok_ext ds1 ds2 : docs_ok ds1 -> docs_ok ds2 -> (forall x, x ∈ ds1 <-> x ∈ ds2) -> ds1 = ds2.
Proof.
  intros H1 H2 Heq. apply (StronglySorted_unique_strong Z.lt); [intros; lia|apply H1|apply H2|].
  assert (Hnd : forall ds, docs_ok ds -> NoDup ds).
  { induction ds as [|d ds IH]; [constructor|]. rewrite docs_ok_cons. intros (_ & Hlt & Hok).
    constructor; [|auto]. intros Hin. specialize (Hlt d Hin). lia. }
  apply NoDup_Permutation; auto.
Qed.

Lemma denotes_iff (P Q : Z -> Prop) ds : (forall x, P x <-> Q x) -> denotes P ds -> denotes Q ds.
Proof. intros HPQ [H1 H2]. split; [done|]. intros x. by rewrite H2. Qed.

Lemma denotes_tail (P : Z -> Prop) ds :
  denotes P ds -> denotes (fun x => P x /\ (head_doc ds < x)%Z) (tail ds).
Proof.
  intros [H1 H2]. split; [by apply docs_ok_tail|]. intros x. by rewrite elem_tail, H2.
Qed.

Lemma denotes_skip (P : Z -> Prop) t ds :
  denotes P ds -> denotes (fun x => P x /\ (t <= x)%Z) (skip_docs t ds).
Proof.
  intros [H1 H2]. split; [by apply skip_docs_ok|]. intros x. by rewrite elem_skip, H2.
Qed.

Lemma denotes_head (P : Z -> Prop) ds d :
  denotes P ds -> P d -> (forall x, P x -> (d <= x)%Z) -> head_doc ds = d.
Proof.
  intros [H1 H2] Hd Hmin. apply H2 in Hd. pose proof (head_doc_min ds d H1 Hd).
  assert (head_doc ds ∈ ds) as Hin.
  { apply head_doc_elem. pose proof (docs_ok_range ds d H1 Hd). lia. }
  apply H2, Hmin in Hin. lia.
Qed.

Lemma denotes_none (P : Z -> Prop) ds : denotes P ds -> (forall x, ~ P x) -> ds = [].
Proof.
  intros [_ H2] Hn. destruct ds as [|d ds]; [done|]. exfalso. apply (Hn d), H2, elem_of_cons. by left.
Qed.

Lemma strictly_sorted ds : StronglySorted Z.le ds -> NoDup ds -> StronglySorted Z.lt ds.
Proof.
  induction 1 as [|x l Hs IH Hx]; intros Hnd; constructor; apply NoDup_cons in Hnd as [Hnin Hnd].
  - by apply IH.
  - rewrite Forall_forall in *. intros y Hy. specialize (Hx y Hy).
    assert (x <> y) by (intros ->; done). lia.
Qed.

(** Any decidable set of documents within a finite list is denoted by a list. *)
Lemma denotes_exists (P : Z -> Prop) `{forall x, Decision (P x)} l :
  (forall x, P x -> x ∈ l) -> Forall (fun d => 0 <= d < NO_MORE_DOCS)%Z l -> exists ds, denotes P ds.
Proof.
  intros Hin Hl. exists (merge_sort Z.le (remove_dups (filter P l))).
  assert (Hperm : merge_sort Z.le (remove_dups (filter P l)) ≡ₚ remove_dups (filter P l))
    by apply merge_sort_Permutation.
  assert (Hel : forall x, x ∈ merge_sort Z.le (remove_dups (filter P l)) <-> P x).
  { intros x. rewrite Hperm, elem_of_remove_dups, list_elem_of_filter. split; [tauto|]. auto. }
  split; [|done]. split.
  - assert (Hs : StronglySorted Z.le (merge_sort Z.le (remove_dups (filter P l))))
      by (apply StronglySorted_merge_sort; apply _).
    assert (Hnd : NoDup (merge_sort Z.le (remove_dups (filter P l))))
      by (rewrite Hperm; apply NoDup_remove_dups).
    by apply strictly_sorted.
  - apply Forall_forall. intros x Hx. apply Hel, Hin in Hx.
    rewrite Forall_forall in Hl. by apply Hl.
Qed.

(** The documents of a list that satisfy [P], sorted, each once. *)
Definition docs_where (P : Z -> Prop) `{forall x, Decision (P x)} (l : list Z) : list Z :=
  stable_sort Z.leb (remove_dups (filter P l)).

Lemma docs_where_denotes (P : Z -> Prop) `{!forall x, Decision (P x)} l :
  (forall x, P x -> x ∈ l) -> Forall (fun d => 0 <= d < NO_MORE_DOCS)%Z l -> denotes P (docs_where P l).
Proof.
  intros Hin Hl. unfold docs_where.
  pose proof (stable_sort_perm Z.leb (remove_dups (filter P l))) as Hp.
  assert (Hel : forall x, x ∈ stable_sort Z.leb (remove_dups (filter P l)) <-> P x).
  { intros x. rewrite Hp, elem_of_remove_dups, list_elem_of_filter. split; [tauto|]. auto. }
  split; [|done]. split.
  - assert (Hs : StronglySorted Z.le (stable_sort Z.leb (remove_dups (filter P l)))).
    { apply stable_sort_sorted; [intros; apply Z.leb_le|intros; lia|apply _]. }
    assert (Hnd : NoDup (stable_sort Z.leb (remove_dups (filter P l)))) by (rewrite Hp; apply NoDup_remove_dups).
    by apply strictly_sorted.
  - apply Forall_forall. intros x Hx. apply Hel, Hin in Hx. rewrite Forall_forall in Hl. by apply Hl.
Qed.

Lemma concat_range dss : Forall docs_ok dss -> Forall (fun d => 0 <= d < NO_MORE_DOCS)%Z (concat dss).
Proof. intros Hok. apply Forall_concat. eapply Forall_impl; [exact Hok|]. intros l Hl. apply Hl. Qed.
End docs.

(** * The contract

    [reads r ds]: the reader [r] stands on the head of [ds] and has exactly [ds] left. Every
    operation the executor uses terminates, moves as the trait says, and scoring moves nothing. *)

Class ReaderSpec (R : Type) {ops : IndexReader R} := {
  reads : R -> list Z -> Prop;
  reads_docs r ds : reads r ds -> docs_ok ds;
  reads_end r ds : reads r ds -> IsEnd r = bool_decide (ds = []);
  reads_doc r d ds : reads r (d :: ds) -> GetDocumentID r = d;
  reads_next r ds : reads r ds -> exists r', converges (fun n => GoNext n r) r' /\ reads r' (tail ds);
  reads_until r ds t : reads r ds -> (t <= NO_MORE_DOCS)%Z ->
    exists r', converges (fun n => GoUntil n r t NO_MORE_DOCS) r' /\ reads r' (skip_docs t ds);
  reads_score r ds e : reads r ds ->
    exists r' s, converges (fun n => GetScore n r e) (r', s) /\ reads r' ds;
  reads_mask r ds : reads r ds ->
    exists r' m, converges (fun n => GetSourceMask n r) (r', m) /\ reads r' ds;
}.

Section contract.
Context {R : Type} `{ReaderSpec R}.

(** The document a composite caches for a child. *)
Definition child_doc (r : R) : Z := if IsEnd r then NO_MORE_DOCS else GetDocumentID r.

Lemma child_doc_head r ds : reads r ds -> child_doc r = head_doc ds.
Proof.
  intros Hr. unfold child_doc. rewrite (reads_end _ _ Hr). case_bool_decide as E.
  - by rewrite E.
  - destruct ds as [|d ds]; [done|]. by apply (reads_doc _ _ _ Hr).
Qed.

Lemma reads_unique_end r ds : reads r ds -> IsEnd r = true <-> ds = [].
Proof. intros Hr. rewrite (reads_end _ _ Hr). apply bool_decide_eq_true. Qed.
End contract.

(** * Properties *)

(** a document id and its source mask survive the packing into one u64: both are read back,
    for document ids below 2^59 and masks of five bits. *)
Theorem reader_docid_roundtrip docId mask :
  (0 <= docId < 2 ^ 59)%Z -> (0 <= mask < 2 ^ 5)%Z ->
  in_u 64 (MakeReaderDocumentID docId mask) /\
  ReaderDocumentIDValue (MakeReaderDocumentID docId mask) = docId /\
  ReaderDocumentIDSourceMask (MakeReaderDocumentID docId mask) = mask.
Proof.
  intros Hd Hm. unfold MakeReaderDocumentID, ReaderDocumentIDValue, ReaderDocumentIDSourceMask.
  change READER_DOCID_VALUE_MASK with (Z.ones 59). unfold READER_DOCID_SOURCE_SHIFT.
  rewrite !Z.land_ones, Z.shiftl_mul_pow2, Z.shiftr_div_pow2 by lia.
  rewrite (Z.mod_small docId) by done. rewrite wrap_small by (unfold in_u; lia).
  assert (Hor : Z.lor (mask * 2 ^ 59) docId = (docId + mask * 2 ^ 59)%Z).
  { rewrite <- Z.shiftl_mul_pow2 by lia. rewrite Z.lor_comm.
    rewrite <- Z.lxor_lor; [symmetry; apply Z.add_nocarry_lxor|];
      (apply Z.bits_inj'; intros i Hi; rewrite Z.land_spec, Z.bits_0;
       destruct (Z.lt_ge_cases i 59);
       [rewrite Z.shiftl_spec_low by done; apply andb_false_r|
        rewrite <- (Z.mod_small docId (2 ^ 59)), Z.mod_pow2_bits_high by lia; done]). }
  rewrite Hor, Z.mod_add, Z.div_add by lia. rewrite Z.mod_small, Z.div_small by done.
  rewrite wrap_small by (unfold in_u; lia). unfold in_u. lia.
Qed.

Lemma reader_docid_roundtrip_witness :
  ReaderDocumentIDValue (MakeReaderDocumentID 7 9) = 7%Z /\ ReaderDocumentIDSourceMask (MakeReaderDocumentID 7 9) = 9%Z.
Proof. apply (reader_docid_roundtrip 7 9); lia. Defined.

(** * The reference reader

    A list of documents is itself a reader of them: the simplest lawful reader, used where the
    properties are applied to concrete readers. *)

Definition list_reader : IndexReader (list Z) := {|
  GoNext _ l := Some (tail l); GoUntil _ l t _ := Some (skip_docs t l);
  IsEnd l := match l with [] => true | _ => false end; GetDocumentID := head_doc;
  GetTermFreq _ := 1%Z; GetScore _ l _ := Some (l, f_of_Z F32 1); GetSourceMask _ l := Some (l, READER_SOURCE_BODY);
  Close _ := [] |}.

Program Definition list_reader_spec : @ReaderSpec (list Z) list_reader :=
  {| reads l ds := l = ds /\ docs_ok ds |}.
Next Obligation. by intros r ds [_ Hok]. Qed.
Next Obligation. intros r ds [-> _]. by destruct ds. Qed.
Next Obligation. intros r d ds [-> _]. done. Qed.
Next Obligation. intros r ds [-> Hok]. exists (tail ds). split; [apply converges_now|]. split; [done|by apply docs_ok_tail]. Qed.
Next Obligation.
  intros r ds t [-> Hok] _. exists (skip_docs t ds). split; [apply converges_now|]. split; [done|by apply skip_docs_ok].
Qed.
Next Obligation. intros r ds e [-> Hok]. exists ds, (f_of_Z F32 1). split; [apply converges_now|done]. Qed.
Next Obligation. intros r ds [-> Hok]. exists ds, READER_SOURCE_BODY. split; [apply converges_now|done]. Qed.

(** Decides [docs_ok] of a concrete list. *)
Fixpoint docs_ok_from (low : Z) (ds : list Z) : bool :=
  match ds with
  | [] => true
  | d :: ds' => (low <=? d)%Z && (d <? NO_MORE_DOCS)%Z && docs_ok_from (d + 1) ds'
  end.

Lemma docs_ok_from_ok low ds : (0 <= low)%Z -> docs_ok_from low ds = true -> docs_ok ds /\ forall x, x ∈ ds -> (low <= x)%Z.
Proof.
  revert low. induction ds as [|d ds IH]; intros low Hlow; cbn.
  { intros _. split; [apply docs_ok_nil|]. intros x Hx. by apply elem_of_nil in Hx. }
  intros H%andb_true_iff. destruct H as [H1 H2]. destruct (IH (d + 1)%Z ltac:(lia) H2) as [Hok Hge]. split.
  - apply docs_ok_cons. split; [lia|]. split; [|done]. intros x Hx. specialize (Hge x Hx). lia.
  - intros x Hx. apply elem_of_cons in Hx as [->|Hx]; [lia|]. specialize (Hge x Hx). lia.
Qed.

Lemma docs_ok_compute ds : docs_ok_from 0 ds = true -> docs_ok ds.
Proof. intros H. by apply (docs_ok_from_ok 0 ds). Qed.

Lemma reads_list ds : docs_ok_from 0 ds = true -> @reads _ _ list_reader_spec ds ds.
Proof. intros H. split; [done|]. by apply docs_ok_compute. Qed.
