(* ===== verification/DocData.v ===== *)
(** Document records (IndexContext.rs: EncodeDocData and the lookups of an entry
    and of a path; IndexSerializer.rs: DecodeDocData), with the proof that what
    the encoder writes for a document is what the lookups and the decoder read. *)

From Stdlib Require Import Ascii String.
From Stdlib Require Import ZArith Lia ZifyBool Bool List.
From Stdlib Require Import Floats.SpecFloat.
From stdpp Require Import base list list_numbers gmap.
From S2P Require Import Prelude Floats PostingStore FileFormat PathSidecar IndexReader.

Local Open Scope moon_scope.

Definition DOC_VECTOR_OFFSET : nat := 64.

(** [f32::from_le_bytes]. *)
Definition f32_from_bits (b : Z) : f32 :=
  let s := Z.testbit b 31 in
  let e := (Z.shiftr b 23 mod 256)%Z in
  let m := (b mod 2 ^ 23)%Z in
  if (e =? 255)%Z then (if (m =? 0)%Z then S754_infinity s else S754_nan)
  else
    let m := if (e =? 0)%Z then m else (m + 2 ^ 23)%Z in
    binary_normalize 24 128 (if s then - m else m) (Z.max e 1 - 150) s.

(** * Ranking fields *)

Section ranking.
Context `{Libm}.
Implicit Types st : DocStats.

Definition one : f32 := f_of_Z F32 1.
Definition zero : f32 := f_of_Z F32 0.
Definition doc_length st : f32 := f_of_Z F32 (Z.max (doc_len st) 1).
Definition diversity st : f32 := f_min (f_div F32 (f_of_Z F32 (unique_terms st)) (doc_length st)) one.
Definition log_length st : f32 := log2_f32 (doc_length st).
Definition length_quality st : f32 :=
  f_max (f_sub F32 one (f_div F32 (f_abs (f_sub F32 (log_length st) (f_of_Z F32 6))) (f_of_Z F32 4))) zero.
Definition quality_score st : f32 :=
  f_add F32 (f_mul F32 (f_lit F32 6 10) (length_quality st)) (f_mul F32 (f_lit F32 4 10) (diversity st)).
Definition authority_score st : f32 :=
  if (0 <? title_len st)%Z then
    f_min (f_div F32 (log2_f32 (f_add F32 one (f_of_Z F32 (title_len st)))) (f_of_Z F32 5)) one
  else zero.
Definition spam_score st : f32 :=
  let repetition_penalty := f_div F32 (f_max (f_sub F32 (f_lit F32 35 100) (diversity st)) zero) (f_lit F32 35 100) in
  let overlong_penalty := f_max (f_div F32 (f_sub F32 (log_length st) (f_of_Z F32 10)) (f_of_Z F32 4)) zero in
  f_min (f_add F32 repetition_penalty overlong_penalty) one.
End ranking.

(** * EncodeDocData *)

(** The iteration order of the map of documents. *)
Class DocOrder := {
  doc_order : gmap Z DocStats -> list (Z * DocStats);
  doc_order_perm : forall m, doc_order m ≡ₚ map_to_list m;
}.

Definition doc_ids (store : PostingStore) : list Z := map fst (map_to_list (m_DocStats store)).

(** [keys().copied().min()] and [max()]. *)
Definition list_min (l : list Z) : option Z := match l with [] => None | x :: l' => Some (fold_left Z.min l' x) end.
Definition list_max (l : list Z) : option Z := match l with [] => None | x :: l' => Some (fold_left Z.max l' x) end.

Definition StoreFirstDocId (store : PostingStore) : Z := default 0%Z (list_min (doc_ids store)).

Definition StoreDocDataRecordCount (store : PostingStore) : Z :=
  match list_min (doc_ids store) with
  | None => 0%Z
  | Some min_doc_id => (default min_doc_id (list_max (doc_ids store)) - min_doc_id + 1)%Z
  end.

(** The fields of one document, in the order they are written. *)
Definition doc_fields `{Libm} (store : PostingStore) (docId : Z) (st : DocStats) : list (nat * bytes) :=
  [(0, le_bytes 4 (wrap 32 docId));
   (4, le_bytes 2 (DocDataEncodeScore (importance st)));
   (6, le_bytes 2 (DocDataEncodeScore (quality_score st)));
   (14, le_bytes 2 (DocDataEncodeScore (authority_score st)));
   (16, le_bytes 2 (DocDataEncodeScore (spam_score st)));
   (26, le_bytes 4 (title_len st)); (30, le_bytes 4 (body_len st)); (34, le_bytes 4 (url_len st));
   (38, le_bytes 4 (anchor_len st)); (42, le_bytes 4 (meta_len st));
   (46, le_bytes 4 (f32_to_bits (diversity st))); (50, le_bytes 4 (f32_to_bits (length_quality st)))] ++
  match GetDocVector store docId with
  | Some vector =>
      [(54, le_bytes 2 (Z.of_nat DOC_VECTOR_DIM)); (56, le_bytes 2 1);
       (DOC_VECTOR_OFFSET, map (fun i => wrap 8 (nth i vector 0%Z)) (seq 0 DOC_VECTOR_DIM))]
  | None => []
  end.

(** [out[offset..].copy_from_slice(..)] for each of them. *)
Fixpoint write_fields (fields : list (nat * bytes)) (record : bytes) : bytes :=
  match fields with
  | [] => record
  | (offset, field) :: fields' => write_fields fields' (splice offset field record)
  end.

(** The body of the loop over the documents: all writes go to the document's own record. *)
Definition encode_doc `{Libm} (store : PostingStore) (firstDocId : Z) (acc : bytes * PathPrefixes)
    (doc : Z * DocStats) : bytes * PathPrefixes :=
  let '(out, t) := acc in
  let '(docId, stats) := doc in
  let offset := Z.to_nat (docId - firstDocId) * DOC_REC_SIZE in
  let record := slice offset DOC_REC_SIZE out in
  let record := write_fields (doc_fields store docId stats) record in
  let '(record, t) := encode_doc_path record (path stats) t in
  (splice offset record out, t).

(** [None]: the sidecar encoder panics. *)
Definition EncodeDocData `{Libm} `{DocOrder} (store : PostingStore) : option (bytes * bytes * list str) :=
  let firstDocId := StoreFirstDocId store in
  let documentCount := Z.to_nat (StoreDocDataRecordCount store) in
  let out := zeros (documentCount * DOC_REC_SIZE) in
  let out := fold_left (fun out slot => put 4 (slot * DOC_REC_SIZE) u32_max out) (seq 0 documentCount) out in
  let '(out, t) := fold_left (encode_doc store firstDocId) (doc_order (m_DocStats store)) (out, no_prefixes) in
  opt sidecar := EncodePathPrefixSidecar (prefixes t) in
  Some (out, sidecar, prefixes t).

(** * Reading records *)

Definition DocDataFirstDocId (docdata : bytes) (header : IndexFileHeader) : Z :=
  if (0 <? IFH_NumDocuments header)%Z && (DOC_REC_SIZE <=? length docdata) then get 4 0 docdata else 0%Z.

(** A record seen as the packed structure. *)
Definition doc_entry (record : bytes) : DocDataEntry :=
  {| DDE_DocID := get 4 0 record; DDE_StaticRank := get 2 4 record; DDE_QualityScore := get 2 6 record;
     DDE_FreshnessScore := get 2 8 record; DDE_ClickScore := get 2 10 record;
     DDE_EngagementScore := get 2 12 record; DDE_AuthorityScore := get 2 14 record;
     DDE_SpamScore := get 2 16 record; DDE_PathLength := get 2 18 record; DDE_Language := get 2 20 record;
     DDE_Locale := get 2 22 record; DDE_ContentType := get 2 24 record; DDE_TitleLength := get 4 26 record;
     DDE_BodyLength := get 4 30 record; DDE_UrlLength := get 4 34 record; DDE_AnchorLength := get 4 38 record;
     DDE_MetaLength := get 4 42 record; DDE_DiversityScore := f32_from_bits (get 4 46 record);
     DDE_LengthQualityScore := f32_from_bits (get 4 50 record); DDE_VectorDim := get 2 54 record;
     DDE_VectorFormat := get 2 56 record;
     DDE_VectorData := map (to_signed 8) (slice DOC_VECTOR_OFFSET DOC_VECTOR_DIM record);
     DDE_Path := slice DOC_PATH_OFFSET DOC_PATH_MAX record |}.

(** The record of a document in one index. *)
Definition doc_record (docdata : bytes) (header : IndexFileHeader) (docId : Z) : option bytes :=
  let firstDocId := DocDataFirstDocId docdata header in
  if (firstDocId <=? docId)%Z then
    let offset := Z.to_nat (docId - firstDocId) * DOC_REC_SIZE in
    if (offset + DOC_REC_SIZE <=? length docdata) && (get 4 offset docdata =? docId)%Z
    then Some (slice offset DOC_REC_SIZE docdata)
    else None
  else None.

(** SearchRuntime::GetDocDataEntry, [delta] being the lookup of the delta runtime, if there is one. *)
Definition GetDocDataEntry (docdata : bytes) (header : IndexFileHeader)
    (delta : option (Z -> option DocDataEntry)) (docId : Z) : option DocDataEntry :=
  let docId := ReaderDocumentIDValue docId in
  match doc_record docdata header docId with
  | Some record => Some (doc_entry record)
  | None => match delta with Some lookup => lookup docId | None => None end
  end.

(** IndexContext::GetDocPath. *)
Definition index_GetDocPath (docdata : bytes) (header : IndexFileHeader) (path_prefixes : list str)
    (delta : option (Z -> str)) (doc_id : Z) : str :=
  let docId := ReaderDocumentIDValue doc_id in
  let missing := match delta with Some lookup => lookup docId | None => [] end in
  match doc_record docdata header docId with
  | Some record =>
      let path_len := get 2 18 record in
      if (0 <? path_len)%Z && (path_len <=? Z.of_nat DOC_PATH_MAX)%Z
      then DecodeDocPath (slice DOC_PATH_OFFSET (Z.to_nat path_len) record) path_prefixes
      else missing
  | None => missing
  end.

(** * DecodeDocData *)

Definition DecodeDocDataRecord (store : PostingStore) (index : Z) (record : bytes) : PostingStore :=
  let doc_id := get 4 0 record in
  if negb (doc_id =? index)%Z then store
  else
    let importance := DocDataDecodeScore (get 2 4 record) in
    let vector_dim := get 2 54 record in
    let vector_format := get 2 56 record in
    let store := SetDocLengths store doc_id (get 4 26 record) (get 4 30 record) (get 4 34 record) (get 4 38 record)
                   (get 4 42 record) in
    let store := SetDocImportance store doc_id importance in
    if (vector_dim =? Z.of_nat DOC_VECTOR_DIM)%Z && negb (vector_format =? 0)%Z
    then (SetDocVectorBytes store doc_id (slice DOC_VECTOR_OFFSET DOC_VECTOR_DIM record)).1
    else store.

Definition DecodeDocData (store : PostingStore) (header : IndexFileHeader) (docdata : bytes) : result PostingStore :=
  if negb (Z.of_nat (length docdata) =? IFH_NumDocuments header * Z.of_nat DOC_REC_SIZE)%Z then Err InvalidFormat
  else
    let first_doc_id := DocDataFirstDocId docdata header in
    Ok (fold_left (fun store index =>
          DecodeDocDataRecord store (first_doc_id + Z.of_nat index)
            (slice (index * DOC_REC_SIZE) DOC_REC_SIZE docdata))
        (seq 0 (Z.to_nat (IFH_NumDocuments header))) store).

(** * AppendMergedDocData: the records of one source, their paths interned anew *)

Definition merge_record (first_doc_id : Z) (source_prefixes : list str) (acc : bytes * PathPrefixes)
    (slot : nat) (record : bytes) : result (bytes * PathPrefixes) :=
  let '(output, t) := acc in
  if (get 4 0 record =? first_doc_id + Z.of_nat slot)%Z then
    let path_len := get 2 18 record in
    if (Z.of_nat DOC_PATH_MAX <? path_len)%Z then Err InvalidFormat
    else
      let full_path := DecodeDocPath (slice DOC_PATH_OFFSET (Z.to_nat path_len) record) source_prefixes in
      let '(record, t) := encode_doc_path record full_path t in
      Ok (output ++ record, t)
  else Ok (output ++ record, t).

Fixpoint merge_records (first_doc_id : Z) (source_prefixes : list str) (source : bytes) (slots : list nat)
    (acc : bytes * PathPrefixes) : result (bytes * PathPrefixes) :=
  match slots with
  | [] => Ok acc
  | slot :: slots' =>
      let? acc := merge_record first_doc_id source_prefixes acc slot (slice (slot * DOC_REC_SIZE) DOC_REC_SIZE source) in
      merge_records first_doc_id source_prefixes source slots' acc
  end.

Definition AppendMergedDocData (output : bytes) (source : bytes) (header : IndexFileHeader)
    (source_prefixes : list str) (t : PathPrefixes) : result (bytes * PathPrefixes) :=
  let record_count := IFH_NumDocuments header in
  let? source_bytes := ok_or (checked_mul 64 record_count (Z.of_nat DOC_REC_SIZE)) InvalidFormat in
  if (Z.of_nat (length source) <? source_bytes)%Z then Err InvalidFormat
  else
    let first_doc_id := DocDataFirstDocId source header in
    merge_records first_doc_id source_prefixes source (seq 0 (Z.to_nat record_count)) (output, t).

(** * Fields and records of a buffer *)

Section buffers.
Implicit Types fields : list (nat * bytes).
Implicit Types record out : bytes.

(** Fields in the order of their offsets, apart from each other, between [start] and [limit]. *)
Fixpoint ascending (start : nat) fields (limit : nat) : Prop :=
  match fields with
  | [] => start <= limit
  | (offset, field) :: fields' => start <= offset /\ ascending (offset + length field) fields' limit
  end.

Lemma ascending_start start fields limit : ascending start fields limit -> start <= limit.
Proof. revert start. induction fields as [|[o f] fields IH]; intros start; cbn; [done|]. intros [H1 H2%IH]. lia. Qed.

Lemma ascending_elem start fields limit o f :
  ascending start fields limit -> (o, f) ∈ fields -> start <= o /\ o + length f <= limit.
Proof.
  revert start. induction fields as [|[o' f'] fields IH]; intros start; cbn; [by intros _ ?%elem_of_nil|].
  intros [H1 H2] [[= -> ->]|Hin]%elem_of_cons.
  - apply ascending_start in H2. lia.
  - destruct (IH _ H2 Hin). lia.
Qed.

Lemma write_fields_ok fields : forall start record,
  ascending start fields (length record) ->
  length (write_fields fields record) = length record /\
  (forall o f, (o, f) ∈ fields -> slice o (length f) (write_fields fields record) = f) /\
  (forall o n, (forall o' f, (o', f) ∈ fields -> o + n <= o' \/ o' + length f <= o) ->
     slice o n (write_fields fields record) = slice o n record).
Proof.
  induction fields as [|[o f] fields IH]; intros start record Hasc; cbn [write_fields].
  { split; [done|]. split; [|done]. by intros o f ?%elem_of_nil. }
  cbn [ascending] in Hasc. destruct Hasc as [Hs Hasc]. pose proof (ascending_start _ _ _ Hasc) as Hfit.
  assert (Hl : length (splice o f record) = length record) by (apply length_splice; lia).
  destruct (IH (o + length f) (splice o f record)) as (H1 & H2 & H3); [by rewrite Hl|].
  split; [by rewrite H1|]. split.
  - intros o' f' [[= -> ->]|Hin]%elem_of_cons; [|by apply H2].
    rewrite H3; [apply slice_splice_same; lia|]. intros o' f' Hin.
    destruct (ascending_elem _ _ _ _ _ Hasc Hin). lia.
  - intros o' n Hdis. rewrite H3.
    + destruct (Hdis o f (list_elem_of_here _ _)); [apply slice_splice_before|apply slice_splice_after]; lia.
    + intros o2 f2 Hin. apply Hdis. by apply list_elem_of_further.
Qed.

(** Record [i] of a buffer of records. *)
Definition record_at (i : nat) out : bytes := slice (i * DOC_REC_SIZE) DOC_REC_SIZE out.

Lemma record_at_splice i j record out :
  length record = DOC_REC_SIZE -> i * DOC_REC_SIZE + DOC_REC_SIZE <= length out ->
  record_at j (splice (i * DOC_REC_SIZE) record out) = if decide (i = j) then record else record_at j out.
Proof.
  intros Hr Hi. unfold record_at, DOC_REC_SIZE in *. case_decide as E.
  - subst. apply slice_written; [done|lia].
  - destruct (decide (j < i)); [apply slice_splice_before; lia|apply slice_splice_after; lia].
Qed.

Lemma length_record_at i out : i * DOC_REC_SIZE + DOC_REC_SIZE <= length out -> length (record_at i out) = DOC_REC_SIZE.
Proof. apply length_slice. Qed.

(** A write inside one record. *)
Lemma splice_inside i o field out :
  o + length field <= DOC_REC_SIZE -> i * DOC_REC_SIZE + DOC_REC_SIZE <= length out ->
  splice (i * DOC_REC_SIZE + o) field out
    = splice (i * DOC_REC_SIZE) (splice o field (record_at i out)) out.
Proof.
  intros Ho Hi. assert (Hr : length (record_at i out) = DOC_REC_SIZE) by by apply length_record_at.
  apply list_eq. intros k. set (b := i * DOC_REC_SIZE) in *.
  assert (Hs : length (splice o field (record_at i out)) = DOC_REC_SIZE) by (rewrite length_splice; lia).
  destruct (decide (k < b)); [by rewrite !lookup_splice_lt by lia|].
  destruct (decide (b + DOC_REC_SIZE <= k)); [by rewrite !lookup_splice_ge by lia|].
  rewrite (lookup_splice_in b) by lia.
  destruct (decide (k < b + o)).
  { rewrite !lookup_splice_lt by lia. unfold record_at. rewrite lookup_slice by lia. f_equal. lia. }
  destruct (decide (b + o + length field <= k)).
  { rewrite !lookup_splice_ge by lia. unfold record_at. rewrite lookup_slice by lia. f_equal. lia. }
  rewrite !lookup_splice_in by lia. f_equal. lia.
Qed.
End buffers.

(** * Document ids of a store *)

Section ids.
Implicit Types l : list Z.

Lemma fold_left_min l x : (fold_left Z.min l x <= x)%Z /\ Forall (fun y => fold_left Z.min l x <= y)%Z l /\
  (fold_left Z.min l x = x \/ fold_left Z.min l x ∈ l).
Proof.
  revert x. induction l as [|y l IH]; intros x; cbn [fold_left]; [split_and!; [lia|done|by left]|].
  destruct (IH (Z.min x y)) as (H1 & H2 & H3). split; [lia|]. split; [constructor; [lia|done]|].
  destruct H3 as [->|H3]; [|right; by apply list_elem_of_further].
  destruct (Z.min_spec x y) as [[_ ->]|[_ ->]]; [by left|right; apply list_elem_of_here].
Qed.

Lemma fold_left_max l x : (x <= fold_left Z.max l x)%Z /\ Forall (fun y => y <= fold_left Z.max l x)%Z l /\
  (fold_left Z.max l x = x \/ fold_left Z.max l x ∈ l).
Proof.
  revert x. induction l as [|y l IH]; intros x; cbn [fold_left]; [split_and!; [lia|done|by left]|].
  destruct (IH (Z.max x y)) as (H1 & H2 & H3). split; [lia|]. split; [constructor; [lia|done]|].
  destruct H3 as [->|H3]; [|right; by apply list_elem_of_further].
  destruct (Z.max_spec x y) as [[_ ->]|[_ ->]]; [right; apply list_elem_of_here|by left].
Qed.

(** The slots of the records: every document has one, and the first one's is slot 0. *)
Lemma store_slots store :
  let first := StoreFirstDocId store in let count := StoreDocDataRecordCount store in
  (forall d, is_Some (m_DocStats store !! d) -> (first <= d < first + count)%Z) /\
  (0 <= count)%Z /\ (m_DocStats store <> ∅ -> is_Some (m_DocStats store !! first)) /\ (m_DocStats store = ∅ -> count = 0%Z).
Proof.
  cbv zeta. unfold StoreFirstDocId, StoreDocDataRecordCount.
  assert (Hin : forall d, is_Some (m_DocStats store !! d) <-> d ∈ doc_ids store).
  { intros d. unfold doc_ids. rewrite list_elem_of_fmap. split.
    - intros [st Hst]. exists (d, st). split; [done|]. by apply elem_of_map_to_list.
    - intros ([d' st] & -> & Hst). apply elem_of_map_to_list in Hst. by exists st. }
  assert (Hempty : m_DocStats store = ∅ <-> doc_ids store = []).
  { unfold doc_ids. split; [intros ->; by rewrite map_to_list_empty|].
    intros Hn. apply map_eq_nil in Hn. by apply map_to_list_empty_iff. }
  destruct (doc_ids store) as [|x l]; cbn [list_min list_max default].
  - split; [intros d Hd; by apply Hin, elem_of_nil in Hd|]. split; [done|]. split; [|done]. intros Hne. by destruct Hne; apply Hempty.
  - destruct (fold_left_min l x) as (H1 & H2 & H3), (fold_left_max l x) as (H4 & H5 & H6). cbn [from_option id].
    rewrite Forall_forall in H2, H5. split; [|split; [lia|split]].
    + intros d [->|Hd]%Hin%elem_of_cons; [lia|]. specialize (H2 d Hd). specialize (H5 d Hd). lia.
    + intros _. apply Hin. destruct H3 as [->|H3]; [apply list_elem_of_here|by apply list_elem_of_further].
    + by intros ?%Hempty.
Qed.

(** The last slot is a document's. *)
Lemma store_last store : m_DocStats store <> ∅ ->
  exists d st, m_DocStats store !! d = Some st /\ (StoreFirstDocId store + StoreDocDataRecordCount store <= d + 1)%Z.
Proof.
  intros Hne. unfold StoreDocDataRecordCount, StoreFirstDocId, doc_ids.
  destruct (map_to_list (m_DocStats store)) as [|[x stx] l] eqn:El; [by apply map_to_list_empty_iff in El|].
  cbn [map fst list_min list_max default from_option id].
  assert (Hmx : fold_left Z.max (map fst l) x ∈ map fst (map_to_list (m_DocStats store))).
  { rewrite El. cbn [map fst]. destruct (fold_left_max (map fst l) x) as (_ & _ & [->|Hmx]); [apply list_elem_of_here|by apply list_elem_of_further]. }
  apply list_elem_of_fmap in Hmx as ([d st] & Hmx & Hin). apply elem_of_map_to_list in Hin.
  exists d, st. split; [done|]. cbn in Hmx. rewrite Hmx. lia.
Qed.
End ids.

(** * What EncodeDocData writes *)

(** Documents the record format can hold. *)
Definition doc_wf (d : Z) (st : DocStats) : Prop :=
  (0 <= d < u32_max)%Z /\ in_u 32 (title_len st) /\ in_u 32 (body_len st) /\ in_u 32 (url_len st) /\
  in_u 32 (anchor_len st) /\ in_u 32 (meta_len st) /\
  is_utf8 (path st) = true /\ short_prefix (split_path_for_sidecar (path st)).1.

Definition vector_wf (v : list Z) : Prop := length v = DOC_VECTOR_DIM /\ Forall (fun x => -128 <= x < 128)%Z v.

Definition docs_wf (store : PostingStore) : Prop :=
  map_Forall doc_wf (m_DocStats store) /\ map_Forall (fun _ v => vector_wf v) (m_DocVectors store).

Section encode.
Context `{Libm}.
Context (store : PostingStore) (Hstore : docs_wf store).
Implicit Types t : PathPrefixes.

(** A record that holds a document, its path relative to the tables that grow from [t]. *)
Definition holds_doc t (d : Z) (st : DocStats) (record : bytes) : Prop :=
  length record = DOC_REC_SIZE /\
  (forall o f, (o, f) ∈ doc_fields store d st -> slice o (length f) record = f) /\
  (GetDocVector store d = None -> slice 54 2 record = [0; 0]%Z) /\
  (Z.of_nat (length (doc_payload record)) = get 2 18 record /\ length (doc_payload record) <= DOC_PATH_MAX) /\
  (path st = [] -> doc_payload record = []) /\
  (forall t2, grows t t2 -> path_wf (DecodeDocPath (doc_payload record) (prefixes t2))) /\
  (forall t2, grows t t2 -> path_kept (path st) (prefixes t2) -> DecodeDocPath (doc_payload record) (prefixes t2) = path st).

Lemma holds_doc_grows t t' d st record : grows t t' -> holds_doc t d st record -> holds_doc t' d st record.
Proof.
  intros Hg (H1 & H2 & H3 & H4 & H5 & H6 & H7). do 5 (split; [done|]). split; intros t2 Ht2; [apply H6|apply H7]; by etrans.
Qed.

(** A record no document has been written to. *)
Definition blank_record : bytes := le_bytes 4 u32_max ++ zeros (DOC_REC_SIZE - 4).

Lemma doc_fields_ascending d st (record : bytes) :
  length record = DOC_REC_SIZE -> ascending 0 (doc_fields store d st) (length record).
Proof.
  intros ->. unfold doc_fields. destruct (GetDocVector store d); cbn; rewrite ?length_map, ?length_seq; unfold DOC_VECTOR_OFFSET, DOC_VECTOR_DIM, DOC_REC_SIZE; lia.
Qed.

Lemma doc_fields_apart d st o f : (o, f) ∈ doc_fields store d st -> o + length f <= 18 \/ 20 <= o /\ o + length f <= DOC_PATH_OFFSET.
Proof.
  assert (Hall : Forall (fun p => p.1 + length p.2 <= 18 \/ 20 <= p.1 /\ p.1 + length p.2 <= DOC_PATH_OFFSET) (doc_fields store d st)).
  { unfold doc_fields, DOC_PATH_OFFSET, DOC_VECTOR_OFFSET. apply Forall_app. split; [repeat (apply Forall_cons; split; [cbn; lia|]); constructor|].
    destruct (GetDocVector store d); [|constructor].
    apply Forall_cons; split; [cbn; lia|]. apply Forall_cons; split; [cbn; lia|]. apply Forall_cons; split; [|constructor].
    cbn [fst snd]. rewrite length_map, length_seq. unfold DOC_VECTOR_DIM. lia. }
  intros Hin. rewrite Forall_forall in Hall. exact (Hall _ Hin).
Qed.

Lemma doc_payload_length record p t :
  length record = DOC_REC_SIZE -> prefixes_ok t -> short_prefix (split_path_for_sidecar p).1 -> is_utf8 p = true ->
  let record' := (encode_doc_path record p t).1 in
  (Z.of_nat (length (doc_payload record')) = get 2 18 record' /\ length (doc_payload record') <= DOC_PATH_MAX) /\
  (p = [] -> doc_payload record' = []) /\ (p <> [] -> doc_payload record' <> []).
Proof.
  intros Hlen Hok Hshort Hu. pose proof (encode_doc_path_bytes record p t Hlen) as Hb.
  destruct (encode_doc_path record p t) as [record' t']. cbn [fst]. destruct Hb as (Hl & _ & Hb).
  assert (Hpay : Z.to_nat (get 2 18 record') <= DOC_PATH_MAX -> length (doc_payload record') = Z.to_nat (get 2 18 record')).
  { intros Hle. apply length_slice. unfold DOC_PATH_OFFSET, DOC_PATH_MAX, DOC_REC_SIZE in *. lia. }
  destruct (length p =? 0) eqn:E0.
  - destruct Hb as (-> & -> & _). apply Nat.eqb_eq, nil_length_inv in E0. subst. split; [|done]. cbn. unfold DOC_PATH_MAX. lia.
  - destruct (split_path_for_sidecar p) as [prefix filename]. destruct (intern_path_prefix prefix t) as [id t2].
    destruct Hb as (_ & Hget & _). rewrite Hget in *. rewrite Nat2Z.id in Hpay.
    assert (Hle : 2 + length (take DOC_PATH_FILENAME_MAX filename) <= DOC_PATH_MAX).
    { rewrite length_take. unfold DOC_PATH_FILENAME_MAX, DOC_PATH_MAX, DOC_PATH_PREFIX_ID_BYTES. lia. }
    specialize (Hpay Hle). split; [lia|]. split; [by intros ->|]. intros _ Hn. by rewrite Hn in Hpay.
Qed.
(** Everything about the path of a record after encoding it. *)
Lemma encode_doc_path_spec record p t :
  length record = DOC_REC_SIZE -> prefixes_ok t -> path_wf p ->
  let '(record', t') := encode_doc_path record p t in
  length record' = DOC_REC_SIZE /\ prefixes_ok t' /\ grows t t' /\
  (forall off n, off + n <= 18 \/ 20 <= off /\ off + n <= DOC_PATH_OFFSET -> slice off n record' = slice off n record) /\
  (Z.of_nat (length (doc_payload record')) = get 2 18 record' /\ length (doc_payload record') <= DOC_PATH_MAX) /\
  (p = [] -> doc_payload record' = []) /\
  (forall t2, grows t' t2 -> path_wf (DecodeDocPath (doc_payload record') (prefixes t2))) /\
  (forall t2, grows t' t2 -> path_kept p (prefixes t2) -> DecodeDocPath (doc_payload record') (prefixes t2) = p).
Proof.
  intros Hlen Hok Hp. pose proof (encode_doc_path_bytes record p t Hlen) as Hb. pose proof Hp as [Hu Hshort].
  pose proof (encode_doc_path_ok record p t Hlen Hok Hu Hshort) as Hk. pose proof (encode_doc_path_visible record p t Hlen Hok Hp) as Hv.
  pose proof (doc_payload_length record p t Hlen Hok Hshort Hu) as Hl.
  destruct (encode_doc_path record p t) as [record' t']. destruct Hb as (Hb1 & Hb2 & _), Hk as (Hk1 & Hk2 & Hk3), Hl as (Hl1 & Hl2 & _). done.
Qed.

(** One document. *)
Lemma encode_doc_ok first out t d st :
  prefixes_ok t -> m_DocStats store !! d = Some st -> (first <= d)%Z ->
  Z.to_nat (d - first) * DOC_REC_SIZE + DOC_REC_SIZE <= length out ->
  record_at (Z.to_nat (d - first)) out = blank_record ->
  let '(out', t') := encode_doc store first (out, t) (d, st) in
  length out' = length out /\ prefixes_ok t' /\ grows t t' /\
  holds_doc t' d st (record_at (Z.to_nat (d - first)) out') /\
  forall j, j <> Z.to_nat (d - first) -> record_at j out' = record_at j out.
Proof.
  intros Hok Hd Hfirst Hfit Hblank. unfold encode_doc. fold (record_at (Z.to_nat (d - first)) out). rewrite Hblank.
  set (i := Z.to_nat (d - first)) in *. destruct (proj1 Hstore d st Hd) as (_ & _ & _ & _ & _ & _ & Hu & Hshort).
  assert (Lb : length blank_record = DOC_REC_SIZE) by reflexivity.
  destruct (write_fields_ok _ 0 blank_record (doc_fields_ascending d st _ Lb)) as (L1 & F1 & O1).
  set (r1 := write_fields (doc_fields store d st) blank_record) in *. rewrite Lb in L1.
  pose proof (encode_doc_path_spec r1 (path st) t L1 Hok (conj Hu Hshort)) as Hp.
  destruct (encode_doc_path r1 (path st) t) as [r2 t']. destruct Hp as (L2 & Hok' & Hgr & F2 & Hpath).
  split; [rewrite length_splice; lia|]. split; [done|]. split; [done|]. split.
  - rewrite record_at_splice, decide_True by (done || lia). split; [done|]. split; [|split].
    + intros o f Hin. rewrite F2 by by eapply doc_fields_apart. by apply F1.
    + intros Hv. rewrite F2 by (unfold DOC_PATH_OFFSET; lia). rewrite O1; [reflexivity|].
      assert (Hall : Forall (fun p => 54 + 2 <= p.1 \/ p.1 + length p.2 <= 54) (doc_fields store d st)).
      { unfold doc_fields. rewrite Hv, app_nil_r. repeat (apply Forall_cons; split; [cbn; lia|]). constructor. }
      intros o f Hin. rewrite Forall_forall in Hall. exact (Hall _ Hin).
    + exact Hpath.
  - intros j Hj. rewrite record_at_splice, decide_False by (done || lia). done.
Qed.

(** The buffer and the table after the documents [done]. *)
Definition encode_inv (first : Z) (count : nat) (done : list (Z * DocStats)) (acc : bytes * PathPrefixes) : Prop :=
  length acc.1 = count * DOC_REC_SIZE /\ prefixes_ok acc.2 /\
  (forall d st, (d, st) ∈ done -> holds_doc acc.2 d st (record_at (Z.to_nat (d - first)) acc.1)) /\
  forall j, j < count -> (forall d st, (d, st) ∈ done -> Z.to_nat (d - first) <> j) -> record_at j acc.1 = blank_record.

Lemma encode_docs_ok first count docs : forall done acc,
  encode_inv first count done acc -> NoDup (map fst (done ++ docs)) ->
  (forall d st, (d, st) ∈ done ++ docs -> m_DocStats store !! d = Some st /\ (first <= d < first + Z.of_nat count)%Z) ->
  encode_inv first count (done ++ docs) (fold_left (encode_doc store first) docs acc).
Proof.
  induction docs as [|[d st] docs IH]; intros done acc Hinv Hnd Hdocs; cbn [fold_left]; [by rewrite app_nil_r|].
  destruct Hinv as (Hlen & Hok & Hdone & Hfree). destruct acc as [out t]. cbn [fst snd] in *.
  destruct (Hdocs d st) as [Hd Hrange]; [apply elem_of_app; right; apply list_elem_of_here|].
  assert (Hslot : forall d' st', (d', st') ∈ done -> Z.to_nat (d' - first) <> Z.to_nat (d - first)).
  { intros d' st' Hin Heq. destruct (Hdocs d' st') as [_ Hr']; [apply elem_of_app; by left|].
    assert (d' = d) as -> by lia. rewrite map_app in Hnd. apply NoDup_app in Hnd as (_ & Hnd & _).
    apply (Hnd d); [|apply list_elem_of_here]. by apply (list_elem_of_fmap_2 fst done (d, st')). }
  assert (Hfit : Z.to_nat (d - first) * DOC_REC_SIZE + DOC_REC_SIZE <= length out) by (rewrite Hlen; unfold DOC_REC_SIZE; lia).
  pose proof (encode_doc_ok first out t d st Hok Hd ltac:(lia) Hfit (Hfree (Z.to_nat (d - first)) ltac:(lia) Hslot)) as Hstep.
  destruct (encode_doc store first (out, t) (d, st)) as [out' t'] eqn:Estep.
  destruct Hstep as (Hlen' & Hok' & Hgr & Hrec & Hother).
  replace (done ++ (d, st) :: docs) with ((done ++ [(d, st)]) ++ docs) in * by by rewrite <- app_assoc.
  apply IH; [|done|done]. split; [cbn; lia|]. split; [done|]. split; cbn [fst snd].
  - intros d' st' Hin. apply elem_of_app in Hin as [Hin|Hin].
    + rewrite Hother by by eapply Hslot. eapply holds_doc_grows; [exact Hgr|]. by apply Hdone.
    + apply list_elem_of_singleton in Hin. by injection Hin as -> ->.
  - intros j Hj Hno. rewrite Hother.
    + apply Hfree; [done|]. intros d' st' Hin. apply (Hno d' st'). apply elem_of_app. by left.
    + intros ->. apply (Hno d st); [|done]. apply elem_of_app. right. apply list_elem_of_here.
Qed.

Lemma blank_slots count : forall k, k <= count ->
  let out := fold_left (fun out slot => put 4 (slot * DOC_REC_SIZE) u32_max out) (seq 0 k) (zeros (count * DOC_REC_SIZE)) in
  length out = count * DOC_REC_SIZE /\
  forall j, j < count -> record_at j out = if decide (j < k) then blank_record else zeros DOC_REC_SIZE.
Proof.
  induction k as [|k IH]; intros Hk; cbv zeta.
  { split; [apply length_replicate|]. intros j Hj. rewrite decide_False by lia. cbn [seq fold_left].
    unfold record_at, slice, zeros, DOC_REC_SIZE. rewrite drop_replicate, take_replicate. f_equal. lia. }
  rewrite seq_S, fold_left_app. cbn [fold_left Nat.add]. destruct (IH ltac:(lia)) as [Hl Hr].
  set (out := fold_left _ (seq 0 k) _) in *.
  assert (Hfit : k * DOC_REC_SIZE + DOC_REC_SIZE <= length out) by (rewrite Hl; unfold DOC_REC_SIZE; lia).
  assert (Hput : put 4 (k * DOC_REC_SIZE) u32_max out = splice (k * DOC_REC_SIZE) blank_record out).
  { unfold put. rewrite <- (Nat.add_0_r (k * DOC_REC_SIZE)) at 1. rewrite splice_inside by (rewrite ?length_le_bytes; unfold DOC_REC_SIZE in *; lia).
    rewrite Hr, decide_False by lia. done. }
  rewrite Hput. split; [rewrite length_splice; [done|]; change (length blank_record) with DOC_REC_SIZE; lia|].
  intros j Hj. rewrite record_at_splice by done. destruct (decide (k = j)) as [->|Hne].
  - by rewrite decide_True by lia.
  - rewrite Hr by done. destruct (decide (j < k)), (decide (j < S k)); done || lia.
Qed.
Lemma EncodeDocData_ok `{DocOrder} :
  exists out sidecar t, EncodeDocData store = Some (out, sidecar, prefixes t) /\ prefixes_ok t /\
    length sidecar = PATH_PREFIX_SIDECAR_BYTES /\ DecodePathPrefixSidecar sidecar = Ok (prefixes t) /\
    length out = Z.to_nat (StoreDocDataRecordCount store) * DOC_REC_SIZE /\
    (forall d st, m_DocStats store !! d = Some st -> holds_doc t d st (record_at (Z.to_nat (d - StoreFirstDocId store)) out)) /\
    (forall d, (StoreFirstDocId store <= d < StoreFirstDocId store + StoreDocDataRecordCount store)%Z ->
       m_DocStats store !! d = None -> record_at (Z.to_nat (d - StoreFirstDocId store)) out = blank_record).
Proof.
  destruct (store_slots store) as (Hslots & Hcount & _). unfold EncodeDocData.
  set (first := StoreFirstDocId store) in *. set (count := StoreDocDataRecordCount store) in *.
  destruct (blank_slots (Z.to_nat count) (Z.to_nat count) ltac:(lia)) as [Hl Hr].
  set (out0 := fold_left _ (seq 0 _) (zeros _)) in *. clearbody out0.
  assert (Hinv0 : encode_inv first (Z.to_nat count) [] (out0, no_prefixes)).
  { split; [done|]. split; [apply no_prefixes_ok|]. split; [by intros d st ?%elem_of_nil|].
    intros j Hj _. cbn [fst]. rewrite Hr by done. by rewrite decide_True. }
  pose proof (doc_order_perm (m_DocStats store)) as Hperm.
  assert (Hin : forall d st, (d, st) ∈ doc_order (m_DocStats store) <-> m_DocStats store !! d = Some st).
  { intros d st. rewrite Hperm. apply elem_of_map_to_list. }
  pose proof (encode_docs_ok first (Z.to_nat count) (doc_order (m_DocStats store)) [] _ Hinv0) as Hfold.
  destruct (fold_left (encode_doc store first) _ _) as [out t]. cbn [app] in Hfold.
  destruct Hfold as (Hlen & Hok & Hdocs & Hfree).
  { change (map fst) with (fmap (M := list) (@fst Z DocStats)). rewrite Hperm. apply NoDup_fst_map_to_list. }
  { intros d st Hd%Hin. split; [done|]. pose proof (Hslots d (ex_intro _ st Hd)). lia. }
  cbn [fst snd] in *. destruct (sidecar_roundtrip (prefixes t)) as (sc & -> & Hsl & Hdec); [apply Hok|].
  exists out, sc, t. split; [done|]. split; [done|]. split; [done|]. split; [done|]. split; [done|]. split.
  - intros d st Hd. apply Hdocs. by apply Hin.
  - intros d Hrange Hnone. apply Hfree; [lia|]. intros d' st' Hd'%Hin Heq.
    pose proof (Hslots d' (ex_intro _ st' Hd')). assert (d' = d) as -> by lia. congruence.
Qed.
End encode.

(** * Reading the records back *)

Section lookups.
Context `{Libm}.
Context (store : PostingStore) (Hstore : docs_wf store).
Context (out : bytes) (header : IndexFileHeader) (t : PathPrefixes).
Context (Hnum : IFH_NumDocuments header = StoreDocDataRecordCount store).
Context (Hlen : length out = Z.to_nat (StoreDocDataRecordCount store) * DOC_REC_SIZE).
Context (Hdocs : forall d st, m_DocStats store !! d = Some st ->
  holds_doc store t d st (record_at (Z.to_nat (d - StoreFirstDocId store)) out)).
Context (Hblank : forall d, (StoreFirstDocId store <= d < StoreFirstDocId store + StoreDocDataRecordCount store)%Z ->
  m_DocStats store !! d = None -> record_at (Z.to_nat (d - StoreFirstDocId store)) out = blank_record).

Lemma record_field i n off : off + n <= DOC_REC_SIZE -> slice (i * DOC_REC_SIZE + off) n out = slice off n (record_at i out).
Proof. intros Hoff. unfold record_at. by rewrite slice_slice. Qed.

(** A numeric field of a document's record. *)
Lemma doc_field d st record n off v :
  holds_doc store t d st record -> (off, le_bytes n v) ∈ doc_fields store d st -> in_u (8 * Z.of_nat n) v ->
  get n off record = v.
Proof.
  intros (_ & Hf & _) Hin Hv. apply get_slice; [|done]. specialize (Hf _ _ Hin). by rewrite length_le_bytes in Hf.
Qed.

Lemma doc_id_field d st record : m_DocStats store !! d = Some st -> holds_doc store t d st record -> get 4 0 record = d.
Proof.
  intros Hd Hr. destruct (proj1 Hstore d st Hd) as [Hrange _]. unfold u32_max in Hrange.
  assert (Hw : wrap 32 d = d) by (apply wrap_small; unfold in_u; lia). rewrite <- Hw.
  eapply (doc_field d st record 4 0); [done| |rewrite Hw; unfold in_u; lia]. apply list_elem_of_here.
Qed.

Lemma first_doc_id : DocDataFirstDocId out header = StoreFirstDocId store.
Proof.
  destruct (store_slots store) as (Hslots & Hcount & Hfirst & Hempty). unfold DocDataFirstDocId. rewrite Hnum.
  destruct (decide (m_DocStats store = ∅)) as [He|Hne].
  - rewrite (Hempty He). cbn. unfold StoreFirstDocId, doc_ids. by rewrite He, map_to_list_empty.
  - destruct (Hfirst Hne) as [st Hst]. pose proof (Hslots _ (ex_intro _ st Hst)) as Hr.
    rewrite (proj2 (Z.ltb_lt _ _)) by lia. rewrite (proj2 (Nat.leb_le _ _)) by (rewrite Hlen; unfold DOC_REC_SIZE; lia). cbn [andb].
    unfold get. change 0 with (0 * DOC_REC_SIZE + 0) at 1. rewrite record_field by (unfold DOC_REC_SIZE; lia).
    fold (get 4 0 (record_at 0 out)). specialize (Hdocs _ _ Hst). rewrite Z.sub_diag in Hdocs.
    by apply (doc_id_field _ st).
Qed.

Lemma doc_record_spec d :
  (0 <= d)%Z ->
  doc_record out header d =
    match m_DocStats store !! d with
    | Some st => Some (record_at (Z.to_nat (d - StoreFirstDocId store)) out)
    | None => None
    end.
Proof.
  intros Hd. destruct (store_slots store) as (Hslots & Hcount & _). unfold doc_record. rewrite first_doc_id.
  set (first := StoreFirstDocId store) in *. set (count := StoreDocDataRecordCount store) in *.
  assert (Hfield : get 4 (Z.to_nat (d - first) * DOC_REC_SIZE) out = get 4 0 (record_at (Z.to_nat (d - first)) out)).
  { unfold get. rewrite <- (Nat.add_0_r (_ * _)). by rewrite record_field by (unfold DOC_REC_SIZE; lia). }
  fold (record_at (Z.to_nat (d - first)) out). rewrite Hfield.
  destruct (m_DocStats store !! d) as [st|] eqn:Est.
  - pose proof (Hslots d (ex_intro _ st Est)). rewrite (doc_id_field d st) by auto. rewrite Z.eqb_refl, andb_true_r.
    rewrite (proj2 (Z.leb_le _ _)) by lia. rewrite (proj2 (Nat.leb_le _ _)); [done|]. rewrite Hlen. unfold DOC_REC_SIZE. lia.
  - destruct (first <=? d)%Z eqn:E1; [|done]. destruct (_ <=? _) eqn:E2; [|done]. apply Z.leb_le in E1. apply Nat.leb_le in E2.
    rewrite Hlen in E2. unfold DOC_REC_SIZE in E2. assert (Hr : (first <= d < first + count)%Z) by lia.
    rewrite (Hblank d Hr Est). change (get 4 0 blank_record) with u32_max.
    replace (u32_max =? d)%Z with false; [done|]. symmetry. apply Z.eqb_neq. intros <-.
    destruct (decide (m_DocStats store = ∅)) as [He|Hne].
    + pose proof (store_slots store) as (_ & _ & _ & Hempty). unfold count in Hr. rewrite (Hempty He) in Hr. lia.
    + destruct (store_last store Hne) as (d' & st & Hst & Hle). fold first count in Hle.
      destruct (proj1 Hstore d' st Hst) as [Hrange _]. lia.
Qed.
(** The entry of a document says what the store says. *)
Definition entry_matches d st (entry : DocDataEntry) : Prop :=
  DDE_DocID entry = d /\ DDE_StaticRank entry = DocDataEncodeScore (importance st) /\
  DDE_QualityScore entry = DocDataEncodeScore (quality_score st) /\
  DDE_AuthorityScore entry = DocDataEncodeScore (authority_score st) /\
  DDE_SpamScore entry = DocDataEncodeScore (spam_score st) /\
  DDE_TitleLength entry = title_len st /\ DDE_BodyLength entry = body_len st /\ DDE_UrlLength entry = url_len st /\
  DDE_AnchorLength entry = anchor_len st /\ DDE_MetaLength entry = meta_len st /\
  match GetDocVector store d with
  | Some v => DDE_VectorDim entry = Z.of_nat DOC_VECTOR_DIM /\ DDE_VectorFormat entry = 1%Z /\ DDE_VectorData entry = v
  | None => DDE_VectorDim entry = 0%Z
  end.

Lemma vector_bytes_roundtrip v : vector_wf v -> map (to_signed 8) (map (fun i => wrap 8 (nth i v 0%Z)) (seq 0 DOC_VECTOR_DIM)) = v.
Proof.
  intros [Hl Hv]. rewrite map_map. apply list_eq. intros i. change (map ?f (seq 0 ?n)) with (f <$> seq 0 n). rewrite list_lookup_fmap.
  destruct (decide (i < DOC_VECTOR_DIM)) as [Hi|Hi].
  - rewrite lookup_seq_lt by done. destruct (lookup_lt_is_Some_2 v i ltac:(lia)) as [x Hx]. cbn [fmap option_fmap option_map Nat.add].
    rewrite Hx, (nth_lookup_Some _ _ _ _ Hx). f_equal. rewrite Forall_lookup in Hv. specialize (Hv i x Hx). cbn in Hv.
    unfold to_signed, wrap. rewrite Z.mod_mod by lia. change (2 ^ (8 - 1))%Z with 128%Z. change (2 ^ 8)%Z with 256%Z.
    destruct (decide (0 <= x)%Z).
    + rewrite Z.mod_small by lia. by rewrite (proj2 (Z.ltb_lt _ _)) by lia.
    + rewrite <- (Z.mod_add x 1 256), Z.mod_small by lia. rewrite (proj2 (Z.ltb_ge _ _)) by lia. lia.
  - rewrite lookup_seq_ge by lia. symmetry. apply lookup_ge_None_2. lia.
Qed.

Ltac field_in := unfold doc_fields; apply elem_of_app; left; rewrite !elem_of_cons; tauto.

Lemma doc_entry_matches d st record :
  m_DocStats store !! d = Some st -> holds_doc store t d st record -> entry_matches d st (doc_entry record).
Proof.
  intros Hd Hr. destruct (proj1 Hstore d st Hd) as (_ & W1 & W2 & W3 & W4 & W5 & _).
  unfold entry_matches, doc_entry. cbn [DDE_DocID DDE_StaticRank DDE_QualityScore DDE_AuthorityScore DDE_SpamScore
    DDE_TitleLength DDE_BodyLength DDE_UrlLength DDE_AnchorLength DDE_MetaLength DDE_VectorDim DDE_VectorFormat DDE_VectorData].
  split; [by apply (doc_id_field d st)|].
  repeat (split; [eapply doc_field; [exact Hr|field_in|first [exact W1|exact W2|exact W3|exact W4|exact W5|apply DocDataEncodeScore_range]]|]).
  destruct (GetDocVector store d) as [v|] eqn:Ev.
  - pose proof (proj2 Hstore d v Ev) as Hv. assert (Hin : forall o f, (o, f) ∈ [(54, le_bytes 2 (Z.of_nat DOC_VECTOR_DIM)); (56, le_bytes 2 1);
       (DOC_VECTOR_OFFSET, map (fun i => wrap 8 (nth i v 0%Z)) (seq 0 DOC_VECTOR_DIM))] -> (o, f) ∈ doc_fields store d st).
    { intros o f Hof. unfold doc_fields. rewrite Ev. apply elem_of_app. by right. }
    split; [eapply doc_field; [exact Hr|apply Hin, list_elem_of_here|done]|].
    split; [eapply doc_field; [exact Hr|apply Hin, list_elem_of_further, list_elem_of_here|done]|].
    destruct Hr as (_ & Hf & _). specialize (Hf _ _ (Hin _ _ (list_elem_of_further _ _ _ (list_elem_of_further _ _ _ (list_elem_of_here _ _))))).
    rewrite length_map, length_seq in Hf. rewrite Hf. by apply vector_bytes_roundtrip.
  - destruct Hr as (_ & _ & Hz & _). unfold get. by rewrite Hz.
Qed.

Lemma lookups_ok delta pdelta id :
  let d := ReaderDocumentIDValue id in
  (0 <= d)%Z ->
  match m_DocStats store !! d with
  | Some st =>
      (exists entry, GetDocDataEntry out header delta id = Some entry /\ entry_matches d st entry) /\
      (path st <> [] -> path_kept (path st) (prefixes t) ->
         index_GetDocPath out header (prefixes t) pdelta id = path st) /\
      (path st = [] -> index_GetDocPath out header (prefixes t) pdelta id = match pdelta with Some f => f d | None => [] end)
  | None =>
      GetDocDataEntry out header delta id = match delta with Some f => f d | None => None end /\
      index_GetDocPath out header (prefixes t) pdelta id = match pdelta with Some f => f d | None => [] end
  end.
Proof.
  intros d Hd. unfold GetDocDataEntry, index_GetDocPath. fold d. rewrite (doc_record_spec d Hd).
  destruct (m_DocStats store !! d) as [st|] eqn:Est; [|done]. specialize (Hdocs d st Est).
  set (record := record_at _ out) in *. pose proof Hdocs as (_ & _ & _ & (Hpl & Hpm) & Hp0 & _ & Hpath).
  split; [eexists; split; [done|by apply doc_entry_matches]|].
  fold (doc_payload record). split.
  - intros Hne Hkept. rewrite (proj2 (Z.ltb_lt _ _)); [rewrite (proj2 (Z.leb_le _ _)) by lia; by apply Hpath|].
    rewrite <- Hpl. specialize (Hpath t ltac:(done) Hkept). destruct (doc_payload record) eqn:Ep; [|cbn; lia].
    cbn in Hpath. by rewrite <- Hpath in Hne.
  - intros He. rewrite <- Hpl, (Hp0 He). done.
Qed.

(** * The store that DecodeDocData builds *)

(** What a document's record keeps of its statistics. *)
Definition decoded_stats st : DocStats :=
  let len := wrapping_add 32 (wrapping_add 32 (wrapping_add 32 (wrapping_add 32 (title_len st) (body_len st)) (url_len st))
               (anchor_len st)) (meta_len st) in
  {| doc_len := len; unique_terms := len; title_len := title_len st; body_len := body_len st; url_len := url_len st;
     anchor_len := anchor_len st; meta_len := meta_len st;
     importance := DocDataDecodeScore (DocDataEncodeScore (importance st)); path := [] |}.

Lemma DecodeDocDataRecord_doc s d st record :
  m_DocStats store !! d = Some st -> holds_doc store t d st record -> m_DocStats s !! d = None ->
  let s' := DecodeDocDataRecord s d record in
  m_DocStats s' = <[d := decoded_stats st]> (m_DocStats s) /\
  m_DocVectors s' = match GetDocVector store d with Some v => <[d := v]> (m_DocVectors s) | None => m_DocVectors s end.
Proof.
  intros Hd Hr Hs. cbv zeta. unfold DecodeDocDataRecord. pose proof (doc_entry_matches d st record Hd Hr) as Hm.
  unfold entry_matches, doc_entry in Hm. cbn [DDE_DocID DDE_StaticRank DDE_QualityScore DDE_AuthorityScore DDE_SpamScore
    DDE_TitleLength DDE_BodyLength DDE_UrlLength DDE_AnchorLength DDE_MetaLength DDE_VectorDim DDE_VectorFormat DDE_VectorData] in Hm.
  destruct Hm as (-> & -> & _ & _ & _ & -> & -> & -> & -> & -> & Hv). rewrite Z.eqb_refl. cbn [negb].
  set (s1 := SetDocImportance _ d _).
  assert (H1 : m_DocStats s1 = <[d := decoded_stats st]> (m_DocStats s) /\ m_DocVectors s1 = m_DocVectors s).
  { unfold s1, SetDocImportance, SetDocLengths, with_stats, stats_of. cbn [m_DocStats m_DocVectors]. split; [|done].
    rewrite lookup_insert_eq, insert_insert_eq, Hs. done. }
  destruct (GetDocVector store d) as [v|] eqn:Ev.
  - destruct Hv as (-> & -> & Hv). rewrite Z.eqb_refl. change (negb (1 =? 0)%Z) with true. cbn [andb].
    pose proof Hr as (Hrl & _). unfold SetDocVectorBytes.
    assert (Hsl : length (slice DOC_VECTOR_OFFSET DOC_VECTOR_DIM record) = DOC_VECTOR_DIM)
      by (apply length_slice; rewrite Hrl; unfold DOC_REC_SIZE, DOC_VECTOR_OFFSET, DOC_VECTOR_DIM; lia).
    rewrite Hsl, Nat.ltb_irrefl. cbn [fst with_stats with_vectors m_DocStats m_DocVectors]. destruct H1 as [H1 H2]. split.
    + unfold stats_of. rewrite H1, lookup_insert_eq. cbn [default from_option id]. by rewrite insert_insert_eq.
    + rewrite H2. f_equal. rewrite <- Hv. set (l := slice _ _ record) in *. clearbody l. apply list_eq. intros i.
      change (map ?f ?l) with (f <$> l). rewrite !list_lookup_fmap. destruct (decide (i < DOC_VECTOR_DIM)).
      * rewrite lookup_seq_lt by done. destruct (lookup_lt_is_Some_2 l i ltac:(lia)) as [x Hx]. cbn [Nat.add].
        rewrite Hx. cbn [fmap option_fmap option_map]. by rewrite (nth_lookup_Some _ _ _ _ Hx).
      * rewrite lookup_seq_ge, (lookup_ge_None_2 l) by lia. done.
  - rewrite Hv. replace (0 =? Z.of_nat DOC_VECTOR_DIM)%Z with false by done. by destruct H1.
Qed.

Lemma DecodeDocData_fold k :
  (Z.of_nat k <= StoreDocDataRecordCount store)%Z ->
  let s := fold_left (fun s index => DecodeDocDataRecord s (StoreFirstDocId store + Z.of_nat index)
             (slice (index * DOC_REC_SIZE) DOC_REC_SIZE out)) (seq 0 k) store_new in
  forall d, let seen := bool_decide (StoreFirstDocId store <= d < StoreFirstDocId store + Z.of_nat k)%Z in
  m_DocStats s !! d = (if seen then decoded_stats <$> m_DocStats store !! d else None) /\
  m_DocVectors s !! d = (if seen && bool_decide (is_Some (m_DocStats store !! d)) then m_DocVectors store !! d else None).
Proof.
  induction k as [|k IH]; intros Hk; cbv zeta.
  { intros d. rewrite bool_decide_eq_false_2 by lia. cbn. by rewrite !lookup_empty. }
  rewrite seq_S, fold_left_app. cbn [fold_left Nat.add]. specialize (IH ltac:(lia)). cbv zeta in IH.
  set (s := fold_left _ (seq 0 k) store_new) in *. clearbody s. set (first := StoreFirstDocId store) in *.
  set (d0 := (first + Z.of_nat k)%Z). fold (record_at k out).
  assert (Hslot : Z.to_nat (d0 - first) = k) by lia.
  intros d. destruct (IH d0) as [Hs0 _]. rewrite bool_decide_eq_false_2 in Hs0 by lia.
  destruct (IH d) as [Hsd Hvd].
  destruct (m_DocStats store !! d0) as [st0|] eqn:E0.
  - pose proof (Hdocs d0 st0 E0) as Hr. fold first in Hr. rewrite Hslot in Hr.
    destruct (DecodeDocDataRecord_doc s d0 st0 _ E0 Hr Hs0) as [-> ->]. destruct (decide (d = d0)) as [->|Hne].
    + rewrite bool_decide_eq_true_2 by lia. rewrite lookup_insert_eq, E0. split; [done|].
      rewrite bool_decide_eq_true_2 by done. cbn [andb]. unfold GetDocVector. destruct (m_DocVectors store !! d0) as [v|] eqn:Ev.
      * by rewrite lookup_insert_eq.
      * rewrite Hvd, bool_decide_eq_false_2 by lia. done.
    + rewrite lookup_insert_ne by done. rewrite Hsd.
      assert (Hv : (match GetDocVector store d0 with Some v => <[d0 := v]> (m_DocVectors s) | None => m_DocVectors s end) !! d = m_DocVectors s !! d).
      { destruct (GetDocVector store d0); [by rewrite lookup_insert_ne|done]. }
      rewrite Hv, Hvd. rewrite (bool_decide_ext (first <= d < first + Z.of_nat (S k))%Z (first <= d < first + Z.of_nat k)%Z) by lia. done.
  - assert (Hb : record_at k out = blank_record).
    { rewrite <- Hslot. apply Hblank; [fold first; lia|done]. }
    rewrite Hb. unfold DecodeDocDataRecord. change (get 4 0 blank_record) with u32_max.
    assert (Hne0 : (u32_max =? d0)%Z = false).
    { apply Z.eqb_neq. intros Heq. assert (Hz : (0 <= d0)%Z) by (rewrite <- Heq; done).
      pose proof (doc_record_spec d0 Hz) as Hspec. rewrite E0 in Hspec. unfold doc_record in Hspec. rewrite first_doc_id in Hspec. fold first in Hspec.
      rewrite (proj2 (Z.leb_le _ _)), Hslot in Hspec by lia.
      rewrite (proj2 (Nat.leb_le _ _)) in Hspec by (rewrite Hlen; unfold DOC_REC_SIZE; lia). cbn [andb] in Hspec.
      replace (get 4 (k * DOC_REC_SIZE) out) with u32_max in Hspec; [by rewrite Heq, Z.eqb_refl in Hspec|].
      unfold get. rewrite <- (Nat.add_0_r (_ * _)), record_field by (unfold DOC_REC_SIZE; lia). by rewrite Hb. }
    rewrite Hne0. cbn [negb]. rewrite Hsd, Hvd. destruct (decide (d = d0)) as [->|Hne].
    + rewrite E0, (bool_decide_eq_false_2 (is_Some None)) by (by intros []). rewrite !andb_false_r. cbn.
      split; [|reflexivity]. clear Hsd Hvd. transitivity (@None DocStats); [|symmetry]; by destruct (bool_decide _).
    + rewrite (bool_decide_ext (first <= d < first + Z.of_nat (S k))%Z (first <= d < first + Z.of_nat k)%Z) by lia. done.
Qed.
(** * The records in a merge *)

(** The prefix table has every document's directory. *)
Definition directories_known (ps : list str) : Prop :=
  forall d st, m_DocStats store !! d = Some st -> rfind_separator (path st) <> None -> (split_path_for_sidecar (path st)).1 ∈ ps.

Lemma directories_kept ps p t2 : rfind_separator p <> None -> (split_path_for_sidecar p).1 ∈ ps -> path_kept p t2 -> path_kept p ps.
Proof.
  unfold path_kept, split_path_for_sidecar. destruct (rfind_separator p); [|done]. cbn [fst]. intros _ Hin (H1 & _ & H2). by split.
Qed.

Hypothesis Hknown : directories_known (prefixes t).

(** The record of a document, its path interned anew. *)
Lemma merge_record_doc output tm d st record slot :
  m_DocStats store !! d = Some st -> d = (StoreFirstDocId store + Z.of_nat slot)%Z -> holds_doc store t d st record -> prefixes_ok tm ->
  exists record' tm', merge_record (StoreFirstDocId store) (prefixes t) (output, tm) slot record = Ok (output ++ record', tm') /\
    prefixes_ok tm' /\ grows tm tm' /\ holds_doc store tm' d st record'.
Proof.
  intros Hd Heq Hr Hok. pose proof Hr as (Hl & Hf & Hv & (Hpl & Hpm) & Hp0 & Hwf & Hpath).
  unfold merge_record. rewrite (doc_id_field d st record Hd Hr), <- Heq, Z.eqb_refl.
  rewrite (proj2 (Z.ltb_ge _ _)) by lia. fold (doc_payload record). set (p := DecodeDocPath _ _).
  pose proof (encode_doc_path_spec record p tm Hl Hok (Hwf t ltac:(done))) as Hspec.
  destruct (encode_doc_path record p tm) as [record' tm']. destruct Hspec as (L & Hok' & Hg & Hframe & Hpay & Hnil & Hwf' & Hkept).
  exists record', tm'. do 3 (split; [done|]). split; [done|]. split; [|split; [|split; [done|split; [|split; [done|]]]]].
  - intros o f Hin. rewrite Hframe by by eapply doc_fields_apart. by apply Hf.
  - intros Hnv. rewrite Hframe by (unfold DOC_PATH_OFFSET; lia). by apply Hv.
  - intros He. apply Hnil. unfold p. by rewrite (Hp0 He).
  - intros t2 Hg2 Hk2. assert (Hp : p = path st).
    { apply Hpath; [done|]. destruct (decide (rfind_separator (path st) = None)) as [Hn|Hs].
      - unfold path_kept, split_path_for_sidecar in *. by rewrite Hn in *.
      - eapply directories_kept; [done|by eapply Hknown|exact Hk2]. }
    rewrite <- Hp in Hk2 |- *. by apply Hkept.
Qed.

(** A slot without a document is copied. *)
Lemma merge_record_blank output tm slot :
  (Z.of_nat slot < StoreDocDataRecordCount store)%Z ->
  merge_record (StoreFirstDocId store) (prefixes t) (output, tm) slot blank_record = Ok (output ++ blank_record, tm).
Proof.
  intros Hslot. unfold merge_record. change (get 4 0 blank_record) with u32_max.
  assert (Hne : m_DocStats store <> ∅) by (intros He; destruct (store_slots store) as (_ & _ & _ & Hz); rewrite (Hz He) in Hslot; lia).
  destruct (store_last store Hne) as (d & st & Hd & Hle). destruct (proj1 Hstore d st Hd) as [Hrange _].
  by rewrite (proj2 (Z.eqb_neq _ _)) by lia.
Qed.

(** What slot [i] of the store's records becomes. *)
Definition slot_ok (tm : PathPrefixes) (i : nat) (record : bytes) : Prop :=
  length record = DOC_REC_SIZE /\
  match m_DocStats store !! (StoreFirstDocId store + Z.of_nat i)%Z with
  | Some st => holds_doc store tm (StoreFirstDocId store + Z.of_nat i) st record
  | None => record = blank_record
  end.

Lemma slot_ok_grows tm tm' i record : grows tm tm' -> slot_ok tm i record -> slot_ok tm' i record.
Proof. intros Hg [Hl Hs]. split; [done|]. destruct (m_DocStats store !! _); [|done]. by eapply holds_doc_grows. Qed.

Lemma merge_records_ok n : forall k output tm,
  (Z.of_nat (k + n) <= StoreDocDataRecordCount store)%Z -> prefixes_ok tm ->
  exists records tm', merge_records (StoreFirstDocId store) (prefixes t) out (seq k n) (output, tm) = Ok (output ++ concat records, tm') /\
    prefixes_ok tm' /\ grows tm tm' /\ length records = n /\ forall j record, records !! j = Some record -> slot_ok tm' (k + j) record.
Proof.
  induction n as [|n IH]; intros k output tm Hk Hok; cbn [seq merge_records].
  { exists [], tm. rewrite app_nil_r. split_and!; try done. }
  fold (record_at k out). assert (Hstep : exists record' tm1,
    merge_record (StoreFirstDocId store) (prefixes t) (output, tm) k (record_at k out) = Ok (output ++ record', tm1) /\
    prefixes_ok tm1 /\ grows tm tm1 /\ slot_ok tm1 k record').
  { unfold slot_ok. set (d := (StoreFirstDocId store + Z.of_nat k)%Z). assert (Hslot : Z.to_nat (d - StoreFirstDocId store) = k) by lia.
    destruct (m_DocStats store !! d) as [st|] eqn:Est.
    - pose proof (Hdocs d st Est) as Hr. rewrite Hslot in Hr.
      destruct (merge_record_doc output tm d st _ k Est eq_refl Hr Hok) as (r' & tm1 & -> & H1 & H2 & H3).
      exists r', tm1. split; [done|]. split; [done|]. split; [done|]. split; [apply H3|done].
    - pose proof (Hblank d ltac:(lia) Est) as Hb. rewrite Hslot in Hb. rewrite Hb. exists blank_record, tm.
      split; [apply merge_record_blank; lia|]. done. }
  destruct Hstep as (r' & tm1 & -> & Hok1 & Hg1 & Hs1). cbn [result_bind].
  destruct (IH (S k) (output ++ r') tm1 ltac:(lia) Hok1) as (records & tm' & -> & Hok' & Hg & Hn & Hall).
  exists (r' :: records), tm'. rewrite <- app_assoc. split; [done|]. split; [done|]. split; [by etrans|]. split; [cbn; lia|].
  intros [|j] record Hj; cbn in Hj.
  - injection Hj as <-. rewrite Nat.add_0_r. by eapply slot_ok_grows.
  - rewrite <- Nat.add_succ_comm. by apply Hall.
Qed.

Lemma AppendMergedDocData_ok output tm :
  prefixes_ok tm -> (StoreDocDataRecordCount store < 2 ^ 32)%Z ->
  exists records tm', AppendMergedDocData output out header (prefixes t) tm = Ok (output ++ concat records, tm') /\
    prefixes_ok tm' /\ grows tm tm' /\ Z.of_nat (length records) = StoreDocDataRecordCount store /\
    forall i record, records !! i = Some record -> slot_ok tm' i record.
Proof.
  intros Hok Hmax. destruct (store_slots store) as (_ & Hcount & _). unfold AppendMergedDocData. rewrite Hnum.
  assert (Hd : Z.of_nat DOC_REC_SIZE = 256%Z) by reflexivity.
  unfold checked_mul. rewrite Hd, (proj2 (Z.ltb_lt _ _)) by lia. cbn [ok_or result_bind].
  rewrite (proj2 (Z.ltb_ge _ _)) by (rewrite Hlen, Nat2Z.inj_mul, Hd; lia). rewrite first_doc_id.
  destruct (merge_records_ok (Z.to_nat (StoreDocDataRecordCount store)) 0 output tm ltac:(lia) Hok) as (records & tm' & -> & H1 & H2 & H3 & H4).
  exists records, tm'. split; [done|]. split; [done|]. split; [done|]. split; [lia|]. exact H4.
Qed.
End lookups.

(** * Properties *)


(** decoding the encoded records into a new store gives back the documents of the store, each with
    its field lengths, its importance to 16 bits and its vector, and no other. *)
Theorem DecodeDocData_EncodeDocData `{Libm} `{DocOrder} store :
  docs_wf store ->
  exists out sidecar ps, EncodeDocData store = Some (out, sidecar, ps) /\
    forall header, IFH_NumDocuments header = StoreDocDataRecordCount store ->
    exists decoded, DecodeDocData store_new header out = Ok decoded /\
      forall d, m_DocStats decoded !! d = decoded_stats <$> m_DocStats store !! d /\
        m_DocVectors decoded !! d = if bool_decide (is_Some (m_DocStats store !! d)) then m_DocVectors store !! d else None.
Proof.
  intros Hs. destruct (EncodeDocData_ok store Hs) as (out & sc & t & He & _ & _ & Hsc & Hl & Hdocs & Hblank).
  exists out, sc, (prefixes t). split; [done|]. intros header Hnum.
  destruct (store_slots store) as (Hslots & Hcount & _). unfold DecodeDocData. rewrite Hnum.
  rewrite (proj2 (Z.eqb_eq _ _)) by (rewrite Hl; unfold DOC_REC_SIZE; lia). cbn [negb].
  rewrite (first_doc_id store Hs out header t Hnum Hl Hdocs). eexists. split; [done|]. intros d.
  pose proof (DecodeDocData_fold store Hs out header t Hnum Hl Hdocs Hblank (Z.to_nat (StoreDocDataRecordCount store)) ltac:(lia) d) as Hf.
  cbv zeta in Hf. rewrite Z2Nat.id in Hf by done. destruct Hf as [-> ->].
  destruct (m_DocStats store !! d) as [st|] eqn:Est.
  - rewrite bool_decide_eq_true_2; [by rewrite bool_decide_eq_true_2|]. apply Hslots. by exists st.
  - rewrite (bool_decide_eq_false_2 (is_Some None)) by (by intros []). rewrite andb_false_r. split; [|done]. by destruct (bool_decide _).
Qed.

(** * Witnesses *)

Definition stored_docs : PostingStore :=
  {| m_Postings := ∅;
     m_DocStats := <[4%Z := {| doc_len := 3; unique_terms := 2; title_len := 1; body_len := 2; url_len := 0; anchor_len := 0;
                             meta_len := 0; importance := f_lit F32 1 2; path := of_string "docs/a.txt" |}]>
                   {[6%Z := docstats_default]};
     m_DocVectors := {[6%Z := replicate DOC_VECTOR_DIM (-3)%Z]}; m_TotalTerms := 3; m_PostingEntries := 0 |}.

Definition sample_doc_order : DocOrder := {| doc_order := map_to_list; doc_order_perm m := reflexivity _ |}.

Lemma stored_docs_wf : docs_wf stored_docs.
Proof.
  split.
  - apply map_Forall_insert_2; [|apply map_Forall_singleton]; split_and!; try done.
  - apply map_Forall_singleton. split; [done|]. apply Forall_replicate. lia.
Qed.

Definition stored_header : IndexFileHeader := header_of INDEX_FILE_MAGIC INDEX_FORMAT_VERSION 0 (fun i => if i =? 0 then 3%Z else 0%Z).


Lemma DecodeDocData_EncodeDocData_witness :
  exists out sidecar ps, @EncodeDocData sample_libm sample_doc_order stored_docs = Some (out, sidecar, ps) /\
    exists decoded, DecodeDocData store_new stored_header out = Ok decoded /\ m_DocStats decoded !! 5%Z = None.
Proof.
  destruct (@DecodeDocData_EncodeDocData sample_libm sample_doc_order stored_docs stored_docs_wf) as (out & sidecar & ps & He & Hall).
  exists out, sidecar, ps. split; [exact He|]. destruct (Hall stored_header eq_refl) as (decoded & Hd & Hm).
  exists decoded. split; [exact Hd|]. destruct (Hm 5%Z) as [H _]. rewrite H. reflexivity.
Defined.
