(* ===== verification/Composites.v ===== *)
(** The composite readers (IndexReaderImpl.rs): intersection, union, weak
    conjunction, boost, difference and the in-memory vector reader, over any
    child reader that keeps the contract of IndexReader.v, with the proof that
    each keeps it too and reads the documents it should. *)

From Stdlib Require Import ZArith Lia ZifyBool Bool List.
From Stdlib Require Import Floats.SpecFloat.
From stdpp Require Import base list list_numbers gmap sorting.
From S2P Require Import Prelude Floats IndexReader.

Local Open Scope moon_scope.

(** [iter().sum()] of [f32]. The standard library starts from -0.0. *)
Definition f32_sum (l : list f32) : f32 := fold_left (f_add F32) l (S754_zero true).
Definition u32_sum (l : list Z) : Z := fold_left (wrapping_add 32) l 0%Z.

(** [iter().min().unwrap_or(NO_MORE_DOCS)] and [max]. *)
Definition min_doc (l : list Z) : Z :=
  match l with [] => NO_MORE_DOCS | d :: l' => fold_left Z.min l' d end.
Definition max_doc (l : list Z) : Z :=
  match l with [] => NO_MORE_DOCS | d :: l' => fold_left Z.max l' d end.

(** [for c in &mut children { *c = f(c); acc.push(b) }]. *)
Fixpoint map_children {R B} (f : R -> option (R * B)) (cs : list R) : option (list R * list B) :=
  match cs with
  | [] => Some ([], [])
  | c :: cs' =>
      opt cb := f c in
      opt rest := map_children f cs' in
      Some (cb.1 :: rest.1, cb.2 :: rest.2)
  end.

(** The same over the children at the listed indices, in order. *)
Fixpoint map_indices {R B} (f : R -> option (R * B)) (idx : list nat) (cs : list R)
  : option (list R * list B) :=
  match idx with
  | [] => Some (cs, [])
  | i :: idx' =>
      opt c := cs !! i in
      opt cb := f c in
      opt rest := map_indices f idx' (<[i := cb.1]> cs) in
      Some (rest.1, cb.2 :: rest.2)
  end.

Section readers.
Context {R : Type} `{IndexReader R}.

(** * AndIndexReader *)

Record AndIndexReader := { and_Children : list R }.

Inductive align_status := Aligned | Ended | Misaligned.

(** The inner loop of AlignToPivot: returns at a child that ended, breaks at
    one that passed the pivot. *)
Fixpoint and_align_children (fuel : nat) (pivot : Z) (cs : list R) : option (list R * align_status) :=
  match cs with
  | [] => Some ([], Aligned)
  | c :: cs' =>
      if (GetDocumentID c =? pivot)%Z then
        opt r := and_align_children fuel pivot cs' in Some (c :: r.1, r.2)
      else
        opt c' := GoUntil fuel c pivot NO_MORE_DOCS in
        if IsEnd c' then Some (c' :: cs', Ended)
        else if negb (GetDocumentID c' =? pivot)%Z then Some (c' :: cs', Misaligned)
        else opt r := and_align_children fuel pivot cs' in Some (c' :: r.1, r.2)
  end.

Fixpoint and_AlignToPivot (fuel : nat) (cs : list R) : option (list R) :=
  match fuel with
  | O => None
  | S fuel' =>
      if existsb IsEnd cs then Some cs
      else
        let pivot := max_doc (map GetDocumentID cs) in
        match and_align_children fuel' pivot cs with
        | None => None
        | Some (cs', Misaligned) => and_AlignToPivot fuel' cs'
        | Some (cs', _) => Some cs'
        end
  end.

Definition and_with (cs : option (list R)) : option AndIndexReader :=
  opt cs := cs in Some {| and_Children := cs |}.

Definition and_new (fuel : nat) (children : list R) : option AndIndexReader :=
  and_with (and_AlignToPivot fuel children).

Definition and_IsEnd (r : AndIndexReader) : bool :=
  match and_Children r with [] => true | cs => existsb IsEnd cs end.

Definition and_GetDocumentID (r : AndIndexReader) : Z :=
  if and_IsEnd r then NO_MORE_DOCS
  else match and_Children r with [] => NO_MORE_DOCS | c :: _ => GetDocumentID c end.

Definition and_GoNext (fuel : nat) (r : AndIndexReader) : option AndIndexReader :=
  if and_IsEnd r then Some r
  else
    let doc := and_GetDocumentID r in
    opt cs := map_children (fun c =>
        if negb (IsEnd c) && (GetDocumentID c =? doc)%Z
        then opt c' := GoNext fuel c in Some (c', tt) else Some (c, tt)) (and_Children r) in
    and_with (and_AlignToPivot fuel cs.1).

Definition and_GoUntil (fuel : nat) (r : AndIndexReader) (target limit : Z) : option AndIndexReader :=
  opt cs := map_children (fun c => opt c' := GoUntil fuel c target limit in Some (c', tt)) (and_Children r) in
  and_with (and_AlignToPivot fuel cs.1).

Definition and_GetTermFreq (r : AndIndexReader) : Z := u32_sum (map GetTermFreq (and_Children r)).

Definition and_GetScore (fuel : nat) (r : AndIndexReader) (entry : DocDataEntry)
  : option (AndIndexReader * f32) :=
  opt cs := map_children (fun c => GetScore fuel c entry) (and_Children r) in
  Some ({| and_Children := cs.1 |}, f32_sum cs.2).

Definition and_GetSourceMask (fuel : nat) (r : AndIndexReader) : option (AndIndexReader * Z) :=
  let doc := and_GetDocumentID r in
  opt cs := map_children (fun c =>
      if negb (IsEnd c) && (GetDocumentID c =? doc)%Z then GetSourceMask fuel c else Some (c, 0%Z))
    (and_Children r) in
  Some ({| and_Children := cs.1 |}, fold_left Z.lor cs.2 0%Z).

Definition and_Close (r : AndIndexReader) : AndIndexReader :=
  {| and_Children := map Close (and_Children r) |}.

(** * The child cursors of OrIndexReader and WeakAndIndexReader

    [m_Children] with [m_ChildDocs]; both readers update them the same way. *)

Abbreviation cursors := (list R * list Z)%type.

Definition UpdateChildDoc (index : nat) (cd : cursors) : cursors :=
  match cd.1 !! index with
  | Some c => (cd.1, <[index := child_doc c]> cd.2)
  | None => cd
  end.

(** [for index in matching { children[index].GoNext(); UpdateChildDoc(index) }]. *)
Fixpoint next_children (fuel : nat) (matching : list nat) (cd : cursors) : option cursors :=
  match matching with
  | [] => Some cd
  | index :: rest =>
      opt c := cd.1 !! index in
      opt c' := GoNext fuel c in
      next_children fuel rest (UpdateChildDoc index (<[index := c']> cd.1, cd.2))
  end.

(** [for index in 0..len { if child_docs[index] < target { GoUntil; UpdateChildDoc } }]. *)
Fixpoint seek_children (fuel : nat) (target limit : Z) (indices : list nat) (cd : cursors)
  : option cursors :=
  match indices with
  | [] => Some cd
  | index :: rest =>
      if (nth index cd.2 NO_MORE_DOCS <? target)%Z then
        opt c := cd.1 !! index in
        opt c' := GoUntil fuel c target limit in
        seek_children fuel target limit rest (UpdateChildDoc index (<[index := c']> cd.1, cd.2))
      else seek_children fuel target limit rest cd
  end.

Definition initial_cursors (children : list R) : cursors :=
  fold_left (fun cd index => UpdateChildDoc index cd) (seq 0 (length children))
    (children, replicate (length children) NO_MORE_DOCS).

(** The indices whose cached document is [doc]. *)
Definition matching_at (docs : list Z) (doc : Z) : list nat :=
  filter (fun i => nth i docs NO_MORE_DOCS = doc) (seq 0 (length docs)).

(** * OrIndexReader *)

Record OrIndexReader := {
  or_Children : list R;
  or_ChildDocs : list Z;
  or_MatchingChildren : list nat;
  or_CurrentDoc : Z;
}.

Definition or_RefreshCurrentDoc (cd : cursors) : OrIndexReader :=
  let current := min_doc cd.2 in
  {| or_Children := cd.1; or_ChildDocs := cd.2;
     or_MatchingChildren := if (current =? NO_MORE_DOCS)%Z then [] else matching_at cd.2 current;
     or_CurrentDoc := current |}.

Definition or_new (children : list R) : OrIndexReader :=
  or_RefreshCurrentDoc (initial_cursors children).

Definition or_IsEnd (r : OrIndexReader) : bool := (or_CurrentDoc r =? NO_MORE_DOCS)%Z.
Definition or_GetDocumentID (r : OrIndexReader) : Z := or_CurrentDoc r.

Definition or_GoNext (fuel : nat) (r : OrIndexReader) : option OrIndexReader :=
  if or_IsEnd r then Some r
  else opt cd := next_children fuel (or_MatchingChildren r) (or_Children r, or_ChildDocs r) in
       Some (or_RefreshCurrentDoc cd).

Definition or_GoUntil (fuel : nat) (r : OrIndexReader) (target limit : Z) : option OrIndexReader :=
  opt cd := seek_children fuel target limit (seq 0 (length (or_Children r))) (or_Children r, or_ChildDocs r) in
  Some (or_RefreshCurrentDoc cd).

Definition term_freq_at (cs : list R) (idx : list nat) : Z :=
  u32_sum (omap (fun i => GetTermFreq <$> cs !! i) idx).

Definition or_GetTermFreq (r : OrIndexReader) : Z := term_freq_at (or_Children r) (or_MatchingChildren r).

Definition or_with (r : OrIndexReader) (cs : list R) : OrIndexReader :=
  {| or_Children := cs; or_ChildDocs := or_ChildDocs r;
     or_MatchingChildren := or_MatchingChildren r; or_CurrentDoc := or_CurrentDoc r |}.

Definition or_GetScore (fuel : nat) (r : OrIndexReader) (entry : DocDataEntry)
  : option (OrIndexReader * f32) :=
  opt cs := map_indices (fun c => GetScore fuel c entry) (or_MatchingChildren r) (or_Children r) in
  Some (or_with r cs.1, f32_sum cs.2).

Definition or_GetSourceMask (fuel : nat) (r : OrIndexReader) : option (OrIndexReader * Z) :=
  opt cs := map_indices (GetSourceMask fuel) (or_MatchingChildren r) (or_Children r) in
  Some (or_with r cs.1, fold_left Z.lor cs.2 0%Z).

Definition or_Close (r : OrIndexReader) : OrIndexReader := or_with r (map Close (or_Children r)).

(** * WeakAndIndexReader *)

Record WeakAndIndexReader := {
  wa_Children : list R;
  wa_ChildDocs : list Z;
  wa_MatchingChildren : list nat;
  wa_MinShouldMatch : Z;
  wa_CurrentDoc : Z;
}.

Fixpoint wa_AlignToMatch (fuel : nat) (m : Z) (cd : cursors) : option WeakAndIndexReader :=
  match fuel with
  | O => None
  | S fuel' =>
      let doc := min_doc cd.2 in
      if (doc =? NO_MORE_DOCS)%Z then
        Some {| wa_Children := cd.1; wa_ChildDocs := cd.2; wa_MatchingChildren := [];
                wa_MinShouldMatch := m; wa_CurrentDoc := NO_MORE_DOCS |}
      else
        let matching := matching_at cd.2 doc in
        if (m <=? Z.of_nat (length matching))%Z then
          Some {| wa_Children := cd.1; wa_ChildDocs := cd.2; wa_MatchingChildren := matching;
                  wa_MinShouldMatch := m; wa_CurrentDoc := doc |}
        else
          opt cd' := next_children fuel' matching cd in
          wa_AlignToMatch fuel' m cd'
  end.

Definition wa_new (fuel : nat) (children : list R) (minShouldMatch : Z) : option WeakAndIndexReader :=
  wa_AlignToMatch fuel (Z.max minShouldMatch 1) (initial_cursors children).

Definition wa_IsEnd (r : WeakAndIndexReader) : bool := (wa_CurrentDoc r =? NO_MORE_DOCS)%Z.
Definition wa_GetDocumentID (r : WeakAndIndexReader) : Z := wa_CurrentDoc r.

Definition wa_GoNext (fuel : nat) (r : WeakAndIndexReader) : option WeakAndIndexReader :=
  if wa_IsEnd r then Some r
  else
    opt cd := next_children fuel (wa_MatchingChildren r) (wa_Children r, wa_ChildDocs r) in
    wa_AlignToMatch fuel (wa_MinShouldMatch r) cd.

Definition wa_GoUntil (fuel : nat) (r : WeakAndIndexReader) (target limit : Z)
  : option WeakAndIndexReader :=
  opt cd := seek_children fuel target limit (seq 0 (length (wa_Children r))) (wa_Children r, wa_ChildDocs r) in
  wa_AlignToMatch fuel (wa_MinShouldMatch r) cd.

Definition wa_GetTermFreq (r : WeakAndIndexReader) : Z :=
  term_freq_at (wa_Children r) (wa_MatchingChildren r).

Definition wa_with (r : WeakAndIndexReader) (cs : list R) : WeakAndIndexReader :=
  {| wa_Children := cs; wa_ChildDocs := wa_ChildDocs r; wa_MatchingChildren := wa_MatchingChildren r;
     wa_MinShouldMatch := wa_MinShouldMatch r; wa_CurrentDoc := wa_CurrentDoc r |}.

Definition wa_GetScore (fuel : nat) (r : WeakAndIndexReader) (entry : DocDataEntry)
  : option (WeakAndIndexReader * f32) :=
  opt cs := map_indices (fun c => GetScore fuel c entry) (wa_MatchingChildren r) (wa_Children r) in
  Some (wa_with r cs.1, f32_sum cs.2).

Definition wa_GetSourceMask (fuel : nat) (r : WeakAndIndexReader) : option (WeakAndIndexReader * Z) :=
  opt cs := map_indices (GetSourceMask fuel) (wa_MatchingChildren r) (wa_Children r) in
  Some (wa_with r cs.1, fold_left Z.lor cs.2 0%Z).

Definition wa_Close (r : WeakAndIndexReader) : WeakAndIndexReader := wa_with r (map Close (wa_Children r)).

(** * BoostIndexReader *)

Record BoostIndexReader := {
  bo_Base : R;
  bo_Boost : R;
  bo_BoostWeight : f32;
  bo_CurrentDoc : Z;
  bo_BoostDoc : Z;
}.

Definition bo_new (base boost : R) (boostWeight : f32) : BoostIndexReader :=
  {| bo_Base := base; bo_Boost := boost; bo_BoostWeight := boostWeight;
     bo_CurrentDoc := child_doc base; bo_BoostDoc := child_doc boost |}.

Definition bo_IsEnd (r : BoostIndexReader) : bool := (bo_CurrentDoc r =? NO_MORE_DOCS)%Z.
Definition bo_GetDocumentID (r : BoostIndexReader) : Z := bo_CurrentDoc r.

Definition bo_with_base (r : BoostIndexReader) (base : R) : BoostIndexReader :=
  {| bo_Base := base; bo_Boost := bo_Boost r; bo_BoostWeight := bo_BoostWeight r;
     bo_CurrentDoc := child_doc base; bo_BoostDoc := bo_BoostDoc r |}.

Definition BoostMatchesBase (fuel : nat) (r : BoostIndexReader) : option (BoostIndexReader * bool) :=
  if (bo_BoostDoc r =? NO_MORE_DOCS)%Z || bo_IsEnd r then Some (r, false)
  else
    opt r' := (if (bo_BoostDoc r <? bo_CurrentDoc r)%Z then
        opt b := GoUntil fuel (bo_Boost r) (bo_CurrentDoc r) NO_MORE_DOCS in
        Some {| bo_Base := bo_Base r; bo_Boost := b; bo_BoostWeight := bo_BoostWeight r;
                bo_CurrentDoc := bo_CurrentDoc r; bo_BoostDoc := child_doc b |}
      else Some r) in
    Some (r', bo_BoostDoc r' =? bo_CurrentDoc r')%Z.

Definition bo_GoNext (fuel : nat) (r : BoostIndexReader) : option BoostIndexReader :=
  if bo_IsEnd r then Some r
  else opt b := GoNext fuel (bo_Base r) in Some (bo_with_base r b).

Definition bo_GoUntil (fuel : nat) (r : BoostIndexReader) (target limit : Z) : option BoostIndexReader :=
  opt b := GoUntil fuel (bo_Base r) target limit in Some (bo_with_base r b).

Definition bo_GetTermFreq (r : BoostIndexReader) : Z :=
  if bo_IsEnd r then 0%Z else GetTermFreq (bo_Base r).

(** The base after its score or mask was read: the current document stays. *)
Definition bo_set_base (r : BoostIndexReader) (base : R) : BoostIndexReader :=
  {| bo_Base := base; bo_Boost := bo_Boost r; bo_BoostWeight := bo_BoostWeight r;
     bo_CurrentDoc := bo_CurrentDoc r; bo_BoostDoc := bo_BoostDoc r |}.
Definition bo_set_boost (r : BoostIndexReader) (boost : R) : BoostIndexReader :=
  {| bo_Base := bo_Base r; bo_Boost := boost; bo_BoostWeight := bo_BoostWeight r;
     bo_CurrentDoc := bo_CurrentDoc r; bo_BoostDoc := bo_BoostDoc r |}.

Definition bo_GetScore (fuel : nat) (r : BoostIndexReader) (entry : DocDataEntry)
  : option (BoostIndexReader * f32) :=
  if bo_IsEnd r then Some (r, f_of_Z F32 0)
  else
    opt bs := GetScore fuel (bo_Base r) entry in
    opt rm := BoostMatchesBase fuel (bo_set_base r bs.1) in
    Some (rm.1, f_add F32 bs.2 (if rm.2 then bo_BoostWeight r else f_of_Z F32 0)).

Definition bo_GetSourceMask (fuel : nat) (r : BoostIndexReader) : option (BoostIndexReader * Z) :=
  if bo_IsEnd r then Some (r, 0%Z)
  else
    opt bm := GetSourceMask fuel (bo_Base r) in
    opt rm := BoostMatchesBase fuel (bo_set_base r bm.1) in
    if rm.2 then
      opt om := GetSourceMask fuel (bo_Boost rm.1) in
      Some (bo_set_boost rm.1 om.1, Z.lor bm.2 om.2)
    else Some (rm.1, Z.lor bm.2 0%Z).

Definition bo_Close (r : BoostIndexReader) : BoostIndexReader :=
  {| bo_Base := Close (bo_Base r); bo_Boost := Close (bo_Boost r); bo_BoostWeight := bo_BoostWeight r;
     bo_CurrentDoc := NO_MORE_DOCS; bo_BoostDoc := NO_MORE_DOCS |}.

(** * NotIndexReader *)

Record NotIndexReader := { not_Base : R; not_Exclude : R }.

Fixpoint not_SkipExcluded (fuel : nat) (r : NotIndexReader) : option NotIndexReader :=
  match fuel with
  | O => None
  | S fuel' =>
      if IsEnd (not_Base r) then Some r
      else
        let doc := GetDocumentID (not_Base r) in
        opt ex := GoUntil fuel' (not_Exclude r) doc NO_MORE_DOCS in
        if negb (IsEnd ex) && (GetDocumentID ex =? doc)%Z then
          opt b := GoNext fuel' (not_Base r) in
          not_SkipExcluded fuel' {| not_Base := b; not_Exclude := ex |}
        else Some {| not_Base := not_Base r; not_Exclude := ex |}
  end.

Definition not_new (fuel : nat) (base exclude : R) : option NotIndexReader :=
  not_SkipExcluded fuel {| not_Base := base; not_Exclude := exclude |}.

Definition not_GoNext (fuel : nat) (r : NotIndexReader) : option NotIndexReader :=
  opt b := GoNext fuel (not_Base r) in
  not_SkipExcluded fuel {| not_Base := b; not_Exclude := not_Exclude r |}.
Definition not_GoUntil (fuel : nat) (r : NotIndexReader) (target limit : Z) : option NotIndexReader :=
  opt b := GoUntil fuel (not_Base r) target limit in
  not_SkipExcluded fuel {| not_Base := b; not_Exclude := not_Exclude r |}.
Definition not_IsEnd (r : NotIndexReader) : bool := IsEnd (not_Base r).
Definition not_GetDocumentID (r : NotIndexReader) : Z := GetDocumentID (not_Base r).
Definition not_GetTermFreq (r : NotIndexReader) : Z := GetTermFreq (not_Base r).
Definition not_GetScore (fuel : nat) (r : NotIndexReader) (entry : DocDataEntry)
  : option (NotIndexReader * f32) :=
  opt bs := GetScore fuel (not_Base r) entry in
  Some ({| not_Base := bs.1; not_Exclude := not_Exclude r |}, bs.2).
Definition not_GetSourceMask (fuel : nat) (r : NotIndexReader) : option (NotIndexReader * Z) :=
  opt bm := GetSourceMask fuel (not_Base r) in
  Some ({| not_Base := bm.1; not_Exclude := not_Exclude r |}, bm.2).
Definition not_Close (r : NotIndexReader) : NotIndexReader :=
  {| not_Base := Close (not_Base r); not_Exclude := Close (not_Exclude r) |}.
End readers.
#[global] Arguments AndIndexReader : clear implicits.
#[global] Arguments OrIndexReader : clear implicits.
#[global] Arguments WeakAndIndexReader : clear implicits.
#[global] Arguments BoostIndexReader : clear implicits.
#[global] Arguments NotIndexReader : clear implicits.

(** * VectorIndexReader *)

Record VectorSearchResult := { vsr_doc_id : Z; vsr_score : f32 }.

Record VectorIndexReader := { vr_Results : list VectorSearchResult; vr_Pos : nat }.

Definition vr_new (results : list VectorSearchResult) : VectorIndexReader :=
  {| vr_Results := stable_sort (fun a b => vsr_doc_id a <=? vsr_doc_id b)%Z results; vr_Pos := 0 |}.

Definition vr_IsEnd (r : VectorIndexReader) : bool := length (vr_Results r) <=? vr_Pos r.

Definition vr_GetDocumentID (r : VectorIndexReader) : Z :=
  match vr_Results r !! vr_Pos r with Some v => vsr_doc_id v | None => NO_MORE_DOCS end.

Definition vr_advance (r : VectorIndexReader) : VectorIndexReader :=
  {| vr_Results := vr_Results r; vr_Pos := S (vr_Pos r) |}.

Definition vr_GoNext (r : VectorIndexReader) : VectorIndexReader :=
  if vr_IsEnd r then r else vr_advance r.

Fixpoint vr_GoUntil_loop (fuel : nat) (r : VectorIndexReader) (target limit : Z) : VectorIndexReader :=
  match fuel with
  | O => r
  | S fuel' =>
      if negb (vr_IsEnd r) && (vr_GetDocumentID r <? target)%Z && (vr_GetDocumentID r <? limit)%Z
      then vr_GoUntil_loop fuel' (vr_advance r) target limit else r
  end.
Definition vr_GoUntil (r : VectorIndexReader) (target limit : Z) : VectorIndexReader :=
  vr_GoUntil_loop (length (vr_Results r) - vr_Pos r) r target limit.

Definition vr_GetScore (r : VectorIndexReader) : f32 :=
  match vr_Results r !! vr_Pos r with Some v => vsr_score v | None => f_of_Z F32 0 end.
Definition vr_GetSourceMask (r : VectorIndexReader) : Z :=
  if vr_IsEnd r then 0%Z else READER_SOURCE_VECTOR.
Definition vr_Close (r : VectorIndexReader) : VectorIndexReader :=
  {| vr_Results := vr_Results r; vr_Pos := length (vr_Results r) |}.

(** * Instances *)

#[export] Instance and_reader {R} `{IndexReader R} : IndexReader (AndIndexReader R) := {
  GoNext := and_GoNext; GoUntil := and_GoUntil; IsEnd := and_IsEnd;
  GetDocumentID := and_GetDocumentID; GetTermFreq := and_GetTermFreq; GetScore := and_GetScore;
  GetSourceMask := and_GetSourceMask; Close := and_Close }.
#[export] Instance or_reader {R} `{IndexReader R} : IndexReader (OrIndexReader R) := {
  GoNext := or_GoNext; GoUntil := or_GoUntil; IsEnd := or_IsEnd;
  GetDocumentID := or_GetDocumentID; GetTermFreq := or_GetTermFreq; GetScore := or_GetScore;
  GetSourceMask := or_GetSourceMask; Close := or_Close }.
#[export] Instance wa_reader {R} `{IndexReader R} : IndexReader (WeakAndIndexReader R) := {
  GoNext := wa_GoNext; GoUntil := wa_GoUntil; IsEnd := wa_IsEnd;
  GetDocumentID := wa_GetDocumentID; GetTermFreq := wa_GetTermFreq; GetScore := wa_GetScore;
  GetSourceMask := wa_GetSourceMask; Close := wa_Close }.
#[export] Instance bo_reader {R} `{IndexReader R} : IndexReader (BoostIndexReader R) := {
  GoNext := bo_GoNext; GoUntil := bo_GoUntil; IsEnd := bo_IsEnd;
  GetDocumentID := bo_GetDocumentID; GetTermFreq := bo_GetTermFreq; GetScore := bo_GetScore;
  GetSourceMask := bo_GetSourceMask; Close := bo_Close }.
#[export] Instance not_reader {R} `{IndexReader R} : IndexReader (NotIndexReader R) := {
  GoNext := not_GoNext; GoUntil := not_GoUntil; IsEnd := not_IsEnd;
  GetDocumentID := not_GetDocumentID; GetTermFreq := not_GetTermFreq; GetScore := not_GetScore;
  GetSourceMask := not_GetSourceMask; Close := not_Close }.
#[export] Instance vr_reader : IndexReader VectorIndexReader := {
  GoNext _ r := Some (vr_GoNext r); GoUntil _ r t l := Some (vr_GoUntil r t l); IsEnd := vr_IsEnd;
  GetDocumentID := vr_GetDocumentID; GetTermFreq _ := 1%Z; GetScore _ r _ := Some (r, vr_GetScore r);
  GetSourceMask _ r := Some (r, vr_GetSourceMask r); Close := vr_Close }.

(** * Lists of children *)

Section children.
Context {R : Type} `{ReaderSpec R}.
Implicit Types cs : list R.
Implicit Types dss : list (list Z).

Abbreviation reads_all := (Forall2 reads).

(** [x] is in every list; in at least one; how many lists hold it. *)
Definition in_all dss (x : Z) : Prop := dss <> [] /\ Forall (fun ds => x ∈ ds) dss.
Definition in_any dss (x : Z) : Prop := Exists (fun ds => x ∈ ds) dss.
Definition count_in dss (x : Z) : nat := length (filter (fun ds => x ∈ ds) dss).

Lemma map_children_spec {B} (f : nat -> R -> option (R * B)) (g : list Z -> list Z) cs dss :
  reads_all cs dss ->
  (forall c ds, ds ∈ dss -> reads c ds ->
     exists c' b, converges (fun n => f n c) (c', b) /\ reads c' (g ds)) ->
  exists cs' bs, converges (fun n => map_children (f n) cs) (cs', bs) /\ reads_all cs' (map g dss).
Proof.
  induction 1 as [|c ds cs dss Hc Hcs IH]; intros Hf.
  { exists [], []. split; [apply converges_now|constructor]. }
  destruct (Hf c ds ltac:(apply elem_of_cons; by left) Hc) as (c' & b & Hconv & Hc').
  destruct IH as (cs' & bs & Hconvs & Hcs').
  { intros c0 ds0 Hin. apply Hf. apply elem_of_cons. by right. }
  exists (c' :: cs'), (b :: bs). split; [|by constructor].
  cbn [map_children]. eapply converges_bind; [exact Hconv|]. cbn [fst snd].
  eapply converges_bind; [exact Hconvs|]. apply converges_now.
Qed.

Lemma map_indices_spec {B} (f : nat -> R -> option (R * B)) idx cs dss :
  reads_all cs dss -> Forall (fun i => i < length cs) idx ->
  (forall c ds, reads c ds -> exists c' b, converges (fun n => f n c) (c', b) /\ reads c' ds) ->
  exists cs' bs, converges (fun n => map_indices (f n) idx cs) (cs', bs) /\ reads_all cs' dss.
Proof.
  intros Hcs Hidx Hf. revert cs Hcs Hidx.
  induction idx as [|i idx IH]; intros cs Hcs Hidx; cbn [map_indices].
  { exists cs, []. split; [apply converges_now|done]. }
  inversion Hidx as [|? ? Hi Hidx']; subst.
  destruct (lookup_lt_is_Some_2 cs i Hi) as [c Hc].
  destruct (Forall2_lookup_l _ _ _ _ _ Hcs Hc) as (ds & Hds & Hr).
  destruct (Hf c ds Hr) as (c' & b & Hconv & Hr').
  assert (Hcs' : reads_all (<[i := c']> cs) dss).
  { rewrite <- (list_insert_id dss i ds Hds). by apply Forall2_insert. }
  destruct (IH (<[i := c']> cs) Hcs') as (cs' & bs & Hconvs & Hfin).
  { eapply Forall_impl; [exact Hidx'|]. intros k Hk. by rewrite length_insert. }
  exists cs', (b :: bs). split; [|done]. rewrite Hc.
  eapply converges_bind; [exact Hconv|]. cbn [fst snd].
  eapply converges_bind; [exact Hconvs|]. apply converges_now.
Qed.

Lemma reads_all_docs cs dss : reads_all cs dss -> Forall docs_ok dss.
Proof. induction 1 as [|c ds cs dss Hc _ IH]; constructor; [by eapply reads_docs|done]. Qed.

Lemma reads_all_end cs dss : reads_all cs dss -> existsb IsEnd cs = true <-> [] ∈ dss.
Proof.
  induction 1 as [|c ds cs dss Hc _ IH]; cbn; [by rewrite elem_of_nil|].
  rewrite orb_true_iff, IH, (reads_unique_end _ _ Hc), elem_of_cons. naive_solver.
Qed.

Lemma reads_all_heads cs dss :
  reads_all cs dss -> [] ∉ dss -> map GetDocumentID cs = map head_doc dss.
Proof.
  induction 1 as [|c ds cs dss Hc _ IH]; intros Hn; cbn; [done|].
  apply not_elem_of_cons in Hn as [Hne Hn]. rewrite IH by done. f_equal.
  destruct ds as [|d ds]; [done|]. by apply (reads_doc _ _ _ Hc).
Qed.

Lemma reads_all_child_docs cs dss : reads_all cs dss -> map child_doc cs = map head_doc dss.
Proof.
  induction 1 as [|c ds cs dss Hc _ IH]; cbn; [done|]. f_equal; [by apply child_doc_head|done].
Qed.

Lemma max_doc_spec (l : list Z) : l <> [] -> max_doc l ∈ l /\ Forall (fun d => d <= max_doc l)%Z l.
Proof.
  destruct l as [|d l]; [done|]. intros _. cbn [max_doc]. revert d.
  induction l as [|x l IH]; intros d; cbn [fold_left].
  { split; [by apply list_elem_of_singleton|repeat constructor; lia]. }
  destruct (IH (Z.max d x)) as [Hin Hall]. inversion Hall as [|? ? Hm Hl]; subst. split.
  - apply elem_of_cons in Hin as [Heq|Hin].
    + rewrite Heq. destruct (Z.max_spec d x) as [[_ ->]|[_ ->]].
      * apply elem_of_cons. right. apply elem_of_cons. by left.
      * apply elem_of_cons. by left.
    + apply elem_of_cons. right. apply elem_of_cons. by right.
  - constructor; [lia|]. constructor; [lia|done].
Qed.

Lemma min_doc_spec (l : list Z) : l <> [] -> min_doc l ∈ l /\ Forall (fun d => min_doc l <= d)%Z l.
Proof.
  destruct l as [|d l]; [done|]. intros _. cbn [min_doc]. revert d.
  induction l as [|x l IH]; intros d; cbn [fold_left].
  { split; [by apply list_elem_of_singleton|repeat constructor; lia]. }
  destruct (IH (Z.min d x)) as [Hin Hall]. inversion Hall as [|? ? Hm Hl]; subst. split.
  - apply elem_of_cons in Hin as [Heq|Hin].
    + rewrite Heq. destruct (Z.min_spec d x) as [[_ ->]|[_ ->]].
      * apply elem_of_cons. by left.
      * apply elem_of_cons. right. apply elem_of_cons. by left.
    + apply elem_of_cons. right. apply elem_of_cons. by right.
  - constructor; [lia|]. constructor; [lia|done].
Qed.
End children.

Definition total_docs (dss : list (list Z)) : nat := sum_list_with length dss.

Lemma total_docs_cons ds dss : total_docs (ds :: dss) = length ds + total_docs dss.
Proof. done. Qed.

(** * AndIndexReader reads the intersection *)

Section and_spec.
Context {R : Type} `{ReaderSpec R}.
Implicit Types cs : list R.
Implicit Types dss : list (list Z).

(** All heads agree, or some list is empty. *)
Definition aligned dss : Prop := [] ∈ dss \/ exists d, Forall (fun ds => head_doc ds = d /\ ds <> []) dss.

(** Lists cut at the pivot. *)
Definition cut (pivot : Z) (ds ds' : list Z) : Prop := ds' = ds \/ ds' = skip_docs pivot ds.

Lemma and_align_children_spec pivot cs dss :
  Forall2 reads cs dss -> [] ∉ dss -> Forall (fun ds => head_doc ds <= pivot)%Z dss ->
  (pivot <= NO_MORE_DOCS)%Z ->
  exists cs' dss' st, converges (fun n => and_align_children n pivot cs) (cs', st) /\
    Forall2 reads cs' dss' /\ Forall2 (cut pivot) dss dss' /\
    match st with
    | Aligned => Forall (fun ds => head_doc ds = pivot /\ ds <> []) dss'
    | Ended => [] ∈ dss'
    | Misaligned => total_docs dss' < total_docs dss
    end /\ total_docs dss' <= total_docs dss.
Proof.
  intros Hcs. induction Hcs as [|c ds cs dss Hc Hcs IH]; intros Hne Hle Hp; cbn [and_align_children].
  { exists [], [], Aligned. split; [apply converges_now|]. split_and!; try constructor. }
  apply not_elem_of_cons in Hne as [Hds Hne]. inversion Hle as [|? ? Hl Hle']; subst. cbn beta in Hl.
  destruct (IH Hne Hle' Hp) as (cs' & dss' & st & Hconv & Hr & Hcut & Hst & Htot). clear IH.
  assert (Hid : forall dss : list (list Z), Forall2 (cut pivot) dss dss)
    by (intros l; apply Forall_Forall2_diag, Forall_true; by left).
  assert (Hdoc : GetDocumentID c = head_doc ds) by (destruct ds; [done|]; by apply (reads_doc _ _ _ Hc)).
  rewrite Hdoc. destruct (Z.eqb_spec (head_doc ds) pivot) as [Heq|Hneq].
  { exists (c :: cs'), (ds :: dss'), st. split_and!.
    - eapply converges_bind; [exact Hconv|]. apply converges_now.
    - by constructor.
    - constructor; [by left|done].
    - destruct st; [|apply elem_of_cons; by right|rewrite !total_docs_cons; lia].
      constructor; [|done]. split; [done|]. congruence.
    - rewrite !total_docs_cons. lia. }
  destruct (reads_until c ds pivot Hc Hp) as (c' & Hconv' & Hc').
  pose proof (skip_docs_shorter pivot ds ltac:(lia) ltac:(congruence)) as Hshort.
  destruct (IsEnd c') eqn:Eend.
  { apply (reads_unique_end _ _ Hc') in Eend.
    exists (c' :: cs), (skip_docs pivot ds :: dss), Ended. split_and!.
    - eapply converges_bind; [exact Hconv'|].
      replace (IsEnd c') with true by (symmetry; by apply (reads_unique_end _ _ Hc')).
      apply converges_now.
    - by constructor.
    - constructor; [by right|apply Hid].
    - rewrite Eend. apply elem_of_cons. by left.
    - rewrite !total_docs_cons. lia. }
  assert (Hne' : skip_docs pivot ds <> []).
  { intros E. apply (reads_unique_end _ _ Hc') in E. congruence. }
  assert (Hdoc' : GetDocumentID c' = head_doc (skip_docs pivot ds)).
  { destruct (skip_docs pivot ds) eqn:E; [done|]. by apply (reads_doc _ _ _ Hc'). }
  destruct (Z.eqb_spec (GetDocumentID c') pivot) as [Heq|Hneq'].
  - exists (c' :: cs'), (skip_docs pivot ds :: dss'), st. split_and!.
    + eapply converges_bind; [exact Hconv'|]. rewrite Eend, (proj2 (Z.eqb_eq _ _) Heq). cbn [negb].
      eapply converges_bind; [exact Hconv|]. apply converges_now.
    + by constructor.
    + constructor; [by right|done].
    + destruct st; [|apply elem_of_cons; by right|rewrite !total_docs_cons; lia].
      constructor; [|done]. split; [congruence|done].
    + rewrite !total_docs_cons. lia.
  - exists (c' :: cs), (skip_docs pivot ds :: dss), Misaligned. split_and!.
    + eapply converges_bind; [exact Hconv'|]. rewrite Eend, (proj2 (Z.eqb_neq _ _) Hneq'). cbn [negb].
      apply converges_now.
    + by constructor.
    + constructor; [by right|apply Hid].
    + rewrite !total_docs_cons. lia.
    + rewrite !total_docs_cons. lia.
Qed.

Lemma cut_in_all pivot dss dss' x :
  Forall docs_ok dss -> Forall2 (cut pivot) dss dss' -> (exists ds, ds ∈ dss /\ head_doc ds = pivot) ->
  in_all dss x <-> in_all dss' x.
Proof.
  intros Hok Hcut (ds0 & Hin0 & Hp). unfold in_all.
  assert (Hnil : dss <> [] <-> dss' <> []).
  { apply Forall2_length in Hcut. by destruct dss, dss'. }
  rewrite Hnil. assert (Hge : Forall (fun ds => x ∈ ds) dss -> (pivot <= x)%Z).
  { intros Hall. rewrite Forall_forall in Hall, Hok. rewrite <- Hp. by apply head_doc_min; auto. }
  assert (Hiff : (pivot <= x)%Z -> Forall (fun ds => x ∈ ds) dss <-> Forall (fun ds => x ∈ ds) dss').
  { intros Hx. clear Hge Hnil Hin0 Hp. induction Hcut as [|ds ds' dss dss' Hc _ IH]; [done|].
    inversion Hok; subst. rewrite !Forall_cons, IH by done.
    destruct Hc as [->| ->]; [done|]. rewrite elem_skip by done. tauto. }
  assert (Hsub : Forall (fun ds => x ∈ ds) dss' -> Forall (fun ds => x ∈ ds) dss).
  { clear Hge Hnil Hin0 Hp Hiff. induction Hcut as [|ds ds' dss dss' Hc _ IH]; [done|].
    inversion Hok; subst. rewrite !Forall_cons. intros [Hx Hf]. split; [|by apply IH].
    destruct Hc as [->| ->]; [done|]. by apply elem_skip in Hx as [? _]. }
  split; intros [Hn Hall]; split; try done.
  - apply Hiff; auto.
  - auto.
Qed.

(** AlignToPivot terminates on an intersection-preserving, aligned state. *)
Lemma and_AlignToPivot_spec cs dss :
  Forall2 reads cs dss ->
  exists cs' dss', converges (fun n => and_AlignToPivot n cs) cs' /\ Forall2 reads cs' dss' /\
    aligned dss' /\ (forall x, in_all dss x <-> in_all dss' x).
Proof.
  remember (S (total_docs dss)) as N eqn:HN. assert (Hlt : total_docs dss < N) by lia. clear HN.
  revert cs dss Hlt. induction N as [|N IH]; intros cs dss Hlt Hcs; [lia|].
  pose proof (reads_all_docs _ _ Hcs) as Hok.
  destruct (existsb IsEnd cs) eqn:Eend.
  { exists cs, dss. split_and!; [|done|left; by apply (reads_all_end _ _ Hcs)|done].
    eapply converges_S; [|apply converges_now]. intros n. cbn [and_AlignToPivot]. by rewrite Eend. }
  assert (Hne : [] ∉ dss) by (intros Hin; apply (reads_all_end _ _ Hcs) in Hin; congruence).
  pose proof (reads_all_heads _ _ Hcs Hne) as Hheads.
  set (pivot := max_doc (map head_doc dss)).
  assert (Hp : Forall (fun ds => head_doc ds <= pivot)%Z dss /\ (pivot <= NO_MORE_DOCS)%Z /\
    (dss <> [] -> exists ds, ds ∈ dss /\ head_doc ds = pivot)).
  { destruct (decide (dss = [])) as [->|Hnil]; [by split_and!|].
    destruct (max_doc_spec (map head_doc dss)) as [Hin Hall]; [by destruct dss|]. fold pivot in Hin, Hall.
    apply list_elem_of_fmap in Hin as (ds & Heq & Hin). split_and!.
    - apply Forall_forall. intros ds1 Hd1. rewrite Forall_forall in Hall. apply Hall. by apply (list_elem_of_fmap_2 head_doc).
    - rewrite Heq. rewrite Forall_forall in Hok. specialize (Hok ds Hin).
      destruct ds as [|d ds]; cbn; [done|]. apply docs_ok_cons in Hok. lia.
    - intros _. by exists ds. }
  destruct Hp as (Hle & Hpm & Hatt).
  destruct (and_align_children_spec pivot cs dss Hcs Hne Hle Hpm)
    as (cs' & dss' & st & Hconv & Hr & Hcut & Hst & Htot).
  assert (Hall : forall x, in_all dss x <-> in_all dss' x).
  { intros x. destruct (decide (dss = [])) as [->|Hnil].
    - by inversion Hcut; subst.
    - apply (cut_in_all pivot); auto. }
  assert (Hunfold : forall n, and_AlignToPivot (S n) cs =
    match and_align_children n pivot cs with
    | None => None | Some (cs', Misaligned) => and_AlignToPivot n cs' | Some (cs', _) => Some cs' end).
  { intros n. cbn [and_AlignToPivot]. rewrite Eend, Hheads. done. }
  destruct st.
  - exists cs', dss'. split_and!; [|done| |done].
    + eapply converges_S; [exact Hunfold|]. eapply (converges_ext _ (fun n =>
        match and_align_children n pivot cs with Some x => match x with
          | (cs', Misaligned) => and_AlignToPivot n cs' | (cs', _) => Some cs' end | None => None end));
        [by intros n; destruct (and_align_children n pivot cs) as [[? []]|]|].
      eapply converges_bind; [exact Hconv|]. apply converges_now.
    + right. by exists pivot.
  - exists cs', dss'. split_and!; [|done|by left|done].
    eapply converges_S; [exact Hunfold|]. eapply (converges_ext _ (fun n =>
        match and_align_children n pivot cs with Some x => match x with
          | (cs', Misaligned) => and_AlignToPivot n cs' | (cs', _) => Some cs' end | None => None end));
        [by intros n; destruct (and_align_children n pivot cs) as [[? []]|]|].
    eapply converges_bind; [exact Hconv|]. apply converges_now.
  - destruct (IH cs' dss' ltac:(lia) Hr) as (cs2 & dss2 & Hconv2 & Hr2 & Hal & Hall2).
    exists cs2, dss2. split_and!; [|done|done|intros x; by rewrite Hall].
    eapply converges_S; [exact Hunfold|]. eapply (converges_ext _ (fun n =>
        match and_align_children n pivot cs with Some x => match x with
          | (cs', Misaligned) => and_AlignToPivot n cs' | (cs', _) => Some cs' end | None => None end));
        [by intros n; destruct (and_align_children n pivot cs) as [[? []]|]|].
    eapply converges_bind; [exact Hconv|]. exact Hconv2.
Qed.

(** The reader holds children that read [dss] and stands on their first common document. *)
Definition and_reads (r : AndIndexReader R) (ds : list Z) : Prop :=
  exists dss, Forall2 reads (and_Children r) dss /\ aligned dss /\ denotes (in_all dss) ds.

(** Whatever the children, an aligned state exists after the loop and reads the intersection. *)
Lemma and_aligned_reads cs dss ds :
  Forall2 reads cs dss -> denotes (in_all dss) ds ->
  exists r', converges (fun n => and_with (and_AlignToPivot n cs)) r' /\ and_reads r' ds.
Proof.
  intros Hcs Hden. destruct (and_AlignToPivot_spec cs dss Hcs) as (cs' & dss' & Hconv & Hr & Hal & Hall).
  exists {| and_Children := cs' |}. split.
  - unfold and_with. eapply converges_bind; [exact Hconv|]. apply converges_now.
  - exists dss'. split_and!; [done|done|]. by eapply denotes_iff.
Qed.

Lemma and_reads_end r ds : and_reads r ds -> and_IsEnd r = bool_decide (ds = []).
Proof.
  intros (dss & Hcs & Hal & Hden). unfold and_IsEnd.
  destruct (and_Children r) as [|c cs] eqn:E.
  { inversion Hcs; subst. symmetry. apply bool_decide_eq_true_2.
    eapply denotes_none; [exact Hden|]. by intros x [? _]. }
  rewrite <- E in *. destruct (existsb IsEnd (and_Children r)) eqn:Eend; symmetry.
  - apply bool_decide_eq_true_2. apply (reads_all_end _ _ Hcs) in Eend.
    eapply denotes_none; [exact Hden|]. intros x [_ Hx]. rewrite Forall_forall in Hx.
    specialize (Hx [] Eend). by apply elem_of_nil in Hx.
  - apply bool_decide_eq_false_2. intros ->. destruct Hal as [Hin|[d Hd]].
    + apply (reads_all_end _ _ Hcs) in Hin. congruence.
    + destruct Hden as [_ Hden]. specialize (Hden d). rewrite elem_of_nil in Hden. apply Hden. split.
      * intros ->. rewrite E in Hcs. inversion Hcs.
      * eapply Forall_impl; [exact Hd|]. intros ds [<- Hne]. destruct ds; [done|].
        apply elem_of_cons. by left.
Qed.

(** On a document, all children stand on it. *)
Lemma and_reads_heads r d ds :
  and_reads r (d :: ds) ->
  exists dss, Forall2 reads (and_Children r) dss /\ denotes (in_all dss) (d :: ds) /\ dss <> [] /\
    Forall (fun l => head_doc l = d /\ l <> []) dss.
Proof.
  intros (dss & Hcs & Hal & Hden). exists dss. split_and!; [done|done| |].
  - intros ->. destruct Hden as [_ Hden]. destruct (proj1 (Hden d)) as [? _]; [|done].
    apply elem_of_cons. by left.
  - destruct Hal as [Hin|[d' Hd']].
    + exfalso. destruct Hden as [_ Hden].
      destruct (proj1 (Hden d) ltac:(apply elem_of_cons; by left)) as [_ Hall].
      rewrite Forall_forall in Hall. specialize (Hall [] Hin). by apply elem_of_nil in Hall.
    + assert (head_doc (d :: ds) = d') as Heq; [|cbn in Heq; by subst].
      pose proof (reads_all_docs _ _ Hcs) as Hok.
      assert (Hne : dss <> []).
      { intros ->. destruct Hden as [_ Hden]. destruct (proj1 (Hden d)) as [? _]; [|done].
        apply elem_of_cons. by left. }
      apply (denotes_head _ _ _ Hden).
      * split; [done|]. eapply Forall_impl; [exact Hd'|]. intros l [<- Hl]. destruct l; [done|].
        apply elem_of_cons. by left.
      * intros x [_ Hx]. destruct dss as [|l dss]; [done|]. inversion Hx; inversion Hd'; inversion Hok; subst.
        destruct H6 as [<- _]. by apply head_doc_min.
Qed.
End and_spec.

Section and_instance.
Context {R : Type} `{ReaderSpec R}.

Lemma in_all_tail dss d x :
  Forall docs_ok dss -> Forall (fun l => head_doc l = d /\ l <> []) dss ->
  in_all (map tail dss) x <-> in_all dss x /\ (dss <> [] -> d < x)%Z.
Proof.
  intros Hok Hd. unfold in_all. split.
  - intros [Hne Hall]. assert (dss <> []) by (by intros ->).
    rewrite Forall_forall in Hok, Hd, Hall.
    assert (Hl : forall l, l ∈ dss -> x ∈ l /\ (d < x)%Z).
    { intros l Hl. specialize (Hall (tail l) ltac:(by apply (list_elem_of_fmap_2 tail))).
      apply elem_tail in Hall as [? Hlt]; [|auto]. destruct (Hd l Hl) as [<- _]. done. }
    split; [split; [done|]|].
    + apply Forall_forall. intros l Hin. by apply Hl.
    + intros _. destruct dss as [|l dss]; [done|]. apply (Hl l), elem_of_cons. by left.
  - intros [[Hne Hall] Hlt]. specialize (Hlt Hne). split; [by destruct dss|].
    apply Forall_forall. intros l' Hin. apply list_elem_of_fmap in Hin as (l & -> & Hin).
    rewrite Forall_forall in Hok, Hd, Hall. apply elem_tail; [auto|]. split; [auto|].
    by destruct (Hd l Hin) as [-> _].
Qed.

Lemma in_all_skip dss t x :
  Forall docs_ok dss -> dss <> [] -> in_all (map (skip_docs t) dss) x <-> in_all dss x /\ (t <= x)%Z.
Proof.
  intros Hok Hne. unfold in_all. rewrite Forall_forall in Hok. split.
  - intros [_ Hall]. rewrite Forall_forall in Hall.
    assert (Hl : forall l, l ∈ dss -> x ∈ l /\ (t <= x)%Z).
    { intros l Hl. apply elem_skip; [auto|]. apply Hall. by apply (list_elem_of_fmap_2 (skip_docs t)). }
    split; [split; [done|]|].
    + apply Forall_forall. intros l Hin. by apply Hl.
    + destruct dss as [|l dss]; [done|]. apply (Hl l), elem_of_cons. by left.
  - intros [[_ Hall] Hlt]. split; [by destruct dss|]. rewrite Forall_forall in Hall.
    apply Forall_forall. intros l' Hin. apply list_elem_of_fmap in Hin as (l & -> & Hin).
    apply elem_skip; auto.
Qed.

Lemma and_next_spec r ds :
  and_reads r ds -> exists r', converges (fun n => and_GoNext n r) r' /\ and_reads r' (tail ds).
Proof.
  intros Hr. unfold and_GoNext. rewrite (and_reads_end _ _ Hr). case_bool_decide as E.
  { subst. exists r. split; [apply converges_now|done]. }
  destruct ds as [|d ds]; [done|]. destruct (and_reads_heads r d ds Hr) as (dss & Hcs & Hden & Hne & Hd).
  pose proof (reads_all_docs _ _ Hcs) as Hok.
  assert (Hdoc : and_GetDocumentID r = d).
  { unfold and_GetDocumentID. rewrite (and_reads_end _ _ Hr). cbn.
    destruct (and_Children r) as [|c cs]; inversion Hcs; subst; [done|].
    inversion Hd as [|? ? [Hh Hn] _]; subst. destruct y; [done|]. cbn. by eapply reads_doc. }
  rewrite Hdoc.
  destruct (map_children_spec (fun n c =>
      if negb (IsEnd c) && (GetDocumentID c =? d)%Z
      then opt c' := GoNext n c in Some (c', tt) else Some (c, tt)) tail _ _ Hcs)
    as (cs' & bs & Hconv & Hcs').
  { intros c l Hl Hc. rewrite Forall_forall in Hd. destruct (Hd l Hl) as [Hh Hln].
    destruct (reads_next c l Hc) as (c' & Hc1 & Hc2). exists c', tt. split; [|done].
    destruct l as [|x l]; [done|]. cbn in Hh. subst x.
    rewrite (reads_end _ _ Hc), (reads_doc _ _ _ Hc). cbn. rewrite Z.eqb_refl.
    eapply converges_bind; [exact Hc1|]. apply converges_now. }
  destruct (and_aligned_reads cs' (map tail dss) ds Hcs') as (r' & Hconv' & Hr').
  { eapply denotes_iff; [|apply (denotes_tail _ _ Hden)]. intros x. cbn [head_doc].
    rewrite in_all_tail by done. tauto. }
  exists r'. split; [|done]. eapply converges_bind; [exact Hconv|]. exact Hconv'.
Qed.

Lemma and_until_spec r ds t :
  and_reads r ds -> (t <= NO_MORE_DOCS)%Z ->
  exists r', converges (fun n => and_GoUntil n r t NO_MORE_DOCS) r' /\ and_reads r' (skip_docs t ds).
Proof.
  intros (dss & Hcs & Hal & Hden) Ht. unfold and_GoUntil.
  pose proof (reads_all_docs _ _ Hcs) as Hok.
  destruct (map_children_spec (fun n c => opt c' := GoUntil n c t NO_MORE_DOCS in Some (c', tt))
    (skip_docs t) _ _ Hcs) as (cs' & bs & Hconv & Hcs').
  { intros c l _ Hc. destruct (reads_until c l t Hc Ht) as (c' & Hc1 & Hc2). exists c', tt.
    split; [|done]. eapply converges_bind; [exact Hc1|]. apply converges_now. }
  destruct (and_aligned_reads cs' (map (skip_docs t) dss) (skip_docs t ds) Hcs') as (r' & Hconv' & Hr').
  { destruct (decide (dss = [])) as [->|Hne].
    - assert (ds = []) as -> by (eapply denotes_none; [exact Hden|]; by intros x [? _]). exact Hden.
    - eapply denotes_iff; [|apply (denotes_skip _ t _ Hden)]. intros x. by rewrite in_all_skip. }
  exists r'. split; [|done]. eapply converges_bind; [exact Hconv|]. exact Hconv'.
Qed.

Lemma and_doc_spec r d ds : and_reads r (d :: ds) -> and_GetDocumentID r = d.
Proof.
  intros Hr. destruct (and_reads_heads r d ds Hr) as (dss & Hcs & _ & Hne & Hd).
  unfold and_GetDocumentID. rewrite (and_reads_end _ _ Hr). cbn.
  destruct (and_Children r) as [|c cs]; inversion Hcs as [|? l]; subst; [done|].
  inversion Hd as [|? ? [Hh Hn] _]; subst. destruct l; [done|]. cbn. by eapply reads_doc.
Qed.

Lemma and_keep {B} (f : nat -> R -> option (R * B)) r ds :
  and_reads r ds -> (forall c l, reads c l -> exists c' b, converges (fun n => f n c) (c', b) /\ reads c' l) ->
  exists cs' bs, converges (fun n => map_children (f n) (and_Children r)) (cs', bs) /\
    and_reads {| and_Children := cs' |} ds.
Proof.
  intros (dss & Hcs & Hal & Hden) Hf.
  destruct (map_children_spec f id _ _ Hcs) as (cs' & bs & Hconv & Hcs'); [by auto|].
  exists cs', bs. split; [done|]. exists dss. rewrite map_id in Hcs'. done.
Qed.

#[export] Program Instance and_spec : ReaderSpec (AndIndexReader R) := {| reads := and_reads |}.
Next Obligation. intros r ds (dss & _ & _ & Hd & _). done. Qed.
Next Obligation. apply and_reads_end. Qed.
Next Obligation. apply and_doc_spec. Qed.
Next Obligation. apply and_next_spec. Qed.
Next Obligation. apply and_until_spec. Qed.
Next Obligation.
  intros r ds e Hr. destruct (and_keep (fun n c => GetScore n c e) r ds Hr) as (cs' & bs & Hc & Hr').
  { intros c l. apply reads_score. }
  eexists _, _. split; [|exact Hr']. eapply converges_bind; [exact Hc|]. apply converges_now.
Qed.
Next Obligation.
  intros r ds Hr. destruct (and_keep (fun n c =>
      if negb (IsEnd c) && (GetDocumentID c =? and_GetDocumentID r)%Z
      then GetSourceMask n c else Some (c, 0%Z)) r ds Hr) as (cs' & bs & Hc & Hr').
  { intros c l Hl. destruct (reads_mask c l Hl) as (c' & m & Hc1 & Hc2). case_match.
    - by exists c', m.
    - exists c, 0%Z. split; [apply converges_now|done]. }
  eexists _, _. split; [|exact Hr']. eapply converges_bind; [exact Hc|]. apply converges_now.
Qed.

(** C25: an AndIndexReader over any lawful readers terminates and reads exactly the documents that
    all of them read, in increasing order; moving, seeking and scoring keep the contract (the
    instance above), so it can itself be a child. *)
Theorem AndIndexReader_intersection cs dss :
  Forall2 reads cs dss ->
  exists r ds, converges (fun n => and_new n cs) r /\ reads r ds /\
    forall x, x ∈ ds <-> dss <> [] /\ Forall (fun l => x ∈ l) dss.
Proof.
  intros Hcs. pose proof (reads_all_docs _ _ Hcs) as Hok.
  destruct (denotes_exists (in_all dss) (concat dss)) as [ds Hds].
  - intros x [Hne Hall]. destruct dss as [|l dss]; [done|]. cbn. apply elem_of_app. left.
    by inversion Hall.
  - apply Forall_concat. eapply Forall_impl; [exact Hok|]. intros l Hl. apply Hl.
  - destruct (and_aligned_reads cs dss ds Hcs Hds) as (r & Hconv & Hr). exists r, ds.
    split; [done|]. split; [done|]. apply Hds.
Qed.
End and_instance.

(** * Witness *)

#[local] Existing Instance list_reader.
#[local] Existing Instance list_reader_spec.

Definition sample_docs : list (list Z) := [[1; 4; 7; 9]; [2; 4; 9; 12]; [4; 5; 9]]%Z.

Lemma sample_docs_read : Forall2 reads sample_docs sample_docs.
Proof. repeat (apply Forall2_cons; split; [by apply reads_list|]). apply Forall2_nil_2. Qed.

Lemma AndIndexReader_intersection_witness :
  exists r ds, converges (fun n => and_new n sample_docs) r /\ reads r ds /\ 9%Z ∈ ds /\ 1%Z ∉ ds.
Proof.
  destruct (AndIndexReader_intersection sample_docs sample_docs sample_docs_read) as (r & ds & Hc & Hr & Hx).
  exists r, ds. split; [exact Hc|]. split; [exact Hr|]. split.
  - apply Hx. split; [discriminate|]. repeat constructor; set_solver.
  - intros Hin. apply Hx in Hin as [_ Hall]. inversion Hall as [|? ? _ H2]; subst. inversion H2; subst. set_solver.
Defined.
