(* ===== verification/Unions.v ===== *)
(** OrIndexReader and WeakAndIndexReader (the definitions are in Composites.v)
    keep the reader contract: the first reads the union of its children, the
    second the documents that enough children read. Both are instances of one
    argument, over how many children hold a document. *)

From Stdlib Require Import ZArith Lia ZifyBool Bool List.
From stdpp Require Import base list list_numbers gmap sorting.
From S2P Require Import Prelude Floats IndexReader Composites.

Local Open Scope moon_scope.

(** [g] applied at each of the indices in turn. *)
Definition alter_at {A} (g : A -> A) (idx : list nat) (l : list A) : list A :=
  fold_left (fun l i => alter g i l) idx l.

(** The documents in at least [m] of the lists. *)
Definition at_least (m : Z) (dss : list (list Z)) : list Z :=
  docs_where (fun x => (Z.max m 1 <= Z.of_nat (count_in dss x))%Z) (concat dss).

Lemma filter_ext_elem {A} (P Q : A -> Prop) `{!forall x, Decision (P x), !forall x, Decision (Q x)} (l : list A) :
  (forall x, x ∈ l -> P x <-> Q x) -> filter P l = filter Q l.
Proof.
  induction l as [|x l IH]; intros Hiff; [done|]. rewrite !filter_cons.
  rewrite (decide_ext _ _ _ _ (Hiff x (list_elem_of_here _ _))), IH; [done|].
  intros y Hy. by apply Hiff, list_elem_of_further.
Qed.

Lemma alter_insert {A} (l : list A) i (g : A -> A) x : l !! i = Some x -> alter g i l = <[i := g x]> l.
Proof. revert i. induction l as [|y l IH]; intros [|i] Hi; simplify_eq/=; [done|]. f_equal. by apply IH. Qed.

Section alter_at.
Context {A : Type} (g : A -> A).

Lemma length_alter_at idx (l : list A) : length (alter_at g idx l) = length l.
Proof.
  unfold alter_at. revert l. induction idx as [|i idx IH]; intros l; cbn; [done|].
  by rewrite IH, length_alter.
Qed.

Lemma lookup_alter_at idx (l : list A) j :
  NoDup idx -> alter_at g idx l !! j = (if decide (j ∈ idx) then g <$> l !! j else l !! j).
Proof.
  unfold alter_at. revert l. induction idx as [|i idx IH]; intros l Hnd; cbn [fold_left].
  { by rewrite decide_False by apply not_elem_of_nil. }
  apply NoDup_cons in Hnd as [Hi Hnd]. rewrite IH by done. destruct (decide (j = i)) as [->|Hne].
  - rewrite decide_False by done. rewrite decide_True by (apply elem_of_cons; by left).
    apply list_lookup_alter_eq.
  - rewrite list_lookup_alter_ne by done. assert (j ∈ i :: idx <-> j ∈ idx) as Heq.
    { rewrite elem_of_cons. naive_solver. }
    by rewrite (decide_ext _ _ _ _ Heq).
Qed.

Lemma alter_at_seq (l : list A) : alter_at g (seq 0 (length l)) l = map g l.
Proof.
  apply list_eq. intros j. rewrite lookup_alter_at by apply NoDup_seq.
  rewrite list_lookup_fmap. case_decide as Hj; [done|]. rewrite elem_of_seq in Hj.
  by rewrite lookup_ge_None_2 by lia.
Qed.
End alter_at.

(** The documents left after the children that stand on [d] have moved on. *)
Definition step_docs (d : Z) (dss : list (list Z)) : list (list Z) :=
  map (fun ds => if (head_doc ds =? d)%Z then tail ds else ds) dss.

Section counts.
Implicit Types dss : list (list Z).

Lemma count_in_cons ds dss x :
  count_in (ds :: dss) x = (if decide (x ∈ ds) then 1 else 0) + count_in dss x.
Proof. unfold count_in. rewrite filter_cons. by case_decide. Qed.

Lemma count_in_map (f : list Z -> list Z) dss x :
  (forall ds, ds ∈ dss -> x ∈ f ds <-> x ∈ ds) -> count_in (map f dss) x = count_in dss x.
Proof.
  induction dss as [|ds dss IH]; intros Hf; cbn [map]; [done|]. rewrite !count_in_cons, IH.
  - by rewrite (decide_ext _ _ _ _ (Hf ds (list_elem_of_here _ _))).
  - intros l Hl. by apply Hf, list_elem_of_further.
Qed.

Lemma count_in_zero dss x : (forall ds, ds ∈ dss -> x ∉ ds) -> count_in dss x = 0.
Proof.
  induction dss as [|ds dss IH]; intros Hf; [done|]. rewrite count_in_cons, IH.
  - rewrite decide_False; [done|]. apply Hf, list_elem_of_here.
  - intros l Hl. by apply Hf, list_elem_of_further.
Qed.

Lemma count_in_pos dss x : (1 <= count_in dss x) <-> Exists (fun ds => x ∈ ds) dss.
Proof.
  induction dss as [|ds dss IH]; [rewrite Exists_nil; cbn; lia|].
  rewrite count_in_cons, Exists_cons, <- IH. case_decide; split; try tauto; lia.
Qed.

Lemma at_least_denotes m dss :
  Forall docs_ok dss -> denotes (fun x => (Z.max m 1 <= Z.of_nat (count_in dss x))%Z) (at_least m dss).
Proof.
  intros Hok. apply docs_where_denotes; [|by apply concat_range]. intros x Hx.
  assert (Hex : 1 <= count_in dss x) by lia. apply count_in_pos, Exists_exists in Hex as (l & Hl & Hxl).
  apply list_elem_of_In, in_concat. exists l. by rewrite <- !list_elem_of_In.
Qed.

Lemma count_in_step dss d x :
  Forall docs_ok dss -> Forall (fun ds => d <= head_doc ds)%Z dss ->
  count_in (step_docs d dss) x = (if (d <? x)%Z then count_in dss x else 0).
Proof.
  intros Hok Hmin. rewrite Forall_forall in Hok, Hmin. unfold step_docs. case_test.
  - apply count_in_map. intros ds Hin. case_test; [|done].
    rewrite elem_tail by auto. split; [tauto|]. split; [done|lia].
  - apply count_in_zero. intros ds' Hin. apply list_elem_of_fmap in Hin as (ds & -> & Hin).
    specialize (Hmin ds Hin). cbn beta in Hmin. intros Hx. revert Hx. case_test.
    + rewrite elem_tail by auto. lia.
    + intros Hx. pose proof (head_doc_min ds x (Hok ds Hin) Hx). lia.
Qed.

Lemma count_in_skip dss t x :
  Forall docs_ok dss ->
  count_in (map (skip_docs t) dss) x = (if (t <=? x)%Z then count_in dss x else 0).
Proof.
  intros Hok. rewrite Forall_forall in Hok. case_test.
  - apply count_in_map. intros ds Hin. rewrite elem_skip by auto. tauto.
  - apply count_in_zero. intros ds' Hin. apply list_elem_of_fmap in Hin as (ds & -> & Hin).
    rewrite elem_skip by auto. lia.
Qed.

(** The children that stand on the smallest head are those that hold it. *)
Lemma length_matching_at dss d :
  Forall docs_ok dss -> Forall (fun ds => d <= head_doc ds)%Z dss -> (d < NO_MORE_DOCS)%Z ->
  length (matching_at (map head_doc dss) d) = count_in dss d.
Proof.
  intros Hok Hmin Hd. unfold matching_at. rewrite length_map.
  assert (Hgen : forall k, length (filter (fun i => nth (i - k) (map head_doc dss) NO_MORE_DOCS = d)
    (seq k (length dss))) = count_in dss d).
  2:{ specialize (Hgen 0). rewrite <- Hgen. f_equal. apply list_filter_iff. intros i. by rewrite Nat.sub_0_r. }
  induction dss as [|ds dss IH]; intros k; [done|]. inversion Hok; inversion Hmin; subst.
  cbn [length seq]. rewrite filter_cons, count_in_cons, <- (IH ltac:(done) ltac:(done) (S k)).
  replace (nth (k - k) (map head_doc (ds :: dss)) NO_MORE_DOCS) with (head_doc ds)
    by (by rewrite Nat.sub_diag).
  assert (Hrest : filter (fun i => nth (i - k) (map head_doc (ds :: dss)) NO_MORE_DOCS = d) (seq (S k) (length dss))
    = filter (fun i => nth (i - S k) (map head_doc dss) NO_MORE_DOCS = d) (seq (S k) (length dss))).
  { apply filter_ext_elem. intros i Hi. apply elem_of_seq in Hi.
    by replace (i - k) with (S (i - S k)) by lia. }
  rewrite Hrest. assert (Hiff : head_doc ds = d <-> d ∈ ds).
  { split.
    - intros <-. apply head_doc_elem. lia.
    - intros Hin. pose proof (head_doc_min ds d ltac:(done) Hin). lia. }
  case_decide; case_decide; cbn [length]; tauto || lia.
Qed.
End counts.

(** * The child cursors *)

Section cursors.
Context {R : Type} `{ReaderSpec R}.
Implicit Types dss : list (list Z).

(** The children read [dss] and the cached documents are their heads. *)
Definition cursors_ok (cd : list R * list Z) dss : Prop :=
  Forall2 reads cd.1 dss /\ cd.2 = map head_doc dss.

Lemma cursors_docs cd dss : cursors_ok cd dss -> Forall docs_ok dss.
Proof. intros [Hr _]. by eapply reads_all_docs. Qed.

Lemma UpdateChildDoc_ok cs docs dss i c' (g : list Z -> list Z) ds :
  cursors_ok (cs, docs) dss -> dss !! i = Some ds -> reads c' (g ds) ->
  cursors_ok (UpdateChildDoc i (<[i := c']> cs, docs)) (alter g i dss).
Proof.
  intros [Hr Hd] Hi Hc. cbn [fst snd] in *. assert (Hlt : i < length cs).
  { rewrite (Forall2_length _ _ _ Hr). by apply lookup_lt_Some in Hi. }
  unfold UpdateChildDoc. cbn [fst snd]. rewrite list_lookup_insert_eq by done.
  rewrite (alter_insert dss i g ds Hi). split; cbn [fst snd].
  - by apply Forall2_insert.
  - rewrite (child_doc_head _ _ Hc), Hd. symmetry. apply list_fmap_insert.
Qed.

Lemma next_children_ok idx cd dss :
  cursors_ok cd dss -> Forall (fun i => i < length dss) idx ->
  exists cd', converges (fun n => next_children n idx cd) cd' /\ cursors_ok cd' (alter_at tail idx dss).
Proof.
  revert cd dss. induction idx as [|i idx IH]; intros cd dss Hok Hidx; cbn [next_children alter_at fold_left].
  { exists cd. split; [apply converges_now|done]. }
  inversion Hidx as [|? ? Hi Hidx']; subst. destruct cd as [cs docs].
  destruct (lookup_lt_is_Some_2 dss i Hi) as [ds Hds].
  destruct (Forall2_lookup_r _ _ _ _ _ (proj1 Hok) Hds) as (c & Hc & Hr). cbn [fst snd] in *.
  destruct (reads_next c ds Hr) as (c' & Hconv & Hr').
  destruct (IH _ _ (UpdateChildDoc_ok _ _ _ i c' tail ds Hok Hds Hr')) as (cd' & Hconv' & Hok').
  { eapply Forall_impl; [exact Hidx'|]. intros k. by rewrite length_alter. }
  exists cd'. split; [|done]. rewrite Hc. eapply converges_bind; [exact Hconv|]. exact Hconv'.
Qed.

Lemma seek_children_ok t idx cd dss :
  cursors_ok cd dss -> (t <= NO_MORE_DOCS)%Z -> Forall (fun i => i < length dss) idx ->
  exists cd', converges (fun n => seek_children n t NO_MORE_DOCS idx cd) cd' /\
    cursors_ok cd' (alter_at (skip_docs t) idx dss).
Proof.
  intros Hok Ht Hidx. revert cd dss Hok Hidx.
  induction idx as [|i idx IH]; intros cd dss Hok Hidx; cbn [seek_children alter_at fold_left].
  { exists cd. split; [apply converges_now|done]. }
  inversion Hidx as [|? ? Hi Hidx']; subst. destruct cd as [cs docs].
  destruct (lookup_lt_is_Some_2 dss i Hi) as [ds Hds].
  assert (Hnth : nth i docs NO_MORE_DOCS = head_doc ds).
  { destruct Hok as [_ Hd]. cbn [snd] in Hd. subst docs. apply nth_lookup_Some.
    rewrite list_lookup_fmap. by rewrite Hds. }
  cbn [fst snd]. rewrite Hnth. destruct (Z.ltb_spec (head_doc ds) t) as [Hlt|Hge].
  - destruct (Forall2_lookup_r _ _ _ _ _ (proj1 Hok) Hds) as (c & Hc & Hr). cbn [fst snd] in *.
    destruct (reads_until c ds t Hr Ht) as (c' & Hconv & Hr').
    destruct (IH _ _ (UpdateChildDoc_ok _ _ _ i c' (skip_docs t) ds Hok Hds Hr')) as (cd' & Hconv' & Hok').
    { eapply Forall_impl; [exact Hidx'|]. intros k. by rewrite length_alter. }
    exists cd'. split; [|done]. rewrite Hc. eapply converges_bind; [exact Hconv|]. exact Hconv'.
  - rewrite (alter_insert dss i _ ds Hds), skip_docs_id, list_insert_id by done.
    by apply IH.
Qed.

Lemma seek_all_ok t cd dss :
  cursors_ok cd dss -> (t <= NO_MORE_DOCS)%Z ->
  exists cd', converges (fun n => seek_children n t NO_MORE_DOCS (seq 0 (length cd.1)) cd) cd' /\
    cursors_ok cd' (map (skip_docs t) dss).
Proof.
  intros Hok Ht. rewrite (Forall2_length _ _ _ (proj1 Hok)), <- (alter_at_seq (skip_docs t)).
  apply seek_children_ok; [done|done|]. apply Forall_forall. intros i Hi%elem_of_seq. lia.
Qed.

Lemma fill_cursors cs idx docs :
  NoDup idx -> length docs = length cs ->
  let cd := fold_left (fun cd i => UpdateChildDoc i cd) idx (cs, docs) in
  cd.1 = cs /\ forall j, cd.2 !! j = (if decide (j ∈ idx) then child_doc <$> cs !! j else docs !! j).
Proof.
  revert docs. induction idx as [|i idx IH]; intros docs Hnd Hlen; cbn [fold_left].
  { split; [done|]. intros j. by rewrite decide_False by apply not_elem_of_nil. }
  apply NoDup_cons in Hnd as [Hi Hnd].
  assert (Hstep : UpdateChildDoc i (cs, docs) =
    (cs, match cs !! i with Some c => <[i := child_doc c]> docs | None => docs end)).
  { unfold UpdateChildDoc. cbn [fst snd]. by destruct (cs !! i). }
  rewrite Hstep. set (docs' := match cs !! i with Some c => _ | None => docs end).
  assert (Hlen' : length docs' = length cs)
    by (unfold docs'; destruct (cs !! i); [by rewrite length_insert|done]).
  destruct (IH docs' Hnd Hlen') as [H1 H2]. split; [exact H1|]. intros j. rewrite H2.
  destruct (decide (j = i)) as [->|Hne].
  - rewrite decide_False by done. rewrite decide_True by apply list_elem_of_here.
    unfold docs'. destruct (cs !! i) as [c|] eqn:Hc.
    + apply list_lookup_insert_eq. rewrite Hlen. by apply lookup_lt_Some in Hc.
    + apply lookup_ge_None_2. rewrite Hlen. by apply lookup_ge_None_1.
  - assert (j ∈ i :: idx <-> j ∈ idx) as Heq by (rewrite elem_of_cons; naive_solver).
    rewrite (decide_ext _ _ _ _ Heq). case_decide; [done|]. unfold docs'.
    destruct (cs !! i); [by rewrite list_lookup_insert_ne|done].
Qed.

Lemma initial_cursors_ok cs dss : Forall2 reads cs dss -> cursors_ok (initial_cursors cs) dss.
Proof.
  intros Hr. unfold initial_cursors.
  destruct (fill_cursors cs (seq 0 (length cs)) (replicate (length cs) NO_MORE_DOCS)) as [H1 H2];
    [apply NoDup_seq|apply length_replicate|]. split; [by rewrite H1|].
  rewrite <- (reads_all_child_docs _ _ Hr). apply list_eq. intros j. rewrite H2, list_lookup_fmap.
  case_decide as Hj; [done|]. rewrite elem_of_seq in Hj.
  rewrite !lookup_ge_None_2; [done|lia|rewrite length_replicate; lia].
Qed.

(** The smallest cached document, and the children on it. *)
Lemma min_doc_heads dss :
  Forall docs_ok dss ->
  Forall (fun ds => min_doc (map head_doc dss) <= head_doc ds)%Z dss /\
  (min_doc (map head_doc dss) <= NO_MORE_DOCS)%Z.
Proof.
  intros Hok. destruct (decide (dss = [])) as [->|Hne]; [by split|].
  destruct (min_doc_spec (map head_doc dss)) as [Hin Hall]; [by destruct dss|]. split.
  - apply Forall_forall. intros ds Hds. rewrite Forall_forall in Hall.
    apply Hall. by apply (list_elem_of_fmap_2 head_doc).
  - apply list_elem_of_fmap in Hin as (ds & -> & Hds). rewrite Forall_forall in Hok.
    specialize (Hok ds Hds). destruct ds as [|d ds]; cbn; [done|]. apply docs_ok_cons in Hok. lia.
Qed.

Lemma matching_at_lt docs d : Forall (fun i => i < length docs) (matching_at docs d).
Proof.
  apply Forall_forall. intros i Hi. unfold matching_at in Hi.
  apply list_elem_of_filter in Hi as [_ Hi%elem_of_seq]. lia.
Qed.

(** Moving the children on [d] steps them. *)
Lemma next_matching_ok cd dss d :
  cursors_ok cd dss ->
  exists cd', converges (fun n => next_children n (matching_at cd.2 d) cd) cd' /\
    cursors_ok cd' (step_docs d dss).
Proof.
  intros Hok. destruct (next_children_ok (matching_at cd.2 d) cd dss Hok) as (cd' & Hconv & Hok').
  { destruct Hok as [_ ->]. pose proof (matching_at_lt (map head_doc dss) d) as Hf.
    by rewrite length_map in Hf. }
  exists cd'. split; [done|]. replace (step_docs d dss) with (alter_at tail (matching_at cd.2 d) dss); [done|].
  apply list_eq. intros j. unfold step_docs. rewrite list_lookup_fmap, lookup_alter_at.
  2:{ unfold matching_at. apply NoDup_filter, NoDup_seq. }
  destruct Hok as [_ ->]. destruct (dss !! j) as [ds|] eqn:Hj; [|by case_decide].
  assert (Hnth : nth j (map head_doc dss) NO_MORE_DOCS = head_doc ds).
  { apply nth_lookup_Some. rewrite list_lookup_fmap. by rewrite Hj. }
  assert (Hin : j ∈ matching_at (map head_doc dss) d <-> head_doc ds = d).
  { unfold matching_at. rewrite list_elem_of_filter, Hnth, elem_of_seq, length_map.
    apply lookup_lt_Some in Hj. split; [tauto|]. split; [done|lia]. }
  rewrite (decide_ext _ _ _ _ Hin). cbn [fmap option_fmap option_map].
  case_decide; case_test; done.
Qed.

Lemma count_above_min dss x :
  Forall docs_ok dss -> min_doc (map head_doc dss) = NO_MORE_DOCS -> count_in dss x = 0.
Proof.
  intros Hok Hmin. destruct (min_doc_heads dss Hok) as [Hall _]. rewrite Hmin in Hall.
  apply count_in_zero. intros ds Hin Hx. rewrite Forall_forall in Hall, Hok.
  specialize (Hall ds Hin). cbn beta in Hall. specialize (Hok ds Hin).
  pose proof (head_doc_min ds x Hok Hx). pose proof (docs_ok_range ds x Hok Hx). lia.
Qed.
End cursors.

(** * What both readers hold

    [union_state m cs docs matching cur ds]: the children read some lists, the smallest cached
    document is current, at least [m] children stand on it, and [ds] are the documents that at
    least [m] of the lists hold. *)

Section union_state.
Context {R : Type} `{ReaderSpec R}.
Implicit Types dss : list (list Z).

Definition union_state (m : nat) (cs : list R) (docs : list Z) (matching : list nat) (cur : Z)
    (ds : list Z) : Prop :=
  exists dss, cursors_ok (cs, docs) dss /\ cur = min_doc docs /\
    matching = (if (cur =? NO_MORE_DOCS)%Z then [] else matching_at docs cur) /\
    ((cur < NO_MORE_DOCS)%Z -> m <= count_in dss cur) /\
    1 <= m /\ denotes (fun x => m <= count_in dss x) ds.

Section facts.
Context (m : nat) (cs : list R) (docs : list Z) (matching : list nat) (cur : Z) (ds : list Z).
Hypothesis Hstate : union_state m cs docs matching cur ds.

Lemma union_docs : docs_ok ds.
Proof. by destruct Hstate as (? & _ & _ & _ & _ & _ & ? & _). Qed.

Lemma union_head : cur = head_doc ds.
Proof.
  destruct Hstate as (dss & Hok & Hcur & _ & Hm & Hpos & Hden).
  pose proof (cursors_docs _ _ Hok) as Hdss. destruct Hok as [_ Hdocs]. cbn [snd] in Hdocs.
  destruct (min_doc_heads dss Hdss) as [Hall Hmax]. rewrite <- Hdocs, <- Hcur in Hall, Hmax.
  destruct (Z.eq_dec cur NO_MORE_DOCS) as [He|Hne].
  - assert (ds = []) as ->; [|done]. eapply denotes_none; [exact Hden|]. cbn beta. intros x.
    rewrite count_above_min; [lia|done|]. congruence.
  - symmetry. eapply denotes_head; [exact Hden|apply Hm; lia|]. cbn beta. intros x Hx.
    assert (Hex : 1 <= count_in dss x) by lia. apply count_in_pos, Exists_exists in Hex as (l & Hl & Hxl).
    rewrite Forall_forall in Hall, Hdss. specialize (Hall l Hl). cbn beta in Hall.
    pose proof (head_doc_min l x (Hdss l Hl) Hxl). lia.
Qed.

Lemma union_end : (cur =? NO_MORE_DOCS)%Z = bool_decide (ds = []).
Proof.
  pose proof (head_doc_end ds union_docs) as Hend. rewrite <- union_head in Hend.
  case_bool_decide; [apply Z.eqb_eq|apply Z.eqb_neq]; tauto.
Qed.

Lemma union_matching_lt : Forall (fun i => i < length cs) matching.
Proof.
  destruct Hstate as (dss & [Hr Hdocs] & _ & -> & _). cbn [fst snd] in *. case_match; [constructor|].
  eapply Forall_impl; [apply matching_at_lt|]. cbn beta. intros i. subst docs. rewrite length_map.
  by rewrite (Forall2_length _ _ _ Hr).
Qed.

(** Reading at the matching children keeps the state. *)
Lemma union_keep {B} (f : nat -> R -> option (R * B)) :
  (forall c l, reads c l -> exists c' b, converges (fun n => f n c) (c', b) /\ reads c' l) ->
  exists cs' bs, converges (fun n => map_indices (f n) matching cs) (cs', bs) /\
    union_state m cs' docs matching cur ds.
Proof.
  intros Hf. pose proof union_matching_lt as Hlt.
  destruct Hstate as (dss & [Hr Hdocs] & Hrest). cbn [fst snd] in *.
  destruct (map_indices_spec f matching cs dss Hr Hlt Hf) as (cs' & bs & Hconv & Hr').
  exists cs', bs. split; [done|]. exists dss. done.
Qed.

(** On a document, moving the matching children passes exactly that document. *)
Lemma union_next : ds <> [] ->
  exists cd dss, converges (fun n => next_children n matching (cs, docs)) cd /\ cursors_ok cd dss /\
    denotes (fun x => m <= count_in dss x) (tail ds).
Proof.
  intros Hne. pose proof union_head as Hhead. pose proof union_docs as Hdo.
  destruct Hstate as (dss & Hok & Hcur & Hmat & Hm & Hpos & Hden).
  assert (Hc : cur <> NO_MORE_DOCS) by (rewrite Hhead; by rewrite head_doc_end).
  rewrite (proj2 (Z.eqb_neq _ _) Hc) in Hmat.
  destruct (next_matching_ok (cs, docs) dss cur Hok) as (cd & Hconv & Hok').
  exists cd, (step_docs cur dss). split; [by rewrite Hmat|]. split; [done|].
  pose proof (cursors_docs _ _ Hok) as Hdss. destruct Hok as [_ Hdocs]. cbn [snd] in Hdocs.
  eapply denotes_iff; [|apply (denotes_tail _ _ Hden)]. cbn beta. intros x.
  rewrite count_in_step; [|done|]. 2:{ rewrite Hcur, Hdocs. by apply min_doc_heads. }
  rewrite Hhead. case_test; [tauto|lia].
Qed.

Lemma union_until t : (t <= NO_MORE_DOCS)%Z ->
  exists cd dss, converges (fun n => seek_children n t NO_MORE_DOCS (seq 0 (length cs)) (cs, docs)) cd /\
    cursors_ok cd dss /\ denotes (fun x => m <= count_in dss x) (skip_docs t ds).
Proof.
  intros Ht. destruct Hstate as (dss & Hok & Hcur & Hmat & Hm & Hpos & Hden).
  destruct (seek_all_ok t (cs, docs) dss Hok Ht) as (cd & Hconv & Hok').
  exists cd, (map (skip_docs t) dss). split; [done|]. split; [done|].
  eapply denotes_iff; [|apply (denotes_skip _ t _ Hden)]. cbn beta. intros x.
  rewrite count_in_skip by (by eapply cursors_docs). case_test; [tauto|lia].
Qed.
End facts.

Lemma union_exists m dss :
  Forall docs_ok dss -> 1 <= m -> exists ds, denotes (fun x => m <= count_in dss x) ds.
Proof.
  intros Hok Hm. apply (denotes_exists _ (concat dss)).
  - intros x Hx. assert (Hex : 1 <= count_in dss x) by lia.
    apply count_in_pos, Exists_exists in Hex as (l & Hl & Hxl). apply list_elem_of_In, in_concat.
    exists l. by rewrite <- !list_elem_of_In.
  - apply Forall_concat. eapply Forall_impl; [exact Hok|]. intros l Hl. apply Hl.
Qed.

(** * OrIndexReader *)

Definition or_reads (r : OrIndexReader R) (ds : list Z) : Prop :=
  union_state 1 (or_Children r) (or_ChildDocs r) (or_MatchingChildren r) (or_CurrentDoc r) ds.

Lemma or_refresh_reads cd dss ds :
  cursors_ok cd dss -> denotes (fun x => 1 <= count_in dss x) ds -> or_reads (or_RefreshCurrentDoc cd) ds.
Proof.
  intros Hok Hden. destruct cd as [cs docs]. exists dss. unfold or_RefreshCurrentDoc. cbn.
  refine (conj Hok (conj eq_refl (conj eq_refl (conj _ (conj _ Hden))))); [|lia]. intros Hlt.
  pose proof (cursors_docs _ _ Hok) as Hdss. destruct Hok as [_ Hdocs]. cbn [snd] in Hdocs. subst docs.
  destruct (min_doc_heads dss Hdss) as [Hall _]. rewrite <- length_matching_at by done.
  destruct (decide (dss = [])) as [->|Hne]; [done|].
  destruct (min_doc_spec (map head_doc dss)) as [Hin _]; [by destruct dss|].
  apply list_elem_of_lookup in Hin as [i Hi].
  assert (Hmat : i ∈ matching_at (map head_doc dss) (min_doc (map head_doc dss))).
  { apply list_elem_of_filter. split; [by apply nth_lookup_Some|]. apply elem_of_seq.
    apply lookup_lt_Some in Hi. lia. }
  destruct (matching_at _ _); [by apply elem_of_nil in Hmat|cbn; lia].
Qed.

#[export] Program Instance or_spec : ReaderSpec (OrIndexReader R) := {| reads := or_reads |}.
Next Obligation. intros r ds Hr. eapply union_docs, Hr. Qed.
Next Obligation. intros r ds Hr. eapply union_end, Hr. Qed.
Next Obligation. intros r d ds Hr. apply (union_head _ _ _ _ _ _ Hr). Qed.
Next Obligation.
  intros r ds Hr. cbn. unfold or_GoNext, or_IsEnd. rewrite (union_end _ _ _ _ _ _ Hr).
  case_bool_decide as E; [subst; by exists r; split; [apply converges_now|]|].
  destruct (union_next _ _ _ _ _ _ Hr E) as (cd & dss & Hconv & Hok & Hden).
  eexists. split; [|exact (or_refresh_reads cd dss _ Hok Hden)].
  eapply converges_bind; [exact Hconv|apply converges_now].
Qed.
Next Obligation.
  intros r ds t Hr Ht. destruct (union_until _ _ _ _ _ _ Hr t Ht) as (cd & dss & Hconv & Hok & Hden).
  eexists. split; [|exact (or_refresh_reads cd dss _ Hok Hden)].
  eapply converges_bind; [exact Hconv|apply converges_now].
Qed.
Next Obligation.
  intros r ds e Hr. destruct (union_keep _ _ _ _ _ _ Hr (fun n c => GetScore n c e)) as (cs' & bs & Hc & Hr').
  { intros c l. apply reads_score. }
  eexists (or_with r cs'), _. split; [eapply converges_bind; [exact Hc|apply converges_now]|exact Hr'].
Qed.
Next Obligation.
  intros r ds Hr. destruct (union_keep _ _ _ _ _ _ Hr (fun n c => GetSourceMask n c)) as (cs' & bs & Hc & Hr').
  { intros c l. apply reads_mask. }
  eexists (or_with r cs'), _. split; [eapply converges_bind; [exact Hc|apply converges_now]|exact Hr'].
Qed.

(** * WeakAndIndexReader *)

Definition wa_reads (r : WeakAndIndexReader R) (ds : list Z) : Prop :=
  union_state (Z.to_nat (wa_MinShouldMatch r)) (wa_Children r) (wa_ChildDocs r) (wa_MatchingChildren r)
    (wa_CurrentDoc r) ds.

Lemma step_docs_total dss d :
  Forall docs_ok dss -> 1 <= count_in dss d -> Forall (fun ds => d <= head_doc ds)%Z dss ->
  total_docs (step_docs d dss) < total_docs dss.
Proof.
  assert (Hle : forall dss, total_docs (step_docs d dss) <= total_docs dss).
  { induction dss0 as [|ds dss0 IH]; [done|]. unfold step_docs in *. cbn [map]. rewrite !total_docs_cons.
    assert (length (tail ds) <= length ds) by (destruct ds; cbn; lia). case_test; lia. }
  induction dss as [|ds dss IH]; intros Hok Hc Hmin; [cbn in Hc; lia|].
  inversion Hok; inversion Hmin; subst. rewrite count_in_cons in Hc. unfold step_docs in *. cbn [map].
  rewrite !total_docs_cons. specialize (Hle dss). case_decide as Hin.
  - pose proof (head_doc_min ds d ltac:(done) Hin). replace (head_doc ds =? d)%Z with true by lia.
    destruct ds; [by apply elem_of_nil in Hin|cbn; lia].
  - specialize (IH ltac:(done) ltac:(lia) ltac:(done)).
    assert (length (tail ds) <= length ds) by (destruct ds; cbn; lia). case_test; lia.
Qed.

Lemma count_in_at_least dss x d :
  Forall docs_ok dss -> Forall (fun ds => d <= head_doc ds)%Z dss -> 1 <= count_in dss x -> (d <= x)%Z.
Proof.
  intros Hok Hall Hx. apply count_in_pos, Exists_exists in Hx as (l & Hl & Hxl).
  rewrite Forall_forall in Hok, Hall. specialize (Hall l Hl). cbn beta in Hall.
  pose proof (head_doc_min l x (Hok l Hl) Hxl). lia.
Qed.

(** The loop ends: each round that does not return moves a child. *)
Lemma wa_AlignToMatch_ok m cd dss ds :
  cursors_ok cd dss -> (1 <= m)%Z -> denotes (fun x => Z.to_nat m <= count_in dss x) ds ->
  exists r, converges (fun n => wa_AlignToMatch n m cd) r /\ wa_MinShouldMatch r = m /\ wa_reads r ds.
Proof.
  remember (S (total_docs dss)) as N eqn:HN. assert (Hlt : total_docs dss < N) by lia. clear HN.
  revert cd dss Hlt. induction N as [|N IH]; intros cd dss Hlt Hok Hm Hden; [lia|].
  pose proof (cursors_docs _ _ Hok) as Hdss. pose proof (proj2 Hok) as Hdocs.
  destruct (min_doc_heads dss Hdss) as [Hall Hmax]. rewrite <- Hdocs in Hall, Hmax.
  set (d := min_doc cd.2) in *. destruct (Z.eqb_spec d NO_MORE_DOCS) as [Hend|Hne].
  { eexists. split; [eapply converges_S; [|apply converges_now]; intros n; cbn [wa_AlignToMatch];
      fold d; rewrite Hend; by rewrite Z.eqb_refl|]. split; [done|].
    exists dss. destruct cd as [cs docs]. cbn. rewrite Z.eqb_refl.
    refine (conj Hok (conj (eq_sym Hend) (conj eq_refl (conj _ (conj _ Hden))))); lia. }
  assert (Hcount : length (matching_at cd.2 d) = count_in dss d)
    by (rewrite Hdocs; apply length_matching_at; [done|done|lia]).
  destruct (Z.leb_spec m (Z.of_nat (count_in dss d))) as [Henough|Hfew].
  { eexists. split; [eapply converges_S; [|apply converges_now]; intros n; cbn [wa_AlignToMatch];
      fold d; rewrite (proj2 (Z.eqb_neq _ _) Hne), Hcount, (proj2 (Z.leb_le _ _) Henough); reflexivity|].
    split; [done|]. exists dss. destruct cd as [cs docs]. cbn. rewrite (proj2 (Z.eqb_neq _ _) Hne).
    refine (conj Hok (conj eq_refl (conj eq_refl (conj _ (conj _ Hden))))); lia. }
  destruct (next_matching_ok cd dss d Hok) as (cd' & Hconv & Hok').
  assert (Hpos : 1 <= count_in dss d).
  { rewrite <- Hcount, Hdocs. destruct (decide (dss = [])) as [->|Hnil].
    { exfalso. apply Hne. unfold d. by rewrite Hdocs. }
    destruct (min_doc_spec cd.2) as [Hin _]; [rewrite Hdocs; by destruct dss|]. fold d in Hin.
    rewrite Hdocs in Hin. apply list_elem_of_fmap in Hin as (l & Hl & Hin).
    rewrite length_matching_at; [|done|done|lia]. apply count_in_pos, Exists_exists. exists l.
    split; [done|]. rewrite Hl. apply head_doc_elem. congruence. }
  destruct (IH cd' (step_docs d dss)) as (r & Hconv' & Hr); [|done|done| |].
  - pose proof (step_docs_total dss d Hdss Hpos Hall). lia.
  - eapply denotes_iff; [|exact Hden]. cbn beta. intros x. rewrite count_in_step by done.
    case_test; [done|]. split; [|lia]. intros Hx.
    pose proof (count_in_at_least dss x d Hdss Hall ltac:(lia)).
    assert (x = d) as -> by lia. lia.
  - exists r. split; [|done]. eapply converges_S.
    { intros n. cbn [wa_AlignToMatch]. fold d. rewrite (proj2 (Z.eqb_neq _ _) Hne), Hcount.
      rewrite (proj2 (Z.leb_gt _ _) Hfew). reflexivity. }
    eapply converges_bind; [exact Hconv|exact Hconv'].
Qed.

Lemma wa_min_pos r ds : wa_reads r ds -> (1 <= wa_MinShouldMatch r)%Z.
Proof. intros (dss & _ & _ & _ & _ & Hpos & _). lia. Qed.

#[export] Program Instance wa_spec : ReaderSpec (WeakAndIndexReader R) := {| reads := wa_reads |}.
Next Obligation. intros r ds Hr. eapply union_docs, Hr. Qed.
Next Obligation. intros r ds Hr. eapply union_end, Hr. Qed.
Next Obligation. intros r d ds Hr. apply (union_head _ _ _ _ _ _ Hr). Qed.
Next Obligation.
  intros r ds Hr. cbn. unfold wa_GoNext, wa_IsEnd. rewrite (union_end _ _ _ _ _ _ Hr).
  case_bool_decide as E; [subst; by exists r; split; [apply converges_now|]|].
  destruct (union_next _ _ _ _ _ _ Hr E) as (cd & dss & Hconv & Hok & Hden).
  destruct (wa_AlignToMatch_ok _ cd dss _ Hok (wa_min_pos _ _ Hr) Hden) as (r' & Hconv' & _ & Hr').
  exists r'. split; [|done]. eapply converges_bind; [exact Hconv|exact Hconv'].
Qed.
Next Obligation.
  intros r ds t Hr Ht. destruct (union_until _ _ _ _ _ _ Hr t Ht) as (cd & dss & Hconv & Hok & Hden).
  destruct (wa_AlignToMatch_ok _ cd dss _ Hok (wa_min_pos _ _ Hr) Hden) as (r' & Hconv' & _ & Hr').
  exists r'. split; [|done]. eapply converges_bind; [exact Hconv|exact Hconv'].
Qed.
Next Obligation.
  intros r ds e Hr. destruct (union_keep _ _ _ _ _ _ Hr (fun n c => GetScore n c e)) as (cs' & bs & Hc & Hr').
  { intros c l. apply reads_score. }
  eexists (wa_with r cs'), _. split; [eapply converges_bind; [exact Hc|apply converges_now]|exact Hr'].
Qed.
Next Obligation.
  intros r ds Hr. destruct (union_keep _ _ _ _ _ _ Hr (fun n c => GetSourceMask n c)) as (cs' & bs & Hc & Hr').
  { intros c l. apply reads_mask. }
  eexists (wa_with r cs'), _. split; [eapply converges_bind; [exact Hc|apply converges_now]|exact Hr'].
Qed.

(** an OrIndexReader over any lawful readers reads exactly the documents that one of them
    reads, in increasing order and once each; advancing and seeking it stay within the contract
    (the instance above). *)
Theorem OrIndexReader_union cs dss :
  Forall2 reads cs dss ->
  reads (or_new cs) (at_least 1 dss) /\ forall x, x ∈ at_least 1 dss <-> Exists (fun l => x ∈ l) dss.
Proof.
  intros Hcs. pose proof (at_least_denotes 1 dss (reads_all_docs _ _ Hcs)) as Hds. split.
  - apply (or_refresh_reads _ dss _ (initial_cursors_ok cs dss Hcs)).
    eapply denotes_iff; [|exact Hds]. cbn beta. lia.
  - intros x. rewrite <- count_in_pos. destruct Hds as [_ Hds]. rewrite Hds. lia.
Qed.

(** C26: the construction of a WeakAndIndexReader terminates, and it reads exactly the documents
    that at least [max(minShouldMatch, 1)] of its children read. *)
Theorem WeakAndIndexReader_threshold cs dss minShouldMatch :
  Forall2 reads cs dss ->
  exists r, converges (fun n => wa_new n cs minShouldMatch) r /\ reads r (at_least minShouldMatch dss) /\
    forall x, x ∈ at_least minShouldMatch dss <->
      (Z.max minShouldMatch 1 <= Z.of_nat (length (filter (fun l => x ∈ l) dss)))%Z.
Proof.
  intros Hcs. pose proof (at_least_denotes minShouldMatch dss (reads_all_docs _ _ Hcs)) as Hds.
  destruct (wa_AlignToMatch_ok (Z.max minShouldMatch 1) _ dss (at_least minShouldMatch dss)
    (initial_cursors_ok cs dss Hcs) ltac:(lia)) as (r & Hconv & _ & Hr).
  { eapply denotes_iff; [|exact Hds]. cbn beta. lia. }
  exists r. split; [exact Hconv|]. split; [exact Hr|]. apply Hds.
Qed.
End union_state.

(** * Witnesses *)

#[local] Existing Instance list_reader.
#[local] Existing Instance list_reader_spec.

Lemma OrIndexReader_union_witness :
  reads (or_new sample_docs) (at_least 1 sample_docs) /\ 1%Z ∈ at_least 1 sample_docs /\ 3%Z ∉ at_least 1 sample_docs.
Proof.
  destruct (OrIndexReader_union sample_docs sample_docs sample_docs_read) as [Hr Hx].
  split; [exact Hr|]. split.
  - apply Hx. apply (bool_decide_unpack _). by vm_compute.
  - rewrite Hx. apply (bool_decide_unpack _). by vm_compute.
Defined.

Lemma WeakAndIndexReader_threshold_witness :
  exists r, converges (fun n => wa_new n sample_docs 2) r /\ reads r (at_least 2 sample_docs) /\
    4%Z ∈ at_least 2 sample_docs /\ 1%Z ∉ at_least 2 sample_docs.
Proof.
  destruct (WeakAndIndexReader_threshold sample_docs sample_docs 2 sample_docs_read) as (r & Hc & Hr & Hx).
  exists r. split; [exact Hc|]. split; [exact Hr|]. split.
  - apply Hx. vm_compute. discriminate.
  - intros Hin. apply Hx in Hin. vm_compute in Hin. by apply Hin.
Defined.
