(* ===== verification/ReaderTree.v ===== *)
(** Boost, difference and vector readers keep the reader contract, and the sum of
    all readers over a leaf type keeps it at every depth: the type that stands
    for [Box<dyn IndexReader>]. *)

From Stdlib Require Import ZArith Lia ZifyBool Bool List.
From Stdlib Require Import Floats.SpecFloat.
From stdpp Require Import base list list_numbers gmap sorting.
From S2P Require Import Prelude Floats IndexReader Composites Unions.

Local Open Scope moon_scope.

(** * Driving a reader *)

(** What a user of a reader does between opening and closing it. *)
Inductive move := MoveNext | MoveUntil (target : Z) | MoveScore (entry : DocDataEntry) | MoveMask.

Section drive.
Context {R : Type} `{IndexReader R}.

Definition move_reader (fuel : nat) (m : move) (r : R) : option R :=
  match m with
  | MoveNext => GoNext fuel r
  | MoveUntil t => GoUntil fuel r t NO_MORE_DOCS
  | MoveScore e => opt rs := GetScore fuel r e in Some rs.1
  | MoveMask => opt rm := GetSourceMask fuel r in Some rm.1
  end.

Fixpoint drive (fuel : nat) (ms : list move) (r : R) : option R :=
  match ms with
  | [] => Some r
  | m :: ms' => opt r' := move_reader fuel m r in drive fuel ms' r'
  end.
End drive.

Definition move_ok (m : move) : Prop :=
  match m with MoveUntil t => (t <= NO_MORE_DOCS)%Z | _ => True end.

Definition move_docs (m : move) (ds : list Z) : list Z :=
  match m with MoveNext => tail ds | MoveUntil t => skip_docs t ds | _ => ds end.

Section drive_spec.
Context {R : Type} `{ReaderSpec R}.

(** An invariant that every move keeps holds after any sequence of moves. *)
Lemma drive_invariant (I : R -> list Z -> Prop) ms r ds :
  (forall m r ds, move_ok m -> I r ds ->
     exists r', converges (fun n => move_reader n m r) r' /\ I r' (move_docs m ds)) ->
  Forall move_ok ms -> I r ds ->
  exists r', converges (fun n => drive n ms r) r' /\ I r' (fold_left (fun ds m => move_docs m ds) ms ds).
Proof.
  intros Hstep Hms. revert r ds. induction Hms as [|m ms Hm Hms IH]; intros r ds Hr; cbn [drive fold_left].
  { exists r. split; [apply converges_now|done]. }
  destruct (Hstep m r ds Hm Hr) as (r1 & Hconv1 & Hr1). destruct (IH r1 _ Hr1) as (r2 & Hconv2 & Hr2).
  exists r2. split; [|done]. eapply converges_bind; [exact Hconv1|exact Hconv2].
Qed.

Lemma move_reads m r ds :
  move_ok m -> reads r ds -> exists r', converges (fun n => move_reader n m r) r' /\ reads r' (move_docs m ds).
Proof.
  intros Hm Hr. destruct m as [|t|e|]; cbn [move_reader move_docs].
  - by apply reads_next.
  - by apply reads_until.
  - destruct (reads_score r ds e Hr) as (r' & s & Hc & Hr'). exists r'. split; [|done].
    eapply converges_bind; [exact Hc|apply converges_now].
  - destruct (reads_mask r ds Hr) as (r' & s & Hc & Hr'). exists r'. split; [|done].
    eapply converges_bind; [exact Hc|apply converges_now].
Qed.
End drive_spec.

(** * BoostIndexReader *)

Section boost_spec.
Context {R : Type} `{ReaderSpec R}.

(** [bs0] are the boosted documents; the boost reader may have passed those below the current one. *)
Definition boosts (r : BoostIndexReader R) (ds bs0 : list Z) : Prop :=
  exists bs, reads (bo_Base r) ds /\ reads (bo_Boost r) bs /\ bo_CurrentDoc r = head_doc ds /\
    bo_BoostDoc r = head_doc bs /\ forall x, (head_doc ds <= x)%Z -> x ∈ bs <-> x ∈ bs0.

Lemma boosts_docs r ds bs0 : boosts r ds bs0 -> docs_ok ds.
Proof. intros (bs & Hr & _). by eapply reads_docs. Qed.

Lemma boosts_end r ds bs0 : boosts r ds bs0 -> bo_IsEnd r = bool_decide (ds = []).
Proof.
  intros Hb. pose proof (head_doc_end ds (boosts_docs _ _ _ Hb)) as Hend.
  destruct Hb as (bs & _ & _ & Hc & _). unfold bo_IsEnd. rewrite Hc.
  case_bool_decide; [apply Z.eqb_eq|apply Z.eqb_neq]; tauto.
Qed.

(** Moving the base forward keeps the boosted documents still ahead. *)
Lemma boosts_base r ds ds' bs0 b :
  boosts r ds bs0 -> reads b ds' -> (head_doc ds <= head_doc ds')%Z -> boosts (bo_with_base r b) ds' bs0.
Proof.
  intros (bs & _ & Hb & _ & Hd & Hx) Hb' Hle. exists bs. cbn. split_and!; try done.
  - by apply child_doc_head.
  - intros x Hxle. apply Hx. lia.
Qed.

Lemma boosts_same_base r ds bs0 b : boosts r ds bs0 -> reads b ds -> boosts (bo_set_base r b) ds bs0.
Proof. intros (bs & _ & Hrest) Hb. by exists bs. Qed.

(** The check ends, moves the boost reader only, and is right about the current document. *)
Lemma BoostMatchesBase_ok r ds bs0 :
  boosts r ds bs0 ->
  exists r', converges (fun n => BoostMatchesBase n r) (r', bool_decide (ds <> [] /\ head_doc ds ∈ bs0)) /\
    boosts r' ds bs0 /\ bo_BoostWeight r' = bo_BoostWeight r.
Proof.
  intros Hbo. pose proof (boosts_end _ _ _ Hbo) as Hend. pose proof (boosts_docs _ _ _ Hbo) as Hok.
  destruct Hbo as (bs & Hb & Hbb & Hc & Hd & Hx). pose proof (reads_docs _ _ Hbb) as Hokb.
  unfold BoostMatchesBase. rewrite Hend, Hd, Hc.
  destruct (Z.eqb_spec (head_doc bs) NO_MORE_DOCS) as [Hbe|Hbne].
  { exists r. split; [|split; [by exists bs|done]]. cbn [orb].
    rewrite bool_decide_eq_false_2; [apply converges_now|]. intros [Hne Hin]. apply Hx in Hin; [|lia]. apply head_doc_end in Hbe as ->; [|done].
    by apply elem_of_nil in Hin. }
  case_bool_decide as Hds; cbn [orb].
  { exists r. split; [|split; [by exists bs|done]]. rewrite bool_decide_eq_false_2; [apply converges_now|]. tauto. }
  assert (Hiff : forall l, docs_ok l -> (forall x, (head_doc ds <= x)%Z -> x ∈ l <-> x ∈ bs0) ->
    (l <> [] -> (head_doc ds <= head_doc l)%Z) ->
    (head_doc l =? head_doc ds)%Z = bool_decide (ds <> [] /\ head_doc ds ∈ bs0)).
  { intros l Hl Hxl Hle. assert (Hdne : head_doc ds <> NO_MORE_DOCS) by (by rewrite head_doc_end).
    symmetry. case_bool_decide as Hin; symmetry; [apply Z.eqb_eq|apply Z.eqb_neq].
    - destruct Hin as [_ Hin]. apply Hxl in Hin; [|lia]. pose proof (head_doc_min _ _ Hl Hin).
      assert (l <> []) by (intros ->; by apply elem_of_nil in Hin). specialize (Hle ltac:(done)). lia.
    - intros Heq. apply Hin. split; [done|]. apply Hxl; [lia|]. rewrite <- Heq. apply head_doc_elem. congruence. }
  destruct (Z.ltb_spec (head_doc bs) (head_doc ds)) as [Hlt|Hge].
  - assert (Hle : (head_doc ds <= NO_MORE_DOCS)%Z).
    { destruct ds as [|d ds]; [done|]. apply docs_ok_cons in Hok. cbn. lia. }
    destruct (reads_until _ _ _ Hbb Hle) as (b' & Hconv & Hb').
    assert (Hx' : forall x, (head_doc ds <= x)%Z -> x ∈ skip_docs (head_doc ds) bs <-> x ∈ bs0).
    { intros x Hxle. rewrite elem_skip, <- Hx by done. tauto. }
    set (r' := {| bo_Base := bo_Base r; bo_Boost := b'; bo_BoostWeight := bo_BoostWeight r;
        bo_CurrentDoc := head_doc ds; bo_BoostDoc := child_doc b' |}).
    exists r'. split; [|split; [|done]].
    2:{ exists (skip_docs (head_doc ds) bs). split_and!; try done. by apply child_doc_head. }
    eapply (converges_ext _ (fun n => match GoUntil n (bo_Boost r) (head_doc ds) NO_MORE_DOCS with
      Some b => Some ({| bo_Base := bo_Base r; bo_Boost := b; bo_BoostWeight := bo_BoostWeight r;
        bo_CurrentDoc := head_doc ds; bo_BoostDoc := child_doc b |}, child_doc b =? head_doc ds)%Z | None => None end)).
    { intros n. by destruct (GoUntil n _ _ _). }
    eapply converges_bind; [exact Hconv|].
    rewrite <- (Hiff _ (skip_docs_ok _ _ Hokb) Hx'), (child_doc_head _ _ Hb'); [|intros Hne; by apply head_skip_docs].
    unfold r'. rewrite (child_doc_head _ _ Hb'). apply converges_now.
  - exists r. split; [|split; [by exists bs|done]].
    rewrite Hd, Hc, (Hiff bs Hokb Hx); [apply converges_now|]. lia.
Qed.

Lemma head_doc_tail_le ds : docs_ok ds -> (head_doc ds <= head_doc (tail ds))%Z.
Proof.
  intros Hok. destruct ds as [|d [|d' ds]]; cbn; [done| |].
  - apply docs_ok_cons in Hok. lia.
  - apply docs_ok_cons in Hok as (_ & Hlt & _). specialize (Hlt d' (list_elem_of_here _ _)). lia.
Qed.

Lemma head_doc_skip_le t ds : docs_ok ds -> (head_doc ds <= head_doc (skip_docs t ds))%Z.
Proof.
  intros Hok. destruct (skip_docs t ds) as [|d l] eqn:E.
  - destruct ds as [|d ds]; [done|]. apply docs_ok_cons in Hok. cbn. lia.
  - apply head_doc_min; [done|]. assert (d ∈ skip_docs t ds) as Hin by (rewrite E; apply list_elem_of_here).
    by apply elem_skip in Hin as [? _].
Qed.

Lemma boosts_next r ds bs0 :
  boosts r ds bs0 -> exists r', converges (fun n => bo_GoNext n r) r' /\ boosts r' (tail ds) bs0 /\
    bo_BoostWeight r' = bo_BoostWeight r.
Proof.
  intros Hr. unfold bo_GoNext. rewrite (boosts_end _ _ _ Hr). case_bool_decide as E.
  { subst. exists r. split; [apply converges_now|done]. }
  pose proof (boosts_docs _ _ _ Hr) as Hok. destruct (id Hr) as (bs & Hb & _).
  destruct (reads_next _ _ Hb) as (b & Hconv & Hb'). exists (bo_with_base r b). split.
  - eapply converges_bind; [exact Hconv|apply converges_now].
  - split; [|done]. eapply boosts_base; [exact Hr|done|by apply head_doc_tail_le].
Qed.

Lemma boosts_until r ds bs0 t :
  boosts r ds bs0 -> (t <= NO_MORE_DOCS)%Z ->
  exists r', converges (fun n => bo_GoUntil n r t NO_MORE_DOCS) r' /\ boosts r' (skip_docs t ds) bs0 /\
    bo_BoostWeight r' = bo_BoostWeight r.
Proof.
  intros Hr Ht. unfold bo_GoUntil. pose proof (boosts_docs _ _ _ Hr) as Hok. destruct (id Hr) as (bs & Hb & _).
  destruct (reads_until _ _ t Hb Ht) as (b & Hconv & Hb'). exists (bo_with_base r b). split.
  - eapply converges_bind; [exact Hconv|apply converges_now].
  - split; [|done]. eapply boosts_base; [exact Hr|done|by apply head_doc_skip_le].
Qed.

(** The score of the current document: the base's, and the weight exactly when it is boosted. *)
Lemma boosts_score r d ds bs0 e :
  boosts r (d :: ds) bs0 ->
  exists r' b s, converges (fun n => GetScore n (bo_Base r) e) (b, s) /\
    converges (fun n => bo_GetScore n r e)
      (r', f_add F32 s (if decide (d ∈ bs0) then bo_BoostWeight r else f_of_Z F32 0)) /\
    boosts r' (d :: ds) bs0 /\ bo_BoostWeight r' = bo_BoostWeight r.
Proof.
  intros Hr. destruct (id Hr) as (bs & Hb & _).
  destruct (reads_score _ _ e Hb) as (b & s & Hconv & Hb').
  destruct (BoostMatchesBase_ok (bo_set_base r b) (d :: ds) bs0) as (r' & Hconv' & Hr' & Hw);
    [by apply boosts_same_base|].
  exists r', b, s. split; [done|]. split; [|by split].
  unfold bo_GetScore. rewrite (boosts_end _ _ _ Hr). cbn [bool_decide].
  eapply converges_bind; [exact Hconv|]. cbn [fst snd]. eapply converges_bind; [exact Hconv'|].
  cbn [fst snd head_doc]. replace (if bool_decide (d :: ds <> [] /\ d ∈ bs0) then bo_BoostWeight r else f_of_Z F32 0)
    with (if decide (d ∈ bs0) then bo_BoostWeight r else f_of_Z F32 0); [apply converges_now|].
  destruct (decide (d ∈ bs0)) as [Hi|Hi]; [rewrite bool_decide_eq_true_2|rewrite bool_decide_eq_false_2]; naive_solver.
Qed.

Definition bo_reads (r : BoostIndexReader R) (ds : list Z) : Prop := exists bs0, boosts r ds bs0.

Lemma bo_mask_ok r ds bs0 :
  boosts r ds bs0 -> exists r' m, converges (fun n => bo_GetSourceMask n r) (r', m) /\ boosts r' ds bs0 /\
    bo_BoostWeight r' = bo_BoostWeight r.
Proof.
  intros Hr. unfold bo_GetSourceMask. rewrite (boosts_end _ _ _ Hr). case_bool_decide as E.
  { exists r, 0%Z. split; [apply converges_now|done]. }
  destruct (id Hr) as (bs & Hb & _). destruct (reads_mask _ _ Hb) as (b & m & Hconv & Hb').
  destruct (BoostMatchesBase_ok (bo_set_base r b) ds bs0) as (r' & Hconv' & Hr' & Hw);
    [by apply boosts_same_base|].
  destruct (bool_decide (ds <> [] /\ head_doc ds ∈ bs0)).
  - destruct (id Hr') as (bs' & Hbase & Hboost & Hc & Hd & Hx).
    destruct (reads_mask _ _ Hboost) as (bo & m2 & Hconv2 & Hb2).
    exists (bo_set_boost r' bo), (Z.lor m m2). split; [|split; [by exists bs'|done]].
    eapply converges_bind; [exact Hconv|]. cbn [fst snd]. eapply converges_bind; [exact Hconv'|].
    cbn [fst snd]. eapply converges_bind; [exact Hconv2|]. apply converges_now.
  - exists r', (Z.lor m 0). split; [|done].
    eapply converges_bind; [exact Hconv|]. cbn [fst snd]. eapply converges_bind; [exact Hconv'|].
    apply converges_now.
Qed.

Lemma bo_score_ok r ds bs0 e :
  boosts r ds bs0 -> exists r' s, converges (fun n => bo_GetScore n r e) (r', s) /\ boosts r' ds bs0 /\
    bo_BoostWeight r' = bo_BoostWeight r.
Proof.
  intros Hr. destruct ds as [|d ds].
  - exists r, (f_of_Z F32 0). split; [|done]. unfold bo_GetScore. rewrite (boosts_end _ _ _ Hr).
    apply converges_now.
  - destruct (boosts_score r d ds bs0 e Hr) as (r' & b & s & _ & Hc & Hr' & Hw). eauto.
Qed.

Lemma boosts_new base boost w ds bs :
  reads base ds -> reads boost bs -> boosts (bo_new base boost w) ds bs.
Proof. intros Hb Hbb. exists bs. cbn. split_and!; try done; by apply child_doc_head. Qed.

#[export] Program Instance bo_spec : ReaderSpec (BoostIndexReader R) := {| reads := bo_reads |}.
Next Obligation. intros r ds [bs0 Hr]. by eapply boosts_docs. Qed.
Next Obligation. intros r ds [bs0 Hr]. by eapply boosts_end. Qed.
Next Obligation. intros r d ds (bs0 & bs & _ & _ & Hc & _). exact Hc. Qed.
Next Obligation.
  intros r ds [bs0 Hr]. destruct (boosts_next _ _ _ Hr) as (r' & Hc & Hr' & _). exists r'. split; [done|by exists bs0].
Qed.
Next Obligation.
  intros r ds t [bs0 Hr] Ht. destruct (boosts_until _ _ _ _ Hr Ht) as (r' & Hc & Hr' & _).
  exists r'. split; [done|by exists bs0].
Qed.
Next Obligation.
  intros r ds e [bs0 Hr]. destruct (bo_score_ok _ _ _ e Hr) as (r' & s & Hc & Hr' & _).
  exists r', s. split; [done|by exists bs0].
Qed.
Next Obligation.
  intros r ds [bs0 Hr]. destruct (bo_mask_ok _ _ _ Hr) as (r' & s & Hc & Hr' & _).
  exists r', s. split; [done|by exists bs0].
Qed.

Lemma boosts_move m r ds bs0 w :
  move_ok m -> boosts r ds bs0 /\ bo_BoostWeight r = w ->
  exists r', converges (fun n => move_reader n m r) r' /\ boosts r' (move_docs m ds) bs0 /\ bo_BoostWeight r' = w.
Proof.
  intros Hm [Hr <-]. destruct m as [|t|e|]; cbn [move_reader move_docs].
  - by apply boosts_next.
  - by apply boosts_until.
  - destruct (bo_score_ok r ds bs0 e Hr) as (r' & s & Hc & Hr'). exists r'. split; [|done].
    eapply converges_bind; [exact Hc|apply converges_now].
  - destruct (bo_mask_ok r ds bs0 Hr) as (r' & s & Hc & Hr'). exists r'. split; [|done].
    eapply converges_bind; [exact Hc|apply converges_now].
Qed.

(** C27: a BoostIndexReader reads the documents of its base; after any sequence of moves (advance,
    seek, score, mask) it stands where the base would, and the score of its document is the
    base's plus the weight exactly when the boost reader, when the composite was built, had the
    document ahead. The boost reader is only moved lazily, and that never loses a boost. *)
Theorem BoostIndexReader_boosts base boost w ds bs ms e :
  reads base ds -> reads boost bs -> Forall move_ok ms ->
  let left := fold_left (fun ds m => move_docs m ds) ms ds in
  exists r, converges (fun n => drive n ms (bo_new base boost w)) r /\ reads r left /\
    forall d ds', left = d :: ds' ->
    exists r' b s, converges (fun n => GetScore n (bo_Base r) e) (b, s) /\
      converges (fun n => GetScore n r e) (r', f_add F32 s (if decide (d ∈ bs) then w else f_of_Z F32 0)).
Proof.
  intros Hb Hbb Hms left.
  destruct (drive_invariant (fun r ds => boosts r ds bs /\ bo_BoostWeight r = w) ms (bo_new base boost w) ds)
    as (r & Hconv & Hr & Hw); [|done|by split; [apply boosts_new|]|].
  { intros m r0 ds0 Hm Hr0. by apply boosts_move. }
  fold left in Hr. exists r. split; [done|]. split; [by exists bs|]. intros d ds' Hleft. rewrite Hleft in Hr.
  destruct (boosts_score r d ds' bs e Hr) as (r' & b & s & Hs & Hc & _). rewrite Hw in Hc. by exists r', b, s.
Qed.
End boost_spec.

(** * NotIndexReader *)

(** The documents of the first list that are not in the second. *)
Definition difference (bs es : list Z) : list Z := filter (fun x => x ∉ es) bs.

Section not_spec.
Context {R : Type} `{ReaderSpec R}.

(** The base stands on a document that is not excluded, or is at its end. *)
Definition not_reads (r : NotIndexReader R) (ds : list Z) : Prop :=
  exists bs es, reads (not_Base r) bs /\ reads (not_Exclude r) es /\
    head_doc bs = head_doc ds /\ denotes (fun x => x ∈ bs /\ x ∉ es) ds.

Lemma not_SkipExcluded_ok base exclude bs es ds :
  reads base bs -> reads exclude es -> denotes (fun x => x ∈ bs /\ x ∉ es) ds ->
  exists r, converges (fun n => not_SkipExcluded n {| not_Base := base; not_Exclude := exclude |}) r /\
    not_reads r ds.
Proof.
  revert base exclude es. induction bs as [|d bs IH]; intros base exclude es Hb He Hden.
  { eexists. split.
    - eapply converges_S; [|apply converges_now]. intros n. cbn [not_SkipExcluded not_Base].
      by rewrite (reads_end _ _ Hb).
    - exists [], es. split; [done|]. split; [done|]. split; [|done].
      assert (ds = []) as ->; [|done]. eapply denotes_none; [exact Hden|]. intros x [Hx _].
      by apply elem_of_nil in Hx. }
  pose proof (reads_docs _ _ Hb) as Hokb. pose proof (reads_docs _ _ He) as Hoke.
  pose proof (proj1 (docs_ok_cons _ _) Hokb) as (Hd & Hlt & _).
  destruct (reads_until _ _ d He ltac:(lia)) as (ex & Hconv & He').
  assert (Hmatch : negb (IsEnd ex) && (GetDocumentID ex =? d)%Z = bool_decide (d ∈ es)).
  { rewrite (reads_end _ _ He').
    assert (Hin : d ∈ skip_docs d es <-> d ∈ es) by (rewrite elem_skip by done; split; [tauto|split; [done|lia]]).
    rewrite <- (bool_decide_ext _ _ Hin). destruct (skip_docs d es) as [|x l] eqn:E; [done|]. cbn [bool_decide negb andb].
    rewrite (bool_decide_eq_false_2 (x :: l = [])) by done. cbn [negb andb].
    rewrite (reads_doc _ _ _ He'). symmetry. case_bool_decide as Hx; symmetry; [apply Z.eqb_eq|apply Z.eqb_neq].
    - assert (docs_ok (x :: l)) as Hokx by (rewrite <- E; by apply skip_docs_ok).
      pose proof (head_doc_min _ _ Hokx Hx). cbn in *.
      pose proof (head_skip_docs d es Hoke ltac:(by rewrite E)). rewrite E in *. cbn in *. lia.
    - intros ->. apply Hx, list_elem_of_here. }
  assert (Hskip : forall x, x ∈ d :: bs -> x ∈ skip_docs d es <-> x ∈ es).
  { intros x Hx. rewrite elem_skip by done. pose proof (head_doc_min _ _ Hokb Hx). cbn in *. tauto. }
  assert (Hunfold : forall n, not_SkipExcluded (S n) {| not_Base := base; not_Exclude := exclude |} =
    opt ex := GoUntil n exclude d NO_MORE_DOCS in
    if negb (IsEnd ex) && (GetDocumentID ex =? d)%Z then
      opt b := GoNext n base in not_SkipExcluded n {| not_Base := b; not_Exclude := ex |}
    else Some {| not_Base := base; not_Exclude := ex |}).
  { intros n. cbn [not_SkipExcluded not_Base not_Exclude].
    by rewrite (reads_end _ _ Hb), (reads_doc _ _ _ Hb). }
  case_bool_decide as Hin.
  - destruct (reads_next _ _ Hb) as (b & Hnext & Hb'). cbn [tail] in Hb'.
    destruct (IH b ex (skip_docs d es) Hb' He') as (r & Hloop & Hr).
    { eapply denotes_iff; [|exact Hden]. intros x. cbn beta. rewrite elem_of_cons. split.
      - intros [[->|Hx] Hn]; [done|]. split; [done|]. rewrite Hskip; [done|by apply list_elem_of_further].
      - intros [Hx Hn]. split; [by right|]. by rewrite <- Hskip by by apply list_elem_of_further. }
    exists r. split; [|done]. eapply converges_S; [exact Hunfold|].
    eapply converges_bind; [exact Hconv|]. rewrite Hmatch.
    eapply converges_bind; [exact Hnext|exact Hloop].
  - eexists. split.
    + eapply converges_S; [exact Hunfold|]. eapply converges_bind; [exact Hconv|]. rewrite Hmatch. apply converges_now.
    + exists (d :: bs), (skip_docs d es). split; [done|]. split; [done|]. split.
      * symmetry. eapply denotes_head; [exact Hden|split; [apply list_elem_of_here|done]|].
        intros x [Hx _]. by apply head_doc_min.
      * eapply denotes_iff; [|exact Hden]. intros x. cbn beta. split; intros [Hx Hn]; (split; [done|]).
        -- by rewrite Hskip.
        -- by rewrite <- Hskip.
Qed.

Lemma not_reads_docs r ds : not_reads r ds -> docs_ok ds.
Proof. intros (bs & es & _ & _ & _ & Hden). apply Hden. Qed.

Lemma not_reads_nil r bs ds :
  reads (not_Base r) bs -> docs_ok ds -> head_doc bs = head_doc ds -> bs = [] <-> ds = [].
Proof.
  intros Hb Hok Heq. rewrite <- (head_doc_end bs) by (by eapply reads_docs).
  rewrite <- (head_doc_end ds) by done. by rewrite Heq.
Qed.

Lemma not_next_ok r ds :
  not_reads r ds -> exists r', converges (fun n => not_GoNext n r) r' /\ not_reads r' (tail ds).
Proof.
  intros (bs & es & Hb & He & Hh & Hden). pose proof (reads_docs _ _ Hb) as Hok.
  pose proof (not_reads_nil r bs ds Hb (proj1 Hden) Hh) as Hnil.
  destruct (reads_next _ _ Hb) as (b & Hconv & Hb').
  destruct (not_SkipExcluded_ok b (not_Exclude r) (tail bs) es (tail ds) Hb' He) as (r' & Hloop & Hr').
  { eapply denotes_iff; [|apply (denotes_tail _ _ Hden)]. cbn beta. intros x.
    rewrite elem_tail, Hh by done. tauto. }
  exists r'. split; [|done]. eapply converges_bind; [exact Hconv|exact Hloop].
Qed.

Lemma not_until_ok r ds t :
  not_reads r ds -> (t <= NO_MORE_DOCS)%Z ->
  exists r', converges (fun n => not_GoUntil n r t NO_MORE_DOCS) r' /\ not_reads r' (skip_docs t ds).
Proof.
  intros (bs & es & Hb & He & Hh & Hden) Ht. pose proof (reads_docs _ _ Hb) as Hok.
  destruct (reads_until _ _ t Hb Ht) as (b & Hconv & Hb').
  destruct (not_SkipExcluded_ok b (not_Exclude r) (skip_docs t bs) es (skip_docs t ds) Hb' He) as (r' & Hloop & Hr').
  { eapply denotes_iff; [|apply (denotes_skip _ t _ Hden)]. cbn beta. intros x.
    rewrite elem_skip by done. tauto. }
  exists r'. split; [|done]. eapply converges_bind; [exact Hconv|exact Hloop].
Qed.

#[export] Program Instance not_spec : ReaderSpec (NotIndexReader R) := {| reads := not_reads |}.
Next Obligation. apply not_reads_docs. Qed.
Next Obligation.
  intros r ds Hr. pose proof (not_reads_docs _ _ Hr) as Hok. destruct Hr as (bs & es & Hb & He & Hh & Hden).
  cbn. unfold not_IsEnd. rewrite (reads_end _ _ Hb). apply bool_decide_ext. by eapply not_reads_nil.
Qed.
Next Obligation.
  intros r d ds (bs & es & Hb & He & Hh & Hden). cbn in *. unfold not_GetDocumentID.
  destruct bs as [|b bs]; cbn in Hh.
  - pose proof (docs_ok_range _ d (proj1 Hden) (list_elem_of_here _ _)). lia.
  - subst. by eapply reads_doc.
Qed.
Next Obligation. apply not_next_ok. Qed.
Next Obligation. apply not_until_ok. Qed.
Next Obligation.
  intros r ds e (bs & es & Hb & He & Hrest). destruct (reads_score _ _ e Hb) as (b & s & Hc & Hb').
  eexists _, s. split; [eapply converges_bind; [exact Hc|apply converges_now]|]. by exists bs, es.
Qed.
Next Obligation.
  intros r ds (bs & es & Hb & He & Hrest). destruct (reads_mask _ _ Hb) as (b & s & Hc & Hb').
  eexists _, s. split; [eapply converges_bind; [exact Hc|apply converges_now]|]. by exists bs, es.
Qed.

Lemma difference_denotes (bs es : list Z) :
  docs_ok bs -> denotes (fun x => x ∈ bs /\ x ∉ es) (difference bs es).
Proof.
  unfold difference. intros [Hs Hb]. split; [|intros x; rewrite list_elem_of_filter; tauto]. split.
  - clear Hb. induction Hs as [|b bs Hs IH Hb]; [constructor|]. rewrite filter_cons. case_decide; [|done].
    constructor; [done|]. rewrite Forall_forall in *. intros x [_ Hx]%list_elem_of_filter. by apply Hb.
  - rewrite Forall_forall in *. intros x [_ Hx]%list_elem_of_filter. by apply Hb.
Qed.

(** building a NotIndexReader terminates, and it reads exactly the documents of the base that
    the exclusion reader does not read. *)
Theorem NotIndexReader_difference base exclude bs es :
  reads base bs -> reads exclude es ->
  exists r, converges (fun n => not_new n base exclude) r /\ reads r (difference bs es) /\
    forall x, x ∈ difference bs es <-> x ∈ bs /\ x ∉ es.
Proof.
  intros Hb He. pose proof (difference_denotes bs es (reads_docs _ _ Hb)) as Hds.
  destruct (not_SkipExcluded_ok base exclude bs es _ Hb He Hds) as (r & Hc & Hr).
  exists r. split; [exact Hc|]. split; [exact Hr|]. apply Hds.
Qed.
End not_spec.

(** * VectorIndexReader *)

Definition vr_docs (l : list VectorSearchResult) : list Z := map vsr_doc_id l.

Definition vr_reads (r : VectorIndexReader) (ds : list Z) : Prop :=
  ds = vr_docs (drop (vr_Pos r) (vr_Results r)) /\ docs_ok ds.

Section vector_spec.
Implicit Types r : VectorIndexReader.

Lemma vr_end_ok r ds : vr_reads r ds -> vr_IsEnd r = bool_decide (ds = []).
Proof.
  intros [Hds _]. unfold vr_IsEnd. apply eq_true_iff_eq. rewrite bool_decide_eq_true, Nat.leb_le.
  subst. unfold vr_docs. rewrite <- length_zero_iff_nil, length_map, length_drop. lia.
Qed.

Lemma vr_cons r d ds :
  vr_reads r (d :: ds) -> vr_GetDocumentID r = d /\ vr_reads (vr_advance r) ds.
Proof.
  intros [Hds Hok]. unfold vr_GetDocumentID, vr_reads, vr_advance. cbn.
  destruct (vr_Results r !! vr_Pos r) as [v|] eqn:Hv.
  - rewrite (drop_S _ _ _ Hv) in Hds. cbn in Hds. injection Hds as -> ->.
    split; [done|]. split; [done|]. apply docs_ok_cons in Hok. tauto.
  - apply lookup_ge_None in Hv. by rewrite drop_ge in Hds by lia.
Qed.

Lemma vr_until_ok r ds t : vr_reads r ds -> (t <= NO_MORE_DOCS)%Z -> vr_reads (vr_GoUntil r t NO_MORE_DOCS) (skip_docs t ds).
Proof.
  intros Hr Ht. unfold vr_GoUntil.
  assert (Hfuel : length (vr_Results r) - vr_Pos r = length ds).
  { destruct Hr as [-> _]. unfold vr_docs. by rewrite length_map, length_drop. }
  rewrite Hfuel. clear Hfuel. revert r Hr. induction ds as [|d ds IH]; intros r Hr; cbn [length vr_GoUntil_loop skip_docs]; [done|].
  destruct (vr_cons r d ds Hr) as [Hd Hr']. pose proof (vr_end_ok _ _ Hr) as He.
  rewrite bool_decide_eq_false_2 in He by done. rewrite He, Hd.
  destruct Hr as [Hds Hok]. pose proof (proj1 (docs_ok_cons _ _) Hok) as (Hrange & _ & _).
  destruct (Z.leb_spec t d).
  - replace (d <? t)%Z with false by lia. by split.
  - replace (d <? t)%Z with true by lia. replace (d <? NO_MORE_DOCS)%Z with true by lia. by apply IH.
Qed.

#[export] Program Instance vr_spec : ReaderSpec VectorIndexReader := {| reads := vr_reads |}.
Next Obligation. intros r ds Hr. apply Hr. Qed.
Next Obligation. apply vr_end_ok. Qed.
Next Obligation. intros r d ds Hr. by apply (vr_cons r d ds). Qed.
Next Obligation.
  intros r ds Hr. exists (vr_GoNext r). split; [apply converges_now|]. unfold vr_GoNext.
  rewrite (vr_end_ok _ _ Hr). case_bool_decide; [by subst|]. destruct ds as [|d ds]; [done|]. by apply (vr_cons r d ds).
Qed.
Next Obligation.
  intros r ds t Hr Ht. exists (vr_GoUntil r t NO_MORE_DOCS). split; [apply converges_now|]. by apply vr_until_ok.
Qed.
Next Obligation. intros r ds e Hr. exists r, (vr_GetScore r). split; [apply converges_now|done]. Qed.
Next Obligation. intros r ds Hr. exists r, (vr_GetSourceMask r). split; [apply converges_now|done]. Qed.

Lemma vr_new_reads results :
  NoDup (vr_docs results) -> Forall (fun d => 0 <= d < NO_MORE_DOCS)%Z (vr_docs results) ->
  vr_reads (vr_new results) (vr_docs (vr_Results (vr_new results))) /\
  vr_Results (vr_new results) ≡ₚ results.
Proof.
  intros Hnd Hrange. unfold vr_new. cbn.
  set (leb := fun a b => (vsr_doc_id a <=? vsr_doc_id b)%Z).
  pose proof (stable_sort_perm leb results) as Hperm. split; [|done].
  assert (Hs : StronglySorted (fun a b => (vsr_doc_id a <= vsr_doc_id b)%Z) (stable_sort leb results)).
  { apply stable_sort_sorted; [intros; unfold leb; lia|intros; lia|]. intros a b c. lia. }
  assert (Hnd' : NoDup (vr_docs (stable_sort leb results))).
  { unfold vr_docs. by rewrite (fmap_Permutation vsr_doc_id _ _ Hperm). }
  split; [done|]. split.
  - clear Hperm. change (StronglySorted Z.lt (vr_docs (stable_sort leb results))).
    revert Hnd'. induction Hs as [|a l Hs IH Ha]; intros Hnd'; [constructor|].
    change (vr_docs (a :: l)) with (vsr_doc_id a :: vr_docs l) in *. constructor.
    + apply IH. by apply NoDup_cons in Hnd' as [_ ?].
    + apply NoDup_cons in Hnd' as [Hnin _]. rewrite Forall_forall in Ha. apply Forall_forall.
      intros x Hx. apply list_elem_of_fmap in Hx as (b & -> & Hb). specialize (Ha b Hb). cbn beta in Ha.
      assert (vsr_doc_id a <> vsr_doc_id b); [|lia]. intros Heq. apply Hnin. rewrite Heq.
      by apply (list_elem_of_fmap_2 vsr_doc_id).
  - unfold vr_docs. by rewrite (fmap_Permutation vsr_doc_id _ _ Hperm).
Qed.

Lemma vr_move m r ds l :
  move_ok m -> vr_reads r ds /\ vr_Results r = l ->
  exists r', converges (fun n => move_reader n m r) r' /\ vr_reads r' (move_docs m ds) /\ vr_Results r' = l.
Proof.
  intros Hm [Hr <-]. destruct (@move_reads VectorIndexReader _ vr_spec m r ds Hm Hr) as (r' & Hc & Hr'). exists r'.
  split; [done|]. split; [exact Hr'|]. destruct Hc as [n0 Hc]. specialize (Hc n0 ltac:(lia)).
  destruct m as [|t|e|]; cbn in Hc; injection Hc as <-; [|clear Hr Hr'| |]; try done.
  - unfold vr_GoNext. by destruct (vr_IsEnd r).
  - unfold vr_GoUntil. generalize (length (vr_Results r) - vr_Pos r). intros k. revert r.
    induction k as [|k IH]; intros r; cbn [vr_GoUntil_loop]; [done|]. case_match; [|done]. by rewrite IH.
Qed.

(** a VectorIndexReader over search results with distinct document ids reads exactly those
    documents in increasing order, and after any sequence of moves the score of its document is
    the score the search gave that document. *)
Theorem VectorIndexReader_scores results ms :
  NoDup (vr_docs results) -> Forall (fun d => 0 <= d < NO_MORE_DOCS)%Z (vr_docs results) ->
  Forall move_ok ms ->
  exists ds r, reads (vr_new results) ds /\ (forall x, x ∈ ds <-> x ∈ vr_docs results) /\
    converges (fun n => drive n ms (vr_new results)) r /\
    reads r (fold_left (fun ds m => move_docs m ds) ms ds) /\
    forall d ds', fold_left (fun ds m => move_docs m ds) ms ds = d :: ds' ->
      exists v, v ∈ results /\ vsr_doc_id v = d /\ vr_GetScore r = vsr_score v.
Proof.
  intros Hnd Hrange Hms. destruct (vr_new_reads results Hnd Hrange) as [Hr Hperm].
  set (ds := vr_docs (vr_Results (vr_new results))) in *.
  destruct (drive_invariant (fun r ds => vr_reads r ds /\ vr_Results r = vr_Results (vr_new results)) ms
    (vr_new results) ds) as (r & Hc & Hr' & Hres); [|done|done|].
  { intros m r0 ds0 Hm Hr0. by apply vr_move. }
  exists ds, r. split; [exact Hr|]. split; [|split; [done|split; [exact Hr'|]]].
  - intros x. unfold ds, vr_docs. by rewrite (fmap_Permutation vsr_doc_id _ _ Hperm).
  - intros d ds' Hleft. rewrite Hleft in Hr'. destruct Hr' as [Heq _]. unfold vr_GetScore.
    destruct (vr_Results r !! vr_Pos r) as [v|] eqn:Hv.
    + rewrite (drop_S _ _ _ Hv) in Heq. cbn in Heq. injection Heq as -> _. exists v. split; [|done].
      rewrite <- Hperm, <- Hres. by eapply list_elem_of_lookup_2.
    + apply lookup_ge_None in Hv. by rewrite drop_ge in Heq by lia.
Qed.
End vector_spec.

(** * All readers

    A node over children of type [R], and the towers of nodes over a leaf type: a query tree of
    depth [n] is a [ReaderT L n]. *)

Inductive ReaderNode (R : Type) :=
  | NodeChild (r : R)
  | NodeAnd (r : AndIndexReader R)
  | NodeOr (r : OrIndexReader R)
  | NodeWeakAnd (r : WeakAndIndexReader R)
  | NodeBoost (r : BoostIndexReader R)
  | NodeNot (r : NotIndexReader R)
  | NodeVector (r : VectorIndexReader).
Arguments NodeChild {R} r.
Arguments NodeAnd {R} r.
Arguments NodeOr {R} r.
Arguments NodeWeakAnd {R} r.
Arguments NodeBoost {R} r.
Arguments NodeNot {R} r.
Arguments NodeVector {R} r.

(** Dynamic dispatch: a query of the reader inside, and an operation that returns it changed. *)
Definition node_query {R B} `{IndexReader R} (f : forall (X : Type) (ops : IndexReader X), X -> B) (r : ReaderNode R) : B :=
  match r with
  | NodeChild r => f _ _ r
  | NodeAnd r => f _ _ r
  | NodeOr r => f _ _ r
  | NodeWeakAnd r => f _ _ r
  | NodeBoost r => f _ _ r
  | NodeNot r => f _ _ r
  | NodeVector r => f _ _ r
  end.

Definition node_update {R B} `{IndexReader R}
    (f : forall (X : Type) (ops : IndexReader X), X -> option (X * B)) (r : ReaderNode R)
    : option (ReaderNode R * B) :=
  match r with
  | NodeChild r => opt rb := f _ _ r in Some (NodeChild rb.1, rb.2)
  | NodeAnd r => opt rb := f _ _ r in Some (NodeAnd rb.1, rb.2)
  | NodeOr r => opt rb := f _ _ r in Some (NodeOr rb.1, rb.2)
  | NodeWeakAnd r => opt rb := f _ _ r in Some (NodeWeakAnd rb.1, rb.2)
  | NodeBoost r => opt rb := f _ _ r in Some (NodeBoost rb.1, rb.2)
  | NodeNot r => opt rb := f _ _ r in Some (NodeNot rb.1, rb.2)
  | NodeVector r => opt rb := f _ _ r in Some (NodeVector rb.1, rb.2)
  end.

Definition node_Close {R} `{IndexReader R} (r : ReaderNode R) : ReaderNode R :=
  match r with
  | NodeChild r => NodeChild (Close r)
  | NodeAnd r => NodeAnd (Close r)
  | NodeOr r => NodeOr (Close r)
  | NodeWeakAnd r => NodeWeakAnd (Close r)
  | NodeBoost r => NodeBoost (Close r)
  | NodeNot r => NodeNot (Close r)
  | NodeVector r => NodeVector (Close r)
  end.

#[export] Instance node_reader {R} `{IndexReader R} : IndexReader (ReaderNode R) := {
  GoNext n r := opt rb := node_update (fun X ops x => opt x' := GoNext n x in Some (x', tt)) r in Some rb.1;
  GoUntil n r t l := opt rb := node_update (fun X ops x => opt x' := GoUntil n x t l in Some (x', tt)) r in Some rb.1;
  IsEnd := node_query (fun X ops => IsEnd);
  GetDocumentID := node_query (fun X ops => GetDocumentID);
  GetTermFreq := node_query (fun X ops => GetTermFreq);
  GetScore n r e := node_update (fun X ops x => GetScore n x e) r;
  GetSourceMask n r := node_update (fun X ops x => GetSourceMask n x) r;
  Close := node_Close }.

Section node_spec.
Context {R : Type} `{ReaderSpec R}.

Definition node_reads (r : ReaderNode R) (ds : list Z) : Prop :=
  match r with
  | NodeChild r => reads r ds
  | NodeAnd r => reads r ds
  | NodeOr r => reads r ds
  | NodeWeakAnd r => reads r ds
  | NodeBoost r => reads r ds
  | NodeNot r => reads r ds
  | NodeVector r => reads r ds
  end.

(** What every reader promises, every node promises. *)
Lemma node_update_ok {B} (f : nat -> forall (X : Type) (ops : IndexReader X), X -> option (X * B))
    (g : list Z -> list Z) r ds :
  (forall (X : Type) (ops : IndexReader X) (spec : ReaderSpec X) x, reads x ds ->
     exists x' b, converges (fun n => f n X ops x) (x', b) /\ reads x' (g ds)) ->
  node_reads r ds ->
  exists r' b, converges (fun n => node_update (f n) r) (r', b) /\ node_reads r' (g ds).
Proof.
  intros Hf Hr. destruct r as [r|r|r|r|r|r|r]; cbn [node_reads] in Hr;
    destruct (Hf _ _ _ r Hr) as (x' & b & Hc & Hx');
    [exists (NodeChild x')|exists (NodeAnd x')|exists (NodeOr x')|exists (NodeWeakAnd x')|
     exists (NodeBoost x')|exists (NodeNot x')|exists (NodeVector x')]; exists b; (split; [|exact Hx']);
    (eapply converges_bind; [exact Hc|apply converges_now]).
Qed.

#[export] Program Instance node_spec : ReaderSpec (ReaderNode R) := {| reads := node_reads |}.
Next Obligation. intros [] ds Hr; cbn [node_reads] in Hr; exact (reads_docs _ _ Hr). Qed.
Next Obligation. intros [] ds Hr; cbn [node_reads] in Hr; exact (reads_end _ _ Hr). Qed.
Next Obligation. intros [] d ds Hr; cbn [node_reads] in Hr; exact (reads_doc _ _ _ Hr). Qed.
Next Obligation.
  intros r ds Hr. destruct (node_update_ok (fun n X ops x => opt x' := GoNext n x in Some (x', tt)) tail r ds)
    as (r' & b & Hc & Hr'); [|done|].
  { intros X ops0 spec x Hx. destruct (reads_next x ds Hx) as (x' & Hc & Hx'). exists x', tt. split; [|done].
    eapply converges_bind; [exact Hc|apply converges_now]. }
  exists r'. split; [|done]. eapply converges_bind; [exact Hc|apply converges_now].
Qed.
Next Obligation.
  intros r ds t Hr Ht.
  destruct (node_update_ok (fun n X ops x => opt x' := GoUntil n x t NO_MORE_DOCS in Some (x', tt)) (skip_docs t) r ds)
    as (r' & b & Hc & Hr'); [|done|].
  { intros X ops0 spec x Hx. destruct (reads_until x ds t Hx Ht) as (x' & Hc & Hx'). exists x', tt. split; [|done].
    eapply converges_bind; [exact Hc|apply converges_now]. }
  exists r'. split; [|done]. eapply converges_bind; [exact Hc|apply converges_now].
Qed.
Next Obligation.
  intros r ds e Hr. apply (node_update_ok (fun n X ops x => GetScore n x e) id); [|done].
  intros X ops0 spec x Hx. by apply reads_score.
Qed.
Next Obligation.
  intros r ds Hr. apply (node_update_ok (fun n X ops x => GetSourceMask n x) id); [|done].
  intros X ops0 spec x Hx. by apply reads_mask.
Qed.
End node_spec.

Fixpoint ReaderT (L : Type) (n : nat) : Type :=
  match n with O => L | S n' => ReaderNode (ReaderT L n') end.

#[export] Instance ReaderT_reader {L} `{HL : IndexReader L} : forall n, IndexReader (ReaderT L n) :=
  fix go n := match n with O => HL | S n' => @node_reader (ReaderT L n') (go n') end.

#[export] Instance ReaderT_spec {L} `{HL : ReaderSpec L} : forall n, ReaderSpec (ReaderT L n) :=
  fix go n := match n with O => HL | S n' => @node_spec (ReaderT L n') (ReaderT_reader n') (go n') end.

(** * Witnesses *)

#[local] Existing Instance list_reader.
#[local] Existing Instance list_reader_spec.

Definition sample_docdata : DocDataEntry :=
  {| DDE_DocID := 0; DDE_StaticRank := 0; DDE_QualityScore := 0; DDE_FreshnessScore := 0;
     DDE_ClickScore := 0; DDE_EngagementScore := 0; DDE_AuthorityScore := 0; DDE_SpamScore := 0;
     DDE_PathLength := 0; DDE_Language := 0; DDE_Locale := 0; DDE_ContentType := 0;
     DDE_TitleLength := 2; DDE_BodyLength := 10; DDE_UrlLength := 0; DDE_AnchorLength := 0; DDE_MetaLength := 0;
     DDE_DiversityScore := f_of_Z F32 0; DDE_LengthQualityScore := f_of_Z F32 0;
     DDE_VectorDim := 0; DDE_VectorFormat := 0; DDE_VectorData := []; DDE_Path := [] |}.

(** The base reads 1, 4, 7; the boost reads 4; after two moves the reader is on 4, which is boosted. *)
Lemma BoostIndexReader_boosts_witness :
  exists r, converges (fun n => drive n [MoveScore sample_docdata; MoveUntil 3]
              (bo_new [1; 4; 7]%Z [2; 4]%Z (f_of_Z F32 2))) r /\ reads r [4; 7]%Z /\
    exists r' s, converges (fun n => GetScore n r sample_docdata) (r', f_add F32 s (f_of_Z F32 2)).
Proof.
  destruct (BoostIndexReader_boosts [1; 4; 7]%Z [2; 4]%Z (f_of_Z F32 2) [1; 4; 7]%Z [2; 4]%Z
    [MoveScore sample_docdata; MoveUntil 3] sample_docdata) as (r & Hc & Hr & Hs).
  - by apply reads_list.
  - by apply reads_list.
  - repeat constructor. by vm_compute.
  - exists r. split; [exact Hc|]. split; [exact Hr|].
    destruct (Hs 4%Z [7]%Z eq_refl) as (r' & b & s & _ & Hscore). exists r', s. exact Hscore.
Defined.

Lemma NotIndexReader_difference_witness :
  exists r, converges (fun n => not_new n [1; 4; 7]%Z [2; 4]%Z) r /\ reads r (difference [1; 4; 7] [2; 4])%Z /\
    7%Z ∈ difference [1; 4; 7]%Z [2; 4]%Z /\ 4%Z ∉ difference [1; 4; 7]%Z [2; 4]%Z.
Proof.
  destruct (NotIndexReader_difference [1; 4; 7]%Z [2; 4]%Z [1; 4; 7]%Z [2; 4]%Z) as (r & Hc & Hr & Hx);
    [by apply reads_list|by apply reads_list|].
  exists r. split; [exact Hc|]. split; [exact Hr|]. split; [apply Hx; set_solver|]. intros Hin. apply Hx in Hin. set_solver.
Defined.

Definition sample_results : list VectorSearchResult :=
  [{| vsr_doc_id := 8; vsr_score := f_of_Z F32 1 |}; {| vsr_doc_id := 3; vsr_score := f_of_Z F32 2 |}].

Lemma VectorIndexReader_scores_witness :
  exists ds r, reads (vr_new sample_results) ds /\ converges (fun n => drive n [MoveNext] (vr_new sample_results)) r /\
    reads r (tail ds) /\ 3%Z ∈ ds.
Proof.
  destruct (VectorIndexReader_scores sample_results [MoveNext]) as (ds & r & Hds & Hx & Hc & Hr & _).
  - apply (bool_decide_unpack _). by vm_compute.
  - repeat constructor; by vm_compute.
  - repeat constructor.
  - exists ds, r. split; [exact Hds|]. split; [exact Hc|]. split; [exact Hr|]. apply Hx. cbn. set_solver.
Defined.
