(* ===== verification/AdvancedReader.v ===== *)
(** AdvancedIndexReader (AdvancedIndexReader.rs): the leaf reader of one term's
    postings, over the term's first page and its continuation pages, with the
    proof that it keeps the reader contract. *)

From Stdlib Require Import Ascii String.
From Stdlib Require Import ZArith Lia ZifyBool Bool List.
From Stdlib Require Import Floats.SpecFloat.
From stdpp Require Import base list list_numbers gmap sorting.
From S2P Require Import Prelude Floats PostingCodec PostingStore FileFormat Mphf IndexReader ReaderTree.

Local Open Scope moon_scope.

(** What the reader needs of IndexBlockTable: [FindTermData], and [GetBlock] for
    index pages without the urgent flag ([IB_Data] of the pinned page). *)
Class TermSource := {
  FindTermData : bytes -> option IndexLocation;
  GetIndexBlock : Z -> option bytes;
}.

(** [chars().last()] of a UTF-8 string. *)
Definition last_char (s : bytes) : option Z :=
  match rev s with
  | [] => None
  | b0 :: r =>
      if (b0 <? 128)%Z then Some b0
      else match r with
      | [] => None
      | b1 :: r1 =>
          if (192 <=? b1)%Z then Some ((b1 mod 32) * 64 + b0 mod 64)%Z
          else match r1 with
          | [] => None
          | b2 :: r2 =>
              if (224 <=? b2)%Z then Some ((b2 mod 16) * 4096 + (b1 mod 64) * 64 + b0 mod 64)%Z
              else match r2 with
              | [] => None
              | b3 :: _ => Some ((b3 mod 8) * 262144 + (b2 mod 64) * 4096 + (b1 mod 64) * 64 + b0 mod 64)%Z
              end
          end
      end
  end.

Record AdvancedIndexReader := {
  m_Word : bytes;
  m_DocFreq : Z;
  m_Stream : Z;
  m_SourceMask : Z;
  m_WordSpan : Z;
  m_SpanWeight : f32;
  m_Idf : f32;
  m_Bm25LengthBias : f32;
  m_Bm25LengthScale : f32;
  m_BlockSeqNumber : Z;
  m_RemainingContinuationBlocks : Z;
  m_Decoder : UnifiedDecoder;
}.

Definition set_Decoder (r : AdvancedIndexReader) (d : UnifiedDecoder) : AdvancedIndexReader :=
  {| m_Word := m_Word r; m_DocFreq := m_DocFreq r; m_Stream := m_Stream r; m_SourceMask := m_SourceMask r;
     m_WordSpan := m_WordSpan r; m_SpanWeight := m_SpanWeight r; m_Idf := m_Idf r;
     m_Bm25LengthBias := m_Bm25LengthBias r; m_Bm25LengthScale := m_Bm25LengthScale r;
     m_BlockSeqNumber := m_BlockSeqNumber r;
     m_RemainingContinuationBlocks := m_RemainingContinuationBlocks r; m_Decoder := d |}.

Definition set_Position (r : AdvancedIndexReader) (seq remaining : Z) : AdvancedIndexReader :=
  {| m_Word := m_Word r; m_DocFreq := m_DocFreq r; m_Stream := m_Stream r; m_SourceMask := m_SourceMask r;
     m_WordSpan := m_WordSpan r; m_SpanWeight := m_SpanWeight r; m_Idf := m_Idf r;
     m_Bm25LengthBias := m_Bm25LengthBias r; m_Bm25LengthScale := m_Bm25LengthScale r;
     m_BlockSeqNumber := seq; m_RemainingContinuationBlocks := remaining; m_Decoder := m_Decoder r |}.

Section reader.
Context `{TermSource}.

Definition ReleaseCurrentBlock (r : AdvancedIndexReader) : AdvancedIndexReader :=
  set_Decoder r (TakeBlock (m_Decoder r)).

Definition OpenContinuation (r : AdvancedIndexReader) (block : bytes) : AdvancedIndexReader :=
  match continuation_from_bytes block with
  | Some header =>
      set_Decoder r (OpenRaw block INDEX_BLOCK_CONTINUATION_HEADER_SIZE (Z.to_nat (IBCH_DataLength header)))
  | None => set_Decoder r (OpenRaw block 0 0)
  end.

(** [self.m_BlockSeqNumber + 1] on [u32]. *)
Definition next_seq (r : AdvancedIndexReader) : Z := wrapping_add 32 (m_BlockSeqNumber r) 1.

Definition LoadContinuation (r : AdvancedIndexReader) : AdvancedIndexReader * bool :=
  let nextSeq := next_seq r in
  let r := ReleaseCurrentBlock r in
  match GetIndexBlock nextSeq with
  | None => (r, false)
  | Some block =>
      let r := OpenContinuation (set_Position r nextSeq (m_RemainingContinuationBlocks r)) block in
      (set_Position r (m_BlockSeqNumber r) (saturating_sub (m_RemainingContinuationBlocks r) 1), true)
  end.

(** The last guard of GoNext and GoUntil. *)
Definition close_if_done (r : AdvancedIndexReader) : AdvancedIndexReader :=
  if decoder_IsEnd (m_Decoder r) && (m_RemainingContinuationBlocks r =? 0)%Z then
    let r := ReleaseCurrentBlock r in set_Decoder r (decoder_Close (m_Decoder r))
  else r.

(** Every round lowers the number of remaining blocks. *)
Fixpoint adv_GoNext_loop (fuel : nat) (r : AdvancedIndexReader) : AdvancedIndexReader :=
  match fuel with
  | O => r
  | S fuel' =>
      if decoder_IsEnd (m_Decoder r) && (0 <? m_RemainingContinuationBlocks r)%Z then
        match LoadContinuation r with
        | (r', false) => r'
        | (r', true) => adv_GoNext_loop fuel' (set_Decoder r' (decoder_GoNext (m_Decoder r')))
        end
      else r
  end.

Definition adv_GoNext (r : AdvancedIndexReader) : AdvancedIndexReader :=
  let r := set_Decoder r (decoder_GoNext (m_Decoder r)) in
  close_if_done (adv_GoNext_loop (Z.to_nat (m_RemainingContinuationBlocks r)) r).

Fixpoint adv_GoUntil_loop (fuel : nat) (target : Z) (r : AdvancedIndexReader) : AdvancedIndexReader :=
  match fuel with
  | O => r
  | S fuel' =>
      let r := set_Decoder r (decoder_GoUntil target (m_Decoder r)) in
      if negb (decoder_IsEnd (m_Decoder r)) then r
      else if (m_RemainingContinuationBlocks r =? 0)%Z then ReleaseCurrentBlock r
      else
        let r := ReleaseCurrentBlock r in
        match GetIndexBlock (next_seq r) with
        | None => r
        | Some block =>
            match continuation_from_bytes block with
            | None => r
            | Some header =>
                let r := set_Position r (next_seq r) (saturating_sub (m_RemainingContinuationBlocks r) 1) in
                if (IBCH_MaxDocID header <? target)%Z then adv_GoUntil_loop fuel' target r
                else
                  let r := OpenContinuation r block in
                  let r := set_Decoder r (decoder_GoNext (m_Decoder r)) in
                  if decoder_IsEnd (m_Decoder r) then ReleaseCurrentBlock r
                  else adv_GoUntil_loop fuel' target r
            end
        end
  end.

Definition adv_GoUntil (r : AdvancedIndexReader) (target _limit : Z) : AdvancedIndexReader :=
  close_if_done (adv_GoUntil_loop (S (Z.to_nat (m_RemainingContinuationBlocks r))) target r).

Definition adv_IsEnd (r : AdvancedIndexReader) : bool := decoder_IsEnd (m_Decoder r).
Definition adv_GetDocumentID (r : AdvancedIndexReader) : Z := m_CurrentDoc (m_Decoder r).
Definition adv_GetTermFreq (r : AdvancedIndexReader) : Z := m_CurrentTf8 (m_Decoder r).

Definition score_doc_length (stream : Z) (entry : DocDataEntry) : Z :=
  let docLength :=
    if (stream =? chr "T")%Z then DDE_TitleLength entry
    else if (stream =? chr "B")%Z then DDE_BodyLength entry
    else if (stream =? chr "U")%Z then DDE_UrlLength entry
    else if (stream =? chr "A")%Z then DDE_AnchorLength entry
    else if (stream =? chr "M")%Z then DDE_MetaLength entry
    else 0%Z in
  if (0 <? docLength)%Z then docLength else Z.max (DDE_BodyLength entry) 1.

Definition K1_PLUS_ONE : f32 := f_lit F32 22 10.

Definition adv_GetScore (r : AdvancedIndexReader) (entry : DocDataEntry) : f32 :=
  let tf := f_of_Z F32 (adv_GetTermFreq r) in
  let docLength := f_of_Z F32 (score_doc_length (m_Stream r) entry) in
  f_div F32 (f_mul F32 (f_mul F32 (f_mul F32 (m_SpanWeight r) (m_Idf r)) tf) K1_PLUS_ONE)
    (f_add F32 (f_add F32 tf (m_Bm25LengthBias r)) (f_mul F32 (m_Bm25LengthScale r) docLength)).

Definition adv_GetSourceMask (r : AdvancedIndexReader) : Z := m_SourceMask r.

Definition adv_Close (r : AdvancedIndexReader) : AdvancedIndexReader :=
  let r := ReleaseCurrentBlock r in
  let r := set_Decoder r (decoder_Close (m_Decoder r)) in
  {| m_Word := []; m_DocFreq := m_DocFreq r; m_Stream := m_Stream r; m_SourceMask := m_SourceMask r;
     m_WordSpan := m_WordSpan r; m_SpanWeight := m_SpanWeight r; m_Idf := m_Idf r;
     m_Bm25LengthBias := m_Bm25LengthBias r; m_Bm25LengthScale := m_Bm25LengthScale r;
     m_BlockSeqNumber := m_BlockSeqNumber r;
     m_RemainingContinuationBlocks := m_RemainingContinuationBlocks r; m_Decoder := m_Decoder r |}.

(** The scoring constants of a found term. *)
Definition open_idf `{Libm} (num_documents doc_freq : Z) : f32 :=
  let totalDocs := f_of_Z F32 num_documents in
  let docFreq := f_of_Z F32 (Z.max doc_freq 1) in
  let half := f_lit F32 1 2 in
  f_max (ln_f32 (f_add F32 (f_div F32 (f_add F32 (f_sub F32 totalDocs docFreq) half) (f_add F32 docFreq half))
    (f_of_Z F32 1))) (f_of_Z F32 0).

(** [None]: an assertion on the corpus statistics fails. *)
Definition Open `{Libm} (stream_key : bytes) (num_documents : Z) (average_stream_length span_weight : f32)
    (word_span : Z) : option AdvancedIndexReader :=
  let reader := {|
    m_Word := stream_key; m_DocFreq := 0;
    m_Stream := default (chr "B") (last_char stream_key);
    m_SourceMask := match last_char stream_key with Some c => ReaderSourceMaskForStream c | None => 0%Z end;
    m_WordSpan := Z.max word_span 1; m_SpanWeight := span_weight;
    m_Idf := f_of_Z F32 0; m_Bm25LengthBias := f_of_Z F32 0; m_Bm25LengthScale := f_of_Z F32 0;
    m_BlockSeqNumber := 0; m_RemainingContinuationBlocks := 0; m_Decoder := decoder_new |} in
  match FindTermData stream_key with
  | None => Some (adv_GoNext reader)
  | Some location =>
      if negb (0 <? num_documents)%Z || negb (f_gt average_stream_length (f_of_Z F32 0)) then None
      else
        let K1 := f_lit F32 12 10 in
        let B := f_lit F32 3 4 in
        let opened := {|
          m_Word := m_Word reader; m_DocFreq := doc_freq_ location; m_Stream := m_Stream reader;
          m_SourceMask := m_SourceMask reader; m_WordSpan := m_WordSpan reader;
          m_SpanWeight := m_SpanWeight reader;
          m_Idf := open_idf num_documents (doc_freq_ location);
          m_Bm25LengthBias := f_mul F32 K1 (f_sub F32 (f_of_Z F32 1) B);
          m_Bm25LengthScale := f_div F32 (f_mul F32 K1 B) (f_max average_stream_length (f_of_Z F32 1));
          m_BlockSeqNumber := index_block_id location;
          m_RemainingContinuationBlocks := continuation_block_count location;
          m_Decoder := m_Decoder reader |} in
        match GetIndexBlock (index_block_id location) with
        | None => Some (adv_GoNext opened)
        | Some block =>
            Some (adv_GoNext (set_Decoder opened
              (OpenRaw block (Z.to_nat (index_offset location)) (Z.to_nat (index_length location)))))
        end
  end.

#[export] Instance adv_reader : IndexReader AdvancedIndexReader := {
  GoNext _ r := Some (adv_GoNext r); GoUntil _ r t l := Some (adv_GoUntil r t l); IsEnd := adv_IsEnd;
  GetDocumentID := adv_GetDocumentID; GetTermFreq := adv_GetTermFreq;
  GetScore _ r e := Some (r, adv_GetScore r e); GetSourceMask _ r := Some (r, adv_GetSourceMask r);
  Close := adv_Close }.
End reader.

(** * The chain of pages of a term *)

Section chain.
Context `{TermSource}.
Implicit Types r : AdvancedIndexReader.
Implicit Types ps : list (Z * Z).
Implicit Types pss : list (list (Z * Z)).

(** A continuation page that holds the pairs [ps]. *)
Definition continuation_page (block : bytes) ps : Prop :=
  exists header pre post,
    continuation_from_bytes block = Some header /\ ps <> [] /\ Forall wf_pair ps /\
    IBCH_MaxDocID header = last_doc ps /\
    IBCH_DataLength header = Z.of_nat (length (enc_pairs ps)) /\
    block = pre ++ enc_pairs ps ++ post /\ length pre = INDEX_BLOCK_CONTINUATION_HEADER_SIZE /\
    length block = PAGE_SIZE.

(** The pages after [seq] hold [pss], one list each. *)
Fixpoint continuation_chain (seq : Z) pss : Prop :=
  match pss with
  | [] => True
  | ps :: pss' =>
      (0 <= seq < u32_max)%Z /\
      (exists block, GetIndexBlock (seq + 1) = Some block /\ continuation_page block ps) /\
      continuation_chain (seq + 1) pss'
  end.

Definition chain_docs ps pss : list Z := map fst (ps ++ concat pss).

(** The decoder is about to read [ps] (or stands on its head), and [pss] are the pages left. *)
Definition adv_state (at_head : UnifiedDecoder -> list (Z * Z) -> Prop) r ps pss : Prop :=
  at_head (m_Decoder r) ps /\ Forall wf_pair ps /\ continuation_chain (m_BlockSeqNumber r) pss /\
  m_RemainingContinuationBlocks r = Z.of_nat (length pss).

Lemma next_seq_chain r ps pss :
  continuation_chain (m_BlockSeqNumber r) (ps :: pss) -> next_seq r = (m_BlockSeqNumber r + 1)%Z.
Proof.
  intros (Hs & _). unfold next_seq, wrapping_add. apply wrap_small. unfold in_u, u32_max in *. lia.
Qed.

Lemma OpenContinuation_page r block ps :
  continuation_page block ps -> exists d, OpenContinuation r block = set_Decoder r d /\ decodes d ps.
Proof.
  intros (header & pre & post & Hh & _ & _ & _ & Hlen & Hb & Hpre & Hpage). unfold OpenContinuation. rewrite Hh.
  eexists. split; [done|]. rewrite Hlen, Nat2Z.id, Hb, <- Hpre. apply OpenRaw_decodes.
  assert (length pre + length (enc_pairs ps) <= PAGE_SIZE) by (rewrite <- Hpage, Hb; len_lia).
  pose proof PAGE_SIZE_Z. lia.
Qed.

(** Loading the next page of the chain. *)
Lemma LoadContinuation_chain r ps pss :
  continuation_chain (m_BlockSeqNumber r) (ps :: pss) ->
  m_RemainingContinuationBlocks r = Z.of_nat (length (ps :: pss)) ->
  exists r', LoadContinuation r = (r', true) /\ adv_state decodes r' ps pss.
Proof.
  intros Hch Hrem. pose proof (next_seq_chain _ _ _ Hch) as Hseq.
  destruct Hch as (Hs & (block & Hget & Hpage) & Hch). unfold LoadContinuation.
  rewrite Hseq, Hget.
  destruct (OpenContinuation_page (set_Position (ReleaseCurrentBlock r) (m_BlockSeqNumber r + 1)
    (m_RemainingContinuationBlocks (ReleaseCurrentBlock r))) block ps Hpage) as (d & -> & Hd).
  eexists. split; [done|]. destruct Hpage as (header & pre & post & _ & _ & Hwf & _).
  split_and!; cbn; [done|done|done|]. unfold saturating_sub. cbn in Hrem. lia.
Qed.

(** The decoder stands on the head of [ps], or has nothing left. *)
Definition ended (d : UnifiedDecoder) : Prop := m_HasCurrent d = false /\ m_BlockEnd d <= m_CurrentPtr d.
Definition stands (d : UnifiedDecoder) ps : Prop :=
  match ps with [] => ended d | _ => positioned d ps end.

Lemma positioned_stands d ps : positioned d ps -> stands d ps.
Proof.
  destruct ps; [|done]. intros [Hh (pre & post & _ & Hp & He)]. split; [done|].
  rewrite Hp, He. cbn. lia.
Qed.

Lemma stands_IsEnd d ps : stands d ps -> decoder_IsEnd d = bool_decide (ps = []).
Proof. destruct ps as [|p ps]; [intros [Hh _]|intros [Hh _]]; unfold decoder_IsEnd; by rewrite Hh. Qed.

Lemma ended_TakeBlock d : ended d -> ended (TakeBlock d).
Proof. done. Qed.

Lemma ended_next d : ended d -> ended (DecodeNext d).
Proof.
  intros [Hh Hp]. unfold DecodeNext, HasMoreBytes.
  replace (_ <? _) with false by (symmetry; apply Nat.ltb_ge; done). cbn. by split.
Qed.

Lemma decoder_GoNext_stands d ps :
  stands d ps -> Forall wf_pair ps -> stands (decoder_GoNext d) (tail ps).
Proof.
  intros Hs Hwf. unfold decoder_GoNext. destruct ps as [|p ps]; [by apply ended_next|].
  destruct Hs as (_ & _ & _ & Hd). apply positioned_stands, DecodeNext_positioned; [done|]. by inversion Hwf.
Qed.

Lemma decoder_GoUntil_stands d ps t :
  stands d ps -> Forall wf_pair ps -> stands (decoder_GoUntil t d) (skip_to t ps).
Proof.
  intros Hs Hwf. unfold decoder_GoUntil. destruct ps as [|p ps].
  - destruct (ended_next d Hs) as [Hh' _]. pose proof Hs as [Hh _]. rewrite Hh. cbn [andb decoder_GoUntil_loop].
    rewrite Hh'. cbn. by apply ended_next.
  - pose proof Hs as (Hh & Hdoc & _ & Hd). rewrite Hh, Hdoc. cbn [andb skip_to]. case_match; [done|].
    inversion Hwf; subst. apply positioned_stands, decoder_GoUntil_loop_spec; [done|done|]. by apply decodes_room.
Qed.

(** * The contract *)

Definition adv_reads r ds : Prop :=
  exists ps pss, ds = chain_docs ps pss /\ docs_ok ds /\ adv_state stands r ps pss /\ (ps = [] -> pss = []).

Lemma chain_docs_nil ps pss : (ps = [] -> pss = []) -> chain_docs ps pss = [] <-> ps = [].
Proof. unfold chain_docs. destruct ps; [|done]. intros Hp. by rewrite Hp by done. Qed.

(** A page moved to or left, then the end handled. *)
Lemma close_if_done_reads r ps pss :
  docs_ok (chain_docs ps pss) -> adv_state stands r ps pss -> (ps = [] -> pss = []) ->
  adv_reads (close_if_done r) (chain_docs ps pss).
Proof.
  intros Hok Hst Hnil. exists ps, pss. split; [done|]. split; [done|]. split; [|done].
  destruct Hst as (Hs & Hwf & Hch & Hrem). unfold close_if_done. rewrite (stands_IsEnd _ _ Hs).
  case_bool_decide as E; cbn [andb]; [|by split_and!].
  specialize (Hnil E). subst. rewrite Hrem. cbn. split_and!; try done.
Qed.

Lemma adv_GoNext_loop_state r ps pss :
  adv_state stands r ps pss ->
  exists ps' pss', adv_state stands (adv_GoNext_loop (length pss) r) ps' pss' /\
    ps ++ concat pss = ps' ++ concat pss' /\ (ps' = [] -> pss' = []).
Proof.
  intros Hst. destruct ps as [|p ps].
  - destruct pss as [|q pss]; [by exists [], []|]. destruct Hst as (Hs & _ & Hch & Hrem).
    destruct (LoadContinuation_chain r q pss Hch Hrem) as (r' & Hload & Hd & Hwf & Hch' & Hrem').
    cbn [length adv_GoNext_loop]. rewrite (stands_IsEnd _ _ Hs), Hrem, Hload.
    rewrite (bool_decide_eq_true_2 ([] = [])) by done. cbn [andb].
    replace (0 <? Z.of_nat (length (q :: pss)))%Z with true by (cbn [length]; lia).
    set (r2 := set_Decoder r' _).
    assert (Hst2 : adv_state stands r2 q pss).
    { split_and!; cbn; [|done|done|done]. apply positioned_stands, DecodeNext_positioned; done. }
    assert (Hq : q <> []) by (destruct Hch as (_ & (? & _ & (? & ? & ? & _ & ? & _)) & _); done).
    exists q, pss. split; [|split; [done|done]].
    destruct (length pss); cbn [adv_GoNext_loop]; [done|].
    rewrite (stands_IsEnd _ _ (proj1 Hst2)), bool_decide_eq_false_2 by done. done.
  - exists (p :: ps), pss. split; [|done]. destruct (length pss); cbn [adv_GoNext_loop]; [done|].
    rewrite (stands_IsEnd _ _ (proj1 Hst)), bool_decide_eq_false_2 by done. done.
Qed.

(** GoNext from a decoder that has just been opened on [ps] or stands before it. *)
Lemma adv_GoNext_reads r ps pss :
  docs_ok (chain_docs ps pss) ->
  adv_state stands (set_Decoder r (decoder_GoNext (m_Decoder r))) ps pss ->
  adv_reads (adv_GoNext r) (chain_docs ps pss).
Proof.
  intros Hok Hst. unfold adv_GoNext.
  replace (Z.to_nat (m_RemainingContinuationBlocks (set_Decoder r (decoder_GoNext (m_Decoder r)))))
    with (length pss) by (destruct Hst as (_ & _ & _ & ->); lia).
  destruct (adv_GoNext_loop_state _ ps pss Hst) as (ps' & pss' & Hst' & Heq & Hnil).
  assert (Hc : chain_docs ps pss = chain_docs ps' pss') by (unfold chain_docs; by rewrite Heq).
  rewrite Hc in *. by apply close_if_done_reads.
Qed.

Lemma skip_to_app t ps qs :
  skip_to t (ps ++ qs) = match skip_to t ps with [] => skip_to t qs | l => l ++ qs end.
Proof. induction ps as [|p ps IH]; cbn; [done|]. by destruct (t <=? p.1)%Z. Qed.

Lemma skip_to_docs t ps : map fst (skip_to t ps) = skip_docs t (map fst ps).
Proof. induction ps as [|p ps IH]; cbn; [done|]. by case_match. Qed.

Lemma skip_to_last t ps qs :
  docs_ok (map fst (ps ++ qs)) -> ps <> [] -> skip_to t ps = [] <-> (last_doc ps < t)%Z.
Proof.
  intros Hok Hne. unfold last_doc. induction ps as [|p ps IH]; [done|]. cbn in Hok.
  apply docs_ok_cons in Hok as (_ & Hlt & Hok). cbn [skip_to]. destruct ps as [|p' ps].
  - cbn. case_test; split; try done; lia.
  - specialize (IH Hok ltac:(done)). rewrite last_cons_cons. case_test; [|by apply IH].
    split; [done|]. destruct (last (p' :: ps)) as [l|] eqn:El; [|by apply last_None in El].
    assert (p.1 < l.1)%Z; [|lia]. apply Hlt. apply (list_elem_of_fmap_2 fst). apply elem_of_app. left.
    by apply last_Some_elem_of.
Qed.

Lemma skip_to_wf t ps : Forall wf_pair ps -> Forall wf_pair (skip_to t ps).
Proof. induction 1 as [|p ps Hp Hwf IH]; cbn; [done|]. case_match; [by constructor|done]. Qed.

Lemma adv_GoUntil_loop_state t r ps pss :
  docs_ok (chain_docs ps pss) -> adv_state stands r ps pss ->
  exists ps' pss', adv_state stands (adv_GoUntil_loop (S (length pss)) t r) ps' pss' /\
    skip_to t (ps ++ concat pss) = ps' ++ concat pss' /\ (ps' = [] -> pss' = []).
Proof.
  revert r ps. induction pss as [|q pss IH]; intros r ps Hok (Hs & Hwf & Hch & Hrem);
    pose proof (decoder_GoUntil_stands _ _ t Hs Hwf) as Hs';
    pose proof (stands_IsEnd _ _ Hs') as He;
    cbn [adv_GoUntil_loop m_Decoder set_Decoder m_RemainingContinuationBlocks]; rewrite He;
    rewrite skip_to_app; destruct (skip_to t ps) as [|p ps1] eqn:Eskip;
    first [rewrite bool_decide_eq_true_2 by done|rewrite bool_decide_eq_false_2 by done]; cbn [negb].
  - rewrite Hrem. cbn. by exists [], [].
  - exists (p :: ps1), []. cbn. split; [|done].
    split_and!; cbn; [done| |done|done]. rewrite <- Eskip. by apply skip_to_wf.
  - rewrite Hrem. replace (_ =? 0)%Z with false by (cbn [length]; lia).
    pose proof (next_seq_chain r _ _ Hch) as Hseq.
    destruct Hch as (Hsq & (block & Hget & Hpage) & Hch).
    set (r1 := ReleaseCurrentBlock (set_Decoder r (decoder_GoUntil t (m_Decoder r)))).
    change (next_seq r1) with (next_seq r). rewrite Hseq, Hget.
    pose proof Hpage as (header & pre & post & Hh & Hq & Hwfq & Hmax & Hrest). rewrite Hh.
    change (m_RemainingContinuationBlocks r1) with (m_RemainingContinuationBlocks r).
    set (r2 := set_Position r1 _ _).
    assert (Hrem2 : m_RemainingContinuationBlocks r2 = Z.of_nat (length pss)).
    { cbn. unfold saturating_sub. rewrite Hrem. cbn [length]. lia. }
    assert (Hokq : docs_ok (map fst (q ++ concat pss))).
    { unfold chain_docs in Hok. cbn [concat] in Hok. rewrite map_app in Hok. by apply docs_ok_app_r in Hok. }
    cbn [concat]. destruct (Z.ltb_spec (IBCH_MaxDocID header) t) as [Hlt|Hge].
    + assert (Hskip : skip_to t q = []) by (apply (skip_to_last t q (concat pss) Hokq Hq); lia).
      destruct (IH r2 []) as (ps' & pss' & Hst' & Heq & Hnil).
      * unfold chain_docs. cbn [app]. rewrite map_app in Hokq. by apply docs_ok_app_r in Hokq.
      * split_and!; [|done|done|done]. apply (ended_TakeBlock _ Hs').
      * exists ps', pss'. split; [done|]. split; [|done]. rewrite skip_to_app, Hskip. exact Heq.
    + destruct (OpenContinuation_page r2 block q Hpage) as (d & Hopen & Hd).
      rewrite Hopen. set (r3 := set_Decoder (set_Decoder r2 d) _).
      assert (Hs3 : stands (m_Decoder r3) q) by (apply positioned_stands, DecodeNext_positioned; done).
      change (decoder_GoNext (m_Decoder (set_Decoder r2 d))) with (m_Decoder r3).
      rewrite (stands_IsEnd _ _ Hs3), bool_decide_eq_false_2 by done.
      change (length (q :: pss)) with (S (length pss)).
      destruct (IH r3 q Hokq) as (ps' & pss' & Hst' & Heq & Hnil).
      { split_and!; [done|done|done|done]. }
      by exists ps', pss'.
  - exists (p :: ps1), (q :: pss). split; [|done].
    split_and!; cbn [m_Decoder]; [done| |done|done]. rewrite <- Eskip. by apply skip_to_wf.
Qed.
End chain.

Section contract.
Context `{TermSource}.
Implicit Types r : AdvancedIndexReader.

Lemma adv_reads_docs r ds : adv_reads r ds -> docs_ok ds.
Proof. by intros (ps & pss & _ & Hok & _). Qed.

Lemma adv_reads_end r ds : adv_reads r ds -> adv_IsEnd r = bool_decide (ds = []).
Proof.
  intros (ps & pss & -> & _ & Hst & Hnil). unfold adv_IsEnd. rewrite (stands_IsEnd _ _ (proj1 Hst)).
  apply bool_decide_ext. by rewrite chain_docs_nil.
Qed.

Lemma adv_reads_doc r d ds : adv_reads r (d :: ds) -> adv_GetDocumentID r = d.
Proof.
  intros (ps & pss & Hds & _ & Hst & Hnil). destruct ps as [|p ps].
  - by rewrite Hnil in Hds.
  - destruct Hst as ((_ & Hdoc & _) & _). cbn in Hds. injection Hds as -> _. exact Hdoc.
Qed.

Lemma adv_next_reads r ds : adv_reads r ds -> adv_reads (adv_GoNext r) (tail ds).
Proof.
  intros (ps & pss & -> & Hok & (Hs & Hwf & Hch & Hrem) & Hnil).
  assert (Htail : tail (chain_docs ps pss) = chain_docs (tail ps) pss).
  { unfold chain_docs. destruct ps as [|p ps]; [|done]. by rewrite Hnil. }
  rewrite Htail. apply adv_GoNext_reads.
  - rewrite <- Htail. by apply docs_ok_tail.
  - split_and!; cbn; [by apply decoder_GoNext_stands| |done|done]. destruct Hwf; [constructor|done].
Qed.

Lemma adv_until_reads r ds t limit : adv_reads r ds -> adv_reads (adv_GoUntil r t limit) (skip_docs t ds).
Proof.
  intros (ps & pss & -> & Hok & Hst & Hnil). unfold adv_GoUntil.
  replace (Z.to_nat (m_RemainingContinuationBlocks r)) with (length pss) by (destruct Hst as (_ & _ & _ & ->); lia).
  destruct (adv_GoUntil_loop_state t r ps pss Hok Hst) as (ps' & pss' & Hst' & Heq & Hnil').
  assert (Hc : skip_docs t (chain_docs ps pss) = chain_docs ps' pss').
  { unfold chain_docs. by rewrite <- skip_to_docs, Heq. }
  rewrite Hc. apply close_if_done_reads; [|done|done]. rewrite <- Hc. by apply skip_docs_ok.
Qed.

#[export] Program Instance adv_spec : ReaderSpec AdvancedIndexReader := {| reads := adv_reads |}.
Next Obligation. apply adv_reads_docs. Qed.
Next Obligation. apply adv_reads_end. Qed.
Next Obligation. apply adv_reads_doc. Qed.
Next Obligation. intros r ds Hr. eexists. split; [apply converges_now|by apply adv_next_reads]. Qed.
Next Obligation. intros r ds t Hr _. eexists. split; [apply converges_now|by apply adv_until_reads]. Qed.
Next Obligation. intros r ds e Hr. eexists _, _. split; [apply converges_now|done]. Qed.
Next Obligation. intros r ds Hr. eexists _, _. split; [apply converges_now|done]. Qed.

Lemma LoadContinuation_remaining r r' :
  LoadContinuation r = (r', true) ->
  m_RemainingContinuationBlocks r' = saturating_sub (m_RemainingContinuationBlocks r) 1.
Proof.
  unfold LoadContinuation, OpenContinuation. destruct (GetIndexBlock (next_seq r)); [|done].
  intros [= <-]. cbn. by destruct (continuation_from_bytes _).
Qed.

Lemma OpenContinuation_remaining r block :
  m_RemainingContinuationBlocks (OpenContinuation r block) = m_RemainingContinuationBlocks r.
Proof. unfold OpenContinuation. by destruct (continuation_from_bytes block). Qed.

Lemma adv_GoNext_loop_fuel n k r :
  (m_RemainingContinuationBlocks r <= Z.of_nat n)%Z -> adv_GoNext_loop (n + k) r = adv_GoNext_loop n r.
Proof.
  revert r. induction n as [|n IH]; intros r Hn; cbn [Nat.add adv_GoNext_loop].
  - destruct k; cbn [adv_GoNext_loop]; [done|]. rewrite (proj2 (Z.ltb_ge _ _)) by lia. by rewrite andb_false_r.
  - case_match eqn:E; [|done]. destruct (LoadContinuation r) as [r' []] eqn:El; [|done].
    apply IH. cbn. rewrite (LoadContinuation_remaining _ _ El). unfold saturating_sub. lia.
Qed.

Lemma adv_GoUntil_loop_fuel t n k r :
  (0 <= m_RemainingContinuationBlocks r < Z.of_nat n)%Z -> adv_GoUntil_loop (n + k) t r = adv_GoUntil_loop n t r.
Proof.
  revert r. induction n as [|n IH]; intros r Hn; [lia|]. cbn [Nat.add adv_GoUntil_loop].
  case_match; [done|]. cbn [m_RemainingContinuationBlocks set_Decoder].
  destruct (Z.eqb_spec (m_RemainingContinuationBlocks r) 0) as [|Hne]; [done|].
  case_match; [|done]. case_match; [|done].
  assert (Hrem : (0 <= saturating_sub (m_RemainingContinuationBlocks r) 1 < Z.of_nat n)%Z)
    by (unfold saturating_sub; lia).
  case_match; [by apply IH|]. case_match; [done|]. apply IH.
  cbn [m_RemainingContinuationBlocks set_Decoder]. by rewrite OpenContinuation_remaining.
Qed.

Lemma Open_reads `{Libm} key location block pre ps post pss
    num_documents average_stream_length span_weight word_span :
  FindTermData key = Some location ->
  GetIndexBlock (index_block_id location) = Some block ->
  block = pre ++ enc_pairs ps ++ post -> length block = PAGE_SIZE ->
  index_offset location = Z.of_nat (length pre) -> index_length location = Z.of_nat (length (enc_pairs ps)) ->
  continuation_block_count location = Z.of_nat (length pss) ->
  continuation_chain (index_block_id location) pss ->
  Forall wf_pair ps -> docs_ok (chain_docs ps pss) ->
  (0 < num_documents)%Z -> f_gt average_stream_length (f_of_Z F32 0) = true ->
  exists r, Open key num_documents average_stream_length span_weight word_span = Some r /\
    reads r (chain_docs ps pss).
Proof.
  intros Hfind Hget Hb Hpage Hoff Hlen Hcnt Hch Hwf Hok Hnum Havg. unfold Open.
  rewrite Hfind, Havg, (proj2 (Z.ltb_lt _ _) Hnum), Hget, Hoff, Hlen, !Nat2Z.id. cbn [negb orb].
  eexists. split; [done|]. apply adv_GoNext_reads; [done|]. split_and!; cbn; [|done|done|done].
  rewrite Hb. apply positioned_stands, DecodeNext_positioned; [|done]. apply OpenRaw_decodes.
  assert (length pre + length (enc_pairs ps) <= PAGE_SIZE) by (rewrite <- Hpage, Hb; len_lia).
  pose proof PAGE_SIZE_Z. lia.
Qed.

(** Opening a term the index does not have gives a reader that reads nothing. *)
Lemma Open_absent `{Libm} key num_documents average_stream_length span_weight word_span :
  FindTermData key = None ->
  exists r, Open key num_documents average_stream_length span_weight word_span = Some r /\ reads r [].
Proof.
  intros Hfind. unfold Open. rewrite Hfind. eexists. split; [done|].
  apply (adv_GoNext_reads _ [] []); [apply docs_ok_nil|]. by split_and!.
Qed.

(** C16: an AdvancedIndexReader opened on a term whose first page and continuation pages hold its
    encoded postings reads exactly the posting's document ids, in order and across the pages, and
    stays within the reader contract under advance, seek and scoring (the instance above). *)
Theorem AdvancedIndexReader_reads_postings `{Libm} key location block pre ps post pss
    num_documents average_stream_length span_weight word_span :
  FindTermData key = Some location ->
  GetIndexBlock (index_block_id location) = Some block ->
  block = pre ++ enc_pairs ps ++ post -> length block = PAGE_SIZE ->
  index_offset location = Z.of_nat (length pre) -> index_length location = Z.of_nat (length (enc_pairs ps)) ->
  continuation_block_count location = Z.of_nat (length pss) ->
  continuation_chain (index_block_id location) pss ->
  Forall wf_pair ps -> docs_ok (chain_docs ps pss) ->
  (0 < num_documents)%Z -> f_gt average_stream_length (f_of_Z F32 0) = true ->
  exists r, Open key num_documents average_stream_length span_weight word_span = Some r /\
    reads r (chain_docs ps pss).
Proof. apply Open_reads. Qed.

(** whatever pages the table returns, corrupted ones and failures included, both loops of the
    reader stop by their own tests within the rounds the model gives them: more fuel changes
    nothing. *)
Theorem AdvancedIndexReader_loops_terminate r t k :
  (0 <= m_RemainingContinuationBlocks r)%Z ->
  adv_GoNext_loop (Z.to_nat (m_RemainingContinuationBlocks r) + k) r
    = adv_GoNext_loop (Z.to_nat (m_RemainingContinuationBlocks r)) r /\
  adv_GoUntil_loop (S (Z.to_nat (m_RemainingContinuationBlocks r)) + k) t r
    = adv_GoUntil_loop (S (Z.to_nat (m_RemainingContinuationBlocks r))) t r.
Proof. intros Hr. split; [apply adv_GoNext_loop_fuel|apply adv_GoUntil_loop_fuel]; lia. Qed.
End contract.

(** * Witnesses *)

(** A term with two postings on its first page and two on a continuation page. *)
Definition sample_page : bytes :=
  [9; 9; 9]%Z ++ enc_pairs [(3, 16); (300, 32)]%Z ++ zeros (PAGE_SIZE - 3 - length (enc_pairs [(3, 16); (300, 32)]%Z)).
Definition sample_continuation : bytes :=
  let ps := [(301, 1); (70000, 2)]%Z in
  continuation_write_to {| IBCH_MaxDocID := 70000; IBCH_DataLength := Z.of_nat (length (enc_pairs ps)) |}
    (zeros INDEX_BLOCK_CONTINUATION_HEADER_SIZE ++ enc_pairs ps
       ++ zeros (PAGE_SIZE - INDEX_BLOCK_CONTINUATION_HEADER_SIZE - length (enc_pairs ps))).

Definition sample_location : IndexLocation :=
  {| index_block_id := 4; index_offset := 3; index_length := 5; doc_freq_ := 4; continuation_block_count := 1 |}.

Definition sample_source : TermSource :=
  {| FindTermData key := if decide (key = [97; 84]%Z) then Some sample_location else None;
     GetIndexBlock seq := if (seq =? 4)%Z then Some sample_page
                          else if (seq =? 5)%Z then Some sample_continuation else None |}.

Lemma sample_continuation_page : continuation_page sample_continuation [(301, 1); (70000, 2)]%Z.
Proof.
  exists {| IBCH_MaxDocID := 70000; IBCH_DataLength := 7 |},
    (take INDEX_BLOCK_CONTINUATION_HEADER_SIZE sample_continuation),
    (zeros (PAGE_SIZE - INDEX_BLOCK_CONTINUATION_HEADER_SIZE - 7)).
  split; [vm_compute; reflexivity|]. split; [discriminate|].
  split; [repeat constructor; unfold in_u; cbn; lia|]. repeat (split; [vm_compute; reflexivity|]). vm_compute; reflexivity.
Qed.

Lemma AdvancedIndexReader_reads_postings_witness :
  exists r, @Open sample_source sample_libm [97; 84]%Z 10 (f_of_Z F32 3) (f_of_Z F32 1) 1 = Some r /\
    @adv_reads sample_source r [3; 300; 301; 70000]%Z.
Proof.
  apply (@AdvancedIndexReader_reads_postings sample_source sample_libm [97; 84]%Z sample_location sample_page
    [9; 9; 9]%Z [(3, 16); (300, 32)]%Z (zeros (PAGE_SIZE - 3 - length (enc_pairs [(3, 16); (300, 32)]%Z)))
    [[(301, 1); (70000, 2)]]%Z 10 (f_of_Z F32 3) (f_of_Z F32 1) 1).
  - reflexivity.
  - reflexivity.
  - reflexivity.
  - vm_compute; reflexivity.
  - reflexivity.
  - reflexivity.
  - reflexivity.
  - split; [cbn; unfold u32_max; lia|]. split; [|exact I].
    exists sample_continuation. split; [reflexivity|exact sample_continuation_page].
  - repeat constructor; unfold in_u; cbn; lia.
  - apply docs_ok_compute. vm_compute; reflexivity.
  - lia.
  - vm_compute; reflexivity.
Defined.

(** A reader of a table that has no pages. *)
Definition broken_source : TermSource := {| FindTermData _ := Some sample_location; GetIndexBlock _ := None |}.

Definition broken_reader : AdvancedIndexReader :=
  {| m_Word := []; m_DocFreq := 0; m_Stream := 84; m_SourceMask := 4; m_WordSpan := 1;
     m_SpanWeight := f_of_Z F32 1; m_Idf := f_of_Z F32 1; m_Bm25LengthBias := f_of_Z F32 0;
     m_Bm25LengthScale := f_of_Z F32 0; m_BlockSeqNumber := 4; m_RemainingContinuationBlocks := 3;
     m_Decoder := decoder_new |}.

Lemma AdvancedIndexReader_loops_terminate_witness :
  @adv_GoNext_loop broken_source 103 broken_reader = @adv_GoNext_loop broken_source 3 broken_reader /\
  @adv_GoUntil_loop broken_source 104 9 broken_reader = @adv_GoUntil_loop broken_source 4 9 broken_reader.
Proof. apply (@AdvancedIndexReader_loops_terminate broken_source broken_reader 9 100). by vm_compute. Defined.
