(* ===== verification/EvalExpression.v ===== *)
(** The query tree and the scoring parameters (EvalExpression.rs), and the query
    compiler that builds the tree from a query string (IndexSearchCompiler.rs).
    The tokenizer is a parameter: its segmentation is the icu library's. *)

From Stdlib Require Import Ascii String.
From Stdlib Require Import ZArith Lia ZifyBool Bool List.
From Stdlib Require Import Floats.SpecFloat.
From stdpp Require Import base list list_numbers gmap sorting.
From S2P Require Import Prelude Floats PostingStore.

Local Open Scope moon_scope.

(** * Parameters *)

Record QueryCompileModeParameters := {
  QMP_UnigramWeight : f32;
  QMP_BigramWeight : f32;
  QMP_BigramBoostWeight : f32;
  QMP_StaticWeight : f32;
  QMP_PriorWeight : f32;
  QMP_QualityWeight : f32;
  QMP_AuthorityWeight : f32;
  QMP_SpamPenalty : f32;
  QMP_CosineWeight : f32;
  QMP_AnchorWeight : f32;
  QMP_UrlWeight : f32;
  QMP_TitleWeight : f32;
  QMP_BodyWeight : f32;
}.

Definition kWeakAndBigramParameters : QueryCompileModeParameters := {|
  QMP_UnigramWeight := f_lit F32 18 10;
  QMP_BigramWeight := f_lit F32 2 10;
  QMP_BigramBoostWeight := f_of_Z F32 0;
  QMP_StaticWeight := f_of_Z F32 1;
  QMP_PriorWeight := f_of_Z F32 0;
  QMP_QualityWeight := f_of_Z F32 1;
  QMP_AuthorityWeight := f_lit F32 5 10;
  QMP_SpamPenalty := f_of_Z F32 2;
  QMP_CosineWeight := f_of_Z F32 16;
  QMP_AnchorWeight := f_of_Z F32 1;
  QMP_UrlWeight := f_of_Z F32 1;
  QMP_TitleWeight := f_of_Z F32 1;
  QMP_BodyWeight := f_of_Z F32 1;
|}.

Definition kWeakAndBigramBoostParameters : QueryCompileModeParameters := {|
  QMP_UnigramWeight := f_lit F32 25 100;
  QMP_BigramWeight := f_of_Z F32 1;
  QMP_BigramBoostWeight := f_lit F32 5 10;
  QMP_StaticWeight := f_lit F32 25 100;
  QMP_PriorWeight := f_of_Z F32 4;
  QMP_QualityWeight := f_lit F32 25 100;
  QMP_AuthorityWeight := f_of_Z F32 0;
  QMP_SpamPenalty := f_of_Z F32 4;
  QMP_CosineWeight := f_of_Z F32 16;
  QMP_AnchorWeight := f_of_Z F32 1;
  QMP_UrlWeight := f_of_Z F32 1;
  QMP_TitleWeight := f_of_Z F32 1;
  QMP_BodyWeight := f_of_Z F32 1;
|}.

Definition kWeakAndBigramBoostForDocParameters : QueryCompileModeParameters := {|
  QMP_UnigramWeight := f_lit F32 9 100;
  QMP_BigramWeight := f_lit F32 5 10;
  QMP_BigramBoostWeight := f_of_Z F32 4;
  QMP_StaticWeight := f_lit F32 25 100;
  QMP_PriorWeight := f_of_Z F32 2;
  QMP_QualityWeight := f_of_Z F32 1;
  QMP_AuthorityWeight := f_lit F32 1 10;
  QMP_SpamPenalty := f_of_Z F32 1;
  QMP_CosineWeight := f_of_Z F32 128;
  QMP_AnchorWeight := f_of_Z F32 1;
  QMP_UrlWeight := f_of_Z F32 1;
  QMP_TitleWeight := f_of_Z F32 1;
  QMP_BodyWeight := f_of_Z F32 1;
|}.

Inductive QueryCompileMode := ModeDefault | WeakAndBigram | WeakAndBigramBoost | WeakAndBigramBoostForDoc.

Inductive WeakAndBuildMode := FlatPruned | OrChildren | OrChildrenPruned.

#[export] Instance WeakAndBuildMode_eq : EqDecision WeakAndBuildMode.
Proof. solve_decision. Defined.

Definition GetQueryCompileModeParameters (mode : QueryCompileMode) : QueryCompileModeParameters :=
  match mode with
  | WeakAndBigramBoost => kWeakAndBigramBoostParameters
  | WeakAndBigramBoostForDoc => kWeakAndBigramBoostForDocParameters
  | _ => kWeakAndBigramParameters
  end.

(** * The tree *)

#[warnings="-register-all"]
Inductive EvalNode :=
  | Term (stream_key : bytes) (word_span : Z)
  | And (children : list EvalNode)
  | Or (children : list EvalNode)
  | Not (base exclude : EvalNode)
  | WeakAnd (children : list EvalNode) (min_should_match : Z)
  | Boost (base boost : EvalNode) (boost_weight : f32).

Record EvalTree := { root : option EvalNode; vector_query : list f32; vector_ef_search : Z }.

Definition tree_new (root : option EvalNode) : EvalTree :=
  {| root := root; vector_query := []; vector_ef_search := 200 |}.
Definition tree_empty : EvalTree := tree_new None.
Definition HasTextQuery (t : EvalTree) : bool := match root t with Some _ => true | None => false end.
Definition HasVectorQuery (t : EvalTree) : bool := match vector_query t with [] => false | _ => true end.
Definition IsEmpty (t : EvalTree) : bool := negb (HasTextQuery t) && negb (HasVectorQuery t).

(** * The compiler

    Strings are their UTF-8 bytes. The characters the compiler looks at are ASCII,
    and an ASCII byte of a UTF-8 string is that character. *)

Class Tokenizer := { Tokenize : bytes -> list bytes }.

Definition BIGRAM_SEP : Z := 31.

(** Streams are one-character strings. *)
Definition ParseStreamSet (s : bytes) : list bytes :=
  let streams := omap (fun c =>
      if existsb (Z.eqb c) [chr "A"; chr "U"; chr "T"; chr "B"; chr "M"] then Some [c] else None) s in
  let saw_vector_only_candidate := existsb (fun c => (c =? chr "V")%Z || (c =? chr "v")%Z) s in
  match streams with
  | [] => if negb saw_vector_only_candidate then [[chr "T"]] else []
  | _ => streams
  end.

Definition HasVectorStream (s : bytes) : bool :=
  existsb (fun c => (c =? chr "V")%Z || (c =? chr "v")%Z) s.

Definition make_term_group (term : bytes) (streams : list bytes) (word_span : Z) : EvalNode :=
  match streams with
  | [s] => Term (term ++ s) word_span
  | _ => Or (map (fun s => Term (term ++ s) word_span) streams)
  end.

Definition ascii_lower (c : Z) : Z := if (65 <=? c)%Z && (c <=? 90)%Z then (c + 32)%Z else c.

Definition streams_for_field (field : bytes) (fallback : list bytes) : list bytes :=
  let f := map ascii_lower field in
  if decide (f = of_string "title") then [[chr "T"]]
  else if decide (f = of_string "body") then [[chr "B"]]
  else if decide (f = of_string "url") then [[chr "U"]]
  else if decide (f = of_string "site") then [[chr "U"]]
  else if decide (f = of_string "anchor") then [[chr "A"]]
  else if decide (f = of_string "meta") then [[chr "M"]]
  else fallback.

Definition is_or_token (raw : bytes) : bool := bool_decide (map ascii_lower raw = of_string "or").
Definition is_not_token (raw : bytes) : bool :=
  bool_decide (raw ∈ map of_string ["not"; "NOT"; "Not"; "nOT"; "-"]%string).

(** [char::is_ascii_whitespace]: tab, line feed, form feed, carriage return, space. *)
Definition is_ascii_whitespace (c : Z) : bool := existsb (Z.eqb c) [9; 10; 12; 13; 32]%Z.

Definition is_item_separator (ch : Z) : bool :=
  is_ascii_whitespace ch || (ch =? chr ",")%Z || (ch =? chr "(")%Z || (ch =? chr ")")%Z.

Definition split_raw_items (query : bytes) : list bytes :=
  let st := fold_left (fun (st : list bytes * bytes) ch =>
      if is_item_separator ch then
        match st.2 with [] => st | current => (st.1 ++ [current], []) end
      else (st.1, st.2 ++ [ch])) query ([], []) in
  match st.2 with [] => st.1 | current => st.1 ++ [current] end.

Record QueryTerm := { qt_term : bytes; qt_streams : list bytes }.

Definition query_term_key (t : QueryTerm) : bytes :=
  qt_term t ++ [30%Z] ++ concat (map (fun s => s ++ [chr ","]) (qt_streams t)).

(** [filter(|t| seen.insert(key(t)))]: the tokens whose key is new, and the keys seen. *)
Fixpoint insert_new (seen : list bytes) (tokens : list QueryTerm) : list QueryTerm * list bytes :=
  match tokens with
  | [] => ([], seen)
  | t :: ts =>
      let key := query_term_key t in
      if decide (key ∈ seen) then insert_new seen ts
      else let r := insert_new (key :: seen) ts in (t :: r.1, r.2)
  end.

(** [String::len] counts bytes. *)
Definition filter_weak_and_terms (tokens : list QueryTerm) : list QueryTerm :=
  let r := insert_new [] (List.filter (fun t => 1 <? length (qt_term t)) tokens) in
  match r.1 with
  | [] => (insert_new r.2 (List.filter (fun t => 0 <? length (qt_term t)) tokens)).1
  | filtered => filtered
  end.

(** [str::find] of a character: the first byte offset. *)
Fixpoint find_byte (c : Z) (s : bytes) : option nat :=
  match s with
  | [] => None
  | x :: s' => if (x =? c)%Z then Some 0 else S <$> find_byte c s'
  end.

(** The terms an item adds, and whether they are excluded. *)
Definition add_raw_item `{Tokenizer} (raw : bytes) (default_streams : list bytes)
    (positive negative : list QueryTerm) (force_exclude : bool) : list QueryTerm * list QueryTerm :=
  if bool_decide (raw = []) || is_or_token raw || is_not_token raw then (positive, negative)
  else
    let has_minus_prefix := bool_decide (head raw = Some (chr "-")) && (1 <? length raw) in
    let exclude := has_minus_prefix || force_exclude in
    let item := if has_minus_prefix then drop 1 raw else raw in
    match item with
    | [] => (positive, negative)
    | _ =>
        let '(streams, item) :=
          match find_byte (chr ":") item with
          | Some colon =>
              if (0 <? colon) && (colon + 1 <? length item)
              then (streams_for_field (take colon item) default_streams, drop (colon + 1) item)
              else (default_streams, item)
          | None => (default_streams, item)
          end in
        let terms := map (fun token => {| qt_term := token; qt_streams := streams |}) (Tokenize item) in
        if exclude then (positive, negative ++ terms) else (positive ++ terms, negative)
    end.

Definition make_query_term_group (t : QueryTerm) (word_span : Z) : EvalNode :=
  make_term_group (qt_term t) (qt_streams t) word_span.

(** [windows(2)]. *)
Fixpoint pairs2 {A} (l : list A) : list (A * A) :=
  match l with
  | a :: (b :: _) as l' => (a, b) :: pairs2 l'
  | _ => []
  end.

Definition bigram_groups (terms : list QueryTerm) : list EvalNode :=
  map (fun w : QueryTerm * QueryTerm =>
         make_term_group (qt_term w.1 ++ [BIGRAM_SEP] ++ qt_term w.2) (qt_streams w.1) 2)
    (filter (fun w => qt_streams w.1 = qt_streams w.2) (pairs2 terms)).

Definition build_bigram_query (terms : list QueryTerm) : option EvalNode :=
  if length terms <? 2 then None
  else match bigram_groups terms with
  | [] => None
  | [g] => Some g
  | groups => Some (And groups)
  end.

Definition build_any_bigram_query (terms : list QueryTerm) : option EvalNode :=
  if length terms <? 2 then None
  else match bigram_groups terms with
  | [] => None
  | [g] => Some g
  | groups => Some (Or groups)
  end.

Definition min_should_match (term_count : nat) : Z :=
  if term_count <=? 2 then 1 else if term_count <=? 5 then 2 else 3.

Definition build_weak_and_base_expression (terms : list QueryTerm) : option EvalNode :=
  match terms with
  | [] => None
  | [t] => Some (make_query_term_group t 1)
  | _ =>
      let children := map (fun t => make_query_term_group t 1) terms in
      Some (WeakAnd children (Z.min (min_should_match (length terms)) (Z.of_nat (length children))))
  end.

Definition build_weak_and_bigram_expression (tokens : list QueryTerm) : option EvalNode :=
  let terms := filter_weak_and_terms tokens in
  let base := build_weak_and_base_expression terms in
  let bigram := build_any_bigram_query terms in
  match base, bigram with
  | Some base, Some bigram => Some (Or [base; bigram])
  | Some base, None => Some base
  | None, bigram => bigram
  end.

Definition build_weak_and_bigram_boost_expression (tokens : list QueryTerm) (mode : QueryCompileMode)
    : option EvalNode :=
  let terms := filter_weak_and_terms tokens in
  opt base := build_weak_and_base_expression terms in
  match build_any_bigram_query terms with
  | None => Some base
  | Some bigram => Some (Boost base bigram (QMP_BigramBoostWeight (GetQueryCompileModeParameters mode)))
  end.

Definition build_implicit_expression (tokens : list QueryTerm) (mode : QueryCompileMode) : option EvalNode :=
  match mode with
  | WeakAndBigram => build_weak_and_bigram_expression tokens
  | WeakAndBigramBoost | WeakAndBigramBoostForDoc => build_weak_and_bigram_boost_expression tokens mode
  | ModeDefault =>
      match map (fun t => make_query_term_group t 1) tokens with
      | [] => None
      | free_nodes =>
          let unigram_base := match free_nodes with [n] => n | _ => And free_nodes end in
          match build_bigram_query tokens with
          | Some bigram => Some (Or [bigram; unigram_base])
          | None => Some unigram_base
          end
      end
  end.

Definition build_minus_expression (positive negative : list QueryTerm) (mode : QueryCompileMode)
    : option EvalNode :=
  match negative with
  | [] => build_implicit_expression positive mode
  | _ =>
      match positive with
      | [] => None
      | _ =>
          opt base := build_implicit_expression positive mode in
          opt exclude := build_implicit_expression negative mode in
          Some (Not base exclude)
      end
  end.

(** The state of parse_expression's loop. *)
Record ParseState := {
  ps_disjuncts : list EvalNode;
  ps_positive : list QueryTerm;
  ps_negative : list QueryTerm;
  ps_saw_any : bool;
  ps_next_is_negative : bool;
}.

Definition push_disjunct (mode : QueryCompileMode) (st : ParseState) : list EvalNode :=
  match build_minus_expression (ps_positive st) (ps_negative st) mode with
  | Some node => ps_disjuncts st ++ [node]
  | None => ps_disjuncts st
  end.

Definition parse_item `{Tokenizer} (streams : list bytes) (mode : QueryCompileMode) (st : ParseState)
    (raw : bytes) : ParseState :=
  if is_or_token raw then
    {| ps_disjuncts := push_disjunct mode st; ps_positive := []; ps_negative := [];
       ps_saw_any := ps_saw_any st; ps_next_is_negative := false |}
  else if is_not_token raw then
    {| ps_disjuncts := ps_disjuncts st; ps_positive := ps_positive st; ps_negative := ps_negative st;
       ps_saw_any := ps_saw_any st; ps_next_is_negative := true |}
  else
    let r := add_raw_item raw streams (ps_positive st) (ps_negative st) (ps_next_is_negative st) in
    {| ps_disjuncts := ps_disjuncts st; ps_positive := r.1; ps_negative := r.2;
       ps_saw_any := true; ps_next_is_negative := false |}.

Definition parse_expression `{Tokenizer} (query : bytes) (streams : list bytes) (mode : QueryCompileMode)
    : option EvalNode :=
  let st := fold_left (parse_item streams mode) (split_raw_items query)
    {| ps_disjuncts := []; ps_positive := []; ps_negative := []; ps_saw_any := false;
       ps_next_is_negative := false |} in
  if negb (ps_saw_any st) then None
  else match push_disjunct mode st with
  | [] => None
  | [d] => Some d
  | disjuncts => Some (Or disjuncts)
  end.

Definition CompileWithMode `{Tokenizer} (query stream_set : bytes) (mode : QueryCompileMode) : EvalTree :=
  match query with
  | [] => tree_empty
  | _ =>
      let streams := ParseStreamSet stream_set in
      tree_new (match streams with [] => None | _ => parse_expression query streams mode end)
  end.

Definition Compile `{Tokenizer} (query stream_set : bytes) : EvalTree :=
  CompileWithMode query stream_set ModeDefault.

(** IEmbeddingModel: [GetDimension] and [Embed]. *)
Class EmbeddingModel := { GetDimension : nat; Embed : list bytes -> list f32 }.

Definition CompileToVectorWithModel `{Tokenizer} (model : EmbeddingModel) (query : bytes) : list f32 :=
  match query with
  | [] => replicate (@GetDimension model) (f_of_Z F32 0)
  | _ => @Embed model (Tokenize query)
  end.

Definition CompileWithEmbeddingModel `{Tokenizer} (query stream_set : bytes)
    (embedding_model : option EmbeddingModel) (mode : QueryCompileMode) : EvalTree :=
  match query with
  | [] => tree_empty
  | _ =>
      let tree := CompileWithMode query stream_set mode in
      if HasVectorStream stream_set then
        match embedding_model with
        | Some model =>
            {| root := root tree; vector_query := CompileToVectorWithModel model query;
               vector_ef_search := vector_ef_search tree |}
        | None => tree
        end
      else tree
  end.
