(* ===== verification/Executor.v ===== *)
(** The search executor (IndexSearchExecutor.rs): it drives a reader to its end,
    scores every document and keeps the best. BinaryHeap is the interface
    [MinHeap] with the standard library's documented laws; the theorems hold for
    every implementation, and a list implementation makes the model executable. *)

From Stdlib Require Import ZArith Lia ZifyBool Bool List.
From Stdlib Require Import Floats.SpecFloat.
From stdpp Require Import base list list_numbers gmap sorting.
From S2P Require Import Prelude Floats PostingStore IndexReader EvalExpression.

Local Open Scope moon_scope.

Record SearchResult := { sr_doc_id : Z; sr_score : f32; sr_snippet : bytes }.

(** * BinaryHeap<Reverse<HeapEntry>>

    A heap of results with the smallest score on top. *)

Class MinHeap (H : Type) := {
  heap_new : H;
  heap_push : SearchResult -> H -> H;
  heap_pop : H -> H;
  heap_peek : H -> option SearchResult;
  heap_len : H -> nat;
  heap_into_iter : H -> list SearchResult;
}.

Definition no_nan (l : list SearchResult) : Prop := Forall (fun r => f_is_nan (sr_score r) = false) l.

(** The documented laws of BinaryHeap; the order is only meaningful without NaN scores. *)
Class MinHeapSpec (H : Type) {ops : MinHeap H} := {
  heap_new_items : heap_into_iter heap_new = [];
  heap_push_items x h : heap_into_iter (heap_push x h) ≡ₚ x :: heap_into_iter h;
  heap_len_items h : heap_len h = length (heap_into_iter h);
  heap_peek_none h : heap_peek h = None -> heap_into_iter h = [];
  heap_peek_some h x : heap_peek h = Some x -> heap_into_iter h ≡ₚ x :: heap_into_iter (heap_pop h);
  heap_peek_min h x : heap_peek h = Some x -> no_nan (heap_into_iter h) ->
    Forall (fun y => f_gt (sr_score x) (sr_score y) = false) (heap_into_iter h);
}.

(** * Scores *)

(** [None]: no vector query. *)
Definition DocDataPrior `{Libm} (entry : DocDataEntry) : f32 :=
  let docLength := f_of_Z F32 (Z.max (DDE_BodyLength entry) 1) in
  let lengthQuality :=
    f_max (f_sub F32 (f_of_Z F32 1)
      (f_div F32 (f_abs (f_sub F32 (log2_f32 docLength) (f_of_Z F32 6))) (f_of_Z F32 4))) (f_of_Z F32 0) in
  f_sub F32
    (f_add F32
      (f_add F32 (f_mul F32 (f_lit F32 15 100) lengthQuality)
        (f_mul F32 (f_lit F32 10 100) (DocDataDecodeScore (DDE_QualityScore entry))))
      (f_mul F32 (f_lit F32 5 100) (DocDataDecodeScore (DDE_AuthorityScore entry))))
    (f_mul F32 (f_lit F32 10 100) (DocDataDecodeScore (DDE_SpamScore entry))).

Definition DocDataScore `{Libm} (entry : DocDataEntry) (p : QueryCompileModeParameters) : f32 :=
  f_sub F32
    (f_add F32
      (f_add F32
        (f_add F32 (f_mul F32 (QMP_StaticWeight p) (DocDataDecodeScore (DDE_StaticRank entry)))
          (f_mul F32 (QMP_PriorWeight p) (DocDataPrior entry)))
        (f_mul F32 (QMP_QualityWeight p) (DocDataDecodeScore (DDE_QualityScore entry))))
      (f_mul F32 (QMP_AuthorityWeight p) (DocDataDecodeScore (DDE_AuthorityScore entry))))
    (f_mul F32 (QMP_SpamPenalty p) (DocDataDecodeScore (DDE_SpamScore entry))).

Record DotNorms := { dot : f32; nq : f32; nd : f32 }.

Definition VectorScoreFeature (entry : DocDataEntry) (query : option (list f32)) (p : QueryCompileModeParameters) : f32 :=
  match query with
  | None => f_of_Z F32 0
  | Some query =>
      if negb (length query =? DOC_VECTOR_DIM) || negb (DDE_VectorDim entry =? Z.of_nat DOC_VECTOR_DIM)%Z
         || (DDE_VectorFormat entry =? 0)%Z then f_of_Z F32 0
      else
        let acc := fold_left (fun acc (qe : f32 * Z) =>
            let d := f_div F32 (f_of_Z F32 qe.2) (f_of_Z F32 128) in
            {| dot := f_add F32 (dot acc) (f_mul F32 qe.1 d);
               nq := f_add F32 (nq acc) (f_mul F32 qe.1 qe.1);
               nd := f_add F32 (nd acc) (f_mul F32 d d) |})
          (zip query (DDE_VectorData entry))
          {| dot := f_of_Z F32 0; nq := f_of_Z F32 0; nd := f_of_Z F32 0 |} in
        if f_le (nq acc) (f_of_Z F32 0) || f_le (nd acc) (f_of_Z F32 0) then f_of_Z F32 0
        else f_div F32 (f_mul F32 (QMP_CosineWeight p) (dot acc)) (f_mul F32 (f_sqrt F32 (nq acc)) (f_sqrt F32 (nd acc)))
  end.

(** * The executor *)

(** [usize::try_from(topK).ok().filter(|limit| *limit > 0)]. *)
Definition TopKLimit (topK : Z) : option nat := if (0 <? topK)%Z then Some (Z.to_nat topK) else None.

(** [sort_by] is stable; [a] may precede [b] unless [b.score > a.score]. *)
Definition sort_results (l : list SearchResult) : list SearchResult :=
  stable_sort (fun a b => negb (f_gt (sr_score b) (sr_score a))) l.

Definition SortAndTruncate (results : list SearchResult) (limit : option nat) : list SearchResult :=
  let results := sort_results results in
  match limit with
  | Some limit => if limit <? length results then take limit results else results
  | None => results
  end.

Section executor.
Context `{Libm} {R Hp : Type} `{IndexReader R, MinHeap Hp}.
(** SearchExecutionContext::GetDocDataEntry, and the process-wide parameters. *)
Context (GetDocDataEntry : Z -> option DocDataEntry) (parameters : QueryCompileModeParameters).

(** The body of the loop up to the result: [None] is out of fuel, or the
    panic on a document without record. *)
Definition score_current (fuel : nat) (vectorQuery : option (list f32)) (reader : R)
    : option (R * SearchResult) :=
  let docId := GetDocumentID reader in
  opt entry := GetDocDataEntry docId in
  opt rs := GetScore fuel reader entry in
  let score := f_add F32 (f_add F32 rs.2 (DocDataScore entry parameters))
                 (VectorScoreFeature entry vectorQuery parameters) in
  opt rm := GetSourceMask fuel rs.1 in
  Some (rm.1, {| sr_doc_id := MakeReaderDocumentID docId rm.2; sr_score := score; sr_snippet := [] |}).

(** What a visited document does to the heap and the results. *)
Definition keep (limit : option nat) (result : SearchResult) (st : Hp * list SearchResult)
    : Hp * list SearchResult :=
  match limit with
  | Some limit =>
      if heap_len st.1 <? limit then (heap_push result st.1, st.2)
      else match heap_peek st.1 with
      | Some top =>
          if f_gt (sr_score result) (sr_score top)
          then (heap_push result (heap_pop st.1), st.2) else st
      | None => st
      end
  | None => (st.1, st.2 ++ [result])
  end.

Definition finish (limit : option nat) (st : Hp * list SearchResult) : list SearchResult :=
  SortAndTruncate (match limit with Some _ => st.2 ++ heap_into_iter st.1 | None => st.2 end) limit.

Fixpoint ExecuteWithVector_loop (fuel : nat) (limit : option nat) (vectorQuery : option (list f32))
    (reader : R) (st : Hp * list SearchResult) : option (Hp * list SearchResult) :=
  match fuel with
  | O => None
  | S fuel' =>
      if IsEnd reader then Some st
      else
        opt rr := score_current fuel' vectorQuery reader in
        let st' := keep limit rr.2 st in
        opt reader' := GoNext fuel' rr.1 in
        ExecuteWithVector_loop fuel' limit vectorQuery reader' st'
  end.

Definition ExecuteWithVector (fuel : nat) (reader : R) (topK : Z) (vectorQuery : option (list f32))
    : option (list SearchResult) :=
  if IsEnd reader then Some []
  else
    let limit := TopKLimit topK in
    opt st := ExecuteWithVector_loop fuel limit vectorQuery reader (heap_new, []) in
    Some (finish limit st).

Definition Execute (fuel : nat) (reader : R) (topK : Z) : option (list SearchResult) :=
  ExecuteWithVector fuel reader topK None.

Fixpoint ExecuteBounded_loop (fuel : nat) (limit : option nat) (vectorQuery : option (list f32))
    (maxVisitedDocs visited : Z) (reader : R) (st : Hp * list SearchResult) : option (Hp * list SearchResult) :=
  match fuel with
  | O => None
  | S fuel' =>
      if negb (IsEnd reader) && (visited <? maxVisitedDocs)%Z then
        opt rr := score_current fuel' vectorQuery reader in
        let st' := keep limit rr.2 st in
        opt reader' := GoNext fuel' rr.1 in
        ExecuteBounded_loop fuel' limit vectorQuery maxVisitedDocs (visited + 1) reader' st'
      else Some st
  end.

Definition ExecuteBounded (fuel : nat) (reader : R) (topK maxVisitedDocs : Z) (vectorQuery : option (list f32))
    : option (list SearchResult) :=
  if IsEnd reader || (maxVisitedDocs =? 0)%Z then Some []
  else
    let limit := TopKLimit topK in
    opt st := ExecuteBounded_loop fuel limit vectorQuery maxVisitedDocs 0 reader (heap_new, []) in
    Some (finish limit st).
End executor.

(** * The order of scores

    On floats that are not NaN, [f_gt] is a total order: by sign, exponent and
    mantissa. *)

Definition f_key (x : spec_float) : Z * Z * Z :=
  match x with
  | S754_infinity true => (-2, 0, 0)%Z
  | S754_finite true m e => (-1, - e, - Z.pos m)%Z
  | S754_finite false m e => (1, e, Z.pos m)%Z
  | S754_infinity false => (2, 0, 0)%Z
  | _ => (0, 0, 0)%Z
  end.

Definition key_lt (a b : Z * Z * Z) : Prop :=
  (a.1.1 < b.1.1 \/ a.1.1 = b.1.1 /\ (a.1.2 < b.1.2 \/ a.1.2 = b.1.2 /\ a.2 < b.2))%Z.

Lemma f_gt_key x y :
  f_is_nan x = false -> f_is_nan y = false -> f_gt x y = true <-> key_lt (f_key y) (f_key x).
Proof.
  unfold f_gt, SFltb, key_lt.
  destruct x as [sx|[]| |[] mx ex], y as [sy|[]| |[] my ey]; try done; intros _ _; cbn;
    try (split; [done|lia]); try (split; [lia|done]);
    change (PosDef.Pos.compare_cont Eq my mx) with (my ?= mx)%positive;
    destruct (Z.compare_spec ey ex); try (split; [done|lia]); try (split; [lia|done]);
    destruct (Pos.compare_spec my mx); cbn; (split; [done|lia]) || (split; [lia|done]).
Qed.

(** [x] is not above [y]. *)
Definition not_above (x y : SearchResult) : Prop := f_gt (sr_score x) (sr_score y) = false.

Lemma not_above_key x y :
  f_is_nan (sr_score x) = false -> f_is_nan (sr_score y) = false ->
  not_above x y <-> ~ key_lt (f_key (sr_score y)) (f_key (sr_score x)).
Proof.
  intros Hx Hy. unfold not_above. rewrite <- f_gt_key by done. destruct (f_gt _ _); split; congruence.
Qed.

Lemma not_above_trans x y z :
  f_is_nan (sr_score x) = false -> f_is_nan (sr_score y) = false -> f_is_nan (sr_score z) = false ->
  not_above x y -> not_above y z -> not_above x z.
Proof. intros Hx Hy Hz. rewrite !not_above_key by done. unfold key_lt. lia. Qed.

Lemma gt_not_above x y :
  f_is_nan (sr_score x) = false -> f_is_nan (sr_score y) = false ->
  f_gt (sr_score x) (sr_score y) = true -> not_above y x.
Proof. intros Hx Hy. rewrite f_gt_key, not_above_key by done. unfold key_lt. lia. Qed.

(** Sorting by the score only looks at the elements. *)
Lemma stable_sort_ext {A} (leb leb' : A -> A -> bool) l :
  (forall x y, x ∈ l -> y ∈ l -> leb x y = leb' x y) -> stable_sort leb l = stable_sort leb' l.
Proof.
  induction l as [|x l IH]; intros Hl; [done|].
  change (insert_sorted leb x (stable_sort leb l) = insert_sorted leb' x (stable_sort leb' l)).
  rewrite <- IH by (intros; apply Hl; by apply list_elem_of_further).
  assert (Hx : forall y, y ∈ stable_sort leb l -> leb x y = leb' x y).
  { intros y Hy. rewrite stable_sort_perm in Hy. apply Hl; [apply list_elem_of_here|by apply list_elem_of_further]. }
  revert Hx. generalize (stable_sort leb l). clear. intros l. induction l as [|y l IH]; intros Hx; [done|]. cbn.
  rewrite (Hx y (list_elem_of_here _ _)). destruct (leb' x y); [done|]. f_equal. apply IH.
  intros z Hz. by apply Hx, list_elem_of_further.
Qed.

(** The results come out from the best to the worst. *)
Definition best_first (l : list SearchResult) : Prop := StronglySorted (fun a b => not_above b a) l.

Lemma sort_results_perm l : sort_results l ≡ₚ l.
Proof. apply stable_sort_perm. Qed.

Lemma sort_results_best_first l : no_nan l -> best_first (sort_results l).
Proof.
  intros Hl. unfold no_nan in Hl. rewrite Forall_forall in Hl.
  set (R := fun a b : SearchResult => ~ key_lt (f_key (sr_score a)) (f_key (sr_score b))).
  assert (Hdec : forall a b, Decision (R a b)).
  { intros a b. unfold R, key_lt. apply _. }
  set (leb' := fun a b => bool_decide (R a b)).
  assert (Hs : StronglySorted R (stable_sort leb' l)).
  { apply stable_sort_sorted.
    - intros a b. unfold leb'. apply bool_decide_eq_true.
    - unfold R, key_lt. lia.
    - unfold R, key_lt. intros a b c. lia. }
  assert (Heq : sort_results l = stable_sort leb' l).
  { apply stable_sort_ext. intros a b Ha Hb. unfold leb'. apply eq_true_iff_eq.
    rewrite bool_decide_eq_true, negb_true_iff. by apply (not_above_key b a); apply Hl. }
  rewrite Heq. assert (Hin : forall x, x ∈ stable_sort leb' l -> f_is_nan (sr_score x) = false).
  { intros x Hx. rewrite stable_sort_perm in Hx. by apply Hl. }
  revert Hs Hin. generalize (stable_sort leb' l). clear. intros l Hs Hin. unfold best_first.
  induction Hs as [|a l Hs IH Ha]; constructor.
  - apply IH. intros x Hx. by apply Hin, list_elem_of_further.
  - rewrite Forall_forall in *. intros b Hb. apply not_above_key; [|apply Hin, list_elem_of_here|by apply Ha].
    by apply Hin, list_elem_of_further.
Qed.

(** * Keeping the best *)

(** [res] are the best of [all]: from the best to the worst, as many as asked, and nothing left out
    is above anything kept. *)
Definition top_results (limit : option nat) (all res : list SearchResult) : Prop :=
  best_first res /\
  length res = match limit with Some k => Nat.min k (length all) | None => length all end /\
  exists dropped, all ≡ₚ res ++ dropped /\ forall d r, d ∈ dropped -> r ∈ res -> not_above d r.

Section keeping.
Context {Hp : Type} `{MinHeapSpec Hp}.

(** After the documents [seen], with limit [k]. *)
Definition heap_ok (k : nat) (seen : list SearchResult) (h : Hp) : Prop :=
  length (heap_into_iter h) = Nat.min k (length seen) /\
  exists dropped, seen ≡ₚ heap_into_iter h ++ dropped /\
    forall d r, d ∈ dropped -> r ∈ heap_into_iter h -> not_above d r.

Lemma no_nan_perm l l' : l ≡ₚ l' -> no_nan l -> no_nan l'.
Proof. unfold no_nan. by intros ->. Qed.

Lemma no_nan_elem l x : no_nan l -> x ∈ l -> f_is_nan (sr_score x) = false.
Proof. unfold no_nan. rewrite Forall_forall. auto. Qed.

Lemma keep_ok k seen h x results :
  0 < k -> no_nan (seen ++ [x]) -> heap_ok k seen h ->
  exists h', keep (Some k) x (h, results) = (h', results) /\ heap_ok k (seen ++ [x]) h'.
Proof.
  intros Hk Hnan (Hlen & dropped & Hperm & Hdrop). unfold keep. cbn [fst snd]. rewrite heap_len_items.
  unfold heap_ok. rewrite length_app. cbn [length].
  assert (Hseen : no_nan seen) by (unfold no_nan in *; by apply Forall_app in Hnan as [? _]).
  assert (Hx : f_is_nan (sr_score x) = false).
  { apply (no_nan_elem _ _ Hnan). apply elem_of_app. right. by apply list_elem_of_singleton. }
  assert (Hall : no_nan (heap_into_iter h ++ dropped)) by (by eapply no_nan_perm).
  destruct (Nat.ltb_spec (length (heap_into_iter h)) k) as [Hroom|Hfull].
  { exists (heap_push x h). split; [done|]. split; [rewrite heap_push_items; cbn; lia|].
    assert (dropped = []) as ->.
    { apply length_zero_iff_nil. apply Permutation_length in Hperm. rewrite length_app in Hperm. lia. }
    exists []. split; [|intros d r Hd; by apply elem_of_nil in Hd].
    rewrite Hperm, heap_push_items, !app_nil_r. by rewrite <- Permutation_cons_append. }
  destruct (heap_peek h) as [top|] eqn:Htop.
  2:{ apply heap_peek_none in Htop. rewrite Htop in Hfull. cbn in Hfull. lia. }
  pose proof (heap_peek_some h top Htop) as Hpop.
  assert (Hmin : Forall (fun y => f_gt (sr_score top) (sr_score y) = false) (heap_into_iter h)).
  { apply heap_peek_min; [done|]. unfold no_nan in *. by apply Forall_app in Hall as [? _]. }
  rewrite Forall_forall in Hmin.
  assert (Hnt : f_is_nan (sr_score top) = false).
  { apply (no_nan_elem _ _ Hall). rewrite Hpop. apply list_elem_of_here. }
  assert (Hni : forall y, y ∈ heap_into_iter h -> f_is_nan (sr_score y) = false).
  { intros y Hy. apply (no_nan_elem _ _ Hall), elem_of_app. by left. }
  assert (Hnd : forall y, y ∈ dropped -> f_is_nan (sr_score y) = false).
  { intros y Hy. apply (no_nan_elem _ _ Hall), elem_of_app. by right. }
  destruct (f_gt (sr_score x) (sr_score top)) eqn:Hgt.
  - exists (heap_push x (heap_pop h)). split; [done|].
    assert (Hl : length (heap_into_iter h) = S (length (heap_into_iter (heap_pop h)))) by (by rewrite Hpop).
    split; [rewrite heap_push_items; cbn; lia|].
    exists (top :: dropped). split.
    + rewrite heap_push_items, Hperm, Hpop. rewrite <- Permutation_cons_append. cbn.
      f_equiv. by rewrite Permutation_middle.
    + intros d r Hd Hr. rewrite heap_push_items in Hr.
      assert (Hdt : not_above d top).
      { apply elem_of_cons in Hd as [->|Hd].
        - apply Hmin. rewrite Hpop. apply list_elem_of_here.
        - apply Hdrop; [done|]. rewrite Hpop. apply list_elem_of_here. }
      assert (Hdn : f_is_nan (sr_score d) = false).
      { apply elem_of_cons in Hd as [->|Hd]; [done|by apply Hnd]. }
      apply elem_of_cons in Hr as [->|Hr].
      * apply (not_above_trans _ top); [done|done|done|done|]. by apply gt_not_above.
      * assert (Hr' : r ∈ heap_into_iter h) by (rewrite Hpop; by apply list_elem_of_further).
        apply (not_above_trans _ top); [done|done|by apply Hni|done|]. by apply Hmin.
  - exists h. split; [done|]. split; [lia|]. exists (x :: dropped). split.
    + rewrite Hperm, <- Permutation_cons_append. by rewrite Permutation_middle.
    + intros d r Hd Hr. apply elem_of_cons in Hd as [->|Hd]; [|by apply Hdrop].
      apply (not_above_trans _ top); [done|done|by apply Hni|done|]. by apply Hmin.
Qed.

Lemma keep_all_ok k all seen h results :
  0 < k -> no_nan (seen ++ all) -> heap_ok k seen h ->
  exists h', fold_left (fun st x => keep (Some k) x st) all (h, results) = (h', results) /\
    heap_ok k (seen ++ all) h'.
Proof.
  intros Hk. revert seen h. induction all as [|x all IH]; intros seen h Hnan Hok; cbn [fold_left].
  { exists h. by rewrite app_nil_r. }
  assert (Hx : seen ++ x :: all = (seen ++ [x]) ++ all) by (by rewrite <- app_assoc).
  rewrite Hx in *. destruct (keep_ok k seen h x results Hk) as (h' & -> & Hok').
  - unfold no_nan in *. by apply Forall_app in Hnan as [? _].
  - done.
  - by apply IH.
Qed.

Lemma keep_none all (h : Hp) results :
  fold_left (fun st x => keep None x st) all (h, results) = (h, results ++ all).
Proof.
  revert results. induction all as [|x all IH]; intros results; cbn [fold_left]; [by rewrite app_nil_r|].
  unfold keep at 2. cbn [fst snd]. by rewrite IH, <- app_assoc.
Qed.

Lemma best_first_take k l : best_first l -> best_first (take k l).
Proof.
  unfold best_first. intros Hs. revert k. induction Hs as [|a l Hs IH Ha]; intros [|k]; cbn; constructor; [done|].
  by apply Forall_take.
Qed.

Lemma TopKLimit_pos topK k : TopKLimit topK = Some k -> 0 < k.
Proof. unfold TopKLimit. destruct (Z.ltb_spec 0 topK); intros Heq; simplify_eq. lia. Qed.

(** Whatever the order the documents came in, the result is the best of them. *)
Lemma finish_top limit all :
  no_nan all -> (forall k, limit = Some k -> 0 < k) ->
  top_results limit all
    (finish limit (fold_left (fun st x => keep limit x st) all (heap_new : Hp, []))).
Proof.
  intros Hnan Hlim. destruct limit as [k|]; unfold finish, SortAndTruncate.
  - destruct (keep_all_ok k all [] (heap_new : Hp) [] (Hlim k eq_refl) Hnan) as (h & -> & Hlen & dropped & Hperm & Hdrop).
    { split; [by rewrite heap_new_items, Nat.min_0_r|]. exists []. rewrite heap_new_items. split; [done|].
      intros d r Hd. by apply elem_of_nil in Hd. }
    cbn [app fst snd] in *. pose proof (sort_results_perm (heap_into_iter h)) as Hs.
    rewrite (Permutation_length Hs). replace (k <? _) with false by (symmetry; apply Nat.ltb_ge; lia).
    split; [apply sort_results_best_first|split].
    + unfold no_nan in *. rewrite Hperm in Hnan. by apply Forall_app in Hnan as [? _].
    + rewrite (Permutation_length Hs). exact Hlen.
    + exists dropped. rewrite Hs. split; [done|]. intros d r Hd Hr. rewrite Hs in Hr. by apply Hdrop.
  - rewrite keep_none. cbn [snd app]. split; [by apply sort_results_best_first|].
    rewrite (Permutation_length (sort_results_perm all)). split; [done|]. exists [].
    rewrite app_nil_r. split; [by rewrite sort_results_perm|]. intros d r Hd. by apply elem_of_nil in Hd.
Qed.
End keeping.

(** * Driving the reader *)

Section run.
Context `{Libm} {R Hp : Type} `{ReaderSpec R} `{MinHeapSpec Hp}.
Context (GetDocDataEntry : Z -> option DocDataEntry) (parameters : QueryCompileModeParameters).
Context (vectorQuery : option (list f32)).

Abbreviation score := (score_current GetDocDataEntry parameters).

(** [visits r ds all]: visiting the documents [ds] one by one from [r], scoring each and moving on,
    gives the results [all]. *)
Inductive visits : R -> list Z -> list SearchResult -> Prop :=
  | visits_end r : visits r [] []
  | visits_doc r d ds entry r1 s r2 mask r3 all :
      GetDocumentID r = d -> GetDocDataEntry d = Some entry ->
      converges (fun n => GetScore n r entry) (r1, s) ->
      converges (fun n => GetSourceMask n r1) (r2, mask) ->
      converges (fun n => GoNext n r2) r3 ->
      visits r3 ds all ->
      visits r (d :: ds)
        ({| sr_doc_id := MakeReaderDocumentID d mask;
            sr_score := f_add F32 (f_add F32 s (DocDataScore entry parameters))
                          (VectorScoreFeature entry vectorQuery parameters);
            sr_snippet := [] |} :: all).

Lemma visits_exists r ds :
  reads r ds -> (forall d, d ∈ ds -> is_Some (GetDocDataEntry d)) -> exists all, visits r ds all.
Proof.
  revert r. induction ds as [|d ds IH]; intros r Hr Hentry; [exists []; constructor|].
  destruct (Hentry d (list_elem_of_here _ _)) as [entry He].
  destruct (reads_score r _ entry Hr) as (r1 & s & Hs & Hr1).
  destruct (reads_mask r1 _ Hr1) as (r2 & mask & Hm & Hr2).
  destruct (reads_next r2 _ Hr2) as (r3 & Hn & Hr3).
  destruct (IH r3 Hr3) as [all Hall]; [intros x Hx; by apply Hentry, list_elem_of_further|].
  eexists. eapply visits_doc; [by eapply reads_doc|done|done|done|done|done].
Qed.

Lemma visits_docs r ds all :
  visits r ds all -> Forall2 (fun d res => exists mask, sr_doc_id res = MakeReaderDocumentID d mask) ds all.
Proof. induction 1; constructor; [by eexists|done]. Qed.

Lemma visits_length r ds all : visits r ds all -> length all = length ds.
Proof. intros Hv. symmetry. eapply Forall2_length, visits_docs, Hv. Qed.

(** One round of the loops. *)
Lemma visit_step r d ds all :
  reads r (d :: ds) -> visits r (d :: ds) all ->
  exists res r2 r3 all', all = res :: all' /\ converges (fun n => score n vectorQuery r) (r2, res) /\
    converges (fun n => GoNext n r2) r3 /\ reads r3 ds /\ visits r3 ds all'.
Proof.
  intros Hr Hv. inversion Hv as [|? ? ? entry r1 s r2 mask r3 all' Hd He Hs Hm Hn Hv']; subst.
  destruct (reads_score r _ entry Hr) as (r1' & s' & Hs' & Hr1).
  pose proof (converges_unique _ _ _ Hs Hs') as Heq. injection Heq as <- <-.
  destruct (reads_mask r1 _ Hr1) as (r2' & mask' & Hm' & Hr2).
  pose proof (converges_unique _ _ _ Hm Hm') as Heq. injection Heq as <- <-.
  destruct (reads_next r2 _ Hr2) as (r3' & Hn' & Hr3).
  pose proof (converges_unique _ _ _ Hn Hn') as <-.
  eexists _, r2, r3, all'. split; [done|]. split; [|done]. unfold score_current. rewrite He.
  eapply converges_bind; [exact Hs|]. cbn [fst snd]. eapply converges_bind; [exact Hm|]. apply converges_now.
Qed.

Lemma ExecuteWithVector_loop_ok limit r ds all (st : Hp * list SearchResult) :
  reads r ds -> visits r ds all ->
  converges (fun n => ExecuteWithVector_loop GetDocDataEntry parameters n limit vectorQuery r st)
    (fold_left (fun st x => keep limit x st) all st).
Proof.
  revert r all st. induction ds as [|d ds IH]; intros r all st Hr Hv.
  - inversion Hv; subst. eapply converges_S; [|apply converges_now]. intros n. cbn [ExecuteWithVector_loop].
    by rewrite (reads_end _ _ Hr).
  - destruct (visit_step r d ds all Hr Hv) as (res & r2 & r3 & all' & -> & Hs & Hn & Hr3 & Hv').
    eapply converges_S.
    { intros n. cbn [ExecuteWithVector_loop]. rewrite (reads_end _ _ Hr), bool_decide_eq_false_2 by done. reflexivity. }
    eapply converges_bind; [exact Hs|]. cbn [fst snd]. eapply converges_bind; [exact Hn|].
    exact (IH r3 all' (keep limit res st) Hr3 Hv').
Qed.

Lemma ExecuteBounded_loop_ok limit maxVisited visited r ds all (st : Hp * list SearchResult) :
  reads r ds -> visits r ds all -> (visited <= maxVisited)%Z ->
  converges (fun n => ExecuteBounded_loop GetDocDataEntry parameters n limit vectorQuery maxVisited visited r st)
    (fold_left (fun st x => keep limit x st) (take (Z.to_nat (maxVisited - visited)) all) st).
Proof.
  revert r all st visited. induction ds as [|d ds IH]; intros r all st visited Hr Hv Hle.
  - inversion Hv; subst. rewrite take_nil. eapply converges_S; [|apply converges_now]. intros n.
    cbn [ExecuteBounded_loop]. by rewrite (reads_end _ _ Hr).
  - destruct (visit_step r d ds all Hr Hv) as (res & r2 & r3 & all' & -> & Hs & Hn & Hr3 & Hv').
    destruct (Z.ltb_spec visited maxVisited) as [Hlt|Hge].
    + eapply converges_S.
      { intros n. cbn [ExecuteBounded_loop]. rewrite (reads_end _ _ Hr), bool_decide_eq_false_2 by done.
        rewrite (proj2 (Z.ltb_lt _ _) Hlt). reflexivity. }
      eapply converges_bind; [exact Hs|]. cbn [fst snd]. eapply converges_bind; [exact Hn|].
      replace (Z.to_nat (maxVisited - visited)) with (S (Z.to_nat (maxVisited - (visited + 1)))) by lia.
      cbn [take fold_left]. apply IH; [done|done|lia].
    + replace (Z.to_nat (maxVisited - visited)) with 0 by lia. cbn [take fold_left].
      eapply converges_S; [|apply converges_now]. intros n. cbn [ExecuteBounded_loop].
      rewrite (reads_end _ _ Hr), bool_decide_eq_false_2 by done. by rewrite (proj2 (Z.ltb_ge _ _)) by lia.
Qed.

Lemma no_nan_take k l : no_nan l -> no_nan (take k l).
Proof. apply Forall_take. Qed.

Lemma top_results_nil limit : top_results limit [] [].
Proof.
  split; [constructor|]. split; [by destruct limit; cbn; lia|]. exists []. split; [done|].
  intros d r Hd. by apply elem_of_nil in Hd.
Qed.

Lemma ExecuteWithVector_ok r ds all topK :
  reads r ds -> visits r ds all -> no_nan all ->
  exists res, converges (fun n => ExecuteWithVector (Hp := Hp) GetDocDataEntry parameters n r topK vectorQuery) res /\
    top_results (TopKLimit topK) all res.
Proof.
  intros Hr Hall Hnan. unfold ExecuteWithVector. rewrite (reads_end _ _ Hr). case_bool_decide as E.
  { subst. inversion Hall; subst. exists []. split; [apply converges_now|apply top_results_nil]. }
  eexists. split; [|apply (finish_top (Hp := Hp)); [exact Hnan|apply TopKLimit_pos]].
  eapply converges_bind; [by eapply ExecuteWithVector_loop_ok|apply converges_now].
Qed.

(** C8: on a lawful reader whose documents all have records, ExecuteWithVector terminates: it
    visits every document once in order, and when no score is NaN it returns the best [topK] of
    them (all for [topK <= 0]) from the best to the worst, none better left out. *)
Theorem ExecuteWithVector_top_k r ds topK :
  reads r ds -> (forall d, d ∈ ds -> is_Some (GetDocDataEntry d)) ->
  exists all, visits r ds all /\ (no_nan all ->
    exists res, converges (fun n => ExecuteWithVector (Hp := Hp) GetDocDataEntry parameters n r topK vectorQuery) res /\
      top_results (TopKLimit topK) all res).
Proof.
  intros Hr Hentry. destruct (visits_exists r ds Hr Hentry) as [all Hall]. exists all. split; [done|].
  by eapply ExecuteWithVector_ok.
Qed.

(** ExecuteBounded does the same over the first [maxVisitedDocs] documents only. *)
Theorem ExecuteBounded_top_k r ds topK maxVisitedDocs :
  reads r ds -> (forall d, d ∈ ds -> is_Some (GetDocDataEntry d)) -> (0 <= maxVisitedDocs)%Z ->
  exists all, visits r ds all /\ (no_nan all ->
    exists res, converges (fun n =>
        ExecuteBounded (Hp := Hp) GetDocDataEntry parameters n r topK maxVisitedDocs vectorQuery) res /\
      top_results (TopKLimit topK) (take (Z.to_nat maxVisitedDocs) all) res).
Proof.
  intros Hr Hentry Hmax. destruct (visits_exists r ds Hr Hentry) as [all Hall]. exists all. split; [done|].
  intros Hnan. unfold ExecuteBounded. rewrite (reads_end _ _ Hr). case_bool_decide as E; cbn [orb].
  { subst. inversion Hall; subst. exists []. split; [apply converges_now|]. rewrite take_nil. apply top_results_nil. }
  destruct (Z.eqb_spec maxVisitedDocs 0) as [->|Hne].
  { exists []. split; [apply converges_now|apply top_results_nil]. }
  eexists. split; [|apply (finish_top (Hp := Hp)); [by apply no_nan_take|apply TopKLimit_pos]].
  eapply converges_bind; [|apply converges_now].
  pose proof (ExecuteBounded_loop_ok (TopKLimit topK) maxVisitedDocs 0 r ds all (heap_new, []) Hr Hall Hmax) as Hloop.
  by rewrite Z.sub_0_r in Hloop.
Qed.
End run.

(** * A heap to run the model on

    A list of results; the smallest by the score's key is on top. *)

#[export] Instance key_lt_dec a b : Decision (key_lt a b).
Proof. unfold key_lt. apply _. Defined.

Definition key_leb (a b : SearchResult) : bool :=
  negb (bool_decide (key_lt (f_key (sr_score b)) (f_key (sr_score a)))).
Definition list_heap_sorted (h : list SearchResult) : list SearchResult := stable_sort key_leb h.

#[export] Instance list_heap : MinHeap (list SearchResult) := {
  heap_new := []; heap_push := cons; heap_pop h := tail (list_heap_sorted h);
  heap_peek h := head (list_heap_sorted h); heap_len := length; heap_into_iter h := h }.

#[export] Program Instance list_heap_spec : MinHeapSpec (list SearchResult).
Next Obligation. done. Qed.
Next Obligation. done. Qed.
Next Obligation. done. Qed.
Next Obligation.
  intros h Hh. cbn in *. pose proof (stable_sort_perm key_leb h) as Hp. unfold list_heap_sorted in Hh.
  destruct (stable_sort key_leb h); [|done]. by apply Permutation_nil.
Qed.
Next Obligation.
  intros h x Hh. cbn in *. pose proof (stable_sort_perm key_leb h) as Hp. unfold list_heap_sorted in *.
  destruct (stable_sort key_leb h); [done|]. cbn in *. by injection Hh as ->.
Qed.
Next Obligation.
  intros h x Hh Hnan. cbn in *. pose proof (stable_sort_perm key_leb h) as Hp. unfold list_heap_sorted in Hh.
  assert (Hs : StronglySorted (fun a b => ~ key_lt (f_key (sr_score b)) (f_key (sr_score a))) (stable_sort key_leb h)).
  { apply stable_sort_sorted.
    - intros a b. unfold key_leb. by rewrite negb_true_iff, bool_decide_eq_false.
    - unfold key_lt. lia.
    - unfold key_lt. intros a b c. lia. }
  destruct (stable_sort key_leb h) as [|y l]; [done|]. injection Hh as ->. inversion Hs as [|? ? _ Hx]; subst.
  rewrite Forall_forall in Hx. apply Forall_forall. intros y Hy.
  assert (Hxn : f_is_nan (sr_score x) = false) by (apply (no_nan_elem h); [done|]; rewrite <- Hp; apply list_elem_of_here).
  pose proof (no_nan_elem _ _ Hnan Hy) as Hyn. apply (not_above_key x y Hxn Hyn). rewrite <- Hp in Hy.
  apply elem_of_cons in Hy as [->|Hy]; [unfold key_lt; lia|by apply Hx].
Qed.

(** * Witnesses *)

#[local] Existing Instance list_reader.
#[local] Existing Instance list_reader_spec.

Definition sample_entry_of (d : Z) : option DocDataEntry :=
  Some {| DDE_DocID := d; DDE_StaticRank := d * 1000; DDE_QualityScore := 0; DDE_FreshnessScore := 0;
     DDE_ClickScore := 0; DDE_EngagementScore := 0; DDE_AuthorityScore := 0; DDE_SpamScore := 0;
     DDE_PathLength := 0; DDE_Language := 0; DDE_Locale := 0; DDE_ContentType := 0;
     DDE_TitleLength := 2; DDE_BodyLength := 10; DDE_UrlLength := 0; DDE_AnchorLength := 0; DDE_MetaLength := 0;
     DDE_DiversityScore := f_of_Z F32 0; DDE_LengthQualityScore := f_of_Z F32 0;
     DDE_VectorDim := 0; DDE_VectorFormat := 0; DDE_VectorData := []; DDE_Path := [] |}.

Definition sample_result (d : Z) : SearchResult :=
  {| sr_doc_id := MakeReaderDocumentID d READER_SOURCE_BODY;
     sr_score := match sample_entry_of d with
       | Some entry => f_add F32 (f_add F32 (f_of_Z F32 1) (@DocDataScore sample_libm entry kWeakAndBigramParameters))
                         (VectorScoreFeature entry None kWeakAndBigramParameters)
       | None => S754_nan
       end;
     sr_snippet := [] |}.

Lemma visits_list ds all :
  @visits sample_libm _ _ sample_entry_of kWeakAndBigramParameters None ds ds all -> all = map sample_result ds.
Proof.
  revert all. induction ds as [|d ds IH]; intros all Hv; [by inversion Hv|].
  inversion Hv as [|? ? ? entry r1 s r2 mask r3 all' Hd He Hs Hm Hn Hv']; subst.
  pose proof (converges_unique _ _ _ Hs (converges_now _)) as Heq. injection Heq as -> ->.
  pose proof (converges_unique _ _ _ Hm (converges_now _)) as Heq. injection Heq as -> ->.
  pose proof (converges_unique _ _ _ Hn (converges_now _)) as ->. cbn [tail map] in *.
  rewrite (IH _ Hv'). f_equal. injection He as <-. reflexivity.
Qed.

(** Three documents, the best two asked for. *)
Lemma ExecuteWithVector_top_k_witness :
  exists res, converges (fun n => @ExecuteWithVector sample_libm _ _ _ list_heap sample_entry_of
      kWeakAndBigramParameters n [1; 4; 7]%Z 2 None) res /\
    top_results (Some 2) (map sample_result [1; 4; 7]%Z) res.
Proof.
  destruct (@ExecuteWithVector_top_k sample_libm _ _ _ _ list_heap list_heap_spec sample_entry_of
    kWeakAndBigramParameters None [1; 4; 7]%Z [1; 4; 7]%Z 2) as (all & Hall & Hres).
  - by apply reads_list.
  - intros d _. by eexists.
  - apply visits_list in Hall as ->. apply Hres. repeat constructor.
Defined.

Lemma ExecuteBounded_top_k_witness :
  exists res, converges (fun n => @ExecuteBounded sample_libm _ _ _ list_heap sample_entry_of
      kWeakAndBigramParameters n [1; 4; 7]%Z 1 2 None) res /\
    top_results (Some 1) (map sample_result [1; 4]%Z) res.
Proof.
  destruct (@ExecuteBounded_top_k sample_libm _ _ _ _ list_heap list_heap_spec sample_entry_of
    kWeakAndBigramParameters None [1; 4; 7]%Z [1; 4; 7]%Z 1 2) as (all & Hall & Hres).
  - by apply reads_list.
  - intros d _. by eexists.
  - lia.
  - apply visits_list in Hall as ->. apply Hres. repeat constructor.
Defined.

(** The model runs: the two documents with the best static rank, the best first. *)
Example execute_runs :
  match @ExecuteWithVector sample_libm _ _ _ list_heap sample_entry_of kWeakAndBigramParameters 9 [1; 4; 7]%Z 2 None with
  | Some res => map (fun r => ReaderDocumentIDValue (sr_doc_id r)) res = [7; 4]%Z
  | None => False
  end.
Proof. vm_compute. reflexivity. Qed.
