(* ===== verification/Query.v ===== *)
(** From a query tree to a reader (IndexContext.rs): SearchRuntime's and
    IndexContext's reader builders with the pruning of weak conjunctions, and the
    proof that the reader built reads exactly the documents of a reference
    evaluation of the tree; then the whole of a search task. *)

From Stdlib Require Import Ascii String.
From Stdlib Require Import ZArith Lia ZifyBool Bool List.
From Stdlib Require Import Floats.SpecFloat.
From stdpp Require Import base list list_numbers gmap sorting.
From S2P Require Import Prelude Floats PostingStore IndexReader Composites Unions ReaderTree EvalExpression Executor.

Local Open Scope moon_scope.

(** * Weak-and pruning *)

Section pruning.
(** The document frequency FindTermData gives a stream key; [None]: absent. *)
Context (term_doc_freq : bytes -> option Z).

Fixpoint EstimateDocFreq (node : EvalNode) : Z :=
  match node with
  | Term key _ => default 0%Z (term_doc_freq key)
  | Or children => Z.min (fold_left (fun total child => (total + EstimateDocFreq child)%Z) children 0%Z) u32_max
  | _ => 0%Z
  end.

(** One node of FlattenWeakAndNodes's loop; the disjunctions recurse. *)
Fixpoint flatten_node (docCount : Z) (allowHighDf : bool) (node : EvalNode) : list EvalNode :=
  match node with
  | Or children => flat_map (flatten_node docCount allowHighDf) children
  | _ =>
      let docFreq := EstimateDocFreq node in
      let highDf := (0 <? docCount)%Z && (0 <? docFreq)%Z && (Z.max 100000 (docCount / 5) <? docFreq)%Z in
      if allowHighDf || negb highDf then [node] else []
  end.

Definition FlattenWeakAndNodes (nodes : list EvalNode) (docCount : Z) (allowHighDf : bool) : list EvalNode :=
  flat_map (flatten_node docCount allowHighDf) nodes.
End pruning.

(** The threshold of a flattened weak conjunction. *)
Definition flat_min_should_match (children : nat) : Z :=
  if children <=? 2 then 1 else if children <=? 5 then 2 else 3.

(** * The builder

    Readers of one-level-smaller trees are the children; [n] bounds the depth. *)

(** What the builder needs of the context: the leaf readers, the document
    frequencies, and two settings. *)
Class LeafReaders (L : Type) := {
  open_leaf : bytes -> Z -> option L;
  term_doc_freq : bytes -> option Z;
  weak_and_build_mode : WeakAndBuildMode;
  doc_count : Z;
}.

Fixpoint map_option {A B} (f : A -> option B) (l : list A) : option (list B) :=
  match l with
  | [] => Some []
  | x :: l' => opt y := f x in opt ys := map_option f l' in Some (y :: ys)
  end.

Section builder.
Context {L : Type} `{IndexReader L} `{LeafReaders L}.

Fixpoint lift_leaf (n : nat) (l : L) : ReaderT L n :=
  match n with O => l | S n' => NodeChild (lift_leaf n' l) end.

Definition open_advanced_reader (n : nat) (key : bytes) (span : Z) : option (ReaderT L n) :=
  opt l := open_leaf key span in Some (lift_leaf n l).

Definition not_end {n} (r : ReaderT L n) : bool := negb (IsEnd r).

(** The child readers of a weak conjunction. *)
Definition weak_and_children {n} (build : EvalNode -> option (ReaderT L n)) (nodes : list EvalNode)
    : option (list (ReaderT L n)) :=
  match weak_and_build_mode with
  | FlatPruned =>
      opt children := map_option build (FlattenWeakAndNodes term_doc_freq nodes doc_count false) in
      match List.filter not_end children with
      | [] =>
          opt children := map_option build (FlattenWeakAndNodes term_doc_freq nodes doc_count true) in
          Some (List.filter not_end children)
      | children => Some children
      end
  | OrChildren => map_option build nodes
  | OrChildrenPruned => opt children := map_option build nodes in Some (List.filter not_end children)
  end.

Definition weak_and_threshold (m : Z) (children : nat) : Z :=
  match weak_and_build_mode with
  | FlatPruned => flat_min_should_match children
  | _ => Z.min m (Z.of_nat children)
  end.

(** [n] is the depth bound and [fuel] the readers'; [None] out of either. *)
Fixpoint build_node (fuel n : nat) (node : EvalNode) : option (ReaderT L n) :=
  match n with
  | O => match node with Term key span => open_advanced_reader 0 key span | _ => None end
  | S n' =>
      match node with
      | Term key span => open_advanced_reader (S n') key span
      | And nodes =>
          opt children := map_option (build_node fuel n') nodes in
          if existsb IsEnd children then open_advanced_reader (S n') [] 1
          else match children with
          | [c] => Some (NodeChild c)
          | _ => opt r := and_new fuel children in Some (NodeAnd r)
          end
      | Or nodes =>
          opt children := map_option (build_node fuel n') nodes in
          match List.filter not_end children with
          | [] => open_advanced_reader (S n') [] 1
          | [c] => Some (NodeChild c)
          | children => Some (NodeOr (or_new children))
          end
      | WeakAnd nodes m =>
          opt children := weak_and_children (build_node fuel n') nodes in
          match children with
          | [] => open_advanced_reader (S n') [] 1
          | [c] => Some (NodeChild c)
          | _ => opt r := wa_new fuel children (weak_and_threshold m (length children)) in Some (NodeWeakAnd r)
          end
      | Not base exclude =>
          opt b := build_node fuel n' base in
          opt e := build_node fuel n' exclude in
          opt r := not_new fuel b e in Some (NodeNot r)
      | Boost base boost weight =>
          opt b := build_node fuel n' base in
          if IsEnd b then Some (NodeChild b)
          else
            opt bo := build_node fuel n' boost in
            if IsEnd bo then Some (NodeChild b) else Some (NodeBoost (bo_new b bo weight))
      end
  end.

Definition build_index_reader (fuel n : nat) (node : option EvalNode) : option (ReaderT L n) :=
  match node with None => open_advanced_reader n [] 1 | Some node => build_node fuel n node end.

(** FreshDiskAnnVectorIndex::Search with the cosine metric. *)
Context (VectorSearch : list f32 -> Z -> Z -> list VectorSearchResult).

Definition build_local_reader (fuel n : nat) (tree : EvalTree) : option (ReaderT L (S n)) :=
  if IsEmpty tree then open_advanced_reader (S n) [] 1
  else if HasTextQuery tree && HasVectorQuery tree then
    opt r := build_index_reader fuel n (root tree) in Some (NodeChild r)
  else if HasVectorQuery tree then
    Some (NodeVector (vr_new (VectorSearch (vector_query tree) (Z.max (vector_ef_search tree) 1) (vector_ef_search tree))))
  else opt r := build_index_reader fuel n (root tree) in Some (NodeChild r).
End builder.

(** * The reference evaluation *)

Definition in_all_dec dss x : Decision (in_all dss x).
Proof. unfold in_all. apply _. Defined.
#[export] Existing Instance in_all_dec.

Definition nonempty_docs (dss : list (list Z)) : list (list Z) := filter (fun ds => ds <> []) dss.

Section eval.
Context {L : Type} `{LeafReaders L}.
(** The documents of a stream key. *)
Context (postings : bytes -> list Z).

Definition eval_weak_and (eval : EvalNode -> list Z) (nodes : list EvalNode) (m : Z) : list Z :=
  match weak_and_build_mode with
  | FlatPruned =>
      let dss := nonempty_docs (map eval (FlattenWeakAndNodes term_doc_freq nodes doc_count false)) in
      let dss := match dss with
                 | [] => nonempty_docs (map eval (FlattenWeakAndNodes term_doc_freq nodes doc_count true))
                 | _ => dss
                 end in
      at_least (flat_min_should_match (length dss)) dss
  | OrChildren => at_least (Z.min m (Z.of_nat (length nodes))) (map eval nodes)
  | OrChildrenPruned =>
      let dss := nonempty_docs (map eval nodes) in at_least (Z.min m (Z.of_nat (length dss))) dss
  end.

(** The documents of a tree, by set operations on document lists. *)
Fixpoint eval (n : nat) (node : EvalNode) : list Z :=
  match n with
  | O => match node with Term key _ => postings key | _ => [] end
  | S n' =>
      match node with
      | Term key _ => postings key
      | And nodes => let dss := map (eval n') nodes in docs_where (in_all dss) (concat dss)
      | Or nodes => at_least 1 (map (eval n') nodes)
      | WeakAnd nodes m => eval_weak_and (eval n') nodes m
      | Not base exclude => difference (eval n' base) (eval n' exclude)
      | Boost base _ _ => eval n' base
      end
  end.
End eval.

(** The depth of a tree. *)
Fixpoint depth (node : EvalNode) : nat :=
  match node with
  | Term _ _ => 0
  | And nodes | Or nodes | WeakAnd nodes _ => S (fold_right Nat.max 0 (map depth nodes))
  | Not a b | Boost a b _ => S (Nat.max (depth a) (depth b))
  end.

(** * Lemmas *)

Section reference.
Implicit Types dss : list (list Z).

Lemma in_all_denotes dss : Forall docs_ok dss -> denotes (in_all dss) (docs_where (in_all dss) (concat dss)).
Proof.
  intros Hok. apply docs_where_denotes; [|by apply concat_range]. intros x [Hne Hall].
  destruct dss as [|l dss]; [done|]. cbn. apply elem_of_app. left. by inversion Hall.
Qed.

Lemma count_in_nonempty dss x : count_in (nonempty_docs dss) x = count_in dss x.
Proof.
  unfold nonempty_docs. induction dss as [|l dss IH]; [done|]. rewrite filter_cons, !count_in_cons.
  case_decide as Hl; [by rewrite count_in_cons, IH|]. rewrite IH.
  subst l. by rewrite decide_False by apply not_elem_of_nil.
Qed.

Lemma nonempty_docs_ok dss : Forall docs_ok dss -> Forall docs_ok (nonempty_docs dss).
Proof.
  rewrite !Forall_forall. intros Hok ds Hin. apply list_elem_of_filter in Hin as [_ Hin]. by apply Hok.
Qed.

(** One list, or none: the reference evaluation is that list, or nothing. *)
Lemma at_least_nil m : at_least m [] = [].
Proof. done. Qed.

Lemma at_least_one m ds : docs_ok ds -> (m <= 1)%Z -> at_least m [ds] = ds.
Proof.
  intros Hok Hm. destruct (at_least_denotes m [ds]) as [Hd Hx]; [by constructor|].
  apply docs_ok_ext; [done|done|]. intros x. rewrite Hx. replace (Z.max m 1) with 1%Z by lia.
  rewrite count_in_cons. change (count_in [] x) with 0. case_decide; split; try done; lia.
Qed.

Lemma at_least_nonempty m dss : Forall docs_ok dss -> at_least m (nonempty_docs dss) = at_least m dss.
Proof.
  intros Hok. destruct (at_least_denotes m dss Hok) as [Hd Hx].
  destruct (at_least_denotes m _ (nonempty_docs_ok _ Hok)) as [Hd' Hx'].
  apply docs_ok_ext; [done|done|]. intros x. by rewrite Hx, Hx', count_in_nonempty.
Qed.
End reference.

(** A leaf reader of every key, that reads the key's documents. *)
Class LeafReadersSpec (L : Type) `{ReaderSpec L, !LeafReaders L} (postings : bytes -> list Z) := {
  open_leaf_reads key span : exists l, open_leaf key span = Some l /\ reads l (postings key);
  postings_absent : postings [] = [];
}.

Lemma depth_children nodes node : node ∈ nodes -> depth node <= fold_right Nat.max 0 (map depth nodes).
Proof.
  induction nodes as [|x nodes IH]; intros Hin; [by apply elem_of_nil in Hin|]. cbn.
  apply elem_of_cons in Hin as [->|Hin]; [lia|]. specialize (IH Hin). lia.
Qed.

Lemma flatten_node_depth f dc hi k node x :
  depth node <= k -> x ∈ flatten_node f dc hi node -> depth x <= depth node.
Proof.
  revert node. induction k as [|k IH]; intros node Hk Hx; destruct node as [| |nodes| | |]; cbn in Hx, Hk |- *;
    try lia; try (case_match; [apply list_elem_of_singleton in Hx as ->; cbn; lia|by apply elem_of_nil in Hx]).
  apply list_elem_of_In, in_flat_map in Hx as (c & Hc & Hx). rewrite <- list_elem_of_In in *.
  pose proof (depth_children nodes c Hc). specialize (IH c ltac:(lia) Hx). lia.
Qed.

Lemma FlattenWeakAndNodes_depth f nodes dc hi x :
  x ∈ FlattenWeakAndNodes f nodes dc hi -> depth x <= fold_right Nat.max 0 (map depth nodes).
Proof.
  intros Hx. unfold FlattenWeakAndNodes in Hx. apply list_elem_of_In, in_flat_map in Hx as (c & Hc & Hx).
  rewrite <- list_elem_of_In in *. pose proof (depth_children nodes c Hc).
  pose proof (flatten_node_depth f dc hi _ c x ltac:(done) Hx). lia.
Qed.

(** * The reader built reads the reference evaluation *)

Section builder_spec.
Context {L : Type} `{LeafReadersSpec L postings}.

Lemma lift_leaf_reads n (l : L) ds : reads l ds -> reads (lift_leaf n l) ds.
Proof. intros Hl. induction n as [|n IH]; [exact Hl|exact IH]. Qed.

Lemma open_advanced_reader_ok n key span :
  exists r, converges (fun _ => open_advanced_reader n key span) r /\ reads r (postings key).
Proof.
  destruct (open_leaf_reads key span) as (l & Hl & Hr). exists (lift_leaf n l). split.
  - unfold open_advanced_reader. rewrite Hl. apply converges_now.
  - by apply lift_leaf_reads.
Qed.

Lemma open_empty_ok n : exists r, converges (fun _ => open_advanced_reader n [] 1) r /\ reads r [].
Proof. destruct (open_advanced_reader_ok n [] 1) as (r & Hc & Hr). rewrite postings_absent in Hr. by exists r. Qed.

Lemma map_option_ok {n} (f : nat -> EvalNode -> option (ReaderT L n)) (g : EvalNode -> list Z) nodes :
  (forall x, x ∈ nodes -> exists r, converges (fun k => f k x) r /\ reads r (g x)) ->
  exists rs, converges (fun k => map_option (f k) nodes) rs /\ Forall2 reads rs (map g nodes).
Proof.
  induction nodes as [|x nodes IH]; intros Hf; cbn [map_option map].
  { exists []. split; [apply converges_now|constructor]. }
  destruct (Hf x (list_elem_of_here _ _)) as (r & Hc & Hr).
  destruct IH as (rs & Hcs & Hrs); [intros y Hy; by apply Hf, list_elem_of_further|].
  exists (r :: rs). split; [|by constructor]. eapply converges_bind; [exact Hc|].
  eapply converges_bind; [exact Hcs|apply converges_now].
Qed.

Lemma filter_not_end_reads {n} (rs : list (ReaderT L n)) dss :
  Forall2 reads rs dss -> Forall2 reads (List.filter not_end rs) (nonempty_docs dss).
Proof.
  induction 1 as [|r ds rs dss Hr Hrs IH]; [constructor|]. unfold nonempty_docs in *. cbn [List.filter].
  rewrite filter_cons. unfold not_end at 1. rewrite (reads_end _ _ Hr).
  destruct (decide (ds = [])) as [->|Hne].
  - by rewrite decide_False by naive_solver.
  - rewrite bool_decide_eq_false_2, decide_True by done. by constructor.
Qed.

Lemma nonempty_length {n} (rs : list (ReaderT L n)) dss : Forall2 reads rs dss -> length rs = length dss.
Proof. apply Forall2_length. Qed.

(** The children of a weak conjunction and its reference evaluation agree. *)
Lemma weak_and_children_ok n (build : nat -> EvalNode -> option (ReaderT L n)) (g : EvalNode -> list Z) nodes m :
  (forall x, depth x <= fold_right Nat.max 0 (map depth nodes) ->
     exists r, converges (fun k => build k x) r /\ reads r (g x)) ->
  exists rs dss, converges (fun k => weak_and_children (build k) nodes) rs /\ Forall2 reads rs dss /\
    eval_weak_and g nodes m = at_least (weak_and_threshold m (length rs)) dss.
Proof.
  intros Hf.
  assert (Hmap : forall l, (forall x, x ∈ l -> depth x <= fold_right Nat.max 0 (map depth nodes)) ->
    exists rs, converges (fun k => map_option (build k) l) rs /\ Forall2 reads rs (map g l)).
  { intros l Hl. apply map_option_ok. auto. }
  unfold weak_and_children, eval_weak_and, weak_and_threshold. destruct weak_and_build_mode eqn:Emode.
  - destruct (Hmap (FlattenWeakAndNodes term_doc_freq nodes doc_count false)) as (rs & Hc & Hr);
      [intros x; apply FlattenWeakAndNodes_depth|].
    pose proof (filter_not_end_reads _ _ Hr) as Hf1.
    set (dss1 := nonempty_docs (map g (FlattenWeakAndNodes term_doc_freq nodes doc_count false))) in *.
    destruct (List.filter not_end rs) as [|r1 rs1] eqn:E1.
    + inversion Hf1 as [Hd|]; subst.
      destruct (Hmap (FlattenWeakAndNodes term_doc_freq nodes doc_count true)) as (rs2 & Hc2 & Hr2);
        [intros x; apply FlattenWeakAndNodes_depth|].
      pose proof (filter_not_end_reads _ _ Hr2) as Hf2. eexists _, _. split; [|split; [exact Hf2|]].
      * eapply converges_bind; [exact Hc|]. rewrite E1. eapply converges_bind; [exact Hc2|apply converges_now].
      * by rewrite (Forall2_length _ _ _ Hf2).
    + exists (r1 :: rs1), dss1. split; [|split; [exact Hf1|]].
      * eapply converges_bind; [exact Hc|]. rewrite E1. apply converges_now.
      * rewrite (Forall2_length _ _ _ Hf1). destruct dss1; [by inversion Hf1|done].
  - destruct (Hmap nodes) as (rs & Hc & Hr); [intros x; apply depth_children|].
    eexists _, _. split; [exact Hc|]. split; [exact Hr|]. by rewrite (Forall2_length _ _ _ Hr), length_map.
  - destruct (Hmap nodes) as (rs & Hc & Hr); [intros x; apply depth_children|].
    pose proof (filter_not_end_reads _ _ Hr) as Hf1. eexists _, _. split; [|split; [exact Hf1|]].
    + eapply converges_bind; [exact Hc|apply converges_now].
    + by rewrite (Forall2_length _ _ _ Hf1).
Qed.

Lemma weak_and_threshold_one m : (weak_and_threshold m 1 <= 1)%Z.
Proof. unfold weak_and_threshold. destruct weak_and_build_mode; cbn; lia. Qed.

Lemma converges_some {A B} (f : nat -> option A) (k : A -> B) a :
  converges f a -> converges (fun n => opt x := f n in Some (k x)) (k a).
Proof. intros Hc. eapply converges_bind; [exact Hc|apply converges_now]. Qed.

Lemma build_and_ok n (fuel_build : nat -> EvalNode -> option (ReaderT L n)) nodes dss (rs : list (ReaderT L n)) :
  converges (fun k => map_option (fuel_build k) nodes) rs -> Forall2 reads rs dss ->
  exists r, converges (fun k => opt children := map_option (fuel_build k) nodes in
      if existsb IsEnd children then open_advanced_reader (S n) [] 1
      else match children with
      | [c] => Some (NodeChild c)
      | _ => opt r := and_new k children in Some (NodeAnd r)
      end) r /\ reads r (docs_where (in_all dss) (concat dss)).
Proof.
  intros Hc Hr. pose proof (reads_all_docs _ _ Hr) as Hok. pose proof (in_all_denotes dss Hok) as Hden.
  destruct (existsb IsEnd rs) eqn:Eend.
  { destruct (open_empty_ok (S n)) as (r & Hopen & Hrr). exists r. split.
    - eapply converges_bind; [exact Hc|]. by rewrite Eend.
    - apply (reads_all_end _ _ Hr) in Eend.
      replace (docs_where _ _) with (@nil Z); [done|]. symmetry. eapply denotes_none; [exact Hden|].
      intros x [_ Hall]. rewrite Forall_forall in Hall. specialize (Hall [] Eend). by apply elem_of_nil in Hall. }
  destruct (and_aligned_reads rs dss _ Hr Hden) as (ra & Hca & Hra).
  destruct rs as [|c [|c2 rs]].
  - exists (NodeAnd ra). split; [|exact Hra]. eapply converges_bind; [exact Hc|]. by apply converges_some.
  - inversion Hr as [|? ds ? ? Hc1 Hr2]; subst. inversion Hr2; subst.
    exists (NodeChild c). split; [eapply converges_bind; [exact Hc|]; rewrite Eend; apply converges_now|].
    replace (docs_where _ _) with ds; [exact Hc1|].
    apply docs_ok_ext; [by inversion Hok|apply Hden|]. intros x. destruct Hden as [_ ->].
    unfold in_all. rewrite Forall_singleton. naive_solver.
  - exists (NodeAnd ra). split; [|exact Hra]. eapply converges_bind; [exact Hc|]. rewrite Eend. by apply converges_some.
Qed.

Lemma build_or_ok n (fuel_build : nat -> EvalNode -> option (ReaderT L n)) nodes dss rs :
  converges (fun k => map_option (fuel_build k) nodes) rs -> Forall2 reads rs dss ->
  exists r, converges (fun k => opt children := map_option (fuel_build k) nodes in
      match List.filter not_end children with
      | [] => open_advanced_reader (S n) [] 1
      | [c] => Some (NodeChild c)
      | children => Some (NodeOr (or_new children))
      end) r /\ reads r (at_least 1 dss).
Proof.
  intros Hc Hr. pose proof (reads_all_docs _ _ Hr) as Hok.
  pose proof (filter_not_end_reads _ _ Hr) as Hf. pose proof (nonempty_docs_ok _ Hok) as Hok'.
  rewrite <- (at_least_nonempty 1 dss Hok). revert Hf Hok'. generalize (nonempty_docs dss). intros dss' Hf Hok'.
  destruct (List.filter not_end rs) as [|c [|c2 rs']] eqn:E.
  - inversion Hf; subst. destruct (open_empty_ok (S n)) as (r & Hopen & Hrr). exists r. split; [|exact Hrr].
    eapply converges_bind; [exact Hc|]. by rewrite E.
  - inversion Hf as [|? ds ? ? Hc1 Hr2]; subst. inversion Hr2; subst. exists (NodeChild c). split.
    + eapply converges_bind; [exact Hc|]. rewrite E. apply converges_now.
    + rewrite at_least_one; [exact Hc1|by inversion Hok'|lia].
  - exists (NodeOr (or_new (c :: c2 :: rs'))). split.
    + eapply converges_bind; [exact Hc|]. rewrite E. apply converges_now.
    + apply (or_refresh_reads _ dss'); [by apply initial_cursors_ok|].
      eapply denotes_iff; [|by apply at_least_denotes]. cbn beta. intros x. lia.
Qed.

Lemma build_weak_ok n (children : nat -> option (list (ReaderT L n))) rs dss m :
  converges children rs -> Forall2 reads rs dss ->
  exists r, converges (fun k => opt children := children k in
      match children with
      | [] => open_advanced_reader (S n) [] 1
      | [c] => Some (NodeChild c)
      | _ => opt r := wa_new k children (weak_and_threshold m (length children)) in Some (NodeWeakAnd r)
      end) r /\ reads r (at_least (weak_and_threshold m (length rs)) dss).
Proof.
  intros Hc Hr. pose proof (reads_all_docs _ _ Hr) as Hok. destruct rs as [|c [|c2 rs]].
  - inversion Hr; subst. destruct (open_empty_ok (S n)) as (r & Hopen & Hrr). exists r. split; [|exact Hrr].
    eapply converges_bind; [exact Hc|exact Hopen].
  - inversion Hr as [|? ds ? ? Hc1 Hr2]; subst. inversion Hr2; subst. exists (NodeChild c). split.
    + eapply converges_bind; [exact Hc|apply converges_now].
    + rewrite at_least_one; [exact Hc1|by inversion Hok|apply weak_and_threshold_one].
  - set (t := weak_and_threshold m (length (c :: c2 :: rs))).
    destruct (wa_AlignToMatch_ok (Z.max t 1) (initial_cursors (c :: c2 :: rs)) dss (at_least t dss))
      as (r & Hcw & _ & Hrw); [by apply initial_cursors_ok|lia| |].
    { eapply denotes_iff; [|by apply at_least_denotes]. cbn beta. intros x. lia. }
    exists (NodeWeakAnd r). split; [|exact Hrw]. eapply converges_bind; [exact Hc|]. by apply converges_some.
Qed.

Lemma build_node_ok n node :
  depth node <= n ->
  exists r, converges (fun k => build_node k n node) r /\ reads r (eval postings n node).
Proof.
  revert node. induction n as [|n IH]; intros node Hd.
  { destruct node; cbn in Hd; try lia. apply (open_advanced_reader_ok 0). }
  destruct node as [key span|nodes|nodes|base exclude|nodes m|base boost w]; cbn [depth] in Hd;
    cbn [build_node eval]; [apply open_advanced_reader_ok| | | | |].
  - destruct (map_option_ok (fun k => build_node k n) (eval postings n) nodes) as (rs & Hc & Hr).
    { intros x Hx. apply IH. pose proof (depth_children nodes x Hx). lia. }
    by apply (build_and_ok n (fun k => build_node k n) nodes _ rs).
  - destruct (map_option_ok (fun k => build_node k n) (eval postings n) nodes) as (rs & Hc & Hr).
    { intros x Hx. apply IH. pose proof (depth_children nodes x Hx). lia. }
    by apply (build_or_ok n (fun k => build_node k n) nodes _ rs).
  - destruct (IH base) as (b & Hb & Hbr); [lia|]. destruct (IH exclude) as (e & He & Her); [lia|].
    destruct (not_SkipExcluded_ok b e _ _ _ Hbr Her (difference_denotes _ _ (reads_docs _ _ Hbr))) as (r & Hc & Hr).
    exists (NodeNot r). split; [|exact Hr]. eapply converges_bind; [exact Hb|].
    eapply converges_bind; [exact He|]. by apply converges_some.
  - destruct (weak_and_children_ok n (fun k => build_node k n) (eval postings n) nodes m) as (rs & dss & Hc & Hr & ->).
    { intros x Hx. apply IH. lia. }
    by apply (build_weak_ok n (fun k => weak_and_children (build_node k n) nodes)).
  - destruct (IH base) as (b & Hb & Hbr); [lia|]. destruct (IH boost) as (bo & Hbo & Hbor); [lia|].
    destruct (IsEnd b) eqn:Eb.
    { exists (NodeChild b). split; [|exact Hbr]. eapply converges_bind; [exact Hb|]. rewrite Eb. apply converges_now. }
    destruct (IsEnd bo) eqn:Ebo.
    { exists (NodeChild b). split; [|exact Hbr]. eapply converges_bind; [exact Hb|]. rewrite Eb.
      eapply converges_bind; [exact Hbo|]. rewrite Ebo. apply converges_now. }
    exists (NodeBoost (bo_new b bo w)). split; [|by exists (eval postings n boost); apply boosts_new].
    eapply converges_bind; [exact Hb|]. rewrite Eb. eapply converges_bind; [exact Hbo|]. rewrite Ebo. apply converges_now.
Qed.

(** C7: for every query tree, the reader builder terminates, and the reader it builds, with all its
    shortcuts and prunings, reads exactly the documents of the reference evaluation of the tree. *)
Theorem build_index_reader_reads n node :
  depth node <= n ->
  exists r, converges (fun k => build_index_reader k n (Some node)) r /\ reads r (eval postings n node).
Proof. apply build_node_ok. Qed.
End builder_spec.

(** * Compiled trees are shallow *)

Section compiled_depth.
Context `{Tokenizer}.

Lemma depth_bound k nodes : Forall (fun x => depth x <= k) nodes -> fold_right Nat.max 0 (map depth nodes) <= k.
Proof. induction 1; cbn; lia. Qed.

Lemma make_term_group_depth t ss span : depth (make_term_group t ss span) <= 1.
Proof.
  unfold make_term_group. destruct ss as [|s [|s2 ss]]; cbn [depth]; [cbn; lia|lia|].
  assert (Hb : fold_right Nat.max 0 (map depth (map (fun s => Term (t ++ s) span) (s :: s2 :: ss))) <= 0); [|lia].
  apply depth_bound, Forall_forall. intros x Hx. apply list_elem_of_fmap in Hx as (y & -> & _). cbn. lia.
Qed.

Lemma bigram_groups_depth terms : Forall (fun x => depth x <= 1) (bigram_groups terms).
Proof.
  apply Forall_forall. intros x Hx. unfold bigram_groups in Hx. apply list_elem_of_fmap in Hx as (w & -> & _).
  apply make_term_group_depth.
Qed.

Lemma term_groups_depth (terms : list QueryTerm) :
  Forall (fun x => depth x <= 1) (map (fun t => make_query_term_group t 1) terms).
Proof.
  apply Forall_forall. intros x Hx. apply list_elem_of_fmap in Hx as (t & -> & _). apply make_term_group_depth.
Qed.

Lemma bigram_query_depth terms x :
  build_bigram_query terms = Some x \/ build_any_bigram_query terms = Some x -> depth x <= 2.
Proof.
  pose proof (bigram_groups_depth terms) as Hg. pose proof (depth_bound 1 _ Hg) as Hb.
  unfold build_bigram_query, build_any_bigram_query. destruct (length terms <? 2); [by intros [|]|].
  destruct (bigram_groups terms) as [|g [|g2 gs]]; [by intros [|]| |].
  - inversion Hg; subst. intros [[= <-]|[= <-]]; lia.
  - intros [[= <-]|[= <-]]; cbn [depth]; lia.
Qed.

Lemma weak_and_base_depth terms x : build_weak_and_base_expression terms = Some x -> depth x <= 2.
Proof.
  pose proof (depth_bound 1 _ (term_groups_depth terms)) as Hb.
  destruct terms as [|t [|t2 ts]]; [done| |].
  - intros [= <-]. pose proof (make_term_group_depth (qt_term t) (qt_streams t) 1).
    change (make_query_term_group t 1) with (make_term_group (qt_term t) (qt_streams t) 1). lia.
  - unfold build_weak_and_base_expression. intros Heq%(inj Some). subst x. cbn [depth]. lia.
Qed.

Lemma implicit_depth tokens mode x : build_implicit_expression tokens mode = Some x -> depth x <= 3.
Proof.
  assert (Hboost : forall m, build_weak_and_bigram_boost_expression tokens m = Some x -> depth x <= 3).
  { intros m. unfold build_weak_and_bigram_boost_expression.
    destruct (build_weak_and_base_expression _) as [b|] eqn:Eb; [|done]. pose proof (weak_and_base_depth _ _ Eb).
    destruct (build_any_bigram_query _) as [g|] eqn:Eg; intros [= <-]; [|lia].
    pose proof (bigram_query_depth _ _ (or_intror Eg)). cbn [depth]. lia. }
  destruct mode; cbn [build_implicit_expression]; [| |apply Hboost..].
  - pose proof (depth_bound 1 _ (term_groups_depth tokens)) as Hb. pose proof (term_groups_depth tokens) as Hg.
    destruct (map _ tokens) as [|n [|n2 ns]]; [done| |].
    + inversion Hg; subst. destruct (build_bigram_query tokens) as [g|] eqn:Eg; intros [= <-]; [|lia].
      pose proof (bigram_query_depth _ _ (or_introl Eg)). cbn [depth fold_right map]. lia.
    + destruct (build_bigram_query tokens) as [g|] eqn:Eg; intros [= <-]; [|cbn [depth]; lia].
      pose proof (bigram_query_depth _ _ (or_introl Eg)). cbn [depth fold_right map] in *. lia.
  - unfold build_weak_and_bigram_expression.
    destruct (build_weak_and_base_expression _) as [b|] eqn:Eb, (build_any_bigram_query _) as [g|] eqn:Eg;
      intros Heq; simplify_eq; cbn [depth fold_right map];
      try (pose proof (weak_and_base_depth _ _ Eb)); try (pose proof (bigram_query_depth _ _ (or_intror Eg))); lia.
Qed.

Lemma minus_depth p n mode x : build_minus_expression p n mode = Some x -> depth x <= 4.
Proof.
  unfold build_minus_expression. destruct n as [|t ts].
  - intros Heq. apply implicit_depth in Heq. lia.
  - destruct p as [|p ps]; [done|].
    destruct (build_implicit_expression (p :: ps) mode) as [b|] eqn:Eb; [|done].
    destruct (build_implicit_expression (t :: ts) mode) as [e|] eqn:Ee; intros [= <-].
    apply implicit_depth in Eb, Ee. cbn [depth]. lia.
Qed.

Lemma push_disjunct_depth mode st :
  Forall (fun x => depth x <= 4) (ps_disjuncts st) -> Forall (fun x => depth x <= 4) (push_disjunct mode st).
Proof.
  intros Hd. unfold push_disjunct. destruct (build_minus_expression _ _ _) eqn:E; [|done].
  apply Forall_app. split; [done|]. constructor; [by eapply minus_depth|constructor].
Qed.

Lemma parse_items_depth streams mode items st :
  Forall (fun x => depth x <= 4) (ps_disjuncts st) ->
  Forall (fun x => depth x <= 4) (ps_disjuncts (fold_left (parse_item streams mode) items st)).
Proof.
  revert st. induction items as [|i items IH]; intros st Hd; [done|]. cbn [fold_left]. apply IH.
  unfold parse_item. destruct (is_or_token i); [by apply push_disjunct_depth|]. by destruct (is_not_token i).
Qed.

Lemma parse_expression_depth query streams mode node :
  parse_expression query streams mode = Some node -> depth node <= 5.
Proof.
  unfold parse_expression.
  pose proof (parse_items_depth streams mode (split_raw_items query)
    {| ps_disjuncts := []; ps_positive := []; ps_negative := []; ps_saw_any := false;
       ps_next_is_negative := false |} ltac:(constructor)) as Hd.
  destruct (negb _); [done|]. apply (push_disjunct_depth mode) in Hd. pose proof (depth_bound 4 _ Hd) as Hb.
  destruct (push_disjunct mode _) as [|d [|d2 ds]]; [done| |]; intros [= <-].
  - inversion Hd; subst. lia.
  - cbn [depth]. lia.
Qed.

Lemma compiled_depth query stream_set mode node :
  root (CompileWithMode query stream_set mode) = Some node -> depth node <= 5.
Proof.
  unfold CompileWithMode. destruct query; [done|]. destruct (ParseStreamSet stream_set); [done|].
  cbn [root tree_new]. apply parse_expression_depth.
Qed.
End compiled_depth.

(** * A search task *)

Record SearchTaskState := {
  task_query : bytes;
  task_vector : list f32;
  task_streams : bytes;
  task_top_k : Z;
  task_mode : QueryCompileMode;
  task_vector_ef_search : Z;
}.

(** Readers of compiled trees fit in five levels. *)
Definition TREE_DEPTH : nat := 5.

Section task.
Context `{Libm, Tokenizer} {L Hp : Type} `{IndexReader L, MinHeap Hp}.
(** The runtime, and its delta index when it has one. *)
Context (base : LeafReaders L) (delta : option (LeafReaders L)).
Context (VectorSearch DeltaVectorSearch : list f32 -> Z -> Z -> list VectorSearchResult).
Context (GetDocDataEntry : Z -> option DocDataEntry) (parameters : QueryCompileModeParameters).

Definition get_reader (fuel : nat) (tree : EvalTree) : option (ReaderT L (S (S TREE_DEPTH))) :=
  if IsEmpty tree then @open_advanced_reader L base (S (S TREE_DEPTH)) [] 1
  else
    opt b := @build_local_reader L _ base VectorSearch fuel TREE_DEPTH tree in
    match delta with
    | Some d =>
        opt dr := @build_local_reader L _ d DeltaVectorSearch fuel TREE_DEPTH tree in
        Some (NodeOr (or_new [b; dr]))
    | None => Some (NodeChild b)
    end.

(** The tree a task searches. *)
Definition task_tree (task : SearchTaskState) : EvalTree :=
  let tree :=
    match task_query task, task_vector task with
    | [], _ :: _ => tree_new None
    | _, _ => CompileWithMode (task_query task) (task_streams task) (task_mode task)
    end in
  {| root := root tree;
     vector_query := match task_vector task with [] => vector_query tree | v => v end;
     vector_ef_search := task_vector_ef_search task |}.

Definition ExecuteSearchTask (fuel : nat) (task : SearchTaskState) : option (list SearchResult) :=
  let tree := task_tree task in
  if IsEmpty tree then Some []
  else
    let vector_query := if HasTextQuery tree && HasVectorQuery tree then Some (vector_query tree) else None in
    opt reader := get_reader fuel tree in
    ExecuteWithVector (Hp := Hp) GetDocDataEntry parameters fuel reader (task_top_k task) vector_query.
End task.

Section task_spec.
Context `{Libm, Tokenizer} {L Hp : Type} `{ReaderSpec L} `{MinHeapSpec Hp}.
Context (base : LeafReaders L) (delta : option (LeafReaders L)).
Context (VectorSearch DeltaVectorSearch : list f32 -> Z -> Z -> list VectorSearchResult).
Context (GetDocDataEntry : Z -> option DocDataEntry) (parameters : QueryCompileModeParameters).
Context (postings delta_postings : bytes -> list Z).
Hypothesis base_ok : LeafReadersSpec L (LeafReaders0 := base) postings.
Hypothesis delta_ok : match delta with Some d => LeafReadersSpec L (LeafReaders0 := d) delta_postings | None => True end.

(** A vector search returns documents, each once. *)
Definition search_ok (search : list f32 -> Z -> Z -> list VectorSearchResult) : Prop :=
  forall q k ef, NoDup (vr_docs (search q k ef)) /\
    Forall (fun d => 0 <= d < NO_MORE_DOCS)%Z (vr_docs (search q k ef)).
Hypothesis VectorSearch_ok : search_ok VectorSearch.
Hypothesis DeltaVectorSearch_ok : search_ok DeltaVectorSearch.

(** The documents of a tree in one index. *)
Definition eval_tree (index : LeafReaders L) (posts : bytes -> list Z)
    (search : list f32 -> Z -> Z -> list VectorSearchResult) (tree : EvalTree) : list Z :=
  match root tree with
  | Some node => @eval L index posts TREE_DEPTH node
  | None => vr_docs (vr_Results (vr_new (search (vector_query tree) (Z.max (vector_ef_search tree) 1)
              (vector_ef_search tree))))
  end.

(** The documents of a tree in the base index and its delta. *)
Definition tree_docs (tree : EvalTree) : list Z :=
  match delta with
  | Some d => at_least 1 [eval_tree base postings VectorSearch tree;
                          eval_tree d delta_postings DeltaVectorSearch tree]
  | None => eval_tree base postings VectorSearch tree
  end.

Lemma build_local_reader_ok (index : LeafReaders L) posts search tree :
  LeafReadersSpec L (LeafReaders0 := index) posts -> search_ok search -> IsEmpty tree = false ->
  (forall node, root tree = Some node -> depth node <= TREE_DEPTH) ->
  exists r, converges (fun k => build_local_reader search k TREE_DEPTH tree) r /\
    reads r (eval_tree index posts search tree).
Proof.
  intros Hspec Hsearch Hne Hdepth. unfold build_local_reader, eval_tree, build_index_reader. rewrite Hne.
  unfold IsEmpty, HasTextQuery in *. destruct (root tree) as [node|].
  - destruct (build_node_ok TREE_DEPTH node (Hdepth node eq_refl)) as (r & Hc & Hr).
    exists (NodeChild r). split; [|exact Hr]. destruct (HasVectorQuery tree); cbn [andb];
      (eapply converges_bind; [exact Hc|apply converges_now]).
  - destruct (HasVectorQuery tree); [|done]. cbn [andb]. eexists. split; [apply converges_now|].
    destruct (Hsearch (vector_query tree) (Z.max (vector_ef_search tree) 1) (vector_ef_search tree)) as [Hnd Hrange].
    apply (vr_new_reads _ Hnd Hrange).
Qed.

Lemma get_reader_ok tree :
  IsEmpty tree = false -> (forall node, root tree = Some node -> depth node <= TREE_DEPTH) ->
  exists r, converges (fun k => get_reader base delta VectorSearch DeltaVectorSearch k tree) r /\
    reads r (tree_docs tree).
Proof.
  intros Hne Hdepth. unfold get_reader, tree_docs. rewrite Hne.
  destruct (build_local_reader_ok base postings VectorSearch tree base_ok VectorSearch_ok Hne Hdepth) as (b & Hb & Hbr).
  destruct delta as [d|].
  - destruct (build_local_reader_ok d delta_postings DeltaVectorSearch tree delta_ok DeltaVectorSearch_ok Hne Hdepth)
      as (dr & Hd & Hdr).
    exists (NodeOr (or_new [b; dr])). split.
    + eapply converges_bind; [exact Hb|]. eapply converges_bind; [exact Hd|apply converges_now].
    + assert (Hcs : Forall2 reads [b; dr] [eval_tree base postings VectorSearch tree;
        eval_tree d delta_postings DeltaVectorSearch tree]) by (by repeat constructor).
      apply (or_refresh_reads _ _ _ (initial_cursors_ok _ _ Hcs)).
      eapply denotes_iff; [|apply at_least_denotes; exact (reads_all_docs _ _ Hcs)]. cbn beta. intros x. lia.
  - exists (NodeChild b). split; [|exact Hbr]. eapply converges_bind; [exact Hb|apply converges_now].
Qed.

Lemma task_tree_depth task node : root (task_tree task) = Some node -> depth node <= TREE_DEPTH.
Proof.
  unfold task_tree. cbn [root]. destruct (task_query task) as [|c q] eqn:Eq, (task_vector task); cbn [root tree_new]; try done;
    apply compiled_depth.
Qed.

Lemma ExecuteSearchTask_ok task :
  IsEmpty (task_tree task) = false ->
  (forall d, d ∈ tree_docs (task_tree task) -> is_Some (GetDocDataEntry d)) ->
  exists r all,
    converges (fun k => get_reader base delta VectorSearch DeltaVectorSearch k (task_tree task)) r /\
    visits GetDocDataEntry parameters
      (if HasTextQuery (task_tree task) && HasVectorQuery (task_tree task)
       then Some (vector_query (task_tree task)) else None)
      r (tree_docs (task_tree task)) all /\
    (no_nan all ->
     exists res, converges (fun k => ExecuteSearchTask (Hp := Hp) base delta VectorSearch DeltaVectorSearch
                   GetDocDataEntry parameters k task) res /\
       top_results (TopKLimit (task_top_k task)) all res).
Proof.
  intros Hne Hentry. destruct (get_reader_ok (task_tree task) Hne (task_tree_depth task)) as (r & Hc & Hr).
  set (vq := if HasTextQuery (task_tree task) && HasVectorQuery (task_tree task) then _ else _).
  destruct (visits_exists GetDocDataEntry parameters vq r _ Hr Hentry) as [all Hall].
  exists r, all. split; [exact Hc|]. split; [exact Hall|]. intros Hnan.
  destruct (ExecuteWithVector_ok (Hp := Hp) GetDocDataEntry parameters vq r _ all (task_top_k task) Hr Hall Hnan)
    as (res & Hres & Htop).
  exists res. split; [|exact Htop]. unfold ExecuteSearchTask. rewrite Hne.
  eapply converges_bind; [exact Hc|exact Hres].
Qed.

(** C1: a search task whose query is not empty, and whose documents all have records, gets its reader, which
    visits the documents of the reference evaluation of the compiled query in the base index and the delta,
    each once, with its score; when none of these scores is NaN, the task terminates and returns the best
    [top_k] of them, from the best to the worst, and none better is left out. The readers of single keys and
    the vector searches are any that keep their contracts. Five levels of readers are enough for every query
    string. *)
Theorem ExecuteSearchTask_top_k task :
  IsEmpty (task_tree task) = false ->
  (forall d, d ∈ tree_docs (task_tree task) -> is_Some (GetDocDataEntry d)) ->
  exists r all,
    converges (fun k => get_reader base delta VectorSearch DeltaVectorSearch k (task_tree task)) r /\
    visits GetDocDataEntry parameters
      (if HasTextQuery (task_tree task) && HasVectorQuery (task_tree task)
       then Some (vector_query (task_tree task)) else None)
      r (tree_docs (task_tree task)) all /\
    (no_nan all ->
     exists res, converges (fun k => ExecuteSearchTask (Hp := Hp) base delta VectorSearch DeltaVectorSearch
                   GetDocDataEntry parameters k task) res /\
       top_results (TopKLimit (task_top_k task)) all res).
Proof. apply ExecuteSearchTask_ok. Qed.
End task_spec.

(** * Witnesses: a small index of three stream keys *)

#[local] Existing Instance list_reader.
#[local] Existing Instance list_reader_spec.

Definition sample_postings (key : bytes) : list Z :=
  if decide (key = of_string "carT") then [1; 4; 7]%Z
  else if decide (key = of_string "raceT") then [4; 5]%Z
  else if decide (key = of_string "carB") then [4; 9]%Z
  else [].

Definition sample_leaves : LeafReaders (list Z) :=
  {| open_leaf key _ := Some (sample_postings key); term_doc_freq _ := Some 2%Z;
     weak_and_build_mode := FlatPruned; doc_count := 10 |}.

Lemma sample_leaves_spec : @LeafReadersSpec (list Z) list_reader list_reader_spec sample_leaves sample_postings.
Proof.
  split; [|reflexivity]. intros key span. exists (sample_postings key). split; [reflexivity|].
  unfold sample_postings. repeat case_decide; by apply reads_list.
Qed.

Definition sample_tree : EvalNode :=
  Not (WeakAnd [Or [Term (of_string "carT") 1; Term (of_string "carB") 1]; Term (of_string "raceT") 1] 1)
      (Term (of_string "carB") 1).

Lemma build_index_reader_reads_witness :
  exists r, converges (fun k => @build_index_reader (list Z) _ sample_leaves k 4 (Some sample_tree)) r /\
    @reads _ _ (ReaderT_spec 4) r (@eval (list Z) sample_leaves sample_postings 4 sample_tree).
Proof.
  apply (@build_index_reader_reads (list Z) _ _ sample_leaves sample_postings sample_leaves_spec 4 sample_tree).
  vm_compute. lia.
Defined.

(** Three clauses after flattening ask for two of them: only document 4 is in two, and it is excluded. *)
Example sample_tree_eval : @eval (list Z) sample_leaves sample_postings 4 sample_tree = [].
Proof. vm_compute. reflexivity. Qed.

Definition sample_tokenizer : Tokenizer := {| Tokenize s := [s] |}.

Definition sample_task : SearchTaskState :=
  {| task_query := of_string "car or race"; task_vector := []; task_streams := of_string "T"; task_top_k := 2;
     task_mode := WeakAndBigram; task_vector_ef_search := 10 |}.

Lemma ExecuteSearchTask_top_k_witness :
  exists r all,
    converges (fun k => @get_reader (list Z) _ sample_leaves None (fun _ _ _ => []) (fun _ _ _ => []) k
      (@task_tree sample_tokenizer sample_task)) r /\
    @visits sample_libm _ _ sample_entry_of kWeakAndBigramParameters None r [1; 4; 5; 7]%Z all /\
    (no_nan all -> exists res,
      converges (fun k => @ExecuteSearchTask sample_libm sample_tokenizer (list Z) _ _ list_heap sample_leaves None
        (fun _ _ _ => []) (fun _ _ _ => []) sample_entry_of kWeakAndBigramParameters k sample_task) res /\
      top_results (Some 2) all res).
Proof.
  apply (@ExecuteSearchTask_top_k sample_libm sample_tokenizer (list Z) _ _ _ list_heap list_heap_spec
    sample_leaves None (fun _ _ _ => []) (fun _ _ _ => []) sample_entry_of kWeakAndBigramParameters
    sample_postings (fun _ => [])).
  - exact sample_leaves_spec.
  - exact I.
  - intros q k ef. split; constructor.
  - intros q k ef. split; constructor.
  - vm_compute. reflexivity.
  - intros d _. by eexists.
Defined.
