(* ===== verification/QueryMeaning.v ===== *)
(** What a compiled query means: the documents the reference evaluation of
    Query.v gives to the trees that the compiler builds from query terms. *)

From Stdlib Require Import Ascii String.
From Stdlib Require Import ZArith Lia ZifyBool Bool List.
From Stdlib Require Import Floats.SpecFloat.
From stdpp Require Import base list list_numbers gmap sorting.
From S2P Require Import Prelude Floats PostingStore IndexReader Composites Unions ReaderTree EvalExpression Query.

Local Open Scope moon_scope.

Section meaning.
Context {L : Type} `{LeafReaders L}.
Context (postings : bytes -> list Z) (postings_ok : forall key, docs_ok (postings key)).

Abbreviation eval := (eval postings).

Lemma eval_docs_ok n node : docs_ok (eval n node).
Proof using H postings_ok.
  assert (Hat : forall m dss, Forall docs_ok dss -> docs_ok (at_least m dss)) by (intros; by apply at_least_denotes).
  revert node. induction n as [|n IH]; intros node.
  { destruct node; cbn; try apply docs_ok_nil. apply postings_ok. }
  assert (Hmap : forall nodes, Forall docs_ok (map (eval n) nodes)).
  { intros nodes. apply Forall_forall. intros ds Hin. by apply list_elem_of_fmap in Hin as (x & -> & _). }
  destruct node as [key span|nodes|nodes|base exclude|nodes m|base boost w]; cbn [Query.eval]; auto.
  - by apply in_all_denotes.
  - by apply difference_denotes.
  - unfold eval_weak_and. destruct weak_and_build_mode; auto using nonempty_docs_ok.
    apply Hat. case_match eqn:E; [|rewrite <- E]; auto using nonempty_docs_ok.
Qed.

Lemma evals_docs_ok n nodes : Forall docs_ok (map (eval n) nodes).
Proof using H postings_ok.
  apply Forall_forall. intros ds Hin. apply list_elem_of_fmap in Hin as (x & -> & _). apply eval_docs_ok.
Qed.

Lemma eval_Or n nodes x : x ∈ eval (S n) (Or nodes) <-> exists node, node ∈ nodes /\ x ∈ eval n node.
Proof using H postings_ok.
  cbn [Query.eval]. destruct (at_least_denotes 1 _ (evals_docs_ok n nodes)) as [_ ->].
  assert (Hone : (Z.max 1 1 <= Z.of_nat (count_in (map (eval n) nodes) x))%Z <-> 1 <= count_in (map (eval n) nodes) x) by lia.
  rewrite Hone, count_in_pos, Exists_exists. split.
  - intros (ds & Hin & Hx). apply list_elem_of_fmap in Hin as (node & -> & Hin). by exists node.
  - intros (node & Hin & Hx). exists (eval n node). split; [by apply (list_elem_of_fmap_2 (eval n))|done].
Qed.

Lemma eval_And n nodes x :
  x ∈ eval (S n) (And nodes) <-> nodes <> [] /\ forall node, node ∈ nodes -> x ∈ eval n node.
Proof using H postings_ok.
  cbn [Query.eval]. destruct (in_all_denotes _ (evals_docs_ok n nodes)) as [_ ->].
  unfold in_all. rewrite Forall_forall. split; intros [Hne Hall].
  - split; [by intros ->|]. intros node Hin. apply Hall. by apply (list_elem_of_fmap_2 (eval n)).
  - split; [by destruct nodes|]. intros ds Hin. apply list_elem_of_fmap in Hin as (node & -> & Hin). by apply Hall.
Qed.

Lemma eval_Not n base exclude x :
  x ∈ eval (S n) (Not base exclude) <-> x ∈ eval n base /\ x ∉ eval n exclude.
Proof. cbn [Query.eval]. unfold difference. rewrite list_elem_of_filter. tauto. Qed.

Lemma at_least_elem m dss x : Forall docs_ok dss -> x ∈ at_least m dss -> exists ds, ds ∈ dss /\ x ∈ ds.
Proof.
  intros Hok Hx. destruct (at_least_denotes m dss Hok) as [_ Hd]. apply Hd in Hx.
  assert (Hpos : 1 <= count_in dss x) by lia. by apply count_in_pos, Exists_exists in Hpos.
Qed.

(** A tree matches no document without a posting. *)
Lemma eval_from_postings n node x : x ∈ eval n node -> exists key, x ∈ postings key.
Proof using H postings_ok.
  revert node. induction n as [|n IH]; intros node Hx.
  { destruct node; cbn in Hx; try by apply elem_of_nil in Hx. by eexists. }
  assert (Hmap : forall nodes ds, ds ∈ map (eval n) nodes -> x ∈ ds -> exists key, x ∈ postings key).
  { intros nodes ds (y & -> & _)%list_elem_of_fmap Hds. by eapply IH. }
  assert (Hkept : forall nodes ds, ds ∈ nonempty_docs (map (eval n) nodes) -> x ∈ ds -> exists key, x ∈ postings key).
  { intros nodes ds [_ Hin]%list_elem_of_filter Hds. by eapply Hmap. }
  assert (Hok : forall nodes, Forall docs_ok (nonempty_docs (map (eval n) nodes))) by (intros; apply nonempty_docs_ok, evals_docs_ok).
  destruct node as [key span|nodes|nodes|base exclude|nodes m|base boost w]; cbn [Query.eval] in Hx.
  - by eexists.
  - destruct (in_all_denotes _ (evals_docs_ok n nodes)) as [_ Hd]. apply Hd in Hx as [Hne Hall].
    destruct (map (eval n) nodes) as [|ds dss] eqn:E; [done|]. apply (Hmap nodes ds); [rewrite E; apply list_elem_of_here|by inversion Hall].
  - apply at_least_elem in Hx as (ds & Hin & Hds); [|apply evals_docs_ok]. by eapply Hmap.
  - apply list_elem_of_filter in Hx as [_ Hx]. by eapply IH.
  - unfold eval_weak_and in Hx. destruct weak_and_build_mode.
    + destruct (nonempty_docs (map (eval n) (FlattenWeakAndNodes term_doc_freq nodes doc_count false))) as [|ds0 dss0] eqn:E;
        [|rewrite <- E in Hx]; apply at_least_elem in Hx as (ds & Hin & Hds); try apply Hok; by eapply Hkept.
    + apply at_least_elem in Hx as (ds & Hin & Hds); [|apply evals_docs_ok]. by eapply Hmap.
    + apply at_least_elem in Hx as (ds & Hin & Hds); [|apply Hok]. by eapply Hkept.
  - by eapply IH.
Qed.

(** The term occurs in one of the streams. *)
Definition occurs (ss : list bytes) (t : bytes) (x : Z) : Prop := exists s, s ∈ ss /\ x ∈ postings (t ++ s).

Lemma eval_term_group n t ss span x : x ∈ eval (S n) (make_term_group t ss span) <-> occurs ss t x.
Proof using H postings_ok.
  unfold make_term_group, occurs. destruct ss as [|s [|s2 ss]].
  - rewrite eval_Or. setoid_rewrite elem_of_nil. cbn. split; [intros (? & [] & _)%id|]; naive_solver.
  - cbn. split; [intros Hx; exists s; split; [apply list_elem_of_here|done]|].
    intros (s' & Hs & Hx). by apply list_elem_of_singleton in Hs as ->.
  - rewrite eval_Or. split.
    + intros (node & Hin & Hx). apply list_elem_of_fmap in Hin as (s' & -> & Hs). exists s'. split; [done|].
      destruct n; exact Hx.
    + intros (s' & Hs & Hx). exists (Term (t ++ s') span). split.
      * by apply (list_elem_of_fmap_2 (fun s => Term (t ++ s) span)).
      * destruct n; exact Hx.
Qed.

(** All the terms occur. *)
Definition all_occur (ss : list bytes) (tokens : list QueryTerm) (x : Z) : Prop :=
  forall t, t ∈ tokens -> occurs ss (qt_term t) x.

(** The index holds a bigram of two terms in a stream only where it holds both terms; a stream's
    name is one character. *)
Definition bigrams_sound : Prop :=
  forall a b s x, length s = 1 -> x ∈ postings ((a ++ [BIGRAM_SEP] ++ b) ++ s) -> x ∈ postings (a ++ s) /\ x ∈ postings (b ++ s).

Lemma pairs2_cover {A} (a b : A) l x : x ∈ a :: b :: l -> exists p, p ∈ pairs2 (a :: b :: l) /\ (p.1 = x \/ p.2 = x).
Proof.
  revert a b. induction l as [|c l IH]; intros a b Hx.
  - exists (a, b). split; [apply list_elem_of_here|]. rewrite !elem_of_cons, elem_of_nil in Hx. naive_solver.
  - apply elem_of_cons in Hx as [->|Hx]; [exists (a, b); split; [apply list_elem_of_here|by left]|].
    destruct (IH b c Hx) as (p & Hp & Hpx). exists p. split; [by apply list_elem_of_further|done].
Qed.

Lemma pairs2_elem {A} (l : list A) p : p ∈ pairs2 l -> p.1 ∈ l /\ p.2 ∈ l.
Proof.
  induction l as [|a [|b l] IH]; cbn; intros Hp; try by apply elem_of_nil in Hp.
  apply elem_of_cons in Hp as [->|Hp]; [split; [apply list_elem_of_here|apply list_elem_of_further, list_elem_of_here]|].
  destruct (IH Hp). split; by apply list_elem_of_further.
Qed.

(** The bigram arm of a query whose terms search the same streams adds nothing. *)
Lemma bigram_arm_redundant n ss tokens node x :
  bigrams_sound -> Forall (fun s => length s = 1) ss -> Forall (fun t => qt_streams t = ss) tokens ->
  build_bigram_query tokens = Some node -> x ∈ eval (S (S n)) node -> all_occur ss tokens x.
Proof using H postings_ok.
  intros Hbi H1 Hss Hb Hx. unfold build_bigram_query in Hb. destruct (length tokens <? 2) eqn:El; [done|].
  apply Nat.ltb_ge in El. rewrite Forall_forall in Hss.
  assert (Hgroups : forall g, g ∈ bigram_groups tokens -> x ∈ eval (S n) g \/ x ∈ eval (S (S n)) g).
  { destruct (bigram_groups tokens) as [|g [|g2 gs]]; [done| |]; injection Hb as <-.
    - intros g' Hg. apply list_elem_of_singleton in Hg as ->. by right.
    - intros g' Hg. left. apply eval_And in Hx as [_ Hall]. by apply Hall. }
  intros t Ht. destruct tokens as [|t1 [|t2 tokens]]; [done|cbn in El; lia|].
  destruct (pairs2_cover t1 t2 tokens t Ht) as (p & Hp & Hpt).
  destruct (pairs2_elem _ _ Hp) as [Hp1 Hp2].
  assert (Hg : make_term_group (qt_term p.1 ++ [BIGRAM_SEP] ++ qt_term p.2) (qt_streams p.1) 2
    ∈ bigram_groups (t1 :: t2 :: tokens)).
  { apply (list_elem_of_fmap_2 (fun w : QueryTerm * QueryTerm =>
      make_term_group (qt_term w.1 ++ [BIGRAM_SEP] ++ qt_term w.2) (qt_streams w.1) 2)).
    apply list_elem_of_filter. split; [|done]. by rewrite !Hss. }
  apply Hgroups in Hg. rewrite !eval_term_group, (Hss _ Hp1) in Hg.
  assert (Hocc : occurs ss (qt_term p.1 ++ [BIGRAM_SEP] ++ qt_term p.2) x) by tauto.
  destruct Hocc as (s & Hs & Hxs). rewrite Forall_forall in H1. apply (Hbi _ _ _ _ (H1 s Hs)) in Hxs as [Ha Hb'].
  exists s. split; [done|]. destruct Hpt as [<-|<-]; done.
Qed.

Lemma implicit_default_meaning n ss tokens node x :
  bigrams_sound -> Forall (fun s => length s = 1) ss -> Forall (fun t => qt_streams t = ss) tokens ->
  build_implicit_expression tokens ModeDefault = Some node ->
  x ∈ eval (S (S (S n))) node <-> all_occur ss tokens x.
Proof using H postings_ok.
  intros Hbi H1 Hss Hb. cbn [build_implicit_expression] in Hb.
  set (groups := map (fun t => make_query_term_group t 1) tokens) in *.
  assert (Hgroup : forall k t, t ∈ tokens -> x ∈ eval (S k) (make_query_term_group t 1) <-> occurs ss (qt_term t) x).
  { intros k t Ht. rewrite Forall_forall in Hss. rewrite <- (Hss t Ht). apply eval_term_group. }
  assert (Hbase : forall k base, (match groups with [n] => n | _ => And groups end) = base -> groups <> [] ->
    x ∈ eval (S (S k)) base <-> all_occur ss tokens x).
  { intros k base <- Hne.
    assert (Hand : x ∈ eval (S (S k)) (And groups) <-> all_occur ss tokens x).
    { rewrite eval_And. split.
      - intros [_ Hall] t Ht. apply (Hgroup k t Ht), Hall. by apply (list_elem_of_fmap_2 (fun t => make_query_term_group t 1)).
      - intros Hall. split; [done|]. intros g Hg. apply list_elem_of_fmap in Hg as (t & -> & Ht).
        apply (Hgroup k t Ht). by apply Hall. }
    destruct groups as [|g [|g2 gs]] eqn:Eg; [done| |exact Hand].
    destruct tokens as [|t [|t2 ts]]; [done| |done]. cbn in Eg. injection Eg as <-.
    rewrite (Hgroup (S k) t (list_elem_of_here _ _)). split.
    - intros Ho t' Ht'. by apply list_elem_of_singleton in Ht' as ->.
    - intros Hall. apply Hall, list_elem_of_here. }
  assert (Hgne : groups <> []) by (intros E; by rewrite E in Hb).
  assert (Hnode : match build_bigram_query tokens with
    | Some bigram => Some (Or [bigram; match groups with [n] => n | _ => And groups end])
    | None => Some (match groups with [n] => n | _ => And groups end) end = Some node).
  { by destruct groups as [|g [|g2 gs]]. }
  clear Hb. destruct (build_bigram_query tokens) as [bigram|] eqn:Ebi; injection Hnode as <-.
  - rewrite eval_Or. split.
    + intros (b & Hin & Hx). apply elem_of_cons in Hin as [->|Hin].
      * by eapply bigram_arm_redundant.
      * apply list_elem_of_singleton in Hin as ->. by apply (Hbase n _ eq_refl Hgne).
    + intros Hall. eexists. split; [apply list_elem_of_further, list_elem_of_here|].
      by apply (Hbase n _ eq_refl Hgne).
  - by apply (Hbase (S n) _ eq_refl Hgne).
Qed.

(** C39: in the default mode, a group of terms that search the same streams compiles to a tree that
    matches exactly the documents where every wanted term occurs and not all the unwanted terms
    do: the phrase arm only adds score, never documents. So two unwanted terms exclude only the
    documents that hold both, although the manual and the query syntax say that -term excludes
    the documents that contain the term. *)
Theorem minus_query_meaning ss positive negative node x :
  bigrams_sound -> Forall (fun s => length s = 1) ss ->
  Forall (fun t => qt_streams t = ss) positive -> Forall (fun t => qt_streams t = ss) negative ->
  build_minus_expression positive negative ModeDefault = Some node ->
  x ∈ eval 4 node <->
    all_occur ss positive x /\ (negative = [] \/ ~ all_occur ss negative x).
Proof using H postings_ok.
  intros Hbi H1 Hp Hn Hb. unfold build_minus_expression in Hb. destruct negative as [|t ts].
  - rewrite (implicit_default_meaning 1 ss positive node x Hbi H1 Hp Hb). tauto.
  - destruct positive as [|p ps]; [done|].
    destruct (build_implicit_expression (p :: ps) ModeDefault) as [b|] eqn:Eb; [|done].
    destruct (build_implicit_expression (t :: ts) ModeDefault) as [e|] eqn:Ee; [|done]. injection Hb as <-.
    rewrite eval_Not, (implicit_default_meaning 0 ss _ b x Hbi H1 Hp Eb), (implicit_default_meaning 0 ss _ e x Hbi H1 Hn Ee).
    split; [tauto|]. intros [? [?|?]]; [done|tauto].
Qed.

(** C40: with terms in different fields the phrase arm does add documents: for the wanted terms
    [a] and [b] in one field and [c] in another, a document with the phrase "a b" matches even
    when [c] occurs in it nowhere, so not every wanted term occurs. *)
Theorem mixed_fields_drop_a_term a b c x :
  let term t s := {| qt_term := t; qt_streams := [s] |} in
  x ∈ postings ((a ++ [BIGRAM_SEP] ++ b) ++ [chr "T"]) -> (forall s, x ∉ postings (c ++ s)) ->
  exists node,
    build_minus_expression [term a [chr "T"]; term b [chr "T"]; term c [chr "B"]] [] ModeDefault = Some node /\
    x ∈ eval 4 node /\ ~ occurs [[chr "B"]] c x.
Proof using H postings_ok.
  intros term Hx Hc. eexists. split; [reflexivity|]. split.
  - rewrite eval_Or. eexists. split; [apply list_elem_of_here|]. exact Hx.
  - intros (s & Hs & Hin). apply list_elem_of_singleton in Hs as ->. exact (Hc _ Hin).
Qed.
End meaning.

(** * Witnesses *)

(** Documents 1 and 2 hold "a" and "b" in the title, 1 as a phrase; 2 holds "c" too. *)
Definition phrase_postings (key : bytes) : list Z :=
  if decide (key = of_string "aT") then [1; 2]%Z
  else if decide (key = of_string "bT") then [1; 2]%Z
  else if decide (key = of_string "cT") then [2]%Z
  else if decide (key = ([97; BIGRAM_SEP; 98; chr "T"])%Z) then [1]%Z
  else [].

Lemma phrase_postings_ok key : docs_ok (phrase_postings key).
Proof. unfold phrase_postings. repeat case_decide; by apply docs_ok_compute. Qed.

Definition title_term (c : Z) : QueryTerm := {| qt_term := [c]; qt_streams := [[chr "T"]] |}.

Lemma phrase_bigrams_sound : bigrams_sound phrase_postings.
Proof.
  intros a b s x Hs Hx. destruct s as [|c [|]]; [done| |done].
  unfold phrase_postings in Hx at 1.
  assert (Hsep : BIGRAM_SEP ∈ (a ++ [BIGRAM_SEP] ++ b) ++ [c]) by set_solver.
  assert (Hne : forall k, BIGRAM_SEP ∉ k -> (a ++ [BIGRAM_SEP] ++ b) ++ [c] <> k) by (intros k Hk E; by rewrite E in Hsep).
  rewrite !decide_False in Hx by (apply Hne, (bool_decide_unpack _); by vm_compute).
  case_decide as E; [|by apply elem_of_nil in Hx].
  apply (app_inj_tail _ [97; BIGRAM_SEP; 98]%Z) in E as [E ->].
  assert (a = [97]%Z /\ b = [98]%Z) as [-> ->].
  { destruct a as [|a1 [|a2 [|a3 a]]]; cbn in E; injection E; intros; subst; try done.
    by destruct a. }
  apply list_elem_of_singleton in Hx as ->. split; apply (bool_decide_unpack _); by vm_compute.
Qed.

Lemma minus_query_meaning_witness :
  exists node, build_minus_expression [title_term 97; title_term 98] [title_term 99] ModeDefault = Some node /\
    1%Z ∈ @eval (list Z) sample_leaves phrase_postings 4 node /\
    2%Z ∉ @eval (list Z) sample_leaves phrase_postings 4 node.
Proof.
  eexists. split; [reflexivity|].
  pose proof (fun x => @minus_query_meaning (list Z) sample_leaves phrase_postings phrase_postings_ok [[chr "T"]]
    [title_term 97; title_term 98] [title_term 99] _ x phrase_bigrams_sound ltac:(by repeat constructor)
    ltac:(by repeat constructor) ltac:(by repeat constructor) eq_refl) as Hm.
  assert (Hocc : forall ts x, all_occur phrase_postings [[chr "T"]] ts x <->
    Forall (fun t => x ∈ phrase_postings (qt_term t ++ [chr "T"])) ts).
  { intros ts x. rewrite Forall_forall. split; intros Hall t Ht.
    - destruct (Hall t Ht) as (s & Hs & Hx). by apply list_elem_of_singleton in Hs as ->.
    - exists [chr "T"]. split; [apply list_elem_of_here|]. by apply Hall. }
  split; rewrite Hm, !Hocc; apply (bool_decide_unpack _); by vm_compute.
Defined.

Lemma mixed_fields_drop_a_term_witness :
  exists node,
    build_minus_expression [title_term 97; title_term 98; {| qt_term := [100]%Z; qt_streams := [[chr "B"]] |}] []
      ModeDefault = Some node /\
    1%Z ∈ @eval (list Z) sample_leaves phrase_postings 4 node.
Proof.
  destruct (@mixed_fields_drop_a_term (list Z) sample_leaves phrase_postings phrase_postings_ok [97]%Z [98]%Z [100]%Z 1%Z)
    as (node & Hb & Hx & _).
  - apply (bool_decide_unpack _); by vm_compute.
  - intros s. unfold phrase_postings. repeat case_decide; simplify_eq/=; apply not_elem_of_nil.
  - exists node. split; [exact Hb|exact Hx].
Defined.
