(* ===== verification/IndexBuilder.v ===== *)
(** IndexSerializer::BuildBlocks (IndexSerializer.rs): from the posting store to
    posting pages, leaf pages and head entries, with the proof that the built
    index gives every term's postings back. *)

From Stdlib Require Import ZArith Lia ZifyBool Bool List.
From stdpp Require Import base list list_numbers gmap sorting.
From S2P Require Import Prelude Floats PostingCodec PostingStore Hashing FileFormat Mphf TermDictionary IndexReader AdvancedReader.

Local Open Scope moon_scope.

(** * Posting pages: the locals [IndexBlocks], [cur], [wptr] and [seq] *)

Record PageWriter := {
  pw_IndexBlocks : list bytes;
  pw_cur : bytes;
  pw_wptr : nat;
  pw_seq : Z;
}.

Definition pages_start : PageWriter :=
  {| pw_IndexBlocks := []; pw_cur := zeros PAGE_SIZE; pw_wptr := 0; pw_seq := 0 |}.

Definition flush_index_block (w : PageWriter) : PageWriter :=
  {| pw_IndexBlocks := pw_IndexBlocks w ++ [pw_cur w]; pw_cur := zeros PAGE_SIZE; pw_wptr := 0;
     pw_seq := wrapping_add 32 (pw_seq w) 1 |}.

(** [cur[wptr..wptr + n].copy_from_slice(chunk); wptr += n]. *)
Definition copy_chunk (w : PageWriter) (chunk : bytes) : PageWriter :=
  {| pw_IndexBlocks := pw_IndexBlocks w; pw_cur := splice (pw_wptr w) chunk (pw_cur w);
     pw_wptr := pw_wptr w + length chunk; pw_seq := pw_seq w |}.

(** The header and the data of one continuation page. *)
Definition write_continuation (w : PageWriter) (chunk : bytes) : PageWriter :=
  let header := {| IBCH_MaxDocID := MaxDocIDInPairs chunk; IBCH_DataLength := wrap 32 (Z.of_nat (length chunk)) |} in
  let w := copy_chunk w (continuation_write_to header
             (slice (pw_wptr w) INDEX_BLOCK_CONTINUATION_HEADER_SIZE (pw_cur w))) in
  copy_chunk w chunk.

(** [while remaining > 0]: [rest] is [bytes[src..]], of length [remaining]. *)
Fixpoint continuation_loop (fuel : nat) (w : PageWriter) (rest : bytes) (count : Z) : PageWriter * Z :=
  match fuel with
  | O => (w, count)
  | S fuel' =>
      if length rest =? 0 then (w, count)
      else
        let cont_here := PostingPrefixBytes rest (PAGE_SIZE - INDEX_BLOCK_CONTINUATION_HEADER_SIZE) in
        if cont_here =? 0 then (w, count)
        else
          let more_cont := cont_here <? length rest in
          let w := write_continuation w (take cont_here rest) in
          let w := if more_cont then flush_index_block w else w in
          continuation_loop fuel' w (drop cont_here rest) (wrapping_add 32 count 1)
  end.

Record Placed := { pl_id : Z; pl_offset : nat; pl_length : nat; pl_continuations : Z }.

(** The pages of one posting list; [None]: not even one pair fits a page. *)
Definition write_posting (w : PageWriter) (data : bytes) : PageWriter * option Placed :=
  let w := if PAGE_SIZE <=? pw_wptr w then flush_index_block w else w in
  let data_here := PostingPrefixBytes data (PAGE_SIZE - pw_wptr w) in
  let '(w, data_here) :=
    if data_here =? 0 then (flush_index_block w, PostingPrefixBytes data PAGE_SIZE) else (w, data_here) in
  if data_here =? 0 then (w, None)
  else
    let index_block_id := pw_seq w in
    let data_offset := pw_wptr w in
    let w := copy_chunk w (take data_here data) in
    let rest := drop data_here data in
    let '(w, count) :=
      if length rest =? 0 then (w, 0%Z)
      else continuation_loop (S (length rest)) (flush_index_block w) rest 0 in
    (w, Some {| pl_id := index_block_id; pl_offset := data_offset; pl_length := data_here;
                pl_continuations := count |}).

(** * Leaf pages and head entries *)

Record LeafWriter := {
  lw_leaf_blocks : list LeafTermBlock;
  lw_head_entries : list HeadTermEntry;
  lw_leaf_block : LeafTermBlock;
  lw_leaf_write_offset : nat;
  lw_leaf_entry_count : nat;
  lw_first_leaf_term : str;
  lw_total_terms : Z;
}.

Definition leaves_start : LeafWriter :=
  {| lw_leaf_blocks := []; lw_head_entries := []; lw_leaf_block := leaf_default; lw_leaf_write_offset := 0;
     lw_leaf_entry_count := 0; lw_first_leaf_term := []; lw_total_terms := 0 |}.

(** [None]: HeadTermEntry::new panics. *)
Definition flush_leaf_block (l : LeafWriter) : option LeafWriter :=
  if lw_leaf_entry_count l =? 0 then Some l
  else
    let b := lw_leaf_block l in
    let b := {| LTB_Directory := <[LEAF_TERM_DIRECTORY_COUNT - 1 := wrap 16 (Z.of_nat (lw_leaf_entry_count l))]>
                                   (LTB_Directory b);
                LTB_Data := LTB_Data b |} in
    opt h := head_new (lw_first_leaf_term l) (wrap 32 (Z.of_nat (length (lw_leaf_blocks l)))) in
    Some {| lw_leaf_blocks := lw_leaf_blocks l ++ [b]; lw_head_entries := lw_head_entries l ++ [h];
            lw_leaf_block := leaf_default; lw_leaf_write_offset := 0; lw_leaf_entry_count := 0;
            lw_first_leaf_term := []; lw_total_terms := lw_total_terms l |}.

Definition leaf_is_full (l : LeafWriter) (entry_bytes : nat) : bool :=
  (0 <? lw_leaf_entry_count l)
  && ((LEAF_TERM_DIRECTORY_COUNT - 1 <=? lw_leaf_entry_count l)
      || (PAGE_SIZE - LEAF_TERM_DATA_OFFSET <? lw_leaf_write_offset l + entry_bytes)).

Definition add_leaf_entry (l : LeafWriter) (e : LeafTermEntry) : option LeafWriter :=
  let entry_bytes := byte_len e in
  opt l := (if leaf_is_full l entry_bytes then flush_leaf_block l else Some l) in
  Some {| lw_leaf_blocks := lw_leaf_blocks l; lw_head_entries := lw_head_entries l;
          lw_leaf_block := WriteLeafEntry (lw_leaf_block l) (lw_leaf_entry_count l) (lw_leaf_write_offset l) e;
          lw_leaf_write_offset := lw_leaf_write_offset l + entry_bytes;
          lw_leaf_entry_count := lw_leaf_entry_count l + 1;
          lw_first_leaf_term := if lw_leaf_entry_count l =? 0 then LTE_Term e else lw_first_leaf_term l;
          lw_total_terms := wrapping_add 64 (lw_total_terms l) 1 |}.

(** * The whole build *)

Definition leaf_entry_of (term : str) (pl : PostingList) (p : Placed) : LeafTermEntry :=
  {| LTE_Term := term; LTE_DocFreq := doc_freq pl; LTE_IndexBlockID := pl_id p;
     LTE_IndexOffset := wrap 16 (Z.of_nat (pl_offset p)); LTE_IndexLength := wrap 16 (Z.of_nat (pl_length p));
     LTE_ContinuationBlockCount := wrap 16 (pl_continuations p); LTE_Flags := 0;
     LTE_TermLength := wrap 8 (Z.of_nat (length term)) |}.

(** The body of the loop over the terms. *)
Definition build_one `{Libm} (st : PageWriter * LeafWriter) (t : str * PostingList)
  : option (PageWriter * LeafWriter) :=
  if HEAD_TERM_KEY_MAX <? length t.1 then Some st
  else
    let data := get_bytes t.2 in
    if length data =? 0 then Some st
    else
      let '(w, placed) := write_posting st.1 data in
      match placed with
      | None => Some (w, st.2)
      | Some p => opt l := add_leaf_entry st.2 (leaf_entry_of t.1 t.2 p) in Some (w, l)
      end.

Record BuildBlocksResult := {
  BBR_IndexBlocks : list bytes;
  BBR_HeadTermEntries : list HeadTermEntry;
  BBR_LeafTermBlocks : list LeafTermBlock;
  BBR_TermMphfHeader : TermMphfHeader;
  BBR_TermMphfDisplacements : list Z;
  BBR_TermMphfEntryPages : list bytes;
  BBR_TotalTerms : Z;
}.

(** [terms.sort_by_key]: the keys are distinct, so the order in which the hash
    map gives its entries does not matter. *)
Definition sorted_terms (store : PostingStore) : list (str * PostingList) :=
  stable_sort (fun a b => str_leb a.1 b.1) (map_to_list (m_Postings store)).

Definition BuildBlocks `{Libm} (store : PostingStore) : option BuildBlocksResult :=
  opt st := fold_option build_one (sorted_terms store) (pages_start, leaves_start) in
  let w := if 0 <? pw_wptr st.1 then flush_index_block st.1 else st.1 in
  opt l := flush_leaf_block st.2 in
  Some {| BBR_IndexBlocks := pw_IndexBlocks w; BBR_HeadTermEntries := lw_head_entries l;
          BBR_LeafTermBlocks := lw_leaf_blocks l; BBR_TermMphfHeader := mphf_header_zeroed;
          BBR_TermMphfDisplacements := []; BBR_TermMphfEntryPages := [];
          BBR_TotalTerms := lw_total_terms l |}.

(** * What the page writer has written

    The pages so far and the written part of the current one are one byte string
    that only grows at its end. *)

Definition page_out (w : PageWriter) : bytes := concat (pw_IndexBlocks w) ++ take (pw_wptr w) (pw_cur w).

Definition pages_ok (w : PageWriter) : Prop :=
  Forall (fun p => length p = PAGE_SIZE) (pw_IndexBlocks w) /\ length (pw_cur w) = PAGE_SIZE /\
  pw_wptr w <= PAGE_SIZE /\ pw_seq w = wrap 32 (Z.of_nat (length (pw_IndexBlocks w))).

(** The bytes [chunk] lie at offset [off] of page [i]. *)
Definition at_page (out : bytes) (i off : nat) (chunk : bytes) : Prop :=
  off + length chunk <= PAGE_SIZE /\ i * PAGE_SIZE + off + length chunk <= length out /\
  slice (i * PAGE_SIZE + off) (length chunk) out = chunk.

Section pages.
Lemma length_concat_pages (l : list bytes) :
  Forall (fun p => length p = PAGE_SIZE) l -> length (concat l) = length l * PAGE_SIZE.
Proof. induction 1 as [|p l Hp _ IH]; cbn [concat length]; [done|]. rewrite length_app, Hp, IH. lia. Qed.

Lemma length_page_out w :
  pages_ok w -> length (page_out w) = length (pw_IndexBlocks w) * PAGE_SIZE + pw_wptr w.
Proof.
  intros (Hb & Hc & Hp & _). unfold page_out. rewrite length_app, length_concat_pages by done.
  rewrite length_take. lia.
Qed.

Lemma at_page_mono out out' i off chunk : out `prefix_of` out' -> at_page out i off chunk -> at_page out' i off chunk.
Proof.
  intros [rest ->] (H1 & H2 & H3). split; [done|]. split; [len_lia|].
  by rewrite slice_app_l by lia.
Qed.

Lemma pages_start_ok : pages_ok pages_start.
Proof.
  split_and!; [constructor|apply length_replicate|cbn; lia|by rewrite wrap_small].
Qed.

Lemma flush_index_block_ok w :
  pages_ok w -> pages_ok (flush_index_block w) /\ page_out w `prefix_of` page_out (flush_index_block w).
Proof.
  intros (Hb & Hc & Hp & Hs). split.
  - split_and!; cbn; [by apply Forall_app_2; [|constructor]|apply length_replicate|lia|].
    rewrite Hs, length_app. unfold wrapping_add, wrap. cbn [length]. rewrite Nat2Z.inj_add.
    by rewrite Zplus_mod_idemp_l.
  - exists (drop (pw_wptr w) (pw_cur w)). unfold page_out. cbn. rewrite concat_app. cbn [concat].
    change (take 0 (zeros PAGE_SIZE)) with (@nil Z). rewrite !app_nil_r, <- app_assoc. by rewrite take_drop.
Qed.

Lemma copy_chunk_ok w chunk :
  pages_ok w -> pw_wptr w + length chunk <= PAGE_SIZE ->
  pages_ok (copy_chunk w chunk) /\ page_out (copy_chunk w chunk) = page_out w ++ chunk.
Proof.
  intros (Hb & Hc & Hp & Hs) Hfit. split.
  - split_and!; cbn; [done|by rewrite length_splice by lia|lia|done].
  - unfold page_out. cbn. rewrite <- app_assoc. f_equal. unfold splice.
    rewrite app_assoc, take_app_le by len_lia. apply firstn_all2. len_lia.
Qed.

(** A chunk lies where the writer stood. *)
Lemma copy_chunk_at w chunk :
  pages_ok w -> pw_wptr w + length chunk <= PAGE_SIZE ->
  at_page (page_out (copy_chunk w chunk)) (length (pw_IndexBlocks w)) (pw_wptr w) chunk.
Proof.
  intros Hok Hfit. destruct (copy_chunk_ok w chunk Hok Hfit) as [_ ->].
  pose proof (length_page_out w Hok) as Hl. split; [done|]. split; [rewrite length_app; lia|].
  rewrite <- Hl. unfold slice. rewrite drop_app_length. apply firstn_all.
Qed.
Lemma wrapping_succ n : wrapping_add 32 (wrap 32 (Z.of_nat n)) 1 = wrap 32 (Z.of_nat (n + 1)).
Proof. unfold wrapping_add, wrap. by rewrite Nat2Z.inj_add, Zplus_mod_idemp_l. Qed.

(** * The pages of one posting list *)

(** A continuation page's header and data. *)
Definition cont_bytes (qs : list (Z * Z)) : bytes :=
  le_bytes 8 (last_doc qs) ++ le_bytes 4 (Z.of_nat (length (enc_pairs qs))) ++ enc_pairs qs.

Lemma length_cont_bytes qs : length (cont_bytes qs) = INDEX_BLOCK_CONTINUATION_HEADER_SIZE + length (enc_pairs qs).
Proof. unfold cont_bytes. by rewrite !length_app, !length_le_bytes. Qed.

Lemma continuation_write_bytes h data :
  length data = INDEX_BLOCK_CONTINUATION_HEADER_SIZE ->
  continuation_write_to h data = le_bytes 8 (IBCH_MaxDocID h) ++ le_bytes 4 (IBCH_DataLength h).
Proof.
  intros Hd. unfold INDEX_BLOCK_CONTINUATION_HEADER_SIZE in Hd. unfold continuation_write_to, put.
  rewrite (splice_splice 0 8) by len_lia. unfold splice. rewrite take_0, drop_ge by len_lia. by rewrite app_nil_r.
Qed.

Lemma at_page_end w chunk :
  pages_ok w -> pw_wptr w + length chunk <= PAGE_SIZE ->
  at_page (page_out w ++ chunk) (length (pw_IndexBlocks w)) (pw_wptr w) chunk.
Proof.
  intros Hok Hfit. destruct (copy_chunk_ok w chunk Hok Hfit) as [_ <-]. by apply copy_chunk_at.
Qed.

Lemma write_continuation_ok w qs :
  pages_ok w -> pw_wptr w = 0 -> Forall wf_pair qs ->
  length (enc_pairs qs) <= PAGE_SIZE - INDEX_BLOCK_CONTINUATION_HEADER_SIZE ->
  pages_ok (write_continuation w (enc_pairs qs)) /\
  page_out (write_continuation w (enc_pairs qs)) = page_out w ++ cont_bytes qs.
Proof.
  intros Hok H0 Hwf Hfit. pose proof PAGE_SIZE_Z as HP. pose proof Hok as (_ & Hc & _).
  unfold write_continuation. rewrite MaxDocIDInPairs_pairs, wrap_small by (done || (unfold in_u, INDEX_BLOCK_CONTINUATION_HEADER_SIZE in *; lia)).
  unfold INDEX_BLOCK_CONTINUATION_HEADER_SIZE in *.
  rewrite continuation_write_bytes by (rewrite length_slice; [done|lia]). cbn [IBCH_MaxDocID IBCH_DataLength].
  set (hd := le_bytes 8 _ ++ le_bytes 4 _).
  assert (Hh : length hd = 12) by (unfold hd; by rewrite length_app, !length_le_bytes).
  destruct (copy_chunk_ok w hd Hok ltac:(lia)) as [Hok1 Ho1].
  destruct (copy_chunk_ok (copy_chunk w hd) (enc_pairs qs) Hok1) as [Hok2 Ho2]; [cbn; lia|].
  split; [done|]. rewrite Ho2, Ho1. unfold cont_bytes, hd. by rewrite <- !app_assoc.
Qed.

(** The continuation pages from page [i] on hold [pss]. *)
Definition conts_at (out : bytes) (i : nat) (pss : list (list (Z * Z))) : Prop :=
  forall k ps, pss !! k = Some ps -> ps <> [] /\ at_page out (i + k) 0 (cont_bytes ps).

(** Every continuation page but the last is nearly full. *)
Definition few_pages (pss : list (list (Z * Z))) : Prop :=
  (Z.of_nat (length pss) * 4074 <= Z.of_nat (length (enc_pairs (concat pss))) + 4073)%Z.

Lemma few_pages_cons ps pss : 4074 <= length (enc_pairs ps) -> few_pages pss -> few_pages (ps :: pss).
Proof. unfold few_pages. cbn [concat length]. rewrite enc_pairs_app, length_app. lia. Qed.

Lemma fit_fills qs cap :
  fit cap qs < length qs -> cap < length (enc_pairs (take (fit cap qs) qs)) + 11.
Proof.
  intros Hlt. pose proof (fit_longest qs cap) as (_ & _ & Hmax). specialize (Hmax Hlt).
  destruct (lookup_lt_is_Some_2 qs _ Hlt) as [q Hq]. rewrite (take_S_r _ _ q Hq), enc_pairs_app, length_app in Hmax.
  pose proof (length_enc_pair_max q) as Hm. rewrite length_enc_pairs_cons in Hmax. cbn [enc_pairs map concat length] in Hmax. lia.
Qed.

Lemma enc_pairs_nil_iff qs : Forall wf_pair qs -> length (enc_pairs qs) = 0 -> qs = [].
Proof. intros Hwf Hl. pose proof (length_enc_pairs qs Hwf). destruct qs; [done|]. cbn in *. lia. Qed.

Lemma enc_pairs_cut k qs :
  take (length (enc_pairs (take k qs))) (enc_pairs qs) = enc_pairs (take k qs) /\
  drop (length (enc_pairs (take k qs))) (enc_pairs qs) = enc_pairs (drop k qs).
Proof.
  assert (H : enc_pairs qs = enc_pairs (take k qs) ++ enc_pairs (drop k qs)) by by rewrite <- enc_pairs_app, take_drop.
  rewrite H. by rewrite take_app_length, drop_app_length.
Qed.

Lemma continuation_loop_nil fuel w count : continuation_loop fuel w [] count = (w, count).
Proof. by destruct fuel. Qed.

Lemma continuation_loop_ok fuel : forall w qs n,
  pages_ok w -> pw_wptr w = 0 -> Forall wf_pair qs -> length (enc_pairs qs) < fuel ->
  exists w' pss, continuation_loop fuel w (enc_pairs qs) (wrap 32 (Z.of_nat n)) = (w', wrap 32 (Z.of_nat (n + length pss))) /\
    pages_ok w' /\ page_out w `prefix_of` page_out w' /\ concat pss = qs /\
    conts_at (page_out w') (length (pw_IndexBlocks w)) pss /\ few_pages pss.
Proof.
  induction fuel as [|fuel IH]; intros w qs n Hok H0 Hwf Hf; [lia|]. cbn [continuation_loop].
  pose proof PAGE_SIZE_Z as HP.
  destruct (length (enc_pairs qs) =? 0) eqn:E0; bool_to_prop.
  { exists w, []. rewrite Nat.add_0_r. split_and!; try done. by rewrite (enc_pairs_nil_iff qs). }
  set (cap := PAGE_SIZE - INDEX_BLOCK_CONTINUATION_HEADER_SIZE).
  assert (Hk : 1 <= fit cap qs) by (destruct qs; [done|]; apply fit_pos; unfold cap, INDEX_BLOCK_CONTINUATION_HEADER_SIZE; lia).
  rewrite PostingPrefixBytes_fit by done. pose proof (fit_longest qs cap) as (Hk1 & Hcap & _).
  pose proof (fit_fills qs cap) as Hfull. set (k := fit cap qs) in *. clearbody k.
  assert (Hwt : Forall wf_pair (take k qs)) by by apply Forall_take.
  assert (Hwd : Forall wf_pair (drop k qs)) by by apply Forall_drop.
  assert (Hne : take k qs <> []) by (destruct k, qs; done || lia).
  pose proof (enc_pairs_cut k qs) as [Ht Hd]. rewrite Ht, Hd.
  assert (Hpos : length (enc_pairs (take k qs)) <> 0) by (intros Hz; by apply enc_pairs_nil_iff in Hz).
  apply Nat.eqb_neq in Hpos. rewrite Hpos. apply Nat.eqb_neq in Hpos.
  destruct (write_continuation_ok w (take k qs) Hok H0 Hwt Hcap) as [Hok1 Ho1].
  set (w1 := write_continuation w (enc_pairs (take k qs))) in *.
  assert (Hat : at_page (page_out w1) (length (pw_IndexBlocks w)) 0 (cont_bytes (take k qs))).
  { rewrite Ho1. rewrite <- H0. apply at_page_end; [done|].
    rewrite length_cont_bytes, H0. unfold cap in Hcap. unfold INDEX_BLOCK_CONTINUATION_HEADER_SIZE in *. lia. }
  rewrite wrapping_succ.
  assert (Hlen : length (enc_pairs qs) = length (enc_pairs (take k qs)) + length (enc_pairs (drop k qs)))
    by by rewrite <- length_app, <- enc_pairs_app, take_drop.
  destruct (_ <? _) eqn:Emore; bool_to_prop.
  - destruct (flush_index_block_ok w1 Hok1) as [Hok2 Ho2].
    destruct (IH (flush_index_block w1) (drop k qs) (n + 1) Hok2 eq_refl Hwd ltac:(lia))
      as (w' & pss & -> & Hok' & Hpre & Hcat & Hconts & Hfew).
    exists w', (take k qs :: pss). split; [do 3 f_equal; cbn; lia|]. split; [done|]. split.
    { etrans; [|exact Hpre]. etrans; [|exact Ho2]. rewrite Ho1. by apply prefix_app_r. }
    split; [cbn; by rewrite Hcat, take_drop|]. split.
    2:{ apply few_pages_cons; [|done]. destruct (decide (k < length qs)).
        - unfold cap, INDEX_BLOCK_CONTINUATION_HEADER_SIZE in Hfull. lia.
        - rewrite (take_ge qs k) in Emore by lia. lia. }
    intros [|j] ps Hj; cbn in Hj.
    + injection Hj as <-. rewrite Nat.add_0_r. split; [done|]. eapply at_page_mono; [|exact Hat]. by etrans.
    + destruct (Hconts j ps Hj) as [Hps Hp]. split; [done|].
      replace (length (pw_IndexBlocks w) + S j) with (length (pw_IndexBlocks (flush_index_block w1)) + j); [done|].
      cbn. rewrite length_app. cbn. lia.
  - assert (Hdn : drop k qs = []) by (apply enc_pairs_nil_iff; [done|lia]).
    rewrite Hdn. change (enc_pairs []) with (@nil Z). rewrite continuation_loop_nil.
    exists w1, [take k qs]. split; [done|]. split; [done|]. split; [rewrite Ho1; by apply prefix_app_r|].
    split; [cbn; rewrite app_nil_r; rewrite <- (take_drop k qs) at 2; by rewrite Hdn, app_nil_r|]. split.
    2:{ unfold few_pages. cbn [concat length]. rewrite app_nil_r. lia. }
    intros [|j] ps Hj; [|done]. injection Hj as <-. rewrite Nat.add_0_r. by split.
Qed.
(** The pages [out] hold the posting list [qs] where [p] says: its first run [ps], then the
    continuation pages [pss]. *)
Definition placed_at (out : bytes) (p : Placed) (qs ps : list (Z * Z)) (pss : list (list (Z * Z))) : Prop :=
  exists i, qs = ps ++ concat pss /\ pl_id p = wrap 32 (Z.of_nat i) /\ pl_length p = length (enc_pairs ps) /\
    pl_continuations p = wrap 32 (Z.of_nat (length pss)) /\
    at_page out i (pl_offset p) (enc_pairs ps) /\ conts_at out (i + 1) pss /\ few_pages pss.

Lemma placed_at_mono out out' p qs ps pss :
  out `prefix_of` out' -> placed_at out p qs ps pss -> placed_at out' p qs ps pss.
Proof.
  intros Hpre (i & H1 & H2 & H3 & H4 & Hat & Hconts & Hfew). exists i. split_and!; try done.
  - by eapply at_page_mono.
  - intros k qs' Hk. destruct (Hconts k qs' Hk) as [Hne Hp]. split; [done|by eapply at_page_mono].
Qed.

(** From a page that has room for [k] pairs on. *)
Lemma place_pairs_ok w qs k :
  pages_ok w -> Forall wf_pair qs -> pw_wptr w + length (enc_pairs (take k qs)) <= PAGE_SIZE ->
  exists w' p pss,
    (let w1 := copy_chunk w (enc_pairs (take k qs)) in
     let '(w2, count) :=
       if length (enc_pairs (drop k qs)) =? 0 then (w1, 0%Z)
       else continuation_loop (S (length (enc_pairs (drop k qs)))) (flush_index_block w1) (enc_pairs (drop k qs)) 0 in
     (w2, Some {| pl_id := pw_seq w; pl_offset := pw_wptr w; pl_length := length (enc_pairs (take k qs));
                  pl_continuations := count |})) = (w', Some p) /\
    pages_ok w' /\ page_out w `prefix_of` page_out w' /\ placed_at (page_out w') p qs (take k qs) pss.
Proof.
  intros Hok Hwf Hfit. cbv zeta. destruct (copy_chunk_ok w _ Hok Hfit) as [Hok1 Ho1].
  pose proof (copy_chunk_at w _ Hok Hfit) as Hat. set (w1 := copy_chunk w _) in *.
  assert (Hpre1 : page_out w `prefix_of` page_out w1) by (rewrite Ho1; by apply prefix_app_r).
  assert (Hs : pw_seq w = wrap 32 (Z.of_nat (length (pw_IndexBlocks w)))) by apply Hok.
  assert (Hwd : Forall wf_pair (drop k qs)) by by apply Forall_drop.
  destruct (_ =? 0) eqn:E; bool_to_prop.
  - eexists _, _, []. split; [done|]. split; [done|]. split; [done|].
    exists (length (pw_IndexBlocks w)). cbn [pl_id pl_offset pl_length pl_continuations].
    split; [|by split_and!]. cbn. rewrite <- (take_drop k qs) at 1. by rewrite (enc_pairs_nil_iff (drop k qs)).
  - destruct (flush_index_block_ok w1 Hok1) as [Hok2 Ho2].
    destruct (continuation_loop_ok (S (length (enc_pairs (drop k qs)))) (flush_index_block w1) (drop k qs) 0)
      as (w' & pss & Hloop & Hok' & Hpre & Hcat & Hconts & Hfew); [done|done|done|lia|].
    change (wrap 32 (Z.of_nat 0)) with 0%Z in Hloop. rewrite Hloop.
    eexists _, _, pss. split; [done|]. split; [done|]. split; [by do 2 (etrans; [eassumption|])|].
    exists (length (pw_IndexBlocks w)). cbn [pl_id pl_offset pl_length pl_continuations].
    split; [by rewrite Hcat, take_drop|]. split_and!; try done.
    + eapply at_page_mono; [|exact Hat]. by etrans.
    + change (pw_IndexBlocks (flush_index_block w1)) with (pw_IndexBlocks w ++ [pw_cur w1]) in Hconts.
      by rewrite length_app in Hconts.
Qed.

Lemma write_posting_ok w qs :
  pages_ok w -> Forall wf_pair qs -> qs <> [] ->
  exists w' p ps pss, write_posting w (enc_pairs qs) = (w', Some p) /\ pages_ok w' /\
    page_out w `prefix_of` page_out w' /\ ps <> [] /\ placed_at (page_out w') p qs ps pss.
Proof.
  intros Hok Hwf Hne. unfold write_posting. pose proof PAGE_SIZE_Z as HP.
  set (w0 := if PAGE_SIZE <=? pw_wptr w then flush_index_block w else w).
  assert (H0 : pages_ok w0 /\ page_out w `prefix_of` page_out w0).
  { unfold w0. destruct (PAGE_SIZE <=? _); [by apply flush_index_block_ok|by split]. }
  destruct H0 as [Hok0 Hpre0]. clearbody w0. rewrite !PostingPrefixBytes_fit by done.
  set (k0 := fit (PAGE_SIZE - pw_wptr w0) qs). pose proof (fit_longest qs (PAGE_SIZE - pw_wptr w0)) as (_ & Hc0 & _).
  fold k0 in Hc0. pose proof (fit_longest qs PAGE_SIZE) as (_ & Hc1 & _).
  assert (Hk1 : 1 <= fit PAGE_SIZE qs) by (destruct qs; [done|]; apply fit_pos; lia).
  assert (Hcut : exists w1 k, pages_ok w1 /\ page_out w `prefix_of` page_out w1 /\
    (if length (enc_pairs (take k0 qs)) =? 0
     then (flush_index_block w0, length (enc_pairs (take (fit PAGE_SIZE qs) qs)))
     else (w0, length (enc_pairs (take k0 qs)))) = (w1, length (enc_pairs (take k qs))) /\
    take k qs <> [] /\ pw_wptr w1 + length (enc_pairs (take k qs)) <= PAGE_SIZE).
  { destruct (_ =? 0) eqn:E; bool_to_prop.
    - destruct (flush_index_block_ok w0 Hok0) as [Hok1 Hpre1].
      exists (flush_index_block w0), (fit PAGE_SIZE qs). split; [done|]. split; [by etrans|]. split; [done|].
      split; [|cbn; lia]. destruct (fit PAGE_SIZE qs), qs; done || lia.
    - exists w0, k0. split_and!; try done.
      + intros Hz. by rewrite Hz in E.
      + destruct Hok0 as (_ & _ & Hp & _). lia. }
  destruct Hcut as (w1 & k & Hok1 & Hpre1 & -> & Hkne & Hfit).
  pose proof (enc_pairs_cut k qs) as [-> ->].
  replace (length (enc_pairs (take k qs)) =? 0) with false.
  2:{ symmetry. apply Nat.eqb_neq. intros Hz. apply Hkne. apply enc_pairs_nil_iff; [by apply Forall_take|done]. }
  destruct (place_pairs_ok w1 qs k Hok1 Hwf Hfit) as (w' & p & pss & Heq & Hok' & Hpre & Hpl).
  exists w', p, (take k qs), pss. split; [exact Heq|]. split_and!; try done. by etrans.
Qed.
End pages.

(** * Reading the pages back *)

Section read_back.
Lemma page_of_at pages i off chunk :
  Forall (fun p => length p = PAGE_SIZE) pages -> chunk <> [] -> at_page (concat pages) i off chunk ->
  exists pre post, pages !! i = Some (pre ++ chunk ++ post) /\ length pre = off /\
    length (pre ++ chunk ++ post) = PAGE_SIZE.
Proof.
  intros Hp Hne (Hfit & Hin & Hsl). rewrite length_concat_pages in Hin by done.
  assert (Hpos : 0 < length chunk) by (destruct chunk; [done|cbn; lia]). pose proof PAGE_SIZE_Z as HP.
  assert (Hi : i < length pages) by nia.
  destruct (lookup_lt_is_Some_2 _ _ Hi) as [page Hpage].
  assert (Hlen : length page = PAGE_SIZE) by (rewrite Forall_lookup in Hp; by eapply Hp).
  assert (Hps : slice (i * PAGE_SIZE) PAGE_SIZE (concat pages) = page).
  { rewrite <- (map_id pages). apply (slice_concat id); [|done]. rewrite Forall_forall in Hp. exact Hp. }
  assert (Hchunk : slice off (length chunk) page = chunk) by (rewrite <- Hps, slice_slice by lia; exact Hsl).
  exists (take off page), (drop (length chunk) (drop off page)).
  assert (Hsplit : take off page ++ chunk ++ drop (length chunk) (drop off page) = page).
  { rewrite <- Hchunk at 1. unfold slice. by rewrite !take_drop. }
  rewrite Hsplit. split_and!; [done|len_lia|done].
Qed.

Lemma continuation_page_of ps pre post :
  Forall wf_pair ps -> ps <> [] -> length pre = 0 -> length (pre ++ cont_bytes ps ++ post) = PAGE_SIZE ->
  continuation_page (pre ++ cont_bytes ps ++ post) ps.
Proof.
  intros Hwf Hne Hpre Hlen. destruct pre; [|done]. cbn [app] in *. clear Hpre. pose proof PAGE_SIZE_Z as HP.
  rewrite length_app, length_cont_bytes in Hlen. unfold INDEX_BLOCK_CONTINUATION_HEADER_SIZE in Hlen.
  set (mx := last_doc ps). set (ln := Z.of_nat (length (enc_pairs ps))).
  assert (Hmx : in_u 64 mx).
  { unfold mx, last_doc. destruct (last ps) as [q|] eqn:E; [|done]. apply last_Some_elem_of in E.
    rewrite Forall_forall in Hwf. apply (Hwf _ E). }
  assert (Hln : in_u 32 ln) by (unfold in_u, ln; lia).
  exists {| IBCH_MaxDocID := mx; IBCH_DataLength := ln |}, (le_bytes 8 mx ++ le_bytes 4 ln), post.
  assert (Heq : cont_bytes ps ++ post = le_bytes 8 mx ++ le_bytes 4 ln ++ enc_pairs ps ++ post)
    by (unfold cont_bytes; by rewrite <- !app_assoc).
  split_and!; try done.
  - rewrite Heq. unfold continuation_from_bytes, get.
    replace (_ <? _) with false by (symmetry; apply Nat.ltb_ge; rewrite !length_app, !length_le_bytes; unfold INDEX_BLOCK_CONTINUATION_HEADER_SIZE; lia).
    rewrite (slice_app_l 0 8), (slice_app_r 8 4), (slice_app_l _ 4) by (rewrite ?length_le_bytes; lia).
    rewrite length_le_bytes.
    replace (slice 0 8 (le_bytes 8 mx)) with (le_bytes 8 mx) by done.
    replace (slice (8 - 8) 4 (le_bytes 4 ln)) with (le_bytes 4 ln) by done.
    by rewrite !of_le_le_bytes_id.
  - rewrite length_app, length_cont_bytes. unfold INDEX_BLOCK_CONTINUATION_HEADER_SIZE. lia.
Qed.

Lemma conts_chain (src : TermSource) pages pss i :
  (forall j, j < length pages -> @GetIndexBlock src (Z.of_nat j) = pages !! j) ->
  Forall (fun p => length p = PAGE_SIZE) pages -> (Z.of_nat (length pages) < 2 ^ 32)%Z ->
  Forall wf_pair (concat pss) -> conts_at (concat pages) (i + 1) pss ->
  continuation_chain (Z.of_nat i) pss.
Proof.
  intros Hget Hp Hlen. revert i. induction pss as [|ps pss IH]; intros i Hwf Hc; [done|]. cbn [continuation_chain].
  cbn [concat] in Hwf. apply Forall_app in Hwf as [Hwf Hwf'].
  destruct (Hc 0 ps eq_refl) as [Hne Hat]. rewrite Nat.add_0_r in Hat.
  assert (Hcb : cont_bytes ps <> []) by done.
  destruct (page_of_at _ _ _ _ Hp Hcb Hat) as (pre & post & Hpage & Hpre & Hl).
  pose proof (lookup_lt_Some _ _ _ Hpage) as Hi. split; [unfold u32_max; lia|]. split.
  - eexists. split; [|by apply (continuation_page_of ps pre post)].
    replace (Z.of_nat i + 1)%Z with (Z.of_nat (i + 1)) by lia. rewrite Hget; done.
  - replace (Z.of_nat i + 1)%Z with (Z.of_nat (i + 1)) by lia. apply IH; [done|].
    intros k qs Hk. destruct (Hc (S k) qs Hk) as [Hqs Hq]. split; [done|].
    by replace (i + 1 + 1 + k) with (i + 1 + S k) by lia.
Qed.
End read_back.

(** * What the leaf writer has written *)

Definition leaf_offset (es : list LeafTermEntry) : nat := list_sum (map byte_len es).

(** The entries the builder makes. *)
Definition builder_entry (e : LeafTermEntry) : Prop :=
  leaf_entry_wf e /\ length (LTE_Term e) <= HEAD_TERM_KEY_MAX.

(** A finished leaf page. *)
Definition leaf_block_of (b : LeafTermBlock) (g : list LeafTermEntry) : Prop :=
  (leaf_wf b /\ directory b (LEAF_TERM_DIRECTORY_COUNT - 1) = Z.of_nat (length g)) /\ g <> [] /\ Forall builder_entry g /\ entry_count b = length g /\
  forall j, j < length g -> entry b j = g !! j.

Definition group_key (g : list LeafTermEntry) : str := match g with [] => [] | e :: _ => LTE_Term e end.

(** The head entries of the finished leaf pages. *)
Definition heads_of (groups : list (list LeafTermEntry)) : list (option HeadTermEntry) :=
  imap (fun i g => head_new (group_key g) (wrap 32 (Z.of_nat i))) groups.

(** The leaf page being filled with [cur]. *)
Definition leaf_filling (l : LeafWriter) (cur : list LeafTermEntry) : Prop :=
  leaf_wf (lw_leaf_block l) /\ lw_leaf_entry_count l = length cur /\ lw_first_leaf_term l = group_key cur /\
  lw_leaf_write_offset l = leaf_offset cur /\ leaf_offset cur <= LEAF_TERM_DATA_SIZE /\
  length cur <= LEAF_TERM_DIRECTORY_COUNT - 1 /\ Forall builder_entry cur /\
  forall j e, cur !! j = Some e -> leaf_holds (lw_leaf_block l) j (leaf_offset (take j cur)) e.

Definition leaf_inv (l : LeafWriter) (groups : list (list LeafTermEntry)) (cur : list LeafTermEntry) : Prop :=
  Forall2 leaf_block_of (lw_leaf_blocks l) groups /\ map Some (lw_head_entries l) = heads_of groups /\
  leaf_filling l cur /\ lw_total_terms l = wrap 64 (Z.of_nat (length (concat groups ++ cur))).

Section leaves.
Lemma leaf_offset_app es1 es2 : leaf_offset (es1 ++ es2) = leaf_offset es1 + leaf_offset es2.
Proof. unfold leaf_offset. by rewrite map_app, list_sum_app. Qed.

Lemma leaf_offset_take j es e :
  es !! j = Some e -> leaf_offset (take j es) + byte_len e <= leaf_offset es.
Proof.
  intros Hj. rewrite <- (take_drop_middle es j e Hj) at 2. rewrite leaf_offset_app.
  unfold leaf_offset at 3. cbn [map list_sum fold_right]. lia.
Qed.

Lemma leaves_start_inv : leaf_inv leaves_start [] [].
Proof.
  split; [constructor|]. split; [done|]. split; [|done].
  split; [apply leaf_default_wf|]. repeat (split; [first [done|apply Nat.le_0_l|constructor]|]). done.
Qed.

(** The count in the last directory slot does not disturb the entries. *)
Lemma leaf_finish l cur :
  leaf_filling l cur -> cur <> [] ->
  leaf_block_of {| LTB_Directory := <[LEAF_TERM_DIRECTORY_COUNT - 1 := wrap 16 (Z.of_nat (length cur))]>
                     (LTB_Directory (lw_leaf_block l)); LTB_Data := LTB_Data (lw_leaf_block l) |} cur.
Proof.
  intros ((Hd & Hf & Hl) & _ & _ & _ & _ & Hlen & Hwf & Hh) Hne.
  unfold LEAF_TERM_DIRECTORY_COUNT in *. set (b := {| LTB_Directory := _; LTB_Data := _ |}).
  assert (Hlast : directory b (LEAF_TERM_DIRECTORY_COUNT - 1) = Z.of_nat (length cur)).
  { unfold directory, LEAF_TERM_DIRECTORY_COUNT, b. cbn [LTB_Directory].
    rewrite nth_lookup, list_lookup_insert_eq by lia. cbn [from_option id]. apply wrap_small. unfold in_u. lia. }
  assert (Hcount : entry_count b = length cur) by (unfold entry_count; rewrite Hlast; unfold LEAF_TERM_DIRECTORY_COUNT; lia).
  split; [|split; [done|split; [done|split; [done|]]]].
  - split; [|done]. split_and!; cbn; [by rewrite length_insert|apply Forall_insert; [done|by apply wrap_range]|done].
  - intros j Hj. destruct (lookup_lt_is_Some_2 _ _ Hj) as [e He]. rewrite He.
    rewrite Forall_lookup in Hwf. destruct (Hwf j e He) as [Hewf _].
    apply (entry_holds b j (leaf_offset (take j cur))); [done| |lia].
    destruct (Hh j e He) as (H1 & H2 & H3). split; [|done]. rewrite <- H1.
    apply directory_insert_ne. unfold LEAF_TERM_DIRECTORY_COUNT. lia.
Qed.

Lemma head_new_Some term id : length term <= HEAD_TERM_KEY_MAX -> is_Some (head_new term id).
Proof. intros Hl. unfold head_new. rewrite (proj2 (Nat.leb_le _ _) Hl). by eexists. Qed.

Lemma flush_leaf_block_inv l groups cur :
  leaf_inv l groups cur -> cur <> [] ->
  exists l', flush_leaf_block l = Some l' /\ leaf_inv l' (groups ++ [cur]) [].
Proof.
  intros (Hb & Hh & Hc & Ht) Hne. pose proof (leaf_finish l cur Hc Hne) as Hblock.
  destruct Hc as (Hwf & Hcnt & Hfirst & Hoff & Hfit & Hlen & Hes & Hholds).
  unfold flush_leaf_block. rewrite Hcnt, Hfirst.
  replace (length cur =? 0) with false by (symmetry; apply Nat.eqb_neq; by destruct cur).
  destruct (head_new_Some (group_key cur) (wrap 32 (Z.of_nat (length (lw_leaf_blocks l))))) as [h Hhead].
  { destruct cur as [|e cur]; [done|]. inversion Hes as [|? ? [_ He] _]; subst. exact He. }
  rewrite Hhead. eexists. split; [done|]. split_and!; cbn.
  - apply Forall2_app; [done|]. by constructor.
  - unfold heads_of in *. rewrite map_app, imap_app, Hh. f_equal. cbn. rewrite Nat.add_0_r.
    by rewrite <- (Forall2_length _ _ _ Hb), Hhead.
  - apply leaves_start_inv.
  - rewrite concat_app. cbn. by rewrite !app_nil_r.
Qed.

(** An entry that fits goes to the end of the page. *)
Lemma write_leaf_filling l cur e b' :
  leaf_filling l cur -> builder_entry e -> length cur < LEAF_TERM_DIRECTORY_COUNT - 1 ->
  leaf_offset cur + byte_len e <= LEAF_TERM_DATA_SIZE ->
  lw_leaf_block b' = WriteLeafEntry (lw_leaf_block l) (lw_leaf_entry_count l) (lw_leaf_write_offset l) e ->
  lw_leaf_entry_count b' = lw_leaf_entry_count l + 1 ->
  lw_first_leaf_term b' = (if lw_leaf_entry_count l =? 0 then LTE_Term e else lw_first_leaf_term l) ->
  lw_leaf_write_offset b' = lw_leaf_write_offset l + byte_len e ->
  leaf_filling b' (cur ++ [e]).
Proof.
  intros (Hwf & Hcnt & Hfirst & Hoff & Hfit & Hlen & Hes & Hholds) He Hroom Hfit' B1 B2 B3 B4.
  unfold LEAF_TERM_DIRECTORY_COUNT in *.
  assert (Ho : leaf_offset (cur ++ [e]) = leaf_offset cur + byte_len e).
  { rewrite leaf_offset_app. unfold leaf_offset at 2. cbn [map list_sum fold_right]. lia. }
  unfold leaf_filling. rewrite B1, B2, B3, B4, Hcnt, Hfirst, Hoff, Ho, length_app. cbn [length].
  split; [by apply WriteLeafEntry_wf|]. split; [done|].
  split; [by destruct cur|]. split; [done|]. split; [done|].
  split; [unfold LEAF_TERM_DIRECTORY_COUNT; lia|]. split; [apply Forall_app; split; [done|by constructor]|].
  intros j x Hj. destruct (decide (j < length cur)) as [Hlt|Hge].
  - rewrite lookup_app_l in Hj by done. rewrite take_app_le by lia.
    apply WriteLeafEntry_frame; [done|done|by apply Hholds|lia|]. left. by apply leaf_offset_take.
  - rewrite lookup_app_r in Hj by lia. apply list_lookup_singleton_Some in Hj as [Hj ->].
    replace j with (length cur) by lia. rewrite take_app_length.
    apply WriteLeafEntry_holds; [done|unfold LEAF_TERM_DIRECTORY_COUNT; lia|done].
Qed.

Lemma wrapping_succ_64 n : wrapping_add 64 (wrap 64 (Z.of_nat n)) 1 = wrap 64 (Z.of_nat (n + 1)).
Proof. unfold wrapping_add, wrap. by rewrite Nat2Z.inj_add, Zplus_mod_idemp_l. Qed.

Lemma add_leaf_entry_inv l groups cur e :
  leaf_inv l groups cur -> builder_entry e ->
  exists l' groups' cur', add_leaf_entry l e = Some l' /\ leaf_inv l' groups' cur' /\
    concat groups' ++ cur' = (concat groups ++ cur) ++ [e].
Proof.
  intros Hinv He. unfold add_leaf_entry.
  assert (Hprep : exists l1 groups1 cur1,
    (if leaf_is_full l (byte_len e) then flush_leaf_block l else Some l) = Some l1 /\ leaf_inv l1 groups1 cur1 /\
    concat groups1 ++ cur1 = concat groups ++ cur /\ length cur1 < LEAF_TERM_DIRECTORY_COUNT - 1 /\
    leaf_offset cur1 + byte_len e <= LEAF_TERM_DATA_SIZE).
  { assert (Hsmall : byte_len e <= LEAF_TERM_DATA_SIZE).
    { pose proof LEAF_TERM_DATA_SIZE_Z. destruct He as [_ He]. unfold byte_len, LEAF_TERM_ENTRY_SIZE, HEAD_TERM_KEY_MAX in *. lia. }
    pose proof Hinv as (_ & _ & (_ & Hcnt & _ & Hoff & _) & _). unfold leaf_is_full. rewrite Hcnt, Hoff.
    destruct (_ && _) eqn:E; bool_to_prop.
    - destruct (flush_leaf_block_inv l groups cur Hinv) as (l1 & -> & Hinv1); [by destruct cur; cbn in *; [lia|]|].
      exists l1, (groups ++ [cur]), []. split; [done|]. split; [done|].
      rewrite concat_app. cbn [concat]. rewrite !app_nil_r. split; [done|]. split; [unfold LEAF_TERM_DIRECTORY_COUNT; cbn; lia|exact Hsmall].
    - exists l, groups, cur. split; [done|]. split; [done|]. split; [done|].
      destruct cur as [|c cur]; [split; [unfold LEAF_TERM_DIRECTORY_COUNT; cbn; lia|exact Hsmall]|].
      change (0 <? length (c :: cur)) with true in E. rewrite andb_true_l, orb_false_iff in E.
      destruct E as [E1%Nat.leb_gt E2%Nat.ltb_ge]. split; [exact E1|]. unfold LEAF_TERM_DATA_SIZE. lia. }
  destruct Hprep as (l1 & groups1 & cur1 & -> & (Hb & Hh & Hc & Ht) & Hcat & Hroom & Hfit).
  eexists _, groups1, (cur1 ++ [e]). split; [done|]. split; [|by rewrite app_assoc, Hcat].
  split_and!; cbn [lw_leaf_blocks lw_head_entries lw_total_terms]; [done|done|by eapply write_leaf_filling|].
  rewrite Ht, wrapping_succ_64. do 2 f_equal. rewrite !length_app. cbn. lia.
Qed.
End leaves.

(** * The whole build *)

(** The terms the builder keeps. *)
Definition kept (t : str * PostingList) : Prop := length t.1 <= HEAD_TERM_KEY_MAX /\ entries t.2 <> [].

#[export] Instance kept_dec t : Decision (kept t).
Proof. unfold kept. apply _. Defined.

Definition term_wf (t : str * PostingList) : Prop :=
  is_utf8 t.1 = true /\ Forall (fun e => in_u 64 (ie_doc_id e)) (entries t.2).

Section build.
Context `{Libm}.
Implicit Types t : str * PostingList.

(** The entry [e] says where the pages [out] hold the postings of [t]. *)
Definition stored (out : bytes) t (e : LeafTermEntry) : Prop :=
  exists p ps pss, e = leaf_entry_of t.1 t.2 p /\ ps <> [] /\ placed_at out p (pairs_of t.2) ps pss.

Definition build_inv (st : PageWriter * LeafWriter) (done : list (str * PostingList)) : Prop :=
  pages_ok st.1 /\ exists groups cur, leaf_inv st.2 groups cur /\
    Forall2 (stored (page_out st.1)) (filter kept done) (concat groups ++ cur).

Lemma stored_mono out out' ts es :
  out `prefix_of` out' -> Forall2 (stored out) ts es -> Forall2 (stored out') ts es.
Proof.
  intros Hpre Hf. eapply Forall2_impl; [exact Hf|]. intros t e (p & ps & pss & He & Hne & Hpl).
  exists p, ps, pss. split; [done|]. split; [done|]. by eapply placed_at_mono.
Qed.

Lemma pairs_of_nil pl : pairs_of pl = [] <-> entries pl = [].
Proof. unfold pairs_of. by destruct (entries pl). Qed.

Lemma leaf_entry_of_wf t p :
  is_utf8 t.1 = true -> length t.1 <= HEAD_TERM_KEY_MAX -> in_u 32 (pl_id p) -> builder_entry (leaf_entry_of t.1 t.2 p).
Proof.
  intros Hu Hl Hid. split; [|done]. unfold HEAD_TERM_KEY_MAX in Hl.
  split_and!; cbn; try done; try by apply wrap_range. apply wrap_small. unfold in_u. lia.
Qed.

Lemma build_one_inv st done t :
  build_inv st done -> term_wf t -> exists st', build_one st t = Some st' /\ build_inv st' (done ++ [t]).
Proof.
  intros (Hok & groups & cur & Hinv & Hst) [Hu Hd]. unfold build_one. rewrite get_bytes_pairs.
  assert (Hskip : ~ kept t -> build_inv st (done ++ [t])).
  { intros Hk. split; [done|]. exists groups, cur. split; [done|].
    rewrite filter_app, filter_cons_False, filter_nil, app_nil_r by done. done. }
  destruct (HEAD_TERM_KEY_MAX <? length t.1) eqn:El.
  { exists st. split; [done|]. apply Hskip. intros [Hl _]. apply Nat.ltb_lt in El. lia. }
  apply Nat.ltb_ge in El. pose proof (pairs_of_wf t.2 Hd) as Hwf.
  destruct (length (enc_pairs (pairs_of t.2)) =? 0) eqn:E0.
  { exists st. split; [done|]. apply Hskip. intros [_ Hne]. apply Hne, pairs_of_nil.
    apply enc_pairs_nil_iff; [done|]. by apply Nat.eqb_eq. }
  assert (Hne : pairs_of t.2 <> []) by (intros Hn; by rewrite Hn in E0).
  destruct (write_posting_ok st.1 (pairs_of t.2) Hok Hwf Hne) as (w & p & ps & pss & -> & Hok' & Hpre & Hps & Hpl).
  assert (Hid : in_u 32 (pl_id p)) by (destruct Hpl as (i & _ & -> & _); by apply wrap_range).
  destruct (add_leaf_entry_inv st.2 groups cur _ Hinv (leaf_entry_of_wf t p Hu El Hid)) as (l & groups' & cur' & -> & Hinv' & Hcat).
  exists (w, l). split; [done|]. split; [done|]. exists groups', cur'. split; [done|]. rewrite Hcat, filter_app.
  apply Forall2_app; [by eapply stored_mono|].
  rewrite filter_cons_True, filter_nil by (split; [done|by rewrite <- pairs_of_nil]).
  constructor; [|constructor]. by exists p, ps, pss.
Qed.

Lemma build_fold_inv ts st done :
  build_inv st done -> Forall term_wf ts ->
  exists st', fold_option build_one ts st = Some st' /\ build_inv st' (done ++ ts).
Proof.
  intros Hinv Hts. revert st done Hinv. induction Hts as [|t ts Ht _ IH]; intros st done Hinv; cbn [fold_option].
  - exists st. by rewrite app_nil_r.
  - destruct (build_one_inv st done t Hinv Ht) as (st1 & -> & Hinv1).
    destruct (IH st1 _ Hinv1) as (st' & -> & Hinv'). exists st'. by rewrite <- app_assoc in Hinv'.
Qed.

(** What the result of a build holds. *)
Record built (store : PostingStore) (r : BuildBlocksResult) (groups : list (list LeafTermEntry)) : Prop := {
  built_pages : Forall (fun p => length p = PAGE_SIZE) (BBR_IndexBlocks r);
  built_leaves : Forall2 leaf_block_of (BBR_LeafTermBlocks r) groups;
  built_heads : map Some (BBR_HeadTermEntries r) = heads_of groups;
  built_stored : Forall2 (stored (concat (BBR_IndexBlocks r))) (filter kept (sorted_terms store)) (concat groups);
  built_total : BBR_TotalTerms r = wrap 64 (Z.of_nat (length (concat groups)));
}.

Lemma final_pages w :
  pages_ok w -> let w' := if 0 <? pw_wptr w then flush_index_block w else w in
  Forall (fun p => length p = PAGE_SIZE) (pw_IndexBlocks w') /\ page_out w `prefix_of` concat (pw_IndexBlocks w').
Proof.
  intros Hok. cbv zeta. destruct (0 <? pw_wptr w) eqn:E.
  - destruct (flush_index_block_ok w Hok) as [(Hb & _) Hpre]. split; [done|]. etrans; [exact Hpre|].
    unfold page_out. change (pw_wptr (flush_index_block w)) with 0. by rewrite take_0, app_nil_r.
  - split; [apply Hok|]. apply Nat.ltb_ge in E. unfold page_out.
    replace (pw_wptr w) with 0 by lia. by rewrite take_0, app_nil_r.
Qed.

Lemma sorted_terms_perm store : sorted_terms store ≡ₚ map_to_list (m_Postings store).
Proof. apply stable_sort_perm. Qed.

Lemma BuildBlocks_built store :
  map_Forall (fun key pl => term_wf (key, pl)) (m_Postings store) ->
  exists r groups, BuildBlocks store = Some r /\ built store r groups.
Proof.
  intros Hwf. unfold BuildBlocks.
  assert (Hts : Forall term_wf (sorted_terms store)).
  { rewrite sorted_terms_perm. apply Forall_forall. intros [key pl] Hin%elem_of_map_to_list. by apply Hwf. }
  destruct (build_fold_inv (sorted_terms store) (pages_start, leaves_start) []) as ([w l] & -> & Hok & groups & cur & Hl & Hst);
    [split; [apply pages_start_ok|]; exists [], []; split; [apply leaves_start_inv|constructor]|done|].
  cbn [fst snd app] in *. destruct (final_pages w Hok) as [Hp Hpre].
  set (w' := if 0 <? pw_wptr w then _ else _) in *.
  apply (stored_mono _ _ _ _ Hpre) in Hst.
  destruct (decide (cur = [])) as [->|Hne].
  - pose proof Hl as (Hb & Hh & (_ & Hc & _) & Ht). unfold flush_leaf_block. rewrite Hc. cbn [length Nat.eqb].
    rewrite app_nil_r in Hst, Ht. eexists _, groups. split; [done|]. by constructor.
  - destruct (flush_leaf_block_inv l groups cur Hl Hne) as (l' & -> & Hb & Hh & _ & Ht).
    eexists _, (groups ++ [cur]). split; [done|]. rewrite app_nil_r in Ht.
    constructor; try done. cbn. rewrite concat_app. cbn. by rewrite app_nil_r.
Qed.
End build.

(** * Searching the built index

    The result as the block cache serves it once written: page [i] of the index
    pages, and page [i] of the leaf pages. *)

Definition built_blocks (r : BuildBlocksResult) : BlockSource := fun kind seq =>
  if (seq <? 0)%Z then None
  else match kind with
       | Index => BBR_IndexBlocks r !! Z.to_nat seq
       | LeafTerm => leaf_to_bytes <$> BBR_LeafTermBlocks r !! Z.to_nat seq
       end.

Definition built_table (r : BuildBlocksResult) : TermTable := SetHeadTermEntries table_new (BBR_HeadTermEntries r).

(** IndexBlockTable as the reader sees it. *)
Definition table_source `{BlockSource} (t : TermTable) : TermSource :=
  {| AdvancedReader.FindTermData := TermDictionary.FindTermData t; GetIndexBlock := GetBlock Index |}.

(** The documents of a term in the store. *)
Definition store_docs (store : PostingStore) (key : str) : list Z :=
  match m_Postings store !! key with Some pl => map ie_doc_id (entries pl) | None => [] end.

(** Stores the format can hold: strictly sorted u64 documents, UTF-8 keys, and no posting list of more
    than 65,535 continuation pages. *)
Definition storable `{Libm} (store : PostingStore) : Prop :=
  map_Forall (fun key pl => is_utf8 key = true /\ docs_ok (map ie_doc_id (entries pl)) /\
    (Z.of_nat (length (get_bytes pl)) <= 65534 * 4074)%Z) (m_Postings store).

Section search.
Context `{Libm}.
Context (store : PostingStore) (r : BuildBlocksResult) (groups : list (list LeafTermEntry)).
Context (Hstore : storable store) (Hbuilt : built store r groups).
Context (Hpages : (Z.of_nat (length (BBR_IndexBlocks r)) < 2 ^ 32)%Z).
Context (Hleaves : (Z.of_nat (length (BBR_LeafTermBlocks r)) < 2 ^ 32)%Z).

(** Any block source that serves the built pages. *)
Context (built_source : BlockSource).
Context (Hsource : forall kind (i : nat), built_source kind (Z.of_nat i) = built_blocks r kind (Z.of_nat i)).
#[local] Existing Instance built_source.

Lemma built_block kind (i : nat) : GetBlock kind (Z.of_nat i) =
  match kind with Index => BBR_IndexBlocks r !! i | LeafTerm => leaf_to_bytes <$> BBR_LeafTermBlocks r !! i end.
Proof.
  unfold GetBlock. rewrite Hsource. unfold built_blocks. replace (Z.of_nat i <? 0)%Z with false by lia. by rewrite Nat2Z.id.
Qed.

Lemma sorted_terms_strict : StronglySorted str_lt (map fst (filter kept (sorted_terms store))).
Proof.
  assert (Hs : StronglySorted (fun a b => str_le a.1 b.1) (sorted_terms store)).
  { apply stable_sort_sorted; [done| |].
    - intros x y. apply (str_le_total x.1 y.1).
    - intros x y z. by transitivity y.1. }
  assert (Hnd : NoDup (map fst (sorted_terms store))).
  { change (map fst) with (fmap (M := list) (@fst str PostingList)).
    rewrite sorted_terms_perm. apply NoDup_fst_map_to_list. }
  induction (sorted_terms store) as [|t ts IH]; [constructor|].
  inversion Hs as [|? ? Hs' Hall]; subst. cbn in Hnd. apply NoDup_cons in Hnd as [Hnotin Hnd].
  rewrite filter_cons. case_decide; [|by apply IH]. cbn. constructor; [by apply IH|].
  apply Forall_map, Forall_forall. intros t' [_ Hin]%list_elem_of_filter. rewrite Forall_forall in Hall.
  specialize (Hall _ Hin). apply str_le_iff in Hall as [Hlt|Heq]; [done|].
  exfalso. apply Hnotin. rewrite Heq. by apply (list_elem_of_fmap_2 fst).
Qed.

Lemma stored_terms out ts es : Forall2 (stored out) ts es -> map LTE_Term es = map fst ts.
Proof. induction 1 as [|t e ts es (p & ps & pss & -> & _) _ IH]; cbn; [done|]. by rewrite IH. Qed.

Lemma built_sorted : StronglySorted (fun a b => str_lt (LTE_Term a) (LTE_Term b)) (concat groups).
Proof.
  pose proof sorted_terms_strict as Hs. rewrite <- (stored_terms _ _ _ (built_stored _ _ _ Hbuilt)) in Hs.
  induction (concat groups) as [|e es IH]; [constructor|]. inversion Hs as [|? ? Hs' Hall]; subst.
  constructor; [by apply IH|]. rewrite Forall_map in Hall. exact Hall.
Qed.

Lemma first_term_new term id h :
  is_utf8 term = true -> head_new term id = Some h -> first_term h = term /\ HTE_LeafTermBlockID h = id.
Proof.
  intros Hu Hh. unfold head_new in Hh. destruct (_ <=? _) eqn:E; [|done]. apply Nat.leb_le in E.
  injection Hh as <-. split; [|done]. unfold first_term. cbn [HTE_FirstTermLength HTE_FirstTerm].
  unfold HEAD_TERM_KEY_MAX in *. rewrite wrap_small, Nat2Z.id by (unfold in_u; lia).
  rewrite slice_splice_same by lia. unfold from_utf8. by rewrite Hu.
Qed.

Lemma built_dictionary : dictionary_ok (built_table r) groups.
Proof.
  destruct Hbuilt as [_ Hb Hh _ _].
  assert (Hlen : length (BBR_HeadTermEntries r) = length groups).
  { rewrite <- (length_map Some), Hh. unfold heads_of. by rewrite length_imap. }
  pose proof (Forall2_length _ _ _ Hb) as Hlb. split; [|split; [|apply built_sorted]].
  - cbn. unfold u32_max. lia.
  - apply Forall2_same_length_lookup_2; [done|]. intros i h g Hi Hg. cbn in Hi.
    destruct (Forall2_lookup_r _ _ _ _ _ Hb Hg) as (b & Hbi & (Hwf & _) & Hne & Hes & Hc & He).
    assert (Hnew : head_new (group_key g) (wrap 32 (Z.of_nat i)) = Some h).
    { assert (Hl : map Some (BBR_HeadTermEntries r) !! i = Some (Some h)) by (change (map Some) with (fmap (M := list) (@Some HeadTermEntry)); by rewrite list_lookup_fmap, Hi).
      rewrite Hh in Hl. unfold heads_of in Hl. rewrite list_lookup_imap, Hg in Hl. cbn in Hl. by injection Hl. }
    pose proof (lookup_lt_Some _ _ _ Hbi) as Hlt. rewrite wrap_small in Hnew by (unfold in_u; lia).
    destruct g as [|e es]; [done|]. inversion Hes as [|? ? [Hwe _] _]; subst.
    destruct (first_term_new _ _ _ ltac:(apply Hwe) Hnew) as [Hft Hid].
    exists e, es, (leaf_to_bytes b). rewrite Hid, leaf_view_to by done. split; [done|]. split; [done|].
    split; [|done]. by rewrite built_block, Hbi.
Qed.

Lemma built_entries_wf : Forall leaf_entry_wf (concat groups) /\
  Forall2 (fun b g => leaf_entries b = g) (BBR_LeafTermBlocks r) groups.
Proof.
  destruct Hbuilt as [_ Hb _ _ _]. split.
  - apply Forall_concat. apply Forall_forall. intros g Hg. apply list_elem_of_lookup_1 in Hg as [i Hi].
    destruct (Forall2_lookup_r _ _ _ _ _ Hb Hi) as (b & _ & _ & _ & Hes & _).
    eapply Forall_impl; [exact Hes|]. by intros e [He _].
  - eapply Forall2_impl; [exact Hb|]. intros b g (_ & _ & _ & Hc & He). unfold leaf_entries. rewrite Hc.
    rewrite <- (take_ge g (length g)) at 2 by done. assert (Hall : forall n, n <= length g -> omap (entry b) (seq 0 n) = take n g).
    { induction n as [|n IH]; intros Hn; [done|]. rewrite seq_S, omap_app, IH by lia. cbn [omap list_omap Nat.add].
      destruct (lookup_lt_is_Some_2 g n ltac:(lia)) as [x Hx]. rewrite He, Hx by lia. by rewrite (take_S_r _ _ x). }
    by apply Hall.
Qed.

(** The dictionary entry of a stored term. *)
Lemma built_entry key pl :
  m_Postings store !! key = Some pl -> kept (key, pl) ->
  exists e, e ∈ concat groups /\ LTE_Term e = key /\ stored (concat (BBR_IndexBlocks r)) (key, pl) e.
Proof.
  intros Hm Hk. assert (Hin : (key, pl) ∈ filter kept (sorted_terms store)).
  { apply list_elem_of_filter. split; [done|]. rewrite sorted_terms_perm. by apply elem_of_map_to_list. }
  apply list_elem_of_lookup_1 in Hin as [i Hi].
  destruct (Forall2_lookup_l _ _ _ _ _ (built_stored _ _ _ Hbuilt) Hi) as (e & He & Hst).
  exists e. split; [by eapply list_elem_of_lookup_2|]. split; [|done]. by destruct Hst as (p & ps & pss & -> & _).
Qed.

Lemma built_entry_inv e :
  e ∈ concat groups -> exists pl, m_Postings store !! LTE_Term e = Some pl /\ kept (LTE_Term e, pl) /\
    LTE_DocFreq e = doc_freq pl.
Proof.
  intros [i Hi]%list_elem_of_lookup_1.
  destruct (Forall2_lookup_r _ _ _ _ _ (built_stored _ _ _ Hbuilt) Hi) as ([key pl] & Ht & p & ps & pss & -> & _).
  apply list_elem_of_lookup_2, list_elem_of_filter in Ht as [Hk Ht].
  rewrite sorted_terms_perm in Ht. apply elem_of_map_to_list in Ht. by exists pl.
Qed.

(** Opening a term whose location the table finds, under any key that leads to it. *)
Lemma built_reads_at key' key pl e t num_documents average_stream_length span_weight word_span :
  m_Postings store !! key = Some pl -> kept (key, pl) ->
  stored (concat (BBR_IndexBlocks r)) (key, pl) e ->
  TermDictionary.FindTermData t key' = Some (leaf_location e) ->
  (0 < num_documents)%Z -> f_gt average_stream_length (f_of_Z F32 0) = true ->
  exists reader, @Open (table_source t) _ key' num_documents average_stream_length span_weight word_span = Some reader /\
    @reads _ _ (@adv_spec (table_source t)) reader (store_docs store key).
Proof.
  intros Hm [Hl Hne] (p & ps & pss & -> & Hps & i & Hqs & Hid & Hlen & Hcnt & Hat & Hconts & Hfew) Hfind Hnum Havg.
  destruct (Hstore key pl Hm) as (Hu & Hdocs & Hsize). cbn [fst snd] in *.
  assert (Hwf : Forall wf_pair (pairs_of pl)).
  { apply pairs_of_wf. destruct Hdocs as [_ Hd]. rewrite Forall_map in Hd. eapply Forall_impl; [exact Hd|].
    cbn. unfold in_u, NO_MORE_DOCS, u64_max. lia. }
  pose proof Hwf as Hwf'. rewrite Hqs in Hwf'. apply Forall_app in Hwf' as [Hwps Hwpss].
  destruct (page_of_at _ i (pl_offset p) (enc_pairs ps) (built_pages _ _ _ Hbuilt)) as (pre & post & Hpage & Hpre & Hpl).
  { intros Hz. apply Hps, enc_pairs_nil_iff; [done|by rewrite Hz]. }
  { exact Hat. }
  pose proof (lookup_lt_Some _ _ _ Hpage) as Hi. pose proof PAGE_SIZE_Z as HP. destruct Hat as (Hfit & _).
  rewrite get_bytes_pairs, Hqs, enc_pairs_app, length_app in Hsize. unfold few_pages in Hfew.
  assert (Hget : forall j, j < length (BBR_IndexBlocks r) ->
    @GetIndexBlock (table_source t) (Z.of_nat j) = BBR_IndexBlocks r !! j).
  { intros j _. apply built_block. }
  assert (Hsd : store_docs store key = chain_docs ps pss).
  { unfold store_docs, chain_docs. rewrite Hm, <- Hqs. unfold pairs_of. by rewrite map_map. }
  rewrite Hsd. eapply (@Open_reads (table_source t) _ key' _ (pre ++ enc_pairs ps ++ post) pre ps post pss).
  - exact Hfind.
  - cbn [index_block_id leaf_location leaf_entry_of LTE_IndexBlockID]. rewrite Hid, wrap_small by (unfold in_u; lia).
    rewrite Hget by done. exact Hpage.
  - done.
  - done.
  - cbn. rewrite wrap_small by (unfold in_u; lia). by rewrite Hpre.
  - cbn. rewrite wrap_small by (unfold in_u; lia). by rewrite Hlen.
  - cbn. rewrite Hcnt, (wrap_small 32) by (unfold in_u; lia). apply wrap_small. unfold in_u. lia.
  - cbn [index_block_id leaf_location leaf_entry_of LTE_IndexBlockID]. rewrite Hid, wrap_small by (unfold in_u; lia).
    by apply (conts_chain _ (BBR_IndexBlocks r)); [| apply Hbuilt| | |].
  - done.
  - rewrite <- Hsd. unfold store_docs. by rewrite Hm.
  - done.
  - done.
Qed.

Lemma built_find_head_leaf key :
  searchable key ->
  (forall pl, m_Postings store !! key = Some pl -> kept (key, pl) ->
     exists e, stored (concat (BBR_IndexBlocks r)) (key, pl) e /\
       TermDictionary.FindTermData (built_table r) key = Some (leaf_location e)) /\
  ((forall pl, m_Postings store !! key = Some pl -> ~ kept (key, pl)) ->
     TermDictionary.FindTermData (built_table r) key = None).
Proof.
  intros [Hl Hnul].
  destruct (FindTermData_head_leaf (built_table r) groups key built_dictionary eq_refl) as [Hin Hout];
    [by rewrite until_nul_id|]. rewrite until_nul_id in Hin, Hout by done. split.
  - intros pl Hm Hk. destruct (built_entry key pl Hm Hk) as (e & He & Ht & Hst). exists e. split; [done|]. by apply Hin.
  - intros Hno. apply Hout. intros e He Ht. destruct (built_entry_inv e He) as (pl & Hm & Hk & _).
    rewrite Ht in Hm, Hk. by apply (Hno pl).
Qed.

(** The table with the perfect hash of its leaf pages. *)
Definition hashed_table : TermTable :=
  let '(header, displacements, pages) := BuildTermMphfFromLeafBlocks (BBR_LeafTermBlocks r) in
  table_SetTermMphf (built_table r) header displacements pages.

Lemma built_find_hashed key pl :
  (Z.of_nat (length (concat groups)) < 2 ^ 32)%Z -> searchable key ->
  m_Postings store !! key = Some pl -> kept (key, pl) ->
  exists e, stored (concat (BBR_IndexBlocks r)) (key, pl) e /\
    TermDictionary.FindTermData hashed_table key = Some (leaf_location e).
Proof.
  intros Hn Hs Hm Hk. destruct built_entries_wf as [Hwf Hgroups].
  destruct (built_entry key pl Hm Hk) as (e & He & Ht & Hst). exists e. split; [done|].
  pose proof (FindTermData_dictionary (built_table r) groups _ built_dictionary Hgroups Hwf Hn eq_refl) as Hfind.
  unfold hashed_table. destruct (BuildTermMphfFromLeafBlocks _) as [[h ds] pages].
  destruct Hfind as [Hfind _]. rewrite <- Ht. apply Hfind; [done|by rewrite Ht].
Qed.
Lemma stored_kept key : length key <= HEAD_TERM_KEY_MAX -> store_docs store key <> [] ->
  exists pl, m_Postings store !! key = Some pl /\ kept (key, pl).
Proof.
  unfold store_docs. intros Hkey. destruct (m_Postings store !! key) as [pl|]; [|done]. intros Hne. exists pl. split; [done|].
  split; [done|]. intros Hn. cbn in Hn. by rewrite Hn in Hne.
Qed.

Lemma built_opens key num_documents average_stream_length span_weight word_span :
  searchable key -> (0 < num_documents)%Z -> f_gt average_stream_length (f_of_Z F32 0) = true ->
  exists reader,
    @Open (table_source (built_table r)) _ key num_documents average_stream_length span_weight word_span = Some reader /\
    @reads _ _ (@adv_spec (table_source (built_table r))) reader (store_docs store key).
Proof.
  intros Hkey Hnd Havg. destruct (built_find_head_leaf key Hkey) as [Hin Hout]. destruct (decide (store_docs store key = [])) as [Hd|Hd].
  - rewrite Hd. apply Open_absent, Hout. intros pl Hm [_ Hne]. apply Hne.
    unfold store_docs in Hd. rewrite Hm in Hd. by apply map_eq_nil in Hd.
  - destruct (stored_kept key (proj1 Hkey) Hd) as (pl & Hm & Hk). destruct (Hin pl Hm Hk) as (e & Hst & Hfind). by eapply built_reads_at.
Qed.

(** What a lookup of any key at all reads: lookups cut the key at a zero byte, and find no long keys. *)
Definition key_docs (key : str) : list Z :=
  if length (until_nul key) <=? HEAD_TERM_KEY_MAX then store_docs store (until_nul key) else [].

Lemma built_opens_any key num_documents average_stream_length span_weight word_span :
  (0 < num_documents)%Z -> f_gt average_stream_length (f_of_Z F32 0) = true ->
  exists reader,
    @Open (table_source (built_table r)) _ key num_documents average_stream_length span_weight word_span = Some reader /\
    @reads _ _ (@adv_spec (table_source (built_table r))) reader (key_docs key).
Proof.
  intros Hnd Havg. unfold key_docs. destruct (Nat.leb_spec (length (until_nul key)) HEAD_TERM_KEY_MAX) as [Hl|Hl].
  - assert (Hs : searchable (until_nul key)) by (split; [done|apply until_nul_no_nul]).
    assert (Hfind : TermDictionary.FindTermData (built_table r) key = TermDictionary.FindTermData (built_table r) (until_nul key)).
    { unfold TermDictionary.FindTermData. by rewrite (until_nul_id (until_nul key)) by apply Hs. }
    destruct (built_find_head_leaf _ Hs) as [Hin Hout]. destruct (decide (store_docs store (until_nul key) = [])) as [Hd|Hd].
    + rewrite Hd. apply Open_absent. change (TermDictionary.FindTermData (built_table r) key = None). rewrite Hfind. apply Hout. intros pl Hm [_ Hne]. apply Hne.
      unfold store_docs in Hd. rewrite Hm in Hd. by apply map_eq_nil in Hd.
    + destruct (stored_kept _ Hl Hd) as (pl & Hm & Hk). destruct (Hin pl Hm Hk) as (e & Hst & He).
      eapply built_reads_at; [exact Hm|exact Hk|exact Hst|by rewrite Hfind|done|done].
  - apply Open_absent. change (FindTermDataHeadLeaf (built_table r) (until_nul key) = None).
    unfold FindTermDataHeadLeaf. by rewrite (proj2 (Nat.ltb_lt _ _) Hl), orb_true_r.
Qed.

Lemma hashed_opens key num_documents average_stream_length span_weight word_span :
  (BBR_TotalTerms r < 2 ^ 32)%Z -> store_docs store key <> [] -> (Z.of_nat (size (m_Postings store)) < 2 ^ 64)%Z ->
  searchable key -> (0 < num_documents)%Z -> f_gt average_stream_length (f_of_Z F32 0) = true ->
  exists reader,
    @Open (table_source hashed_table) _ key num_documents average_stream_length span_weight word_span = Some reader /\
    @reads _ _ (@adv_spec (table_source hashed_table)) reader (store_docs store key).
Proof.
  intros Htot Hd Hsize Hkey Hnd Havg. destruct (stored_kept key (proj1 Hkey) Hd) as (pl & Hm & Hk).
  assert (Hn : (Z.of_nat (length (concat groups)) < 2 ^ 32)%Z).
  { rewrite (built_total _ _ _ Hbuilt), wrap_small in Htot; [done|].
    rewrite <- (Forall2_length _ _ _ (built_stored _ _ _ Hbuilt)).
    pose proof (length_filter kept (sorted_terms store)) as Hlf.
    pose proof (Permutation_length (sorted_terms_perm store)) as Hls. rewrite length_map_to_list in Hls.
    unfold in_u. lia. }
  destruct (built_find_hashed key pl Hn Hkey Hm Hk) as (e & Hst & Hfind). by eapply built_reads_at.
Qed.
End search.

Lemma storable_terms `{Libm} store : storable store -> map_Forall (fun key pl => term_wf (key, pl)) (m_Postings store).
Proof.
  intros Hs key pl Hm. destruct (Hs key pl Hm) as (Hu & [_ Hd] & _). split; [done|].
  rewrite Forall_map in Hd. eapply Forall_impl; [exact Hd|]. cbn. unfold in_u, NO_MORE_DOCS, u64_max. lia.
Qed.

(** C11: building the blocks of a storable index never fails, and a reader opened on the built table
    reads exactly the documents the store has for the key, for every key a lookup can reach, stored or
    not; with the perfect hash of the leaf pages in front of the table, the same for every stored key. *)
Theorem BuildBlocks_search `{Libm} store :
  storable store ->
  exists r, BuildBlocks store = Some r /\
    forall key num_documents average_stream_length span_weight word_span,
    (Z.of_nat (length (BBR_IndexBlocks r)) < 2 ^ 32)%Z -> (Z.of_nat (length (BBR_LeafTermBlocks r)) < 2 ^ 32)%Z ->
    searchable key -> (0 < num_documents)%Z -> f_gt average_stream_length (f_of_Z F32 0) = true ->
    let opens t := exists reader,
      @Open (@table_source (built_blocks r) t) _ key num_documents average_stream_length span_weight word_span = Some reader /\
      @reads _ _ (@adv_spec (@table_source (built_blocks r) t)) reader (store_docs store key) in
    opens (built_table r) /\
    ((BBR_TotalTerms r < 2 ^ 32)%Z -> store_docs store key <> [] -> (Z.of_nat (size (m_Postings store)) < 2 ^ 64)%Z ->
      opens (hashed_table r)).
Proof.
  intros Hs. destruct (BuildBlocks_built store (storable_terms store Hs)) as (r & groups & Hr & Hb).
  exists r. split; [done|]. intros key nd avg sw ws Hp Hl Hkey Hnd Havg opens.
  split; [by eapply built_opens|]. intros. by eapply hashed_opens.
Qed.

(** * Witness *)

Definition indexed_store : PostingStore :=
  {| m_Postings := <[ [97; 84]%Z := {| entries := [{| ie_doc_id := 3; ie_term_frequency := 1 |};
                                                    {| ie_doc_id := 300; ie_term_frequency := 4 |}] |} ]>
                   {[ [98; 66]%Z := {| entries := [{| ie_doc_id := 7; ie_term_frequency := 2 |}] |} ]};
     m_DocStats := ∅; m_DocVectors := ∅; m_TotalTerms := 0; m_PostingEntries := 3 |}.

Lemma indexed_store_storable : @storable sample_libm indexed_store.
Proof.
  apply map_Forall_insert_2; [|apply map_Forall_singleton].
  all: split; [reflexivity|split; [apply docs_ok_compute; vm_compute; reflexivity|]].
  all: apply Z.leb_le; vm_compute; reflexivity.
Qed.

Lemma BuildBlocks_search_witness :
  exists r, @BuildBlocks sample_libm indexed_store = Some r /\
    exists reader, @Open (@table_source (built_blocks r) (built_table r)) sample_libm [97; 84]%Z 2 (f_of_Z F32 3) (f_of_Z F32 1) 1 = Some reader /\
      @reads _ _ (@adv_spec (@table_source (built_blocks r) (built_table r))) reader [3; 300]%Z.
Proof.
  destruct (@BuildBlocks_search sample_libm indexed_store indexed_store_storable) as (r & Hr & Hall).
  exists r. split; [exact Hr|].
  assert (Hsz : option_map (fun r => (length (BBR_IndexBlocks r), length (BBR_LeafTermBlocks r)))
    (@BuildBlocks sample_libm indexed_store) = Some (1, 1)) by (vm_compute; reflexivity).
  rewrite Hr in Hsz. cbn in Hsz. injection Hsz as Hp Hl.
  apply (Hall [97; 84]%Z 2%Z (f_of_Z F32 3) (f_of_Z F32 1) 1%Z).
  - rewrite Hp. reflexivity.
  - rewrite Hl. reflexivity.
  - split; [apply Nat.leb_le; reflexivity|]. repeat constructor; discriminate.
  - reflexivity.
  - vm_compute; reflexivity.
Defined.
