(* ===== verification/IndexFile.v ===== *)
(** Index files (IndexSerializer.rs: Save, decode and the loaders; IndexContext.rs:
    BuildIndexData, LoadFromBytes and LoadIndex), over the pools of the block table:
    what is saved is loaded, from memory or through the page cache, and a loaded
    index answers as the store it was built from. *)

From Stdlib Require Import ZArith Lia ZifyBool Bool List.
From stdpp Require Import base list list_numbers gmap sorting.
From S2P Require Import Prelude Floats PostingStore FileAccess FileFormat BlockCache Mphf TermDictionary PathSidecar DocData IndexReader AdvancedReader IndexBuilder.

Local Open Scope moon_scope.

(** * The block table *)

(** IndexBlockTable: the dictionary fields and the two pools. *)
Record IndexBlockTable := {
  bt_Terms : TermTable;
  m_IndexPool : BlockCacheState;
  m_LeafTermPool : BlockCacheState;
  m_DirectBlockAccess : bool;
  m_AccessCounters : BlockAccessStats;
}.

Definition no_accesses : BlockAccessStats :=
  {| DirectGets := 0; DirectReleases := 0; WorkerGets := 0; WorkerReleases := 0; CacheHits := 0; CacheMisses := 0; DiskReads := 0 |}.

Definition IndexBlockTable_new : IndexBlockTable :=
  {| bt_Terms := table_new; m_IndexPool := cache_new; m_LeafTermPool := cache_new; m_DirectBlockAccess := true;
     m_AccessCounters := no_accesses |}.

Definition set_terms (t : IndexBlockTable) (terms : TermTable) : IndexBlockTable :=
  {| bt_Terms := terms; m_IndexPool := m_IndexPool t; m_LeafTermPool := m_LeafTermPool t;
     m_DirectBlockAccess := m_DirectBlockAccess t; m_AccessCounters := m_AccessCounters t |}.

Definition bt_SetHeadTermEntries (t : IndexBlockTable) (head : list HeadTermEntry) : IndexBlockTable :=
  set_terms t (SetHeadTermEntries (bt_Terms t) head).

Definition bt_SetTermMphf (t : IndexBlockTable) (header : TermMphfHeader) (displacements : list Z) (entryPages : list bytes)
  : IndexBlockTable := set_terms t (table_SetTermMphf (bt_Terms t) header displacements entryPages).

Definition bt_ClearTermMphf (t : IndexBlockTable) : IndexBlockTable :=
  set_terms t {| tt_Mphf := ClearTermMphf (tt_Mphf (bt_Terms t)); m_HeadTermEntries := m_HeadTermEntries (bt_Terms t);
                 m_HeadTermEntryCount := m_HeadTermEntryCount (bt_Terms t) |}.

Definition SetBlockMemory (t : IndexBlockTable) (indexBlocks : option (list bytes)) (leafTermBlocks : option (list LeafTermBlock))
  : IndexBlockTable :=
  let t := {| bt_Terms := bt_Terms t; m_IndexPool := SetPoolMemory indexBlocks;
              m_LeafTermPool := SetPoolMemory (option_map (map leaf_to_bytes) leafTermBlocks);
              m_DirectBlockAccess := m_DirectBlockAccess t; m_AccessCounters := m_AccessCounters t |} in
  match indexBlocks, leafTermBlocks with
  | None, None => bt_ClearTermMphf t
  | _, _ => t
  end.

Definition Pool (t : IndexBlockTable) (kind : BlockKind) : BlockCacheState :=
  match kind with Index => m_IndexPool t | LeafTerm => m_LeafTermPool t end.

Definition IndexBlocks (t : IndexBlockTable) : list bytes := CopyPoolBlocks (m_IndexPool t).
Definition LeafTermBlocks (t : IndexBlockTable) : list LeafTermBlock := map leaf_view (CopyPoolBlocks (m_LeafTermPool t)).

(** HandOverBlockTable: the target takes everything over, the source is left empty. *)
Definition HandOverBlockTable (t source : IndexBlockTable) : IndexBlockTable * IndexBlockTable :=
  let taken := {| m_TermMphfHeader := m_TermMphfHeader (tt_Mphf (bt_Terms source));
                  m_TermMphfDisplacements := m_TermMphfDisplacements (tt_Mphf (bt_Terms source));
                  m_TermMphfDisplacementCount := m_TermMphfDisplacementCount (tt_Mphf (bt_Terms source));
                  m_TermMphfEntryPages := m_TermMphfEntryPages (tt_Mphf (bt_Terms source));
                  m_TermMphfEntryPageCount := m_TermMphfEntryPageCount (tt_Mphf (bt_Terms source));
                  m_TermMphfEnabled := m_TermMphfEnabled (tt_Mphf (bt_Terms t)) |} in
  ({| bt_Terms := {| tt_Mphf := taken; m_HeadTermEntries := m_HeadTermEntries (bt_Terms source);
                     m_HeadTermEntryCount := m_HeadTermEntryCount (bt_Terms source) |};
      m_IndexPool := m_IndexPool source; m_LeafTermPool := m_LeafTermPool source;
      m_DirectBlockAccess := m_DirectBlockAccess t; m_AccessCounters := m_AccessCounters t |},
   {| bt_Terms := {| tt_Mphf := ClearTermMphf (tt_Mphf (bt_Terms source)); m_HeadTermEntries := []; m_HeadTermEntryCount := 0 |};
      m_IndexPool := cache_new; m_LeafTermPool := cache_new;
      m_DirectBlockAccess := m_DirectBlockAccess source; m_AccessCounters := m_AccessCounters source |}).

(** GetBlock as a caller sees it: the page of the handle it gets from the table's state. *)
Definition table_page (sequential : bool) (t : IndexBlockTable) : BlockSource := fun kind seq =>
  match cache_GetBlock (Pool t kind) (m_AccessCounters t) (m_DirectBlockAccess t) seq sequential with
  | Some (s, _, Pinned i) => Some (handle_page s i)
  | _ => None
  end.

(** The pages as a lookup reads them, and as the merge does, one after the other. *)
Definition table_blocks : IndexBlockTable -> BlockSource := table_page false.
Definition sequential_blocks : IndexBlockTable -> BlockSource := table_page true.

Definition LeafTermBlockCount (t : IndexBlockTable) : Z := BCP_TotalBlockCount (m_LeafTermPool t).

(** * Save *)

(** The bytes of one section, which is written only when its count is positive. *)
Definition section (count : Z) (data : bytes) : bytes := if (0 <? count)%Z then data else [].

(** The content of the file; creating and writing it is the operating system's. *)
Definition Save (header : IndexFileHeader) (blockTable : IndexBlockTable) (docData pathPrefixSidecar : bytes) : result bytes :=
  let empty_unbuilt_index := is_zeroed header in
  let? _ := if empty_unbuilt_index then Ok 0%Z else validate_layout header None in
  let? expected_docdata := ok_or (checked_mul 64 (IFH_NumDocuments header) (Z.of_nat DOC_REC_SIZE)) InvalidFormat in
  if negb (Z.of_nat (length docData) =? expected_docdata)%Z
     || negb (length pathPrefixSidecar =? PATH_PREFIX_SIDECAR_BYTES)
     || (empty_unbuilt_index && existsb (fun byte => negb (byte =? 0)%Z) pathPrefixSidecar)
  then Err InvalidFormat
  else
    let terms := bt_Terms blockTable in
    let mphf := tt_Mphf terms in
    let index_blocks := IndexBlocks blockTable in
    let leaf_blocks := LeafTermBlocks blockTable in
    if negb (Z.of_nat (length (m_HeadTermEntries terms)) =? IFH_HeadTermEntryCount header)%Z
       || negb (Z.of_nat (length leaf_blocks) =? IFH_LeafTermBlockCount header)%Z
       || negb (Z.of_nat (length index_blocks) =? IFH_IndexBlockCount header)%Z
       || negb (Z.of_nat (length (m_TermMphfDisplacements mphf)) =? IFH_TermMphfDisplacementCount header)%Z
       || negb (Z.of_nat (length (m_TermMphfEntryPages mphf)) =? IFH_TermMphfEntryPageCount header)%Z
    then Err InvalidFormat
    else
      Ok (header_to_bytes header ++ pathPrefixSidecar
          ++ section (IFH_HeadTermEntryCount header) (concat (map head_to_bytes (m_HeadTermEntries terms)))
          ++ section (IFH_LeafTermBlockCount header) (concat (map leaf_to_bytes leaf_blocks))
          ++ section (IFH_NumDocuments header) docData
          ++ section (IFH_IndexBlockCount header) (concat index_blocks)
          ++ section (IFH_TermMphfHeaderCount header) (mphf_header_to_bytes (m_TermMphfHeader mphf))
          ++ section (IFH_TermMphfDisplacementCount header)
               (concat (map (fun d => le_bytes 4 (wrap 32 d)) (m_TermMphfDisplacements mphf)))
          ++ section (IFH_TermMphfEntryPageCount header) (concat (m_TermMphfEntryPages mphf))).

(** Conversion unfolds [Save] before it evaluates the header test inside. *)
Strategy expand [Save].

(** * decode *)

Definition TermMphf : Type := (TermMphfHeader * list Z * list bytes)%type.

(** DecodedIndexData. *)
Record DecodedIndexData := {
  dec_head : list HeadTermEntry;
  dec_leaf_blocks : list LeafTermBlock;
  dec_index_blocks : list bytes;
  dec_docdata : bytes;
  dec_sidecar : bytes;
  dec_prefixes : list str;
  dec_mphf : TermMphf;
}.

(** The loop over the [count] entries of [width] bytes at [base]. *)
Definition decode_entries {B} (width base count : nat) (from_bytes : bytes -> option B) (data : bytes) : result (list B) :=
  map_result (fun index =>
    let offset := base + index * width in
    if length data <? offset + width then Err InvalidFormat
    else ok_or (from_bytes (slice offset width data)) InvalidFormat) (seq 0 count).

Definition displacement_at (base : nat) (data : bytes) (index : nat) : Z := to_signed 32 (get 4 (base + index * 4) data).

Definition decode_mphf (header : IndexFileHeader) (data : bytes) : result TermMphf :=
  if (IFH_TermMphfHeaderCount header =? 0)%Z then Ok (mphf_header_default, [], [])
  else if negb (IFH_TermMphfHeaderCount header =? 1)%Z then Err InvalidFormat
  else
    let mphf_header_offset := Z.to_nat (IFH_TermMphfHeaderOffset header) in
    let displacement_offset := Z.to_nat (IFH_TermMphfDisplacementOffset header) in
    let displacement_count := Z.to_nat (IFH_TermMphfDisplacementCount header) in
    let entry_offset := Z.to_nat (IFH_TermMphfEntryOffset header) in
    let entry_page_count := Z.to_nat (IFH_TermMphfEntryPageCount header) in
    if length data <? mphf_header_offset + TERM_MPHF_HEADER_SIZE then Err InvalidFormat
    else
      let? mphf_header := ok_or (mphf_header_from_bytes (slice mphf_header_offset TERM_MPHF_HEADER_SIZE data)) InvalidFormat in
      if negb (TMH_Magic mphf_header =? TERM_MPHF_MAGIC)%Z then Err InvalidFormat
      else if length data <? displacement_offset + displacement_count * 4 then Err InvalidFormat
      else if length data <? entry_offset + entry_page_count * PAGE_SIZE then Err InvalidFormat
      else Ok (mphf_header, map (displacement_at displacement_offset data) (seq 0 displacement_count),
               map (fun index => slice (entry_offset + index * PAGE_SIZE) PAGE_SIZE data) (seq 0 entry_page_count)).

(** [decode(store, data)]: the documents' lengths and vectors go to the store. *)
Definition decode (store : PostingStore) (data : bytes) : result (PostingStore * DecodedIndexData) :=
  let? header := header_parse data in
  let? _ := validate_layout header (Some (Z.of_nat (length data))) in
  if length data <? INDEX_FILE_HEADER_SIZE + PATH_PREFIX_SIDECAR_BYTES then Err InvalidFormat
  else
    let sidecar := slice INDEX_FILE_HEADER_SIZE PATH_PREFIX_SIDECAR_BYTES data in
    let? prefixes := DecodePathPrefixSidecar sidecar in
    let? head := decode_entries 32 (Z.to_nat (IFH_HeadTermEntryOffset header)) (Z.to_nat (IFH_HeadTermEntryCount header))
                   head_from_bytes data in
    let? leaf_blocks := decode_entries PAGE_SIZE (Z.to_nat (IFH_LeafTermBlockOffset header))
                          (Z.to_nat (IFH_LeafTermBlockCount header)) leaf_from_bytes data in
    let docdata_offset := Z.to_nat (IFH_DocDataOffset header) in
    let docdata_size := Z.to_nat (IFH_NumDocuments header) * DOC_REC_SIZE in
    if length data <? docdata_offset + docdata_size then Err InvalidFormat
    else
      let docdata := slice docdata_offset docdata_size data in
      let first_doc_id := DocDataFirstDocId docdata header in
      let store := fold_left (fun store index =>
          DecodeDocDataRecord store (first_doc_id + Z.of_nat index)
            (slice (docdata_offset + index * DOC_REC_SIZE) DOC_REC_SIZE data))
        (seq 0 (Z.to_nat (IFH_NumDocuments header))) store in
      let? index_blocks := decode_entries PAGE_SIZE (Z.to_nat (IFH_IndexBlockOffset header))
                             (Z.to_nat (IFH_IndexBlockCount header)) Some data in
      let? mphf := decode_mphf header data in
      Ok (store, {| dec_head := head; dec_leaf_blocks := leaf_blocks; dec_index_blocks := index_blocks; dec_docdata := docdata;
                    dec_sidecar := sidecar; dec_prefixes := prefixes; dec_mphf := mphf |}).

(** * The loaders that read a file piece by piece

    [content]: the bytes of the file; a read past its end is an I/O error. *)

Definition read_exact (content : bytes) (offset len : nat) : result bytes :=
  if offset + len <=? length content then Ok (slice offset len content) else Err Io.

Definition LoadDocData (store : PostingStore) (content : bytes) (header : IndexFileHeader) : result (PostingStore * bytes) :=
  let? docdata := read_exact content (Z.to_nat (IFH_DocDataOffset header)) (Z.to_nat (IFH_NumDocuments header) * DOC_REC_SIZE) in
  let? store := DecodeDocData store header docdata in
  Ok (store, docdata).

Definition LoadFileTables (store : PostingStore) (content : bytes)
  : result (PostingStore * (IndexFileHeader * list HeadTermEntry * bytes)) :=
  let? header_bytes := read_exact content 0 INDEX_FILE_HEADER_SIZE in
  let? header := header_parse header_bytes in
  let? _ := validate_layout header (Some (Z.of_nat (length content))) in
  let? head := map_result (fun index =>
      let? entry := read_exact content (Z.to_nat (IFH_HeadTermEntryOffset header) + index * 32) 32 in
      ok_or (head_from_bytes entry) InvalidFormat) (seq 0 (Z.to_nat (IFH_HeadTermEntryCount header))) in
  let? docs := LoadDocData store content header in
  Ok (docs.1, (header, head, docs.2)).

Definition LoadPathPrefixSidecar (content : bytes) : result (bytes * list str) :=
  let? sidecar := read_exact content INDEX_FILE_HEADER_SIZE PATH_PREFIX_SIDECAR_BYTES in
  let? prefixes := DecodePathPrefixSidecar sidecar in
  Ok (sidecar, prefixes).

Definition LoadTermMphf (content : bytes) (header : IndexFileHeader) : result TermMphf :=
  if (IFH_TermMphfHeaderCount header =? 0)%Z then Ok (mphf_header_default, [], [])
  else if negb (IFH_TermMphfHeaderCount header =? 1)%Z || (IFH_TermMphfDisplacementCount header =? 0)%Z
          || (IFH_TermMphfEntryPageCount header =? 0)%Z then Err InvalidFormat
  else
    let? header_bytes := read_exact content (Z.to_nat (IFH_TermMphfHeaderOffset header)) TERM_MPHF_HEADER_SIZE in
    let? mphf_header := ok_or (mphf_header_from_bytes header_bytes) InvalidFormat in
    if negb (TMH_Magic mphf_header =? TERM_MPHF_MAGIC)%Z then Err InvalidFormat
    else
      let? displacements := map_result (fun index =>
          let? data := read_exact content (Z.to_nat (IFH_TermMphfDisplacementOffset header) + index * 4) 4 in
          Ok (to_signed 32 (of_le data))) (seq 0 (Z.to_nat (IFH_TermMphfDisplacementCount header))) in
      let? pages := map_result (fun index =>
          read_exact content (Z.to_nat (IFH_TermMphfEntryOffset header) + index * PAGE_SIZE) PAGE_SIZE)
          (seq 0 (Z.to_nat (IFH_TermMphfEntryPageCount header))) in
      Ok (mphf_header, displacements, pages).

(** * Loading and building in IndexContext *)

(** The fields of IndexContext that hold a loaded or built index. *)
Record LoadedIndex := {
  m_IndexFileHeader : IndexFileHeader;
  m_BlockTable : IndexBlockTable;
  m_DocData : bytes;
  m_PathPrefixSidecar : bytes;
  m_PathPrefixes : list str;
}.

Definition LoadFromBytes (data : bytes) : result LoadedIndex :=
  let? header := header_parse data in
  let? dec := decode store_new data in
  let dec := dec.2 in
  let table := SetBlockMemory IndexBlockTable_new (Some (dec_index_blocks dec)) (Some (dec_leaf_blocks dec)) in
  let table := bt_SetHeadTermEntries table (dec_head dec) in
  let '(mphfHeader, mphfDisplacements, mphfEntryPages) := dec_mphf dec in
  let table := if negb (bool_decide (mphfDisplacements = [])) && negb (bool_decide (mphfEntryPages = []))
               then bt_SetTermMphf table mphfHeader mphfDisplacements mphfEntryPages else table in
  Ok {| m_IndexFileHeader := header; m_BlockTable := table; m_DocData := dec_docdata dec;
        m_PathPrefixSidecar := dec_sidecar dec; m_PathPrefixes := dec_prefixes dec |}.

Definition INDEX_BLOCK_CACHE_BYTES : Z := 100 * 1024 * 1024.

(** IndexBlockTable::Init on the pool of a kind of the table. *)
Definition bt_Init (t : IndexBlockTable) (kind : BlockKind) (opened : option (option OsFile)) (baseOffset blockCount slotCount : Z)
  : result IndexBlockTable :=
  let '(pool, r) := cache_Init opened baseOffset blockCount slotCount in
  let? _ := r in
  Ok match kind with
     | Index => {| bt_Terms := bt_Terms t; m_IndexPool := pool; m_LeafTermPool := m_LeafTermPool t;
                   m_DirectBlockAccess := m_DirectBlockAccess t; m_AccessCounters := m_AccessCounters t |}
     | LeafTerm => {| bt_Terms := bt_Terms t; m_IndexPool := m_IndexPool t; m_LeafTermPool := pool;
                      m_DirectBlockAccess := m_DirectBlockAccess t; m_AccessCounters := m_AccessCounters t |}
     end.

(** LoadIndex without its delta: [content] is what the loaders read, [opened] what the pools read. *)
Definition LoadIndex (content : bytes) (opened : option OsFile) (leafTermCacheBytes : Z) : result LoadedIndex :=
  let? tables := LoadFileTables store_new content in
  let '(header, head, docdata) := tables.2 in
  let? sidecar := LoadPathPrefixSidecar content in
  let? mphf := LoadTermMphf content header in
  let page := Z.of_nat PAGE_SIZE in
  let? table := bt_Init IndexBlockTable_new Index (Some opened) (IFH_IndexBlockOffset header) (wrap 32 (IFH_IndexBlockCount header))
      (wrap 32 (Z.min (IFH_IndexBlockCount header) (INDEX_BLOCK_CACHE_BYTES / page))) in
  let? table := bt_Init table LeafTerm (Some opened) (IFH_LeafTermBlockOffset header) (wrap 32 (IFH_LeafTermBlockCount header))
      (wrap 32 (Z.min (IFH_LeafTermBlockCount header) (leafTermCacheBytes / page))) in
  let table := bt_SetHeadTermEntries table head in
  let '(mphfHeader, mphfDisplacements, mphfEntryPages) := mphf in
  let table := if (0 <? IFH_TermMphfHeaderCount header)%Z
               then bt_SetTermMphf table mphfHeader mphfDisplacements mphfEntryPages else table in
  Ok {| m_IndexFileHeader := header; m_BlockTable := table; m_DocData := docdata;
        m_PathPrefixSidecar := sidecar.1; m_PathPrefixes := sidecar.2 |}.

(** BuildIndexData, [None] where building the blocks or the records panics; the vector index is not modelled. *)
Definition BuildIndexData `{Libm} `{DocOrder} (store : PostingStore) : option LoadedIndex :=
  opt blocks := BuildBlocks store in
  opt docs := EncodeDocData store in
  let '(docData, pathPrefixSidecar, pathPrefixes) := docs in
  let documentCount := StoreDocDataRecordCount store in
  let page := Z.of_nat PAGE_SIZE in
  let count {A} (l : list A) := Z.of_nat (length l) in
  let headOffset := Z.of_nat (INDEX_FILE_HEADER_SIZE + PATH_PREFIX_SIDECAR_BYTES) in
  let leafOffset := (headOffset + count (BBR_HeadTermEntries blocks) * 32)%Z in
  let docDataOffset := (leafOffset + count (BBR_LeafTermBlocks blocks) * page)%Z in
  let indexOffset := (docDataOffset + count docData)%Z in
  let mphfHeaderCount := if negb (bool_decide (BBR_TermMphfDisplacements blocks = []))
                            && negb (bool_decide (BBR_TermMphfEntryPages blocks = [])) then 1%Z else 0%Z in
  let mphfHeaderOffset := (indexOffset + count (BBR_IndexBlocks blocks) * page)%Z in
  let mphfDisplacementOffset := (mphfHeaderOffset + mphfHeaderCount * Z.of_nat TERM_MPHF_HEADER_SIZE)%Z in
  let mphfEntryOffset := (mphfDisplacementOffset + count (BBR_TermMphfDisplacements blocks) * 4)%Z in
  let avg := if (documentCount =? 0)%Z then f_of_Z F32 1
             else f_div F32 (f_of_Z F32 (m_TotalTerms store)) (f_of_Z F32 documentCount) in
  let header :=
    {| IFH_Magic := INDEX_FILE_MAGIC; IFH_Version := INDEX_FORMAT_VERSION; IFH_AvgDocLength := wrap 32 (f32_to_bits avg);
       IFH_NumDocuments := documentCount; IFH_NumTerms := BBR_TotalTerms blocks;
       IFH_HeadTermEntryOffset := headOffset; IFH_HeadTermEntryCount := count (BBR_HeadTermEntries blocks);
       IFH_LeafTermBlockOffset := leafOffset; IFH_LeafTermBlockCount := count (BBR_LeafTermBlocks blocks);
       IFH_DocDataOffset := docDataOffset;
       IFH_IndexBlockOffset := indexOffset; IFH_IndexBlockCount := count (BBR_IndexBlocks blocks);
       IFH_TermMphfHeaderOffset := mphfHeaderOffset; IFH_TermMphfHeaderCount := mphfHeaderCount;
       IFH_TermMphfDisplacementOffset := mphfDisplacementOffset;
       IFH_TermMphfDisplacementCount := count (BBR_TermMphfDisplacements blocks);
       IFH_TermMphfEntryOffset := mphfEntryOffset; IFH_TermMphfEntryPageCount := count (BBR_TermMphfEntryPages blocks) |} in
  let table := SetBlockMemory IndexBlockTable_new (Some (BBR_IndexBlocks blocks)) (Some (BBR_LeafTermBlocks blocks)) in
  let table := bt_SetHeadTermEntries table (BBR_HeadTermEntries blocks) in
  let table := if (0 <? mphfHeaderCount)%Z
               then bt_SetTermMphf table (BBR_TermMphfHeader blocks) (BBR_TermMphfDisplacements blocks) (BBR_TermMphfEntryPages blocks)
               else table in
  Some {| m_IndexFileHeader := header; m_BlockTable := table; m_DocData := docData;
          m_PathPrefixSidecar := pathPrefixSidecar; m_PathPrefixes := pathPrefixes |}.

(** * Sections of a file *)

Section sections.
Implicit Types (parts : list bytes) (data pre post : bytes).

(** A part of a concatenation, at the offset of its predecessors' lengths. *)
Lemma part_at parts k x : parts !! k = Some x ->
  exists pre post, concat parts = pre ++ x ++ post /\ length pre = list_sum (map length (take k parts)).
Proof.
  intros Hk. exists (concat (take k parts)), (concat (drop (S k) parts)). split.
  - rewrite <- (take_drop_middle parts k x Hk) at 1. rewrite concat_app. done.
  - generalize (take k parts) as l. induction l as [|y l IH]; [done|]. cbn [concat map]. rewrite length_app, IH. done.
Qed.

Lemma decode_entries_ok {B} width (g : B -> bytes) (from : bytes -> option B) (l : list B) pre post data base :
  Forall (fun x => length (g x) = width /\ from (g x) = Some x) l ->
  data = pre ++ concat (map g l) ++ post -> length pre = base ->
  decode_entries width base (length l) from data = Ok l.
Proof.
  intros Hf -> Hp. unfold decode_entries. apply map_result_seq. intros i x Hi. cbn [Nat.add].
  pose proof (lookup_lt_Some _ _ _ Hi) as Hlt. assert (Hw : Forall (fun x => length (g x) = width) l) by (eapply Forall_impl; [exact Hf|]; by intros ? []).
  assert (Hcl : length (concat (map g l)) = length l * width).
  { apply (length_concat_same g width). intros a Ha. rewrite Forall_forall in Hw. by apply Hw. }
  assert ((i + 1) * width <= length l * width) by (apply Nat.mul_le_mono_r; lia).
  replace (_ <? _) with false by (symmetry; apply Nat.ltb_ge; rewrite !length_app; lia).
  assert (Hs : slice (base + i * width) width (pre ++ concat (map g l) ++ post) = g x).
  { rewrite slice_app_r by lia. rewrite Hp. replace (base + i * width - base) with (i * width) by lia.
    rewrite slice_app_l by lia. apply slice_concat; [|done]. intros a Ha. rewrite Forall_forall in Hw. by apply Hw. }
  rewrite Hs. rewrite Forall_lookup in Hf. destruct (Hf i x Hi) as [_ ->]. done.
Qed.

Lemma fold_left_ext_in {A B} (f g : B -> A -> B) l b :
  (forall b a, a ∈ l -> f b a = g b a) -> fold_left f l b = fold_left g l b.
Proof.
  revert b. induction l as [|a l IH]; intros b Hfg; [done|]. cbn. rewrite Hfg by apply list_elem_of_here.
  apply IH. intros c x Hx. by apply Hfg, list_elem_of_further.
Qed.

Lemma section_all count data : (count = 0%Z -> data = []) -> (0 <= count)%Z -> section count data = data.
Proof. intros H Hc. unfold section. destruct (0 <? count)%Z eqn:E; [done|]. bool_to_prop. symmetry. apply H. lia. Qed.
End sections.

(** What Save needs of a table: entries that fit their fields. *)
Record saveable (t : IndexBlockTable) : Prop := {
  sv_heads : Forall head_wf (m_HeadTermEntries (bt_Terms t));
  sv_leaves : Forall (fun b => leaf_wf b /\ leaf_from_bytes (leaf_to_bytes b) = Some b) (LeafTermBlocks t);
  sv_index : Forall (fun p => length p = PAGE_SIZE) (IndexBlocks t);
  sv_displacements : Forall (fun d => -2 ^ 31 <= d < 2 ^ 31)%Z (m_TermMphfDisplacements (tt_Mphf (bt_Terms t)));
  sv_entry_pages : Forall (fun p => length p = PAGE_SIZE) (m_TermMphfEntryPages (tt_Mphf (bt_Terms t)));
  sv_mphf : mphf_header_wf (m_TermMphfHeader (tt_Mphf (bt_Terms t))) /\
            TMH_Magic (m_TermMphfHeader (tt_Mphf (bt_Terms t))) = TERM_MPHF_MAGIC;
}.

(** The perfect hash that a file with this header carries. *)
Definition saved_mphf (header : IndexFileHeader) (t : IndexBlockTable) : TermMphf :=
  if (IFH_TermMphfHeaderCount header =? 0)%Z then (mphf_header_default, [], [])
  else (m_TermMphfHeader (tt_Mphf (bt_Terms t)), m_TermMphfDisplacements (tt_Mphf (bt_Terms t)),
        m_TermMphfEntryPages (tt_Mphf (bt_Terms t))).

(** The parts of the file, in order. *)
Definition file_parts (header : IndexFileHeader) (t : IndexBlockTable) (docData sidecar : bytes) : list bytes :=
  let mphf := tt_Mphf (bt_Terms t) in
  [ header_to_bytes header; sidecar; concat (map head_to_bytes (m_HeadTermEntries (bt_Terms t)));
    concat (map leaf_to_bytes (LeafTermBlocks t)); docData; concat (map id (IndexBlocks t));
    section (IFH_TermMphfHeaderCount header) (mphf_header_to_bytes (m_TermMphfHeader mphf));
    concat (map (fun d => le_bytes 4 (wrap 32 d)) (m_TermMphfDisplacements mphf));
    concat (map id (m_TermMphfEntryPages mphf)) ].

Lemma Ok_inj {A} (x y : A) : Ok x = Ok y -> x = y.
Proof. by intros [=]. Qed.

Section save.
Context (header : IndexFileHeader) (t : IndexBlockTable) (docData sidecar : bytes) (file : bytes).
Hypothesis Hheader : header_wf header.
Hypothesis Htable : saveable t.
Hypothesis Hsave : Save header t docData sidecar = Ok file.

Let mphf := tt_Mphf (bt_Terms t).

Lemma not_zeroed : is_zeroed header = false.
Proof.
  destruct Hheader as (Hm & _). unfold is_zeroed. rewrite header_to_bytes_fields by (by rewrite Hm). by rewrite Hm.
Qed.

(** What Save has checked. *)
Lemma save_checks :
  (exists end_, validate_layout header None = Ok end_) /\
  Z.of_nat (length docData) = (IFH_NumDocuments header * 256)%Z /\ length sidecar = PATH_PREFIX_SIDECAR_BYTES /\
  Z.of_nat (length (m_HeadTermEntries (bt_Terms t))) = IFH_HeadTermEntryCount header /\
  Z.of_nat (length (LeafTermBlocks t)) = IFH_LeafTermBlockCount header /\
  Z.of_nat (length (IndexBlocks t)) = IFH_IndexBlockCount header /\
  Z.of_nat (length (m_TermMphfDisplacements mphf)) = IFH_TermMphfDisplacementCount header /\
  Z.of_nat (length (m_TermMphfEntryPages mphf)) = IFH_TermMphfEntryPageCount header /\
  file = concat (file_parts header t docData sidecar).
Proof.
  unfold Save in Hsave. rewrite not_zeroed in Hsave. destruct (validate_layout header None) as [end_|] eqn:Ev; [|done]. cbn [result_bind] in Hsave.
  destruct (checked_mul 64 _ _) as [expected|] eqn:Ec; [|done]. cbn [ok_or result_bind] in Hsave.
  assert (Hexp : expected = (IFH_NumDocuments header * 256)%Z).
  { unfold checked_mul in Ec. destruct (_ <? _)%Z; [|done]. by injection Ec as <-. }
  cbn [andb] in Hsave. destruct (_ || _ || false) eqn:E1; [done|]. destruct (_ || _ || _ || _ || _) eqn:E2; [done|].
  apply Ok_inj in Hsave. bool_to_prop. split; [by exists end_|]. fold mphf.
  match goal with Hd : Z.of_nat (length docData) = expected |- _ => rewrite Hexp in Hd; pose proof Hd as Hdoc; split; [exact Hd|] end. split; [assumption|].
  split; [done|]. split; [done|]. split; [done|]. split; [done|]. split; [done|].
  rewrite <- Hsave. unfold file_parts. cbn [concat]. rewrite !map_id, app_nil_r.
  assert (Hc : forall (l : list bytes) c, Z.of_nat (length l) = c -> section c (concat l) = concat l).
  { intros l c <-. apply section_all; [|lia]. intros Hz. by destruct l. }
  rewrite !Hc by (rewrite ?length_map; done).
  rewrite (section_all (IFH_NumDocuments header) docData); [done| |].
  - intros Hz. apply length_zero_iff_nil. clear - Hdoc Hz. lia.
  - clear - Hdoc. lia.
Qed.

Lemma length_fixed {A} (f : A -> bytes) n l : Forall (fun x => length (f x) = n) l -> length (concat (map f l)) = length l * n.
Proof. intros Hf. apply (length_concat_same f n). intros a Ha. rewrite Forall_forall in Hf. by apply Hf. Qed.

(** The lengths of the parts. *)
Lemma part_lengths :
  map length (file_parts header t docData sidecar) =
  [ INDEX_FILE_HEADER_SIZE; PATH_PREFIX_SIDECAR_BYTES; length (m_HeadTermEntries (bt_Terms t)) * 32;
    length (LeafTermBlocks t) * PAGE_SIZE; length docData; length (IndexBlocks t) * PAGE_SIZE;
    if (0 <? IFH_TermMphfHeaderCount header)%Z then 48 else 0;
    length (m_TermMphfDisplacements mphf) * 4; length (m_TermMphfEntryPages mphf) * PAGE_SIZE ].
Proof.
  destruct Hheader as (Hm & _). destruct Htable as [Hh Hl Hi Hd Hp _]. destruct save_checks as (_ & _ & Hs & _). unfold file_parts. cbn [map].
  rewrite length_header_to_bytes by (by rewrite Hm). rewrite Hs.
  rewrite (length_fixed head_to_bytes 32) by (eapply Forall_impl; [exact Hh|]; intros e (_ & _ & Hft); unfold head_to_bytes, put; rewrite !length_splice; rewrite ?length_splice, ?length_le_bytes, ?Hft; cbn; lia).
  rewrite (length_fixed leaf_to_bytes PAGE_SIZE) by (eapply Forall_impl; [exact Hl|]; intros b [Hb _]; by apply length_leaf_to_bytes).
  rewrite (length_fixed id PAGE_SIZE) by done. rewrite (length_fixed id PAGE_SIZE) by done.
  rewrite (length_fixed (fun d => le_bytes 4 (wrap 32 d)) 4) by (apply Forall_forall; intros; apply length_le_bytes).
  unfold section. by destruct (0 <? IFH_TermMphfHeaderCount header)%Z.
Qed.

Lemma header_nonneg : Forall (fun v => 0 <= v)%Z (header_fields header).
Proof. destruct Hheader as (_ & _ & _ & Hf). eapply Forall_impl; [exact Hf|]. unfold in_u. lia. Qed.

(** Offsets and lengths, as the layout has them. *)
Lemma save_layout :
  (IFH_TermMphfHeaderCount header = 0 /\ m_TermMphfDisplacements mphf = [] /\ m_TermMphfEntryPages mphf = [] \/ IFH_TermMphfHeaderCount header = 1)%Z /\
  contiguous (136 + 20 * 4096) (FileFormat.sections header) (Z.of_nat (length file)) /\
  validate_layout header (Some (Z.of_nat (length file))) = Ok (Z.of_nat (length file)).
Proof.
  destruct save_checks as ([end_ Hv] & Hd & Hs & Hh & Hl & Hi & Hdis & Hpg & Hfile). pose proof Hheader as (_ & _ & _ & Hf).
  apply validate_layout_iff in Hv as (Hbad & Hcont & Hend & _); [|done].
  assert (Hcount : (IFH_TermMphfHeaderCount header = 0 /\ m_TermMphfDisplacements mphf = [] /\ m_TermMphfEntryPages mphf = [] \/ IFH_TermMphfHeaderCount header = 1)%Z).
  { unfold layout_counts_bad in Hbad. unfold header_fields in Hf. rewrite !Forall_cons in Hf. unfold in_u in Hf.
    destruct (Z.eqb_spec (IFH_TermMphfHeaderCount header) 0) as [Hz|]; [left|right; lia]. split; [done|].
    split; [destruct (m_TermMphfDisplacements mphf)|destruct (m_TermMphfEntryPages mphf)]; try done; cbn [length] in *; lia. }
  split; [done|].
  assert (Hlen : end_ = Z.of_nat (length file)).
  { rewrite Hfile, length_concat. change (fmap length) with (map (@length Z)). rewrite part_lengths. cbn [list_sum foldr].
    cbn [FileFormat.sections contiguous] in Hcont. pose proof PAGE_SIZE_Z. pose proof head_offset_Z as H0.
    destruct (0 <? IFH_TermMphfHeaderCount header)%Z eqn:E; bool_to_prop; lia. }
  rewrite <- Hlen. split; [done|]. apply validate_layout_iff; [done|]. split; [done|]. split; [done|]. split; [done|]. intros b [= <-]. lia.
Qed.

(** Each part of the file, at its offset. *)
Lemma save_part k x off :
  file_parts header t docData sidecar !! k = Some x ->
  Z.of_nat (list_sum (take k (map length (file_parts header t docData sidecar)))) = off ->
  exists pre post, file = pre ++ x ++ post /\ length pre = Z.to_nat off.
Proof.
  intros Hk Hoff. destruct save_checks as (_ & _ & _ & _ & _ & _ & _ & _ & ->).
  destruct (part_at _ k x Hk) as (pre & post & Heq & Hl). exists pre, post. split; [done|]. rewrite Hl.
  change (map length ?l) with (length <$> l). rewrite fmap_take. change (length <$> ?l) with (map length l). lia.
Qed.

(** The offsets, in order. *)
Lemma save_offsets :
  let parts := map length (file_parts header t docData sidecar) in
  IFH_HeadTermEntryOffset header = Z.of_nat (list_sum (take 2 parts)) /\
  IFH_LeafTermBlockOffset header = Z.of_nat (list_sum (take 3 parts)) /\
  IFH_DocDataOffset header = Z.of_nat (list_sum (take 4 parts)) /\
  IFH_IndexBlockOffset header = Z.of_nat (list_sum (take 5 parts)) /\
  IFH_TermMphfHeaderOffset header = Z.of_nat (list_sum (take 6 parts)) /\
  IFH_TermMphfDisplacementOffset header = Z.of_nat (list_sum (take 7 parts)) /\
  IFH_TermMphfEntryOffset header = Z.of_nat (list_sum (take 8 parts)).
Proof.
  cbv zeta. rewrite part_lengths. destruct save_layout as (Hcount & Hcont & _).
  destruct save_checks as (_ & Hd & Hs & Hh & Hl & Hi & Hdis & Hpg & _).
  cbn [FileFormat.sections contiguous] in Hcont. pose proof PAGE_SIZE_Z. pose proof head_offset_Z as H0. cbn [take list_sum foldr].
  destruct (0 <? IFH_TermMphfHeaderCount header)%Z eqn:E; bool_to_prop; split_and!; lia.
Qed.

Lemma decode_mphf_saved : decode_mphf header file = Ok (saved_mphf header t).
Proof.
  destruct save_checks as (_ & Hd & Hs & Hh & Hl & Hi & Hdis & Hpg & _). destruct save_layout as (Hcount & _ & _).
  destruct save_offsets as (_ & _ & _ & _ & O6 & O7 & O8). destruct Htable as [_ _ _ Hdr Hpr [Hmw Hmagic]].
  unfold decode_mphf, saved_mphf. destruct Hcount as [[Hz _]|Hone]; [by rewrite Hz|]. rewrite Hone. cbn [Z.eqb Pos.eqb negb].
  destruct (save_part 6 (mphf_header_to_bytes (m_TermMphfHeader mphf)) _ ltac:(unfold file_parts; rewrite Hone; reflexivity) (eq_sym O6)) as (p6 & q6 & F6 & L6).
  destruct (save_part 7 _ _ eq_refl (eq_sym O7)) as (p7 & q7 & F7 & L7). destruct (save_part 8 _ _ eq_refl (eq_sym O8)) as (p8 & q8 & F8 & L8).
  fold mphf in F6, F7, F8, Hdr, Hpr, Hmw, Hmagic. fold mphf.
  assert (Hl6 : length (mphf_header_to_bytes (m_TermMphfHeader mphf)) = TERM_MPHF_HEADER_SIZE) by reflexivity.
  pose proof (length_fixed (fun d => le_bytes 4 (wrap 32 d)) 4 (m_TermMphfDisplacements mphf) ltac:(apply Forall_forall; intros; apply length_le_bytes)) as Hl7.
  pose proof (length_fixed id PAGE_SIZE (m_TermMphfEntryPages mphf) Hpr) as Hl8.
  rewrite <- Hdis, <- Hpg, !Nat2Z.id.
  replace (_ <? _) with false by (symmetry; apply Nat.ltb_ge; rewrite F6, !length_app; lia).
  assert (S6 : slice (Z.to_nat (IFH_TermMphfHeaderOffset header)) TERM_MPHF_HEADER_SIZE file = mphf_header_to_bytes (m_TermMphfHeader mphf)).
  { rewrite F6. by apply slice_app_mid. }
  rewrite S6, mphf_header_from_to by done. cbn [ok_or result_bind]. rewrite Hmagic, Z.eqb_refl. cbn [negb].
  replace (_ <? _) with false by (symmetry; apply Nat.ltb_ge; rewrite F7, !length_app; lia).
  replace (_ <? _) with false by (symmetry; apply Nat.ltb_ge; rewrite F8, !length_app; lia).
  f_equal. f_equal; [f_equal|].
  - apply list_eq. intros i. change (map ?f ?l) with (f <$> l). rewrite list_lookup_fmap.
    destruct (m_TermMphfDisplacements mphf !! i) as [d|] eqn:Ed.
    2:{ apply lookup_ge_None_1 in Ed. by rewrite lookup_seq_ge by lia. }
    pose proof (lookup_lt_Some _ _ _ Ed). rewrite lookup_seq_lt by done. cbn [fmap option_fmap option_map Nat.add]. f_equal.
    unfold displacement_at, get. rewrite F7, slice_app_r by lia. rewrite L7. replace (_ - _) with (i * 4) by lia.
    rewrite slice_app_l by lia. rewrite (slice_concat (fun d => le_bytes 4 (wrap 32 d)) 4 _ i d) by (done || (intros; apply length_le_bytes)).
    rewrite of_le_le_bytes_id by (apply wrap_range; lia). rewrite Forall_lookup in Hdr. specialize (Hdr i d Ed).
    unfold to_signed. rewrite wrap_wrap by lia. unfold wrap. case_test; dlia.
  - apply list_eq. intros i. change (map ?f ?l) with (f <$> l). rewrite list_lookup_fmap.
    destruct (m_TermMphfEntryPages mphf !! i) as [d|] eqn:Ed.
    2:{ apply lookup_ge_None_1 in Ed. by rewrite lookup_seq_ge by lia. }
    pose proof (lookup_lt_Some _ _ _ Ed). rewrite lookup_seq_lt by done. cbn [fmap option_fmap option_map Nat.add]. f_equal.
    assert ((i + 1) * PAGE_SIZE <= length (m_TermMphfEntryPages mphf) * PAGE_SIZE) by (apply Nat.mul_le_mono_r; lia).
    rewrite F8, slice_app_r by lia. rewrite L8. replace (_ - _) with (i * PAGE_SIZE) by lia.
    rewrite slice_app_l by lia. apply (slice_concat id PAGE_SIZE _ i d); [|done]. intros a Ha. rewrite Forall_forall in Hpr. by apply Hpr.
Qed.

(** What decoding a saved file gives. *)
Definition saved_parts (prefixes : list str) : DecodedIndexData :=
  {| dec_head := m_HeadTermEntries (bt_Terms t); dec_leaf_blocks := LeafTermBlocks t; dec_index_blocks := IndexBlocks t;
     dec_docdata := docData; dec_sidecar := sidecar; dec_prefixes := prefixes; dec_mphf := saved_mphf header t |}.

Lemma header_saved : header_parse file = Ok header /\ slice 0 INDEX_FILE_HEADER_SIZE file = header_to_bytes header.
Proof.
  destruct save_checks as (_ & _ & _ & _ & _ & _ & _ & _ & ->). unfold file_parts. cbn [concat].
  destruct Hheader as (Hm & _). split; [by apply header_parse_to_bytes|].
  rewrite slice_app_l by (rewrite length_header_to_bytes by (by rewrite Hm); lia).
  rewrite <- (length_header_to_bytes header) by (by rewrite Hm). apply slice_full.
Qed.

Lemma part_slice pre x post off : file = pre ++ x ++ post -> length pre = off ->
  slice off (length x) file = x /\ off + length x <= length file.
Proof. intros -> <-. split; [by apply slice_app_mid|]. rewrite !length_app. lia. Qed.

Lemma decode_saved store store' prefixes :
  DecodePathPrefixSidecar sidecar = Ok prefixes -> DecodeDocData store header docData = Ok store' ->
  decode store file = Ok (store', saved_parts prefixes).
Proof.
  intros Hpre Hstore. destruct save_checks as (_ & Hd & Hs & Hh & Hl & Hi & Hdis & Hpg & _). destruct save_layout as (_ & _ & Hv).
  destruct save_offsets as (O2 & O3 & O4 & O5 & _). destruct header_saved as [Hparse _]. destruct Htable as [Hhw Hlw Hiw _ _ _].
  assert (O1 : Z.of_nat (list_sum (take 1 (map length (file_parts header t docData sidecar)))) = Z.of_nat INDEX_FILE_HEADER_SIZE)
    by (rewrite part_lengths; cbn; done).
  destruct (save_part 1 _ _ eq_refl O1) as (p1 & q1 & F1 & L1). destruct (save_part 2 _ _ eq_refl (eq_sym O2)) as (p2 & q2 & F2 & L2).
  destruct (save_part 3 _ _ eq_refl (eq_sym O3)) as (p3 & q3 & F3 & L3). destruct (save_part 4 _ _ eq_refl (eq_sym O4)) as (p4 & q4 & F4 & L4).
  destruct (save_part 5 _ _ eq_refl (eq_sym O5)) as (p5 & q5 & F5 & L5). rewrite Nat2Z.id in L1.
  destruct (part_slice _ _ _ _ F1 L1) as [S1 B1]. destruct (part_slice _ _ _ _ F4 L4) as [S4 B4]. rewrite Hs in S1, B1.
  assert (Hdoc : Z.to_nat (IFH_NumDocuments header) * DOC_REC_SIZE = length docData) by (unfold DOC_REC_SIZE; lia).
  unfold decode. rewrite Hparse. cbn [result_bind]. rewrite Hv. cbn [result_bind].
  replace (_ <? _) with false by lia. rewrite S1, Hpre. cbn [result_bind]. rewrite <- Hh, <- Hl, <- Hi, !Nat2Z.id.
  rewrite (decode_entries_ok 32 head_to_bytes head_from_bytes _ p2 q2 file) by (done || (eapply Forall_impl; [exact Hhw|]; intros e He;
    split; [destruct He as (_ & _ & Hft); unfold head_to_bytes, put; rewrite !length_splice; rewrite ?length_splice, ?length_le_bytes, ?Hft; cbn; lia
           |by apply head_from_to])).
  cbn [result_bind].
  rewrite (decode_entries_ok PAGE_SIZE leaf_to_bytes leaf_from_bytes _ p3 q3 file) by (done || (eapply Forall_impl; [exact Hlw|]; intros b [Hb Hfb];
    split; [by apply length_leaf_to_bytes|done])).
  cbn [result_bind]. rewrite Hdoc. replace (_ <? _) with false by lia. rewrite S4.
  rewrite (decode_entries_ok PAGE_SIZE id Some (IndexBlocks t) p5 q5 file) by (done || (eapply Forall_impl; [exact Hiw|]; by intros b Hb)).
  cbn [result_bind]. rewrite decode_mphf_saved. cbn [result_bind]. unfold saved_parts. do 3 f_equal.
  unfold DecodeDocData in Hstore. destruct (negb _); [done|]. injection Hstore as <-. apply fold_left_ext_in.
  intros s i Hin. f_equal. apply elem_of_seq in Hin. rewrite F4. unfold DOC_REC_SIZE in *.
  rewrite slice_app_r by lia. rewrite L4. replace (_ - _) with (i * 256) by lia. apply slice_app_l. lia.
Qed.

(** The pages of a section, as a pool over the file has them. *)
Lemma saved_page {A} k (g : A -> bytes) l off i :
  file_parts header t docData sidecar !! k = Some (concat (map g l)) ->
  Z.of_nat (list_sum (take k (map length (file_parts header t docData sidecar)))) = off ->
  Forall (fun p => length p = PAGE_SIZE) (map g l) ->
  (if (Z.of_nat i <? Z.of_nat (length l))%Z then Some (file_block file off (Z.of_nat i)) else None) = g <$> l !! i.
Proof.
  intros Hk Hoff Hf. destruct (l !! i) as [x|] eqn:Hi.
  2:{ apply lookup_ge_None_1 in Hi. by replace (_ <? _)%Z with false by lia. }
  destruct (save_part k _ _ Hk Hoff) as (pre & post & -> & Hl). unfold file_block.
  rewrite Forall_map in Hf. pose proof (lookup_lt_Some _ _ _ Hi). assert ((i + 1) * PAGE_SIZE <= length l * PAGE_SIZE) by (apply Nat.mul_le_mono_r; lia).
  pose proof (length_fixed g PAGE_SIZE l Hf) as Hc. replace (_ <? _)%Z with true by lia. cbn [fmap option_fmap option_map]. f_equal.
  replace (Z.to_nat _) with (length pre + i * PAGE_SIZE) by lia.
  rewrite slice_app_r by lia. replace (_ - _) with (i * PAGE_SIZE) by lia. rewrite slice_app_l by lia.
  apply slice_concat; [|done]. intros a Ha. rewrite Forall_forall in Hf. by apply Hf.
Qed.
End save.

(** * The two ways of reading a file agree *)

Lemma map_result_mono {A B} (f g : A -> result B) l ys :
  (forall x y, x ∈ l -> f x = Ok y -> g x = Ok y) -> map_result f l = Ok ys -> map_result g l = Ok ys.
Proof.
  revert ys. induction l as [|x l IH]; intros ys Hfg; [done|]. cbn [map_result].
  destruct (f x) as [y|] eqn:Ef; [|done]. cbn [result_bind]. destruct (map_result f l) as [zs|] eqn:El; [|done]. cbn [result_bind].
  rewrite (Hfg x y (list_elem_of_here _ _) Ef). cbn [result_bind].
  rewrite (IH zs); [done| |done]. intros z w Hz. by apply Hfg, list_elem_of_further.
Qed.

Lemma map_result_total {A B} (f : A -> result B) (g : A -> B) l :
  (forall x, x ∈ l -> f x = Ok (g x)) -> map_result f l = Ok (map g l).
Proof.
  induction l as [|x l IH]; intros Hf; [done|]. cbn [map_result map]. rewrite Hf by apply list_elem_of_here. cbn [result_bind].
  by rewrite IH by (intros; by apply Hf, list_elem_of_further).
Qed.

Lemma header_parse_prefix data : INDEX_FILE_HEADER_SIZE <= length data ->
  header_parse (slice 0 INDEX_FILE_HEADER_SIZE data) = header_parse data.
Proof.
  intros Hl. assert (Hsl : forall o n, o + n <= INDEX_FILE_HEADER_SIZE -> slice o n (slice 0 INDEX_FILE_HEADER_SIZE data) = slice o n data)
    by (intros o n Ho; by rewrite slice_slice).
  unfold header_parse, get. rewrite length_slice, Nat.ltb_irrefl by lia.
  replace (length data <? _) with false by (symmetry; apply Nat.ltb_ge; lia).
  unfold INDEX_FILE_HEADER_SIZE in *. rewrite !Hsl by lia. destruct (false || _); [done|]. destruct (negb _); [done|]. f_equal.
  unfold header_of. by rewrite !Hsl by lia.
Qed.

Lemma read_exact_ok content off len : off + len <= length content -> read_exact content off len = Ok (slice off len content).
Proof. intros H. unfold read_exact. by replace (_ <=? _) with true by (symmetry; apply Nat.leb_le; lia). Qed.

Lemma decode_entries_read {B} width base count (from : bytes -> option B) content l :
  decode_entries width base count from content = Ok l ->
  map_result (fun index => let? entry := read_exact content (base + index * width) width in ok_or (from entry) InvalidFormat)
    (seq 0 count) = Ok l.
Proof.
  apply map_result_mono. intros i y _. cbv zeta. destruct (_ <? _) eqn:E; [done|]. bool_to_prop. by rewrite read_exact_ok by lia.
Qed.

Section agree.
Context (store store' : PostingStore) (content : bytes) (dec : DecodedIndexData) (header : IndexFileHeader).
Hypothesis Hwf : header_wf header.
Hypothesis Hparse : header_parse content = Ok header.
Hypothesis Hdecode : decode store content = Ok (store', dec).

Lemma decode_steps :
  (exists end_, validate_layout header (Some (Z.of_nat (length content))) = Ok end_) /\
  INDEX_FILE_HEADER_SIZE + PATH_PREFIX_SIDECAR_BYTES <= length content /\
  dec_sidecar dec = slice INDEX_FILE_HEADER_SIZE PATH_PREFIX_SIDECAR_BYTES content /\
  DecodePathPrefixSidecar (dec_sidecar dec) = Ok (dec_prefixes dec) /\
  decode_entries 32 (Z.to_nat (IFH_HeadTermEntryOffset header)) (Z.to_nat (IFH_HeadTermEntryCount header)) head_from_bytes content = Ok (dec_head dec) /\
  Z.to_nat (IFH_DocDataOffset header) + Z.to_nat (IFH_NumDocuments header) * DOC_REC_SIZE <= length content /\
  dec_docdata dec = slice (Z.to_nat (IFH_DocDataOffset header)) (Z.to_nat (IFH_NumDocuments header) * DOC_REC_SIZE) content /\
  store' = fold_left (fun store index =>
          DecodeDocDataRecord store (DocDataFirstDocId (dec_docdata dec) header + Z.of_nat index)
            (slice (Z.to_nat (IFH_DocDataOffset header) + index * DOC_REC_SIZE) DOC_REC_SIZE content))
        (seq 0 (Z.to_nat (IFH_NumDocuments header))) store /\
  decode_mphf header content = Ok (dec_mphf dec).
Proof.
  unfold decode in Hdecode. rewrite Hparse in Hdecode. cbn [result_bind] in Hdecode.
  destruct (validate_layout _ _) as [end_|]; [|done]. cbn [result_bind] in Hdecode. destruct (length content <? INDEX_FILE_HEADER_SIZE + _) eqn:E1; [done|].
  destruct (DecodePathPrefixSidecar _) as [ps|] eqn:Ep; [|done]. cbn [result_bind] in Hdecode.
  destruct (decode_entries 32 _ _ _ _) as [hs|]; [|done]. cbn [result_bind] in Hdecode.
  destruct (decode_entries PAGE_SIZE _ _ leaf_from_bytes _) as [ls|]; [|done]. cbn [result_bind] in Hdecode. destruct (length content <? Z.to_nat _ + _) eqn:E2; [done|].
  destruct (decode_entries PAGE_SIZE _ _ Some _) as [xs|]; [|done]. cbn [result_bind] in Hdecode.
  destruct (decode_mphf _ _) as [m|]; [|done]. cbn [result_bind] in Hdecode. injection Hdecode as <- <-. bool_to_prop. cbn.
  split; [by eexists|]. repeat (split; [done|]). done.
Qed.

Lemma LoadFileTables_decode : LoadFileTables store content = Ok (store', (header, dec_head dec, dec_docdata dec)).
Proof.
  destruct decode_steps as ([end_ Hv] & Hl & _ & _ & Hhead & Hdoc & Hdd & Hst & _).
  unfold LoadFileTables. rewrite read_exact_ok by lia. cbn [result_bind]. rewrite header_parse_prefix, Hparse by lia. cbn [result_bind].
  rewrite Hv. cbn [result_bind]. rewrite (decode_entries_read _ _ _ _ _ _ Hhead). cbn [result_bind].
  unfold LoadDocData. rewrite read_exact_ok by lia. cbn [result_bind]. rewrite <- Hdd.
  assert (Hn : length (dec_docdata dec) = Z.to_nat (IFH_NumDocuments header) * DOC_REC_SIZE) by (rewrite Hdd; by apply length_slice).
  assert (Hpos : (0 <= IFH_NumDocuments header)%Z).
  { destruct Hwf as (_ & _ & _ & Hf). unfold header_fields in Hf. rewrite !Forall_cons in Hf. unfold in_u in Hf. lia. }
  unfold DecodeDocData. rewrite Hn. replace (negb _) with false by lia. cbn [result_bind fst snd]. rewrite Hst.
  do 2 f_equal. apply fold_left_ext_in. intros b a Ha. apply elem_of_seq in Ha.
  f_equal. rewrite Hdd. apply slice_slice. assert ((a + 1) * DOC_REC_SIZE <= Z.to_nat (IFH_NumDocuments header) * DOC_REC_SIZE) by (apply Nat.mul_le_mono_r; lia). lia.
Qed.

Lemma LoadPathPrefixSidecar_decode : LoadPathPrefixSidecar content = Ok (dec_sidecar dec, dec_prefixes dec).
Proof.
  destruct decode_steps as (_ & Hl & Hs & Hp & _). unfold LoadPathPrefixSidecar. rewrite read_exact_ok by lia.
  cbn [result_bind]. rewrite <- Hs, Hp. done.
Qed.

Lemma LoadTermMphf_decode : LoadTermMphf content header = Ok (dec_mphf dec).
Proof.
  destruct decode_steps as ([end_ Hv] & Hl & _ & _ & _ & _ & _ & _ & Hm). unfold decode_mphf in Hm. unfold LoadTermMphf.
  pose proof Hwf as (_ & _ & _ & Hf).
  apply validate_layout_iff in Hv as (Hbad & _); [|done]. unfold layout_counts_bad in Hbad.
  destruct (Z.eqb_spec (IFH_TermMphfHeaderCount header) 0) as [Hz|Hz]; [done|].
  destruct (Z.eqb_spec (IFH_TermMphfHeaderCount header) 1) as [Ho|Ho]; [|done]. cbn [negb orb] in *.
  replace ((_ =? 0)%Z || (_ =? 0)%Z) with false by lia. cbn [negb orb] in *.
  destruct (length content <? _) eqn:E1 in Hm; [done|]. bool_to_prop. rewrite read_exact_ok by lia. cbn [result_bind].
  destruct (ok_or _ _) as [h|]; [|done]. cbn [result_bind] in *. destruct (negb (TMH_Magic h =? _)%Z); [done|].
  destruct (length content <? _) eqn:E2 in Hm; [done|]. destruct (length content <? _) eqn:E3 in Hm; [done|]. injection Hm as <-. bool_to_prop.
  rewrite (map_result_total _ (displacement_at (Z.to_nat (IFH_TermMphfDisplacementOffset header)) content)).
  2:{ intros i Hi. apply elem_of_seq in Hi. by rewrite read_exact_ok by lia. }
  cbn [result_bind]. rewrite (map_result_total _ (fun index => slice (Z.to_nat (IFH_TermMphfEntryOffset header) + index * PAGE_SIZE) PAGE_SIZE content)).
  2:{ intros i Hi. apply elem_of_seq in Hi. apply read_exact_ok.
      assert ((i + 1) * PAGE_SIZE <= Z.to_nat (IFH_TermMphfEntryPageCount header) * PAGE_SIZE) by (apply Nat.mul_le_mono_r; lia). lia. }
  done.
Qed.
End agree.

(** * What a table serves *)

Definition in_order (disk : Z -> bytes) (s : BlockCacheState) : Prop :=
  cache_inv disk s [] [] /\ forall c b sequential, (0 <= b < BCP_TotalBlockCount s)%Z ->
    exists s' c' i, cache_GetBlock s c true b sequential = Some (s', c', Pinned i).

Lemma table_block sequential disk t kind b :
  m_DirectBlockAccess t = true -> in_order disk (Pool t kind) -> (0 <= b)%Z ->
  table_page sequential t kind b = if (b <? BCP_TotalBlockCount (Pool t kind))%Z then Some (disk b) else None.
Proof.
  intros Hd [Hinv Hget] Hb. unfold table_page. rewrite Hd. destruct (_ <? _)%Z eqn:E; bool_to_prop.
  - destruct (Hget (m_AccessCounters t) b sequential ltac:(lia)) as (s' & c' & i & Hg). rewrite Hg. f_equal.
    destruct (cache_GetBlock_inv disk _ (m_AccessCounters t) true b sequential [] Hinv Hb ltac:(done)) as (s1 & c1 & r & Hg1 & Hr & _).
    rewrite Hg in Hg1. injection Hg1 as <- <- <-. eapply handle_page_ok; [apply Hr|apply list_elem_of_here].
  - destruct (cache_GetBlock_inv disk _ (m_AccessCounters t) true b sequential [] Hinv Hb ltac:(done)) as (s1 & c1 & r & -> & _ & _ & _ & Hr).
    by destruct r; [|lia| |].
Qed.

Lemma memory_in_order blocks :
  Forall (fun p => length p = PAGE_SIZE) blocks -> (Z.of_nat (length blocks) <= u32_max)%Z ->
  in_order (memory_block blocks) (SetPoolMemory (Some blocks)) /\
  BCP_TotalBlockCount (SetPoolMemory (Some blocks)) = Z.of_nat (length blocks) /\ CopyPoolBlocks (SetPoolMemory (Some blocks)) = blocks.
Proof.
  intros Hf Hn. destruct (SetPoolMemory_ok blocks Hf Hn) as (Hinv & Hres & Htot & Hcopy). split; [split; [done|]|done].
  intros c b sequential Hb. destruct (resident_GetBlock _ _ c true b sequential [] Hinv Hres Hb ltac:(done)) as (s' & c' & i & Hg & _). by eauto.
Qed.

Lemma file_in_order file content base blockCount slotCount :
  file_holds file content -> reads_fully file content -> (0 <= base)%Z -> (0 <= blockCount <= u32_max)%Z ->
  (base + blockCount * Z.of_nat PAGE_SIZE <= Z.of_nat (length content))%Z -> (Z.of_nat (length content) < 2 ^ 63)%Z ->
  (0 <= slotCount)%Z -> (0 < blockCount -> 0 < slotCount)%Z -> (slotCount * Z.of_nat PAGE_SIZE < 2 ^ 31)%Z ->
  exists s, cache_Init (Some (Some file)) base blockCount slotCount = (s, Ok tt) /\
    in_order (file_block content base) s /\ BCP_TotalBlockCount s = blockCount.
Proof.
  intros Hholds Hreads Hbase Hbc Hfit Hlen Hsc Hpos Hsmall. pose proof PAGE_SIZE_Z as HP.
  destruct (cache_Init_ok file content base blockCount slotCount Hholds Hbase Hsc Hbc ltac:(lia) ltac:(lia)) as (Hinv & Htot & Hcnt & Hok).
  destruct (cache_Init_reads file content base blockCount slotCount Hreads Hbase Hfit) as [Hdisk Hev]. cbv zeta in *. specialize (Hok Hreads Hfit).
  destruct (cache_Init _ _ _ _) as [s res]. cbn [fst snd] in *. subst res. exists s. split; [done|]. split; [|done]. split; [done|]. intros c b sequential Hb.
  unfold cache_GetBlock. destruct sequential.
  { destruct (get_sequential_finds _ s b Hinv Hdisk Hb) as (s' & i & ->); [lia|nia|]. by eauto. }
  eapply ProcessGetBlock_finds; [done|done|done|done| |lia]. eapply unpinned_free_slot; [done|]. lia.
Qed.

Lemma memory_block_lookup blocks (i : nat) :
  (if (Z.of_nat i <? Z.of_nat (length blocks))%Z then Some (memory_block blocks (Z.of_nat i)) else None) = blocks !! i.
Proof.
  unfold memory_block. rewrite Nat2Z.id. destruct (_ <? _)%Z eqn:E; bool_to_prop.
  - destruct (lookup_lt_is_Some_2 blocks i ltac:(lia)) as [p Hp]. by rewrite (nth_lookup_Some _ _ _ _ Hp).
  - symmetry. apply lookup_ge_None_2. lia.
Qed.

(** * The index that BuildIndexData makes *)

(** The answers of a store, from an index: a reader opened on a key reads the documents the store has for
    it, and a document's record and path are the store's. *)
Definition answers `{Libm} (ix : LoadedIndex) (store : PostingStore) : Prop :=
  let source := @table_source (table_blocks (m_BlockTable ix)) (bt_Terms (m_BlockTable ix)) in
  (forall key num_documents average_stream_length span_weight word_span,
     searchable key -> (0 < num_documents)%Z -> f_gt average_stream_length (f_of_Z F32 0) = true ->
     exists reader, @Open source _ key num_documents average_stream_length span_weight word_span = Some reader /\
       @reads _ _ (@adv_spec source) reader (store_docs store key)) /\
  (forall id, let d := ReaderDocumentIDValue id in (0 <= d)%Z ->
     match m_DocStats store !! d with
     | Some st =>
         (exists entry, GetDocDataEntry (m_DocData ix) (m_IndexFileHeader ix) None id = Some entry /\ entry_matches store d st entry) /\
         (path st <> [] -> path_kept (path st) (m_PathPrefixes ix) ->
            index_GetDocPath (m_DocData ix) (m_IndexFileHeader ix) (m_PathPrefixes ix) None id = path st)
     | None =>
         GetDocDataEntry (m_DocData ix) (m_IndexFileHeader ix) None id = None /\
         index_GetDocPath (m_DocData ix) (m_IndexFileHeader ix) (m_PathPrefixes ix) None id = []
     end).

(** The page counts fit the format. *)
Definition index_fits (ix : LoadedIndex) : Prop :=
  (IFH_IndexBlockCount (m_IndexFileHeader ix) <= u32_max)%Z /\ (IFH_LeafTermBlockCount (m_IndexFileHeader ix) <= u32_max)%Z.

Lemma BuildBlocks_no_mphf `{Libm} store r : BuildBlocks store = Some r ->
  BBR_TermMphfDisplacements r = [] /\ BBR_TermMphfEntryPages r = [].
Proof. unfold BuildBlocks. destruct (fold_option _ _ _) as [st|]; [|done]. cbn. destruct (flush_leaf_block _); [|done]. by intros [= <-]. Qed.

Lemma built_leaf_ok b g : leaf_block_of b g -> leaf_wf b /\ leaf_from_bytes (leaf_to_bytes b) = Some b.
Proof.
  intros ((Hwf & Hd) & _ & _ & Hc & He). split; [done|]. unfold entry_count in Hc. rewrite Hd, Nat2Z.id in Hc. apply leaf_from_to; [done|lia|].
  intros i Hi. unfold entry_count in Hi. rewrite Hd, Nat2Z.id, Hc in Hi. rewrite He by done. by apply lookup_lt_is_Some_2.
Qed.

Lemma head_new_wf term id h : in_u 32 id -> head_new term id = Some h -> head_wf h.
Proof.
  intros Hid. unfold head_new. destruct (_ <=? _) eqn:E; [|done]. intros [= <-]. bool_to_prop. unfold HEAD_TERM_KEY_MAX in *.
  split; [done|]. cbn [HTE_FirstTermLength HTE_FirstTerm]. split; [rewrite wrap_small by (unfold in_u; lia); lia|].
  rewrite length_splice; [apply length_replicate|]. unfold zeros. rewrite length_replicate. lia.
Qed.

Lemma built_heads_wf `{Libm} store r groups : built store r groups -> Forall head_wf (BBR_HeadTermEntries r) /\
  length (BBR_HeadTermEntries r) = length (BBR_LeafTermBlocks r).
Proof.
  intros [_ Hb Hh _ _]. split.
  - apply Forall_lookup. intros i h Hi. assert (Hl : map Some (BBR_HeadTermEntries r) !! i = Some (Some h)).
    { change (map Some) with (fmap (M := list) (@Some HeadTermEntry)). by rewrite list_lookup_fmap, Hi. }
    rewrite Hh in Hl. unfold heads_of in Hl. rewrite list_lookup_imap in Hl. destruct (groups !! i); [|done]. cbn in Hl. injection Hl as Hl.
    eapply head_new_wf; [|done]. apply wrap_range. lia.
  - rewrite <- (length_map Some), Hh. unfold heads_of. rewrite length_imap. symmetry. by eapply Forall2_length.
Qed.

Definition index_table (r : BuildBlocksResult) : IndexBlockTable :=
  bt_SetHeadTermEntries (SetBlockMemory IndexBlockTable_new (Some (BBR_IndexBlocks r)) (Some (BBR_LeafTermBlocks r))) (BBR_HeadTermEntries r).

(** The header describes these sections and no perfect hash. *)
Record header_of_parts (h : IndexFileHeader) (heads leaves documents pages : Z) : Prop := {
  hp_magic : IFH_Magic h = INDEX_FILE_MAGIC;
  hp_version : IFH_Version h = INDEX_FORMAT_VERSION;
  hp_avg : in_u 32 (IFH_AvgDocLength h);
  hp_terms : in_u 64 (IFH_NumTerms h);
  hp_counts : (IFH_HeadTermEntryCount h = heads /\ IFH_LeafTermBlockCount h = leaves /\ IFH_NumDocuments h = documents /\
    IFH_IndexBlockCount h = pages /\ IFH_TermMphfHeaderCount h = 0 /\ IFH_TermMphfDisplacementCount h = 0 /\ IFH_TermMphfEntryPageCount h = 0)%Z;
  hp_sections : contiguous (136 + 20 * 4096) (FileFormat.sections h)
    (136 + 20 * 4096 + heads * 32 + leaves * 4096 + documents * 256 + pages * 4096);
}.

Lemma header_of_parts_wf h heads leaves documents pages :
  header_of_parts h heads leaves documents pages ->
  (0 <= heads <= u32_max)%Z -> (0 <= leaves <= u32_max)%Z -> (0 <= documents < 2 ^ 32)%Z -> (0 <= pages <= u32_max)%Z ->
  header_wf h /\ exists end_, validate_layout h None = Ok end_.
Proof.
  intros [Hm Hv Ha Ht (C1 & C2 & C3 & C4 & C5 & C6 & C7) Hs] H1 H2 H3 H4. unfold u32_max in *.
  assert (Hwf : header_wf h).
  { split; [done|]. split; [done|]. split; [done|]. unfold header_fields. rewrite !Forall_cons. cbn [FileFormat.sections contiguous] in Hs.
    unfold in_u in *. repeat (split; [lia|]). by constructor. }
  split; [done|]. eexists. apply validate_layout_iff; [apply Hwf|]. split; [unfold layout_counts_bad, u32_max; lia|].
  split; [exact Hs|]. split; [lia|by intros].
Qed.

Section build.
Context `{Libm} `{DocOrder} (store : PostingStore).
Hypothesis Hstore : storable store.
Hypothesis Hdocs : docs_wf store.

Lemma count_bound : (0 <= StoreDocDataRecordCount store < 2 ^ 32)%Z.
Proof.
  destruct (store_slots store) as (_ & Hcount & Hfirst & Hempty). cbv zeta in *. split; [done|].
  destruct (decide (m_DocStats store = ∅)) as [He|Hne]; [rewrite (Hempty He); lia|].
  destruct (Hfirst Hne) as [st0 H1]. destruct (store_last store Hne) as (d & st & H2 & Hle).
  destruct (proj1 Hdocs _ _ H1) as [R1 _]. destruct (proj1 Hdocs _ _ H2) as [R2 _]. unfold u32_max in *. lia.
Qed.

Lemma BuildIndexData_ok : exists ix r groups out t,
  BuildIndexData store = Some ix /\ built store r groups /\
  m_BlockTable ix = index_table r /\ m_DocData ix = out /\ m_PathPrefixes ix = prefixes t /\
  length (m_PathPrefixSidecar ix) = PATH_PREFIX_SIDECAR_BYTES /\ DecodePathPrefixSidecar (m_PathPrefixSidecar ix) = Ok (prefixes t) /\
  length out = Z.to_nat (StoreDocDataRecordCount store) * DOC_REC_SIZE /\
  (forall d st, m_DocStats store !! d = Some st -> holds_doc store t d st (record_at (Z.to_nat (d - StoreFirstDocId store)) out)) /\
  (forall d, (StoreFirstDocId store <= d < StoreFirstDocId store + StoreDocDataRecordCount store)%Z ->
     m_DocStats store !! d = None -> record_at (Z.to_nat (d - StoreFirstDocId store)) out = blank_record) /\
  header_of_parts (m_IndexFileHeader ix) (Z.of_nat (length (BBR_LeafTermBlocks r))) (Z.of_nat (length (BBR_LeafTermBlocks r)))
    (StoreDocDataRecordCount store) (Z.of_nat (length (BBR_IndexBlocks r))).
Proof.
  destruct (BuildBlocks_built store (storable_terms store Hstore)) as (r & groups & Hr & Hb).
  destruct (EncodeDocData_ok store Hdocs) as (out & sc & t & He & _ & Hsl & Hsc & Hl & Hd & Hblank).
  destruct (BuildBlocks_no_mphf store r Hr) as [Hz1 Hz2]. destruct (built_heads_wf store r groups Hb) as [_ Hlen].
  unfold BuildIndexData. rewrite Hr, He, head_offset_Z, PAGE_SIZE_Z. cbn [option_bind]. rewrite Hz1, Hz2. cbn [length].
  eexists _, r, groups, out, t. split; [reflexivity|]. cbn [m_BlockTable m_DocData m_PathPrefixes m_PathPrefixSidecar m_IndexFileHeader].
  do 9 (split; [done|]). destruct count_bound as [Hc _]. 
  split; cbn -[FileFormat.sections contiguous Z.mul Z.add]; [done|done|by apply wrap_range| | |].
  - rewrite (built_total _ _ _ Hb). by apply wrap_range.
  - rewrite Hlen. done.
  - cbn [FileFormat.sections contiguous]. cbn -[Z.mul Z.add DOC_REC_SIZE]. rewrite Hlen, Hl. unfold DOC_REC_SIZE. lia.
Qed.

(** A built index, in pieces. *)
Context (ix : LoadedIndex) (r : BuildBlocksResult) (groups : list (list LeafTermEntry)).
Hypothesis Hbuilt : built store r groups.
Hypothesis Htable : m_BlockTable ix = index_table r.
Hypothesis Hheader : header_of_parts (m_IndexFileHeader ix) (Z.of_nat (length (BBR_LeafTermBlocks r)))
  (Z.of_nat (length (BBR_LeafTermBlocks r))) (StoreDocDataRecordCount store) (Z.of_nat (length (BBR_IndexBlocks r))).
Hypothesis Hfits : index_fits ix.

Lemma pool_bounds : (Z.of_nat (length (BBR_IndexBlocks r)) <= u32_max)%Z /\ (Z.of_nat (length (BBR_LeafTermBlocks r)) <= u32_max)%Z.
Proof. destruct Hheader as [_ _ _ _ (_ & C2 & _ & C4 & _) _], Hfits as [F1 F2]. lia. Qed.

Lemma leaves_ok : Forall (fun b => leaf_wf b /\ leaf_from_bytes (leaf_to_bytes b) = Some b) (BBR_LeafTermBlocks r).
Proof.
  apply Forall_lookup. intros i b Hi. destruct (Forall2_lookup_l _ _ _ _ _ (built_leaves _ _ _ Hbuilt) Hi) as (g & _ & Hg). by eapply built_leaf_ok.
Qed.

Lemma leaf_pages_ok : Forall (fun p => length p = PAGE_SIZE) (map leaf_to_bytes (BBR_LeafTermBlocks r)).
Proof. apply Forall_map. eapply Forall_impl; [apply leaves_ok|]. intros b [Hb _]. by apply length_leaf_to_bytes. Qed.

Lemma leaves_view : map leaf_view (map leaf_to_bytes (BBR_LeafTermBlocks r)) = BBR_LeafTermBlocks r.
Proof.
  rewrite map_map. rewrite <- (map_id (BBR_LeafTermBlocks r)) at 2. apply map_ext_in. intros b Hb. apply leaf_view_to.
  pose proof leaves_ok as Hl. rewrite Forall_forall in Hl. by apply Hl, list_elem_of_In.
Qed.

Lemma index_pool : in_order (memory_block (BBR_IndexBlocks r)) (Pool (index_table r) Index) /\
  BCP_TotalBlockCount (Pool (index_table r) Index) = Z.of_nat (length (BBR_IndexBlocks r)) /\ IndexBlocks (index_table r) = BBR_IndexBlocks r.
Proof. apply memory_in_order; [apply Hbuilt|apply pool_bounds]. Qed.

Lemma leaf_pool : in_order (memory_block (map leaf_to_bytes (BBR_LeafTermBlocks r))) (Pool (index_table r) LeafTerm) /\
  BCP_TotalBlockCount (Pool (index_table r) LeafTerm) = Z.of_nat (length (BBR_LeafTermBlocks r)) /\
  LeafTermBlocks (index_table r) = BBR_LeafTermBlocks r.
Proof.
  destruct (memory_in_order (map leaf_to_bytes (BBR_LeafTermBlocks r)) leaf_pages_ok) as (H1 & H2 & H3); [rewrite length_map; apply pool_bounds|].
  split; [exact H1|]. rewrite length_map in H2. split; [exact H2|]. unfold LeafTermBlocks. etrans; [|exact leaves_view]. f_equal. exact H3.
Qed.

Lemma index_table_saveable : saveable (index_table r).
Proof.
  destruct (built_heads_wf store r groups Hbuilt) as [Hh _]. destruct index_pool as (_ & _ & Hi), leaf_pool as (_ & _ & Hl).
  split; [exact Hh| | | | |].
  - rewrite Hl. apply leaves_ok.
  - rewrite Hi. apply Hbuilt.
  - constructor.
  - constructor.
  - split; [|done]. unfold mphf_header_wf, in_u. cbn. unfold TERM_MPHF_MAGIC. lia.
Qed.

(** Tables with the dictionary of the build that serve its pages answer. *)
Lemma serving_opens t key num_documents average_stream_length span_weight word_span :
  bt_Terms t = built_table r -> (forall kind (i : nat), table_blocks t kind (Z.of_nat i) = built_blocks r kind (Z.of_nat i)) ->
  searchable key -> (0 < num_documents)%Z -> f_gt average_stream_length (f_of_Z F32 0) = true ->
  let source := @table_source (table_blocks t) (bt_Terms t) in
  exists reader, @Open source _ key num_documents average_stream_length span_weight word_span = Some reader /\
    @reads _ _ (@adv_spec source) reader (store_docs store key).
Proof.
  intros -> Hserve. destruct pool_bounds as [P1 P2]. unfold u32_max in *. apply (built_opens store r groups Hstore Hbuilt); [lia|lia|exact Hserve].
Qed.

Context (t : PathPrefixes).
Hypothesis Hprefixes : m_PathPrefixes ix = prefixes t.
Hypothesis Hlength : length (m_DocData ix) = Z.to_nat (StoreDocDataRecordCount store) * DOC_REC_SIZE.
Hypothesis Hrecords : forall d st, m_DocStats store !! d = Some st ->
  holds_doc store t d st (record_at (Z.to_nat (d - StoreFirstDocId store)) (m_DocData ix)).
Hypothesis Hblank : forall d, (StoreFirstDocId store <= d < StoreFirstDocId store + StoreDocDataRecordCount store)%Z ->
  m_DocStats store !! d = None -> record_at (Z.to_nat (d - StoreFirstDocId store)) (m_DocData ix) = blank_record.

(** An index with the records of the build, over a table that serves its pages. *)
Lemma serving_answers ix' :
  bt_Terms (m_BlockTable ix') = built_table r ->
  (forall kind (i : nat), table_blocks (m_BlockTable ix') kind (Z.of_nat i) = built_blocks r kind (Z.of_nat i)) ->
  m_IndexFileHeader ix' = m_IndexFileHeader ix -> m_DocData ix' = m_DocData ix -> m_PathPrefixes ix' = m_PathPrefixes ix ->
  answers ix' store.
Proof.
  intros Hterms Hserve Hh Hd Hp. split; [intros; by apply serving_opens|]. intros id d Hid. rewrite Hh, Hd, Hp, Hprefixes.
  destruct Hheader as [_ _ _ _ (_ & _ & Hnum & _) _].
  pose proof (lookups_ok store Hdocs _ _ t Hnum Hlength Hrecords Hblank None None id Hid) as Hlook. fold d in Hlook.
  destruct (m_DocStats store !! d); [tauto|exact Hlook].
Qed.

Lemma index_table_serves sequential kind (i : nat) : table_page sequential (index_table r) kind (Z.of_nat i) = built_blocks r kind (Z.of_nat i).
Proof.
  unfold built_blocks. replace (Z.of_nat i <? 0)%Z with false by lia. rewrite Nat2Z.id.
  destruct kind; [destruct index_pool as (Ho & Ht & _)|destruct leaf_pool as (Ho & Ht & _)];
    rewrite (table_block _ _ (index_table r) _ _ eq_refl Ho), Ht by lia.
  - apply memory_block_lookup.
  - rewrite <- (length_map leaf_to_bytes), memory_block_lookup. apply list_lookup_fmap.
Qed.

Lemma built_answers : answers ix store.
Proof. apply serving_answers; rewrite ?Htable; try done. apply index_table_serves. Qed.

Hypothesis Hsidecar : length (m_PathPrefixSidecar ix) = PATH_PREFIX_SIDECAR_BYTES.

Lemma built_header_wf : header_wf (m_IndexFileHeader ix) /\ exists end_, validate_layout (m_IndexFileHeader ix) None = Ok end_.
Proof. destruct pool_bounds. eapply header_of_parts_wf; [exact Hheader|lia|lia|apply count_bound|lia]. Qed.

Lemma Save_built : exists file, Save (m_IndexFileHeader ix) (m_BlockTable ix) (m_DocData ix) (m_PathPrefixSidecar ix) = Ok file.
Proof.
  destruct built_header_wf as [Hwf [end_ Hv]]. destruct index_pool as (_ & _ & Hi), leaf_pool as (_ & _ & Hl).
  destruct (built_heads_wf store r groups Hbuilt) as [_ Hlen]. destruct count_bound as [C1 C2].
  destruct Hheader as [_ _ _ _ (E1 & E2 & E3 & E4 & E5 & E6 & E7) _].
  unfold Save. rewrite (not_zeroed _ Hwf), Hv, Htable, Hl, Hi, Hlength, Hsidecar, E1, E2, E3, E4, E5, E6, E7. cbn [result_bind].
  assert (Hd : Z.of_nat DOC_REC_SIZE = 256%Z) by reflexivity. unfold checked_mul. rewrite Hd.
  replace (_ <? _)%Z with true by (symmetry; apply Z.ltb_lt; clear - C1 C2; lia). cbn [ok_or result_bind].
  rewrite Nat.eqb_refl, (proj2 (Z.eqb_eq _ _)) by (rewrite Nat2Z.inj_mul, Hd; clear - C1; lia). cbn [negb orb andb].
  change (m_HeadTermEntries (bt_Terms (index_table r))) with (BBR_HeadTermEntries r).
  change (m_TermMphfDisplacements (tt_Mphf (bt_Terms (index_table r)))) with (@nil Z).
  change (m_TermMphfEntryPages (tt_Mphf (bt_Terms (index_table r)))) with (@nil bytes). rewrite Hlen.
  rewrite (Z.eqb_refl (Z.of_nat (length (BBR_LeafTermBlocks r)))), (Z.eqb_refl (Z.of_nat (length (BBR_IndexBlocks r)))).
  by eexists.
Qed.

Hypothesis Hdecodes : DecodePathPrefixSidecar (m_PathPrefixSidecar ix) = Ok (prefixes t).

(** What decoding gives for the saved file. *)
Definition built_parts : DecodedIndexData :=
  {| dec_head := BBR_HeadTermEntries r; dec_leaf_blocks := BBR_LeafTermBlocks r; dec_index_blocks := BBR_IndexBlocks r;
     dec_docdata := m_DocData ix; dec_sidecar := m_PathPrefixSidecar ix; dec_prefixes := m_PathPrefixes ix;
     dec_mphf := (mphf_header_default, [], []) |}.

Lemma decode_built file :
  Save (m_IndexFileHeader ix) (m_BlockTable ix) (m_DocData ix) (m_PathPrefixSidecar ix) = Ok file ->
  header_parse file = Ok (m_IndexFileHeader ix) /\ exists store', decode store_new file = Ok (store', built_parts).
Proof.
  rewrite Htable. intros Hsave. destruct built_header_wf as [Hwf _]. destruct count_bound as [C1 _].
  destruct Hheader as [_ _ _ _ (_ & _ & E3 & _ & E5 & _) _].
  split; [eapply header_saved; [exact Hwf|exact Hsave]|].
  assert (Hdoc : exists store', DecodeDocData store_new (m_IndexFileHeader ix) (m_DocData ix) = Ok store').
  { unfold DecodeDocData. rewrite Hlength, E3, (proj2 (Z.eqb_eq _ _)) by lia. cbn [negb]. by eexists. }
  destruct Hdoc as [store' Hdoc]. exists store'.
  rewrite (decode_saved _ _ _ _ _ Hwf index_table_saveable Hsave _ _ _ Hdecodes Hdoc). do 2 f_equal.
  destruct index_pool as (_ & _ & Hi), leaf_pool as (_ & _ & Hl).
  unfold saved_parts, built_parts, saved_mphf. by rewrite Hi, Hl, E5, Hprefixes.
Qed.

Lemma LoadFromBytes_built file :
  Save (m_IndexFileHeader ix) (m_BlockTable ix) (m_DocData ix) (m_PathPrefixSidecar ix) = Ok file -> LoadFromBytes file = Ok ix.
Proof.
  intros Hsave. destruct (decode_built file Hsave) as (Hh & store' & Hd). unfold LoadFromBytes. rewrite Hh, Hd. cbn.
  change (bt_SetHeadTermEntries _ _) with (index_table r). rewrite <- Htable. by destruct ix.
Qed.

(** The pool of a section of pages of the file. *)
Lemma section_pool opened file base count slots :
  file_holds opened file -> reads_fully opened file -> (Z.of_nat (length file) < 2 ^ 63)%Z ->
  (0 <= base)%Z -> (0 <= count <= u32_max)%Z -> (base + count * 4096 <= Z.of_nat (length file))%Z ->
  (0 < slots)%Z -> (slots * 4096 < 2 ^ 31)%Z ->
  exists s, cache_Init (Some (Some opened)) base (wrap 32 count) (wrap 32 (Z.min count slots)) = (s, Ok tt) /\
    in_order (file_block file base) s /\ BCP_TotalBlockCount s = count.
Proof.
  intros Hholds Hreads Hlen Hbase Hcount Hfit Hslots Hsmall. pose proof PAGE_SIZE_Z as HP. unfold u32_max in *.
  rewrite !wrap_small by (unfold in_u; lia). apply file_in_order; try done; unfold u32_max; lia.
Qed.

Lemma LoadIndex_built opened file leafTermCacheBytes :
  Save (m_IndexFileHeader ix) (m_BlockTable ix) (m_DocData ix) (m_PathPrefixSidecar ix) = Ok file ->
  file_holds opened file -> reads_fully opened file -> (Z.of_nat (length file) < 2 ^ 63)%Z ->
  (Z.of_nat PAGE_SIZE <= leafTermCacheBytes < 2 ^ 31)%Z ->
  exists ix', LoadIndex file (Some opened) leafTermCacheBytes = Ok ix' /\ bt_Terms (m_BlockTable ix') = built_table r /\
    (forall sequential kind (i : nat), table_page sequential (m_BlockTable ix') kind (Z.of_nat i) = built_blocks r kind (Z.of_nat i)) /\
    LeafTermBlockCount (m_BlockTable ix') = Z.of_nat (length (BBR_LeafTermBlocks r)) /\
    m_IndexFileHeader ix' = m_IndexFileHeader ix /\ m_DocData ix' = m_DocData ix /\ m_PathPrefixes ix' = m_PathPrefixes ix.
Proof.
  intros Hsave Hholds Hreads Hlen Hleaf. destruct (decode_built file Hsave) as (Hh & store' & Hd). destruct built_header_wf as [Hwf _].
  rewrite Htable in Hsave. destruct (save_layout _ _ _ _ _ Hwf index_table_saveable Hsave) as (_ & Hcont & _).
  destruct (save_offsets _ _ _ _ _ Hwf index_table_saveable Hsave) as (_ & O3 & _ & O5 & _). destruct pool_bounds as [P1 P2].
  pose proof Hheader as [_ _ _ _ (E1 & E2 & E3 & E4 & E5 & E6 & E7) _]. cbn [FileFormat.sections contiguous] in Hcont. rewrite E1, E2, E3, E4, E5, E6, E7 in Hcont.
  destruct count_bound as [C1 _]. rewrite PAGE_SIZE_Z in Hleaf.
  destruct (section_pool opened file (IFH_IndexBlockOffset (m_IndexFileHeader ix)) (Z.of_nat (length (BBR_IndexBlocks r))) 25600)
    as (s1 & I1 & O1 & T1); [done|done|done|lia|lia|lia|lia|lia|].
  destruct (section_pool opened file (IFH_LeafTermBlockOffset (m_IndexFileHeader ix)) (Z.of_nat (length (BBR_LeafTermBlocks r))) (leafTermCacheBytes / 4096))
    as (s2 & I2 & O2 & T2); [done|done|done|lia|lia|lia|dlia|dlia|].
  unfold LoadIndex. rewrite (LoadFileTables_decode store_new store' file built_parts _ Hwf Hh Hd). cbn [result_bind snd].
  rewrite (LoadPathPrefixSidecar_decode store_new store' file built_parts _ Hh Hd). cbn [result_bind].
  rewrite (LoadTermMphf_decode store_new store' file built_parts _ Hwf Hh Hd). cbn [result_bind]. unfold bt_Init.
  rewrite E2, E4, E5, PAGE_SIZE_Z. change (INDEX_BLOCK_CACHE_BYTES / 4096)%Z with 25600%Z. rewrite I1. cbn [result_bind]. rewrite I2. cbn [result_bind].
  cbn. eexists. split; [reflexivity|]. cbn [m_BlockTable m_IndexFileHeader m_DocData m_PathPrefixes]. split; [done|]. split; [|done].
  intros sequential kind i. unfold built_blocks. replace (Z.of_nat i <? 0)%Z with false by lia. rewrite Nat2Z.id.
  destruct index_pool as (_ & _ & Hi), leaf_pool as (_ & _ & Hl).
  destruct kind; (etrans; [eapply table_block; [reflexivity|eassumption|lia]|]); cbn [Pool m_IndexPool m_LeafTermPool].
  - change (BCP_TotalBlockCount _) with (BCP_TotalBlockCount s1). rewrite T1. etrans; [|apply option_fmap_id]. apply (saved_page _ _ _ _ _ Hwf Hsave 5 id); [by rewrite <- Hi|done|].
    rewrite map_id. apply Hbuilt.
  - change (BCP_TotalBlockCount _) with (BCP_TotalBlockCount s2). rewrite T2. apply (saved_page _ _ _ _ _ Hwf Hsave 3 leaf_to_bytes); [by rewrite <- Hl|done|apply leaf_pages_ok].
Qed.
End build.

(** * Indexes of a store *)

(** [ix] is an index of the store: its table serves the built blocks in every mode, and its records hold
    the documents, with paths over the prefixes of [t]. *)
Record index_of `{Libm} (store : PostingStore) (ix : LoadedIndex) (r : BuildBlocksResult)
    (groups : list (list LeafTermEntry)) (t : PathPrefixes) : Prop := {
  io_built : built store r groups;
  io_terms : bt_Terms (m_BlockTable ix) = built_table r;
  io_pages : forall sequential kind (i : nat), table_page sequential (m_BlockTable ix) kind (Z.of_nat i) = built_blocks r kind (Z.of_nat i);
  io_leaves : LeafTermBlockCount (m_BlockTable ix) = Z.of_nat (length (BBR_LeafTermBlocks r));
  io_header : header_of_parts (m_IndexFileHeader ix) (Z.of_nat (length (BBR_LeafTermBlocks r)))
    (Z.of_nat (length (BBR_LeafTermBlocks r))) (StoreDocDataRecordCount store) (Z.of_nat (length (BBR_IndexBlocks r)));
  io_fits : index_fits ix;
  io_prefixes : m_PathPrefixes ix = prefixes t;
  io_length : length (m_DocData ix) = Z.to_nat (StoreDocDataRecordCount store) * DOC_REC_SIZE;
  io_records : forall d st, m_DocStats store !! d = Some st ->
    holds_doc store t d st (record_at (Z.to_nat (d - StoreFirstDocId store)) (m_DocData ix));
  io_blank : forall d, (StoreFirstDocId store <= d < StoreFirstDocId store + StoreDocDataRecordCount store)%Z ->
    m_DocStats store !! d = None -> record_at (Z.to_nat (d - StoreFirstDocId store)) (m_DocData ix) = blank_record;
}.

Definition is_index `{Libm} (store : PostingStore) (ix : LoadedIndex) : Prop := exists r groups t, index_of store ix r groups t.

Section indexes.
Context `{Libm} `{DocOrder} (store : PostingStore).
Hypothesis Hstore : storable store.
Hypothesis Hdocs : docs_wf store.

Lemma index_of_answers ix r groups t : index_of store ix r groups t -> answers ix store.
Proof.
  intros [H1 H2 H3 H4 H5 H6 H7 H8 H9 H10]. eapply serving_answers; try done. exact (H3 false).
Qed.

(** Every key at all can be opened. *)
Lemma index_of_opens ix r groups t key num_documents average_stream_length span_weight word_span :
  index_of store ix r groups t -> (0 < num_documents)%Z -> f_gt average_stream_length (f_of_Z F32 0) = true ->
  let source := @table_source (table_blocks (m_BlockTable ix)) (bt_Terms (m_BlockTable ix)) in
  exists reader, @Open source _ key num_documents average_stream_length span_weight word_span = Some reader /\
    @reads _ _ (@adv_spec source) reader (key_docs store key).
Proof.
  intros Hi Hn Ha. destruct (pool_bounds store ix r (io_header _ _ _ _ _ Hi) (io_fits _ _ _ _ _ Hi)) as [P1 P2]. unfold u32_max in *.
  rewrite (io_terms _ _ _ _ _ Hi). apply (built_opens_any store r groups Hstore (io_built _ _ _ _ _ Hi)); [lia|lia|exact (io_pages _ _ _ _ _ Hi false)|done|done].
Qed.

(** An index in memory over the blocks of a build, with the bytes of its paths. *)
Record memory_index (ix : LoadedIndex) (r : BuildBlocksResult) (groups : list (list LeafTermEntry)) (t : PathPrefixes) : Prop := {
  mi_index : index_of store ix r groups t;
  mi_table : m_BlockTable ix = index_table r;
  mi_sidecar : length (m_PathPrefixSidecar ix) = PATH_PREFIX_SIDECAR_BYTES;
  mi_decodes : DecodePathPrefixSidecar (m_PathPrefixSidecar ix) = Ok (prefixes t);
}.

(** It is saved, and loaded again from memory or through the page cache. *)
Lemma memory_index_saved ix r groups t : memory_index ix r groups t ->
  exists file, Save (m_IndexFileHeader ix) (m_BlockTable ix) (m_DocData ix) (m_PathPrefixSidecar ix) = Ok file /\
    LoadFromBytes file = Ok ix /\
    forall opened leafTermCacheBytes,
    file_holds opened file -> reads_fully opened file -> (Z.of_nat (length file) < 2 ^ 63)%Z ->
    (Z.of_nat PAGE_SIZE <= leafTermCacheBytes < 2 ^ 31)%Z ->
    exists ix', LoadIndex file (Some opened) leafTermCacheBytes = Ok ix' /\ index_of store ix' r groups t.
Proof.
  intros [[H1 H2 H3 H4 H5 H6 H7 H8 H9 H10] Ht Hs Hd]. destruct (Save_built store Hdocs ix r groups) as [file Hsave]; try done. exists file. split; [done|].
  split; [by eapply LoadFromBytes_built|]. intros opened leafBytes Hho Hre Hlen Hleaf.
  destruct (LoadIndex_built store Hdocs ix r groups H1 Ht H5 H6 t H7 H8 Hs Hd opened file leafBytes) as (ix' & Hload & T1 & T2 & T3 & T4 & T5 & T6); try done.
  exists ix'. split; [done|]. unfold index_fits in H6. split; rewrite ?T4, ?T5, ?T6; try done. unfold index_fits. by rewrite T4.
Qed.

Lemma index_table_index ix r groups t :
  built store r groups -> m_BlockTable ix = index_table r ->
  header_of_parts (m_IndexFileHeader ix) (Z.of_nat (length (BBR_LeafTermBlocks r))) (Z.of_nat (length (BBR_LeafTermBlocks r)))
    (StoreDocDataRecordCount store) (Z.of_nat (length (BBR_IndexBlocks r))) ->
  index_fits ix -> m_PathPrefixes ix = prefixes t ->
  length (m_DocData ix) = Z.to_nat (StoreDocDataRecordCount store) * DOC_REC_SIZE ->
  (forall d st, m_DocStats store !! d = Some st -> holds_doc store t d st (record_at (Z.to_nat (d - StoreFirstDocId store)) (m_DocData ix))) ->
  (forall d, (StoreFirstDocId store <= d < StoreFirstDocId store + StoreDocDataRecordCount store)%Z ->
     m_DocStats store !! d = None -> record_at (Z.to_nat (d - StoreFirstDocId store)) (m_DocData ix) = blank_record) ->
  index_of store ix r groups t.
Proof.
  intros Hb Ht Hh Hf Hp Hl Hr Hbl. split; try done; rewrite Ht; [done|by apply (index_table_serves store ix r groups)|].
  by destruct (leaf_pool store ix r groups Hb Hh Hf) as (_ & Hc & _).
Qed.

Lemma BuildIndexData_index : exists ix r groups t, BuildIndexData store = Some ix /\ (index_fits ix -> memory_index ix r groups t).
Proof.
  destruct (BuildIndexData_ok store Hstore Hdocs) as (ix & r & groups & out & t & Hix & Hb & Ht & <- & Hp & Hsl & Hsd & Hl & Hr & Hbl & Hh).
  exists ix, r, groups, t. split; [done|]. intros Hf. split; [|done|done|done]. by apply index_table_index.
Qed.
End indexes.

(** * Properties *)

(** decoding a saved file gives back the dictionary, the pages, the records, the path prefixes and
    the perfect hash that were saved. *)
Theorem Save_decode header table docData sidecar file prefixes store store' :
  header_wf header -> saveable table ->
  DecodePathPrefixSidecar sidecar = Ok prefixes -> DecodeDocData store header docData = Ok store' ->
  Save header table docData sidecar = Ok file ->
  header_parse file = Ok header /\
  decode store file = Ok (store',
    {| dec_head := m_HeadTermEntries (bt_Terms table); dec_leaf_blocks := LeafTermBlocks table; dec_index_blocks := IndexBlocks table;
       dec_docdata := docData; dec_sidecar := sidecar; dec_prefixes := prefixes;
       dec_mphf := if (IFH_TermMphfHeaderCount header =? 0)%Z then (mphf_header_default, [], [])
                   else (m_TermMphfHeader (tt_Mphf (bt_Terms table)), m_TermMphfDisplacements (tt_Mphf (bt_Terms table)),
                         m_TermMphfEntryPages (tt_Mphf (bt_Terms table))) |}).
Proof.
  intros Hh Ht Hp Hd Hs. split; [eapply header_saved; [exact Hh|exact Hs]|]. exact (decode_saved _ _ _ _ _ Hh Ht Hs _ _ _ Hp Hd).
Qed.

(** on a file that decodes, the loaders that read it piece by piece succeed and give what decoding the
    whole file gives. *)
Theorem loaders_agree store store' content header dec :
  is_bytes content -> header_parse content = Ok header -> decode store content = Ok (store', dec) ->
  LoadFileTables store content = Ok (store', (header, dec_head dec, dec_docdata dec)) /\
  LoadPathPrefixSidecar content = Ok (dec_sidecar dec, dec_prefixes dec) /\
  LoadTermMphf content header = Ok (dec_mphf dec).
Proof.
  intros Hb Hh Hd. destruct (header_parse_inv _ _ Hb Hh) as (Hwf & _).
  split; [by eapply LoadFileTables_decode|]. split; [by eapply LoadPathPrefixSidecar_decode|by eapply LoadTermMphf_decode].
Qed.

(** C9: building an index never fails, and an index that fits the format answers as its store; it can be
    saved, loading the bytes of the file gives it back, and the file opened from disk through the page
    caches, with room for one page at least, answers as the store too. *)
Theorem index_answers `{Libm} `{DocOrder} store :
  storable store -> docs_wf store ->
  exists ix, BuildIndexData store = Some ix /\
    (index_fits ix ->
       answers ix store /\
       exists file, Save (m_IndexFileHeader ix) (m_BlockTable ix) (m_DocData ix) (m_PathPrefixSidecar ix) = Ok file /\
         LoadFromBytes file = Ok ix /\
         forall opened leafTermCacheBytes,
         file_holds opened file -> reads_fully opened file -> (Z.of_nat (length file) < 2 ^ 63)%Z ->
         (Z.of_nat PAGE_SIZE <= leafTermCacheBytes < 2 ^ 31)%Z ->
         exists ix', LoadIndex file (Some opened) leafTermCacheBytes = Ok ix' /\ answers ix' store).
Proof.
  intros Hs Hd. destruct (BuildIndexData_index store Hs Hd) as (ix & r & groups & t & Hix & Hmem).
  exists ix. split; [done|]. intros Hf. specialize (Hmem Hf). split; [by eapply index_of_answers, mi_index|].
  destruct (memory_index_saved store Hd ix r groups t Hmem) as (file & Hsave & Hload & Hcache). exists file. split; [done|]. split; [done|].
  intros opened leafBytes Hho Hre Hlen Hleaf. destruct (Hcache opened leafBytes Hho Hre Hlen Hleaf) as (ix' & Hl & Hio).
  exists ix'. split; [done|]. by eapply index_of_answers.
Qed.

(** * Witnesses *)

Definition sample_store : PostingStore :=
  {| m_Postings := m_Postings indexed_store; m_DocStats := m_DocStats stored_docs; m_DocVectors := m_DocVectors stored_docs;
     m_TotalTerms := 3; m_PostingEntries := 3 |}.

Lemma sample_storable : @storable sample_libm sample_store.
Proof. exact indexed_store_storable. Qed.

Lemma sample_docs_wf : docs_wf sample_store.
Proof. exact stored_docs_wf. Qed.

Definition saved_file (o : option LoadedIndex) : bytes :=
  match o with
  | Some ix => match Save (m_IndexFileHeader ix) (m_BlockTable ix) (m_DocData ix) (m_PathPrefixSidecar ix) with Ok file => file | _ => [] end
  | None => []
  end.

Lemma saved_file_eq ix file :
  Save (m_IndexFileHeader ix) (m_BlockTable ix) (m_DocData ix) (m_PathPrefixSidecar ix) = Ok file -> saved_file (Some ix) = file.
Proof. intros Hs. unfold saved_file. by rewrite Hs. Qed.

(** A file whose reads never fail. *)
Definition whole_file (content : bytes) : OsFile := fun position len => Some (slice (Z.to_nat position) len content).

Lemma whole_file_ok content : file_holds (whole_file content) content /\ reads_fully (whole_file content) content.
Proof. split; [|done]. intros position len data _ [= <-]. done. Qed.

Lemma Some3_inj (a b c a' b' c' : Z) : Some (a, b, c) = Some (a', b', c') -> a = a' /\ b = b' /\ c = c'.
Proof. by intros [=]. Qed.

Lemma sample_sizes ix : @BuildIndexData sample_libm sample_doc_order sample_store = Some ix ->
  index_fits ix /\ Z.of_nat (length (saved_file (Some ix))) = 91048%Z.
Proof.
  intros Hix. assert (Hsize : (fun o => option_map (fun ix => (IFH_IndexBlockCount (m_IndexFileHeader ix), IFH_LeafTermBlockCount (m_IndexFileHeader ix),
    Z.of_nat (length (saved_file o)))) o) (@BuildIndexData sample_libm sample_doc_order sample_store) = Some (1, 1, 91048)%Z) by (vm_compute; reflexivity).
  rewrite Hix in Hsize. cbn [option_map] in Hsize. unfold index_fits. set (f := saved_file _) in *. clearbody f.
  destruct (Some3_inj _ _ _ _ _ _ Hsize) as (-> & -> & H3). split; [split; vm_compute; discriminate|exact H3].
Qed.

Lemma sample_file_decodes :
  let file := saved_file (@BuildIndexData sample_libm sample_doc_order sample_store) in
  is_bytes file /\ exists header store' dec, header_parse file = Ok header /\ decode store_new file = Ok (store', dec).
Proof.
  cbv zeta. split.
  { assert (Hb : forallb (fun b => (0 <=? b) && (b <? 256))%Z (saved_file (@BuildIndexData sample_libm sample_doc_order sample_store)) = true)
      by (vm_compute; reflexivity).
    set (f := saved_file _) in *. clearbody f. unfold is_bytes. apply Forall_forall. intros b Hin%list_elem_of_In.
    rewrite forallb_forall in Hb. specialize (Hb b Hin). unfold in_u. lia. }
  destruct (@BuildIndexData_ok sample_libm sample_doc_order sample_store sample_storable sample_docs_wf)
    as (ix & r & groups & out & t & Hix & Hb & Ht & <- & Hp & Hsl & Hsd & Hl & Hr & Hbl & Hh).
  destruct (sample_sizes ix Hix) as [Hfits Hlen].
  destruct (@Save_built sample_libm sample_store sample_docs_wf ix r groups Hb Ht Hh Hfits Hl Hsl) as [file Es].
  rewrite Hix, (saved_file_eq ix file Es).
  edestruct (@decode_built sample_libm sample_store sample_docs_wf) as (Hpar & store' & Hd);
    [exact Hb|exact Ht|exact Hh|exact Hfits|exact Hp|exact Hl|exact Hsl|exact Hsd|exact Es|]. eauto.
Qed.

Lemma index_answers_witness :
  exists ix file ix', @BuildIndexData sample_libm sample_doc_order sample_store = Some ix /\ LoadFromBytes file = Ok ix /\
    LoadIndex file (Some (whole_file file)) 4096 = Ok ix' /\ @answers sample_libm ix' sample_store /\
    store_docs sample_store [97; 84]%Z = [3; 300]%Z.
Proof.
  destruct (@index_answers sample_libm sample_doc_order sample_store sample_storable sample_docs_wf) as (ix & Hix & Hall).
  destruct (sample_sizes ix Hix) as [Hfits H3]. destruct (Hall Hfits) as (_ & file & Hs & Hl & Hload).
  rewrite (saved_file_eq ix file Hs) in H3. destruct (whole_file_ok file) as [Hh Hr].
  destruct (Hload (whole_file file) 4096%Z Hh Hr) as (ix' & Hok & Ha); [rewrite H3; reflexivity|split; [vm_compute; discriminate|reflexivity]|].
  exists ix, file, ix'. split; [exact Hix|]. split; [exact Hl|]. split; [exact Hok|]. split; [exact Ha|]. vm_compute. reflexivity.
Defined.

Lemma loaders_agree_witness :
  let file := saved_file (@BuildIndexData sample_libm sample_doc_order sample_store) in
  exists header dec, LoadPathPrefixSidecar file = Ok (dec_sidecar dec, dec_prefixes dec) /\ LoadTermMphf file header = Ok (dec_mphf dec).
Proof.
  intros file. destruct sample_file_decodes as (Hb & header & store' & dec & Hh & Hd). exists header, dec.
  apply (loaders_agree store_new store' file header dec Hb Hh Hd).
Defined.

Lemma Save_decode_witness :
  exists header table docData sidecar file prefixes store', Save header table docData sidecar = Ok file /\
    decode store_new file = Ok (store', saved_parts header table docData sidecar prefixes).
Proof.
  destruct (@BuildIndexData_ok sample_libm sample_doc_order sample_store sample_storable sample_docs_wf)
    as (ix & r & groups & out & t & Hix & Hb & Ht & <- & Hp & Hsl & Hsd & Hl & Hr & Hbl & Hh).
  destruct (sample_sizes ix Hix) as [Hfits _].
  destruct (@Save_built sample_libm sample_store sample_docs_wf ix r groups Hb Ht Hh Hfits Hl Hsl) as [file Hs].
  destruct (DecodeDocData store_new (m_IndexFileHeader ix) (m_DocData ix)) as [store'|e] eqn:Ed.
  2:{ unfold DecodeDocData in Ed. rewrite Hl, (proj1 (proj2 (proj2 (hp_counts _ _ _ _ _ Hh)))) in Ed.
      pose proof (@count_bound sample_store sample_docs_wf) as [C1 _]. rewrite Nat2Z.inj_mul, Z2Nat.id, Z.eqb_refl in Ed by exact C1. discriminate Ed. }
  exists (m_IndexFileHeader ix), (m_BlockTable ix), (m_DocData ix), (m_PathPrefixSidecar ix), file, (prefixes t), store'. split; [exact Hs|].
  apply (Save_decode (m_IndexFileHeader ix) (m_BlockTable ix) (m_DocData ix) (m_PathPrefixSidecar ix) file (prefixes t) store_new store');
    [|rewrite Ht; eapply index_table_saveable; eassumption|exact Hsd|exact Ed|exact Hs].
  eapply (@built_header_wf sample_store sample_docs_wf ix r); eassumption.
Defined.
