(* ===== verification/MergeView.v ===== *)
(** LeafTermBlockView (IndexContext.rs): the cursor that the merge reads the terms of
    an index with, and the batch of pages that it writes the merged terms to.

    The program uses one struct for both; a view that reads has no pages of its own and
    a view that writes has no block table, so each use has its own record here. *)

From Stdlib Require Import ZArith Lia ZifyBool Bool List.
From stdpp Require Import base list list_numbers gmap sorting.
From S2P Require Import Prelude Floats PostingCodec PostingStore FileFormat Mphf TermDictionary IndexReader AdvancedReader IndexBuilder.

Local Open Scope moon_scope.

(** * Reading *)

Record ReadView := {
  rv_LeafTermBlockCount : Z;
  rv_LeafBlockID : Z;
  rv_EntryIndex : nat;
  rv_CurrentLeaf : option LeafTermBlock;
  rv_CurrentEntry : option LeafTermEntry;
}.

Section reading.
Context `{BlockSource}.
Implicit Types v : ReadView.

(** The loop over the leaf pages, one turn for each page left. *)
Fixpoint GoCurrent_loop (fuel : nat) v : ReadView :=
  match fuel with
  | O => v
  | S fuel' =>
      if (rv_LeafBlockID v <? rv_LeafTermBlockCount v)%Z then
        let current := match rv_CurrentLeaf v with
                       | Some leaf => Some leaf
                       | None => leaf_view <$> GetBlock LeafTerm (rv_LeafBlockID v)
                       end in
        match current with
        | None => v
        | Some leaf =>
            if rv_EntryIndex v <? entry_count leaf then
              {| rv_LeafTermBlockCount := rv_LeafTermBlockCount v; rv_LeafBlockID := rv_LeafBlockID v;
                 rv_EntryIndex := rv_EntryIndex v; rv_CurrentLeaf := Some leaf;
                 rv_CurrentEntry := entry leaf (rv_EntryIndex v) |}
            else
              GoCurrent_loop fuel'
                {| rv_LeafTermBlockCount := rv_LeafTermBlockCount v; rv_LeafBlockID := rv_LeafBlockID v + 1;
                   rv_EntryIndex := 0; rv_CurrentLeaf := None; rv_CurrentEntry := None |}
        end
      else v
  end.

Definition GoCurrent v : ReadView :=
  GoCurrent_loop (Z.to_nat (rv_LeafTermBlockCount v - rv_LeafBlockID v))
    {| rv_LeafTermBlockCount := rv_LeafTermBlockCount v; rv_LeafBlockID := rv_LeafBlockID v;
       rv_EntryIndex := rv_EntryIndex v; rv_CurrentLeaf := rv_CurrentLeaf v; rv_CurrentEntry := None |}.

(** [new], with the table's leaf page count. *)
Definition view_new (leafTermBlockCount : Z) : ReadView :=
  GoCurrent {| rv_LeafTermBlockCount := leafTermBlockCount; rv_LeafBlockID := 0; rv_EntryIndex := 0;
               rv_CurrentLeaf := None; rv_CurrentEntry := None |}.

Definition Current v : option LeafTermEntry := rv_CurrentEntry v.

Definition Advance v : ReadView :=
  match rv_CurrentEntry v with
  | None => v
  | Some _ =>
      GoCurrent {| rv_LeafTermBlockCount := rv_LeafTermBlockCount v; rv_LeafBlockID := rv_LeafBlockID v;
                   rv_EntryIndex := rv_EntryIndex v + 1; rv_CurrentLeaf := rv_CurrentLeaf v;
                   rv_CurrentEntry := rv_CurrentEntry v |}
  end.

Definition current_term v : str := match Current v with Some e => LTE_Term e | None => [] end.

Definition LessThan v other : bool := str_ltb (current_term v) (current_term other).

(** The data of the continuation pages [id + 1 + offset] on, [n] of them. *)
Fixpoint continuation_data (n : nat) (id offset : Z) : option bytes :=
  match n with
  | O => Some []
  | S n' =>
      opt block := GetBlock Index (wrapping_add 32 (wrapping_add 32 id 1) offset) in
      opt header := continuation_from_bytes block in
      let dataEnd := (Z.of_nat INDEX_BLOCK_CONTINUATION_HEADER_SIZE + IBCH_DataLength header)%Z in
      if (Z.of_nat PAGE_SIZE <? dataEnd)%Z then None
      else
        let data := slice INDEX_BLOCK_CONTINUATION_HEADER_SIZE (Z.to_nat (IBCH_DataLength header)) block in
        opt rest := continuation_data n' id (offset + 1) in
        Some (data ++ rest)
  end.

Definition PostingBytes v : option bytes :=
  opt e := Current v in
  opt first := GetBlock Index (LTE_IndexBlockID e) in
  let begin := LTE_IndexOffset e in
  let end_ := (begin + LTE_IndexLength e)%Z in
  if (Z.of_nat PAGE_SIZE <? end_)%Z then None
  else
    let data := slice (Z.to_nat begin) (Z.to_nat (LTE_IndexLength e)) first in
    opt rest := continuation_data (Z.to_nat (LTE_ContinuationBlockCount e)) (LTE_IndexBlockID e) 0 in
    Some (data ++ rest).
End reading.

(** * Writing *)

(** The fields of a writing view: the posting pages, the leaf pages, and where the last posting list
    went. Counts and page numbers stay below the limits the view is made with. *)
Record WriteView := {
  wv_LeafTermBlockCount : nat;
  wv_IndexBlockCount : nat;
  wv_LeafBlocks : list LeafTermBlock;
  wv_IndexBlocks : list bytes;
  wv_PostingIndexBlockID : nat;
  wv_PostingIndexOffset : nat;
  wv_PostingIndexLength : nat;
  wv_PostingContinuationBlockCount : nat;
  wv_DocFreq : Z;
  wv_LeafBlockID : nat;
  wv_LeafWriteOffset : nat;
  wv_LeafEntryCount : nat;
  wv_IndexBlockID : nat;
  wv_IndexOffsetInBlock : nat;
  wv_IndexBlockBase : Z;
  wv_HasIndexWrite : bool;
}.

Definition view_fresh (leaf_term_block_count index_block_count : nat) (base : Z) : WriteView :=
  {| wv_LeafTermBlockCount := leaf_term_block_count; wv_IndexBlockCount := index_block_count;
     wv_LeafBlocks := replicate leaf_term_block_count leaf_default;
     wv_IndexBlocks := replicate index_block_count (zeros PAGE_SIZE);
     wv_PostingIndexBlockID := 0; wv_PostingIndexOffset := 0; wv_PostingIndexLength := 0;
     wv_PostingContinuationBlockCount := 0; wv_DocFreq := 0; wv_LeafBlockID := 0; wv_LeafWriteOffset := 0;
     wv_LeafEntryCount := 0; wv_IndexBlockID := 0; wv_IndexOffsetInBlock := 0; wv_IndexBlockBase := base;
     wv_HasIndexWrite := false |}.

Definition new_write (leaf_term_block_count index_block_count : nat) : WriteView :=
  view_fresh leaf_term_block_count index_block_count 0.

Section writing.
Implicit Types v : WriteView.

(** The entry does not go on the leaf page being filled. *)
Definition view_leaf_full v (entry_bytes : nat) : bool :=
  (0 <? wv_LeafEntryCount v)
  && ((LEAF_TERM_DIRECTORY_COUNT - 1 <=? wv_LeafEntryCount v)
      || (PAGE_SIZE - LEAF_TERM_DATA_OFFSET <? wv_LeafWriteOffset v + entry_bytes)).

Definition CanAddLeafTermEntry v (cursor : ReadView) : bool :=
  match Current cursor with
  | None => false
  | Some source =>
      if HEAD_TERM_KEY_MAX <? length (LTE_Term source) then true
      else
        let entry_bytes := byte_len source in
        if PAGE_SIZE - LEAF_TERM_DATA_OFFSET <? entry_bytes then false
        else
          let leafBlockID := if view_leaf_full v entry_bytes then wv_LeafBlockID v + 1 else wv_LeafBlockID v in
          leafBlockID <? wv_LeafTermBlockCount v
  end.

(** The entry count goes to the last word of the page's directory. *)
Definition set_leaf_count (count : nat) (b : LeafTermBlock) : LeafTermBlock :=
  {| LTB_Directory := <[LEAF_TERM_DIRECTORY_COUNT - 1 := wrap 16 (Z.of_nat count)]> (LTB_Directory b); LTB_Data := LTB_Data b |}.

Definition with_leaves v (blocks : list LeafTermBlock) (id offset count : nat) : WriteView :=
  {| wv_LeafTermBlockCount := wv_LeafTermBlockCount v; wv_IndexBlockCount := wv_IndexBlockCount v;
     wv_LeafBlocks := blocks; wv_IndexBlocks := wv_IndexBlocks v;
     wv_PostingIndexBlockID := wv_PostingIndexBlockID v; wv_PostingIndexOffset := wv_PostingIndexOffset v;
     wv_PostingIndexLength := wv_PostingIndexLength v;
     wv_PostingContinuationBlockCount := wv_PostingContinuationBlockCount v; wv_DocFreq := wv_DocFreq v;
     wv_LeafBlockID := id; wv_LeafWriteOffset := offset; wv_LeafEntryCount := count;
     wv_IndexBlockID := wv_IndexBlockID v; wv_IndexOffsetInBlock := wv_IndexOffsetInBlock v;
     wv_IndexBlockBase := wv_IndexBlockBase v; wv_HasIndexWrite := wv_HasIndexWrite v |}.

Definition clear_posting v : WriteView :=
  {| wv_LeafTermBlockCount := wv_LeafTermBlockCount v; wv_IndexBlockCount := wv_IndexBlockCount v;
     wv_LeafBlocks := wv_LeafBlocks v; wv_IndexBlocks := wv_IndexBlocks v;
     wv_PostingIndexBlockID := wv_PostingIndexBlockID v; wv_PostingIndexOffset := wv_PostingIndexOffset v;
     wv_PostingIndexLength := 0; wv_PostingContinuationBlockCount := 0; wv_DocFreq := wv_DocFreq v;
     wv_LeafBlockID := wv_LeafBlockID v; wv_LeafWriteOffset := wv_LeafWriteOffset v;
     wv_LeafEntryCount := wv_LeafEntryCount v; wv_IndexBlockID := wv_IndexBlockID v;
     wv_IndexOffsetInBlock := wv_IndexOffsetInBlock v; wv_IndexBlockBase := wv_IndexBlockBase v;
     wv_HasIndexWrite := wv_HasIndexWrite v |}.

(** The entry of the source with the place of the merged postings. *)
Definition merged_entry v (source : LeafTermEntry) : LeafTermEntry :=
  {| LTE_Term := LTE_Term source; LTE_DocFreq := wv_DocFreq v;
     LTE_IndexBlockID := wrapping_add 32 (wv_IndexBlockBase v) (Z.of_nat (wv_PostingIndexBlockID v));
     LTE_IndexOffset := wrap 16 (Z.of_nat (wv_PostingIndexOffset v));
     LTE_IndexLength := wrap 16 (Z.of_nat (wv_PostingIndexLength v));
     LTE_ContinuationBlockCount := wrap 16 (Z.of_nat (wv_PostingContinuationBlockCount v));
     LTE_Flags := LTE_Flags source; LTE_TermLength := LTE_TermLength source |}.

(** The page exists whenever entries were written to it, and after the check of the limit. *)
Definition AddLeafTermEntry v (cursor : ReadView) : WriteView * bool :=
  match Current cursor with
  | None => (v, false)
  | Some source =>
      if HEAD_TERM_KEY_MAX <? length (LTE_Term source) then (v, true)
      else
        let entry_bytes := byte_len source in
        let v :=
          if view_leaf_full v entry_bytes
          then with_leaves v (alter (set_leaf_count (wv_LeafEntryCount v)) (wv_LeafBlockID v) (wv_LeafBlocks v))
                 (wv_LeafBlockID v + 1) 0 0
          else v in
        if (wv_LeafTermBlockCount v <=? wv_LeafBlockID v) || (PAGE_SIZE - LEAF_TERM_DATA_OFFSET <? entry_bytes)
        then (v, false)
        else
          let blocks := alter (fun b => WriteLeafEntry b (wv_LeafEntryCount v) (wv_LeafWriteOffset v) (merged_entry v source))
                          (wv_LeafBlockID v) (wv_LeafBlocks v) in
          let blocks := alter (set_leaf_count (wv_LeafEntryCount v + 1)) (wv_LeafBlockID v) blocks in
          (clear_posting (with_leaves v blocks (wv_LeafBlockID v) (wv_LeafWriteOffset v + entry_bytes) (wv_LeafEntryCount v + 1)),
           true)
  end.

(** The loop that cuts [source], from [sourceOffset] on, into continuation pages. *)
Fixpoint cut_continuations (fuel : nat) (sourceBytes : bytes) (sourceOffset : nat) : option (list (nat * nat * Z)) :=
  match fuel with
  | O => None
  | S fuel' =>
      if sourceOffset <? length sourceBytes then
        let continuationLength := PostingSplitLength (drop sourceOffset sourceBytes) (PAGE_SIZE - INDEX_BLOCK_CONTINUATION_HEADER_SIZE) in
        if continuationLength =? 0 then None
        else
          opt continuations := cut_continuations fuel' sourceBytes (sourceOffset + continuationLength) in
          Some ((sourceOffset, continuationLength, MaxDocIDInPairs_merge (slice sourceOffset continuationLength sourceBytes))
                :: continuations)
      else Some []
  end.

(** One continuation page. *)
Definition write_cont (sourceBytes : bytes) (cont : nat * nat * Z) (page : bytes) : bytes :=
  let '(offset, len, maxDocID) := cont in
  let header := {| IBCH_MaxDocID := maxDocID; IBCH_DataLength := wrap 32 (Z.of_nat len) |} in
  let page := splice 0 (continuation_write_to header (slice 0 INDEX_BLOCK_CONTINUATION_HEADER_SIZE page)) page in
  splice INDEX_BLOCK_CONTINUATION_HEADER_SIZE (slice offset len sourceBytes) page.

(** The pages [id] on, a continuation to each. *)
Fixpoint write_conts (sourceBytes : bytes) (id : nat) (conts : list (nat * nat * Z)) (pages : list bytes) : list bytes :=
  match conts with
  | [] => pages
  | cont :: conts' => write_conts sourceBytes (S id) conts' (alter (write_cont sourceBytes cont) id pages)
  end.

Definition with_posting v (pages : list bytes) (target offset len : nat) (continuations : nat) : WriteView :=
  {| wv_LeafTermBlockCount := wv_LeafTermBlockCount v; wv_IndexBlockCount := wv_IndexBlockCount v;
     wv_LeafBlocks := wv_LeafBlocks v; wv_IndexBlocks := pages;
     wv_PostingIndexBlockID := target; wv_PostingIndexOffset := offset; wv_PostingIndexLength := len;
     wv_PostingContinuationBlockCount := continuations; wv_DocFreq := wv_DocFreq v;
     wv_LeafBlockID := wv_LeafBlockID v; wv_LeafWriteOffset := wv_LeafWriteOffset v;
     wv_LeafEntryCount := wv_LeafEntryCount v; wv_IndexBlockID := target + continuations;
     wv_IndexOffsetInBlock := (if continuations =? 0 then offset + len else PAGE_SIZE);
     wv_IndexBlockBase := wv_IndexBlockBase v; wv_HasIndexWrite := true |}.

(** [None]: false, and nothing has changed. *)
Definition AddIndexBytes v (sourceBytes : bytes) : option WriteView :=
  let splitLength := PostingSplitLength sourceBytes (PAGE_SIZE - wv_IndexOffsetInBlock v) in
  let '(targetBlockID, targetOffset, splitLength) :=
    if splitLength =? 0 then (wv_IndexBlockID v + 1, 0, PostingSplitLength sourceBytes PAGE_SIZE)
    else (wv_IndexBlockID v, wv_IndexOffsetInBlock v, splitLength) in
  if splitLength =? 0 then None
  else if wv_IndexBlockCount v <=? targetBlockID then None
  else
    opt continuations := cut_continuations (S (length sourceBytes)) sourceBytes splitLength in
    if wv_IndexBlockCount v - targetBlockID <? 1 + length continuations then None
    else
      let pages := alter (splice targetOffset (take splitLength sourceBytes)) targetBlockID (wv_IndexBlocks v) in
      let pages := write_conts sourceBytes (targetBlockID + 1) continuations pages in
      Some (with_posting v pages targetBlockID targetOffset splitLength (length continuations)).

Definition POSTING_SCRATCH_BYTES : Z := 2000 * Z.of_nat PAGE_SIZE.

Definition with_doc_freq v (docFreq : Z) : WriteView :=
  {| wv_LeafTermBlockCount := wv_LeafTermBlockCount v; wv_IndexBlockCount := wv_IndexBlockCount v;
     wv_LeafBlocks := wv_LeafBlocks v; wv_IndexBlocks := wv_IndexBlocks v;
     wv_PostingIndexBlockID := wv_PostingIndexBlockID v; wv_PostingIndexOffset := wv_PostingIndexOffset v;
     wv_PostingIndexLength := wv_PostingIndexLength v;
     wv_PostingContinuationBlockCount := wv_PostingContinuationBlockCount v; wv_DocFreq := docFreq;
     wv_LeafBlockID := wv_LeafBlockID v; wv_LeafWriteOffset := wv_LeafWriteOffset v;
     wv_LeafEntryCount := wv_LeafEntryCount v; wv_IndexBlockID := wv_IndexBlockID v;
     wv_IndexOffsetInBlock := wv_IndexOffsetInBlock v; wv_IndexBlockBase := wv_IndexBlockBase v;
     wv_HasIndexWrite := wv_HasIndexWrite v |}.

(** [source] is where the cursor reads its pages. *)
Definition AddIndex (source : BlockSource) v (cursor : ReadView) : option WriteView :=
  opt e := Current cursor in
  opt data := @PostingBytes source cursor in
  if (POSTING_SCRATCH_BYTES <? Z.of_nat (length data))%Z then None
  else
    opt w := AddIndexBytes v data in
    Some (with_doc_freq w (LTE_DocFreq e)).

Definition AddIndexPair (smallSource bigSource : BlockSource) v (smallCursor bigCursor : ReadView) : option WriteView :=
  opt small := Current smallCursor in
  opt big := Current bigCursor in
  opt data := @PostingBytes smallSource smallCursor in
  opt big_bytes := @PostingBytes bigSource bigCursor in
  if (POSTING_SCRATCH_BYTES <? Z.of_nat (length data))%Z
     || (POSTING_SCRATCH_BYTES - Z.of_nat (length data) <? Z.of_nat (length big_bytes))%Z then None
  else
    opt w := AddIndexBytes v (data ++ big_bytes) in
    Some (with_doc_freq w (wrapping_add 32 (LTE_DocFreq small) (LTE_DocFreq big))).

Definition UsedLeafBlockCount v : nat := if 0 <? wv_LeafEntryCount v then wv_LeafBlockID v + 1 else wv_LeafBlockID v.
Definition UsedIndexBlockCount v : nat := if wv_HasIndexWrite v then wv_IndexBlockID v + 1 else 0.

Definition ResetWrite v (indexBlockBase : Z) : WriteView :=
  view_fresh (wv_LeafTermBlockCount v) (wv_IndexBlockCount v) indexBlockBase.
End writing.

(** * What a cursor reads *)

Section cursor.
Context `{BlockSource}.
Context (groups : list (list LeafTermEntry)).
Implicit Types v : ReadView.

(** The leaf pages hold [groups]. *)
Definition leaf_pages_hold : Prop :=
  forall i g, groups !! i = Some g -> exists page, GetBlock LeafTerm (Z.of_nat i) = Some page /\
    entry_count (leaf_view page) = length g /\ forall j, j < length g -> entry (leaf_view page) j = g !! j.

Context (Hpages : leaf_pages_hold).

(** The cursor stands before entry [k] of page [i]. *)
Definition stands v (i k : nat) : Prop :=
  rv_LeafTermBlockCount v = Z.of_nat (length groups) /\ rv_LeafBlockID v = Z.of_nat i /\ rv_EntryIndex v = k /\
  (rv_CurrentLeaf v = None \/ rv_CurrentLeaf v = leaf_view <$> GetBlock LeafTerm (Z.of_nat i)) /\
  forall g, groups !! i = Some g -> k <= length g.

(** The entries from [k] of page [i] on. *)
Definition entries_from (i k : nat) : list LeafTermEntry := drop k (concat (drop i groups)).

(** The cursor has [rest] left, and shows its head. *)
Definition view_at v (rest : list LeafTermEntry) : Prop :=
  exists i k, stands v i k /\ rest = entries_from i k /\ Current v = head rest /\
    (rest <> [] -> exists g, groups !! i = Some g /\ k < length g).

Lemma entries_from_page i k g :
  groups !! i = Some g -> k <= length g -> entries_from i k = drop k g ++ entries_from (S i) 0.
Proof. intros Hg Hk. unfold entries_from. rewrite (drop_S groups g i Hg). cbn [concat]. by rewrite drop_app_le, drop_0. Qed.

Lemma GoCurrent_loop_at fuel : forall v i k,
  stands v i k -> length groups - i <= fuel -> rv_CurrentEntry v = None -> view_at (GoCurrent_loop fuel v) (entries_from i k).
Proof.
  assert (Hend : forall v i k, stands v i k -> length groups <= i -> rv_CurrentEntry v = None -> view_at v (entries_from i k)).
  { intros v i k Hs Hi Hc. exists i, k. unfold entries_from. rewrite (drop_ge groups) by done. cbn [concat]. rewrite drop_nil.
    split; [done|]. by split. }
  induction fuel as [|fuel IH]; intros v i k Hs Hf Hc; cbn [GoCurrent_loop]; [apply Hend; [done|lia|done]|].
  pose proof Hs as (Hn & Hid & Hk & Hleaf & Hle). rewrite Hid, Hn, Hk. destruct (_ <? _)%Z eqn:E; bool_to_prop; [|apply Hend; [done|lia|done]].
  destruct (lookup_lt_is_Some_2 groups i ltac:(lia)) as [g Hg]. destruct (Hpages i g Hg) as (page & Hget & Hcount & Hentry).
  specialize (Hle g Hg). rewrite Hget in *.
  replace (match rv_CurrentLeaf v with Some leaf => Some leaf | None => leaf_view <$> Some page end) with (Some (leaf_view page))
    by by destruct Hleaf as [-> | ->].
  rewrite Hcount. destruct (k <? length g) eqn:Ek; bool_to_prop.
  - exists i, k. split; [|split; [done|split]].
    + split_and!; cbn; try done; [by right; rewrite Hget|]. intros g' Hg'. by simplify_eq.
    + cbn [Current rv_CurrentEntry]. unfold Current. cbn. rewrite Hentry by done. rewrite (entries_from_page i k g Hg Hle).
      destruct (lookup_lt_is_Some_2 g k Ek) as [e He]. rewrite He. by rewrite (drop_S g e k He).
    + intros _. by exists g.
  - replace (entries_from i k) with (entries_from (S i) 0).
    2:{ rewrite (entries_from_page i k g Hg Hle). by rewrite (drop_ge g k) by done. }
    apply IH; [|lia|done]. split_and!; cbn; try done; [lia|by left|]. intros. lia.
Qed.

Lemma GoCurrent_at v i k : stands v i k -> view_at (GoCurrent v) (entries_from i k).
Proof.
  intros Hs. pose proof Hs as (Hn & Hid & _). apply GoCurrent_loop_at; [exact Hs|rewrite Hn, Hid; lia|done].
Qed.

Lemma view_new_at : view_at (view_new (Z.of_nat (length groups))) (concat groups).
Proof.
  change (concat groups) with (entries_from 0 0). apply GoCurrent_at. split_and!; cbn; try done; [by left|]. intros. lia.
Qed.

Lemma Current_at v rest : view_at v rest -> Current v = head rest.
Proof. by intros (i & k & _ & _ & H' & _). Qed.

Lemma Advance_at v e rest : view_at v (e :: rest) -> view_at (Advance v) rest.
Proof.
  intros (i & k & Hs & Hr & Hc & Hne). destruct (Hne ltac:(done)) as (g & Hg & Hk). unfold Advance. unfold Current in Hc. rewrite Hc. cbn [head].
  assert (Hrest : rest = entries_from i (k + 1)).
  { unfold entries_from in *. by rewrite <- drop_drop, <- Hr. }
  rewrite Hrest. pose proof Hs as (S1 & S2 & S3 & S4 & S5). apply GoCurrent_at. split_and!; cbn; try done; [lia|]. intros g' Hg'. simplify_eq. lia.
Qed.
End cursor.

Section posting_bytes.
Context `{BlockSource} (pages : list bytes).
Hypothesis Hget : forall i : nat, GetBlock Index (Z.of_nat i) = pages !! i.
Hypothesis Hpages : Forall (fun p => length p = PAGE_SIZE) pages.
Hypothesis Hcount : (Z.of_nat (length pages) < 2 ^ 32)%Z.

Lemma continuation_data_ok pss : forall i offset,
  Forall wf_pair (concat pss) -> conts_at (concat pages) (i + 1 + offset) pss ->
  continuation_data (length pss) (Z.of_nat i) (Z.of_nat offset) = Some (enc_pairs (concat pss)).
Proof.
  induction pss as [|ps pss IH]; intros i offset Hwf Hc; [done|]. cbn [length continuation_data concat] in *.
  apply Forall_app in Hwf as [Hwf Hwf']. destruct (Hc 0 ps eq_refl) as [Hne Hat]. rewrite Nat.add_0_r in Hat.
  assert (Hcb : cont_bytes ps <> []) by done.
  destruct (page_of_at _ _ _ _ Hpages Hcb Hat) as (pre & post & Hpage & Hpre & Hl).
  pose proof (lookup_lt_Some _ _ _ Hpage) as Hi. unfold wrapping_add. rewrite (wrap_small 32 (_ + 1)), wrap_small by (unfold in_u; lia).
  replace (Z.of_nat i + 1 + Z.of_nat offset)%Z with (Z.of_nat (i + 1 + offset)) by lia. rewrite Hget, Hpage. cbn [option_bind].
  destruct (continuation_page_of ps pre post Hwf Hne Hpre Hl) as (h & pre' & post' & -> & _ & _ & _ & Hdl & Heq & Hpre' & Hlen).
  cbn [option_bind]. rewrite Hdl, Nat2Z.id.
  rewrite (proj2 (Z.ltb_ge _ _)) by (rewrite Heq, !length_app in Hlen; lia).
  rewrite Heq, <- Hpre', slice_app_mid by done. replace (Z.of_nat offset + 1)%Z with (Z.of_nat (offset + 1)) by lia.
  rewrite IH; [by rewrite enc_pairs_app|done|]. intros k qs Hk. destruct (Hc (S k) qs Hk) as [Hq1 Hq2]. split; [done|].
  by replace (i + 1 + (offset + 1) + k) with (i + 1 + offset + S k) by lia.
Qed.

(** The bytes of a stored term's postings. *)
Lemma PostingBytes_ok `{Libm} t e v :
  stored (concat pages) t e -> Forall wf_pair (pairs_of t.2) -> (Z.of_nat (length (enc_pairs (pairs_of t.2))) <= 65534 * 4074)%Z ->
  Current v = Some e -> PostingBytes v = Some (enc_pairs (pairs_of t.2)).
Proof.
  intros (p & ps & pss & -> & Hps & i & Hqs & Hid & Hlen & Hcnt & Hat & Hconts & Hfew) Hwf Hsize Hcur.
  unfold PostingBytes. rewrite Hcur. cbn [option_bind leaf_entry_of LTE_IndexBlockID LTE_IndexOffset LTE_IndexLength LTE_ContinuationBlockCount].
  rewrite Hqs in Hwf, Hsize |- *. rewrite enc_pairs_app, length_app in Hsize. apply Forall_app in Hwf as [Hwf Hwf'].
  assert (Hne : enc_pairs ps <> []) by (intros Hz; apply Hps, enc_pairs_nil_iff; [done|by rewrite Hz]).
  destruct (page_of_at _ _ _ _ Hpages Hne Hat) as (pre & post & Hpage & Hpre & Hl).
  pose proof (lookup_lt_Some _ _ _ Hpage) as Hi. pose proof PAGE_SIZE_Z as HP. destruct Hat as (Hfit & _). unfold few_pages in Hfew.
  rewrite Hid, Hcnt, Hlen, (wrap_small 32), Hget, Hpage by (unfold in_u; lia). cbn [option_bind].
  rewrite (wrap_small 32 (Z.of_nat (length pss))) by (unfold in_u; lia). rewrite !(wrap_small 16), !Nat2Z.id by (unfold in_u; lia).
  rewrite (proj2 (Z.ltb_ge _ _)) by lia. rewrite <- Hpre, slice_app_mid by done.
  rewrite (continuation_data_ok pss i 0 Hwf' ltac:(by rewrite Nat.add_0_r) : continuation_data _ _ 0 = _). cbn [option_bind]. by rewrite enc_pairs_app.
Qed.
End posting_bytes.

(** * What a batch has written: posting pages

    [out0]: the pages of the batches dumped before. *)

Definition low_pair (p : Z * Z) : Prop := (p.2 < 128)%Z.

Definition pages_at (out0 full : list bytes) (page : bytes) (off : nat) : PageWriter :=
  {| pw_IndexBlocks := out0 ++ full; pw_cur := page; pw_wptr := off; pw_seq := wrap 32 (Z.of_nat (length (out0 ++ full))) |}.

(** The pages of a batch: [full] behind, [page] being filled, [m] untouched. *)
Record index_inv (out0 : list bytes) (v : WriteView) (full : list bytes) (page : bytes) (m : nat) : Prop := {
  ii_blocks : wv_IndexBlocks v = full ++ page :: replicate m (zeros PAGE_SIZE);
  ii_id : wv_IndexBlockID v = length full;
  ii_ok : pages_ok (pages_at out0 full page (wv_IndexOffsetInBlock v));
  ii_base : wv_IndexBlockBase v = wrap 32 (Z.of_nat (length out0));
  ii_count : wv_IndexBlockCount v = length full + 1 + m;
  ii_write : wv_HasIndexWrite v = false -> full = [] /\ wv_IndexOffsetInBlock v = 0;
}.

Section batch_pages.
Implicit Types v : WriteView.

Lemma alter_middle {A} (f : A -> A) (l1 : list A) x l2 : alter f (length l1) (l1 ++ x :: l2) = l1 ++ f x :: l2.
Proof. induction l1 as [|y l1 IH]; cbn; [done|]. by f_equal. Qed.

(** The continuations that a list of runs becomes. *)
Fixpoint cont_list (off : nat) (pss : list (list (Z * Z))) : list (nat * nat * Z) :=
  match pss with
  | [] => []
  | ps :: pss' => (off, length (enc_pairs ps), last_doc ps) :: cont_list (off + length (enc_pairs ps)) pss'
  end.

Lemma length_cont_list pss off : length (cont_list off pss) = length pss.
Proof. revert off. induction pss as [|ps pss IH]; intros off; cbn; [done|]. by rewrite IH. Qed.

Definition run_fits (ps : list (Z * Z)) : Prop :=
  ps <> [] /\ length (enc_pairs ps) <= PAGE_SIZE - INDEX_BLOCK_CONTINUATION_HEADER_SIZE.

Lemma cut_continuations_ok fuel : forall pre qs,
  Forall wf_pair qs -> Forall low_pair qs -> length (enc_pairs qs) < fuel ->
  exists pss, cut_continuations fuel (pre ++ enc_pairs qs) (length pre) = Some (cont_list (length pre) pss) /\
    concat pss = qs /\ Forall run_fits pss /\ few_pages pss.
Proof.
  induction fuel as [|fuel IH]; intros pre qs Hwf Hlow Hf; [lia|]. cbn [cut_continuations]. rewrite length_app.
  destruct (_ <? _) eqn:E; bool_to_prop.
  2:{ exists []. assert (qs = []) as -> by (apply enc_pairs_nil_iff; [done|lia]). by repeat constructor. }
  pose proof PAGE_SIZE_Z as HP. set (cap := PAGE_SIZE - INDEX_BLOCK_CONTINUATION_HEADER_SIZE).
  rewrite drop_app_length, PostingSplitLength_fit by done.
  assert (Hk : 1 <= fit cap qs) by (destruct qs; [cbn in E; lia|]; apply fit_pos; unfold cap, INDEX_BLOCK_CONTINUATION_HEADER_SIZE; lia).
  pose proof (fit_longest qs cap) as (Hk1 & Hcap & _). pose proof (fit_fills qs cap) as Hfull. set (k := fit cap qs) in *. clearbody k.
  assert (Hwt : Forall wf_pair (take k qs)) by by apply Forall_take.
  assert (Hne : take k qs <> []) by (destruct k, qs; done || (cbn in *; lia)).
  assert (Hpos : length (enc_pairs (take k qs)) <> 0) by (intros Hz; by apply enc_pairs_nil_iff in Hz).
  rewrite (proj2 (Nat.eqb_neq _ _) Hpos). pose proof (enc_pairs_cut k qs) as [Ht Hd].
  assert (Hsplit : pre ++ enc_pairs qs = (pre ++ enc_pairs (take k qs)) ++ enc_pairs (drop k qs))
    by by rewrite <- app_assoc, <- enc_pairs_app, take_drop.
  assert (Hlen : length (enc_pairs qs) = length (enc_pairs (take k qs)) + length (enc_pairs (drop k qs)))
    by by rewrite <- length_app, <- enc_pairs_app, take_drop.
  assert (Hmax : MaxDocIDInPairs_merge (slice (length pre) (length (enc_pairs (take k qs))) (pre ++ enc_pairs qs)) = last_doc (take k qs)).
  { unfold slice. rewrite drop_app_length, Ht. apply MaxDocIDInPairs_merge_pairs; [done|]. by apply Forall_take. }
  rewrite Hmax, <- length_app. rewrite Hsplit.
  destruct (IH (pre ++ enc_pairs (take k qs)) (drop k qs)) as (pss & -> & Hcat & Hfit & Hfew); [by apply Forall_drop|by apply Forall_drop|lia|].
  exists (take k qs :: pss). cbn [option_bind cont_list concat]. rewrite length_app, Hcat, take_drop.
  split; [done|]. split; [done|]. split; [by constructor|]. destruct (decide (k < length qs)).
  - apply few_pages_cons; [|done]. unfold cap, INDEX_BLOCK_CONTINUATION_HEADER_SIZE in Hfull. lia.
  - assert (pss = []) as ->.
    { rewrite drop_ge in Hcat by lia. destruct pss as [|ps pss]; [done|]. inversion Hfit as [|? ? [Hps _] _]; subst. by destruct ps. }
    unfold few_pages. cbn [concat length]. rewrite app_nil_r. lia.
Qed.

(** A page with one run. *)
Definition cont_page (ps : list (Z * Z)) : bytes := splice 0 (cont_bytes ps) (zeros PAGE_SIZE).

Lemma write_cont_zeros ps pre post :
  run_fits ps -> write_cont (pre ++ enc_pairs ps ++ post) (length pre, length (enc_pairs ps), last_doc ps) (zeros PAGE_SIZE) = cont_page ps.
Proof.
  intros [_ Hfit]. pose proof PAGE_SIZE_Z as HP. unfold INDEX_BLOCK_CONTINUATION_HEADER_SIZE in *. unfold write_cont, INDEX_BLOCK_CONTINUATION_HEADER_SIZE.
  assert (Hz : length (zeros PAGE_SIZE) = PAGE_SIZE) by apply length_replicate.
  rewrite continuation_write_bytes by (rewrite length_slice; [done|lia]). cbn [IBCH_MaxDocID IBCH_DataLength].
  rewrite wrap_small by (unfold in_u; lia). rewrite slice_app_mid by done.
  unfold cont_page, cont_bytes. rewrite (app_assoc (le_bytes 8 _)). set (hd := le_bytes 8 _ ++ le_bytes 4 _).
  assert (Hh : length hd = 12) by (unfold hd; by rewrite length_app, !length_le_bytes).
  apply (splice_splice 0 12); lia.
Qed.

Lemma write_conts_ok pss : forall pre front m,
  Forall run_fits pss -> length pss <= m ->
  write_conts (pre ++ enc_pairs (concat pss)) (length front) (cont_list (length pre) pss) (front ++ replicate m (zeros PAGE_SIZE))
    = front ++ map cont_page pss ++ replicate (m - length pss) (zeros PAGE_SIZE).
Proof.
  induction pss as [|ps pss IH]; intros pre front m Hfit Hm; cbn [cont_list write_conts map length] in *.
  { by rewrite Nat.sub_0_r. }
  inversion Hfit as [|? ? Hps Hpss]; subst. destruct m as [|m]; [lia|]. cbn [replicate concat].
  rewrite alter_middle, enc_pairs_app, write_cont_zeros by done.
  rewrite app_assoc, <- length_app. change (cont_page ps :: replicate m (zeros PAGE_SIZE)) with ([cont_page ps] ++ replicate m (zeros PAGE_SIZE)).
  rewrite (app_assoc front). replace (S (length front)) with (length (front ++ [cont_page ps])) by len_lia.
  rewrite IH by (done || lia). by rewrite <- app_assoc.
Qed.

Lemma at_page_concat pages rest i p off chunk :
  Forall (fun p => length p = PAGE_SIZE) pages -> pages !! i = Some p -> slice off (length chunk) p = chunk ->
  off + length chunk <= PAGE_SIZE -> at_page (concat pages ++ rest) i off chunk.
Proof.
  intros Hp Hi Hs Hfit. pose proof (lookup_lt_Some _ _ _ Hi) as Hlt. pose proof (length_concat_pages pages Hp) as Hl.
  assert (Hle : (i + 1) * PAGE_SIZE <= length pages * PAGE_SIZE) by (apply Nat.mul_le_mono_r; lia).
  split; [done|]. split; [rewrite length_app; lia|]. rewrite slice_app_l by lia.
  rewrite <- (slice_slice _ PAGE_SIZE) by lia. etrans; [|exact Hs]. f_equal.
  rewrite <- (map_id pages). apply (slice_concat id); [|done]. rewrite Forall_forall in Hp. exact Hp.
Qed.

(** The continuation pages after the page being filled. *)
Lemma conts_written out0 full page off pss :
  pages_ok (pages_at out0 full page off) -> Forall run_fits pss -> pss <> [] ->
  exists (full' : list bytes) (page' : bytes), full' ++ [page'] = full ++ page :: map cont_page pss /\
    pages_ok (pages_at out0 full' page' PAGE_SIZE) /\
    page_out (pages_at out0 full page off) `prefix_of` page_out (pages_at out0 full' page' PAGE_SIZE) /\
    conts_at (page_out (pages_at out0 full' page' PAGE_SIZE)) (length (out0 ++ full) + 1) pss.
Proof.
  intros (Hb & Hc & Hp & _) Hfit Hne. cbn in Hb, Hc, Hp.
  destruct (exists_last Hne) as (pss0 & psl & ->). exists (full ++ page :: map cont_page pss0), (cont_page psl).
  rewrite map_app. cbn [map]. split; [by rewrite <- app_assoc|].
  assert (Hlen : forall ps, run_fits ps -> length (cont_page ps) = PAGE_SIZE).
  { intros ps [_ Hps]. unfold cont_page. rewrite length_splice; [apply length_replicate|].
    unfold zeros. rewrite length_replicate, length_cont_bytes. pose proof PAGE_SIZE_Z. unfold INDEX_BLOCK_CONTINUATION_HEADER_SIZE in *. lia. }
  assert (Hlast : run_fits psl) by (apply Forall_app in Hfit as [_ Hx]; by inversion Hx).
  assert (Hall : Forall (fun p => length p = PAGE_SIZE) (out0 ++ full ++ page :: map cont_page (pss0 ++ [psl]))).
  { rewrite app_assoc. apply Forall_app. split; [done|]. constructor; [done|]. apply Forall_map. eapply Forall_impl; [exact Hfit|]. exact Hlen. }
  assert (Hout : page_out (pages_at out0 (full ++ page :: map cont_page pss0) (cont_page psl) PAGE_SIZE)
    = concat (out0 ++ full ++ page :: map cont_page (pss0 ++ [psl]))).
  { unfold page_out. cbn [pages_at pw_IndexBlocks pw_wptr pw_cur]. rewrite take_ge.
    - rewrite map_app. cbn [map]. rewrite !concat_app. cbn [concat]. rewrite concat_app. cbn [concat]. by rewrite app_nil_r, <- !app_assoc.
    - by rewrite Hlen. }
  rewrite Hout. split; [|split].
  - split_and!; cbn; [|by apply Hlen|done|done].
    rewrite map_app in Hall. cbn [map] in Hall. rewrite app_comm_cons, !app_assoc in Hall. apply Forall_app in Hall as [Hall _].
    by rewrite <- !app_assoc in Hall.
  - unfold page_out. cbn [pages_at pw_IndexBlocks pw_wptr pw_cur]. rewrite app_assoc, (concat_app (out0 ++ full)). cbn [concat].
    apply prefix_app. exists (drop off page ++ concat (map cont_page (pss0 ++ [psl]))). by rewrite app_assoc, take_drop.
  - intros k ps Hk. rewrite Forall_lookup in Hfit. pose proof (Hfit k ps Hk) as [Hps Hpf]. split; [done|].
    rewrite <- (app_nil_r (concat _)). pose proof PAGE_SIZE_Z as HP. unfold INDEX_BLOCK_CONTINUATION_HEADER_SIZE in *.
    apply (at_page_concat _ [] _ (cont_page ps)); [done| | |].
    + rewrite app_assoc, lookup_app_r by lia. replace (length (out0 ++ full) + 1 + k - length (out0 ++ full)) with (S k) by lia.
      change (map cont_page (pss0 ++ [psl])) with (cont_page <$> (pss0 ++ [psl])). etrans; [apply (list_lookup_fmap cont_page (pss0 ++ [psl]) k)|]. by rewrite Hk.
    + unfold cont_page. apply slice_splice_same. lia.
    + rewrite length_cont_bytes. unfold INDEX_BLOCK_CONTINUATION_HEADER_SIZE. lia.
Qed.

(** What adding a posting list leaves: its place, and the pages it went to after [out]. *)
Definition posting_added out0 out v qs v' : Prop :=
  exists pages target off len n full page m ps pss,
    v' = with_posting v pages target off len n /\ index_inv out0 v' full page m /\
    let out' := page_out (pages_at out0 full page (wv_IndexOffsetInBlock v')) in
    out `prefix_of` out' /\ ps <> [] /\
    placed_at out' {| pl_id := wrapping_add 32 (wv_IndexBlockBase v) (Z.of_nat target); pl_offset := off; pl_length := len;
                      pl_continuations := wrap 32 (Z.of_nat n) |} qs ps pss.

(** From a page that has room for [k] pairs on. *)
Lemma place_run out0 out v full page m off qs k :
  wv_IndexBlocks v = full ++ page :: replicate m (zeros PAGE_SIZE) -> wv_IndexBlockCount v = length full + 1 + m ->
  wv_IndexBlockBase v = wrap 32 (Z.of_nat (length out0)) -> pages_ok (pages_at out0 full page off) ->
  out `prefix_of` page_out (pages_at out0 full page off) ->
  Forall wf_pair qs -> Forall low_pair qs -> take k qs <> [] -> off + length (enc_pairs (take k qs)) <= PAGE_SIZE ->
  let sourceBytes := enc_pairs qs in
  let len := length (enc_pairs (take k qs)) in
  match
    (opt continuations := cut_continuations (S (length sourceBytes)) sourceBytes len in
     if wv_IndexBlockCount v - length full <? 1 + length continuations then None
     else
       let pages := alter (splice off (take len sourceBytes)) (length full) (wv_IndexBlocks v) in
       let pages := write_conts sourceBytes (length full + 1) continuations pages in
       Some (with_posting v pages (length full) off len (length continuations)))
  with
  | Some v' => posting_added out0 out v qs v'
  | None => (Z.of_nat m * 4074 <= Z.of_nat (length sourceBytes) + 4073)%Z
  end.
Proof.
  intros Hblocks Hcount Hbase Hok Hout Hwf Hlow Hne Hfit. cbv zeta.
  assert (Hsplit : enc_pairs qs = enc_pairs (take k qs) ++ enc_pairs (drop k qs)) by by rewrite <- enc_pairs_app, take_drop.
  pose proof (f_equal length Hsplit) as Hlen. rewrite length_app in Hlen.
  destruct (cut_continuations_ok (S (length (enc_pairs qs))) (enc_pairs (take k qs)) (drop k qs)) as (pss & Hcut & Hcat & Hfits & Hfew);
    [by apply Forall_drop|by apply Forall_drop|lia|].
  rewrite <- Hsplit in Hcut. rewrite Hcut. cbn [option_bind]. rewrite length_cont_list, Hcount.
  destruct (_ <? _) eqn:E; bool_to_prop.
  { unfold few_pages in Hfew. rewrite Hcat in Hfew. lia. }
  assert (Htake : take (length (enc_pairs (take k qs))) (enc_pairs qs) = enc_pairs (take k qs)) by apply enc_pairs_cut.
  rewrite Htake, Hblocks, alter_middle. set (chunk := enc_pairs (take k qs)) in *. set (page1 := splice off chunk page).
  destruct (copy_chunk_ok _ chunk Hok Hfit) as [Hok1 Hout1]. pose proof (copy_chunk_at _ chunk Hok Hfit) as Hat.
  change (copy_chunk (pages_at out0 full page off) chunk) with (pages_at out0 full page1 (off + length chunk)) in Hok1, Hout1, Hat.
  cbn [pages_at pw_IndexBlocks pw_wptr] in Hat.
  assert (Hpre1 : out `prefix_of` page_out (pages_at out0 full page1 (off + length chunk))).
  { etrans; [exact Hout|]. rewrite Hout1. by apply prefix_app_r. }
  assert (Hpages : write_conts (enc_pairs qs) (length full + 1) (cont_list (length chunk) pss) (full ++ page1 :: replicate m (zeros PAGE_SIZE))
    = full ++ page1 :: map cont_page pss ++ replicate (m - length pss) (zeros PAGE_SIZE)).
  { rewrite Hsplit, <- Hcat. change (page1 :: ?l) with ([page1] ++ l). rewrite (app_assoc full), (app_assoc full).
    replace (length full + 1) with (length (full ++ [page1])) by len_lia. apply write_conts_ok; [done|lia]. }
  rewrite Hpages.
  assert (Hid : wrapping_add 32 (wv_IndexBlockBase v) (Z.of_nat (length full)) = wrap 32 (Z.of_nat (length (out0 ++ full)))).
  { rewrite Hbase. unfold wrapping_add, wrap. rewrite length_app, Nat2Z.inj_add. by rewrite Zplus_mod_idemp_l. }
  destruct (decide (pss = [])) as [->|Hpss].
  - eexists _, _, _, _, _, full, page1, m, (take k qs), []. split; [reflexivity|].
    cbn [length with_posting wv_IndexOffsetInBlock Nat.eqb map app]. rewrite Nat.sub_0_r.
    split; [split; cbn [with_posting wv_IndexBlocks wv_IndexBlockID wv_IndexOffsetInBlock wv_IndexBlockBase wv_IndexBlockCount wv_HasIndexWrite length Nat.eqb];
      done || lia|]. cbv zeta. split; [done|]. split; [done|].
    exists (length (out0 ++ full)). cbn [pl_id pl_offset pl_length pl_continuations concat]. rewrite app_nil_r.
    assert (Hq : qs = take k qs) by (rewrite <- (take_drop k qs) at 1; rewrite <- Hcat; cbn; by rewrite app_nil_r).
    by split_and!.
  - destruct (conts_written out0 full page1 _ pss Hok1 Hfits Hpss) as (full' & page' & Hfull & Hok' & Hpre' & Hconts).
    pose proof (f_equal length Hfull) as Hlf. rewrite !length_app in Hlf. cbn [length] in Hlf. rewrite length_map in Hlf.
    eexists _, _, _, _, _, full', page', (m - length pss), (take k qs), pss. split; [reflexivity|].
    cbn [with_posting wv_IndexOffsetInBlock]. replace (length pss =? 0) with false by (symmetry; apply Nat.eqb_neq; by destruct pss).
    split.
    { split; cbn [with_posting wv_IndexBlocks wv_IndexBlockID wv_IndexOffsetInBlock wv_IndexBlockBase wv_IndexBlockCount wv_HasIndexWrite];
        [|lia| |done|lia|done].
      - change (page' :: ?l) with ([page'] ++ l). rewrite (app_assoc full'), Hfull, <- app_assoc. done.
      - by replace (length pss =? 0) with false by (symmetry; apply Nat.eqb_neq; by destruct pss). }
    cbv zeta. split; [by etrans|]. split; [done|].
    exists (length (out0 ++ full)). cbn [pl_id pl_offset pl_length pl_continuations].
    split; [by rewrite Hcat, take_drop|]. split; [done|]. split; [done|]. split; [done|].
    split; [by eapply at_page_mono|]. by split.
Qed.

Lemma AddIndexBytes_ok out0 v full page m qs :
  index_inv out0 v full page m -> Forall wf_pair qs -> Forall low_pair qs -> qs <> [] ->
  match AddIndexBytes v (enc_pairs qs) with
  | Some v' => posting_added out0 (page_out (pages_at out0 full page (wv_IndexOffsetInBlock v))) v qs v'
  | None => (Z.of_nat m * 4074 <= Z.of_nat (length (enc_pairs qs)) + 8148)%Z
  end.
Proof.
  intros [Hblocks Hid Hok Hbase Hcount _] Hwf Hlow Hne. unfold AddIndexBytes. pose proof PAGE_SIZE_Z as HP.
  rewrite !PostingSplitLength_fit by done. pose proof Hok as (_ & _ & Hoff & _). cbn [pages_at pw_wptr] in Hoff.
  set (off := wv_IndexOffsetInBlock v) in *. set (k0 := fit (PAGE_SIZE - off) qs).
  pose proof (fit_longest qs (PAGE_SIZE - off)) as (_ & Hc0 & _). fold k0 in Hc0.
  pose proof (fit_longest qs PAGE_SIZE) as (Hk1 & Hc1 & _).
  assert (Hpos : 1 <= fit PAGE_SIZE qs) by (destruct qs; [done|]; apply fit_pos; lia).
  assert (Hne1 : take (fit PAGE_SIZE qs) qs <> []) by (destruct (fit PAGE_SIZE qs), qs; done || (cbn in *; lia)).
  destruct (length (enc_pairs (take k0 qs)) =? 0) eqn:E0; bool_to_prop.
  - replace (_ =? 0) with false.
    2:{ symmetry. apply Nat.eqb_neq. intros Hz. apply Hne1, enc_pairs_nil_iff; [by apply Forall_take|done]. }
    rewrite Hid, Hcount. destruct (_ <=? _) eqn:E1; bool_to_prop; [lia|]. destruct m as [|m]; [lia|].
    destruct (flush_index_block_ok _ Hok) as [Hok1 Hpre1].
    assert (Hflush : flush_index_block (pages_at out0 full page off) = pages_at out0 (full ++ [page]) (zeros PAGE_SIZE) 0).
    { unfold flush_index_block, pages_at. cbn [pw_IndexBlocks pw_cur pw_seq]. rewrite wrapping_succ, !app_assoc. do 3 f_equal. len_lia. }
    rewrite Hflush in Hok1, Hpre1. pose proof (place_run out0 (page_out (pages_at out0 full page off)) v (full ++ [page]) (zeros PAGE_SIZE) m 0 qs
      (fit PAGE_SIZE qs)) as Hrun. rewrite length_app in Hrun. cbn [length] in Hrun. cbv zeta in Hrun. rewrite <- Hcount.
    specialize (Hrun ltac:(by rewrite Hblocks, <- app_assoc) ltac:(lia) Hbase Hok1 Hpre1 Hwf Hlow Hne1 ltac:(lia)).
    destruct (opt continuations := _ in _); [exact Hrun|lia].
  - rewrite (proj2 (Nat.eqb_neq _ _)) by done. rewrite Hid, Hcount. replace (_ <=? length full) with false by (symmetry; apply Nat.leb_gt; lia).
    rewrite <- Hcount.
    pose proof (place_run out0 (page_out (pages_at out0 full page off)) v full page m off qs k0 Hblocks Hcount Hbase Hok) as Hrun. cbv zeta in Hrun.
    specialize (Hrun ltac:(done) Hwf Hlow ltac:(by intros Hz; rewrite Hz in E0) ltac:(lia)).
    destruct (opt continuations := _ in _); [exact Hrun|lia].
Qed.
End batch_pages.

(** * What a batch has written: leaf pages *)

(** The page being filled, as the builder's. *)
Definition filling (v : WriteView) (page : LeafTermBlock) (cur : list LeafTermEntry) : LeafWriter :=
  {| lw_leaf_blocks := []; lw_head_entries := []; lw_leaf_block := page; lw_leaf_write_offset := wv_LeafWriteOffset v;
     lw_leaf_entry_count := wv_LeafEntryCount v; lw_first_leaf_term := group_key cur; lw_total_terms := 0 |}.

(** The leaf pages of a batch: [blocks] with [groups] behind, [page] with [cur], [m] untouched. *)
Record leaves_inv (v : WriteView) (blocks : list LeafTermBlock) (page : LeafTermBlock) (m : nat)
    (groups : list (list LeafTermEntry)) (cur : list LeafTermEntry) : Prop := {
  li_blocks : wv_LeafBlocks v = blocks ++ page :: replicate m leaf_default;
  li_id : wv_LeafBlockID v = length blocks;
  li_done : Forall2 leaf_block_of blocks groups;
  li_fill : leaf_filling (filling v page cur) cur;
  li_page : cur <> [] -> leaf_block_of page cur;
  li_count : wv_LeafTermBlockCount v = length blocks + 1 + m;
}.

(** Two views with the same posting pages. *)
Definition same_index (v v' : WriteView) : Prop :=
  wv_IndexBlocks v' = wv_IndexBlocks v /\ wv_IndexBlockID v' = wv_IndexBlockID v /\
  wv_IndexOffsetInBlock v' = wv_IndexOffsetInBlock v /\ wv_IndexBlockBase v' = wv_IndexBlockBase v /\
  wv_IndexBlockCount v' = wv_IndexBlockCount v /\ wv_HasIndexWrite v' = wv_HasIndexWrite v.

Definition same_leaves (v v' : WriteView) : Prop :=
  wv_LeafBlocks v' = wv_LeafBlocks v /\ wv_LeafBlockID v' = wv_LeafBlockID v /\
  wv_LeafWriteOffset v' = wv_LeafWriteOffset v /\ wv_LeafEntryCount v' = wv_LeafEntryCount v /\
  wv_LeafTermBlockCount v' = wv_LeafTermBlockCount v.

Section batch_leaves.
Implicit Types v : WriteView.

Lemma index_same out0 v v' full page m : same_index v v' -> index_inv out0 v full page m -> index_inv out0 v' full page m.
Proof. intros (E1 & E2 & E3 & E4 & E5 & E6) [H1 H2 H3 H4 H5 H6]. split; by rewrite ?E1, ?E2, ?E3, ?E4, ?E5, ?E6. Qed.

Lemma leaves_same v v' blocks page m groups cur :
  same_leaves v v' -> leaves_inv v blocks page m groups cur -> leaves_inv v' blocks page m groups cur.
Proof.
  intros (E1 & E2 & E3 & E4 & E5) [H1 H2 H3 H4 H5 H6]. split; rewrite ?E1, ?E2, ?E5; try done.
  unfold filling in *. by rewrite E3, E4.
Qed.

(** Writing the count does not disturb the entries. *)
Lemma set_leaf_count_filling v page cur n :
  leaf_filling (filling v page cur) cur -> leaf_filling (filling v (set_leaf_count n page) cur) cur.
Proof.
  intros (Hwf & Hc & Hk & Ho & Hfit & Hlen & Hes & Hh). split; [|do 6 (split; [done|])].
  - destruct Hwf as (Hd & Hf & Hl). split; [|split; [|exact Hl]]; unfold set_leaf_count; cbn [filling lw_leaf_block LTB_Directory].
    + by rewrite length_insert.
    + apply Forall_insert; [done|]. by apply wrap_range.
  - intros j e Hj. destruct (Hh j e Hj) as (H1 & H2 & H3). split; [|done]. rewrite <- H1.
    pose proof (lookup_lt_Some _ _ _ Hj). apply directory_insert_ne. unfold LEAF_TERM_DIRECTORY_COUNT in *. lia.
Qed.

(** A new page. *)
Lemma empty_filling v page :
  wv_LeafWriteOffset v = 0 -> wv_LeafEntryCount v = 0 -> leaf_wf page -> leaf_filling (filling v page []) [].
Proof. intros H1 H2 Hwf. split; [done|]. repeat (split; [first [done|apply Nat.le_0_l|constructor]|]). done. Qed.

Lemma view_leaf_full_spec v page cur e :
  leaf_filling (filling v page cur) cur -> byte_len e <= LEAF_TERM_DATA_SIZE ->
  if view_leaf_full v (byte_len e) then cur <> []
  else length cur < LEAF_TERM_DIRECTORY_COUNT - 1 /\ leaf_offset cur + byte_len e <= LEAF_TERM_DATA_SIZE.
Proof.
  intros (_ & Hcnt & _ & Hoff & _) Hsmall. cbn in Hcnt, Hoff. unfold view_leaf_full. rewrite Hcnt, Hoff.
  destruct (_ && _) eqn:E.
  - apply andb_true_iff in E as [E%Nat.ltb_lt _]. intros ->. cbn in E. lia.
  - destruct cur as [|c cur]; [split; [unfold LEAF_TERM_DIRECTORY_COUNT; cbn; lia|exact Hsmall]|].
    change (0 <? length (c :: cur)) with true in E. rewrite andb_true_l, orb_false_iff in E.
    destruct E as [E1%Nat.leb_gt E2%Nat.ltb_ge]. split; [exact E1|]. unfold LEAF_TERM_DATA_SIZE. lia.
Qed.

(** An entry that fits goes to the page being filled. *)
Lemma add_to_page v blocks page m groups cur e :
  leaves_inv v blocks page m groups cur -> builder_entry e -> length cur < LEAF_TERM_DIRECTORY_COUNT - 1 ->
  leaf_offset cur + byte_len e <= LEAF_TERM_DATA_SIZE ->
  let page1 := set_leaf_count (wv_LeafEntryCount v + 1) (WriteLeafEntry page (wv_LeafEntryCount v) (wv_LeafWriteOffset v) e) in
  let v' := with_leaves v (blocks ++ page1 :: replicate m leaf_default) (wv_LeafBlockID v) (wv_LeafWriteOffset v + byte_len e)
              (wv_LeafEntryCount v + 1) in
  leaves_inv v' blocks page1 m groups (cur ++ [e]).
Proof.
  intros [H1 H2 H3 H4 H5 H6] He Hroom Hfit. cbv zeta.
  pose proof (proj1 (proj2 H4)) as Hcnt. cbn in Hcnt.
  set (page0 := WriteLeafEntry page (wv_LeafEntryCount v) (wv_LeafWriteOffset v) e).
  set (v' := with_leaves _ _ _ _ _).
  assert (Hfill : leaf_filling (filling v' page0 (cur ++ [e])) (cur ++ [e])).
  { apply (write_leaf_filling _ _ _ _ H4 He Hroom Hfit); try done. cbn. rewrite Hcnt. by destruct cur. }
  split; try done.
  - by apply set_leaf_count_filling.
  - intros _. rewrite Hcnt. replace (length cur + 1) with (length (cur ++ [e])) by len_lia.
    apply (leaf_finish (filling v' page0 (cur ++ [e]))); [done|by destruct cur].
Qed.

Lemma AddLeafTermEntry_ok v blocks page m groups cur cursor e :
  leaves_inv v blocks page m groups cur -> Current cursor = Some e -> builder_entry (merged_entry v e) ->
  if CanAddLeafTermEntry v cursor then
    exists v' blocks' page' m' groups' cur', AddLeafTermEntry v cursor = (v', true) /\
      leaves_inv v' blocks' page' m' groups' cur' /\ same_index v v' /\ wv_LeafTermBlockCount v' = wv_LeafTermBlockCount v /\
      concat groups' ++ cur' = (concat groups ++ cur) ++ [merged_entry v e]
  else m = 0.
Proof.
  intros Hinv Hcur He. unfold CanAddLeafTermEntry, AddLeafTermEntry. rewrite Hcur.
  assert (Hterm : length (LTE_Term e) <= HEAD_TERM_KEY_MAX) by apply He.
  replace (HEAD_TERM_KEY_MAX <? length (LTE_Term e)) with false by (symmetry; apply Nat.ltb_ge; lia).
  assert (Hsmall : byte_len e <= LEAF_TERM_DATA_SIZE).
  { pose proof LEAF_TERM_DATA_SIZE_Z. unfold byte_len, LEAF_TERM_ENTRY_SIZE, HEAD_TERM_KEY_MAX in *. lia. }
  assert (Hlen : byte_len (merged_entry v e) = byte_len e) by done.
  replace (PAGE_SIZE - LEAF_TERM_DATA_OFFSET <? byte_len e) with false by (symmetry; apply Nat.ltb_ge; exact Hsmall).
  pose proof (view_leaf_full_spec v page cur e (li_fill _ _ _ _ _ _ Hinv) Hsmall) as Hfull.
  pose proof Hinv as [H1 H2 H3 H4 H5 H6]. destruct (view_leaf_full v (byte_len e)).
  - rewrite H2, H6. destruct (_ <? _) eqn:E; bool_to_prop; [|lia]. destruct m as [|m]; [lia|].
    rewrite H1, alter_middle. set (page1 := set_leaf_count (wv_LeafEntryCount v) page).
    set (v1 := with_leaves v _ _ 0 0).
    assert (Hblock : leaf_block_of page1 cur).
    { unfold page1. pose proof (proj1 (proj2 H4)) as Hcnt. cbn in Hcnt. rewrite Hcnt.
      exact (leaf_finish _ _ H4 Hfull). }
    assert (Hv1 : leaves_inv v1 (blocks ++ [page1]) leaf_default m (groups ++ [cur]) []).
    { split; cbn; [by rewrite <- app_assoc|len_lia| |by apply empty_filling; [..|apply leaf_default_wf]|done|len_lia].
      apply Forall2_app; [done|]. by constructor. }
    replace ((wv_LeafTermBlockCount v1 <=? wv_LeafBlockID v1) || false) with false.
    2:{ symmetry. rewrite orb_false_r. apply Nat.leb_gt. cbn. lia. }
    rewrite (li_id _ _ _ _ _ _ Hv1), (li_blocks _ _ _ _ _ _ Hv1), !alter_middle.
    pose proof (add_to_page _ _ _ _ _ _ (merged_entry v e) Hv1 He ltac:(unfold LEAF_TERM_DIRECTORY_COUNT; cbn; lia) Hsmall) as Hadd.
    cbv zeta in Hadd. rewrite (li_id _ _ _ _ _ _ Hv1) in Hadd.
    eexists _, _, _, _, _, _. split; [reflexivity|]. split; [by eapply leaves_same; [|exact Hadd]|]. do 2 (split; [done|]).
    rewrite concat_app. cbn. by rewrite !app_nil_r.
  - destruct Hfull as [Hroom Hfit]. rewrite H2, H6. destruct (_ <? _) eqn:E; bool_to_prop; [|lia].
    replace (_ || _) with false by (symmetry; rewrite orb_false_r; apply Nat.leb_gt; lia).
    rewrite H1, !alter_middle. pose proof (add_to_page _ _ _ _ _ _ (merged_entry v e) Hinv He Hroom Hfit) as Hadd.
    cbv zeta in Hadd. rewrite H2 in Hadd. eexists _, _, _, _, _, _. split; [reflexivity|].
    split; [by eapply leaves_same; [|exact Hadd]|]. do 2 (split; [done|]). by rewrite app_assoc.
Qed.
End batch_leaves.

(** * An entry of the merged index *)

(** The batch's posting pages are [out] so far, and [m] of them are untouched. *)
Definition batch_out (out0 : list bytes) (v : WriteView) (m : nat) (out : bytes) : Prop :=
  exists full page, index_inv out0 v full page m /\ out = page_out (pages_at out0 full page (wv_IndexOffsetInBlock v)).

Section merged_entries.
Context `{Libm}.
Implicit Types v : WriteView.

Lemma batch_out_same out0 v v' m out : same_index v v' -> batch_out out0 v m out -> batch_out out0 v' m out.
Proof.
  intros Hs (full & page & Hinv & ->). exists full, page. split; [by eapply index_same|].
  by destruct Hs as (_ & _ & -> & _).
Qed.

(** What an entry of a built index says whatever its place. *)
Definition entry_for (key : str) (e : LeafTermEntry) : Prop :=
  LTE_Term e = key /\ LTE_Flags e = 0%Z /\ LTE_TermLength e = wrap 8 (Z.of_nat (length key)).

Lemma stored_entry_for out t e : stored out t e -> entry_for t.1 e /\ LTE_DocFreq e = doc_freq t.2.
Proof. intros (p & ps & pss & -> & _). done. Qed.

Lemma posting_added_entry out0 out v v1 key pl e df :
  posting_added out0 out v (pairs_of pl) v1 -> entry_for key e -> df = doc_freq pl ->
  let v2 := with_doc_freq v1 df in
  exists m out2, batch_out out0 v2 m out2 /\ out `prefix_of` out2 /\ same_leaves v v2 /\ wv_IndexBlockCount v2 = wv_IndexBlockCount v /\
    stored out2 (key, pl) (merged_entry v2 e).
Proof.
  intros (pages & target & off & len & n & full & page & m & ps & pss & -> & Hinv & Hpre & Hne & Hat) (Ht & Hf & Hl) ->. cbv zeta in *.
  eexists m, _. split; [exists full, page; split; [by eapply index_same; [|exact Hinv]|reflexivity]|].
  split; [exact Hpre|]. split; [done|]. split; [done|].
  eexists _, ps, pss. split; [|split; [exact Hne|exact Hat]].
  unfold merged_entry, leaf_entry_of. cbn [with_doc_freq with_posting wv_DocFreq wv_IndexBlockBase wv_PostingIndexBlockID wv_PostingIndexOffset
    wv_PostingIndexLength wv_PostingContinuationBlockCount fst snd pl_id pl_offset pl_length pl_continuations].
  rewrite Ht, Hf, Hl. f_equal. symmetry. unfold wrap. change (2 ^ 32)%Z with (2 ^ 16 * 2 ^ 16)%Z.
  rewrite Z.rem_mul_r by lia. rewrite (Z.mul_comm (2 ^ 16)), Z.mod_add by lia. by rewrite Z.mod_mod by lia.
Qed.

(** The posting lists of one term in both indexes, joined. *)
Definition join_lists (a b : PostingList) : PostingList := {| entries := entries a ++ entries b |}.

Lemma join_pairs a b : pairs_of (join_lists a b) = pairs_of a ++ pairs_of b.
Proof. unfold pairs_of, join_lists. cbn. by rewrite map_app. Qed.

Lemma join_doc_freq a b : wrapping_add 32 (doc_freq a) (doc_freq b) = doc_freq (join_lists a b).
Proof.
  unfold doc_freq, join_lists, wrapping_add, wrap. cbn. rewrite length_app, Nat2Z.inj_add. by rewrite <- Zplus_mod.
Qed.

(** A posting list the merge can carry: frequency bytes below 128, and within its scratch buffer. *)
Definition mergeable (pl : PostingList) : Prop :=
  Forall wf_pair (pairs_of pl) /\ Forall low_pair (pairs_of pl) /\ pairs_of pl <> [] /\
  (Z.of_nat (length (enc_pairs (pairs_of pl))) <= POSTING_SCRATCH_BYTES)%Z.

(** What adding the postings of a term to a batch comes to: room is short only when few pages are left. *)
Definition entry_added out0 v m out key pl e (added : option WriteView) : Prop :=
  match added with
  | Some v2 => exists m' out2, batch_out out0 v2 m' out2 /\ out `prefix_of` out2 /\ same_leaves v v2 /\
                 wv_IndexBlockCount v2 = wv_IndexBlockCount v /\ stored out2 (key, pl) (merged_entry v2 e)
  | None => m < 2100
  end.

Lemma AddIndexBytes_entry out0 v m out key pl e df :
  batch_out out0 v m out -> mergeable pl -> entry_for key e -> df = doc_freq pl ->
  entry_added out0 v m out key pl e (opt w := AddIndexBytes v (enc_pairs (pairs_of pl)) in Some (with_doc_freq w df)).
Proof.
  intros (full & page & Hinv & ->) (Hwf & Hlow & Hne & Hsize) He Hdf.
  pose proof (AddIndexBytes_ok out0 v full page m _ Hinv Hwf Hlow Hne) as Hadd.
  destruct (AddIndexBytes _ _) as [v1|]; [by eapply posting_added_entry|].
  unfold POSTING_SCRATCH_BYTES in Hsize. rewrite PAGE_SIZE_Z in Hsize. cbn. lia.
Qed.

Lemma AddIndex_ok source out0 v m out outs cursor key pl e :
  batch_out out0 v m out -> mergeable pl -> Current cursor = Some e -> stored outs (key, pl) e ->
  @PostingBytes source cursor = Some (enc_pairs (pairs_of pl)) ->
  entry_added out0 v m out key pl e (AddIndex source v cursor).
Proof.
  intros Hout Hm Hcur Hst Hbytes. destruct (stored_entry_for _ _ _ Hst) as [He Hdf]. unfold AddIndex. rewrite Hcur, Hbytes. cbn [option_bind].
  rewrite (proj2 (Z.ltb_ge _ _)) by apply Hm. by apply AddIndexBytes_entry.
Qed.

Lemma AddIndexPair_ok small big out0 v m out outs outb smallCursor bigCursor key a b ea eb :
  batch_out out0 v m out -> mergeable (join_lists a b) ->
  Current smallCursor = Some ea -> stored outs (key, a) ea -> @PostingBytes small smallCursor = Some (enc_pairs (pairs_of a)) ->
  Current bigCursor = Some eb -> stored outb (key, b) eb -> @PostingBytes big bigCursor = Some (enc_pairs (pairs_of b)) ->
  entry_added out0 v m out key (join_lists a b) ea (AddIndexPair small big v smallCursor bigCursor).
Proof.
  intros Hout Hm Hca Ha Hba Hcb Hb Hbb. destruct (stored_entry_for _ _ _ Ha) as [He Hda], (stored_entry_for _ _ _ Hb) as [_ Hdb].
  unfold AddIndexPair. rewrite Hca, Hcb, Hba, Hbb. cbn [option_bind]. pose proof Hm as (_ & _ & _ & Hsize).
  rewrite join_pairs, enc_pairs_app, length_app, Nat2Z.inj_add in Hsize.
  rewrite (proj2 (Z.ltb_ge _ _)) by lia. rewrite (proj2 (Z.ltb_ge _ _)) by lia. cbn [orb].
  rewrite <- enc_pairs_app, <- join_pairs. apply AddIndexBytes_entry; [done|done|done|].
  rewrite Hda, Hdb. apply join_doc_freq.
Qed.
End merged_entries.
