(* ===== verification/Merge.v ===== *)
(** IndexContext::Merge (IndexContext.rs): a loaded index and its delta become one
    file, term by term in batches of pages, with the proof that the file answers as
    the two stores together. *)

From Stdlib Require Import ZArith Lia ZifyBool Bool List.
From stdpp Require Import base list list_numbers gmap sorting.
From S2P Require Import Prelude Floats PostingCodec PostingStore FileAccess FileFormat BlockCache Mphf TermDictionary PathSidecar DocData IndexReader AdvancedReader IndexBuilder IndexFile MergeView.

Local Open Scope moon_scope.

(** * Dumping a batch *)

(** The three files that the merge appends to, and its counts. *)
Record MergeFiles := {
  mf_headFile : bytes;
  mf_leafFile : bytes;
  mf_indexFile : bytes;
  mf_headEntryCount : Z;
  mf_totalTerms : Z;
  mf_indexBlockCount : Z;
}.

Definition no_files : MergeFiles :=
  {| mf_headFile := []; mf_leafFile := []; mf_indexFile := []; mf_headEntryCount := 0; mf_totalTerms := 0; mf_indexBlockCount := 0 |}.

(** The loop over the leaf pages of the batch. [None]: HeadTermEntry::new panics. *)
Fixpoint dump_leaves (leaves : list LeafTermBlock) (leafBlockID : nat) (f : MergeFiles) : option (result MergeFiles) :=
  match leaves with
  | [] => Some (Ok f)
  | leaf :: leaves' =>
      let entryCount := Nat.min (entry_count leaf) (LEAF_TERM_DIRECTORY_COUNT - 1) in
      match entry leaf 0 with
      | None => Some (Err InvalidFormat)
      | Some firstEntry =>
          opt head := head_new (LTE_Term firstEntry) (wrapping_add 32 (wrap 32 (mf_headEntryCount f)) (Z.of_nat leafBlockID)) in
          dump_leaves leaves' (S leafBlockID)
            {| mf_headFile := mf_headFile f ++ head_to_bytes head; mf_leafFile := mf_leafFile f ++ leaf_to_bytes leaf;
               mf_indexFile := mf_indexFile f; mf_headEntryCount := mf_headEntryCount f;
               mf_totalTerms := wrapping_add 64 (mf_totalTerms f) (Z.of_nat entryCount);
               mf_indexBlockCount := mf_indexBlockCount f |}
      end
  end.

Definition DumpBatch (mergedCursor : WriteView) (f : MergeFiles) : option (result (WriteView * MergeFiles)) :=
  let usedLeafBlocks := UsedLeafBlockCount mergedCursor in
  let usedIndexBlocks := UsedIndexBlockCount mergedCursor in
  if (usedLeafBlocks =? 0) && (usedIndexBlocks =? 0) then Some (Ok (mergedCursor, f))
  else
    opt r := dump_leaves (take usedLeafBlocks (wv_LeafBlocks mergedCursor)) 0 f in
    Some
      (let? f := r in
       let indexBlockCount := wrapping_add 32 (mf_indexBlockCount f) (Z.of_nat usedIndexBlocks) in
       Ok (ResetWrite mergedCursor indexBlockCount,
           {| mf_headFile := mf_headFile f; mf_leafFile := mf_leafFile f;
              mf_indexFile := mf_indexFile f ++ concat (take usedIndexBlocks (wv_IndexBlocks mergedCursor));
              mf_headEntryCount := wrapping_add 64 (mf_headEntryCount f) (Z.of_nat usedLeafBlocks);
              mf_totalTerms := mf_totalTerms f; mf_indexBlockCount := indexBlockCount |})).

(** * The loop over the terms *)

Record MergeState := {
  baseCursor : ReadView;
  deltaCursor : ReadView;
  mergedCursor : WriteView;
  merge_files : MergeFiles;
}.

(** [CanAddLeafTermEntry && add && AddLeafTermEntry], with [added] what the second gives. *)
Definition try_entry (v : WriteView) (cursor : ReadView) (added : option WriteView) : WriteView * bool :=
  if CanAddLeafTermEntry v cursor then
    match added with
    | Some w => AddLeafTermEntry w cursor
    | None => (v, false)
    end
  else (v, false).

(** The branch in which nothing could be added: the batch is dumped, and an empty batch is an error. *)
Definition dump_full (st : MergeState) : option (result MergeState) :=
  let before := (mf_headEntryCount (merge_files st), mf_indexBlockCount (merge_files st)) in
  opt r := DumpBatch (mergedCursor st) (merge_files st) in
  Some
    (let? r := r in
     let after := (mf_headEntryCount r.2, mf_indexBlockCount r.2) in
     if (before.1 =? after.1)%Z && (before.2 =? after.2)%Z then Err InvalidFormat
     else Ok {| baseCursor := baseCursor st; deltaCursor := deltaCursor st; mergedCursor := r.1; merge_files := r.2 |}).

Section loop.
Context (baseTable deltaTable : BlockSource).
Implicit Types st : MergeState.

Definition is_current (v : ReadView) : bool := match Current v with Some _ => true | None => false end.

(** One turn of [while baseCursor.Current().is_some() || deltaCursor.Current().is_some()]. *)
Definition merge_step st : option (result MergeState) :=
  let base := baseCursor st in
  let delta := deltaCursor st in
  let takeBase := is_current base && (negb (is_current delta) || negb (LessThan delta base)) in
  let takeDelta := is_current delta && (negb (is_current base) || negb (LessThan base delta)) in
  let v := mergedCursor st in
  if negb takeBase && negb takeDelta then Some (Err InvalidFormat)
  else
    let tried :=
      if takeBase && takeDelta then try_entry v base (AddIndexPair baseTable deltaTable v base delta)
      else if takeBase then try_entry v base (AddIndex baseTable v base)
      else try_entry v delta (AddIndex deltaTable v delta) in
    if tried.2 then
      Some (Ok {| baseCursor := if takeBase then @Advance baseTable base else base;
                  deltaCursor := if takeDelta then @Advance deltaTable delta else delta;
                  mergedCursor := tried.1; merge_files := merge_files st |})
    else
      dump_full {| baseCursor := base; deltaCursor := delta; mergedCursor := tried.1; merge_files := merge_files st |}.

(** [None]: out of fuel, or a panic. *)
Fixpoint merge_loop (fuel : nat) st : option (result MergeState) :=
  match fuel with
  | O => None
  | S fuel' =>
      if is_current (baseCursor st) || is_current (deltaCursor st) then
        opt r := merge_step st in
        match r with
        | Ok st' => merge_loop fuel' st'
        | Err e => Some (Err e)
        end
      else Some (Ok st)
  end.
End loop.

Definition MERGED_LEAF_BLOCK_LIMIT : nat := 32 * 1024.
Definition MERGED_INDEX_BLOCK_LIMIT : nat := 32 * 1024.

(** Two turns for each entry that the leaf pages can hold are enough. *)
Definition merge_fuel (baseTable deltaTable : IndexBlockTable) : nat :=
  2 * (LEAF_TERM_DIRECTORY_COUNT * Z.to_nat (LeafTermBlockCount baseTable + LeafTermBlockCount deltaTable)) + 2.

Definition merge_terms_of (baseTable deltaTable : IndexBlockTable) : option (result MergeFiles) :=
  opt r := merge_loop (sequential_blocks baseTable) (sequential_blocks deltaTable) (merge_fuel baseTable deltaTable)
    {| baseCursor := @view_new (sequential_blocks baseTable) (LeafTermBlockCount baseTable);
       deltaCursor := @view_new (sequential_blocks deltaTable) (LeafTermBlockCount deltaTable);
       mergedCursor := new_write MERGED_LEAF_BLOCK_LIMIT MERGED_INDEX_BLOCK_LIMIT; merge_files := no_files |} in
  match r with
  | Ok st => opt r := DumpBatch (mergedCursor st) (merge_files st) in Some (let? r := r in Ok r.2)
  | Err e => Some (Err e)
  end.

(** * Merge *)

(** The leaf pages written are parsed again. *)
Definition merged_leaves_ok (f : MergeFiles) : bool :=
  if (0 <? mf_headEntryCount f)%Z then
    (Z.of_nat (length (mf_leafFile f)) =? mf_headEntryCount f * Z.of_nat PAGE_SIZE)%Z
    && forallb (fun index => bool_decide (is_Some (leaf_from_bytes (slice (index * PAGE_SIZE) PAGE_SIZE (mf_leafFile f)))))
         (seq 0 (Z.to_nat (mf_headEntryCount f)))
  else true.

(** The average length, weighted by the documents. *)
Definition merged_avg (base delta : IndexFileHeader) (baseDocCount deltaDocCount : Z) : f32 :=
  let mergedDocs := (baseDocCount + deltaDocCount)%Z in
  if (mergedDocs =? 0)%Z then f_of_Z F32 1
  else
    let weight (h : IndexFileHeader) (count : Z) := f_mul F64 (f_cast F64 (f32_from_bits (IFH_AvgDocLength h))) (f_of_Z F64 count) in
    f_div F32 (f_cast F32 (f_add F64 (weight base baseDocCount) (weight delta deltaDocCount))) (f_of_Z F32 mergedDocs).

Definition merged_header (avgDocLength : f32) (mergedDocs : Z) (f : MergeFiles) (docDataLength : Z) : IndexFileHeader :=
  let page := Z.of_nat PAGE_SIZE in
  let headOffset := Z.of_nat (INDEX_FILE_HEADER_SIZE + PATH_PREFIX_SIDECAR_BYTES) in
  let leafOffset := (headOffset + mf_headEntryCount f * 32)%Z in
  let docDataOffset := (leafOffset + mf_headEntryCount f * page)%Z in
  let indexOffset := (docDataOffset + docDataLength)%Z in
  let mphfHeaderOffset := (indexOffset + mf_indexBlockCount f * page)%Z in
  {| IFH_Magic := INDEX_FILE_MAGIC; IFH_Version := INDEX_FORMAT_VERSION; IFH_AvgDocLength := wrap 32 (f32_to_bits avgDocLength);
     IFH_NumDocuments := mergedDocs; IFH_NumTerms := mf_totalTerms f;
     IFH_HeadTermEntryOffset := headOffset; IFH_HeadTermEntryCount := mf_headEntryCount f;
     IFH_LeafTermBlockOffset := leafOffset; IFH_LeafTermBlockCount := mf_headEntryCount f;
     IFH_DocDataOffset := docDataOffset; IFH_IndexBlockOffset := indexOffset; IFH_IndexBlockCount := mf_indexBlockCount f;
     IFH_TermMphfHeaderOffset := mphfHeaderOffset; IFH_TermMphfHeaderCount := 0;
     IFH_TermMphfDisplacementOffset := mphfHeaderOffset; IFH_TermMphfDisplacementCount := 0;
     IFH_TermMphfEntryOffset := mphfHeaderOffset; IFH_TermMphfEntryPageCount := 0 |}.

(** The documents of both indexes, and the prefix table of their paths. *)
Definition merged_docs (self delta : LoadedIndex) (deltaDocCount : Z) : result (bytes * PathPrefixes) :=
  let? acc := AppendMergedDocData [] (m_DocData self) (m_IndexFileHeader self) (m_PathPrefixes self) no_prefixes in
  if (0 <? deltaDocCount)%Z
  then AppendMergedDocData acc.1 (m_DocData delta) (m_IndexFileHeader delta) (m_PathPrefixes delta) acc.2
  else Ok acc.

(** The content of the file at [output_path]; the perfect hash is not written. [built] flags are
    [m_Built]; the temporary files, their removal and the renaming are the operating system's. *)
Definition Merge (self_built : bool) (self : LoadedIndex) (m_DeltaContext : option (bool * LoadedIndex)) : option (result bytes) :=
  if negb self_built || (length (m_DocData self) =? 0) then Some (Err IndexNotBuilt)
  else
    match m_DeltaContext with
    | None => Some (Err IndexNotBuilt)
    | Some (delta_built, delta) =>
        if negb delta_built || (length (m_DocData delta) =? 0) then Some (Err IndexNotBuilt)
        else
          let baseDocCount := IFH_NumDocuments (m_IndexFileHeader self) in
          let deltaFirstDocId := DocDataFirstDocId (m_DocData delta) (m_IndexFileHeader delta) in
          let deltaDocCount := IFH_NumDocuments (m_IndexFileHeader delta) in
          if (0 <? deltaDocCount)%Z && negb (deltaFirstDocId =? baseDocCount)%Z then Some (Err InvalidFormat)
          else
            let mergedDocs := (baseDocCount + deltaDocCount)%Z in
            match merged_docs self delta deltaDocCount with
            | Err e => Some (Err e)
            | Ok (mergedDocData, t) =>
                opt mergedPathPrefixSidecar := EncodePathPrefixSidecar (prefixes t) in
                opt r := merge_terms_of (m_BlockTable self) (m_BlockTable delta) in
                match r with
                | Err e => Some (Err e)
                | Ok f =>
                    let avgDocLength := merged_avg (m_IndexFileHeader self) (m_IndexFileHeader delta) baseDocCount deltaDocCount in
                    if merged_leaves_ok f then
                      let header := merged_header avgDocLength mergedDocs f (Z.of_nat (length mergedDocData)) in
                      Some (Ok (header_to_bytes header ++ mergedPathPrefixSidecar ++ mf_headFile f ++ mf_leafFile f
                                ++ mergedDocData ++ mf_indexFile f))
                    else Some (Err InvalidFormat)
                end
            end
    end.

(** * What has been dumped *)

Record files_inv (f : MergeFiles) (leaves : list LeafTermBlock) (groups : list (list LeafTermEntry)) (out0 : list bytes) : Prop := {
  fi_heads : exists hs, mf_headFile f = concat (map head_to_bytes hs) /\ map Some hs = heads_of groups;
  fi_leaves : mf_leafFile f = concat (map leaf_to_bytes leaves) /\ Forall2 leaf_block_of leaves groups;
  fi_index : mf_indexFile f = concat out0 /\ Forall (fun p => length p = PAGE_SIZE) out0;
  fi_head_count : mf_headEntryCount f = wrap 64 (Z.of_nat (length groups));
  fi_terms : mf_totalTerms f = wrap 64 (Z.of_nat (length (concat groups)));
  fi_index_count : mf_indexBlockCount f = wrap 32 (Z.of_nat (length out0));
}.

Lemma no_files_inv : files_inv no_files [] [] [].
Proof. split; try done; by exists []. Qed.

Section dumping.
Implicit Types v : WriteView.
Implicit Types f : MergeFiles.
Implicit Types groups : list (list LeafTermEntry).

Lemma dump_leaves_ok leaves gs : Forall2 leaf_block_of leaves gs -> forall groups hs f j n0,
  length groups = n0 + j -> map Some hs = heads_of groups -> mf_headFile f = concat (map head_to_bytes hs) ->
  mf_headEntryCount f = wrap 64 (Z.of_nat n0) -> mf_totalTerms f = wrap 64 (Z.of_nat (length (concat groups))) ->
  exists f' hs', dump_leaves leaves j f = Some (Ok f') /\
    mf_headFile f' = concat (map head_to_bytes hs') /\ map Some hs' = heads_of (groups ++ gs) /\
    mf_leafFile f' = mf_leafFile f ++ concat (map leaf_to_bytes leaves) /\ mf_indexFile f' = mf_indexFile f /\
    mf_headEntryCount f' = mf_headEntryCount f /\ mf_indexBlockCount f' = mf_indexBlockCount f /\
    mf_totalTerms f' = wrap 64 (Z.of_nat (length (concat (groups ++ gs)))).
Proof.
  induction 1 as [|leaf g leaves gs Hg _ IH]; intros groups hs f j n0 Hn Hhs Hf Hc Ht; cbn [dump_leaves].
  { exists f, hs. rewrite !app_nil_r. done. }
  destruct Hg as ((Hwf & _) & Hne & Hes & Hcount & Hentry). destruct g as [|e g]; [done|].
  rewrite (Hentry 0) by (cbn; lia). cbn [lookup list_lookup].
  assert (Hterm : length (LTE_Term e) <= HEAD_TERM_KEY_MAX) by (inversion Hes as [|? ? [_ He] _]; exact He).
  assert (Hid : wrapping_add 32 (wrap 32 (mf_headEntryCount f)) (Z.of_nat j) = wrap 32 (Z.of_nat (length groups))).
  { rewrite Hc, Hn. unfold wrapping_add, wrap. change (2 ^ 64)%Z with (2 ^ 32 * 2 ^ 32)%Z. rewrite Z.rem_mul_r by lia.
    rewrite (Z.mul_comm (2 ^ 32)), Z.mod_add, Z.mod_mod, Zplus_mod_idemp_l by lia. f_equal. lia. }
  destruct (head_new_Some (LTE_Term e) (wrap 32 (Z.of_nat (length groups))) Hterm) as [h Hh]. rewrite Hid, Hh. cbn [option_bind].
  set (f1 := {| mf_headFile := _; mf_leafFile := _; mf_indexFile := _; mf_headEntryCount := _; mf_totalTerms := _; mf_indexBlockCount := _ |}).
  destruct (IH (groups ++ [e :: g]) (hs ++ [h]) f1 (S j) n0) as (f' & hs' & Hd & H1 & H2 & H3 & H4 & H5 & H6 & H7).
  - rewrite length_app. cbn. lia.
  - rewrite map_app, Hhs. unfold heads_of. rewrite imap_app. cbn. by rewrite Nat.add_0_r, Hh.
  - unfold f1. cbn [mf_headFile]. rewrite Hf, map_app, concat_app. cbn [map concat]. by rewrite app_nil_r.
  - exact Hc.
  - cbn. rewrite Ht, Hcount, concat_app, length_app. unfold wrapping_add, wrap. rewrite Zplus_mod_idemp_l. f_equal.
    assert (Hmax : length (e :: g) <= LEAF_TERM_DIRECTORY_COUNT - 1) by (rewrite <- Hcount; unfold entry_count; lia).
    cbn [concat]. rewrite app_nil_r. rewrite Nat.min_l by done. lia.
  - exists f', hs'. split; [exact Hd|]. rewrite <- app_assoc in H2, H7. do 2 (split; [done|]).
    split; [rewrite H3; cbn; by rewrite <- app_assoc|]. done.
Qed.

Lemma wrap_moves w n k : (0 < w)%Z -> (0 < Z.of_nat k < 2 ^ w)%Z -> wrap w (Z.of_nat (n + k)) <> wrap w (Z.of_nat n).
Proof.
  intros Hw Hk Heq. unfold wrap in Heq. set (b := (2 ^ w)%Z) in *.
  pose proof (Z.div_mod (Z.of_nat (n + k)) b ltac:(lia)) as H1. pose proof (Z.div_mod (Z.of_nat n) b ltac:(lia)) as H2.
  rewrite Heq in H1. generalize dependent (Z.of_nat n `div` b)%Z. generalize dependent (Z.of_nat (n + k) `div` b)%Z. intros q1 H1 q2 H2.
  assert (Hd : Z.of_nat k = (b * (q1 - q2))%Z) by lia. destruct (Z.le_gt_cases (q1 - q2) 0); nia.
Qed.

(** An empty batch after [out0]. *)
Definition batch_fresh (out0 : list bytes) v : Prop :=
  exists page, batch_out out0 v (wv_IndexBlockCount v - 1) (concat out0) /\
    leaves_inv v [] page (wv_LeafTermBlockCount v - 1) [] [].

Lemma view_fresh_inv out0 leaves pages :
  0 < leaves -> 0 < pages -> Forall (fun p => length p = PAGE_SIZE) out0 ->
  batch_fresh out0 (view_fresh leaves pages (wrap 32 (Z.of_nat (length out0)))).
Proof.
  intros Hl Hp Hout. exists leaf_default. cbn [view_fresh wv_IndexBlockCount wv_LeafTermBlockCount]. split.
  - exists [], (zeros PAGE_SIZE). split.
    + split; cbn [view_fresh wv_IndexBlocks wv_IndexBlockID wv_IndexOffsetInBlock wv_IndexBlockBase wv_IndexBlockCount wv_HasIndexWrite]; try done.
      * destruct pages; [lia|]. cbn. by rewrite Nat.sub_0_r.
      * split_and!; cbn; [by rewrite app_nil_r|apply length_replicate|lia|done].
      * cbn. lia.
    + unfold page_out. cbn. by rewrite !app_nil_r.
  - split; cbn [view_fresh wv_LeafBlocks wv_LeafBlockID wv_LeafTermBlockCount length]; [|done|constructor| |done|lia].
    + destruct leaves; [lia|]. cbn. by rewrite Nat.sub_0_r.
    + apply empty_filling; [done|done|apply leaf_default_wf].
Qed.

(** The leaf pages of a batch that are in use. *)
Lemma used_leaves v blocks page k groups cur :
  leaves_inv v blocks page k groups cur ->
  exists used, take (UsedLeafBlockCount v) (wv_LeafBlocks v) = used /\ length used = UsedLeafBlockCount v /\
    Forall2 leaf_block_of used (groups ++ if decide (cur = []) then [] else [cur]).
Proof.
  intros [H1 H2 H3 H4 H5 H6]. pose proof (proj1 (proj2 H4)) as Hcnt. cbn in Hcnt. unfold UsedLeafBlockCount. rewrite Hcnt, H1, H2.
  destruct (decide (cur = [])) as [->|Hne].
  - exists blocks. cbn. rewrite take_app_length, app_nil_r. done.
  - replace (0 <? length cur) with true by (symmetry; apply Nat.ltb_lt; destruct cur; [done|cbn; lia]).
    exists (blocks ++ [page]). split; [|split; [len_lia|]].
    + change (page :: ?l) with ([page] ++ l). rewrite app_assoc. replace (length blocks + 1) with (length (blocks ++ [page])) by len_lia. apply take_app_length.
    + apply Forall2_app; [done|]. constructor; [by apply H5|constructor].
Qed.

Lemma used_pages out0 v m out :
  batch_out out0 v m out -> Forall (fun p => length p = PAGE_SIZE) out0 ->
  exists used, take (UsedIndexBlockCount v) (wv_IndexBlocks v) = used /\ length used = UsedIndexBlockCount v /\
    Forall (fun p => length p = PAGE_SIZE) (out0 ++ used) /\ out `prefix_of` concat (out0 ++ used) /\
    (UsedIndexBlockCount v = 0 -> out = concat out0 /\ m = wv_IndexBlockCount v - 1).
Proof.
  intros (full & page & [H1 H2 H3 H4 H5 H6] & ->) Hout0. unfold UsedIndexBlockCount. destruct H3 as (Hb & Hp & Ho & _). cbn in Hb, Hp, Ho.
  destruct (wv_HasIndexWrite v) eqn:E.
  - exists (full ++ [page]). rewrite H1, H2. split.
    { change (page :: ?l) with ([page] ++ l). rewrite app_assoc. replace (length full + 1) with (length (full ++ [page])) by len_lia. apply take_app_length. }
    split; [len_lia|]. split; [rewrite app_assoc; apply Forall_app; by split; [|constructor]|]. split; [|lia].
    rewrite app_assoc, (concat_app (out0 ++ full)). unfold page_out. cbn. apply prefix_app. rewrite app_nil_r. apply prefix_take.
  - destruct (H6 eq_refl) as [-> Hoff]. exists []. rewrite app_nil_r in Hb. split; [done|]. split; [done|]. rewrite app_nil_r. split; [done|].
    assert (Heq : page_out (pages_at out0 [] page (wv_IndexOffsetInBlock v)) = concat out0).
    { unfold page_out. cbn. by rewrite Hoff, take_0, !app_nil_r. }
    rewrite Heq. split; [done|]. intros _. split; [done|]. cbn in H5. lia.
Qed.

Lemma DumpBatch_ok v f leaves0 groups0 out0 m out blocks page k groups cur :
  files_inv f leaves0 groups0 out0 -> batch_out out0 v m out -> leaves_inv v blocks page k groups cur ->
  (Z.of_nat (wv_LeafTermBlockCount v) < 2 ^ 32)%Z -> (Z.of_nat (wv_IndexBlockCount v) < 2 ^ 32)%Z ->
  exists v' f' leaves1 groups1 out1, DumpBatch v f = Some (Ok (v', f')) /\ files_inv f' leaves1 groups1 out1 /\
    concat groups1 = concat groups0 ++ concat groups ++ cur /\ out `prefix_of` concat out1 /\ batch_fresh out1 v' /\
    wv_LeafTermBlockCount v' = wv_LeafTermBlockCount v /\ wv_IndexBlockCount v' = wv_IndexBlockCount v /\
    (groups <> [] \/ wv_HasIndexWrite v = true ->
       mf_headEntryCount f' <> mf_headEntryCount f \/ mf_indexBlockCount f' <> mf_indexBlockCount f).
Proof.
  intros [Fh Fl Fi Fc Ft Fn] Hout Hleaves Hsl Hsi. destruct Fh as (hs & Fh & Fhs), Fl as [Fl Flg], Fi as [Fi Fip].
  destruct (used_leaves _ _ _ _ _ _ Hleaves) as (ul & Hul & Hlul & Hfl). destruct (used_pages _ _ _ _ Hout Fip) as (up & Hup & Hlup & Hfp & Hpre & Hnone).
  pose proof Hleaves as [L1 L2 L3 L4 L5 L6]. pose proof (Forall2_length _ _ _ L3) as Lg.
  assert (Hcnt : UsedLeafBlockCount v = length (groups ++ if decide (cur = []) then [] else [cur])) by (rewrite <- Hlul; eapply Forall2_length; exact Hfl).
  assert (Hmax : UsedLeafBlockCount v <= wv_LeafTermBlockCount v) by (unfold UsedLeafBlockCount; case_test; lia).
  assert (Hmaxi : UsedIndexBlockCount v <= wv_IndexBlockCount v).
  { destruct Hout as (full & pg & [_ I2 _ _ I5 _] & _). unfold UsedIndexBlockCount. destruct (wv_HasIndexWrite v); lia. }
  unfold DumpBatch. destruct ((UsedLeafBlockCount v =? 0) && (UsedIndexBlockCount v =? 0)) eqn:E.
  - apply andb_true_iff in E as [E1%Nat.eqb_eq E2%Nat.eqb_eq]. destruct (Hnone E2) as [-> ->].
    rewrite E1 in Hcnt. symmetry in Hcnt. apply nil_length_inv, app_nil in Hcnt as [-> Hcur]. destruct (decide (cur = [])) as [->|]; [|done].
    cbn in Lg. apply nil_length_inv in Lg. subst blocks.
    exists v, f, leaves0, groups0, out0. split; [done|]. split; [split; try done; by exists hs|]. cbn [concat]. rewrite !app_nil_r.
    split; [done|]. split; [done|]. split.
    { exists page. split; [done|]. cbn in L6. by replace (wv_LeafTermBlockCount v - 1) with k by lia. }
    split; [done|]. split; [done|]. intros [?|Hw]; [done|]. unfold UsedIndexBlockCount in E2. rewrite Hw in E2. lia.
  - rewrite Hul. destruct (dump_leaves_ok ul _ Hfl groups0 hs f 0 (length groups0)) as (f1 & hs1 & -> & D1 & D2 & D3 & D4 & D5 & D6 & D7);
      [lia|done|done|done|done|]. cbn [option_bind result_bind].
    eexists _, _, (leaves0 ++ ul), _, (out0 ++ up). split; [reflexivity|].
    rewrite Hup. split.
    { split; cbn [mf_headFile mf_leafFile mf_indexFile mf_headEntryCount mf_totalTerms mf_indexBlockCount].
      - exists hs1. split; [exact D1|exact D2].
      - split; [by rewrite D3, Fl, map_app, concat_app|by apply Forall2_app].
      - split; [by rewrite D4, Fi, concat_app|done].
      - rewrite D5, Fc, Hcnt. unfold wrapping_add, wrap. by rewrite Zplus_mod_idemp_l, <- Nat2Z.inj_add, <- length_app.
      - exact D7.
      - rewrite D6, Fn, <- Hlup. unfold wrapping_add, wrap. by rewrite Zplus_mod_idemp_l, <- Nat2Z.inj_add, <- length_app. }
    split; [rewrite !concat_app; do 2 f_equal; destruct (decide (cur = [])) as [->|]; cbn; by rewrite ?app_nil_r|]. split; [done|].
    split.
    { rewrite D6, Fn, <- Hlup. unfold ResetWrite. replace (wrapping_add 32 _ _) with (wrap 32 (Z.of_nat (length (out0 ++ up)))).
      2:{ unfold wrapping_add, wrap. by rewrite Zplus_mod_idemp_l, <- Nat2Z.inj_add, <- length_app. }
      apply view_fresh_inv; [lia| |done]. destruct Hout as (full & pg & [_ _ _ _ I5 _] & _). lia. }
    split; [done|]. split; [done|]. intros Hne. cbn [mf_headEntryCount mf_indexBlockCount]. rewrite D5, D6, Fc, Fn.
    unfold wrapping_add. rewrite <- (wrap_small 64 (Z.of_nat (UsedLeafBlockCount v))) by (unfold in_u; lia).
    destruct Hne as [Hne|Hw]; [left|right].
    + assert (0 < UsedLeafBlockCount v) by (rewrite Hcnt, length_app; destruct groups; [done|cbn; lia]).
      rewrite (wrap_small 64 (Z.of_nat (UsedLeafBlockCount v))) by (unfold in_u; lia).
      unfold wrap at 1. unfold wrap at 1. rewrite Zplus_mod_idemp_l, <- Nat2Z.inj_add. apply wrap_moves; lia.
    + assert (0 < UsedIndexBlockCount v) by (unfold UsedIndexBlockCount; rewrite Hw; lia).
      unfold wrap at 1. unfold wrap at 1. rewrite Zplus_mod_idemp_l, <- Nat2Z.inj_add. apply wrap_moves; lia.
Qed.
End dumping.

(** * The terms of two indexes, merged *)

Definition term_list : Type := list (str * PostingList).

Fixpoint merge_term_lists (ts us : term_list) : term_list :=
  match ts with
  | [] => us
  | t :: ts' =>
      (fix merge_with (us : term_list) : term_list :=
         match us with
         | [] => t :: ts'
         | u :: us' =>
             if str_ltb t.1 u.1 then t :: merge_term_lists ts' us
             else if str_ltb u.1 t.1 then u :: merge_with us'
             else (t.1, join_lists t.2 u.2) :: merge_term_lists ts' us'
         end) us
  end.

Lemma merge_term_lists_nil ts : merge_term_lists ts [] = ts.
Proof. by destruct ts. Qed.

Lemma merge_term_lists_cons t ts u us :
  merge_term_lists (t :: ts) (u :: us) =
    if str_ltb t.1 u.1 then t :: merge_term_lists ts (u :: us)
    else if str_ltb u.1 t.1 then u :: merge_term_lists (t :: ts) us
    else (t.1, join_lists t.2 u.2) :: merge_term_lists ts us.
Proof. done. Qed.

(** * The loop *)

Lemma LEAF_LIMIT_Z : Z.of_nat MERGED_LEAF_BLOCK_LIMIT = 32768%Z.
Proof. by vm_compute. Qed.

Lemma INDEX_LIMIT_Z : Z.of_nat MERGED_INDEX_BLOCK_LIMIT = 32768%Z.
Proof. by vm_compute. Qed.

#[local] Opaque MERGED_LEAF_BLOCK_LIMIT MERGED_INDEX_BLOCK_LIMIT.

Section entries.
Context `{Libm}.
Implicit Types v : WriteView.

(** What has been merged: [done], in the files and in the batch, which has [m] posting pages and [k]
    leaf pages left. *)
Definition written (v : WriteView) (f : MergeFiles) (m k : nat) (done : term_list) : Prop :=
  exists leaves0 groups0 out0 out blocks page groups cur,
    files_inv f leaves0 groups0 out0 /\ batch_out out0 v m out /\ leaves_inv v blocks page k groups cur /\
    Forall2 (stored out) done (concat groups0 ++ concat groups ++ cur) /\
    wv_LeafTermBlockCount v = MERGED_LEAF_BLOCK_LIMIT /\ wv_IndexBlockCount v = MERGED_INDEX_BLOCK_LIMIT.

Lemma fresh_written v f leaves0 groups0 out0 out done :
  files_inv f leaves0 groups0 out0 -> batch_fresh out0 v -> out `prefix_of` concat out0 -> Forall2 (stored out) done (concat groups0) ->
  wv_LeafTermBlockCount v = MERGED_LEAF_BLOCK_LIMIT -> wv_IndexBlockCount v = MERGED_INDEX_BLOCK_LIMIT ->
  written v f (MERGED_INDEX_BLOCK_LIMIT - 1) (MERGED_LEAF_BLOCK_LIMIT - 1) done.
Proof.
  intros Hf (page & Hout & Hl) Hpre Hst Hn1 Hn2. rewrite Hn1 in Hl. rewrite Hn2 in Hout.
  exists leaves0, groups0, out0, (concat out0), [], page, [], []. do 3 (split; [done|]). cbn [concat app]. rewrite app_nil_r.
  split; [|done]. by eapply stored_mono.
Qed.

(** Nothing written yet. *)
Lemma new_written : written (new_write MERGED_LEAF_BLOCK_LIMIT MERGED_INDEX_BLOCK_LIMIT) no_files
  (MERGED_INDEX_BLOCK_LIMIT - 1) (MERGED_LEAF_BLOCK_LIMIT - 1) [].
Proof.
  pose proof LEAF_LIMIT_Z. pose proof INDEX_LIMIT_Z.
  eapply fresh_written; [apply no_files_inv|apply (view_fresh_inv [] _ _); [lia|lia|constructor]|done|constructor|done|done].
Qed.

Lemma stored_builder_entry out t e :
  is_utf8 t.1 = true -> length t.1 <= HEAD_TERM_KEY_MAX -> stored out t e -> builder_entry e.
Proof.
  intros Hu Hl (p & ps & pss & -> & _ & i & _ & Hid & _). apply leaf_entry_of_wf; [done|done|]. rewrite Hid. by apply wrap_range.
Qed.

Lemma CanAddLeafTermEntry_same v w cursor : same_leaves v w -> CanAddLeafTermEntry w cursor = CanAddLeafTermEntry v cursor.
Proof. intros (_ & S2 & S3 & S4 & S5). unfold CanAddLeafTermEntry, view_leaf_full. by rewrite S2, S3, S4, S5. Qed.

(** One entry: it is added, or the batch is short of pages and has not changed. *)
Lemma try_entry_ok v f m k done cursor key pl e added :
  written v f m k done -> Current cursor = Some e -> is_utf8 key = true -> length key <= HEAD_TERM_KEY_MAX ->
  (forall out0 out, batch_out out0 v m out -> entry_added out0 v m out key pl e added) ->
  let '(v', ok) := try_entry v cursor added in
  if ok then exists m' k', written v' f m' k' (done ++ [(key, pl)])
  else v' = v /\ (m < 2100 \/ k = 0).
Proof.
  intros (leaves0 & groups0 & out0 & out & blocks & page & groups & cur & Hf & Hout & Hl & Hst & Hn1 & Hn2) Hcur Hu Hlen Hadd.
  specialize (Hadd out0 out Hout). unfold try_entry. destruct added as [w|]; cbn [entry_added] in Hadd.
  - destruct Hadd as (m' & out2 & Hout2 & Hpre & Hs & Hw & Hst2). rewrite <- (CanAddLeafTermEntry_same v w) by done.
    pose proof (leaves_same _ _ _ _ _ _ _ Hs Hl) as Hl2.
    pose proof (AddLeafTermEntry_ok w blocks page k groups cur cursor e Hl2 Hcur (stored_builder_entry _ (key, pl) _ Hu Hlen Hst2)) as Hadd.
    destruct (CanAddLeafTermEntry w cursor); [|split; [done|by right]].
    destruct Hadd as (v' & blocks' & page' & k' & groups' & cur' & -> & Hl' & Hsi & Hlc & Hcat). exists m', k'.
    exists leaves0, groups0, out0, out2, blocks', page', groups', cur'. split; [done|].
    split; [by eapply batch_out_same|]. split; [done|]. rewrite Hcat, !app_assoc. split.
    + apply Forall2_app; [|by constructor]. rewrite <- app_assoc. by eapply stored_mono.
    + destruct Hsi as (_ & _ & _ & _ & Hi & _), Hs as (_ & _ & _ & _ & Hk). split; congruence.
  - destruct (CanAddLeafTermEntry v cursor); split; try done; by left.
Qed.
End entries.

Section turns.
Context `{Libm}.
Implicit Types st : MergeState.

(** A batch that is short of pages is dumped. *)
Lemma dump_full_ok st m k done :
  written (mergedCursor st) (merge_files st) m k done -> m < 2100 \/ k = 0 ->
  exists st', dump_full st = Some (Ok st') /\ baseCursor st' = baseCursor st /\ deltaCursor st' = deltaCursor st /\
    written (mergedCursor st') (merge_files st') (MERGED_INDEX_BLOCK_LIMIT - 1) (MERGED_LEAF_BLOCK_LIMIT - 1) done.
Proof.
  intros (leaves0 & groups0 & out0 & out & blocks & page & groups & cur & Hf & Hout & Hl & Hst & Hn1 & Hn2) Hshort.
  pose proof LEAF_LIMIT_Z as HL. pose proof INDEX_LIMIT_Z as HI.
  destruct (DumpBatch_ok _ _ _ _ _ _ _ _ _ _ _ _ Hf Hout Hl) as (v' & f' & leaves1 & groups1 & out1 & Hd & Hf' & Hcat & Hpre & Hfresh & Hn1' & Hn2' & Hmove);
    [lia|lia|].
  assert (Hused : groups <> [] \/ wv_HasIndexWrite (mergedCursor st) = true).
  { destruct Hshort as [Hm|Hk].
    - right. destruct Hout as (full & pg & [_ _ _ _ I5 I6] & _). destruct (wv_HasIndexWrite _); [done|].
      destruct (I6 eq_refl) as [-> _]. cbn in I5. lia.
    - left. intros ->. destruct Hl as [_ _ L3 _ _ L6]. apply Forall2_nil_inv_r in L3. subst. cbn in L6. lia. }
  unfold dump_full. rewrite Hd. cbn [option_bind result_bind fst snd].
  replace ((_ =? _)%Z && (_ =? _)%Z) with false.
  2:{ symmetry. destruct (Hmove Hused) as [Hne|Hne]; [rewrite (proj2 (Z.eqb_neq _ _)) by congruence; done|].
      rewrite (proj2 (Z.eqb_neq (mf_indexBlockCount (merge_files st)) _)) by congruence. apply andb_false_r. }
  eexists. split; [reflexivity|]. split; [done|]. split; [done|]. cbn [mergedCursor merge_files].
  eapply fresh_written; [exact Hf'|exact Hfresh|exact Hpre| |congruence|congruence]. by rewrite Hcat.
Qed.

(** What a cursor has left to merge. *)
Definition left_in (source : BlockSource) (pages : list bytes) (groups : list (list LeafTermEntry)) (v : ReadView) (ts : term_list) : Prop :=
  exists es, @view_at source groups v es /\ Forall2 (stored (concat pages)) ts es.

Definition term_ok (t : str * PostingList) : Prop := is_utf8 t.1 = true /\ length t.1 <= HEAD_TERM_KEY_MAX /\ mergeable t.2.

(** A table that serves the pages of a built index. *)
Record serves (source : BlockSource) (pages : list bytes) (groups : list (list LeafTermEntry)) : Prop := {
  sv_index : forall i : nat, @GetBlock source Index (Z.of_nat i) = pages !! i;
  sv_pages : Forall (fun p => length p = PAGE_SIZE) pages;
  sv_count : (Z.of_nat (length pages) < 2 ^ 32)%Z;
  sv_leaves : @leaf_pages_hold source groups;
}.

Lemma left_in_cons source pages groups v t ts :
  serves source pages groups -> left_in source pages groups v (t :: ts) ->
  exists e, Current v = Some e /\ stored (concat pages) t e /\ current_term v = t.1 /\ is_current v = true /\
    left_in source pages groups (@Advance source v) ts /\
    (Forall wf_pair (pairs_of t.2) -> (Z.of_nat (length (enc_pairs (pairs_of t.2))) <= POSTING_SCRATCH_BYTES)%Z ->
     @PostingBytes source v = Some (enc_pairs (pairs_of t.2))).
Proof.
  intros [S1 S2 S3 S4] (es & Hv & Hst). inversion Hst as [|? e ? es' Ht Hts]; subst. pose proof (Current_at groups v _ Hv) as Hc.
  exists e. split; [done|]. split; [done|]. split; [unfold current_term; rewrite Hc; by destruct (stored_entry_for _ _ _ Ht) as [[? _] _]|].
  split; [unfold is_current; by rewrite Hc|]. split.
  - exists es'. split; [|done]. by eapply Advance_at.
  - intros Hwf Hsize. eapply PostingBytes_ok; try done. unfold POSTING_SCRATCH_BYTES in Hsize. rewrite PAGE_SIZE_Z in Hsize. lia.
Qed.

Lemma left_in_nil source pages groups v : left_in source pages groups v [] -> Current v = None /\ is_current v = false.
Proof.
  intros (es & Hv & Hst). inversion Hst; subst. pose proof (Current_at groups v _ Hv) as Hc. split; [done|]. unfold is_current. by rewrite Hc.
Qed.

Lemma mergeable_parts a b : mergeable (join_lists a b) ->
  (Forall wf_pair (pairs_of a) /\ (Z.of_nat (length (enc_pairs (pairs_of a))) <= POSTING_SCRATCH_BYTES)%Z) /\
  (Forall wf_pair (pairs_of b) /\ (Z.of_nat (length (enc_pairs (pairs_of b))) <= POSTING_SCRATCH_BYTES)%Z).
Proof.
  intros (Hwf & _ & _ & Hsize). rewrite join_pairs in Hwf, Hsize. apply Forall_app in Hwf as [H1 H2].
  rewrite enc_pairs_app, length_app in Hsize. split; (split; [done|lia]).
Qed.

Context (baseTable deltaTable : BlockSource) (basePages deltaPages : list bytes) (baseGroups deltaGroups : list (list LeafTermEntry)).
Hypothesis Hbase : serves baseTable basePages baseGroups.
Hypothesis Hdelta : serves deltaTable deltaPages deltaGroups.

Definition merging st (m k : nat) (done ts us : term_list) : Prop :=
  written (mergedCursor st) (merge_files st) m k done /\
  left_in baseTable basePages baseGroups (baseCursor st) ts /\ left_in deltaTable deltaPages deltaGroups (deltaCursor st) us.

(** A turn adds the next term, or dumps a batch that is short of pages. *)
Definition turn_result st m k done ts us (r : option (result MergeState)) : Prop :=
  exists st', r = Some (Ok st') /\
    ((exists m' k' t ts' us', merging st' m' k' (done ++ [t]) ts' us' /\ merge_term_lists ts us = t :: merge_term_lists ts' us' /\
        length ts' + length us' < length ts + length us) \/
     ((m < 2100 \/ k = 0) /\ merging st' (MERGED_INDEX_BLOCK_LIMIT - 1) (MERGED_LEAF_BLOCK_LIMIT - 1) done ts us)).

Lemma turn_ok st m k done ts us ts' us' t cursor e added (base delta : ReadView) :
  merging st m k done ts us -> Current cursor = Some e -> term_ok t ->
  (forall out0 out, batch_out out0 (mergedCursor st) m out -> entry_added out0 (mergedCursor st) m out t.1 t.2 e added) ->
  left_in baseTable basePages baseGroups base ts' -> left_in deltaTable deltaPages deltaGroups delta us' ->
  merge_term_lists ts us = t :: merge_term_lists ts' us' -> length ts' + length us' < length ts + length us ->
  turn_result st m k done ts us
    (let tried := try_entry (mergedCursor st) cursor added in
     if tried.2 then Some (Ok {| baseCursor := base; deltaCursor := delta; mergedCursor := tried.1; merge_files := merge_files st |})
     else dump_full {| baseCursor := baseCursor st; deltaCursor := deltaCursor st; mergedCursor := tried.1; merge_files := merge_files st |}).
Proof.
  intros (Hw & Hl1 & Hl2) Hcur (Hu & Hlen & _) Hadd Hb Hd Hmerge Hless. cbv zeta.
  pose proof (try_entry_ok _ _ _ _ _ cursor t.1 t.2 e added Hw Hcur Hu Hlen Hadd) as Htry.
  destruct (try_entry _ _ _) as [v' ok]. cbn [fst snd]. destruct ok.
  - destruct Htry as (m' & k' & Hw'). rewrite <- surjective_pairing in Hw'. eexists. split; [reflexivity|]. left.
    exists m', k', t, ts', us'. by split; [split|].
  - destruct Htry as [-> Hshort].
    destruct (dump_full_ok {| baseCursor := baseCursor st; deltaCursor := deltaCursor st; mergedCursor := mergedCursor st; merge_files := merge_files st |}
      m k done Hw Hshort) as (st' & -> & H1 & H2 & Hw'). exists st'. split; [done|]. right. split; [done|]. split; [done|]. by rewrite H1, H2.
Qed.

Lemma merge_step_ok st m k done ts us :
  merging st m k done ts us -> ts <> [] \/ us <> [] -> Forall term_ok (merge_term_lists ts us) ->
  turn_result st m k done ts us (merge_step baseTable deltaTable st).
Proof.
  intros Hm Hne Hok. pose proof Hm as (Hw & Hl1 & Hl2). unfold merge_step.
  destruct ts as [|t ts], us as [|u us].
  - by destruct Hne.
  - destruct (left_in_nil _ _ _ _ Hl1) as [_ ->]. destruct (left_in_cons _ _ _ _ _ _ Hdelta Hl2) as (e & Hc & Hst & _ & -> & Hl & Hbytes).
    cbn [negb andb orb]. inversion Hok as [|? ? Ht _]; subst. pose proof Ht as (_ & _ & (Hwf & _ & _ & Hsize)).
    apply (turn_ok st m k done _ _ [] us u _ e); try done; [|cbn; lia]. intros out0 out Hout. destruct u as [key pl].
    eapply AddIndex_ok; [exact Hout|apply Ht|exact Hc|exact Hst|by apply Hbytes].
  - destruct (left_in_nil _ _ _ _ Hl2) as [_ ->]. destruct (left_in_cons _ _ _ _ _ _ Hbase Hl1) as (e & Hc & Hst & _ & -> & Hl & Hbytes).
    cbn [negb andb orb]. rewrite merge_term_lists_nil in Hok. inversion Hok as [|? ? Ht _]; subst. pose proof Ht as (_ & _ & (Hwf & _ & _ & Hsize)).
    apply (turn_ok st m k done _ _ ts [] t _ e); try done; [|by rewrite !merge_term_lists_nil|cbn; lia]. intros out0 out Hout. destruct t as [key pl].
    eapply AddIndex_ok; [exact Hout|apply Ht|exact Hc|exact Hst|by apply Hbytes].
  - destruct (left_in_cons _ _ _ _ _ _ Hbase Hl1) as (e & Hc & Hst & Hkey & -> & Hl & Hbytes).
    destruct (left_in_cons _ _ _ _ _ _ Hdelta Hl2) as (e' & Hc' & Hst' & Hkey' & -> & Hl' & Hbytes').
    unfold LessThan. rewrite Hkey, Hkey'. cbn [negb andb orb]. rewrite merge_term_lists_cons in Hok.
    destruct (str_ltb t.1 u.1) eqn:E1, (str_ltb u.1 t.1) eqn:E2; cbn [negb andb orb].
    + exfalso. apply (str_lt_irrefl t.1). by apply (str_lt_trans _ u.1).
    + inversion Hok as [|? ? Ht _]; subst. pose proof Ht as (_ & _ & (Hwf & _ & _ & Hsize)).
      apply (turn_ok st m k done _ _ ts (u :: us) t _ e); try done; [|by rewrite merge_term_lists_cons, E1|cbn; lia].
      intros out0 out Hout. destruct t as [key pl]. eapply AddIndex_ok; [exact Hout|apply Ht|exact Hc|exact Hst|by apply Hbytes].
    + inversion Hok as [|? ? Hu _]; subst. pose proof Hu as (_ & _ & (Hwf & _ & _ & Hsize)).
      apply (turn_ok st m k done _ _ (t :: ts) us u _ e'); try done; [|by rewrite merge_term_lists_cons, E1, E2|cbn; lia].
      intros out0 out Hout. destruct u as [key pl]. eapply AddIndex_ok; [exact Hout|apply Hu|exact Hc'|exact Hst'|by apply Hbytes'].
    + inversion Hok as [|? ? Ht _]; subst. destruct (mergeable_parts _ _ (proj2 (proj2 Ht))) as [[H1 H2] [H3 H4]].
      apply (turn_ok st m k done _ _ ts us (t.1, join_lists t.2 u.2) _ e); try done; [|by rewrite merge_term_lists_cons, E1, E2|cbn; lia].
      assert (Hk : u.1 = t.1).
      { destruct (str_lt_or_eq_or_gt t.1 u.1) as [Hlt|[Heq|Hlt]]; [by unfold str_lt in Hlt; congruence|done|by unfold str_lt in Hlt; congruence]. }
      intros out0 out Hout. destruct t as [key a], u as [key' b]. cbn in Hk. subst key'.
      eapply AddIndexPair_ok; [exact Hout|apply Ht|exact Hc|exact Hst|by apply Hbytes|exact Hc'|exact Hst'|by apply Hbytes'].
Qed.

(** Enough turns merge everything. *)
Lemma merge_loop_ok fuel : forall st m k done ts us,
  merging st m k done ts us -> Forall term_ok (merge_term_lists ts us) ->
  2 * (length ts + length us) + (if (m <? 2100) || (k =? 0) then 1 else 0) < fuel ->
  exists st' m' k', merge_loop baseTable deltaTable fuel st = Some (Ok st') /\
    written (mergedCursor st') (merge_files st') m' k' (done ++ merge_term_lists ts us).
Proof.
  induction fuel as [|fuel IH]; intros st m k done ts us Hm Hok Hf; [lia|]. cbn [merge_loop].
  destruct (decide (ts = [] /\ us = [])) as [[-> ->]|Hne].
  { destruct Hm as (Hw & Hl1 & Hl2). destruct (left_in_nil _ _ _ _ Hl1) as [_ ->], (left_in_nil _ _ _ _ Hl2) as [_ ->].
    exists st, m, k. split; [done|]. cbn. by rewrite app_nil_r. }
  replace (is_current (baseCursor st) || is_current (deltaCursor st)) with true.
  2:{ destruct Hm as (Hw & Hl1 & Hl2). destruct ts as [|t ts]; [destruct us as [|u us]; [by destruct Hne|]|].
      - destruct (left_in_cons _ _ _ _ _ _ Hdelta Hl2) as (e & _ & _ & _ & -> & _). by rewrite orb_true_r.
      - by destruct (left_in_cons _ _ _ _ _ _ Hbase Hl1) as (e & _ & _ & _ & -> & _). }
  assert (Hne' : ts <> [] \/ us <> []) by (destruct ts; [destruct us; [by destruct Hne|by right]|by left]).
  pose proof LEAF_LIMIT_Z as HL. pose proof INDEX_LIMIT_Z as HI.
  destruct (merge_step_ok st m k done ts us Hm Hne' Hok) as (st' & -> & Hturn). cbn [option_bind].
  destruct Hturn as [(m' & k' & t & ts' & us' & Hm' & Heq & Hless)|(Hshort & Hm')].
  - rewrite Heq in Hok |- *. inversion Hok as [|? ? _ Hok']; subst.
    destruct (IH st' m' k' _ ts' us' Hm' Hok') as (st2 & m2 & k2 & -> & Hw);
      [destruct ((m <? 2100) || (k =? 0)), ((m' <? 2100) || (k' =? 0)); lia|].
    exists st2, m2, k2. split; [done|]. by rewrite <- app_assoc in Hw.
  - apply (IH st' _ _ done ts us Hm' Hok).
    replace ((m <? 2100) || (k =? 0)) with true in Hf by (symmetry; apply orb_true_iff; destruct Hshort; [left; by apply Nat.ltb_lt|right; by apply Nat.eqb_eq]).
    replace (_ || _) with false; [lia|]. symmetry. apply orb_false_iff. split; [apply Nat.ltb_ge; lia|apply Nat.eqb_neq; lia].
Qed.
End turns.

(** * Both tables to the end *)

Section tables.
Context `{Libm}.

(** A table whose pages, read one after the other, are those of a built index. *)
Record serves_build (t : IndexBlockTable) (r : BuildBlocksResult) : Prop := {
  sb_blocks : forall kind (i : nat), sequential_blocks t kind (Z.of_nat i) = built_blocks r kind (Z.of_nat i);
  sb_leaves : LeafTermBlockCount t = Z.of_nat (length (BBR_LeafTermBlocks r));
  sb_few_leaves : (Z.of_nat (length (BBR_LeafTermBlocks r)) <= u32_max)%Z;
  sb_few_pages : (Z.of_nat (length (BBR_IndexBlocks r)) <= u32_max)%Z;
}.

Lemma serves_build_serves store t r groups :
  built store r groups -> serves_build t r -> serves (sequential_blocks t) (BBR_IndexBlocks r) groups.
Proof.
  intros Hb [Hs _ _ Hp]. assert (Hget : forall kind (i : nat), @GetBlock (sequential_blocks t) kind (Z.of_nat i) =
    match kind with Index => BBR_IndexBlocks r !! i | LeafTerm => leaf_to_bytes <$> BBR_LeafTermBlocks r !! i end).
  { intros kind i. unfold GetBlock. rewrite Hs. unfold built_blocks. replace (Z.of_nat i <? 0)%Z with false by lia. by rewrite Nat2Z.id. }
  split; [intros i; apply (Hget Index)|apply Hb|unfold u32_max in Hp; lia|]. intros i g Hg.
  destruct (Forall2_lookup_r _ _ _ _ _ (built_leaves _ _ _ Hb) Hg) as (b & Hbi & (Hwf & _) & _ & _ & Hc & He).
  exists (leaf_to_bytes b). rewrite (Hget LeafTerm), Hbi, leaf_view_to by done. done.
Qed.

Lemma groups_small store r groups : built store r groups -> length (concat groups) <= LEAF_TERM_DIRECTORY_COUNT * length groups /\ length groups <= length (concat groups).
Proof.
  intros Hb. pose proof (built_leaves _ _ _ Hb) as Hl. generalize (BBR_LeafTermBlocks r) Hl. clear. intros bs.
  induction 1 as [|b g bs gs (_ & Hne & _ & Hc & _) _ IH]; [done|]. cbn [concat length]. rewrite length_app.
  assert (length g <= LEAF_TERM_DIRECTORY_COUNT - 1) by (rewrite <- Hc; unfold entry_count; lia).
  assert (0 < length g) by (destruct g; [done|cbn; lia]). unfold LEAF_TERM_DIRECTORY_COUNT in *. lia.
Qed.

Lemma length_merge_le ts : forall us, length (merge_term_lists ts us) <= length ts + length us.
Proof.
  induction ts as [|t ts IH]; intros us; [cbn; lia|]. induction us as [|u us IHu]; [cbn; lia|]. rewrite merge_term_lists_cons.
  destruct (str_ltb t.1 u.1); [specialize (IH (u :: us)); cbn in *; lia|]. destruct (str_ltb u.1 t.1); [cbn [length] in *; lia|].
  specialize (IH us). cbn. lia.
Qed.

Lemma merge_terms_of_ok a b ta tb ra rb ga gb :
  built a ra ga -> built b rb gb -> serves_build ta ra -> serves_build tb rb ->
  let merged := merge_term_lists (filter kept (sorted_terms a)) (filter kept (sorted_terms b)) in
  Forall term_ok merged ->
  exists f leaves groups out, merge_terms_of ta tb = Some (Ok f) /\ files_inv f leaves groups out /\
    Forall2 (stored (concat out)) merged (concat groups) /\ (Z.of_nat (length groups) < 2 ^ 42)%Z.
Proof.
  intros Ha Hb Sa Sb merged Hok.
  pose proof (serves_build_serves _ _ _ _ Ha Sa) as Va. pose proof (serves_build_serves _ _ _ _ Hb Sb) as Vb.
  pose proof (Forall2_length _ _ _ (built_leaves _ _ _ Ha)) as La. pose proof (Forall2_length _ _ _ (built_leaves _ _ _ Hb)) as Lb.
  pose proof (Forall2_length _ _ _ (built_stored _ _ _ Ha)) as Ta. pose proof (Forall2_length _ _ _ (built_stored _ _ _ Hb)) as Tb.
  destruct (groups_small _ _ _ Ha) as [Na _], (groups_small _ _ _ Hb) as [Nb _]. unfold merge_terms_of.
  set (st0 := {| baseCursor := _; deltaCursor := _; mergedCursor := _; merge_files := _ |}).
  assert (Hm : merging (sequential_blocks ta) (sequential_blocks tb) (BBR_IndexBlocks ra) (BBR_IndexBlocks rb) ga gb st0
    (MERGED_INDEX_BLOCK_LIMIT - 1) (MERGED_LEAF_BLOCK_LIMIT - 1) [] (filter kept (sorted_terms a)) (filter kept (sorted_terms b))).
  { split; [apply new_written|]. split.
    - exists (concat ga). split; [|apply Ha]. cbn [st0 baseCursor]. rewrite (sb_leaves _ _ Sa), La. apply view_new_at, Va.
    - exists (concat gb). split; [|apply Hb]. cbn [st0 deltaCursor]. rewrite (sb_leaves _ _ Sb), Lb. apply view_new_at, Vb. }
  destruct (merge_loop_ok _ _ _ _ _ _ Va Vb (merge_fuel ta tb) st0 _ _ _ _ _ Hm Hok) as (st & m & k & -> & Hw).
  { unfold merge_fuel. rewrite (sb_leaves _ _ Sa), (sb_leaves _ _ Sb), La, Lb, <- Nat2Z.inj_add, Nat2Z.id.
    rewrite Nat.mul_add_distr_l. case_match; lia. }
  cbn [option_bind app] in *. fold merged in Hw.
  destruct Hw as (leaves0 & groups0 & out0 & out & blocks & page & groups & cur & Hf & Hout & Hl & Hst & Hn1 & Hn2).
  pose proof LEAF_LIMIT_Z as HL. pose proof INDEX_LIMIT_Z as HI.
  destruct (DumpBatch_ok _ _ _ _ _ _ _ _ _ _ _ _ Hf Hout Hl) as (v' & f' & leaves1 & groups1 & out1 & -> & Hf' & Hcat & Hpre & _); [lia|lia|].
  cbn [option_bind result_bind snd]. exists f', leaves1, groups1, out1. split; [done|]. split; [done|]. rewrite Hcat.
  pose proof (stored_mono _ _ _ _ Hpre Hst) as Hst'. split; [exact Hst'|].
  assert (Hng : length groups1 <= length (concat groups1)).
  { pose proof (proj2 (fi_leaves _ _ _ _ Hf')) as Hlf. clear -Hlf. induction Hlf as [|b g bs gs (_ & Hne & _) _ IH]; [done|].
    cbn [concat length]. rewrite length_app. destruct g; [done|cbn; lia]. }
  pose proof (Forall2_length _ _ _ Hst') as Hlen. rewrite <- Hcat in Hlen.
  pose proof (length_merge_le (filter kept (sorted_terms a)) (filter kept (sorted_terms b))) as Hle. fold merged in Hle.
  pose proof (sb_few_leaves _ _ Sa). pose proof (sb_few_leaves _ _ Sb). unfold u32_max, LEAF_TERM_DIRECTORY_COUNT in *. lia.
Qed.
End tables.
