(* ===== verification/MergeStore.v ===== *)
(** The merge of two built indexes (IndexContext.rs: Merge): its file is an index of
    the two stores together. *)

From Stdlib Require Import ZArith Lia ZifyBool Bool List.
From stdpp Require Import base list list_numbers gmap sorting.
From S2P Require Import Prelude Floats PostingCodec PostingStore FileAccess FileFormat BlockCache Mphf TermDictionary PathSidecar DocData IndexReader AdvancedReader IndexBuilder IndexFile MergeView Merge.

Local Open Scope moon_scope.

(** * Two stores as one *)

Section merged_store.
Implicit Types a b : PostingStore.
Implicit Types ts us : term_list.

Definition join_opt (x y : PostingList) : option PostingList := Some (join_lists x y).

(** The postings of both, and the documents of both, with their vectors. *)
Definition merged_store a b : PostingStore :=
  {| m_Postings := union_with join_opt (m_Postings a) (m_Postings b);
     m_DocStats := m_DocStats a ∪ m_DocStats b;
     m_DocVectors := filter (fun p => is_Some (m_DocStats a !! p.1)) (m_DocVectors a) ∪
                     filter (fun p => m_DocStats a !! p.1 = None) (m_DocVectors b);
     m_TotalTerms := wrapping_add 64 (m_TotalTerms a) (m_TotalTerms b);
     m_PostingEntries := m_PostingEntries a + m_PostingEntries b |}.

Definition term_order (t u : str * PostingList) : Prop := str_lt t.1 u.1.

Lemma sorted_fst ts : StronglySorted str_lt (map fst ts) -> StronglySorted term_order ts.
Proof.
  induction ts as [|t ts IH]; intros Hs; [constructor|]. inversion Hs as [|? ? Hs' Hall]; subst.
  constructor; [by apply IH|]. by rewrite Forall_map in Hall.
Qed.

Lemma sorted_nodup ts : StronglySorted term_order ts -> NoDup ts.*1.
Proof.
  induction 1 as [|t ts _ IH Hall]; [constructor|]. cbn. constructor; [|done]. intros (u & Hu & Hin)%list_elem_of_fmap.
  rewrite Forall_forall in Hall. specialize (Hall u Hin). unfold term_order in Hall. rewrite Hu in Hall. by apply str_lt_irrefl in Hall.
Qed.

Lemma sorted_absent t ts : Forall (term_order t) ts -> (list_to_map ts : gmap str PostingList) !! t.1 = None.
Proof.
  intros Hall. apply not_elem_of_list_to_map_1. intros (u & Hu & Hin)%list_elem_of_fmap.
  rewrite Forall_forall in Hall. specialize (Hall u Hin). unfold term_order in Hall. rewrite Hu in Hall. by apply str_lt_irrefl in Hall.
Qed.

Lemma merge_term_lists_forall (P : str * PostingList -> Prop) ts : forall us,
  (forall t u, P t -> t.1 = u.1 -> P (t.1, join_lists t.2 u.2)) -> Forall P ts -> Forall P us -> Forall P (merge_term_lists ts us).
Proof.
  intros us HP Hts. revert us. induction Hts as [|t ts Ht Hts IH]; intros us Hus; [done|].
  induction Hus as [|u us Hu Hus IHu]; [by constructor|]. rewrite merge_term_lists_cons.
  destruct (str_ltb t.1 u.1) eqn:E1; [constructor; [done|]; apply IH; by constructor|].
  destruct (str_ltb u.1 t.1) eqn:E2; [by constructor|]. constructor; [|by apply IH].
  apply HP; [done|]. destruct (str_lt_or_eq_or_gt t.1 u.1) as [Hlt|[Heq|Hlt]]; unfold str_lt in *; congruence.
Qed.

Lemma merge_term_lists_sorted ts : StronglySorted term_order ts -> forall us, StronglySorted term_order us ->
  StronglySorted term_order (merge_term_lists ts us) /\
  (list_to_map (merge_term_lists ts us) : gmap str PostingList) = union_with join_opt (list_to_map ts) (list_to_map us).
Proof.
  induction 1 as [|t ts Hts IH Ht]; intros us Hus.
  { cbn. split; [done|]. by rewrite left_id_L by apply _. }
  induction Hus as [|u us Hus IHu Hu].
  { rewrite merge_term_lists_nil. split; [by constructor|]. cbn. by rewrite right_id_L by apply _. }
  rewrite merge_term_lists_cons. destruct (str_ltb t.1 u.1) eqn:E1; [|destruct (str_ltb u.1 t.1) eqn:E2].
  - assert (Htu : Forall (term_order t) (u :: us)).
    { constructor; [done|]. eapply Forall_impl; [exact Hu|]. intros x Hx. by eapply str_lt_trans. }
    destruct (IH (u :: us) ltac:(by constructor)) as [H1 H2]. split.
    + constructor; [done|]. apply merge_term_lists_forall; [by intros ? ? ? ?|done|done].
    + cbn [list_to_map foldr uncurry]. rewrite H2. apply insert_union_with_l. exact (sorted_absent t (u :: us) Htu).
  - destruct IHu as [H1 H2]. assert (Hut : Forall (term_order u) (t :: ts)).
    { constructor; [done|]. eapply Forall_impl; [exact Ht|]. intros x Hx. by eapply str_lt_trans. }
    split.
    + constructor; [done|]. apply (merge_term_lists_forall (term_order u) (t :: ts)); [by intros ? ? ? ?|done|done].
    + cbn [list_to_map foldr uncurry]. etrans; [apply (f_equal (insert u.1 u.2)), H2|]. apply insert_union_with_r.
      exact (sorted_absent u (t :: ts) Hut).
  - assert (Heq : t.1 = u.1).
    { destruct (str_lt_or_eq_or_gt t.1 u.1) as [Hlt|[Heq|Hlt]]; unfold str_lt in *; congruence. }
    destruct (IH us Hus) as [H1 H2]. split.
    + constructor; [done|]. apply merge_term_lists_forall; [by intros ? ? ? ?|done|].
      eapply Forall_impl; [exact Hu|]. intros x Hx. unfold term_order in *. cbn. by rewrite Heq.
    + cbn [list_to_map foldr uncurry fst snd]. rewrite H2, Heq. by rewrite (insert_union_with _ _ _ _ t.2 u.2 (join_lists t.2 u.2)).
Qed.

Lemma join_empty_l x y : entries x = [] -> join_lists x y = y.
Proof. intros He. unfold join_lists. rewrite He. by destruct y. Qed.

Lemma join_empty_r x y : entries y = [] -> join_lists x y = x.
Proof. intros He. unfold join_lists. rewrite He, app_nil_r. by destruct x. Qed.

Lemma kept_union (ma mb : gmap str PostingList) :
  filter kept (union_with join_opt ma mb) = union_with join_opt (filter kept ma) (filter kept mb).
Proof.
  apply map_eq. intros key. rewrite lookup_union_with, !map_lookup_filter, lookup_union_with.
  destruct (decide (length key <= HEAD_TERM_KEY_MAX)) as [Hl|Hl].
  2:{ assert (Hno : forall pl, ~ kept (key, pl)) by (intros pl [? _]; done).
      destruct (ma !! key) as [x|], (mb !! key) as [y|]; cbn; rewrite ?option_guard_False by apply Hno; done. }
  assert (Hk : forall pl, kept (key, pl) <-> entries pl <> []) by (intros pl; unfold kept; cbn; tauto).
  destruct (ma !! key) as [x|] eqn:Ex, (mb !! key) as [y|] eqn:Ey; cbn; [|by case_guard|by case_guard|done].
  destruct (decide (entries x = [])) as [Ez|Ez].
  - rewrite (join_empty_l x y Ez), (option_guard_False (kept (key, x))) by (rewrite Hk; auto). cbn. by case_guard.
  - rewrite (option_guard_True (kept (key, x))) by by apply Hk. cbn.
      rewrite option_guard_True by (apply Hk; unfold join_lists; cbn; by destruct (entries x)). cbn.
      destruct (decide (entries y = [])) as [Ew|Ew].
    + rewrite (join_empty_r x y Ew), option_guard_False by (rewrite Hk; auto). done.
    + by rewrite option_guard_True by by apply Hk.
Qed.

Lemma kept_terms_map store : (list_to_map (filter kept (sorted_terms store)) : gmap str PostingList) = filter kept (m_Postings store).
Proof.
  rewrite map_filter_alt. apply list_to_map_proper; [apply sorted_nodup, sorted_fst, sorted_terms_strict|].
  by rewrite sorted_terms_perm.
Qed.

(** The terms that the builder would keep of both stores are those of each, merged. *)
Lemma merged_terms a b :
  merge_term_lists (filter kept (sorted_terms a)) (filter kept (sorted_terms b)) = filter kept (sorted_terms (merged_store a b)).
Proof.
  destruct (merge_term_lists_sorted _ (sorted_fst _ (sorted_terms_strict a)) _ (sorted_fst _ (sorted_terms_strict b))) as [Hs Hm].
  rewrite !kept_terms_map, <- kept_union in Hm. pose proof (sorted_fst _ (sorted_terms_strict (merged_store a b))) as Hs'.
  eapply (StronglySorted_unique_strong term_order); [|exact Hs|exact Hs'|].
  - intros x y _ _ H1 H2. exfalso. apply (str_lt_irrefl x.1). by eapply str_lt_trans.
  - apply list_to_map_inj; [by apply sorted_nodup|by apply sorted_nodup|]. by rewrite Hm, kept_terms_map.
Qed.
End merged_store.

(** * The documents of both *)

(** The first slot and the number of slots, from a range that a document starts and a document ends. *)
Lemma store_range store lo n :
  (forall d, is_Some (m_DocStats store !! d) -> (lo <= d < lo + n)%Z) -> is_Some (m_DocStats store !! lo) ->
  (exists d, is_Some (m_DocStats store !! d) /\ (lo + n <= d + 1)%Z) ->
  StoreFirstDocId store = lo /\ StoreDocDataRecordCount store = n.
Proof.
  intros Hin Hlo (d & Hd & Hle). destruct (store_slots store) as (Hslots & _ & Hfirst & _). cbv zeta in *.
  assert (Hne : m_DocStats store <> ∅) by (intros He; rewrite He, lookup_empty in Hlo; by destruct Hlo).
  pose proof (Hin _ (Hfirst Hne)). pose proof (Hslots _ Hlo). pose proof (Hslots _ Hd).
  destruct (store_last store Hne) as (d' & st & Hd' & Hle'). pose proof (Hin d' ltac:(by exists st)). lia.
Qed.

Section documents.
Context `{Libm} (a b : PostingStore).
Hypothesis Hda : docs_wf a.
Hypothesis Hdb : docs_wf b.
Hypothesis Hna : m_DocStats a <> ∅.
Hypothesis Hnb : m_DocStats b <> ∅.
Hypothesis Hfirst : StoreFirstDocId a = 0%Z.
Hypothesis Hnext : StoreFirstDocId b = StoreDocDataRecordCount a.

Lemma docs_apart d : is_Some (m_DocStats b !! d) -> m_DocStats a !! d = None.
Proof.
  intros Hd. destruct (m_DocStats a !! d) as [st|] eqn:E; [|done]. exfalso.
  destruct (store_slots a) as (Ha & _), (store_slots b) as (Hb & _). cbv zeta in *.
  specialize (Ha d ltac:(by exists st)). specialize (Hb d Hd). lia.
Qed.

Lemma merged_stats d : m_DocStats (merged_store a b) !! d =
  match m_DocStats a !! d with Some st => Some st | None => m_DocStats b !! d end.
Proof. cbn. rewrite lookup_union. by destruct (m_DocStats a !! d), (m_DocStats b !! d). Qed.

Lemma merged_range : StoreFirstDocId (merged_store a b) = 0%Z /\
  StoreDocDataRecordCount (merged_store a b) = (StoreDocDataRecordCount a + StoreDocDataRecordCount b)%Z.
Proof.
  destruct (store_slots a) as (Ha & Ca & Fa & _), (store_slots b) as (Hb & Cb & Fb & _). cbv zeta in *.
  apply store_range.
  - intros d. rewrite merged_stats. destruct (m_DocStats a !! d) as [st|] eqn:E.
    + specialize (Ha d ltac:(by exists st)). lia.
    + intros Hd. specialize (Hb d Hd). lia.
  - rewrite merged_stats. specialize (Fa Hna). rewrite Hfirst in Fa. by destruct Fa as [st ->].
  - destruct (store_last b Hnb) as (d & st & Hd & Hle). exists d. rewrite merged_stats, docs_apart by by exists st.
    split; [by exists st|lia].
Qed.

Lemma merged_vector d : is_Some (m_DocStats (merged_store a b) !! d) ->
  GetDocVector (merged_store a b) d = GetDocVector (if decide (is_Some (m_DocStats a !! d)) then a else b) d.
Proof.
  intros Hd. unfold GetDocVector. cbn. rewrite lookup_union, !map_lookup_filter. case_decide as E.
  - destruct (m_DocVectors a !! d) as [v|] eqn:Ev; cbn.
    + rewrite option_guard_True by done. by destruct (m_DocVectors b !! d); cbn; [case_guard|].
    + destruct (m_DocVectors b !! d); cbn; [|done]. rewrite option_guard_False; [done|]. cbn. intros Hn. rewrite Hn in E. by destruct E.
  - assert (Hn : m_DocStats a !! d = None) by by apply eq_None_not_Some.
    destruct (m_DocVectors a !! d); cbn; [rewrite option_guard_False by done|]; (destruct (m_DocVectors b !! d); cbn; [by rewrite option_guard_True|done]).
Qed.

Lemma merged_docs_wf : docs_wf (merged_store a b).
Proof.
  destruct Hda as [A1 A2], Hdb as [B1 B2]. split; cbn; apply map_Forall_union_2; try done.
  - intros d v [Hv _]%map_lookup_filter_Some. by apply (A2 d).
  - intros d v [Hv _]%map_lookup_filter_Some. by apply (B2 d).
Qed.

Lemma holds_doc_vector s s' t d st record : GetDocVector s d = GetDocVector s' d -> holds_doc s t d st record -> holds_doc s' t d st record.
Proof. intros Hv (H1 & H2 & H3 & H4). unfold holds_doc, doc_fields in *. rewrite <- Hv. done. Qed.

(** The records of the merge, slot by slot. *)
Lemma merged_slot ra rb t i record :
  Z.of_nat (length ra) = StoreDocDataRecordCount a -> Z.of_nat (length rb) = StoreDocDataRecordCount b ->
  (forall i record, ra !! i = Some record -> slot_ok a t i record) ->
  (forall i record, rb !! i = Some record -> slot_ok b t i record) ->
  (ra ++ rb) !! i = Some record -> slot_ok (merged_store a b) t i record.
Proof.
  intros La Lb Ha Hb Hi. unfold slot_ok. destruct merged_range as [-> _]. rewrite Z.add_0_l.
  apply lookup_app_Some in Hi as [Hi|[Hge Hi]].
  - pose proof (lookup_lt_Some _ _ _ Hi) as Hlt. destruct (Ha i record Hi) as [Hl Hr]. split; [done|]. rewrite Hfirst, Z.add_0_l in Hr.
    rewrite merged_stats. destruct (m_DocStats a !! Z.of_nat i) as [st|] eqn:E.
    + eapply holds_doc_vector; [|exact Hr]. rewrite merged_vector by (rewrite merged_stats, E; by exists st). by rewrite decide_True by by exists st.
    + destruct (m_DocStats b !! Z.of_nat i) as [st|] eqn:Eb; [|done]. exfalso.
      destruct (store_slots b) as (Sb & _). specialize (Sb (Z.of_nat i) ltac:(by exists st)). lia.
  - destruct (Hb _ record Hi) as [Hl Hr]. split; [done|]. rewrite Hnext, <- La in Hr.
    replace (Z.of_nat (length ra) + Z.of_nat (i - length ra))%Z with (Z.of_nat i) in Hr by lia. rewrite merged_stats.
    destruct (m_DocStats a !! Z.of_nat i) as [st|] eqn:E.
    { exfalso. destruct (store_slots a) as (Sa & _). specialize (Sa (Z.of_nat i) ltac:(by exists st)). cbv zeta in Sa. lia. }
    destruct (m_DocStats b !! Z.of_nat i) as [st|] eqn:Eb; [|done].
    eapply holds_doc_vector; [|exact Hr]. rewrite merged_vector by (rewrite merged_stats, E, Eb; by exists st).
    by rewrite decide_False by (rewrite E; by intros [? ?]).
Qed.

(** Records that are each right are the records of the merged store. *)
Lemma merged_records records t :
  Z.of_nat (length records) = (StoreDocDataRecordCount a + StoreDocDataRecordCount b)%Z ->
  (forall i record, records !! i = Some record -> slot_ok (merged_store a b) t i record) ->
  let out := concat records in
  length out = Z.to_nat (StoreDocDataRecordCount (merged_store a b)) * DOC_REC_SIZE /\
  (forall d st, m_DocStats (merged_store a b) !! d = Some st ->
     holds_doc (merged_store a b) t d st (record_at (Z.to_nat (d - StoreFirstDocId (merged_store a b))) out)) /\
  (forall d, (StoreFirstDocId (merged_store a b) <= d < StoreFirstDocId (merged_store a b) + StoreDocDataRecordCount (merged_store a b))%Z ->
     m_DocStats (merged_store a b) !! d = None -> record_at (Z.to_nat (d - StoreFirstDocId (merged_store a b))) out = blank_record).
Proof.
  intros Hn Hall out. pose proof merged_range as [Hf Hc].
  assert (Hlens : forall r, r ∈ records -> length r = DOC_REC_SIZE).
  { intros r [i Hi]%list_elem_of_lookup. apply (Hall i r Hi). }
  assert (Hrec : forall i r, records !! i = Some r -> record_at i out = r).
  { intros i r Hi. unfold record_at, out. rewrite <- (map_id records). by apply (slice_concat id). }
  assert (Hslot : forall d, (0 <= d < StoreDocDataRecordCount (merged_store a b))%Z -> slot_ok (merged_store a b) t (Z.to_nat d) (record_at (Z.to_nat d) out)).
  { intros d Hd. destruct (lookup_lt_is_Some_2 records (Z.to_nat d) ltac:(lia)) as [r Hr]. rewrite (Hrec _ _ Hr). by apply Hall. }
  unfold slot_ok in Hslot. rewrite Hf, Hc in *. split; [|split].
  - unfold out. rewrite <- (map_id records), (length_concat_same id DOC_REC_SIZE) by exact Hlens. f_equal. lia.
  - intros d st Hd. destruct (store_slots (merged_store a b)) as (Hs & _). cbv zeta in Hs. rewrite Hf, Hc in Hs.
    specialize (Hs d ltac:(by exists st)). rewrite Z.sub_0_r. destruct (Hslot d ltac:(lia)) as [_ Hr].
    rewrite Z2Nat.id, Z.add_0_l in Hr by lia. by rewrite Hd in Hr.
  - intros d Hd Hnone. rewrite Z.sub_0_r. destruct (Hslot d ltac:(lia)) as [_ Hr]. rewrite Z2Nat.id, Z.add_0_l in Hr by lia. by rewrite Hnone in Hr.
Qed.

(** The documents of two indexes, one after the other. *)
Lemma merged_docs_ok ixa ixb ra rb ga gb ta tb :
  index_of a ixa ra ga ta -> index_of b ixb rb gb tb ->
  directories_known a (m_PathPrefixes ixa) -> directories_known b (m_PathPrefixes ixb) ->
  exists records t, merged_docs ixa ixb (IFH_NumDocuments (m_IndexFileHeader ixb)) = Ok (concat records, t) /\ prefixes_ok t /\
    Z.of_nat (length records) = (StoreDocDataRecordCount a + StoreDocDataRecordCount b)%Z /\
    forall i record, records !! i = Some record -> slot_ok (merged_store a b) t i record.
Proof.
  intros Ia Ib Ka Kb. pose proof (count_bound a Hda) as [A1 A2]. pose proof (count_bound b Hdb) as [B1 B2].
  pose proof (io_header _ _ _ _ _ Ia) as [_ _ _ _ (_ & _ & Na & _) _]. pose proof (io_header _ _ _ _ _ Ib) as [_ _ _ _ (_ & _ & Nb & _) _].
  rewrite (io_prefixes _ _ _ _ _ Ia) in Ka. rewrite (io_prefixes _ _ _ _ _ Ib) in Kb.
  destruct (AppendMergedDocData_ok a Hda (m_DocData ixa) (m_IndexFileHeader ixa) ta Na (io_length _ _ _ _ _ Ia)
    (io_records _ _ _ _ _ Ia) (io_blank _ _ _ _ _ Ia) Ka [] no_prefixes no_prefixes_ok A2) as (recs & t1 & Happ & Hok1 & _ & La & Ra).
  destruct (AppendMergedDocData_ok b Hdb (m_DocData ixb) (m_IndexFileHeader ixb) tb Nb (io_length _ _ _ _ _ Ib)
    (io_records _ _ _ _ _ Ib) (io_blank _ _ _ _ _ Ib) Kb (concat recs) t1 Hok1 B2) as (recs2 & t2 & Happ2 & Hok2 & Hg & Lb & Rb).
  unfold merged_docs. rewrite (io_prefixes _ _ _ _ _ Ia), (io_prefixes _ _ _ _ _ Ib), Nb. cbn [app] in Happ. rewrite Happ. cbn [result_bind fst snd].
  exists (recs ++ recs2), t2. rewrite Happ2, concat_app, length_app, Nat2Z.inj_add, La, Lb.
  assert (Hpos : (0 < StoreDocDataRecordCount b)%Z).
  { destruct (store_slots b) as (Sb & _ & Fb & _). cbv zeta in *. specialize (Sb _ (Fb Hnb)). lia. }
  rewrite (proj2 (Z.ltb_lt _ _) Hpos). split; [done|]. split; [done|]. split; [done|]. intros i record.
  apply merged_slot; try done. intros j r Hj. eapply slot_ok_grows; [exact Hg|by apply Ra].
Qed.
End documents.

(** * The blocks of both *)

(** Stores whose postings a merge can move: low frequency bytes, and lists that fit its buffer. *)
Definition mergeable_store `{Libm} (store : PostingStore) : Prop :=
  storable store /\ map_Forall (fun _ pl => Forall low_pair (pairs_of pl) /\
    (Z.of_nat (length (get_bytes pl)) <= POSTING_SCRATCH_BYTES)%Z) (m_Postings store).

Section blocks.
Context `{Libm}.

Lemma mergeable_terms store : mergeable_store store -> Forall term_ok (filter kept (sorted_terms store)).
Proof.
  intros [Hst Hm]. apply Forall_forall. intros [key pl] [[Hk Hne] Hin]%list_elem_of_filter. cbn in Hk, Hne.
  rewrite sorted_terms_perm in Hin. apply elem_of_map_to_list in Hin. destruct (Hm key pl Hin) as [Hlow Hsize].
  destruct (storable_terms store Hst key pl Hin) as [Hu Hd]. cbn in Hu, Hd. split; [done|]. split; [done|]. cbn.
  rewrite get_bytes_pairs in Hsize. split; [|split; [done|split; [|done]]].
  - apply Forall_map. eapply Forall_impl; [exact Hd|]. intros e He. split; [done|]. apply tf8_encode_range.
  - unfold pairs_of. by destruct (entries pl).
Qed.

(** The blocks of what the merge has written. *)
Definition merged_blocks (out : list bytes) (hs : list HeadTermEntry) (leaves : list LeafTermBlock) (f : MergeFiles) : BuildBlocksResult :=
  {| BBR_IndexBlocks := out; BBR_HeadTermEntries := hs; BBR_LeafTermBlocks := leaves;
     BBR_TermMphfHeader := mphf_header_default; BBR_TermMphfDisplacements := []; BBR_TermMphfEntryPages := [];
     BBR_TotalTerms := mf_totalTerms f |}.

Lemma index_serves_build store ix r groups t : index_of store ix r groups t -> serves_build (m_BlockTable ix) r.
Proof.
  intros Hi. destruct (pool_bounds store ix r (io_header _ _ _ _ _ Hi) (io_fits _ _ _ _ _ Hi)) as [P1 P2].
  split; [apply (io_pages _ _ _ _ _ Hi true)|apply Hi|done|done].
Qed.

Lemma merged_blocks_ok a b ixa ixb ra rb ga gb ta tb :
  index_of a ixa ra ga ta -> index_of b ixb rb gb tb -> mergeable_store (merged_store a b) ->
  exists f out hs leaves groups, merge_terms_of (m_BlockTable ixa) (m_BlockTable ixb) = Some (Ok f) /\
    mf_headFile f = concat (map head_to_bytes hs) /\ mf_leafFile f = concat (map leaf_to_bytes leaves) /\ mf_indexFile f = concat out /\
    built (merged_store a b) (merged_blocks out hs leaves f) groups /\
    mf_headEntryCount f = Z.of_nat (length leaves) /\ in_u 64 (mf_totalTerms f) /\ mf_indexBlockCount f = wrap 32 (Z.of_nat (length out)).
Proof.
  intros Ia Ib Hm. pose proof (mergeable_terms _ Hm) as Hok. rewrite <- merged_terms in Hok.
  destruct (merge_terms_of_ok a b _ _ ra rb ga gb (io_built _ _ _ _ _ Ia) (io_built _ _ _ _ _ Ib)
    (index_serves_build _ _ _ _ _ Ia) (index_serves_build _ _ _ _ _ Ib) Hok) as (f & leaves & groups & out & Heq & [Hh Hl Hi Hc Ht Hic] & Hst & Hsmall).
  destruct Hh as (hs & Hhf & Hhs), Hl as [Hlf Hlg], Hi as [Hif Hpages]. rewrite merged_terms in Hst.
  pose proof (Forall2_length _ _ _ Hlg) as Hlen.
  exists f, out, hs, leaves, groups. do 4 (split; [done|]). split; [by split|]. split; [rewrite Hc, wrap_small, Hlen by (unfold in_u; lia); done|].
  split; [|done]. rewrite Ht. by apply wrap_range.
Qed.
End blocks.

(** * The merged index *)

Lemma merged_leaves_parse f leaves :
  mf_leafFile f = concat (map leaf_to_bytes leaves) -> mf_headEntryCount f = Z.of_nat (length leaves) ->
  Forall (fun b => leaf_wf b /\ leaf_from_bytes (leaf_to_bytes b) = Some b) leaves -> merged_leaves_ok f = true.
Proof.
  intros Hf Hc Hl. rewrite Forall_forall in Hl. unfold merged_leaves_ok. destruct (0 <? _)%Z; [|done].
  assert (Hlen : forall b, b ∈ leaves -> length (leaf_to_bytes b) = PAGE_SIZE) by (intros b Hb; by apply length_leaf_to_bytes, Hl).
  rewrite Hf, Hc, (length_concat_same leaf_to_bytes PAGE_SIZE) by exact Hlen. rewrite (proj2 (Z.eqb_eq _ _)) by lia. cbn [andb].
  apply forallb_forall. intros i [_ Hi]%in_seq. destruct (lookup_lt_is_Some_2 leaves i ltac:(lia)) as [b Hb].
  rewrite (slice_concat leaf_to_bytes PAGE_SIZE leaves i b Hlen Hb). apply bool_decide_eq_true_2. exists b. by apply Hl, list_elem_of_lookup_2 with i.
Qed.

(** The index whose file the merge writes. *)
Definition merged_index (header : IndexFileHeader) (r : BuildBlocksResult) (docData sidecar : bytes) (t : PathPrefixes) : LoadedIndex :=
  {| m_IndexFileHeader := header; m_BlockTable := index_table r; m_DocData := docData; m_PathPrefixSidecar := sidecar;
     m_PathPrefixes := prefixes t |}.

Section merge.
Context `{Libm} `{DocOrder} (a b : PostingStore).
Hypothesis Hda : docs_wf a.
Hypothesis Hdb : docs_wf b.
Hypothesis Hna : m_DocStats a <> ∅.
Hypothesis Hnb : m_DocStats b <> ∅.
Hypothesis Hfirst : StoreFirstDocId a = 0%Z.
Hypothesis Hnext : StoreFirstDocId b = StoreDocDataRecordCount a.
Hypothesis Hmerge : mergeable_store (merged_store a b).

Lemma store_count_pos store : m_DocStats store <> ∅ -> (0 < StoreDocDataRecordCount store)%Z.
Proof. intros Hne. destruct (store_slots store) as (Hs & _ & Hf & _). cbv zeta in *. specialize (Hs _ (Hf Hne)). lia. Qed.

Lemma index_doc_count store ix r groups t : index_of store ix r groups t -> IFH_NumDocuments (m_IndexFileHeader ix) = StoreDocDataRecordCount store.
Proof. intros Hi. by destruct (io_header _ _ _ _ _ Hi) as [_ _ _ _ (_ & _ & -> & _) _]. Qed.

Lemma index_docs_present store ix r groups t :
  index_of store ix r groups t -> m_DocStats store <> ∅ -> (length (m_DocData ix) =? 0) = false.
Proof.
  intros Hi Hne. pose proof (store_count_pos store Hne). apply Nat.eqb_neq. rewrite (io_length _ _ _ _ _ Hi). 
  assert (0 < DOC_REC_SIZE) by (unfold DOC_REC_SIZE; lia). nia.
Qed.

Lemma Merge_runs ixa ixb ra rb ga gb ta tb :
  index_of a ixa ra ga ta -> index_of b ixb rb gb tb ->
  directories_known a (m_PathPrefixes ixa) -> directories_known b (m_PathPrefixes ixb) ->
  exists records t sidecar f out hs leaves groups,
    let documents := (StoreDocDataRecordCount a + StoreDocDataRecordCount b)%Z in
    let avg := merged_avg (m_IndexFileHeader ixa) (m_IndexFileHeader ixb) (StoreDocDataRecordCount a) (StoreDocDataRecordCount b) in
    let header := merged_header avg documents f (Z.of_nat (length (concat records))) in
    Merge true ixa (Some (true, ixb)) =
      Some (Ok (concat [header_to_bytes header; sidecar; concat (map head_to_bytes hs); concat (map leaf_to_bytes leaves);
                        concat records; concat out])) /\
    Z.of_nat (length records) = documents /\ (forall i record, records !! i = Some record -> slot_ok (merged_store a b) t i record) /\
    length sidecar = PATH_PREFIX_SIDECAR_BYTES /\ DecodePathPrefixSidecar sidecar = Ok (prefixes t) /\
    built (merged_store a b) (merged_blocks out hs leaves f) groups /\
    mf_headEntryCount f = Z.of_nat (length leaves) /\ in_u 64 (mf_totalTerms f) /\ mf_indexBlockCount f = wrap 32 (Z.of_nat (length out)).
Proof.
  intros Ia Ib Ka Kb. pose proof (index_doc_count _ _ _ _ _ Ia) as Na. pose proof (index_doc_count _ _ _ _ _ Ib) as Nb.
  destruct (merged_docs_ok a b Hda Hdb Hna Hnb Hfirst Hnext ixa ixb ra rb ga gb ta tb Ia Ib Ka Kb) as (records & t & Hdocs & Hok & Hlen & Hslots).
  destruct (merged_blocks_ok a b ixa ixb ra rb ga gb ta tb Ia Ib Hmerge) as (f & out & hs & leaves & groups & Hf & Hhf & Hlf & Hif & Hb & Hc & Ht & Hic).
  destruct (sidecar_roundtrip (prefixes t) (proj1 Hok)) as (sidecar & Henc & Hsl & Hsd).
  exists records, t, sidecar, f, out, hs, leaves, groups. cbv zeta. split; [|done].
  unfold Merge. rewrite (index_docs_present _ _ _ _ _ Ia Hna), (index_docs_present _ _ _ _ _ Ib Hnb), Hdocs, Hf, Henc. cbn [negb orb option_bind].
  rewrite (first_doc_id b Hdb _ _ tb Nb (io_length _ _ _ _ _ Ib) (io_records _ _ _ _ _ Ib)), Na, Nb, Hnext, Z.eqb_refl, andb_false_r.
  rewrite (merged_leaves_parse f leaves Hlf Hc).
  2:{ apply Forall_lookup. intros i l Hi. destruct (Forall2_lookup_l _ _ _ _ _ (built_leaves _ _ _ Hb) Hi) as (g & _ & Hg). by eapply built_leaf_ok. }
  cbn [concat]. by rewrite Hhf, Hlf, Hif, app_nil_r.
Qed.

(** A merged file that is not too long for its page numbers is an index of the merged store. *)
Lemma Merge_index ixa ixb ra rb ga gb ta tb :
  index_of a ixa ra ga ta -> index_of b ixb rb gb tb ->
  directories_known a (m_PathPrefixes ixa) -> directories_known b (m_PathPrefixes ixb) ->
  exists file, Merge true ixa (Some (true, ixb)) = Some (Ok file) /\
    ((Z.of_nat (length file) < 2 ^ 44)%Z -> exists ix r groups t, memory_index (merged_store a b) ix r groups t /\
       Save (m_IndexFileHeader ix) (m_BlockTable ix) (m_DocData ix) (m_PathPrefixSidecar ix) = Ok file).
Proof.
  intros Ia Ib Ka Kb.
  destruct (Merge_runs _ _ _ _ _ _ _ _ Ia Ib Ka Kb) as (records & t & sidecar & f & out & hs & leaves & groups & Hm & Hlen & Hslots & Hsl & Hsd & Hb & Hc & Ht & Hic).
  cbv zeta in *. set (header := merged_header _ _ f _) in Hm. set (parts := [header_to_bytes header; _; _; _; _; _]) in Hm.
  exists (concat parts). split; [done|]. intros Hsmall.
  destruct (merged_records a b Hna Hnb Hfirst Hnext records t Hlen Hslots) as (Hdl & Hdr & Hdb').
  destruct (merged_range a b Hna Hnb Hfirst Hnext) as [_ Hcount].
  destruct (built_heads_wf _ _ _ Hb) as [_ Hhs]. cbn [BBR_HeadTermEntries BBR_LeafTermBlocks merged_blocks] in Hhs.
  assert (Hleaf : forall l, l ∈ leaves -> length (leaf_to_bytes l) = PAGE_SIZE).
  { intros l [i Hi]%list_elem_of_lookup. destruct (Forall2_lookup_l _ _ _ _ _ (built_leaves _ _ _ Hb) Hi) as (g & _ & Hg).
    apply length_leaf_to_bytes. by eapply built_leaf_ok. }
  assert (Hpages : (Z.of_nat (length out) <= u32_max)%Z /\ (Z.of_nat (length leaves) <= u32_max)%Z).
  { pose proof (built_pages _ _ _ Hb) as Hp. cbn [BBR_IndexBlocks merged_blocks] in Hp.
    unfold parts in Hsmall. cbn [concat] in Hsmall. rewrite !length_app, (length_concat_same leaf_to_bytes PAGE_SIZE leaves Hleaf) in Hsmall.
    rewrite (length_pages out Hp) in Hsmall. pose proof PAGE_SIZE_Z. unfold u32_max. lia. }
  assert (Hout : mf_indexBlockCount f = Z.of_nat (length out)) by (rewrite Hic; apply wrap_small; unfold in_u, u32_max in *; lia).
  set (r := merged_blocks out hs leaves f) in *. set (ix := merged_index header r (concat records) sidecar t).
  assert (Hheader : header_of_parts (m_IndexFileHeader ix) (Z.of_nat (length (BBR_LeafTermBlocks r))) (Z.of_nat (length (BBR_LeafTermBlocks r)))
    (StoreDocDataRecordCount (merged_store a b)) (Z.of_nat (length (BBR_IndexBlocks r)))).
  { rewrite Hcount. split; [done|done|by apply wrap_range|done| |].
    - cbn -[INDEX_FILE_HEADER_SIZE PATH_PREFIX_SIDECAR_BYTES PAGE_SIZE Z.mul Z.add DOC_REC_SIZE]. rewrite Hc, Hout. repeat (split; [exact eq_refl|]). exact eq_refl.
    - cbn [FileFormat.sections contiguous]. cbn -[Z.mul Z.add DOC_REC_SIZE PAGE_SIZE INDEX_FILE_HEADER_SIZE PATH_PREFIX_SIDECAR_BYTES concat].
      rewrite head_offset_Z, PAGE_SIZE_Z, Hc, Hout, Hdl, Hcount. assert (Z.of_nat DOC_REC_SIZE = 256%Z) by reflexivity. lia. }
  assert (Hfits : index_fits ix) by (split; cbn; rewrite ?Hc, ?Hout; apply Hpages).
  assert (Hio : index_of (merged_store a b) ix r groups t) by by apply index_table_index.
  exists ix, r, groups, t. split; [by split|].
  pose proof (merged_docs_wf a b Hda Hdb) as Hmdocs.
  destruct (Save_built (merged_store a b) Hmdocs ix r groups Hb eq_refl Hheader Hfits Hdl Hsl) as [file Hsave]. rewrite Hsave. f_equal.
  destruct (built_header_wf (merged_store a b) Hmdocs ix r Hheader Hfits Hdl Hsl) as [Hwf _].
  pose proof (index_table_saveable (merged_store a b) ix r groups Hb Hheader Hfits) as Hsaveable.
  destruct (save_checks _ _ _ _ _ Hwf Hsave) as (_ & _ & _ & _ & _ & _ & _ & _ & ->).
  destruct (index_pool (merged_store a b) ix r groups Hb Hheader Hfits) as (_ & _ & Hip).
  destruct (leaf_pool (merged_store a b) ix r groups Hb Hheader Hfits) as (_ & _ & Hlp).
  unfold file_parts, parts. cbn [m_BlockTable ix merged_index m_IndexFileHeader m_DocData m_PathPrefixSidecar]. rewrite Hip, Hlp.
  cbn [concat]. rewrite map_id. done.
Qed.
End merge.

Lemma merged_store_docs a b key : store_docs (merged_store a b) key = store_docs a key ++ store_docs b key.
Proof.
  unfold store_docs. cbn. rewrite lookup_union_with.
  destruct (m_Postings a !! key), (m_Postings b !! key); cbn; rewrite ?map_app, ?app_nil_r; done.
Qed.

(** * Properties *)


(** * Witness *)

Definition merge_doc (p : str) : DocStats :=
  {| doc_len := 3; unique_terms := 2; title_len := 1; body_len := 2; url_len := 0; anchor_len := 0; meta_len := 0;
     importance := f_lit F32 1 2; path := p |}.

Definition posting (d tf : Z) : IndexEntry := {| ie_doc_id := d; ie_term_frequency := tf |}.

(** Two documents, and one more in the delta; [aT] is in both. *)
Definition base_store : PostingStore :=
  {| m_Postings := <[ [97; 84]%Z := {| entries := [posting 0 1; posting 1 4] |} ]> {[ [98; 66]%Z := {| entries := [posting 1 2] |} ]};
     m_DocStats := <[0%Z := merge_doc [120; 47; 97]%Z]> {[1%Z := merge_doc [120; 47; 98]%Z]}; m_DocVectors := ∅; m_TotalTerms := 3; m_PostingEntries := 3 |}.
Definition delta_store : PostingStore :=
  {| m_Postings := <[ [97; 84]%Z := {| entries := [posting 2 1] |} ]> {[ [96; 66]%Z := {| entries := [posting 2 2] |} ]};
     m_DocStats := {[2%Z := merge_doc [121; 47; 99]%Z]}; m_DocVectors := ∅; m_TotalTerms := 3; m_PostingEntries := 2 |}.

Lemma base_storable : @storable sample_libm base_store.
Proof.
  apply map_Forall_insert_2; [|apply map_Forall_singleton].
  all: split; [reflexivity|split; [apply docs_ok_compute; vm_compute; reflexivity|]]; apply Z.leb_le; vm_compute; reflexivity.
Qed.

Lemma delta_storable : @storable sample_libm delta_store.
Proof.
  apply map_Forall_insert_2; [|apply map_Forall_singleton].
  all: split; [reflexivity|split; [apply docs_ok_compute; vm_compute; reflexivity|]]; apply Z.leb_le; vm_compute; reflexivity.
Qed.

Lemma base_docs_wf : docs_wf base_store.
Proof. split; [apply map_Forall_insert_2; [|apply map_Forall_singleton]; split_and!; done|apply map_Forall_empty]. Qed.

Lemma delta_docs_wf : docs_wf delta_store.
Proof. split; [apply map_Forall_singleton; split_and!; done|apply map_Forall_empty]. Qed.

Lemma merged_postings : map_to_list (m_Postings (merged_store base_store delta_store)) ≡ₚ
  [([97; 84]%Z, {| entries := [posting 0 1; posting 1 4; posting 2 1] |}); ([98; 66]%Z, {| entries := [posting 1 2] |});
   ([96; 66]%Z, {| entries := [posting 2 2] |})].
Proof. vm_compute. solve_Permutation. Qed.

Lemma merged_mergeable : @mergeable_store sample_libm (merged_store base_store delta_store).
Proof.
  unfold mergeable_store, storable. split; rewrite map_Forall_to_list, merged_postings; repeat apply Forall_cons_2; try apply Forall_nil_2; cbn [uncurry].
  1-3: split; [reflexivity|split; [apply docs_ok_compute; vm_compute; reflexivity|]]; apply Z.leb_le; vm_compute; reflexivity.
  all: split; [|apply Z.leb_le; vm_compute; reflexivity].
  all: apply (bool_decide_unpack _); vm_compute; reflexivity.
Qed.

Definition merged_file (base delta : option LoadedIndex) : bytes :=
  match base, delta with
  | Some ixa, Some ixb => match Merge true ixa (Some (true, ixb)) with Some (Ok file) => file | _ => [] end
  | _, _ => []
  end.

Lemma merged_file_eq ixa ixb file : Merge true ixa (Some (true, ixb)) = Some (Ok file) -> merged_file (Some ixa) (Some ixb) = file.
Proof. intros Hm. unfold merged_file. by rewrite Hm. Qed.

Lemma merged_file_size :
  Z.of_nat (length (merged_file (@BuildIndexData sample_libm sample_doc_order base_store) (@BuildIndexData sample_libm sample_doc_order delta_store)))
  = 91048%Z.
Proof. vm_compute. reflexivity. Qed.

(** The page counts and the prefixes of an index. *)
Definition index_facts (o : option LoadedIndex) : option (bool * list str) :=
  option_map (fun ix => ((IFH_IndexBlockCount (m_IndexFileHeader ix) <=? u32_max)%Z && (IFH_LeafTermBlockCount (m_IndexFileHeader ix) <=? u32_max)%Z,
    m_PathPrefixes ix)) o.

Lemma index_facts_fit ix ps : index_facts (Some ix) = Some (true, ps) -> index_fits ix /\ m_PathPrefixes ix = ps.
Proof. cbn. intros [= H1 H2]. apply andb_true_iff in H1 as [H1 H3]. split; [|done]. split; by apply Z.leb_le. Qed.

Lemma base_facts : index_facts (@BuildIndexData sample_libm sample_doc_order base_store) = Some (true, [[120%Z]]).
Proof. vm_compute. reflexivity. Qed.

Lemma delta_facts : index_facts (@BuildIndexData sample_libm sample_doc_order delta_store) = Some (true, [[121%Z]]).
Proof. vm_compute. reflexivity. Qed.

Lemma base_known : directories_known base_store [[120%Z]].
Proof.
  intros d st Hd _; cbn [m_DocStats base_store delta_store] in Hd; apply lookup_insert_Some in Hd as [[<- <-]|[_ [<- <-]%lookup_singleton_Some]]; apply (bool_decide_unpack _); vm_compute; reflexivity.
Qed.

Lemma delta_known : directories_known delta_store [[121%Z]].
Proof. intros d st Hd _; cbn [m_DocStats base_store delta_store] in Hd; apply lookup_singleton_Some in Hd as [<- <-]; apply (bool_decide_unpack _); vm_compute; reflexivity. Qed.

