(* ===== verification/Runtime.v ===== *)
(** The search runtime over index files (IndexContext.rs: SearchRuntime and the
    IndexContext functions it calls): readers that carry their block table, the
    corpus statistics they are opened with, and the proof that a search over
    loaded indexes returns the best documents of the stores behind them. *)

From Stdlib Require Import Ascii String.
From Stdlib Require Import ZArith Lia ZifyBool Bool List.
From Stdlib Require Import Floats.SpecFloat.
From stdpp Require Import base list list_numbers gmap sorting.
From S2P Require Import Prelude Floats PostingCodec PostingStore FileFormat BlockCache Mphf TermDictionary PathSidecar DocData IndexReader Composites Unions ReaderTree AdvancedReader EvalExpression Executor Query QueryMeaning IndexBuilder IndexFile MergeStore.

Local Open Scope moon_scope.

(** * Readers with their table *)

(** AdvancedIndexReader with its [m_BlockTable]. *)
Record TableReader := { tr_Table : TermSource; tr_Reader : AdvancedIndexReader }.

Definition with_reader (r : TableReader) (reader : AdvancedIndexReader) : TableReader :=
  {| tr_Table := tr_Table r; tr_Reader := reader |}.

#[export] Instance table_reader : IndexReader TableReader := {
  GoNext _ r := Some (with_reader r (@adv_GoNext (tr_Table r) (tr_Reader r)));
  GoUntil _ r t l := Some (with_reader r (@adv_GoUntil (tr_Table r) (tr_Reader r) t l));
  IsEnd r := adv_IsEnd (tr_Reader r);
  GetDocumentID r := adv_GetDocumentID (tr_Reader r);
  GetTermFreq r := adv_GetTermFreq (tr_Reader r);
  GetScore _ r e := Some (r, adv_GetScore (tr_Reader r) e);
  GetSourceMask _ r := Some (r, adv_GetSourceMask (tr_Reader r));
  Close r := with_reader r (adv_Close (tr_Reader r)) }.

#[export] Program Instance table_reader_spec : ReaderSpec TableReader :=
  {| reads r ds := @reads _ _ (@adv_spec (tr_Table r)) (tr_Reader r) ds |}.
Next Obligation. intros r ds. apply (@reads_docs _ _ (@adv_spec (tr_Table r))). Qed.
Next Obligation. intros r ds. apply (@reads_end _ _ (@adv_spec (tr_Table r))). Qed.
Next Obligation. intros r d ds. apply (@reads_doc _ _ (@adv_spec (tr_Table r))). Qed.
Next Obligation. intros r ds Hr. eexists. split; [apply converges_now|by apply (@adv_next_reads (tr_Table r))]. Qed.
Next Obligation. intros r ds t Hr _. eexists. split; [apply converges_now|by apply (@adv_until_reads (tr_Table r))]. Qed.
Next Obligation. intros r ds e Hr. eexists _, _. split; [apply converges_now|done]. Qed.
Next Obligation. intros r ds Hr. eexists _, _. split; [apply converges_now|done]. Qed.

(** * The runtime *)

(** SearchRuntime without the vector index; [rt_TotalDocs] is [store.TotalDocs()]. *)
Inductive SearchRuntime := Build_SearchRuntime {
  rt_TotalDocs : Z;
  rt_block_table : IndexBlockTable;
  rt_docdata : bytes;
  rt_header : IndexFileHeader;
  rt_query_parameters : QueryCompileModeParameters;
  rt_weak_and_build_mode : WeakAndBuildMode;
  rt_average_stream_lengths : list f32;
  rt_delta : option SearchRuntime;
}.

Definition index_avg (header : IndexFileHeader) : f32 := f_max (f32_from_bits (IFH_AvgDocLength header)) (f_of_Z F32 1).

(** The average lengths, in the order T, B, U, A, M. *)
Definition stream_lengths (entry : DocDataEntry) : list Z :=
  [DDE_TitleLength entry; DDE_BodyLength entry; DDE_UrlLength entry; DDE_AnchorLength entry; DDE_MetaLength entry].

(** One document, in each of the five sums. *)
Definition add_length (total : f64 * Z) (length : Z) : f64 * Z :=
  if (0 <? length)%Z then (f_add F64 total.1 (f_of_Z F64 length), (total.2 + 1)%Z) else total.

(** The loop over the slots, to the first that is not in the buffer. *)
Fixpoint total_lengths (docdata : bytes) (firstDocId : Z) (slots : list nat) (totals : list (f64 * Z)) : list (f64 * Z) :=
  match slots with
  | [] => totals
  | slot :: slots' =>
      let offset := slot * DOC_REC_SIZE in
      if length docdata <? offset + DOC_REC_SIZE then totals
      else
        let entry := doc_entry (slice offset DOC_REC_SIZE docdata) in
        if negb (DDE_DocID entry =? firstDocId + Z.of_nat slot)%Z then total_lengths docdata firstDocId slots' totals
        else total_lengths docdata firstDocId slots' (zip_with add_length totals (stream_lengths entry))
  end.

(** What GetAverageStreamLength keeps in m_StreamLengthStats for these records. *)
Definition stream_averages (docdata : bytes) (header : IndexFileHeader) : list f32 :=
  let avg := index_avg header in
  let totals := total_lengths docdata (DocDataFirstDocId docdata header) (seq 0 (Z.to_nat (IFH_NumDocuments header)))
                  (replicate 5 (f_of_Z F64 0, 0%Z)) in
  zip_with (fun initial total => if (0 <? total.2)%Z then f_cast F32 (f_div F64 total.1 (f_of_Z F64 total.2)) else initial)
    [f_of_Z F32 1; avg; avg; avg; avg] totals.

(** The average of a stream, among the five. *)
Definition average_of (averages : list f32) (header : IndexFileHeader) (stream : Z) : f32 :=
  let at_index i := nth i averages (index_avg header) in
  if (stream =? chr "T")%Z then at_index 0
  else if (stream =? chr "B")%Z then at_index 1
  else if (stream =? chr "U")%Z then at_index 2
  else if (stream =? chr "A")%Z then at_index 3
  else if (stream =? chr "M")%Z then at_index 4
  else index_avg header.

Definition ReaderSpanWeight (parameters : QueryCompileModeParameters) (stream wordSpan : Z) : f32 :=
  let spanWeight := if (2 <=? wordSpan)%Z then QMP_BigramWeight parameters else QMP_UnigramWeight parameters in
  let streamWeight :=
    if (stream =? chr "A")%Z then QMP_AnchorWeight parameters
    else if (stream =? chr "U")%Z then QMP_UrlWeight parameters
    else if (stream =? chr "T")%Z then QMP_TitleWeight parameters
    else if (stream =? chr "B")%Z then QMP_BodyWeight parameters
    else f_of_Z F32 1 in
  f_mul F32 spanWeight streamWeight.

(** * The context *)

(** IndexContext without the vector index, the worker threads and their queue; the [m_Write] fields are one index. *)
Inductive IndexContext := Build_IndexContext {
  m_Store : PostingStore;
  m_Index : LoadedIndex;
  m_VectorBuilt : bool;
  m_IndexPath : option str;
  m_Built : bool;
  m_LoadedFromDisk : bool;
  m_LoadDelta : bool;
  m_LeafTermCacheBytes : Z;
  m_QueryParameters : QueryCompileModeParameters;
  m_WeakAndBuildMode : WeakAndBuildMode;
  m_DeltaContext : option IndexContext;
  m_Write : LoadedIndex;
  m_WriteBuilt : bool;
}.

Definition DocumentCount (ctx : IndexContext) : Z := IFH_NumDocuments (m_IndexFileHeader (m_Index ctx)).

Definition HasDelta (ctx : IndexContext) : bool :=
  match m_DeltaContext ctx with Some delta => (0 <? DocumentCount delta)%Z | None => false end.

Definition index_averages (ix : LoadedIndex) : list f32 := stream_averages (m_DocData ix) (m_IndexFileHeader ix).

(** The cache of the averages, whose key is the address of the records, is taken to be current. *)
Definition GetAverageStreamLength (ctx : IndexContext) (stream : Z) : f32 :=
  average_of (index_averages (m_Index ctx)) (m_IndexFileHeader (m_Index ctx)) stream.

(** SearchRuntime::from_context. *)
Fixpoint from_context (ctx : IndexContext) : SearchRuntime :=
  {| rt_TotalDocs := TotalDocs (m_Store ctx);
     rt_block_table := m_BlockTable (m_Index ctx);
     rt_docdata := m_DocData (m_Index ctx);
     rt_header := m_IndexFileHeader (m_Index ctx);
     rt_query_parameters := m_QueryParameters ctx;
     rt_weak_and_build_mode := m_WeakAndBuildMode ctx;
     rt_average_stream_lengths := map (GetAverageStreamLength ctx) [chr "T"; chr "B"; chr "U"; chr "A"; chr "M"];
     rt_delta := if HasDelta ctx then match m_DeltaContext ctx with Some delta => Some (from_context delta) | None => None end else None |}.

Section runtime.
Context `{Libm}.
Implicit Types rt : SearchRuntime.

Definition rt_source rt : TermSource := @table_source (table_blocks (rt_block_table rt)) (bt_Terms (rt_block_table rt)).

Definition rt_num_documents rt : Z :=
  if (0 <? IFH_NumDocuments (rt_header rt))%Z then IFH_NumDocuments (rt_header rt) else rt_TotalDocs rt.

(** SearchRuntime::open_advanced_reader; [None]: an assertion of AdvancedIndexReader::Open fails. *)
Definition rt_open_advanced_reader rt (stream_key : bytes) (word_span : Z) : option TableReader :=
  let stream := default (chr "B") (last_char stream_key) in
  opt reader := @Open (rt_source rt) _ stream_key (rt_num_documents rt)
    (average_of (rt_average_stream_lengths rt) (rt_header rt) stream)
    (ReaderSpanWeight (rt_query_parameters rt) stream word_span) word_span in
  Some {| tr_Table := rt_source rt; tr_Reader := reader |}.

(** What the reader builder uses of a runtime. *)
Definition rt_leaves rt : LeafReaders TableReader :=
  {| open_leaf := rt_open_advanced_reader rt;
     term_doc_freq key := option_map doc_freq_ (@FindTermData (rt_source rt) key);
     weak_and_build_mode := rt_weak_and_build_mode rt;
     doc_count := IFH_NumDocuments (rt_header rt) |}.

Fixpoint rt_GetDocDataEntry rt (docId : Z) {struct rt} : option DocDataEntry :=
  GetDocDataEntry (rt_docdata rt) (rt_header rt)
    (match rt_delta rt with Some delta => Some (rt_GetDocDataEntry delta) | None => None end) docId.
End runtime.

(** * Stores behind runtimes *)

(** What a writer makes of a store: every posted document is known, and the empty key has no postings. *)
Definition documented (store : PostingStore) : Prop :=
  m_Postings store !! [] = None /\
  map_Forall (fun _ pl => Forall (fun e => is_Some (m_DocStats store !! ie_doc_id e)) (entries pl)) (m_Postings store).

(** The runtime searches an index of the store. *)
Record searches `{Libm} (rt : SearchRuntime) (store : PostingStore) : Prop := {
  ss_index : exists ix, is_index store ix /\ rt_block_table rt = m_BlockTable ix /\ rt_docdata rt = m_DocData ix /\
               rt_header rt = m_IndexFileHeader ix;
  ss_storable : storable store;
  ss_docs : docs_wf store;
  ss_documented : documented store;
  ss_some : m_DocStats store <> ∅;
  ss_averages : Forall (fun a => f_gt a (f_of_Z F32 0) = true) (rt_average_stream_lengths rt);
}.

Lemma index_avg_pos header : f_gt (index_avg header) (f_of_Z F32 0) = true.
Proof.
  unfold index_avg, f_max. set (x := f32_from_bits _). clearbody x. destruct (f_is_nan x) eqn:En; [by vm_compute|].
  change (f_is_nan (f_of_Z F32 1)) with false. cbv iota. destruct (f_lt x (f_of_Z F32 1)) eqn:El; [by vm_compute|].
  destruct x as [s|s| |s m e]; [by destruct s|by destruct s; [vm_compute in El|vm_compute]|done|]. destruct s; [|done]. by vm_compute in El.
Qed.

Lemma average_of_pos averages header stream :
  Forall (fun a => f_gt a (f_of_Z F32 0) = true) averages -> f_gt (average_of averages header stream) (f_of_Z F32 0) = true.
Proof.
  intros Hall. assert (Hn : forall i, f_gt (nth i averages (index_avg header)) (f_of_Z F32 0) = true).
  { intros i. destruct (nth_in_or_default i averages (index_avg header)) as [Hin| ->]; [|apply index_avg_pos].
    rewrite Forall_forall in Hall. by apply Hall, list_elem_of_In. }
  unfold average_of. repeat case_match; try apply Hn. apply index_avg_pos.
Qed.

Lemma reader_id d : (0 <= d < u32_max)%Z -> ReaderDocumentIDValue d = d.
Proof.
  intros Hd. unfold ReaderDocumentIDValue. change READER_DOCID_VALUE_MASK with (Z.ones 59). rewrite Z.land_ones by lia.
  apply Z.mod_small. unfold u32_max in Hd. lia.
Qed.

Lemma key_docs_known store key d : documented store -> d ∈ key_docs store key -> is_Some (m_DocStats store !! d).
Proof.
  intros [_ Hd]. unfold key_docs, store_docs. destruct (_ <=? _); [|by intros ?%elem_of_nil].
  destruct (m_Postings store !! _) as [pl|] eqn:E; [|by intros ?%elem_of_nil]. intros (e & -> & He)%list_elem_of_fmap.
  specialize (Hd _ _ E). rewrite Forall_forall in Hd. by apply Hd.
Qed.

Lemma key_docs_ok `{Libm} store key : storable store -> docs_ok (key_docs store key).
Proof.
  intros Hs. unfold key_docs, store_docs. destruct (_ <=? _); [|apply docs_ok_nil].
  destruct (m_Postings store !! _) as [pl|] eqn:E; [|apply docs_ok_nil]. apply (Hs _ _ E).
Qed.

(** The context has an index of the store; the average lengths of its streams are positive. *)
Record searchable_index `{Libm} (ix : LoadedIndex) (store : PostingStore) : Prop := {
  si_index : is_index store ix;
  si_storable : storable store;
  si_docs : docs_wf store;
  si_documented : documented store;
  si_some : m_DocStats store <> ∅;
  si_averages : forallb (fun a => f_gt a (f_of_Z F32 0)) (index_averages ix) = true;
}.

Lemma from_context_searches `{Libm} ctx store : searchable_index (m_Index ctx) store -> searches (from_context ctx) store.
Proof.
  intros [H1 H2 H3 H4 H5 H6]. assert (Hall : Forall (fun a => f_gt a (f_of_Z F32 0) = true) (index_averages (m_Index ctx))).
  { apply Forall_forall. intros a Ha. rewrite forallb_forall in H6. by apply H6, list_elem_of_In. }
  split; try done; [exists (m_Index ctx); by destruct ctx|].
  replace (rt_average_stream_lengths (from_context ctx)) with (map (GetAverageStreamLength ctx) [chr "T"; chr "B"; chr "U"; chr "A"; chr "M"])
    by by destruct ctx.
  apply Forall_map, Forall_forall. intros c _. by apply average_of_pos.
Qed.

(** ** The vector indexes *)

Abbreviation VectorSearcher := (list f32 -> Z -> Z -> list VectorSearchResult) (only parsing).

(** The vector index of an index file has no nodes until BuildVectorRuntime adds the records of the file,
    and a search of an index without nodes gives nothing (VectorRuntime: [unbuilt_search]); [search] is
    FreshDiskAnnVectorIndex::Search with the cosine metric on the index that BuildVectorRuntime leaves. *)
Definition index_search (built : bool) (search : VectorSearcher) : VectorSearcher := if built then search else fun _ _ _ => [].

(** The trees that only the vector indexes answer. *)
Definition vector_only (tree : EvalTree) : bool := negb (HasTextQuery tree) && HasVectorQuery tree.

Definition delta_vector_built (ctx : IndexContext) : bool :=
  match m_DeltaContext ctx with Some delta => m_VectorBuilt delta | None => false end.

Section searches.
Context `{Libm} (rt : SearchRuntime) (store : PostingStore).
Hypothesis Hrt : searches rt store.

Lemma rt_documents : (0 < rt_num_documents rt)%Z.
Proof.
  destruct (ss_index _ _ Hrt) as (ix & (r & groups & t & Hi) & _ & _ & Hh). unfold rt_num_documents. rewrite Hh.
  destruct (io_header _ _ _ _ _ Hi) as [_ _ _ _ (_ & _ & -> & _) _]. pose proof (store_count_pos store (ss_some _ _ Hrt)).
  destruct (_ <? _)%Z eqn:E; bool_to_prop; lia.
Qed.

(** The leaf readers of the runtime read the keys of the store. *)
Lemma rt_leaves_spec : LeafReadersSpec TableReader (LeafReaders0 := rt_leaves rt) (key_docs store).
Proof.
  destruct (ss_index _ _ Hrt) as (ix & (r & groups & t & Hi) & Ht & _). split.
  - intros key span. cbn [open_leaf rt_leaves]. unfold rt_open_advanced_reader.
    destruct (index_of_opens store (ss_storable _ _ Hrt) ix r groups t key (rt_num_documents rt)
      (average_of (rt_average_stream_lengths rt) (rt_header rt) (default (chr "B") (last_char key)))
      (ReaderSpanWeight (rt_query_parameters rt) (default (chr "B") (last_char key)) span) span Hi rt_documents
      (average_of_pos _ _ _ (ss_averages _ _ Hrt))) as (reader & Ho & Hr).
    unfold rt_source. rewrite Ht, Ho. eexists. split; [reflexivity|]. exact Hr.
  - unfold key_docs, store_docs. cbn. by rewrite (proj1 (ss_documented _ _ Hrt)).
Qed.

(** Every document of the store has its record. *)
Lemma rt_entry d st : m_DocStats store !! d = Some st ->
  exists entry, rt_GetDocDataEntry rt d = Some entry /\ entry_matches store d st entry.
Proof.
  intros Hd. destruct (ss_index _ _ Hrt) as (ix & (r & groups & t & Hi) & _ & Hdoc & Hh).
  destruct (proj1 (ss_docs _ _ Hrt) _ _ Hd) as [Hrange _].
  destruct (io_header _ _ _ _ _ Hi) as [_ _ _ _ (_ & _ & Hnum & _) _].
  pose proof (lookups_ok store (ss_docs _ _ Hrt) _ _ t Hnum (io_length _ _ _ _ _ Hi) (io_records _ _ _ _ _ Hi) (io_blank _ _ _ _ _ Hi)
    (match rt_delta rt with Some delta => Some (rt_GetDocDataEntry delta) | None => None end) None d) as Hl.
  cbv zeta in Hl. rewrite reader_id, Hd in Hl by done. destruct (Hl ltac:(lia)) as [Hentry _].
  destruct rt as [? ? ? ? ? ? ? ?]. cbn in Hdoc, Hh, Hentry |- *. by rewrite Hdoc, Hh.
Qed.

(** A document that the store does not have is looked up in the delta. *)
Lemma rt_entry_delta d : m_DocStats store !! d = None -> (0 <= d < u32_max)%Z ->
  rt_GetDocDataEntry rt d = match rt_delta rt with Some delta => rt_GetDocDataEntry delta d | None => None end.
Proof.
  intros Hd Hrange. destruct (ss_index _ _ Hrt) as (ix & (r & groups & t & Hi) & _ & Hdoc & Hh).
  destruct (io_header _ _ _ _ _ Hi) as [_ _ _ _ (_ & _ & Hnum & _) _].
  pose proof (lookups_ok store (ss_docs _ _ Hrt) _ _ t Hnum (io_length _ _ _ _ _ Hi) (io_records _ _ _ _ _ Hi) (io_blank _ _ _ _ _ Hi)
    (match rt_delta rt with Some delta => Some (rt_GetDocDataEntry delta) | None => None end) None d) as Hl.
  cbv zeta in Hl. rewrite reader_id, Hd in Hl by done. destruct (Hl ltac:(lia)) as [Hentry _].
  destruct rt as [? ? ? ? ? ? ? delta]. cbn in Hdoc, Hh, Hentry |- *. rewrite Hdoc, Hh, Hentry. by destruct delta.
Qed.
End searches.

(** * A search over the indexes *)

Section search.
Context `{Libm, Tokenizer} {Hp : Type} `{MinHeapSpec Hp}.
Context (VectorSearch DeltaVectorSearch : list f32 -> Z -> Z -> list VectorSearchResult).
Context (parameters : QueryCompileModeParameters).
Implicit Types rt : SearchRuntime.

(** The search task of a worker; the scoring parameters are the process's. *)
Definition rt_ExecuteSearchTask rt (fuel : nat) (task : SearchTaskState) : option (list SearchResult) :=
  ExecuteSearchTask (Hp := Hp) (rt_leaves rt) (option_map rt_leaves (rt_delta rt)) VectorSearch DeltaVectorSearch
    (rt_GetDocDataEntry rt) parameters fuel task.

Definition rt_get_reader rt (fuel : nat) (tree : EvalTree) : option (ReaderT TableReader (S (S TREE_DEPTH))) :=
  get_reader (rt_leaves rt) (option_map rt_leaves (rt_delta rt)) VectorSearch DeltaVectorSearch fuel tree.

(** The documents of a tree: by the postings of the stores for text, by the vector searches otherwise. *)
Definition rt_tree_docs rt (base delta : PostingStore) (tree : EvalTree) : list Z :=
  tree_docs (rt_leaves rt) (option_map rt_leaves (rt_delta rt)) VectorSearch DeltaVectorSearch (key_docs base) (key_docs delta) tree.

(** A vector search gives documents of its store, each once. *)
Definition finds_documents (search : list f32 -> Z -> Z -> list VectorSearchResult) (store : PostingStore) : Prop :=
  forall q k ef, NoDup (vr_docs (search q k ef)) /\ Forall (fun d => is_Some (m_DocStats store !! d)) (vr_docs (search q k ef)).

Lemma finds_ok search store : docs_wf store -> finds_documents search store -> search_ok search.
Proof.
  intros Hd Hf q k ef. destruct (Hf q k ef) as [Hn Hall]. split; [done|]. eapply Forall_impl; [exact Hall|].
  intros d [st Hst]. destruct (proj1 Hd _ _ Hst) as [Hr _]. unfold u32_max, NO_MORE_DOCS, u64_max in *. lia.
Qed.

Lemma index_search_finds built search store : finds_documents search store -> finds_documents (index_search built search) store.
Proof. intros Hf. destruct built; [exact Hf|]. intros q k ef. split; constructor. Qed.

(** Trees with text do not ask the vector indexes. *)
Lemma build_local_reader_text (index : LeafReaders TableReader) search search' fuel n tree : vector_only tree = false ->
  @build_local_reader TableReader _ index search fuel n tree = @build_local_reader TableReader _ index search' fuel n tree.
Proof.
  unfold vector_only, build_local_reader, IsEmpty. by destruct (HasTextQuery tree), (HasVectorQuery tree).
Qed.

Lemma rt_get_reader_text rt search delta_search search' delta_search' fuel tree : vector_only tree = false ->
  get_reader (rt_leaves rt) (option_map rt_leaves (rt_delta rt)) search delta_search fuel tree =
  get_reader (rt_leaves rt) (option_map rt_leaves (rt_delta rt)) search' delta_search' fuel tree.
Proof.
  intros Ht. unfold get_reader. rewrite (build_local_reader_text _ search search') by done. destruct (rt_delta rt) as [d|]; [|done].
  cbn [option_map]. by rewrite (build_local_reader_text _ delta_search delta_search').
Qed.

Lemma eval_tree_known rt store search tree d :
  searches rt store -> finds_documents search store -> d ∈ eval_tree (rt_leaves rt) (key_docs store) search tree ->
  is_Some (m_DocStats store !! d).
Proof.
  intros Hs Hf. unfold eval_tree. destruct (root tree) as [node|].
  - intros Hd. destruct (eval_from_postings (H := rt_leaves rt) (key_docs store) (fun key => key_docs_ok store key (ss_storable _ _ Hs)) _ _ _ Hd) as (key & Hk).
    eapply key_docs_known; [apply Hs|exact Hk].
  - destruct (Hf (vector_query tree) (Z.max (vector_ef_search tree) 1) (vector_ef_search tree)) as [Hnd Hall].
    intros Hd. apply list_elem_of_fmap in Hd as (v & -> & Hv). rewrite Forall_forall in Hall. apply Hall, (list_elem_of_fmap_2 vsr_doc_id).
    unfold vr_new in Hv. cbn in Hv. by rewrite stable_sort_perm in Hv.
Qed.

Context (rt : SearchRuntime) (base : PostingStore) (delta : option PostingStore).
Hypothesis Hbase : searches rt base.
Hypothesis Hdelta : match rt_delta rt, delta with Some d, Some store => searches d store | None, None => True | _, _ => False end.
Hypothesis Hfind : finds_documents VectorSearch base.
Hypothesis Hdfind : finds_documents DeltaVectorSearch (default base delta).

Lemma rt_leaves_delta : match option_map rt_leaves (rt_delta rt) with
  | Some d => LeafReadersSpec TableReader (LeafReaders0 := d) (key_docs (default base delta)) | None => True end.
Proof. destruct (rt_delta rt) as [d|], delta as [store|]; cbn; try done. by apply rt_leaves_spec. Qed.

Lemma rt_delta_docs : docs_wf (default base delta).
Proof. destruct (rt_delta rt), delta; cbn; try done; apply Hbase || apply Hdelta. Qed.

(** The documents of a tree all have their records, in the base index or in the delta. *)
Lemma rt_tree_entries tree d :
  d ∈ rt_tree_docs rt base (default base delta) tree -> is_Some (rt_GetDocDataEntry rt d).
Proof.
  assert (Hentry : is_Some (m_DocStats base !! d) -> is_Some (rt_GetDocDataEntry rt d)).
  { intros [st Hst]. destruct (rt_entry rt base Hbase d st Hst) as (entry & Heq & _). by exists entry. }
  unfold rt_tree_docs, tree_docs. destruct (rt_delta rt) as [dr|] eqn:Edr, delta as [store|]; cbn [option_map default] in *; try done.
  2:{ intros Hd. apply Hentry. eapply eval_tree_known; [exact Hbase|exact Hfind|exact Hd]. }
  intros Hd. apply at_least_elem in Hd as (ds & Hin & Hd).
  2:{ pose proof (rt_leaves_spec rt base Hbase) as S1. pose proof (rt_leaves_spec dr store Hdelta) as S2.
      assert (Hok : forall (rt' : SearchRuntime) s search, searches rt' s -> finds_documents search s ->
        docs_ok (eval_tree (rt_leaves rt') (key_docs s) search tree)).
      { intros rt' s search Hs Hf. unfold eval_tree. destruct (root tree) as [node|].
        - apply eval_docs_ok. intros key. apply key_docs_ok, Hs.
        - destruct (finds_ok search s (ss_docs _ _ Hs) Hf (vector_query tree) (Z.max (vector_ef_search tree) 1) (vector_ef_search tree)) as [Hn Hr].
          apply (vr_new_reads _ Hn Hr). }
      repeat constructor; by apply Hok. }
  destruct (decide (is_Some (m_DocStats base !! d))) as [Hb|Hb]; [by apply Hentry|].
  assert (Hknown : is_Some (m_DocStats store !! d)).
  { apply elem_of_cons in Hin as [->|Hin]; [exfalso; apply Hb; by eapply eval_tree_known|].
    apply list_elem_of_singleton in Hin as ->. by eapply eval_tree_known. }
  destruct Hknown as [st Hst]. destruct (rt_entry dr store Hdelta d st Hst) as (entry & Heq & _).
  destruct (proj1 (ss_docs _ _ Hdelta) _ _ Hst) as [Hrange _].
  rewrite (rt_entry_delta rt base Hbase d), Edr, Heq; [by exists entry|by apply eq_None_not_Some|done].
Qed.

(** While the vector index of the delta is not built, no document of the delta alone answers a vector query. *)
Lemma unbuilt_delta_hidden tree d : vector_only tree = true ->
  d ∈ tree_docs (rt_leaves rt) (option_map rt_leaves (rt_delta rt)) VectorSearch (index_search false DeltaVectorSearch)
        (key_docs base) (key_docs (default base delta)) tree ->
  is_Some (m_DocStats base !! d).
Proof.
  intros Hv. unfold vector_only, HasTextQuery in Hv. unfold tree_docs.
  assert (Hb : forall d, d ∈ eval_tree (rt_leaves rt) (key_docs base) VectorSearch tree -> is_Some (m_DocStats base !! d)).
  { intros x. by apply eval_tree_known. }
  destruct (rt_delta rt) as [dr|]; cbn [option_map]; [|apply Hb].
  intros Hd. apply at_least_elem in Hd as (ds & Hin & Hd).
  - apply elem_of_cons in Hin as [->|Hin]; [by apply Hb|]. apply list_elem_of_singleton in Hin as ->. exfalso.
    unfold eval_tree in Hd. destruct (root tree); [done|]. by apply elem_of_nil in Hd.
  - unfold eval_tree. destruct (root tree); [done|]. constructor; [|constructor; [apply docs_ok_nil|constructor]].
    destruct (finds_ok VectorSearch base (ss_docs _ _ Hbase) Hfind (vector_query tree) (Z.max (vector_ef_search tree) 1) (vector_ef_search tree)) as [Hn Hr].
    apply (vr_new_reads _ Hn Hr).
Qed.

Lemma rt_ExecuteSearchTask_ok task :
  IsEmpty (task_tree task) = false ->
  let docs := rt_tree_docs rt base (default base delta) (task_tree task) in
  exists r all,
    converges (fun k => rt_get_reader rt k (task_tree task)) r /\
    visits (rt_GetDocDataEntry rt) parameters
      (if HasTextQuery (task_tree task) && HasVectorQuery (task_tree task) then Some (vector_query (task_tree task)) else None) r docs all /\
    (no_nan all -> exists res, converges (fun k => rt_ExecuteSearchTask rt k task) res /\ top_results (TopKLimit (task_top_k task)) all res).
Proof.
  intros Hne docs. apply ExecuteSearchTask_ok.
  - apply rt_leaves_spec, Hbase.
  - apply rt_leaves_delta.
  - by apply (finds_ok _ base), Hfind; apply Hbase.
  - by apply (finds_ok _ _ rt_delta_docs).
  - done.
  - intros d. apply rt_tree_entries.
Qed.
End search.

(** * Properties *)

Section context.
Context `{Libm, Tokenizer} {Hp : Type} `{MinHeapSpec Hp}.
Context (VectorSearch DeltaVectorSearch : list f32 -> Z -> Z -> list VectorSearchResult).
Context (parameters : QueryCompileModeParameters) (ctx : IndexContext) (base : PostingStore) (delta : option PostingStore).
Hypothesis Hbase : searchable_index (m_Index ctx) base.
(** The stores of the context and of its delta, when that has documents. *)
Hypothesis Hdelta : match m_DeltaContext ctx, delta with
  | Some d, Some store => searchable_index (m_Index d) store | None, None => True | _, _ => False end.
Hypothesis Hfind : finds_documents VectorSearch base.
Hypothesis Hdfind : finds_documents DeltaVectorSearch (default base delta).

Lemma searchable_has_documents ix store : searchable_index ix store -> (0 < IFH_NumDocuments (m_IndexFileHeader ix))%Z.
Proof.
  intros Hs. destruct (si_index _ _ Hs) as (r & groups & t & Hi). destruct (io_header _ _ _ _ _ Hi) as [_ _ _ _ (_ & _ & -> & _) _].
  apply store_count_pos, Hs.
Qed.

Lemma from_context_delta : match rt_delta (from_context ctx), delta with
  | Some d, Some store => searches d store | None, None => True | _, _ => False end.
Proof.
  clear Hdfind Hbase. destruct ctx as [? ? ? ? ? ? ? ? ? ? dc ? ?]. cbn [from_context rt_delta HasDelta m_DeltaContext] in *.
  destruct dc as [d|], delta as [store|]; cbn in *; try done. unfold DocumentCount.
  rewrite (proj2 (Z.ltb_lt _ _) (searchable_has_documents _ _ Hdelta)). by apply from_context_searches.
Qed.

(** a search task over a loaded index, with its delta if it has one, terminates and returns the
    best documents of its compiled query, from the best to the worst, none better left out; the
    documents are those that the stores behind the indexes have postings of, and the readers, the page
    cache, the dictionaries, the records and the statistics are the modelled ones. *)
Theorem context_search_top_k task :
  IsEmpty (task_tree task) = false ->
  let rt := from_context ctx in
  let docs := rt_tree_docs VectorSearch DeltaVectorSearch rt base (default base delta) (task_tree task) in
  exists r all,
    converges (fun k => rt_get_reader VectorSearch DeltaVectorSearch rt k (task_tree task)) r /\
    visits (rt_GetDocDataEntry rt) parameters
      (if HasTextQuery (task_tree task) && HasVectorQuery (task_tree task) then Some (vector_query (task_tree task)) else None) r docs all /\
    (no_nan all -> exists res,
       converges (fun k => rt_ExecuteSearchTask (Hp := Hp) VectorSearch DeltaVectorSearch parameters rt k task) res /\
       top_results (TopKLimit (task_top_k task)) all res).
Proof.
  intros Hne rt docs. apply (rt_ExecuteSearchTask_ok VectorSearch DeltaVectorSearch parameters rt base delta); try done.
  - apply from_context_searches, Hbase.
  - apply from_context_delta.
Qed.
End context.

(** * Witness *)

Definition empty_index : LoadedIndex :=
  {| m_IndexFileHeader := header_zeroed; m_BlockTable := IndexBlockTable_new; m_DocData := [];
     m_PathPrefixSidecar := zeros PATH_PREFIX_SIDECAR_BYTES; m_PathPrefixes := [] |}.

Definition built_index `{Libm} `{DocOrder} (store : PostingStore) : LoadedIndex := default empty_index (BuildIndexData store).

Definition context_of (ix : LoadedIndex) (delta : option IndexContext) : IndexContext :=
  {| m_Store := store_new; m_Index := ix; m_VectorBuilt := true; m_IndexPath := None; m_Built := true; m_LoadedFromDisk := true;
     m_LoadDelta := true; m_LeafTermCacheBytes := 4096; m_QueryParameters := kWeakAndBigramParameters; m_WeakAndBuildMode := FlatPruned;
     m_DeltaContext := delta; m_Write := empty_index; m_WriteBuilt := false |}.

Definition base_index : LoadedIndex := @built_index sample_libm sample_doc_order base_store.
Definition delta_index : LoadedIndex := @built_index sample_libm sample_doc_order delta_store.
Definition sample_context : IndexContext := context_of base_index (Some (context_of delta_index None)).

Lemma base_documented : documented base_store.
Proof.
  split; [vm_compute; reflexivity|]. apply map_Forall_insert_2; [|apply map_Forall_singleton];
    apply (bool_decide_unpack _); vm_compute; reflexivity.
Qed.

Lemma delta_documented : documented delta_store.
Proof.
  split; [vm_compute; reflexivity|]. apply map_Forall_insert_2; [|apply map_Forall_singleton];
    apply (bool_decide_unpack _); vm_compute; reflexivity.
Qed.

Lemma base_searchable : @searchable_index sample_libm base_index base_store.
Proof.
  assert (Ha : forallb (fun a => f_gt a (f_of_Z F32 0)) (index_averages base_index) = true) by (vm_compute; reflexivity).
  destruct (@BuildIndexData_index sample_libm sample_doc_order base_store base_storable base_docs_wf) as (ix & r & g & t & E & M).
  pose proof base_facts as F. rewrite E in F. destruct (index_facts_fit _ _ F) as [Fit _].
  unfold base_index, built_index in *. rewrite E in *. cbn [default] in *.
  split; [by exists r, g, t; apply mi_index, M|exact base_storable|exact base_docs_wf|exact base_documented|done|exact Ha].
Qed.

Lemma delta_searchable : @searchable_index sample_libm delta_index delta_store.
Proof.
  assert (Ha : forallb (fun a => f_gt a (f_of_Z F32 0)) (index_averages delta_index) = true) by (vm_compute; reflexivity).
  destruct (@BuildIndexData_index sample_libm sample_doc_order delta_store delta_storable delta_docs_wf) as (ix & r & g & t & E & M).
  pose proof delta_facts as F. rewrite E in F. destruct (index_facts_fit _ _ F) as [Fit _].
  unfold delta_index, built_index in *. rewrite E in *. cbn [default] in *.
  split; [by exists r, g, t; apply mi_index, M|exact delta_storable|exact delta_docs_wf|exact delta_documented|done|exact Ha].
Qed.

Definition no_vectors : list f32 -> Z -> Z -> list VectorSearchResult := fun _ _ _ => [].

Definition title_task : SearchTaskState :=
  {| task_query := [97%Z]; task_vector := []; task_streams := of_string "T"; task_top_k := 2; task_mode := ModeDefault; task_vector_ef_search := 10 |}.

Lemma context_search_top_k_witness :
  exists r all,
    converges (fun k => @rt_get_reader sample_libm no_vectors no_vectors (@from_context sample_context) k (@task_tree sample_tokenizer title_task)) r /\
    @visits sample_libm _ _ (@rt_GetDocDataEntry (from_context sample_context)) kWeakAndBigramParameters None r [0; 1; 2]%Z all.
Proof.
  destruct (@context_search_top_k sample_libm sample_tokenizer _ list_heap list_heap_spec no_vectors no_vectors kWeakAndBigramParameters
    sample_context base_store (Some delta_store)) with (task := title_task) as (r & all & Hr & Hv & _).
  - exact base_searchable.
  - exact delta_searchable.
  - intros q k ef. split; constructor.
  - intros q k ef. split; constructor.
  - vm_compute. reflexivity.
  - exists r, all. split; [exact Hr|]. 
    replace [0; 1; 2]%Z with (@rt_tree_docs sample_libm no_vectors no_vectors (from_context sample_context) base_store
      (default base_store (Some delta_store)) (@task_tree sample_tokenizer title_task)); [exact Hv|].
    vm_compute. reflexivity.
Defined.

(** The best two of the three documents, from both indexes. *)
Example title_search :
  option_map (map (fun r => ReaderDocumentIDValue (sr_doc_id r))) (@rt_ExecuteSearchTask sample_libm sample_tokenizer _ list_heap no_vectors no_vectors kWeakAndBigramParameters
    (from_context sample_context) 50 title_task) = Some [2; 1]%Z.
Proof. vm_compute. reflexivity. Qed.
