(* ===== verification/ContextReaders.v ===== *)
(** The readers that an IndexContext builds itself (IndexContext.rs: GetReader,
    BuildLocalReader, BuildIndexReader, OpenAdvancedReader, GetStreamReader), the
    second copy of the reader builder of SearchRuntime; and that both copies give
    the same readers. *)

From Stdlib Require Import Ascii String.
From Stdlib Require Import ZArith Lia ZifyBool Bool List.
From stdpp Require Import base list list_numbers.
From S2P Require Import Prelude Floats PostingStore FileFormat BlockCache Mphf TermDictionary PathSidecar DocData IndexReader Composites Unions ReaderTree AdvancedReader EvalExpression Executor Query QueryMeaning IndexBuilder IndexFile MergeStore Runtime.

Local Open Scope moon_scope.

Section context.
Context `{Libm}.
Implicit Types ctx : IndexContext.

(** [m_BlockTable]. *)
Definition ctx_table ctx : TermSource := @table_source (table_blocks (m_BlockTable (m_Index ctx))) (bt_Terms (m_BlockTable (m_Index ctx))).

(** [None]: an assertion of AdvancedIndexReader::Open fails. *)
Definition OpenAdvancedReader ctx (streamKey : bytes) (wordSpan : Z) : option TableReader :=
  let stream := default (chr "B") (last_char streamKey) in
  let header := m_IndexFileHeader (m_Index ctx) in
  let numDocuments := if (0 <? IFH_NumDocuments header)%Z then IFH_NumDocuments header else TotalDocs (m_Store ctx) in
  opt reader := @Open (ctx_table ctx) _ streamKey numDocuments (GetAverageStreamLength ctx stream)
    (ReaderSpanWeight (m_QueryParameters ctx) stream wordSpan) wordSpan in
  Some {| tr_Table := ctx_table ctx; tr_Reader := reader |}.

(** A reader on one key as a tree of [n] levels. *)
Definition open_tree ctx (n : nat) (key : bytes) (span : Z) : option (ReaderT TableReader n) :=
  opt l := OpenAdvancedReader ctx key span in Some (lift_leaf n l).

Definition ends {n} (r : ReaderT TableReader n) : bool := IsEnd r.

(** What FlattenWeakAndNodes asks of the block table. *)
Definition table_doc_freq ctx (key : bytes) : option Z := option_map doc_freq_ (@FindTermData (ctx_table ctx) key).

(** The children of a weak conjunction. *)
Definition weak_children ctx {n} (build : EvalNode -> option (ReaderT TableReader n)) (nodes : list EvalNode)
  : option (list (ReaderT TableReader n)) :=
  let flat := bool_decide (m_WeakAndBuildMode ctx = FlatPruned) in
  let childNodes := if flat then FlattenWeakAndNodes (table_doc_freq ctx) nodes (DocumentCount ctx) false else nodes in
  opt children := map_option build childNodes in
  let children := if bool_decide (m_WeakAndBuildMode ctx = OrChildren) then children else List.filter (fun r => negb (ends r)) children in
  if (length children =? 0) && flat then
    opt children := map_option build (FlattenWeakAndNodes (table_doc_freq ctx) nodes (DocumentCount ctx) true) in
    Some (List.filter (fun r => negb (ends r)) children)
  else Some children.

Definition min_should_match ctx (m : Z) (children : nat) : Z :=
  if bool_decide (m_WeakAndBuildMode ctx = FlatPruned) then if children <=? 2 then 1 else if children <=? 5 then 2 else 3
  else Z.min m (Z.of_nat children).

(** BuildIndexReader on a node; [n] bounds the depth and [fuel] is the readers'. *)
Fixpoint build_eval_node ctx (fuel n : nat) (node : EvalNode) : option (ReaderT TableReader n) :=
  match n with
  | O => match node with Term key span => open_tree ctx 0 key span | _ => None end
  | S n' =>
      let build := build_eval_node ctx fuel n' in
      match node with
      | Term key span => open_tree ctx (S n') key span
      | And nodes =>
          opt children := map_option build nodes in
          if existsb ends children then open_tree ctx (S n') [] 1
          else match children with
          | [child] => Some (NodeChild child)
          | _ => opt r := and_new fuel children in Some (NodeAnd r)
          end
      | Or nodes =>
          opt children := map_option build nodes in
          match List.filter (fun r => negb (ends r)) children with
          | [] => open_tree ctx (S n') [] 1
          | [child] => Some (NodeChild child)
          | children => Some (NodeOr (or_new children))
          end
      | WeakAnd nodes m =>
          opt children := weak_children ctx build nodes in
          match children with
          | [] => open_tree ctx (S n') [] 1
          | [child] => Some (NodeChild child)
          | _ => opt r := wa_new fuel children (min_should_match ctx m (length children)) in Some (NodeWeakAnd r)
          end
      | Not base exclude =>
          opt base := build base in
          opt exclude := build exclude in
          opt r := not_new fuel base exclude in Some (NodeNot r)
      | Boost base boost boost_weight =>
          opt base := build base in
          if ends base then Some (NodeChild base)
          else
            opt boost := build boost in
            if ends boost then Some (NodeChild base) else Some (NodeBoost (bo_new base boost boost_weight))
      end
  end.

Definition BuildIndexReader ctx (fuel n : nat) (node : option EvalNode) : option (ReaderT TableReader n) :=
  match node with None => open_tree ctx n [] 1 | Some node => build_eval_node ctx fuel n node end.

(** BuildVectorRuntime: the vector index is built over the records of the context, unless it is already;
    VectorRuntime models the building. *)
Definition BuildVectorRuntime ctx : IndexContext :=
  if m_VectorBuilt ctx then ctx
  else {| m_Store := m_Store ctx; m_Index := m_Index ctx; m_VectorBuilt := true; m_IndexPath := m_IndexPath ctx; m_Built := m_Built ctx;
          m_LoadedFromDisk := m_LoadedFromDisk ctx; m_LoadDelta := m_LoadDelta ctx; m_LeafTermCacheBytes := m_LeafTermCacheBytes ctx;
          m_QueryParameters := m_QueryParameters ctx; m_WeakAndBuildMode := m_WeakAndBuildMode ctx; m_DeltaContext := m_DeltaContext ctx;
          m_Write := m_Write ctx; m_WriteBuilt := m_WriteBuilt ctx |}.

(** The delta, which GetReader borrows. *)
Definition put_delta ctx (delta : IndexContext) : IndexContext :=
  {| m_Store := m_Store ctx; m_Index := m_Index ctx; m_VectorBuilt := m_VectorBuilt ctx; m_IndexPath := m_IndexPath ctx; m_Built := m_Built ctx;
     m_LoadedFromDisk := m_LoadedFromDisk ctx; m_LoadDelta := m_LoadDelta ctx; m_LeafTermCacheBytes := m_LeafTermCacheBytes ctx;
     m_QueryParameters := m_QueryParameters ctx; m_WeakAndBuildMode := m_WeakAndBuildMode ctx; m_DeltaContext := Some delta;
     m_Write := m_Write ctx; m_WriteBuilt := m_WriteBuilt ctx |}.

(** BuildVectorIndexReader, with the context it leaves; [search] is that of the built vector index. *)
Definition BuildVectorIndexReader ctx (search : VectorSearcher) (query : list f32) (efSearch : Z) : IndexContext * VectorIndexReader :=
  let ctx := BuildVectorRuntime ctx in
  (ctx, vr_new (index_search (m_VectorBuilt ctx) search query (Z.max efSearch 1) efSearch)).

Definition BuildLocalReader ctx (search : VectorSearcher) (fuel n : nat) (tree : EvalTree) : option (IndexContext * ReaderT TableReader (S n)) :=
  if IsEmpty tree then opt r := open_tree ctx (S n) [] 1 in Some (ctx, r)
  else if HasTextQuery tree && HasVectorQuery tree then
    opt r := BuildIndexReader ctx fuel n (root tree) in Some (ctx, NodeChild r)
  else if HasVectorQuery tree then
    let '(ctx, r) := BuildVectorIndexReader ctx search (vector_query tree) (vector_ef_search tree) in Some (ctx, NodeVector r)
  else opt r := BuildIndexReader ctx fuel n (root tree) in Some (ctx, NodeChild r).

(** GetReader, with the context it leaves; the searches are those of the context's vector index and of its delta's, once built. *)
Definition GetReader ctx (search delta_search : VectorSearcher) (fuel : nat) (tree : EvalTree)
  : option (IndexContext * ReaderT TableReader (S (S TREE_DEPTH))) :=
  if IsEmpty tree then opt r := open_tree ctx (S (S TREE_DEPTH)) [] 1 in Some (ctx, r)
  else
    opt base := BuildLocalReader ctx search fuel TREE_DEPTH tree in
    let '(ctx, baseReader) := base in
    match m_DeltaContext ctx with
    | Some delta =>
        if HasDelta ctx then
          opt local := BuildLocalReader delta delta_search fuel TREE_DEPTH tree in
          let '(delta, deltaReader) := local in
          Some (put_delta ctx delta, NodeOr (or_new [baseReader; deltaReader]))
        else Some (ctx, NodeChild baseReader)
    | None => Some (ctx, NodeChild baseReader)
    end.

(** GetStreamReader with BuildLocalStreamReader. *)
Definition BuildLocalStreamReader ctx (stream_key : bytes) : option TableReader := OpenAdvancedReader ctx stream_key 1.

Definition GetStreamReader ctx (stream_key : bytes) : option (ReaderT TableReader 1) :=
  opt baseReader := BuildLocalStreamReader ctx stream_key in
  match m_DeltaContext ctx with
  | Some delta =>
      if HasDelta ctx then opt deltaReader := BuildLocalStreamReader delta stream_key in Some (NodeOr (or_new [baseReader; deltaReader]))
      else Some (NodeChild baseReader)
  | None => Some (NodeChild baseReader)
  end.
End context.

(** * Both copies build the same readers *)

Section same.
Context `{Libm} (ctx : IndexContext).
Abbreviation rt := (from_context ctx).

Lemma OpenAdvancedReader_runtime key span : OpenAdvancedReader ctx key span = rt_open_advanced_reader rt key span.
Proof.
  unfold OpenAdvancedReader, rt_open_advanced_reader. set (stream := default (chr "B") (last_char key)).
  assert (Havg : average_of (rt_average_stream_lengths rt) (rt_header rt) stream = GetAverageStreamLength ctx stream).
  { destruct ctx. cbn [from_context rt_average_stream_lengths rt_header]. unfold average_of at 1. cbn [map nth].
    repeat match goal with |- context [(stream =? ?c)%Z] => destruct (Z.eqb_spec stream c) as [->|] end; try done.
    unfold GetAverageStreamLength, average_of. repeat (rewrite (proj2 (Z.eqb_neq _ _)) by done). done. }
  rewrite Havg. destruct ctx. reflexivity.
Qed.

Lemma open_tree_runtime n key span : open_tree ctx n key span = @open_advanced_reader TableReader (rt_leaves rt) n key span.
Proof. unfold open_tree. by rewrite OpenAdvancedReader_runtime. Qed.

Lemma map_option_ext {A B} (f g : A -> option B) l : (forall x, f x = g x) -> map_option f l = map_option g l.
Proof. intros Hfg. induction l as [|x l IH]; [done|]. cbn [map_option]. by rewrite Hfg, IH. Qed.

Lemma weak_children_runtime n (build build' : EvalNode -> option (ReaderT TableReader n)) nodes : (forall node, build node = build' node) ->
  weak_children ctx build nodes = @weak_and_children TableReader _ (rt_leaves rt) n build' nodes.
Proof.
  intros Hb. assert (Hdf : table_doc_freq ctx = @term_doc_freq TableReader (rt_leaves rt)) by (destruct ctx; reflexivity).
  assert (Hdc : DocumentCount ctx = @doc_count TableReader (rt_leaves rt)) by (destruct ctx; reflexivity).
  assert (Hm : m_WeakAndBuildMode ctx = @weak_and_build_mode TableReader (rt_leaves rt)) by (destruct ctx; reflexivity).
  unfold weak_children, weak_and_children. rewrite Hdf, Hdc, Hm. rewrite !(fun l => map_option_ext build build' l Hb).
  assert (Hend : forall l : list (ReaderT TableReader n), List.filter (fun r => negb (ends r)) l = List.filter not_end l) by done.
  destruct weak_and_build_mode.
  - change (bool_decide (FlatPruned = FlatPruned)) with true. change (bool_decide (FlatPruned = OrChildren)) with false. cbv iota.
    destruct (map_option build' _) as [children|]; [|done]. rewrite andb_true_r, Hend. by destruct (List.filter not_end children).
  - change (bool_decide (OrChildren = FlatPruned)) with false. change (bool_decide (OrChildren = OrChildren)) with true. cbv iota.
    destruct (map_option build' _) as [children|]; [|done]. by rewrite andb_false_r.
  - change (bool_decide (OrChildrenPruned = FlatPruned)) with false. change (bool_decide (OrChildrenPruned = OrChildren)) with false. cbv iota.
    destruct (map_option build' _) as [children|]; [|done]. by rewrite andb_false_r, Hend.
Qed.

Lemma min_should_match_runtime m k : min_should_match ctx m k = @weak_and_threshold TableReader (rt_leaves rt) m k.
Proof.
  assert (Hm : m_WeakAndBuildMode ctx = @weak_and_build_mode TableReader (rt_leaves rt)) by (destruct ctx; reflexivity).
  unfold min_should_match, weak_and_threshold. rewrite Hm. by destruct weak_and_build_mode.
Qed.

Lemma build_eval_node_runtime fuel n node : build_eval_node ctx fuel n node = @build_node TableReader _ (rt_leaves rt) fuel n node.
Proof.
  revert node. induction n as [|n IH]; intros node; destruct node as [key span|nodes|nodes|base exclude|nodes m|base boost w]; cbn [build_eval_node build_node];
    rewrite ?open_tree_runtime; try done.
  - rewrite (map_option_ext _ _ nodes IH). done.
  - rewrite (map_option_ext _ _ nodes IH). done.
  - by rewrite !IH.
  - rewrite (weak_children_runtime _ _ _ nodes IH). destruct (weak_and_children _ _) as [[|c [|c' l]]|]; try done. by rewrite min_should_match_runtime.
  - by rewrite !IH.
Qed.

Lemma BuildIndexReader_runtime fuel n node : BuildIndexReader ctx fuel n node = @build_index_reader TableReader _ (rt_leaves rt) fuel n node.
Proof. destruct node; cbn; [apply build_eval_node_runtime|apply open_tree_runtime]. Qed.

End same.

Section runtime_same.
Context `{Libm}.
Implicit Types ctx : IndexContext.

(** What BuildLocalReader leaves of a context. *)
Definition local_ready ctx tree : IndexContext := if vector_only tree then BuildVectorRuntime ctx else ctx.

Lemma BuildVectorRuntime_built ctx : m_VectorBuilt (BuildVectorRuntime ctx) = true.
Proof. unfold BuildVectorRuntime. by destruct (m_VectorBuilt ctx) eqn:E. Qed.

Lemma BuildLocalReader_runtime ctx search fuel n tree :
  BuildLocalReader ctx search fuel n tree =
  option_map (pair (local_ready ctx tree)) (@build_local_reader TableReader _ (rt_leaves (from_context ctx)) search fuel n tree).
Proof.
  unfold BuildLocalReader, build_local_reader, local_ready, vector_only, IsEmpty. rewrite open_tree_runtime, BuildIndexReader_runtime.
  destruct (HasTextQuery tree), (HasVectorQuery tree); cbn [negb andb].
  - by destruct (build_index_reader _ _ _).
  - by destruct (build_index_reader _ _ _).
  - unfold BuildVectorIndexReader. rewrite BuildVectorRuntime_built. reflexivity.
  - by destruct (open_advanced_reader _ _ _).
Qed.

(** What GetReader leaves of a context: a tree without text has the vector indexes built. *)
Definition readied ctx tree : IndexContext :=
  let ctx := local_ready ctx tree in
  match m_DeltaContext ctx with
  | Some delta => if vector_only tree && HasDelta ctx then put_delta ctx (BuildVectorRuntime delta) else ctx
  | None => ctx
  end.

Lemma local_ready_eq ctx tree : m_DeltaContext (local_ready ctx tree) = m_DeltaContext ctx /\ HasDelta (local_ready ctx tree) = HasDelta ctx.
Proof. unfold local_ready, BuildVectorRuntime. destruct (vector_only tree), (m_VectorBuilt ctx); done. Qed.

Lemma put_delta_same ctx delta : m_DeltaContext ctx = Some delta -> put_delta ctx delta = ctx.
Proof. intros E. destruct ctx. cbn in E. by rewrite E. Qed.

(** A tree that is not empty: the reader of the runtime, whose vector indexes are built when they are asked. *)
Lemma GetReader_eq ctx search delta_search fuel tree :
  GetReader ctx search delta_search fuel tree =
  option_map (pair (readied ctx tree)) (rt_get_reader search delta_search (from_context ctx) fuel tree).
Proof.
  unfold GetReader, rt_get_reader, get_reader. rewrite open_tree_runtime, BuildLocalReader_runtime.
  destruct (IsEmpty tree) eqn:Ee.
  { assert (readied ctx tree = ctx) as ->.
    { unfold readied, local_ready, IsEmpty, vector_only in *. destruct (HasTextQuery tree), (HasVectorQuery tree); try done.
      cbn. by destruct (m_DeltaContext ctx). }
    by destruct (open_advanced_reader _ _ _). }
  destruct (build_local_reader _ _ _ _) as [b|]; [|done]. cbn [option_map option_bind].
  destruct (local_ready_eq ctx tree) as [Ed Eh].
  assert (Hd : rt_delta (from_context ctx) = if HasDelta ctx then option_map from_context (m_DeltaContext ctx) else None) by (by destruct ctx; cbn; destruct m_DeltaContext).
  rewrite Hd, Eh. unfold readied. rewrite Ed, Eh. destruct (m_DeltaContext ctx) as [delta|] eqn:Edelta.
  2:{ unfold HasDelta. by rewrite Edelta. }
  destruct (HasDelta ctx); [|by rewrite andb_false_r]. cbn [option_map]. rewrite BuildLocalReader_runtime, andb_true_r.
  destruct (build_local_reader _ _ _ _) as [dr|]; [|done]. cbn [option_map option_bind]. unfold local_ready.
  destruct (vector_only tree); [done|]. by rewrite put_delta_same.
Qed.
End runtime_same.

(** * What the readers read *)

(** The documents of a key in the store and in that of the delta. *)
Definition stream_docs (base : PostingStore) (delta : option PostingStore) (key : bytes) : list Z :=
  match delta with Some store => at_least 1 [key_docs base key; key_docs store key] | None => key_docs base key end.

Section reads.
Context `{Libm} (ctx : IndexContext) (base : PostingStore) (delta : option PostingStore).
Hypothesis Hbase : searchable_index (m_Index ctx) base.
Hypothesis Hdelta : match m_DeltaContext ctx, delta with
  | Some d, Some store => searchable_index (m_Index d) store | None, None => True | _, _ => False end.

Lemma stream_reader_ok (c : IndexContext) store key : searchable_index (m_Index c) store ->
  exists l, BuildLocalStreamReader c key = Some l /\ reads l (key_docs store key).
Proof.
  intros Hs. unfold BuildLocalStreamReader. rewrite OpenAdvancedReader_runtime.
  apply (open_leaf_reads (LeafReadersSpec := rt_leaves_spec _ _ (from_context_searches c store Hs)) key 1).
Qed.

Lemma GetStreamReader_ok key : exists r, GetStreamReader ctx key = Some r /\ reads r (stream_docs base delta key).
Proof.
  unfold GetStreamReader, stream_docs, HasDelta. destruct (stream_reader_ok ctx base key Hbase) as (b & -> & Hb).
  destruct (m_DeltaContext ctx) as [d|], delta as [store|]; try done; [|by exists (NodeChild b)].
  unfold DocumentCount. rewrite (proj2 (Z.ltb_lt _ _) (searchable_has_documents _ _ Hdelta)).
  destruct (stream_reader_ok d store key Hdelta) as (dr & -> & Hdr). exists (NodeOr (or_new [b; dr])). split; [done|].
  assert (Hcs : Forall2 reads [b; dr] [key_docs base key; key_docs store key]) by (by repeat constructor).
  apply (or_refresh_reads _ _ _ (initial_cursors_ok _ _ Hcs)).
  eapply denotes_iff; [|apply at_least_denotes; exact (reads_all_docs _ _ Hcs)]. cbn beta. intros x. lia.
Qed.

Context (VectorSearch DeltaVectorSearch : list f32 -> Z -> Z -> list VectorSearchResult).
Hypothesis Hfind : finds_documents VectorSearch base.
Hypothesis Hdfind : finds_documents DeltaVectorSearch (default base delta).

Lemma GetReader_ok tree : IsEmpty tree = false -> (forall node, root tree = Some node -> depth node <= TREE_DEPTH) ->
  exists r, converges (fun k => GetReader ctx VectorSearch DeltaVectorSearch k tree) (readied ctx tree, r) /\
    reads r (rt_tree_docs VectorSearch DeltaVectorSearch (from_context ctx) base (default base delta) tree).
Proof.
  intros Hne Hdepth. pose proof (from_context_searches ctx base Hbase) as Hb.
  pose proof (from_context_delta ctx delta Hdelta) as Hd.
  destruct (get_reader_ok (rt_leaves (from_context ctx)) (option_map rt_leaves (rt_delta (from_context ctx))) VectorSearch DeltaVectorSearch
    (key_docs base) (key_docs (default base delta))) with (tree := tree) as (r & Hc & Hr).
  - by apply rt_leaves_spec.
  - exact (rt_leaves_delta DeltaVectorSearch _ base delta Hd Hdfind).
  - by apply (finds_ok _ base), Hfind; apply Hb.
  - apply (finds_ok _ (default base delta)); [exact (rt_delta_docs DeltaVectorSearch _ base delta Hb Hd Hdfind)|done].
  - done.
  - done.
  - exists r. split; [|exact Hr]. destruct Hc as [n Hc]. exists n. intros k Hk.
    rewrite GetReader_eq. unfold rt_get_reader. by rewrite Hc.
Qed.

Lemma GetReader_text built delta_built fuel tree : vector_only tree = false ->
  GetReader ctx VectorSearch DeltaVectorSearch fuel tree =
  option_map (pair ctx) (rt_get_reader (index_search built VectorSearch) (index_search delta_built DeltaVectorSearch) (from_context ctx) fuel tree).
Proof.
  intros Ht. rewrite GetReader_eq. unfold rt_get_reader.
  rewrite (rt_get_reader_text _ VectorSearch DeltaVectorSearch (index_search built VectorSearch) (index_search delta_built DeltaVectorSearch)) by done.
  do 2 f_equal. unfold readied, local_ready. rewrite Ht. by destruct (m_DeltaContext ctx).
Qed.

(** A delta has documents, so that its index is built with the context's. *)
Lemma readied_built tree : vector_only tree = true ->
  m_VectorBuilt (readied ctx tree) = true /\ delta_vector_built (readied ctx tree) = bool_decide (is_Some (m_DeltaContext ctx)) /\
  from_context (readied ctx tree) = from_context ctx.
Proof.
  intros Ht. unfold readied, local_ready. rewrite Ht. destruct (local_ready_eq ctx tree) as [Ed Eh]. unfold local_ready in Ed, Eh. rewrite Ht in Ed, Eh.
  rewrite Ed, Eh. unfold delta_vector_built. destruct (m_DeltaContext ctx) as [d|] eqn:E; cbn [andb].
  - assert (HasDelta ctx = true) as Hh.
    { unfold HasDelta, DocumentCount. rewrite E. destruct delta as [store|]; [|done]. apply Z.ltb_lt. by eapply searchable_has_documents. }
    rewrite Hh. split; [apply BuildVectorRuntime_built|]. split; [cbn; apply BuildVectorRuntime_built|].
    assert (Hfd : forall c, from_context (BuildVectorRuntime c) = from_context c) by (intros c; unfold BuildVectorRuntime; by destruct (m_VectorBuilt c), c).
    rewrite <- (Hfd ctx). unfold BuildVectorRuntime in *. clear - E Hfd.
    destruct ctx as [? ? vb ? ? ? ? ? ? ? dc ? ?]. cbn in E |- *. subst dc. destruct vb; cbn; rewrite Hfd; by destruct d as [? ? [] ? ? ? ? ? ? ? ? ? ?].
  - split; [apply BuildVectorRuntime_built|]. rewrite Ed. split; [done|]. unfold BuildVectorRuntime. by destruct (m_VectorBuilt ctx), ctx.
Qed.

Lemma GetReader_vector fuel tree : vector_only tree = true -> exists ctx',
  GetReader ctx VectorSearch DeltaVectorSearch fuel tree =
    option_map (pair ctx') (rt_get_reader (index_search (m_VectorBuilt ctx') VectorSearch)
      (index_search (delta_vector_built ctx') DeltaVectorSearch) (from_context ctx) fuel tree) /\
  m_VectorBuilt ctx' = true /\ delta_vector_built ctx' = bool_decide (is_Some (m_DeltaContext ctx)) /\
  from_context ctx' = from_context ctx.
Proof.
  intros Ht. destruct (readied_built tree Ht) as (Hb & Hdb & Hrt). exists (readied ctx tree). split; [|done]. rewrite GetReader_eq, Hb, Hdb.
  destruct (m_DeltaContext ctx) as [d|] eqn:E; [by rewrite bool_decide_eq_true_2 by by eexists|].
  unfold rt_get_reader, get_reader. replace (rt_delta (from_context ctx)) with (@None SearchRuntime); [done|].
  destruct ctx. cbn in E |- *. by rewrite E.
Qed.

End reads.

(** IndexContext::GetReaderForQuery, with Compile; [model] is the embedding model of the vector index. *)
Definition ctx_Compile `{Tokenizer} (model : EmbeddingModel) (query stream_set : bytes) : EvalTree :=
  CompileWithEmbeddingModel query stream_set (Some model) ModeDefault.

Definition GetReaderForQuery `{Libm, Tokenizer} (model : EmbeddingModel) (ctx : IndexContext)
    (search delta_search : list f32 -> Z -> Z -> list VectorSearchResult) (fuel : nat) (query stream_set : bytes) :=
  GetReader ctx search delta_search fuel (ctx_Compile model query stream_set).

(** * Witness *)

