(* ===== verification/SearchQueue.v ===== *)
(** The search workers of a context (IndexContext.rs: EnqueueWithMode,
    EnsureSearchWorkersStarted, StopSearchWorkers, SearchWorkerLoop,
    SearchTask::Wait): sixteen threads that share a queue under one mutex and one
    condition variable, the runtime they were started with, and the channels on
    which they answer. What a worker does with a task is rt_ExecuteSearchTask of
    Runtime. *)

From Stdlib Require Import Ascii String.
From Stdlib Require Import ZArith Lia ZifyBool Bool List.
From stdpp Require Import base list list_numbers relations.
From S2P Require Import Prelude Threads Floats PostingStore FileFormat BlockCache DocData IndexReader Composites ReaderTree EvalExpression Executor Query QueryMeaning IndexBuilder IndexFile MergeStore Runtime.

Local Open Scope moon_scope.

(** What the receiver of a task finds: nothing yet, the results, or a sender that
    is gone because the worker panicked. *)
Inductive Reply := Pending | Sent (results : list SearchResult) | Dropped.

(** SearchTask::Wait; [None]: [recv] blocks. *)
Definition Wait (reply : Reply) : option (list SearchResult) :=
  match reply with Pending => None | Sent results => Some results | Dropped => Some [] end.

(** Where a worker is: about to lock the queue; asleep in [cv.wait]; executing a
    task; returned or panicked. *)
Inductive Worker := Looking | Asleep | Executing (r : nat) | Gone.

(** Where the thread that owns the context is: in no call; spawning workers, with
    that many to go; about to push a task; about to notify; with [stop] set, about
    to notify all; joining. *)
Inductive Client := Idle | Spawning (n : nat) (task : SearchTaskState) | Pushing (task : SearchTaskState) | Notifying | Stopping | Joining.

#[export] Instance Worker_eq : EqDecision Worker.
Proof. solve_decision. Defined.

Definition SEARCH_WORKERS : nat := 16.

(** The task of EnqueueWithMode. *)
Definition queued_task (query : bytes) (vector : list f32) (streams : bytes) (top_k : Z) (mode : QueryCompileMode)
    (vector_ef_search : Z) : SearchTaskState :=
  {| task_query := query; task_vector := vector; task_streams := match streams with [] => of_string "AUTB" | _ => streams end;
     task_top_k := top_k; task_mode := mode; task_vector_ef_search := vector_ef_search |}.

Definition sleeping (w : Worker) : bool := match w with Asleep => true | _ => false end.
Definition woken (w : Worker) : Worker := match w with Asleep => Looking | w => w end.

Section queue.
(** [Rt] is SearchRuntime; [executes rt task out]: ExecuteSearchTask returns the
    results, or panics ([None]). *)
Context {Rt : Type} (executes : Rt -> SearchTaskState -> option (list SearchResult) -> Prop).

(** A task, the runtime that its caller's context had, and its channel. *)
Record Ticket := { tk_task : SearchTaskState; tk_runtime : Rt; tk_reply : Reply }.

(** Tasks in the queue are named by their index in [tickets]. [context] is what
    SearchRuntime::from_context gives of the owner's context, [runtime] what the
    workers were started with. *)
Record SearchQueueState := {
  queue : list nat;
  stop : bool;
  m_SearchWorkers : list Worker;
  runtime : Rt;
  context : Rt;
  tickets : list Ticket;
  client : Client;
}.

Definition queue_new (rt : Rt) : SearchQueueState :=
  {| queue := []; stop := false; m_SearchWorkers := []; runtime := rt; context := rt; tickets := []; client := Idle |}.

Definition with_workers (s : SearchQueueState) (l : list Worker) : SearchQueueState :=
  {| queue := queue s; stop := stop s; m_SearchWorkers := l; runtime := runtime s; context := context s; tickets := tickets s; client := client s |}.
Definition with_client (s : SearchQueueState) (c : Client) : SearchQueueState :=
  {| queue := queue s; stop := stop s; m_SearchWorkers := m_SearchWorkers s; runtime := runtime s; context := context s; tickets := tickets s; client := c |}.
Definition with_queue (s : SearchQueueState) (q : list nat) : SearchQueueState :=
  {| queue := q; stop := stop s; m_SearchWorkers := m_SearchWorkers s; runtime := runtime s; context := context s; tickets := tickets s; client := client s |}.
Definition with_stop (s : SearchQueueState) (b : bool) : SearchQueueState :=
  {| queue := queue s; stop := b; m_SearchWorkers := m_SearchWorkers s; runtime := runtime s; context := context s; tickets := tickets s; client := client s |}.
Definition with_tickets (s : SearchQueueState) (l : list Ticket) : SearchQueueState :=
  {| queue := queue s; stop := stop s; m_SearchWorkers := m_SearchWorkers s; runtime := runtime s; context := context s; tickets := l; client := client s |}.
Definition with_runtime (s : SearchQueueState) (rt : Rt) : SearchQueueState :=
  {| queue := queue s; stop := stop s; m_SearchWorkers := m_SearchWorkers s; runtime := rt; context := context s; tickets := tickets s; client := client s |}.
Definition with_context (s : SearchQueueState) (rt : Rt) : SearchQueueState :=
  {| queue := queue s; stop := stop s; m_SearchWorkers := m_SearchWorkers s; runtime := runtime s; context := rt; tickets := tickets s; client := client s |}.

Definition answer (tk : Ticket) (reply : Reply) : Ticket := {| tk_task := tk_task tk; tk_runtime := tk_runtime tk; tk_reply := reply |}.

(** * The turns of the workers *)

(** The critical section of SearchWorkerLoop: the loop on the condition, the exit, the [pop_front]. *)
Definition look (i : nat) (s : SearchQueueState) : SearchQueueState :=
  match queue s with
  | [] => with_workers s (<[i := if stop s then Gone else Asleep]> (m_SearchWorkers s))
  | r :: q => with_workers (with_queue s q) (<[i := Executing r]> (m_SearchWorkers s))
  end.

(** The task is done: [send] the results, or unwind and drop the sender. *)
Definition finish (i r : nat) (tk : Ticket) (out : option (list SearchResult)) (s : SearchQueueState) : SearchQueueState :=
  match out with
  | Some results => with_tickets (with_workers s (<[i := Looking]> (m_SearchWorkers s))) (<[r := answer tk (Sent results)]> (tickets s))
  | None => with_tickets (with_workers s (<[i := Gone]> (m_SearchWorkers s))) (<[r := answer tk Dropped]> (tickets s))
  end.

(** [notify_one] wakes some sleeper, none only when nobody sleeps. *)
Definition notify_one (who : option nat) (s : SearchQueueState) : option SearchQueueState :=
  match who with
  | None => if existsb sleeping (m_SearchWorkers s) then None else Some s
  | Some i =>
      opt w := m_SearchWorkers s !! i in
      if sleeping w then Some (with_workers s (<[i := Looking]> (m_SearchWorkers s))) else None
  end.

(** * The calls of the owner *)

(** EnsureSearchWorkersStarted, up to the loop that spawns. *)
Definition EnsureSearchWorkersStarted (worker_count : nat) (task : SearchTaskState) (s : SearchQueueState) : SearchQueueState :=
  match m_SearchWorkers s with
  | _ :: _ => with_client s (Pushing task)
  | [] => with_client (with_stop (with_runtime s (context s)) false) (Spawning (Nat.max worker_count 1) task)
  end.

Definition EnqueueWithMode (query : bytes) (vector : list f32) (streams : bytes) (top_k : Z) (mode : QueryCompileMode)
    (vector_ef_search : Z) (s : SearchQueueState) : SearchQueueState :=
  EnsureSearchWorkersStarted SEARCH_WORKERS (queued_task query vector streams top_k mode vector_ef_search) s.

Definition Enqueue (query : bytes) (vector : list f32) (streams : bytes) (top_k : Z) (s : SearchQueueState) : SearchQueueState :=
  EnqueueWithMode query vector streams top_k WeakAndBigramBoostForDoc 1000 s.

Definition StopSearchWorkers (s : SearchQueueState) : SearchQueueState :=
  match m_SearchWorkers s with
  | [] => s
  | _ :: _ => with_client (with_stop s true) Stopping
  end.

(** The steps inside those calls; [who] is whom [notify_one] wakes. *)
Definition client_turn (who : option nat) (s : SearchQueueState) : option SearchQueueState :=
  match client s with
  | Idle => None
  | Spawning (S n) task => Some (with_client (with_workers s (m_SearchWorkers s ++ [Looking])) (Spawning n task))
  | Spawning O task => Some (with_client s (Pushing task))
  | Pushing task =>
      Some (with_client (with_queue (with_tickets s (tickets s ++ [{| tk_task := task; tk_runtime := context s; tk_reply := Pending |}]))
        (queue s ++ [length (tickets s)])) Notifying)
  | Notifying => notify_one who (with_client s Idle)
  | Stopping => Some (with_client (with_workers s (map woken (m_SearchWorkers s))) Joining)
  | Joining => if forallb (fun w => bool_decide (w = Gone)) (m_SearchWorkers s) then Some (with_client (with_workers s []) Idle) else None
  end.

Inductive turn (s : SearchQueueState) : SearchQueueState -> Prop :=
  | worker_looks i : m_SearchWorkers s !! i = Some Looking -> turn s (look i s)
  | worker_finishes i r tk out : m_SearchWorkers s !! i = Some (Executing r) -> tickets s !! r = Some tk ->
      executes (runtime s) (tk_task tk) out -> turn s (finish i r tk out s)
  | client_moves who s' : client_turn who s = Some s' -> turn s s'.

(** [valid rt task]: the tasks considered. The methods that replace the parts of the context that a runtime
    shares stop the workers first. Only BuildVectorRuntime, of the owner's GetReader or of its delta's Build,
    writes to what running workers read, the vector index of the delta: [executes] allows for it
    ([executes_task] below). *)
Context (valid : Rt -> SearchTaskState -> Prop).

Inductive action (s : SearchQueueState) : SearchQueueState -> Prop :=
  | act_turn s' : turn s s' -> action s s'
  | act_enqueue query vector streams top_k mode ef :
      client s = Idle -> valid (context s) (queued_task query vector streams top_k mode ef) ->
      action s (EnqueueWithMode query vector streams top_k mode ef s)
  | act_stop : client s = Idle -> action s (StopSearchWorkers s)
  | act_change rt : client s = Idle -> m_SearchWorkers s = [] -> action s (with_context s rt)
  | act_spurious i : m_SearchWorkers s !! i = Some Asleep -> action s (with_workers s (<[i := Looking]> (m_SearchWorkers s))).

Definition reachable (s : SearchQueueState) : Prop := exists rt, rtc action (queue_new rt) s.

Definition stuck (s : SearchQueueState) : Prop := forall s', ~ turn s s'.

(** * The invariant, when no valid task panics *)

Hypothesis valid_returns : forall rt task out, valid rt task -> executes rt task out -> is_Some out.

Definition is_looking (w : Worker) : nat := match w with Looking => 1 | _ => 0 end.
Definition looking (s : SearchQueueState) : nat := sum_by is_looking (m_SearchWorkers s).
Definition executing (s : SearchQueueState) (r : nat) : Prop := exists i, m_SearchWorkers s !! i = Some (Executing r).

(** Workers that run with the runtime of the context. *)
Definition started (s : SearchQueueState) : Prop := m_SearchWorkers s <> [] /\ stop s = false /\ runtime s = context s.

Definition client_ok (s : SearchQueueState) : Prop :=
  match client s with
  | Idle => m_SearchWorkers s = [] /\ queue s = [] \/ started s
  | Spawning n task => queue s = [] /\ stop s = false /\ runtime s = context s /\ (n = 0 -> m_SearchWorkers s <> []) /\ valid (context s) task
  | Pushing task => started s /\ valid (context s) task
  | Notifying => started s
  | Stopping => stop s = true /\ m_SearchWorkers s <> []
  | Joining => stop s = true /\ m_SearchWorkers s <> [] /\ existsb sleeping (m_SearchWorkers s) = false
  end.

Definition ticket_ok (s : SearchQueueState) (tk : Ticket) : Prop :=
  valid (tk_runtime tk) (tk_task tk) /\
  match tk_reply tk with
  | Pending => tk_runtime tk = runtime s
  | Sent results => executes (tk_runtime tk) (tk_task tk) (Some results)
  | Dropped => False
  end.

Record queue_ok (s : SearchQueueState) : Prop := {
  qk_nodup : NoDup (queue s);
  qk_once : forall r, executing s r -> r ∉ queue s;
  qk_apart : forall i j r, m_SearchWorkers s !! i = Some (Executing r) -> m_SearchWorkers s !! j = Some (Executing r) -> i = j;
  qk_where : forall r, r ∈ queue s \/ executing s r <-> exists tk, tickets s !! r = Some tk /\ tk_reply tk = Pending;
  qk_ticket : forall r tk, tickets s !! r = Some tk -> ticket_ok s tk;
  qk_wake : existsb sleeping (m_SearchWorkers s) = true ->
    length (queue s) <= looking s + match client s with Notifying => 1 | _ => 0 end;
  qk_gone : forall i, m_SearchWorkers s !! i = Some Gone -> stop s = true /\ queue s = [];
  qk_client : client_ok s;
}.

Lemma queue_new_ok rt : queue_ok (queue_new rt).
Proof.
  constructor; cbn; try done.
  - constructor.
  - intros r [i Hi]. done.
  - intros r. split; [intros [Hr|[i Hi]]; [by apply elem_of_nil in Hr|done]|]. intros (tk & Hr & _). by rewrite lookup_nil in Hr.
  - by left.
Qed.

Lemma sleeping_insert l i w x : l !! i = Some x -> sleeping w = false ->
  existsb sleeping (<[i := w]> l) = true -> existsb sleeping l = true.
Proof.
  intros Hi Hw (y & Hy & Hs)%existsb_exists. apply list_elem_of_In, list_elem_of_lookup in Hy as [j Hj].
  destruct (lookup_replaced _ _ _ _ _ _ Hi Hj) as [[-> ->]|[_ Hy]]; [congruence|]. apply existsb_exists. exists y. split; [|done].
  apply list_elem_of_In, list_elem_of_lookup. by exists j.
Qed.

Lemma insert_nonempty {A} (l : list A) i x : l <> [] -> <[i := x]> l <> [].
Proof. intros Hl H. apply Hl, length_zero_iff_nil. by rewrite <- (length_insert l i x), H. Qed.

Section preservation.
Context (s : SearchQueueState) (Hok : queue_ok s).

Lemma worker_in i w : m_SearchWorkers s !! i = Some w -> m_SearchWorkers s <> [].
Proof. intros Hi E. by rewrite E in Hi. Qed.

(** A worker that is neither asleep nor done takes a place that is neither. *)
Lemma client_insert i w x : m_SearchWorkers s !! i = Some x -> sleeping w = false ->
  client_ok (with_workers s (<[i := w]> (m_SearchWorkers s))).
Proof.
  intros Hi Hw. pose proof (qk_client _ Hok) as Hc. pose proof (worker_in _ _ Hi) as Hne.
  assert (Hne' : <[i := w]> (m_SearchWorkers s) <> []) by (by apply insert_nonempty).
  unfold client_ok, started in *. cbn. destruct (client s); cbn; try tauto.
  destruct Hc as (? & ? & Hf). split; [done|]. split; [done|]. apply not_true_is_false. intros Ht.
    rewrite (sleeping_insert _ _ _ _ Hi Hw Ht) in Hf. done.
Qed.

Lemma look_ok i : m_SearchWorkers s !! i = Some Looking -> queue_ok (look i s).
Proof.
  intros Hi. assert (Hlt := lookup_lt_Some _ _ _ Hi). pose proof (qk_client _ Hok) as Hc. pose proof (worker_in _ _ Hi) as Hne.
  unfold look. destruct (queue s) as [|r q] eqn:Hq.
  - set (w := if stop s then Gone else Asleep).
    assert (Hex : forall r, executing (with_workers s (<[i := w]> (m_SearchWorkers s))) r <-> executing s r).
    { intros r. split; intros [j Hj]; cbn in *.
      - destruct (lookup_replaced _ _ _ _ _ _ Hi Hj) as [[-> E]|[_ Hj']]; [unfold w in E; by destruct (stop s)|by exists j].
      - exists j. cbn. rewrite list_lookup_insert_ne; [done|]. intros <-. congruence. }
    constructor; cbn [with_workers queue stop m_SearchWorkers runtime context tickets client].
    + rewrite Hq. constructor.
    + intros r _. rewrite Hq. apply not_elem_of_nil.
    + intros j k r Hj Hk. destruct (lookup_replaced _ _ _ _ _ _ Hi Hj) as [[-> E]|[_ Hj']]; [unfold w in E; by destruct (stop s)|].
      destruct (lookup_replaced _ _ _ _ _ _ Hi Hk) as [[-> E]|[_ Hk']]; [unfold w in E; by destruct (stop s)|]. by eapply qk_apart.
    + intros r. rewrite Hex. apply (qk_where _ Hok).
    + apply (qk_ticket _ Hok).
    + rewrite Hq. cbn. lia.
    + intros j Hj. destruct (lookup_replaced _ _ _ _ _ _ Hi Hj) as [[-> E]|[_ Hj']]; [|by apply (qk_gone _ Hok j)].
      unfold w in E. by destruct (stop s).
    + assert (Hne' : <[i := w]> (m_SearchWorkers s) <> []) by (by apply insert_nonempty).
      unfold client_ok, started in *. cbn. destruct (client s); cbn; try tauto.
      destruct Hc as (Hs & _ & Hf). split; [done|]. split; [done|]. apply not_true_is_false. intros Ht.
        assert (Hw : sleeping w = false) by (unfold w; by rewrite Hs). by rewrite (sleeping_insert _ _ _ _ Hi Hw Ht) in Hf.
  - pose proof (qk_nodup _ Hok) as Hnd. rewrite Hq in Hnd. apply NoDup_cons in Hnd as [Hnin Hnd].
    assert (Hr : ~ executing s r) by (intros Hx; apply (qk_once _ Hok r Hx); rewrite Hq; left).
    assert (Hex : forall r', executing (with_workers (with_queue s q) (<[i := Executing r]> (m_SearchWorkers s))) r' <-> r' = r \/ executing s r').
    { intros r'. split; [intros [j Hj]|intros [->|[j Hj]]]; cbn in *.
      - destruct (lookup_replaced _ _ _ _ _ _ Hi Hj) as [[-> E]|[_ Hj']]; [left; congruence|right; by exists j].
      - exists i. cbn. by rewrite list_lookup_insert_eq.
      - exists j. cbn. rewrite list_lookup_insert_ne; [done|]. intros <-. congruence. }
    constructor; cbn [with_workers with_queue queue stop m_SearchWorkers runtime context tickets client].
    + done.
    + intros r' [->|Hx]%Hex; [done|]. intros Hin. apply (qk_once _ Hok r' Hx). rewrite Hq. by right.
    + intros j k r' Hj Hk. destruct (lookup_replaced _ _ _ _ _ _ Hi Hj) as [[-> E]|[_ Hj']], (lookup_replaced _ _ _ _ _ _ Hi Hk) as [[-> E']|[_ Hk']]; try done.
      * injection E as ->. exfalso. apply Hr. by exists k.
      * injection E' as ->. exfalso. apply Hr. by exists j.
      * by eapply qk_apart.
    + intros r'. rewrite Hex, <- (qk_where _ Hok r'), Hq, elem_of_cons. tauto.
    + apply (qk_ticket _ Hok).
    + intros Ht. pose proof (qk_wake _ Hok (sleeping_insert _ _ (Executing r) _ Hi eq_refl Ht)) as Hl. rewrite Hq in Hl. cbn [length] in Hl.
      unfold looking in *. cbn. pose proof (sum_by_insert is_looking _ _ _ (Executing r) Hi) as Hsum. cbn in Hsum. lia.
    + intros j Hj. destruct (lookup_replaced _ _ _ _ _ _ Hi Hj) as [[-> E]|[_ Hj']]; [done|]. destruct (qk_gone _ Hok j Hj') as [_ H]. congruence.
    + pose proof (client_insert i (Executing r) Looking Hi eq_refl) as H. unfold client_ok, started in *. cbn in *. rewrite Hq in H.
      destruct (client s); cbn in *; try tauto; [|destruct H; congruence]. destruct H as [[_ ?]|?]; [congruence|by right].
Qed.
Lemma executing_pending i r : m_SearchWorkers s !! i = Some (Executing r) -> exists tk, tickets s !! r = Some tk /\ tk_reply tk = Pending.
Proof. intros Hi. apply (qk_where _ Hok r). right. by exists i. Qed.

(** What a finished task was run on, and its results. *)
Lemma finish_out i r tk out : m_SearchWorkers s !! i = Some (Executing r) -> tickets s !! r = Some tk -> executes (runtime s) (tk_task tk) out ->
  tk_runtime tk = runtime s /\ exists results, out = Some results.
Proof.
  intros Hi Htk Hex. destruct (executing_pending i r Hi) as (tk' & Htk' & Hp). rewrite Htk in Htk'. injection Htk' as <-.
  destruct (qk_ticket _ Hok r tk Htk) as [Hv Hr]. rewrite Hp in Hr. split; [done|]. rewrite Hr in Hv. by apply (valid_returns _ _ _ Hv Hex).
Qed.

Lemma finish_ok i r tk results : m_SearchWorkers s !! i = Some (Executing r) -> tickets s !! r = Some tk -> tk_runtime tk = runtime s ->
  executes (runtime s) (tk_task tk) (Some results) -> queue_ok (finish i r tk (Some results) s).
Proof.
  intros Hi Htk Hrt Hexec. assert (Hlt := lookup_lt_Some _ _ _ Hi). assert (Htlt := lookup_lt_Some _ _ _ Htk).
  assert (Hex : forall r', executing (finish i r tk (Some results) s) r' <-> executing s r' /\ r' <> r).
  { intros r'. split; [intros [j Hj]|intros [[j Hj] Hne]]; cbn in *.
    - destruct (lookup_replaced _ _ _ _ _ _ Hi Hj) as [[-> E]|[Hne Hj']]; [done|]. split; [by exists j|]. intros ->. by apply Hne, (qk_apart _ Hok j i r).
    - exists j. cbn. rewrite list_lookup_insert_ne; [done|]. intros <-. congruence. }
  assert (Hnin : r ∉ queue s) by (apply (qk_once _ Hok); by exists i).
  constructor; cbn [finish with_workers with_tickets queue stop m_SearchWorkers runtime context tickets client].
  - apply Hok.
  - intros r' [Hx _]%Hex. by apply (qk_once _ Hok).
  - intros j k r' Hj Hk. destruct (lookup_replaced _ _ _ _ _ _ Hi Hj) as [[-> E]|[_ Hj']]; [done|].
    destruct (lookup_replaced _ _ _ _ _ _ Hi Hk) as [[-> E]|[_ Hk']]; [done|]. by eapply qk_apart.
  - intros r'. rewrite Hex. pose proof (qk_where _ Hok r') as Hw. destruct (decide (r' = r)) as [->|Hne].
    + rewrite list_lookup_insert_eq by done. split; [tauto|]. intros (x & [= <-] & Hx). done.
    + rewrite list_lookup_insert_ne by done. rewrite <- Hw. tauto.
  - intros r' x Hx. destruct (lookup_replaced _ _ _ _ _ _ Htk Hx) as [[-> ->]|[_ Hx']]; [|by apply (qk_ticket _ Hok r')].
    destruct (qk_ticket _ Hok r tk Htk) as [Hv _]. split; cbn; [done|]. by rewrite Hrt.
  - intros Ht. pose proof (qk_wake _ Hok (sleeping_insert _ _ Looking _ Hi eq_refl Ht)) as Hl.
    unfold looking in *. cbn. pose proof (sum_by_insert is_looking _ _ _ Looking Hi) as Hsum. cbn in Hsum. lia.
  - intros j Hj. destruct (lookup_replaced _ _ _ _ _ _ Hi Hj) as [[-> E]|[_ Hj']]; [done|]. by apply (qk_gone _ Hok j).
  - exact (client_insert i Looking _ Hi eq_refl).
Qed.

(** A sleeper wakes up. *)
Lemma wake_ok i : m_SearchWorkers s !! i = Some Asleep -> queue_ok (with_workers s (<[i := Looking]> (m_SearchWorkers s))).
Proof.
  intros Hi. assert (Hlt := lookup_lt_Some _ _ _ Hi).
  assert (Hex : forall r, executing (with_workers s (<[i := Looking]> (m_SearchWorkers s))) r <-> executing s r).
  { intros r. split; intros [j Hj]; cbn in *.
    - destruct (lookup_replaced _ _ _ _ _ _ Hi Hj) as [[-> E]|[_ Hj']]; [done|by exists j].
    - exists j. cbn. rewrite list_lookup_insert_ne; [done|]. intros <-. congruence. }
  constructor; cbn [with_workers queue stop m_SearchWorkers runtime context tickets client].
  - apply Hok.
  - intros r Hx%Hex. by apply (qk_once _ Hok).
  - intros j k r Hj Hk. destruct (lookup_replaced _ _ _ _ _ _ Hi Hj) as [[-> E]|[_ Hj']]; [done|].
    destruct (lookup_replaced _ _ _ _ _ _ Hi Hk) as [[-> E]|[_ Hk']]; [done|]. by eapply qk_apart.
  - intros r. rewrite Hex. apply (qk_where _ Hok).
  - apply (qk_ticket _ Hok).
  - intros Ht. pose proof (qk_wake _ Hok (sleeping_insert _ _ Looking _ Hi eq_refl Ht)) as Hl.
    unfold looking in *. cbn. pose proof (sum_by_insert is_looking _ _ _ Looking Hi) as Hsum. cbn in Hsum. lia.
  - intros j Hj. destruct (lookup_replaced _ _ _ _ _ _ Hi Hj) as [[-> E]|[_ Hj']]; [done|]. by apply (qk_gone _ Hok j).
  - exact (client_insert i Looking _ Hi eq_refl).
Qed.

Lemma enqueue_ok n task : client s = Idle -> valid (context s) task -> queue_ok (EnsureSearchWorkersStarted n task s).
Proof.
  intros Hc Hv. pose proof (qk_client _ Hok) as Hcl. unfold client_ok in Hcl. rewrite Hc in Hcl. pose proof (qk_wake _ Hok) as Hwake. rewrite Hc in Hwake.
  unfold EnsureSearchWorkersStarted. destruct (m_SearchWorkers s) as [|w ws] eqn:Hw.
  - destruct Hcl as [[_ Hq]|[? _]]; [|done].
    assert (Hnone : forall r tk, tickets s !! r = Some tk -> tk_reply tk <> Pending).
    { intros r tk Htk Hp. destruct (proj2 (qk_where _ Hok r)) as [Hin|[i Hi]]; [by exists tk|rewrite Hq in Hin; by apply elem_of_nil in Hin|].
      by rewrite Hw in Hi. }
    constructor; cbn; try apply Hok.
    + intros r tk Htk. destruct (qk_ticket _ Hok r tk Htk) as [Hvt Hr]. split; [done|]. pose proof (Hnone r tk Htk).
      by destruct (tk_reply tk).
    + rewrite Hw. done.
    + intros i Hi. by rewrite Hw in Hi.
    + unfold client_ok. cbn. rewrite Hw. split; [done|]. split; [done|]. split; [done|]. split; [lia|done].
  - destruct Hcl as [[? _]|Hst]; [done|]. constructor; try apply Hok.
    + cbn [with_client client m_SearchWorkers queue] in *. unfold looking in *. cbn [with_client m_SearchWorkers]. rewrite Hw in *. exact Hwake.
    + by split.
Qed.

Lemma stop_ok : client s = Idle -> queue_ok (StopSearchWorkers s).
Proof.
  intros Hc. unfold StopSearchWorkers. destruct (m_SearchWorkers s) as [|w ws] eqn:Hw; [done|].
  pose proof (qk_client _ Hok) as Hcl. unfold client_ok in Hcl. rewrite Hc, Hw in Hcl. destruct Hcl as [[? _]|(_ & Hs & _)]; [done|].
  pose proof (qk_wake _ Hok) as Hwake. rewrite Hc in Hwake.
  constructor; try apply Hok.
  - exact Hwake.
  - intros i Hi. cbn in Hi. destruct (qk_gone _ Hok i Hi). congruence.
  - split; cbn; [done|by rewrite Hw].
Qed.

Lemma change_ok rt : client s = Idle -> m_SearchWorkers s = [] -> queue_ok (with_context s rt).
Proof.
  intros Hc Hw. pose proof (qk_client _ Hok) as Hcl. unfold client_ok, started in Hcl. rewrite Hc, Hw in Hcl.
  constructor; try apply Hok. unfold client_ok. cbn. rewrite Hc, Hw. left. by destruct Hcl as [?|[? _]].
Qed.
Lemma spawn_ok n task : client s = Spawning (S n) task ->
  queue_ok (with_client (with_workers s (m_SearchWorkers s ++ [Looking])) (Spawning n task)).
Proof.
  intros Hc. pose proof (qk_client _ Hok) as Hcl. unfold client_ok in Hcl. rewrite Hc in Hcl. destruct Hcl as (Hq & Hs & Hrt & _ & Hv).
  assert (Hl : forall i w, (m_SearchWorkers s ++ [Looking]) !! i = Some w -> m_SearchWorkers s !! i = Some w \/ w = Looking).
  { intros i w [Hi|[_ Hi]]%lookup_app_Some; [by left|right]. by apply list_lookup_singleton_Some in Hi as [_ <-]. }
  assert (Hex : forall r, executing (with_client (with_workers s (m_SearchWorkers s ++ [Looking])) (Spawning n task)) r <-> executing s r).
  { intros r. split; intros [j Hj]; cbn in *; [destruct (Hl _ _ Hj) as [?|?]; [by exists j|done]|]. exists j. by apply lookup_app_l_Some. }
  constructor; cbn [with_client with_workers queue stop m_SearchWorkers runtime context tickets client].
  - apply Hok.
  - intros r Hx%Hex. by apply (qk_once _ Hok).
  - intros j k r [Hj|?]%Hl [Hk|?]%Hl; try done. by eapply qk_apart.
  - intros r. rewrite Hex. apply (qk_where _ Hok).
  - apply (qk_ticket _ Hok).
  - rewrite Hq. cbn. lia.
  - intros j [Hj|?]%Hl; [|done]. by apply (qk_gone _ Hok j).
  - unfold client_ok. cbn. split; [done|]. split; [done|]. split; [done|]. split; [|done]. intros _ ?%app_nil. by destruct_and?.
Qed.

Lemma spawned_ok task : client s = Spawning 0 task -> queue_ok (with_client s (Pushing task)).
Proof.
  intros Hc. pose proof (qk_client _ Hok) as Hcl. unfold client_ok in Hcl. rewrite Hc in Hcl. destruct Hcl as (Hq & Hs & Hrt & Hw & Hv).
  constructor; try apply Hok.
  - cbn. rewrite Hq. cbn. lia.
  - unfold client_ok, started. cbn. auto.
Qed.

Lemma push_ok task : client s = Pushing task ->
  queue_ok (with_client (with_queue (with_tickets s (tickets s ++ [{| tk_task := task; tk_runtime := context s; tk_reply := Pending |}]))
    (queue s ++ [length (tickets s)])) Notifying).
Proof.
  intros Hc. pose proof (qk_client _ Hok) as Hcl. unfold client_ok in Hcl. rewrite Hc in Hcl. destruct Hcl as [(Hw & Hs & Hrt) Hv].
  set (r0 := length (tickets s)).
  assert (Hnew : forall r, r ∈ queue s \/ executing s r -> r < r0).
  { intros r (tk & Htk & _)%(qk_where _ Hok). by eapply lookup_lt_Some. }
  constructor; cbn [with_client with_queue with_tickets queue stop m_SearchWorkers runtime context tickets client].
  - apply NoDup_app. split; [apply Hok|]. split; [|apply NoDup_singleton]. intros r Hr ->%list_elem_of_singleton. pose proof (Hnew r0 (or_introl Hr)). lia.
  - intros r Hx. rewrite elem_of_app, list_elem_of_singleton. intros [Hin| ->]; [by apply (qk_once _ Hok r)|]. pose proof (Hnew r0 (or_intror Hx)). lia.
  - apply Hok.
  - intros r. rewrite elem_of_app, list_elem_of_singleton. change (executing _ r) with (executing s r). split.
    + intros Hr. assert (Hr' : (r ∈ queue s \/ executing s r) \/ r = r0) by tauto. destruct Hr' as [Hr'| ->].
      * apply (qk_where _ Hok) in Hr' as (tk & Htk & Hp). exists tk. split; [by apply lookup_app_l_Some|done].
      * eexists. split; [by apply list_lookup_middle|done].
    + intros (tk & [Htk|[Hge Htk]]%lookup_app_Some & Hp).
      * assert (r ∈ queue s \/ executing s r) by (apply (qk_where _ Hok); by exists tk). tauto.
      * apply list_lookup_singleton_Some in Htk as [Hz _]. left. right. fold r0 in Hge, Hz. lia.
  - intros r tk [Htk|[Hge Htk]]%lookup_app_Some; [by apply (qk_ticket _ Hok r)|]. apply list_lookup_singleton_Some in Htk as [_ <-]. by split.
  - intros Ht. pose proof (qk_wake _ Hok Ht) as Hl. rewrite Hc in Hl. rewrite length_app. cbn. unfold looking in *. cbn. lia.
  - intros i Hi. destruct (qk_gone _ Hok i Hi). congruence.
  - done.
Qed.

Lemma notified_ok who s' : client s = Notifying -> notify_one who (with_client s Idle) = Some s' -> queue_ok s'.
Proof.
  intros Hc Hn. pose proof (qk_client _ Hok) as Hcl. unfold client_ok in Hcl. rewrite Hc in Hcl. destruct who as [i|]; cbn in Hn.
  - destruct (_ !! i) as [w|] eqn:Hi; [|done]. destruct w; cbn in Hn; try done. injection Hn as <-.
    pose proof (wake_ok i Hi) as Hok'. constructor; try apply Hok'.
    + intros _. assert (Hs : existsb sleeping (m_SearchWorkers s) = true).
      { apply existsb_exists. exists Asleep. split; [|done]. apply list_elem_of_In, list_elem_of_lookup. by exists i. }
      pose proof (qk_wake _ Hok Hs) as Hl. rewrite Hc in Hl. unfold looking in *. cbn.
      pose proof (sum_by_insert is_looking _ _ _ Looking Hi) as Hsum. cbn in Hsum. lia.
    + right. split; [by apply insert_nonempty, (worker_in i _ Hi)|apply Hcl].
  - destruct (existsb sleeping (m_SearchWorkers s)) eqn:E; [done|]. injection Hn as <-. constructor; try apply Hok.
    + cbn. rewrite E. done.
    + by right.
Qed.

Lemma woken_lookup l i w : map woken l !! i = Some w -> exists w', l !! i = Some w' /\ w = woken w'.
Proof. change (map woken l) with (woken <$> l). rewrite list_lookup_fmap. destruct (l !! i) as [w'|]; [|done]. intros [= <-]. by exists w'. Qed.

Lemma notify_all_ok : client s = Stopping -> queue_ok (with_client (with_workers s (map woken (m_SearchWorkers s))) Joining).
Proof.
  intros Hc. pose proof (qk_client _ Hok) as Hcl. unfold client_ok in Hcl. rewrite Hc in Hcl. destruct Hcl as [Hs Hw].
  assert (Hno : existsb sleeping (map woken (m_SearchWorkers s)) = false).
  { induction (m_SearchWorkers s) as [|w l IH]; [done|]. cbn. rewrite orb_false_iff. split; [by destruct w|]. destruct l; [done|by apply IH]. }
  assert (Hex : forall i r, map woken (m_SearchWorkers s) !! i = Some (Executing r) <-> m_SearchWorkers s !! i = Some (Executing r)).
  { intros i r. split; [intros (w' & Hi & E)%woken_lookup; destruct w'; cbn in E; congruence|].
    intros Hi. change (map woken ?l) with (woken <$> l). by rewrite list_lookup_fmap, Hi. }
  assert (Hexe : forall r, executing (with_client (with_workers s (map woken (m_SearchWorkers s))) Joining) r <-> executing s r).
  { intros r. split; intros [i Hi]; exists i; by apply Hex. }
  constructor; cbn [with_client with_workers queue stop m_SearchWorkers runtime context tickets client].
  - apply Hok.
  - intros r Hx%Hexe. by apply (qk_once _ Hok).
  - intros j k r Hj%Hex Hk%Hex. by eapply qk_apart.
  - intros r. rewrite Hexe. apply (qk_where _ Hok).
  - apply (qk_ticket _ Hok).
  - rewrite Hno. done.
  - intros j (w' & Hj & E)%woken_lookup. apply (qk_gone _ Hok j). destruct w'; done.
  - unfold client_ok. cbn. split; [done|]. split; [|done]. by intros ?%map_eq_nil.
Qed.

Lemma join_ok : client s = Joining -> forallb (fun w => bool_decide (w = Gone)) (m_SearchWorkers s) = true ->
  queue_ok (with_client (with_workers s []) Idle).
Proof.
  intros Hc Hall. pose proof (qk_client _ Hok) as Hcl. unfold client_ok in Hcl. rewrite Hc in Hcl. destruct Hcl as (Hs & Hw & _).
  rewrite forallb_forall in Hall. assert (Hgone : forall i w, m_SearchWorkers s !! i = Some w -> w = Gone).
  { intros i w Hi. apply (bool_decide_unpack _), Is_true_true. apply Hall, list_elem_of_In, list_elem_of_lookup. by exists i. }
  assert (Hq : queue s = []).
  { destruct (m_SearchWorkers s) as [|w l] eqn:E; [done|]. apply (qk_gone _ Hok 0). rewrite E. cbn. by rewrite (Hgone 0 w eq_refl). }
  assert (Hex : forall r, ~ executing s r) by (intros r [i Hi]; by apply Hgone in Hi).
  constructor; cbn [with_client with_workers queue stop m_SearchWorkers runtime context tickets client]; try apply Hok; try done.
  - intros r [i Hi]. done.
  - intros r. rewrite <- (qk_where _ Hok). split; [intros [?|[i Hi]]; [by left|done]|]. intros [?|Hx]; [by left|by apply Hex in Hx].
  - by left.
Qed.

Lemma client_turn_ok who s' : client_turn who s = Some s' -> queue_ok s'.
Proof.
  unfold client_turn. destruct (client s) as [|n task|task| | |] eqn:Hc; try done.
  - destruct n; intros [= <-]; [by apply spawned_ok|by apply spawn_ok].
  - intros [= <-]. by apply push_ok.
  - by apply notified_ok.
  - intros [= <-]. by apply notify_all_ok.
  - destruct (forallb _ _) eqn:E; [|done]. intros [= <-]. by apply join_ok.
Qed.
End preservation.

Lemma task_turn_ok s s' : queue_ok s -> turn s s' -> queue_ok s'.
Proof.
  intros Hok [i Hi|i r tk out Hi Htk Hex|who t H]; [by apply look_ok| |by eapply client_turn_ok].
  destruct (finish_out s Hok i r tk out Hi Htk Hex) as [Hrt [results ->]]. by apply finish_ok.
Qed.

Lemma action_ok s s' : queue_ok s -> action s s' -> queue_ok s'.
Proof.
  intros Hok [t H|query vector streams top_k mode ef Hc Hv|Hc|rt Hc Hw|i Hi]; [by eapply task_turn_ok|by apply enqueue_ok|by apply stop_ok|by apply change_ok|by apply wake_ok].
Qed.

Lemma reachable_ok s : reachable s -> queue_ok s.
Proof. intros [rt H]. assert (Hok : queue_ok (queue_new rt)) by apply queue_new_ok. induction H; [done|]. by eapply IHrtc, action_ok. Qed.

(** * Every run of turns ends, with every task answered *)

Definition worker_weight (w : Worker) : nat := match w with Looking => 1 | Executing _ => 2 | Asleep | Gone => 0 end.

Definition client_weight (s : SearchQueueState) : nat :=
  match client s with
  | Idle => 0 | Joining => 1 | Notifying => 2 | Pushing _ => 5 | Spawning n _ => 6 + 2 * n
  | Stopping => 2 + length (m_SearchWorkers s)
  end.

(** The work left: each turn takes some away. *)
Definition work (s : SearchQueueState) : nat := sum_by worker_weight (m_SearchWorkers s) + 2 * length (queue s) + client_weight s.

(** Only the list of workers changes, and stays as long as it was. *)
Lemma client_weight_workers s l : length l = length (m_SearchWorkers s) -> client_weight (with_workers s l) = client_weight s.
Proof. intros Hl. unfold client_weight. cbn. by destruct (client s); rewrite ?Hl. Qed.

Lemma look_work s i : m_SearchWorkers s !! i = Some Looking -> work (look i s) < work s.
Proof.
  intros Hi. unfold look. destruct (queue s) as [|r q] eqn:Hq; unfold work.
  - rewrite client_weight_workers by apply length_insert. cbn [with_workers queue m_SearchWorkers].
    pose proof (sum_by_insert worker_weight _ _ _ (if stop s then Gone else Asleep) Hi) as Hs. destruct (stop s); cbn in Hs; lia.
  - rewrite client_weight_workers by apply length_insert. cbn [with_workers with_queue queue m_SearchWorkers]. rewrite Hq.
    pose proof (sum_by_insert worker_weight _ _ _ (Executing r) Hi) as Hs. cbn in *. unfold client_weight. cbn. destruct (client s); lia.
Qed.

Lemma finish_work s i r tk out : m_SearchWorkers s !! i = Some (Executing r) -> work (finish i r tk out s) < work s.
Proof.
  intros Hi. unfold finish, work. destruct out as [res|].
  - pose proof (sum_by_insert worker_weight _ _ _ Looking Hi) as Hs.
    change (client_weight (with_tickets ?x _)) with (client_weight x). rewrite client_weight_workers by apply length_insert. cbn in *. lia.
  - pose proof (sum_by_insert worker_weight _ _ _ Gone Hi) as Hs.
    change (client_weight (with_tickets ?x _)) with (client_weight x). rewrite client_weight_workers by apply length_insert. cbn in *. lia.
Qed.

Lemma client_work who s s' : client_turn who s = Some s' -> work s' < work s.
Proof.
  unfold client_turn, work, client_weight. destruct (client s) as [|n task|task| | |] eqn:Hc; try done.
  - destruct n; intros [= <-]; cbn; [lia|]. rewrite sum_by_app. cbn. lia.
  - intros [= <-]. cbn. rewrite length_app. cbn. lia.
  - unfold notify_one. cbn [with_client m_SearchWorkers]. destruct who as [i|].
    + destruct (_ !! i) as [w|] eqn:Hi; [|done]. destruct w; cbn; try done. intros [= <-]. cbn.
      pose proof (sum_by_insert worker_weight _ _ _ Looking Hi) as Hs. cbn in Hs. lia.
    + destruct (existsb _ _); [done|]. intros [= <-]. cbn. lia.
  - intros [= <-]. cbn. assert (Hm : forall x, worker_weight (woken x) <= worker_weight x + 1) by (intros []; cbn; lia).
    pose proof (sum_by_map worker_weight woken (m_SearchWorkers s) Hm). lia.
  - destruct (forallb _ _); [|done]. intros [= <-]. cbn. lia.
Qed.

Lemma turn_work s s' : turn s s' -> work s' < work s.
Proof. intros [i Hi|i r tk out Hi Htk Hex|who t H]; [by apply look_work|by eapply finish_work|by eapply client_work]. Qed.

Lemma turns_work n s s' : nsteps turn n s s' -> n + work s' <= work s.
Proof. induction 1 as [|n x y z Hxy _ IH]; [lia|]. apply turn_work in Hxy. lia. Qed.

Lemma turns_ok n s s' : queue_ok s -> nsteps turn n s s' -> queue_ok s'.
Proof. intros Hs Hn. induction Hn as [|n x y z Hxy _ IH]; [done|]. by eapply IH, task_turn_ok. Qed.

Hypothesis valid_total : forall rt task, valid rt task -> exists out, executes rt task out.

Lemma notify_enabled s : exists who s', notify_one who s = Some s'.
Proof.
  destruct (existsb sleeping (m_SearchWorkers s)) eqn:E; [|exists None; cbn; rewrite E; by eexists].
  apply existsb_exists in E as (w & Hw & Hs). apply list_elem_of_In, list_elem_of_lookup in Hw as [i Hi].
  exists (Some i). cbn. rewrite Hi, Hs. by eexists.
Qed.

(** When nothing moves, every worker is asleep or gone. *)
Lemma stuck_worker s i w : queue_ok s -> stuck s -> m_SearchWorkers s !! i = Some w -> w = Asleep \/ w = Gone.
Proof.
  intros Hok Hst Hi. destruct w as [| |r|]; [|by left| |by right]; exfalso.
  - by eapply Hst, worker_looks.
  - destruct (executing_pending s Hok i r Hi) as (tk & Htk & Hp). destruct (qk_ticket _ Hok r tk Htk) as [Hv Hr]. rewrite Hp in Hr.
    destruct (valid_total _ _ Hv) as [out Hout]. rewrite Hr in Hout. by eapply Hst, worker_finishes.
Qed.

Lemma stuck_idle s : queue_ok s -> stuck s -> client s = Idle.
Proof.
  intros Hok Hst. pose proof (qk_client _ Hok) as Hcl. unfold client_ok in Hcl.
  assert (Hmove : forall who s', client_turn who s <> Some s') by (intros who s' H; by eapply Hst, client_moves).
  unfold client_turn in Hmove. destruct (client s) as [|n task|task| | |] eqn:Hc; [done|exfalso..].
  - destruct n; by eapply (Hmove None).
  - by eapply (Hmove None).
  - destruct (notify_enabled (with_client s Idle)) as (who & s' & Hs'). by eapply Hmove.
  - by eapply (Hmove None).
  - destruct Hcl as (_ & _ & Hno). assert (Hall : forallb (fun w => bool_decide (w = Gone)) (m_SearchWorkers s) = true).
    { apply forallb_forall. intros w Hw. apply list_elem_of_In in Hw. apply bool_decide_eq_true.
      pose proof Hw as Hw'. apply list_elem_of_lookup in Hw' as [i Hi].
      destruct (stuck_worker s i w Hok Hst Hi) as [-> |]; [|done]. exfalso. apply not_true_iff_false in Hno. apply Hno, existsb_exists.
      exists Asleep. by split; [apply list_elem_of_In|]. }
    rewrite Hall in Hmove. by eapply (Hmove None).
Qed.

Lemma stuck_answered s : queue_ok s -> stuck s -> client s = Idle /\
  Forall (fun tk => exists results, tk_reply tk = Sent results /\ executes (tk_runtime tk) (tk_task tk) (Some results)) (tickets s).
Proof.
  intros Hok Hst. pose proof (stuck_idle s Hok Hst) as Hc. split; [done|].
  pose proof (qk_client _ Hok) as Hcl. unfold client_ok in Hcl. rewrite Hc in Hcl. assert (Hq : queue s = []).
  { destruct Hcl as [[_ ?]|(Hne & Hs & _)]; [done|]. destruct (m_SearchWorkers s) as [|w l] eqn:Hw; [done|].
    assert (H0 : m_SearchWorkers s !! 0 = Some w) by (by rewrite Hw).
    destruct (stuck_worker s 0 w Hok Hst H0) as [-> | ->]; [|destruct (qk_gone _ Hok 0 H0); congruence].
    pose proof (qk_wake _ Hok) as Hwake. rewrite Hw, Hc in Hwake. specialize (Hwake eq_refl).
    assert (Hl : looking s = 0).
    { unfold looking. rewrite Hw in *. clear -Hok Hst Hw valid_total valid_returns. assert (Hall : forall x, x ∈ Asleep :: l -> is_looking x = 0).
      { intros x Hx. apply list_elem_of_lookup in Hx as [i Hi]. rewrite <- Hw in Hi. by destruct (stuck_worker s i x Hok Hst Hi) as [-> | ->]. }
      revert Hall. generalize (Asleep :: l) as ws. induction ws as [|x ws IH]; [done|]. intros Hall. cbn. rewrite (Hall x) by (by left).
      apply IH. intros y Hy. apply Hall. by right. }
    rewrite Hl in Hwake. destruct (queue s); [done|cbn in Hwake; lia]. }
  rewrite Forall_lookup. intros r tk Htk. destruct (qk_ticket _ Hok r tk Htk) as [_ Hr]. destruct (tk_reply tk) as [|res|] eqn:Hp; [|by exists res|done].
  exfalso. destruct (proj2 (qk_where _ Hok r)) as [Hin|[i Hi]]; [by exists tk|rewrite Hq in Hin; by apply elem_of_nil in Hin|].
  by destruct (stuck_worker s i _ Hok Hst Hi).
Qed.
End queue.

(** * Runs from a new queue *)

Section runs.
Context {Rt : Type} (executes : Rt -> SearchTaskState -> option (list SearchResult) -> Prop) (valid : Rt -> SearchTaskState -> Prop).
Context (rt : Rt) (query : bytes) (vector : list f32) (streams : bytes) (top_k : Z) (mode : QueryCompileMode) (ef : Z).
Let task := queued_task query vector streams top_k mode ef.

Lemma act_look s s' i : m_SearchWorkers s !! i = Some Looking -> look i s = s' -> action executes valid s s'.
Proof. intros Hi <-. by apply act_turn, worker_looks. Qed.

Lemma act_finish s s' i r tk out : m_SearchWorkers s !! i = Some (Executing r) -> tickets s !! r = Some tk -> executes (runtime s) (tk_task tk) out ->
  finish i r tk out s = s' -> action executes valid s s'.
Proof. intros Hi Htk Hex <-. by eapply act_turn, worker_finishes. Qed.

Lemma act_client s s' : client_turn None s = Some s' -> action executes valid s s'.
Proof. intros Hc. by eapply act_turn, client_moves. Qed.

Definition quiet_queue (workers : list Worker) (l : list Ticket) (c : Client) : SearchQueueState :=
  {| queue := []; stop := false; m_SearchWorkers := workers; runtime := rt; context := rt; tickets := l; client := c |}.

Lemma spawn_all n workers l :
  rtc (action executes valid) (quiet_queue workers l (Spawning n task)) (quiet_queue (workers ++ replicate n Looking) l (Pushing task)).
Proof.
  revert workers. induction n as [|n IH]; intros workers.
  - cbn [replicate]. rewrite app_nil_r. eapply rtc_l; [apply act_turn, (client_moves _ _ None); reflexivity|]. apply rtc_refl.
  - eapply rtc_l; [apply act_turn, (client_moves _ _ None); reflexivity|]. replace (workers ++ replicate (S n) Looking) with ((workers ++ [Looking]) ++ replicate n Looking) by (by rewrite <- app_assoc). apply IH.
Qed.

(** The first call starts sixteen workers. *)
Lemma first_call : valid rt task ->
  rtc (action executes valid) (queue_new rt) (quiet_queue (replicate SEARCH_WORKERS Looking) [] (Pushing task)).
Proof.
  intros Hv. eapply rtc_l; [by apply (act_enqueue _ _ _ query vector streams top_k mode ef)|]. apply (spawn_all SEARCH_WORKERS [] []).
Qed.
End runs.

(** * Workers that panicked *)

Section panics.
Context {Rt : Type} (executes : Rt -> SearchTaskState -> option (list SearchResult) -> Prop).
Implicit Types s : SearchQueueState (Rt := Rt).

(** What happens while nobody stops the workers. *)
Inductive serve s : SearchQueueState (Rt := Rt) -> Prop :=
  | serve_turn s' : turn executes s s' -> serve s s'
  | serve_enqueue query vector streams top_k mode ef : client s = Idle -> serve s (EnqueueWithMode query vector streams top_k mode ef s).

(** Every worker is gone, and the owner is not stopping them. *)
Definition dead s : Prop :=
  m_SearchWorkers s <> [] /\ Forall (fun w => w = Gone) (m_SearchWorkers s) /\
  match client s with Idle | Pushing _ | Notifying => True | _ => False end.

Lemma dead_serve s s' : dead s -> serve s s' ->
  dead s' /\ (tickets s' = tickets s \/ exists tk, tickets s' = tickets s ++ [tk] /\ tk_reply tk = Pending).
Proof.
  intros (Hne & Hall & Hc) Hs. rewrite Forall_lookup in Hall. destruct Hs as [t [i Hi|i r tk out Hi _ _|who t0 H]|query vector streams top_k mode ef Hi].
  - by apply Hall in Hi.
  - by apply Hall in Hi.
  - unfold client_turn in H. destruct (client s) as [|n task|task| | |]; try done.
    + injection H as <-. split; [|right; by eexists]. split; [done|]. cbn. split; [by apply Forall_lookup|done].
    + destruct who as [i|]; cbn in H.
      * destruct (_ !! i) as [w|] eqn:Hw; [|done]. apply Hall in Hw as ->. done.
      * destruct (existsb _ _); [done|]. injection H as <-. split; [|by left]. split; [done|]. split; [by apply Forall_lookup|done].
  - unfold EnqueueWithMode, EnsureSearchWorkersStarted. destruct (m_SearchWorkers s) as [|w l] eqn:Hw; [done|]. split; [|by left].
    split; cbn; rewrite Hw; [done|]. split; [by apply Forall_lookup|done].
Qed.

Lemma dead_serves s s' : dead s -> rtc serve s s' ->
  forall r tk, tickets s' !! r = Some tk -> length (tickets s) <= r -> tk_reply tk = Pending.
Proof.
  intros Hd Hs. cut (length (tickets s) <= length (tickets s) /\ forall r tk, tickets s !! r = Some tk -> length (tickets s) <= r -> tk_reply tk = Pending).
  2:{ split; [done|]. intros r tk Hr%lookup_lt_Some Hle. lia. }
  generalize (length (tickets s)) at 1 3 4 as n. revert Hd. induction Hs as [s|s t s' Hst _ IH]; intros Hd n [Hn Hp]; [done|].
  destruct (dead_serve s t Hd Hst) as [Hd' Ht]. apply IH; [done|]. destruct Ht as [-> | (tk0 & -> & Hp0)]; [done|]. rewrite length_app. split; [lia|].
  intros r tk [Hr|[_ Hr]]%lookup_app_Some Hle; [by eapply Hp|]. apply list_lookup_singleton_Some in Hr as [_ <-]. done.
Qed.

(** One panicking task after another. *)
Context (rt : Rt) (query : bytes) (vector : list f32) (streams : bytes) (top_k : Z) (mode : QueryCompileMode) (ef : Z).
Let task := queued_task query vector streams top_k mode ef.
Hypothesis task_panics : executes rt task None.
Let acts := action executes (fun _ _ => True).

Definition after_panics (k : nat) (c : Client) : SearchQueueState (Rt := Rt) :=
  quiet_queue rt (replicate k Gone ++ replicate (SEARCH_WORKERS - k) Looking)
    (replicate k {| tk_task := task; tk_runtime := rt; tk_reply := Dropped |}) c.

Lemma panics_start : rtc acts (queue_new rt) (after_panics 0 (Pushing task)).
Proof. by apply (first_call executes (fun _ _ => True)). Qed.

#[local] Opaque SEARCH_WORKERS.

Lemma panics_step k : k < SEARCH_WORKERS -> rtc acts (after_panics k (Pushing task)) (after_panics (S k) Idle).
Proof.
  intros Hk. set (tk := {| tk_task := task; tk_runtime := rt; tk_reply := Pending |}).
  set (panicked := replicate k {| tk_task := task; tk_runtime := rt; tk_reply := Dropped |}).
  set (workers := replicate k Gone ++ replicate (SEARCH_WORKERS - k) Looking).
  assert (Hw : SEARCH_WORKERS - k = S (SEARCH_WORKERS - S k)) by lia.
  assert (Hat : workers !! k = Some Looking) by (unfold workers; rewrite Hw; by apply list_lookup_middle; rewrite length_replicate).
  assert (Hset : forall x, <[k := x]> workers = replicate k Gone ++ x :: replicate (SEARCH_WORKERS - S k) Looking).
  { intros x. unfold workers. rewrite Hw. cbn [replicate]. rewrite insert_app_r_alt by (by rewrite length_replicate). by rewrite length_replicate, Nat.sub_diag. }
  assert (Hno : existsb sleeping workers = false).
  { apply not_true_iff_false. intros (w & Hw' & Hs)%existsb_exists. apply list_elem_of_In, elem_of_app in Hw'.
    by destruct Hw' as [[-> _]%elem_of_replicate|[-> _]%elem_of_replicate]. }
  eapply rtc_l with (y := with_client (with_queue (quiet_queue rt workers (panicked ++ [tk]) Idle) [k]) Notifying).
  { apply act_client. unfold client_turn, after_panics, quiet_queue. cbn [client]. unfold with_client, with_queue, with_tickets.
    cbn [queue stop m_SearchWorkers runtime context tickets client app]. by rewrite length_replicate. }
  eapply rtc_l with (y := with_queue (quiet_queue rt workers (panicked ++ [tk]) Idle) [k]).
  { apply act_client. unfold client_turn. cbn [with_client client]. unfold notify_one. cbn [with_client with_queue quiet_queue m_SearchWorkers].
    by rewrite Hno. }
  eapply rtc_l with (y := quiet_queue rt (replicate k Gone ++ Executing k :: replicate (SEARCH_WORKERS - S k) Looking) (panicked ++ [tk]) Idle).
  { eapply (act_look _ _ _ _ k); [exact Hat|]. unfold look. cbn [with_queue queue]. unfold with_workers, quiet_queue. cbn. by rewrite Hset. }
  eapply rtc_l; [|apply rtc_refl].
  assert (Hlen : forall A (x : A), length (replicate k x) = k) by (intros; apply length_replicate).
  eapply (act_finish _ _ _ _ k k tk None); [apply list_lookup_middle; symmetry; apply Hlen|apply list_lookup_middle; symmetry; apply Hlen|exact task_panics|].
  unfold finish, after_panics, with_tickets, with_workers, quiet_queue. cbn [queue stop m_SearchWorkers runtime context tickets client].
  unfold panicked. rewrite !insert_app_r_alt by (rewrite Hlen; lia). by rewrite !Hlen, Nat.sub_diag, !replicate_S_end, <- app_assoc.
Qed.

Lemma panics_reach k : k < SEARCH_WORKERS -> rtc acts (queue_new rt) (after_panics (S k) Idle).
Proof.
  induction k as [|k IH]; intros Hk; [etrans; [apply panics_start|by apply panics_step]|]. etrans; [apply IH; lia|].
  eapply rtc_l; [by apply (act_enqueue _ _ _ query vector streams top_k mode ef)|]. by apply panics_step.
Qed.

#[local] Transparent SEARCH_WORKERS.

Lemma panics_dead : dead (after_panics SEARCH_WORKERS Idle).
Proof. split; [done|]. split; [|done]. by repeat constructor. Qed.
End panics.

(** * The search runtime *)

Section runtime.
Context `{Libm, Tokenizer} {Hp : Type} `{MinHeapSpec Hp}.
Context (VectorSearch DeltaVectorSearch : list f32 -> Z -> Z -> list VectorSearchResult).
Context (parameters : QueryCompileModeParameters).

(** ExecuteSearchTask as the workers run it; what is no result counts as a panic. The workers share the
    vector indexes with the owner's context: EnsureSearchWorkersStarted has built that of the base, but
    while workers run, and between two tasks or within one, the owner's GetReader or the Build of its delta
    may build that of the delta, so that a task finds it in either state. A search holds the read lock of
    the index once, and BuildVectorRuntime the write lock throughout. *)
Definition executes_in (delta_built : bool) (rt : SearchRuntime) (task : SearchTaskState) (results : list SearchResult) : Prop :=
  converges (fun k => rt_ExecuteSearchTask (Hp := Hp) VectorSearch (index_search delta_built DeltaVectorSearch) parameters rt k task) results.

Definition executes_task (rt : SearchRuntime) (task : SearchTaskState) (out : option (list SearchResult)) : Prop :=
  exists delta_built, match out with
  | Some results => executes_in delta_built rt task results
  | None => forall results, ~ executes_in delta_built rt task results
  end.

(** A task that gives results in either state. *)
Definition valid_task (rt : SearchRuntime) (task : SearchTaskState) : Prop :=
  forall delta_built, exists results, executes_in delta_built rt task results.

Lemma valid_task_returns rt task out : valid_task rt task -> executes_task rt task out -> is_Some out.
Proof. intros Hv [built Ho]. destruct (Hv built) as [results Hr]. destruct out; [by eexists|]. by apply Ho in Hr. Qed.

Lemma valid_task_total rt task : valid_task rt task -> exists out, executes_task rt task out.
Proof. intros Hv. destruct (Hv true) as [results Hr]. by exists (Some results), true. Qed.

Context (rt : SearchRuntime) (base : PostingStore) (delta : option PostingStore).
Hypothesis Hbase : searches rt base.
Hypothesis Hdelta : match rt_delta rt, delta with Some d, Some store => searches d store | None, None => True | _, _ => False end.
Hypothesis Hfind : finds_documents VectorSearch base.
Hypothesis Hdfind : finds_documents DeltaVectorSearch (default base delta).

(** C4: When all tasks that are enqueued give results, what [Wait] gives for a task whose query is not
    empty are, if no document of the query scores NaN, the best documents of its query in the indexes as they
    were when the task was enqueued, however the workers, the owner's later calls and the wake-ups
    interleaved. A vector query without text is answered with the vector index of the delta in one of its two states, built or not; in the second no document of the
    delta alone is among the answers. The stream averages of the indexes must be positive ([searches]), and the vector
    searches give documents of their stores, each once ([finds_documents]). *)
Theorem Wait_top_k s r tk results :
  reachable executes_task valid_task s -> tickets s !! r = Some tk -> Wait (tk_reply tk) = Some results -> tk_runtime tk = rt ->
  IsEmpty (task_tree (tk_task tk)) = false ->
  let tree := task_tree (tk_task tk) in
  exists delta_built reader all,
    let search := index_search delta_built DeltaVectorSearch in
    let docs := rt_tree_docs VectorSearch search rt base (default base delta) tree in
    (vector_only tree = false -> delta_built = true) /\
    (vector_only tree = true -> delta_built = false -> forall d, d ∈ docs -> is_Some (m_DocStats base !! d)) /\
    converges (fun k => rt_get_reader VectorSearch search rt k tree) reader /\
    visits (rt_GetDocDataEntry rt) parameters (if HasTextQuery tree && HasVectorQuery tree then Some (vector_query tree) else None) reader docs all /\
    (no_nan all -> top_results (TopKLimit (task_top_k (tk_task tk))) all results).
Proof.
  intros Hr Htk Hw Hrt Hne tree. pose proof (reachable_ok executes_task valid_task valid_task_returns s Hr) as Hok.
  destruct (qk_ticket _ _ _ Hok r tk Htk) as [_ Hreply]. rewrite Hrt in Hreply.
  destruct (tk_reply tk) as [|res|]; cbn in Hw; [done| |done]. injection Hw as <-. destruct Hreply as [built Hex].
  set (state := built || negb (vector_only tree)).
  assert (Hsame : executes_in state rt (tk_task tk) res).
  { unfold state. destruct (vector_only tree) eqn:Ev; [by rewrite orb_false_r|]. rewrite orb_true_r. destruct Hex as [n Hn]. exists n. intros k Hk.
    rewrite <- (Hn k Hk). unfold rt_ExecuteSearchTask, ExecuteSearchTask. cbv zeta.
    by rewrite (rt_get_reader_text rt VectorSearch (index_search true DeltaVectorSearch) VectorSearch (index_search built DeltaVectorSearch) k _ Ev). }
  destruct (rt_ExecuteSearchTask_ok (Hp := Hp) VectorSearch (index_search state DeltaVectorSearch) parameters rt base delta Hbase Hdelta Hfind
    (index_search_finds state _ _ Hdfind) (tk_task tk) Hne) as (reader & all & Hreader & Hv & Hres).
  exists state, reader, all. cbv zeta. split; [unfold state; intros ->; apply orb_true_r|].
  split; [intros Ev -> d; by apply (unbuilt_delta_hidden VectorSearch DeltaVectorSearch rt base delta)|].
  split; [exact Hreader|]. split; [exact Hv|]. intros Hnan. destruct (Hres Hnan) as (results' & Hc & Htop).
  by rewrite (converges_unique _ _ _ Hsame Hc).
Qed.
End runtime.

(** * Properties *)

(** C5: No task is lost and no call hangs: as long as tasks return, every run
    of the workers and of the owner's call in progress makes at most [work s] turns, and
    when no thread can move that call has returned and every task enqueued so far has been
    answered with the results of its own execution, on the runtime of its enqueuing. *)
Theorem search_tasks_answered {Rt : Type} (executes : Rt -> SearchTaskState -> option (list SearchResult) -> Prop)
    (valid : Rt -> SearchTaskState -> Prop)
    (valid_returns : forall rt task out, valid rt task -> executes rt task out -> is_Some out)
    (valid_total : forall rt task, valid rt task -> exists out, executes rt task out) s n s' :
  reachable executes valid s -> nsteps (turn executes) n s s' ->
  n <= work s /\
  (stuck executes s' -> client s' = Idle /\
   Forall (fun tk => exists results, tk_reply tk = Sent results /\ executes (tk_runtime tk) (tk_task tk) (Some results)) (tickets s')).
Proof.
  intros Hr Hn. split; [pose proof (turns_work _ _ _ _ Hn); lia|].
  apply (stuck_answered executes valid valid_total). eapply turns_ok; [exact valid_returns| |exact Hn]. by eapply reachable_ok.
Qed.

(** C23: EnsureSearchWorkersStarted asks only whether there are workers: when a
    task panics, sixteen calls leave sixteen dead workers, and from then on, until
    someone stops the workers, no task is ever answered. *)
Theorem panics_end_service {Rt : Type} (executes : Rt -> SearchTaskState -> option (list SearchResult) -> Prop)
    (rt : Rt) query vector streams top_k mode ef :
  executes rt (queued_task query vector streams top_k mode ef) None ->
  exists s, reachable executes (fun _ _ => True) s /\ client s = Idle /\ length (tickets s) = SEARCH_WORKERS /\
    Forall (fun tk => Wait (tk_reply tk) = Some []) (tickets s) /\
    forall s', rtc (serve executes) s s' -> forall r tk, tickets s' !! r = Some tk -> SEARCH_WORKERS <= r -> Wait (tk_reply tk) = None.
Proof.
  intros Hp. exists (after_panics rt query vector streams top_k mode ef SEARCH_WORKERS Idle).
  split; [exists rt; apply (panics_reach executes rt query vector streams top_k mode ef Hp 15); vm_compute; lia|].
  split; [done|]. split; [by cbn|]. split; [by repeat constructor|]. intros s' Hs r tk Htk Hr.
  rewrite (dead_serves executes _ s' (panics_dead rt query vector streams top_k mode ef) Hs r tk Htk Hr). done.
Qed.

(** * Witnesses *)

(** A search that finds nothing; a query asking for -1 results panics. *)
Definition sample_executes (rt : unit) (task : SearchTaskState) (out : option (list SearchResult)) : Prop :=
  out = if (task_top_k task <? 0)%Z then None else Some [].
Definition sample_valid (rt : unit) (task : SearchTaskState) : Prop := (0 <= task_top_k task)%Z.

Definition sample_queue : SearchQueueState := EnqueueWithMode (of_string "car") [] [] 10 ModeDefault 10 (queue_new tt).

Lemma search_tasks_answered_witness : reachable sample_executes sample_valid sample_queue /\ 0 <= work sample_queue /\
  (stuck sample_executes sample_queue -> client sample_queue = Idle).
Proof.
  assert (Hr : reachable sample_executes sample_valid sample_queue).
  { exists tt. eapply rtc_l; [by apply (act_enqueue _ _ _ (of_string "car") [] [] 10 ModeDefault 10)|]. apply rtc_refl. }
  split; [exact Hr|]. destruct (search_tasks_answered sample_executes sample_valid) with (s := sample_queue) (n := 0) (s' := sample_queue) as [Hn Hs].
  - intros rt task out Hv Ho. unfold sample_executes in Ho. unfold sample_valid in Hv. rewrite (proj2 (Z.ltb_ge _ _) Hv) in Ho. rewrite Ho. by eexists.
  - intros rt task _. by eexists.
  - exact Hr.
  - constructor.
  - split; [exact Hn|]. intros Hstuck. apply (Hs Hstuck).
Defined.

Lemma panics_end_service_witness : exists s, reachable sample_executes (fun _ _ => True) s /\ length (tickets s) = 16.
Proof.
  destruct (panics_end_service sample_executes tt (of_string "car") [] [] (-1) ModeDefault 10) as (s & Hr & _ & Hl & _).
  - reflexivity.
  - exists s. split; [exact Hr|exact Hl].
Defined.

(** One worker answers one task. *)
Section answered.
Context {Rt : Type} (executes : Rt -> SearchTaskState -> option (list SearchResult) -> Prop) (valid : Rt -> SearchTaskState -> Prop).
Context (rt : Rt) (query : bytes) (vector : list f32) (streams : bytes) (top_k : Z) (mode : QueryCompileMode) (ef : Z).
Let task := queued_task query vector streams top_k mode ef.
Let pending := {| tk_task := task; tk_runtime := rt; tk_reply := Pending |}.

Definition answered_queue (results : list SearchResult) : SearchQueueState :=
  quiet_queue rt (replicate SEARCH_WORKERS Looking) [{| tk_task := task; tk_runtime := rt; tk_reply := Sent results |}] Idle.

Lemma answered_reachable results : valid rt task -> executes rt task (Some results) -> reachable executes valid (answered_queue results).
Proof.
  intros Hv Hex. exists rt. etrans; [by apply (first_call executes valid rt query vector streams top_k mode ef)|]. fold task.
  eapply rtc_l with (y := with_client (with_queue (quiet_queue rt (replicate SEARCH_WORKERS Looking) [pending] Idle) [0]) Notifying);
    [by apply act_client|].
  eapply rtc_l with (y := with_queue (quiet_queue rt (replicate SEARCH_WORKERS Looking) [pending] Idle) [0]); [by apply act_client|].
  eapply rtc_l with (y := quiet_queue rt (Executing 0 :: replicate 15 Looking) [pending] Idle); [by apply (act_look _ _ _ _ 0)|].
  eapply rtc_l; [|apply rtc_refl]. by apply (act_finish _ _ _ _ 0 0 pending (Some results)).
Qed.
End answered.

#[local] Instance sample_search_libm : Libm := sample_libm.
#[local] Instance sample_search_tokenizer : Tokenizer := sample_tokenizer.

Lemma visits_unique {R} `{IndexReader R} entry_of parameters vector (r : R) ds all all' :
  visits entry_of parameters vector r ds all -> visits entry_of parameters vector r ds all' -> all = all'.
Proof.
  intros Hv. revert all'. induction Hv as [r|r d ds entry r1 s r2 mask r3 all Hd He Hs Hm Hn Hv IH]; intros all' Hv'; inversion Hv'; subst; [done|].
  assert (Heq : Some entry = Some entry0) by (rewrite <- He; done). injection Heq as <-.
  match goal with H1 : converges (fun n => GetScore n r entry) _ |- _ => pose proof (converges_unique _ _ _ Hs H1) as Heq end. injection Heq as <- <-.
  match goal with H1 : converges (fun n => GetSourceMask n r1) _ |- _ => pose proof (converges_unique _ _ _ Hm H1) as Heq end. injection Heq as <- <-.
  match goal with H1 : converges (fun n => GoNext n r2) _ |- _ => pose proof (converges_unique _ _ _ Hn H1) as <- end.
  f_equal. by apply IH.
Qed.

Lemma sample_delta_searches : match rt_delta (from_context sample_context) with
  | Some d => searches d delta_store | None => False end.
Proof. exact (from_context_delta sample_context (Some delta_store) delta_searchable). Qed.

Lemma task_either_state task results : vector_only (task_tree task) = false ->
  executes_in (Hp := list SearchResult) no_vectors no_vectors kWeakAndBigramParameters true (from_context sample_context) task results ->
  valid_task (Hp := list SearchResult) no_vectors no_vectors kWeakAndBigramParameters (from_context sample_context) task.
Proof.
  intros Hv Hc built. exists results. destruct Hc as [n Hn]. exists n. intros k Hk. rewrite <- (Hn k Hk).
  unfold rt_ExecuteSearchTask, ExecuteSearchTask. cbv zeta.
  by rewrite (rt_get_reader_text _ no_vectors (index_search true no_vectors) no_vectors (index_search built no_vectors) k _ Hv).
Qed.

Lemma Wait_top_k_witness : exists reader all,
  converges (fun k => rt_get_reader no_vectors no_vectors (from_context sample_context) k (task_tree title_task)) reader /\
  visits (rt_GetDocDataEntry (from_context sample_context)) kWeakAndBigramParameters None reader
    (rt_tree_docs no_vectors no_vectors (from_context sample_context) base_store delta_store (task_tree title_task)) all /\
  (no_nan all -> exists s results,
     reachable (executes_task (Hp := list SearchResult) no_vectors no_vectors kWeakAndBigramParameters)
       (valid_task (Hp := list SearchResult) no_vectors no_vectors kWeakAndBigramParameters) s /\
     option_map (fun tk => Wait (tk_reply tk)) (tickets s !! 0) = Some (Some results) /\ top_results (Some 2) all results).
Proof.
  assert (Hne : IsEmpty (task_tree title_task) = false) by (vm_compute; reflexivity).
  assert (Htext : vector_only (task_tree title_task) = false) by (vm_compute; reflexivity).
  assert (Hv0 : (if HasTextQuery (task_tree title_task) && HasVectorQuery (task_tree title_task) then Some (vector_query (task_tree title_task)) else None) = None)
    by (vm_compute; reflexivity).
  pose proof (from_context_searches sample_context base_store base_searchable) as Hb. pose proof sample_delta_searches as Hd.
  assert (Hfind : forall store, finds_documents no_vectors store) by (intros store q k ef; split; constructor).
  destruct (rt_ExecuteSearchTask_ok (Hp := list SearchResult) no_vectors no_vectors kWeakAndBigramParameters (from_context sample_context) base_store
    (Some delta_store) Hb Hd (Hfind _) (Hfind _) title_task Hne) as (reader & all & Hr & Hv & Hres).
  cbv zeta in Hv. rewrite Hv0 in Hv. exists reader, all. split; [exact Hr|]. split; [exact Hv|]. intros Hnan.
  destruct (Hres Hnan) as (results & Hconv & _).
  pose proof (answered_reachable (executes_task (Hp := list SearchResult) no_vectors no_vectors kWeakAndBigramParameters)
    (valid_task (Hp := list SearchResult) no_vectors no_vectors kWeakAndBigramParameters) (from_context sample_context)
    [97%Z] [] (of_string "T") 2 ModeDefault 10 results (task_either_state title_task results Htext Hconv) (ex_intro _ true Hconv)) as Hreach.
  eexists _, results. split; [exact Hreach|]. split; [reflexivity|].
  destruct (Wait_top_k (Hp := list SearchResult) no_vectors no_vectors kWeakAndBigramParameters (from_context sample_context) base_store (Some delta_store)
    Hb Hd (Hfind _) (Hfind _) _ 0 _ results Hreach eq_refl eq_refl eq_refl Hne) as (built & reader' & all' & Hbuilt & _ & Hr' & Hv' & Htop).
  change (tk_task _) with title_task in Hbuilt, Hr', Hv', Htop. rewrite Hv0 in Hv'. rewrite (Hbuilt Htext) in Hr', Hv'.
  change (index_search true no_vectors) with no_vectors in Hr', Hv'.
  pose proof (converges_unique _ _ _ Hr Hr') as <-. pose proof (visits_unique _ _ _ _ _ _ _ Hv Hv') as <-. exact (Htop Hnan).
Defined.
