(* ===== verification/Documents.v ===== *)
(** Documents on their way into a posting store (IndexContext.rs: Document and
    the store half of AddDocument): the five token streams, and the invariant
    that makes every store of documents one the index format can hold. *)

From Stdlib Require Import Ascii String.
From Stdlib Require Import ZArith Lia ZifyBool Bool List.
From stdpp Require Import base list list_numbers gmap sorting.
From S2P Require Import Prelude Floats PostingCodec PostingStore IndexWriter PathSidecar DocData IndexReader EvalExpression IndexBuilder Runtime.

Local Open Scope moon_scope.

(** * Documents *)

Module Doc.
Record Document := {
  doc_id : Z;
  path : str;
  url : str;
  title : str;
  body : str;
  anchor : str;
  meta : str;
  importance : f32;
}.

Definition default : Document :=
  {| doc_id := u64_max; path := []; url := []; title := []; body := []; anchor := []; meta := []; importance := f_of_Z F32 0 |}.
End Doc.

Section writing.
Context `{HashOrder, Tokenizer}.
Implicit Types s : PostingStore.

Definition document_url (doc : Doc.Document) : str := if bool_decide (Doc.url doc = []) then Doc.path doc else Doc.url doc.

(** The token lists of a document, in the order they are written. *)
Definition document_streams (doc : Doc.Document) : list (str * list str) :=
  [(of_string "Title", Tokenize (Doc.title doc));
   (of_string "URL", Tokenize (document_url doc));
   (of_string "Anchor", Tokenize (Doc.anchor doc));
   (of_string "Body", Tokenize (Doc.body doc));
   (of_string "Meta", Tokenize (Doc.meta doc))].

Definition write_streams (docId : Z) (streams : list (str * list str)) s : PostingStore :=
  fold_left (fun s '(name, tokens) => Write s tokens docId name) streams s.

(** What AddDocument does to the store; [model] embeds the tokens when a vector is wanted. *)
Definition write_document (model : option EmbeddingModel) s (docId : Z) (doc : Doc.Document) : PostingStore :=
  let s := write_streams docId (document_streams doc) s in
  let s := writer_SetDocImportance s docId (Doc.importance doc) in
  let s := match model with
           | Some model => writer_SetDocVector s docId (@Embed model (concat (map snd (document_streams doc))))
           | None => s
           end in
  if bool_decide (Doc.path doc = []) then s else SetDocPath s docId (Doc.path doc).
End writing.

(** * The frequencies of a store *)

(** The frequency of a key in a document. *)
Definition frequency (s : PostingStore) (key : str) (d : Z) : option Z := default ∅ (abs_postings s !! key) !! d.

(** Postings of at most eleven bytes. *)
Lemma length_enc_pairs_max ps : length (enc_pairs ps) <= 11 * length ps.
Proof.
  unfold enc_pairs. induction ps as [|p ps IH]; [done|]. cbn [map concat]. rewrite length_app. pose proof (length_enc_pair_max p). cbn [length]. lia.
Qed.

(** A string is always UTF-8. *)
Class TokenizerSpec `{Tokenizer} :=
  tokens_utf8 : forall text, is_utf8 text = true -> Forall (fun t => is_utf8 t = true) (Tokenize text).

Lemma occurrences_nil t : occurrences [] t = 0.
Proof. done. Qed.

(** A term that occurs is a token, or two tokens around the separator. *)
Lemma occurrences_utf8 words t : Forall (fun w => is_utf8 w = true) words -> occurrences words t <> 0 -> is_utf8 t = true.
Proof.
  intros Hw Ho. rewrite Forall_forall in Hw. unfold occurrences in Ho.
  destruct (filter (fun w => w = t /\ w <> []) words) as [|w l] eqn:E1.
  - destruct (filter (fun p => bigram p = t /\ p.1 <> [] /\ p.2 <> []) (windows2 words)) as [|p l] eqn:E2; [done|].
    assert (Hp : p ∈ filter (fun p => bigram p = t /\ p.1 <> [] /\ p.2 <> []) (windows2 words)) by (rewrite E2; by left).
    apply list_elem_of_filter in Hp as [(<- & _) Hp]. destruct p as [a b]. apply elem_of_zip_l in Hp as Ha. apply elem_of_zip_r in Hp as Hb.
    unfold bigram. cbn. apply is_utf8_app; [by apply Hw|]. rewrite is_utf8_ascii by (unfold IndexWriter.BIGRAM_SEP; lia). apply Hw.
    destruct words as [|x words]; [done|by right].
  - assert (Hin : w ∈ filter (fun w => w = t /\ w <> []) words) by (rewrite E1; by left).
    apply list_elem_of_filter in Hin as [[<- _] Hin]. by apply Hw.
Qed.

Lemma stream_letter stream : (0 <= StreamAbbrev stream < 128)%Z.
Proof. destruct (stream_len_cases stream) as [<-|[<-|[<-|[<-|[<-|[]]]]]]; vm_compute; done. Qed.

(** How often a token list writes a key: its term must be under the letter of the stream. *)
Definition stream_count (words : list str) (stream key : str) : nat :=
  if bool_decide (last key = Some (StreamAbbrev stream)) then occurrences words (removelast key) else 0.

Lemma stream_count_term words stream t : stream_count words stream (t ++ [StreamAbbrev stream]) = occurrences words t.
Proof. unfold stream_count. rewrite last_snoc, bool_decide_eq_true_2, removelast_last by done. done. Qed.

Lemma stream_count_some words stream key : stream_count words stream key <> 0 ->
  exists t, key = t ++ [StreamAbbrev stream] /\ occurrences words t <> 0.
Proof.
  unfold stream_count. case_bool_decide as Hl; [|done]. intros Ho. exists (removelast key). split; [|done].
  destruct key as [|x key] using rev_ind; [done|]. rewrite last_snoc in Hl. injection Hl as ->. by rewrite removelast_last.
Qed.

Section streams.
Context `{HashOrder}.
Implicit Types s : PostingStore.

(** One stream of a document: its own keys get its counts, everything else stays. *)
Lemma Write_frequency s words doc stream key d : store_ok s ->
  store_ok (Write s words doc stream) /\
  (abs_postings (Write s words doc stream) !! key = Some ∅ -> abs_postings s !! key = Some ∅) /\
  frequency (Write s words doc stream) key d =
    if decide (d = doc /\ stream_count words stream key <> 0)
    then Some (wrap 32 (Z.of_nat (stream_count words stream key))) else frequency s key d.
Proof.
  intros Hs. destruct (decide (words = [])) as [->|Hne].
  { unfold Write. rewrite bool_decide_eq_true_2 by done. split; [done|]. split; [done|]. rewrite decide_False; [done|]. unfold stream_count.
    by case_bool_decide; intros [_ ?]. }
  destruct (Write_adds s words doc stream key Hs Hne) as (Hok & Hin & Hout). split; [done|]. unfold frequency.
  destruct (decide (stream_count words stream key = 0)) as [Hz|Hno].
  - rewrite Hout, decide_False; [done|by intros [_ ?]|]. intros t ->. by rewrite stream_count_term in Hz.
  - destruct (stream_count_some _ _ _ Hno) as (t & -> & Ho). rewrite stream_count_term in *.
    rewrite (Hin t eq_refl Ho). cbn [default from_option id]. split; [by intros [= ?%insert_non_empty]|]. destruct (decide (d = doc)) as [->|Hd].
    + by rewrite lookup_insert_eq, decide_True.
    + by rewrite lookup_insert_ne, decide_False by (done || by intros [? _]).
Qed.

End streams.

(** * What a document changes *)

(** Only the statistics of one document change, and they stay well-formed. *)
Record updates (doc : Z) (s s' : PostingStore) : Prop := {
  up_vectors : m_DocVectors s' = m_DocVectors s;
  up_others : forall d, d <> doc -> m_DocStats s' !! d = m_DocStats s !! d;
  up_wf : doc_wf doc (stats_of s doc) -> doc_wf doc (stats_of s' doc);
}.

Lemma updates_refl doc s : updates doc s s.
Proof. done. Qed.

Lemma updates_trans doc s1 s2 s3 : updates doc s1 s2 -> updates doc s2 s3 -> updates doc s1 s3.
Proof. intros [V1 O1 W1] [V2 O2 W2]. split; [congruence| |auto]. intros d Hd. by rewrite O2, O1. Qed.

Lemma updates_stats doc s s' st n : m_DocStats s' = m_DocStats s -> m_DocVectors s' = m_DocVectors s ->
  (doc_wf doc (stats_of s doc) -> doc_wf doc st) -> updates doc s (with_stats s' (<[doc := st]> (m_DocStats s')) n).
Proof.
  intros Hst Hv Hwf. split; cbn; [done|intros d Hd; by rewrite lookup_insert_ne, Hst|].
  intros Hd. unfold stats_of at 1. cbn. rewrite lookup_insert_eq. by apply Hwf.
Qed.

(** A change of the statistics that keeps the path or sets a good one. *)
Ltac keeps_doc_wf := intros (?Hd & ?H1 & ?H2 & ?H3 & ?H4 & ?H5 & ?H6 & ?H7); unfold doc_wf; cbn;
  pose proof (fun x y => wrap_range 32 (x + y) ltac:(lia)) as Hrange; unfold wrapping_add;
  repeat first [assumption | apply Hrange | match goal with |- _ /\ _ => split | |- context [if ?b then _ else _] => destruct b end].

Lemma AddDocTokens_updates s doc n : updates doc s (AddDocTokens s doc n).
Proof. apply updates_stats; [done|done|]. keeps_doc_wf. Qed.

Lemma AddStreamStats_updates s doc c n u : updates doc s (AddStreamStats s doc c n u).
Proof. apply updates_stats; [done|done|]. keeps_doc_wf. Qed.

Lemma SetDocImportance_updates s doc x : updates doc s (SetDocImportance s doc x).
Proof. apply updates_stats; [done|done|]. keeps_doc_wf. Qed.

Lemma SetDocPath_updates s doc p : path_wf p -> updates doc s (SetDocPath s doc p).
Proof. intros [Hu Hp]. apply updates_stats; [done|done|]. keeps_doc_wf. Qed.

Lemma Write_updates `{HashOrder} s words doc stream : updates doc s (Write s words doc stream).
Proof.
  unfold Write. case_bool_decide; [done|]. cbv zeta.
  set (terms := hash_order _). clearbody terms.
  destruct (add_terms_frame (StreamAbbrev stream) doc terms s) as (Hst & Hv & _).
  eapply updates_trans; [|apply AddStreamStats_updates]. eapply updates_trans; [|apply AddDocTokens_updates].
  split; [done|by rewrite Hst|]. unfold stats_of. by rewrite Hst.
Qed.

(** * The corpus invariant *)

(** What every store of documents keeps. *)
Record corpus_ok (s : PostingStore) : Prop := {
  co_store : store_ok s;
  co_keys : forall key d, is_Some (frequency s key d) -> is_utf8 key = true /\ key <> [];
  co_postings : forall key, abs_postings s !! key <> Some ∅;
  co_known : forall key d, is_Some (frequency s key d) -> is_Some (m_DocStats s !! d);
  co_docs : docs_wf s;
}.

(** The same with one document in the making. *)
Record pending_ok (doc : Z) (s : PostingStore) : Prop := {
  pe_store : store_ok s;
  pe_keys : forall key d, is_Some (frequency s key d) -> is_utf8 key = true /\ key <> [];
  pe_postings : forall key, abs_postings s !! key <> Some ∅;
  pe_known : forall key d, is_Some (frequency s key d) -> d = doc \/ is_Some (m_DocStats s !! d);
  pe_vectors : map_Forall (fun _ v => vector_wf v) (m_DocVectors s);
  pe_docs : forall d st, m_DocStats s !! d = Some st -> doc_wf d st;
  pe_doc : doc_wf doc (stats_of s doc);
}.

Lemma pending_start doc s : corpus_ok s -> (0 <= doc < u32_max)%Z -> pending_ok doc s.
Proof.
  intros [H1 H2 H3 H4 [H5 H6]] Hd. split; try done; [intros key d Hk; right; by eapply H4|].
  unfold stats_of. destruct (m_DocStats s !! doc) as [st|] eqn:E; cbn; [by apply (H5 doc)|].
  split; [done|]. repeat (split; [done|]). vm_compute. done.
Qed.

Lemma pending_finish doc s : pending_ok doc s -> is_Some (m_DocStats s !! doc) -> corpus_ok s.
Proof. intros [H1 H2 H3 H4 H5 H6 H7] Hd. split; try done. intros key d Hk. by destruct (H4 key d Hk) as [->|?]. Qed.

Lemma corpus_new : corpus_ok store_new.
Proof.
  assert (Hf : forall key d, ~ is_Some (frequency store_new key d)).
  { intros key d [x Hx]. unfold frequency, abs_postings in Hx. rewrite lookup_fmap in Hx. by cbn in Hx. }
  split; try (by intros ? ? ?%Hf); [exact store_new_ok| |split; apply map_Forall_empty].
  intros key. unfold abs_postings. by rewrite lookup_fmap.
Qed.

Lemma frequency_postings s s' : m_Postings s' = m_Postings s -> forall key d, frequency s' key d = frequency s key d.
Proof. intros Hp key d. unfold frequency, abs_postings. by rewrite Hp. Qed.

Lemma updates_lookup doc s s' d st : updates doc s s' -> (forall d st, m_DocStats s !! d = Some st -> doc_wf d st) -> doc_wf doc (stats_of s doc) ->
  m_DocStats s' !! d = Some st -> doc_wf d st.
Proof.
  intros [_ Ho Hw] Hs Hd Hl. destruct (decide (d = doc)) as [->|Hne].
  - specialize (Hw Hd). unfold stats_of in Hw. by rewrite Hl in Hw.
  - rewrite Ho in Hl by done. by apply Hs.
Qed.

Lemma updates_known doc s s' d : updates doc s s' -> d = doc \/ is_Some (m_DocStats s !! d) -> d = doc \/ is_Some (m_DocStats s' !! d).
Proof. intros [_ Ho _] [->|Hd]; [by left|]. destruct (decide (d = doc)) as [->|Hne]; [by left|]. right. by rewrite Ho. Qed.

Lemma pending_Write `{HashOrder} doc s words stream : Forall (fun w => is_utf8 w = true) words ->
  pending_ok doc s -> pending_ok doc (Write s words doc stream).
Proof.
  intros Hw [H1 H2 H3 H4 H5 H6 H7]. pose proof (Write_updates s words doc stream) as Hup.
  assert (Hf := fun key d => Write_frequency s words doc stream key d H1).
  split.
  - apply (Hf [] 0%Z).
  - intros key d. destruct (Hf key d) as (_ & _ & ->). case_decide as Hc; [|apply H2]. intros _.
    destruct (stream_count_some _ _ _ (proj2 Hc)) as (t & -> & Ho). split; [|by destruct t]. apply is_utf8_app; [by eapply occurrences_utf8|].
    by rewrite is_utf8_ascii by apply stream_letter.
  - intros key Hk. destruct (Hf key 0%Z) as (_ & He & _). by apply (H3 key), He.
  - intros key d. destruct (Hf key d) as (_ & _ & ->). case_decide as Hc; [by left; apply Hc|]. intros Hk. by eapply updates_known, H4.
  - by rewrite (up_vectors _ _ _ Hup).
  - intros d st. by eapply updates_lookup.
  - by apply (up_wf _ _ _ Hup).
Qed.

Lemma pending_updates doc s s' : m_Postings s' = m_Postings s -> m_PostingEntries s' = m_PostingEntries s ->
  updates doc s s' -> pending_ok doc s -> pending_ok doc s'.
Proof.
  intros Hp He Hup [H1 H2 H3 H4 H5 H6 H7]. pose proof (frequency_postings _ _ Hp) as Hf. split.
  - unfold store_ok. by rewrite Hp, He.
  - intros key d. rewrite Hf. apply H2.
  - intros key. unfold abs_postings. rewrite Hp. apply H3.
  - intros key d. rewrite Hf. intros Hk. by eapply updates_known, H4.
  - by rewrite (up_vectors _ _ _ Hup).
  - intros d st. by eapply updates_lookup.
  - by apply (up_wf _ _ _ Hup).
Qed.

Lemma pending_SetDocVector doc s v : pending_ok doc s -> pending_ok doc (SetDocVector s doc v).1.
Proof.
  unfold SetDocVector. destruct (negb _); [done|]. intros Hs.
  pose proof (pending_updates doc s (with_stats s (<[doc := stats_of s doc]> (m_DocStats s)) (m_TotalTerms s)) eq_refl eq_refl
    (updates_stats doc s s _ _ eq_refl eq_refl id) Hs) as [H1 H2 H3 H4 H5 H6 H7].
  split; try done. cbn in *. apply map_Forall_insert_2; [|done]. destruct (QuantizeVector_range v) as [Hl Hr]. split; [done|].
  eapply Forall_impl; [exact Hr|]. cbn. lia.
Qed.

(** The fields of a document are strings, and its path fits the prefix table. *)
Definition document_wf (doc : Doc.Document) : Prop :=
  Forall (fun t => is_utf8 t = true) [Doc.title doc; Doc.url doc; Doc.anchor doc; Doc.body doc; Doc.meta doc] /\ path_wf (Doc.path doc).

Section documents.
Context `{HashOrder, TokenizerSpec}.

Lemma document_tokens_utf8 doc : document_wf doc -> Forall (fun st => Forall (fun t => is_utf8 t = true) st.2) (document_streams doc).
Proof.
  intros [Hf [Hp _]]. rewrite !Forall_cons in Hf. destruct Hf as (? & ? & ? & ? & ? & _).
  repeat constructor; cbn; apply tokens_utf8; try done. unfold document_url. by case_bool_decide.
Qed.

Lemma pending_streams doc streams s : Forall (fun st => Forall (fun t => is_utf8 t = true) st.2) streams ->
  pending_ok doc s -> pending_ok doc (write_streams doc streams s).
Proof.
  intros Hst. revert s. induction Hst as [|[name tokens] streams Ht _ IH]; intros s Hs; [done|]. cbn. by apply IH, pending_Write.
Qed.

Lemma write_document_ok model s docId doc : corpus_ok s -> (0 <= docId < u32_max)%Z -> document_wf doc ->
  corpus_ok (write_document model s docId doc) /\ is_Some (m_DocStats (write_document model s docId doc) !! docId).
Proof.
  intros Hs Hid Hwf. unfold write_document.
  pose proof (pending_streams docId (document_streams doc) s (document_tokens_utf8 doc Hwf) (pending_start docId s Hs Hid)) as P1.
  set (s1 := write_streams _ _ _) in *. clearbody s1.
  pose proof (pending_updates docId s1 (SetDocImportance s1 docId (Doc.importance doc)) eq_refl eq_refl (SetDocImportance_updates _ _ _) P1) as P2.
  change (SetDocImportance s1 docId) with (writer_SetDocImportance s1 docId) in P2.
  assert (K2 : is_Some (m_DocStats (writer_SetDocImportance s1 docId (Doc.importance doc)) !! docId)).
  { unfold writer_SetDocImportance, SetDocImportance. cbn. by rewrite lookup_insert_eq. }
  set (s2 := writer_SetDocImportance _ _ _) in *. clearbody s2.
  set (s3 := match model with Some _ => _ | None => s2 end).
  assert (P3 : pending_ok docId s3 /\ is_Some (m_DocStats s3 !! docId)).
  { unfold s3. destruct model as [m|]; [|done]. split; [by apply pending_SetDocVector|].
    unfold writer_SetDocVector, SetDocVector. destruct (negb _); cbn; [done|by rewrite lookup_insert_eq]. }
  clearbody s3. destruct P3 as [P3 K3].
  case_bool_decide; [split; [by apply (pending_finish docId)|done]|].
  assert (K4 : is_Some (m_DocStats (SetDocPath s3 docId (Doc.path doc)) !! docId)) by (unfold SetDocPath; cbn; by rewrite lookup_insert_eq).
  split; [|done]. apply (pending_finish docId); [|done]. eapply pending_updates; [..|exact P3]; [done|done|]. apply SetDocPath_updates, Hwf.
Qed.

(** A key that no stream of the document counts keeps its frequencies, and so does every other document. *)
Lemma write_streams_other doc streams s key d : store_ok s ->
  d <> doc \/ Forall (fun st => stream_count st.2 st.1 key = 0) streams ->
  store_ok (write_streams doc streams s) /\ frequency (write_streams doc streams s) key d = frequency s key d.
Proof.
  intros Hs Hno. revert s Hs. induction streams as [|[name tokens] streams IH]; intros s Hs; [done|].
  change (write_streams doc ((name, tokens) :: streams) s) with (write_streams doc streams (Write s tokens doc name)).
  destruct (Write_frequency s tokens doc name key d Hs) as (Hok & _ & Hf).
  destruct (IH ltac:(destruct Hno as [|Hno]; [by left|right; by inversion Hno]) _ Hok) as [Hok' ->]. split; [done|].
  rewrite Hf, decide_False; [done|]. intros [-> Hc]. destruct Hno as [|Hno]; [done|]. by inversion Hno.
Qed.

Lemma other_letter words name t c : StreamAbbrev name <> c -> stream_count words name (t ++ [c]) = 0.
Proof. intros Hc. unfold stream_count. rewrite last_snoc. case_bool_decide as E; [by injection E as ->|done]. Qed.

(** A stream whose letter no other stream has decides the keys under its letter. *)
Lemma write_streams_own doc streams s name tokens t : store_ok s -> NoDup (map (fun st => StreamAbbrev st.1) streams) -> (name, tokens) ∈ streams ->
  frequency (write_streams doc streams s) (t ++ [StreamAbbrev name]) doc =
    if decide (occurrences tokens t = 0) then frequency s (t ++ [StreamAbbrev name]) doc else Some (wrap 32 (Z.of_nat (occurrences tokens t))).
Proof.
  intros Hs Hnd (pre & post & ->)%list_elem_of_split. rewrite map_app in Hnd. cbn in Hnd.
  apply NoDup_app in Hnd as (_ & Hpre & [Hpost _]%NoDup_cons).
  assert (Hother : forall l, StreamAbbrev name ∉ map (fun st : str * list str => StreamAbbrev st.1) l ->
    Forall (fun st => stream_count st.2 st.1 (t ++ [StreamAbbrev name]) = 0) l).
  { intros l Hl. apply Forall_forall. intros st Hst. apply other_letter. intros Heq. apply Hl. rewrite <- Heq. by apply (list_elem_of_fmap_2 (fun st => StreamAbbrev st.1)). }
  unfold write_streams. rewrite fold_left_app. cbn [fold_left]. change (fold_left _ pre s) with (write_streams doc pre s).
  destruct (write_streams_other doc pre s (t ++ [StreamAbbrev name]) doc Hs) as [Hok Hf].
  { right. apply Hother. intros Hin. apply (Hpre _ Hin). by left. }
  destruct (Write_frequency (write_streams doc pre s) tokens doc name (t ++ [StreamAbbrev name]) doc Hok) as (Hok2 & _ & Hf2).
  change (fold_left _ post ?s0) with (write_streams doc post s0).
  destruct (write_streams_other doc post _ (t ++ [StreamAbbrev name]) doc Hok2 (or_intror (Hother _ Hpost))) as [_ ->].
  rewrite Hf2, stream_count_term, Hf. destruct (decide (occurrences tokens t = 0)); [by rewrite decide_False by (by intros [_ ?])|by rewrite decide_True].
Qed.

Lemma document_letters doc : NoDup (map (fun st => StreamAbbrev st.1) (document_streams doc)).
Proof. apply (bool_decide_unpack _). vm_compute. reflexivity. Qed.

(** The rest of write_document leaves the postings alone. *)
Lemma write_document_postings model s docId doc :
  m_Postings (write_document model s docId doc) = m_Postings (write_streams docId (document_streams doc) s).
Proof.
  unfold write_document. set (s1 := write_streams _ _ _). clearbody s1. cbv zeta.
  case_bool_decide; destruct model; unfold SetDocPath, writer_SetDocVector, SetDocVector, writer_SetDocImportance, SetDocImportance;
    try (destruct (negb _)); reflexivity.
Qed.

Lemma write_streams_others doc streams s d : d <> doc -> m_DocStats (write_streams doc streams s) !! d = m_DocStats s !! d.
Proof.
  intros Hd. revert s. induction streams as [|[name tokens] streams IH]; intros s; [done|].
  change (write_streams doc ((name, tokens) :: streams) s) with (write_streams doc streams (Write s tokens doc name)). rewrite IH. by apply (up_others _ _ _ (Write_updates _ _ _ _)).
Qed.

Lemma write_document_others model s docId doc d : d <> docId -> m_DocStats (write_document model s docId doc) !! d = m_DocStats s !! d.
Proof.
  intros Hd. rewrite <- (write_streams_others docId (document_streams doc) s d Hd). unfold write_document.
  set (s1 := write_streams _ _ _). clearbody s1. cbv zeta.
  case_bool_decide; destruct model; unfold SetDocPath, writer_SetDocVector, SetDocVector, writer_SetDocImportance, SetDocImportance;
    try (destruct (negb _)); cbn; rewrite ?lookup_insert_ne by done; done.
Qed.
End documents.

(** * Corpora fit the index format *)

(** The format's limits are met up to 2^24 documents: a posting takes at most eleven bytes. *)
Lemma corpus_storable `{Libm} s : corpus_ok s -> (Z.of_nat (size (m_DocStats s)) <= 2 ^ 24)%Z -> storable s /\ docs_wf s /\ documented s.
Proof.
  intros [Hs Hk Hp Hn Hd] Hsize.
  assert (He : forall key pl e, m_Postings s !! key = Some pl -> e ∈ entries pl -> is_Some (frequency s key (ie_doc_id e))).
  { intros key pl e Hkey He. apply (proj1 (entries_map_elem _ _ (proj1 Hs _ _ Hkey))) in He. unfold frequency, abs_postings.
    rewrite lookup_fmap, Hkey. cbn. by eexists. }
  assert (Hne : forall key pl, m_Postings s !! key = Some pl -> exists e, e ∈ entries pl).
  { intros key pl Hkey. destruct (entries pl) as [|e es] eqn:E; [|exists e; by left]. exfalso. apply (Hp key). unfold abs_postings.
    by rewrite lookup_fmap, Hkey; cbn; rewrite E. }
  split; [|split; [done|]].
  - intros key pl Hkey. pose proof (proj1 Hs _ _ Hkey) as Hsorted. cbn in Hsorted.
    assert (Hdoc : forall d, d ∈ map ie_doc_id (entries pl) -> exists st, m_DocStats s !! d = Some st /\ doc_wf d st).
    { intros d (e & -> & Hin)%list_elem_of_fmap. destruct (Hn key _ (He _ _ _ Hkey Hin)) as [st Hst]. exists st. split; [done|]. by apply (proj1 Hd). }
    destruct (Hne _ _ Hkey) as [e Hin]. split; [apply (Hk _ _ (He _ _ _ Hkey Hin))|].
    assert (Hss : StronglySorted Z.lt (map ie_doc_id (entries pl))).
    { clear - Hsorted. induction Hsorted as [|x l _ IH Hlt]; [constructor|]. constructor; [done|]. by apply Forall_map. }
    split.
    + split; [done|]. apply Forall_forall. intros d Hd'. destruct (Hdoc d Hd') as (st & _ & Hr & _). unfold u32_max, NO_MORE_DOCS, u64_max in *. lia.
    + assert (Hlen : length (entries pl) <= size (m_DocStats s)).
      { rewrite <- size_entries_map, <- !size_dom by done. apply subseteq_size. intros d [x Hx]%elem_of_dom. apply elem_of_dom, (Hn key).
        exists x. unfold frequency, abs_postings. by rewrite lookup_fmap, Hkey. }
      rewrite get_bytes_pairs. pose proof (length_enc_pairs_max (pairs_of pl)) as Hb.
      unfold pairs_of in Hb at 2. rewrite length_map in Hb. lia.
  - split.
    + destruct (m_Postings s !! []) as [pl|] eqn:E; [|done]. destruct (Hne _ _ E) as [e Hin]. by destruct (Hk _ _ (He _ _ _ E Hin)).
    + intros key pl Hkey. apply Forall_forall. intros e Hin. by eapply Hn, He.
Qed.

(** * Properties *)

Lemma Write_path `{HashOrder} s words doc stream : path (stats_of (Write s words doc stream) doc) = path (stats_of s doc).
Proof.
  unfold Write. case_bool_decide; [done|]. cbv zeta. set (terms := hash_order _). clearbody terms.
  destruct (add_terms_frame (StreamAbbrev stream) doc terms s) as (Hst & _).
  unfold AddStreamStats, AddDocTokens, stats_of. cbn. by rewrite !lookup_insert_eq, Hst.
Qed.

Lemma write_streams_path `{HashOrder} doc streams s : path (stats_of (write_streams doc streams s) doc) = path (stats_of s doc).
Proof.
  revert s. induction streams as [|[name tokens] streams IH]; intros s; [done|].
  change (write_streams doc ((name, tokens) :: streams) s) with (write_streams doc streams (Write s tokens doc name)). by rewrite IH, Write_path.
Qed.

(** The document's statistics have its importance, and its path if it has one. *)
Lemma write_document_stats `{HashOrder, Tokenizer} model s docId doc :
  exists st, m_DocStats (write_document model s docId doc) !! docId = Some st /\ importance st = Doc.importance doc /\
    path st = if bool_decide (Doc.path doc = []) then path (stats_of s docId) else Doc.path doc.
Proof.
  unfold write_document. rewrite <- (write_streams_path docId (document_streams doc) s).
  set (s1 := write_streams _ _ _). clearbody s1. cbv zeta.
  case_bool_decide; destruct model; unfold SetDocPath, writer_SetDocVector, SetDocVector, writer_SetDocImportance, SetDocImportance, stats_of;
    try destruct (negb _); cbn; rewrite !lookup_insert_eq; eexists; (split; [reflexivity|done]).
Qed.

(** C6: adding a document to a well-formed store keeps it well-formed (keys that are strings, sorted
    postings without empty lists, statistics for every posted document, fields in the range of their
    records); the document is posted under each term of each of its five streams with the number of times
    the term occurs, and under no other key, it gets its importance and path, and no other document changes. *)
Theorem write_document_adds `{HashOrder, TokenizerSpec} model s docId doc :
  corpus_ok s -> (0 <= docId < u32_max)%Z -> document_wf doc ->
  let s' := write_document model s docId doc in
  corpus_ok s' /\
  (forall name tokens t, (name, tokens) ∈ document_streams doc ->
     frequency s' (t ++ [StreamAbbrev name]) docId =
       if decide (occurrences tokens t = 0) then frequency s (t ++ [StreamAbbrev name]) docId
       else Some (wrap 32 (Z.of_nat (occurrences tokens t)))) /\
  (forall key, Forall (fun st => stream_count st.2 st.1 key = 0) (document_streams doc) -> frequency s' key docId = frequency s key docId) /\
  (exists st, m_DocStats s' !! docId = Some st /\ importance st = Doc.importance doc /\
     path st = if bool_decide (Doc.path doc = []) then path (stats_of s docId) else Doc.path doc) /\
  (forall d, d <> docId -> m_DocStats s' !! d = m_DocStats s !! d /\ forall key, frequency s' key d = frequency s key d).
Proof.
  intros Hs Hid Hwf s'. pose proof (frequency_postings _ _ (write_document_postings model s docId doc)) as Hf. fold s' in Hf.
  split; [by apply write_document_ok|]. split; [|split; [|split; [apply write_document_stats|]]].
  - intros name tokens t Hin. rewrite Hf. apply write_streams_own; [apply Hs|apply document_letters|done].
  - intros key Hk. rewrite Hf. apply write_streams_other; [apply Hs|by right].
  - intros d Hd. split; [by apply write_document_others|]. intros key. rewrite Hf. apply write_streams_other; [apply Hs|by left].
Qed.

(** * Witness *)

(** A tokenizer that splits at spaces. *)
Definition words_of (text : bytes) : list bytes :=
  let step acc b := if (b =? 32)%Z then [] :: acc else match acc with [] => [[b]] | w :: ws => (w ++ [b]) :: ws end in
  rev (filter (fun w => is_utf8 w = true) (fold_left step text [])).
Definition space_tokenizer : Tokenizer := {| Tokenize := words_of |}.

Lemma space_tokenizer_spec : @TokenizerSpec space_tokenizer.
Proof.
  intros text _. cbn. unfold words_of. apply Forall_rev, Forall_forall. intros t Ht. by apply list_elem_of_filter in Ht as [? _].
Qed.

Definition sample_document : Doc.Document :=
  {| Doc.doc_id := u64_max; Doc.path := of_string "x/a.txt"; Doc.url := []; Doc.title := of_string "a b a"; Doc.body := of_string "b";
     Doc.anchor := []; Doc.meta := []; Doc.importance := f_of_Z F32 1 |}.

Lemma sample_document_wf : document_wf sample_document.
Proof. split; [apply (bool_decide_unpack _); vm_compute; reflexivity|]. split; vm_compute; reflexivity. Qed.

Lemma write_document_adds_witness :
  let s' := @write_document canonical_order space_tokenizer None store_new 7 sample_document in
  corpus_ok s' /\ frequency s' (of_string "aT") 7 = Some 2%Z /\ frequency s' (of_string "aB") 7 = None.
Proof.
  destruct (@write_document_adds canonical_order space_tokenizer space_tokenizer_spec None store_new 7 sample_document corpus_new
    ltac:(split; vm_compute; congruence) sample_document_wf) as (H1 & H2 & _).
  split; [exact H1|].
  split; [exact (H2 (of_string "Title") [[97]; [98]; [97]]%Z (of_string "a") ltac:(left))|
    exact (H2 (of_string "Body") [[98]]%Z (of_string "a") ltac:(do 3 right; left))].
Defined.
