(* ===== verification/Stemmer.v ===== *)
(** The English stemmer of the tokenizer (SmartTokenizer.rs): Porter2 over ASCII lowercase words. *)

From Stdlib Require Import ZArith Lia ZifyBool Bool String List.
From stdpp Require Import base list list_numbers.
From S2P Require Import Prelude.

Local Open Scope moon_scope.

(** * Words *)

(** [a - b] on [usize]; an underflow panics. *)
Definition usize_sub (a b : nat) : option nat := if b <=? a then Some (a - b) else None.

(** [iter.any(p)] where [p] may panic. *)
Fixpoint any_opt {A} (p : A -> option bool) (l : list A) : option bool :=
  match l with
  | [] => Some false
  | x :: l' => opt b := p x in if b then Some true else any_opt p l'
  end.

(** The first index that satisfies [p]. *)
Fixpoint find_opt (p : nat -> option bool) (l : list nat) : option (option nat) :=
  match l with
  | [] => Some None
  | x :: l' => opt b := p x in if b then Some (Some x) else find_opt p l'
  end.

Definition letter_y : Z := 121.

Definition is_vowel (ch : Z) : bool := existsb (fun v => ch =? v)%Z (of_string "aeiouy").

Definition is_vowel_at (word : str) (index : nat) (marked_y : list bool) : option bool :=
  opt ch := word !! index in Some (is_vowel ch && negb ((ch =? letter_y)%Z && default false (marked_y !! index))).

(** A [y] at the start or after a vowel counts as a consonant. *)
Definition mark_step (word : str) (marked : list bool) (index : nat) : option (list bool) :=
  opt ch := word !! index in
  if (ch =? letter_y)%Z then
    opt mark := if index =? 0 then Some true else is_vowel_at word (index - 1) marked in
    Some (if mark then <[index := true]> marked else marked)
  else Some marked.

Definition mark_consonant_y (word : str) : option (list bool) :=
  fold_option (mark_step word) (seq 0 (length word)) (replicate (length word) false).

Definition special_r1 (word : str) : nat :=
  if starts_with word (of_string "gener") then 5
  else if starts_with word (of_string "commun") then 6
  else if starts_with word (of_string "arsen") then 5 else 0.

Definition region_after_vowel_consonant (word : str) (marked_y : list bool) (start minimum : nat) : option nat :=
  if 0 <? minimum then Some (Nat.min minimum (length word))
  else
    opt found := find_opt (fun index =>
        opt before := is_vowel_at word (index - 1) marked_y in
        if before then option_map negb (is_vowel_at word index marked_y) else Some false)
      (seq (start + 1) (length word - (start + 1))) in
    Some (match found with Some index => index + 1 | None => length word end).

Definition replace_suffix (word suffix replacement : str) : option str :=
  opt n := usize_sub (length word) (length suffix) in Some (take n word ++ replacement).

Definition suffix_in_region (word suffix : str) (region : nat) : bool :=
  ends_with word suffix && (region <=? length word - length suffix).

Definition contains_vowel (word : str) (limit : nat) (marked_y : list bool) : option bool :=
  any_opt (fun index => is_vowel_at word index marked_y) (seq 0 limit).

(** [word.pop()]. *)
Definition pop (word : str) : str := take (length word - 1) word.

(** * The steps *)

Definition step_1a (word : str) (marked_y : list bool) : option str :=
  if ends_with word (of_string "sses") then replace_suffix word (of_string "sses") (of_string "ss")
  else if ends_with word (of_string "ied") || ends_with word (of_string "ies") then
    opt n := usize_sub (length word) 3 in
    let suffix := drop n word in
    let replacement := if 4 <? length word then of_string "i" else of_string "ie" in
    replace_suffix word suffix replacement
  else if ends_with word (of_string "us") || ends_with word (of_string "ss") then Some word
  else if ends_with word (of_string "s") && (2 <? length word) then
    opt vowel := contains_vowel word (length word - 2) marked_y in Some (if vowel then pop word else word)
  else Some word.

Definition is_short_syllable (word : str) (marked_y : list bool) : option bool :=
  if length word =? 2 then
    opt v0 := is_vowel_at word 0 marked_y in
    if v0 then option_map negb (is_vowel_at word 1 marked_y) else Some false
  else if length word <? 3 then Some false
  else
    let last := length word - 1 in
    opt a := is_vowel_at word (last - 2) marked_y in
    if a then Some false
    else
      opt b := is_vowel_at word (last - 1) marked_y in
      if negb b then Some false
      else
        opt c := is_vowel_at word last marked_y in
        if c then Some false else opt ch := word !! last in Some (negb (existsb (fun x => ch =? x)%Z (of_string "wxy"))).

Definition step_1b_suffixes : list str := map of_string ["ingly"; "edly"; "ing"; "ed"]%string.
Definition doubles : list str := map of_string ["bb"; "dd"; "ff"; "gg"; "mm"; "nn"; "pp"; "rr"; "tt"]%string.

Definition step_1b (word : str) (r1 : nat) (original_marked_y : list bool) : option str :=
  if suffix_in_region word (of_string "eedly") r1 then replace_suffix word (of_string "eedly") (of_string "ee")
  else if suffix_in_region word (of_string "eed") r1 then replace_suffix word (of_string "eed") (of_string "ee")
  else
    match List.find (ends_with word) step_1b_suffixes with
    | None => Some word
    | Some suffix =>
        opt stem_length := usize_sub (length word) (length suffix) in
        opt vowel := contains_vowel word stem_length original_marked_y in
        if negb vowel then Some word
        else
          let word := take stem_length word in
          if ends_with word (of_string "at") || ends_with word (of_string "bl") || ends_with word (of_string "iz")
          then Some (word ++ of_string "e")
          else if existsb (ends_with word) doubles then Some (pop word)
          else
            opt marked_y := mark_consonant_y word in
            if length word <=? r1 then
              opt short := is_short_syllable word marked_y in Some (if short then word ++ of_string "e" else word)
            else Some word
    end.

Definition step_1c (word : str) (marked_y : list bool) : option str :=
  if length word <=? 2 then Some word
  else
    opt last := word !! (length word - 1) in
    if ((last =? letter_y) || (last =? 89))%Z then
      opt v := is_vowel_at word (length word - 2) marked_y in
      Some (if v then word else pop word ++ of_string "i")
    else Some word.

Definition rules (l : list (string * string)) : list (str * str) := map (fun r => (of_string r.1, of_string r.2)) l.

Definition step_2_rules : list (str * str) := rules
  [("ization", "ize"); ("ational", "ate"); ("fulness", "ful"); ("ousness", "ous"); ("iveness", "ive"); ("tional", "tion");
   ("biliti", "ble"); ("lessli", "less"); ("entli", "ent"); ("ation", "ate"); ("alism", "al"); ("aliti", "al"); ("ousli", "ous");
   ("iviti", "ive"); ("fulli", "ful"); ("enci", "ence"); ("anci", "ance"); ("abli", "able"); ("izer", "ize"); ("ator", "ate");
   ("alli", "al"); ("bli", "ble"); ("ogi", "og")]%string.

Definition step_2 (word : str) (r1 : nat) : option str :=
  match List.find (fun r => suffix_in_region word r.1 r1) step_2_rules with
  | Some (suffix, replacement) =>
      opt allowed := if bool_decide (suffix <> of_string "ogi") then Some true
        else opt n := usize_sub (length word) (length suffix) in opt i := usize_sub n 1 in Some (bool_decide (word !! i = Some 108%Z)) in
      if allowed then replace_suffix word suffix replacement else Some word
  | None =>
      if suffix_in_region word (of_string "li") r1 then
        opt i := usize_sub (length word) 3 in
        opt preceding := word !! i in
        if existsb (fun x => preceding =? x)%Z (of_string "cdeghkmnrt") then replace_suffix word (of_string "li") [] else Some word
      else Some word
  end.

Definition step_3_rules : list (str * str) := rules
  [("ational", "ate"); ("tional", "tion"); ("alize", "al"); ("icate", "ic"); ("iciti", "ic"); ("ical", "ic"); ("ful", ""); ("ness", "")]%string.

Definition step_3 (word : str) (r1 r2 : nat) : option str :=
  match List.find (fun r => suffix_in_region word r.1 r1) step_3_rules with
  | Some (suffix, replacement) => replace_suffix word suffix replacement
  | None => if suffix_in_region word (of_string "ative") r2 then replace_suffix word (of_string "ative") [] else Some word
  end.

Definition step_4_suffixes : list str := map of_string
  ["ement"; "ance"; "ence"; "able"; "ible"; "ment"; "ant"; "ent"; "ism"; "ate"; "iti"; "ous"; "ive"; "ize"; "al"; "er"; "ic"]%string.

Definition step_4 (word : str) (r2 : nat) : option str :=
  match List.find (fun suffix => suffix_in_region word suffix r2) step_4_suffixes with
  | Some suffix => replace_suffix word suffix []
  | None =>
      if suffix_in_region word (of_string "ion") r2 then
        opt i := usize_sub (length word) 4 in
        opt preceding := word !! i in
        if existsb (fun x => preceding =? x)%Z (of_string "st") then replace_suffix word (of_string "ion") [] else Some word
      else if suffix_in_region word (of_string "ou") r2 then replace_suffix word (of_string "ou") [] else Some word
  end.

Definition step_5 (word : str) (r1 r2 : nat) (original_marked_y : list bool) : option str :=
  if ends_with word (of_string "e") then
    let e_position := length word - 1 in
    if r2 <=? e_position then Some (pop word)
    else if r1 <=? e_position then
      let stem := take e_position word in
      let marked := take (Nat.min (length original_marked_y) (length stem)) original_marked_y in
      opt short := is_short_syllable stem marked in
      Some (if short then word else pop word)
    else Some word
  else if ends_with word (of_string "ll") && (r2 <? length word) then Some (pop word)
  else Some word.

(** * The stemmer *)

Definition exceptions : list (str * str) := rules
  [("skis", "ski"); ("skies", "sky"); ("dying", "die"); ("lying", "lie"); ("tying", "tie"); ("idly", "idl"); ("gently", "gentl");
   ("ugly", "ugli"); ("early", "earli"); ("only", "onli"); ("singly", "singl"); ("sky", "sky"); ("news", "news"); ("howe", "howe");
   ("atlas", "atlas"); ("cosmos", "cosmos"); ("bias", "bias"); ("andes", "andes")]%string.

(** Words that are finished after the first step. *)
Definition finished_words : list str := map of_string
  ["inning"; "outing"; "canning"; "herring"; "earring"; "proceed"; "exceed"; "succeed"]%string.

(** [None]: a panic. *)
Definition porter2_stem (token : str) : option str :=
  match List.find (fun r => bool_decide (r.1 = token)) exceptions with
  | Some (_, stem) => Some stem
  | None =>
      opt marked_y := mark_consonant_y token in
      opt r1 := region_after_vowel_consonant token marked_y 0 (special_r1 token) in
      opt r2 := region_after_vowel_consonant token marked_y r1 0 in
      opt word := step_1a token marked_y in
      if bool_decide (word ∈ finished_words) then Some word
      else
        opt word := step_1b word r1 marked_y in
        opt word := step_1c word marked_y in
        opt word := step_2 word r1 in
        opt word := step_3 word r1 r2 in
        opt word := step_4 word r2 in
        step_5 word r1 r2 marked_y
  end.

Definition is_ascii_lowercase (ch : Z) : bool := in_range 97 122 ch.

Definition StemEnglishToken (token : str) : option str :=
  if (length token =? 0) || negb (forallb is_ascii_lowercase token) then Some token else porter2_stem token.

(** * No step panics *)

(** A word on its way through the steps: lowercase letters, not empty, no longer than the token. *)
Record stem_ok (n : nat) (word : str) : Prop := {
  so_lower : Forall (fun ch => is_ascii_lowercase ch = true) word;
  so_nonempty : 1 <= length word;
  so_length : length word <= n;
}.

Lemma is_vowel_at_total word index marked : index < length word -> exists b, is_vowel_at word index marked = Some b.
Proof. intros H. apply lookup_lt_is_Some in H as [ch Hch]. unfold is_vowel_at. rewrite Hch. by eexists. Qed.

Lemma any_opt_total {A} (p : A -> option bool) l : (forall x, x ∈ l -> exists b, p x = Some b) ->
  exists b, any_opt p l = Some b /\ (b = true -> l <> []).
Proof.
  induction l as [|x l IH]; intros Hp; cbn; [by exists false|]. destruct (Hp x) as [b ->]; [left|]. destruct b; [by exists true|].
  destruct IH as (b & -> & _); [intros y Hy; apply Hp; by right|]. by exists b.
Qed.

Lemma find_opt_total (p : nat -> option bool) l : (forall x, x ∈ l -> exists b, p x = Some b) ->
  exists r, find_opt p l = Some r.
Proof.
  induction l as [|x l IH]; intros Hp; cbn; [by eexists|]. destruct (Hp x) as [b ->]; [left|]. destruct b; [by eexists|].
  apply IH. intros y Hy. apply Hp. by right.
Qed.

Lemma mark_consonant_y_total word : exists marked, mark_consonant_y word = Some marked.
Proof.
  unfold mark_consonant_y. generalize (replicate (length word) false). assert (Hall : Forall (fun i => i < length word) (seq 0 (length word))).
  { rewrite Forall_forall. intros i Hi. apply elem_of_seq in Hi. lia. }
  induction Hall as [|i l Hi _ IH]; intros marked; cbn [fold_option]; [by eexists|].
  assert (exists m, mark_step word marked i = Some m) as [m ->]; [|apply IH].
  unfold mark_step. destruct (lookup_lt_is_Some_2 word i Hi) as [ch ->]. destruct (_ =? _)%Z; [|by eexists].
  destruct (i =? 0); [by eexists|]. destruct (is_vowel_at_total word (i - 1) marked) as [b ->]; [lia|]. by eexists.
Qed.

Lemma region_total word marked start minimum : 1 <= length word ->
  exists r, region_after_vowel_consonant word marked start minimum = Some r /\ 1 <= r.
Proof.
  intros Hw. unfold region_after_vowel_consonant. destruct (Nat.ltb_spec 0 minimum); [eexists; split; [done|lia]|].
  edestruct (find_opt_total (fun index =>
        opt before := is_vowel_at word (index - 1) marked in
        if before then option_map negb (is_vowel_at word index marked) else Some false)
      (seq (start + 1) (length word - (start + 1)))) as [r ->].
  - intros i Hi. apply elem_of_seq in Hi. destruct (is_vowel_at_total word (i - 1) marked) as [b ->]; [lia|]. destruct b; [|by eexists].
    destruct (is_vowel_at_total word i marked) as [b ->]; [lia|]. by eexists.
  - eexists. split; [done|]. destruct r; lia.
Qed.

Lemma contains_vowel_total word limit marked : limit <= length word ->
  exists b, contains_vowel word limit marked = Some b /\ (b = true -> 1 <= limit).
Proof.
  intros H. destruct (any_opt_total (fun index => is_vowel_at word index marked) (seq 0 limit)) as (b & Hb & Hl).
  - intros i Hi. apply elem_of_seq in Hi. apply is_vowel_at_total. lia.
  - exists b. split; [done|]. intros Ht. specialize (Hl Ht). destruct limit; [done|lia].
Qed.

Lemma is_short_syllable_total word marked : exists b, is_short_syllable word marked = Some b.
Proof.
  unfold is_short_syllable. destruct (Nat.eqb_spec (length word) 2) as [E|_].
  { destruct (is_vowel_at_total word 0 marked) as [a ->]; [lia|]. destruct a; [|by eexists].
    destruct (is_vowel_at_total word 1 marked) as [b ->]; [lia|]. by eexists. }
  destruct (Nat.ltb_spec (length word) 3); [by eexists|].
  destruct (is_vowel_at_total word (length word - 1 - 2) marked) as [a ->]; [lia|]. destruct a; [by eexists|].
  destruct (is_vowel_at_total word (length word - 1 - 1) marked) as [b ->]; [lia|]. destruct b; [|by eexists]. cbn [negb].
  destruct (is_vowel_at_total word (length word - 1) marked) as [c ->]; [lia|]. destruct c; [by eexists|].
  destruct (lookup_lt_is_Some_2 word (length word - 1)) as [ch ->]; [lia|]. by eexists.
Qed.

Lemma ends_with_length word suffix : ends_with word suffix = true -> length suffix <= length word.
Proof. unfold ends_with. rewrite bool_decide_eq_true. by intros [? _]. Qed.

Lemma suffix_in_region_length word suffix region : suffix_in_region word suffix region = true ->
  length suffix <= length word /\ region <= length word - length suffix.
Proof. unfold suffix_in_region. rewrite andb_true_iff, Nat.leb_le. intros [H%ends_with_length ?]. done. Qed.

Section steps.
Context (n : nat).

Lemma take_ok word m : stem_ok n word -> 1 <= m -> stem_ok n (take m word).
Proof. intros [H1 H2 H3] Hm. split; [by apply Forall_take|rewrite length_take; lia..]. Qed.

Lemma pop_ok word : stem_ok n word -> 2 <= length word -> stem_ok n (pop word).
Proof. intros H Hl. apply take_ok; [done|lia]. Qed.

(** Cutting a suffix and appending something no longer. *)
Lemma append_ok word m ending : stem_ok n word -> Forall (fun ch => is_ascii_lowercase ch = true) ending ->
  1 <= m + length ending -> m + length ending <= length word -> stem_ok n (take m word ++ ending).
Proof.
  intros [H1 H2 H3] He H4 H5. split; [apply Forall_app; split; [by apply Forall_take|done]| |]; rewrite length_app, length_take; lia.
Qed.

Lemma replace_ok word suffix replacement : stem_ok n word -> length suffix <= length word ->
  Forall (fun ch => is_ascii_lowercase ch = true) replacement -> length replacement <= length suffix ->
  1 <= length word - length suffix + length replacement ->
  exists w, replace_suffix word suffix replacement = Some w /\ stem_ok n w.
Proof.
  intros H Hs Hr Hl H1. unfold replace_suffix, usize_sub. rewrite (proj2 (Nat.leb_le _ _) Hs). eexists. split; [reflexivity|].
  apply append_ok; [done|done|lia|lia].
Qed.

(** Rules whose replacements are lowercase and no longer than their suffixes. *)
Definition rule_ok (r : str * str) : bool := forallb is_ascii_lowercase r.2 && (length r.2 <=? length r.1).

Lemma rule_found rules word region r : forallb rule_ok rules = true -> 1 <= region ->
  List.find (fun r => suffix_in_region word r.1 region) rules = Some r -> stem_ok n word ->
  1 <= length word - length r.1 /\ exists w, replace_suffix word r.1 r.2 = Some w /\ stem_ok n w.
Proof.
  intros Hall Hr Hf Hw. apply find_some in Hf as [Hin Hs]. rewrite forallb_forall in Hall. specialize (Hall r Hin).
  apply andb_true_iff in Hall as [Hl Hle%Nat.leb_le]. apply suffix_in_region_length in Hs as [Hs1 Hs2]. split; [lia|].
  apply replace_ok; [done|done| |done|lia]. rewrite Forall_forall. intros ch Hch. rewrite forallb_forall in Hl. by apply Hl, list_elem_of_In.
Qed.

(** A single suffix that is cut off. *)
Lemma region_cut word suffix region : suffix_in_region word suffix region = true -> 1 <= region -> stem_ok n word ->
  exists w, replace_suffix word suffix [] = Some w /\ stem_ok n w.
Proof. intros [H1 H2]%suffix_in_region_length Hr Hw. apply replace_ok; [done|done|constructor|cbn; lia|cbn; lia]. Qed.

Lemma step_1a_ok word marked : stem_ok n word -> exists w, step_1a word marked = Some w /\ stem_ok n w.
Proof.
  intros H. unfold step_1a. destruct (ends_with word (of_string "sses")) eqn:E1.
  { apply ends_with_length in E1. cbn in E1. apply replace_ok; [done|done|by repeat constructor|cbn; lia|cbn; lia]. }
  destruct (ends_with word (of_string "ied") || ends_with word (of_string "ies")) eqn:E2.
  { assert (H3 : 3 <= length word) by (apply orb_true_iff in E2 as [E2|E2]; apply ends_with_length in E2; done).
    unfold usize_sub at 1. rewrite (proj2 (Nat.leb_le _ _) H3). assert (Hl : length (drop (length word - 3) word) = 3) by (rewrite length_drop; lia).
    destruct (4 <? length word); (apply replace_ok; rewrite ?Hl; [done|done|by repeat constructor|cbn; lia|cbn; lia]). }
  destruct (ends_with word (of_string "us") || ends_with word (of_string "ss")); [by exists word|]. destruct (ends_with word (of_string "s") && (2 <? length word)) eqn:E3; [|by exists word].
  apply andb_true_iff in E3 as [_ E3%Nat.ltb_lt]. destruct (contains_vowel_total word (length word - 2) marked) as (b & -> & _); [lia|].
  eexists. split; [reflexivity|]. destruct b; [apply pop_ok; [done|lia]|done].
Qed.

Lemma step_1b_ok word r1 marked : stem_ok n word -> 1 <= r1 -> exists w, step_1b word r1 marked = Some w /\ stem_ok n w.
Proof.
  intros H Hr. unfold step_1b. destruct (suffix_in_region word (of_string "eedly") r1) eqn:E1.
  { apply suffix_in_region_length in E1 as [E1 E1']. cbn in E1, E1'. apply replace_ok; [done|done|by repeat constructor|cbn; lia|cbn; lia]. }
  destruct (suffix_in_region word (of_string "eed") r1) eqn:E2.
  { apply suffix_in_region_length in E2 as [E2 E2']. cbn in E2, E2'. apply replace_ok; [done|done|by repeat constructor|cbn; lia|cbn; lia]. }
  destruct (List.find (ends_with word) step_1b_suffixes) as [suffix|] eqn:E3; [|by exists word].
  apply find_some in E3 as [Hin E3%ends_with_length].
  assert (Hs : 2 <= length suffix) by (cbn in Hin; decompose [or] Hin; subst; try done; cbn; lia).
  unfold usize_sub. rewrite (proj2 (Nat.leb_le _ _) E3). set (m := length word - length suffix).
  destruct (contains_vowel_total word m marked) as (b & -> & Hm); [lia|]. destruct b; [|by exists word]. specialize (Hm eq_refl). cbn [negb].
  assert (Hlen : length (take m word) = m) by (rewrite length_take; lia). pose proof (take_ok word m H Hm) as Ht.
  assert (He : stem_ok n (take m word ++ of_string "e")) by (apply append_ok; [done|by repeat constructor|cbn; lia|cbn; lia]).
  destruct (_ || _); [by eexists|]. destruct (existsb (ends_with (take m word)) doubles) eqn:E4.
  { eexists. split; [reflexivity|]. apply pop_ok; [done|]. apply existsb_exists in E4 as (d & Hd & E4%ends_with_length).
    cbn in Hd. decompose [or] Hd; subst; try done. }
  destruct (mark_consonant_y_total (take m word)) as [my ->]. destruct (_ <=? r1); [|by eexists].
  destruct (is_short_syllable_total (take m word) my) as [sb ->]. eexists. split; [reflexivity|]. by destruct sb.
Qed.

Lemma step_1c_ok word marked : stem_ok n word -> exists w, step_1c word marked = Some w /\ stem_ok n w.
Proof.
  intros H. unfold step_1c. destruct (Nat.leb_spec (length word) 2); [by exists word|].
  destruct (lookup_lt_is_Some_2 word (length word - 1)) as [ch ->]; [lia|]. destruct (_ || _); [|by exists word].
  destruct (is_vowel_at_total word (length word - 2) marked) as [b ->]; [lia|]. eexists. split; [reflexivity|]. destruct b; [done|].
  apply append_ok; [done|by repeat constructor|cbn; lia|cbn; lia].
Qed.

Lemma step_2_ok word r1 : stem_ok n word -> 1 <= r1 -> exists w, step_2 word r1 = Some w /\ stem_ok n w.
Proof.
  intros H Hr. unfold step_2. destruct (List.find _ step_2_rules) as [[suffix replacement]|] eqn:E.
  - apply rule_found in E as [Hl [w [Hw Hok]]]; [|reflexivity|done|done]. cbn in Hl, Hw.
    assert (exists b, (if bool_decide (suffix <> of_string "ogi") then Some true
        else opt n := usize_sub (length word) (length suffix) in opt i := usize_sub n 1 in Some (bool_decide (word !! i = Some 108%Z))) = Some b) as [b ->].
    { case_bool_decide; [by eexists|]. unfold usize_sub. rewrite (proj2 (Nat.leb_le (length suffix) _)) by lia.
      rewrite (proj2 (Nat.leb_le 1 _)) by lia. by eexists. }
    destruct b; [by exists w|by exists word].
  - destruct (suffix_in_region word (of_string "li") r1) eqn:E2; [|by exists word]. pose proof E2 as [H1 H2]%suffix_in_region_length.
    cbn in H1, H2. unfold usize_sub. rewrite (proj2 (Nat.leb_le 3 _)) by lia.
    destruct (lookup_lt_is_Some_2 word (length word - 3)) as [ch ->]; [lia|]. destruct (existsb _ _); [|by exists word]. by eapply region_cut.
Qed.

Lemma step_3_ok word r1 r2 : stem_ok n word -> 1 <= r1 -> 1 <= r2 -> exists w, step_3 word r1 r2 = Some w /\ stem_ok n w.
Proof.
  intros H Hr Hr2. unfold step_3. destruct (List.find _ step_3_rules) as [[suffix replacement]|] eqn:E.
  - apply rule_found in E as [_ Hw]; [done|reflexivity|done|done].
  - destruct (suffix_in_region word (of_string "ative") r2) eqn:E2; [|by exists word]. by eapply region_cut.
Qed.

Lemma step_4_ok word r2 : stem_ok n word -> 1 <= r2 -> exists w, step_4 word r2 = Some w /\ stem_ok n w.
Proof.
  intros H Hr. unfold step_4. destruct (List.find _ step_4_suffixes) as [suffix|] eqn:E.
  { apply find_some in E as [_ E]. by eapply region_cut. }
  destruct (suffix_in_region word (of_string "ion") r2) eqn:E2.
  - pose proof E2 as [H1 H2]%suffix_in_region_length. cbn in H1, H2. unfold usize_sub. rewrite (proj2 (Nat.leb_le 4 _)) by lia.
    destruct (lookup_lt_is_Some_2 word (length word - 4)) as [ch ->]; [lia|]. destruct (existsb _ _); [|by exists word]. by eapply region_cut.
  - destruct (suffix_in_region word (of_string "ou") r2) eqn:E3; [|by exists word]. by eapply region_cut.
Qed.

Lemma step_5_ok word r1 r2 marked : stem_ok n word -> 1 <= r1 -> 1 <= r2 -> exists w, step_5 word r1 r2 marked = Some w /\ stem_ok n w.
Proof.
  intros H Hr Hr2. unfold step_5. destruct (ends_with word (of_string "e")) eqn:E.
  - destruct (Nat.leb_spec r2 (length word - 1)); [eexists; split; [reflexivity|apply pop_ok; [done|lia]]|].
    destruct (Nat.leb_spec r1 (length word - 1)); [|by exists word].
    destruct (is_short_syllable_total (take (length word - 1) word) (take (Nat.min (length marked) (length (take (length word - 1) word))) marked)) as [b ->].
    eexists. split; [reflexivity|]. destruct b; [done|apply pop_ok; [done|lia]].
  - destruct (ends_with word (of_string "ll") && (r2 <? length word)) eqn:E2; [|by exists word].
    apply andb_true_iff in E2 as [E2%ends_with_length _]. eexists. split; [reflexivity|]. by apply pop_ok.
Qed.
End steps.

Lemma porter2_stem_ok token : Forall (fun ch => is_ascii_lowercase ch = true) token -> token <> [] ->
  exists word, porter2_stem token = Some word /\ stem_ok (length token) word.
Proof.
  intros Hl Hne. assert (Ht : stem_ok (length token) token) by (split; [done|destruct token; [done|cbn; lia]|done]). unfold porter2_stem.
  destruct (List.find _ exceptions) as [[w stem]|] eqn:E.
  { apply find_some in E as [Hin E]. apply bool_decide_eq_true in E. cbn in E. subst w. exists stem. split; [done|].
    unfold exceptions, rules in Hin. cbn in Hin. decompose [or] Hin; try done; match goal with H : (_, _) = (_, _) |- _ => injection H as <- <- end;
      (split; [by repeat constructor|cbn; lia|cbn; lia]). }
  destruct (mark_consonant_y_total token) as [marked ->].
  destruct (region_total token marked 0 (special_r1 token) (so_nonempty _ _ Ht)) as (r1 & -> & H1).
  destruct (region_total token marked r1 0 (so_nonempty _ _ Ht)) as (r2 & -> & H2).
  destruct (step_1a_ok _ token marked Ht) as (w1 & -> & W1). case_bool_decide; [by exists w1|].
  destruct (step_1b_ok _ w1 r1 marked W1 H1) as (w2 & -> & W2). destruct (step_1c_ok _ w2 marked W2) as (w3 & -> & W3).
  destruct (step_2_ok _ w3 r1 W3 H1) as (w4 & -> & W4). destruct (step_3_ok _ w4 r1 r2 W4 H1 H2) as (w5 & -> & W5).
  destruct (step_4_ok _ w5 r2 W5 H2) as (w6 & -> & W6). by apply step_5_ok.
Qed.

Lemma StemEnglishToken_ok token :
  exists word, StemEnglishToken token = Some word /\ length word <= length token /\ (token <> [] -> word <> []) /\
    (if forallb is_ascii_lowercase token then forallb is_ascii_lowercase word = true else word = token).
Proof.
  unfold StemEnglishToken. destruct (Nat.eqb_spec (length token) 0) as [E|Hne].
  { apply nil_length_inv in E as ->. by exists []. }
  destruct (forallb is_ascii_lowercase token) eqn:Hl; cbn [orb negb]; [|by exists token].
  destruct (porter2_stem_ok token) as (w & -> & [H1 H2 H3]).
  - rewrite Forall_forall. intros ch Hch. rewrite forallb_forall in Hl. by apply Hl, list_elem_of_In.
  - by intros ->.
  - exists w. split; [done|]. split; [done|]. split; [intros _ ->; cbn in H2; lia|]. apply forallb_forall. intros ch Hch.
    rewrite Forall_forall in H1. by apply H1, list_elem_of_In.
Qed.

(** * Properties *)

(** C29: stemming panics on no token; it keeps what is not a lowercase ASCII word, and of a lowercase ASCII word it leaves
    lowercase letters, at least one, and never more than the word has. *)
Theorem StemEnglishToken_safe token :
  exists word, StemEnglishToken token = Some word /\ length word <= length token /\ (token <> [] -> word <> []) /\
    (if forallb is_ascii_lowercase token then forallb is_ascii_lowercase word = true else word = token).
Proof. apply StemEnglishToken_ok. Qed.

(** A word in [eed] whose [eed] lies before the first region is cut to [e]: the second rule for [ed] applies where the
    first one, for [eed], was found and not allowed. *)
Lemma eed_words : map (fun s => porter2_stem (of_string s)) ["feed"; "need"; "speed"; "breed"]%string
  = map (fun s => Some (of_string s)) ["fe"; "ne"; "spe"; "bre"]%string.
Proof. vm_compute. reflexivity. Qed.

Lemma stem_examples : map (fun s => porter2_stem (of_string s))
    ["suggested"; "suggests"; "caresses"; "ponies"; "generously"; "hopping"; "hoping"; "relational"; "university"; "happy"]%string
  = map (fun s => Some (of_string s))
    ["suggest"; "suggest"; "caress"; "poni"; "generous"; "hop"; "hope"; "relat"; "univers"; "happi"]%string.
Proof. vm_compute. reflexivity. Qed.
