(* ===== verification/SmartTokenizer.v ===== *)
(** The smart tokenizer (SmartTokenizer.rs): normalization, word segmentation, lowercasing, Han characters one by one,
    English stemming and the filter of indexable tokens. *)

From Stdlib Require Import ZArith Lia ZifyBool Bool String List.
From stdpp Require Import base list list_numbers.
From S2P Require Import Prelude PathSidecar EvalExpression Documents Stemmer.

Local Open Scope moon_scope.

(** * Characters of a string *)

(** [str::chars], each as its bytes. *)
Fixpoint chars (l : str) : list str :=
  match l with
  | [] => []
  | b0 :: r =>
      if in_range 0 127 b0 then [b0] :: chars r
      else match r with
      | [] => [[b0]]
      | b1 :: r1 =>
          if in_range 194 223 b0 then [b0; b1] :: chars r1
          else match r1 with
          | [] => [[b0; b1]]
          | b2 :: r2 =>
              if in_range 224 239 b0 then [b0; b1; b2] :: chars r2
              else match r2 with
              | [] => [[b0; b1; b2]]
              | b3 :: r3 => [b0; b1; b2; b3] :: chars r3
              end
          end
      end
  end.

(** [ch as u32]. *)
Definition code_point (c : str) : Z :=
  match c with
  | [a] => a
  | [a; b] => (a - 192) * 64 + (b - 128)
  | [a; b; c] => ((a - 224) * 64 + (b - 128)) * 64 + (c - 128)
  | [a; b; c; d] => (((a - 240) * 64 + (b - 128)) * 64 + (c - 128)) * 64 + (d - 128)
  | _ => 0
  end%Z.

Definition in_ranges (ranges : list (Z * Z)) (value : Z) : bool := existsb (fun r => in_range r.1 r.2 value) ranges.

Definition is_han_ideograph (ch : Z) : bool :=
  in_ranges [(0x3006, 0x3007); (0x3400, 0x4DBF); (0x4E00, 0x9FFF); (0xF900, 0xFAFF); (0x20000, 0x2A6DF); (0x2A700, 0x2B73F);
    (0x2B740, 0x2B81F); (0x2B820, 0x2CEAF); (0x2CEB0, 0x2EE5F); (0x2F800, 0x2FA1F); (0x30000, 0x3347F)]%Z ch.

Definition is_variation_selector (ch : Z) : bool := in_ranges [(0xFE00, 0xFE0F); (0xE0100, 0xE01EF)]%Z ch.

Definition is_unicode_format (ch : Z) : bool :=
  in_ranges [(0xAD, 0xAD); (0x600, 0x605); (0x61C, 0x61C); (0x6DD, 0x6DD); (0x70F, 0x70F); (0x890, 0x891); (0x8E2, 0x8E2); (0x180E, 0x180E);
    (0x200B, 0x200F); (0x202A, 0x202E); (0x2060, 0x2064); (0x2066, 0x206F); (0xFEFF, 0xFEFF); (0xFFF9, 0xFFFB); (0x110BD, 0x110BD);
    (0x110CD, 0x110CD); (0x13430, 0x1343F); (0x1BCA0, 0x1BCA3); (0x1D173, 0x1D17A); (0xE0001, 0xE0001); (0xE0020, 0xE007F)]%Z ch.

Definition is_private_use (ch : Z) : bool := in_ranges [(0xE000, 0xF8FF); (0xF0000, 0xFFFFD); (0x100000, 0x10FFFD)]%Z ch.

(** [char::is_control]: the category Cc. *)
Definition is_control (ch : Z) : bool := in_ranges [(0, 0x1F); (0x7F, 0x9F)]%Z ch.

Definition IsIndexableToken (token : str) : bool :=
  if (length token =? 0) || (64 <? length token) then false
  else if existsb (fun ch => (ch <? 0x20) || (ch =? 0x7F))%Z token then false
  else negb (existsb (fun c => is_control (code_point c) || is_unicode_format (code_point c) || is_private_use (code_point c)) (chars token)).

Fixpoint is_han_loop (saw_ideograph : bool) (cs : list str) : bool :=
  match cs with
  | [] => saw_ideograph
  | c :: cs' =>
      if is_han_ideograph (code_point c) then is_han_loop true cs'
      else if negb saw_ideograph || negb (is_variation_selector (code_point c)) then false
      else is_han_loop saw_ideograph cs'
  end.

Definition is_han_token (token : str) : bool := is_han_loop false (chars token).

Definition han_step (st : list str * str) (c : str) : list str * str :=
  let '(tokens, current) := st in
  if is_han_ideograph (code_point c) && negb (length current =? 0) then (tokens ++ [current], c) else (tokens, current ++ c).

Definition append_han_characters (word : str) (tokens : list str) : list str :=
  let '(tokens, current) := fold_left han_step (chars word) (tokens, []) in
  if length current =? 0 then tokens else tokens ++ [current].

(** * Lowercasing *)

(** The Unicode tables of the standard library's [char], and the crates icu_segmenter and unicode_normalization. *)
Class Unicode := {
  is_alphanumeric : Z -> bool;
  is_alphabetic : Z -> bool;
  to_lowercase : str -> str;
  nfc : str -> str;
  segment_str : str -> list (nat * bool);
}.

Definition to_ascii_lowercase (b : Z) : Z := if in_range 65 90 b then (b + 32)%Z else b.
Definition eq_ignore_ascii_case (a b : str) : bool := bool_decide (map to_ascii_lowercase a = map to_ascii_lowercase b).

Section tokenizer.
Context `{Unicode}.

Definition lower_char (turkic : bool) (cs : list str) (index : nat) (c : str) : str :=
  let ch := code_point c in
  let alphabetic := existsb (fun c => is_alphabetic (code_point c)) in
  if turkic && (ch =? 73)%Z then [196; 177]%Z
  else if turkic && (ch =? 0x130)%Z then [105]%Z
  else if (ch =? 0x3A3)%Z && alphabetic (take index cs) && negb (alphabetic (drop (index + 1) cs)) then [207; 130]%Z
  else to_lowercase c.

Definition lowercase_for_locale (text locale : str) : str :=
  let cs := chars text in
  let turkic := existsb (fun l => eq_ignore_ascii_case locale (of_string l)) ["tr"; "tr-tr"; "az"; "az-az"]%string in
  concat (imap (lower_char turkic cs) cs).

(** [&text[start..end]]: [None] when an end is no character boundary. *)
Definition str_range (text : str) (a b : nat) : option str := opt s := get_range text a b in from_utf8 s.

(** What a word adds to the tokens. *)
Definition add_word (locale : str) (tokens : list str) (segment : str) : option (list str) :=
  let word := lowercase_for_locale segment locale in
  if is_han_token word then Some (append_han_characters word tokens)
  else
    opt word := StemEnglishToken word in
    Some (if IsIndexableToken word then tokens ++ [word] else tokens).

Fixpoint tokenize_segments (locale normalized : str) (segments : list (nat * bool)) (start : nat) (tokens : list str) : option (list str) :=
  match segments with
  | [] => Some tokens
  | (stop, word_type) :: segments' =>
      opt segment := str_range normalized start stop in
      let is_word_like := word_type || existsb (fun c => is_alphanumeric (code_point c)) (chars segment) in
      opt tokens := if (start <? stop) && is_word_like then add_word locale tokens segment else Some tokens in
      tokenize_segments locale normalized segments' stop tokens
  end.

(** SmartTokenizer::Tokenize. [None]: a slice panics. *)
Definition smart_Tokenize (m_Locale text : str) : option (list str) :=
  if length text =? 0 then Some []
  else
    let normalized := nfc text in
    tokenize_segments m_Locale normalized (segment_str normalized) 0 [].

Definition SmartTokenizer (m_Locale : str) : Tokenizer := {| Tokenize text := default [] (smart_Tokenize m_Locale text) |}.
End tokenizer.

(** * Characters and UTF-8 *)

Definition char_ok (c : str) : Prop := is_utf8 c = true /\ c <> [].

Lemma chars_ok s : is_utf8 s = true -> concat (chars s) = s /\ Forall char_ok (chars s).
Proof.
  remember (length s) as n eqn:En. revert s En. induction n as [n IH] using lt_wf_ind. intros s En Hs.
  assert (Hrec : forall r, length r < length s -> is_utf8 r = true -> concat (chars r) = r /\ Forall char_ok (chars r)).
  { intros r Hr. apply (IH (length r)); [lia|done]. }
  destruct s as [|b0 r]; [by split|]. cbn [chars]. cbn [is_utf8] in Hs. destruct (in_range 0 127 b0) eqn:E0.
  { destruct (Hrec r) as [H1 H2]; [cbn; lia|done|]. split; [cbn; by rewrite H1|]. constructor; [|done]. split; [|done]. cbn [is_utf8]. by rewrite E0. }
  destruct r as [|b1 r1]; [done|]. destruct (in_range 194 223 b0) eqn:E1.
  { apply andb_true_iff in Hs as [C1 Hs]. destruct (Hrec r1) as [H1 H2]; [cbn; lia|done|]. split; [cbn; by rewrite H1|]. constructor; [|done].
    split; [|done]. cbn [is_utf8]. by rewrite E0, E1, C1. }
  destruct r1 as [|b2 r2]; [done|]. destruct (in_range 224 239 b0) eqn:E2.
  { apply andb_true_iff in Hs as [C1 Hs]. destruct (Hrec r2) as [H1 H2]; [cbn; lia|done|]. split; [cbn; by rewrite H1|]. constructor; [|done].
    split; [|done]. cbn [is_utf8]. by rewrite E0, E1, E2, C1. }
  destruct r2 as [|b3 r3]; [done|]. apply andb_true_iff in Hs as [C1 Hs]. destruct (Hrec r3) as [H1 H2]; [cbn; lia|done|].
  split; [cbn; by rewrite H1|]. constructor; [|done]. split; [|done]. cbn [is_utf8]. by rewrite E0, E1, E2, C1.
Qed.

Lemma concat_utf8 ls : Forall (fun s => is_utf8 s = true) ls -> is_utf8 (concat ls) = true.
Proof. induction 1 as [|s ls Hs _ IH]; [done|]. cbn. by apply is_utf8_app. Qed.

Lemma ascii_utf8 s : forallb is_ascii_lowercase s = true -> is_utf8 s = true.
Proof.
  induction s as [|b s IH]; [done|]. cbn [forallb]. intros [Hb Hs]%andb_true_iff. unfold is_ascii_lowercase, in_range in Hb.
  rewrite is_utf8_ascii; [by apply IH|lia].
Qed.

(** * Han words *)

Definition is_han (c : str) : bool := is_han_ideograph (code_point c).
Definition is_selector (c : str) : bool := is_variation_selector (code_point c).

(** One Han character with its variation selectors. *)
Definition han_unit (t : str) : Prop :=
  exists c selectors, t = concat (c :: selectors) /\ is_han c = true /\ Forall (fun s => is_selector s = true) selectors.

Lemma is_han_loop_true cs : is_han_loop true cs = true -> Forall (fun c => is_han c = true \/ is_selector c = true) cs.
Proof.
  induction cs as [|c cs IH]; [by constructor|]. cbn [is_han_loop negb orb]. fold (is_han c) (is_selector c).
  destruct (is_han c) eqn:E; [constructor; auto|]. destruct (is_selector c) eqn:E2; cbn [negb]; [constructor; auto|done].
Qed.

Lemma is_han_token_chars word : is_han_token word = true ->
  exists c cs, chars word = c :: cs /\ is_han c = true /\ Forall (fun c => is_han c = true \/ is_selector c = true) cs.
Proof.
  unfold is_han_token. destruct (chars word) as [|c cs]; [done|]. cbn [is_han_loop negb orb]. fold (is_han c). destruct (is_han c) eqn:E; [|done].
  intros H%is_han_loop_true. by exists c, cs.
Qed.

(** The characters taken so far: finished units and a current one. *)
Lemma han_fold cs : Forall (fun c => is_han c = true \/ is_selector c = true) cs -> Forall char_ok cs ->
  forall tokens current, han_unit current -> is_utf8 current = true -> current <> [] ->
  exists units last, fold_left han_step cs (tokens, current) = (tokens ++ units, last) /\ Forall han_unit units /\ Forall (fun t => is_utf8 t = true) units /\
    han_unit last /\ is_utf8 last = true /\ last <> [] /\ concat units ++ last = current ++ concat cs.
Proof.
  induction 1 as [|c cs Hc _ IH]; intros Hok tokens current Hu Hutf Hne; cbn [fold_left].
  { exists [], current. rewrite !app_nil_r. by repeat split. }
  inversion Hok as [|? ? [Hcu Hcn] Hok']; subst. cbn [han_step]. fold (is_han c). destruct (is_han c) eqn:E.
  - assert (negb (length current =? 0) = true) as -> by (destruct current; done). cbn [andb].
    destruct (IH Hok' (tokens ++ [current]) c) as (units & last & -> & H1 & H2 & H3 & H4 & H5 & H6); [|done|done|].
    { exists c, []. split; [cbn; by rewrite app_nil_r|]. by split. }
    exists (current :: units), last. split; [by rewrite <- app_assoc|]. split; [by constructor|]. split; [by constructor|]. split; [done|].
    split; [done|]. split; [done|]. cbn [concat]. rewrite <- app_assoc, H6. done.
  - cbn [andb]. destruct Hc as [Hc|Hc]; [congruence|].
    destruct (IH Hok' tokens (current ++ c)) as (units & last & -> & H1 & H2 & H3 & H4 & H5 & H6).
    + destruct Hu as (c0 & sels & -> & H1 & H2). exists c0, (sels ++ [c]). split; [cbn; by rewrite concat_app, <- app_assoc; cbn; rewrite app_nil_r|].
      split; [done|]. apply Forall_app. by split; [|constructor].
    + by apply is_utf8_app.
    + by destruct current.
    + exists units, last. do 6 (split; [done|]). by rewrite H6, <- app_assoc.
Qed.

Lemma han_fold_prefix cs pre tokens current :
  fold_left han_step cs (pre ++ tokens, current) = (pre ++ (fold_left han_step cs (tokens, current)).1, (fold_left han_step cs (tokens, current)).2).
Proof.
  revert tokens current. induction cs as [|c cs IH]; intros tokens current; cbn [fold_left]; [done|]. unfold han_step at 2 4 6.
  destruct (_ && _); [rewrite <- app_assoc|]; apply IH.
Qed.

Lemma append_han_prefix word tokens : append_han_characters word tokens = tokens ++ append_han_characters word [].
Proof.
  unfold append_han_characters. rewrite <- (app_nil_r tokens) at 1. rewrite han_fold_prefix.
  destruct (fold_left han_step (chars word) ([], [])) as [t c]. cbn [fst snd]. destruct (length c =? 0); [done|by rewrite app_assoc].
Qed.

(** A Han word becomes its characters, in order. *)
Lemma append_han_units word tokens : is_utf8 word = true -> is_han_token word = true ->
  exists units, append_han_characters word tokens = tokens ++ units /\ Forall han_unit units /\ Forall (fun t => is_utf8 t = true) units /\
    concat units = word.
Proof.
  intros Hw Hh. destruct (chars_ok word Hw) as [Hcat Hok]. destruct (is_han_token_chars word Hh) as (c & cs & Hcs & Hc & Hall).
  unfold append_han_characters. rewrite Hcs in *. inversion Hok as [|? ? [Hcu Hcn] Hok']; subst. cbn [fold_left han_step length Nat.eqb negb].
  rewrite andb_false_r. cbn [app].
  destruct (han_fold cs Hall Hok' tokens c) as (units & last & -> & H1 & H2 & H3 & H4 & H5 & H6); [|done|done|].
  { exists c, []. split; [cbn; by rewrite app_nil_r|]. by split. }
  destruct (Nat.eqb_spec (length last) 0) as [E|_]; [by apply nil_length_inv in E|]. exists (units ++ [last]). split; [by rewrite app_assoc|].
  split; [apply Forall_app; by split; [|constructor]|]. split; [apply Forall_app; by split; [|constructor]|]. rewrite concat_app. cbn. by rewrite app_nil_r.
Qed.

(** * Tokens *)

(** What the crates promise: normal forms and lowercase characters are UTF-8, and the ends of the segments go up through the
    text, each at a character boundary. *)
Fixpoint segments_ok (text : str) (start : nat) (segments : list (nat * bool)) : Prop :=
  match segments with
  | [] => True
  | (stop, _) :: segments' => start <= stop <= length text /\ is_utf8 (slice start (stop - start) text) = true /\ segments_ok text stop segments'
  end.

Class UnicodeSpec `{Unicode} := {
  nfc_utf8 text : is_utf8 text = true -> is_utf8 (nfc text) = true;
  lower_utf8 c : is_utf8 c = true -> is_utf8 (to_lowercase c) = true;
  segments_bounded text : is_utf8 text = true -> segments_ok text 0 (segment_str text);
}.

Section tokens.
Context `{UnicodeSpec} (locale : str).

Lemma lowercase_utf8 text : is_utf8 text = true -> is_utf8 (lowercase_for_locale text locale) = true.
Proof.
  intros [_ Hok]%chars_ok. unfold lowercase_for_locale. apply concat_utf8. rewrite Forall_lookup. intros i x Hi.
  apply list_lookup_imap_Some in Hi as (c & Hc & ->). rewrite Forall_lookup in Hok. destruct (Hok _ _ Hc) as [Hu _]. unfold lower_char.
  destruct (_ && _); [reflexivity|]. destruct (_ && _); [reflexivity|]. destruct (_ && _); [reflexivity|]. by apply lower_utf8.
Qed.

(** The tokens of one word. *)
Definition word_tokens (segment : str) : list str :=
  let word := lowercase_for_locale segment locale in
  if is_han_token word then append_han_characters word []
  else match StemEnglishToken word with Some stem => if IsIndexableToken stem then [stem] else [] | None => [] end.

Definition token_ok (t : str) : Prop := is_utf8 t = true /\ (IsIndexableToken t = true \/ han_unit t).

Lemma add_word_ok segment tokens : is_utf8 segment = true ->
  add_word locale tokens segment = Some (tokens ++ word_tokens segment) /\ Forall token_ok (word_tokens segment).
Proof.
  intros Hs. pose proof (lowercase_utf8 segment Hs) as Hw. unfold add_word, word_tokens. set (word := lowercase_for_locale segment locale) in *.
  destruct (is_han_token word) eqn:E.
  - rewrite append_han_prefix. destruct (append_han_units word [] Hw E) as (units & -> & H1 & H2 & _). split; [done|].
    apply Forall_lookup. intros i t Hi. rewrite Forall_lookup in H1, H2. split; [by eapply H2|right; by eapply H1].
  - destruct (StemEnglishToken_ok word) as (stem & -> & _ & _ & Hstem). destruct (IsIndexableToken stem) eqn:Ei.
    + split; [done|]. constructor; [|done]. split; [|by left]. destruct (forallb is_ascii_lowercase word); [by apply ascii_utf8|by rewrite Hstem].
    + split; [by rewrite app_nil_r|done].
Qed.

(** The segments that are words. *)
Fixpoint words_of (text : str) (segments : list (nat * bool)) (start : nat) : list str :=
  match segments with
  | [] => []
  | (stop, word_type) :: segments' =>
      let segment := slice start (stop - start) text in
      (if (start <? stop) && (word_type || existsb (fun c => is_alphanumeric (code_point c)) (chars segment)) then [segment] else [])
      ++ words_of text segments' stop
  end.

Lemma tokenize_segments_ok text segments start tokens : segments_ok text start segments -> Forall token_ok tokens ->
  let added := concat (map word_tokens (words_of text segments start)) in
  tokenize_segments locale text segments start tokens = Some (tokens ++ added) /\ Forall token_ok added.
Proof.
  revert start tokens. induction segments as [|[stop wt] segments IH]; intros start tokens Hs Ht; cbn [words_of tokenize_segments].
  { cbn. by rewrite app_nil_r. }
  destruct Hs as (Hr & Hu & Hs). set (segment := slice start (stop - start) text) in *.
  assert (str_range text start stop = Some segment) as ->.
  { unfold str_range. rewrite (proj2 (get_range_Some _ _ _ segment)) by (split; [lia|split; [lia|done]]). unfold from_utf8. by rewrite Hu. }
  destruct (_ && _).
  - destruct (add_word_ok segment tokens Hu) as [-> Hw]. destruct (IH stop (tokens ++ word_tokens segment) Hs) as [-> Hall].
    { apply Forall_app. by split. }
    cbn [app map concat]. split; [by rewrite app_assoc|]. apply Forall_app. by split.
  - cbn [app]. by apply IH.
Qed.

Lemma smart_Tokenize_ok text : is_utf8 text = true ->
  let tokens := if length text =? 0 then [] else concat (map word_tokens (words_of (nfc text) (segment_str (nfc text)) 0)) in
  smart_Tokenize locale text = Some tokens /\ Forall token_ok tokens.
Proof.
  intros Hu. unfold smart_Tokenize. destruct (length text =? 0); [by split|]. pose proof (nfc_utf8 text Hu) as Hn.
  destruct (tokenize_segments_ok (nfc text) (segment_str (nfc text)) 0 [] (segments_bounded _ Hn) ltac:(constructor)) as [H1 H2]. by split.
Qed.

(** The tokenizer keeps the contract that adding documents asks of one. *)
#[export] Instance SmartTokenizer_spec : TokenizerSpec (H := SmartTokenizer locale).
Proof.
  intros text Hu. cbn. destruct (smart_Tokenize_ok text Hu) as [-> Hall]. eapply Forall_impl; [exact Hall|]. by intros t [? _].
Qed.
End tokens.

(** * Properties *)

(** C28: on UTF-8 text, whatever locale, the tokenizer panics nowhere and gives the tokens of its words one word after the other: the
    characters of a Han word with their variation selectors, the stem of any other word if it is indexable; every token is
    UTF-8 and either a Han character or indexable, that is not empty, at most 64 bytes, without control, format or private use
    characters. *)
Theorem SmartTokenizer_tokens `{UnicodeSpec} locale text : is_utf8 text = true ->
  let tokens := if length text =? 0 then [] else concat (map (word_tokens locale) (words_of (nfc text) (segment_str (nfc text)) 0)) in
  smart_Tokenize locale text = Some tokens /\ Forall token_ok tokens.
Proof. apply smart_Tokenize_ok. Qed.

(** * Witnesses *)

(** ASCII letters, words split at spaces. *)
Fixpoint space_segments (text : str) (pos : nat) : list (nat * bool) :=
  match text with
  | [] => [(pos, true)]
  | b :: text' => if (b =? 32)%Z then (pos, true) :: (S pos, false) :: space_segments text' (S pos) else space_segments text' (S pos)
  end.

Definition sample_unicode : Unicode := {|
  is_alphanumeric ch := in_ranges [(48, 57); (65, 90); (97, 122)]%Z ch;
  is_alphabetic ch := in_ranges [(65, 90); (97, 122)]%Z ch;
  to_lowercase c := match c with [b] => [to_ascii_lowercase b] | _ => c end;
  nfc text := text;
  segment_str text := space_segments text 0;
|}.

Lemma space_segments_ok rest : forall pre cur, is_utf8 (cur ++ rest) = true ->
  segments_ok (pre ++ cur ++ rest) (length pre) (space_segments rest (length (pre ++ cur))).
Proof.
  induction rest as [|b rest IH]; intros pre cur Hu; cbn [space_segments segments_ok].
  - rewrite !app_nil_r in *. split; [rewrite !length_app; lia|]. split; [|done]. rewrite slice_app_skip by done. by rewrite take_ge by (rewrite length_app; lia).
  - destruct (Z.eqb_spec b 32) as [->|Hb].
    + destruct (utf8_cut cur 32 rest ltac:(lia) Hu) as [Hcur Hrest]. cbn [segments_ok]. rewrite !length_app. cbn [length].
      split; [lia|]. split; [rewrite slice_app_skip by done; replace (_ - _) with (length cur) by lia; by rewrite take_app_length|].
      split; [lia|]. split.
      * rewrite app_assoc, slice_app_skip by by rewrite length_app. replace (_ - _) with 1 by lia. reflexivity.
      * specialize (IH (pre ++ cur ++ [32%Z]) [] Hrest). rewrite app_nil_r, !length_app in IH. cbn [length app] in IH.
        replace (length pre + (length cur + 1)) with (S (length pre + length cur)) in IH by lia.
        rewrite <- !app_assoc in IH. exact IH.
    + specialize (IH pre (cur ++ [b])). rewrite <- app_assoc in IH. cbn [app] in IH. specialize (IH Hu).
      replace (S (length (pre ++ cur))) with (length (pre ++ cur ++ [b])) by (rewrite !length_app; cbn; lia). exact IH.
Qed.

#[export] Instance sample_unicode_spec : @UnicodeSpec sample_unicode.
Proof.
  split.
  - done.
  - intros [|b [|b1 c]] Hc; [done| |exact Hc]. cbn in Hc |- *. destruct (in_range 0 127 b) eqn:E; [|done].
    unfold to_ascii_lowercase. destruct (in_range 65 90 b) eqn:E2; [|by rewrite E]. unfold in_range in *. rewrite (proj2 (andb_true_iff _ _)); [done|lia].
  - intros text Hu. apply (space_segments_ok text [] []). exact Hu.
Qed.

Lemma SmartTokenizer_tokens_witness :
  @smart_Tokenize sample_unicode (of_string "en") (of_string "Suggested suggests  a Runner") = Some (map of_string ["suggest"; "suggest"; "a"; "runner"]%string) /\
  Forall (@token_ok) (map of_string ["suggest"; "suggest"; "a"; "runner"]%string).
Proof.
  destruct (@SmartTokenizer_tokens sample_unicode sample_unicode_spec (of_string "en") (of_string "Suggested suggests  a Runner")) as [H1 H2]; [vm_compute; reflexivity|].
  assert (E : @smart_Tokenize sample_unicode (of_string "en") (of_string "Suggested suggests  a Runner")
    = Some (map of_string ["suggest"; "suggest"; "a"; "runner"]%string)) by (vm_compute; reflexivity).
  split; [exact E|]. rewrite H1 in E. apply (inj Some) in E. rewrite E in H2. exact H2.
Defined.
