(* ===== verification/Context.v ===== *)
(** The life of an index context (IndexContext.rs): adding documents, building,
    saving, loading with the delta index beside the file, merging, reloading; and
    what each step leaves in memory and in the files. *)

From Stdlib Require Import Ascii String.
From Stdlib Require Import ZArith Lia ZifyBool Bool List.
From stdpp Require Import base list list_numbers gmap sorting.
From S2P Require Import Prelude Floats PostingCodec PostingStore IndexWriter FileAccess FileFormat BlockCache Mphf TermDictionary PathSidecar DocData IndexReader Composites Unions ReaderTree AdvancedReader EvalExpression Executor Query IndexBuilder IndexFile Merge MergeStore Runtime Documents.

Local Open Scope moon_scope.

(** * Files *)

(** The files the program sees, by path. *)
Abbreviation Files := (gmap str bytes).

(** Opening a file for page reads gives a handle on its content. *)
Class OsFiles := {
  os_open : bytes -> OsFile;
  os_open_holds : forall content, file_holds (os_open content) content;
  os_open_reads : forall content, reads_fully (os_open content) content;
}.

Definition IsValidIndex (fs : Files) (path : str) : bool :=
  match fs !! path with
  | None => false
  | Some content => (8 <=? length content) && bool_decide (slice 0 8 content = INDEX_FILE_MAGIC)
  end.

(** [path.rfind('.')]. *)
Fixpoint rfind_dot (p : str) : option nat :=
  match p with
  | [] => None
  | b :: p' =>
      match rfind_dot p' with
      | Some i => Some (S i)
      | None => if (b =? Z_of_ascii ".")%Z then Some 0 else None
      end
  end.

Definition DeltaIndexPath (path : str) : str :=
  let delta_idx := path ++ of_string ".delta.idx" in
  match rfind_dot path with
  | None => delta_idx
  | Some dot_pos =>
      if match rfind_separator path with Some slash_pos => slash_pos <? dot_pos | None => true end
      then take dot_pos path ++ of_string ".delta" ++ of_string "." ++ drop (dot_pos + 1) path
      else delta_idx
  end.

(** The directory of a path, with its slash, and its last component; a path that
    ends in a slash or in a dot component is outside the model. *)
Fixpoint rfind_slash (p : str) : option nat :=
  match p with
  | [] => None
  | b :: p' =>
      match rfind_slash p' with
      | Some i => Some (S i)
      | None => if (b =? Z_of_ascii "/")%Z then Some 0 else None
      end
  end.
Definition split_file_name (path : str) : str * str :=
  match rfind_slash path with
  | Some i => (take (i + 1) path, drop (i + 1) path)
  | None => ([], path)
  end.

(** [Path::file_stem] and [Path::extension] of a last component. *)
Definition stem_and_extension (name : str) : str * option str :=
  match rfind_dot name with
  | Some (S i) => (take (S i) name, Some (drop (S (S i)) name))
  | _ => (name, None)
  end.

(** delta_index_path of the command-line program (bin/moon.rs), a second function for the name of the delta. *)
Definition delta_index_path (path : str) : str :=
  let '(dir, name) := split_file_name path in
  match stem_and_extension name with
  | (stem, Some ext) => dir ++ stem ++ of_string ".delta." ++ ext
  | (_, None) => path ++ of_string ".delta.idx"
  end.

(** * Fields *)

Definition LEAF_TERM_CACHE_BYTES : Z := 100 * 1024 * 1024.

Definition context_new (index_path : option str) (load_delta : bool) : IndexContext :=
  {| m_Store := store_new; m_Index := empty_index; m_VectorBuilt := false; m_IndexPath := index_path; m_Built := false;
     m_LoadedFromDisk := false; m_LoadDelta := load_delta; m_LeafTermCacheBytes := LEAF_TERM_CACHE_BYTES;
     m_QueryParameters := kWeakAndBigramParameters; m_WeakAndBuildMode := FlatPruned; m_DeltaContext := None;
     m_Write := empty_index; m_WriteBuilt := false |}.

Section fields.
Implicit Types ctx : IndexContext.

(** The store and the loaded index, with the flags that go with them. *)
Definition with_loaded ctx store ix vectorBuilt built loadedFromDisk : IndexContext :=
  {| m_Store := store; m_Index := ix; m_VectorBuilt := vectorBuilt; m_IndexPath := m_IndexPath ctx; m_Built := built;
     m_LoadedFromDisk := loadedFromDisk; m_LoadDelta := m_LoadDelta ctx; m_LeafTermCacheBytes := m_LeafTermCacheBytes ctx;
     m_QueryParameters := m_QueryParameters ctx; m_WeakAndBuildMode := m_WeakAndBuildMode ctx; m_DeltaContext := m_DeltaContext ctx;
     m_Write := m_Write ctx; m_WriteBuilt := m_WriteBuilt ctx |}.

Definition with_delta ctx delta : IndexContext :=
  {| m_Store := m_Store ctx; m_Index := m_Index ctx; m_VectorBuilt := m_VectorBuilt ctx; m_IndexPath := m_IndexPath ctx; m_Built := m_Built ctx;
     m_LoadedFromDisk := m_LoadedFromDisk ctx; m_LoadDelta := m_LoadDelta ctx; m_LeafTermCacheBytes := m_LeafTermCacheBytes ctx;
     m_QueryParameters := m_QueryParameters ctx; m_WeakAndBuildMode := m_WeakAndBuildMode ctx; m_DeltaContext := delta;
     m_Write := m_Write ctx; m_WriteBuilt := m_WriteBuilt ctx |}.

Definition with_index_path ctx path : IndexContext :=
  {| m_Store := m_Store ctx; m_Index := m_Index ctx; m_VectorBuilt := m_VectorBuilt ctx; m_IndexPath := path; m_Built := m_Built ctx;
     m_LoadedFromDisk := m_LoadedFromDisk ctx; m_LoadDelta := m_LoadDelta ctx; m_LeafTermCacheBytes := m_LeafTermCacheBytes ctx;
     m_QueryParameters := m_QueryParameters ctx; m_WeakAndBuildMode := m_WeakAndBuildMode ctx; m_DeltaContext := m_DeltaContext ctx;
     m_Write := m_Write ctx; m_WriteBuilt := m_WriteBuilt ctx |}.

Definition with_write ctx ix built : IndexContext :=
  {| m_Store := m_Store ctx; m_Index := m_Index ctx; m_VectorBuilt := m_VectorBuilt ctx; m_IndexPath := m_IndexPath ctx; m_Built := m_Built ctx;
     m_LoadedFromDisk := m_LoadedFromDisk ctx; m_LoadDelta := m_LoadDelta ctx; m_LeafTermCacheBytes := m_LeafTermCacheBytes ctx;
     m_QueryParameters := m_QueryParameters ctx; m_WeakAndBuildMode := m_WeakAndBuildMode ctx; m_DeltaContext := m_DeltaContext ctx;
     m_Write := ix; m_WriteBuilt := built |}.

(** The settings that the delta index shares. *)
Definition with_settings ctx table leafTermCacheBytes parameters mode delta : IndexContext :=
  {| m_Store := m_Store ctx; m_Index := {| m_IndexFileHeader := m_IndexFileHeader (m_Index ctx); m_BlockTable := table;
       m_DocData := m_DocData (m_Index ctx); m_PathPrefixSidecar := m_PathPrefixSidecar (m_Index ctx); m_PathPrefixes := m_PathPrefixes (m_Index ctx) |};
     m_VectorBuilt := m_VectorBuilt ctx; m_IndexPath := m_IndexPath ctx; m_Built := m_Built ctx;
     m_LoadedFromDisk := m_LoadedFromDisk ctx; m_LoadDelta := m_LoadDelta ctx; m_LeafTermCacheBytes := leafTermCacheBytes;
     m_QueryParameters := parameters; m_WeakAndBuildMode := mode; m_DeltaContext := delta;
     m_Write := m_Write ctx; m_WriteBuilt := m_WriteBuilt ctx |}.

(** ** Settings *)

Definition bt_SetTermMphfEnabled (t : IndexBlockTable) (enabled : bool) : IndexBlockTable :=
  set_terms t {| tt_Mphf := SetTermMphfEnabled (tt_Mphf (bt_Terms t)) enabled; m_HeadTermEntries := m_HeadTermEntries (bt_Terms t);
                 m_HeadTermEntryCount := m_HeadTermEntryCount (bt_Terms t) |}.

Definition bt_SetDirectBlockAccessEnabled (t : IndexBlockTable) (enabled : bool) : IndexBlockTable :=
  {| bt_Terms := bt_Terms t; m_IndexPool := m_IndexPool t; m_LeafTermPool := m_LeafTermPool t; m_DirectBlockAccess := enabled;
     m_AccessCounters := m_AccessCounters t |}.

Fixpoint ctx_SetTermMphfEnabled ctx (enabled : bool) : IndexContext :=
  with_settings ctx (bt_SetTermMphfEnabled (m_BlockTable (m_Index ctx)) enabled) (m_LeafTermCacheBytes ctx) (m_QueryParameters ctx) (m_WeakAndBuildMode ctx)
    match m_DeltaContext ctx with Some delta => Some (ctx_SetTermMphfEnabled delta enabled) | None => None end.

Fixpoint ctx_SetDirectBlockAccessEnabled ctx (enabled : bool) : IndexContext :=
  with_settings ctx (bt_SetDirectBlockAccessEnabled (m_BlockTable (m_Index ctx)) enabled) (m_LeafTermCacheBytes ctx) (m_QueryParameters ctx) (m_WeakAndBuildMode ctx)
    match m_DeltaContext ctx with Some delta => Some (ctx_SetDirectBlockAccessEnabled delta enabled) | None => None end.

Fixpoint SetLeafTermCacheBytes ctx (bytes : Z) : IndexContext :=
  with_settings ctx (m_BlockTable (m_Index ctx)) (if (0 <? bytes)%Z then bytes else LEAF_TERM_CACHE_BYTES) (m_QueryParameters ctx) (m_WeakAndBuildMode ctx)
    match m_DeltaContext ctx with Some delta => Some (SetLeafTermCacheBytes delta bytes) | None => None end.

Fixpoint SetQueryParameters ctx (parameters : QueryCompileModeParameters) : IndexContext :=
  with_settings ctx (m_BlockTable (m_Index ctx)) (m_LeafTermCacheBytes ctx) parameters (m_WeakAndBuildMode ctx)
    match m_DeltaContext ctx with Some delta => Some (SetQueryParameters delta parameters) | None => None end.

Fixpoint SetWeakAndBuildMode ctx (mode : WeakAndBuildMode) : IndexContext :=
  with_settings ctx (m_BlockTable (m_Index ctx)) (m_LeafTermCacheBytes ctx) (m_QueryParameters ctx) mode
    match m_DeltaContext ctx with Some delta => Some (SetWeakAndBuildMode delta mode) | None => None end.

Definition GetDeltaContext ctx : option IndexContext := if HasDelta ctx then m_DeltaContext ctx else None.

Definition GetSpanWeight ctx (wordSpan : Z) : f32 :=
  if (2 <=? wordSpan)%Z then QMP_BigramWeight (m_QueryParameters ctx) else QMP_UnigramWeight (m_QueryParameters ctx).
End fields.

(** * Operations *)

Section operations.
Context `{Libm, DocOrder, HashOrder, Tokenizer, OsFiles}.

(** ** Loading *)

(** LoadDeltaIndex; [open_delta] opens a context on a path, without its delta. *)
Definition LoadDeltaIndex (open_delta : str -> IndexContext) (fs : Files) ctx : IndexContext :=
  let ctx := with_delta ctx None in
  if negb (m_LoadDelta ctx) then ctx
  else
    match m_IndexPath ctx with
    | None => ctx
    | Some indexPath =>
        let deltaPath := DeltaIndexPath indexPath in
        if bool_decide (deltaPath = indexPath) || negb (IsValidIndex fs deltaPath) then ctx
        else
          let delta := open_delta deltaPath in
          if m_LoadedFromDisk delta && (0 <? DocumentCount delta)%Z then with_delta ctx (Some delta) else ctx
    end.

Definition load_index (open_delta : str -> IndexContext) (fs : Files) ctx (path : str) : IndexContext * result unit :=
  let ctx := with_index_path (with_delta ctx None) (Some path) in
  match fs !! path with
  | None => (ctx, Err Io)
  | Some content =>
      match LoadIndex content (Some (os_open content)) (m_LeafTermCacheBytes ctx) with
      | Err e => (ctx, Err e)
      | Ok ix => (LoadDeltaIndex open_delta fs (with_loaded ctx store_new ix false true true), Ok tt)
      end
  end.

(** A new context, on an index if a path is given; a failure to load is ignored. *)
Definition new_context (open_delta : str -> IndexContext) (fs : Files) (index_path : option str) (load_delta : bool) : IndexContext :=
  let ctx := context_new index_path load_delta in
  match index_path with Some path => (load_index open_delta fs ctx path).1 | None => ctx end.

(** The context LoadDeltaIndex opens does not load a delta of its own, so [open_delta] is not reached again. *)
Definition open_delta_context (fs : Files) (path : str) : IndexContext :=
  new_context (fun path => context_new (Some path) false) fs (Some path) false.

Definition with_path_and_load_delta (fs : Files) (index_path : option str) (load_delta : bool) : IndexContext :=
  new_context (open_delta_context fs) fs index_path load_delta.

Definition with_path (fs : Files) (index_path : option str) : IndexContext := with_path_and_load_delta fs index_path true.

Definition ctx_LoadIndex (fs : Files) (ctx : IndexContext) (path : str) : IndexContext * result unit := load_index (open_delta_context fs) fs ctx path.

Definition ReloadIndex (fs : Files) (ctx : IndexContext) : IndexContext * result unit :=
  match m_IndexPath ctx with
  | None => (ctx, Err InvalidFormat)
  | Some path => ctx_LoadIndex fs ctx path
  end.

Definition ctx_LoadFromBytes (ctx : IndexContext) (data : bytes) : IndexContext * result unit :=
  let ctx := with_delta ctx None in
  match LoadFromBytes data with
  | Err e => (ctx, Err e)
  | Ok ix => (with_loaded ctx store_new ix false true true, Ok tt)
  end.

(** The records and paths of an index, without its terms. *)
Definition vector_tables (header : IndexFileHeader) (docdata sidecar : bytes) (prefixes : list str) : LoadedIndex :=
  {| m_IndexFileHeader := header; m_BlockTable := IndexBlockTable_new; m_DocData := docdata;
     m_PathPrefixSidecar := sidecar; m_PathPrefixes := prefixes |}.

Definition read_vector_tables (data : bytes) : result LoadedIndex :=
  let? header := header_parse data in
  let sidecar_begin := INDEX_FILE_HEADER_SIZE in
  let sidecar_end := sidecar_begin + PATH_PREFIX_SIDECAR_BYTES in
  if length data <? sidecar_end then Err InvalidFormat
  else
    let sidecar := slice sidecar_begin PATH_PREFIX_SIDECAR_BYTES data in
    let? prefixes := DecodePathPrefixSidecar sidecar in
    let? docdata_bytes := ok_or (checked_mul 64 (IFH_NumDocuments header) (Z.of_nat DOC_REC_SIZE)) InvalidFormat in
    let? docdata_end := ok_or (checked_add 64 (IFH_DocDataOffset header) docdata_bytes) InvalidFormat in
    if (Z.of_nat (length data) <? docdata_end)%Z then Err InvalidFormat
    else Ok (vector_tables header (slice (Z.to_nat (IFH_DocDataOffset header)) (Z.to_nat docdata_bytes) data) sidecar prefixes).

Definition LoadVectorFromBytes (ctx : IndexContext) (data : bytes) : IndexContext * result unit :=
  let ctx := with_delta ctx None in
  match read_vector_tables data with
  | Err e => (ctx, Err e)
  | Ok ix => (with_loaded ctx store_new ix false true true, Ok tt)
  end.

(** [IndexFileHeader { IFH_NumDocuments: count, ..default() }]. *)
Definition header_with_documents (count : Z) : IndexFileHeader :=
  header_of INDEX_FILE_MAGIC INDEX_FORMAT_VERSION 0 (fun i => if i =? 0 then count else 0%Z).

Definition LoadVectorTables (ctx : IndexContext) (docdata pathPrefixSidecar : bytes) : IndexContext * result unit :=
  let ctx := with_delta ctx None in
  if negb (length docdata mod DOC_REC_SIZE =? 0) || negb (length pathPrefixSidecar =? PATH_PREFIX_SIDECAR_BYTES)
  then (ctx, Err InvalidFormat)
  else
    match DecodePathPrefixSidecar pathPrefixSidecar with
    | Err e => (ctx, Err e)
    | Ok prefixes =>
        let header := header_with_documents (Z.of_nat (length docdata / DOC_REC_SIZE)) in
        (with_loaded ctx store_new (vector_tables header docdata pathPrefixSidecar prefixes) false true true, Ok tt)
    end.

(** ** Adding documents *)

Definition next_document_id (ix : LoadedIndex) : Z :=
  wrapping_add 64 (DocDataFirstDocId (m_DocData ix) (m_IndexFileHeader ix)) (IFH_NumDocuments (m_IndexFileHeader ix)).

Definition AllocateDocumentID (ctx : IndexContext) : Z :=
  let nextId := next_document_id (m_Index ctx) in
  let nextId := match m_DeltaContext ctx with Some delta => Z.max nextId (next_document_id (m_Index delta)) | None => nextId end in
  fold_left (fun nextId docId => Z.max nextId (wrapping_add 64 docId 1)) (doc_ids (m_Store ctx)) nextId.

(** [model] is the vector index's embedding model when [buildVector] is set. *)
Definition AddDocument (ctx : IndexContext) (doc : Doc.Document) (model : option EmbeddingModel) : IndexContext * Z :=
  let docId := if (Doc.doc_id doc =? u64_max)%Z then AllocateDocumentID ctx else Doc.doc_id doc in
  let store := write_document model (m_Store ctx) docId doc in
  let ctx := with_write ctx (m_Write ctx) false in
  (if m_LoadedFromDisk ctx then with_loaded ctx store (m_Index ctx) (m_VectorBuilt ctx) (m_Built ctx) true
   else with_loaded ctx store (m_Index ctx) false false false, docId).

(** ** Building and saving *)

(** [None]: building the blocks or the records panics. The vector runtime is built over the records of the index. *)
Definition Build (ctx : IndexContext) : option IndexContext :=
  if m_Built ctx then Some (with_loaded ctx (m_Store ctx) (m_Index ctx) true true (m_LoadedFromDisk ctx))
  else if bool_decide (m_DocStats (m_Store ctx) = ∅) then Some (with_loaded ctx (m_Store ctx) (m_Index ctx) true true false)
  else
    opt ix := BuildIndexData (m_Store ctx) in
    Some (with_loaded ctx (m_Store ctx) ix true true (m_LoadedFromDisk ctx)).

(** The write fields, built if they are not current. *)
Definition build_write (ctx : IndexContext) : option IndexContext :=
  if m_WriteBuilt ctx then Some ctx
  else if bool_decide (m_DocStats (m_Store ctx) = ∅) then Some (with_write ctx (m_Write ctx) true)
  else
    opt ix := BuildIndexData (m_Store ctx) in
    Some (with_write ctx ix true).

(** The context of a delta index just saved, which takes over the write fields. *)
Definition saved_delta (path : str) (ix : LoadedIndex) : IndexContext :=
  with_loaded (with_index_path (context_new None false) (Some path)) store_new ix false true true.

Definition SaveIndex (fs : Files) (ctx : IndexContext) (path : str) : option (Files * IndexContext * result unit) :=
  let savingDeltaIndex := match m_IndexPath ctx with Some index_path => bool_decide (path = DeltaIndexPath index_path) | None => false end in
  let overwritingLoadedIndex := negb savingDeltaIndex && m_LoadedFromDisk ctx && bool_decide (m_IndexPath ctx = Some path) in
  let ctx := if savingDeltaIndex then ctx else with_index_path ctx (Some path) in
  opt ctx := build_write ctx in
  let ctx := if overwritingLoadedIndex then with_loaded ctx (m_Store ctx) empty_index false false false else ctx in
  let ix := m_Write ctx in
  match Save (m_IndexFileHeader ix) (m_BlockTable ix) (m_DocData ix) (m_PathPrefixSidecar ix) with
  | Err e => Some (fs, ctx, Err e)
  | Ok file =>
      let ctx := if savingDeltaIndex then with_delta (with_write ctx empty_index false) (Some (saved_delta path ix)) else ctx in
      Some (<[path := file]> fs, ctx, Ok tt)
  end.

Definition SaveIndexCurrent (fs : Files) (ctx : IndexContext) : option (Files * IndexContext * result unit) :=
  match m_IndexPath ctx with
  | None => Some (fs, ctx, Err InvalidFormat)
  | Some path => SaveIndex fs ctx path
  end.

(** ** Merging *)

(** The block table is not shared with a reader when this is called. *)
Definition ResetLoadedRuntimeState (ctx : IndexContext) : IndexContext :=
  let table := SetBlockMemory (m_BlockTable (m_Index ctx)) None None in
  with_loaded (with_delta ctx None) (m_Store ctx)
    {| m_IndexFileHeader := header_zeroed; m_BlockTable := table; m_DocData := [];
       m_PathPrefixSidecar := zeros PATH_PREFIX_SIDECAR_BYTES; m_PathPrefixes := [] |} false false false.

(** The output replaces the file at its path; the temporary files beside it come and go. *)
Definition ctx_Merge (fs : Files) (ctx : IndexContext) (output_path : str) : option (Files * IndexContext * result unit) :=
  opt r := Merge (m_Built ctx) (m_Index ctx) (option_map (fun delta => (m_Built delta, m_Index delta)) (m_DeltaContext ctx)) in
  match r with
  | Err e => Some (fs, ctx, Err e)
  | Ok file => Some (<[output_path := file]> fs, ResetLoadedRuntimeState ctx, Ok tt)
  end.

(** ** Lookups *)

Fixpoint ctx_GetDocDataEntry (ctx : IndexContext) (doc_id : Z) {struct ctx} : option DocDataEntry :=
  GetDocDataEntry (m_DocData (m_Index ctx)) (m_IndexFileHeader (m_Index ctx))
    (match m_DeltaContext ctx with Some delta => Some (ctx_GetDocDataEntry delta) | None => None end) doc_id.

Fixpoint ctx_GetDocPath (ctx : IndexContext) (doc_id : Z) {struct ctx} : str :=
  index_GetDocPath (m_DocData (m_Index ctx)) (m_IndexFileHeader (m_Index ctx)) (m_PathPrefixes (m_Index ctx))
    (match m_DeltaContext ctx with Some delta => Some (ctx_GetDocPath delta) | None => None end) doc_id.

Fixpoint GetStreamDocFreq (ctx : IndexContext) (stream_key : str) {struct ctx} : Z :=
  let source := @table_source (table_blocks (m_BlockTable (m_Index ctx))) (bt_Terms (m_BlockTable (m_Index ctx))) in
  let total := default 0%Z (option_map doc_freq_ (@FindTermData source stream_key)) in
  let total := match m_DeltaContext ctx with Some delta => (total + GetStreamDocFreq delta stream_key)%Z | None => total end in
  Z.min total u32_max.
End operations.

(** * Loading, step by step *)

Section loading.
Context `{Libm, DocOrder, HashOrder, Tokenizer, OsFiles}.
Implicit Types ctx : IndexContext.
Implicit Types fs : Files.

(** Whatever would open a delta, a context that does not load one never calls it. *)
Lemma load_index_alone open_delta open_delta' fs ctx path : m_LoadDelta ctx = false ->
  load_index open_delta fs ctx path = load_index open_delta' fs ctx path.
Proof.
  intros Hl. unfold load_index. cbv zeta. destruct (fs !! path) as [content|]; [|done].
  destruct (LoadIndex content _ _) as [ix|e]; [|done]. unfold LoadDeltaIndex.
  cbn [m_LoadDelta with_delta with_loaded with_index_path]. by rewrite Hl.
Qed.

Lemma open_delta_context_eq fs path : open_delta_context fs path = with_path_and_load_delta fs (Some path) false.
Proof. unfold open_delta_context at 1, with_path_and_load_delta, new_context. by rewrite (load_index_alone _ (open_delta_context fs)). Qed.

(** ** Paths *)

Lemma rfind_dot_lt path i : rfind_dot path = Some i -> i < length path.
Proof.
  revert i. induction path as [|b path IH]; intros i; cbn; [done|]. destruct (rfind_dot path) as [j|] eqn:E.
  - intros [= <-]. specialize (IH j eq_refl). lia.
  - case_match; [|done]. intros [= <-]. lia.
Qed.

Lemma DeltaIndexPath_longer path : length path < length (DeltaIndexPath path).
Proof.
  unfold DeltaIndexPath. set (longer := path ++ _). assert (Hl : length path < length longer) by (unfold longer; rewrite length_app; cbn; lia).
  destruct (rfind_dot path) as [i|] eqn:E; [|done]. apply rfind_dot_lt in E.
  destruct (match rfind_separator path with Some _ => _ | None => _ end); [|done].
  rewrite !length_app, length_take, length_drop. cbn [of_string length]. change (length (of_string ".delta")) with 6. change (length (of_string ".")) with 1. lia.
Qed.

Lemma DeltaIndexPath_ne path : DeltaIndexPath path <> path.
Proof. intros He. pose proof (DeltaIndexPath_longer path) as Hl. rewrite He in Hl. lia. Qed.

(** The two names of the delta agree when the name of the index has no backslash and does not start with its last dot. *)
Definition plain_name (path : str) : bool :=
  let name := (split_file_name path).2 in
  bool_decide (rfind_separator name = None) && negb (bool_decide (rfind_dot name = Some 0)).

Lemma rfind_dot_app p q : rfind_dot (p ++ q) = match rfind_dot q with Some i => Some (length p + i) | None => rfind_dot p end.
Proof. induction p as [|b p IH]; cbn; [by destruct (rfind_dot q)|]. rewrite IH. by destruct (rfind_dot q). Qed.

Lemma rfind_separator_both p q :
  rfind_separator (p ++ q) = match rfind_separator q with Some i => Some (length p + i) | None => rfind_separator p end.
Proof. induction p as [|b p IH]; cbn [app rfind_separator length]; [by destruct (rfind_separator q)|]. rewrite IH. by destruct (rfind_separator q). Qed.

Lemma rfind_slash_ends p i : rfind_slash p = Some i -> i < length p /\ exists dir, take (i + 1) p = dir ++ [Z_of_ascii "/"] /\ length dir = i.
Proof.
  revert i. induction p as [|b p IH]; intros i; cbn; [done|]. destruct (rfind_slash p) as [j|].
  - intros [= <-]. destruct (IH j eq_refl) as (Hj & dir & Hd & Hl). split; [lia|]. exists (b :: dir). cbn. by rewrite Hd, Hl.
  - destruct (Z.eqb_spec b (Z_of_ascii "/")) as [->|]; [|done]. intros [= <-]. split; [lia|]. by exists [].
Qed.

(** The directory part: nothing, or something that ends in its last separator. *)
Lemma split_file_name_parts path : path = (split_file_name path).1 ++ (split_file_name path).2 /\
  ((split_file_name path).1 = [] \/ exists i, rfind_separator (split_file_name path).1 = Some i /\ length (split_file_name path).1 = i + 1).
Proof.
  unfold split_file_name. destruct (rfind_slash path) as [i|] eqn:E; cbn [fst snd]; [|split; [done|by left]].
  split; [by rewrite take_drop|]. right. destruct (rfind_slash_ends _ _ E) as (Hi & dir & -> & Hl). exists i.
  rewrite rfind_separator_both, length_app. cbn. split; [f_equal|]; lia.
Qed.

Lemma plain_name_delta path : plain_name path = true -> delta_index_path path = DeltaIndexPath path.
Proof.
  unfold plain_name, delta_index_path. destruct (split_file_name_parts path) as [Hp Hdir]. destruct (split_file_name path) as [dir name]. cbn [fst snd] in *.
  intros [Hs Hd]%andb_true_iff. apply bool_decide_eq_true in Hs. apply negb_true_iff, bool_decide_eq_false in Hd.
  unfold DeltaIndexPath. rewrite Hp, rfind_dot_app, rfind_separator_both, Hs. unfold stem_and_extension.
  destruct (rfind_dot name) as [[|i]|] eqn:En; [done| |].
  - assert ((match rfind_separator dir with Some slash_pos => slash_pos <? length dir + S i | None => true end) = true) as ->.
    { destruct Hdir as [-> |(j & -> & Hl)]; [done|]. apply Nat.ltb_lt. lia. }
    rewrite take_app_ge, drop_app_ge by lia. replace (length dir + S i - length dir) with (S i) by lia.
    replace (length dir + S i + 1 - length dir) with (S (S i)) by lia. by rewrite <- !app_assoc.
  - destruct (rfind_dot dir) as [j|] eqn:Ej; [|done]. apply rfind_dot_lt in Ej.
    destruct Hdir as [-> |(k & -> & Hl)]; [cbn in Ej; lia|]. by rewrite (proj2 (Nat.ltb_ge _ _)) by lia.
Qed.

(** * Files that hold an index *)

(** What a context saves that has nothing to save: a zeroed header and no tables, which is not an index. *)
Definition empty_file : bytes := header_to_bytes header_zeroed ++ zeros PATH_PREFIX_SIDECAR_BYTES.

Lemma empty_index_saved :
  Save (m_IndexFileHeader empty_index) (m_BlockTable empty_index) (m_DocData empty_index) (m_PathPrefixSidecar empty_index) = Ok empty_file.
Proof.
  assert (Hz : existsb (fun byte => negb (byte =? 0)%Z) (zeros PATH_PREFIX_SIDECAR_BYTES) = false).
  { apply not_true_is_false. intros (b & Hb & Hne)%existsb_exists. apply list_elem_of_In, elem_of_replicate in Hb as [-> _]. done. }
  cbn [empty_index m_IndexFileHeader m_BlockTable m_DocData m_PathPrefixSidecar]. unfold Save. cbv zeta.
  change (is_zeroed header_zeroed) with true. cbn [result_bind andb].
  change (ok_or (checked_mul 64 (IFH_NumDocuments header_zeroed) (Z.of_nat DOC_REC_SIZE)) InvalidFormat) with (Ok 0%Z).
  cbn [result_bind length]. rewrite Hz. unfold zeros at 1. rewrite length_replicate, Nat.eqb_refl. cbn [negb orb].
  change (IndexBlocks IndexBlockTable_new) with (@nil bytes). reflexivity.
Qed.

Lemma IsValidIndex_empty fs path : fs !! path = Some empty_file -> IsValidIndex fs path = false.
Proof. intros Hf. unfold IsValidIndex. rewrite Hf. vm_compute. reflexivity. Qed.

Lemma invalid_load fs path content opened leafTermCacheBytes : fs !! path = Some content -> IsValidIndex fs path = false ->
  exists e, LoadIndex content opened leafTermCacheBytes = Err e.
Proof.
  intros Hf Hv. unfold IsValidIndex in Hv. rewrite Hf in Hv. unfold LoadIndex, LoadFileTables, read_exact.
  destruct (0 + INDEX_FILE_HEADER_SIZE <=? length content) eqn:El; cbn [result_bind]; [|exists Io; reflexivity]. rewrite header_parse_prefix by (apply Nat.leb_le in El; lia).
  unfold header_parse. assert (bool_decide (slice 0 8 content = INDEX_FILE_MAGIC) = false) as ->.
  { apply andb_false_iff in Hv as [Hv|Hv]; [|done]. apply Nat.leb_le in El. apply Nat.leb_gt in Hv. unfold INDEX_FILE_HEADER_SIZE in El. lia. }
  rewrite orb_true_r. exists InvalidFormat; reflexivity.
Qed.

Lemma empty_file_load opened leafTermCacheBytes : LoadIndex empty_file opened leafTermCacheBytes = Err InvalidFormat.
Proof.
  unfold LoadIndex. assert (LoadFileTables store_new empty_file = Err InvalidFormat) as -> by (vm_compute; reflexivity). done.
Qed.

(** The bytes are an index of the store, for any room in the page cache. *)
Record file_of (store : PostingStore) (content : bytes) : Prop := {
  fo_magic : 8 <= length content /\ slice 0 8 content = INDEX_FILE_MAGIC;
  fo_loads : forall leafTermCacheBytes, (Z.of_nat PAGE_SIZE <= leafTermCacheBytes < 2 ^ 31)%Z ->
    exists ix, LoadIndex content (Some (os_open content)) leafTermCacheBytes = Ok ix /\ is_index store ix;
}.

Lemma file_of_saved store ix r groups t file :
  docs_wf store -> memory_index store ix r groups t ->
  Save (m_IndexFileHeader ix) (m_BlockTable ix) (m_DocData ix) (m_PathPrefixSidecar ix) = Ok file ->
  (Z.of_nat (length file) < 2 ^ 63)%Z -> file_of store file.
Proof.
  intros Hd Hm Hs Hlen. destruct (memory_index_saved store Hd ix r groups t Hm) as (file' & Hs' & Hload & Hcache).
  rewrite Hs in Hs'. apply Ok_inj in Hs' as <-. split.
  - unfold LoadFromBytes in Hload. destruct (header_parse file) as [h|] eqn:E; [|done]. clear - E. unfold header_parse in E.
    destruct (length file <? INDEX_FILE_HEADER_SIZE) eqn:E1; [done|]. destruct (bool_decide (slice 0 8 file = INDEX_FILE_MAGIC)) eqn:E2; [|done].
    apply bool_decide_eq_true in E2. split; [|done]. apply Nat.ltb_ge in E1. unfold INDEX_FILE_HEADER_SIZE in E1. lia.
  - intros leafBytes Hleaf. destruct (Hcache (os_open file) leafBytes (os_open_holds file) (os_open_reads file) Hlen Hleaf) as (ix' & Hl & Hi).
    exists ix'. split; [done|]. by exists r, groups, t.
Qed.

Lemma file_of_valid fs path store content : fs !! path = Some content -> file_of store content -> IsValidIndex fs path = true.
Proof.
  intros Hf [[Hl Hm] _]. unfold IsValidIndex. rewrite Hf, Hm, bool_decide_eq_true_2 by done. rewrite (proj2 (Nat.leb_le _ _) Hl). done.
Qed.
End loading.

(** * A session *)

(** The commands of the interactive program (bin/moon.rs: interactive) that change the index, and its start;
    the vector indexes it builds in a vector mode are left to Runtime and VectorRuntime. *)
Inductive Command := Start | Add (doc : Doc.Document) (model : option EmbeddingModel) | SaveCommand | MergeCommand.

Section session.
Context `{Libm, DocOrder, HashOrder, Tokenizer, OsFiles}.

(** [None]: a panic. A document is added under the id it has or the next one; [model] is that of the
    vector index, unless the vectors come from elsewhere. *)
Definition run_command (path : str) (fs : Files) (ctx : IndexContext) (command : Command) : option (Files * IndexContext * result unit) :=
  match command with
  | Start => Some (fs, with_path fs (Some path), Ok tt)
  | Add doc model => Some (fs, (AddDocument ctx doc model).1, Ok tt)
  | SaveCommand =>
      if IsValidIndex fs path then SaveIndex fs ctx (delta_index_path path)
      else
        opt r := SaveIndex fs ctx path in
        let '(fs, ctx, saved) := r in
        match saved with
        | Err e => Some (fs, ctx, Err e)
        | Ok _ => let (ctx, loaded) := ctx_LoadIndex fs ctx path in Some (fs, ctx, loaded)
        end
  | MergeCommand =>
      if HasDelta ctx then
        opt r := ctx_Merge fs ctx path in
        let '(fs, ctx, merged) := r in
        match merged with
        | Err e => Some (fs, ctx, Err e)
        | Ok _ =>
            let fs := delete (delta_index_path path) fs in
            let (ctx, loaded) := ctx_LoadIndex fs ctx path in Some (fs, ctx, loaded)
        end
      else Some (fs, ctx, Ok tt)
  end.

(** * What a session means *)

(** The stores behind a session: of the index file, of the delta file, of the documents not saved since
    the index was loaded, and of the write fields when they are built, which may be those of no document. *)
Record Corpora := {
  cp_base : option PostingStore;
  cp_delta : option PostingStore;
  cp_pending : PostingStore;
  cp_written : option PostingStore;
}.

Definition store_end (s : PostingStore) : Z := (StoreFirstDocId s + StoreDocDataRecordCount s)%Z.
Definition option_end (s : option PostingStore) : Z := match s with Some s => store_end s | None => 0%Z end.

Definition next_id (c : Corpora) : Z := Z.max (Z.max (option_end (cp_base c)) (option_end (cp_delta c))) (store_end (cp_pending c)).

(** What each command does to the stores. Saving a first index makes it the base; later saves replace the
    delta; loading forgets the documents not saved. Saving without a document writes a file that is no index:
    as a first index it cannot be loaded, as a delta it takes the place of the delta there was. *)
Definition spec_command (c : Corpora) (command : Command) : Corpora * result unit :=
  match command with
  | Start => ({| cp_base := cp_base c; cp_delta := cp_delta c; cp_pending := store_new; cp_written := None |}, Ok tt)
  | Add doc model =>
      let docId := if (Doc.doc_id doc =? u64_max)%Z then next_id c else Doc.doc_id doc in
      ({| cp_base := cp_base c; cp_delta := cp_delta c; cp_pending := write_document model (cp_pending c) docId doc; cp_written := None |}, Ok tt)
  | SaveCommand =>
      let saved := default (cp_pending c) (cp_written c) in
      let nothing := bool_decide (m_DocStats saved = ∅) in
      match cp_base c with
      | None =>
          if nothing then ({| cp_base := None; cp_delta := None; cp_pending := cp_pending c; cp_written := Some saved |}, Err InvalidFormat)
          else ({| cp_base := Some saved; cp_delta := None; cp_pending := store_new; cp_written := Some saved |}, Ok tt)
      | Some base =>
          ({| cp_base := Some base; cp_delta := if nothing then None else Some saved; cp_pending := cp_pending c; cp_written := None |}, Ok tt)
      end
  | MergeCommand =>
      match cp_base c, cp_delta c with
      | Some base, Some delta =>
          if (StoreFirstDocId delta =? StoreDocDataRecordCount base)%Z
          then ({| cp_base := Some (merged_store base delta); cp_delta := None; cp_pending := store_new; cp_written := cp_written c |}, Ok tt)
          else (c, Err InvalidFormat)
      | _, _ => (c, Ok tt)
      end
  end.

(** Stores of an index: at least one document, and all within the format. *)
Definition indexable (s : PostingStore) : Prop := docs_wf s /\ m_DocStats s <> ∅ /\ storable s /\ documented s.
Definition option_indexable (s : option PostingStore) : Prop := match s with Some s => indexable s | None => True end.

(** The index the write fields hold, which can be saved. *)
Definition written_index (s : PostingStore) (ix : LoadedIndex) : Prop :=
  exists r groups t, memory_index s ix r groups t /\
    forall file, Save (m_IndexFileHeader ix) (m_BlockTable ix) (m_DocData ix) (m_PathPrefixSidecar ix) = Ok file -> (Z.of_nat (length file) < 2 ^ 63)%Z.

(** The write fields after they are built: without a document they stay empty. *)
Definition write_holds (s : PostingStore) (ix : LoadedIndex) : Prop :=
  m_DocStats s = ∅ /\ ix = empty_index \/ indexable s /\ written_index s ix.

(** A file and its delta hold the stores; the program and its library mean the same delta. *)
Record files_hold (path : str) (fs : Files) (base delta : option PostingStore) : Prop := {
  fh_named : delta_index_path path = DeltaIndexPath path;
  fh_base : match base with
            | Some s => exists content, fs !! path = Some content /\ file_of s content
            | None => IsValidIndex fs path = false end;
  fh_delta : match delta with
             | Some s => exists content, fs !! DeltaIndexPath path = Some content /\ file_of s content
             | None => IsValidIndex fs (DeltaIndexPath path) = false end;
  fh_alone : base = None -> delta = None;
}.

(** The loaded part of a context holds the stores. *)
Record context_holds (path : str) (ctx : IndexContext) (base delta : option PostingStore) : Prop := {
  ch_path : m_IndexPath ctx = Some path;
  ch_load_delta : m_LoadDelta ctx = true;
  ch_cache : (Z.of_nat PAGE_SIZE <= m_LeafTermCacheBytes ctx < 2 ^ 31)%Z;
  ch_base : match base with
            | Some s => is_index s (m_Index ctx) /\ m_Built ctx = true /\ m_LoadedFromDisk ctx = true
            | None => m_Index ctx = empty_index /\ m_LoadedFromDisk ctx = false end;
  ch_delta : match m_DeltaContext ctx, delta with
             | Some d, Some s => is_index s (m_Index d) /\ m_Built d = true /\ m_DeltaContext d = None
             | Some d, None => m_Index d = empty_index /\ m_DeltaContext d = None
             | None, None => True
             | None, Some _ => False end;
}.

(** A session holds the stores. *)
Record session_holds (path : str) (fs : Files) (ctx : IndexContext) (c : Corpora) : Prop := {
  sh_files : files_hold path fs (cp_base c) (cp_delta c);
  sh_context : context_holds path ctx (cp_base c) (cp_delta c);
  sh_store : m_Store ctx = cp_pending c;
  sh_write : match cp_written c with
             | Some s => m_WriteBuilt ctx = true /\ write_holds s (m_Write ctx) /\ cp_delta c = None
             | None => m_WriteBuilt ctx = false /\ (m_Write ctx = empty_index \/ m_DocStats (cp_pending c) <> ∅ /\ cp_delta c = None) end;
  sh_base : option_indexable (cp_base c);
  sh_delta : option_indexable (cp_delta c);
  sh_pending : corpus_ok (cp_pending c);
}.

(** What a command needs: documents and files that fit the format. *)
Definition admissible (path : str) (fs : Files) (ctx : IndexContext) (c : Corpora) (command : Command) : Prop :=
  match command with
  | Start => True
  | Add doc _ => document_wf doc /\ (0 <= (if (Doc.doc_id doc =? u64_max)%Z then next_id c else Doc.doc_id doc) < u32_max)%Z
  | SaveCommand =>
      cp_written c = None -> m_DocStats (cp_pending c) <> ∅ -> (Z.of_nat (size (m_DocStats (cp_pending c))) <= 2 ^ 24)%Z /\
        (forall ix, BuildIndexData (cp_pending c) = Some ix -> index_fits ix /\ forall file,
           Save (m_IndexFileHeader ix) (m_BlockTable ix) (m_DocData ix) (m_PathPrefixSidecar ix) = Ok file -> (Z.of_nat (length file) < 2 ^ 63)%Z)
  | MergeCommand =>
      match cp_base c, cp_delta c, m_DeltaContext ctx with
      | Some base, Some delta, Some dctx =>
          StoreFirstDocId delta = StoreDocDataRecordCount base ->
          StoreFirstDocId base = 0%Z /\ mergeable_store (merged_store base delta) /\
          directories_known base (m_PathPrefixes (m_Index ctx)) /\ directories_known delta (m_PathPrefixes (m_Index dctx)) /\
          (forall fs' ctx' file, ctx_Merge fs ctx path = Some (fs', ctx', Ok tt) -> fs' !! path = Some file -> (Z.of_nat (length file) < 2 ^ 44)%Z)
      | _, _, _ => True
      end
  end.
End session.

Section steps.
Context `{Libm, DocOrder, HashOrder, Tokenizer, OsFiles}.
Implicit Types ctx : IndexContext.
Implicit Types fs : Files.

(** ** Loading *)

Lemma default_cache : (Z.of_nat PAGE_SIZE <= LEAF_TERM_CACHE_BYTES < 2 ^ 31)%Z.
Proof. rewrite PAGE_SIZE_Z. unfold LEAF_TERM_CACHE_BYTES. lia. Qed.

Lemma open_delta_ok fs path content s : fs !! path = Some content -> file_of s content ->
  is_index s (m_Index (open_delta_context fs path)) /\ m_Built (open_delta_context fs path) = true /\
  m_LoadedFromDisk (open_delta_context fs path) = true /\ m_DeltaContext (open_delta_context fs path) = None.
Proof.
  intros Hf Ho. destruct (fo_loads _ _ Ho LEAF_TERM_CACHE_BYTES default_cache) as (ix & Hl & Hi).
  unfold open_delta_context, new_context, load_index. cbv zeta. rewrite Hf.
  cbn [m_LeafTermCacheBytes with_index_path with_delta context_new]. rewrite Hl. unfold LoadDeltaIndex.
  cbn [m_LoadDelta with_delta with_loaded with_index_path context_new negb fst m_Index m_Built m_LoadedFromDisk m_DeltaContext]. done.
Qed.

Lemma is_index_documents s ix : is_index s ix -> m_DocStats s <> ∅ -> (0 <? IFH_NumDocuments (m_IndexFileHeader ix))%Z = true.
Proof. intros (r & g & t & Hi) Hne. rewrite (index_doc_count _ _ _ _ _ Hi). apply Z.ltb_lt, store_count_pos, Hne. Qed.

Lemma load_holds path fs ctx base delta :
  files_hold path fs (Some base) delta -> option_indexable delta -> m_LoadDelta ctx = true ->
  (Z.of_nat PAGE_SIZE <= m_LeafTermCacheBytes ctx < 2 ^ 31)%Z ->
  exists ctx', ctx_LoadIndex fs ctx path = (ctx', Ok tt) /\ context_holds path ctx' (Some base) delta /\
    m_Store ctx' = store_new /\ m_WriteBuilt ctx' = m_WriteBuilt ctx /\ m_Write ctx' = m_Write ctx.
Proof.
  intros [_ (content & Hf & Ho) Hd _] Hin Hld Hc. destruct (fo_loads _ _ Ho _ Hc) as (ix & Hl & Hi).
  unfold ctx_LoadIndex, load_index. cbv zeta. rewrite Hf. cbn [m_LeafTermCacheBytes with_index_path with_delta]. rewrite Hl.
  eexists. split; [reflexivity|]. unfold LoadDeltaIndex.
  cbn [m_LoadDelta with_delta with_loaded with_index_path m_IndexPath]. rewrite Hld. cbn [negb].
  rewrite bool_decide_eq_false_2 by apply DeltaIndexPath_ne. cbn [orb].
  destruct delta as [s|].
  - destruct Hd as (dcontent & Hdf & Hdo). rewrite (file_of_valid _ _ _ _ Hdf Hdo). cbn [negb].
    destruct (open_delta_ok fs _ _ _ Hdf Hdo) as (Hdi & Hdb & Hdl & Hdn). rewrite Hdl. unfold DocumentCount.
    rewrite (is_index_documents _ _ Hdi (proj1 (proj2 Hin))). cbn [andb]. split; [|done]. split; done.
  - rewrite Hd. cbn [negb]. split; [|done]. split; done.
Qed.

(** A file that is no index cannot be loaded. *)
Lemma load_fails open_delta fs ctx path : IsValidIndex fs path = false ->
  (load_index open_delta fs ctx path).1 = with_index_path (with_delta ctx None) (Some path).
Proof.
  intros Hv. unfold load_index. cbv zeta. destruct (fs !! path) as [content|] eqn:Hf; [|done].
  by destruct (invalid_load fs path content (Some (os_open content)) (m_LeafTermCacheBytes (with_index_path (with_delta ctx None) (Some path))) Hf Hv) as [e ->].
Qed.

(** ** Starting *)

Lemma start_holds path fs base delta : files_hold path fs base delta -> option_indexable delta ->
  context_holds path (with_path fs (Some path)) base delta /\ m_Store (with_path fs (Some path)) = store_new /\
  m_WriteBuilt (with_path fs (Some path)) = false /\ m_Write (with_path fs (Some path)) = empty_index.
Proof.
  intros Hf Hin. unfold with_path, with_path_and_load_delta, new_context. destruct base as [s|].
  - destruct (load_holds path fs (context_new (Some path) true) s delta Hf Hin eq_refl default_cache) as (ctx' & Hl & Hh & Hs & Hw & Hwr).
    unfold ctx_LoadIndex in Hl. rewrite Hl. done.
  - destruct Hf as [_ Hf _ Hnone]. rewrite (Hnone eq_refl) in *.
    rewrite (load_fails (open_delta_context fs) fs (context_new (Some path) true) path Hf). split; [|done]. by split.
Qed.

(** ** Adding *)

Lemma fold_max_end l n : Forall (fun d => 0 <= d < u32_max)%Z l ->
  fold_left (fun nextId docId => Z.max nextId (wrapping_add 64 docId 1)) l n =
  Z.max n (match list_max l with Some m => m + 1 | None => n end).
Proof.
  intros Hl. revert n. induction Hl as [|d l Hd Hl IH]; intros n; cbn [fold_left list_max]; [lia|].
  assert (Hw : wrapping_add 64 d 1 = (d + 1)%Z) by (unfold wrapping_add; apply wrap_small; unfold in_u, u32_max in *; lia).
  rewrite IH, Hw. clear IH Hw. destruct l as [|x l]; cbn [list_max fold_left]; [lia|].
  assert (Hm : forall y, fold_left Z.max l (Z.max d y) = Z.max d (fold_left Z.max l y)).
  { clear. induction l as [|z l IH]; intros y; cbn; [done|]. by rewrite <- Z.max_assoc, IH. }
  rewrite Hm. lia.
Qed.

Lemma doc_ids_range s : docs_wf s -> Forall (fun d => 0 <= d < u32_max)%Z (doc_ids s).
Proof.
  intros [Hd _]. apply Forall_forall. intros d. unfold doc_ids. intros ([d' st] & -> & Hst)%list_elem_of_fmap.
  apply elem_of_map_to_list in Hst. by destruct (Hd _ _ Hst).
Qed.

Lemma store_end_eq s : docs_wf s -> (0 <= store_end s < 2 ^ 32)%Z /\
  store_end s = match list_max (doc_ids s) with Some m => (m + 1)%Z | None => 0%Z end.
Proof.
  intros Hd. pose proof (doc_ids_range s Hd) as Hr. unfold store_end, StoreFirstDocId, StoreDocDataRecordCount.
  destruct (doc_ids s) as [|x l]; cbn [list_min list_max default from_option id]; [lia|].
  destruct (fold_left_max l x) as (Hx & _ & [Hm|Hm]); rewrite Forall_forall in Hr.
  - rewrite Hm. specialize (Hr x ltac:(left)). unfold u32_max in Hr. lia.
  - specialize (Hr _ (list_elem_of_further _ _ _ Hm)). unfold u32_max in Hr. lia.
Qed.

Lemma next_document_id_end s ix : is_index s ix -> docs_wf s -> next_document_id ix = store_end s.
Proof.
  intros (r & g & t & Hi) Hd. unfold next_document_id.
  rewrite (first_doc_id s Hd _ _ t (index_doc_count _ _ _ _ _ Hi) (io_length _ _ _ _ _ Hi) (io_records _ _ _ _ _ Hi)), (index_doc_count _ _ _ _ _ Hi).
  unfold wrapping_add. destruct (store_end_eq s Hd) as [Hr _]. unfold store_end in *. apply wrap_small. unfold in_u. lia.
Qed.

Lemma AllocateDocumentID_next path fs ctx c : session_holds path fs ctx c -> AllocateDocumentID ctx = next_id c.
Proof.
  intros [Hf Hc Hs _ Hb Hd Hp]. unfold AllocateDocumentID, next_id. rewrite fold_max_end by (rewrite Hs; apply doc_ids_range, Hp).
  destruct (store_end_eq (cp_pending c) (co_docs _ Hp)) as [Hr Heq]. rewrite <- Hs in Heq at 2.
  assert (Hbase : next_document_id (m_Index ctx) = option_end (cp_base c)).
  { destruct Hc as [_ _ _ Hcb _]. destruct (cp_base c) as [b|]; [apply next_document_id_end; [apply Hcb|apply Hb]|].
    destruct Hcb as [-> _]. reflexivity. }
  assert (Hdelta : match m_DeltaContext ctx with Some delta => Z.max (next_document_id (m_Index ctx)) (next_document_id (m_Index delta)) | None => next_document_id (m_Index ctx) end
    = Z.max (option_end (cp_base c)) (option_end (cp_delta c))).
  { rewrite Hbase. destruct Hc as [_ _ _ _ Hcd]. destruct (m_DeltaContext ctx) as [d|], (cp_delta c) as [s|]; try done; cbn [option_end].
    - by rewrite (next_document_id_end s _ (proj1 Hcd) (proj1 Hd)).
    - destruct Hcd as [-> _]. reflexivity.
    - destruct (cp_base c) as [b|]; cbn [option_end]; [|lia]. destruct (store_end_eq b (proj1 Hb)). lia. }
  rewrite Hdelta. assert (Hz : (0 <= Z.max (option_end (cp_base c)) (option_end (cp_delta c)))%Z).
  { destruct (cp_base c) as [b|]; cbn [option_end]; [destruct (store_end_eq b (proj1 Hb))|]; lia. }
  rewrite Hs in Heq |- *. rewrite Heq. destruct (list_max _); lia.
Qed.
Lemma add_holds `{!TokenizerSpec} path fs ctx c doc model : session_holds path fs ctx c -> admissible path fs ctx c (Add doc model) ->
  session_holds path fs (AddDocument ctx doc model).1 (spec_command c (Add doc model)).1.
Proof.
  intros Hh [Hwf Hid]. pose proof (AllocateDocumentID_next _ _ _ _ Hh) as Hnext. destruct Hh as [Hf [C1 C2 C3 C4 C5] Hs Hw Hb Hd Hp].
  unfold AddDocument, spec_command. cbv zeta. rewrite Hnext, Hs. cbn [fst].
  destruct (write_document_ok model (cp_pending c) (if (Doc.doc_id doc =? u64_max)%Z then next_id c else Doc.doc_id doc) doc Hp Hid Hwf) as [Hok Hid'].
  change (m_LoadedFromDisk (with_write ctx (m_Write ctx) false)) with (m_LoadedFromDisk ctx).
  assert (Hw' : m_Write ctx = empty_index \/ m_DocStats (write_document model (cp_pending c) (if (Doc.doc_id doc =? u64_max)%Z then next_id c else Doc.doc_id doc) doc) <> ∅ /\ cp_delta c = None).
  { destruct (cp_written c); [right|destruct Hw as [_ [Hw|[_ Hw]]]; [by left|right]]; (split; [|apply Hw || done]); intros E; rewrite E in Hid'; by destruct Hid'. }
  destruct (m_LoadedFromDisk ctx) eqn:El; (split; [exact Hf| |done|done|done|done|done]); split; try done; cbn [cp_base cp_delta] in *.
  destruct (cp_base c); [by destruct C4 as (_ & _ & ?)|by destruct C4].
Qed.

(** ** Saving *)

Lemma build_write_ok path fs ctx c : session_holds path fs ctx c -> admissible path fs ctx c SaveCommand ->
  exists ix, build_write ctx = Some (with_write ctx ix true) /\ write_holds (default (cp_pending c) (cp_written c)) ix.
Proof.
  intros [_ _ Hs Hw _ _ Hp] Hadm. unfold build_write. cbn [admissible] in Hadm. destruct (cp_written c) as [s|].
  - destruct Hw as (Hwb & Hwi & _). exists (m_Write ctx). rewrite Hwb. by destruct ctx; cbn in *; subst.
  - destruct Hw as [-> Hw]. rewrite Hs. cbn [default from_option]. destruct (decide (m_DocStats (cp_pending c) = ∅)) as [He|Hne].
    + rewrite bool_decide_eq_true_2 by done. exists (m_Write ctx). split; [done|]. left. split; [done|]. by destruct Hw as [|[? _]].
    + destruct (Hadm eq_refl Hne) as (Hsize & Hfits). destruct (corpus_storable _ Hp Hsize) as (Hst & Hd & Hdoc).
      destruct (BuildIndexData_index (cp_pending c) Hst Hd) as (ix & r & g & t & Hix & Hmem). destruct (Hfits ix Hix) as [Hif Hlen].
      exists ix. rewrite bool_decide_eq_false_2, Hix by done. split; [done|]. right. split; [done|]. exists r, g, t. split; [by apply Hmem|done].
Qed.

(** Building the write fields and changing the path are independent. *)
Lemma build_write_path ctx p ix : build_write ctx = Some (with_write ctx ix true) ->
  build_write (with_index_path ctx p) = Some (with_write (with_index_path ctx p) ix true).
Proof.
  unfold build_write. cbn [m_WriteBuilt m_Store m_Write with_index_path]. destruct (m_WriteBuilt ctx) eqn:Ew; [|destruct (bool_decide _)].
  - intros E. assert (m_Write ctx = ix) as <- by (apply (f_equal (option_map m_Write)) in E; by injection E). destruct ctx. cbn in *. by subst.
  - intros E. assert (m_Write ctx = ix) as <- by (apply (f_equal (option_map m_Write)) in E; by injection E). done.
  - destruct (BuildIndexData _) as [ix'|]; [|done]. intros E. assert (ix' = ix) as <- by (apply (f_equal (option_map m_Write)) in E; by injection E). done.
Qed.

Lemma written_file s ix : docs_wf s -> written_index s ix ->
  exists file, Save (m_IndexFileHeader ix) (m_BlockTable ix) (m_DocData ix) (m_PathPrefixSidecar ix) = Ok file /\ file_of s file.
Proof.
  intros Hd (r & g & t & Hm & Hlen). destruct (memory_index_saved s Hd ix r g t Hm) as (file & Hs & _). exists file. split; [done|].
  eapply file_of_saved; eauto.
Qed.

Lemma files_hold_base path fs base s file : files_hold path fs base None -> file_of s file -> files_hold path (<[path := file]> fs) (Some s) None.
Proof.
  intros [Hn _ Hd _] Hf. split; [done|exists file; by rewrite lookup_insert_eq| |done]. unfold IsValidIndex in *.
  rewrite lookup_insert_ne; [done|]. intros E. by apply (DeltaIndexPath_ne path).
Qed.

Lemma files_hold_delta path fs base delta s file : files_hold path fs (Some base) delta -> file_of s file ->
  files_hold path (<[DeltaIndexPath path := file]> fs) (Some base) (Some s).
Proof.
  intros [Hn Hb _ _] Hf. split; [done| |exists file; by rewrite lookup_insert_eq|done]. rewrite lookup_insert_ne; [done|]. apply DeltaIndexPath_ne.
Qed.

(** A file without documents. *)
Lemma files_hold_no_delta path fs base delta : files_hold path fs (Some base) delta ->
  files_hold path (<[DeltaIndexPath path := empty_file]> fs) (Some base) None.
Proof.
  intros [Hn (content & Hc & Ho) _ _]. split; [done| |apply IsValidIndex_empty, lookup_insert_eq|done].
  exists content. split; [|done]. rewrite lookup_insert_ne; [done|]. apply DeltaIndexPath_ne.
Qed.

Lemma files_hold_nothing path fs : files_hold path fs None None -> files_hold path (<[path := empty_file]> fs) None None.
Proof.
  intros [Hn _ Hd _]. split; [done|apply IsValidIndex_empty, lookup_insert_eq| |done]. unfold IsValidIndex in *.
  rewrite lookup_insert_ne; [done|]. intros E. by apply (DeltaIndexPath_ne path).
Qed.

(** What saving a delta does. *)
Lemma save_delta_run fs ctx ix path file : m_IndexPath ctx = Some path -> build_write ctx = Some (with_write ctx ix true) ->
  Save (m_IndexFileHeader ix) (m_BlockTable ix) (m_DocData ix) (m_PathPrefixSidecar ix) = Ok file ->
  SaveIndex fs ctx (DeltaIndexPath path) =
  Some (<[DeltaIndexPath path := file]> fs, with_delta (with_write ctx empty_index false) (Some (saved_delta (DeltaIndexPath path) ix)), Ok tt).
Proof.
  intros Hp Hbw Hsave. unfold SaveIndex. rewrite Hp, bool_decide_eq_true_2 by done. cbn [negb andb]. rewrite Hbw. cbn [option_bind].
  cbn [m_Write with_write]. by rewrite Hsave.
Qed.

(** What saving a first index does, up to loading it. *)
Lemma save_base_run fs ctx ix path file : m_LoadedFromDisk ctx = false -> m_IndexPath ctx = Some path -> build_write ctx = Some (with_write ctx ix true) ->
  Save (m_IndexFileHeader ix) (m_BlockTable ix) (m_DocData ix) (m_PathPrefixSidecar ix) = Ok file ->
  SaveIndex fs ctx path = Some (<[path := file]> fs, with_write (with_index_path ctx (Some path)) ix true, Ok tt).
Proof.
  intros Hl Hp Hbw Hsave. unfold SaveIndex. rewrite Hp, bool_decide_eq_false_2 by (intros E; by apply (DeltaIndexPath_ne path)). rewrite Hl. cbn [negb andb].
  rewrite (build_write_path _ _ _ Hbw). cbn [option_bind]. cbn [m_Write with_write]. by rewrite Hsave.
Qed.

Lemma save_holds path fs ctx c : session_holds path fs ctx c -> admissible path fs ctx c SaveCommand ->
  exists fs' ctx' r, run_command path fs ctx SaveCommand = Some (fs', ctx', r) /\
    (spec_command c SaveCommand).2 = r /\ session_holds path fs' ctx' (spec_command c SaveCommand).1.
Proof.
  intros Hh Hadm. destruct (build_write_ok _ _ _ _ Hh Hadm) as (ix & Hbw & Hwh).
  destruct Hh as [Hf [C1 C2 C3 C4 C5] Hs Hw Hb Hd Hp]. cbn [spec_command run_command]. rewrite (fh_named _ _ _ _ Hf). set (saved := default _ _) in *.
  destruct (cp_base c) as [b|] eqn:Eb; cbn [fst snd].
  - pose proof (fh_base _ _ _ _ Hf) as (content & Hc & Ho). rewrite (file_of_valid _ _ _ _ Hc Ho).
    destruct Hwh as [[He ->]|[Hsi Hwi]].
    + rewrite (save_delta_run fs ctx empty_index path _ C1 Hbw empty_index_saved), bool_decide_eq_true_2 by done.
      do 3 eexists. split; [reflexivity|]. split; [done|]. split; try done; [by eapply files_hold_no_delta|split; [done|by left]].
    + destruct (written_file _ _ (proj1 Hsi) Hwi) as (file & Hsave & Hfile). rewrite bool_decide_eq_false_2 by apply Hsi.
      rewrite (save_delta_run fs ctx ix path _ C1 Hbw Hsave). do 3 eexists. split; [reflexivity|]. split; [done|].
      destruct Hwi as (r & g & t & Hmem & _).
      split; [by eapply files_hold_delta| |done|by split; [|left]|done|done|done]. split; try done.
      split; [|done]. exists r, g, t. apply Hmem.
  - destruct C4 as [C4 C4l]. rewrite (fh_base _ _ _ _ Hf). pose proof (fh_alone _ _ _ _ Hf eq_refl) as Ed. rewrite Ed in *.
    destruct Hwh as [[He ->]|[Hsi Hwi]].
    + rewrite (save_base_run fs ctx empty_index path _ C4l C1 Hbw empty_index_saved), bool_decide_eq_true_2 by done. cbn [option_bind].
      assert (Hload : ctx_LoadIndex (<[path := empty_file]> fs) (with_write (with_index_path ctx (Some path)) empty_index true) path =
        (with_index_path (with_delta (with_write (with_index_path ctx (Some path)) empty_index true) None) (Some path), Err InvalidFormat)).
      { unfold ctx_LoadIndex, load_index. cbv zeta. by rewrite lookup_insert_eq, empty_file_load. }
      rewrite Hload. do 3 eexists. split; [reflexivity|]. split; [done|]. split; try done; [cbn [fst cp_base cp_delta]; by apply files_hold_nothing|].
      split; [done|]. split; [by left|done].
    + destruct (written_file _ _ (proj1 Hsi) Hwi) as (file & Hsave & Hfile). rewrite bool_decide_eq_false_2 by apply Hsi.
      rewrite (save_base_run fs ctx ix path _ C4l C1 Hbw Hsave). cbn [option_bind].
      destruct (load_holds path (<[path := file]> fs) (with_write (with_index_path ctx (Some path)) ix true) saved None (files_hold_base _ _ _ _ _ Hf Hfile) I C2 C3)
        as (ctx' & Hl & Hch & Hst & Hwb' & Hwr'). rewrite Hl. do 3 eexists. split; [reflexivity|]. split; [done|].
      split; cbn [cp_base cp_delta cp_pending cp_written fst]; try done; [by eapply files_hold_base| |apply corpus_new].
      rewrite Hwb', Hwr'. split; [done|]. split; [by right|done].
Qed.

(** ** Merging *)

Lemma merged_documented a b : documented a -> documented b -> documented (merged_store a b).
Proof.
  intros [Ha Hka] [Hb Hkb]. split; [cbn; by rewrite lookup_union_with, Ha, Hb|].
  assert (Hl : forall d, is_Some (m_DocStats a !! d) \/ is_Some (m_DocStats b !! d) -> is_Some (m_DocStats (merged_store a b) !! d)).
  { intros d Hd. cbn. rewrite <- elem_of_dom, dom_union. apply elem_of_union. by rewrite !elem_of_dom. }
  intros key pl Hk. cbn in Hk. rewrite lookup_union_with in Hk.
  destruct (m_Postings a !! key) as [pa|] eqn:Ea, (m_Postings b !! key) as [pb|] eqn:Eb; inversion Hk; subst pl; clear Hk; cbn; try apply Forall_app_2.
  all: first [specialize (Hka _ _ Ea) | specialize (Hkb _ _ Eb)]; try specialize (Hkb _ _ Eb); cbn in *.
  all: eapply Forall_impl; [eassumption|]; cbn; intros e He; apply Hl; auto.
Qed.

Lemma merge_gap base delta ixb ixd : is_index base ixb -> is_index delta ixd -> indexable base -> indexable delta ->
  StoreFirstDocId delta <> StoreDocDataRecordCount base -> Merge true ixb (Some (true, ixd)) = Some (Err InvalidFormat).
Proof.
  intros (rb & gb & tb & Ib) (rd & gd & td & Id) (Hdb & Hnb & _) (Hdd & Hnd & _) Hgap. unfold Merge.
  rewrite (index_docs_present _ _ _ _ _ Ib Hnb), (index_docs_present _ _ _ _ _ Id Hnd). cbn [negb orb].
  rewrite (first_doc_id delta Hdd _ _ td (index_doc_count _ _ _ _ _ Id) (io_length _ _ _ _ _ Id) (io_records _ _ _ _ _ Id)).
  rewrite (index_doc_count _ _ _ _ _ Id), (index_doc_count _ _ _ _ _ Ib).
  rewrite (proj2 (Z.ltb_lt _ _) (store_count_pos _ Hnd)), (proj2 (Z.eqb_neq _ _) Hgap). done.
Qed.

Lemma merge_refused path fs ctx c base delta : session_holds path fs ctx c -> cp_base c = Some base -> cp_delta c = Some delta ->
  StoreFirstDocId delta <> StoreDocDataRecordCount base -> run_command path fs ctx MergeCommand = Some (fs, ctx, Err InvalidFormat).
Proof.
  intros [Hf [C1 C2 C3 C4 C5] Hs Hw Hb Hd Hp] Eb Ed Hgap. rewrite Eb, Ed in *. destruct C4 as (Hib & Hbb & _).
  destruct (m_DeltaContext ctx) as [dctx|] eqn:Edc; [|done]. destruct C5 as (Hid & Hdb & _). cbn [run_command].
  unfold HasDelta, DocumentCount, ctx_Merge. rewrite Edc, (is_index_documents _ _ Hid) by apply Hd. cbn [option_map].
  by rewrite Hbb, Hdb, (merge_gap _ _ _ _ Hib Hid Hb Hd Hgap).
Qed.

Lemma merge_holds path fs ctx c : session_holds path fs ctx c -> admissible path fs ctx c MergeCommand ->
  exists fs' ctx' r, run_command path fs ctx MergeCommand = Some (fs', ctx', r) /\
    (spec_command c MergeCommand).2 = r /\ session_holds path fs' ctx' (spec_command c MergeCommand).1.
Proof.
  intros Hh Hadm. pose proof Hh as [Hf [C1 C2 C3 C4 C5] Hs Hw Hb Hd Hp]. cbn [spec_command run_command admissible] in *.
  destruct (cp_delta c) as [d|] eqn:Ed.
  2:{ assert (HasDelta ctx = false) as ->.
      { unfold HasDelta, DocumentCount. destruct (m_DeltaContext ctx) as [d|]; [|done]. by destruct C5 as [-> _]. }
      destruct (cp_base c); cbn [fst snd]; exists fs, ctx, (Ok tt); done. }
  destruct (cp_base c) as [b|] eqn:Eb; [|by specialize (fh_alone _ _ _ _ Hf eq_refl)].
  destruct C4 as (Hib & Hbb & Hbl). unfold ctx_Merge in *. destruct (m_DeltaContext ctx) as [dctx|] eqn:Edc; [|done]. destruct C5 as (Hid & Hdb & _).
  assert (HasDelta ctx = true) as ->.
  { unfold HasDelta, DocumentCount. rewrite Edc. apply (is_index_documents _ _ Hid), Hd. }
  cbn [option_map] in *. rewrite Hbb, Hdb in *.
  destruct (StoreFirstDocId d =? StoreDocDataRecordCount b)%Z eqn:Egap; bool_to_prop; cbn [fst snd].
  2:{ rewrite (merge_gap b d _ _ Hib Hid Hb Hd Egap). cbn [option_bind]. exists fs, ctx, (Err InvalidFormat). done. }
  destruct (Hadm Egap) as (Hfirst & Hm & Kb & Kd & Hsmall). destruct Hb as (Hb1 & Hb2 & _ & Hb3), Hd as (Hd1 & Hd2 & _ & Hd3).
  destruct Hib as (rb & gb & tb & Ib), Hid as (rd & gd & td & Id).
  destruct (Merge_index b d Hb1 Hd1 Hb2 Hd2 Hfirst Egap Hm _ _ _ _ _ _ _ _ Ib Id Kb Kd) as (file & Hmerge & Hfile).
  rewrite Hmerge in *. cbn [option_bind] in *. specialize (Hsmall _ _ file eq_refl (lookup_insert_eq _ _ _)).
  destruct (Hfile Hsmall) as (ix & r & g & t & Hmem & Hsave).
  assert (Hmd : docs_wf (merged_store b d)) by by apply merged_docs_wf.
  assert (Hfo : file_of (merged_store b d) file) by (eapply file_of_saved; [done|done|done|lia]).
  assert (Hfiles : files_hold path (delete (delta_index_path path) (<[path := file]> fs)) (Some (merged_store b d)) None).
  { pose proof (fh_named _ _ _ _ Hf) as Hn. rewrite Hn. split; [done|exists file; rewrite lookup_delete_ne, lookup_insert_eq by apply DeltaIndexPath_ne; done| |done].
    unfold IsValidIndex. by rewrite lookup_delete_eq. }
  assert (Hin : indexable (merged_store b d)).
  { split; [done|]. split; [intros E; by apply map_positive_l in E|]. split; [apply Hm|by apply merged_documented]. }
  destruct (load_holds path _ (ResetLoadedRuntimeState ctx) _ None Hfiles I C2 C3) as (ctx' & Hl & Hch & Hst & Hwb & Hwr).
  rewrite Hl. do 3 eexists. split; [reflexivity|]. split; [done|].
  split; cbn [cp_base cp_delta cp_pending cp_written]; try done; [|apply corpus_new]. rewrite Hwb, Hwr.
  cbn [ResetLoadedRuntimeState with_loaded with_delta m_WriteBuilt m_Write]. destruct (cp_written c) as [s|]; [by destruct Hw as (_ & _ & ?)|].
  destruct Hw as [Hwn Hwe]. split; [done|]. left. by destruct Hwe as [|[_ ?]].
Qed.
(** ** Any command *)

Lemma step_holds `{!TokenizerSpec} path fs ctx c command : session_holds path fs ctx c -> admissible path fs ctx c command ->
  exists fs' ctx' r, run_command path fs ctx command = Some (fs', ctx', r) /\
    (spec_command c command).2 = r /\ session_holds path fs' ctx' (spec_command c command).1.
Proof.
  intros Hh Hadm. destruct command as [|doc model| |].
  - destruct (start_holds path fs _ _ (sh_files _ _ _ _ Hh) (sh_delta _ _ _ _ Hh)) as (Hc & Hs & Hw & Hwr).
    do 3 eexists. split; [reflexivity|]. split; [done|]. split; try apply Hh; try done; [split; [done|by left]|apply corpus_new].
  - do 3 eexists. split; [reflexivity|]. split; [done|]. by apply add_holds.
  - by apply save_holds.
  - by apply merge_holds.
Qed.

(** ** What a session finds *)

Lemma index_entry s ix delta d : is_index s ix -> docs_wf s -> (0 <= d < u32_max)%Z ->
  match m_DocStats s !! d with
  | Some st => exists entry, GetDocDataEntry (m_DocData ix) (m_IndexFileHeader ix) delta d = Some entry /\ entry_matches s d st entry
  | None => GetDocDataEntry (m_DocData ix) (m_IndexFileHeader ix) delta d = match delta with Some lookup => lookup d | None => None end
  end.
Proof.
  intros (r & g & t & Hi) Hd Hr.
  pose proof (lookups_ok s Hd _ _ t (index_doc_count _ _ _ _ _ Hi) (io_length _ _ _ _ _ Hi) (io_records _ _ _ _ _ Hi) (io_blank _ _ _ _ _ Hi) delta None d) as Hl.
  cbv zeta in Hl. rewrite reader_id in Hl by done. specialize (Hl ltac:(lia)). destruct (m_DocStats s !! d); apply Hl.
Qed.

(** The store that shows a document: the base, or else the delta. *)
Definition find_document (c : Corpora) (d : Z) : option (PostingStore * DocStats) :=
  let from s := match s with Some s => option_map (fun st => (s, st)) (m_DocStats s !! d) | None => None end in
  match from (cp_base c) with Some found => Some found | None => from (cp_delta c) end.

Definition finds (ctx : IndexContext) (c : Corpora) (d : Z) : Prop :=
  match find_document c d with
  | Some (s, st) => exists entry, ctx_GetDocDataEntry ctx d = Some entry /\ entry_matches s d st entry
  | None => ctx_GetDocDataEntry ctx d = None
  end.

(** A lookup in an index without documents goes on to the next. *)
Lemma empty_entry ix delta d : m_DocData ix = [] -> (0 <= d < u32_max)%Z ->
  GetDocDataEntry (m_DocData ix) (m_IndexFileHeader ix) delta d = match delta with Some lookup => lookup d | None => None end.
Proof.
  intros Hix Hr. unfold GetDocDataEntry. rewrite reader_id, Hix by done. unfold doc_record. cbv zeta. cbn [length].
  rewrite (proj2 (Nat.leb_gt _ 0)) by (unfold DOC_REC_SIZE; lia). cbn [andb]. by destruct (_ <=? _)%Z.
Qed.

Lemma session_finds path fs ctx c d : session_holds path fs ctx c -> (0 <= d < u32_max)%Z -> finds ctx c d.
Proof.
  intros [Hf [C1 C2 C3 C4 C5] _ _ Hb Hd _] Hr. unfold finds, find_document.
  assert (Heq : forall ctx, ctx_GetDocDataEntry ctx d = GetDocDataEntry (m_DocData (m_Index ctx)) (m_IndexFileHeader (m_Index ctx))
    (match m_DeltaContext ctx with Some dctx => Some (ctx_GetDocDataEntry dctx) | None => None end) d) by (intros ctx'; by destruct ctx').
  assert (Hdelta : forall s dctx, cp_delta c = Some s -> m_DeltaContext ctx = Some dctx ->
    match m_DocStats s !! d with
    | Some st => exists entry, ctx_GetDocDataEntry dctx d = Some entry /\ entry_matches s d st entry
    | None => ctx_GetDocDataEntry dctx d = None end).
  { intros s dctx Es Ed. rewrite Es, Ed in *. rewrite (Heq dctx), (proj2 (proj2 C5)).
    exact (index_entry s (m_Index dctx) None d (proj1 C5) (proj1 Hd) Hr). }
  rewrite (Heq ctx). destruct (cp_base c) as [b|] eqn:Eb.
  - pose proof (index_entry b (m_Index ctx) (match m_DeltaContext ctx with Some dctx => Some (ctx_GetDocDataEntry dctx) | None => None end) d (proj1 C4) (proj1 Hb) Hr) as Hl.
    destruct (m_DocStats b !! d) as [st|]; [done|]. rewrite Hl. cbn [option_map].
    destruct (cp_delta c) as [s|], (m_DeltaContext ctx) as [dctx|]; try done.
    + specialize (Hdelta s dctx eq_refl eq_refl). by destruct (m_DocStats s !! d) as [st|].
    + destruct C5 as [Hix Hno]. rewrite (Heq dctx), Hno. apply empty_entry; [by rewrite Hix|done].
  - rewrite (fh_alone _ _ _ _ Hf eq_refl) in *. destruct C4 as [-> _]. rewrite empty_entry by done.
    destruct (m_DeltaContext ctx) as [dctx|]; [|done]. destruct C5 as [Hix Hno]. rewrite (Heq dctx), Hno. apply empty_entry; [by rewrite Hix|done].
Qed.

(** A session starts on whatever is in the files. *)
Lemma start_session path fs base delta : files_hold path fs base delta -> option_indexable base -> option_indexable delta ->
  session_holds path fs (with_path fs (Some path)) {| cp_base := base; cp_delta := delta; cp_pending := store_new; cp_written := None |}.
Proof.
  intros Hf Hb Hd. destruct (start_holds path fs base delta Hf Hd) as (Hc & Hs & Hw & Hwr). split; try done; [split; [done|by left]|apply corpus_new].
Qed.
End steps.

(** * Properties *)

Section properties.
Context `{Libm, DocOrder, HashOrder, Tokenizer, OsFiles}.
Implicit Types ctx : IndexContext.
Implicit Types fs : Files.
Context (path : str).

(** C2: every command of a session, within the limits of the format, does to the context and the files what
    the specification does to the stores behind them, with the same result: starting on a file loads it and
    its delta, adding a document writes it to the pending store under its id or the next one, saving publishes
    the pending store as the first index or as the delta, or writes a file that is no index when there
    is nothing to save (an error for a first index, the loss of the delta otherwise), merging replaces the base by
    both stores together or refuses a delta that does not follow it; and afterwards every document has the
    record of its store. The limits, [admissible]: document ids and counts and file sizes that fit their
    fields, and for a merge a base that starts at document 0, frequency bytes below 128, postings of a term in
    at most the scratch buffer, and directories that the prefix tables hold. The program and the
    library must mean the same delta by the name of the index ([plain_name_delta]). *)
Theorem session_refines `{!TokenizerSpec} fs ctx c command :
  session_holds path fs ctx c -> admissible path fs ctx c command ->
  exists fs' ctx' c' r, run_command path fs ctx command = Some (fs', ctx', r) /\ spec_command c command = (c', r) /\
    session_holds path fs' ctx' c' /\ forall d, (0 <= d < u32_max)%Z -> finds ctx' c' d.
Proof.
  intros Hh Hadm. destruct (step_holds path fs ctx c command Hh Hadm) as (fs' & ctx' & r & Hrun & Hspec & Hh').
  exists fs', ctx', (spec_command c command).1, r. split; [done|]. split; [by rewrite <- Hspec; destruct (spec_command c command)|].
  split; [done|]. intros d Hd. by eapply session_finds.
Qed.

Lemma from_context_no_delta ctx : HasDelta ctx = false -> rt_delta (from_context ctx) = None.
Proof. intros Hh. destruct ctx. cbn in Hh |- *. by rewrite Hh. Qed.

Definition averages_positive (ix : LoadedIndex) : bool := forallb (fun a => f_gt a (f_of_Z F32 0)) (index_averages ix).

Lemma session_searches fs ctx c base : session_holds path fs ctx c -> cp_base c = Some base -> averages_positive (m_Index ctx) = true ->
  (forall dctx, m_DeltaContext ctx = Some dctx -> HasDelta ctx = true -> averages_positive (m_Index dctx) = true) ->
  searches (from_context ctx) base /\
  match rt_delta (from_context ctx), cp_delta c with Some d, Some store => searches d store | None, None => True | _, _ => False end.
Proof.
  intros [Hf [C1 C2 C3 C4 C5] _ _ Hb Hd _] Eb Ha Hda. rewrite Eb in *. destruct Hb as (B1 & B2 & B3 & B4).
  split; [by apply from_context_searches; split; [apply C4|..]|].
  destruct (m_DeltaContext ctx) as [dctx|] eqn:Edc, (cp_delta c) as [s|]; try done.
  - destruct Hd as (D1 & D2 & D3 & D4).
    assert (Hh : HasDelta ctx = true) by (unfold HasDelta; rewrite Edc; unfold DocumentCount; apply (is_index_documents _ _ (proj1 C5) D2)).
    pose proof (from_context_delta ctx (Some s)) as Hs. rewrite Edc in Hs. apply Hs. split; try done; [apply C5|by apply Hda].
  - rewrite from_context_no_delta; [done|]. unfold HasDelta, DocumentCount. rewrite Edc. by destruct C5 as [-> _].
  - rewrite from_context_no_delta; [done|]. unfold HasDelta. by rewrite Edc.
Qed.

(** C3: in every state of a session that has an index, a search task whose query is not empty gets its reader
    and visits every document that the compiled query has in the base and in the delta; when no document
    scores NaN, it terminates and returns the best of them, from the best to the worst, none better left out. The
    average lengths of the streams of both indexes must be positive, and the vector searches give documents of
    their stores, each once. The vector index of the base is built when the tasks run; while that of the delta is not, as it is after loading and after saving, no
    document of the delta alone answers a vector query without text. *)
Theorem session_search_top_k {Hp : Type} `{MinHeapSpec Hp} (VectorSearch DeltaVectorSearch : VectorSearcher) parameters fs ctx c base task :
  session_holds path fs ctx c -> cp_base c = Some base -> averages_positive (m_Index ctx) = true ->
  (forall dctx, m_DeltaContext ctx = Some dctx -> HasDelta ctx = true -> averages_positive (m_Index dctx) = true) ->
  finds_documents VectorSearch base -> finds_documents DeltaVectorSearch (default base (cp_delta c)) ->
  IsEmpty (task_tree task) = false ->
  let rt := from_context ctx in
  let search := index_search (delta_vector_built ctx) DeltaVectorSearch in
  let docs := rt_tree_docs VectorSearch search rt base (default base (cp_delta c)) (task_tree task) in
  exists r all,
    converges (fun k => rt_get_reader VectorSearch search rt k (task_tree task)) r /\
    visits (rt_GetDocDataEntry rt) parameters
      (if HasTextQuery (task_tree task) && HasVectorQuery (task_tree task) then Some (vector_query (task_tree task)) else None) r docs all /\
    (no_nan all -> exists res,
       converges (fun k => rt_ExecuteSearchTask (Hp := Hp) VectorSearch search parameters rt k task) res /\
       top_results (TopKLimit (task_top_k task)) all res) /\
    (vector_only (task_tree task) = true -> delta_vector_built ctx = false -> forall d, d ∈ docs -> is_Some (m_DocStats base !! d)).
Proof.
  intros Hh Eb Ha Hda Hf Hdf Hne rt search docs. destruct (session_searches _ _ _ _ Hh Eb Ha Hda) as [Hs Hd].
  pose proof (index_search_finds (delta_vector_built ctx) _ _ Hdf) as Hif.
  destruct (rt_ExecuteSearchTask_ok (Hp := Hp) VectorSearch search parameters rt base (cp_delta c) Hs Hd Hf Hif task Hne) as (r & all & Hr & Hv & Hres).
  exists r, all. split; [exact Hr|]. split; [exact Hv|]. split; [exact Hres|].
  intros Hvo Hb d. unfold docs, search. rewrite Hb. by apply unbuilt_delta_hidden.
Qed.

(** the id for a new document is the first above every id of the index, of its delta and of the
    documents not yet saved. *)
Theorem AllocateDocumentID_fresh fs ctx c :
  session_holds path fs ctx c ->
  let used d := is_Some (find_document c d) \/ is_Some (m_DocStats (cp_pending c) !! d) in
  (forall d, used d -> (d < AllocateDocumentID ctx)%Z) /\ (AllocateDocumentID ctx = 0%Z \/ used (AllocateDocumentID ctx - 1)%Z).
Proof.
  intros Hh used. rewrite (AllocateDocumentID_next _ _ _ _ Hh). destruct Hh as [_ _ _ _ Hb Hd Hp].
  assert (Hend : forall s d, is_Some (m_DocStats s !! d) -> (d < store_end s)%Z).
  { intros s d Hs. destruct (store_slots s) as (Hr & _). specialize (Hr d Hs). unfold store_end. cbv zeta in *. lia. }
  assert (Hlast : forall s, docs_wf s -> store_end s <> 0%Z -> is_Some (m_DocStats s !! (store_end s - 1)%Z)).
  { intros s Hs Hne. destruct (decide (m_DocStats s = ∅)) as [E|E].
    - exfalso. apply Hne. unfold store_end, StoreFirstDocId, StoreDocDataRecordCount, doc_ids. by rewrite E, map_to_list_empty.
    - destruct (store_last s E) as (d & st & Hst & Hle). specialize (Hend s d (ex_intro _ st Hst)). unfold store_end in *.
      replace (_ - 1)%Z with d by lia. by exists st. }
  assert (Hfound : forall d, is_Some (find_document c d) <-> exists s, (cp_base c = Some s \/ cp_delta c = Some s) /\ is_Some (m_DocStats s !! d)).
  { intros d. unfold find_document. split.
    - destruct (cp_base c) as [b|]; [destruct (m_DocStats b !! d) eqn:E; cbn; [intros _; exists b; eauto|]|];
        (destruct (cp_delta c) as [s|]; [destruct (m_DocStats s !! d) eqn:E'; cbn; [intros _; exists s; eauto|]|]); by intros [? ?].
    - intros (s & [Es|Es] & [st Hst]); rewrite Es, Hst; cbn [option_map]; [by eexists|].
      destruct (cp_base c) as [b|]; [destruct (m_DocStats b !! d)|]; cbn [option_map]; by eexists. }
  unfold next_id, used. split.
  - intros d [(s & Hs & Hd')%Hfound|Hd'%Hend]; [|lia]. apply Hend in Hd'. destruct Hs as [-> | ->]; cbn [option_end]; lia.
  - assert (Hopt : forall o, option_indexable o -> option_end o <> 0%Z -> exists s, o = Some s /\ is_Some (m_DocStats s !! (option_end o - 1)%Z)).
    { intros [s|] Ho Hne; cbn in *; [exists s; split; [done|by apply Hlast; [apply Ho|]]|lia]. }
    destruct (Z.max_spec (Z.max (option_end (cp_base c)) (option_end (cp_delta c))) (store_end (cp_pending c))) as [[_ ->]|[_ ->]].
    { destruct (decide (store_end (cp_pending c) = 0%Z)); [by left|]. right. right. apply Hlast; [apply Hp|done]. }
    destruct (Z.max_spec (option_end (cp_base c)) (option_end (cp_delta c))) as [[_ ->]|[_ ->]].
    + destruct (decide (option_end (cp_delta c) = 0%Z)); [by left|]. right. left. destruct (Hopt _ Hd ltac:(done)) as (s & Es & Hs). apply Hfound. eauto.
    + destruct (decide (option_end (cp_base c) = 0%Z)); [by left|]. right. left. destruct (Hopt _ Hb ltac:(done)) as (s & Es & Hs). apply Hfound. eauto.
Qed.

(** C33: saving after a restart loses the documents of the delta: the delta file is replaced by one with
    only the documents added since, the earlier ones have no record any more, and because the ids of the new
    ones leave a gap behind the base, the delta can no longer be merged. *)
Theorem save_drops_earlier_delta fs ctx c base delta :
  session_holds path fs ctx c -> cp_base c = Some base -> cp_delta c = Some delta -> cp_written c = None ->
  admissible path fs ctx c SaveCommand ->
  StoreFirstDocId delta = StoreDocDataRecordCount base -> (store_end delta <= StoreFirstDocId (cp_pending c))%Z ->
  exists fs' ctx', run_command path fs ctx SaveCommand = Some (fs', ctx', Ok tt) /\
    (forall d, is_Some (m_DocStats delta !! d) -> m_DocStats base !! d = None -> ctx_GetDocDataEntry ctx' d = None) /\
    run_command path fs' ctx' MergeCommand = Some (fs', ctx', Err InvalidFormat).
Proof.
  intros Hh Eb Ed Ew Hadm Hnext Hids. pose proof (sh_delta _ _ _ _ Hh) as Hdelta. rewrite Ed in Hdelta. destruct Hdelta as (D1 & D2 & _).
  assert (Hne : m_DocStats (cp_pending c) <> ∅).
  { intros E. pose proof (store_count_pos _ D2). destruct (store_end_eq delta D1) as [_ _]. unfold store_end in Hids.
    assert (StoreFirstDocId (cp_pending c) = 0%Z) as E0 by (unfold StoreFirstDocId, doc_ids; by rewrite E, map_to_list_empty).
    destruct (store_slots delta) as (Hslots & _). destruct (store_last delta D2) as (d & st & Hst & _). specialize (Hslots d (ex_intro _ st Hst)). cbv zeta in *.
    destruct (proj1 D1 _ _ Hst) as [Hr _]. unfold store_end in *. lia. }
  destruct (save_holds _ _ _ _ Hh Hadm) as (fs' & ctx' & r & Hrun & Hspec & Hh'). cbn [spec_command] in Hspec, Hh'. rewrite Eb, Ew in *.
  cbn [default from_option] in Hspec, Hh'. rewrite bool_decide_eq_false_2 in Hspec, Hh' by done. cbn in Hspec, Hh'. subst r.
  exists fs', ctx'. split; [done|]. split.
  - intros d [st Hst] Hb. pose proof (proj1 D1 _ _ Hst) as [Hr _]. pose proof (session_finds _ _ _ _ d Hh' Hr) as Hf. unfold finds, find_document in Hf.
    cbn [cp_base cp_delta] in Hf. rewrite Hb in Hf. cbn [option_map] in Hf. destruct (m_DocStats (cp_pending c) !! d) as [st'|] eqn:E; [exfalso|done].
    destruct (store_slots (cp_pending c)) as (Hp & _). specialize (Hp d (ex_intro _ _ E)). destruct (store_slots delta) as (Hs & _). specialize (Hs d (ex_intro _ _ Hst)).
    cbv zeta in *. unfold store_end in Hids. lia.
  - eapply merge_refused; [exact Hh'|done|done|]. pose proof (store_count_pos _ D2). unfold store_end in Hids. lia.
Qed.

(** saving twice in a row publishes a first index as its own delta, since loading it leaves the write
    fields of the first save in place; the delta cannot be merged. *)
Theorem second_save_republishes_base fs ctx c :
  session_holds path fs ctx c -> cp_base c = None -> admissible path fs ctx c SaveCommand ->
  let saved := default (cp_pending c) (cp_written c) in
  m_DocStats saved <> ∅ -> StoreFirstDocId saved = 0%Z ->
  exists fs1 ctx1 fs2 ctx2, run_command path fs ctx SaveCommand = Some (fs1, ctx1, Ok tt) /\
    run_command path fs1 ctx1 SaveCommand = Some (fs2, ctx2, Ok tt) /\
    session_holds path fs2 ctx2 {| cp_base := Some saved; cp_delta := Some saved; cp_pending := store_new; cp_written := None |} /\
    run_command path fs2 ctx2 MergeCommand = Some (fs2, ctx2, Err InvalidFormat).
Proof.
  intros Hh Eb Hadm saved Hne Hfirst. destruct (save_holds _ _ _ _ Hh Hadm) as (fs1 & ctx1 & r1 & Hrun1 & Hspec1 & Hh1).
  cbn [spec_command] in Hspec1, Hh1. rewrite Eb in Hspec1, Hh1. fold saved in Hspec1, Hh1. rewrite bool_decide_eq_false_2 in Hspec1, Hh1 by done.
  cbn [fst snd] in *. subst r1.
  destruct (save_holds _ _ _ _ Hh1 ltac:(done)) as (fs2 & ctx2 & r2 & Hrun2 & Hspec2 & Hh2). cbn [spec_command cp_base cp_written default from_option] in Hspec2, Hh2.
  rewrite bool_decide_eq_false_2 in Hspec2, Hh2 by done. cbn in Hspec2, Hh2. subst r2.
  exists fs1, ctx1, fs2, ctx2. split; [done|]. split; [done|]. split; [done|]. eapply merge_refused; [exact Hh2|done|done|].
  pose proof (store_count_pos _ Hne). lia.
Qed.
End properties.

(** * Witnesses *)

Definition sample_files : OsFiles :=
  {| os_open := whole_file; os_open_holds content := proj1 (whole_file_ok content); os_open_reads content := proj2 (whole_file_ok content) |}.

Definition sample_path : str := of_string "a.idx".

Definition text_document (path title : str) : Doc.Document :=
  {| Doc.doc_id := u64_max; Doc.path := path; Doc.url := []; Doc.title := title; Doc.body := []; Doc.anchor := []; Doc.meta := [];
     Doc.importance := f_of_Z F32 1 |}.

Definition no_corpora : Corpora := {| cp_base := None; cp_delta := None; cp_pending := store_new; cp_written := None |}.

Section samples.
Local Existing Instances sample_libm sample_doc_order canonical_order space_tokenizer space_tokenizer_spec sample_files.

Definition spec_run (commands : list Command) : Corpora := fold_left (fun c command => (spec_command c command).1) commands no_corpora.

Definition save_fits (s : PostingStore) : bool :=
  negb (bool_decide (m_DocStats s = ∅)) && (Z.of_nat (size (m_DocStats s)) <=? 2 ^ 24)%Z &&
  match BuildIndexData s with
  | Some ix => (IFH_IndexBlockCount (m_IndexFileHeader ix) <=? u32_max)%Z && (IFH_LeafTermBlockCount (m_IndexFileHeader ix) <=? u32_max)%Z &&
      match Save (m_IndexFileHeader ix) (m_BlockTable ix) (m_DocData ix) (m_PathPrefixSidecar ix) with
      | Ok file => (Z.of_nat (length file) <? 2 ^ 63)%Z
      | Err _ => true
      end
  | None => true
  end.

Lemma save_fits_ok s : save_fits s = true -> m_DocStats s <> ∅ /\ (Z.of_nat (size (m_DocStats s)) <= 2 ^ 24)%Z /\
  forall ix, BuildIndexData s = Some ix -> index_fits ix /\ forall file,
    Save (m_IndexFileHeader ix) (m_BlockTable ix) (m_DocData ix) (m_PathPrefixSidecar ix) = Ok file -> (Z.of_nat (length file) < 2 ^ 63)%Z.
Proof.
  unfold save_fits. rewrite !andb_true_iff. intros [[Hne Hsize] Hix]. bool_to_prop.
  split; [done|]. split; [done|]. intros ix E. rewrite E in Hix. rewrite !andb_true_iff in Hix. destruct Hix as [[H1 H2] Hfile].
  split; [split; lia|]. intros file Hfile'. rewrite Hfile' in Hfile. lia.
Qed.

Lemma save_admissible path fs ctx c : save_fits (cp_pending c) = true -> admissible path fs ctx c SaveCommand.
Proof. intros Hs%save_fits_ok _ _. apply Hs. Qed.

Definition add_fits (c : Corpora) (doc : Doc.Document) : bool :=
  bool_decide (Forall (fun t => is_utf8 t = true) [Doc.title doc; Doc.url doc; Doc.anchor doc; Doc.body doc; Doc.meta doc]) &&
  is_utf8 (Doc.path doc) && (Z.of_nat (length (split_path_for_sidecar (Doc.path doc)).1) <? 65536)%Z &&
  (let id := if (Doc.doc_id doc =? u64_max)%Z then next_id c else Doc.doc_id doc in (0 <=? id)%Z && (id <? u32_max)%Z).

Lemma add_fits_ok path fs ctx c doc model : add_fits c doc = true -> admissible path fs ctx c (Add doc model).
Proof.
  unfold add_fits. cbv zeta. rewrite !andb_true_iff. intros [[[Hf Hu] Hp] [H1 H2]]. apply bool_decide_eq_true in Hf.
  apply Z.ltb_lt in Hp, H2. apply Z.leb_le in H1. split; [split; [exact Hf|split; [exact Hu|exact Hp]]|split; assumption].
Qed.

Definition command_fits (c : Corpora) (command : Command) : bool :=
  match command with
  | Start => true
  | Add doc _ => add_fits c doc
  | SaveCommand => bool_decide (is_Some (cp_written c)) || bool_decide (m_DocStats (cp_pending c) = ∅) || save_fits (cp_pending c)
  | MergeCommand => false
  end.

Fixpoint commands_fit (c : Corpora) (commands : list Command) : bool :=
  match commands with
  | [] => true
  | command :: commands' => command_fits c command && commands_fit (spec_command c command).1 commands'
  end.

Lemma command_fits_ok path fs ctx c command : command_fits c command = true -> admissible path fs ctx c command.
Proof.
  destruct command; cbn [command_fits]; [done|apply add_fits_ok| |done]. intros [[Hw|He]%orb_true_iff|Hs]%orb_true_iff; [| |by apply save_admissible].
  - apply bool_decide_eq_true in Hw as [s Hs]. cbn [admissible]. by rewrite Hs.
  - apply bool_decide_eq_true in He. by intros _ Hne.
Qed.

(** The commands one after the other, from a start on an empty directory. *)
Definition run_next (r : Files * IndexContext) (command : Command) : option (Files * IndexContext) :=
  option_map fst (run_command sample_path r.1 r.2 command).
Definition run (commands : list Command) : option (Files * IndexContext) := fold_option run_next commands (∅, with_path ∅ (Some sample_path)).

Lemma session_reached commands : commands_fit no_corpora commands = true ->
  exists fs ctx, run commands = Some (fs, ctx) /\ session_holds sample_path fs ctx (spec_run commands).
Proof.
  assert (Hall : forall c fs ctx, session_holds sample_path fs ctx c -> commands_fit c commands = true ->
    exists fs' ctx', fold_option run_next commands (fs, ctx) = Some (fs', ctx') /\
      session_holds sample_path fs' ctx' (fold_left (fun c command => (spec_command c command).1) commands c)).
  { induction commands as [|command commands IH]; intros c fs ctx Hh Hfit; [by exists fs, ctx|]. cbn [commands_fit fold_left fold_option] in *.
    apply andb_true_iff in Hfit as [Hc Hfit]. destruct (step_holds _ _ _ _ command Hh (command_fits_ok _ _ _ _ _ Hc)) as (fs' & ctx' & r & Hr & _ & Hh').
    unfold run_next. cbn [fst snd]. rewrite Hr. cbn [option_map fst]. by eapply IH. }
  intros Hfit. eapply Hall; [|exact Hfit]. apply (start_session sample_path ∅ None None); [by split|done|done].
Qed.

Definition first_document : Doc.Document := text_document (of_string "x/a.txt") (of_string "a b").
Definition second_document : Doc.Document := text_document (of_string "x/b.txt") (of_string "a c").
Definition third_document : Doc.Document := text_document (of_string "y/c.txt") (of_string "a").

(** A base with one document and a delta with another. *)
Definition two_indexes : list Command := [Add first_document None; SaveCommand; Add second_document None; SaveCommand].

(** After a restart there is nothing to save, and saving loses the document of the delta. *)
Definition restarted : Corpora := spec_run (two_indexes ++ [Start]).

Lemma restarted_facts : command_fits restarted SaveCommand = true /\ (spec_command restarted SaveCommand).2 = Ok tt /\
  bool_decide (is_Some (find_document restarted 1)) = true /\ find_document (spec_command restarted SaveCommand).1 1 = None.
Proof. vm_compute. done. Qed.

Lemma session_refines_witness :
  exists fs ctx fs' ctx', session_holds sample_path fs ctx restarted /\
    run_command sample_path fs ctx SaveCommand = Some (fs', ctx', Ok tt) /\
    is_Some (ctx_GetDocDataEntry ctx 1) /\ ctx_GetDocDataEntry ctx' 1 = None.
Proof.
  destruct (session_reached (two_indexes ++ [Start]) ltac:(vm_compute; reflexivity)) as (fs & ctx & _ & Hh). fold restarted in Hh.
  destruct restarted_facts as (Hfits & Hok & Hbefore & Hafter). generalize dependent restarted. intros c0 Hh Hfits Hok Hbefore Hafter.
  destruct (session_refines sample_path fs ctx c0 SaveCommand Hh (command_fits_ok _ _ _ _ _ Hfits)) as (fs' & ctx' & c & r & Hrun & Hspec & _ & Hfinds).
  rewrite Hspec in Hok, Hafter. cbn [fst snd] in Hok, Hafter. subst r.
  exists fs, ctx, fs', ctx'. split; [exact Hh|]. split; [exact Hrun|].
  pose proof (session_finds _ _ _ _ 1%Z Hh ltac:(done)) as Hf. specialize (Hfinds 1%Z ltac:(done)). unfold finds in Hf, Hfinds. rewrite Hafter in Hfinds.
  split; [|exact Hfinds]. apply bool_decide_eq_true in Hbefore as [[s st] E]. rewrite E in Hf. destruct Hf as (entry & He & _). by exists entry.
Defined.

Lemma AllocateDocumentID_fresh_witness :
  exists fs ctx, session_holds sample_path fs ctx (spec_run [Add first_document None; SaveCommand; Add second_document None]) /\
    (1 < AllocateDocumentID ctx)%Z.
Proof.
  destruct (session_reached [Add first_document None; SaveCommand; Add second_document None] ltac:(vm_compute; reflexivity)) as (fs & ctx & _ & Hh).
  exists fs, ctx. split; [exact Hh|]. destruct (AllocateDocumentID_fresh sample_path fs ctx _ Hh) as [Hused _]. apply Hused. right.
  apply (bool_decide_unpack _). vm_compute. reflexivity.
Defined.

Lemma save_drops_earlier_delta_witness :
  exists fs ctx fs' ctx', session_holds sample_path fs ctx
      (spec_run [Add first_document None; SaveCommand; Add second_document None; SaveCommand; Start; Add third_document None]) /\
    run_command sample_path fs ctx SaveCommand = Some (fs', ctx', Ok tt) /\ ctx_GetDocDataEntry ctx' 1 = None /\
    run_command sample_path fs' ctx' MergeCommand = Some (fs', ctx', Err InvalidFormat).
Proof.
  set (commands := [Add first_document None; SaveCommand; Add second_document None; SaveCommand; Start; Add third_document None]).
  destruct (session_reached commands ltac:(vm_compute; reflexivity)) as (fs & ctx & _ & Hh).
  destruct (save_drops_earlier_delta sample_path fs ctx (spec_run commands)
    (default store_new (cp_base (spec_run commands))) (default store_new (cp_delta (spec_run commands)))) as (fs' & ctx' & Hrun & Hlost & Hmerge).
  - exact Hh.
  - vm_compute. reflexivity.
  - vm_compute. reflexivity.
  - reflexivity.
  - apply save_admissible. vm_compute. reflexivity.
  - vm_compute. reflexivity.
  - apply Z.leb_le. vm_compute. reflexivity.
  - exists fs, ctx, fs', ctx'. split; [exact Hh|]. split; [exact Hrun|]. split; [|exact Hmerge].
    apply Hlost; [apply (bool_decide_unpack _); vm_compute; reflexivity|vm_compute; reflexivity].
Defined.

Lemma second_save_republishes_base_witness :
  exists fs ctx fs1 ctx1 fs2 ctx2, session_holds sample_path fs ctx (spec_run [Add first_document None]) /\
    run_command sample_path fs ctx SaveCommand = Some (fs1, ctx1, Ok tt) /\ run_command sample_path fs1 ctx1 SaveCommand = Some (fs2, ctx2, Ok tt) /\
    run_command sample_path fs2 ctx2 MergeCommand = Some (fs2, ctx2, Err InvalidFormat).
Proof.
  destruct (session_reached [Add first_document None] ltac:(vm_compute; reflexivity)) as (fs & ctx & _ & Hh).
  destruct (second_save_republishes_base sample_path fs ctx (spec_run [Add first_document None])) as (fs1 & ctx1 & fs2 & ctx2 & R1 & R2 & _ & R3).
  - exact Hh.
  - reflexivity.
  - apply save_admissible. vm_compute. reflexivity.
  - intros E. vm_compute in E. discriminate E.
  - vm_compute. reflexivity.
  - exists fs, ctx, fs1, ctx1, fs2, ctx2. split; [exact Hh|]. split; [exact R1|]. split; [exact R2|exact R3].
Defined.
Lemma two_indexes_averages : option_map (fun r => (averages_positive (m_Index r.2), option_map (fun d => averages_positive (m_Index d)) (m_DeltaContext r.2)))
  (run two_indexes) = Some (true, Some true).
Proof. vm_compute. reflexivity. Qed.

Definition two_task : SearchTaskState :=
  {| task_query := of_string "a"; task_vector := []; task_streams := of_string "T"; task_top_k := 2; task_mode := ModeDefault; task_vector_ef_search := 10 |}.

Lemma two_docs : match run two_indexes with
  | Some (_, ctx) => rt_tree_docs no_vectors no_vectors (from_context ctx) (default store_new (cp_base (spec_run two_indexes)))
      (default (default store_new (cp_base (spec_run two_indexes))) (cp_delta (spec_run two_indexes))) (task_tree two_task)
  | None => [] end = [0; 1]%Z.
Proof. vm_compute. reflexivity. Qed.

Lemma session_search_top_k_witness :
  exists fs ctx r all, session_holds sample_path fs ctx (spec_run two_indexes) /\
    converges (fun k => rt_get_reader no_vectors no_vectors (from_context ctx) k (task_tree two_task)) r /\
    visits (rt_GetDocDataEntry (from_context ctx)) kWeakAndBigramParameters None r [0; 1]%Z all.
Proof.
  destruct (session_reached two_indexes ltac:(vm_compute; reflexivity)) as (fs & ctx & Hrun & Hh).
  pose proof two_indexes_averages as Ha. pose proof two_docs as Hdocs. rewrite Hrun in Ha, Hdocs. cbn [option_map snd] in Ha.
  injection Ha as Ha Hda.
  destruct (session_search_top_k (ops := list_heap) (H4 := list_heap_spec) sample_path no_vectors no_vectors kWeakAndBigramParameters fs ctx (spec_run two_indexes)
    (default store_new (cp_base (spec_run two_indexes))) two_task) as (r & all & Hr & Hv & _).
  - exact Hh.
  - vm_compute. reflexivity.
  - exact Ha.
  - intros dctx Ed _. rewrite Ed in Hda. cbn in Hda. injection Hda as Hda. exact Hda.
  - intros q k ef. split; constructor.
  - intros q k ef. split; constructor.
  - vm_compute. reflexivity.
  - assert (Hno : index_search (delta_vector_built ctx) no_vectors = no_vectors) by (by destruct (delta_vector_built ctx)). rewrite Hno in *.
    exists fs, ctx, r, all. split; [exact Hh|]. split; [exact Hr|]. rewrite <- Hdocs. exact Hv.
Defined.
End samples.
