(* ===== verification/VectorIndex.v ===== *)
(** The vector index (Embeddings.rs): embedding of tokens, scores of quantized
    vectors, and the layered neighbour graph with its insertion and searches. *)

From Stdlib Require Import ZArith Lia ZifyBool Bool List.
From Stdlib Require Import Floats.SpecFloat.
From stdpp Require Import base list list_numbers gmap sorting.
From S2P Require Import Prelude Floats PostingCodec PostingStore IndexWriter Hashing FileFormat PathSidecar DocData Composites EvalExpression Executor.

Local Open Scope moon_scope.

Inductive VectorMetric := Cosine | DotProduct | L2.

(** * The embedding model *)

Section embedding.
Context `{Libm, HashOrder} (m_Dim : nat).

(** The hash of a token, FNV-1a. *)
Definition token_hash (token : str) : Z :=
  fold_left (fun hash byte => wrapping_mul 64 (Z.lxor hash byte) 1099511628211) token 14695981039346656037%Z.

Definition GetSlotForToken (token : str) : nat := Z.to_nat (token_hash token mod Z.of_nat m_Dim).

Definition token_frequencies (tokens : list str) : gmap str Z :=
  fold_left (fun m token => if nonempty token then <[token := (default 0%Z (m !! token) + 1)%Z]> m else m) tokens ∅.

Definition token_weight (token : str) (freq : Z) : f32 :=
  let one := f_of_Z F32 1 in
  let tfWeight := f_add F32 one (ln_f32 (f_add F32 one (f_of_Z F32 freq))) in
  let idfAdjust := f_add F32 one (ln_f32 (f_add F32 one (f_div F32 (f_of_Z F32 3) (f_of_Z F32 (Z.of_nat (length token)))))) in
  f_mul F32 tfWeight idfAdjust.

(** [result[slot] += weight]. *)
Definition add_weight (result : list f32) (entry : str * Z) : list f32 :=
  alter (fun x => f_add F32 x (token_weight entry.1 entry.2)) (GetSlotForToken entry.1) result.

Definition TFIDF_Embed (tokens : list str) : list f32 :=
  let result := replicate m_Dim (f_of_Z F32 0) in
  match tokens with
  | [] => result
  | _ =>
      let result := fold_left add_weight (hash_order (token_frequencies tokens)) result in
      let norm := f_sqrt F32 (f32_sum (map (fun value => f_mul F32 value value) result)) in
      if f_gt norm (f_of_Z F32 0) then map (fun value => f_div F32 value norm) result else result
  end.

Definition TFIDFSemanticEmbedding : EmbeddingModel := {| GetDimension := m_Dim; Embed := TFIDF_Embed |}.
End embedding.

(** * Scores *)

(** [encoded as i8]. *)
Definition component (encoded : Z) : Z := to_signed 8 encoded.

(** The four sums of a query and a document. *)
Definition query_sums (query : list f32) (doc : bytes) : f32 * f32 * f32 * f32 :=
  fold_left (fun '(dot, nq, nd, l2) '(q, encoded) =>
      let d := f_div F32 (f_of_Z F32 (component encoded)) (f_of_Z F32 128) in
      let delta := f_sub F32 q d in
      (f_add F32 dot (f_mul F32 q d), f_add F32 nq (f_mul F32 q q), f_add F32 nd (f_mul F32 d d), f_add F32 l2 (f_mul F32 delta delta)))
    (take DOC_VECTOR_DIM (zip query doc)) (f_of_Z F32 0, f_of_Z F32 0, f_of_Z F32 0, f_of_Z F32 0).

Definition ScoreQueryToDoc (query : list f32) (doc : bytes) (metric : VectorMetric) : f32 :=
  let '(dot, nq, nd, l2) := query_sums query doc in
  match metric with
  | DotProduct => dot
  | L2 => f_div F32 (f_of_Z F32 1) (f_add F32 (f_of_Z F32 1) l2)
  | Cosine => f_div F32 dot (f_mul F32 (f_sqrt F32 nq) (f_sqrt F32 nd))
  end.

(** The four sums of two documents, in [i32]; 128 products of two bytes stay far below its bounds. *)
Definition doc_sums (left right : bytes) : Z * Z * Z * Z :=
  fold_left (fun '(dot, nl, nr, l2) '(l, r) =>
      let l := component l in
      let r := component r in
      let delta := (l - r)%Z in
      (dot + l * r, nl + l * l, nr + r * r, l2 + delta * delta)%Z)
    (take DOC_VECTOR_DIM (zip left right)) (0, 0, 0, 0)%Z.

Definition ScoreDocToDoc (left right : bytes) (metric : VectorMetric) : f32 :=
  let '(dot, nl, nr, l2) := doc_sums left right in
  let scale := f_of_Z F32 (128 * 128) in
  match metric with
  | DotProduct => f_div F32 (f_of_Z F32 dot) scale
  | L2 => f_div F32 (f_of_Z F32 1) (f_add F32 (f_of_Z F32 1) (f_div F32 (f_of_Z F32 l2) scale))
  | Cosine => f_div F32 (f_of_Z F32 dot) (f_mul F32 (f_sqrt F32 (f_of_Z F32 nl)) (f_sqrt F32 (f_of_Z F32 nr)))
  end.

(** * Scored nodes *)

Record ScoredNode := { score : f32; node_id : Z }.

(** [CompareScoreThenDocId != Greater]: higher scores first, then lower ids. *)
Definition CompareScoreThenDocId (a b : ScoredNode) : bool :=
  if negb (SFeqb (score a) (score b)) then f_gt (score a) (score b) else (node_id a <=? node_id b)%Z.

(** [sort_by] with that comparison. With a NaN among several nodes it is no order; the sort may then panic and its
    result is unspecified: [None]. *)
Definition sort_nodes (l : list ScoredNode) : option (list ScoredNode) :=
  if (length l <=? 1) || forallb (fun n => negb (f_is_nan (score n))) l then Some (stable_sort CompareScoreThenDocId l) else None.

(** [BinaryHeap] of scored nodes. *)
Class NodeHeap (H : Type) := {
  nh_new : H;
  nh_push : ScoredNode -> H -> H;
  nh_pop : H -> option (ScoredNode * H);
  nh_peek : H -> option ScoredNode;
  nh_len : H -> nat;
  nh_items : H -> list ScoredNode;
}.

(** Its documented laws; [above x y]: a node of score [x] comes before one of score [y]. *)
Class NodeHeapSpec (H : Type) {ops : NodeHeap H} (above : f32 -> f32 -> bool) := {
  nh_new_items : nh_items nh_new = [];
  nh_push_items x h : nh_items (nh_push x h) ≡ₚ x :: nh_items h;
  nh_len_items h : nh_len h = length (nh_items h);
  nh_pop_none h : nh_pop h = None -> nh_items h = [];
  nh_pop_some h x h' : nh_pop h = Some (x, h') -> nh_items h ≡ₚ x :: nh_items h';
  nh_peek_pop h : nh_peek h = option_map fst (nh_pop h);
  nh_pop_top h x h' : nh_pop h = Some (x, h') -> Forall (fun y => f_is_nan (score y) = false) (nh_items h) ->
    Forall (fun y => above (score y) (score x) = false) (nh_items h);
}.

(** * The graph *)

Record Node := { level : nat; linkOffset : Z }.

(** FreshDiskAnnVectorIndex without its embedding model. Every indexing out of range panics: [None]. *)
Record VectorIndex := {
  m_MaxNeighbors : nat;
  m_EfConstruction : nat;
  m_Nodes : list Node;
  m_DocIds : list Z;
  m_Links : list Z;
  m_LinkCounts : list Z;
  m_VectorData : bytes;
  m_DocDataFirstDocId : Z;
  m_EntryPoint : Z;
  m_MaxLevel : nat;
}.

Definition vector_new (maxNeighbors efConstruction : nat) : VectorIndex :=
  let maxNeighbors := Nat.max 2 (Nat.min maxNeighbors 255) in
  {| m_MaxNeighbors := maxNeighbors; m_EfConstruction := Nat.max efConstruction maxNeighbors; m_Nodes := []; m_DocIds := []; m_Links := [];
     m_LinkCounts := []; m_VectorData := []; m_DocDataFirstDocId := 0; m_EntryPoint := u32_max; m_MaxLevel := 0 |}.

Definition vector_Clear (v : VectorIndex) : VectorIndex :=
  {| m_MaxNeighbors := m_MaxNeighbors v; m_EfConstruction := m_EfConstruction v; m_Nodes := []; m_DocIds := []; m_Links := [];
     m_LinkCounts := []; m_VectorData := []; m_DocDataFirstDocId := m_DocDataFirstDocId v; m_EntryPoint := u32_max; m_MaxLevel := 0 |}.

Definition SetDocData (v : VectorIndex) (docData : bytes) (firstDocId : Z) : VectorIndex :=
  {| m_MaxNeighbors := m_MaxNeighbors v; m_EfConstruction := m_EfConstruction v; m_Nodes := m_Nodes v; m_DocIds := m_DocIds v; m_Links := m_Links v;
     m_LinkCounts := m_LinkCounts v; m_VectorData := docData; m_DocDataFirstDocId := firstDocId; m_EntryPoint := m_EntryPoint v; m_MaxLevel := m_MaxLevel v |}.

Definition with_links (v : VectorIndex) (links counts : list Z) : VectorIndex :=
  {| m_MaxNeighbors := m_MaxNeighbors v; m_EfConstruction := m_EfConstruction v; m_Nodes := m_Nodes v; m_DocIds := m_DocIds v; m_Links := links;
     m_LinkCounts := counts; m_VectorData := m_VectorData v; m_DocDataFirstDocId := m_DocDataFirstDocId v; m_EntryPoint := m_EntryPoint v;
     m_MaxLevel := m_MaxLevel v |}.

Definition with_entry (v : VectorIndex) (entryPoint : Z) (maxLevel : nat) : VectorIndex :=
  {| m_MaxNeighbors := m_MaxNeighbors v; m_EfConstruction := m_EfConstruction v; m_Nodes := m_Nodes v; m_DocIds := m_DocIds v; m_Links := m_Links v;
     m_LinkCounts := m_LinkCounts v; m_VectorData := m_VectorData v; m_DocDataFirstDocId := m_DocDataFirstDocId v; m_EntryPoint := entryPoint;
     m_MaxLevel := maxLevel |}.

Definition push_node (v : VectorIndex) (docId : Z) (node : Node) : VectorIndex :=
  {| m_MaxNeighbors := m_MaxNeighbors v; m_EfConstruction := m_EfConstruction v; m_Nodes := m_Nodes v ++ [node]; m_DocIds := m_DocIds v ++ [wrap 32 docId];
     m_Links := m_Links v; m_LinkCounts := m_LinkCounts v; m_VectorData := m_VectorData v; m_DocDataFirstDocId := m_DocDataFirstDocId v;
     m_EntryPoint := m_EntryPoint v; m_MaxLevel := m_MaxLevel v |}.

Definition vector_Size (v : VectorIndex) : nat := length (m_Nodes v).

(** ** Nodes and links *)

Definition vi_GetDocVector (v : VectorIndex) (docId : Z) : option bytes :=
  if (docId <? m_DocDataFirstDocId v)%Z then None
  else
    let offset := Z.to_nat (docId - m_DocDataFirstDocId v) * DOC_REC_SIZE + DOC_VECTOR_OFFSET in
    get_range (m_VectorData v) offset (offset + DOC_VECTOR_DIM).

Definition GetNodeVector (v : VectorIndex) (nodeID : Z) : option bytes :=
  opt docId := m_DocIds v !! Z.to_nat nodeID in vi_GetDocVector v docId.

Definition NodeLevel (v : VectorIndex) (nodeID : Z) : option nat := option_map level (m_Nodes v !! Z.to_nat nodeID).

Definition HasLevel (v : VectorIndex) (nodeID : Z) (l : nat) : option bool := option_map (fun top => l <=? top) (NodeLevel v nodeID).

Definition LinkOffset (v : VectorIndex) (nodeID : Z) (l : nat) : option nat :=
  option_map (fun node => Z.to_nat (linkOffset node) + l * m_MaxNeighbors v) (m_Nodes v !! Z.to_nat nodeID).

Definition LinkCountIndex (v : VectorIndex) (nodeID : Z) (l : nat) : option nat :=
  option_map (fun node => Z.to_nat (linkOffset node) / m_MaxNeighbors v + l) (m_Nodes v !! Z.to_nat nodeID).

(** The links of a node that has the level. *)
Definition links_at (v : VectorIndex) (nodeID : Z) (l : nat) : option (list Z) :=
  opt offset := LinkOffset v nodeID l in
  opt index := LinkCountIndex v nodeID l in
  opt count := m_LinkCounts v !! index in
  get_range (m_Links v) offset (offset + Z.to_nat count).

Definition Neighbors (v : VectorIndex) (nodeID : Z) (l : nat) : option (list Z) :=
  opt has := HasLevel v nodeID l in
  if negb has then Some [] else links_at v nodeID l.

Definition SetNeighbors (v : VectorIndex) (nodeID : Z) (l : nat) (neighbors : list Z) : option VectorIndex :=
  opt has := HasLevel v nodeID l in
  if negb has then Some v
  else
    opt offset := LinkOffset v nodeID l in
    let kept := take (m_MaxNeighbors v) neighbors in
    opt _ := get_range (m_Links v) offset (offset + m_MaxNeighbors v) in
    let links := splice offset (kept ++ replicate (m_MaxNeighbors v - length kept) u32_max) (m_Links v) in
    opt index := LinkCountIndex v nodeID l in
    opt _ := m_LinkCounts v !! index in
    Some (with_links v links (<[index := wrap 8 (Z.of_nat (length kept))]> (m_LinkCounts v))).

(** [None]: the layer count does not fit the link table. *)
Definition AllocateLinks (v : VectorIndex) (top : nat) : option (Node * VectorIndex) :=
  let layerCount := top + 1 in
  let slotCount := layerCount * m_MaxNeighbors v in
  if (u32_max <? Z.of_nat slotCount)%Z || (u32_max - Z.of_nat slotCount <? Z.of_nat (length (m_Links v)))%Z then None
  else Some ({| level := top; linkOffset := Z.of_nat (length (m_Links v)) |},
             with_links v (m_Links v ++ replicate slotCount u32_max) (m_LinkCounts v ++ replicate layerCount 0%Z)).

(** ** Searches *)

Definition ScoreQuery (v : VectorIndex) (query : list f32) (metric : VectorMetric) (nodeID : Z) : option f32 :=
  option_map (fun doc => ScoreQueryToDoc query doc metric) (GetNodeVector v nodeID).

Definition ScoreDoc (v : VectorIndex) (metric : VectorMetric) (queryNodeID nodeID : Z) : option f32 :=
  opt query := GetNodeVector v queryNodeID in
  opt doc := GetNodeVector v nodeID in
  Some (ScoreDocToDoc query doc metric).

Section search.
Context (v : VectorIndex) (score_of : Z -> option f32).

(** One look at a neighbour: the best node so far, its score, and whether it changed. *)
Definition greedy_step (best : ScoredNode * bool) (neighbor : Z) : option (ScoredNode * bool) :=
  opt s := score_of neighbor in
  Some (if f_gt s (score best.1) then ({| score := s; node_id := neighbor |}, true) else best).

Fixpoint GreedySearchLayer_loop (fuel : nat) (best : ScoredNode) (l : nat) : option Z :=
  match fuel with
  | O => None
  | S fuel' =>
      opt neighbors := Neighbors v (node_id best) l in
      opt r := fold_option greedy_step neighbors (best, false) in
      if r.2 then GreedySearchLayer_loop fuel' r.1 l else Some (node_id best)
  end.

(** Each round moves to a node of a higher score, so there are no more rounds than nodes. *)
Definition GreedySearchLayer (entry : Z) (l : nat) : option Z :=
  opt s := score_of entry in GreedySearchLayer_loop (S (length (m_Nodes v))) {| score := s; node_id := entry |} l.

Context {C R : Type} `{NodeHeap C, NodeHeap R} (ef : nat).

(** Candidates, results and visited nodes. *)
Definition visit (st : C * R * gset Z) (neighbor : Z) : option (C * R * gset Z) :=
  let '(candidates, results, visited) := st in
  if decide (neighbor ∈ visited) then Some st
  else
    let visited := {[neighbor]} ∪ visited in
    opt s := score_of neighbor in
    if (nh_len results <? ef) || match nh_peek results with Some entry => f_gt s (score entry) | None => true end then
      let node := {| score := s; node_id := neighbor |} in
      let results := nh_push node results in
      let results := if ef <? nh_len results then match nh_pop results with Some (_, results) => results | None => results end else results in
      Some (nh_push node candidates, results, visited)
    else Some (candidates, results, visited).

Fixpoint SearchLayer_loop (fuel : nat) (st : C * R * gset Z) (l : nat) : option R :=
  match fuel with
  | O => None
  | S fuel' =>
      let '(candidates, results, visited) := st in
      match nh_pop candidates with
      | None => Some results
      | Some (current, candidates) =>
          if match nh_peek results with Some entry => f_lt (score current) (score entry) | None => false end then Some results
          else
            opt neighbors := Neighbors v (node_id current) l in
            opt st := fold_option visit neighbors (candidates, results, visited) in
            SearchLayer_loop fuel' st l
      end
  end.

(** Each round takes a candidate, and each node becomes one once. *)
Definition SearchLayer (entry : Z) (l : nat) : option (list ScoredNode) :=
  opt entryScore := score_of entry in
  let node := {| score := entryScore; node_id := entry |} in
  opt results := SearchLayer_loop (S (S (length (m_Nodes v)))) (nh_push node nh_new, nh_push node nh_new, {[entry]}) l in
  sort_nodes (nh_items results).
End search.

Definition SelectNeighbors (candidates : list ScoredNode) (maxNeighbors : nat) : option (list Z) :=
  option_map (fun sorted => map node_id (take maxNeighbors sorted)) (sort_nodes candidates).

(** [map] over a list with a result that may panic. *)
Fixpoint map_opt {A B} (f : A -> option B) (l : list A) : option (list B) :=
  match l with
  | [] => Some []
  | x :: l' => opt y := f x in opt ys := map_opt f l' in Some (y :: ys)
  end.

Definition SortLayerByScore (v : VectorIndex) (nodeID : Z) (l : nat) : option VectorIndex :=
  opt offset := LinkOffset v nodeID l in
  opt links := links_at v nodeID l in
  opt scored := map_opt (fun link => option_map (fun s => {| score := s; node_id := link |}) (ScoreDoc v Cosine nodeID link)) links in
  opt sorted := sort_nodes scored in
  Some (with_links v (splice offset (map node_id sorted) (m_Links v)) (m_LinkCounts v)).

(** The worst of the links from the given index on. *)
Fixpoint find_worst (v : VectorIndex) (nodeID : Z) (links : list Z) (index : nat) (worst : nat * ScoredNode) : option (nat * ScoredNode) :=
  match links with
  | [] => Some worst
  | candidate :: links' =>
      opt s := ScoreDoc v Cosine nodeID candidate in
      let '(_, w) := worst in
      find_worst v nodeID links' (S index)
        (if f_lt s (score w) || SFeqb s (score w) && (node_id w <? candidate)%Z then (index, {| score := s; node_id := candidate |}) else worst)
  end.

Definition LinkBack (v : VectorIndex) (nodeID neighbor : Z) (l : nat) : option VectorIndex :=
  opt has := HasLevel v nodeID l in
  if negb has then Some v
  else
    opt offset := LinkOffset v nodeID l in
    opt countIndex := LinkCountIndex v nodeID l in
    opt links := links_at v nodeID l in
    let count := length links in
    if bool_decide (neighbor ∈ links) then Some v
    else if count <? m_MaxNeighbors v then
      opt _ := m_Links v !! (offset + count) in
      Some (with_links v (<[offset + count := neighbor]> (m_Links v)) (<[countIndex := wrap 8 (Z.of_nat (count + 1))]> (m_LinkCounts v)))
    else
      opt neighborScore := ScoreDoc v Cosine nodeID neighbor in
      opt first := m_Links v !! offset in
      opt firstScore := ScoreDoc v Cosine nodeID first in
      opt worst := find_worst v nodeID (tail links) 1 (0, {| score := firstScore; node_id := first |}) in
      let '(worstIndex, w) := worst in
      if f_gt neighborScore (score w) || SFeqb neighborScore (score w) && (neighbor <? node_id w)%Z
      then SortLayerByScore (with_links v (<[offset + worstIndex := neighbor]> (m_Links v)) (m_LinkCounts v)) nodeID l
      else Some v.

(** ** Insertion *)

Fixpoint random_level_loop (fuel : nat) (hash : Z) (l : nat) : nat :=
  match fuel with
  | O => l
  | S fuel' => if (Z.land hash 3 =? 0)%Z && (l <? 16) then random_level_loop fuel' (Z.shiftr hash 2) (l + 1) else l
  end.

(** At most sixteen levels, hence sixteen rounds. *)
Definition RandomLevel (docId : Z) : nat :=
  random_level_loop 16 (wrapping_add 64 (wrapping_mul 64 docId 11400714819323198485) 0x9e3779b97f4a7c15) 0.

(** The links of a new node on one level, and the entry for the next one. *)
Definition insert_level {C R : Type} `{NodeHeap C, NodeHeap R} (newNodeID : Z) (st : VectorIndex * Z) (l : nat) : option (VectorIndex * Z) :=
  let '(v, entry) := st in
  opt candidates := SearchLayer v (ScoreDoc v Cosine newNodeID) (C := C) (R := R) (m_EfConstruction v) entry l in
  opt selected := SelectNeighbors candidates (m_MaxNeighbors v) in
  opt v := SetNeighbors v newNodeID l selected in
  opt v := fold_option (fun v neighbor => LinkBack v neighbor newNodeID l) selected v in
  Some (v, match head candidates with Some candidate => node_id candidate | None => entry end).

(** The levels from [top] down to [bottom]. *)
Definition levels_down (bottom top : nat) : list nat := rev (seq bottom (S top - bottom)).

Definition AddNode {C R : Type} `{NodeHeap C, NodeHeap R} (v : VectorIndex) (docId : Z) : option (VectorIndex * bool) :=
  if (u32_max <? docId)%Z || (u32_max <=? Z.of_nat (length (m_Nodes v)))%Z then Some (v, false)
  else
    match AllocateLinks v (RandomLevel docId) with
    | None => Some (v, false)
    | Some (node, v) =>
        let newNodeID := Z.of_nat (length (m_Nodes v)) in
        let v := push_node v docId node in
        if (m_EntryPoint v =? u32_max)%Z then Some (with_entry v newNodeID (level node), true)
        else
          opt entry := fold_option (fun entry l => GreedySearchLayer v (ScoreDoc v Cosine newNodeID) entry l)
            (if level node <? m_MaxLevel v then levels_down (level node + 1) (m_MaxLevel v) else []) (m_EntryPoint v) in
          opt st := fold_option (insert_level (C := C) (R := R) newNodeID) (levels_down 0 (Nat.min (m_MaxLevel v) (level node))) (v, entry) in
          let v := st.1 in
          Some (if m_MaxLevel v <? level node then with_entry v newNodeID (level node) else v, true)
    end.

(** ** Searching *)

Definition result_of (v : VectorIndex) (query : list f32) (metric : VectorMetric) (nodeID : Z) : option ScoredNode :=
  opt docId := m_DocIds v !! Z.to_nat nodeID in
  opt s := ScoreQuery v query metric nodeID in
  Some {| score := s; node_id := docId |}.

Definition vector_Search {C R : Type} `{NodeHeap C, NodeHeap R} (v : VectorIndex) (query : list f32) (topK : nat) (metric : VectorMetric) (efSearch : nat)
  : option (list VectorSearchResult) :=
  if negb (length query =? DOC_VECTOR_DIM) || (length (m_Nodes v) =? 0) then Some []
  else
    opt entry := fold_option (fun entry l => GreedySearchLayer v (ScoreQuery v query metric) entry l) (levels_down 1 (m_MaxLevel v)) (m_EntryPoint v) in
    let wanted := if topK =? 0 then length (m_Nodes v) else topK in
    opt candidates := SearchLayer v (ScoreQuery v query metric) (C := C) (R := R) (Nat.max efSearch wanted) entry 0 in
    let found := map node_id candidates in
    let missing := if (topK =? 0) && (length candidates <? length (m_Nodes v))
                   then filter (fun nodeID => nodeID ∉ found) (map Z.of_nat (seq 0 (length (m_Nodes v)))) else [] in
    opt scored := map_opt (result_of v query metric) (found ++ missing) in
    opt results := sort_nodes scored in
    Some (map (fun n => {| vsr_doc_id := node_id n; vsr_score := score n |})
            (if (0 <? topK) && (topK <? length results) then take topK results else results)).

(** * Order of scored nodes *)

Lemma fold_option_inv {A B} (P : B -> Prop) (f : B -> A -> option B) l b :
  (forall b a, a ∈ l -> P b -> exists b', f b a = Some b' /\ P b') -> P b -> exists b', fold_option f l b = Some b' /\ P b'.
Proof.
  revert b. induction l as [|a l IH]; intros b Hf Hb; cbn; [by exists b|]. destruct (Hf b a ltac:(left) Hb) as (b' & -> & Hb').
  apply IH; [|done]. intros b0 a0 Ha. apply Hf. by right.
Qed.

Lemma map_opt_total {A B} (f : A -> option B) l : (forall x, x ∈ l -> is_Some (f x)) -> exists ys, map_opt f l = Some ys /\ Forall2 (fun x y => f x = Some y) l ys.
Proof.
  induction l as [|x l IH]; intros Hf; cbn; [exists []; by split|]. destruct (Hf x ltac:(left)) as [y Hy].
  destruct IH as (ys & -> & Hys); [intros z Hz; apply Hf; by right|]. rewrite Hy. cbn. exists (y :: ys). by split; [|constructor].
Qed.

Definition numeric (l : list ScoredNode) : Prop := Forall (fun n => f_is_nan (score n) = false) l.

(** Not before: a lower score, or the same score and a higher id. *)
Definition ranked (a b : ScoredNode) : Prop :=
  key_lt (f_key (score b)) (f_key (score a)) \/ f_key (score a) = f_key (score b) /\ (node_id a <= node_id b)%Z.

Lemma f_eq_key x y : f_is_nan x = false -> f_is_nan y = false -> SFeqb x y = true <-> f_key x = f_key y.
Proof.
  unfold SFeqb. destruct x as [sx|[]| |[] mx ex], y as [sy|[]| |[] my ey]; try done; intros _ _; cbn;
    try (split; [done|congruence]); try (split; [done|intros E; injection E; lia]);
    change (PosDef.Pos.compare_cont Eq mx my) with (mx ?= my)%positive;
    destruct (Z.compare_spec ex ey); try (split; [done|intros E; injection E; lia]);
    destruct (Pos.compare_spec mx my); cbn; split; intros E; try done; try (injection E; lia); subst; done.
Qed.

Lemma ranked_leb a b : f_is_nan (score a) = false -> f_is_nan (score b) = false -> CompareScoreThenDocId a b = true <-> ranked a b.
Proof.
  intros Ha Hb. unfold CompareScoreThenDocId, ranked. pose proof (f_eq_key _ _ Ha Hb) as He. pose proof (f_gt_key _ _ Ha Hb) as Hg.
  destruct (SFeqb (score a) (score b)) eqn:E; cbn [negb].
  - assert (f_key (score a) = f_key (score b)) as Hk by by apply He. rewrite Hk, Z.leb_le. unfold key_lt. split; [auto|]. intros [?|[_ ?]]; [lia|done].
  - rewrite Hg. split; [auto|]. intros [?|[Hk _]]; [done|]. by apply He in Hk.
Qed.

Lemma key_eq_dec (a b : Z * Z * Z) : a = b <-> ~ key_lt a b /\ ~ key_lt b a.
Proof. destruct a as [[a1 a2] a3], b as [[b1 b2] b3]. unfold key_lt. cbn. split; [intros [= -> -> ->]; lia|]. intros [H1 H2]. repeat f_equal; lia. Qed.

Lemma ranked_trans a b c : ranked a b -> ranked b c -> ranked a c.
Proof. unfold ranked. rewrite !key_eq_dec. unfold key_lt. lia. Qed.

Lemma ranked_total a b : ranked a b \/ ranked b a.
Proof. unfold ranked. rewrite !key_eq_dec. unfold key_lt. lia. Qed.

#[export] Instance ranked_dec a b : Decision (ranked a b).
Proof. unfold ranked. apply _. Defined.

Lemma sort_nodes_ok l : numeric l -> exists out, sort_nodes l = Some out /\ out ≡ₚ l /\ StronglySorted ranked out.
Proof.
  intros Hn. unfold numeric in Hn. unfold sort_nodes. assert ((length l <=? 1) || forallb (fun n => negb (f_is_nan (score n))) l = true) as ->.
  { apply orb_true_intro. right. apply forallb_forall. intros n Hin. apply negb_true_iff. rewrite Forall_forall in Hn. by apply Hn, list_elem_of_In. }
  eexists. split; [reflexivity|]. split; [apply stable_sort_perm|].
  rewrite (stable_sort_ext _ (fun a b => bool_decide (ranked a b))).
  - apply stable_sort_sorted; [intros a b; apply bool_decide_eq_true|exact ranked_total|exact ranked_trans].
  - intros a b Ha Hb. rewrite Forall_forall in Hn. apply eq_true_iff_eq. rewrite bool_decide_eq_true. by apply ranked_leb; apply Hn.
Qed.

Lemma sort_nodes_some l out : sort_nodes l = Some out -> out ≡ₚ l.
Proof. unfold sort_nodes. case_match; [|done]. intros [= <-]. apply stable_sort_perm. Qed.

(** * The link tables *)

(** The fields that links do not touch. *)
Record same_nodes (v v' : VectorIndex) : Prop := {
  sn_M : m_MaxNeighbors v' = m_MaxNeighbors v;
  sn_ef : m_EfConstruction v' = m_EfConstruction v;
  sn_nodes : m_Nodes v' = m_Nodes v;
  sn_ids : m_DocIds v' = m_DocIds v;
  sn_data : m_VectorData v' = m_VectorData v;
  sn_first : m_DocDataFirstDocId v' = m_DocDataFirstDocId v;
  sn_entry : m_EntryPoint v' = m_EntryPoint v;
  sn_max : m_MaxLevel v' = m_MaxLevel v;
}.

Lemma same_nodes_refl v : same_nodes v v.
Proof. done. Qed.
Lemma same_nodes_trans v1 v2 v3 : same_nodes v1 v2 -> same_nodes v2 v3 -> same_nodes v1 v3.
Proof. intros [] []. split; congruence. Qed.
Lemma same_nodes_sym v1 v2 : same_nodes v1 v2 -> same_nodes v2 v1.
Proof. intros []. by split. Qed.
Lemma with_links_same v links counts : same_nodes v (with_links v links counts).
Proof. done. Qed.

(** The number of layers of the nodes before one. *)
Definition layers (nodes : list Node) : nat := list_sum (map (fun n => level n + 1) nodes).

(** The first layer of a node among all layers; each layer has room for all its links. *)
Definition slot (v : VectorIndex) (i l : nat) : nat := layers (take i (m_Nodes v)) + l.

(** Nodes lie one after the other, with a count and a row of links for each layer. *)
Record layout (v : VectorIndex) : Prop := {
  la_M : 2 <= m_MaxNeighbors v <= 255;
  la_ids : length (m_DocIds v) = length (m_Nodes v);
  la_offsets : forall i node, m_Nodes v !! i = Some node -> linkOffset node = Z.of_nat (m_MaxNeighbors v * layers (take i (m_Nodes v)));
  la_links : length (m_Links v) = m_MaxNeighbors v * layers (m_Nodes v);
  la_counts : length (m_LinkCounts v) = layers (m_Nodes v);
}.

Lemma layout_same v v' : same_nodes v v' -> length (m_Links v') = length (m_Links v) -> length (m_LinkCounts v') = length (m_LinkCounts v) -> layout v -> layout v'.
Proof. intros [] Hl Hc [L1 L2 L3 L4 L5]. split; rewrite ?sn_M0, ?sn_nodes0, ?sn_ids0, ?Hl, ?Hc; done. Qed.

Lemma layers_app l1 l2 : layers (l1 ++ l2) = layers l1 + layers l2.
Proof. unfold layers. by rewrite map_app, list_sum_app. Qed.

Lemma layers_take_S nodes i node : nodes !! i = Some node -> layers (take (S i) nodes) = layers (take i nodes) + (level node + 1).
Proof. intros Hi. rewrite (take_S_r _ _ _ Hi), layers_app. unfold layers. cbn. lia. Qed.

Lemma layers_take_le nodes i j : i <= j -> layers (take i nodes) <= layers (take j nodes).
Proof.
  intros Hij. replace j with (i + (j - i)) by lia. rewrite <- take_take_drop, layers_app. lia.
Qed.

Lemma slot_lt v i node l : m_Nodes v !! i = Some node -> l <= level node -> slot v i l < layers (m_Nodes v).
Proof.
  intros Hi Hl. unfold slot. pose proof (layers_take_S _ _ _ Hi). apply lookup_lt_Some in Hi.
  pose proof (layers_take_le (m_Nodes v) (S i) (length (m_Nodes v)) ltac:(lia)) as Hle. rewrite (take_ge (m_Nodes v) (length (m_Nodes v))) in Hle by done. lia.
Qed.

Lemma slot_inj v i j ni nj l l' : m_Nodes v !! i = Some ni -> m_Nodes v !! j = Some nj -> l <= level ni -> l' <= level nj ->
  slot v i l = slot v j l' -> i = j /\ l = l'.
Proof.
  intros Hi Hj Hl Hl' Heq. unfold slot in Heq. pose proof (layers_take_S _ _ _ Hi). pose proof (layers_take_S _ _ _ Hj).
  destruct (Nat.lt_trichotomy i j) as [Hij|[->|Hij]].
  - pose proof (layers_take_le (m_Nodes v) (S i) j ltac:(lia)). lia.
  - split; [done|lia].
  - pose proof (layers_take_le (m_Nodes v) (S j) i ltac:(lia)). lia.
Qed.

(** The links of a slot. *)
Definition slot_links (v : VectorIndex) (s : nat) : option (list Z) :=
  opt count := m_LinkCounts v !! s in
  get_range (m_Links v) (m_MaxNeighbors v * s) (m_MaxNeighbors v * s + Z.to_nat count).

Section slots.
Context (v : VectorIndex) (Hv : layout v).
Context (id : Z) (node : Node) (l : nat).
Hypothesis Hid : m_Nodes v !! Z.to_nat id = Some node.
Let s := slot v (Z.to_nat id) l.

Lemma LinkOffset_slot : LinkOffset v id l = Some (m_MaxNeighbors v * s).
Proof. unfold LinkOffset. rewrite Hid. cbn. rewrite (la_offsets _ Hv _ _ Hid). unfold s, slot. f_equal. lia. Qed.

Lemma LinkCountIndex_slot : LinkCountIndex v id l = Some s.
Proof.
  unfold LinkCountIndex. rewrite Hid. cbn. rewrite (la_offsets _ Hv _ _ Hid), Nat2Z.id. unfold s, slot. f_equal.
  rewrite Nat.mul_comm, Nat.div_mul; [done|]. pose proof (la_M _ Hv). lia.
Qed.

Lemma links_at_slot : links_at v id l = slot_links v s.
Proof. unfold links_at. by rewrite LinkOffset_slot, LinkCountIndex_slot. Qed.

Lemma HasLevel_node : HasLevel v id l = Some (l <=? level node).
Proof. unfold HasLevel, NodeLevel. by rewrite Hid. Qed.

Lemma Neighbors_slot : l <= level node -> Neighbors v id l = slot_links v s.
Proof. intros Hl. unfold Neighbors. rewrite HasLevel_node, (proj2 (Nat.leb_le _ _) Hl). cbn. apply links_at_slot. Qed.
End slots.

(** * A heap as a list *)

(** The best node of a list that is not empty, and the others. *)
Fixpoint take_best (above : f32 -> f32 -> bool) (x : ScoredNode) (l : list ScoredNode) : ScoredNode * list ScoredNode :=
  match l with
  | [] => (x, [])
  | y :: l' => let '(b, r) := take_best above x l' in if above (score y) (score b) then (y, b :: r) else (b, y :: r)
  end.

Record node_list (above : f32 -> f32 -> bool) := { nl_items : list ScoredNode }.
Arguments nl_items {_} _.

Definition node_list_pop {above} (h : node_list above) : option (ScoredNode * node_list above) :=
  match nl_items h with [] => None | x :: l => let '(b, r) := take_best above x l in Some (b, {| nl_items := r |}) end.

#[export] Instance node_list_heap above : NodeHeap (node_list above) := {|
  nh_new := {| nl_items := [] |};
  nh_push x h := {| nl_items := x :: nl_items h |};
  nh_pop := node_list_pop;
  nh_peek h := option_map fst (node_list_pop h);
  nh_len h := length (nl_items h);
  nh_items := nl_items;
|}.

Lemma take_best_perm above x l : (take_best above x l).1 :: (take_best above x l).2 ≡ₚ x :: l.
Proof.
  induction l as [|y l IH]; [done|]. cbn [take_best]. destruct (take_best above x l) as [b r]. cbn [fst snd] in *. rewrite (perm_swap y x l), <- IH. destruct (above _ _); cbn [fst snd]; [done|apply perm_swap].
Qed.

Lemma take_best_top above rel x l :
  (forall s t, f_is_nan s = false -> f_is_nan t = false -> above s t = true <-> rel (f_key s) (f_key t)) ->
  (forall a, ~ rel a a) -> (forall a b c, rel a b -> rel b c -> rel a c) ->
  Forall (fun y => f_is_nan (score y) = false) (x :: l) -> Forall (fun y => above (score y) (score (take_best above x l).1) = false) (x :: l).
Proof.
  intros Hrel Hirr Htr. induction l as [|y l IH]; intros Hnum; cbn [take_best].
  { inversion Hnum; subst. constructor; [|done]. cbn. apply not_true_iff_false. rewrite Hrel by done. apply Hirr. }
  inversion Hnum as [|? ? Hx Hl]; subst. inversion Hl as [|? ? Hy Hl']; subst.
  assert (Hxl : Forall (fun y => f_is_nan (score y) = false) (x :: l)) by by constructor. specialize (IH Hxl).
  pose proof (take_best_perm above x l) as Hp. destruct (take_best above x l) as [b r]. cbn [fst snd] in *.
  assert (Hb : f_is_nan (score b) = false) by (rewrite <- Hp in Hxl; by inversion Hxl).
  destruct (above (score y) (score b)) eqn:E; cbn [fst].
  - assert (Hyb : rel (f_key (score y)) (f_key (score b))) by by apply Hrel. rewrite Forall_forall in IH, Hxl.
    assert (Hz : forall z, z ∈ x :: l -> above (score z) (score y) = false).
    { intros z Hz. apply not_true_iff_false. rewrite Hrel by (auto; by apply Hxl). intros Hzy. specialize (IH z Hz).
      apply not_true_iff_false in IH. apply IH, Hrel; [by apply Hxl|done|]. by eapply Htr. }
    constructor; [apply Hz; left|]. constructor; [apply not_true_iff_false; rewrite Hrel by done; apply Hirr|].
    rewrite Forall_forall. intros z Hzl. apply Hz. by right.
  - inversion IH; subst. by repeat constructor.
Qed.

Lemma node_list_spec above rel :
  (forall s t, f_is_nan s = false -> f_is_nan t = false -> above s t = true <-> rel (f_key s) (f_key t)) ->
  (forall a, ~ rel a a) -> (forall a b c, rel a b -> rel b c -> rel a c) -> NodeHeapSpec (node_list above) above.
Proof.
  intros Hrel Hirr Htr. split; try done.
  - intros [[|x l]]; [done|]. unfold nh_pop, node_list_heap, node_list_pop. cbn. by destruct (take_best above x l).
  - intros [[|x l]] y h'; [done|]. unfold nh_pop, node_list_heap, node_list_pop. cbn. pose proof (take_best_perm above x l) as Hp.
    destruct (take_best above x l) as [b r]. intros [= <- <-]. by symmetry.
  - intros [[|x l]] y h' Hpop Hnum; [done|]. cbn in Hpop, Hnum |- *. pose proof (take_best_top above rel x l Hrel Hirr Htr Hnum) as Ht.
    unfold node_list_pop in Hpop. cbn in Hpop. destruct (take_best above x l) as [b r]. by injection Hpop as <- <-.
Qed.

#[export] Instance max_list_spec : NodeHeapSpec (node_list f_gt) f_gt.
Proof.
  apply (node_list_spec f_gt (fun a b => key_lt b a)); [intros s t Hs Ht; by apply f_gt_key| |]; unfold key_lt; lia.
Qed.

#[export] Instance min_list_spec : NodeHeapSpec (node_list f_lt) f_lt.
Proof.
  apply (node_list_spec f_lt key_lt); [intros s t Hs Ht; by apply (f_gt_key t s)| |]; unfold key_lt; lia.
Qed.
