(* ===== verification/CosineScore.v ===== *)
(** The cosine of two stored vectors (VectorIndex.ScoreDocToDoc) is a number when neither of them is zero: the rounding
    of positive values, square roots and products never gives zero or NaN in this range. *)

From Stdlib Require Import ZArith Lia ZifyBool Bool List.
From Stdlib Require Import Floats.SpecFloat.
From stdpp Require Import base list list_numbers.
From S2P Require Import Prelude Floats PostingCodec PostingStore FileFormat DocData VectorIndex.

Local Open Scope Z_scope.

Abbreviation fexp32 := (fexp 24 128).

(** * Shifting and rounding *)

Lemma shr_1_half mrs : 0 <= shr_m mrs -> shr_m (shr_1 mrs) = shr_m mrs / 2.
Proof.
  destruct mrs as [[|[p|p|]|p] r s]; intros H; cbn in *; try lia; try done.
  - change (Z.pos p~1) with (2 * Z.pos p + 1). rewrite Z.mul_comm, Z.div_add_l by lia. change (1 / 2) with 0. lia.
  - change (Z.pos p~0) with (2 * Z.pos p). rewrite Z.mul_comm, Z.div_mul; lia.
Qed.

Lemma pow_even p : 2 ^ Z.pos p~0 = 2 ^ Z.pos p * 2 ^ Z.pos p.
Proof. rewrite <- Z.pow_add_r by lia. f_equal. lia. Qed.

Lemma pow_odd p : 2 ^ Z.pos p~1 = 2 * 2 ^ Z.pos p * 2 ^ Z.pos p.
Proof. rewrite Pos2Z.inj_xI, Z.pow_add_r, (Z.mul_comm 2 (Z.pos p)), Z.pow_mul_r by lia. change (2 ^ 1) with 2. lia. Qed.

Lemma shr_iter p mrs : 0 <= shr_m mrs -> shr_m (SpecFloat.iter_pos shr_1 p mrs) = shr_m mrs / 2 ^ Z.pos p.
Proof.
  assert (Hpos : forall m q, 0 <= m -> 0 <= m / 2 ^ Z.pos q) by (intros; apply Z.div_pos; lia).
  revert mrs. induction p as [p IH|p IH|]; intros mrs H; cbn [SpecFloat.iter_pos].
  - assert (H1 : 0 <= shr_m (shr_1 mrs)) by (rewrite shr_1_half by done; apply Z.div_pos; lia).
    rewrite IH by (rewrite IH by done; auto). rewrite IH, shr_1_half by done. rewrite !Z.div_div by lia.
    by rewrite pow_odd, Z.mul_assoc.
  - rewrite IH by (rewrite IH by done; auto). rewrite IH by done. rewrite Z.div_div by lia. by rewrite pow_even.
  - by apply shr_1_half.
Qed.

Lemma shr_record_m m l : shr_m (shr_record_of_loc m l) = m.
Proof. by destruct l as [|[]]. Qed.

(** A shift that brings the mantissa to the width of the format. *)
Lemma shr_fexp_m m e l : 0 <= m ->
  let n := Z.max 0 (fexp32 (Zdigits2 m + e) - e) in shr_m (shr_fexp 24 128 m e l).1 = m / 2 ^ n /\ (shr_fexp 24 128 m e l).2 = e + n.
Proof.
  intros H n. unfold shr_fexp, shr, n. destruct (fexp32 (Zdigits2 m + e) - e) as [|p|p]; cbn [fst snd].
  - rewrite shr_record_m. cbn. rewrite Z.div_1_r. split; [done|lia].
  - rewrite shr_iter by by rewrite shr_record_m. rewrite shr_record_m. rewrite Z.max_r by lia. done.
  - rewrite shr_record_m. rewrite Z.max_l by lia. cbn. rewrite Z.div_1_r. split; [done|lia].
Qed.

Lemma digits_lower p : 2 ^ (Z.pos (digits2_pos p) - 1) <= Z.pos p.
Proof.
  induction p as [p IH|p IH|]; cbn [digits2_pos]; [| |done]; rewrite Pos2Z.inj_succ;
    (replace (Z.succ (Z.pos (digits2_pos p)) - 1) with (1 + (Z.pos (digits2_pos p) - 1)) by lia); rewrite Z.pow_add_r by lia;
    change (2 ^ 1) with 2; revert IH; generalize (2 ^ (Z.pos (digits2_pos p) - 1)); lia.
Qed.

(** A positive mantissa stays positive, away from the smallest exponents. *)
Lemma shr_fexp_positive m e l : 0 < m -> -100 <= e ->
  0 < shr_m (shr_fexp 24 128 m e l).1 /\ e <= (shr_fexp 24 128 m e l).2.
Proof.
  intros Hm He. destruct (shr_fexp_m m e l ltac:(lia)) as [-> ->]. destruct m as [|p|p]; [lia| |lia]. cbn [Zdigits2].
  pose proof (digits_lower p) as Hd. unfold fexp, emin. set (d := Z.pos (digits2_pos p)) in *. set (n := Z.max 0 _).
  assert (Hn : 2 ^ n <= Z.pos p).
  { transitivity (2 ^ (d - 1)); [|done]. apply Z.pow_le_mono_r; lia. }
  split; [|lia]. apply Z.div_str_pos. split; [apply Z.pow_pos_nonneg|]; lia.
Qed.

Lemma round_even_le m l : m <= round_nearest_even m l.
Proof. destruct l as [|[]]; cbn; try destruct (Z.even m); lia. Qed.

(** Positive, with an exponent of at least [b], or infinite. *)
Definition positive_from (b : Z) (x : spec_float) : Prop :=
  x = S754_infinity false \/ exists m e, x = S754_finite false m e /\ b <= e.

Lemma positive_mono b b' x : b' <= b -> positive_from b x -> positive_from b' x.
Proof. intros Hb [->|(m & e & -> & He)]; [by left|right]. exists m, e. split; [done|lia]. Qed.

Lemma round_positive m e l : 0 < m -> -100 <= e -> positive_from e (binary_round_aux 24 128 false m e l).
Proof.
  intros Hm He. unfold binary_round_aux. destruct (shr_fexp_positive m e l Hm He) as [H1 H2].
  destruct (shr_fexp 24 128 m e l) as [mrs e1]. cbn [fst snd] in *.
  pose proof (round_even_le (shr_m mrs) (loc_of_shr_record mrs)) as Hr.
  destruct (shr_fexp_positive (round_nearest_even (shr_m mrs) (loc_of_shr_record mrs)) e1 loc_Exact ltac:(lia) ltac:(lia)) as [H3 H4].
  destruct (shr_fexp 24 128 _ e1 loc_Exact) as [mrs2 e2]. cbn [fst snd] in *.
  destruct (shr_m mrs2); [lia| |lia]. destruct (_ <=? _); [right|by left]. eexists _, _. split; [reflexivity|lia].
Qed.

(** Rounding gives NaN for no mantissa. *)
Lemma round_not_nan s m e l : 0 <= m -> f_is_nan (binary_round_aux 24 128 s m e l) = false.
Proof.
  intros Hm. unfold binary_round_aux. destruct (shr_fexp_m m e l Hm) as [H1 _].
  destruct (shr_fexp 24 128 m e l) as [mrs e1]. cbn [fst] in *.
  assert (H2 : 0 <= shr_m mrs) by (rewrite H1; apply Z.div_pos; [done|apply Z.pow_pos_nonneg; lia]).
  pose proof (round_even_le (shr_m mrs) (loc_of_shr_record mrs)) as Hr.
  destruct (shr_fexp_m (round_nearest_even (shr_m mrs) (loc_of_shr_record mrs)) e1 loc_Exact ltac:(lia)) as [H3 _].
  destruct (shr_fexp 24 128 _ e1 loc_Exact) as [mrs2 e2]. cbn [fst] in *.
  assert (0 <= shr_m mrs2) by (rewrite H3; apply Z.div_pos; [lia|apply Z.pow_pos_nonneg; lia]).
  destruct (shr_m mrs2); [done| |lia]. by destruct (_ <=? _).
Qed.

(** * Integers and operations *)

Lemma digits_shift p k : Z.pos (digits2_pos (Pos.iter xO p k)) = Z.pos (digits2_pos p) + Z.pos k.
Proof.
  induction k as [|k IH] using Pos.peano_ind; [cbn; lia|]. rewrite Pos.iter_succ. cbn [digits2_pos]. rewrite !Pos2Z.inj_succ, IH. lia.
Qed.

Lemma shr_fexp_exact m e : 0 < m -> fexp32 (Zdigits2 m + e) = e -> shr_fexp 24 128 m e loc_Exact = (shr_record_of_loc m loc_Exact, e).
Proof. intros Hm He. unfold shr_fexp. by rewrite He, Z.sub_diag. Qed.

(** A mantissa of the width of the format is not changed. *)
Lemma round_exact s p e : fexp32 (Z.pos (digits2_pos p) + e) = e -> e <= 104 -> binary_round_aux 24 128 s (Z.pos p) e loc_Exact = S754_finite s p e.
Proof.
  intros He Hle. unfold binary_round_aux. rewrite shr_fexp_exact by (done || lia). cbn [shr_record_of_loc shr_m loc_of_shr_record round_nearest_even].
  rewrite shr_fexp_exact by (done || lia). cbn [shr_record_of_loc shr_m]. by rewrite (proj2 (Z.leb_le _ _)) by lia.
Qed.

(** Integers of up to 24 bits are exact. *)
Lemma round_integer s p : Z.pos p < 2 ^ 24 -> exists m e, binary_round 24 128 s p 0 = S754_finite s m e /\ -23 <= e <= 0.
Proof.
  intros Hp. assert (Hd : Z.pos (digits2_pos p) <= 24).
  { pose proof (digits_lower p) as Hl. assert (Z.pos (digits2_pos p) - 1 < 24); [|lia]. apply (Z.pow_lt_mono_r_iff 2); lia. }
  unfold binary_round, shl_align. set (d := Z.pos (digits2_pos p)) in *. rewrite Z.add_0_r, Z.sub_0_r.
  assert (Hf : fexp32 d = d - 24) by (unfold fexp, emin; lia). rewrite Hf.
  destruct (d - 24) as [|k|k] eqn:E; [| lia|].
  - exists p, 0. split; [|lia]. apply round_exact; [|lia]. fold d. rewrite Z.add_0_r, Hf. lia.
  - exists (Pos.iter xO p k), (Z.neg k). split; [|lia]. apply round_exact; [|lia]. rewrite digits_shift. fold d.
    replace (d + Z.pos k + Z.neg k) with d by lia. by rewrite Hf.
Qed.

Lemma f_of_Z_positive z : 0 < z < 2 ^ 24 -> positive_from (-23) (f_of_Z F32 z).
Proof.
  intros Hz. destruct z as [|p|p]; [lia| |lia]. destruct (round_integer false p ltac:(lia)) as (m & e & He & Hb).
  right. exists m, e. split; [exact He|lia].
Qed.

Lemma f_of_Z_finite z : - 2 ^ 24 < z < 2 ^ 24 -> f_of_Z F32 z = S754_zero false \/ exists s m e, f_of_Z F32 z = S754_finite s m e.
Proof.
  intros Hz. destruct z as [|p|p]; [by left| |]; right.
  - destruct (round_integer false p ltac:(lia)) as (m & e & He & _). by exists false, m, e.
  - destruct (round_integer true p ltac:(lia)) as (m & e & He & _). by exists true, m, e.
Qed.

Lemma f_sqrt_positive x : positive_from (-23) x -> positive_from (-50) (f_sqrt F32 x).
Proof.
  intros [->|(m & e & -> & He)]; [by left|]. change (f_sqrt F32 (S754_finite false m e)) with (SFsqrt 24 128 (S754_finite false m e)).
  unfold SFsqrt, SFsqrt_core_binary. cbn [Zdigits2].
  set (e' := Z.min _ _). assert (He' : -50 <= e' /\ 2 * e' <= e).
  { unfold e', fexp, emin. pose proof (Z.div2_spec e) as H1. pose proof (Z.div2_spec (Z.pos (digits2_pos m) + e + 1)) as H2.
    rewrite Z.shiftr_div_pow2 in H1, H2 by lia. change (2 ^ 1) with 2 in *. rewrite H1, H2. dlia. }
  set (m' := match e - 2 * e' with 0 => Z.pos m | Z.pos _ => Z.shiftl (Z.pos m) (e - 2 * e') | Z.neg _ => 0 end).
  assert (Hm' : 0 < m').
  { unfold m'. destruct (e - 2 * e') as [|p|p] eqn:Es; [done| |lia]. rewrite Z.shiftl_mul_pow2 by lia. apply Z.mul_pos_pos; [done|]. apply Z.pow_pos_nonneg; lia. }
  destruct (Z.sqrtrem m') as [q r] eqn:Eq. apply (positive_mono e'); [lia|]. apply round_positive; [|lia].
  pose proof (Z.sqrtrem_sqrt m') as Hs. rewrite Eq in Hs. cbn in Hs. subst q. by apply Z.sqrt_pos.
Qed.

Lemma f_mul_positive x y : positive_from (-50) x -> positive_from (-50) y -> positive_from (-100) (f_mul F32 x y).
Proof.
  intros [->|(m & e & -> & He)] [->|(m' & e' & -> & He')]; [by left..|].
  change (positive_from (-100) (binary_round_aux 24 128 false (Z.pos (m * m')) (e + e') loc_Exact)).
  apply (positive_mono (e + e')); [lia|]. apply round_positive; lia.
Qed.

(** A finite value over a positive one is a number. *)
Lemma f_div_number x y b : (x = S754_zero false \/ exists s m e, x = S754_finite s m e) -> positive_from b y -> f_is_nan (f_div F32 x y) = false.
Proof.
  intros [->|(s & m & e & ->)] [->|(m' & e' & -> & _)]; [done..|].
  change (f_is_nan (SFdiv 24 128 (S754_finite s m e) (S754_finite false m' e')) = false). unfold SFdiv, SFdiv_core_binary.
  set (s' := _ - Z.min _ _). set (n := match s' with 0 => Z.pos m | Z.pos _ => Z.shiftl (Z.pos m) s' | Z.neg _ => 0 end).
  assert (Hn : 0 <= n).
  { unfold n. destruct s' as [|p|p]; [lia| |lia]. by apply Z.shiftl_nonneg. }
  destruct (Z.div_eucl n (Z.pos m')) as [q r] eqn:Eq. apply round_not_nan.
  assert (q = n / Z.pos m') as -> by (unfold Z.div; by rewrite Eq). apply Z.div_pos; lia.
Qed.

(** * The cosine of two documents *)

(** A vector of the record format with a component that is not zero. *)
Definition nonzero_vector (v : bytes) : Prop := length v = DOC_VECTOR_DIM /\ exists i x, v !! i = Some x /\ component x <> 0.

Lemma component_range x : -128 <= component x < 128.
Proof. unfold component, to_signed, wrap. cbn zeta. change (2 ^ (8 - 1)) with 128. change (2 ^ 8) with 256. destruct (Z.ltb_spec (x mod 256) 128); dlia. Qed.

(** The sums of [i32] stay in their bounds, and a square sum is zero only for the zero vector. *)
Lemma doc_sums_bounds pairs acc :
  let step := fun '(dot, nl, nr, l2) '(l, r) =>
      let l := component l in let r := component r in let delta := l - r in (dot + l * r, nl + l * l, nr + r * r, l2 + delta * delta) in
  let '(dot0, nl0, nr0, _) := acc in
  let '(dot, nl, nr, _) := fold_left step pairs acc in
  Z.abs (dot - dot0) <= 16384 * Z.of_nat (length pairs) /\
  nl0 <= nl <= nl0 + 16384 * Z.of_nat (length pairs) /\ nr0 <= nr <= nr0 + 16384 * Z.of_nat (length pairs) /\
  (forall i p, pairs !! i = Some p -> component p.1 <> 0 -> nl0 < nl) /\ (forall i p, pairs !! i = Some p -> component p.2 <> 0 -> nr0 < nr).
Proof.
  cbn zeta. revert acc. induction pairs as [|[l r] pairs IH]; intros [[[dot0 nl0] nr0] l20]; cbn [fold_left length].
  { repeat split; try lia; by intros [|]. }
  set (acc := (dot0 + component l * component r, nl0 + component l * component l, nr0 + component r * component r,
    l20 + (component l - component r) * (component l - component r))). specialize (IH acc). subst acc. cbn beta iota in IH.
  destruct (fold_left _ pairs _) as [[[dot nl] nr] l2]. destruct IH as (Hd & Hl & Hr & Hzl & Hzr).
  pose proof (component_range l). pose proof (component_range r). set (cl := component l) in *. set (cr := component r) in *.
  assert (-16384 <= cl * cr <= 16384) by nia. assert (0 <= cl * cl <= 16384) by nia. assert (0 <= cr * cr <= 16384) by nia.
  split; [lia|]. split; [lia|]. split; [lia|]. split.
  - intros [|i] p Hi Hp; [|specialize (Hzl i p Hi Hp); lia]. injection Hi as <-. cbn in Hp. fold cl in Hp. nia.
  - intros [|i] p Hi Hp; [|specialize (Hzr i p Hi Hp); lia]. injection Hi as <-. cbn in Hp. fold cr in Hp. nia.
Qed.

Lemma zip_pair (l r : bytes) i x : length l = length r -> l !! i = Some x -> exists y, zip l r !! i = Some (x, y).
Proof.
  intros Hlen Hi. assert (is_Some (r !! i)) as [y Hy] by (apply lookup_lt_is_Some; rewrite <- Hlen; by eapply lookup_lt_Some).
  exists y. apply lookup_zip_with_Some. by exists x, y.
Qed.

Lemma zip_pair_r (l r : bytes) i y : length l = length r -> r !! i = Some y -> exists x, zip l r !! i = Some (x, y).
Proof.
  intros Hlen Hi. assert (is_Some (l !! i)) as [x Hx] by (apply lookup_lt_is_Some; rewrite Hlen; by eapply lookup_lt_Some).
  exists x. apply lookup_zip_with_Some. by exists x, y.
Qed.

(** The score of two vectors that are not zero is a number. *)
Lemma cosine_number left right : nonzero_vector left -> nonzero_vector right -> f_is_nan (ScoreDocToDoc left right Cosine) = false.
Proof.
  intros [Hl (i & x & Hi & Hx)] [Hr (j & y & Hj & Hy)]. unfold ScoreDocToDoc, doc_sums. rewrite take_ge by (rewrite length_zip_with; lia).
  assert (Hlr : length left = length right) by lia.
  pose proof (doc_sums_bounds (zip left right) (0, 0, 0, 0)) as H. cbn beta iota zeta in H.
  destruct (zip_pair left right i x Hlr Hi) as [y' Hi']. destruct (zip_pair_r left right j y Hlr Hj) as [x' Hj'].
  assert (Hlen : Z.of_nat (length (zip left right)) = 128) by (rewrite length_zip_with, Hl, Hr; reflexivity). rewrite Hlen in H.
  destruct (fold_left _ (zip left right) _) as [[[dot nl] nr] l2]. destruct H as (Hd & Hnl & Hnr & Hzl & Hzr).
  specialize (Hzl i _ Hi' Hx). specialize (Hzr j _ Hj' Hy). change (2 ^ 24) with 16777216 in *.
  eapply f_div_number; [apply f_of_Z_finite|apply f_mul_positive; apply f_sqrt_positive, f_of_Z_positive]; change (2 ^ 24) with 16777216; lia.
Qed.

(** With a zero vector it is not: [0 / 0]. *)
Lemma cosine_zero_vector : f_is_nan (ScoreDocToDoc (zeros DOC_VECTOR_DIM) (zeros DOC_VECTOR_DIM) Cosine) = true.
Proof. vm_compute. reflexivity. Qed.
