(* ===== verification/VectorSearch.v ===== *)
(** The neighbour graph of the vector index (VectorIndex): its invariant, which insertion keeps, what the greedy and
    the beam search of a layer find, and what a vector search answers. *)

From Stdlib Require Import ZArith Lia ZifyBool Bool List.
From Stdlib Require Import Floats.SpecFloat.
From stdpp Require Import base list list_numbers gmap sorting.
From S2P Require Import Prelude Floats PostingCodec PostingStore IndexWriter Hashing FileFormat PathSidecar DocData Composites EvalExpression Executor VectorIndex.

Local Open Scope moon_scope.

(** * The invariant of the graph *)

(** A node of the index that takes part in a layer. *)
Definition on_level (v : VectorIndex) (l : nat) (id : Z) : Prop :=
  (0 <= id)%Z /\ exists node, m_Nodes v !! Z.to_nat id = Some node /\ l <= level node.

(** The links of every layer are distinct nodes of that layer, no more than the index allows. *)
Record links_ok (v : VectorIndex) : Prop := {
  lo_layout : layout v;
  lo_links : forall i node l, m_Nodes v !! i = Some node -> l <= level node ->
    exists links, slot_links v (slot v i l) = Some links /\ length links <= m_MaxNeighbors v /\ NoDup links /\ Forall (on_level v l) links;
}.

(** The entry point is a node of the top layer. *)
Record graph_ok (v : VectorIndex) : Prop := {
  go_links : links_ok v;
  go_levels : Forall (fun node => level node <= m_MaxLevel v) (m_Nodes v);
  go_entry : match m_Nodes v with [] => m_EntryPoint v = u32_max | _ => on_level v (m_MaxLevel v) (m_EntryPoint v) end;
  go_top : m_MaxLevel v <= 16;
  go_size : (Z.of_nat (length (m_Nodes v)) <= u32_max)%Z;
}.

Lemma on_level_le v l l' id : l' <= l -> on_level v l id -> on_level v l' id.
Proof. intros Hl (H0 & node & Hn & Hlev). split; [done|]. exists node. split; [done|lia]. Qed.

Lemma on_level_same v v' l id : same_nodes v v' -> on_level v l id -> on_level v' l id.
Proof. intros Hs (H0 & node & Hn & Hlev). split; [done|]. exists node. by rewrite (sn_nodes _ _ Hs). Qed.

Lemma on_level_lt v l id : on_level v l id -> (0 <= id < Z.of_nat (length (m_Nodes v)))%Z.
Proof. intros (H0 & node & Hn & _). apply lookup_lt_Some in Hn. lia. Qed.

Lemma Neighbors_ok v l id : links_ok v -> on_level v l id ->
  exists links, Neighbors v id l = Some links /\ length links <= m_MaxNeighbors v /\ NoDup links /\ Forall (on_level v l) links.
Proof.
  intros Hv (H0 & node & Hn & Hl). destruct (lo_links _ Hv _ _ _ Hn Hl) as (links & Hs & Hrest).
  exists links. split; [|exact Hrest]. by rewrite (Neighbors_slot v (lo_layout _ Hv) id node l Hn Hl).
Qed.

Lemma filter_length_lt {A} (P Q : A -> Prop) `{forall x, Decision (P x)} `{forall x, Decision (Q x)} l x :
  (forall y, P y -> Q y) -> x ∈ l -> Q x -> ~ P x -> length (filter P l) < length (filter Q l).
Proof.
  intros Hpq Hx Hqx Hpx. assert (Hle : forall l', length (filter P l') <= length (filter Q l')).
  { induction l' as [|y l' IH]; [done|]. rewrite !filter_cons. destruct (decide (P y)), (decide (Q y)); cbn; try lia. exfalso. auto. }
  induction l as [|y l IH]; [by apply not_elem_of_nil in Hx|]. rewrite !filter_cons. apply elem_of_cons in Hx as [->|Hx].
  - rewrite decide_False, decide_True by done. cbn. specialize (Hle l). lia.
  - specialize (IH Hx). destruct (decide (P y)), (decide (Q y)); cbn; try lia. exfalso. auto.
Qed.

(** * The searches of a layer *)

Section layer.
Context (v : VectorIndex) (score_of : Z -> option f32) (l : nat).
Hypothesis Hv : links_ok v.
Hypothesis Hscore : forall id, on_level v l id -> exists s, score_of id = Some s /\ f_is_nan s = false.

(** A node of the layer with its score. *)
Definition scored_ok (n : ScoredNode) : Prop := on_level v l (node_id n) /\ score_of (node_id n) = Some (score n).

Lemma scored_numeric n : scored_ok n -> f_is_nan (score n) = false.
Proof. intros [Hl Hs]. destruct (Hscore _ Hl) as (s & Hs' & Hn). congruence. Qed.

Lemma scores_numeric ns : Forall scored_ok ns -> numeric ns.
Proof. intros H. eapply Forall_impl; [exact H|exact scored_numeric]. Qed.

(** No node of the list has a higher score. *)
Definition no_better (s : f32) (ids : list Z) : Prop :=
  Forall (fun id => forall s', score_of id = Some s' -> ~ key_lt (f_key s) (f_key s')) ids.

Lemma greedy_fold neighbors st : scored_ok st.1 -> Forall (on_level v l) neighbors ->
  exists r, fold_option (greedy_step score_of) neighbors st = Some r /\ scored_ok r.1 /\
    (r = st /\ no_better (score st.1) neighbors \/ r.2 = true /\ key_lt (f_key (score st.1)) (f_key (score r.1))).
Proof.
  revert st. induction neighbors as [|n ns IH]; intros st Hst Hns; cbn [fold_option].
  { exists st. repeat split; [apply Hst..|]. left. by split; [|constructor]. }
  inversion Hns as [|? ? Hn Hns']; subst. destruct (Hscore n Hn) as (s & Hs & Hnan). unfold greedy_step at 1. rewrite Hs. cbn.
  pose proof (f_gt_key s (score st.1) Hnan (scored_numeric _ Hst)) as Hgt. destruct (f_gt s (score st.1)).
  - destruct (IH ({| score := s; node_id := n |}, true)) as (r & Hr & Hok & Hcase); [by split|done|].
    exists r. split; [done|]. split; [done|]. right. assert (key_lt (f_key (score st.1)) (f_key s)) as Hlt by by apply Hgt.
    destruct Hcase as [[-> _]|[H1 H2]]; [by split|]. split; [done|]. cbn in H2. unfold key_lt in *. lia.
  - destruct (IH st Hst Hns') as (r & Hr & Hok & Hcase). exists r. split; [done|]. split; [done|].
    destruct Hcase as [[-> Hnb]|Hr2]; [left|by right]. split; [done|]. constructor; [|done].
    intros s' Hs'. assert (s' = s) as -> by congruence. intros Hlt. by apply Hgt in Hlt.
Qed.

Definition score_key (id : Z) : Z * Z * Z := f_key (default (f_of_Z F32 0) (score_of id)).

Lemma key_lt_irrefl k : ~ key_lt k k.
Proof. unfold key_lt. lia. Qed.

(** The nodes of the layer with a higher score. *)
Definition better (s : f32) : nat := length (filter (fun id => key_lt (f_key s) (score_key id)) (map Z.of_nat (seq 0 (length (m_Nodes v))))).

Lemma on_level_seq id : on_level v l id -> id ∈ map Z.of_nat (seq 0 (length (m_Nodes v))).
Proof. intros H%on_level_lt. apply list_elem_of_In, in_map_iff. exists (Z.to_nat id). split; [lia|]. apply in_seq. lia. Qed.

Lemma GreedySearchLayer_loop_ok fuel b : scored_ok b -> better (score b) < fuel ->
  exists id s neighbors, GreedySearchLayer_loop v score_of fuel b l = Some id /\ on_level v l id /\ score_of id = Some s /\
    ~ key_lt (f_key s) (f_key (score b)) /\ Neighbors v id l = Some neighbors /\ no_better s neighbors.
Proof.
  revert b. induction fuel as [|fuel IH]; intros b Hb Hf; [lia|]. cbn.
  destruct (Neighbors_ok v l (node_id b) Hv (proj1 Hb)) as (neighbors & Hn & _ & _ & Hall). rewrite Hn. cbn.
  destruct (greedy_fold neighbors (b, false) Hb Hall) as (r & -> & Hok & [[-> Hnb]|[Hr Hlt]]); cbn.
  { exists (node_id b), (score b), neighbors. destruct Hb as [Hb1 Hb2]. exact (conj eq_refl (conj Hb1 (conj Hb2 (conj (key_lt_irrefl _) (conj Hn Hnb))))). }
  rewrite Hr. destruct (IH r.1 Hok) as (id & s & ns & Hg & Hon & Hs & Hge & Hns & Hnb).
  - cut (better (score r.1) < better (score b)); [lia|]. apply (filter_length_lt _ _ _ (node_id r.1)).
    + cbn in Hlt. intros id. unfold key_lt in *. lia.
    + apply on_level_seq, Hok.
    + unfold score_key. by rewrite (proj2 Hok).
    + unfold score_key. rewrite (proj2 Hok). cbn. unfold key_lt. lia.
  - exists id, s, ns. refine (conj Hg (conj Hon (conj Hs (conj _ (conj Hns Hnb))))). cbn in Hlt. unfold key_lt in *. lia.
Qed.

(** The greedy search ends, at a node that none of its neighbours beats and that scores no less than the entry. *)
Lemma GreedySearchLayer_ok entry : on_level v l entry ->
  exists id s neighbors, GreedySearchLayer v score_of entry l = Some id /\ on_level v l id /\ score_of id = Some s /\
    (forall se, score_of entry = Some se -> ~ key_lt (f_key s) (f_key se)) /\ Neighbors v id l = Some neighbors /\ no_better s neighbors.
Proof.
  intros He. destruct (Hscore _ He) as (se & Hse & _). unfold GreedySearchLayer. rewrite Hse. cbn [option_map].
  destruct (GreedySearchLayer_loop_ok (S (length (m_Nodes v))) {| score := se; node_id := entry |}) as (id & s & ns & Hg & Hrest).
  - by split.
  - unfold better. pose proof (length_filter (fun id => key_lt (f_key se) (score_key id)) (map Z.of_nat (seq 0 (length (m_Nodes v))))) as Hle.
    rewrite length_map, length_seq in Hle. cbn. lia.
  - exists id, s, ns. split; [done|]. destruct Hrest as (H1 & H2 & H3 & H4 & H5).
    refine (conj H1 (conj H2 (conj _ (conj H4 H5)))). intros se' [= <-]. done.
Qed.

(** ** The beam search *)

Context {C R : Type} `{HeapC : NodeHeap C, HeapR : NodeHeap R}.
Context {SpecC : NodeHeapSpec C f_gt} {SpecR : NodeHeapSpec R f_lt}.
Context (ef : nat).

(** Nothing in the list scores lower. *)
Definition no_worse (s : f32) (ns : list ScoredNode) : Prop := Forall (fun n => ~ key_lt (f_key (score n)) (f_key s)) ns.

(** A node seen is kept, unless the beam is full and none of it scores lower. *)
Definition kept (results : list ScoredNode) (id : Z) : Prop :=
  id ∈ map node_id results \/ ef <= length results /\ forall s, score_of id = Some s -> no_worse s results.

(** Every neighbour of the node has been seen. *)
Definition expanded (visited : gset Z) (n : ScoredNode) : Prop :=
  exists neighbors, Neighbors v (node_id n) l = Some neighbors /\ Forall (fun id => id ∈ visited) neighbors.

(** Candidates, results and visited nodes, while the neighbours of the node [skip] are being looked at. *)
Record beam_ok (skip : option Z) (candidates results : list ScoredNode) (visited : gset Z) : Prop := {
  bo_candidates : Forall (fun n => scored_ok n /\ node_id n ∈ visited) candidates;
  bo_results : Forall (fun n => scored_ok n /\ node_id n ∈ visited) results;
  bo_distinct : NoDup (map node_id results);
  bo_nonempty : results <> [];
  bo_length : length results <= Nat.max 1 ef;
  bo_visited : forall id, id ∈ visited -> on_level v l id /\ kept results id;
  bo_expanded : Forall (fun n => n ∈ candidates \/ Some (node_id n) = skip \/ expanded visited n) results;
}.

Lemma beam_numeric skip cs rs vis : beam_ok skip cs rs vis -> numeric cs /\ numeric rs.
Proof.
  intros B. split; apply scores_numeric; (eapply Forall_impl; [apply B|]); intros n Hn; apply Hn.
Qed.

(** The least result is read off the heap. *)
Lemma peek_least (h : R) : numeric (nh_items h) -> nh_items h <> [] ->
  exists n, nh_peek h = Some n /\ n ∈ nh_items h /\ no_worse (score n) (nh_items h).
Proof.
  intros Hn Hne. rewrite (nh_peek_pop (NodeHeapSpec := SpecR)). destruct (nh_pop h) as [[n h']|] eqn:Hp.
  - exists n. split; [done|]. pose proof (nh_pop_some h n h' Hp) as Hperm. assert (n ∈ nh_items h) as Hin by (rewrite Hperm; left).
    split; [done|]. pose proof (nh_pop_top h n h' Hp Hn) as Htop. unfold no_worse, numeric in *. rewrite Forall_forall in *.
    intros y Hy Hlt. specialize (Htop y Hy). assert (f_gt (score n) (score y) = true) by (apply f_gt_key; auto). unfold f_gt, f_lt in *. congruence.
  - by apply nh_pop_none in Hp.
Qed.

Lemma kept_perm rs rs' id : rs ≡ₚ rs' -> kept rs id -> kept rs' id.
Proof.
  intros Hp [Hin|[Hle Hs]]; [left; by rewrite <- Hp|right]. split; [by rewrite <- Hp|]. intros s Hs'. unfold no_worse. rewrite <- Hp. by apply Hs.
Qed.

Lemma expanded_mono vis vis' n : vis ⊆ vis' -> expanded vis n -> expanded vis' n.
Proof. intros Hs (ns & Hn & Hall). exists ns. split; [done|]. eapply Forall_impl; [exact Hall|]. intros id Hid. by apply Hs. Qed.

(** A seen node that does not beat the full beam leaves it as it is. *)
Lemma beam_skip skip cs rs vis n s p : beam_ok skip cs rs vis -> on_level v l n -> score_of n = Some s ->
  ef <= length rs -> no_worse (score p) rs -> ~ key_lt (f_key (score p)) (f_key s) -> beam_ok skip cs rs ({[n]} ∪ vis).
Proof.
  intros B Hl Hs Hfull Hp Hps.
  assert (Hv1 : forall ns, Forall (fun n => scored_ok n /\ node_id n ∈ vis) ns -> Forall (fun m => scored_ok m /\ node_id m ∈ ({[n]} ∪ vis : gset Z)) ns).
  { intros ns H. eapply Forall_impl; [exact H|]. intros m [? ?]. split; [done|set_solver]. }
  destruct B. split; auto.
  - intros id [->%elem_of_singleton|Hid]%elem_of_union; [|by apply bo_visited0]. split; [done|]. right. split; [done|].
    intros s' Hs'. assert (s' = s) as -> by congruence. eapply Forall_impl; [exact Hp|]. cbn. unfold key_lt in *. lia.
  - eapply Forall_impl; [exact bo_expanded0|]. intros m [?|[?|He]]; auto. right. right. eapply expanded_mono; [|exact He]. set_solver.
Qed.

(** A node is pushed on the beam, and the worst one may leave it. *)
Definition pushed (node : ScoredNode) (rs rs' : list ScoredNode) : Prop :=
  rs' ≡ₚ node :: rs /\ length rs < ef \/ (exists x, node :: rs ≡ₚ x :: rs' /\ no_worse (score x) (node :: rs) /\ ef <= length rs).

Lemma kept_push node rs rs' id : scored_ok node -> Forall scored_ok rs ->
  length rs < ef \/ (exists p, p ∈ rs /\ key_lt (f_key (score p)) (f_key (score node))) ->
  id = node_id node \/ kept rs id -> pushed node rs rs' -> kept rs' id.
Proof.
  intros Hn Hrs Hwhy Hid [[Hp Hlt]|(x & Hp & Hx & Hle)].
  { left. rewrite Hp. cbn. destruct Hid as [->|[Hin|[? _]]]; [left|by right|lia]. }
  pose proof (Permutation_length Hp) as Hlen. cbn in Hlen.
  assert (Hin : id ∈ map node_id (node :: rs) -> kept rs' id).
  { rewrite Hp. cbn. intros [->|?]%elem_of_cons; [right|by left]. split; [lia|]. intros s Hs.
    assert (scored_ok x) as [_ Hsx] by (assert (Forall scored_ok (x :: rs')) as HF by (rewrite <- Hp; by constructor); by inversion HF).
    assert (s = score x) as -> by congruence. unfold no_worse in Hx. rewrite Hp in Hx. by inversion Hx. }
  destruct Hid as [->|[Hold|[_ Hall]]]; [apply Hin; left|apply Hin; by right|right]. split; [lia|]. intros s Hs. specialize (Hall s Hs).
  assert (HF : no_worse s (node :: rs)).
  { constructor; [|done]. destruct Hwhy as [?|(p & Hpin & Hlt)]; [lia|]. unfold no_worse in Hall. rewrite Forall_forall in Hall.
    specialize (Hall p Hpin). unfold key_lt in *. lia. }
  unfold no_worse in HF. rewrite Hp in HF. by inversion HF.
Qed.

Lemma beam_push skip cs rs vis node cs' rs' : beam_ok skip cs rs vis -> scored_ok node -> node_id node ∉ vis ->
  length rs < ef \/ (exists p, p ∈ rs /\ key_lt (f_key (score p)) (f_key (score node))) -> cs' ≡ₚ node :: cs ->
  pushed node rs rs' -> beam_ok skip cs' rs' ({[node_id node]} ∪ vis).
Proof.
  intros B Hn Hnew Hwhy Hcs Hrs.
  set (vis' := {[node_id node]} ∪ vis : gset Z).
  assert (Hsub : forall m, m ∈ rs' -> m = node \/ m ∈ rs).
  { intros m Hm. apply elem_of_cons. destruct Hrs as [[Hp _]|(x & Hp & _)]; [by rewrite <- Hp|rewrite Hp; by right]. }
  assert (Hnode : scored_ok node /\ node_id node ∈ vis') by (split; [done|set_solver]).
  assert (Hall : NoDup (map node_id (node :: rs))).
  { cbn. constructor; [|apply B]. intros Hin. apply list_elem_of_fmap in Hin as (m & He & Hm). apply Hnew. rewrite He.
    pose proof (bo_results _ _ _ _ B) as Hr. rewrite Forall_forall in Hr. by apply Hr. }
  assert (Hlen : length rs' = S (length rs) /\ length rs < ef \/ length rs' = length rs /\ ef <= length rs).
  { destruct Hrs as [[Hp ?]|(x & Hp & _ & ?)]; apply Permutation_length in Hp; cbn in Hp; [left|right]; lia. }
  pose proof (bo_length _ _ _ _ B). pose proof (bo_nonempty _ _ _ _ B) as Hne.
  split.
  - rewrite Hcs. constructor; [done|]. eapply Forall_impl; [apply B|]. intros m [? ?]. split; [done|set_solver].
  - rewrite Forall_forall. intros m [->|Hm]%Hsub; [done|]. pose proof (bo_results _ _ _ _ B) as Hr. rewrite Forall_forall in Hr.
    destruct (Hr _ Hm). split; [done|set_solver].
  - destruct Hrs as [[Hp _]|(x & Hp & _)].
    + by rewrite Hp.
    + rewrite Hp in Hall. cbn in Hall. by apply NoDup_cons in Hall as [_ ?].
  - intros ->. destruct rs; cbn in *; [done|lia].
  - lia.
  - intros id Hid. assert (id = node_id node \/ on_level v l id /\ kept rs id) as Hcase.
    { apply elem_of_union in Hid as [->%elem_of_singleton|Hid]; [by left|right]. by apply (bo_visited _ _ _ _ B). }
    split; [destruct Hcase as [->|[? _]]; [apply Hn|done]|]. apply (kept_push node rs); [done| |done|tauto|done].
    eapply Forall_impl; [apply B|]. by intros m [? _].
  - rewrite Forall_forall. intros m [->|Hm]%Hsub; [left; rewrite Hcs; left|]. pose proof (bo_expanded _ _ _ _ B) as Hr.
    rewrite Forall_forall in Hr. destruct (Hr _ Hm) as [?|[?|He]]; [left; rewrite Hcs; by right|auto|].
    right. right. eapply expanded_mono; [|exact He]. set_solver.
Qed.

(** Pushing on the result heap, and popping its least node when it is over the limit. *)
Lemma push_results node (r : R) : scored_ok node -> Forall scored_ok (nh_items r) ->
  pushed node (nh_items r)
    (nh_items (let r' := nh_push node r in if ef <? nh_len r' then match nh_pop r' with Some (_, r'') => r'' | None => r' end else r')).
Proof.
  intros Hn Hr. cbn zeta. pose proof (nh_push_items (NodeHeapSpec := SpecR) node r) as Hpush.
  rewrite (nh_len_items (NodeHeapSpec := SpecR)). pose proof (Permutation_length Hpush) as Hlen. cbn in Hlen.
  destruct (Nat.ltb_spec ef (length (nh_items (nh_push node r)))) as [Hlt|Hge]; [|left; split; [done|lia]].
  destruct (nh_pop (nh_push node r)) as [[x r'']|] eqn:Hp.
  - right. exists x. assert (Hnum : numeric (nh_items (nh_push node r))).
    { unfold numeric. rewrite Hpush. apply (scores_numeric (node :: nh_items r)). by constructor. }
    pose proof (nh_pop_some (NodeHeapSpec := SpecR) _ _ _ Hp) as Hp'. split; [by rewrite <- Hpush|]. split; [|lia].
    pose proof (nh_pop_top (NodeHeapSpec := SpecR) _ _ _ Hp Hnum) as Htop. unfold no_worse. rewrite <- Hpush.
    unfold numeric in Hnum. rewrite Forall_forall in *. intros y Hy Hlow. specialize (Htop y Hy).
    assert (x ∈ nh_items (nh_push node r)) as Hx by (rewrite Hp'; left).
    assert (f_gt (score x) (score y) = true) by (apply f_gt_key; auto). unfold f_gt, f_lt in *. congruence.
  - apply (nh_pop_none (NodeHeapSpec := SpecR)) in Hp. rewrite Hp in Hlen. done.
Qed.

Lemma beam_scored skip cs rs vis : beam_ok skip cs rs vis -> Forall scored_ok cs /\ Forall scored_ok rs.
Proof. intros B. split; (eapply Forall_impl; [apply B|]); by intros m [? _]. Qed.

Lemma visit_ok skip (c : C) (r : R) vis n : beam_ok skip (nh_items c) (nh_items r) vis -> on_level v l n ->
  exists c' r', visit score_of ef (c, r, vis) n = Some (c', r', {[n]} ∪ vis) /\
    beam_ok skip (nh_items c') (nh_items r') ({[n]} ∪ vis) /\
    length (nh_items c') + size vis <= length (nh_items c) + size ({[n]} ∪ vis).
Proof.
  intros B Hl. unfold visit. destruct (decide (n ∈ vis)) as [Hin|Hnew].
  { assert ({[n]} ∪ vis = vis) as -> by set_solver. by exists c, r. }
  destruct (Hscore n Hl) as (s & Hs & Hnan). rewrite Hs. cbn [option_map].
  destruct (beam_scored _ _ _ _ B) as [_ Hrok]. pose proof (scores_numeric _ Hrok) as Hnum.
  destruct (peek_least r Hnum (bo_nonempty _ _ _ _ B)) as (p & Hpeek & Hpin & Hleast). rewrite Hpeek, (nh_len_items (NodeHeapSpec := SpecR)).
  assert (Hpnan : f_is_nan (score p) = false) by (unfold numeric in Hnum; rewrite Forall_forall in Hnum; auto).
  pose proof (f_gt_key s (score p) Hnan Hpnan) as Hgt.
  assert (Hsize : size ({[n]} ∪ vis) = S (size vis)) by (rewrite size_union, size_singleton by set_solver; lia).
  destruct ((length (nh_items r) <? ef) || f_gt s (score p)) eqn:E.
  - eexists _, _. split; [reflexivity|]. set (node := {| score := s; node_id := n |}). assert (Hok : scored_ok node) by by split.
    pose proof (nh_push_items (NodeHeapSpec := SpecC) node c) as Hpush. split.
    + apply (beam_push skip (nh_items c) (nh_items r) vis node); [done..| |done|by apply push_results].
      apply orb_true_iff in E as [E1%Nat.ltb_lt|E1]; [by left|right]. exists p. split; [done|]. by apply Hgt.
    + apply Permutation_length in Hpush. cbn in Hpush. lia.
  - apply orb_false_iff in E as [E1%Nat.ltb_ge E2]. exists c, r. split; [reflexivity|]. split; [|lia].
    eapply (beam_skip skip _ _ vis n s p); try done. intros Hlt. apply Hgt in Hlt. congruence.
Qed.

Lemma visits_ok skip neighbors (c : C) (r : R) vis : beam_ok skip (nh_items c) (nh_items r) vis -> Forall (on_level v l) neighbors ->
  exists c' r', fold_option (visit score_of ef) neighbors (c, r, vis) = Some (c', r', list_to_set neighbors ∪ vis) /\
    beam_ok skip (nh_items c') (nh_items r') (list_to_set neighbors ∪ vis) /\
    length (nh_items c') + size vis <= length (nh_items c) + size (list_to_set neighbors ∪ vis : gset Z).
Proof.
  revert c r vis. induction neighbors as [|n ns IH]; intros c r vis B Hns; cbn [fold_option list_to_set].
  { exists c, r. assert (∅ ∪ vis = vis) as -> by set_solver. done. }
  inversion Hns as [|? ? Hn Hns']; subst. destruct (visit_ok skip c r vis n B Hn) as (c1 & r1 & -> & B1 & Hle1).
  destruct (IH c1 r1 _ B1 Hns') as (c2 & r2 & -> & B2 & Hle2). exists c2, r2.
  assert (list_to_set ns ∪ ({[n]} ∪ vis) = {[n]} ∪ list_to_set ns ∪ vis) as <- by set_solver. split; [done|]. split; [done|lia].
Qed.

(** The neighbours of the skipped node have been looked at. *)
Lemma beam_unskip id cs rs vis : beam_ok (Some id) cs rs vis -> (forall n, node_id n = id -> expanded vis n) -> beam_ok None cs rs vis.
Proof.
  intros B He. destruct B. split; try done. eapply Forall_impl; [exact bo_expanded0|]. intros n [?|[[= Hn]|?]]; auto.
Qed.

(** The candidates left are all worse than the beam, hence not in it. *)
Lemma beam_stop cs rs vis : beam_ok None cs rs vis -> (forall n, n ∈ rs -> n ∉ cs) -> beam_ok None [] rs vis.
Proof.
  intros B Hn. destruct B. split; try done. rewrite Forall_forall in *. intros n Hin. destruct (bo_expanded0 n Hin) as [?|[?|?]]; auto.
  by destruct (Hn n Hin).
Qed.

Lemma beam_pop current cs cs' rs vis : beam_ok None cs rs vis -> cs ≡ₚ current :: cs' -> beam_ok (Some (node_id current)) cs' rs vis.
Proof.
  intros B Hp. destruct B. split; try done.
  - rewrite Hp in bo_candidates0. by inversion bo_candidates0.
  - eapply Forall_impl; [exact bo_expanded0|]. intros n [Hin|[?|?]]; [|done|auto]. rewrite Hp in Hin.
    apply elem_of_cons in Hin as [->|?]; auto.
Qed.

Lemma visited_size (vis : gset Z) : (forall id, id ∈ vis -> on_level v l id) -> size vis <= length (m_Nodes v).
Proof.
  intros Hl. rewrite <- (length_seq (length (m_Nodes v)) 0) at 1. rewrite <- (length_map Z.of_nat).
  rewrite <- (size_list_to_set (C := gset Z)).
  - apply subseteq_size. intros id Hid. apply elem_of_list_to_set, on_level_seq, Hl, Hid.
  - apply (NoDup_fmap_2 Z.of_nat), NoDup_seq.
Qed.

Lemma SearchLayer_loop_ok fuel (c : C) (r : R) vis : beam_ok None (nh_items c) (nh_items r) vis ->
  length (nh_items c) + (length (m_Nodes v) - size vis) < fuel ->
  exists r' vis', SearchLayer_loop v score_of ef fuel (c, r, vis) l = Some r' /\ beam_ok None [] (nh_items r') vis' /\ vis ⊆ vis'.
Proof.
  revert c r vis. induction fuel as [|fuel IH]; intros c r vis B Hf; [lia|]. cbn [SearchLayer_loop].
  destruct (nh_pop c) as [[current c']|] eqn:Hp.
  2:{ apply (nh_pop_none (NodeHeapSpec := SpecC)) in Hp. rewrite Hp in B. by exists r, vis. }
  destruct (beam_numeric _ _ _ _ B) as [Hcn Hrn]. pose proof (nh_pop_top (NodeHeapSpec := SpecC) _ _ _ Hp Hcn) as Htop.
  apply (nh_pop_some (NodeHeapSpec := SpecC)) in Hp.
  destruct (peek_least r Hrn (bo_nonempty _ _ _ _ B)) as (p & -> & Hpin & Hleast).
  unfold numeric, no_worse in *. rewrite Forall_forall in Hcn, Hrn, Htop, Hleast.
  assert (Hcur : current ∈ nh_items c) by (rewrite Hp; left).
  destruct (f_lt (score current) (score p)) eqn:E.
  { exists r, vis. split; [done|]. split; [|done]. apply (beam_stop (nh_items c)); [done|]. intros n Hn Hnc.
    assert (key_lt (f_key (score current)) (f_key (score p))) by (apply f_gt_key; auto).
    specialize (Hleast n Hn). specialize (Htop n Hnc).
    assert (~ key_lt (f_key (score current)) (f_key (score n))) by (rewrite <- f_gt_key by auto; congruence).
    unfold key_lt in *. lia. }
  assert (Hon : on_level v l (node_id current)).
  { pose proof (proj1 (beam_scored _ _ _ _ B)) as Hs. rewrite Forall_forall in Hs. by apply Hs. }
  destruct (Neighbors_ok v l _ Hv Hon) as (ns & Hns & _ & _ & Hall). rewrite Hns.
  destruct (visits_ok _ ns c' r vis (beam_pop _ _ _ _ _ B Hp) Hall) as (c2 & r2 & -> & B2 & Hle).
  apply Permutation_length in Hp. cbn in Hp. pose proof (visited_size _ (fun id Hid => proj1 (bo_visited _ _ _ _ B2 id Hid))).
  destruct (IH c2 r2 (list_to_set ns ∪ vis)) as (r' & vis' & Hr & Hd & Hsub).
  - apply (beam_unskip _ _ _ _ B2). intros n Hn. exists ns. rewrite Hn. split; [done|]. rewrite Forall_forall. set_solver.
  - lia.
  - exists r', vis'. split; [done|]. split; [done|]. set_solver.
Qed.

(** What the beam search of a layer gives: its nodes, in order, and how complete it is. *)
Record layer_found (entry : Z) (ns : list ScoredNode) : Prop := {
  lf_scored : Forall scored_ok ns;
  lf_distinct : NoDup (map node_id ns);
  lf_sorted : StronglySorted ranked ns;
  lf_nonempty : ns <> [];
  lf_length : length ns <= Nat.max 1 ef;
  lf_entry : kept ns entry;
  lf_closed : forall n neighbors id, n ∈ ns -> Neighbors v (node_id n) l = Some neighbors -> id ∈ neighbors -> kept ns id;
}.

Lemma SearchLayer_ok entry : on_level v l entry ->
  exists ns, SearchLayer v score_of (C := C) (R := R) ef entry l = Some ns /\ layer_found entry ns.
Proof.
  intros He. destruct (Hscore _ He) as (s & Hs & _). unfold SearchLayer. rewrite Hs. set (node := {| score := s; node_id := entry |}).
  assert (Hc : nh_items (nh_push node nh_new : C) = [node]).
  { apply Permutation_singleton_r. rewrite (nh_push_items (NodeHeapSpec := SpecC)), (nh_new_items (NodeHeapSpec := SpecC)). done. }
  assert (Hr : nh_items (nh_push node nh_new : R) = [node]).
  { apply Permutation_singleton_r. rewrite (nh_push_items (NodeHeapSpec := SpecR)), (nh_new_items (NodeHeapSpec := SpecR)). done. }
  destruct (SearchLayer_loop_ok (S (S (length (m_Nodes v)))) (nh_push node nh_new) (nh_push node nh_new) {[entry]}) as (r & vis & Hloop & B & Hsub).
  - rewrite Hc, Hr. assert (Forall (fun n => scored_ok n /\ node_id n ∈ ({[entry]} : gset Z)) [node]).
    { constructor; [|done]. split; [by split|]. cbn. set_solver. }
    split; try done; [apply NoDup_singleton|cbn; lia| |].
    + intros id ->%elem_of_singleton. split; [done|]. left. cbn. left.
    + constructor; [|done]. left. left.
  - rewrite Hc. cbn. lia.
  - rewrite Hloop. destruct (sort_nodes_ok (nh_items r) (scores_numeric _ (proj2 (beam_scored _ _ _ _ B)))) as (ns & -> & Hp & Hsort).
    exists ns. split; [done|]. symmetry in Hp. split; rewrite <- ?Hp; try apply B; try done.
    + apply (beam_scored _ _ _ _ B).
    + intros ->. apply Permutation_nil_r in Hp. by apply (bo_nonempty _ _ _ _ B).
    + eapply kept_perm; [exact Hp|]. apply B. set_solver.
    + intros n ns' id Hn Hns Hid. eapply kept_perm; [exact Hp|]. apply (bo_visited _ _ _ _ B). rewrite <- Hp in Hn.
      pose proof (bo_expanded _ _ _ _ B) as He'. rewrite Forall_forall in He'.
      destruct (He' n Hn) as [Hnil|[?|(ns2 & Hns2 & Hall)]]; [by apply not_elem_of_nil in Hnil|done|].
      rewrite Forall_forall in Hall. apply Hall. congruence.
Qed.
End layer.

(** * Searching the index *)

(** [r] is the result of a node. *)
Definition node_result (v : VectorIndex) (query : list f32) (metric : VectorMetric) (id : Z) (r : VectorSearchResult) : Prop :=
  m_DocIds v !! Z.to_nat id = Some (vsr_doc_id r) /\ ScoreQuery v query metric id = Some (vsr_score r).

(** Best scores first, and lower documents first among equals. *)
Definition before (a b : VectorSearchResult) : Prop :=
  key_lt (f_key (vsr_score b)) (f_key (vsr_score a)) \/ f_key (vsr_score a) = f_key (vsr_score b) /\ (vsr_doc_id a <= vsr_doc_id b)%Z.

(** The results of the nodes, in that order. *)
Definition ranking_of (v : VectorIndex) (query : list f32) (metric : VectorMetric) (ids : list Z) (rs : list VectorSearchResult) : Prop :=
  (exists ids', ids' ≡ₚ ids /\ Forall2 (node_result v query metric) ids' rs) /\ StronglySorted before rs.

(** The nodes that links of a layer lead to. *)
Inductive reachable (v : VectorIndex) (l : nat) (entry : Z) : Z -> Prop :=
  | reach_entry : reachable v l entry entry
  | reach_link id id' neighbors : reachable v l entry id -> Neighbors v id l = Some neighbors -> id' ∈ neighbors -> reachable v l entry id'.

Lemma reachable_on_level v l entry id : links_ok v -> on_level v l entry -> reachable v l entry id -> on_level v l id.
Proof.
  intros Hv He. induction 1 as [|id id' ns _ IH Hns Hin]; [done|]. destruct (Neighbors_ok v l id Hv IH) as (ns' & Hns' & _ & _ & Hall).
  rewrite Forall_forall in Hall. apply Hall. congruence.
Qed.

(** A beam as large as the index finds everything that can be reached. *)
Lemma layer_found_reachable v score_of l ef entry ns id : links_ok v -> layer_found v score_of l ef entry ns ->
  length (m_Nodes v) <= ef -> on_level v l entry -> reachable v l entry id -> id ∈ map node_id ns.
Proof.
  intros Hv F Hef He. assert (Hkept : forall id', on_level v l id' -> kept score_of ef ns id' -> id' ∈ map node_id ns).
  { intros id' Hl [?|[Hlen _]]; [done|].
    assert (Hsub : map node_id ns ⊆+ map Z.of_nat (seq 0 (length (m_Nodes v)))).
    { apply NoDup_submseteq; [apply F|]. intros x Hx. apply list_elem_of_fmap in Hx as (n & -> & Hn).
      pose proof (lf_scored _ _ _ _ _ _ F) as Hs. rewrite Forall_forall in Hs. apply (on_level_seq v l), Hs, Hn. }
    apply submseteq_length_Permutation in Hsub; [|rewrite !length_map, length_seq; lia]. rewrite Hsub. by apply (on_level_seq v l). }
  intros Hr. pose proof (reachable_on_level v l entry id Hv He Hr) as Hl. revert Hl. induction Hr as [|id id' ns' Hr IH Hns Hin]; intros Hl.
  - apply Hkept; [done|]. apply F.
  - apply Hkept; [done|]. assert (id ∈ map node_id ns) as Hid by (apply IH; exact (reachable_on_level v l entry id Hv He Hr)).
    apply list_elem_of_fmap in Hid as (n & -> & Hn). by eapply (lf_closed _ _ _ _ _ _ F).
Qed.

(** Level after level, the greedy search keeps the entry on the next one. *)
Lemma descend_ok v score_of top bottom entry : links_ok v -> on_level v top entry -> 1 <= bottom -> bottom <= S top ->
  (forall id, on_level v bottom id -> exists s, score_of id = Some s /\ f_is_nan s = false) ->
  exists id, fold_option (fun entry l => GreedySearchLayer v score_of entry l) (levels_down bottom top) entry = Some id /\ on_level v (bottom - 1) id.
Proof.
  intros Hv He Hb Hle Hs. revert entry He. unfold levels_down. remember (S top - bottom) as n eqn:En. revert top En Hle.
  induction n as [|n IH]; intros top En Hle entry He.
  { exists entry. split; [done|]. eapply on_level_le; [|exact He]. lia. }
  rewrite seq_S, rev_app_distr. cbn [rev app fold_option]. replace (bottom + n) with top by lia.
  destruct (GreedySearchLayer_ok v score_of top Hv) with (entry := entry) as (id & s & ns & -> & Hon & _); [|done|].
  { intros id Hid. apply Hs. eapply on_level_le; [|exact Hid]. lia. }
  destruct top as [|top]; [lia|]. destruct (IH top ltac:(lia) ltac:(lia) id) as (id' & Hid' & Hon').
  - eapply on_level_le; [|exact Hon]. lia.
  - by exists id'.
Qed.

Section searching.
Context (v : VectorIndex) (query : list f32) (metric : VectorMetric).
Hypothesis Hv : graph_ok v.
(** Every node has its vector, and its score with the query is a number. *)
Hypothesis Hscore : forall id, on_level v 0 id -> exists s, ScoreQuery v query metric id = Some s /\ f_is_nan s = false.

Lemma result_of_result id n : result_of v query metric id = Some n -> node_result v query metric id {| vsr_doc_id := node_id n; vsr_score := score n |}.
Proof.
  unfold result_of, node_result. destruct (m_DocIds v !! Z.to_nat id); [|done]. destruct (ScoreQuery v query metric id); [|done]. by intros [= <-].
Qed.

Lemma result_of_ok id : on_level v 0 id ->
  exists n, result_of v query metric id = Some n /\ f_is_nan (score n) = false.
Proof.
  intros Hid. destruct (Hscore _ Hid) as (s & Hs & Hn). destruct Hid as (H0 & node & Hnode & _). apply lookup_lt_Some in Hnode.
  rewrite <- (la_ids _ (lo_layout _ (go_links _ Hv))) in Hnode. apply lookup_lt_is_Some in Hnode as [docId Hd].
  exists {| score := s; node_id := docId |}. unfold result_of. by rewrite Hd, Hs.
Qed.

(** The results of some nodes, sorted. *)
Lemma results_ranked ids : Forall (on_level v 0) ids ->
  exists scored results, map_opt (result_of v query metric) ids = Some scored /\ sort_nodes scored = Some results /\
    ranking_of v query metric ids (map (fun n => {| vsr_doc_id := node_id n; vsr_score := score n |}) results).
Proof.
  intros Hids. rewrite Forall_forall in Hids. destruct (map_opt_total (result_of v query metric) ids) as (scored & Hm & Hall).
  { intros x Hx. destruct (result_of_ok x (Hids x Hx)) as (n & -> & _). by eexists. }
  assert (Hnum : numeric scored).
  { unfold numeric. rewrite Forall_forall. intros n Hn. apply list_elem_of_lookup in Hn as [i Hi].
    destruct (Forall2_lookup_r _ _ _ _ _ Hall Hi) as (x & Hx & Hxn). destruct (result_of_ok x) as (n' & Hn' & Hnan); [|congruence].
    apply Hids. by eapply list_elem_of_lookup_2. }
  destruct (sort_nodes_ok scored Hnum) as (results & Hs & Hp & Hsorted). exists scored, results. split; [done|]. split; [done|]. split.
  - apply Forall2_flip in Hall. destruct (Permutation_Forall2 (Permutation_sym Hp) Hall) as (ids' & Hp' & Hall'). exists ids'. split; [done|].
    apply Forall2_fmap_r, Forall2_flip. eapply Forall2_impl; [exact Hall'|]. cbn. intros n id Hn. by apply result_of_result.
  - eapply StronglySorted_fmap; [|exact Hsorted]. done.
Qed.

(** The nodes that the beam has not reached, for a search of all documents. *)
Lemma missing_nodes found : NoDup found -> Forall (on_level v 0) found ->
  let missing := if length found <? length (m_Nodes v) then filter (fun id => id ∉ found) (map Z.of_nat (seq 0 (length (m_Nodes v)))) else [] in
  NoDup (found ++ missing) /\ Forall (on_level v 0) (found ++ missing) /\ forall id, on_level v 0 id -> id ∈ found ++ missing.
Proof.
  intros Hn Hf. cbn zeta. set (all := map Z.of_nat (seq 0 (length (m_Nodes v)))).
  assert (Hall : forall id, id ∈ all -> on_level v 0 id).
  { intros id Hid. apply list_elem_of_fmap in Hid as (i & -> & Hi). apply elem_of_seq in Hi. split; [lia|]. rewrite Nat2Z.id.
    destruct (lookup_lt_is_Some_2 (m_Nodes v) i) as [node Hi']; [lia|]. exists node. split; [done|lia]. }
  assert (Hin : forall id, on_level v 0 id -> id ∈ all) by apply on_level_seq.
  destruct (Nat.ltb_spec (length found) (length (m_Nodes v))) as [Hlt|Hge].
  - split; [|split].
    + apply NoDup_app. split; [done|]. split; [|apply NoDup_filter, (NoDup_fmap_2 Z.of_nat), NoDup_seq].
      intros id Hid Hm. by apply list_elem_of_filter in Hm as [? _].
    + apply Forall_app. split; [done|]. rewrite Forall_forall. intros id Hid. apply list_elem_of_filter in Hid as [_ Hid]. by apply Hall.
    + intros id Hid. apply elem_of_app. destruct (decide (id ∈ found)); [by left|right]. apply list_elem_of_filter. auto.
  - rewrite app_nil_r. split; [done|]. split; [done|]. rewrite Forall_forall in Hf.
    assert (Hsub : found ⊆+ all) by (apply NoDup_submseteq; auto).
    apply submseteq_length_Permutation in Hsub; [|unfold all; rewrite length_map, length_seq; lia].
    intros id Hid. rewrite Hsub. auto.
Qed.

Context {C R : Type} `{HeapC : NodeHeap C, HeapR : NodeHeap R}.
Context {SpecC : NodeHeapSpec C f_gt} {SpecR : NodeHeapSpec R f_lt}.

(** What a search of a non-empty index gives for [topK] and [efSearch]. *)
Definition search_found (topK efSearch : nat) (out : list VectorSearchResult) : Prop :=
  exists entry ns ids rs, on_level v 0 entry /\
    layer_found v (ScoreQuery v query metric) 0 (Nat.max efSearch (if topK =? 0 then length (m_Nodes v) else topK)) entry ns /\
    NoDup ids /\ Forall (on_level v 0) ids /\ ranking_of v query metric ids rs /\
    if topK =? 0 then out = rs /\ forall id, on_level v 0 id -> id ∈ ids
    else out = take topK rs /\ ids = map node_id ns.

Lemma entry_ok : m_Nodes v <> [] -> on_level v (m_MaxLevel v) (m_EntryPoint v).
Proof. intros Hne. pose proof (go_entry _ Hv). by destruct (m_Nodes v). Qed.

Lemma vector_Search_found topK efSearch : length query = DOC_VECTOR_DIM -> m_Nodes v <> [] ->
  exists out, vector_Search v (C := C) (R := R) query topK metric efSearch = Some out /\ search_found topK efSearch out.
Proof.
  intros Hlen Hne. unfold vector_Search, search_found. rewrite Hlen, Nat.eqb_refl. cbn [negb orb].
  destruct (Nat.eqb_spec (length (m_Nodes v)) 0) as [E|_]; [by apply nil_length_inv in E|].
  destruct (descend_ok v (ScoreQuery v query metric) (m_MaxLevel v) 1 (m_EntryPoint v) (go_links _ Hv) (entry_ok Hne)) as (entry & -> & Hentry); [lia|lia| |].
  { intros id Hid. apply Hscore. eapply on_level_le; [|exact Hid]. lia. }
  set (ef := Nat.max efSearch (if topK =? 0 then length (m_Nodes v) else topK)).
  destruct (SearchLayer_ok v (ScoreQuery v query metric) 0 (go_links _ Hv) Hscore (C := C) (R := R) ef entry Hentry) as (ns & -> & F).
  assert (Hf : Forall (on_level v 0) (map node_id ns)).
  { apply Forall_fmap. eapply Forall_impl; [apply F|]. by intros n [? _]. }
  destruct (missing_nodes (map node_id ns) (lf_distinct _ _ _ _ _ _ F) Hf) as (Hn & Hall & Hevery). rewrite length_map in *.
  destruct (Nat.eqb_spec topK 0) as [->|Hk]; cbn [andb negb].
  - destruct (results_ranked _ Hall) as (scored & results & -> & -> & Hrank). eexists. split; [reflexivity|].
    eexists entry, ns, _, _. split; [done|]. split; [exact F|]. split; [exact Hn|]. split; [done|]. split; [exact Hrank|]. by split.
  - rewrite app_nil_r. destruct (results_ranked _ Hf) as (scored & results & -> & -> & Hrank). eexists. split; [reflexivity|].
    eexists entry, ns, _, _. split; [done|]. split; [exact F|]. split; [apply F|]. split; [done|]. split; [exact Hrank|]. split; [|done].
    destruct (Nat.ltb_spec 0 topK); [|lia]. cbn [andb]. destruct (Nat.ltb_spec topK (length results)).
    + by rewrite firstn_map.
    + rewrite take_ge; [done|]. by rewrite length_map.
Qed.
End searching.

(** * Properties *)


(** * Witnesses *)

(** Three nodes in a row on the bottom layer. *)
Definition sample_graph : VectorIndex :=
  let v := vector_new 2 2 in
  {| m_MaxNeighbors := m_MaxNeighbors v; m_EfConstruction := m_EfConstruction v;
     m_Nodes := [{| level := 0; linkOffset := 0 |}; {| level := 0; linkOffset := 2 |}; {| level := 0; linkOffset := 4 |}];
     m_DocIds := [7; 8; 9]%Z; m_Links := [1; u32_max; 0; 2; 1; u32_max]%Z; m_LinkCounts := [1; 2; 1]%Z; m_VectorData := [];
     m_DocDataFirstDocId := 7; m_EntryPoint := 0; m_MaxLevel := 0 |}.

Definition sample_score (id : Z) : option f32 := Some (f_of_Z F32 id).

Lemma sample_links_ok : links_ok sample_graph.
Proof.
  split.
  - split; try done; [cbn; lia|]. intros [|[|[|i]]] node; cbn; intros [= <-]; done.
  - intros [|[|[|i]]] node l Hi Hl; try done; injection Hi as <-; cbn in Hl; assert (l = 0) as -> by lia;
      (eexists; split; [vm_compute; reflexivity|]; split; [cbn; lia|]; split; [apply (bool_decide_unpack _); vm_compute; reflexivity|]);
      repeat constructor; try lia; eexists; (split; [reflexivity|cbn; lia]).
Qed.

