(* ===== verification/VectorInsert.v ===== *)
(** Insertion into the vector index: every update of a layer's links keeps the invariant of the graph, so do adding a
    node and building the index of the records of a context. *)

From Stdlib Require Import ZArith Lia ZifyBool Bool List.
From Stdlib Require Import Floats.SpecFloat.
From stdpp Require Import base list list_numbers gmap sorting.
From S2P Require Import Prelude Floats PostingCodec PostingStore IndexWriter Hashing FileFormat PathSidecar DocData Composites EvalExpression Executor VectorIndex VectorSearch.

Local Open Scope moon_scope.

(** * Updates of one layer *)

(** The tables after the links of slot [s] became [new]. *)
Record row_write (v : VectorIndex) (s : nat) (new links counts : list Z) : Prop := {
  rw_links : length links = length (m_Links v);
  rw_counts : length counts = length (m_LinkCounts v);
  rw_other_links : forall k, ~ (m_MaxNeighbors v * s <= k < m_MaxNeighbors v * s + m_MaxNeighbors v) -> links !! k = m_Links v !! k;
  rw_other_counts : forall k, k <> s -> counts !! k = m_LinkCounts v !! k;
  rw_count : option_map Z.to_nat (counts !! s) = Some (length new);
  rw_new : slice (m_MaxNeighbors v * s) (length new) links = new;
}.

Lemma slot_links_some v s links : slot_links v s = Some links <->
  exists count, m_LinkCounts v !! s = Some count /\ length links = Z.to_nat count /\
    m_MaxNeighbors v * s + length links <= length (m_Links v) /\ slice (m_MaxNeighbors v * s) (length links) (m_Links v) = links.
Proof.
  unfold slot_links. split.
  - destruct (m_LinkCounts v !! s) as [count|]; [|done]. intros (_ & Hle & ->)%get_range_Some. exists count.
    rewrite Nat.add_comm, Nat.add_sub in *. rewrite length_slice by lia. repeat split; lia.
  - intros (count & -> & Hlen & Hle & Hs). apply get_range_Some. rewrite <- Hlen. repeat split; [lia|lia|].
    rewrite Nat.add_comm, Nat.add_sub. by rewrite Hs.
Qed.

Lemma slot_links_same v v' s s' links : slot_links v s' = Some links -> length links <= m_MaxNeighbors v -> s' <> s ->
  m_MaxNeighbors v' = m_MaxNeighbors v -> length (m_Links v) <= length (m_Links v') ->
  (forall k, k < length (m_Links v) -> ~ (m_MaxNeighbors v * s <= k < m_MaxNeighbors v * s + m_MaxNeighbors v) -> m_Links v' !! k = m_Links v !! k) ->
  (m_LinkCounts v' !! s' = m_LinkCounts v !! s') -> slot_links v' s' = Some links.
Proof.
  intros (count & Hc & Hlen & Hle & Hs)%slot_links_some HM Hne HM' Hll Hl Hc'. apply slot_links_some. exists count.
  rewrite Hc', HM'. split; [done|]. split; [done|]. split; [lia|]. rewrite <- Hs at 2. apply list_eq. intros i.
  destruct (decide (i < length links)).
  - rewrite !lookup_slice by done. apply Hl; [lia|]. assert (s' < s \/ s < s') as [?|?] by lia; nia.
  - unfold slice. by rewrite !lookup_take_ge by lia.
Qed.

Lemma links_ok_update v i node l new links counts : links_ok v -> m_Nodes v !! i = Some node -> l <= level node ->
  row_write v (slot v i l) new links counts -> length new <= m_MaxNeighbors v -> NoDup new -> Forall (on_level v l) new ->
  links_ok (with_links v links counts).
Proof.
  intros [L H] Hi Hl W Hlen Hnd Hon. set (v' := with_links v links counts).
  assert (HL' : layout v') by (apply (layout_same v); [done|apply W|apply W|done]). split; [done|].
  intros j nj l' Hj Hl'. change (slot v' j l') with (slot v j l'). destruct (decide (slot v j l' = slot v i l)) as [E|Hne].
  - destruct (slot_inj v j i nj node l' l Hj Hi Hl' Hl E) as [-> ->]. exists new. split; [|done].
    pose proof (rw_count _ _ _ _ _ W) as Hc. destruct (counts !! slot v i l) as [c|] eqn:Ec; [|done]. injection Hc as Hc.
    apply slot_links_some. exists c. cbn. split; [done|]. split; [done|]. split; [|apply W].
    rewrite (rw_links _ _ _ _ _ W), (la_links _ L). pose proof (slot_lt v i node l Hi Hl). nia.
  - destruct (H j nj l' Hj Hl') as (ls & Hs & Hle & Hrest). exists ls. split; [|by split].
    eapply (slot_links_same v v' (slot v i l)); try done; cbn.
    + by rewrite (rw_links _ _ _ _ _ W).
    + intros k _. apply W.
    + by apply W.
Qed.

Lemma row_room v i node l : layout v -> m_Nodes v !! i = Some node -> l <= level node ->
  m_MaxNeighbors v * slot v i l + m_MaxNeighbors v <= length (m_Links v) /\ slot v i l < length (m_LinkCounts v).
Proof. intros L Hi Hl. pose proof (slot_lt v i node l Hi Hl). rewrite (la_links _ L), (la_counts _ L). split; [nia|done]. Qed.

Lemma wrap8_count n : n <= 255 -> wrap 8 (Z.of_nat n) = Z.of_nat n.
Proof. intros. unfold wrap. rewrite Z.mod_small by lia. done. Qed.

(** Replacing the start of a row, and its count. *)
Lemma row_splice v i node l new padding : layout v -> m_Nodes v !! i = Some node -> l <= level node ->
  length new + length padding <= m_MaxNeighbors v ->
  row_write v (slot v i l) new (splice (m_MaxNeighbors v * slot v i l) (new ++ padding) (m_Links v))
    (<[slot v i l := Z.of_nat (length new)]> (m_LinkCounts v)).
Proof.
  intros L Hi Hl Hlen. destruct (row_room v i node l L Hi Hl) as [Hr Hc]. set (off := m_MaxNeighbors v * slot v i l) in *. split.
  - apply length_splice. rewrite length_app. lia.
  - by rewrite length_insert.
  - intros k Hk. destruct (decide (k < off)); [apply lookup_splice_lt; lia|]. apply lookup_splice_ge; rewrite length_app; lia.
  - intros k Hk. by rewrite list_lookup_insert_ne.
  - rewrite list_lookup_insert_eq by done. cbn. by rewrite Nat2Z.id.
  - transitivity (take (length new) (slice off (length (new ++ padding)) (splice off (new ++ padding) (m_Links v)))).
    + unfold slice at 2. rewrite take_take. unfold slice. f_equal. rewrite length_app. lia.
    + rewrite slice_splice_same by lia. apply take_app_length.
Qed.

(** The range of a row, element by element. *)
Lemma slice_lookup off (l new : list Z) : off + length new <= length l -> (forall k, k < length new -> l !! (off + k) = new !! k) ->
  slice off (length new) l = new.
Proof.
  intros Hle H. apply list_eq. intros k. destruct (decide (k < length new)).
  - rewrite lookup_slice by done. by apply H.
  - unfold slice. rewrite lookup_take_ge by lia. symmetry. apply lookup_ge_None. lia.
Qed.

(** Writing one element of a row, its first or one it has. *)
Lemma row_insert v i node l links k x counts : layout v -> m_Nodes v !! i = Some node -> l <= level node ->
  slot_links v (slot v i l) = Some links -> k <= length links -> k < m_MaxNeighbors v -> length links <= m_MaxNeighbors v ->
  let new := if k =? length links then links ++ [x] else <[k := x]> links in
  length counts = length (m_LinkCounts v) -> (forall j, j <> slot v i l -> counts !! j = m_LinkCounts v !! j) ->
  option_map Z.to_nat (counts !! slot v i l) = Some (length new) ->
  row_write v (slot v i l) new (<[m_MaxNeighbors v * slot v i l + k := x]> (m_Links v)) counts.
Proof.
  intros L Hi Hl (c & Hc & Hlen & Hle & Hs)%slot_links_some Hk HkM HM new Hcl Hco Hcs.
  destruct (row_room v i node l L Hi Hl) as [Hr _]. set (off := m_MaxNeighbors v * slot v i l) in *.
  assert (Hnew : length new = if k =? length links then S (length links) else length links).
  { unfold new. destruct (k =? length links); [rewrite length_app; cbn; lia|by rewrite length_insert]. }
  assert (Hold : forall j, j < length links -> m_Links v !! (off + j) = links !! j).
  { intros j Hj. rewrite <- Hs. by rewrite lookup_slice. }
  split; try done.
  - by rewrite length_insert.
  - intros j Hj. rewrite list_lookup_insert_ne; [done|lia].
  - apply slice_lookup; [rewrite length_insert, Hnew; destruct (Nat.eqb_spec k (length links)); lia|]. intros j Hj. rewrite Hnew in Hj. unfold new.
    destruct (decide (j = k)) as [->|Hne].
    + rewrite list_lookup_insert_eq by lia. destruct (Nat.eqb_spec k (length links)) as [->|?].
      * by rewrite list_lookup_middle.
      * by rewrite list_lookup_insert_eq by lia.
    + rewrite list_lookup_insert_ne by lia. destruct (Nat.eqb_spec k (length links)) as [->|?].
      * rewrite lookup_app_l by lia. apply Hold. lia.
      * rewrite list_lookup_insert_ne by done. by apply Hold.
Qed.

Lemma NoDup_insert_new (l : list Z) i x : NoDup l -> x ∉ l -> NoDup (<[i := x]> l).
Proof.
  intros Hn Hx. apply NoDup_alt. intros j k y Hj%list_lookup_insert_Some Hk%list_lookup_insert_Some.
  destruct Hj as [(<- & <- & _)|[_ Hj]], Hk as [(<- & E & _)|[_ Hk]]; try done.
  - by apply list_elem_of_lookup_2 in Hk.
  - subst y. by apply list_elem_of_lookup_2 in Hj.
  - by eapply NoDup_lookup.
Qed.

(** The scores of the documents of two nodes. *)
Definition nodes_scored (v : VectorIndex) : Prop := forall a b, on_level v 0 a -> on_level v 0 b ->
  exists s, ScoreDoc v Cosine a b = Some s /\ f_is_nan s = false.

Lemma ScoreDoc_same v v' : same_nodes v v' -> forall a b, ScoreDoc v' Cosine a b = ScoreDoc v Cosine a b.
Proof. intros S a b. unfold ScoreDoc, GetNodeVector, vi_GetDocVector. by rewrite (sn_ids _ _ S), (sn_data _ _ S), (sn_first _ _ S). Qed.

Lemma nodes_scored_same v v' : same_nodes v v' -> nodes_scored v -> nodes_scored v'.
Proof.
  intros S H a b Ha Hb. rewrite (ScoreDoc_same v v' S). apply H; by apply (on_level_same v' v _ _ (same_nodes_sym _ _ S)).
Qed.

Section updates.
Context (v : VectorIndex) (Hv : links_ok v).

Lemma SetNeighbors_ok id l neighbors : on_level v l id -> NoDup neighbors -> Forall (on_level v l) neighbors ->
  exists v', SetNeighbors v id l neighbors = Some v' /\ links_ok v' /\ same_nodes v v'.
Proof.
  intros (H0 & node & Hn & Hl) Hnd Hon. pose proof (lo_layout _ Hv) as L. destruct (row_room v _ node l L Hn Hl) as [Hr Hc].
  unfold SetNeighbors. rewrite (HasLevel_node v id node l Hn), (proj2 (Nat.leb_le _ _) Hl), (LinkOffset_slot v L id node l Hn), (LinkCountIndex_slot v L id node l Hn).
  cbn [negb]. assert (get_range (m_Links v) (m_MaxNeighbors v * slot v (Z.to_nat id) l) (m_MaxNeighbors v * slot v (Z.to_nat id) l + m_MaxNeighbors v)
    = Some (slice (m_MaxNeighbors v * slot v (Z.to_nat id) l) (m_MaxNeighbors v * slot v (Z.to_nat id) l + m_MaxNeighbors v - m_MaxNeighbors v * slot v (Z.to_nat id) l) (m_Links v))) as ->
    by (apply get_range_Some; split; [lia|split; [lia|done]]).
  destruct (lookup_lt_is_Some_2 _ _ Hc) as [c ->]. eexists. split; [reflexivity|]. split; [|apply with_links_same].
  pose proof (la_M _ L). assert (length (take (m_MaxNeighbors v) neighbors) <= m_MaxNeighbors v) by (rewrite length_take; lia).
  rewrite wrap8_count by lia. eapply links_ok_update; [done|exact Hn|exact Hl| |done| |].
  - eapply row_splice; try done. rewrite length_replicate. lia.
  - rewrite <- (take_drop (m_MaxNeighbors v) neighbors) in Hnd. apply NoDup_app in Hnd. tauto.
  - by apply Forall_take.
Qed.

Lemma slot_links_node id node l : m_Nodes v !! Z.to_nat id = Some node -> l <= level node ->
  exists links, slot_links v (slot v (Z.to_nat id) l) = Some links /\ length links <= m_MaxNeighbors v /\ NoDup links /\ Forall (on_level v l) links.
Proof. intros Hn Hl. exact (lo_links _ Hv _ node l Hn Hl). Qed.

Context (Hscore : nodes_scored v).

Lemma on_level_zero l ids : Forall (on_level v l) ids -> Forall (on_level v 0) ids.
Proof. intros H. eapply Forall_impl; [exact H|]. intros id. apply on_level_le. lia. Qed.

Lemma SortLayerByScore_ok id l : on_level v l id ->
  exists v', SortLayerByScore v id l = Some v' /\ links_ok v' /\ same_nodes v v'.
Proof.
  intros Hid. destruct (Hid) as (H0 & node & Hn & Hl). pose proof (lo_layout _ Hv) as L. unfold SortLayerByScore.
  rewrite (LinkOffset_slot v L id node l Hn), (links_at_slot v L id node l Hn).
  destruct (slot_links_node id node l Hn Hl) as (links & Hs & Hlen & Hnd & Hon). rewrite Hs.
  pose proof (on_level_zero _ _ Hon) as Hon0. rewrite Forall_forall in Hon0.
  destruct (map_opt_total (fun link => option_map (fun s => {| score := s; node_id := link |}) (ScoreDoc v Cosine id link)) links) as (scored & -> & Hall).
  { intros x Hx. destruct (Hscore id x) as (s & -> & _); [by eapply on_level_le; [|exact Hid]; lia|by apply Hon0|]. by eexists. }
  assert (Hids : map node_id scored = links).
  { clear -Hall. induction Hall as [|x y xs ys Hxy _ IH]; cbn; [done|]. rewrite IH. destruct (ScoreDoc v Cosine id x); [|done]. by injection Hxy as <-. }
  assert (Hnum : numeric scored).
  { unfold numeric. rewrite Forall_forall. intros n Hin. apply list_elem_of_lookup in Hin as [i Hi].
    destruct (Forall2_lookup_r _ _ _ _ _ Hall Hi) as (x & Hx & Hxn).
    destruct (Hscore id x) as (s & Hs' & Hnan); [by eapply on_level_le; [|exact Hid]; lia|by eapply Hon0, list_elem_of_lookup_2|].
    rewrite Hs' in Hxn. by injection Hxn as <-. }
  destruct (sort_nodes_ok scored Hnum) as (sorted & -> & Hp & _). eexists. split; [reflexivity|]. split; [|apply with_links_same].
  assert (Hp' : map node_id sorted ≡ₚ links) by by rewrite Hp, Hids. pose proof (Permutation_length Hp') as Hpl.
  eapply (links_ok_update v _ node l (map node_id sorted)); [done|exact Hn|exact Hl| |lia|by rewrite Hp'|by rewrite Hp'].
  pose proof (row_splice v _ node l (map node_id sorted) [] L Hn Hl ltac:(cbn; lia)) as W. rewrite app_nil_r in W. destruct W as [W1 W2 W3 W4 W5 W6].
  apply slot_links_some in Hs as (c & Hc & Hclen & _). split; try done. rewrite Hc. cbn. by rewrite <- Hclen, Hpl.
Qed.
End updates.

Lemma find_worst_ok v id links index worst : nodes_scored v -> on_level v 0 id -> Forall (on_level v 0) links ->
  exists r, find_worst v id links index worst = Some r /\ (r.1 = worst.1 \/ index <= r.1 < index + length links).
Proof.
  intros Hs Hid. revert index worst. induction links as [|x xs IH]; intros index worst Hall; cbn; [by eexists; split; [|left]|].
  inversion Hall as [|? ? Hx Hxs]; subst. destruct (Hs id x Hid Hx) as (s & -> & _). destruct worst as [wi w].
  destruct (IH (S index) (if f_lt s (score w) || SFeqb s (score w) && (node_id w <? x)%Z then (index, {| score := s; node_id := x |}) else (wi, w)) Hxs)
    as (r & -> & Hr). exists r. split; [done|]. cbn in Hr |- *. destruct (_ || _); cbn in Hr; lia.
Qed.

(** A full row: the new link takes the place of the worst one, if it is better, and the row is sorted again. *)
Lemma LinkBack_full v id neighbor l links node : links_ok v -> nodes_scored v -> on_level v 0 id -> on_level v l neighbor ->
  m_Nodes v !! Z.to_nat id = Some node -> l <= level node -> slot_links v (slot v (Z.to_nat id) l) = Some links ->
  m_MaxNeighbors v <= length links -> neighbor ∉ links ->
  let offset := m_MaxNeighbors v * slot v (Z.to_nat id) l in
  exists v', (opt neighborScore := ScoreDoc v Cosine id neighbor in
    opt first := m_Links v !! offset in
    opt firstScore := ScoreDoc v Cosine id first in
    opt worst := find_worst v id (tail links) 1 (0, {| score := firstScore; node_id := first |}) in
    let '(worstIndex, w) := worst in
    if f_gt neighborScore (score w) || SFeqb neighborScore (score w) && (neighbor <? node_id w)%Z
    then SortLayerByScore (with_links v (<[offset + worstIndex := neighbor]> (m_Links v)) (m_LinkCounts v)) id l
    else Some v) = Some v' /\ links_ok v' /\ same_nodes v v'.
Proof.
  intros Hv Hscore Hid Hnb Hn Hl Hs Hfull Hnew offset. pose proof (lo_layout _ Hv) as L. pose proof (la_M _ L) as HM.
  destruct (slot_links_node v Hv id node l Hn Hl) as (links' & Hs' & Hlen & Hnd & Hon). rewrite Hs in Hs'. injection Hs' as <-.
  pose proof (on_level_zero v _ _ Hon) as Hon0. assert (Hnb0 : on_level v 0 neighbor) by (eapply on_level_le; [|exact Hnb]; lia).
  destruct (Hscore id neighbor Hid Hnb0) as (s & -> & _). destruct links as [|first rest]; [cbn in Hfull; lia|].
  inversion Hon0 as [|? ? Hf Hrest]; subst. destruct (proj1 (slot_links_some _ _ _) Hs) as (c & Hc & Hclen & Hroom & Hrow).
  assert (m_Links v !! offset = Some first) as ->.
  { transitivity ((first :: rest) !! 0); [|done]. rewrite <- Hrow, lookup_slice by (cbn; lia). by rewrite Nat.add_0_r. }
  destruct (Hscore id first Hid Hf) as (fs & -> & _).
  destruct (find_worst_ok v id rest 1 (0, {| score := fs; node_id := first |}) Hscore Hid Hrest) as ([wi w] & Hw & Hwi). cbn [tail].
  rewrite Hw. cbn [fst] in Hwi. destruct (_ || _); [|exists v; by split; [|split]].
  assert (Hk : wi < length (first :: rest)) by (cbn; lia). set (v1 := with_links _ _ _).
  pose proof (row_insert v _ node l (first :: rest) wi neighbor (m_LinkCounts v) L Hn Hl Hs ltac:(lia) ltac:(lia) Hlen) as W. cbv zeta in W.
  destruct (Nat.eqb_spec wi (length (first :: rest))) as [?|_]; [lia|].
  assert (Hv1 : links_ok v1).
  { eapply (links_ok_update v _ node l (<[wi := neighbor]> (first :: rest))); [done|exact Hn|exact Hl|apply W; try done| | |].
    - rewrite Hc, length_insert, Hclen. done.
    - by rewrite length_insert.
    - by apply NoDup_insert_new.
    - by apply Forall_insert. }
  destruct (SortLayerByScore_ok v1 Hv1 (nodes_scored_same v v1 (with_links_same _ _ _) Hscore) id l) as (v' & Hv' & Hok & Hsame).
  - split; [apply Hid|]. by exists node.
  - exists v'. split; [done|]. split; [done|]. eapply same_nodes_trans; [apply with_links_same|exact Hsame].
Qed.

Lemma LinkBack_ok v id neighbor l : links_ok v -> nodes_scored v -> on_level v 0 id -> on_level v l neighbor ->
  exists v', LinkBack v id neighbor l = Some v' /\ links_ok v' /\ same_nodes v v'.
Proof.
  intros Hv Hscore Hid Hnb. destruct (Hid) as (H0 & node & Hn & _). pose proof (lo_layout _ Hv) as L. unfold LinkBack.
  rewrite (HasLevel_node v id node l Hn). destruct (Nat.leb_spec l (level node)) as [Hl|_]; [|exists v; by split; [|split]].
  rewrite (LinkOffset_slot v L id node l Hn), (LinkCountIndex_slot v L id node l Hn), (links_at_slot v L id node l Hn). cbn [negb].
  destruct (slot_links_node v Hv id node l Hn Hl) as (links & Hs & Hlen & Hnd & Hon). rewrite Hs.
  case_bool_decide as Hin; [exists v; by split; [|split]|]. pose proof (la_M _ L). destruct (row_room v _ node l L Hn Hl) as [Hr Hc].
  destruct (Nat.ltb_spec (length links) (m_MaxNeighbors v)) as [Hlt|Hge].
  - destruct (lookup_lt_is_Some_2 (m_Links v) (m_MaxNeighbors v * slot v (Z.to_nat id) l + length links)) as [x ->]; [lia|].
    eexists. split; [reflexivity|]. split; [|apply with_links_same]. rewrite wrap8_count by lia.
    pose proof (row_insert v _ node l links (length links) neighbor (<[slot v (Z.to_nat id) l := Z.of_nat (length links + 1)]> (m_LinkCounts v)) L Hn Hl Hs
      (Nat.le_refl _) Hlt Hlen) as W. cbv zeta in W. rewrite Nat.eqb_refl in W.
    eapply links_ok_update; [done|exact Hn|exact Hl|apply W| | |].
    + by rewrite length_insert.
    + intros j Hj. by rewrite list_lookup_insert_ne.
    + rewrite list_lookup_insert_eq by done. cbn. rewrite Nat2Z.id, length_app. done.
    + rewrite length_app. cbn. lia.
    + apply NoDup_app. split; [done|]. split; [|apply NoDup_singleton]. by intros x' Hx ->%list_elem_of_singleton.
    + apply Forall_app. by split; [|constructor].
  - by apply (LinkBack_full v id neighbor l links node).
Qed.

(** * Adding a node *)

Section insertion.
Context {C R : Type} `{HeapC : NodeHeap C, HeapR : NodeHeap R}.
Context {SpecC : NodeHeapSpec C f_gt} {SpecR : NodeHeapSpec R f_lt}.

Lemma SelectNeighbors_ok v l ns n : numeric ns -> NoDup (map node_id ns) -> Forall (fun m => on_level v l (node_id m)) ns ->
  exists selected, SelectNeighbors ns n = Some selected /\ NoDup selected /\ Forall (on_level v l) selected.
Proof.
  intros Hnum Hnd Hon. unfold SelectNeighbors. destruct (sort_nodes_ok ns Hnum) as (sorted & -> & Hp & _). eexists. split; [reflexivity|].
  rewrite <- firstn_map. split.
  - rewrite <- Hp, <- (take_drop n (map node_id sorted)) in Hnd. apply NoDup_app in Hnd. tauto.
  - apply Forall_take, Forall_fmap. by rewrite Hp.
Qed.

Lemma LinkBacks_ok v newNodeID l selected : links_ok v -> nodes_scored v -> on_level v l newNodeID -> Forall (on_level v l) selected ->
  exists v', fold_option (fun v neighbor => LinkBack v neighbor newNodeID l) selected v = Some v' /\ links_ok v' /\ same_nodes v v'.
Proof.
  intros Hv Hs Hnew Hsel. rewrite Forall_forall in Hsel.
  apply (fold_option_inv (fun w => links_ok w /\ same_nodes v w)); [|by split; [|split]].
  intros w id Hid [Hw S]. destruct (LinkBack_ok w id newNodeID l Hw) as (w' & Hw' & Hok & S').
  - by eapply nodes_scored_same.
  - eapply on_level_same; [exact S|]. eapply on_level_le; [|by apply Hsel]. lia.
  - by eapply on_level_same.
  - exists w'. split; [done|]. split; [done|]. by eapply same_nodes_trans.
Qed.

Lemma insert_level_ok v newNodeID entry l : links_ok v -> nodes_scored v -> on_level v l newNodeID -> on_level v l entry ->
  exists v' entry', insert_level (C := C) (R := R) newNodeID (v, entry) l = Some (v', entry') /\ links_ok v' /\ same_nodes v v' /\ on_level v l entry'.
Proof.
  intros Hv Hs Hnew He. unfold insert_level.
  assert (Hscore : forall id, on_level v l id -> exists s, ScoreDoc v Cosine newNodeID id = Some s /\ f_is_nan s = false).
  { intros id Hid. apply Hs; (eapply on_level_le; [|eassumption]); lia. }
  destruct (SearchLayer_ok v _ l Hv Hscore (C := C) (R := R) (m_EfConstruction v) entry He) as (ns & -> & F).
  assert (Hon : Forall (fun m => on_level v l (node_id m)) ns) by (eapply Forall_impl; [apply F|]; by intros m [? _]).
  destruct (SelectNeighbors_ok v l ns (m_MaxNeighbors v)) as (selected & -> & Hnd & Hsel); [|apply F|done|].
  { apply (scores_numeric v _ l Hscore), F. }
  destruct (SetNeighbors_ok v Hv newNodeID l selected Hnew Hnd Hsel) as (v1 & -> & Hv1 & S1).
  destruct (LinkBacks_ok v1 newNodeID l selected Hv1) as (v2 & -> & Hv2 & S2).
  - by eapply nodes_scored_same.
  - by eapply on_level_same.
  - eapply Forall_impl; [exact Hsel|]. intros id. by apply on_level_same.
  - eexists _, _. split; [reflexivity|]. split; [done|]. split; [by eapply same_nodes_trans|]. destruct ns as [|n ns]; [done|]. cbn. by inversion Hon.
Qed.

Lemma insert_levels_ok v newNodeID entry top : links_ok v -> nodes_scored v -> on_level v top newNodeID -> on_level v top entry ->
  exists st, fold_option (insert_level (C := C) (R := R) newNodeID) (levels_down 0 top) (v, entry) = Some st /\ links_ok st.1 /\ same_nodes v st.1.
Proof.
  unfold levels_down. rewrite Nat.sub_0_r. revert v entry. induction top as [|top IH]; intros v entry Hv Hs Hnew He.
  - cbn [seq rev app fold_option]. destruct (insert_level_ok v newNodeID entry 0 Hv Hs Hnew He) as (v' & e' & -> & Hv' & S & _). by exists (v', e').
  - rewrite seq_S, rev_app_distr. cbn [rev app fold_option Nat.add].
    destruct (insert_level_ok v newNodeID entry (S top) Hv Hs Hnew He) as (v1 & e1 & -> & Hv1 & S1 & He1).
    destruct (IH v1 e1 Hv1) as (st & -> & Hst & S2).
    + by eapply nodes_scored_same.
    + eapply on_level_same; [exact S1|]. eapply on_level_le; [|exact Hnew]. lia.
    + eapply on_level_same; [exact S1|]. eapply on_level_le; [|exact He1]. lia.
    + exists st. split; [done|]. split; [done|]. by eapply same_nodes_trans.
Qed.

(** ** Room for the node *)

Lemma random_level_le fuel hash l : l <= 16 -> random_level_loop fuel hash l <= 16.
Proof.
  revert hash l. induction fuel as [|fuel IH]; intros hash l Hl; cbn [random_level_loop]; [done|]. destruct (_ =? 0)%Z; [|done].
  destruct (Nat.ltb_spec l 16); [|done]. apply IH. lia.
Qed.

Lemma AllocateLinks_push v top docId node v1 : links_ok v -> AllocateLinks v top = Some (node, v1) ->
  let w := push_node v1 docId node in
  links_ok w /\ level node = top /\ (forall l id, on_level v l id -> on_level w l id) /\ on_level w top (Z.of_nat (length (m_Nodes v))).
Proof.
  intros [L H] Ha w. unfold AllocateLinks in Ha. destruct (_ || _); [done|]. injection Ha as <- <-. set (node := {| level := top; linkOffset := _ |}) in *.
  assert (Hnodes : m_Nodes w = m_Nodes v ++ [node]) by done.
  assert (Hold : forall l id, on_level v l id -> on_level w l id).
  { intros l id (H0 & n & Hn & Hl). split; [done|]. exists n. split; [|done]. by apply lookup_app_l_Some. }
  assert (Hslot : forall i l, i <= length (m_Nodes v) -> slot w i l = slot v i l).
  { intros i l Hi. unfold slot. rewrite Hnodes, take_app_le by done. done. }
  assert (Hlayers : layers (m_Nodes w) = layers (m_Nodes v) + (top + 1)) by (rewrite Hnodes, layers_app; unfold layers; cbn; lia).
  assert (Hlinks : m_Links w = m_Links v ++ replicate ((top + 1) * m_MaxNeighbors v) u32_max) by done.
  assert (Hcounts : m_LinkCounts w = m_LinkCounts v ++ replicate (top + 1) 0%Z) by done.
  assert (HL : layout w).
  { split; [apply L| | | |].
    - rewrite Hnodes. cbn. rewrite !length_app, (la_ids _ L). done.
    - intros i n. rewrite Hnodes. intros [Hi|[Hi Hn]]%lookup_app_Some.
      + rewrite take_app_le by (apply lookup_lt_Some in Hi; lia). by apply L.
      + apply list_lookup_singleton_Some in Hn as [Hz <-]. assert (i = length (m_Nodes v)) as -> by lia. rewrite take_app_length. cbn.
        by rewrite (la_links _ L).
    - rewrite Hlinks, length_app, length_replicate, (la_links _ L), Hlayers. cbn. nia.
    - rewrite Hcounts, length_app, length_replicate, (la_counts _ L), Hlayers. done. }
  split; [|split; [done|split; [done|]]].
  2:{ split; [lia|]. exists node. rewrite Nat2Z.id, Hnodes. split; [by apply list_lookup_middle|done]. }
  split; [done|]. intros i n l. rewrite Hnodes. intros [Hi|[Hi Hn]]%lookup_app_Some Hl.
  - destruct (H i n l Hi Hl) as (links & Hs & Hlen & Hnd & Hon). exists links.
    pose proof (slot_lt v i n l Hi Hl) as Hlt. rewrite Hslot by (apply lookup_lt_Some in Hi; lia). split; [|split; [done|split; [done|]]].
    + apply (slot_links_same v w (S (slot v i l)) _ _ Hs); [done|lia|done| | |].
      * rewrite Hlinks, length_app. lia.
      * intros k Hk _. rewrite Hlinks. by apply lookup_app_l.
      * rewrite Hcounts. apply lookup_app_l. by rewrite (la_counts _ L).
    + eapply Forall_impl; [exact Hon|]. intros id. apply Hold.
  - apply list_lookup_singleton_Some in Hn as [Hz <-]. assert (i = length (m_Nodes v)) as -> by lia. cbn in Hl. exists [].
    split; [|split; [cbn; lia|split; constructor]]. rewrite Hslot by done.
    assert (Hsl : slot v (length (m_Nodes v)) l = layers (m_Nodes v) + l) by (unfold slot; by rewrite firstn_all).
    apply slot_links_some. exists 0%Z. rewrite Hsl, Hcounts, Hlinks, length_app, length_replicate, (la_links _ L). split; [|split; [done|split; [|done]]].
    + rewrite lookup_app_r by (rewrite (la_counts _ L); lia). apply lookup_replicate. rewrite (la_counts _ L). split; [done|lia].
    + change (m_MaxNeighbors w) with (m_MaxNeighbors v). cbn. nia.
Qed.

(** The vectors of the documents are there, and every two of them have a score. *)
Definition docs_scored (v : VectorIndex) (docs : list Z) : Prop := forall d e, d ∈ docs -> e ∈ docs ->
  exists x y, vi_GetDocVector v d = Some x /\ vi_GetDocVector v e = Some y /\ f_is_nan (ScoreDocToDoc x y Cosine) = false.

Lemma docs_nodes_scored v : layout v -> docs_scored v (m_DocIds v) -> nodes_scored v.
Proof.
  intros L H a b (_ & na & Ha & _) (_ & nb & Hb & _). apply lookup_lt_Some in Ha, Hb. rewrite <- (la_ids _ L) in Ha, Hb.
  apply lookup_lt_is_Some in Ha as [d Hd], Hb as [e He].
  destruct (H d e) as (x & y & Hx & Hy & Hn); [by eapply list_elem_of_lookup_2..|].
  exists (ScoreDocToDoc x y Cosine). unfold ScoreDoc, GetNodeVector. by rewrite Hd, He, Hx, Hy.
Qed.

(** The data of the index stay, and the documents become [docs]. *)
Record docs_become (v v' : VectorIndex) (docs : list Z) : Prop := {
  db_docs : m_DocIds v' = docs;
  db_M : m_MaxNeighbors v' = m_MaxNeighbors v;
  db_data : m_VectorData v' = m_VectorData v;
  db_first : m_DocDataFirstDocId v' = m_DocDataFirstDocId v;
}.

(** Where the entry point goes after the insertion. *)
Lemma graph_raise v v' w node newNodeID : graph_ok v -> m_Nodes w = m_Nodes v ++ [node] -> newNodeID = Z.of_nat (length (m_Nodes v)) ->
  links_ok v' -> same_nodes w v' -> m_MaxLevel w = m_MaxLevel v -> m_EntryPoint w = m_EntryPoint v -> level node <= 16 ->
  (Z.of_nat (length (m_Nodes v)) < u32_max)%Z ->
  graph_ok (if (m_EntryPoint v =? u32_max)%Z || (m_MaxLevel v <? level node) then with_entry v' newNodeID (level node) else v').
Proof.
  intros G Hw -> Hv' S Hmax Hentry Htop Hsize.
  assert (Hnodes : m_Nodes v' = m_Nodes v ++ [node]) by (rewrite (sn_nodes _ _ S); done).
  assert (Hnew : on_level v' (level node) (Z.of_nat (length (m_Nodes v)))).
  { split; [lia|]. exists node. rewrite Nat2Z.id, Hnodes. split; [by apply list_lookup_middle|done]. }
  assert (Hlev : Forall (fun n => level n <= Nat.max (m_MaxLevel v) (level node)) (m_Nodes v')).
  { rewrite Hnodes. apply Forall_app. split; [|constructor; [lia|done]]. eapply Forall_impl; [apply (go_levels _ G)|]. cbn. lia. }
  assert (Hlen : (Z.of_nat (length (m_Nodes v')) <= u32_max)%Z) by (rewrite Hnodes, length_app; cbn; lia).
  assert (Hempty : m_EntryPoint v = u32_max -> m_Nodes v = []).
  { intros E. pose proof (go_entry _ G) as He. destruct (m_Nodes v) eqn:En; [done|]. exfalso. rewrite E in He. apply on_level_lt in He.
    rewrite En in He. lia. }
  destruct (Z.eqb_spec (m_EntryPoint v) u32_max) as [E|Hne]; cbn [orb].
  { rewrite (Hempty E) in Hnodes. split; cbn [m_Nodes m_MaxLevel m_EntryPoint with_entry].
    - destruct Hv' as [[] H]. by split.
    - rewrite Hnodes. by constructor.
    - rewrite Hnodes. exact Hnew.
    - done.
    - done. }
  assert (Hv1 : m_Nodes v <> []) by (intros En; pose proof (go_entry _ G) as He; rewrite En in He; done).
  destruct (Nat.ltb_spec (m_MaxLevel v) (level node)) as [Hlt|Hge].
  - split; cbn [m_Nodes m_MaxLevel m_EntryPoint with_entry]; [destruct Hv' as [[] H]; by split| |rewrite Hnodes; by destruct (m_Nodes v)|done|done].
    eapply Forall_impl; [exact Hlev|]. cbn. lia.
  - split; [done| |rewrite Hnodes| |done]; rewrite ?(sn_max _ _ S), ?Hmax.
    + eapply Forall_impl; [exact Hlev|]. cbn. lia.
    + assert (on_level v (m_MaxLevel v) (m_EntryPoint v)) as (H0 & n & Hn & Hl) by (pose proof (go_entry _ G); by destruct (m_Nodes v)).
      assert (on_level v' (m_MaxLevel v) (m_EntryPoint v')) as Hon.
      { rewrite (sn_entry _ _ S), Hentry. split; [done|]. exists n. rewrite Hnodes. split; [by apply lookup_app_l_Some|done]. }
      by destruct (m_Nodes v).
    + apply G.
Qed.

Lemma layers_le nodes top : Forall (fun n => level n <= top) nodes -> layers nodes <= (top + 1) * length nodes.
Proof. intros H. unfold layers. induction H as [|n nodes Hn _ IH]; [cbn; lia|]. cbn [map list_sum fold_right length] in *. unfold list_sum in IH. nia. Qed.

(** The links of a node are refused only when the tables are as large as an index of [u32] allows. *)
Lemma AllocateLinks_room v top : graph_ok v -> top <= 16 -> (Z.of_nat (17 * m_MaxNeighbors v * S (length (m_Nodes v))) <= u32_max)%Z ->
  is_Some (AllocateLinks v top).
Proof.
  intros G Htop Hroom. unfold AllocateLinks. pose proof (la_links _ (lo_layout _ (go_links _ G))) as Hl.
  pose proof (layers_le (m_Nodes v) 16) as Hle. assert (layers (m_Nodes v) <= 17 * length (m_Nodes v)).
  { apply Hle. eapply Forall_impl; [apply (go_levels _ G)|]. cbn. pose proof (go_top _ G). lia. }
  assert (Hs : (top + 1) * m_MaxNeighbors v <= 17 * m_MaxNeighbors v) by nia.
  assert (Hs2 : m_MaxNeighbors v * layers (m_Nodes v) <= 17 * m_MaxNeighbors v * length (m_Nodes v)) by nia.
  assert (17 * m_MaxNeighbors v * S (length (m_Nodes v)) = 17 * m_MaxNeighbors v * length (m_Nodes v) + 17 * m_MaxNeighbors v) as E by lia.
  rewrite E in Hroom. rewrite Hl.
  destruct (Z.ltb_spec u32_max (Z.of_nat ((top + 1) * m_MaxNeighbors v))); [lia|].
  destruct (Z.ltb_spec (u32_max - Z.of_nat ((top + 1) * m_MaxNeighbors v)) (Z.of_nat (m_MaxNeighbors v * layers (m_Nodes v)))); [lia|]. by eexists.
Qed.

(** The entry for the levels of the new node. *)
Lemma entry_down w entry max lev newNodeID : links_ok w -> nodes_scored w -> on_level w max entry -> on_level w 0 newNodeID ->
  exists e, fold_option (fun entry l => GreedySearchLayer w (ScoreDoc w Cosine newNodeID) entry l)
    (if lev <? max then levels_down (lev + 1) max else []) entry = Some e /\ on_level w (Nat.min max lev) e.
Proof.
  intros Hw Hs He Hnew. destruct (Nat.ltb_spec lev max) as [Hlt|Hge].
  - destruct (descend_ok w (ScoreDoc w Cosine newNodeID) max (lev + 1) entry Hw He) as (e & -> & Hon); [lia|lia| |].
    + intros id Hid. apply Hs; [done|]. eapply on_level_le; [|exact Hid]. lia.
    + exists e. split; [done|]. eapply on_level_le; [|exact Hon]. lia.
  - exists entry. split; [done|]. eapply on_level_le; [|exact He]. lia.
Qed.

Lemma AddNode_ok v docId : graph_ok v -> (0 <= docId)%Z -> docs_scored v (docId :: m_DocIds v) ->
  exists v' added, AddNode (C := C) (R := R) v docId = Some (v', added) /\ graph_ok v' /\
    docs_become v v' (if added then m_DocIds v ++ [docId] else m_DocIds v) /\
    ((docId <= u32_max)%Z -> (Z.of_nat (17 * m_MaxNeighbors v * S (length (m_Nodes v))) <= u32_max)%Z -> added = true).
Proof.
  intros G Hd Hs. unfold AddNode. pose proof (la_M _ (lo_layout _ (go_links _ G))) as HM.
  destruct (Z.ltb_spec u32_max docId) as [?|Hdoc]; [exists v, false; split; [done|]; split; [done|]; split; [done|lia]|].
  destruct (Z.leb_spec u32_max (Z.of_nat (length (m_Nodes v)))) as [?|Hsize]; cbn [orb].
  { exists v, false. split; [done|]. split; [done|]. split; [done|]. intros _ Hroom. nia. }
  pose proof (random_level_le 16 (wrapping_add 64 (wrapping_mul 64 docId 11400714819323198485) 0x9e3779b97f4a7c15) 0 ltac:(lia)) as Htop.
  fold (RandomLevel docId) in Htop.
  destruct (AllocateLinks v (RandomLevel docId)) as [[node v1]|] eqn:Ha.
  2:{ exists v, false. split; [done|]. split; [done|]. split; [done|]. intros _ Hroom. destruct (AllocateLinks_room v _ G Htop Hroom). congruence. }
  destruct (AllocateLinks_push v _ docId node v1 (go_links _ G) Ha) as (Hw & Hlev & Hold & Hnew). rewrite <- Hlev in Hnew, Htop.
  assert (Hfields : same_nodes v v1) by (unfold AllocateLinks in Ha; destruct (_ || _); [done|]; injection Ha as _ <-; apply with_links_same).
  set (w := push_node v1 docId node) in *. rewrite (sn_nodes _ _ Hfields). change (m_EntryPoint w) with (m_EntryPoint v1). change (m_MaxLevel w) with (m_MaxLevel v1).
  rewrite (sn_entry _ _ Hfields), (sn_max _ _ Hfields).
  assert (Hwn : m_Nodes w = m_Nodes v ++ [node]) by (cbn; by rewrite (sn_nodes _ _ Hfields)).
  assert (Hids : m_DocIds w = m_DocIds v ++ [docId]).
  { cbn. rewrite (sn_ids _ _ Hfields). unfold wrap. rewrite Z.mod_small; [done|]. unfold u32_max in Hdoc. lia. }
  assert (Hbecome : forall v', same_nodes w v' -> docs_become v v' (m_DocIds v ++ [docId])).
  { intros v' []. destruct Hfields. split; cbn in *; congruence. }
  assert (Hraise : forall v', links_ok v' -> same_nodes w v' ->
    graph_ok (if (m_EntryPoint v =? u32_max)%Z || (m_MaxLevel v <? level node) then with_entry v' (Z.of_nat (length (m_Nodes v))) (level node) else v')).
  { intros v' Hv' S. apply (graph_raise v v' w node); try done; [apply Hfields|apply Hfields]. }
  destruct (Z.eqb_spec (m_EntryPoint v) u32_max) as [E|Hne].
  { eexists _, true. split; [reflexivity|]. split; [|split; [|done]].
    - apply (Hraise w); [done|apply same_nodes_refl].
    - destruct (Hbecome w (same_nodes_refl w)). by split. }
  cbn [orb] in Hraise. assert (Hsw : nodes_scored w).
  { apply docs_nodes_scored; [apply Hw|]. rewrite Hids. intros d e Hd' He'. unfold vi_GetDocVector. cbn.
    rewrite (sn_first _ _ Hfields), (sn_data _ _ Hfields). apply Hs; [rewrite elem_of_app in Hd'|rewrite elem_of_app in He']; set_solver. }
  assert (Hent : on_level w (m_MaxLevel v) (m_EntryPoint v)).
  { apply Hold. pose proof (go_entry _ G). by destruct (m_Nodes v). }
  destruct (entry_down w (m_EntryPoint v) (m_MaxLevel v) (level node) (Z.of_nat (length (m_Nodes v))) Hw Hsw Hent) as (e & -> & He).
  { eapply on_level_le; [|exact Hnew]. lia. }
  destruct (insert_levels_ok w (Z.of_nat (length (m_Nodes v))) e (Nat.min (m_MaxLevel v) (level node)) Hw Hsw) as (st & -> & Hst & S).
  { eapply on_level_le; [|exact Hnew]. lia. } { done. }
  eexists _, true. split; [reflexivity|]. rewrite (sn_max _ _ S). change (m_MaxLevel w) with (m_MaxLevel v1). rewrite (sn_max _ _ Hfields).
  split; [by apply Hraise|]. split; [|done]. destruct (Hbecome st.1 S). destruct (_ <? _); by split.
Qed.
End insertion.

(** * Properties *)

(** C13: adding a document to an index that keeps the invariant of the graph panics nowhere and keeps it - rows of distinct links
    to nodes of the layer, no longer than allowed, and an entry point on the top layer -, provided the vectors of the documents
    are there and every two have a score; the document is appended, always while ids and link tables fit 32 bits, and is the only change. *)
Theorem AddNode_keeps_graph {C R : Type} `{HeapC : NodeHeap C, HeapR : NodeHeap R} {SpecC : NodeHeapSpec C f_gt} {SpecR : NodeHeapSpec R f_lt}
    v docId :
  graph_ok v -> (0 <= docId)%Z -> docs_scored v (docId :: m_DocIds v) ->
  exists v' added, AddNode (C := C) (R := R) v docId = Some (v', added) /\ graph_ok v' /\
    docs_become v v' (if added then m_DocIds v ++ [docId] else m_DocIds v) /\
    ((docId <= u32_max)%Z -> (Z.of_nat (17 * m_MaxNeighbors v * S (length (m_Nodes v))) <= u32_max)%Z -> added = true).
Proof. apply AddNode_ok. Qed.

(** * Witnesses *)

Lemma empty_graph v : 2 <= m_MaxNeighbors v <= 255 -> m_Nodes v = [] -> m_DocIds v = [] -> m_Links v = [] -> m_LinkCounts v = [] ->
  m_EntryPoint v = u32_max -> m_MaxLevel v = 0 -> graph_ok v.
Proof.
  intros HM Hn Hd Hl Hc He Hm. split; rewrite ?Hn, ?Hm; try done; try lia. split; [|intros i node l; by rewrite Hn].
  split; rewrite ?Hn, ?Hd, ?Hl, ?Hc; try done; cbn; lia.
Qed.

(** The records of documents 5 and 6, with vectors of ones and twos. *)
Definition sample_records : bytes :=
  zeros DOC_VECTOR_OFFSET ++ replicate DOC_VECTOR_DIM 1%Z ++ zeros 64 ++ zeros DOC_VECTOR_OFFSET ++ replicate DOC_VECTOR_DIM 2%Z ++ zeros 64.

Definition sample_empty : VectorIndex := SetDocData (vector_new 2 2) sample_records 5.

Definition sample_one : VectorIndex :=
  default sample_empty (option_map fst (AddNode (C := node_list f_gt) (R := node_list f_lt) sample_empty 5)).

Lemma sample_scored docs : (forall d, d ∈ docs -> d = 5 \/ d = 6)%Z -> docs_scored sample_empty docs.
Proof.
  intros Hd d e Hin He. apply Hd in Hin, He.
  destruct Hin as [-> | ->], He as [-> | ->]; (eexists _, _; split; [vm_compute; reflexivity|]; split; [vm_compute; reflexivity|]; vm_compute; reflexivity).
Qed.

Lemma sample_one_ok : graph_ok sample_one /\ docs_become sample_empty sample_one [5%Z].
Proof.
  destruct (AddNode_ok (C := node_list f_gt) (R := node_list f_lt) sample_empty 5) as (v & added & Hv & G & B & Hadd).
  - apply empty_graph; [cbn; lia|done..].
  - lia.
  - apply sample_scored. intros d Hd. apply elem_of_cons in Hd as [->|Hd]; [by left|]. by apply not_elem_of_nil in Hd.
  - unfold sample_one. rewrite Hv. cbn [option_map fst default]. rewrite Hadd in B; [done|apply Z.leb_le; vm_compute; reflexivity..].
Qed.

Lemma AddNode_keeps_graph_witness :
  exists v added, AddNode (C := node_list f_gt) (R := node_list f_lt) sample_one 6 = Some (v, added) /\ graph_ok v /\
    m_DocIds v = [5; 6]%Z /\ Neighbors v 0 0 = Some [1%Z] /\ Neighbors v 1 0 = Some [0%Z].
Proof.
  destruct sample_one_ok as [G B].
  destruct (AddNode_keeps_graph (C := node_list f_gt) (R := node_list f_lt) sample_one 6 G) as (v & added & Hv & G' & B' & Hadd).
  - lia.
  - rewrite (db_docs _ _ _ B). intros d e Hd He. destruct (sample_scored [6; 5]%Z) with (d := d) (e := e) as (x & y & Hx & Hy & Hn); [|done|done|].
    + intros d' Hd'. rewrite !elem_of_cons in Hd'. destruct Hd' as [->|[->|Hd']]; [by right|by left|]. by apply not_elem_of_nil in Hd'.
    + exists x, y. unfold vi_GetDocVector in *. by rewrite (db_data _ _ _ B), (db_first _ _ _ B).
  - exists v, added. split; [exact Hv|]. split; [exact G'|]. vm_compute in Hv. injection Hv as <- <-. vm_compute. done.
Defined.
