(* ===== verification/VectorRuntime.v ===== *)
(** The vector runtime of a context: the vector index built from the records of the documents, and its searches. *)

From Stdlib Require Import ZArith Lia ZifyBool Bool List.
From Stdlib Require Import Floats.SpecFloat.
From stdpp Require Import base list list_numbers gmap sorting.
From S2P Require Import Prelude Floats PostingCodec PostingStore IndexWriter Hashing FileFormat PathSidecar IndexReader DocData Composites EvalExpression Executor VectorIndex CosineScore VectorSearch VectorInsert.

Local Open Scope moon_scope.

Section runtime.
Context {C R : Type} `{HeapC : NodeHeap C, HeapR : NodeHeap R}.

(** The record of a slot holds its document and a vector. *)
Definition vector_record (docdata : bytes) (firstDocId : Z) (slot : nat) : bool :=
  let offset := slot * DOC_REC_SIZE in
  (get 4 offset docdata =? firstDocId + Z.of_nat slot)%Z && (get 2 (offset + 54) docdata =? Z.of_nat DOC_VECTOR_DIM)%Z
  && negb (get 2 (offset + 56) docdata =? 0)%Z.

Fixpoint add_records (docdata : bytes) (firstDocId : Z) (slots : list nat) (v : VectorIndex) : option VectorIndex :=
  match slots with
  | [] => Some v
  | slot :: slots' =>
      let offset := slot * DOC_REC_SIZE in
      if length docdata <? offset + DOC_REC_SIZE then Some v
      else
        opt v := if vector_record docdata firstDocId slot
                 then option_map fst (AddNode (C := C) (R := R) v (firstDocId + Z.of_nat slot)) else Some v in
        add_records docdata firstDocId slots' v
  end.

(** [None]: adding a document panics. The first pass only reserves room. *)
Definition BuildVectorRuntime (m_VectorBuilt : bool) (v : VectorIndex) (docdata : bytes) (header : IndexFileHeader) : option VectorIndex :=
  if m_VectorBuilt then Some v
  else
    let firstDocId := DocDataFirstDocId docdata header in
    let v := SetDocData (vector_Clear v) docdata firstDocId in
    add_records docdata firstDocId (seq 0 (Z.to_nat (IFH_NumDocuments header))) v.

(** The end of BuildIndexData: the vectors of the documents of the store, in the order of its table. *)
Definition add_documents `{DocOrder} (store : PostingStore) (docData : bytes) : option VectorIndex :=
  let v := SetDocData (vector_new 32 200) docData (StoreFirstDocId store) in
  fold_option (fun v doc => if HasDocVector store doc.1 then option_map fst (AddNode (C := C) (R := R) v doc.1) else Some v)
    (doc_order (m_DocStats store)) v.

(** IndexContext::VectorSearch, with the index it leaves. *)
Definition ctx_VectorSearch (m_VectorBuilt : bool) (v : VectorIndex) (docdata : bytes) (header : IndexFileHeader)
    (query : list f32) (top_k : nat) (metric : VectorMetric) (ef_search : nat) : option (VectorIndex * list VectorSearchResult) :=
  opt v := BuildVectorRuntime m_VectorBuilt v docdata header in
  opt results := vector_Search (C := C) (R := R) v query top_k metric ef_search in
  Some (v, results).

(** An index to which no records were added yet finds nothing. *)
Lemma unbuilt_search v docdata firstDocId query topK metric efSearch :
  vector_Search (C := C) (R := R) (SetDocData (vector_Clear v) docdata firstDocId) query topK metric efSearch = Some [].
Proof. unfold vector_Search. cbn. by rewrite orb_true_r. Qed.

(** BuildVectorIndexReader. *)
Definition BuildVectorIndexReader (m_VectorBuilt : bool) (v : VectorIndex) (docdata : bytes) (header : IndexFileHeader)
    (query : list f32) (efSearch : nat) : option (VectorIndex * VectorIndexReader) :=
  opt v := BuildVectorRuntime m_VectorBuilt v docdata header in
  opt results := vector_Search (C := C) (R := R) v query (Nat.max efSearch 1) Cosine efSearch in
  Some (v, vr_new results).

(** * Building *)

Context {SpecC : NodeHeapSpec C f_gt} {SpecR : NodeHeapSpec R f_lt}.

(** Documents added one after the other. *)
Lemma adds_ok docs v : graph_ok v -> Forall (fun d => 0 <= d <= u32_max)%Z docs -> docs_scored v (m_DocIds v ++ docs) ->
  (Z.of_nat (17 * m_MaxNeighbors v * (length (m_DocIds v) + length docs)) <= u32_max)%Z ->
  exists v', fold_option (fun v d => option_map fst (AddNode (C := C) (R := R) v d)) docs v = Some v' /\ graph_ok v' /\
    docs_become v v' (m_DocIds v ++ docs).
Proof.
  revert v. induction docs as [|d docs IH]; intros v G Hd Hs Hroom; cbn [fold_option].
  { exists v. split; [done|]. split; [done|]. rewrite app_nil_r. by split. }
  inversion Hd as [|? ? Hdr Hd']; subst.
  destruct (AddNode_ok (C := C) (R := R) v d G ltac:(lia)) as (v1 & added & -> & G1 & B & Hadd).
  { intros a b Ha Hb. apply Hs; set_solver. }
  rewrite Hadd in B; [|lia|]. 2:{ rewrite <- (la_ids _ (lo_layout _ (go_links _ G))). cbn [length] in Hroom. nia. }
  destruct B as [B1 B2 B3 B4]. cbn [option_map fst].
  destruct (IH v1 G1 Hd') as (v' & -> & G' & B').
  - rewrite B1, <- app_assoc. intros a b Ha Hb. destruct (Hs a b Ha Hb) as (x & y & Hx & Hy & Hn). exists x, y.
    unfold vi_GetDocVector in *. by rewrite B3, B4.
  - rewrite B1, B2, length_app. cbn [length] in Hroom |- *. nia.
  - exists v'. split; [done|]. split; [done|]. destruct B' as [C1 C2 C3 C4]. rewrite B1, <- app_assoc in C1. split; [exact C1|congruence..].
Qed.

Lemma add_records_fold docdata first slots v : Forall (fun slot => slot * DOC_REC_SIZE + DOC_REC_SIZE <= length docdata) slots ->
  add_records docdata first slots v =
  fold_option (fun v d => option_map fst (AddNode (C := C) (R := R) v d))
    (map (fun slot => first + Z.of_nat slot)%Z (List.filter (vector_record docdata first) slots)) v.
Proof.
  revert v. induction slots as [|slot slots IH]; intros v Hall; cbn [add_records List.filter map fold_option]; [done|].
  inversion Hall as [|? ? Hs Hall']; subst. destruct (Nat.ltb_spec (length docdata) (slot * DOC_REC_SIZE + DOC_REC_SIZE)); [lia|].
  destruct (vector_record docdata first slot); cbn [map fold_option]; [|by apply IH].
  destruct (option_map fst _); [|done]. by apply IH.
Qed.
End runtime.

(** * The records of a store *)

Section records.
Context `{Libm}.
Context (store : PostingStore) (Hstore : docs_wf store).

(** The bytes of a stored vector. *)
Definition vector_bytes (x : list Z) : bytes := map (fun i => wrap 8 (nth i x 0%Z)) (seq 0 DOC_VECTOR_DIM).

Lemma vector_bytes_length x : length (vector_bytes x) = DOC_VECTOR_DIM.
Proof. unfold vector_bytes. by rewrite length_map, length_seq. Qed.

(** The documents with a vector, in ascending order. *)
Definition vector_docs : list Z :=
  List.filter (fun d => bool_decide (is_Some (m_DocStats store !! d)) && HasDocVector store d)
    (map (fun slot => StoreFirstDocId store + Z.of_nat slot)%Z (seq 0 (Z.to_nat (StoreDocDataRecordCount store)))).

Lemma vector_docs_elem d : d ∈ vector_docs <-> is_Some (m_DocStats store !! d) /\ is_Some (GetDocVector store d).
Proof.
  destruct (store_slots store) as (Hslots & Hcount & _). unfold vector_docs. rewrite list_elem_of_In, filter_In, <- list_elem_of_In.
  rewrite andb_true_iff, bool_decide_eq_true. unfold HasDocVector. rewrite bool_decide_eq_true. split; [tauto|].
  intros [Hd Hv]. split; [|done]. specialize (Hslots d Hd). apply list_elem_of_fmap. exists (Z.to_nat (d - StoreFirstDocId store)).
  split; [lia|]. apply elem_of_seq. lia.
Qed.

Lemma vector_docs_NoDup : NoDup vector_docs.
Proof. apply NoDup_ListNoDup, List.NoDup_filter, NoDup_ListNoDup, NoDup_fmap_2_strong; [intros; lia|apply NoDup_seq]. Qed.

Lemma vector_docs_range : Forall (fun d => 0 <= d <= u32_max)%Z vector_docs.
Proof. rewrite Forall_forall. intros d [[st Hd] _]%vector_docs_elem. destruct (proj1 Hstore d st Hd) as [Hr _]. lia. Qed.

Context (out : bytes) (header : IndexFileHeader) (t : PathPrefixes).
Context (Hnum : IFH_NumDocuments header = StoreDocDataRecordCount store).
Context (Hlen : length out = Z.to_nat (StoreDocDataRecordCount store) * DOC_REC_SIZE).
Context (Hdocs : forall d st, m_DocStats store !! d = Some st ->
  holds_doc store t d st (record_at (Z.to_nat (d - StoreFirstDocId store)) out)).
Context (Hblank : forall d, (StoreFirstDocId store <= d < StoreFirstDocId store + StoreDocDataRecordCount store)%Z ->
  m_DocStats store !! d = None -> record_at (Z.to_nat (d - StoreFirstDocId store)) out = blank_record).

Lemma get_in_record n slot off : off + n <= DOC_REC_SIZE -> get n (slot * DOC_REC_SIZE + off) out = get n off (record_at slot out).
Proof. intros Hoff. unfold get. by rewrite record_field. Qed.

Lemma vector_record_spec slot : slot < Z.to_nat (StoreDocDataRecordCount store) ->
  let d := (StoreFirstDocId store + Z.of_nat slot)%Z in
  vector_record out (StoreFirstDocId store) slot = bool_decide (is_Some (m_DocStats store !! d)) && HasDocVector store d.
Proof.
  intros Hslot d. assert (Hd : Z.to_nat (d - StoreFirstDocId store) = slot) by lia. unfold vector_record.
  rewrite <- (Nat.add_0_r (slot * DOC_REC_SIZE)) at 1. rewrite !get_in_record by (unfold DOC_REC_SIZE; lia). fold d.
  destruct (m_DocStats store !! d) as [st|] eqn:Est.
  - pose proof (Hdocs d st Est) as Hr. rewrite Hd in Hr. rewrite (doc_id_field store Hstore out t Hlen d st _ Est Hr), Z.eqb_refl.
    rewrite bool_decide_eq_true_2 by by eexists. cbn [andb].
    pose proof (doc_entry_matches store Hstore out t Hlen d st _ Est Hr) as (_ & _ & _ & _ & _ & _ & _ & _ & _ & _ & Hv). unfold HasDocVector.
    unfold GetDocVector in Hv. destruct (m_DocVectors store !! d).
    + destruct Hv as (H1 & H2 & _). cbn [DDE_VectorDim DDE_VectorFormat doc_entry] in H1, H2. rewrite H1, H2. by rewrite bool_decide_eq_true_2 by by eexists.
    + cbn [DDE_VectorDim doc_entry] in Hv. rewrite Hv. rewrite bool_decide_eq_false_2 by (by intros []). done.
  - rewrite <- Hd, (Hblank d) by (done || lia). change (get 4 0 blank_record) with u32_max.
    rewrite (bool_decide_eq_false_2 (is_Some None)) by (by intros []). cbn [andb].
    assert (Hne : m_DocStats store <> ∅) by (intros He; destruct (store_slots store) as (_ & _ & _ & Hz); rewrite (Hz He) in Hslot; lia).
    destruct (store_last store Hne) as (d' & st & Hst & Hle). destruct (proj1 Hstore d' st Hst) as [Hrange _].
    by rewrite (proj2 (Z.eqb_neq _ _)) by lia.
Qed.

Lemma records_are_vector_docs :
  map (fun slot => StoreFirstDocId store + Z.of_nat slot)%Z
    (List.filter (vector_record out (StoreFirstDocId store)) (seq 0 (Z.to_nat (IFH_NumDocuments header)))) = vector_docs.
Proof.
  unfold vector_docs. rewrite Hnum. assert (Hall : Forall (fun slot => slot < Z.to_nat (StoreDocDataRecordCount store)) (seq 0 (Z.to_nat (StoreDocDataRecordCount store)))).
  { rewrite Forall_forall. intros i Hi. apply elem_of_seq in Hi. lia. }
  induction Hall as [|slot slots Hs _ IH]; cbn [List.filter map]; [done|]. rewrite (vector_record_spec slot Hs). destruct (_ && _); cbn [map]; by rewrite IH.
Qed.

(** The vector of a document in the index is the one of the store. *)
Lemma vector_of_record v d st x : m_VectorData v = out -> m_DocDataFirstDocId v = StoreFirstDocId store ->
  m_DocStats store !! d = Some st -> GetDocVector store d = Some x -> vi_GetDocVector v d = Some (vector_bytes x).
Proof.
  intros Hv Hf Hd Hx. destruct (store_slots store) as (Hslots & _). pose proof (Hslots d (ex_intro _ st Hd)) as Hr.
  unfold vi_GetDocVector. rewrite Hv, Hf. destruct (Z.ltb_spec d (StoreFirstDocId store)); [lia|]. set (slot := Z.to_nat (d - StoreFirstDocId store)).
  apply get_range_Some. split; [lia|]. split; [rewrite Hlen; unfold slot, DOC_REC_SIZE, DOC_VECTOR_OFFSET, DOC_VECTOR_DIM; lia|].
  replace (_ + DOC_VECTOR_DIM - _) with DOC_VECTOR_DIM by lia. rewrite record_field by (unfold DOC_REC_SIZE, DOC_VECTOR_OFFSET, DOC_VECTOR_DIM; lia).
  destruct (Hdocs d st Hd) as (_ & Hfields & _). specialize (Hfields DOC_VECTOR_OFFSET (vector_bytes x)).
  rewrite vector_bytes_length in Hfields. symmetry. apply Hfields.
  unfold doc_fields. rewrite Hx. apply elem_of_app. right. do 2 apply list_elem_of_further. apply list_elem_of_here.
Qed.

(** No document has the zero vector. *)
Hypothesis Hnonzero : forall d x, GetDocVector store d = Some x -> exists i y, x !! i = Some y /\ y <> 0%Z.

Lemma stored_nonzero d x : GetDocVector store d = Some x -> nonzero_vector (vector_bytes x).
Proof.
  intros Hx. pose proof (proj2 Hstore d x Hx) as Hwf. destruct (Hnonzero d x Hx) as (i & y & Hy & Hne). split; [apply vector_bytes_length|].
  pose proof (vector_bytes_roundtrip store out Hlen x Hwf) as Hr. fold (vector_bytes x) in Hr. rewrite <- Hr in Hy. apply list_lookup_fmap_Some in Hy as (b & -> & Hb).
  exists i, b. by split.
Qed.

Lemma stored_scores v : m_VectorData v = out -> m_DocDataFirstDocId v = StoreFirstDocId store -> docs_scored v vector_docs.
Proof.
  intros Hv Hf d e [[st Hd] [x Hx]]%vector_docs_elem [[st' He] [y Hy]]%vector_docs_elem. exists (vector_bytes x), (vector_bytes y).
  split; [by eapply vector_of_record|]. split; [by eapply vector_of_record|]. apply cosine_number; by eapply stored_nonzero.
Qed.

Context {C R : Type} `{HeapC : NodeHeap C, HeapR : NodeHeap R}.
Context {SpecC : NodeHeapSpec C f_gt} {SpecR : NodeHeapSpec R f_lt}.

(** The index over the records: a graph of the documents with a vector, each with its own. *)
Record index_of (v : VectorIndex) (docs : list Z) : Prop := {
  io_graph : graph_ok v;
  io_docs : m_DocIds v = docs;
  io_vectors : forall d x, d ∈ docs -> GetDocVector store d = Some x -> vi_GetDocVector v d = Some (vector_bytes x);
}.

Lemma adds_index v0 docs : graph_ok v0 -> m_DocIds v0 = [] -> m_VectorData v0 = out -> m_DocDataFirstDocId v0 = StoreFirstDocId store ->
  docs ≡ₚ vector_docs -> (Z.of_nat (17 * m_MaxNeighbors v0 * length docs) <= u32_max)%Z ->
  exists v, fold_option (fun v d => option_map fst (AddNode (C := C) (R := R) v d)) docs v0 = Some v /\ index_of v docs.
Proof.
  intros G Hd Hv Hf Hp Hroom. destruct (adds_ok (C := C) (R := R) docs v0 G) as (v & Hfold & G' & B).
  - rewrite Hp. apply vector_docs_range.
  - rewrite Hd. cbn. intros d e Hd' He'. rewrite Hp in Hd', He'. by apply (stored_scores v0 Hv Hf).
  - rewrite Hd. exact Hroom.
  - exists v. split; [done|]. rewrite Hd in B. destruct B as [B1 B2 B3 B4]. split; [done|done|]. intros d x Hin Hx.
    rewrite Hp in Hin. apply vector_docs_elem in Hin as [[st Hst] _]. eapply vector_of_record; [congruence|congruence|exact Hst|exact Hx].
Qed.

Lemma BuildVectorRuntime_index v0 : 2 <= m_MaxNeighbors v0 <= 255 -> (Z.of_nat (17 * m_MaxNeighbors v0 * length vector_docs) <= u32_max)%Z ->
  exists v, BuildVectorRuntime (C := C) (R := R) false v0 out header = Some v /\ index_of v vector_docs.
Proof.
  intros HM Hroom. unfold BuildVectorRuntime. rewrite (first_doc_id store Hstore out header t Hnum Hlen Hdocs).
  rewrite add_records_fold, records_are_vector_docs.
  - apply adds_index; try done. by apply empty_graph.
  - rewrite Forall_forall, Hnum, Hlen. intros i Hi. apply elem_of_seq in Hi. unfold DOC_REC_SIZE. lia.
Qed.

(** The build of a context adds them in the order of its document table. *)
Lemma add_documents_index `{DocOrder} : (Z.of_nat (17 * 32 * length vector_docs) <= u32_max)%Z ->
  exists v docs, add_documents (C := C) (R := R) store out = Some v /\ docs ≡ₚ vector_docs /\ index_of v docs.
Proof.
  intros Hroom. unfold add_documents. set (v0 := SetDocData _ _ _).
  assert (Hfold : forall l v, fold_option (fun v (doc : Z * DocStats) => if HasDocVector store doc.1 then option_map fst (AddNode (C := C) (R := R) v doc.1) else Some v) l v
    = fold_option (fun v d => option_map fst (AddNode (C := C) (R := R) v d)) (List.filter (HasDocVector store) (map fst l)) v).
  { induction l as [|[d st] l IH]; intros v; cbn; [done|]. destruct (HasDocVector store d); cbn; [|apply IH]. destruct (option_map fst _); [apply IH|done]. }
  rewrite Hfold. set (docs := List.filter _ _).
  assert (Hp : docs ≡ₚ vector_docs).
  { apply NoDup_Permutation; [|apply vector_docs_NoDup|].
    - apply NoDup_ListNoDup, List.NoDup_filter, NoDup_ListNoDup. change (map fst) with (fmap (M := list) (@fst Z DocStats)).
      rewrite doc_order_perm. apply NoDup_fst_map_to_list.
    - intros d. rewrite vector_docs_elem. unfold docs. rewrite list_elem_of_In, filter_In, <- list_elem_of_In. unfold HasDocVector at 1.
      rewrite bool_decide_eq_true. unfold GetDocVector. apply and_iff_compat_r. change (map fst) with (fmap (M := list) (@fst Z DocStats)).
      rewrite doc_order_perm, list_elem_of_fmap. split.
      + intros ([d' st] & -> & Hst%elem_of_map_to_list). by exists st.
      + intros [st Hst]. exists (d, st). split; [done|]. by apply elem_of_map_to_list. }
  destruct (adds_index v0 docs) as (v & Hv & Hio); try done; [apply empty_graph; [cbn; lia|done..]|rewrite (Permutation_length Hp); exact Hroom|]. by exists v, docs.
Qed.

(** * Searching the documents of the store *)

(** A document with its score: that of the vector of the store. *)
Definition stored_result (query : list f32) (metric : VectorMetric) (r : VectorSearchResult) : Prop :=
  exists x, GetDocVector store (vsr_doc_id r) = Some x /\ vsr_score r = ScoreQueryToDoc query (vector_bytes x) metric.

(** The documents, each once and with its score, best first. *)
Definition stored_ranking (query : list f32) (metric : VectorMetric) (docs : list Z) (rs : list VectorSearchResult) : Prop :=
  map vsr_doc_id rs ≡ₚ docs /\ Forall (stored_result query metric) rs /\ StronglySorted before rs.

Definition query_numeric (query : list f32) (metric : VectorMetric) : Prop :=
  forall d x, d ∈ vector_docs -> GetDocVector store d = Some x -> f_is_nan (ScoreQueryToDoc query (vector_bytes x) metric) = false.

Context (v : VectorIndex) (docs : list Z) (Hindex : index_of v docs) (Hperm : docs ≡ₚ vector_docs).
Context (query : list f32) (metric : VectorMetric) (Hquery : query_numeric query metric).

Lemma index_score id d : m_DocIds v !! Z.to_nat id = Some d ->
  exists x, GetDocVector store d = Some x /\ ScoreQuery v query metric id = Some (ScoreQueryToDoc query (vector_bytes x) metric) /\
    f_is_nan (ScoreQueryToDoc query (vector_bytes x) metric) = false.
Proof.
  intros Hid. assert (Hd : d ∈ docs) by (rewrite <- (io_docs _ _ Hindex); by eapply list_elem_of_lookup_2).
  pose proof Hd as Hvd. rewrite Hperm in Hvd. destruct (proj1 (vector_docs_elem d) Hvd) as [_ [x Hx]]. exists x. split; [done|].
  unfold ScoreQuery, GetNodeVector. rewrite Hid, (io_vectors _ _ Hindex d x Hd Hx). split; [done|]. by eapply Hquery.
Qed.

Lemma index_scored id : on_level v 0 id -> exists s, ScoreQuery v query metric id = Some s /\ f_is_nan s = false.
Proof.
  intros (_ & node & Hn & _). apply lookup_lt_Some in Hn. rewrite <- (la_ids _ (lo_layout _ (go_links _ (io_graph _ _ Hindex)))) in Hn.
  apply lookup_lt_is_Some in Hn as [d Hd]. destruct (index_score id d Hd) as (x & _ & Hs & Hnan). by eexists.
Qed.

(** The results of distinct nodes are distinct documents. *)
Lemma nodes_docs ids rs : Forall2 (node_result v query metric) ids rs -> NoDup ids -> Forall (fun id => 0 <= id)%Z ids ->
  NoDup (map vsr_doc_id rs) /\ Forall (fun d => d ∈ vector_docs) (map vsr_doc_id rs) /\ Forall (stored_result query metric) rs.
Proof.
  assert (Hnd : NoDup (m_DocIds v)) by (rewrite (io_docs _ _ Hindex), Hperm; apply vector_docs_NoDup).
  induction 1 as [|id r ids rs [Hd Hs] Hrs IH]; intros Hids Hpos; [repeat split; constructor|].
  inversion Hids as [|? ? Hnew Hids']; subst. inversion Hpos as [|? ? H0 Hpos']; subst. destruct (IH Hids' Hpos') as (H1 & H2 & H3).
  cbn [map]. split; [constructor; [|done]|split; constructor; try done].
  - intros Hin. apply list_elem_of_fmap in Hin as (r' & He & Hr'). apply list_elem_of_lookup in Hr' as [i Hi].
    destruct (Forall2_lookup_r _ _ _ _ _ Hrs Hi) as (id' & Hid' & [Hd' _]). rewrite He in Hd.
    assert (Z.to_nat id = Z.to_nat id') by (eapply NoDup_lookup; [exact Hnd|exact Hd|exact Hd']). apply list_elem_of_lookup_2 in Hid'.
    rewrite Forall_forall in Hpos'. specialize (Hpos' _ Hid'). cbn in Hpos'. assert (id = id') as -> by lia. done.
  - rewrite <- Hperm, <- (io_docs _ _ Hindex). by eapply list_elem_of_lookup_2.
  - destruct (index_score id _ Hd) as (x & Hx & Hs' & _). exists x. split; [done|]. congruence.
Qed.

Lemma index_search topK efSearch : length query = DOC_VECTOR_DIM ->
  exists rs, vector_Search (C := C) (R := R) v query topK metric efSearch = Some rs /\
    if topK =? 0 then stored_ranking query metric vector_docs rs
    else exists found all, NoDup found /\ (forall d, d ∈ found -> d ∈ vector_docs) /\ stored_ranking query metric found all /\ rs = take topK all.
Proof.
  intros Hlen'. pose proof (io_graph _ _ Hindex) as G. pose proof (la_ids _ (lo_layout _ (go_links _ G))) as Hids. rewrite (io_docs _ _ Hindex) in Hids.
  destruct (decide (m_Nodes v = [])) as [Hnil|Hne].
  { exists []. split; [unfold vector_Search; rewrite Hnil; by destruct (negb _)|]. rewrite Hnil in Hids.
    assert (docs = []) as Hdn by (apply nil_length_inv, Hids). rewrite Hdn in Hperm. apply Permutation_nil_l in Hperm.
    assert (stored_ranking query metric [] []) as Hr by (repeat split; constructor).
    destruct (topK =? 0); [by rewrite <- Hperm|]. exists [], []. split; [constructor|]. split; [by intros d Hd%not_elem_of_nil|]. split; [done|]. by destruct topK. }
  destruct (vector_Search_found v query metric G index_scored (C := C) (R := R) topK efSearch Hlen' Hne) as (rs & Hrs & entry & ns & ids & all & _ & _ & Hnd & Hon & Hrank & Hcase).
  destruct Hrank as [(ids' & Hp & Hall) Hsorted].
  assert (Hpos : Forall (fun id => 0 <= id)%Z ids') by (rewrite Hp; eapply Forall_impl; [exact Hon|]; by intros id [? _]).
  assert (Hnd' : NoDup ids') by by rewrite Hp.
  destruct (nodes_docs ids' all Hall Hnd' Hpos) as (H1 & H2 & H3). rewrite Forall_forall in H2. exists rs. split; [done|].
  destruct (topK =? 0).
  - destruct Hcase as [-> Hevery]. split; [|by split]. apply NoDup_Permutation; [done|apply vector_docs_NoDup|]. intros d. split; [apply H2|].
    rewrite <- Hperm, <- (io_docs _ _ Hindex). intros Hd. apply list_elem_of_lookup in Hd as [i Hi].
    assert (Hni : on_level v 0 (Z.of_nat i)).
    { split; [lia|]. rewrite Nat2Z.id. apply lookup_lt_Some in Hi. rewrite (io_docs _ _ Hindex), Hids in Hi.
      apply lookup_lt_is_Some in Hi as [node Hn]. exists node. split; [done|lia]. }
    specialize (Hevery _ Hni). rewrite <- Hp in Hevery. apply list_elem_of_lookup in Hevery as [k Hk].
    destruct (Forall2_lookup_l _ _ _ _ _ Hall Hk) as (r & Hr & [Hrd _]). rewrite Nat2Z.id in Hrd.
    apply list_elem_of_fmap. exists r. split; [congruence|]. by eapply list_elem_of_lookup_2.
  - destruct Hcase as [-> _]. exists (map vsr_doc_id all), all. split; [done|]. split; [done|]. split; [|done]. by split.
Qed.
End records.

(** * Properties *)

(** C12: the vector search of a context over the encoded records of a store builds an index that keeps the invariant of the graph
    and has exactly the documents with a vector, and answers with their scores for the vectors of the store, best first and
    lower documents first among equals: all of them without a limit, with a limit the best of a set of distinct such documents.
    The vectors must not be zero and the scores of the query numbers. *)
Theorem VectorSearch_ranks_store `{Libm, DocOrder} {C R : Type} `{HeapC : NodeHeap C, HeapR : NodeHeap R}
    {SpecC : NodeHeapSpec C f_gt} {SpecR : NodeHeapSpec R f_lt} store v0 query metric topK efSearch :
  docs_wf store -> (forall d x, GetDocVector store d = Some x -> exists i y, x !! i = Some y /\ y <> 0%Z) ->
  2 <= m_MaxNeighbors v0 <= 255 -> (Z.of_nat (17 * m_MaxNeighbors v0 * length (vector_docs store)) <= u32_max)%Z ->
  length query = DOC_VECTOR_DIM -> query_numeric store query metric ->
  exists out sidecar ps, EncodeDocData store = Some (out, sidecar, ps) /\
    forall header, IFH_NumDocuments header = StoreDocDataRecordCount store ->
    exists v rs, ctx_VectorSearch (C := C) (R := R) false v0 out header query topK metric efSearch = Some (v, rs) /\
      graph_ok v /\ m_DocIds v = vector_docs store /\
      if topK =? 0 then stored_ranking store query metric (vector_docs store) rs
      else exists found all, NoDup found /\ (forall d, d ∈ found -> d ∈ vector_docs store) /\
        stored_ranking store query metric found all /\ rs = take topK all.
Proof.
  intros Hs Hz HM Hroom Hq Hnum. destruct (EncodeDocData_ok store Hs) as (out & sc & t & He & _ & _ & _ & Hl & Hdocs & Hblank).
  exists out, sc, (prefixes t). split; [done|]. intros header Hn.
  destruct (BuildVectorRuntime_index store Hs out header t Hn Hl Hdocs Hblank Hz (C := C) (R := R) v0 HM Hroom) as (v & Hv & Hio).
  destruct (index_search store out Hl v (vector_docs store) Hio ltac:(done) query metric Hnum (C := C) (R := R) topK efSearch Hq) as (rs & Hrs & Hcase).
  exists v, rs. unfold ctx_VectorSearch. rewrite Hv, Hrs. split; [done|]. split; [apply Hio|]. split; [apply Hio|done].
Qed.

(** * Witnesses *)

(** Documents 4, 5 and 6, the first and the last with a vector. *)
Definition vector_store : PostingStore :=
  {| m_Postings := ∅; m_DocStats := <[4%Z := docstats_default]> (<[5%Z := docstats_default]> {[6%Z := docstats_default]});
     m_DocVectors := <[4%Z := replicate DOC_VECTOR_DIM (-3)%Z]> {[6%Z := replicate DOC_VECTOR_DIM 5%Z]}; m_TotalTerms := 0; m_PostingEntries := 0 |}.

Definition sample_query : list f32 := replicate DOC_VECTOR_DIM (f_of_Z F32 1).

Lemma vector_store_wf : docs_wf vector_store.
Proof.
  split.
  - apply map_Forall_insert_2; [|apply map_Forall_insert_2; [|apply map_Forall_singleton]]; split_and!; try done.
  - apply map_Forall_insert_2; [|apply map_Forall_singleton]; (split; [done|]); apply Forall_replicate; lia.
Qed.

Lemma vector_store_vectors d x : GetDocVector vector_store d = Some x -> x = replicate DOC_VECTOR_DIM (-3)%Z \/ x = replicate DOC_VECTOR_DIM 5%Z.
Proof.
  unfold GetDocVector, vector_store. cbn [m_DocVectors]. intros [[_ <-]|[_ [_ <-]%lookup_singleton_Some]]%lookup_insert_Some; [by left|by right].
Qed.

Lemma VectorSearch_ranks_store_witness :
  exists out sidecar ps header v rs, @EncodeDocData sample_libm sample_doc_order vector_store = Some (out, sidecar, ps) /\
    ctx_VectorSearch (C := node_list f_gt) (R := node_list f_lt) false (vector_new 32 200) out header sample_query 0 DotProduct 10 = Some (v, rs) /\
    map vsr_doc_id rs ≡ₚ vector_docs vector_store /\ vector_docs vector_store = [4; 6]%Z.
Proof.
  destruct (@VectorSearch_ranks_store sample_libm sample_doc_order (node_list f_gt) (node_list f_lt) _ _ _ _ vector_store (vector_new 32 200) sample_query DotProduct 0 10)
    as (out & sc & ps & He & Hall).
  - exact vector_store_wf.
  - intros d x Hx. destruct (vector_store_vectors d x Hx) as [-> | ->]; eexists 0, _; (split; [reflexivity|done]).
  - cbn. lia.
  - apply Z.leb_le. vm_compute. reflexivity.
  - reflexivity.
  - intros d x _ Hx. destruct (vector_store_vectors d x Hx) as [-> | ->]; vm_compute; reflexivity.
  - set (header := header_of INDEX_FILE_MAGIC INDEX_FORMAT_VERSION 0 (fun i => if i =? 0 then 3%Z else 0%Z)).
    destruct (Hall header) as (v & rs & Hrs & _ & _ & Hrank); [vm_compute; reflexivity|].
    exists out, sc, ps, header, v, rs. split; [exact He|]. split; [exact Hrs|]. split; [exact (proj1 Hrank)|]. vm_compute. reflexivity.
Defined.
