(* ===== verification/HttpText.v ===== *)
(** The text formats of the HTTP service (bin/shennong.rs): percent-decoding, query
    strings, decimal numbers, JSON strings, with the functions of the standard
    library they call (from_utf8_lossy, str::split, splitn, from_str_radix, parse). *)

From Stdlib Require Import Ascii String.
From Stdlib Require Import ZArith Lia ZifyBool Bool List.
From stdpp Require Import base gmap list list_numbers.
From S2P Require Import Prelude PathSidecar SmartTokenizer.

Local Open Scope moon_scope.

Definition chr (s : String.string) : Z := nth 0 (of_string s) 0%Z.
Arguments chr _%_string_scope.

(** A text of the source, with the double quotes written as single ones. *)
Definition quoted (s : String.string) : str := map (fun b => if (b =? 39)%Z then 34%Z else b) (of_string s).
Arguments quoted _%_string_scope.

(** * The standard library *)

(** U+FFFD. *)
Definition REPLACEMENT : str := [0xEF; 0xBF; 0xBD]%Z.

(** [String::from_utf8_lossy]: each longest prefix of a sequence that is not
    completed becomes U+FFFD. *)
Fixpoint from_utf8_lossy (l : bytes) : str :=
  match l with
  | [] => []
  | b0 :: r =>
      if in_range 0 127 b0 then b0 :: from_utf8_lossy r
      else if in_range 194 223 b0 then
        match r with
        | b1 :: r1 => if is_continuation b1 then b0 :: b1 :: from_utf8_lossy r1 else REPLACEMENT ++ from_utf8_lossy r
        | [] => REPLACEMENT
        end
      else if in_range 224 239 b0 then
        match r with
        | b1 :: r1 =>
            if in_range (if (b0 =? 224)%Z then 160 else 128) (if (b0 =? 237)%Z then 159 else 191) b1 then
              match r1 with
              | b2 :: r2 => if is_continuation b2 then b0 :: b1 :: b2 :: from_utf8_lossy r2 else REPLACEMENT ++ from_utf8_lossy r1
              | [] => REPLACEMENT
              end
            else REPLACEMENT ++ from_utf8_lossy r
        | [] => REPLACEMENT
        end
      else if in_range 240 244 b0 then
        match r with
        | b1 :: r1 =>
            if in_range (if (b0 =? 240)%Z then 144 else 128) (if (b0 =? 244)%Z then 143 else 191) b1 then
              match r1 with
              | b2 :: r2 =>
                  if is_continuation b2 then
                    match r2 with
                    | b3 :: r3 => if is_continuation b3 then b0 :: b1 :: b2 :: b3 :: from_utf8_lossy r3 else REPLACEMENT ++ from_utf8_lossy r2
                    | [] => REPLACEMENT
                    end
                  else REPLACEMENT ++ from_utf8_lossy r1
              | [] => REPLACEMENT
              end
            else REPLACEMENT ++ from_utf8_lossy r
        | [] => REPLACEMENT
        end
      else REPLACEMENT ++ from_utf8_lossy r
  end.

(** [char::to_digit], of an ASCII byte. *)
Definition to_digit (radix b : Z) : option Z :=
  let value := if in_range 48 57 b then (b - 48)%Z else if in_range 97 122 b then (b - 87)%Z else if in_range 65 90 b then (b - 55)%Z else radix in
  if (value <? radix)%Z then Some value else None.

(** The digits of an unsigned number up to [max]; [None]: ParseIntError. *)
Fixpoint parse_digits (radix max acc : Z) (l : str) : option Z :=
  match l with
  | [] => Some acc
  | b :: l' =>
      opt digit := to_digit radix b in
      let value := (acc * radix + digit)%Z in
      if (value <=? max)%Z then parse_digits radix max value l' else None
  end.

(** [uN::from_str_radix]: one leading [+] is skipped. *)
Definition from_str_radix (radix max : Z) (l : str) : option Z :=
  match l with
  | [] => None
  | [b] => if (b =? chr "+")%Z || (b =? chr "-")%Z then None else parse_digits radix max 0 l
  | b :: l' => if (b =? chr "+")%Z then parse_digits radix max 0 l' else parse_digits radix max 0 l
  end.

(** [str::parse::<usize>]. *)
Definition parse_usize (l : str) : option Z := from_str_radix 10 u64_max l.

(** [str::split] on a character. *)
Fixpoint split (sep : Z) (l : str) : list str :=
  match l with
  | [] => [[]]
  | b :: l' =>
      if (b =? sep)%Z then [] :: split sep l'
      else match split sep l' with
           | piece :: pieces => (b :: piece) :: pieces
           | [] => [[b]]
           end
  end.

(** [str::split_once]. *)
Fixpoint split_once (sep : Z) (l : str) : option (str * str) :=
  match l with
  | [] => None
  | b :: l' =>
      if (b =? sep)%Z then Some ([], l')
      else opt r := split_once sep l' in Some (b :: r.1, r.2)
  end.

(** [str::is_char_boundary] where the rest of the string starts. *)
Definition is_char_boundary (rest : str) : bool :=
  match rest with [] => true | b :: _ => negb (is_continuation b) end.

(** * shennong.rs *)

(** The loop of url_decode; [None]: the slice of the two digits panics, because it
    ends inside a character. *)
Fixpoint url_decode_loop (input : str) : option bytes :=
  match input with
  | [] => Some []
  | b :: rest =>
      if (b =? chr "+")%Z then opt out := url_decode_loop rest in Some (32%Z :: out)
      else if (b =? chr "%")%Z then
        match rest with
        | h1 :: h2 :: rest' =>
            if is_char_boundary rest && is_char_boundary rest' then
              match from_str_radix 16 255 [h1; h2] with
              | Some value => opt out := url_decode_loop rest' in Some (value :: out)
              | None => opt out := url_decode_loop rest in Some (b :: out)
              end
            else None
        | _ => opt out := url_decode_loop rest in Some (b :: out)
        end
      else opt out := url_decode_loop rest in Some (b :: out)
  end.

Definition url_decode (input : str) : option str :=
  opt out := url_decode_loop input in Some (from_utf8_lossy out).

(** [part.splitn(2, '=')]: the key and the value of a part. *)
Definition key_value (part : str) : str * str := default (part, []) (split_once (chr "=") part).

Fixpoint insert_parts (parts : list str) (values : gmap str str) : option (gmap str str) :=
  match parts with
  | [] => Some values
  | part :: parts' =>
      match part with
      | [] => insert_parts parts' values
      | _ =>
          opt key := url_decode (key_value part).1 in
          opt value := url_decode (key_value part).2 in
          insert_parts parts' (<[key := value]> values)
      end
  end.

Definition parse_query (query : str) : option (gmap str str) := insert_parts (split (chr "&") query) ∅.

(** [{:04x}] of a number below 2^16. *)
Definition hex_digit (v : Z) : Z := if (v <? 10)%Z then (48 + v)%Z else (87 + v)%Z.
Definition hex4 (v : Z) : str := map (fun i => hex_digit (v / 16 ^ i mod 16)) [3; 2; 1; 0]%Z.

Definition json_escape_char (ch : str) : str :=
  match ch with
  | [b] =>
      if (b =? 92)%Z then [92; 92]%Z
      else if (b =? 34)%Z then [92; 34]%Z
      else if (b =? 10)%Z then of_string "\n"
      else if (b =? 13)%Z then of_string "\r"
      else if (b =? 9)%Z then of_string "\t"
      else if (b <? 32)%Z then of_string "\u" ++ hex4 b
      else ch
  | _ => ch
  end.

Definition json_escape (input : str) : str := concat (map json_escape_char (chars input)).

Definition query_int (query : gmap str str) (key : str) (default_value min_value max_value : Z) : Z :=
  let value := default default_value (opt value := query !! key in parse_usize value) in
  Z.max min_value (Z.min value max_value).

(** [{}] of an unsigned number. *)
Fixpoint decimal_loop (fuel : nat) (v : Z) (out : str) : str :=
  match fuel with
  | O => out
  | S fuel' =>
      let out := (48 + v mod 10)%Z :: out in
      if (v <? 10)%Z then out else decimal_loop fuel' (v / 10) out
  end.
Definition decimal (v : Z) : str := decimal_loop 20 v [].

(** The pieces between which [body.push(',')] puts a comma. *)
Fixpoint commas (pieces : list str) : str :=
  match pieces with
  | [] => []
  | [p] => p
  | p :: pieces' => p ++ of_string "," ++ commas pieces'
  end.

(** * Percent-encoding, the reference *)

Definition is_unreserved (b : Z) : bool :=
  in_range 48 57 b || in_range 65 90 b || in_range 97 122 b || existsb (Z.eqb b) (of_string "-_.~").

Definition percent_encode (s : str) : str :=
  concat (map (fun b => if is_unreserved b then [b] else [chr "%"; hex_digit (b / 16); hex_digit (b mod 16)]) s).

Definition encode_pair (p : str * str) : str := percent_encode p.1 ++ chr "=" :: percent_encode p.2.

Fixpoint encode_pairs (ps : list (str * str)) : str :=
  match ps with
  | [] => []
  | [p] => encode_pair p
  | p :: ps' => encode_pair p ++ chr "&" :: encode_pairs ps'
  end.

(** * Reading a JSON string, the reference (RFC 8259, without surrogate pairs)

    The input starts after the opening quote; the string and what follows its
    closing quote. *)

Definition utf8_of_code_point (c : Z) : str :=
  if (c <? 0x80)%Z then [c]
  else if (c <? 0x800)%Z then [192 + c / 64; 128 + c mod 64]%Z
  else [224 + c / 4096; 128 + c / 64 mod 64; 128 + c mod 64]%Z.

Definition simple_escape (b : Z) : option Z :=
  match b with
  | 34 => Some 34 | 92 => Some 92 | 47 => Some 47 | 98 => Some 8 | 102 => Some 12
  | 110 => Some 10 | 114 => Some 13 | 116 => Some 9 | _ => None
  end%Z.

Fixpoint read_json_string (l : str) : option (str * str) :=
  match l with
  | [] => None
  | b :: l1 =>
      if (b =? 34)%Z then Some ([], l1)
      else if (b <? 32)%Z then None
      else if (b =? 92)%Z then
        match l1 with
        | e :: l2 =>
            if (e =? 117)%Z then
              match l2 with
              | d3 :: d2 :: d1 :: d0 :: l3 =>
                  opt c := parse_digits 16 0xFFFF 0 [d3; d2; d1; d0] in
                  opt r := read_json_string l3 in
                  Some (utf8_of_code_point c ++ r.1, r.2)
              | _ => None
              end
            else
              opt c := simple_escape e in
              opt r := read_json_string l2 in
              Some (c :: r.1, r.2)
        | [] => None
        end
      else opt r := read_json_string l1 in Some (b :: r.1, r.2)
  end.

(** * Proofs *)

Lemma lossy_id l : is_utf8 l = true -> from_utf8_lossy l = l.
Proof.
  remember (length l) as n eqn:Hn. revert l Hn. induction n as [n IH] using lt_wf_ind. intros [|b0 r] -> Hu; [done|].
  cbn [is_utf8 from_utf8_lossy] in Hu |- *. destruct (in_range 0 127 b0); [f_equal; by eapply IH; [|done|]; [cbn; lia|]|].
  destruct r as [|b1 r]; [done|]. destruct (in_range 194 223 b0).
  { apply andb_true_iff in Hu as [-> Hu]. do 2 f_equal. by eapply IH; [|done|]; [cbn; lia|]. }
  destruct r as [|b2 r]; [done|]. destruct (in_range 224 239 b0).
  { apply andb_true_iff in Hu as [[-> ->]%andb_true_iff Hu]. do 3 f_equal. by eapply IH; [|done|]; [cbn; lia|]. }
  destruct r as [|b3 r]; [done|]. rewrite !andb_true_iff in Hu. destruct Hu as ((((-> & ->) & ->) & ->) & Hu).
  do 4 f_equal. by eapply IH; [|done|]; [cbn; lia|].
Qed.

Lemma hex_digit_value v : (0 <= v < 16)%Z -> to_digit 16 (hex_digit v) = Some v.
Proof.
  intros Hv. unfold hex_digit, to_digit, in_range.
  destruct (v <? 10)%Z eqn:E.
  - replace ((48 <=? 48 + v) && (48 + v <=? 57))%Z with true by lia. replace (48 + v - 48 <? 16)%Z with true by lia. f_equal; lia.
  - replace ((48 <=? 87 + v) && (87 + v <=? 57))%Z with false by lia.
    replace ((97 <=? 87 + v) && (87 + v <=? 122))%Z with true by lia. replace (87 + v - 87 <? 16)%Z with true by lia. f_equal; lia.
Qed.

Lemma hex_digit_range v : (0 <= v < 16)%Z -> (48 <= hex_digit v <= 102)%Z.
Proof. intros Hv. unfold hex_digit. destruct (v <? 10)%Z eqn:E; lia. Qed.

Lemma ascii_boundary b l : (0 <= b < 128)%Z -> is_char_boundary (b :: l) = true.
Proof. intros Hb. cbn. unfold is_continuation, in_range. lia. Qed.

Lemma hex_byte v : in_u 8 v -> from_str_radix 16 255 [hex_digit (v / 16); hex_digit (v mod 16)] = Some v.
Proof.
  intros Hv. unfold in_u in Hv. change (2 ^ 8)%Z with 256%Z in Hv. pose proof (Z.mod_pos_bound v 16 ltac:(lia)). pose proof (Z.div_mod v 16 ltac:(lia)) as Hdm.
  assert (0 <= v / 16 < 16)%Z by (split; [apply Z.div_pos; lia|apply Z.div_lt_upper_bound; lia]).
  pose proof (hex_digit_range (v / 16) ltac:(lia)). unfold from_str_radix. change (chr "+") with 43%Z.
  replace (hex_digit (v / 16) =? 43)%Z with false by lia. cbn [parse_digits]. rewrite !hex_digit_value by lia.
  replace (0 * 16 + v / 16)%Z with (v / 16)%Z by lia.
  replace (v / 16 <=? 255)%Z with true by lia. replace (v / 16 * 16 + v mod 16)%Z with v by lia. by replace (v <=? 255)%Z with true by lia.
Qed.

Lemma utf8_bytes l : is_utf8 l = true -> is_bytes l.
Proof.
  unfold is_bytes, in_u. change (2 ^ 8)%Z with 256%Z.
  remember (length l) as n eqn:Hn. revert l Hn. induction n as [n IH] using lt_wf_ind. intros [|b0 r] -> Hu; [done|].
  cbn [is_utf8] in Hu. unfold is_continuation, in_range in Hu.
  destruct ((0 <=? b0) && (b0 <=? 127))%Z eqn:E0; [constructor; [lia|by eapply IH; [|done|]; [cbn; lia|]]|].
  destruct r as [|b1 r]; [done|]. destruct ((194 <=? b0) && (b0 <=? 223))%Z eqn:E1.
  { apply andb_true_iff in Hu as [Hb Hu]. do 2 (constructor; [lia|]). by eapply IH; [|done|]; [cbn; lia|]. }
  destruct r as [|b2 r]; [done|]. destruct ((224 <=? b0) && (b0 <=? 239))%Z eqn:E2.
  { apply andb_true_iff in Hu as [[Hb Hb2]%andb_true_iff Hu]. constructor; [lia|]. constructor; [destruct (b0 =? 224)%Z, (b0 =? 237)%Z; lia|]. constructor; [lia|].
    by eapply IH; [|done|]; [cbn; lia|]. }
  destruct r as [|b3 r]; [done|]. rewrite !andb_true_iff in Hu. destruct Hu as ((((Hb0 & Hb1) & Hb2) & Hb3) & Hu).
  constructor; [lia|]. constructor; [destruct (b0 =? 240)%Z, (b0 =? 244)%Z; lia|]. do 2 (constructor; [lia|]). by eapply IH; [|done|]; [cbn; lia|].
Qed.

(** What percent-encoding leaves: no separator, no plus sign, ASCII. *)
Definition plain (b : Z) : Prop := (b = 37 \/ is_unreserved b = true)%Z.

Lemma plain_separators b : plain b -> b <> chr "&" /\ b <> chr "=" /\ b <> chr "+" /\ (0 <= b < 128)%Z.
Proof.
  change (chr "&") with 38%Z. change (chr "=") with 61%Z. change (chr "+") with 43%Z.
  intros [->|Hu]; [lia|]. unfold is_unreserved, in_range in Hu.
  change (of_string "-_.~") with [45; 95; 46; 126]%Z in Hu. cbn [existsb] in Hu. lia.
Qed.

Lemma percent_encode_plain s : is_bytes s -> Forall plain (percent_encode s).
Proof.
  induction 1 as [|b s Hb Hs IH]; [constructor|]. unfold percent_encode. cbn [map concat]. apply Forall_app. split; [|exact IH].
  destruct (is_unreserved b) eqn:E; [by constructor; [right|]|]. unfold in_u in Hb. change (2 ^ 8)%Z with 256%Z in Hb.
  assert (Hp : forall v, (0 <= v < 16)%Z -> plain (hex_digit v)).
  { intros v Hv. right. unfold hex_digit, is_unreserved, in_range. destruct (v <? 10)%Z eqn:E2; lia. }
  constructor; [by left|]. constructor; [|constructor; [|constructor]]; apply Hp.
  - split; [apply Z.div_pos; lia|apply Z.div_lt_upper_bound; lia].
  - apply Z.mod_pos_bound; lia.
Qed.

Lemma plain_boundary l : Forall plain l -> is_char_boundary l = true.
Proof. destruct 1 as [|b l' Hb Hl]; [done|]. by apply ascii_boundary, plain_separators. Qed.

Lemma url_decode_loop_encoded s : is_bytes s -> url_decode_loop (percent_encode s) = Some s.
Proof.
  induction 1 as [|b s Hb Hs IH]; [done|]. pose proof (percent_encode_plain s Hs) as Hp. unfold percent_encode in *. cbn [map concat].
  destruct (is_unreserved b) eqn:E; cbn [app].
  - destruct (plain_separators b (or_intror E)) as (_ & _ & Hplus & _). cbn [url_decode_loop].
    replace (b =? chr "+")%Z with false by lia. replace (b =? chr "%")%Z with false; [by rewrite IH|].
    symmetry. apply Z.eqb_neq. intros ->. by vm_compute in E.
  - cbn [url_decode_loop]. change (chr "%" =? chr "+")%Z with false. rewrite (Z.eqb_refl (chr "%")).
    rewrite (plain_boundary _ Hp), ascii_boundary, hex_byte by
      (try done; pose proof (hex_digit_range (b / 16)); unfold in_u in Hb; change (2 ^ 8)%Z with 256%Z in Hb;
       assert (0 <= b / 16 < 16)%Z by (split; [apply Z.div_pos; lia|apply Z.div_lt_upper_bound; lia]); lia).
    cbn [andb]. by rewrite IH.
Qed.

Lemma url_decode_encoded s : is_utf8 s = true -> url_decode (percent_encode s) = Some s.
Proof. intros Hs. unfold url_decode. rewrite url_decode_loop_encoded by by apply utf8_bytes. by rewrite lossy_id. Qed.

Lemma split_one sep l : Forall (fun b => b <> sep) l -> split sep l = [l].
Proof.
  induction 1 as [|b l Hb Hl IH]; [done|]. cbn. rewrite IH. by replace (b =? sep)%Z with false by lia.
Qed.

Lemma split_cons sep l r : Forall (fun b => b <> sep) l -> split sep (l ++ sep :: r) = l :: split sep r.
Proof.
  induction 1 as [|b l Hb Hl IH]; cbn; [by rewrite Z.eqb_refl|]. rewrite IH. by replace (b =? sep)%Z with false by lia.
Qed.

Lemma split_once_at sep l r : Forall (fun b => b <> sep) l -> split_once sep (l ++ sep :: r) = Some (l, r).
Proof.
  induction 1 as [|b l Hb Hl IH]; cbn; [by rewrite Z.eqb_refl|]. rewrite IH. by replace (b =? sep)%Z with false by lia.
Qed.

(** A pair of UTF-8 strings, and what its encoding is split into. *)
Definition pair_ok (p : str * str) : Prop := is_utf8 p.1 = true /\ is_utf8 p.2 = true.

Lemma key_value_encoded p : pair_ok p -> key_value (encode_pair p) = (percent_encode p.1, percent_encode p.2).
Proof.
  intros [H1 H2]. unfold key_value, encode_pair. rewrite split_once_at; [done|].
  eapply Forall_impl; [by apply percent_encode_plain, utf8_bytes|]. intros b Hb. by apply plain_separators.
Qed.

Lemma encode_pair_amp p : pair_ok p -> Forall (fun b => b <> chr "&") (encode_pair p).
Proof.
  intros [H1 H2]. unfold encode_pair. apply Forall_app. split; [|constructor; [done|]];
    (eapply Forall_impl; [by apply percent_encode_plain, utf8_bytes|]; intros b Hb; by apply plain_separators).
Qed.

Lemma insert_encoded p parts values : pair_ok p ->
  insert_parts (encode_pair p :: parts) values = insert_parts parts (<[p.1 := p.2]> values).
Proof.
  intros Hp. pose proof (key_value_encoded p Hp) as Hk. cbn [insert_parts].
  destruct (encode_pair p) as [|b l] eqn:E.
  - unfold encode_pair in E. by destruct (percent_encode p.1).
  - rewrite Hk. cbn [fst snd]. by rewrite !url_decode_encoded by apply Hp.
Qed.

Lemma split_encoded ps : Forall pair_ok ps ->
  forall values, insert_parts (split (chr "&") (encode_pairs ps)) values = Some (fold_left (fun m p => <[p.1 := p.2]> m) ps values).
Proof.
  induction 1 as [|p ps Hp Hps IH]; intros values; [done|]. destruct ps as [|q ps].
  - cbn [encode_pairs]. rewrite split_one by by apply encode_pair_amp. by rewrite insert_encoded.
  - change (encode_pairs (p :: q :: ps)) with (encode_pair p ++ chr "&" :: encode_pairs (q :: ps)).
    rewrite split_cons by by apply encode_pair_amp. rewrite insert_encoded by done. apply IH.
Qed.

Lemma parse_query_encoded ps : Forall pair_ok ps ->
  parse_query (encode_pairs ps) = Some (fold_left (fun m p => <[p.1 := p.2]> m) ps ∅).
Proof. intros Hp. by apply split_encoded. Qed.

(** A slice that ends inside a character panics. *)
Lemma url_decode_loop_panics pre h c rest :
  Forall plain pre -> Forall (fun b => b <> chr "%") pre -> (0 <= h < 128)%Z -> (128 <= c)%Z ->
  is_char_boundary rest = false -> url_decode_loop (pre ++ chr "%" :: h :: c :: rest) = None.
Proof.
  intros Hp Hpre Hh Hc Hr. induction Hp as [|b pre Hb Hp IH].
  - cbn [app url_decode_loop]. change (chr "%" =? chr "+")%Z with false. rewrite Z.eqb_refl, Hr. by rewrite andb_false_r.
  - inversion Hpre as [|? ? Hne Hpre']; subst. apply plain_separators in Hb as (_ & _ & Hb & _). cbn [app url_decode_loop].
    replace (b =? chr "+")%Z with false by lia. replace (b =? chr "%")%Z with false by lia. by rewrite IH.
Qed.

(** Characters: one ASCII byte, or bytes above ASCII. *)
Definition char_shape (c : str) : Prop := (exists b, c = [b] /\ (0 <= b < 128)%Z) \/ (2 <= length c /\ Forall (fun b => 128 <= b)%Z c).

Lemma chars_shape s : is_utf8 s = true -> Forall char_shape (chars s).
Proof.
  remember (length s) as n eqn:Hn. revert s Hn. induction n as [n IH] using lt_wf_ind. intros [|b0 r] -> Hu; [done|].
  cbn [is_utf8 chars] in Hu |- *. unfold is_continuation, in_range in Hu |- *.
  destruct ((0 <=? b0) && (b0 <=? 127))%Z eqn:E0.
  { constructor; [left; exists b0; split; [done|lia]|by eapply IH; [|done|]; [cbn; lia|]]. }
  destruct r as [|b1 r]; [done|]. destruct ((194 <=? b0) && (b0 <=? 223))%Z eqn:E1.
  { apply andb_true_iff in Hu as [Hb Hu]. constructor; [|by eapply IH; [|done|]; [cbn; lia|]].
    right. split; [cbn; lia|]. repeat constructor; lia. }
  destruct r as [|b2 r]; [done|]. destruct ((224 <=? b0) && (b0 <=? 239))%Z eqn:E2.
  { apply andb_true_iff in Hu as [[Hb Hb2]%andb_true_iff Hu]. constructor; [|by eapply IH; [|done|]; [cbn; lia|]].
    right. split; [cbn; lia|]. destruct (b0 =? 224)%Z, (b0 =? 237)%Z; repeat constructor; lia. }
  destruct r as [|b3 r]; [done|]. rewrite !andb_true_iff in Hu. destruct Hu as ((((Hb0 & Hb1) & Hb2) & Hb3) & Hu).
  constructor; [|by eapply IH; [|done|]; [cbn; lia|]].
  right. split; [cbn; lia|]. destruct (b0 =? 240)%Z, (b0 =? 244)%Z; repeat constructor; lia.
Qed.

(** Bytes that need no escape are read as they are. *)
Lemma read_plain c rest s t : Forall (fun b => 32 <= b /\ b <> 34 /\ b <> 92)%Z c ->
  read_json_string rest = Some (s, t) -> read_json_string (c ++ rest) = Some (c ++ s, t).
Proof.
  intros Hc Hr. induction Hc as [|b c (Hb & H34 & H92) Hc IH]; [done|]. cbn [app read_json_string].
  replace (b =? 34)%Z with false by lia. replace (b <? 32)%Z with false by lia. replace (b =? 92)%Z with false by lia.
  by rewrite IH.
Qed.

Lemma hex4_value : forallb (fun v => bool_decide (parse_digits 16 0xFFFF 0 (hex4 v) = Some v)) (map Z.of_nat (seq 0 32)) = true.
Proof. by vm_compute. Qed.

Lemma read_control b rest s t : (0 <= b < 32)%Z ->
  read_json_string rest = Some (s, t) -> read_json_string (of_string "\u" ++ hex4 b ++ rest) = Some (b :: s, t).
Proof.
  intros Hb Hr. pose proof hex4_value as Hv. rewrite forallb_forall in Hv.
  assert (Hin : In b (map Z.of_nat (seq 0 32))) by (apply in_map_iff; exists (Z.to_nat b); split; [lia|apply in_seq; lia]).
  apply Hv, bool_decide_eq_true in Hin. unfold hex4 in *. cbn [map] in *.
  change (of_string "\u") with [92; 117]%Z. cbn [app read_json_string].
  change (92 =? 34)%Z with false. change (92 <? 32)%Z with false. rewrite (Z.eqb_refl 92), Hin, Hr.
  unfold utf8_of_code_point. by replace (b <? 128)%Z with true by lia.
Qed.

Lemma read_simple e b rest s t : simple_escape e = Some b -> e <> 117%Z ->
  read_json_string rest = Some (s, t) -> read_json_string (92%Z :: e :: rest) = Some (b :: s, t).
Proof.
  intros He Hne Hr. cbn [read_json_string]. change (92 =? 34)%Z with false. change (92 <? 32)%Z with false. rewrite (Z.eqb_refl 92).
  replace (e =? 117)%Z with false by lia. by rewrite He, Hr.
Qed.

Lemma read_escaped_char c rest s t : char_shape c -> read_json_string rest = Some (s, t) ->
  read_json_string (json_escape_char c ++ rest) = Some (c ++ s, t).
Proof.
  intros Hc Hr. destruct Hc as [(b & -> & Hb)|[Hlen Hall]]; cycle 1.
  { destruct c as [|b0 [|b1 c]]; [cbn in Hlen; lia|cbn in Hlen; lia|]. apply read_plain; [|done].
    eapply Forall_impl; [exact Hall|]. cbn. lia. }
  cbn [json_escape_char]. destruct (b =? 92)%Z eqn:E1; [apply Z.eqb_eq in E1 as ->; by apply read_simple|].
  destruct (b =? 34)%Z eqn:E2; [apply Z.eqb_eq in E2 as ->; by apply read_simple|].
  destruct (b =? 10)%Z eqn:E3; [apply Z.eqb_eq in E3 as ->; by apply read_simple|].
  destruct (b =? 13)%Z eqn:E4; [apply Z.eqb_eq in E4 as ->; by apply read_simple|].
  destruct (b =? 9)%Z eqn:E5; [apply Z.eqb_eq in E5 as ->; by apply read_simple|].
  destruct (b <? 32)%Z eqn:E6; [rewrite <- app_assoc; apply read_control; [lia|done]|].
  apply (read_plain [b]); [|done]. constructor; [lia|constructor].
Qed.

(** A JSON string literal is read back, and nothing after its closing quote. *)
Lemma read_json_escape s rest : is_utf8 s = true -> read_json_string (json_escape s ++ 34%Z :: rest) = Some (s, rest).
Proof.
  intros Hs. pose proof (chars_shape s Hs) as Hshape. destruct (chars_ok s Hs) as [Hcat _]. rewrite <- Hcat at 2. unfold json_escape.
  clear Hs Hcat. induction Hshape as [|c cs Hc Hcs IH]; [done|]. cbn [map concat]. rewrite <- app_assoc. by apply read_escaped_char.
Qed.

(** The text of a number is parsed back. *)
Lemma digit_value d : (0 <= d < 10)%Z -> to_digit 10 (48 + d) = Some d.
Proof.
  intros Hd. unfold to_digit, in_range. replace ((48 <=? 48 + d) && (48 + d <=? 57))%Z with true by lia.
  replace (48 + d - 48 <? 10)%Z with true by lia. f_equal; lia.
Qed.

Lemma decimal_loop_value fuel : forall v out max, (0 <= v < 10 ^ Z.of_nat fuel)%Z -> 0 < fuel -> (v <= max)%Z ->
  parse_digits 10 max 0 (decimal_loop fuel v out) = parse_digits 10 max v out.
Proof.
  induction fuel as [|fuel IH]; intros v out max Hv Hf Hm; [lia|]. cbn [decimal_loop].
  pose proof (Z.mod_pos_bound v 10 ltac:(lia)). pose proof (Z.div_mod v 10 ltac:(lia)).
  destruct (v <? 10)%Z eqn:E.
  - rewrite Z.mod_small in * by lia. cbn [parse_digits]. rewrite digit_value by lia. replace (0 * 10 + v)%Z with v by lia.
    by replace (v <=? max)%Z with true by lia.
  - assert (0 < v / 10 < 10 ^ Z.of_nat fuel)%Z.
    { rewrite Nat2Z.inj_succ, Z.pow_succ_r in Hv by lia. split; [apply Z.div_str_pos; lia|apply Z.div_lt_upper_bound; lia]. }
    rewrite IH; [|lia|destruct fuel; [cbn in *; lia|lia]|lia].
    cbn [parse_digits]. rewrite digit_value by lia. replace (v / 10 * 10 + v mod 10)%Z with v by lia. by replace (v <=? max)%Z with true by lia.
Qed.

Lemma decimal_loop_digits fuel : forall v out, 0 < fuel -> exists d l, decimal_loop fuel v out = (48 + d)%Z :: l /\ (0 <= d < 10)%Z.
Proof.
  induction fuel as [|fuel IH]; intros v out Hf; [lia|]. cbn [decimal_loop]. pose proof (Z.mod_pos_bound v 10 ltac:(lia)).
  destruct (v <? 10)%Z; [by exists (v mod 10)%Z, out|]. destruct fuel; [by exists (v mod 10)%Z, out|]. apply IH. lia.
Qed.

Lemma parse_decimal v : in_u 64 v -> parse_usize (decimal v) = Some v.
Proof.
  intros Hv. unfold in_u in Hv. change (2 ^ 64)%Z with 18446744073709551616%Z in Hv. unfold parse_usize, from_str_radix.
  assert (Hp : parse_digits 10 u64_max 0 (decimal v) = Some v).
  { unfold decimal. rewrite decimal_loop_value; [done| |lia|unfold u64_max; lia].
    change (10 ^ Z.of_nat 20)%Z with 100000000000000000000%Z. lia. }
  destruct (decimal_loop_digits 20 v [] ltac:(lia)) as (d & l & Hd & Hr). fold (decimal v) in Hd. rewrite Hd in Hp |- *.
  change (chr "+") with 43%Z. change (chr "-") with 45%Z. destruct l.
  - replace ((48 + d =? 43) || (48 + d =? 45))%Z with false by lia. done.
  - by replace (48 + d =? 43)%Z with false by lia.
Qed.

(** An ASCII text is always decoded. *)
Lemma url_decode_loop_ascii l : Forall (fun b => 0 <= b < 128)%Z l -> is_Some (url_decode_loop l).
Proof.
  remember (length l) as n eqn:Hn. revert l Hn. induction n as [n IH] using lt_wf_ind. intros [|b r] -> Hl; [by exists []|].
  inversion Hl as [|? ? Hb Hr]; subst. assert (Hrec : forall r', length r' <= length r -> Forall (fun b => 0 <= b < 128)%Z r' -> is_Some (url_decode_loop r')).
  { intros r' Hle Hr'. by eapply IH; [|done|]; [cbn; lia|]. }
  destruct (Hrec r) as [o Ho]; [done|done|]. cbn [url_decode_loop]. rewrite Ho. destruct (b =? chr "+")%Z; [done|].
  destruct (b =? chr "%")%Z; [|done]. destruct r as [|h1 [|h2 r']]; [done|done|].
  inversion Hr as [|? ? Hh1 Hr1]; subst. inversion Hr1 as [|? ? Hh2 Hr2]; subst. rewrite ascii_boundary by done.
  assert (is_char_boundary r' = true) as -> by (destruct r'; [done|]; inversion Hr2; subst; by apply ascii_boundary).
  cbn [andb]. destruct (Hrec r') as [o' Ho']; [cbn; lia|done|]. rewrite Ho'. by case_match.
Qed.
