(* ===== verification/Shennong.v ===== *)
(** The HTTP search service (bin/shennong.rs): command-line options, the requests of
    a connection, their routing, and the JSON answers over an IndexContext.

    The network, the clock and the embedding service are outside the program:
    [gbe] is what the embedding service answers to the bytes sent to it, the
    elapsed time is a text. [wait] is what SearchTask::Wait of an enqueued task
    gives (SearchQueue.Wait), [None] when no worker ever answers and the call
    blocks. The lock of the context is taken to be free in the end and not poisoned:
    the decoder of requests, whose panics are modelled, runs outside of it. *)

From Stdlib Require Import Ascii String.
From Stdlib Require Import ZArith Lia ZifyBool Bool List.
From Stdlib Require Import Floats.SpecFloat.
From stdpp Require Import base gmap list list_numbers.
From S2P Require Import Prelude Floats PostingStore FileFormat BlockCache PathSidecar IndexReader DocData Executor EvalExpression Query IndexFile MergeStore SmartTokenizer VectorIndex Runtime SearchQueue Context HttpText.

Local Open Scope moon_scope.

(** [Display] and [FromStr] of [f32]. *)
Class FloatText := { f32_display : f32 -> str; f32_parse : str -> option f32 }.

(** * Options *)

Record Options := { port : Z; opt_index_path : str; opt_gbe_host : str; opt_gbe_port : Z }.

(** What parse_args does: options, the help text and [exit(0)], or an error. *)
Inductive Parsed := Run (options : Options) | Help | Wrong (message : str).

(** [PathBuf::join] and [to_string_lossy], on Unix. *)
Definition join_path (dir rest : bytes) : str :=
  from_utf8_lossy
    (if starts_with rest (of_string "/") then rest
     else if bool_decide (dir = []) || ends_with dir (of_string "/") then dir ++ rest
     else dir ++ of_string "/" ++ rest).

Definition strip_prefix (s p : str) : option str := if starts_with s p then Some (drop (length p) s) else None.

Section options.
(** home_dir. *)
Context (home : bytes).

Definition default_index_path : str := join_path home (of_string "moon.idx").

Definition expand_user_path (path : str) : str :=
  if bool_decide (path = of_string "~") then from_utf8_lossy home
  else match strip_prefix path (of_string "~/") with
  | Some rest => join_path home rest
  | None =>
      match strip_prefix path (of_string "~\") with
      | Some rest => join_path home rest
      | None => path
      end
  end.

Definition parse_u16 (l : str) : option Z := from_str_radix 10 (2 ^ 16 - 1) l.

(** The loop of parse_args, on the arguments that are left. *)
Fixpoint parse_options (options : Options) (args : list str) : Parsed :=
  match args with
  | [] => Run options
  | arg :: rest =>
      let other := Wrong (of_string "unknown or incomplete argument: " ++ arg) in
      let named s := bool_decide (arg = of_string s) in
      match rest with
      | value :: rest' =>
          if named "--port"%string then
            match parse_u16 value with
            | Some p => parse_options {| port := p; opt_index_path := opt_index_path options; opt_gbe_host := opt_gbe_host options; opt_gbe_port := opt_gbe_port options |} rest'
            | None => Wrong (of_string "invalid --port value")
            end
          else if named "--index"%string then
            parse_options {| port := port options; opt_index_path := expand_user_path value; opt_gbe_host := opt_gbe_host options; opt_gbe_port := opt_gbe_port options |} rest'
          else if named "--gbe-host"%string || named "--bge-host"%string then
            parse_options {| port := port options; opt_index_path := opt_index_path options; opt_gbe_host := value; opt_gbe_port := opt_gbe_port options |} rest'
          else if named "--gbe-port"%string || named "--bge-port"%string then
            match parse_u16 value with
            | Some p =>
                if (0 <? p)%Z then
                  parse_options {| port := port options; opt_index_path := opt_index_path options; opt_gbe_host := opt_gbe_host options; opt_gbe_port := p |} rest'
                else Wrong (of_string "invalid " ++ arg ++ of_string " value")
            | None => Wrong (of_string "invalid " ++ arg ++ of_string " value")
            end
          else if named "--help"%string || named "-h"%string then Help
          else other
      | [] => if named "--help"%string || named "-h"%string then Help else other
      end
  end.

(** [args] without the program's name. *)
Definition parse_args (args : list str) : Parsed :=
  parse_options {| port := 9000; opt_index_path := default_index_path; opt_gbe_host := of_string "127.0.0.1"; opt_gbe_port := 8765 |} args.
End options.

(** * Requests and responses *)

Definition CRLF : str := [13; 10]%Z.

(** [char::is_whitespace]. *)
Definition is_whitespace (ch : Z) : bool :=
  in_ranges [(9, 13); (0x20, 0x20); (0x85, 0x85); (0xA0, 0xA0); (0x1680, 0x1680); (0x2000, 0x200A); (0x2028, 0x2029); (0x202F, 0x202F);
    (0x205F, 0x205F); (0x3000, 0x3000)]%Z ch.

(** [str::split_whitespace]: the pieces so far and the current one. *)
Definition whitespace_step (st : list str * str) (c : str) : list str * str :=
  if is_whitespace (code_point c) then match st.2 with [] => st | piece => (st.1 ++ [piece], []) end
  else (st.1, st.2 ++ c).

Definition split_whitespace (s : str) : list str :=
  let st := fold_left whitespace_step (chars s) ([], []) in
  match st.2 with [] => st.1 | piece => st.1 ++ [piece] end.

(** [request.lines().next().unwrap_or("")]. *)
Definition first_line (request : str) : str :=
  match split_once 10 request with
  | Some (line, _) => if ends_with line [13%Z] then take (length line - 1) line else line
  | None => request
  end.

Definition http_response (status : Z) (status_text body : str) : str :=
  of_string "HTTP/1.1 " ++ decimal status ++ of_string " " ++ status_text ++ CRLF ++
  of_string "Content-Type: application/json; charset=utf-8" ++ CRLF ++
  of_string "Content-Length: " ++ decimal (Z.of_nat (length body)) ++ CRLF ++
  of_string "Access-Control-Allow-Origin: *" ++ CRLF ++
  of_string "Access-Control-Allow-Methods: GET, OPTIONS" ++ CRLF ++
  of_string "Access-Control-Allow-Headers: Content-Type" ++ CRLF ++
  of_string "Connection: close" ++ CRLF ++ CRLF ++ body.

(** [request.windows(4).any(|window| window == b"\r\n\r\n")]. *)
Fixpoint has_blank_line (request : bytes) : bool :=
  starts_with request (CRLF ++ CRLF) || match request with [] => false | _ :: r => has_blank_line r end.

(** The loop of serve_client over what [read] returns: bytes, [Some []] at the end,
    [None] for an error. [None] also when the client sends no more. *)
Fixpoint read_request (reads : list (option bytes)) (request : bytes) : option bytes :=
  if negb (has_blank_line request) && (Z.of_nat (length request) <? 64 * 1024)%Z then
    match reads with
    | Some [] :: _ => Some request
    | Some chunk :: reads' => read_request reads' (request ++ chunk)
    | None :: _ | [] => None
    end
  else Some request.

(** * The service *)

(** [context] with its vector index. *)
Record SearchService := {
  index_path : str;
  gbe_host : str;
  gbe_port : Z;
  context : IndexContext;
  vector_index : VectorIndex;
}.

(** [f32::from_bits]. *)
Definition f32_from_bits (bits : Z) : f32 :=
  let s := Z.testbit bits 31 in
  let e := (bits / 2 ^ 23 mod 2 ^ 8)%Z in
  let m := (bits mod 2 ^ 23)%Z in
  if (e =? 255)%Z then if (m =? 0)%Z then S754_infinity s else S754_nan
  else if (e =? 0)%Z then match m with Z.pos p => S754_finite s p (-149) | _ => S754_zero s end
  else match (m + 2 ^ 23)%Z with Z.pos p => S754_finite s p (e - 150) | _ => S754_zero s end.

Section service.
Context `{FloatText, Tokenizer} (model : EmbeddingModel) (gbe : bytes -> option bytes) (wait : SearchTaskState -> option (list SearchResult)) (elapsed_ms : str).
Implicit Types service : SearchService.

(** embed_text_with_gbe_service: [gbe] is [None] when the connection or a write fails. *)
Definition embed_text_with_gbe_service (text : str) : option (list f32) :=
  if bool_decide (text = []) then None
  else
    let payload := take (Z.to_nat 65536) text in
    opt reply := gbe (le_bytes 4 (Z.of_nat (length payload)) ++ payload) in
    opt dim := get_range reply 0 4 in
    if (of_le dim =? Z.of_nat DOC_VECTOR_DIM)%Z then
      opt encoded := get_range reply 4 (4 + DOC_VECTOR_DIM) in
      Some (map (fun value => f_div F32 (f_of_Z F32 (to_signed 8 value)) (f_of_Z F32 128)) encoded)
    else None.

(** SearchService::new, on a context that was loaded. *)
Definition service_new (index_path gbe_host : str) (gbe_port : Z) (loaded : result unit) (context : IndexContext) (vector_index : VectorIndex)
  : option SearchService :=
  match loaded with
  | Err _ => None
  | Ok _ =>
      if (DocumentCount context =? 0)%Z then None
      else Some {| index_path := index_path; gbe_host := gbe_host; gbe_port := gbe_port; context := context; vector_index := vector_index |}
  end.

Definition health_json service : str :=
  quoted "{'status':'ok','index':'" ++ json_escape (index_path service) ++ quoted "','gbe_host':'" ++ json_escape (gbe_host service) ++
  quoted "','gbe_port':" ++ decimal (gbe_port service) ++ quoted ",'documents':" ++ decimal (DocumentCount (context service)) ++
  quoted ",'avg_doc_len':" ++ f32_display (f32_from_bits (IFH_AvgDocLength (m_IndexFileHeader (m_Index (context service))))) ++
  quoted ",'vector_count':" ++ decimal (Z.of_nat (vector_Size (vector_index service))) ++
  quoted ",'vector_dim':" ++ decimal (Z.of_nat (@GetDimension model)) ++ of_string "}".

(** [results[begin..end]] with the rank of each. *)
Definition page (results : list SearchResult) (begin_ end_ : Z) : list (Z * SearchResult) :=
  imap (fun i r => (begin_ + Z.of_nat i + 1, r))%Z (slice (Z.to_nat begin_) (Z.to_nat (end_ - begin_)) results).

Definition result_json service (row : Z * SearchResult) : str :=
  quoted "{'rank':" ++ decimal row.1 ++ quoted ",'doc_id':" ++ decimal (sr_doc_id row.2) ++ quoted ",'score':" ++ f32_display (sr_score row.2) ++
  quoted ",'path':'" ++ json_escape (ctx_GetDocPath (context service) (sr_doc_id row.2)) ++ quoted "'}".

Definition param (params : gmap str str) (key : string) : str := default [] (params !! of_string key).

(** [None]: the task is never answered. *)
Definition search_json service (params : gmap str str) : option (Z * str) :=
  let query := param params "q" in
  if bool_decide (query = []) then Some (400%Z, quoted "{'error':'missing q parameter'}")
  else
    let streams := match param params "streams" with [] => of_string "AUTB" | streams => streams end in
    let offset := query_int params (of_string "offset") 0 0 1000000000 in
    let limit := query_int params (of_string "limit") 20 1 1000 in
    let ef_search := query_int params (of_string "efSearch") 200 1 1000000 in
    let vector := embed_text_with_gbe_service query in
    let vector_ready := match vector with Some _ => of_string "true" | None => of_string "false" end in
    opt results := wait (queued_task query (default [] vector) streams 0 WeakAndBigramBoostForDoc ef_search) in
    let total := Z.of_nat (length results) in
    let begin_ := Z.min offset total in
    let end_ := Z.min (begin_ + limit) total in
    Some (200%Z,
     quoted "{'query':'" ++ json_escape query ++ quoted "','streams':'" ++ json_escape streams ++ quoted "','total':" ++ decimal total ++
     quoted ",'offset':" ++ decimal begin_ ++ quoted ",'limit':" ++ decimal limit ++ quoted ",'elapsed_ms':" ++ elapsed_ms ++
     quoted ",'vector_ready':" ++ vector_ready ++ quoted ",'results':[" ++
     commas (map (result_json service) (page results begin_ end_)) ++ of_string "]}").

Definition parse_vector_param (value : str) : list f32 := omap f32_parse (split (chr ",") value).

Definition vector_search_json service (params : gmap str str) : option (Z * str) :=
  let query := param params "q" in
  let offset := query_int params (of_string "offset") 0 0 1000000000 in
  let limit := query_int params (of_string "limit") 20 1 1000 in
  let efSearch := query_int params (of_string "efSearch") 200 1 1000000 in
  let search vectorQuery :=
    if length vectorQuery =? DOC_VECTOR_DIM then
      opt results := wait (queued_task [] vectorQuery (of_string "AUTB") 0 WeakAndBigramBoostForDoc efSearch) in
      let total := Z.of_nat (length results) in
      let begin_ := Z.min offset total in
      let end_ := Z.min (begin_ + limit) total in
      Some (200%Z,
       quoted "{'query':'" ++ json_escape query ++ quoted "','vector_dim':" ++ decimal (Z.of_nat DOC_VECTOR_DIM) ++
       quoted ",'vector_count':" ++ decimal (Z.of_nat (vector_Size (vector_index service))) ++ quoted ",'efSearch':" ++ decimal efSearch ++
       quoted ",'total':" ++ decimal total ++ quoted ",'offset':" ++ decimal begin_ ++ quoted ",'limit':" ++ decimal limit ++
       quoted ",'elapsed_ms':" ++ elapsed_ms ++ quoted ",'results':[" ++
       commas (map (result_json service) (page results begin_ end_)) ++ of_string "]}")
    else Some (400%Z, quoted "{'error':'empty query vector'}") in
  let value := param params "vector" in
  if negb (bool_decide (value = [])) then search (parse_vector_param value)
  else if bool_decide (query = []) then Some (400%Z, quoted "{'error':'missing q or vector parameter'}")
  else search (CompileToVectorWithModel model query).

(** [None]: nothing is sent, as the thread of the connection panics or waits for ever. *)
Definition handle_request service (request : str) : option str :=
  let first := split_whitespace (first_line request) in
  let method := nth 0 first [] in
  let target := nth 1 first (of_string "/") in
  if bool_decide (method = of_string "OPTIONS") then Some (http_response 204 (of_string "No Content") [])
  else if negb (bool_decide (method = of_string "GET")) then
    Some (http_response 405 (of_string "Method Not Allowed") (quoted "{'error':'method not allowed'}"))
  else
    let '(path, query) := default (target, []) (split_once (chr "?") target) in
    opt params := parse_query query in
    let named s := bool_decide (path = of_string s) in
    let answer r := option_map (fun r => http_response r.1 (of_string (if (r.1 =? 200)%Z then "OK" else "Bad Request")) r.2) r in
    if named "/health"%string then Some (http_response 200 (of_string "OK") (health_json service))
    else if named "/search"%string then answer (search_json service params)
    else if named "/vector-search"%string then answer (vector_search_json service params)
    else if named "/"%string || named "/help"%string then
      Some (http_response 200 (of_string "OK")
        (quoted "{'service':'shennong','endpoints':['/health','/search?q=usage&offset=0&limit=20&streams=AUTB','/vector-search?q=usage&offset=0&limit=20']}"))
    else Some (http_response 404 (of_string "Not Found") (quoted "{'error':'not found'}")).

(** What is sent on a connection, if anything. *)
Definition serve_client service (reads : list (option bytes)) : option str :=
  opt request := read_request reads [] in
  handle_request service (from_utf8_lossy request).

(** * The request line *)

(** A visible ASCII character. *)
Definition graphic (b : Z) : Prop := (33 <= b < 127)%Z.

Lemma graphic_check l : forallb (fun b => (33 <=? b) && (b <? 127))%Z l = true -> Forall graphic l.
Proof. rewrite forallb_forall, Forall_forall. intros Hl b Hb. apply list_elem_of_In, Hl in Hb. unfold graphic. lia. Qed.

Lemma graphic_ascii l : Forall graphic l -> Forall (fun c => 0 <= c < 128)%Z l.
Proof. intros Hl. eapply Forall_impl; [exact Hl|]. unfold graphic. lia. Qed.

Lemma chars_ascii a b : Forall (fun c => 0 <= c < 128)%Z a -> chars (a ++ b) = map (fun c => [c]) a ++ chars b.
Proof.
  induction 1 as [|c a Hc Ha IH]; [done|]. cbn [app chars map]. unfold in_range at 1.
  replace ((0 <=? c) && (c <=? 127))%Z with true by lia. by rewrite IH.
Qed.

Lemma graphic_not_whitespace b : graphic b -> is_whitespace b = false.
Proof. unfold graphic, is_whitespace, in_ranges, in_range. intros Hb. cbn [existsb fst snd]. lia. Qed.

Lemma whitespace_word cs : Forall (fun c => is_whitespace (code_point c) = false) cs ->
  forall words word, fold_left whitespace_step cs (words, word) = (words, word ++ concat cs).
Proof.
  induction 1 as [|c cs Hc Hcs IH]; intros words word; [by rewrite app_nil_r|]. cbn [fold_left concat].
  unfold whitespace_step at 2. rewrite Hc. cbn [fst snd]. by rewrite IH, <- app_assoc.
Qed.

Lemma graphic_chars l : Forall graphic l -> Forall (fun c => is_whitespace (code_point c) = false) (map (fun c => [c]) l).
Proof. intros Hl. rewrite Forall_map. eapply Forall_impl; [exact Hl|]. intros b. apply graphic_not_whitespace. Qed.

Lemma concat_singletons (l : str) : concat (map (fun c => [c]) l) = l.
Proof. induction l as [|c l IH]; [done|]. cbn. by rewrite IH. Qed.

(** The request line of a GET request, and what follows it. *)
Definition get_request (target headers : str) : str := of_string "GET " ++ target ++ of_string " HTTP/1.1" ++ CRLF ++ headers.

(** A target that the request line is split around: ASCII, and at its end [tail]
    whose characters are no white space. *)
Lemma get_request_words target tail headers :
  Forall graphic target -> target ++ tail <> [] -> Forall (fun b => b <> 10)%Z tail ->
  Forall (fun c => is_whitespace (code_point c) = false) (chars tail) ->
  (forall l, chars (tail ++ 32%Z :: l) = chars tail ++ chars (32%Z :: l)) -> concat (chars tail) = tail ->
  split_whitespace (first_line (get_request (target ++ tail) headers)) = [of_string "GET"; target ++ tail; of_string "HTTP/1.1"].
Proof.
  intros Hg Hne H10 Htail Happ Hcat.
  assert (Hline : first_line (get_request (target ++ tail) headers) = of_string "GET " ++ target ++ tail ++ of_string " HTTP/1.1").
  { unfold first_line, get_request, CRLF. set (line := of_string "GET " ++ target ++ tail ++ of_string " HTTP/1.1").
    replace (of_string "GET " ++ (target ++ tail) ++ of_string " HTTP/1.1" ++ [13; 10]%Z ++ headers) with ((line ++ [13%Z]) ++ 10%Z :: headers)
      by (subst line; rewrite <- !app_assoc; done).
    rewrite split_once_at.
    - assert (ends_with (line ++ [13%Z]) [13%Z] = true) as ->.
      { apply bool_decide_eq_true. rewrite length_app. cbn [length]. split; [lia|]. replace (length line + 1 - 1) with (length line) by lia. by rewrite drop_app_length. }
      rewrite length_app. cbn [length]. replace (length line + 1 - 1) with (length line) by lia. by rewrite take_app_length.
    - subst line. rewrite !Forall_app. split_and!; [repeat constructor; done| |done|repeat constructor; done|by repeat constructor].
      eapply Forall_impl; [exact Hg|]. unfold graphic. lia. }
  rewrite Hline. unfold split_whitespace. rewrite !app_assoc, <- !app_assoc.
  change (of_string " HTTP/1.1") with (32%Z :: of_string "HTTP/1.1"). change (of_string "GET ") with (of_string "GET" ++ [32%Z]). rewrite <- app_assoc.
  rewrite (chars_ascii (of_string "GET")) by by apply graphic_ascii, graphic_check. rewrite fold_left_app, whitespace_word by by apply graphic_chars, graphic_check.
  change ([32%Z] ++ target ++ tail ++ 32%Z :: of_string "HTTP/1.1") with ([32%Z] ++ (target ++ tail ++ 32%Z :: of_string "HTTP/1.1")).
  rewrite (chars_ascii [32%Z]) by (constructor; [lia|constructor]). rewrite (chars_ascii target) by by apply graphic_ascii.
  rewrite Happ, !fold_left_app, concat_singletons. cbn [map fold_left].
  assert (Hget : whitespace_step ([], [] ++ of_string "GET") [32%Z] = ([of_string "GET"], [])) by done. rewrite Hget.
  rewrite whitespace_word by by apply graphic_chars. rewrite whitespace_word by done. rewrite concat_singletons, Hcat. cbn [app].
  change (chars (32%Z :: of_string "HTTP/1.1")) with ([32%Z] :: map (fun c => [c]) (of_string "HTTP/1.1")). cbn [fold_left].
  assert (Hsp : whitespace_step ([of_string "GET"], target ++ tail) [32%Z] = ([of_string "GET"; target ++ tail], [])).
  { unfold whitespace_step. change (is_whitespace (code_point [32%Z])) with true. cbn [fst snd]. by destruct (target ++ tail). }
  rewrite Hsp. rewrite whitespace_word by by apply graphic_chars, graphic_check. done.
Qed.

Lemma plain_graphic b : plain b -> graphic b.
Proof.
  unfold graphic. intros [->|Hu]; [lia|]. unfold is_unreserved, in_range in Hu.
  change (of_string "-_.~") with [45; 95; 46; 126]%Z in Hu. cbn [existsb] in Hu. lia.
Qed.

Lemma encode_pair_graphic p : pair_ok p -> Forall graphic (encode_pair p).
Proof.
  intros [H1 H2]. unfold encode_pair. apply Forall_app. split; [|constructor; [by vm_compute|]];
    (eapply Forall_impl; [by apply percent_encode_plain, utf8_bytes|apply plain_graphic]).
Qed.

Lemma encode_pairs_graphic ps : Forall pair_ok ps -> Forall graphic (encode_pairs ps).
Proof.
  induction 1 as [|p ps Hp Hps IH]; [constructor|]. destruct ps as [|q ps]; [by apply encode_pair_graphic|].
  change (encode_pairs (p :: q :: ps)) with (encode_pair p ++ chr "&" :: encode_pairs (q :: ps)).
  apply Forall_app. split; [by apply encode_pair_graphic|]. constructor; [by vm_compute|exact IH].
Qed.

(** A GET request of an ASCII target with a query string. *)
Lemma get_request_ascii target headers : Forall graphic target -> target <> [] ->
  split_whitespace (first_line (get_request target headers)) = [of_string "GET"; target; of_string "HTTP/1.1"].
Proof.
  intros Hg Hne. rewrite <- (app_nil_r target). apply get_request_words; [done|by rewrite app_nil_r|constructor|constructor|done|done].
Qed.

Lemma get_path path query : Forall (fun b => b <> chr "?") path ->
  default (path ++ chr "?" :: query, []) (split_once (chr "?") (path ++ chr "?" :: query)) = (path, query).
Proof. intros Hp. by rewrite split_once_at. Qed.

(** The parameters of a list of pairs: the last of a name counts. *)
Definition params_of (ps : list (str * str)) : gmap str str := fold_left (fun m p => <[p.1 := p.2]> m) ps ∅.

Lemma params_utf8 ps : Forall pair_ok ps -> forall m : gmap str str, map_Forall (fun _ v => is_utf8 v = true) m ->
  map_Forall (fun _ v => is_utf8 v = true) (fold_left (fun m p => <[p.1 := p.2]> m) ps m).
Proof.
  induction 1 as [|p ps Hp Hps IH]; intros m Hm; [done|]. cbn. apply IH, map_Forall_insert_2; [apply Hp|done].
Qed.

Lemma param_utf8 ps key : Forall pair_ok ps -> is_utf8 (param (params_of ps) key) = true.
Proof.
  intros Hp. unfold param. destruct (params_of ps !! of_string key) as [v|] eqn:E; [|done]. cbn.
  eapply (params_utf8 ps Hp ∅); [apply map_Forall_empty|exact E].
Qed.

(** The rows of a page are the results from the offset on, at most [limit]. *)
Lemma page_window results offset limit : (0 <= offset)%Z -> (0 <= limit)%Z ->
  let total := Z.of_nat (length results) in
  let begin_ := Z.min offset total in
  page results begin_ (Z.min (begin_ + limit) total) =
  imap (fun i r => (offset + Z.of_nat i + 1, r))%Z (take (Z.to_nat limit) (drop (Z.to_nat offset) results)).
Proof.
  intros Ho Hl total begin_. unfold page, slice. destruct (Z_le_gt_dec offset total).
  - replace begin_ with offset by lia. f_equal. destruct (Z_le_gt_dec (offset + limit) total).
    + f_equal. lia.
    + rewrite !take_ge; [done|rewrite length_drop; lia|rewrite length_drop; lia].
  - rewrite (drop_ge _ (Z.to_nat begin_)), (drop_ge _ (Z.to_nat offset)) by lia. by rewrite !take_nil.
Qed.

Lemma handle_get service path query headers : Forall graphic (of_string path ++ chr "?" :: query) ->
  Forall (fun b => b <> chr "?") (of_string path) ->
  handle_request service (get_request (of_string path ++ chr "?" :: query) headers) =
  opt params := parse_query query in
  let named s := bool_decide (of_string path = of_string s) in
  let answer r := option_map (fun r => http_response r.1 (of_string (if (r.1 =? 200)%Z then "OK" else "Bad Request")) r.2) r in
  if named "/health"%string then Some (http_response 200 (of_string "OK") (health_json service))
  else if named "/search"%string then answer (search_json service params)
  else if named "/vector-search"%string then answer (vector_search_json service params)
  else if named "/"%string || named "/help"%string then
    Some (http_response 200 (of_string "OK")
      (quoted "{'service':'shennong','endpoints':['/health','/search?q=usage&offset=0&limit=20&streams=AUTB','/vector-search?q=usage&offset=0&limit=20']}"))
  else Some (http_response 404 (of_string "Not Found") (quoted "{'error':'not found'}")).
Proof.
  intros Hg Hq. unfold handle_request. rewrite get_request_ascii; [|done|by destruct (of_string path)]. cbn [nth].
  change (bool_decide (of_string "GET" = of_string "OPTIONS")) with false. change (bool_decide (of_string "GET" = of_string "GET")) with true.
  cbn [negb]. by rewrite get_path.
Qed.

Lemma query_int_low (params : gmap str str) key d low high : (low <= high)%Z -> (low <= query_int params key d low high)%Z.
Proof. unfold query_int. lia. Qed.

(** The task of a search request. *)
Definition search_task (params : gmap str str) : SearchTaskState :=
  let q := param params "q" in
  queued_task q (default [] (embed_text_with_gbe_service q)) (match param params "streams" with [] => of_string "AUTB" | streams => streams end) 0
    WeakAndBigramBoostForDoc (query_int params (of_string "efSearch") 200 1 1000000).

Lemma search_json_waits service (params : gmap str str) : param params "q" <> [] -> wait (search_task params) = None -> search_json service params = None.
Proof.
  intros Hq Hw. unfold search_json. rewrite (bool_decide_eq_false_2 (param params "q" = [])) by done. cbv zeta.
  unfold search_task in Hw. cbv zeta in Hw. by rewrite Hw.
Qed.

(** The body of an answered search, by the window of the results. *)
Lemma search_json_body service (params : gmap str str) results : param params "q" <> [] -> wait (search_task params) = Some results ->
  let offset := query_int params (of_string "offset") 0 0 1000000000 in
  let rows := imap (fun i r => (offset + Z.of_nat i + 1, r))%Z
                (take (Z.to_nat (query_int params (of_string "limit") 20 1 1000)) (drop (Z.to_nat offset) results)) in
  exists head, head !! 0 = Some 34%Z /\
    search_json service params =
      Some (200%Z, quoted "{'query':'" ++ json_escape (param params "q") ++ head ++ commas (map (result_json service) rows) ++ of_string "]}").
Proof.
  intros Hq Hw offset rows. unfold search_json. rewrite (bool_decide_eq_false_2 (param params "q" = [])) by done.
  cbv zeta. unfold search_task in Hw. cbv zeta in Hw. rewrite Hw. cbn [option_bind]. fold offset.
  pose proof (query_int_low params (of_string "offset") 0 0 1000000000 ltac:(lia)).
  pose proof (query_int_low params (of_string "limit") 20 1 1000 ltac:(lia)).
  rewrite (page_window results offset) by lia. fold rows.
  eexists. split; cycle 1.
  - do 4 f_equal. rewrite !app_assoc. reflexivity.
  - done.
Qed.

(** The path prefixes of an index and of its delta are strings. *)
Fixpoint prefixes_utf8 (ctx : IndexContext) {struct ctx} : Prop :=
  Forall (fun p => is_utf8 p = true) (m_PathPrefixes (m_Index ctx)) /\
  match m_DeltaContext ctx with Some delta => prefixes_utf8 delta | None => True end.

Lemma DecodeDocPath_utf8 payload prefixes : Forall (fun p => is_utf8 p = true) prefixes -> is_utf8 (DecodeDocPath payload prefixes) = true.
Proof.
  intros Hp. assert (Hd : forall l, is_utf8 (default [] (from_utf8 l)) = true) by (intros l; unfold from_utf8; by destruct (is_utf8 l) eqn:E).
  unfold DecodeDocPath. case_match; [done|]. case_match; [apply Hd|]. cbv zeta. case_match; [apply Hd|].
  assert (Hpre : is_utf8 (nth (Z.to_nat (get 2 0 payload)) prefixes []) = true).
  { destruct (nth_in_or_default (Z.to_nat (get 2 0 payload)) prefixes []) as [Hin| ->]; [|done].
    rewrite Forall_forall in Hp. by apply Hp, list_elem_of_In. }
  case_match; [apply Hd|]. case_match; (apply is_utf8_app; [done|]); [apply Hd|].
  rewrite is_utf8_ascii; [apply Hd|]. case_match; vm_compute; split; congruence.
Qed.

Lemma path_utf8 ctx id : prefixes_utf8 ctx -> is_utf8 (ctx_GetDocPath ctx id) = true.
Proof.
  revert ctx id. fix IH 1. intros ctx id. destruct ctx as [s ix vb ip b lf ld lt qp wm delta w wb]. cbn [prefixes_utf8 ctx_GetDocPath m_Index m_DeltaContext].
  intros [Hp Hd]. unfold index_GetDocPath.
  assert (Hm : is_utf8 (match (match delta with Some delta => Some (ctx_GetDocPath delta) | None => None end) with
                         Some lookup => lookup (ReaderDocumentIDValue id) | None => [] end) = true).
  { destruct delta as [delta|]; [by apply IH|done]. }
  destruct (doc_record _ _ _) as [record|]; [|exact Hm]. cbv zeta. destruct (_ && _); [by apply DecodeDocPath_utf8|exact Hm].
Qed.

(** ** Claims *)

Context (service : SearchService).
Hypothesis prefixes_are_utf8 : prefixes_utf8 (context service).

(** C34: A search request whose parameters are percent-encoded enqueues the task of the decoded parameters
    and, once that is answered, is answered with status 200: the body shows the query as a JSON string
    that reads back, and one object for each result of the window that offset and limit select,
    with its rank and its path as a JSON string that reads back. Nothing is sent while the task has no answer. *)
Theorem search_request_answers ps headers :
  Forall pair_ok ps -> param (params_of ps) "q" <> [] ->
  let q := param (params_of ps) "q" in
  let number (key : string) (default_value low high : Z) := query_int (params_of ps) (of_string key) default_value low high in
  let streams := match param (params_of ps) "streams" with [] => of_string "AUTB" | streams => streams end in
  let task := queued_task q (default [] (embed_text_with_gbe_service q)) streams 0 WeakAndBigramBoostForDoc
                (number "efSearch"%string 200%Z 1%Z 1000000%Z) in
  match wait task with
  | None => handle_request service (get_request (of_string "/search?" ++ encode_pairs ps) headers) = None
  | Some results =>
      let offset := number "offset"%string 0%Z 0%Z 1000000000%Z in
      let rows := imap (fun i r => (offset + Z.of_nat i + 1, r))%Z
                    (take (Z.to_nat (number "limit"%string 20%Z 1%Z 1000%Z)) (drop (Z.to_nat offset) results)) in
      exists literal head,
        handle_request service (get_request (of_string "/search?" ++ encode_pairs ps) headers) =
          Some (http_response 200 (of_string "OK") (quoted "{'query':'" ++ literal ++ head ++ commas (map (result_json service) rows) ++ of_string "]}")) /\
        (forall rest, read_json_string (literal ++ 34%Z :: rest) = Some (q, rest)) /\ head !! 0 = Some 34%Z /\
        Forall (fun row => exists before path, result_json service row = before ++ quoted "'path':'" ++ path /\
                  read_json_string path = Some (ctx_GetDocPath (context service) (sr_doc_id row.2), of_string "}")) rows
  end.
Proof.
  intros Hps Hq q number streams task.
  assert (Hrun : handle_request service (get_request (of_string "/search?" ++ encode_pairs ps) headers) =
    option_map (fun r => http_response r.1 (of_string (if (r.1 =? 200)%Z then "OK" else "Bad Request")) r.2) (search_json service (params_of ps))).
  { change (of_string "/search?") with (of_string "/search" ++ [chr "?"]). rewrite <- app_assoc.
    rewrite (handle_get service "/search" (encode_pairs ps)); [| |by repeat constructor].
    2:{ apply Forall_app. split; [by apply graphic_check|]. constructor; [by vm_compute|by apply encode_pairs_graphic]. }
    rewrite parse_query_encoded by done. fold (params_of ps). cbv zeta.
    change (bool_decide (of_string "/search" = of_string "/health")) with false. change (bool_decide (of_string "/search" = of_string "/search")) with true.
    done. }
  rewrite Hrun. destruct (wait task) as [results|] eqn:Ew; [|by rewrite search_json_waits].
  destruct (search_json_body service (params_of ps) results Hq Ew) as (head & Hhead & Hbody). rewrite Hbody.
  exists (json_escape q), head. split; [done|]. split; [|split; [exact Hhead|]].
  - intros rest. apply read_json_escape. by apply param_utf8.
  - apply Forall_forall. intros row _. unfold result_json.
    eexists _, (json_escape (ctx_GetDocPath (context service) (sr_doc_id row.2)) ++ 34%Z :: of_string "}"). split.
    + change (quoted ",'path':'") with (quoted "," ++ quoted "'path':'"). change (quoted "'}") with (34%Z :: of_string "}"). rewrite !app_assoc. reflexivity.
    + by apply read_json_escape, path_utf8.
Qed.

(** ** Requests that panic *)

Lemma chars_concat s : concat (chars s) = s.
Proof.
  remember (length s) as n eqn:Hn. revert s Hn. induction n as [n IH] using lt_wf_ind. intros s ->.
  assert (Hrec : forall r, length r < length s -> concat (chars r) = r) by (intros r Hr; by eapply IH).
  destruct s as [|b0 [|b1 [|b2 [|b3 r]]]]; cbn [chars]; repeat case_match; cbn [concat app]; rewrite ?app_nil_r; try done;
    cbn [length] in Hrec; repeat f_equal; try (apply (Hrec [_]); cbn; lia); try (apply (Hrec [_; _]); cbn; lia); try (apply (Hrec [_; _; _]); cbn; lia);
    apply Hrec; cbn; lia.
Qed.

(** C35: A percent sign, one ASCII byte and a character of two bytes in a parameter make the decoder cut
    the character, so that the thread of the connection panics and sends nothing. *)
Theorem request_can_panic srv pre h lead low headers :
  Forall (fun b => is_unreserved b = true) pre -> graphic h -> h <> chr "&" -> (195 <= lead <= 223)%Z -> (128 <= low <= 191)%Z ->
  handle_request srv (get_request (of_string "/search?q=" ++ pre ++ [chr "%"; h; lead; low]) headers) = None.
Proof.
  intros Hpre Hh Hamp Hlead Hlow.
  assert (Hp : Forall plain pre) by (eapply Forall_impl; [exact Hpre|]; by right).
  assert (Hchars : forall l, chars ([lead; low] ++ l) = [lead; low] :: chars l).
  { intros l. cbn [app chars]. unfold in_range. replace ((0 <=? lead) && (lead <=? 127))%Z with false by lia.
    by replace ((194 <=? lead) && (lead <=? 223))%Z with true by lia. }
  unfold handle_request.
  replace (of_string "/search?q=" ++ pre ++ [chr "%"; h; lead; low]) with ((of_string "/search?q=" ++ pre ++ [chr "%"; h]) ++ [lead; low])
    by (rewrite <- !app_assoc; done).
  rewrite get_request_words.
  - cbn [nth]. change (bool_decide (of_string "GET" = of_string "OPTIONS")) with false. change (bool_decide (of_string "GET" = of_string "GET")) with true. cbn [negb].
    rewrite <- !app_assoc. change (of_string "/search?q=") with (of_string "/search" ++ chr "?" :: of_string "q="). rewrite <- app_assoc. cbn [app].
    rewrite get_path by by repeat constructor. unfold parse_query. rewrite split_one.
    + cbn [of_string app]. change (Z_of_ascii "q") with 113%Z. change (Z_of_ascii "=") with (chr "="). cbn [insert_parts].
      unfold key_value. change (113%Z :: chr "=" :: ?l) with ([113%Z] ++ chr "=" :: l).
      rewrite split_once_at by by repeat constructor. cbn [from_option id fst snd]. change (url_decode [113%Z]) with (Some [113%Z]). cbv iota.
      unfold url_decode at 1. rewrite url_decode_loop_panics; [done|done| |unfold graphic in Hh; lia|lia|].
      * eapply Forall_impl; [exact Hpre|]. intros b Hb ->. by vm_compute in Hb.
      * cbn. unfold is_continuation, in_range. lia.
    + do 2 (constructor; [done|]). apply Forall_app. split; [eapply Forall_impl; [exact Hp|]; intros b Hb; by apply plain_separators|].
      change (chr "&") with 38%Z in *. constructor; [done|]. repeat (constructor; [lia|]). constructor.
  - apply Forall_app. split; [by apply graphic_check|]. apply Forall_app. split; [eapply Forall_impl; [exact Hp|apply plain_graphic]|].
    constructor; [by vm_compute|]. by constructor.
  - by destruct pre.
  - repeat (constructor; [lia|]). constructor.
  - rewrite <- (app_nil_r [lead; low]), Hchars. constructor; [|constructor]. cbn [code_point]. unfold is_whitespace, in_ranges, in_range. cbn [existsb fst snd]. lia.
  - intros l. rewrite Hchars. by rewrite <- (app_nil_r [lead; low]), Hchars.
  - by rewrite chars_concat.
Qed.

(** The bytes of a request: what was read, less than 64 KiB and one buffer of 8 KiB. *)
Lemma read_request_bound reads : forall request result,
  Forall (fun r => match r with Some chunk => Z.of_nat (length chunk) <= 8192 | None => True end)%Z reads ->
  (Z.of_nat (length request) < 65536 + 8192)%Z -> read_request reads request = Some result ->
  (Z.of_nat (length result) < 65536 + 8192)%Z /\ exists n, result = request ++ concat (omap id (take n reads)).
Proof.
  induction reads as [|[chunk|] reads IH]; intros request result Hr Hl Hread; cbn [read_request] in Hread.
  - destruct (_ && _); simplify_eq. split; [done|]. exists 0. by rewrite app_nil_r.
  - inversion Hr as [|? ? Hc Hr']; subst. destruct (negb (has_blank_line request) && (Z.of_nat (length request) <? 64 * 1024)%Z) eqn:E.
    + destruct chunk as [|b chunk]; [simplify_eq; split; [done|]; exists 0; by rewrite app_nil_r|].
      apply IH in Hread as [Hb (n & ->)]; [|done|rewrite length_app; lia]. split; [done|]. exists (S n). cbn. by rewrite <- app_assoc.
    + simplify_eq. split; [done|]. exists 0. by rewrite app_nil_r.
  - destruct (_ && _); simplify_eq. split; [done|]. exists 0. by rewrite app_nil_r.
Qed.
End service.

(** * Witness *)

Definition sample_float_text : FloatText :=
  {| f32_display x := if f_is_nan x then of_string "NaN" else of_string "1.5"; f32_parse s := None |}.

Definition sample_model : EmbeddingModel := {| GetDimension := DOC_VECTOR_DIM; Embed _ := [] |}.

Definition sample_service : SearchService :=
  {| index_path := of_string "moon.idx"; gbe_host := of_string "127.0.0.1"; gbe_port := 8765; context := sample_context; vector_index := vector_new 16 200 |}.

Definition sample_result (id : Z) : SearchResult := {| sr_doc_id := id; sr_score := f_of_Z F32 1; sr_snippet := [] |}.

(** The second and the third of three results of a query with a quote in it. *)
Definition sample_pairs : list (str * str) :=
  [(of_string "q", quoted "a 'b"); (of_string "offset", of_string "1"); (of_string "limit", of_string "5")].

Lemma search_request_answers_witness :
  Forall pair_ok sample_pairs /\
  exists literal head rows,
    @handle_request sample_float_text sample_tokenizer sample_model (fun _ => None) (fun _ => Some (map sample_result [3; 1; 2]%Z)) (of_string "0.25")
        sample_service (get_request (of_string "/search?q=a%20%22b&offset=1&limit=5") (of_string "Host: a")) =
      Some (http_response 200 (of_string "OK") (quoted "{'query':'" ++ literal ++ head ++ commas rows ++ of_string "]}")) /\
    (forall rest, read_json_string (literal ++ 34%Z :: rest) = Some (quoted "a 'b", rest)) /\ length rows = 2.
Proof.
  assert (Hp : Forall pair_ok sample_pairs) by (repeat constructor).
  split; [exact Hp|].
  destruct (@search_request_answers sample_float_text sample_tokenizer sample_model (fun _ => None) (fun _ => Some (map sample_result [3; 1; 2]%Z))
    (of_string "0.25") sample_service) with (ps := sample_pairs) (headers := of_string "Host: a") as (literal & head & Hr & Hl & _).
  - vm_compute. repeat constructor.
  - exact Hp.
  - by vm_compute.
  - eexists literal, head, _. split; [exact Hr|]. split; [exact Hl|]. by vm_compute.
Defined.

(** q=ab%c\u{e9}. *)
Lemma request_can_panic_witness :
  @handle_request sample_float_text sample_tokenizer sample_model (fun _ => None) (fun _ => Some []) (of_string "0.25")
    sample_service (get_request (of_string "/search?q=ab%c" ++ [195; 169]%Z) (of_string "Host: a")) = None.
Proof.
  change (of_string "/search?q=ab%c" ++ [195; 169]%Z) with (of_string "/search?q=" ++ of_string "ab" ++ [chr "%"; chr "c"; 195; 169]%Z).
  apply (@request_can_panic sample_float_text sample_tokenizer sample_model (fun _ => None) (fun _ => Some []) (of_string "0.25") sample_service).
  - by repeat constructor.
  - by vm_compute.
  - discriminate.
  - done.
  - done.
Defined.
