(* ===== verification/WasmDecode.v ===== *)
(** The inspection side of the browser bindings (Tools/moon_wasm/WasmApi.rs): its own
    decoders of the header, of postings and of paths, and the JSON that shows an
    index. Widths and overflow are those of a release build, which wraps.

    serde_json and the four-digit format of floats are parameters. *)

From Stdlib Require Import Ascii String.
From Stdlib Require Import ZArith Lia ZifyBool Bool List.
From stdpp Require Import base gmap list list_numbers.
From S2P Require Import Prelude Floats PostingCodec PostingStore FileFormat Mphf PathSidecar IndexReader DocData AdvancedReader IndexBuilder IndexFile HttpText.

Local Open Scope moon_scope.

(** serde_json::to_string of a string, and [{:.4}] of a float. *)
Class JsonText := { json_string : str -> str; fixed4 : f32 -> str }.

(** * Decoders *)

Definition u16_at (data : bytes) (offset : nat) : option Z := opt b := get_range data offset (offset + 2) in Some (of_le b).
Definition u32_at (data : bytes) (offset : nat) : option Z := opt b := get_range data offset (offset + 4) in Some (of_le b).
Definition u64_at (data : bytes) (offset : nat) : option Z := opt b := get_range data offset (offset + 8) in Some (of_le b).

Record Header := {
  version : Z; num_docs : Z; num_terms : Z; head_term_off : Z; head_term_count : Z; leaf_term_off : Z; leaf_term_count : Z;
  docdata_off : Z; index_block_off : Z; index_block_count : Z; term_mphf_header_off : Z; term_mphf_header_count : Z;
  term_mphf_displacement_off : Z; term_mphf_displacement_count : Z; term_mphf_entry_off : Z; term_mphf_entry_page_count : Z;
}.

(** [inl message]: the error; [None]: a panic. *)
Definition parse_header (data : bytes) : option (str + Header) :=
  if length data <? INDEX_FILE_HEADER_SIZE then
    Some (inl (of_string "Index header is shorter than " ++ decimal (Z.of_nat INDEX_FILE_HEADER_SIZE) ++ of_string " bytes"))
  else
    opt magic := get_range data 0 8 in
    if negb (bool_decide (magic = INDEX_FILE_MAGIC)) then Some (inl (of_string "Not a valid MOONSHOT index (bad magic)"))
    else
      opt v := u32_at data 8 in
      if negb (v =? INDEX_FORMAT_VERSION)%Z then
        Some (inl (of_string "Unsupported index version " ++ decimal v ++ of_string "; expected " ++ decimal INDEX_FORMAT_VERSION))
      else
        opt f16 := u64_at data 16 in opt f24 := u64_at data 24 in opt f32 := u64_at data 32 in opt f40 := u64_at data 40 in
        opt f48 := u64_at data 48 in opt f56 := u64_at data 56 in opt f64 := u64_at data 64 in opt f72 := u64_at data 72 in
        opt f80 := u64_at data 80 in opt f88 := u64_at data 88 in opt f96 := u64_at data 96 in opt f104 := u64_at data 104 in
        opt f112 := u64_at data 112 in opt f120 := u64_at data 120 in opt f128 := u64_at data 128 in
        Some (inr {| version := v; num_docs := f16; num_terms := f24; head_term_off := f32; head_term_count := f40; leaf_term_off := f48;
                     leaf_term_count := f56; docdata_off := f64; index_block_off := f72; index_block_count := f80; term_mphf_header_off := f88;
                     term_mphf_header_count := f96; term_mphf_displacement_off := f104; term_mphf_displacement_count := f112;
                     term_mphf_entry_off := f120; term_mphf_entry_page_count := f128 |}).

(** The loop of vb_read: [shift] is a [u8], and a shift of a [u64] takes it modulo 64. *)
Fixpoint vb_read_loop (fuel : nat) (data : bytes) (pos : nat) (value shift : Z) : Z * nat :=
  match fuel with
  | O => (value, pos)
  | S fuel' =>
      if length data <=? pos then (value, pos)
      else
        let byte := nth pos data 0%Z in
        let value := Z.lor value (wrap 64 (Z.shiftl (Z.land byte 127) (shift mod 64))) in
        if (Z.land byte 128 =? 0)%Z then (value, S pos)
        else vb_read_loop fuel' data (S pos) value (wrap 8 (shift + 7))
  end.

Definition vb_read (data : bytes) (start : nat) : Z * nat :=
  let '(value, pos) := vb_read_loop (S (length data)) data start 0 0 in (value, pos - start).

Fixpoint decode_postings_loop (fuel : nat) (data : bytes) (pos : nat) : list (Z * Z) :=
  match fuel with
  | O => []
  | S fuel' =>
      if pos <? length data then
        let '(doc_id, doc_bytes) := vb_read data pos in
        let pos := pos + doc_bytes in
        if length data <=? pos then []
        else (doc_id, nth pos data 0%Z) :: decode_postings_loop fuel' data (S pos)
      else []
  end.

(** Every turn moves forward. *)
Definition decode_postings (data : bytes) : list (Z * Z) := decode_postings_loop (S (length data)) data 0.

Definition decode_doc_path (payload : bytes) (prefixes : list str) : str :=
  match payload with
  | [] => []
  | _ =>
      if length payload <? DOC_PATH_PREFIX_ID_BYTES then default [] (from_utf8 payload)
      else
        let prefix_id := of_le (slice 0 2 payload) in
        let filename := default [] (from_utf8 (drop 2 payload)) in
        if (prefix_id =? DOC_PATH_PREFIX_INVALID)%Z || (Z.of_nat (length prefixes) <=? prefix_id)%Z then filename
        else
          let prefix := nth (Z.to_nat prefix_id) prefixes [] in
          match prefix with
          | [] => filename
          | _ =>
              let separator := if existsb (Z.eqb (chr "\")) prefix then chr "\" else chr "/" in
              if ends_with prefix (of_string "/") || ends_with prefix (of_string "\") then prefix ++ filename
              else prefix ++ [separator] ++ filename
          end
  end.

Section json.
Context `{JsonText}.

(** * Postings of a page *)

Definition format_posting (posting : Z * Z) : str :=
  quoted "{'ie_doc_id':'" ++ decimal posting.1 ++ quoted "','ie_term_frequency':" ++ decimal posting.2 ++ of_string "}".

Definition format_postings (term : str) (doc_freq : Z) (offset len : nat) (continuation_count : Z) (postings : list (Z * Z)) : str :=
  let shown := Nat.min (length postings) 5 in
  let more :=
    if shown <? length postings then
      [quoted "{'ie_doc_id':'...','ie_term_frequency':'(" ++ decimal (Z.of_nat (length postings - shown)) ++ quoted " more)'}"]
    else [] in
  quoted "{'LTE_Term':" ++ json_string term ++ quoted ",'LTE_DocFreq':" ++ decimal doc_freq ++ quoted ",'LTE_IndexLength':" ++ decimal (Z.of_nat len) ++
  quoted ",'LTE_IndexOffset':" ++ decimal (Z.of_nat offset) ++ quoted ",'LTE_ContinuationBlockCount':" ++ decimal continuation_count ++
  quoted ",'index_entries':[" ++ commas (map format_posting (take shown postings) ++ more) ++ of_string "]}".

(** The first entry of a page: what the page starts with, read as a continuation header. *)
Definition continuation_term (block : bytes) : list str :=
  match continuation_from_bytes block with
  | Some header =>
      let len := Z.to_nat (IBCH_DataLength header) in
      if (0 <? len) && (INDEX_BLOCK_CONTINUATION_HEADER_SIZE + len <=? PAGE_SIZE) then
        let postings := decode_postings (slice INDEX_BLOCK_CONTINUATION_HEADER_SIZE len block) in
        [format_postings (of_string "[continuation]") 0 INDEX_BLOCK_CONTINUATION_HEADER_SIZE len 0 postings]
      else []
  | None => []
  end.

Definition entry_term (block : bytes) (entry : LeafTermEntry) : list str :=
  let start := Z.to_nat (LTE_IndexOffset entry) in
  let len := Z.to_nat (LTE_IndexLength entry) in
  if PAGE_SIZE <? start + len then []
  else
    let postings := decode_postings (slice start len block) in
    [format_postings (LTE_Term entry) (LTE_DocFreq entry) start len (LTE_ContinuationBlockCount entry) postings].

Definition decode_block_terms (block : bytes) (entries : list LeafTermEntry) : list str :=
  continuation_term block ++ concat (map (entry_term block) entries).

(** * The whole index *)

Definition header_json (header : Header) (file_size : Z) : str :=
  let subindex_size := saturating_sub (docdata_off header) (head_term_off header) in
  let docdata_size := wrapping_mul 64 (num_docs header) (Z.of_nat DOC_REC_SIZE) in
  quoted "{'size':" ++ decimal (Z.of_nat INDEX_FILE_HEADER_SIZE) ++ quoted ",'magic':'MOONSHOT','version':" ++ decimal (version header) ++
  quoted ",'num_docs':" ++ decimal (num_docs header) ++ quoted ",'num_terms':" ++ decimal (num_terms header) ++
  quoted ",'head_term_off':" ++ decimal (head_term_off header) ++ quoted ",'head_term_count':" ++ decimal (head_term_count header) ++
  quoted ",'leaf_term_off':" ++ decimal (leaf_term_off header) ++ quoted ",'leaf_term_count':" ++ decimal (leaf_term_count header) ++
  quoted ",'docdata_off':" ++ decimal (docdata_off header) ++ quoted ",'docdata_size':" ++ decimal docdata_size ++
  quoted ",'index_block_off':" ++ decimal (index_block_off header) ++ quoted ",'index_block_count':" ++ decimal (index_block_count header) ++
  quoted ",'term_mphf_header_off':" ++ decimal (term_mphf_header_off header) ++ quoted ",'term_mphf_header_count':" ++ decimal (term_mphf_header_count header) ++
  quoted ",'term_mphf_displacement_off':" ++ decimal (term_mphf_displacement_off header) ++
  quoted ",'term_mphf_displacement_count':" ++ decimal (term_mphf_displacement_count header) ++
  quoted ",'term_mphf_entry_off':" ++ decimal (term_mphf_entry_off header) ++ quoted ",'term_mphf_entry_page_count':" ++ decimal (term_mphf_entry_page_count header) ++
  quoted ",'subindex_off':" ++ decimal (head_term_off header) ++ quoted ",'subindex_size':" ++ decimal subindex_size ++
  quoted ",'pageskip_off':0,'pageskip_size':0,'blocks_off':" ++ decimal (index_block_off header) ++ quoted ",'num_blocks':" ++ decimal (index_block_count header) ++
  quoted ",'ib_data_off':0,'file_size':" ++ decimal file_size ++ of_string "}".

Definition parse_index_summary_inner (data : bytes) (file_size : Z) : option (str + str) :=
  opt parsed := parse_header data in
  match parsed with
  | inl error => Some (inl error)
  | inr header =>
      Some (inr (quoted "{'header':" ++ header_json header file_size ++
                 quoted ",'head_leaf_term_table':{'head':[],'leaf_blocks':[]},'docdata':[],'blocks':[],'summary_only':true}"))
  end.

Definition error_json (error : str) : str := quoted "{'error':'" ++ error ++ quoted "'}".

Definition parse_index_summary (data : bytes) (file_size : Z) : option str :=
  opt result := parse_index_summary_inner data file_size in
  Some (match result with inl error => error_json error | inr value => value end).

Definition head_entry_json (header : Header) (index : nat) (entry : HeadTermEntry) : str :=
  quoted "{'HTE_FirstTerm':" ++ json_string (first_term entry) ++ quoted ",'HTE_LeafTermBlockID':" ++ decimal (HTE_LeafTermBlockID entry) ++
  quoted ",'byte_offset':" ++ decimal (head_term_off header + Z.of_nat index * 32) ++ quoted ",'byte_len':32,'leaf_term_block_offset':" ++
  decimal (leaf_term_off header + HTE_LeafTermBlockID entry * Z.of_nat PAGE_SIZE) ++ quoted ",'leaf_term_block_len':" ++ decimal (Z.of_nat PAGE_SIZE) ++ of_string "}".

(** An entry that cannot be read leaves its comma. *)
Definition leaf_entry_json (block_offset : Z) (block : LeafTermBlock) (entry_index : nat) : str :=
  match entry block entry_index with
  | None => []
  | Some e =>
      quoted "{'LTE_Term':" ++ json_string (LTE_Term e) ++ quoted ",'LTE_DocFreq':" ++ decimal (LTE_DocFreq e) ++
      quoted ",'LTE_IndexBlockID':" ++ decimal (LTE_IndexBlockID e) ++ quoted ",'LTE_IndexOffset':" ++ decimal (LTE_IndexOffset e) ++
      quoted ",'LTE_IndexLength':" ++ decimal (LTE_IndexLength e) ++ quoted ",'LTE_ContinuationBlockCount':" ++ decimal (LTE_ContinuationBlockCount e) ++
      quoted ",'LTE_Flags':" ++ decimal (LTE_Flags e) ++ quoted ",'byte_offset':" ++ decimal (block_offset + directory block entry_index) ++
      quoted ",'byte_len':" ++ decimal (Z.of_nat (byte_len e)) ++ of_string "}"
  end.

Definition leaf_block_json (header : Header) (block_index : nat) (block : LeafTermBlock) : str :=
  let block_offset := (leaf_term_off header + Z.of_nat block_index * Z.of_nat PAGE_SIZE)%Z in
  quoted "{'id':" ++ decimal (Z.of_nat block_index) ++ quoted ",'byte_offset':" ++ decimal block_offset ++ quoted ",'byte_len':" ++ decimal (Z.of_nat PAGE_SIZE) ++
  quoted ",'entry_count':" ++ decimal (Z.of_nat (entry_count block)) ++ quoted ",'entries':[" ++
  commas (map (leaf_entry_json block_offset block) (seq 0 (entry_count block))) ++ of_string "]}".

(** A record of the document table: its id, importance, length and path. *)
Definition docdata_row (docdata : bytes) (prefixes : list str) (first_doc_id : Z) (slot : nat) : option (list (Z * f32 * Z * str)) :=
  let offset := slot * DOC_REC_SIZE in
  opt doc_id := u32_at docdata offset in
  if negb (doc_id =? first_doc_id + Z.of_nat slot)%Z then Some []
  else
    opt encoded := u16_at docdata (offset + 4) in
    opt doc_len := u32_at docdata (offset + 30) in
    opt stored := u16_at docdata (offset + 18) in
    let path_len := Nat.min (Z.to_nat stored) DOC_PATH_MAX in
    opt payload := get_range docdata (offset + DOC_PATH_OFFSET) (offset + DOC_PATH_OFFSET + path_len) in
    Some [(doc_id, f_div F32 (f_of_Z F32 encoded) (f_of_Z F32 65535), doc_len, if 0 <? path_len then decode_doc_path payload prefixes else [])].

Fixpoint docdata_rows (docdata : bytes) (prefixes : list str) (first_doc_id : Z) (slots : list nat) : option (list (Z * f32 * Z * str)) :=
  match slots with
  | [] => Some []
  | slot :: slots' =>
      if length docdata <? slot * DOC_REC_SIZE + DOC_REC_SIZE then Some []
      else
        opt row := docdata_row docdata prefixes first_doc_id slot in
        opt rows := docdata_rows docdata prefixes first_doc_id slots' in
        Some (row ++ rows)
  end.

Definition docs_of (header : Header) (docdata : bytes) (prefixes : list str) : option (list (Z * f32 * Z * str)) :=
  opt first_doc_id := if (0 <? num_docs header)%Z && (DOC_REC_SIZE <=? length docdata) then u32_at docdata 0 else Some 0%Z in
  opt rows := docdata_rows docdata prefixes first_doc_id (seq 0 (Z.to_nat (num_docs header))) in
  Some (stable_sort (fun a b => a.1.1.1 <=? b.1.1.1)%Z rows).

Definition doc_json (doc : Z * f32 * Z * str) : str :=
  let '(doc_id, importance, doc_len, path) := doc in
  quoted "{'doc_id':'" ++ decimal doc_id ++ quoted "','importance':" ++ fixed4 importance ++ quoted ",'doc_len':" ++ decimal doc_len ++
  quoted ",'path':" ++ json_string path ++ of_string "}".

(** [block_entry_map.get(&seq)]: the entries of the page in the order of the leaf blocks. *)
Definition block_entries (leaf_blocks : list LeafTermBlock) (seq : nat) : list LeafTermEntry :=
  List.filter (fun e => (LTE_IndexBlockID e =? Z.of_nat seq)%Z) (concat (map leaf_entries leaf_blocks)).

Definition block_json (header : Header) (leaf_blocks : list LeafTermBlock) (seq : nat) (block : bytes) : str :=
  quoted "{'seq':" ++ decimal (Z.of_nat seq) ++ quoted ",'byte_off':" ++ decimal (index_block_off header + Z.of_nat seq * Z.of_nat PAGE_SIZE) ++
  quoted ",'terms':[" ++ commas (decode_block_terms block (block_entries leaf_blocks seq)) ++ of_string "]}".

(** The text of a decoding error. *)
Definition error_debug (e : RustBladeError) : str :=
  of_string (match e with Io => "Io" | InvalidFormat => "InvalidFormat" | IndexNotBuilt => "IndexNotBuilt" end).

Definition parse_index_inner (data : bytes) : option (str + str) :=
  opt parsed := parse_header data in
  match parsed with
  | inl error => Some (inl error)
  | inr header =>
      match decode store_new data with
      | Err e => Some (inl (error_debug e))
      | Ok (_, d) =>
          opt docs := docs_of header (dec_docdata d) (dec_prefixes d) in
          Some (inr (quoted "{'header':" ++ header_json header (Z.of_nat (length data)) ++
            quoted ",'head_leaf_term_table':{'head':[" ++ commas (imap (head_entry_json header) (dec_head d)) ++
            quoted "],'leaf_blocks':[" ++ commas (imap (leaf_block_json header) (dec_leaf_blocks d)) ++
            quoted "]},'docdata':[" ++ commas (map doc_json docs) ++
            quoted "],'blocks':[" ++ commas (imap (block_json header (dec_leaf_blocks d)) (dec_index_blocks d)) ++ of_string "]}"))
      end
  end.

Definition parse_index (data : bytes) : option str :=
  opt result := parse_index_inner data in
  Some (match result with inl error => error_json error | inr value => value end).
End json.

(** * The decoders agree with the library's *)

Lemma get_range_slice {A} (l : list A) a n : a + n <= length l -> get_range l a (a + n) = Some (slice a n l).
Proof. intros Hl. unfold get_range. rewrite bool_decide_eq_true_2 by lia. by replace (a + n - a) with n by lia. Qed.

Lemma u64_at_get data i : i + 8 <= length data -> u64_at data i = Some (get 8 i data).
Proof. intros Hl. unfold u64_at. by rewrite get_range_slice. Qed.

(** The fields of the library's header. *)
Definition header_view (h : IndexFileHeader) : Header :=
  {| version := IFH_Version h; num_docs := IFH_NumDocuments h; num_terms := IFH_NumTerms h; head_term_off := IFH_HeadTermEntryOffset h;
     head_term_count := IFH_HeadTermEntryCount h; leaf_term_off := IFH_LeafTermBlockOffset h; leaf_term_count := IFH_LeafTermBlockCount h;
     docdata_off := IFH_DocDataOffset h; index_block_off := IFH_IndexBlockOffset h; index_block_count := IFH_IndexBlockCount h;
     term_mphf_header_off := IFH_TermMphfHeaderOffset h; term_mphf_header_count := IFH_TermMphfHeaderCount h;
     term_mphf_displacement_off := IFH_TermMphfDisplacementOffset h; term_mphf_displacement_count := IFH_TermMphfDisplacementCount h;
     term_mphf_entry_off := IFH_TermMphfEntryOffset h; term_mphf_entry_page_count := IFH_TermMphfEntryPageCount h |}.

Lemma parse_header_agrees data :
  match header_parse data with
  | Ok h => parse_header data = Some (inr (header_view h))
  | Err _ => exists message, parse_header data = Some (inl message)
  end.
Proof.
  unfold header_parse, parse_header. destruct (length data <? INDEX_FILE_HEADER_SIZE) eqn:Hl; [by eexists|]. apply Nat.ltb_ge in Hl.
  unfold INDEX_FILE_HEADER_SIZE in Hl. cbn [orb]. change (get_range data 0 8) with (get_range data 0 (0 + 8)). rewrite (get_range_slice data 0 8) by lia. destruct (bool_decide _) eqn:Hm; cbn [negb]; [|by eexists].
  unfold u32_at. rewrite (get_range_slice data 8 4) by lia. fold (get 4 8 data). destruct (negb _) eqn:Hv; [by eexists|].
  rewrite !u64_at_get by lia. reflexivity.
Qed.

(** The two VarByte readers are the same text. *)
Lemma vb_read_loop_same fuel : forall data pos value shift, vb_read_loop fuel data pos value shift = VbRead_loop fuel data pos value shift.
Proof. induction fuel as [|fuel IH]; intros; [done|]. cbn [vb_read_loop VbRead_loop]. by rewrite IH. Qed.

Lemma vb_read_vb pre v post : in_u 64 v -> vb_read (pre ++ vb_write v ++ post) (length pre) = (v, length (vb_write v)).
Proof. intros Hv. rewrite <- (VbRead_vb pre v post) by done. unfold vb_read, VbRead. by rewrite vb_read_loop_same. Qed.

Lemma vb_write_nonempty v : 0 < length (vb_write v).
Proof. unfold vb_write. cbn [vb_write_loop]. case_match; cbn; lia. Qed.

Lemma decode_postings_loop_enc ps : forall fuel pre, Forall wf_pair ps -> length (enc_pairs ps) < fuel ->
  decode_postings_loop fuel (pre ++ enc_pairs ps) (length pre) = ps.
Proof.
  induction ps as [|p ps IH]; intros fuel pre Hps Hf; (destruct fuel as [|fuel]; [lia|]).
  - cbn [decode_postings_loop]. change (enc_pairs []) with (@nil Z). rewrite app_nil_r. by rewrite Nat.ltb_irrefl.
  - inversion Hps as [|? ? Hp Hps']; subst. rewrite enc_pairs_cons in Hf |- *. rewrite length_app in Hf. cbn [length] in Hf.
    pose proof (vb_write_nonempty p.1). cbn [decode_postings_loop].
    assert (Hlt : (length pre <? length (pre ++ vb_write p.1 ++ p.2 :: enc_pairs ps)) = true) by (apply Nat.ltb_lt; rewrite !length_app; cbn; lia).
    rewrite Hlt, vb_read_vb by apply Hp.
    assert (Hle : (length (pre ++ vb_write p.1 ++ p.2 :: enc_pairs ps) <=? length pre + length (vb_write p.1)) = false)
      by (apply Nat.leb_gt; rewrite !length_app; cbn; lia).
    rewrite Hle. replace (length pre + length (vb_write p.1)) with (length (pre ++ vb_write p.1)) by by rewrite length_app.
    rewrite app_assoc, app_nth2, Nat.sub_diag by lia. cbn [nth].
    replace ((pre ++ vb_write p.1) ++ p.2 :: enc_pairs ps) with ((pre ++ vb_write p.1 ++ [p.2]) ++ enc_pairs ps) by (rewrite <- !app_assoc; done).
    replace (S (length (pre ++ vb_write p.1))) with (length (pre ++ vb_write p.1 ++ [p.2])) by (rewrite !length_app; cbn; lia).
    rewrite IH by (done || lia). by destruct p.
Qed.

Lemma decode_postings_enc ps : Forall wf_pair ps -> decode_postings (enc_pairs ps) = ps.
Proof. intros Hp. unfold decode_postings. apply (decode_postings_loop_enc ps _ []); [done|lia]. Qed.

Lemma ends_with_last s c : ends_with s [c] = match last s with Some b => (b =? c)%Z | None => false end.
Proof.
  unfold ends_with. destruct s as [|b s _] using rev_ind; [done|]. rewrite last_snoc, length_app. cbn [length].
  replace (length s + 1 - 1) with (length s) by lia. rewrite drop_app_length. destruct (b =? c)%Z eqn:E.
  - apply bool_decide_eq_true. split; [lia|]. f_equal. lia.
  - apply bool_decide_eq_false. intros [_ [=]]. lia.
Qed.

Lemma ends_with_separators s : ends_with s (of_string "/") || ends_with s (of_string "\") = ends_with_separator s.
Proof.
  change (of_string "/") with [Z_of_ascii "/"%char]. change (of_string "\") with [Z_of_ascii "\"%char].
  rewrite !ends_with_last. unfold ends_with_separator. by destruct (last s).
Qed.

Lemma decode_doc_path_agrees payload prefixes : decode_doc_path payload prefixes = DecodeDocPath payload prefixes.
Proof.
  unfold decode_doc_path, DecodeDocPath. destruct payload as [|b payload]; [done|]. set (l := b :: payload). change (length l =? 0) with false. cbv iota.
  destruct (_ <? _); [done|]. cbv zeta. change (get 2 0 l) with (of_le (slice 0 2 l)). destruct (_ || _); [done|].
  rewrite ends_with_separators. destruct (nth _ prefixes []) as [|c p] eqn:E; [done|]. reflexivity.
Qed.

(** C37: What the inspector of the browser decodes by itself is what the library
    reads: it accepts the headers that the library accepts, with the same fields; it reads back
    the postings of an encoded list; it rebuilds the same path from a record. *)
Theorem inspection_agrees :
  (forall data, match header_parse data with
     | Ok h => parse_header data = Some (inr (header_view h))
     | Err _ => exists message, parse_header data = Some (inl message)
     end) /\
  (forall ps, Forall wf_pair ps -> decode_postings (enc_pairs ps) = ps) /\
  (forall payload prefixes, decode_doc_path payload prefixes = DecodeDocPath payload prefixes).
Proof. split_and!; [apply parse_header_agrees|apply decode_postings_enc|apply decode_doc_path_agrees]. Qed.

(** A store of one term in four documents: nine bytes of postings. *)
Definition nine_bytes_store : PostingStore :=
  {| m_Postings := {[ [97; 84]%Z := {| entries := map (fun d => {| ie_doc_id := d; ie_term_frequency := 1 |}) [1; 2; 3; 300]%Z |} ]};
     m_DocStats := ∅; m_DocVectors := ∅; m_TotalTerms := 4; m_PostingEntries := 4 |}.

Definition nine_bytes_check : bool :=
  match @BuildBlocks sample_libm nine_bytes_store with
  | Some r =>
      match BBR_IndexBlocks r, block_entries (BBR_LeafTermBlocks r) 0 with
      | [block], [e] =>
          bool_decide (option_map IBCH_DataLength (continuation_from_bytes block) = Some 32%Z) &&
          bool_decide (decode_postings (slice 12 32 block) = replicate 16 (0, 0)%Z) &&
          bool_decide (decode_postings (slice 0 9 block) = [(1, 32); (2, 32); (3, 32); (300, 32)]%Z) &&
          bool_decide (LTE_Term e = [97; 84]%Z) &&
          bool_decide ([LTE_DocFreq e; LTE_IndexOffset e; LTE_IndexLength e; LTE_ContinuationBlockCount e] = [4; 0; 9; 0]%Z)
      | _, _ => false
      end
  | None => false
  end.

Lemma nine_bytes_checked : nine_bytes_check = true.
Proof. by vm_compute. Qed.

(** C38: The inspector reads the start of every page as a continuation header: a
    one-page index, whose only term has no continuation page, is shown with a continuation entry
    of sixteen postings beside the four postings of its term. *)
Theorem first_page_shown_as_continuation `{JsonText} : exists r block entry,
  @storable sample_libm nine_bytes_store /\ @BuildBlocks sample_libm nine_bytes_store = Some r /\
  BBR_IndexBlocks r = [block] /\ block_entries (BBR_LeafTermBlocks r) 0 = [entry] /\ LTE_ContinuationBlockCount entry = 0%Z /\
  decode_block_terms block [entry] =
    [format_postings (of_string "[continuation]") 0 12 32 0 (replicate 16 (0, 0)%Z);
     format_postings [97; 84]%Z 4 0 9 0 [(1, 32); (2, 32); (3, 32); (300, 32)]%Z].
Proof.
  pose proof nine_bytes_checked as Hc. unfold nine_bytes_check in Hc. destruct (BuildBlocks nine_bytes_store) as [r|] eqn:Hr; [|done].
  destruct (BBR_IndexBlocks r) as [|block [|]] eqn:Hb; [done| |done]. destruct (block_entries (BBR_LeafTermBlocks r) 0) as [|e [|]] eqn:He; [done| |done].
  rewrite !andb_true_iff, !bool_decide_eq_true in Hc. destruct Hc as ((((Hlen & Hcont) & Hpost) & Hterm) & [= H4 H0 H9 Hcount]).
  exists r, block, e. split; [|split; [exact eq_refl|split; [exact Hb|split; [exact He|split; [exact Hcount|]]]]].
  - apply map_Forall_singleton. split; [reflexivity|split; [apply docs_ok_compute; vm_compute; reflexivity|]]. apply Z.leb_le; vm_compute; reflexivity.
  - unfold decode_block_terms, continuation_term, entry_term. destruct (continuation_from_bytes block) as [h|]; [|done]. cbn in Hlen. injection Hlen as Hlen.
    cbn [map concat]. rewrite Hlen, H0, H9, Hterm, H4, Hcount.
    change (Z.to_nat 32) with 32. change (Z.to_nat 9) with 9. change (Z.to_nat 0) with 0. change INDEX_BLOCK_CONTINUATION_HEADER_SIZE with 12.
    change ((0 <? 32) && (12 + 32 <=? PAGE_SIZE)) with true. change (PAGE_SIZE <? 0 + 9) with false. cbv iota. by rewrite Hcont, Hpost.
Qed.
