(* ===== verification/WasmApi.v ===== *)
(** The searches of the browser bindings (Tools/moon_wasm/WasmApi.rs): the text
    searches of an index given as bytes, and the vector searches with the context
    they keep between calls under a key of the buffers they were given.

    serde_json, the embedding model and the heaps of the standard library are
    parameters; [None] is a panic. *)

From Stdlib Require Import Ascii String.
From Stdlib Require Import ZArith Lia ZifyBool Bool List.
From stdpp Require Import base gmap list list_numbers.
From S2P Require Import Prelude Floats PostingStore FileFormat PathSidecar BlockCache IndexReader DocData Composites ReaderTree EvalExpression Executor Query IndexFile Runtime Context ContextReaders VectorIndex VectorRuntime HttpText WasmDecode.

Local Open Scope moon_scope.

(** serde_json::from_str of a list of numbers: the error's text or the list. *)
Class JsonVector := { json_vector : str -> str + list f32 }.

(** ** The key of a buffer *)

Definition FNV_OFFSET : Z := 0xcbf29ce484222325.
Definition FNV_PRIME : Z := 0x100000001b3.

Definition content_checksum (data : bytes) : Z :=
  fold_left (fun hash byte => wrapping_mul 64 (Z.lxor hash byte) FNV_PRIME) data (Z.lxor FNV_OFFSET (Z.of_nat (length data))).

(** [u64::rotate_left]. *)
Definition rotate_left (value n : Z) : Z := Z.lor (wrap 64 (Z.shiftl value n)) (Z.shiftr value (64 - n)).

Record VectorCacheKey := {
  key_file_size : nat; key_version : Z; key_num_docs : Z; key_num_terms : Z; key_docdata_off : Z; key_index_block_count : Z; key_checksum : Z;
}.

#[export] Instance VectorCacheKey_eq : EqDecision VectorCacheKey.
Proof. solve_decision. Defined.

Definition vector_cache_key (data : bytes) : option (str + VectorCacheKey) :=
  opt parsed := parse_header data in
  Some (match parsed with
  | inl error => inl error
  | inr header =>
      inr {| key_file_size := length data; key_version := version header; key_num_docs := num_docs header; key_num_terms := num_terms header;
             key_docdata_off := docdata_off header; key_index_block_count := index_block_count header; key_checksum := content_checksum data |}
  end).

Definition tables_key (docdata path_prefix_sidecar : bytes) : VectorCacheKey :=
  {| key_file_size := length docdata + length path_prefix_sidecar; key_version := 0; key_num_docs := Z.of_nat (length docdata / DOC_REC_SIZE);
     key_num_terms := 0; key_docdata_off := 0; key_index_block_count := 0;
     key_checksum := Z.lxor (content_checksum docdata) (rotate_left (content_checksum path_prefix_sidecar) 1) |}.

(** ** The answers *)

Section searches.
Context `{JsonText, JsonVector}.

Definition result_json (doc_id : Z) (score : f32) (path : str) : str :=
  quoted "{'doc_id':'" ++ decimal doc_id ++ quoted "','score':" ++ fixed4 score ++ quoted ",'path':" ++ json_string path ++ of_string "}".

Definition results_json (results : list (Z * f32 * str)) : str :=
  of_string "[" ++ commas (map (fun r => result_json r.1.1 r.1.2 r.2) results) ++ of_string "]".

Definition failed (what error : str) : str := error_json (what ++ of_string ": " ++ error).

(** The checks of a query vector: the error to answer, or the vector. *)
Definition read_query_vector (query_vector_json : str) : str + list f32 :=
  match json_vector query_vector_json with
  | inl error => inl (failed (of_string "Invalid query vector") error)
  | inr vector =>
      if length vector =? DOC_VECTOR_DIM then inr vector
      else inl (error_json (of_string "Invalid query vector dimension: expected " ++ decimal (Z.of_nat DOC_VECTOR_DIM) ++ of_string ", got " ++
                            decimal (Z.of_nat (length vector))))
  end.

(** ** Text searches *)

Section text.
Context `{Libm, Tokenizer} {Hp : Type} `{MinHeap Hp}.
(** [model] is the embedding model of the context's vector index, [search] its vector search. *)
Context (model : EmbeddingModel) (search : list f32 -> Z -> Z -> list VectorSearchResult).

Definition streams_or_all (streams : str) : str := match streams with [] => of_string "AUTB" | _ => streams end.

Definition context_results (ctx : IndexContext) (results : list SearchResult) : list (Z * f32 * str) :=
  map (fun r => (sr_doc_id r, sr_score r, ctx_GetDocPath ctx (sr_doc_id r))) results.

(** search_loaded_index, on the context that open_index left and with the context it leaves; search_index ends with it. *)
Definition search_loaded_index (fuel : nat) (context : option IndexContext) (query streams : str) : option (option IndexContext * str) :=
  match context with
  | None => Some (None, error_json (of_string "Index is not loaded"))
  | Some ctx =>
      opt read := GetReader ctx search search fuel (ctx_Compile model query (streams_or_all streams)) in
      let '(ctx, reader) := read in
      opt results := Execute (Hp := Hp) (ctx_GetDocDataEntry ctx) (m_QueryParameters ctx) fuel reader 0 in
      Some (Some ctx, results_json (context_results ctx results))
  end.

Definition search_index (fuel : nat) (data : bytes) (query streams : str) : option str :=
  let '(ctx, loaded) := ctx_LoadFromBytes (context_new None true) data in
  match loaded with
  | Err e => Some (failed (of_string "Failed to load index") (error_debug e))
  | Ok _ => option_map snd (search_loaded_index fuel (Some ctx) query streams)
  end.

Definition combined_search_index (fuel : nat) (data : bytes) (query query_vector_json streams : str) (top_k : Z) (ef_search : nat) : option str :=
  match read_query_vector query_vector_json with
  | inl answer => Some answer
  | inr query_vector =>
      if (top_k <? 0)%Z then Some (error_json (of_string "top_k must be zero or positive"))
      else
        let '(ctx, loaded) := ctx_LoadFromBytes (context_new None true) data in
        match loaded with
        | Err e => Some (failed (of_string "Failed to load index") (error_debug e))
        | Ok _ =>
            let tree := ctx_Compile model query (streams_or_all streams) in
            let tree := {| root := root tree; vector_query := query_vector; vector_ef_search := Z.max (Z.of_nat ef_search) 1 |} in
            opt read := GetReader ctx search search fuel tree in
            let '(ctx, reader) := read in
            opt results := ExecuteWithVector (Hp := Hp) (ctx_GetDocDataEntry ctx) (m_QueryParameters ctx) fuel reader top_k (Some query_vector) in
            Some (results_json (context_results ctx results))
        end
  end.
End text.

(** ** Vector searches *)

Section vector.
Context {C R : Type} `{NodeHeap C, NodeHeap R}.

(** The buffers of a vector search: a whole index, or its records and path prefixes. *)
Inductive Buffers := Whole (data : bytes) | Tables (docdata path_prefix_sidecar : bytes).

(** VECTOR_CONTEXT_CACHE: the key, the context and its vector index. *)
Record CachedVectorContext := { key : VectorCacheKey; context : IndexContext; vectors : VectorIndex }.

Definition buffers_key (buffers : Buffers) : option (str + VectorCacheKey) :=
  match buffers with
  | Whole data => vector_cache_key data
  | Tables docdata sidecar => Some (inr (tables_key docdata sidecar))
  end.

Definition load_buffers (buffers : Buffers) : IndexContext * result unit :=
  match buffers with
  | Whole data => LoadVectorFromBytes (context_new None true) data
  | Tables docdata sidecar => LoadVectorTables (context_new None true) docdata sidecar
  end.

Definition load_failed (buffers : Buffers) : str :=
  of_string (match buffers with Whole _ => "Failed to load vector index" | Tables _ _ => "Failed to load vector tables" end).

(** The closure on the borrowed cache: reload under another key, then search. *)
Definition cached_search (cache : option CachedVectorContext) (cache_key : VectorCacheKey) (buffers : Buffers) (query_vector : list f32) (top_k ef_search : nat)
  : option (option CachedVectorContext * (str + list (Z * f32 * str))) :=
  let reload := match cache with Some cached => negb (bool_decide (key cached = cache_key)) | None => true end in
  let reloaded :=
    if reload then
      match load_buffers buffers with
      | (_, Err e) => inl (error_debug e)
      | (ctx, Ok _) => inr (Some {| key := cache_key; context := ctx; vectors := vector_new 32 200 |})
      end
    else inr cache in
  match reloaded with
  | inl error => Some (cache, inl error)
  | inr None => Some (None, inl (of_string "vector cache unavailable"))
  | inr (Some cached) =>
      let ctx := context cached in
      opt found := ctx_VectorSearch (C := C) (R := R) (m_VectorBuilt ctx) (vectors cached) (m_DocData (m_Index ctx)) (m_IndexFileHeader (m_Index ctx))
                     query_vector top_k Cosine (Nat.max ef_search (if top_k =? 0 then 1 else top_k)) in
      let '(v, results) := found in
      Some (Some {| key := key cached; context := with_loaded ctx (m_Store ctx) (m_Index ctx) true (m_Built ctx) (m_LoadedFromDisk ctx); vectors := v |},
            inr (map (fun r => (vsr_doc_id r, vsr_score r, ctx_GetDocPath ctx (vsr_doc_id r))) results))
  end.

(** The body that vector_search_index and vector_search_tables share: the cache after the call and the answer. *)
Definition vector_search (cache : option CachedVectorContext) (buffers : Buffers) (query_vector_json : str) (top_k ef_search : nat)
  : option (option CachedVectorContext * str) :=
  match read_query_vector query_vector_json with
  | inl answer => Some (cache, answer)
  | inr query_vector =>
      opt keyed := buffers_key buffers in
      match keyed with
      | inl error => Some (cache, failed (of_string "Failed to read index header") error)
      | inr cache_key =>
          opt searched := cached_search cache cache_key buffers query_vector top_k ef_search in
          Some (searched.1, match searched.2 with
                            | inl error => failed (load_failed buffers) error
                            | inr results => results_json results
                            end)
      end
  end.

Definition vector_search_index (cache : option CachedVectorContext) (data : bytes) (query_vector_json : str) (top_k ef_search : nat) :=
  vector_search cache (Whole data) query_vector_json top_k ef_search.

Definition vector_search_tables (cache : option CachedVectorContext) (docdata path_prefix_sidecar : bytes) (query_vector_json : str) (top_k ef_search : nat) :=
  vector_search cache (Tables docdata path_prefix_sidecar) query_vector_json top_k ef_search.
End vector.
End searches.

(** * The cache does not change the answers *)

Section cache.
Context `{JsonText, JsonVector} {C R : Type} `{NodeHeap C, NodeHeap R}.

Record Call := { call_buffers : Buffers; call_vector : str; call_top_k : nat; call_ef : nat }.

Definition answer (cache : option CachedVectorContext) (c : Call) : option (option CachedVectorContext * str) :=
  match call_buffers c with
  | Whole data => vector_search_index (C := C) (R := R) cache data (call_vector c) (call_top_k c) (call_ef c)
  | Tables docdata sidecar => vector_search_tables (C := C) (R := R) cache docdata sidecar (call_vector c) (call_top_k c) (call_ef c)
  end.

Lemma answer_eq cache c : answer cache c = vector_search (C := C) (R := R) cache (call_buffers c) (call_vector c) (call_top_k c) (call_ef c).
Proof. unfold answer. by destruct (call_buffers c). Qed.

(** The answers of a page's calls in order, until one panics. *)
Fixpoint run (cache : option CachedVectorContext) (calls : list Call) : option (list str) :=
  match calls with
  | [] => Some []
  | c :: calls' =>
      opt r := answer cache c in
      opt rest := run r.1 calls' in
      Some (r.2 :: rest)
  end.

(** The same calls, each on a context of its own. *)
Definition run_fresh (calls : list Call) : option (list str) := map_option (fun c => option_map snd (answer None c)) calls.

Context (calls : list Call).
(** No two of the buffers have one key. *)
Hypothesis keys_differ : forall c1 c2 k, c1 ∈ calls -> c2 ∈ calls ->
  buffers_key (call_buffers c1) = Some (inr k) -> buffers_key (call_buffers c2) = Some (inr k) -> call_buffers c1 = call_buffers c2.

Definition built_context (ctx : IndexContext) : IndexContext :=
  with_loaded ctx (m_Store ctx) (m_Index ctx) true (m_Built ctx) (m_LoadedFromDisk ctx).

(** What is kept is the loaded context of a call's buffers with its vector index built. *)
Definition cache_ok (cache : option CachedVectorContext) : Prop :=
  match cache with
  | None => True
  | Some cached => exists c ctx, c ∈ calls /\ buffers_key (call_buffers c) = Some (inr (key cached)) /\ load_buffers (call_buffers c) = (ctx, Ok tt) /\
      context cached = built_context ctx /\
      BuildVectorRuntime (C := C) (R := R) false (vector_new 32 200) (m_DocData (m_Index ctx)) (m_IndexFileHeader (m_Index ctx)) = Some (vectors cached)
  end.

Lemma load_not_built buffers ctx : load_buffers buffers = (ctx, Ok tt) -> m_VectorBuilt ctx = false.
Proof.
  destruct buffers as [data|docdata sidecar]; cbn [load_buffers].
  - unfold LoadVectorFromBytes. by destruct (read_vector_tables data) as [ix|e]; intros [= <-].
  - unfold LoadVectorTables. destruct (_ || _); [by intros [= <-]|]. by destruct (DecodePathPrefixSidecar sidecar) as [ps|e]; intros [= <-].
Qed.

Lemma built_path ctx id : ctx_GetDocPath (built_context ctx) id = ctx_GetDocPath ctx id.
Proof. by destruct ctx. Qed.

Lemma cached_search_fresh cache c k query top_k ef : cache_ok cache -> c ∈ calls -> buffers_key (call_buffers c) = Some (inr k) ->
  match cached_search (C := C) (R := R) cache k (call_buffers c) query top_k ef with
  | Some (cache', result) => cache_ok cache' /\ option_map snd (cached_search (C := C) (R := R) None k (call_buffers c) query top_k ef) = Some result
  | None => cached_search (C := C) (R := R) None k (call_buffers c) query top_k ef = None
  end.
Proof.
  intros Hok Hc Hk. unfold cached_search. set (reload := match cache with Some cached => _ | None => true end).
  destruct reload eqn:Hreload.
  - destruct (load_buffers (call_buffers c)) as [ctx [[]|e]] eqn:Hload; [|by split]. cbn [context vectors key]. rewrite (load_not_built _ _ Hload).
    unfold ctx_VectorSearch. destruct (BuildVectorRuntime false _ _ _) as [v|] eqn:Hv; [|done].
    destruct (vector_Search v _ _ _ _) as [results|]; [|done]. split; [|done]. by exists c, ctx.
  - destruct cache as [cached|]; [|done]. subst reload. apply negb_false_iff, bool_decide_eq_true in Hreload.
    destruct Hok as (c0 & ctx & Hc0 & Hk0 & Hload & Hctx & Hv). rewrite Hreload in Hk0.
    rewrite <- (keys_differ c0 c k Hc0 Hc Hk0 Hk), Hload. rewrite Hctx. cbn [context vectors key]. rewrite (load_not_built _ _ Hload).
    change (m_VectorBuilt (built_context ctx)) with true. change (m_Index (built_context ctx)) with (m_Index ctx).
    unfold ctx_VectorSearch. rewrite Hv. cbn [BuildVectorRuntime].
    destruct (vector_Search (vectors cached) _ _ _ _) as [results|]; [|done]. cbn [option_map snd]. split.
    + exists c0, ctx. cbn [key context vectors]. rewrite Hreload. split; [done|]. split; [done|]. split; [done|]. split; [by destruct ctx|done].
    + do 2 f_equal. apply map_ext. intros r. by rewrite built_path.
Qed.

Lemma answer_fresh cache c : cache_ok cache -> c ∈ calls ->
  match answer cache c with
  | Some (cache', text) => cache_ok cache' /\ option_map snd (answer None c) = Some text
  | None => answer None c = None
  end.
Proof.
  intros Hok Hc. rewrite !answer_eq. unfold vector_search. destruct (read_query_vector (call_vector c)) as [text|query]; [by split|].
  destruct (buffers_key (call_buffers c)) as [[error|k]|] eqn:Hk; [by split| |done].
  pose proof (cached_search_fresh cache c k query (call_top_k c) (call_ef c) Hok Hc Hk) as Hs.
  destruct (cached_search cache k _ _ _ _) as [[cache' result]|]; [|by rewrite Hs]. destruct Hs as [Hok' Hr]. split; [done|].
  destruct (cached_search None k _ _ _ _) as [[cache0 result0]|]; [|done]. cbn in Hr. by simplify_eq/=.
Qed.

Lemma run_cached cs : forall cache, cache_ok cache -> (forall c, c ∈ cs -> c ∈ calls) -> run cache cs = run_fresh cs.
Proof.
  induction cs as [|c cs IH]; intros cache Hok Hin; [done|]. cbn [run]. unfold run_fresh. cbn [map_option].
  pose proof (answer_fresh cache c Hok (Hin c ltac:(left))) as Ha. destruct (answer cache c) as [[cache' text]|]; [|by rewrite Ha].
  destruct Ha as [Hok' ->]. cbn [fst snd]. rewrite (IH cache' Hok') by (intros c' Hc'; apply Hin; by right). done.
Qed.

(** C36: When no two buffers of the calls of a page have the same key, the vector
    searches with the kept context answer every call as searches that load their buffers anew,
    and panic when those do. *)
Theorem cache_keeps_answers : run None calls = run_fresh calls.
Proof. by apply run_cached. Qed.
End cache.

(** * Witness *)

Definition sample_json_text : JsonText := {| json_string s := [34%Z] ++ json_escape s ++ [34%Z]; fixed4 x := if f_is_nan x then of_string "NaN" else of_string "1.0000" |}.
Definition sample_json_vector : JsonVector :=
  {| json_vector s := match s with [] => inl (of_string "EOF") | _ => inr (replicate DOC_VECTOR_DIM (f_of_Z F32 1)) end |}.

(** One record without a vector, twice, and bytes that are no index. *)
Definition sample_tables : Buffers := Tables (zeros DOC_REC_SIZE) (default [] (EncodePathPrefixSidecar [])).
Definition sample_calls : list Call :=
  [{| call_buffers := sample_tables; call_vector := of_string "[1]"; call_top_k := 0; call_ef := 10 |};
   {| call_buffers := Whole []; call_vector := of_string "[1]"; call_top_k := 0; call_ef := 10 |};
   {| call_buffers := sample_tables; call_vector := of_string "[1]"; call_top_k := 5; call_ef := 0 |}].

Lemma cache_keeps_answers_witness :
  @run sample_json_text sample_json_vector (node_list f_gt) (node_list f_lt) _ _ None sample_calls =
  @run_fresh sample_json_text sample_json_vector (node_list f_gt) (node_list f_lt) _ _ sample_calls.
Proof.
  apply (@cache_keeps_answers sample_json_text sample_json_vector (node_list f_gt) (node_list f_lt) _ _ sample_calls).
  intros c1 c2 k Hc1 Hc2 Hk1 Hk2.
  assert (Hwhole : forall k, buffers_key (Whole []) <> Some (inr k)) by (intros k'; discriminate).
  assert (Hb : forall c, c ∈ sample_calls -> call_buffers c = sample_tables \/ call_buffers c = Whole []).
  { intros c. unfold sample_calls. rewrite !elem_of_cons, elem_of_nil. intros [-> | [-> | [-> | []]]]; [by left|by right|by left]. }
  destruct (Hb c1 Hc1) as [E1|E1], (Hb c2 Hc2) as [E2|E2]; rewrite E1, E2 in *; [reflexivity| | |reflexivity].
  - destruct (Hwhole k Hk2).
  - destruct (Hwhole k Hk1).
Defined.
