(* ===== verification/BatchIndex.v ===== *)
(** Indexing files from the command line (bin/moon.rs): the files of a run get the
    ids that follow the index, are indexed in batches, and each batch is published
    as the index or as a delta that is merged at once.

    The files to index are given with what reading them gives; the embedding
    service of the option -bge is a parameter. *)

From Stdlib Require Import Ascii String.
From Stdlib Require Import ZArith Lia ZifyBool Bool List.
From stdpp Require Import base gmap list list_numbers.
From S2P Require Import Prelude Floats PostingStore IndexWriter PathSidecar FileFormat DocData EvalExpression IndexFile MergeView Merge MergeStore Documents Runtime Context HttpText.

Local Open Scope moon_scope.

(** ** Paths *)

(** [PathBuf]'s order: component by component. *)
Fixpoint components_leb (a b : list str) : bool :=
  match a, b with
  | [], _ => true
  | _ :: _, [] => false
  | x :: a', y :: b' => match str_compare x y with Lt => true | Gt => false | Eq => components_leb a' b' end
  end.
Definition path_leb (a b : str) : bool := components_leb (split (chr "/") a) (split (chr "/") b).

(** parse_extensions; [str::trim] of an ASCII text. *)
Definition trim_start (s : str) : str := (fix go l := match l with b :: l' => if is_ascii_whitespace b then go l' else l | [] => [] end) s.
Definition trim (s : str) : str := rev (trim_start (rev (trim_start s))).
Definition trim_dots (s : str) : str := (fix go l := match l with b :: l' => if (b =? chr ".")%Z then go l' else l | [] => [] end) s.
Definition parse_extensions (value : str) : list str :=
  List.filter (fun item => negb (bool_decide (item = []))) (map (fun item => map ascii_lower (trim_dots (trim item))) (split (chr ",") value)).

(** truncate_utf8: the loop ends at a boundary, at the latest at the start. *)
Fixpoint floor_boundary (text : str) (end_ : nat) : nat :=
  if is_char_boundary (drop end_ text) then end_ else match end_ with O => O | S end_' => floor_boundary text end_' end.
Definition truncate_utf8 (text : str) (max_bytes : nat) : str :=
  if length text <=? max_bytes then text else take (floor_boundary text max_bytes) text.

(** ** Adding files *)

Definition BGE_MAX_TEXT_BYTES : Z := 65536.
Definition BGE_DOCUMENT_MARKER : str := of_string "__MOONSHOT_BGE_DOCUMENT__" ++ [10%Z].

(** A file and what [read_to_string] gives. *)
Record SourceFile := { sf_path : str; sf_text : option str }.

Definition file_title (path : str) : str :=
  map (fun b => if (b =? chr "_")%Z || (b =? chr "-")%Z then 32%Z else b) (stem_and_extension (split_file_name path).2).1.

Definition file_document (file : SourceFile) (doc_id : Z) (body : str) : Doc.Document :=
  {| Doc.doc_id := doc_id; Doc.path := sf_path file; Doc.url := Doc.url Doc.default; Doc.title := file_title (sf_path file); Doc.body := body;
     Doc.anchor := Doc.anchor Doc.default; Doc.meta := Doc.meta Doc.default; Doc.importance := Doc.importance Doc.default |}.

Definition embedding_text (title body : str) : str :=
  truncate_utf8 (if bool_decide (title = []) then body else title ++ [10%Z] ++ body)
    (Z.to_nat (BGE_MAX_TEXT_BYTES - Z.of_nat (length BGE_DOCUMENT_MARKER))).

(** The files that are not skipped. *)
Definition readable (file : SourceFile) : option str := match sf_text file with Some [] | None => None | Some body => Some body end.

Section indexing.
Context `{Libm, DocOrder, HashOrder, Tokenizer, OsFiles}.
(** The embedding model of the vector index; [bge]: with -bge, the vector of a text or an error. *)
Context (model : EmbeddingModel) (bge : option (str -> option (list f32))).

(** A turn of the loop of add_assigned_files: the context, the files kept and skipped. *)
Definition add_assigned_file (build_vector : bool) (st : IndexContext * Z * Z) (assigned : SourceFile * Z) : IndexContext * Z * Z :=
  let '(ctx, kept, skipped) := st in
  let '(file, doc_id) := assigned in
  match readable file with
  | None => (ctx, kept, (skipped + 1)%Z)
  | Some body =>
      let doc := file_document file doc_id body in
      let with_model := build_vector && bool_decide (bge = None) in
      let ctx := (AddDocument ctx doc (if with_model then Some model else None)).1 in
      let ctx := match bge with
                 | None => ctx
                 | Some embed =>
                     match embed (embedding_text (Doc.title doc) body) with
                     | Some vector => with_loaded ctx (writer_SetDocVector (m_Store ctx) doc_id vector) (m_Index ctx) (m_VectorBuilt ctx) (m_Built ctx) (m_LoadedFromDisk ctx)
                     | None => ctx
                     end
                 end in
      (ctx, (kept + 1)%Z, skipped)
  end.

Definition add_assigned_files (ctx : IndexContext) (files : list (SourceFile * Z)) (build_vector : bool) : IndexContext * Z * Z :=
  fold_left (add_assigned_file build_vector) files (ctx, 0%Z, 0%Z).

(** ** index_path *)

(** The errors of index_path: no files, a batch without a document, or one of the library. *)
Inductive IndexError := NoFiles | EmptyBatch | Failed (e : RustBladeError).

(** [slice::chunks]. *)
Fixpoint chunks {A} (fuel size : nat) (l : list A) : list (list A) :=
  match fuel, l with
  | S fuel', _ :: _ => take size l :: chunks fuel' size (drop size l)
  | _, _ => []
  end.

Definition rename (fs : Files) (from to : str) : Files :=
  match fs !! from with Some content => <[to := content]> (delete from fs) | None => fs end.

Definition batch_path (index : str) : str := index ++ of_string ".batch.tmp".

(** A turn of the loop over the batches; [None]: a panic. *)
Definition index_batch (index : str) (fs : Files) (chunk : list (SourceFile * Z)) : option (Files * option IndexError) :=
  let delta := delta_index_path index in
  let batch := batch_path index in
  let batch_files := stable_sort (fun a b => path_leb (sf_path a.1) (sf_path b.1)) chunk in
  let '(ctx, batch_kept, _) := add_assigned_files (context_new None true) batch_files true in
  if (batch_kept =? 0)%Z then Some (fs, Some EmptyBatch)
  else
    opt saved := SaveIndex fs ctx batch in
    let '(fs, _, saved) := saved in
    match saved with
    | Err e => Some (fs, Some (Failed e))
    | Ok _ =>
        if negb (IsValidIndex fs index) then Some (rename fs batch index, None)
        else
          let fs := rename (delete delta fs) batch delta in
          let merge := with_path fs (Some index) in
          opt merged := ctx_Merge fs merge index in
          let '(fs, _, merged) := merged in
          match merged with
          | Err e => Some (fs, Some (Failed e))
          | Ok _ => Some (delete delta fs, None)
          end
    end.

Fixpoint index_batches (index : str) (fs : Files) (batches : list (list (SourceFile * Z))) : option (Files * option IndexError) :=
  match batches with
  | [] => Some (fs, None)
  | chunk :: batches' =>
      opt r := index_batch index fs chunk in
      match r.2 with Some e => Some r | None => index_batches index r.1 batches' end
  end.

(** [with_index n files]: the ids from [n] on, by position. *)
Definition assign_ids (next_id : Z) (files : list SourceFile) : list (SourceFile * Z) :=
  imap (fun offset file => (file, next_id + Z.of_nat offset))%Z files.

(** index_path after collect_files; the files and the error it leaves. *)
Definition index_path (index : str) (fs : Files) (files : list SourceFile) (batch_size : nat) : option (Files * option IndexError) :=
  match files with
  | [] => Some (fs, Some NoFiles)
  | _ =>
      let delta := delta_index_path index in
      let pending := if IsValidIndex fs index && IsValidIndex fs delta then ctx_Merge fs (with_path fs (Some index)) index else Some (fs, context_new None true, Ok tt) in
      opt merged := pending in
      let '(fs', _, merged) := merged in
      match merged with
      | Err e => Some (fs', Some (Failed e))
      | Ok _ =>
          let fs := if IsValidIndex fs index && IsValidIndex fs delta then delete delta fs' else fs' in
          let next_id := if IsValidIndex fs index then AllocateDocumentID (with_path_and_load_delta fs (Some index) false) else 0%Z in
          if batch_size =? 0 then None
          else index_batches index fs (chunks (length files) batch_size (assign_ids next_id files))
      end
  end.
End indexing.

(** * What a run does to the stores *)

Section runs.
Context `{Libm, DocOrder, HashOrder, Tokenizer, OsFiles}.
Context (model : EmbeddingModel).
Implicit Types (fs : Files) (ctx : IndexContext) (s : PostingStore).

(** The store of a batch. *)
Definition write_assigned s (assigned : SourceFile * Z) : PostingStore :=
  match readable assigned.1 with
  | Some body => write_document (Some model) s assigned.2 (file_document assigned.1 assigned.2 body)
  | None => s
  end.
Definition sort_batch (chunk : list (SourceFile * Z)) : list (SourceFile * Z) := stable_sort (fun a b => path_leb (sf_path a.1) (sf_path b.1)) chunk.
Definition batch_store (chunk : list (SourceFile * Z)) : PostingStore := fold_left write_assigned (sort_batch chunk) store_new.

(** What a file needs: a document within the format. *)
Definition assigned_ok (assigned : SourceFile * Z) : Prop :=
  (0 <= assigned.2 < u32_max)%Z /\ forall body, readable assigned.1 = Some body -> document_wf (file_document assigned.1 assigned.2 body).

(** What a batch needs to be saved, and to be merged into [b]. *)
Definition batch_fits s : Prop :=
  m_DocStats s <> ∅ /\ (Z.of_nat (size (m_DocStats s)) <= 2 ^ 24)%Z /\
  forall ix, BuildIndexData s = Some ix -> index_fits ix /\ forall file,
    Save (m_IndexFileHeader ix) (m_BlockTable ix) (m_DocData ix) (m_PathPrefixSidecar ix) = Ok file -> (Z.of_nat (length file) < 2 ^ 63)%Z.

Definition merge_fits (b : PostingStore) s : Prop :=
  StoreFirstDocId b = 0%Z /\ mergeable_store (merged_store b s) /\
  (forall ix, is_index b ix -> directories_known b (m_PathPrefixes ix)) /\ (forall ix, is_index s ix -> directories_known s (m_PathPrefixes ix)) /\
  (forall ixb ixd file, is_index b ixb -> is_index s ixd -> Merge true ixb (Some (true, ixd)) = Some (Ok file) -> (Z.of_nat (length file) < 2 ^ 44)%Z).

(** From a base, batches that follow it without a gap. *)
Inductive indexed : option PostingStore -> list (list (SourceFile * Z)) -> option PostingStore -> Prop :=
  | indexed_nil base : indexed base [] base
  | indexed_first chunk batches final : batch_fits (batch_store chunk) -> indexed (Some (batch_store chunk)) batches final ->
      indexed None (chunk :: batches) final
  | indexed_next b chunk batches final : batch_fits (batch_store chunk) -> merge_fits b (batch_store chunk) ->
      StoreFirstDocId (batch_store chunk) = StoreDocDataRecordCount b ->
      indexed (Some (merged_store b (batch_store chunk))) batches final -> indexed (Some b) (chunk :: batches) final.

(** ** A batch in memory *)

Definition plain ctx s : Prop := m_Store ctx = s /\ m_IndexPath ctx = None /\ m_LoadedFromDisk ctx = false /\ m_WriteBuilt ctx = false.

Definition kept (files : list (SourceFile * Z)) : Z := Z.of_nat (length (omap (fun a => readable a.1) files)).

Lemma add_assigned_plain files : Forall assigned_ok files -> forall ctx s n m, plain ctx s ->
  exists ctx' m', fold_left (add_assigned_file model None true) files (ctx, n, m) = (ctx', n + kept files, m')%Z /\ plain ctx' (fold_left write_assigned files s).
Proof.
  induction 1 as [|[file id] files [Hid Hdoc] Hf IH]; intros ctx s n m (Hs & Hp & Hl & Hw); [exists ctx, m; by rewrite Z.add_0_r|].
  cbn [fold_left add_assigned_file]. unfold write_assigned at 2. unfold kept. cbn [fst snd omap list_omap]. cbn [fst snd] in Hid, Hdoc.
  destruct (readable file) as [body|] eqn:Er; [|by apply IH].
  change (bool_decide (@None (str -> option (list f32)) = None)) with true. cbn [andb].
  destruct (IH (AddDocument ctx (file_document file id body) (Some model)).1 (write_document (Some model) s id (file_document file id body)) (n + 1)%Z m)
    as (ctx' & m' & Hrun & Hpl).
  { unfold AddDocument. cbn [Doc.doc_id file_document]. replace (id =? u64_max)%Z with false by (unfold u32_max, u64_max in *; lia).
    change (m_LoadedFromDisk (with_write ctx (m_Write ctx) false)) with (m_LoadedFromDisk ctx). rewrite Hl, Hs. done. }
  exists ctx', m'. rewrite Hrun. split; [|done]. f_equal. f_equal. unfold kept. cbn [length]. lia.
Qed.

Lemma write_assigned_corpus `{!TokenizerSpec} files : Forall assigned_ok files -> forall s, corpus_ok s -> corpus_ok (fold_left write_assigned files s).
Proof.
  induction 1 as [|[file id] files [Hid Hdoc] Hf IH]; intros s Hs; [done|]. cbn [fold_left]. apply IH. unfold write_assigned. cbn [fst snd] in *.
  destruct (readable file) as [body|]; [|done]. by apply write_document_ok; [|done|apply Hdoc].
Qed.

(** The documents of a batch. *)
Lemma write_assigned_docs `{!TokenizerSpec} files d : Forall assigned_ok files -> forall s, corpus_ok s ->
  is_Some (m_DocStats (fold_left write_assigned files s) !! d) <->
  is_Some (m_DocStats s !! d) \/ exists file, (file, d) ∈ files /\ readable file <> None.
Proof.
  induction 1 as [|[file id] files [Hid Hdoc] Hf IH]; intros s Hs; cbn [fold_left].
  { split; [by left|]. intros [Hd|(file & Hin & _)]; [done|by apply not_elem_of_nil in Hin]. }
  unfold write_assigned at 2. cbn [fst snd] in *. destruct (readable file) as [body|] eqn:Er.
  - destruct (write_document_ok (Some model) s id (file_document file id body) Hs Hid (Hdoc _ eq_refl)) as [Hs' Hid'].
    rewrite (IH _ Hs'). destruct (decide (d = id)) as [->|Hne].
    + split; intros _; [|by left]. right. exists file. split; [by left|by rewrite Er].
    + rewrite write_document_others by done. split.
      * intros [Hd|(f & Hin & Hr)]; [by left|]. right. exists f. split; [by right|done].
      * intros [Hd|(f & Hin & Hr)]; [by left|]. right. exists f. split; [|done]. apply elem_of_cons in Hin as [[=]|Hin]; done.
  - rewrite (IH _ Hs). split; (intros [Hd|(f & Hin & Hr)]; [by left|right; exists f; split; [|done]]).
    + by right.
    + apply elem_of_cons in Hin as [[= -> ->]|Hin]; [by rewrite Er in Hr|done].
Qed.

Lemma sort_batch_perm chunk : sort_batch chunk ≡ₚ chunk.
Proof. apply stable_sort_perm. Qed.

Lemma sort_batch_ok chunk : Forall assigned_ok chunk -> Forall assigned_ok (sort_batch chunk).
Proof. by rewrite sort_batch_perm. Qed.

Lemma batch_corpus `{!TokenizerSpec} chunk : Forall assigned_ok chunk -> corpus_ok (batch_store chunk).
Proof. intros Hc. apply write_assigned_corpus; [by apply sort_batch_ok|apply corpus_new]. Qed.

Lemma batch_docs `{!TokenizerSpec} chunk d : Forall assigned_ok chunk ->
  is_Some (m_DocStats (batch_store chunk) !! d) <-> exists file, (file, d) ∈ chunk /\ readable file <> None.
Proof.
  intros Hc. unfold batch_store. rewrite (write_assigned_docs _ d (sort_batch_ok _ Hc) _ corpus_new). split.
  - intros [[st Hst]|(file & Hin & Hr)]; [done|]. exists file. by rewrite sort_batch_perm in Hin.
  - intros (file & Hin & Hr). right. exists file. by rewrite sort_batch_perm.
Qed.

Lemma batch_kept `{!TokenizerSpec} chunk : Forall assigned_ok chunk -> m_DocStats (batch_store chunk) <> ∅ -> kept (sort_batch chunk) <> 0%Z.
Proof.
  intros Hc Hne Hk. apply Hne, map_empty. intros d. apply eq_None_not_Some. rewrite (batch_docs _ _ Hc). intros (file & Hin & Hr).
  unfold kept in Hk. rewrite <- sort_batch_perm in Hin. assert (Hnil : omap (fun a => readable a.1) (sort_batch chunk) = []) by (by apply length_zero_iff_nil; lia).
  destruct (readable file) as [body|] eqn:Er; [|done].
  assert (Hb : body ∈ omap (fun a => readable a.1) (sort_batch chunk)) by (apply list_elem_of_omap; by exists (file, d)).
  rewrite Hnil in Hb. by apply not_elem_of_nil in Hb.
Qed.

(** ** A batch on disk *)

Context (index : str).

Lemma batch_path_ne : batch_path index <> index.
Proof. intros E. apply (f_equal length) in E. unfold batch_path in E. rewrite length_app in E. cbn in E. lia. Qed.

Lemma batch_path_delta : batch_path index <> DeltaIndexPath index.
Proof.
  unfold batch_path, DeltaIndexPath. set (delta := index ++ of_string ".delta.idx").
  assert (Hd : index ++ of_string ".batch.tmp" <> delta) by (intros E; by apply app_inv_head in E).
  destruct (rfind_dot index) as [i|] eqn:E; [|done]. apply rfind_dot_lt in E.
  destruct (match rfind_separator index with Some _ => _ | None => _ end); [|done].
  intros Heq. apply (f_equal length) in Heq. rewrite !length_app, length_take, length_drop in Heq.
  change (length (of_string ".batch.tmp")) with 10 in Heq. change (length (of_string ".delta")) with 6 in Heq. change (length (of_string ".")) with 1 in Heq. lia.
Qed.

Lemma batch_saved `{!TokenizerSpec} fs ctx chunk : Forall assigned_ok chunk -> plain ctx (batch_store chunk) -> batch_fits (batch_store chunk) ->
  indexable (batch_store chunk) /\ exists file ctx', file_of (batch_store chunk) file /\
    SaveIndex fs ctx (batch_path index) = Some (<[batch_path index := file]> fs, ctx', Ok tt).
Proof.
  intros Hc (Hs & Hp & Hl & Hw) (Hne & Hsize & Hfits). destruct (corpus_storable _ (batch_corpus chunk Hc) Hsize) as (Hst & Hd & Hdoc).
  split; [done|]. destruct (BuildIndexData_index _ Hst Hd) as (ix & r & g & t & Hix & Hmem). destruct (Hfits ix Hix) as [Hif Hlen].
  destruct (written_file (batch_store chunk) ix Hd) as (file & Hsave & Hfile); [by exists r, g, t; split; [apply Hmem|]|].
  exists file. unfold SaveIndex. rewrite Hp, Hl. cbn [negb andb]. unfold build_write.
  change (m_WriteBuilt (with_index_path ctx (Some (batch_path index)))) with (m_WriteBuilt ctx).
  change (m_Store (with_index_path ctx (Some (batch_path index)))) with (m_Store ctx).
  rewrite Hw, Hs, bool_decide_eq_false_2, Hix by done. cbn [m_Write with_write]. rewrite Hsave. by eexists.
Qed.

Lemma rename_from fs to file : rename (<[batch_path index := file]> fs) (batch_path index) to = <[to := file]> (delete (batch_path index) fs).
Proof. unfold rename. by rewrite lookup_insert_eq, delete_insert_eq. Qed.

Lemma files_hold_frame fs fs' base delta : files_hold index fs base delta ->
  fs' !! index = fs !! index -> fs' !! DeltaIndexPath index = fs !! DeltaIndexPath index -> files_hold index fs' base delta.
Proof. intros [Hn Hb Hd Ha] Eb Ed. split; [done| | |done]; unfold IsValidIndex in *; [by rewrite Eb|by rewrite Ed]. Qed.

Lemma base_valid fs b delta : files_hold index fs (Some b) delta -> IsValidIndex fs index = true.
Proof. intros [_ (content & Hf & Ho) _ _]. by eapply file_of_valid. Qed.

Lemma delta_valid fs base s : files_hold index fs base (Some s) -> IsValidIndex fs (DeltaIndexPath index) = true.
Proof. intros [_ _ (content & Hf & Ho) _]. by eapply file_of_valid. Qed.

(** ** Merging what the files hold *)

(** The context merges, or refuses because of a gap. *)
Lemma merge_files fs (b s : PostingStore) : files_hold index fs (Some b) (Some s) -> indexable b -> indexable s -> merge_fits b s ->
  StoreFirstDocId s = StoreDocDataRecordCount b ->
  exists fs' ctx', ctx_Merge fs (with_path fs (Some index)) index = Some (fs', ctx', Ok tt) /\
    files_hold index (delete (DeltaIndexPath index) fs') (Some (merged_store b s)) None /\ indexable (merged_store b s).
Proof.
  intros Hf Hb Hs (Hfirst & Hm & Kb & Ks & Hsmall) Hgap.
  pose proof (start_session index fs (Some b) (Some s) Hf Hb Hs) as Hh. set (ctx := with_path fs (Some index)) in *.
  pose proof (sh_context _ _ _ _ Hh) as [_ _ _ (Hib & Hbb & _) Hcd]. cbn [cp_base cp_delta] in *.
  destruct (m_DeltaContext ctx) as [dctx|] eqn:Edc; [|done]. destruct Hcd as (Hid & Hdb & _).
  assert (Hadm : admissible index fs ctx {| cp_base := Some b; cp_delta := Some s; cp_pending := store_new; cp_written := None |} MergeCommand).
  { cbn [admissible cp_base cp_delta]. rewrite Edc. intros _. split; [done|]. split; [done|]. split; [by apply Kb|]. split; [by apply Ks|].
    intros fs' ctx' file Hmerge Hfile. unfold ctx_Merge in Hmerge. rewrite Edc in Hmerge. cbn [option_map] in Hmerge. rewrite Hbb, Hdb in Hmerge.
    destruct (Merge true (m_Index ctx) (Some (true, m_Index dctx))) as [[out|e]|] eqn:Em; [|done|done]. injection Hmerge as <- _.
    rewrite lookup_insert_eq in Hfile. injection Hfile as <-. by eapply Hsmall. }
  destruct (merge_holds _ _ _ _ Hh Hadm) as (fs' & ctx' & r & Hrun & Hspec & Hh'). cbn [spec_command cp_base cp_delta fst snd] in Hspec, Hh'.
  rewrite (proj2 (Z.eqb_eq _ _) Hgap) in Hspec, Hh'. cbn [fst snd] in Hspec, Hh'. subst r.
  assert (Hhd : HasDelta ctx = true) by (unfold HasDelta, DocumentCount; rewrite Edc; apply (is_index_documents _ _ Hid), Hs).
  cbn [run_command] in Hrun. rewrite Hhd in Hrun. destruct (ctx_Merge fs ctx index) as [[[fsm ctxm] [[]|e]]|]; [|done|done].
  destruct (ctx_LoadIndex _ ctxm index) as [ctx2 loaded]. injection Hrun as <- _ _. exists fsm, ctxm. split; [done|].
  rewrite (fh_named _ _ _ _ Hf) in Hh'.
  split; [apply Hh'|apply (sh_base _ _ _ _ Hh')].
Qed.

Lemma refuse_files fs (b s : PostingStore) : files_hold index fs (Some b) (Some s) -> indexable b -> indexable s ->
  StoreFirstDocId s <> StoreDocDataRecordCount b ->
  exists ctx', ctx_Merge fs (with_path fs (Some index)) index = Some (fs, ctx', Err InvalidFormat).
Proof.
  intros Hf Hb Hs Hgap. pose proof (start_session index fs (Some b) (Some s) Hf Hb Hs) as Hh. set (ctx := with_path fs (Some index)) in *.
  pose proof (sh_context _ _ _ _ Hh) as [_ _ _ (Hib & Hbb & _) Hcd]. cbn [cp_base cp_delta] in *.
  unfold ctx_Merge. destruct (m_DeltaContext ctx) as [dctx|]; [|done]. destruct Hcd as (Hid & Hdb & _). cbn [option_map].
  rewrite Hbb, Hdb, (merge_gap _ _ _ _ Hib Hid Hb Hs Hgap). by eexists.
Qed.

(** ** A turn of the loop *)

Lemma batch_added `{!TokenizerSpec} fs chunk : delta_index_path index = DeltaIndexPath index -> Forall assigned_ok chunk -> batch_fits (batch_store chunk) ->
  indexable (batch_store chunk) /\ exists file, file_of (batch_store chunk) file /\
    index_batch model None index fs chunk =
      if negb (IsValidIndex (<[batch_path index := file]> fs) index) then Some (<[index := file]> (delete (batch_path index) fs), None)
      else
        let fs := <[DeltaIndexPath index := file]> (delete (batch_path index) (delete (DeltaIndexPath index) fs)) in
        opt merged := ctx_Merge fs (with_path fs (Some index)) index in
        let '(fs, _, merged) := merged in
        match merged with
        | Err e => Some (fs, Some (Failed e))
        | Ok _ => Some (delete (DeltaIndexPath index) fs, None)
        end.
Proof.
  intros delta_named Hc Hfits. destruct (add_assigned_plain (sort_batch chunk) (sort_batch_ok _ Hc) (context_new None true) store_new 0%Z 0%Z) as (ctx & m & Hadd & Hpl); [done|].
  fold (batch_store chunk) in Hpl. destruct (batch_saved fs ctx chunk Hc Hpl Hfits) as (Hi & file & ctx' & Hfile & Hsave).
  split; [done|]. exists file. split; [done|]. unfold index_batch. fold (sort_batch chunk). unfold add_assigned_files. rewrite Hadd.
  replace (0 + kept (sort_batch chunk) =? 0)%Z with false by (pose proof (batch_kept chunk Hc (proj1 Hfits)); lia).
  rewrite Hsave. rewrite rename_from, delta_named. rewrite delete_insert_ne by (intros E; by apply batch_path_delta). by rewrite rename_from.
Qed.

Lemma valid_batch fs file : IsValidIndex (<[batch_path index := file]> fs) index = IsValidIndex fs index.
Proof. unfold IsValidIndex. by rewrite lookup_insert_ne by apply batch_path_ne. Qed.

Lemma publish_delta fs (b s : PostingStore) file : files_hold index fs (Some b) None -> file_of s file ->
  files_hold index (<[DeltaIndexPath index := file]> (delete (batch_path index) (delete (DeltaIndexPath index) fs))) (Some b) (Some s).
Proof.
  intros Hf Ho. apply files_hold_delta with (delta := None); [|done]. destruct Hf as [Hn (content & Hb & Hbo) Hd Ha]. split; [done| | |done].
  - exists content. rewrite !lookup_delete_ne; [done|apply DeltaIndexPath_ne|apply batch_path_ne].
  - unfold IsValidIndex. rewrite lookup_delete_ne, lookup_delete_eq; [done|]. apply batch_path_delta.
Qed.

(** ** The loop *)

Definition has_document (base : option PostingStore) (d : Z) : Prop :=
  match base with Some b => is_Some (m_DocStats b !! d) | None => False end.

Lemma merged_documents (b s : PostingStore) d : is_Some (m_DocStats (merged_store b s) !! d) <-> is_Some (m_DocStats b !! d) \/ is_Some (m_DocStats s !! d).
Proof. cbn. rewrite <- !elem_of_dom, dom_union. apply elem_of_union. Qed.

Lemma first_published `{!TokenizerSpec} fs chunk : Forall assigned_ok chunk -> batch_fits (batch_store chunk) -> files_hold index fs None None ->
  exists fs', index_batch model None index fs chunk = Some (fs', None) /\ files_hold index fs' (Some (batch_store chunk)) None /\ indexable (batch_store chunk).
Proof.
  intros Hc Hfits Hf. destruct (batch_added fs chunk (fh_named _ _ _ _ Hf) Hc Hfits) as (Hi & file & Hfile & Hrun). rewrite valid_batch in Hrun.
  rewrite (fh_base _ _ _ _ Hf) in Hrun. cbn [negb] in Hrun.
  eexists. split; [exact Hrun|]. split; [|done]. apply files_hold_base with (base := None); [|done].
  eapply files_hold_frame; [exact Hf| |]; rewrite lookup_delete_ne; try done; [apply batch_path_ne|apply batch_path_delta].
Qed.

Lemma next_published `{!TokenizerSpec} fs chunk (b : PostingStore) : Forall assigned_ok chunk -> batch_fits (batch_store chunk) -> files_hold index fs (Some b) None ->
  indexable b -> merge_fits b (batch_store chunk) -> StoreFirstDocId (batch_store chunk) = StoreDocDataRecordCount b ->
  exists fs', index_batch model None index fs chunk = Some (fs', None) /\ files_hold index fs' (Some (merged_store b (batch_store chunk))) None /\
    indexable (merged_store b (batch_store chunk)).
Proof.
  intros Hc Hfits Hf Hb Hm Hgap. destruct (batch_added fs chunk (fh_named _ _ _ _ Hf) Hc Hfits) as (Hi & file & Hfile & Hrun). rewrite valid_batch, (base_valid _ _ _ Hf) in Hrun.
  cbn [negb] in Hrun. cbv zeta in Hrun.
  destruct (merge_files _ b _ (publish_delta fs b _ file Hf Hfile) Hb Hi Hm Hgap) as (fs' & ctx' & Hmerge & Hf' & Hi').
  rewrite Hmerge in Hrun. cbn [fst snd] in Hrun. eexists. split; [exact Hrun|]. done.
Qed.

Lemma indexed_runs `{!TokenizerSpec} base batches final : indexed base batches final -> forall fs, Forall (Forall assigned_ok) batches ->
  files_hold index fs base None -> option_indexable base ->
  exists fs', index_batches model None index fs batches = Some (fs', None) /\ files_hold index fs' final None /\ option_indexable final /\
    forall d, has_document final d <-> has_document base d \/ exists file, (file, d) ∈ concat batches /\ readable file <> None.
Proof.
  induction 1 as [base|chunk batches final Hfits _ IH|b chunk batches final Hfits Hm Hgap _ IH]; intros fs Hc Hf Hi.
  - exists fs. split; [done|]. split; [done|]. split; [done|]. intros d. split; [by left|]. by intros [Hd|(file & Hin%not_elem_of_nil & _)].
  - inversion Hc as [|? ? Hchunk Hbatches]; subst. destruct (first_published fs chunk Hchunk Hfits Hf) as (fs1 & Hrun & Hf1 & Hi1).
    destruct (IH fs1 Hbatches Hf1 Hi1) as (fs' & Hrun' & Hf' & Hi' & Hdocs). exists fs'. cbn [index_batches]. rewrite Hrun. split; [exact Hrun'|]. split; [done|]. split; [done|].
    intros d. rewrite Hdocs. cbn [has_document concat]. rewrite (batch_docs _ _ Hchunk). setoid_rewrite elem_of_app. clear. naive_solver.
  - inversion Hc as [|? ? Hchunk Hbatches]; subst. destruct (next_published fs chunk b Hchunk Hfits Hf Hi Hm Hgap) as (fs1 & Hrun & Hf1 & Hi1).
    destruct (IH fs1 Hbatches Hf1 Hi1) as (fs' & Hrun' & Hf' & Hi' & Hdocs). exists fs'. cbn [index_batches]. rewrite Hrun. split; [exact Hrun'|]. split; [done|]. split; [done|].
    intros d. rewrite Hdocs. cbn [has_document concat]. rewrite merged_documents, (batch_docs _ _ Hchunk). setoid_rewrite elem_of_app. clear. naive_solver.
Qed.

(** ** The whole run *)

Lemma next_id_of_files fs base : files_hold index fs base None -> option_indexable base ->
  (if IsValidIndex fs index then AllocateDocumentID (with_path_and_load_delta fs (Some index) false) else 0%Z) = option_end base.
Proof.
  intros Hf Hi. destruct base as [b|].
  - rewrite (base_valid _ _ _ Hf). destruct (fh_base _ _ _ _ Hf) as (content & Hc & Ho). cbn [option_end].
    destruct (open_delta_ok fs index content b Hc Ho) as (Hix & _ & _ & Hd). rewrite open_delta_context_eq in Hix, Hd.
    unfold AllocateDocumentID. rewrite Hd, (next_document_id_end b _ Hix (proj1 Hi)).
    assert (Hs : m_Store (with_path_and_load_delta fs (Some index) false) = store_new).
    { unfold with_path_and_load_delta, new_context, load_index. cbv zeta. rewrite Hc. destruct (LoadIndex content _ _) as [ix|e]; [|done].
      unfold LoadDeltaIndex. done. }
    rewrite Hs. done.
  - by rewrite (fh_base _ _ _ _ Hf).
Qed.

Lemma concat_chunks {A} size (l : list A) : size <> 0 -> forall fuel, length l <= fuel -> concat (chunks fuel size l) = l.
Proof.
  intros Hs fuel. revert l. induction fuel as [|fuel IH]; intros l Hf; [by destruct l; [|cbn in Hf; lia]|].
  destruct l as [|x l]; [done|]. cbn [chunks concat]. rewrite IH; [apply take_drop|]. rewrite length_drop. cbn [length] in *. lia.
Qed.

Lemma Forall_chunks {A} (P : A -> Prop) size : forall fuel (l : list A), Forall P l -> Forall (Forall P) (chunks fuel size l).
Proof.
  induction fuel as [|fuel IH]; intros l Hl; [constructor|]. destruct l as [|x l]; [constructor|]. cbn [chunks].
  constructor; [by apply Forall_take|]. apply IH. by apply Forall_drop.
Qed.

(** Without a delta beside the index, the run goes straight to the batches. *)
Lemma index_path_batches fs files batch_size base : files_hold index fs base None -> option_indexable base -> files <> [] -> batch_size <> 0 ->
  index_path model None index fs files batch_size =
  index_batches model None index fs (chunks (length files) batch_size (assign_ids (option_end base) files)).
Proof.
  intros Hf Hi Hne Hsize. unfold index_path. destruct files as [|file files]; [done|]. rewrite (fh_named _ _ _ _ Hf).
  rewrite (fh_delta _ _ _ _ Hf), andb_false_r, (next_id_of_files _ _ Hf Hi). by destruct batch_size.
Qed.

(** Indexing files whose ids leave no gap between the index and a batch
    publishes every batch: the index file then holds the old documents and, under the ids that
    follow the index by position, every file that could be read and is not empty, and no delta is left. *)
Theorem index_path_indexes `{!TokenizerSpec} fs files batch_size base final :
  files_hold index fs base None -> option_indexable base -> files <> [] -> batch_size <> 0 ->
  let batches := chunks (length files) batch_size (assign_ids (option_end base) files) in
  Forall assigned_ok (assign_ids (option_end base) files) -> indexed base batches final ->
  exists fs', index_path model None index fs files batch_size = Some (fs', None) /\
    files_hold index fs' final None /\ option_indexable final /\
    forall d, has_document final d <-> has_document base d \/
      exists i file, files !! i = Some file /\ readable file <> None /\ d = (option_end base + Z.of_nat i)%Z.
Proof.
  intros Hf Hi Hne Hsize batches Hok Hidx. rewrite (index_path_batches _ _ _ base) by done.
  destruct (indexed_runs _ _ _ Hidx fs (Forall_chunks _ _ _ _ Hok) Hf Hi) as (fs' & Hrun & Hf' & Hi' & Hdocs).
  exists fs'. split; [done|]. split; [done|]. split; [done|]. intros d. rewrite Hdocs. apply or_iff_compat_l.
  unfold batches. rewrite concat_chunks by (done || (unfold assign_ids; by rewrite length_imap)). unfold assign_ids. setoid_rewrite list_elem_of_lookup. setoid_rewrite list_lookup_imap_Some.
  clear. naive_solver.
Qed.

(** A file that is skipped can block an index for good: when the first
    document of the first batch does not follow the documents of the index, as when the first files are
    empty, the batch is left as a delta that cannot be merged, and every later run fails without a change. *)
Theorem gap_blocks_index `{!TokenizerSpec} fs files batch_size (b : PostingStore) chunk :
  files_hold index fs (Some b) None -> indexable b -> files <> [] -> batch_size <> 0 ->
  head (chunks (length files) batch_size (assign_ids (store_end b) files)) = Some chunk ->
  Forall assigned_ok chunk -> batch_fits (batch_store chunk) ->
  StoreFirstDocId (batch_store chunk) <> StoreDocDataRecordCount b ->
  exists fs', index_path model None index fs files batch_size = Some (fs', Some (Failed InvalidFormat)) /\
    files_hold index fs' (Some b) (Some (batch_store chunk)) /\
    forall later size, later <> [] -> index_path model None index fs' later size = Some (fs', Some (Failed InvalidFormat)).
Proof.
  intros Hf Hb Hne Hsize Hhead Hc Hfits Hgap. destruct (batch_added fs chunk (fh_named _ _ _ _ Hf) Hc Hfits) as (Hi & file & Hfile & Hrun).
  rewrite valid_batch, (base_valid _ _ _ Hf) in Hrun. cbn [negb] in Hrun. cbv zeta in Hrun.
  pose proof (publish_delta fs b _ file Hf Hfile) as Hf'. set (fs' := <[DeltaIndexPath index := file]> _) in *.
  destruct (refuse_files fs' b _ Hf' Hb Hi Hgap) as (ctx' & Hmerge). rewrite Hmerge in Hrun. cbn in Hrun.
  exists fs'. split; [|split; [done|]].
  - rewrite (index_path_batches _ _ _ (Some b)) by done. cbn [option_end]. destruct (chunks _ _ _) as [|c cs]; [done|]. injection Hhead as ->.
    cbn [index_batches]. by rewrite Hrun.
  - intros later size Hlater. unfold index_path. destruct later as [|l later]; [done|].
    rewrite (fh_named _ _ _ _ Hf), (base_valid _ _ _ Hf'), (delta_valid _ _ _ Hf'). cbn [andb]. by rewrite Hmerge.
Qed.
End runs.

(** * Witnesses *)

Section samples.
#[local] Existing Instance sample_libm.
#[local] Existing Instance sample_doc_order.
#[local] Existing Instance canonical_order.
#[local] Existing Instance space_tokenizer.
#[local] Existing Instance space_tokenizer_spec.
#[local] Existing Instance sample_files.

Definition sample_model : EmbeddingModel := {| GetDimension := DOC_VECTOR_DIM; Embed _ := replicate DOC_VECTOR_DIM (f_lit F32 1 2) |}.

Definition text_file (path text : string) : SourceFile := {| sf_path := of_string path; sf_text := Some (of_string text) |}.

(** The second file is empty. *)
Definition sample_run : list SourceFile := [text_file "x/b_1.txt" "a b"; text_file "x/e.txt" ""; text_file "x/a.txt" "a c"].
(** Here the first one is. *)
Definition gapped_run : list SourceFile := [text_file "x/e.txt" ""; text_file "x/a.txt" "a c"].
Definition later_run : list SourceFile := [text_file "y/d.txt" "a d"].

Lemma save_fits_batch s : save_fits s = true -> batch_fits s.
Proof.
  apply save_fits_ok.
Qed.

(** The conditions of [assigned_ok], as a test. *)
Definition assigned_fits (assigned : SourceFile * Z) : bool :=
  (0 <=? assigned.2)%Z && (assigned.2 <? u32_max)%Z &&
  match readable assigned.1 with
  | Some body => add_fits no_corpora (file_document assigned.1 assigned.2 body)
  | None => true
  end.

Lemma assigned_fits_ok l : forallb assigned_fits l = true -> Forall assigned_ok l.
Proof.
  rewrite forallb_forall, Forall_forall. intros Hl a Ha. apply list_elem_of_In, Hl in Ha. unfold assigned_fits in Ha.
  rewrite !andb_true_iff in Ha. destruct Ha as [[H1 H2] Hd]. bool_to_prop. split; [lia|]. intros body Hb. rewrite Hb in Hd.
  by apply (add_fits_ok sample_path ∅ (context_new None true) _ _ None) in Hd as [Hd _].
Qed.

Definition published (files : list SourceFile) : PostingStore := batch_store sample_model (assign_ids 0 files).

Lemma published_fits files : save_fits (published files) = true -> indexed sample_model None [assign_ids 0 files] (Some (published files)).
Proof. intros Hs. apply indexed_first; [by apply save_fits_batch|constructor]. Qed.

Lemma index_path_indexes_witness :
  exists fs, index_path sample_model None sample_path ∅ sample_run 5 = Some (fs, None) /\
    files_hold sample_path fs (Some (published sample_run)) None /\ has_document (Some (published sample_run)) 2 /\
    ~ has_document (Some (published sample_run)) 1.
Proof.
  destruct (index_path_indexes sample_model sample_path ∅ sample_run 5 None (Some (published sample_run)))
    as (fs & Hrun & Hf & _ & Hdocs).
  - by split.
  - done.
  - done.
  - lia.
  - apply assigned_fits_ok. vm_compute. reflexivity.
  - apply (published_fits sample_run). vm_compute. reflexivity.
  - exists fs. split; [exact Hrun|]. split; [exact Hf|]. split.
    + apply Hdocs. right. exists 2, (text_file "x/a.txt" "a c"). split; [reflexivity|]. split; [vm_compute; discriminate|reflexivity].
    + intros Hd. apply Hdocs in Hd as [[]|(i & file & Hi & Hr & Ed)]. cbn [option_end] in Ed.
      replace i with 1 in Hi by lia. injection Hi as <-. apply Hr. reflexivity.
Defined.

(** An index with one document. *)
Lemma later_published : exists fs, files_hold sample_path fs (Some (published later_run)) None /\ indexable (published later_run).
Proof.
  destruct (first_published sample_model sample_path ∅ (assign_ids 0 later_run)) as (fs & _ & Hf & Hi); [..|by exists fs].
  - apply assigned_fits_ok. vm_compute. reflexivity.
  - apply save_fits_batch. vm_compute. reflexivity.
  - by split.
Qed.

Lemma gap_blocks_index_witness :
  exists fs fs', files_hold sample_path fs (Some (published later_run)) None /\
    index_path sample_model None sample_path fs gapped_run 5 = Some (fs', Some (Failed InvalidFormat)) /\
    index_path sample_model None sample_path fs' later_run 5 = Some (fs', Some (Failed InvalidFormat)).
Proof.
  destruct later_published as (fs & Hf & Hi).
  destruct (gap_blocks_index sample_model sample_path fs gapped_run 5 (published later_run) (assign_ids 1 gapped_run))
    as (fs' & Hrun & _ & Hlater).
  - exact Hf.
  - exact Hi.
  - done.
  - lia.
  - vm_compute. reflexivity.
  - apply assigned_fits_ok. vm_compute. reflexivity.
  - apply save_fits_batch. vm_compute. reflexivity.
  - intros E. vm_compute in E. discriminate E.
  - exists fs, fs'. split; [exact Hf|]. split; [exact Hrun|]. apply Hlater. discriminate.
Defined.
End samples.
