(* ===== verification/FileBlocks.v ===== *)
(** Writing files and the block manager over them (FileAccess.rs, FileBlockManager.rs).

    A file open for reading and writing is its content and the cursor of the
    operating system; what the system accepts of a write is a parameter, and so is
    what it delivers of a read. The positional reads are those of [FileAccess]. The
    handle is taken as the only writer of its file, and the locks as not poisoned. *)

From Stdlib Require Import ZArith Lia ZifyBool Bool List.
From stdpp Require Import base gmap list list_numbers.
From S2P Require Import Prelude FileAccess IndexFile Context.

Local Open Scope moon_scope.

(** ** Files *)

Record BlockFile := { bf_content : bytes; bf_cursor : Z }.

(** What the system accepts of a write at the cursor: a count, or [None] for an error. *)
Class OsWrites := os_accepts : BlockFile -> bytes -> option nat.

(** Bytes written at an offset; a gap behind the end is filled with zeros. *)
Definition write_at (off : nat) (data content : bytes) : bytes :=
  match data with
  | [] => content
  | _ => splice off data (content ++ replicate (off - length content) 0%Z)
  end.

Definition i64_max : Z := 2 ^ 63 - 1.
Definition i32_max : Z := 2 ^ 31 - 1.

(** [File::seek(SeekFrom::Start(position))]. *)
Definition seek (file : BlockFile) (position : Z) : BlockFile * bool :=
  if (i64_max <? position)%Z then (file, false) else ({| bf_content := bf_content file; bf_cursor := position |}, true).

(** ** FileAccess *)

Record WriteAccess := { wa_FileHandle : option BlockFile; wa_Position : Z }.
Definition with_file (fa : WriteAccess) (file : BlockFile) : WriteAccess := {| wa_FileHandle := Some file; wa_Position := wa_Position fa |}.

(** FileAccess::new. *)
Definition wa_new : WriteAccess := {| wa_FileHandle := None; wa_Position := 0 |}.

(** Init and InitWrite; [found]: the content of the file, [creatable]: whether it can be opened for writing. *)
Definition wa_Init (fa : WriteAccess) (found : option bytes) : WriteAccess * bool :=
  match found with
  | Some content => (with_file fa {| bf_content := content; bf_cursor := 0 |}, true)
  | None => (fa, false)
  end.
Definition InitWrite (fa : WriteAccess) (truncate creatable : bool) (found : option bytes) : WriteAccess * bool :=
  if creatable then (with_file fa {| bf_content := if truncate then [] else default [] found; bf_cursor := 0 |}, true) else (fa, false).

Section access.
Context `{OsFiles, OsWrites}.

(** The handle as the reads see it. *)
Definition read_side (fa : WriteAccess) : FileAccess :=
  {| m_FileHandle := option_map (fun file => os_open (bf_content file)) (wa_FileHandle fa); m_Position := wa_Position fa |}.

(** [File::write]: the bytes accepted go to the cursor, which moves behind them. *)
Definition os_write (file : BlockFile) (data : bytes) : BlockFile * option nat :=
  match os_accepts file data with
  | None => (file, None)
  | Some count =>
      let count := Nat.min count (length data) in
      ({| bf_content := write_at (Z.to_nat (bf_cursor file)) (take count data) (bf_content file); bf_cursor := (bf_cursor file + Z.of_nat count)%Z |}, Some count)
  end.

(** GetData. *)
Definition wa_GetData (fa : WriteAccess) (buffer : bytes) (numBytes : Z) : WriteAccess * Z * bytes :=
  let '(side, count, data) := GetData (read_side fa) buffer numBytes in
  ({| wa_FileHandle := wa_FileHandle fa; wa_Position := m_Position side |}, count, data).

(** The loop of PutData: pieces of at most [i32::MAX] bytes. *)
Fixpoint PutData_loop (fuel : nat) (file : BlockFile) (buffer : bytes) (offset : nat) : option (BlockFile * bool) :=
  match fuel with
  | O => None
  | S fuel' =>
      if offset <? length buffer then
        let end_ := Z.to_nat (Z.min (Z.of_nat offset + i32_max) (Z.of_nat (length buffer))) in
        let '(file, written) := os_write file (slice offset (end_ - offset) buffer) in
        match written with
        | Some count => if count =? end_ - offset then PutData_loop fuel' file buffer end_ else Some (file, false)
        | None => Some (file, false)
        end
      else Some (file, true)
  end.

(** A turn of the loop writes at least a byte. *)
Definition PutData (fa : WriteAccess) (buffer : bytes) : option (WriteAccess * bool) :=
  match buffer, wa_FileHandle fa with
  | [], _ => Some (fa, true)
  | _, None => Some (fa, false)
  | _, Some file =>
      opt r := PutData_loop (S (length buffer)) file buffer 0 in
      let '(file, ok) := r in
      Some ({| wa_FileHandle := Some file;
               wa_Position := if ok then wrapping_add 64 (wa_Position fa) (Z.of_nat (length buffer)) else wa_Position fa |}, ok)
  end.

Definition wa_SetPosition (fa : WriteAccess) (position : Z) : WriteAccess * bool :=
  match wa_FileHandle fa with
  | None => ({| wa_FileHandle := None; wa_Position := position |}, false)
  | Some file => let '(file, ok) := seek file position in ({| wa_FileHandle := Some file; wa_Position := position |}, ok)
  end.

Definition WriteBlock (fa : WriteAccess) (block_seq : Z) (buffer : bytes) (block_size : nat) : WriteAccess * bool :=
  if length buffer <? block_size then (fa, false)
  else
    match wa_FileHandle fa with
    | None => (fa, false)
    | Some file =>
        let '(file, ok) := seek file (wrapping_mul 64 block_seq (Z.of_nat block_size)) in
        if ok then
          let '(file, written) := os_write file (take block_size buffer) in
          (with_file fa file, bool_decide (written = Some block_size))
        else (with_file fa file, false)
    end.

(** ** FileBlockManager *)

Record FileBlockManager := { fbm_FileAccess : option WriteAccess; fbm_BlockSize : nat; fbm_BaseOffset : Z; fbm_Memory : option bytes }.

Definition fbm_new (block_size : nat) (base_offset : Z) : FileBlockManager :=
  {| fbm_FileAccess := None; fbm_BlockSize := block_size; fbm_BaseOffset := base_offset; fbm_Memory := None |}.
Definition fbm_default : FileBlockManager := fbm_new 4096 0.

Definition over (m : FileBlockManager) (file : option WriteAccess) (memory : option bytes) : FileBlockManager :=
  {| fbm_FileAccess := file; fbm_BlockSize := fbm_BlockSize m; fbm_BaseOffset := fbm_BaseOffset m; fbm_Memory := memory |}.

Definition fbm_open (m : FileBlockManager) (found : option bytes) : FileBlockManager * bool :=
  let '(file, ok) := wa_Init wa_new found in
  if ok then (over m (Some file) None, true) else (over m None None, false).
Definition fbm_openWrite (m : FileBlockManager) (creatable : bool) (found : option bytes) : FileBlockManager * bool :=
  let '(file, ok) := InitWrite wa_new true creatable found in
  if ok then (over m (Some file) None, true) else (over m None None, false).
Definition fbm_openMemory (m : FileBlockManager) (memory : bytes) : FileBlockManager * bool :=
  if length memory <? fbm_BlockSize m then (m, false) else (over m None (Some memory), true).
Definition fbm_close (m : FileBlockManager) : FileBlockManager := over m None None.

Definition fbm_read (m : FileBlockManager) (block_seq : Z) (buffer : bytes) : bool * bytes :=
  if length buffer <? fbm_BlockSize m then (false, buffer)
  else
    match fbm_Memory m with
    | Some memory =>
        let offset := wrapping_mul 64 block_seq (Z.of_nat (fbm_BlockSize m)) in
        if (Z.of_nat (length memory) <? offset + Z.of_nat (fbm_BlockSize m))%Z then (false, buffer)
        else (true, slice (Z.to_nat offset) (fbm_BlockSize m) memory ++ drop (fbm_BlockSize m) buffer)
    | None =>
        match fbm_FileAccess m with
        | Some file => ReadBlock (read_side file) block_seq buffer (fbm_BlockSize m) (fbm_BaseOffset m)
        | None => (false, buffer)
        end
    end.

Definition fbm_write (m : FileBlockManager) (block_seq : Z) (buffer : bytes) : FileBlockManager * bool :=
  if length buffer <? fbm_BlockSize m then (m, false)
  else
    match fbm_FileAccess m with
    | Some file => let '(file, ok) := WriteBlock file block_seq buffer (fbm_BlockSize m) in (over m (Some file) (fbm_Memory m), ok)
    | None => (m, false)
    end.

Definition setBlockSize (m : FileBlockManager) (block_size : nat) : FileBlockManager :=
  {| fbm_FileAccess := fbm_FileAccess m; fbm_BlockSize := block_size; fbm_BaseOffset := fbm_BaseOffset m; fbm_Memory := fbm_Memory m |}.
Definition setBaseOffset (m : FileBlockManager) (base_offset : Z) : FileBlockManager :=
  {| fbm_FileAccess := fbm_FileAccess m; fbm_BlockSize := fbm_BlockSize m; fbm_BaseOffset := base_offset; fbm_Memory := fbm_Memory m |}.
End access.

(** * Properties *)

(** ** Writes into a list of bytes *)

Section content.
Implicit Types content data : bytes.

Lemma write_at_splice off data content : data <> [] -> write_at off data content = splice off data (content ++ replicate (off - length content) 0%Z).
Proof. by destruct data. Qed.

Lemma length_write_at off data content : data <> [] -> length (write_at off data content) = Nat.max (length content) (off + length data).
Proof. intros Hd. rewrite write_at_splice by done. unfold splice. len_lia. Qed.

Lemma length_write_at_le off data content : length content <= length (write_at off data content).
Proof. destruct data as [|b data]; [done|]. rewrite length_write_at by done. lia. Qed.

Lemma slice_write_same off data content : slice off (length data) (write_at off data content) = data.
Proof. destruct data as [|b data]; [done|]. rewrite write_at_splice by done. apply slice_splice_same. len_lia. Qed.

Lemma slice_splice_clear off data content o len : off <= length content -> o + len <= length content -> o + len <= off \/ off + length data <= o ->
  slice o len (splice off data content) = slice o len content.
Proof.
  intros Hoff Hin [Hb|Ha]; [by apply slice_splice_before|]. destruct (decide (off + length data <= length content)); [by apply slice_splice_after|].
  replace len with 0 by lia. done.
Qed.

Lemma slice_write_clear off data content o len : o + len <= length content -> o + len <= off \/ off + length data <= o ->
  slice o len (write_at off data content) = slice o len content.
Proof.
  intros Hin Hor. destruct data as [|b data]; [done|]. rewrite write_at_splice by done. rewrite slice_splice_clear by (done || len_lia).
  by apply slice_app_l.
Qed.

(** Writes one behind the other are one write. *)
Lemma write_at_app off data1 data2 content : write_at (off + length data1) data2 (write_at off data1 content) = write_at off (data1 ++ data2) content.
Proof.
  destruct data1 as [|b1 data1]; [cbn [length app write_at]; by rewrite Nat.add_0_r|].
  destruct data2 as [|b2 data2]; [by rewrite app_nil_r|]. set (d1 := b1 :: data1). set (d2 := b2 :: data2).
  assert (H1 : d1 <> []) by done. assert (H2 : d2 <> []) by done. assert (H12 : d1 ++ d2 <> []) by done. clearbody d1 d2. clear b1 b2 data1 data2.
  rewrite (write_at_splice _ d2), (write_at_splice _ (d1 ++ d2)) by done. rewrite (length_write_at off d1 content H1).
  replace (off + length d1 - _) with 0 by lia. cbn [replicate]. rewrite app_nil_r, write_at_splice by done.
  set (c := content ++ _). assert (Hc : off <= length c) by (unfold c; len_lia). clearbody c. unfold splice.
  rewrite length_app, Nat.add_assoc. rewrite (app_assoc (take off c) d1) at 1. rewrite take_app_ge by len_lia.
  replace (off + length d1 - length (take off c ++ d1)) with 0 by len_lia. rewrite take_0, app_nil_r.
  rewrite <- !app_assoc. f_equal. f_equal. f_equal.
  rewrite drop_app_ge by len_lia. rewrite drop_app_ge by len_lia. rewrite drop_drop. f_equal. len_lia.
Qed.
End content.

Section files.
Context `{OsFiles, OsWrites}.

(** A write puts a prefix of the data at the cursor, all of it when it reports so. *)
Lemma os_write_some file data : (0 <= bf_cursor file)%Z -> exists n, n <= length data /\
  bf_content (os_write file data).1 = write_at (Z.to_nat (bf_cursor file)) (take n data) (bf_content file) /\
  bf_cursor (os_write file data).1 = (bf_cursor file + Z.of_nat n)%Z /\
  forall m, (os_write file data).2 = Some m -> m = n.
Proof.
  intros Hc. unfold os_write. destruct (os_accepts file data) as [c|]; cbn.
  - exists (Nat.min c (length data)). split; [lia|]. split; [done|]. split; [done|]. intros m [= <-]. done.
  - exists 0. rewrite take_0, Z.add_0_r. split; [lia|]. done.
Qed.

(** The system takes every write in full. *)
Definition accepts_all : Prop := forall file data, os_accepts file data = Some (length data).

(** ** Sequential writes *)

Lemma PutData_loop_writes buffer : forall fuel file offset, length buffer - offset < fuel -> offset <= length buffer -> (0 <= bf_cursor file)%Z ->
  exists file' ok, PutData_loop fuel file buffer offset = Some (file', ok) /\
    (accepts_all -> ok = true) /\
    (ok = true -> bf_content file' = write_at (Z.to_nat (bf_cursor file)) (drop offset buffer) (bf_content file) /\
       bf_cursor file' = (bf_cursor file + Z.of_nat (length buffer - offset))%Z).
Proof.
  induction fuel as [|fuel IH]; intros file offset Hf Ho Hc; [lia|]. cbn [PutData_loop]. destruct (offset <? length buffer) eqn:Elt; bool_to_prop.
  - set (end_ := Z.to_nat _). assert (He : offset < end_ <= length buffer) by (unfold end_, i32_max; lia).
    set (data := slice offset (end_ - offset) buffer). assert (Hd : length data = end_ - offset) by (apply length_slice; lia).
    pose proof (fun Ha : accepts_all => Ha file data) as Hacc.
    unfold os_write at 1. destruct (os_accepts file data) as [c|] eqn:Ea.
    2:{ exists file, false. split; [done|]. split; [|done]. intros Ha. by specialize (Hacc Ha). }
    set (file1 := {| bf_content := _; bf_cursor := _ |}) in *. destruct (Nat.min c (length data) =? end_ - offset) eqn:Ec; bool_to_prop.
    + destruct (IH file1 end_ ltac:(lia) ltac:(lia) ltac:(cbn; lia)) as (file' & ok & Hrun & Hok & Hpost). exists file', ok. split; [done|]. split; [done|].
      intros Ht. destruct (Hpost Ht) as [Hcont Hcur]. assert (Emin : Nat.min c (length data) = length data) by lia.
      unfold file1 in Hcont, Hcur. cbn [bf_content bf_cursor] in Hcont, Hcur. rewrite Emin in Hcont, Hcur. rewrite firstn_all in Hcont. split; [|lia].
      rewrite Hcont. replace (Z.to_nat (bf_cursor file + Z.of_nat (length data))) with (Z.to_nat (bf_cursor file) + length data) by lia.
      rewrite write_at_app. f_equal. unfold data, slice. replace (drop end_ buffer) with (drop (end_ - offset) (drop offset buffer)); [apply take_drop|].
      rewrite drop_drop. f_equal. lia.
    + exists file1, false. split; [done|]. split; [|done]. intros Ha. specialize (Hacc Ha). injection Hacc as ->. lia.
  - exists file, true. split; [done|]. split; [done|]. intros _. rewrite drop_ge by lia. cbn [write_at]. split; [done|lia].
Qed.

(** PutData always returns; a full write goes to the cursor of the system, whatever the position of the reads is. *)
Lemma PutData_writes fa file buffer : wa_FileHandle fa = Some file -> (0 <= bf_cursor file)%Z ->
  exists fa' ok, PutData fa buffer = Some (fa', ok) /\ (accepts_all -> ok = true) /\
    (ok = true -> exists file', wa_FileHandle fa' = Some file' /\
       bf_content file' = write_at (Z.to_nat (bf_cursor file)) buffer (bf_content file) /\
       bf_cursor file' = (bf_cursor file + Z.of_nat (length buffer))%Z /\
       (in_u 64 (wa_Position fa + Z.of_nat (length buffer)) -> wa_Position fa' = (wa_Position fa + Z.of_nat (length buffer))%Z)).
Proof.
  intros Hh Hc. unfold PutData. rewrite Hh. destruct buffer as [|b buffer].
  { exists fa, true. split; [done|]. split; [done|]. intros _. exists file. cbn [length]. rewrite !Z.add_0_r. done. }
  set (buf := b :: buffer). destruct (PutData_loop_writes buf (S (length buf)) file 0 ltac:(lia) ltac:(lia) Hc) as (file' & ok & Hrun & Hok & Hpost).
  rewrite Hrun. eexists _, ok. split; [done|]. split; [done|]. intros Ht. destruct (Hpost Ht) as [Hcont Hcur]. rewrite Ht. exists file'. cbn [wa_FileHandle wa_Position].
  split; [done|]. rewrite drop_0 in Hcont. split; [done|]. split; [lia|]. intros Hin. by apply wrap_small.
Qed.

(** ** Blocks *)

Lemma read_side_open fa file : wa_FileHandle fa = Some file -> m_FileHandle (read_side fa) = Some (os_open (bf_content file)).
Proof. intros Hf. unfold read_side. by rewrite Hf. Qed.

(** A read inside the file gives the bytes there. *)
Lemma ReadBlock_inside fa file block_seq buffer size base :
  wa_FileHandle fa = Some file -> (0 <= base + block_seq * Z.of_nat size)%Z -> (Z.of_nat size < 2 ^ 31)%Z -> size <= length buffer ->
  Z.to_nat (base + block_seq * Z.of_nat size) + size <= length (bf_content file) ->
  ReadBlock (read_side fa) block_seq buffer size base =
    (true, slice (Z.to_nat (base + block_seq * Z.of_nat size)) size (bf_content file) ++ drop size buffer).
Proof.
  intros Hf Hp Hs Hb Hin. unfold ReadBlock. replace (length buffer <? size) with false by lia. unfold ReadAt. rewrite (read_side_open _ _ Hf).
  rewrite length_take, Nat.min_l by lia. rewrite (os_open_reads (bf_content file) _ size Hp Hin). rewrite length_slice by done.
  rewrite Z.eqb_refl. f_equal. f_equal. unfold splice. rewrite length_slice by done. rewrite (drop_ge (take _ _)) by len_lia. by rewrite app_nil_r.
Qed.

(** The blocks of a content that are there in full. *)
Definition has_block (size : nat) (content : bytes) (k : Z) : Prop := (0 <= k)%Z /\ Z.to_nat (k * Z.of_nat size) + size <= length content.
Definition block_at (size : nat) (content : bytes) (k : Z) : bytes := slice (Z.to_nat (k * Z.of_nat size)) size content.

(** A manager with an open file and a block size the reads can report. *)
Record manages (m : FileBlockManager) (fa : WriteAccess) (file : BlockFile) : Prop := {
  mg_file : fbm_FileAccess m = Some fa;
  mg_memory : fbm_Memory m = None;
  mg_handle : wa_FileHandle fa = Some file;
  mg_size : (0 < Z.of_nat (fbm_BlockSize m) < 2 ^ 31)%Z }.

Lemma fbm_read_inside m fa file k buffer : manages m fa file -> (0 <= fbm_BaseOffset m + k * Z.of_nat (fbm_BlockSize m))%Z -> fbm_BlockSize m <= length buffer ->
  Z.to_nat (fbm_BaseOffset m + k * Z.of_nat (fbm_BlockSize m)) + fbm_BlockSize m <= length (bf_content file) ->
  fbm_read m k buffer =
    (true, slice (Z.to_nat (fbm_BaseOffset m + k * Z.of_nat (fbm_BlockSize m))) (fbm_BlockSize m) (bf_content file) ++ drop (fbm_BlockSize m) buffer).
Proof.
  intros [Hfa Hmem Hf Hs] Hp Hb Hin. unfold fbm_read. rewrite Hfa, Hmem. replace (length buffer <? fbm_BlockSize m) with false by lia.
  by apply ReadBlock_inside; try lia.
Qed.

(** A write changes only its own block, and all of it when it reports success. *)
Lemma fbm_write_writes m fa file k buffer : manages m fa file -> (0 <= k)%Z -> ((k + 1) * Z.of_nat (fbm_BlockSize m) <= i64_max)%Z -> fbm_BlockSize m <= length buffer ->
  exists m' ok fa' file' n, fbm_write m k buffer = (m', ok) /\ manages m' fa' file' /\ fbm_BlockSize m' = fbm_BlockSize m /\ fbm_BaseOffset m' = fbm_BaseOffset m /\
    n <= fbm_BlockSize m /\ bf_content file' = write_at (Z.to_nat (k * Z.of_nat (fbm_BlockSize m))) (take n buffer) (bf_content file) /\
    (ok = true -> n = fbm_BlockSize m) /\ (accepts_all -> ok = true).
Proof.
  intros Hm Hk Hmax Hb. pose proof Hm as [Hfa Hmem Hf Hs]. unfold fbm_write. replace (length buffer <? fbm_BlockSize m) with false by lia. rewrite Hfa.
  unfold WriteBlock. replace (length buffer <? fbm_BlockSize m) with false by lia. rewrite Hf. set (size := fbm_BlockSize m) in *.
  assert (Hpos : wrapping_mul 64 k (Z.of_nat size) = (k * Z.of_nat size)%Z) by (unfold wrapping_mul; apply wrap_small; unfold in_u, i64_max in *; nia).
  rewrite Hpos. unfold seek. replace (i64_max <? k * Z.of_nat size)%Z with false by nia. set (file0 := {| bf_content := bf_content file; bf_cursor := _ |}).
  destruct (os_write_some file0 (take size buffer)) as (n & Hn & Hw & _ & Hsome); [cbn; lia|]. rewrite length_take, Nat.min_l in Hn by lia.
  rewrite take_take, Nat.min_l in Hw by lia. pose proof (fun Ha : accepts_all => Ha file0 (take size buffer)) as Hacc.
  assert (Hok : accepts_all -> (os_write file0 (take size buffer)).2 = Some size).
  { intros Ha. unfold os_write. rewrite (Hacc Ha). cbn [snd]. f_equal. len_lia. }
  destruct (os_write file0 (take size buffer)) as [file' written]. cbn [fst snd] in *.
  eexists _, _, _, file', n. split; [done|]. repeat (split; [done|]). split.
  - intros Hd. apply bool_decide_eq_true in Hd. symmetry. by apply Hsome.
  - intros Ha. apply bool_decide_eq_true. by apply Hok.
Qed.

Lemma block_product (j k : Z) (size : nat) : (0 <= j)%Z -> (0 <= k)%Z -> j <> k ->
  Z.to_nat (j * Z.of_nat size) + size <= Z.to_nat (k * Z.of_nat size) \/ Z.to_nat (k * Z.of_nat size) + size <= Z.to_nat (j * Z.of_nat size).
Proof. intros Hj Hk Hne. destruct (decide (j < k)%Z); [left|right]; nia. Qed.

(** ** The blocks written *)

(** Writes one after the other, and what each reports. *)
Fixpoint write_blocks (m : FileBlockManager) (writes : list (Z * bytes)) : FileBlockManager * list bool :=
  match writes with
  | [] => (m, [])
  | (k, buffer) :: writes' => let '(m, ok) := fbm_write m k buffer in let '(m, oks) := write_blocks m writes' in (m, ok :: oks)
  end.

(** The blocks as a map: a write that fails leaves its block unknown. *)
Fixpoint blocks_after (size : nat) (blocks : gmap Z bytes) (writes : list (Z * bytes)) (oks : list bool) : gmap Z bytes :=
  match writes, oks with
  | (k, buffer) :: writes', ok :: oks' => blocks_after size (if ok then <[k := take size buffer]> blocks else delete k blocks) writes' oks'
  | _, _ => blocks
  end.

Definition write_fits (size : nat) (write : Z * bytes) : Prop :=
  (0 <= write.1)%Z /\ ((write.1 + 1) * Z.of_nat size <= i64_max)%Z /\ size <= length write.2.

(** The content of the file has every block of the map in its place. *)
Definition file_has (size : nat) (content : bytes) (blocks : gmap Z bytes) : Prop :=
  forall k block, blocks !! k = Some block -> has_block size content k /\ block_at size content k = block.

Lemma file_has_write size content blocks k buffer n ok : file_has size content blocks -> (0 <= k)%Z -> 0 < size -> n <= size -> size <= length buffer ->
  (ok = true -> n = size) ->
  file_has size (write_at (Z.to_nat (k * Z.of_nat size)) (take n buffer) content) (if ok then <[k := take size buffer]> blocks else delete k blocks).
Proof.
  intros Hh Hk Hs Hn Hb Hok j block Hj. destruct (decide (j = k)) as [->|Hne].
  - destruct ok; [|by rewrite lookup_delete_eq in Hj]. rewrite lookup_insert_eq in Hj. injection Hj as <-. rewrite (Hok eq_refl).
    assert (Hl : length (take size buffer) = size) by len_lia. unfold has_block, block_at. split.
    + split; [done|]. rewrite length_write_at; [lia|]. intros E. rewrite E in Hl. cbn in Hl. lia.
    + rewrite <- Hl at 2. apply slice_write_same.
  - assert (Hj' : blocks !! j = Some block) by (destruct ok; [by rewrite lookup_insert_ne in Hj|by rewrite lookup_delete_ne in Hj]).
    destruct (Hh j block Hj') as [[Hj0 Hin] Heq]. unfold has_block, block_at. split.
    + split; [done|]. pose proof (length_write_at_le (Z.to_nat (k * Z.of_nat size)) (take n buffer) content). lia.
    + rewrite slice_write_clear; [exact Heq|done|]. rewrite length_take, Nat.min_l by lia.
      destruct (block_product j k size Hj0 Hk Hne); [left|right]; lia.
Qed.

Lemma write_blocks_has writes : forall m fa file blocks, manages m fa file -> Forall (write_fits (fbm_BlockSize m)) writes ->
  file_has (fbm_BlockSize m) (bf_content file) blocks ->
  exists m' oks fa' file', write_blocks m writes = (m', oks) /\ manages m' fa' file' /\ fbm_BlockSize m' = fbm_BlockSize m /\ fbm_BaseOffset m' = fbm_BaseOffset m /\
    (accepts_all -> Forall (eq true) oks) /\ file_has (fbm_BlockSize m) (bf_content file') (blocks_after (fbm_BlockSize m) blocks writes oks).
Proof.
  induction writes as [|[k buffer] writes IH]; intros m fa file blocks Hm Hw Hh.
  { exists m, [], fa, file. by repeat (split; [done|]). }
  inversion Hw as [|? ? (Hk & Hmax & Hb) Hw']; subst. cbn [fst snd] in *.
  destruct (fbm_write_writes m fa file k buffer Hm Hk Hmax Hb) as (m1 & ok & fa1 & file1 & n & Hrun & Hm1 & Hsize & Hbase & Hn & Hcont & Hok & Hacc).
  cbn [write_blocks]. rewrite Hrun. rewrite <- Hsize in Hw'.
  destruct (IH m1 fa1 file1 (if ok then <[k := take (fbm_BlockSize m) buffer]> blocks else delete k blocks) Hm1 Hw')
    as (m' & oks & fa' & file' & Hrun' & Hm' & Hs' & Hb' & Hacc' & Hh').
  { rewrite Hsize, Hcont. apply file_has_write; try done. pose proof (mg_size _ _ _ Hm). lia. }
  rewrite Hrun'. exists m', (ok :: oks), fa', file'. rewrite Hsize in Hs', Hh'. rewrite Hbase in Hb'. repeat (split; [done|]). split.
  - intros Ha. constructor; [by rewrite Hacc|by apply Hacc'].
  - exact Hh'.
Qed.

(** The same manager over bytes in memory reads the blocks that are there. *)
Lemma memory_reads size content k out : (0 < Z.of_nat size < 2 ^ 31)%Z -> has_block size content k -> (Z.of_nat (length content) < 2 ^ 63)%Z -> size <= length out ->
  fbm_read (fbm_openMemory (fbm_new size 0) content).1 k out = (true, block_at size content k ++ drop size out).
Proof.
  intros Hs [Hk Hin] Hlen Hout. unfold fbm_openMemory. cbn [fbm_BlockSize fbm_new]. replace (length content <? size) with false by lia. cbn [fst].
  unfold fbm_read, over. cbn [fbm_BlockSize fbm_Memory fbm_new]. replace (length out <? size) with false by lia.
  replace (wrapping_mul 64 k (Z.of_nat size)) with (k * Z.of_nat size)%Z by (symmetry; apply wrap_small; unfold in_u; nia).
  replace (Z.of_nat (length content) <? k * Z.of_nat size + Z.of_nat size)%Z with false by lia. done.
Qed.

Definition content_of (m : FileBlockManager) : bytes :=
  match fbm_FileAccess m with Some fa => match wa_FileHandle fa with Some file => bf_content file | None => [] end | None => [] end.

(** The blocks written to a new file read back as a map of blocks would:
    after any writes each block gives what its last write put there when that write reported success,
    from the file and from its bytes in memory; and no write fails when the system takes all of it. *)
Theorem written_blocks_read size found writes :
  (0 < Z.of_nat size < 2 ^ 31)%Z -> Forall (write_fits size) writes ->
  let m := (fbm_openWrite (fbm_new size 0) true found).1 in
  let '(m', oks) := write_blocks m writes in
  (accepts_all -> Forall (eq true) oks) /\
  forall k block out, blocks_after size ∅ writes oks !! k = Some block -> size <= length out ->
    fbm_read m' k out = (true, block ++ drop size out) /\
    ((Z.of_nat (length (content_of m')) < 2 ^ 63)%Z ->
     fbm_read (fbm_openMemory (fbm_new size 0) (content_of m')).1 k out = (true, block ++ drop size out)).
Proof.
  intros Hs Hw m. assert (Hm : exists fa file, manages m fa file) by (eexists _, _; split; [done..|exact Hs]). destruct Hm as (fa & file & Hm).
  destruct (write_blocks_has writes m fa file ∅ Hm Hw) as (m' & oks & fa' & file' & Hrun & Hm' & Hsize & Hbase & Hacc & Hh); [by intros k b Hb|].
  rewrite Hrun. split; [done|]. intros k block out Hk Hout. destruct (Hh k block Hk) as [Hin Heq]. change (fbm_BlockSize m) with size in *.
  change (fbm_BaseOffset m) with 0%Z in Hbase. unfold content_of. rewrite (mg_file _ _ _ Hm'), (mg_handle _ _ _ Hm'). split.
  - pose proof Hin as [Hk0 Hlen]. rewrite (fbm_read_inside m' fa' file' k out Hm'); rewrite ?Hsize, ?Hbase, ?Z.add_0_l; [|lia..]. by rewrite <- Heq.
  - intros Hlt. by rewrite memory_reads, Heq.
Qed.

(** With a base offset of a block or more a block written does not come
    back: the write goes to the place of that block in a file without the offset, over what precedes
    the blocks, reports success, and reading the block gives what it held before. *)
Theorem base_offset_write_lost m fa file k buffer :
  manages m fa file -> (Z.of_nat (fbm_BlockSize m) <= fbm_BaseOffset m)%Z -> (0 <= k)%Z -> ((k + 1) * Z.of_nat (fbm_BlockSize m) <= i64_max)%Z ->
  fbm_BlockSize m <= length buffer ->
  Z.to_nat (fbm_BaseOffset m + k * Z.of_nat (fbm_BlockSize m)) + fbm_BlockSize m <= length (bf_content file) -> accepts_all ->
  exists m', fbm_write m k buffer = (m', true) /\
    (forall out, fbm_BlockSize m <= length out -> fbm_read m' k out = fbm_read m k out) /\
    block_at (fbm_BlockSize m) (content_of m') k = take (fbm_BlockSize m) buffer.
Proof.
  intros Hm Hbo Hk Hmax Hb Hin Ha. destruct (fbm_write_writes m fa file k buffer Hm Hk Hmax Hb)
    as (m' & ok & fa' & file' & n & Hrun & Hm' & Hsize & Hbase & Hn & Hcont & Hok & Hacc).
  rewrite (Hok (Hacc Ha)) in Hcont. exists m'. rewrite Hrun, (Hacc Ha). split; [done|].
  assert (Hl : length (take (fbm_BlockSize m) buffer) = fbm_BlockSize m) by len_lia. split.
  - intros out Hout. rewrite (fbm_read_inside m fa file) by (done || lia). rewrite (fbm_read_inside m' fa' file' k out Hm'); rewrite ?Hsize, ?Hbase; try lia.
    + rewrite Hcont, slice_write_clear; [done|done|]. rewrite Hl. right. lia.
    + rewrite Hcont. eapply Nat.le_trans; [exact Hin|]. apply length_write_at_le.
  - unfold content_of, block_at. rewrite (mg_file _ _ _ Hm'), (mg_handle _ _ _ Hm'), Hcont. rewrite <- Hl at 2. apply slice_write_same.
Qed.
End files.

(** * Witnesses *)

Definition all_accepted : OsWrites := fun _ data => Some (length data).

Section samples.
#[local] Existing Instance sample_files.
#[local] Existing Instance all_accepted.

(** Blocks of four bytes; the second write of block 2 wins. *)
Definition sample_writes : list (Z * bytes) := [(2, [1; 2; 3; 4]); (0, [5; 6; 7; 8]); (2, [9; 10; 11; 12; 13])]%Z.

Lemma written_blocks_read_witness :
  let m := (write_blocks (fbm_openWrite (fbm_new 4 0) true None).1 sample_writes).1 in
  fbm_read m 2 [0; 0; 0; 0; 7]%Z = (true, [9; 10; 11; 12; 7]%Z) /\ fbm_read m 0 [0; 0; 0; 0]%Z = (true, [5; 6; 7; 8]%Z).
Proof.
  pose proof (written_blocks_read 4 None sample_writes ltac:(lia)
    ltac:(repeat constructor; try (apply Z.leb_le; vm_compute; reflexivity); apply Nat.leb_le; vm_compute; reflexivity)) as [_ Hr].
  split; [apply (Hr 2%Z [9; 10; 11; 12]%Z [0; 0; 0; 0; 7]%Z)|apply (Hr 0%Z [5; 6; 7; 8]%Z [0; 0; 0; 0]%Z)]; try reflexivity; cbn; lia.
Defined.

(** A file of three blocks behind one block of header. *)
Definition offset_manager : FileBlockManager :=
  {| fbm_FileAccess := Some {| wa_FileHandle := Some {| bf_content := replicate 16 1%Z; bf_cursor := 0 |}; wa_Position := 0 |};
     fbm_BlockSize := 4; fbm_BaseOffset := 4; fbm_Memory := None |}.

Lemma base_offset_write_lost_witness :
  exists m, fbm_write offset_manager 0 [2; 3; 4; 5]%Z = (m, true) /\ fbm_read m 0 [0; 0; 0; 0]%Z = (true, [1; 1; 1; 1]%Z) /\
    block_at 4 (content_of m) 0 = [2; 3; 4; 5]%Z.
Proof.
  destruct (base_offset_write_lost offset_manager {| wa_FileHandle := Some {| bf_content := replicate 16 1%Z; bf_cursor := 0 |}; wa_Position := 0 |}
    {| bf_content := replicate 16 1%Z; bf_cursor := 0 |} 0 [2; 3; 4; 5]%Z) as (m & Hrun & Hread & Hblock).
  - split; [reflexivity..|]. cbn. lia.
  - cbn. lia.
  - lia.
  - apply Z.leb_le. vm_compute. reflexivity.
  - cbn. lia.
  - apply Nat.leb_le. vm_compute. reflexivity.
  - intros file data. reflexivity.
  - exists m. split; [exact Hrun|]. split; [rewrite Hread by (cbn; lia); vm_compute; reflexivity|]. exact Hblock.
Defined.
End samples.
